(* ===== verification/_CoqProject ===== *)
-Q . S2P
Prelude.v
Bits.v
Utf8.v
BpfInstr.v
BpfVM.v
GoStrings.v
HpackVarint.v
HpackTables.v
HpackHuffman.v
HpackDecoder.v
HpackEncoder.v
HpackSafety.v
Httplex.v
Http2Errors.v
Http2Frame.v
Http2Framer.v
Http2FrameRT.v
Http2FrameSpec.v
Http2Meta.v
Http2Flow.v
Http2DataBuffer.v
Http2Pipe.v
HpackChunks.v
Http2Write.v
Http2Response.v
Http2WriteBound.v
DnsWire.v
DnsName.v
DnsNameRT.v
DnsMessage.v
DnsParser.v
DnsParserSafe.v
DnsMessageRT.v
DnsBuilder.v
DnsBuilderRef.v
DnsLimits.v
Http2WriteSched.v
Http2ServerData.v
Http2Server.v
Http2ServerInv.v
Http2ServerPanics.v
Http2ServerKeep.v
Http2ServerSteps.v
Http2ServerFuel.v
Http2ServerFrames.v
Http2ServerSafe.v
Http2Priority.v
Http2PriorityTree.v
Http2PriorityInv.v
Http2PriorityPop.v
Http2PrioritySpec.v
GoHeap.v
WebdavPath.v
WebdavLock.v
WebdavHeap.v
WebdavLockSpec.v
WebdavLockWalk.v
WebdavLockInv.v
WebdavLockCreate.v
WebdavLockRefine.v
WebdavIf.v
IdnaPunycode.v
IdnaPunycodeRT.v
WsHybi.v
WsConn.v
WsStream.v
WsConnSpec.v
WsMessages.v
WsSafe.v
HtmlEscape.v
HtmlEscapeRT.v
HtmlAtom.v
HtmlToken.v
HtmlTokenSpec.v
HtmlTokenRuns.v
HtmlTokenRT.v
