(* ===== verification/Prelude.v ===== *)
(** * A verification of the network libraries vendored in this repository

    The repository ships its Go dependencies under [src/Go_source/src]: the
    packages of [golang.org/x/net], [gopkg.in/retry.v1] and
    [gopkg.in/errgo.v1]. This library models the cores of the packages that
    parse, encode, schedule, lock and talk to a peer, and proves what makes them
    correct. Paths
    below are relative to [src/Go_source/src/golang.org/x/net].

    ** Conventions

    An unsigned Go integer is a [Z] in range, with its wrap-around written out
    ([u8], [u16], [u32], [u64], and [i32], [i64] for two's complement). A byte
    slice is a list of [Z]; [len], [upto] and [from] are Go's [len(s)], [s[:i]]
    and [s[i:]]. A call that returns an error or can panic is an [outcome]: [Ok],
    [Fail] with the error's data, or [Panic]. A loop that is not structural has
    fuel and yields [None] or [Panic] without it; each theorem about such a loop
    states that the code returns. State is passed explicitly: a method takes its
    receiver and returns the new one. Objects that several parts of the code
    point to (flow control windows, tree nodes, lock nodes) live in a store and
    are named by pointers. The errors are inductive types whose constructors are
    the source's errors; their texts are functions where the source's are used.

    ** Parts

    - [Prelude], [Bits], [Utf8], [Utf8Enc], [GoStrings]: integers, slices, byte
      order, bit strings; the decoding of runes by Go's [range] loop and their
      encoding; what the code uses of [strings] and [strconv].
    - [bpf]: the instruction set with assembler and disassembler ([BpfInstr] for
      [bpf/constants.go], [bpf/instructions.go], [bpf/asm.go]), the checks of
      [NewVM] and the machine [Run] ([BpfVM] for [bpf/vm.go],
      [bpf/vm_instructions.go]). Assembling and disassembling are inverse, and an
      accepted filter runs safely, with the one exception [LoadMemShift_panics].
    - [http2/hpack]: variable-length integers ([HpackVarint]), static and dynamic
      tables ([HpackTables] for [tables.go]), the Huffman code with the tree
      [addDecoderNode] builds ([HpackHuffman] for [huffman.go]), the decoder that
      saves partial input ([HpackDecoder] for [hpack.go]), the encoder
      ([HpackEncoder] for [encode.go]). [HpackEncoder] proves that decoder and
      encoder agree on every sequence of operations; [HpackSafety] that no input
      makes the decoder panic or lose its invariant; [HpackChunks] that a header
      block split anywhere decodes like the whole; [HpackBlocks] what a sequence
      of blocks does to the decoder.
    - [lex/httplex]: token and header value predicates ([Httplex]).
    - [http2] framing: error codes, settings and helpers ([Http2Errors] for
      [errors.go], [http2.go]), the frame types and their parsers
      ([Http2Frame]), the [Framer] with its write methods, [ReadFrame] and
      [readMetaFrame] ([Http2Framer]), all from [frame.go]. [Http2FrameRT] proves
      the round trip of every frame type, [Http2FrameSpec] the order of frames,
      [Http2Meta] what a decoded header list satisfies.
    - [http2] bodies and windows: [Http2Flow] ([flow.go]), [Http2DataBuffer]
      ([databuffer.go]), [Http2Pipe] ([pipe.go]).
    - [http2] writing: the frame writers of the server with their header tables
      ([Http2Write] for [write.go], [headermap.go]); [Http2Response] proves that
      a response written by them is the one a reader decodes, [Http2WriteBound]
      that [staysWithinBuffer] keeps its promise.
    - [http2] scheduling: requests, queues and the random scheduler
      ([Http2WriteSched] for [writesched.go], [writesched_random.go]), the
      priority scheduler on a heap of linked nodes ([Http2Priority] for
      [writesched_priority.go]) with the tree seen from above
      ([Http2PriorityTree]), the invariant of its links ([Http2PriorityInv]),
      [Pop] ([Http2PriorityPop]) and its properties ([Http2PrioritySpec]).
    - [http2] server: configuration, headers and requests ([Http2ServerReq]), the
      state of a connection and its streams ([Http2ServerData]), the serve loop
      with every method it runs ([Http2Server]), all from [server.go]. The loop's
      [select] is [sc_event]: what handlers, timers, the reading and the writing
      goroutine send to it. [Http2ServerPanics] has the runs that end in a panic.
      [Http2ServerInv] states the invariant of a connection; that every method
      keeps it is proved for the scheduler ([Http2ServerSched]), for small steps
      ([Http2ServerKeep]), for the methods that write over any scheduling
      ([Http2ServerSteps]), for the scheduling loop ([Http2ServerLoop], which
      ends by [Http2ServerFuel]), and for the client's frames
      ([Http2ServerCalm], [Http2ServerFrames]). [Http2ServerSafe] defines the
      runs of a connection and has what holds in all of them: streams and
      counters agree, nothing follows the end of a stream, and nothing that can
      be sent is left.
    - [dns/dnsmessage]: integers and text on the wire ([DnsWire]), names with
      compression ([DnsName], round trip in [DnsNameRT]), messages
      ([DnsMessage], round trip in [DnsMessageRT]), the [Parser] ([DnsParser],
      its safety and its agreement with [Unpack] in [DnsParserSafe]), the
      [Builder] ([DnsBuilder], which [DnsBuilderRef] proves equal to [Pack]), and
      the inputs at which the package misbehaves ([DnsLimits]). All model
      [message.go].
    - [webdav] locks: Go's [container/heap] with its laws as a class ([GoHeap]),
      resource names ([WebdavPath]), the in-memory lock system ([WebdavLock] for
      [lock.go]) with its heap ([WebdavHeap]), its walks to the root
      ([WebdavLockWalk]), its invariant ([WebdavLockInv]) and [Create]
      ([WebdavLockCreate]); the table of locks it implements
      ([WebdavLockSpec]) and the refinement ([WebdavLockRefine]). The [If] and
      [Timeout] headers are in [WebdavIf] ([if.go], [parseTimeout]).
    - [idna]: Punycode ([IdnaPunycode] for [punycode.go]); [IdnaPunycodeRT] keeps
      the encoder and the decoder in step, [IdnaPunycodeSafe] has its termination
      and the inputs at which it goes wrong.
    - [websocket]: frames, readers and writers ([WsHybi] for [hybi.go]),
      connections with their frame handler and codecs ([WsConn] for
      [websocket.go]). [WsStream] proves that what is read does not depend on the
      pieces of the network and that frames are read back, [WsConnSpec] what the
      frame handler does with the frames of a peer, [WsMessages] that messages
      arrive, [WsReads] that [Read] is a stream of bytes, [WsSafe] that every call
      returns and what is refused.
    - [html]: the tables of named references ([HtmlEntity] for [entity.go]),
      escaping and unescaping ([HtmlEscape] for [escape.go], round trip in
      [HtmlEscapeRT]), the atoms with their hash table ([HtmlAtom] for
      [atom/atom.go], [atom/table.go]), the tokenizer with its buffer
      ([HtmlToken] for [token.go]). [HtmlTokenView] defines what a tokenizer is
      apart from its buffer, and a calculus of weakest preconditions on these
      views; a fact proved in it holds of every buffering at once.
      [HtmlTokenSpec] has what each method does to the view, [HtmlTokenRuns]
      what holds of every run, [HtmlTokenRead] how names and attributes that are
      known are read, [HtmlTokenRT] that printed tokens are read back.

    ** Interaction

    [Framer.ReadFrame] calls the frame parsers, [checkFrameOrder] and, with a
    header decoder set, [readMetaFrame], which feeds each fragment to the HPACK
    decoder with a callback ([meta_emit]) that checks every field with
    [Httplex] and [HpackTables.Size]. The decoder takes the callback as a
    parameter, as the code does. A [pipe] uses its buffer through the class
    [PipeBuffer]: its theorems are proved against the class, and the chunked
    buffer's theorem discharges it; a heap uses its container through the class
    [Interface] and the laws [InterfaceLaws], which the heap of expiring locks
    discharges. A stream's window names its connection's window by a pointer
    into a store, since all streams share it; the schedulers split DATA frames
    by these windows ([Consume]). The serve loop puts requests into the random
    scheduler, takes frames from it, and uses windows, pipes and frames by the
    operations of their files; a frame that fits the buffer is written at once,
    another one by a goroutine whose end is an event. The tokenizer unescapes
    texts and attribute values in its own buffer, with the in-place [unescape]
    of [HtmlEscape], and looks names up in [HtmlAtom]; the bytes that [Text],
    [TagName] and [TagAttr] return are those at the time of the call, as the
    package warns that they change with the next one.

    ** Fuel

    [Run] gets one step per instruction: the counter only grows
    ([Run_accepted]). The HPACK decoder's loop gets one round per input byte,
    as every field takes at least one ([Write_total]); the Huffman loops one per
    byte of the code or of the text ([huffmanDecode_total]). [readMetaFrame]'s
    fragment loop gets one round per byte of input, as a frame header takes nine
    ([ReadFrame_meta_good]). [dataBuffer]'s loops get one round per byte asked
    for ([dataBuffer_queue]); [splitHeaderBlock] one per byte. Reading a
    compressed name gets 11 rounds per byte, as the code follows ten pointers at
    most; the section loops one round more than the count. The loops of the
    priority tree get the number of nodes, the depth of an acyclic forest
    ([Pop_serves]). The sifting of a heap gets its length, [collectExpiredNodes]
    one round per node of the heap, [walkToRoot] one per byte of the name, the
    [If] grammar one per byte of the header ([parseIfHeader_exact]). The
    scheduling loop of a server gets more rounds than the frames, bytes and
    streams of the connection allow for ([scheduling_terminates]). The loops of
    Punycode get one round per byte or rune and eleven digits for a number of 32
    bits ([punycode_total]), those of a WebSocket one per byte that can come
    ([calls_return]). The loops of the HTML tokenizer get one round per byte that
    is not part of a token yet, [readScript] four, as at most three labels in a
    row take no byte ([raw_texts_partition]); unescaping gets one per byte
    ([unescape_in_place]).

    ** Parameters

    The [io.Writer] under an encoder or framer is a function or the list of
    bytes written so far, the [io.Reader] the bytes still to come; a chunk from
    the buffer pools may have any content. [readFn] of a pipe is a number,
    logged when it runs. The order in which [range] visits a map is a function
    that permutes its keys, [sort.Sort] one that permutes its slice,
    [strings.ToLower] outside of the common header names any function. A clock
    is an argument: nanoseconds for the lock system. For a server, the space left
    in the connection's buffer and the error of writing a frame are functions of
    the number of frames started; so is the acceptance of a path by
    [url.ParseRequestURI] a function of the path. A WebSocket reads a list of
    pieces, each what one call of [Read] can give, and the error after them; it
    writes to a connection that takes a number of bytes; its masking keys are a
    list. An HTML tokenizer reads such a list too, where a piece may be empty and
    come with an error.

    ** What the models showed

    Filters that shift by 32 or more ([LoadMemShift_panics]); windows below zero
    that refuse increments ([add_negative_refused]); messages at the limits of
    the DNS format ([DnsLimits]); streams lost by [removeNode] and
    weight 256 that counts as 0 in the priority scheduler ([Http2PrioritySpec]);
    four ways to make a server panic, one of them with two frames of a client,
    and bytes a client's window never gets back ([Http2ServerPanics]); connection
    errors that a graceful shutdown swallows ([refused_settings] in
    [Http2ServerSafe], the one kind of event its runs leave out); two strings with
    one Punycode, and an encoding that is not decoded ([IdnaPunycodeSafe]);
    messages cut off by the end of a connection, reserved opcodes and the payload
    of a close frame taken for messages ([WsSafe]); numeric references of HTML
    that wrap around, and others that are refused or accepted by a length test
    ([HtmlEscapeRT]); comments that lose their text, are not closed, or change
    when they are printed ([HtmlTokenRuns]).

    ** What is not modelled

    Logging, buffer pools and the reuse of one [DataFrame] ([SetReuseFrames]);
    error strings that quote user data with [%q]; the [responseWriter] of the
    server, its handler goroutines and the checks of TLS; everything that is I/O over
    [net.Conn] or [net/http] (the client transport, WebSocket handshakes and
    deadlines, SOCKS5); the tree constructor of HTML and its output
    ([html/parse.go], [html/render.go]); kernel bindings ([ipv4], [ipv6],
    [route], [internal/socket]); what rests on generated data or on packages
    that are not in the repository ([publicsuffix], the mappings of [idna],
    [html/charset]); and floating point ([timeseries], [trace]). *)
From stdpp Require Export prelude gmap strings list fin_maps.
From Stdlib Require Export ZArith Lia.

#[global] Open Scope Z_scope.

(** * Machine integers

    A Go integer is a [Z]; [wrap w z] is the value a [w]-bit unsigned
    conversion or arithmetic result takes. *)

Definition wrap (w z : Z) : Z := z mod 2 ^ w.
Definition u8 (z : Z) : Z := wrap 8 z.
Definition u16 (z : Z) : Z := wrap 16 z.
Definition u32 (z : Z) : Z := wrap 32 z.
Definition u64 (z : Z) : Z := wrap 64 z.

(** Two's complement conversions to Go's [int32] and (64-bit) [int]. *)
Definition signed (w z : Z) : Z := (z + 2 ^ (w - 1)) mod 2 ^ w - 2 ^ (w - 1).
Definition i32 (z : Z) : Z := signed 32 z.
Definition i64 (z : Z) : Z := signed 64 z.

Definition in_width (w z : Z) : Prop := 0 <= z < 2 ^ w.

Lemma wrap_in_width w z : 0 <= w -> in_width w (wrap w z).
Proof. intros Hw. apply Z.mod_pos_bound. lia. Qed.

Lemma wrap_id w z : in_width w z -> wrap w z = z.
Proof. apply Z.mod_small. Qed.

Lemma signed_id w z : 0 < w -> - 2 ^ (w - 1) <= z < 2 ^ (w - 1) -> signed w z = z.
Proof.
  intros Hw Hz. unfold signed.
  assert (H2 : 2 ^ w = 2 * 2 ^ (w - 1)).
  { rewrite <- Z.pow_succ_r by lia. f_equal; lia. }
  rewrite Z.mod_small by lia. lia.
Qed.

Lemma signed_range w z : 0 < w -> - 2 ^ (w - 1) <= signed w z < 2 ^ (w - 1).
Proof.
  intros Hw. unfold signed.
  assert (H2 : 2 ^ w = 2 * 2 ^ (w - 1)).
  { rewrite <- Z.pow_succ_r by lia. f_equal; lia. }
  pose proof (Z.mod_pos_bound (z + 2 ^ (w - 1)) (2 ^ w) ltac:(lia)). lia.
Qed.

Lemma i64_id z : - 2 ^ 63 <= z < 2 ^ 63 -> i64 z = z.
Proof. intros. apply signed_id; [lia|]. by change (64 - 1) with 63. Qed.

#[global] Instance in_width_dec w z : Decision (in_width w z).
Proof. unfold in_width. apply _. Defined.

(** A Go shift: the count is unsigned and a count of the operand's width or
    more gives zero. *)
Definition shl (w x n : Z) : Z := wrap w (Z.shiftl x n).
Definition shr (x n : Z) : Z := Z.shiftr x n.

(** * Bytes and strings

    A [[]byte] and a Go [string] are both lists of bytes. *)

Abbreviation bytes := (list Z) (only parsing).

Definition byte_ok (b : Z) : Prop := in_width 8 b.
Definition bytes_ok (l : list Z) : Prop := Forall byte_ok l.

#[global] Instance byte_ok_dec b : Decision (byte_ok b).
Proof. unfold byte_ok. apply _. Defined.
#[global] Instance bytes_ok_dec l : Decision (bytes_ok l).
Proof. unfold bytes_ok. apply _. Defined.

(** A string literal of the source. *)
Definition str (s : string) : list Z :=
  (fun a => Z.of_N (Ascii.N_of_ascii a)) <$> String.list_ascii_of_string s.

(** [len(l)]. *)
Definition len {A} (l : list A) : Z := Z.of_nat (length l).

(** [l[i]] as an option; [None] is Go's index panic. *)
Definition at_ {A} (l : list A) (i : Z) : option A :=
  if decide (0 <= i) then l !! Z.to_nat i else None.

(** [l[n:]] and [l[:n]] for [0 <= n <= len(l)]. *)
Definition from {A} (n : Z) (l : list A) : list A := drop (Z.to_nat n) l.
Definition upto {A} (n : Z) (l : list A) : list A := take (Z.to_nat n) l.

(** [encoding/binary.BigEndian]: the value of a list of bytes, and the [n]
    bytes of a value. *)
Definition be_get (l : list Z) : Z := foldl (fun acc b => acc * 256 + b) 0 l.
Fixpoint be_put (n : nat) (z : Z) : list Z :=
  match n with
  | O => []
  | S n' => u8 (Z.shiftr z (8 * Z.of_nat n')) :: be_put n' z
  end.

(** * Outcomes of Go code

    [Ok] is a normal return, [Fail] an error value, [Panic] a run-time panic
    (index out of range, explicit [panic]). *)

Inductive outcome (E A : Type) : Type :=
| Ok (a : A)
| Fail (e : E)
| Panic.
Arguments Ok {E A} a.
Arguments Fail {E A} e.
Arguments Panic {E A}.

#[global] Instance outcome_ret E : MRet (outcome E) := fun A a => Ok a.
#[global] Instance outcome_bind E : MBind (outcome E) := fun A B f m =>
  match m with Ok a => f a | Fail e => Fail e | Panic => Panic end.
#[global] Instance outcome_fmap E : FMap (outcome E) := fun A B f m =>
  match m with Ok a => Ok (f a) | Fail e => Fail e | Panic => Panic end.

#[global] Instance outcome_eq_dec E A `{!EqDecision E, !EqDecision A} :
  EqDecision (outcome E A).
Proof. solve_decision. Defined.

(** An index expression in outcome-returning code. *)
Definition or_panic {E A} (o : option A) : outcome E A :=
  match o with Some a => Ok a | None => Panic end.

Lemma bind_Ok {E A B} (m : outcome E A) (k : A -> outcome E B) b : m ≫= k = Ok b -> exists a, m = Ok a /\ k a = Ok b.
Proof. destruct m; cbn; [eauto|intros [=]..]. Qed.

Lemma or_panic_Ok {E A} (o : option A) a : or_panic (E := E) o = Ok a -> o = Some a.
Proof. destruct o; cbn; congruence. Qed.

(** Go's [map[K]uint64] lookup: a missing key reads as zero. *)
Definition map_get0 {K} `{Countable K} (m : gmap K Z) (k : K) : Z := default 0 (m !! k).

Create HintDb go discriminated.
Create Rewrite HintDb go_len.

Ltac invert H := inversion H; subst; clear H.

(** Split every boolean test and match of the goal, turning integer tests into
    their propositions. *)
Ltac z_cases :=
  repeat match goal with
  | |- context [if ?a =? ?b then _ else _] => destruct (Z.eqb_spec a b)
  | |- context [if ?a <? ?b then _ else _] => destruct (Z.ltb_spec a b)
  | |- context [if ?a <=? ?b then _ else _] => destruct (Z.leb_spec a b)
  end.

Ltac z_cases_in H :=
  repeat match type of H with
  | context [if ?a =? ?b then _ else _] => destruct (Z.eqb_spec a b)
  | context [if ?a <? ?b then _ else _] => destruct (Z.ltb_spec a b)
  | context [if ?a <=? ?b then _ else _] => destruct (Z.leb_spec a b)
  end.

(** Range goals on concrete or hypothesised widths. *)
Ltac solve_width :=
  solve [ assumption
        | unfold byte_ok, in_width in *; lia
        | apply (bool_decide_unpack _); vm_compute; exact I ].

(** * Lists *)

Lemma len_nonneg {A} (l : list A) : 0 <= len l.
Proof. unfold len. lia. Qed.

Lemma len_nil {A} : len (@nil A) = 0.
Proof. reflexivity. Qed.

Lemma len_cons {A} (x : A) l : len (x :: l) = len l + 1.
Proof. unfold len. simpl. lia. Qed.

Lemma len_app {A} (l k : list A) : len (l ++ k) = len l + len k.
Proof. unfold len. rewrite length_app. lia. Qed.

Lemma len_upto {A} n (l : list A) : 0 <= n <= len l -> len (upto n l) = n.
Proof. unfold len, upto. intros. rewrite length_take. lia. Qed.

Lemma len_from {A} n (l : list A) : 0 <= n <= len l -> len (from n l) = len l - n.
Proof. unfold len, from. intros. rewrite length_drop. lia. Qed.

Lemma upto_from {A} n (l : list A) : upto n l ++ from n l = l.
Proof. apply take_drop. Qed.

Lemma upto_app_len {A} n (l k : list A) : n = len l -> upto n (l ++ k) = l.
Proof. intros ->. unfold upto, len. rewrite Nat2Z.id. apply take_app_length. Qed.

Lemma from_app_len {A} n (l k : list A) : n = len l -> from n (l ++ k) = k.
Proof. intros ->. unfold from, len. rewrite Nat2Z.id. apply drop_app_length. Qed.

Lemma from_cons {A} i (d : list A) x t : 0 <= i -> from i d = x :: t -> at_ d i = Some x /\ from (i + 1) d = t.
Proof.
  intros Hi Hf. unfold from, at_ in *. rewrite decide_True by done. split.
  - rewrite <- (Nat.add_0_r (Z.to_nat i)), <- lookup_drop, Hf. done.
  - replace (Z.to_nat (i + 1)) with (Z.to_nat i + 1)%nat by lia. by rewrite <- drop_drop, Hf.
Qed.

Lemma from_behind {A} i (d x t : list A) : 0 <= i -> from i d = x ++ t -> from (i + len x) d = t.
Proof.
  intros Hi Hf. unfold from, len in *. replace (Z.to_nat (i + _)) with (Z.to_nat i + length x)%nat by lia.
  rewrite <- drop_drop, Hf. apply drop_app_length.
Qed.

Lemma at_Some {A} (l : list A) i : 0 <= i < len l -> exists x, at_ l i = Some x.
Proof.
  intros Hi. unfold at_, len in *. rewrite decide_True by lia.
  destruct (lookup_lt_is_Some_2 l (Z.to_nat i)) as [x Hx]; [lia | eauto].
Qed.

Lemma at_lt {A} (l : list A) i x : at_ l i = Some x -> 0 <= i < len l.
Proof.
  unfold at_, len. case_decide; [|done]. intros Hx%lookup_lt_Some. lia.
Qed.

Lemma at_In {A} (l : list A) i x : at_ l i = Some x -> x ∈ l.
Proof. unfold at_. case_decide; [|done]. intros. eapply list_elem_of_lookup_2; eauto. Qed.

Lemma bytes_ok_app l k : bytes_ok (l ++ k) <-> bytes_ok l /\ bytes_ok k.
Proof. apply Forall_app. Qed.

Lemma bytes_ok_single b : bytes_ok [b] <-> byte_ok b.
Proof. apply Forall_singleton. Qed.

Lemma bytes_ok_upto n l : bytes_ok l -> bytes_ok (upto n l).
Proof. apply Forall_take. Qed.

Lemma bytes_ok_from n l : bytes_ok l -> bytes_ok (from n l).
Proof. apply Forall_drop. Qed.

(** * Bits *)

Lemma wrap_land w z : 0 <= w -> wrap w z = Z.land z (Z.ones w).
Proof. intros. unfold wrap. by rewrite Z.land_ones. Qed.

(** [lor] of a multiple of [2^n] and a number below [2^n] adds them. *)
Lemma lor_add n a b : 0 <= n -> a mod 2 ^ n = 0 -> in_width n b -> Z.lor a b = a + b.
Proof.
  intros Hn Ha Hb. pose proof (Z.add_lor_land a b) as Hal.
  assert (H : Z.land a b = 0); [|lia].
  apply Z.bits_inj'. intros i Hi. rewrite Z.land_spec, Z.bits_0.
  destruct (decide (i < n)).
  - rewrite <- (Z.mod_pow2_bits_low a n i) by lia. by rewrite Ha, Z.bits_0.
  - rewrite <- (Z.mod_small b (2 ^ n)) by apply Hb.
    rewrite (Z.mod_pow2_bits_high b) by lia. apply andb_false_r.
Qed.

Lemma lor_shiftl_add n a b : 0 <= n -> in_width n b -> Z.lor (Z.shiftl a n) b = a * 2 ^ n + b.
Proof.
  intros Hn Hb. rewrite Z.shiftl_mul_pow2 by lia.
  apply lor_add with n; [lia| |done]. by apply Z_mod_mult.
Qed.

Lemma in_width_land w a b : 0 <= w -> in_width w a -> in_width w (Z.land a b).
Proof.
  intros Hw Ha.
  assert (H : Z.land a b = wrap w (Z.land a b)).
  { rewrite wrap_land by lia. rewrite <- Z.land_assoc, (Z.land_comm b), Z.land_assoc.
    rewrite <- wrap_land by lia. by rewrite wrap_id. }
  rewrite H. by apply wrap_in_width.
Qed.

Lemma in_width_lor w a b : 0 <= w -> in_width w a -> in_width w b -> in_width w (Z.lor a b).
Proof.
  intros Hw Ha Hb.
  assert (H : Z.lor a b = wrap w (Z.lor a b)).
  { rewrite wrap_land by lia. rewrite Z.land_lor_distr_l.
    rewrite <- !wrap_land by lia. by rewrite !wrap_id. }
  rewrite H. by apply wrap_in_width.
Qed.

Lemma in_width_lxor w a b : 0 <= w -> in_width w a -> in_width w b -> in_width w (Z.lxor a b).
Proof.
  intros Hw Ha Hb.
  assert (H : Z.lxor a b = wrap w (Z.lxor a b)).
  { rewrite wrap_land by lia. apply Z.bits_inj'. intros i Hi.
    rewrite Z.land_spec, Z.lxor_spec.
    rewrite <- (wrap_id w a) at 1 by done. rewrite <- (wrap_id w b) at 1 by done.
    rewrite !wrap_land, !Z.land_spec by lia. by destruct (Z.testbit a i), (Z.testbit b i), (Z.testbit (Z.ones w) i). }
  rewrite H. by apply wrap_in_width.
Qed.

Lemma in_width_weaken w v z : w <= v -> in_width w z -> in_width v z.
Proof.
  intros Hw [H0 H1]. split; [done|]. destruct (decide (0 <= w)).
  - eapply Z.lt_le_trans; [done|]. by apply Z.pow_le_mono_r.
  - rewrite Z.pow_neg_r in H1 by lia. lia.
Qed.

#[export] Hint Resolve wrap_in_width in_width_land in_width_lor in_width_lxor : go.
#[export] Hint Resolve len_nonneg bytes_ok_upto bytes_ok_from : go.
#[export] Hint Rewrite @len_nil @len_cons @len_app : go_len.

(** * Big-endian integers *)

Lemma be_get_foldl acc l : foldl (fun a b => a * 256 + b) acc l = acc * 256 ^ len l + be_get l.
Proof.
  revert acc. unfold be_get. induction l as [|b l IH]; intros acc.
  { simpl. rewrite len_nil. lia. }
  simpl. rewrite IH, (IH (0 * 256 + b)). rewrite len_cons.
  rewrite Z.pow_add_r by (unfold len; lia). lia.
Qed.

Lemma be_get_cons b l : be_get (b :: l) = b * 256 ^ len l + be_get l.
Proof. unfold be_get at 1. simpl. rewrite be_get_foldl. lia. Qed.

Lemma be_get_bound l : bytes_ok l -> 0 <= be_get l < 256 ^ len l.
Proof.
  induction 1 as [|b l Hb Hl IH]; [done|].
  rewrite be_get_cons, len_cons, Z.pow_add_r by (unfold len; lia).
  unfold byte_ok, in_width in Hb. change (2 ^ 8) with 256 in Hb. nia.
Qed.

Lemma length_be_put n z : length (be_put n z) = n.
Proof. induction n; simpl; auto. Qed.

Lemma len_be_put n z : len (be_put n z) = Z.of_nat n.
Proof. unfold len. by rewrite length_be_put. Qed.

Lemma be_put_ok n z : bytes_ok (be_put n z).
Proof. induction n; simpl; constructor; [|done]. by apply wrap_in_width. Qed.

Lemma be_get_put n z : be_get (be_put n z) = wrap (8 * Z.of_nat n) z.
Proof.
  induction n as [|n IH].
  { unfold wrap. simpl be_put. by rewrite Z.mod_1_r. }
  simpl be_put. rewrite be_get_cons, IH, len_be_put. unfold u8, wrap.
  rewrite Z.shiftr_div_pow2 by lia.
  change 256 with (2 ^ 8). rewrite <- Z.pow_mul_r by lia.
  replace (8 * Z.of_nat (S n)) with (8 * Z.of_nat n + 8) by lia.
  rewrite Z.pow_add_r by lia.
  rewrite (Z.rem_mul_r z (2 ^ (8 * Z.of_nat n)) (2 ^ 8)) by lia. lia.
Qed.

Lemma be_put_get l : bytes_ok l -> be_put (length l) (be_get l) = l.
Proof.
  induction 1 as [|b l Hb Hl IH]; [done|].
  pose proof (be_get_bound l Hl) as Hbd.
  assert (Hq : forall k, (k <= length l)%nat ->
            be_put k (be_get (b :: l)) = be_put k (be_get l)).
  { rewrite be_get_cons. intros k Hk. induction k as [|k IHk]; [done|].
    simpl. rewrite IHk by lia. f_equal. unfold u8, wrap.
    rewrite !Z.shiftr_div_pow2 by lia.
    replace (256 ^ len l) with (2 ^ (8 * (len l - Z.of_nat (S k))) * 2 ^ 8 * 2 ^ (8 * Z.of_nat k)).
    2: { change 256 with (2 ^ 8). rewrite <- Z.pow_mul_r, <- !Z.pow_add_r by (unfold len; lia).
         f_equal. unfold len. lia. }
    rewrite !Z.mul_assoc, Z.add_comm, Z.div_add by lia.
    by rewrite Z.mod_add by lia. }
  simpl be_put. rewrite Hq, IH by done. f_equal.
  rewrite be_get_cons. unfold u8, wrap. rewrite Z.shiftr_div_pow2 by lia.
  replace (2 ^ (8 * Z.of_nat (length l))) with (256 ^ len l).
  2: { change 256 with (2 ^ 8). rewrite <- Z.pow_mul_r by (unfold len; lia). done. }
  rewrite Z.add_comm, Z.div_add, Z.div_small by lia. apply Z.mod_small. apply Hb.
Qed.

Lemma be_put_wrap n w z : 8 * Z.of_nat n <= w -> be_put n (wrap w z) = be_put n z.
Proof.
  intros Hw. induction n as [|n IH]; [done|]. simpl. rewrite IH by lia. f_equal.
  unfold u8. rewrite !wrap_land by lia. apply Z.bits_inj'. intros i Hi.
  rewrite !Z.land_spec, !Z.shiftr_spec, !Z.land_spec by lia.
  destruct (decide (i < 8)).
  - rewrite (Z.ones_spec_low w) by lia. by rewrite andb_true_r.
  - rewrite (Z.ones_spec_high 8) by lia. by rewrite !andb_false_r.
Qed.

(** * Facts about all bytes, by enumeration *)

Lemma byte_forall (P : Z -> bool) :
  forallb P (seqZ 0 256) = true -> forall b, byte_ok b -> P b = true.
Proof.
  intros HP b Hb. rewrite forallb_forall in HP. apply HP. apply list_elem_of_In.
  apply elem_of_seqZ. unfold byte_ok, in_width in Hb. lia.
Qed.

Lemma byte_land_128 b : byte_ok b -> (Z.land b 128 =? 0) = (b <? 128).
Proof.
  intros Hb. apply eqb_prop. revert b Hb. apply byte_forall. by vm_compute.
Qed.

Lemma land_mask n x m : 0 <= n -> m = Z.ones n -> Z.land x m = x mod 2 ^ n.
Proof. intros Hn ->. by apply Z.land_ones. Qed.
