(* ===== verification/Bits.v ===== *)
(** Integers as bit lists, most significant bit first. *)
From S2P Require Import Prelude.

Fixpoint bits (w : nat) (z : Z) : list bool :=
  match w with
  | O => []
  | S w' => Z.testbit z (Z.of_nat w') :: bits w' z
  end.

(** The number a bit list denotes. *)
Definition val (l : list bool) : Z := foldl (fun acc b => 2 * acc + Z.b2z b) 0 l.

(** The bits of a byte string. *)
Definition flat (l : bytes) : list bool := concat (bits 8 <$> l).

Lemma length_bits w z : length (bits w z) = w.
Proof. induction w; simpl; congruence. Qed.

Lemma bits_ext w x y : (forall i, 0 <= i < Z.of_nat w -> Z.testbit x i = Z.testbit y i) -> bits w x = bits w y.
Proof.
  induction w as [|w IH]; intros H; simpl; [done|]. f_equal; [apply H; lia|apply IH; intros; apply H; lia].
Qed.

Lemma bits_app a b z : bits (a + b) z = bits a (Z.shiftr z (Z.of_nat b)) ++ bits b z.
Proof.
  induction a as [|a IH]; simpl; [done|]. rewrite IH. f_equal.
  rewrite Z.shiftr_spec by lia. f_equal. lia.
Qed.

Lemma take_bits a b z : (a <= b)%nat -> take a (bits b z) = bits a (Z.shiftr z (Z.of_nat (b - a))).
Proof.
  intros H. replace b with (a + (b - a))%nat at 1 by lia. rewrite bits_app.
  rewrite take_app_le by (rewrite length_bits; lia).
  rewrite take_ge by (rewrite length_bits; lia). do 2 f_equal.
Qed.

Lemma drop_bits a b z : drop a (bits b z) = bits (b - a) z.
Proof.
  destruct (decide (a <= b)%nat).
  - replace b with (a + (b - a))%nat at 1 by lia. rewrite bits_app.
    by rewrite drop_app_length' by (rewrite length_bits; lia).
  - rewrite drop_ge by (rewrite length_bits; lia). by replace (b - a)%nat with O by lia.
Qed.

Lemma bits_0 w : bits w 0 = replicate w false.
Proof. induction w; simpl; [done|]. rewrite Z.bits_0. by f_equal. Qed.

Lemma bits_ones w v : (w <= v)%nat -> bits w (Z.ones (Z.of_nat v)) = replicate w true.
Proof.
  induction w as [|w IH]; simpl; intros H; [done|].
  rewrite Z.ones_spec_low by lia. f_equal. apply IH. lia.
Qed.

Lemma bits_mod w v z : (w <= v)%nat -> bits w (z mod 2 ^ Z.of_nat v) = bits w z.
Proof. intros H. apply bits_ext. intros i Hi. apply Z.mod_pow2_bits_low. lia. Qed.

Lemma bits_wrap w v z : Z.of_nat w <= v -> bits w (wrap v z) = bits w z.
Proof. intros H. apply bits_ext. intros i Hi. apply Z.mod_pow2_bits_low. lia. Qed.

Lemma foldl_val acc l : foldl (fun acc b => 2 * acc + Z.b2z b) acc l = acc * 2 ^ len l + val l.
Proof.
  revert acc. unfold val. induction l as [|b l IH]; intros acc; cbn [foldl].
  { change (len []) with 0. lia. }
  rewrite IH, (IH (2 * 0 + _)), len_cons, Z.pow_add_r by (unfold len; lia). lia.
Qed.

Lemma val_cons b l : val (b :: l) = Z.b2z b * 2 ^ len l + val l.
Proof. unfold val at 1. cbn [foldl]. rewrite foldl_val. lia. Qed.

Lemma val_bound l : 0 <= val l < 2 ^ len l.
Proof.
  induction l as [|b l IH]; [done|]. rewrite val_cons, len_cons, Z.pow_add_r by (unfold len; lia).
  destruct b; simpl Z.b2z; lia.
Qed.

Lemma val_bits w z : val (bits w z) = z mod 2 ^ Z.of_nat w.
Proof.
  induction w as [|w IH]; simpl bits; [by rewrite Z.mod_1_r|].
  rewrite val_cons, IH. unfold len. rewrite length_bits.
  rewrite Nat2Z.inj_succ, <- Z.add_1_r, Z.pow_add_r by lia.
  rewrite Z.rem_mul_r by lia. rewrite Z.testbit_spec' by lia. change (2 ^ 1) with 2. ring.
Qed.

Lemma bits_val l : bits (length l) (val l) = l.
Proof.
  induction l as [|b l IH]; [done|]. simpl bits. rewrite val_cons. f_equal.
  - pose proof (val_bound l). unfold len in *.
    apply Z.b2z_inj. rewrite Z.testbit_spec' by lia.
    rewrite Z.div_add_l, Z.div_small by lia. destruct b; done.
  - etrans; [|exact IH]. apply bits_ext. intros i Hi. unfold len.
    rewrite <- (Z.mod_pow2_bits_low _ (Z.of_nat (length l)) i) by lia.
    rewrite Z.add_comm, Z.mod_add by lia. f_equal. apply Z.mod_small. apply val_bound.
Qed.

(** Appending eight bits to a bit buffer. *)
Lemma bits_push w cur b : byte_ok b ->
  bits (w + 8) (Z.lor (Z.shiftl cur 8) b) = bits w cur ++ bits 8 b.
Proof.
  intros Hb. rewrite bits_app. f_equal; apply bits_ext; intros i Hi.
  - rewrite Z.shiftr_spec, Z.lor_spec, Z.shiftl_spec by lia.
    replace (i + Z.of_nat 8 - 8) with i by lia.
    rewrite <- (wrap_id 8 b) by done. unfold wrap. rewrite (Z.mod_pow2_bits_high b) by lia.
    apply orb_false_r.
  - rewrite Z.lor_spec, Z.shiftl_spec_low by lia. done.
Qed.

Lemma flat_app l k : flat (l ++ k) = flat l ++ flat k.
Proof. unfold flat. by rewrite fmap_app, concat_app. Qed.

Lemma flat_cons b l : flat (b :: l) = bits 8 b ++ flat l.
Proof. reflexivity. Qed.

Lemma length_flat l : length (flat l) = (8 * length l)%nat.
Proof. induction l as [|b l IH]; [done|]. rewrite flat_cons, length_app, length_bits, IH. simpl. lia. Qed.

Lemma flat_inj l k : bytes_ok l -> bytes_ok k -> flat l = flat k -> l = k.
Proof.
  intros Hl. revert k. induction Hl as [|b l Hb Hl IH]; intros k Hk Hf.
  - destruct k; [done|]. apply (f_equal length) in Hf. by rewrite !length_flat in Hf.
  - destruct Hk as [|c k Hc Hk]; [apply (f_equal length) in Hf; by rewrite !length_flat in Hf|].
    rewrite !flat_cons in Hf. apply app_inj_1 in Hf as [Hbc Hf]; [|by rewrite !length_bits].
    f_equal; [|by apply IH]. apply (f_equal val) in Hbc. rewrite !val_bits in Hbc.
    change (2 ^ Z.of_nat 8) with (2 ^ 8) in Hbc. by rewrite !Z.mod_small in Hbc by done.
Qed.

(** Or-ing [r] new low bits into a byte whose [r] low bits are clear. *)
Lemma bits_fill b t (r : nat) W :
  (r <= 8)%nat -> bits 8 b = W ++ replicate r false -> 0 <= t < 2 ^ Z.of_nat r ->
  bits 8 (Z.lor b t) = W ++ bits r t.
Proof.
  intros Hr Hb Ht.
  assert (Hlen : length W = (8 - r)%nat).
  { apply (f_equal length) in Hb. rewrite length_bits, length_app, length_replicate in Hb. lia. }
  pose proof Hb as Hb'. replace 8%nat with ((8 - r) + r)%nat in Hb' at 1 by lia. rewrite bits_app in Hb'.
  apply app_inj_1 in Hb' as [HW H0]; [|by rewrite length_bits].
  replace 8%nat with ((8 - r) + r)%nat at 1 by lia. rewrite bits_app. rewrite <- HW.
  f_equal; apply bits_ext; intros i Hi.
  - rewrite Z.shiftr_lor, Z.lor_spec, (Z.shiftr_spec t) by lia.
    rewrite <- (Z.mod_small t (2 ^ Z.of_nat r)) by done.
    rewrite (Z.mod_pow2_bits_high t) by lia. apply orb_false_r.
  - rewrite Z.lor_spec. replace (Z.testbit b i) with false; [done|]. symmetry.
    rewrite <- (bits_0 r) in H0. revert H0 i Hi. clear. induction r as [|r IH]; intros H i Hi; [lia|].
    simpl in H. injection H as Ht H. destruct (decide (i = Z.of_nat r)) as [->|].
    + by rewrite Ht, Z.bits_0.
    + apply IH; [done|lia].
Qed.
