(* ===== verification/Utf8.v ===== *)
(** Runes: what [for i, r := range s] and [unicode/utf8] compute on a string, and
    runes to bytes, [utf8.EncodeRune]. *)

From S2P Require Import Prelude.

Definition RuneSelf : Z := 0x80.
Definition RuneError : Z := 0xFFFD.
Definition MaxRune : Z := 0x10FFFF.

Definition in_range (lo hi b : Z) : bool := (lo <=? b) && (b <=? hi).

(** The length announced by a first byte and the range of its second byte;
    [None] for a byte that starts no sequence. *)
Definition first_byte (b : Z) : option (nat * Z * Z) :=
  if in_range 0xC2 0xDF b then Some (2%nat, 0x80, 0xBF)
  else if b =? 0xE0 then Some (3%nat, 0xA0, 0xBF)
  else if b =? 0xED then Some (3%nat, 0x80, 0x9F)
  else if in_range 0xE1 0xEF b then Some (3%nat, 0x80, 0xBF)
  else if b =? 0xF0 then Some (4%nat, 0x90, 0xBF)
  else if b =? 0xF4 then Some (4%nat, 0x80, 0x8F)
  else if in_range 0xF1 0xF3 b then Some (4%nat, 0x80, 0xBF)
  else None.

Definition cont (b : Z) : bool := in_range 0x80 0xBF b.

(** [utf8.DecodeRuneInString] on a non-empty string: the rune and its width. *)
Definition decode_rune (p0 : Z) (p : bytes) : Z * nat :=
  if p0 <? RuneSelf then (p0, 1%nat) else
  match first_byte p0, p with
  | Some (2%nat, lo, hi), b1 :: _ =>
      if in_range lo hi b1 then (Z.lor (Z.shiftl (Z.land p0 0x1F) 6) (Z.land b1 0x3F), 2%nat)
      else (RuneError, 1%nat)
  | Some (3%nat, lo, hi), b1 :: b2 :: _ =>
      if in_range lo hi b1 && cont b2 then
        (Z.lor (Z.shiftl (Z.land p0 0x0F) 12)
           (Z.lor (Z.shiftl (Z.land b1 0x3F) 6) (Z.land b2 0x3F)), 3%nat)
      else (RuneError, 1%nat)
  | Some (4%nat, lo, hi), b1 :: b2 :: b3 :: _ =>
      if in_range lo hi b1 && cont b2 && cont b3 then
        (Z.lor (Z.shiftl (Z.land p0 0x07) 18)
           (Z.lor (Z.shiftl (Z.land b1 0x3F) 12)
              (Z.lor (Z.shiftl (Z.land b2 0x3F) 6) (Z.land b3 0x3F))), 4%nat)
      else (RuneError, 1%nat)
  | _, _ => (RuneError, 1%nat)
  end.

(** The pairs [(i, r)] that [range s] visits, from byte index [i] on. *)
Fixpoint runes_from (fuel : nat) (i : Z) (s : bytes) : list (Z * Z) :=
  match fuel, s with
  | S fuel', b :: s' =>
      let '(r, w) := decode_rune b s' in
      (i, r) :: runes_from fuel' (i + Z.of_nat w) (drop w s)
  | _, _ => []
  end.

Definition range_runes (s : bytes) : list (Z * Z) := runes_from (length s) 0 s.

(** [[]rune(s)]. *)
Definition runes (s : bytes) : list Z := snd <$> range_runes s.

Definition ascii (b : Z) : Prop := 0 <= b < RuneSelf.

Lemma decode_rune_ascii b p : b < RuneSelf -> decode_rune b p = (b, 1%nat).
Proof. intros Hb. unfold decode_rune. by rewrite (proj2 (Z.ltb_lt _ _)). Qed.

Lemma land_low k b : 0 <= k -> Z.land b (2 ^ k - 1) = b mod 2 ^ k.
Proof. intros. rewrite <- Z.land_ones by done. by rewrite Z.ones_equiv, <- Z.sub_1_r. Qed.

Lemma cont_bits b : Z.land b 0x3F = b mod 64.
Proof. exact (land_low 6 b ltac:(lia)). Qed.

Lemma join6 a b : Z.lor (Z.shiftl a 6) (b mod 64) = a * 64 + b mod 64.
Proof. apply (lor_shiftl_add 6); [lia|]. unfold in_width. change (2 ^ 6) with 64. pose proof (Z.mod_pos_bound b 64). lia. Qed.

Lemma join k a b : 0 <= k -> 0 <= b < 2 ^ k -> Z.lor (Z.shiftl a k) b = a * 2 ^ k + b.
Proof. intros. by apply lor_shiftl_add. Qed.

Lemma in_range_true lo hi b : in_range lo hi b = true <-> lo <= b <= hi.
Proof. unfold in_range. rewrite andb_true_iff. lia. Qed.

Lemma first_byte_ok b n lo hi : first_byte b = Some (n, lo, hi) ->
  (n = 2%nat /\ 0xC2 <= b <= 0xDF /\ lo = 0x80) \/
  (n = 3%nat /\ 0xE0 <= b <= 0xEF /\ 0x80 <= lo /\ hi <= 0xBF /\ (b = 0xE0 -> lo = 0xA0)) \/
  (n = 4%nat /\ 0xF0 <= b <= 0xF4 /\ 0x80 <= lo /\ hi <= 0xBF /\ (b = 0xF0 -> lo = 0x90)).
Proof.
  unfold first_byte. intros H.
  repeat match type of H with
  | context [in_range ?a ?c b] => destruct (in_range a c b) eqn:?
  | context [b =? ?c] => destruct (Z.eqb_spec b c)
  end; simplify_eq; rewrite ?in_range_true in *; lia.
Qed.

(** A byte outside ASCII starts a rune outside ASCII, valid or not. *)
Lemma decode_rune_high b p : byte_ok b -> RuneSelf <= b -> RuneSelf <= (decode_rune b p).1.
Proof.
  intros Hb Hhi. unfold decode_rune, RuneSelf, RuneError in *. rewrite (proj2 (Z.ltb_ge _ _)) by done.
  destruct (first_byte b) as [[[n lo] hi]|] eqn:Hf; [|simpl; lia].
  apply first_byte_ok in Hf as [(-> & Hr & Hlo)|[(-> & Hr & Hlo & Hhi' & Hz)|(-> & Hr & Hlo & Hhi' & Hz)]].
  - destruct p as [|b1 p]; [simpl; lia|]. destruct (in_range lo hi b1) eqn:H1; [|simpl; lia]. simpl.
    change 0x1F with (2 ^ 5 - 1). rewrite land_low, cont_bits, join6 by lia. change (2 ^ 5) with 32.
    pose proof (Z.mod_pos_bound b1 64). Z.to_euclidean_division_equations. lia.
  - destruct p as [|b1 [|b2 p]]; [simpl; lia..|].
    destruct (in_range lo hi b1 && cont b2) eqn:H1; [|simpl; lia]. simpl.
    apply andb_true_iff in H1 as [H1%in_range_true H2%in_range_true].
    change 0x0F with (2 ^ 4 - 1). rewrite land_low, !cont_bits, join6 by lia.
    rewrite join by (change (2 ^ 12) with 4096; pose proof (Z.mod_pos_bound b1 64 ltac:(lia));
      pose proof (Z.mod_pos_bound b2 64 ltac:(lia)); lia).
    change (2 ^ 12) with 4096. change (2 ^ 4) with 16.
    pose proof (Z.mod_pos_bound b1 64 ltac:(lia)). pose proof (Z.mod_pos_bound b2 64 ltac:(lia)).
    destruct (Z.eq_dec b 0xE0) as [->|].
    + specialize (Hz eq_refl). subst lo. assert (32 <= b1 mod 64) by (Z.to_euclidean_division_equations; lia).
      change (0xE0 mod 16) with 0. lia.
    + assert (1 <= b mod 16) by (Z.to_euclidean_division_equations; lia). lia.
  - destruct p as [|b1 [|b2 [|b3 p]]]; [simpl; lia..|].
    destruct (in_range lo hi b1 && cont b2 && cont b3) eqn:H1; [|simpl; lia]. simpl.
    apply andb_true_iff in H1 as [[H1%in_range_true H2]%andb_true_iff _].
    change 0x07 with (2 ^ 3 - 1). rewrite land_low, !cont_bits, join6 by lia.
    pose proof (Z.mod_pos_bound b1 64 ltac:(lia)). pose proof (Z.mod_pos_bound b2 64 ltac:(lia)).
    pose proof (Z.mod_pos_bound b3 64 ltac:(lia)).
    rewrite (join 12) by (change (2 ^ 12) with 4096; lia).
    rewrite join by (change (2 ^ 18) with 262144; change (2 ^ 12) with 4096; lia).
    change (2 ^ 12) with 4096. change (2 ^ 18) with 262144. change (2 ^ 3) with 8.
    destruct (Z.eq_dec b 0xF0) as [->|].
    + specialize (Hz eq_refl). subst lo. assert (16 <= b1 mod 64) by (Z.to_euclidean_division_equations; lia).
      change (0xF0 mod 8) with 0. lia.
    + assert (1 <= b mod 8) by (Z.to_euclidean_division_equations; lia). lia.
Qed.

(** A test that holds of ASCII runes only can be made on the bytes. *)
Lemma forallb_runes P s :
  (forall r, RuneSelf <= r -> P r = false) -> bytes_ok s -> forallb P (runes s) = forallb P s.
Proof.
  intros HP. unfold runes, range_runes. generalize 0. remember (length s) as n eqn:Hn.
  assert (Hle : (length s <= n)%nat) by lia. clear Hn. revert s Hle.
  induction n as [|n IH]; intros s Hle i Hs; [by destruct s; simpl in *; [|lia]|].
  destruct s as [|b s]; [done|]. apply Forall_cons in Hs as [Hb Hs]. simpl in Hle. cbn [runes_from].
  destruct (Z.lt_ge_cases b RuneSelf) as [Hlo|Hhi].
  - rewrite decode_rune_ascii by done. cbn [drop fmap list_fmap snd forallb]. rewrite drop_0. f_equal. apply IH; [lia|done].
  - pose proof (decode_rune_high b s Hb Hhi) as Hr. destruct (decode_rune b s) as [r w]. simpl in *.
    by rewrite (HP r), (HP b).
Qed.

(** An ASCII string is its own list of runes. *)
Lemma runes_from_ascii fuel i s : Forall ascii s -> (length s <= fuel)%nat ->
  runes_from fuel i s = imap (fun k b => (i + Z.of_nat k, b)) s.
Proof.
  revert i s. induction fuel as [|fuel IH]; intros i s Hs Hl; destruct s as [|b s]; simpl in *; try done; [lia|].
  apply Forall_cons in Hs as [[_ Hb] Hs]. rewrite decode_rune_ascii by done.
  f_equal; [f_equal; lia|]. simpl. rewrite ?drop_0, IH by (done || lia).
  apply imap_ext. intros k x _. unfold compose. f_equal. simpl. lia.
Qed.

Lemma snd_imap (l : bytes) (g : nat -> Z) : snd <$> imap (fun k b => (g k, b)) l = l.
Proof. revert g. induction l as [|b l IH]; intros g; [done|]. simpl. f_equal. apply IH. Qed.

Lemma runes_ascii s : Forall ascii s -> runes s = s.
Proof.
  intros Hs. unfold runes, range_runes. rewrite runes_from_ascii by done.
  apply (snd_imap s (fun k => 0 + Z.of_nat k)).
Qed.

Definition surrogate (r : Z) : bool := in_range 0xD800 0xDFFF r.

(** A rune that is not a Unicode scalar value becomes [RuneError]. *)
Definition encode3 (r : Z) : bytes :=
  [Z.lor 0xE0 (Z.shiftr r 12); Z.lor 0x80 (Z.land (Z.shiftr r 6) 0x3F); Z.lor 0x80 (Z.land r 0x3F)].
Definition encode_rune (r : Z) : bytes :=
  if (0 <=? r) && (r <=? 0x7F) then [r]
  else if (0 <=? r) && (r <=? 0x7FF) then [Z.lor 0xC0 (Z.shiftr r 6); Z.lor 0x80 (Z.land r 0x3F)]
  else if (r <? 0) || (MaxRune <? r) || surrogate r then encode3 RuneError
  else if r <=? 0xFFFF then encode3 r
  else [Z.lor 0xF0 (Z.shiftr r 18); Z.lor 0x80 (Z.land (Z.shiftr r 12) 0x3F);
        Z.lor 0x80 (Z.land (Z.shiftr r 6) 0x3F); Z.lor 0x80 (Z.land r 0x3F)].

(** [string(rs)]. *)
Definition string_of_runes (rs : list Z) : bytes := rs ≫= encode_rune.

(** Unicode scalar values. *)
Definition scalar (r : Z) : Prop := 0 <= r <= MaxRune /\ surrogate r = false.

Lemma lor_tail a x n : 0 <= n -> a mod 2 ^ n = 0 -> 0 <= x < 2 ^ n -> Z.lor a x = a + x.
Proof. intros. by apply (lor_add n). Qed.

Lemma tail_byte x : Z.lor 0x80 (Z.land x 0x3F) = 0x80 + x mod 64.
Proof. rewrite cont_bits. apply (lor_tail _ _ 6); [lia|done|]. change (2 ^ 6) with 64. apply Z.mod_pos_bound. lia. Qed.

Lemma shiftr_div x k : 0 <= k -> Z.shiftr x k = x / 2 ^ k.
Proof. apply Z.shiftr_div_pow2. Qed.

Lemma tail_bits x : Z.land (0x80 + x mod 64) 0x3F = x mod 64.
Proof. rewrite cont_bits. replace (0x80 + x mod 64) with (x mod 64 + 2 * 64) by lia. by rewrite Z.mod_add, Z.mod_mod by lia. Qed.

Lemma cont_tail x : cont (0x80 + x mod 64) = true.
Proof. apply in_range_true. pose proof (Z.mod_pos_bound x 64 ltac:(lia)). lia. Qed.

(** What starts like an encoded rune is read back as that rune. *)
Lemma decode_encode_rune r tl : scalar r ->
  exists b s, encode_rune r ++ tl = b :: s /\ decode_rune b s = (r, length (encode_rune r)).
Proof.
  intros [Hr Hs]. unfold MaxRune in Hr. unfold encode_rune. unfold surrogate, in_range in Hs.
  destruct (Z.leb_spec 0 r); [|lia]. cbn [andb]. destruct (Z.leb_spec r 0x7F).
  { eexists _, _. split; [reflexivity|]. apply decode_rune_ascii. unfold RuneSelf. lia. }
  destruct (Z.leb_spec r 0x7FF).
  { eexists _, _. split; [reflexivity|]. rewrite tail_byte, shiftr_div by lia. change (2 ^ 6) with 64.
    assert (Ha : 2 <= r / 64 < 32) by (split; [apply Z.div_le_lower_bound; lia|apply Z.div_lt_upper_bound; lia]).
    rewrite (lor_tail _ _ 5) by (first [lia|done]). unfold decode_rune, RuneSelf.
    rewrite (proj2 (Z.ltb_ge _ _)) by lia. unfold first_byte. rewrite (proj2 (in_range_true _ _ _)) by lia.
    cbn [app]. rewrite (proj2 (in_range_true 0x80 0xBF _)) by (pose proof (Z.mod_pos_bound r 64); lia).
    rewrite tail_bits. f_equal. change 0x1F with (2 ^ 5 - 1). rewrite land_low by lia. change (2 ^ 5) with 32.
    replace (192 + r / 64) with (r / 64 + 6 * 32) by lia. rewrite Z.mod_add, Z.mod_small by lia. rewrite join6. pose proof (Z_div_mod_eq_full r 64). lia. }
  rewrite (proj2 (Z.ltb_ge r 0)), (proj2 (Z.ltb_ge MaxRune r)) by (unfold MaxRune; lia). unfold surrogate, in_range. rewrite Hs. cbn [orb].
  destruct (Z.leb_spec r 0xFFFF).
  { eexists _, _. split; [reflexivity|]. rewrite !tail_byte, !shiftr_div by lia. change (2 ^ 12) with 4096. change (2 ^ 6) with 64.
    assert (Ha : 0 <= r / 4096 < 16) by (split; [apply Z.div_pos; lia|apply Z.div_lt_upper_bound; lia]).
    rewrite (lor_tail _ _ 4) by (first [lia|done]). set (a := r / 4096) in *. set (b := r / 64 mod 64).
    assert (Hb : 0 <= b < 64) by (apply Z.mod_pos_bound; lia).
    assert (Eb : r / 64 = a * 64 + b). { unfold a, b. change 4096 with (64 * 64). rewrite <- Z.div_div by lia. pose proof (Z_div_mod_eq_full (r / 64) 64). lia. }
    assert (Er : r = (a * 64 + b) * 64 + r mod 64) by (pose proof (Z_div_mod_eq_full r 64); lia).
    assert (Hc : 0 <= r mod 64 < 64) by (apply Z.mod_pos_bound; lia).
    assert (Hfb : exists lo hi, first_byte (224 + a) = Some (3%nat, lo, hi) /\ in_range lo hi (128 + b) = true).
    { unfold first_byte. replace (in_range 0xC2 0xDF (224 + a)) with false by (symmetry; unfold in_range; z_cases; lia).
      destruct (Z.eqb_spec (224 + a) 0xE0); [eexists _, _; split; [reflexivity|]; apply in_range_true; lia|].
      destruct (Z.eqb_spec (224 + a) 0xED).
      - eexists _, _. split; [reflexivity|]. apply in_range_true. split; [lia|]. apply andb_false_iff in Hs. destruct Hs as [Hs|Hs]; apply Z.leb_gt in Hs; lia.
      - rewrite (proj2 (in_range_true _ _ _)) by lia. eexists _, _. split; [reflexivity|]. apply in_range_true. lia. }
    destruct Hfb as (lo & hi & Hfb & Hin). unfold decode_rune, RuneSelf. rewrite (proj2 (Z.ltb_ge _ _)) by lia. rewrite Hfb. cbn [app]. fold b. rewrite Hin, cont_tail. cbn [andb].
    f_equal. rewrite tail_bits. unfold b at 1. rewrite tail_bits. fold b. change 0x0F with (2 ^ 4 - 1). rewrite land_low by lia. change (2 ^ 4) with 16.
    replace (224 + a) with (a + 14 * 16) by lia. rewrite Z.mod_add, Z.mod_small by lia. rewrite (join 6 b) by lia. rewrite join by (change (2 ^ 12) with 4096; change (2 ^ 6) with 64; lia).
    change (2 ^ 12) with 4096. change (2 ^ 6) with 64. lia. }
  eexists _, _. split; [reflexivity|]. rewrite !tail_byte, !shiftr_div by lia. change (2 ^ 18) with 262144. change (2 ^ 12) with 4096. change (2 ^ 6) with 64.
  set (a := r / 262144). set (b := r / 4096 mod 64). set (c := r / 64 mod 64).
  assert (Ha : 0 <= a < 5) by (unfold a; split; [apply Z.div_pos; lia|apply Z.div_lt_upper_bound; lia]).
  rewrite (lor_tail _ _ 3) by (first [lia|done]).
  assert (Hb : 0 <= b < 64) by (apply Z.mod_pos_bound; lia). assert (Hc : 0 <= c < 64) by (apply Z.mod_pos_bound; lia).
  assert (E1 : r / 4096 = a * 64 + b). { unfold a, b. change 262144 with (4096 * 64). rewrite <- Z.div_div by lia. pose proof (Z_div_mod_eq_full (r / 4096) 64). lia. }
  assert (E2 : r / 64 = (a * 64 + b) * 64 + c). { rewrite <- E1. unfold c. change 4096 with (64 * 64). rewrite <- Z.div_div by lia. pose proof (Z_div_mod_eq_full (r / 64) 64). lia. }
  assert (Er : r = ((a * 64 + b) * 64 + c) * 64 + r mod 64) by (pose proof (Z_div_mod_eq_full r 64); lia).
  assert (Hd : 0 <= r mod 64 < 64) by (apply Z.mod_pos_bound; lia).
  assert (Hfb : exists lo hi, first_byte (240 + a) = Some (4%nat, lo, hi) /\ in_range lo hi (128 + b) = true).
  { unfold first_byte. replace (in_range 0xC2 0xDF (240 + a)) with false by (symmetry; unfold in_range; z_cases; lia).
    rewrite (proj2 (Z.eqb_neq (240 + a) 0xE0)), (proj2 (Z.eqb_neq (240 + a) 0xED)) by lia. replace (in_range 0xE1 0xEF (240 + a)) with false by (symmetry; unfold in_range; z_cases; lia).
    destruct (Z.eqb_spec (240 + a) 0xF0); [eexists _, _; split; [reflexivity|]; apply in_range_true; lia|].
    destruct (Z.eqb_spec (240 + a) 0xF4); [eexists _, _; split; [reflexivity|]; apply in_range_true; lia|].
    rewrite (proj2 (in_range_true _ _ _)) by lia. eexists _, _. split; [reflexivity|]. apply in_range_true. lia. }
  destruct Hfb as (lo & hi & Hfb & Hin). unfold decode_rune, RuneSelf. rewrite (proj2 (Z.ltb_ge _ _)) by lia. rewrite Hfb. cbn [app]. fold b c. rewrite Hin.
  unfold c at 1. rewrite cont_tail, cont_tail. cbn [andb]. f_equal. rewrite tail_bits. unfold b at 1, c at 1. rewrite !tail_bits. fold b c.
  change 0x07 with (2 ^ 3 - 1). rewrite land_low by lia. change (2 ^ 3) with 8.
  replace (240 + a) with (a + 30 * 8) by lia. rewrite Z.mod_add, Z.mod_small by lia. rewrite (join 6 c) by lia. rewrite (join 12 b) by (change (2 ^ 12) with 4096; change (2 ^ 6) with 64; lia).
  rewrite join by (change (2 ^ 18) with 262144; change (2 ^ 12) with 4096; change (2 ^ 6) with 64; lia).
  change (2 ^ 18) with 262144. change (2 ^ 12) with 4096. change (2 ^ 6) with 64. lia.
Qed.

Lemma encode_rune_length r : (1 <= length (encode_rune r) <= 4)%nat.
Proof. unfold encode_rune. repeat case_match; cbn; lia. Qed.

Lemma string_of_runes_length rs : (length rs <= length (string_of_runes rs))%nat.
Proof. induction rs as [|r rs IH]; [done|]. unfold string_of_runes in *. cbn. rewrite length_app. pose proof (encode_rune_length r). lia. Qed.

(** [[]rune(string(rs))]. *)
Lemma runes_string rs : Forall scalar rs -> runes (string_of_runes rs) = rs.
Proof.
  intros H. unfold runes, range_runes.
  enough (Hg : forall fuel i, (length (string_of_runes rs) <= fuel)%nat -> snd <$> runes_from fuel i (string_of_runes rs) = rs) by (by apply Hg).
  induction H as [|r rs Hr H IH]; intros fuel i Hf; [by destruct fuel|]. unfold string_of_runes in *. cbn [mbind list_bind] in *.
  destruct (decode_encode_rune r (rs ≫= encode_rune) Hr) as (b & s & E & Ed). pose proof (encode_rune_length r). rewrite length_app in Hf.
  destruct fuel as [|fuel]; [lia|]. assert (Hdrop : drop (length (encode_rune r)) (b :: s) = rs ≫= encode_rune) by (by rewrite <- E, drop_app_length).
  rewrite E. cbn [runes_from]. rewrite Ed, Hdrop. cbn [fmap list_fmap snd]. f_equal. apply IH. lia.
Qed.

(** * What decoding gives *)

Lemma scalar_intro r : 0 <= r <= MaxRune -> r < 0xD800 \/ 0xDFFF < r -> scalar r.
Proof. intros Hr H. split; [done|]. unfold surrogate, in_range. destruct H; z_cases; cbn; lia. Qed.

Lemma scalar_error : scalar RuneError.
Proof. done. Qed.

(** The values of the sequences of two, three and four bytes. *)
Lemma value2 b b1 : Z.lor (Z.shiftl (Z.land b 0x1F) 6) (Z.land b1 0x3F) = b mod 32 * 64 + b1 mod 64.
Proof. change 0x1F with (2 ^ 5 - 1). by rewrite land_low, cont_bits, join6 by lia. Qed.

Lemma value3 b b1 b2 : Z.lor (Z.shiftl (Z.land b 0x0F) 12) (Z.lor (Z.shiftl (Z.land b1 0x3F) 6) (Z.land b2 0x3F)) = b mod 16 * 4096 + (b1 mod 64 * 64 + b2 mod 64).
Proof.
  change 0x0F with (2 ^ 4 - 1). rewrite land_low, !cont_bits, join6 by lia.
  pose proof (Z.mod_pos_bound b1 64 ltac:(lia)). pose proof (Z.mod_pos_bound b2 64 ltac:(lia)). by rewrite join by (change (2 ^ 12) with 4096; lia).
Qed.

Lemma value4 b b1 b2 b3 : Z.lor (Z.shiftl (Z.land b 0x07) 18) (Z.lor (Z.shiftl (Z.land b1 0x3F) 12) (Z.lor (Z.shiftl (Z.land b2 0x3F) 6) (Z.land b3 0x3F))) =
  b mod 8 * 262144 + (b1 mod 64 * 4096 + (b2 mod 64 * 64 + b3 mod 64)).
Proof.
  change 0x07 with (2 ^ 3 - 1). rewrite land_low, !cont_bits, join6 by lia. pose proof (Z.mod_pos_bound b1 64 ltac:(lia)).
  pose proof (Z.mod_pos_bound b2 64 ltac:(lia)). pose proof (Z.mod_pos_bound b3 64 ltac:(lia)).
  rewrite (join 12) by (change (2 ^ 12) with 4096; lia). by rewrite join by (change (2 ^ 18) with 262144; change (2 ^ 12) with 4096; lia).
Qed.

(** Every rune that is read is a scalar value. *)
Lemma decode_rune_scalar b s : byte_ok b -> scalar (decode_rune b s).1.
Proof.
  intros Hb. unfold byte_ok, in_width in Hb. change (2 ^ 8) with 256 in Hb. unfold decode_rune, RuneSelf. destruct (Z.ltb_spec b 0x80); [apply scalar_intro; cbn; unfold MaxRune; lia|].
  unfold first_byte. destruct (in_range 0xC2 0xDF b) eqn:E2; [|destruct (Z.eqb_spec b 0xE0) as [->|]; [|destruct (Z.eqb_spec b 0xED) as [->|];
    [|destruct (in_range 0xE1 0xEF b) eqn:E3; [|destruct (Z.eqb_spec b 0xF0) as [->|]; [|destruct (Z.eqb_spec b 0xF4) as [->|]; [|destruct (in_range 0xF1 0xF3 b) eqn:E4; [|apply scalar_error]]]]]]].
  all: destruct s as [|b1 [|b2 [|b3 s]]]; try apply scalar_error.
  all: match goal with |- scalar (fst (if ?c then _ else _)) => destruct c eqn:Ec; [|apply scalar_error] end; cbn [fst]; rewrite ?value2, ?value3, ?value4.
  all: unfold cont in Ec; rewrite ?andb_true_iff, ?in_range_true in *; apply scalar_intro; unfold MaxRune; Z.to_euclidean_division_equations; lia.
Qed.

Lemma runes_scalar s : bytes_ok s -> Forall scalar (runes s).
Proof.
  unfold runes, range_runes. generalize (length s) as fuel, 0. intros fuel. revert s. induction fuel as [|fuel IH]; intros s i Hs; [constructor|].
  destruct s as [|b s]; [constructor|]. cbn [runes_from]. apply Forall_cons in Hs as [Hb Hs]. pose proof (decode_rune_scalar b s Hb).
  destruct (decode_rune b s) as [r w]. cbn. constructor; [done|]. apply IH. apply Forall_drop. by constructor.
Qed.

Lemma runes_length s : (length (runes s) <= length s)%nat.
Proof.
  unfold runes, range_runes. rewrite length_fmap. generalize 0. assert (H : forall fuel i, (length (runes_from fuel i s) <= fuel)%nat); [|intros; apply H].
  intros fuel. revert s. induction fuel as [|fuel IH]; intros s i; [done|]. destruct s as [|b s]; [cbn; lia|]. cbn [runes_from].
  destruct (decode_rune b s). cbn [length]. specialize (IH (drop n (b :: s)) (i + Z.of_nat n)). lia.
Qed.
