(* ===== verification/BpfInstr.v ===== *)
(** BPF instructions: the data, the assembler and the disassembler of
    [bpf/constants.go], [bpf/instructions.go] and [bpf/asm.go]. *)
From S2P Require Import Prelude.

(** * Constants (bpf/constants.go) *)

Definition RegA : Z := 0.
Definition RegX : Z := 1.

Definition ALUOpAdd : Z := 0x00.
Definition ALUOpSub : Z := 0x10.
Definition ALUOpMul : Z := 0x20.
Definition ALUOpDiv : Z := 0x30.
Definition ALUOpOr : Z := 0x40.
Definition ALUOpAnd : Z := 0x50.
Definition ALUOpShiftLeft : Z := 0x60.
Definition ALUOpShiftRight : Z := 0x70.
Definition aluOpNeg : Z := 0x80.
Definition ALUOpMod : Z := 0x90.
Definition ALUOpXor : Z := 0xa0.

Definition JumpEqual : Z := 0.
Definition JumpNotEqual : Z := 1.
Definition JumpGreaterThan : Z := 2.
Definition JumpLessThan : Z := 3.
Definition JumpGreaterOrEqual : Z := 4.
Definition JumpLessOrEqual : Z := 5.
Definition JumpBitsSet : Z := 6.
Definition JumpBitsNotSet : Z := 7.

Definition extOffset : Z := -0x1000.
Definition ExtLen : Z := 1.
Definition ExtProto : Z := 0.
Definition ExtType : Z := 4.
Definition ExtPayloadOffset : Z := 52.
Definition ExtInterfaceIndex : Z := 8.
Definition ExtNetlinkAttr : Z := 12.
Definition ExtNetlinkAttrNested : Z := 16.
Definition ExtMark : Z := 20.
Definition ExtQueue : Z := 24.
Definition ExtLinkLayerType : Z := 28.
Definition ExtRXHash : Z := 32.
Definition ExtCPUID : Z := 36.
Definition ExtVLANTag : Z := 44.
Definition ExtVLANTagPresent : Z := 48.
Definition ExtVLANProto : Z := 60.
Definition ExtRand : Z := 56.

Definition opMaskCls : Z := 0x7.
Definition opMaskLoadDest : Z := 0x01.
Definition opMaskLoadWidth : Z := 0x18.
Definition opMaskLoadMode : Z := 0xe0.
Definition opMaskOperandSrc : Z := 0x08.
Definition opMaskOperator : Z := 0xf0.
Definition opMaskJumpConst : Z := 0x0f.
Definition opMaskJumpCond : Z := 0xf0.

Definition opClsLoadA : Z := 0.
Definition opClsLoadX : Z := 1.
Definition opClsStoreA : Z := 2.
Definition opClsStoreX : Z := 3.
Definition opClsALU : Z := 4.
Definition opClsJump : Z := 5.
Definition opClsReturn : Z := 6.
Definition opClsMisc : Z := 7.

Definition opAddrModeImmediate : Z := 0x00.
Definition opAddrModeAbsolute : Z := 0x20.
Definition opAddrModeIndirect : Z := 0x40.
Definition opAddrModeScratch : Z := 0x60.
Definition opAddrModePacketLen : Z := 0x80.
Definition opAddrModeMemShift : Z := 0xa0.

Definition opLoadWidth4 : Z := 0x00.
Definition opLoadWidth2 : Z := 0x08.
Definition opLoadWidth1 : Z := 0x10.

Definition opALUSrcConstant : Z := 0x00.
Definition opALUSrcX : Z := 0x08.

Definition opJumpAlways : Z := 0x00.
Definition opJumpEqual : Z := 0x10.
Definition opJumpGT : Z := 0x20.
Definition opJumpGE : Z := 0x30.
Definition opJumpSet : Z := 0x40.

Definition opRetSrcConstant : Z := 0x00.
Definition opRetSrcA : Z := 0x10.

Definition opMiscTAX : Z := 0x00.
Definition opMiscTXA : Z := 0x80.

(** * Instructions (bpf/instructions.go) *)

Record RawInstruction := mkRaw { Op : Z; Jt : Z; Jf : Z; K : Z }.

(** The concrete types implementing the [Instruction] interface. *)
Inductive Instruction :=
| Raw (ri : RawInstruction)
| LoadConstant (Dst Val : Z)
| LoadScratch (Dst N : Z)
| LoadAbsolute (Off Size : Z)
| LoadIndirect (Off Size : Z)
| LoadMemShift (Off : Z)
| LoadExtension (Num : Z)
| StoreScratch (Src N : Z)
| ALUOpConstant (AOp Val : Z)
| ALUOpX (AOp : Z)
| NegateA
| Jump (Skip : Z)
| JumpIf (Cond Val SkipTrue SkipFalse : Z)
| RetA
| RetConstant (Val : Z)
| TXA
| TAX.

#[global] Instance RawInstruction_eq_dec : EqDecision RawInstruction.
Proof. solve_decision. Defined.
#[global] Instance Instruction_eq_dec : EqDecision Instruction.
Proof. solve_decision. Defined.

(** The error values built with [fmt.Errorf] and [errors.New]. *)
Inductive bpf_error :=
| ErrScratchSlot (n : Z)
| ErrTargetRegister (dst : Z)
| ErrLoadLength (printed : Z)
| ErrSourceRegister (src : Z)
| ErrUnknownJumpTest (c : Z)
| ErrAssembling (index : Z) (e : bpf_error)
| ErrNoInstructions
| ErrJumpBounds (skip : Z)
| ErrJumpTrueBounds (skip : Z)
| ErrJumpFalseBounds (skip : Z)
| ErrDivideByZero
| ErrExtensionNotImplemented (num : Z)
| ErrMustEndWithRet
| ErrUnknownInstruction (index : Z) (ins : Instruction).

#[global] Instance bpf_error_eq_dec : EqDecision bpf_error.
Proof. solve_decision. Defined.

Abbreviation asm := (outcome bpf_error RawInstruction).

Definition assembleLoad (dst loadSize mode k : Z) : asm :=
  cls ← (if dst =? RegA then Ok opClsLoadA
         else if dst =? RegX then Ok opClsLoadX
         else Fail (ErrTargetRegister dst));
  sz ← (if loadSize =? 1 then Ok opLoadWidth1
        else if loadSize =? 2 then Ok opLoadWidth2
        else if loadSize =? 4 then Ok opLoadWidth4
        else Fail (ErrLoadLength 0));
  Ok (mkRaw (Z.lor (Z.lor cls sz) mode) 0 0 k).

Definition Raw_Assemble (ri : RawInstruction) : asm := Ok ri.

Definition LoadConstant_Assemble (Dst Val : Z) : asm :=
  assembleLoad Dst 4 opAddrModeImmediate Val.

Definition LoadScratch_Assemble (Dst N : Z) : asm :=
  if (N <? 0) || (15 <? N) then Fail (ErrScratchSlot N)
  else assembleLoad Dst 4 opAddrModeScratch (u32 N).

Definition LoadAbsolute_Assemble (Off Size : Z) : asm :=
  assembleLoad RegA Size opAddrModeAbsolute Off.

Definition LoadIndirect_Assemble (Off Size : Z) : asm :=
  assembleLoad RegA Size opAddrModeIndirect Off.

Definition LoadMemShift_Assemble (Off : Z) : asm :=
  assembleLoad RegX 1 opAddrModeMemShift Off.

Definition LoadExtension_Assemble (Num : Z) : asm :=
  if Num =? ExtLen then assembleLoad RegA 4 opAddrModePacketLen 0
  else assembleLoad RegA 4 opAddrModeAbsolute (u32 (i64 (extOffset + Num))).

Definition StoreScratch_Assemble (Src N : Z) : asm :=
  if (N <? 0) || (15 <? N) then Fail (ErrScratchSlot N)
  else
    op ← (if Src =? RegA then Ok opClsStoreA
          else if Src =? RegX then Ok opClsStoreX
          else Fail (ErrSourceRegister Src));
    Ok (mkRaw op 0 0 (u32 N)).

Definition ALUOpConstant_Assemble (AOp Val : Z) : asm :=
  Ok (mkRaw (Z.lor (Z.lor opClsALU opALUSrcConstant) AOp) 0 0 Val).

Definition ALUOpX_Assemble (AOp : Z) : asm :=
  Ok (mkRaw (Z.lor (Z.lor opClsALU opALUSrcX) AOp) 0 0 0).

Definition NegateA_Assemble : asm := Ok (mkRaw (Z.lor opClsALU aluOpNeg) 0 0 0).

Definition Jump_Assemble (Skip : Z) : asm :=
  Ok (mkRaw (Z.lor opClsJump opJumpAlways) 0 0 Skip).

Definition JumpIf_Assemble (Cond Val SkipTrue SkipFalse : Z) : asm :=
  cf ← (if Cond =? JumpEqual then Ok (opJumpEqual, false)
        else if Cond =? JumpNotEqual then Ok (opJumpEqual, true)
        else if Cond =? JumpGreaterThan then Ok (opJumpGT, false)
        else if Cond =? JumpLessThan then Ok (opJumpGE, true)
        else if Cond =? JumpGreaterOrEqual then Ok (opJumpGE, false)
        else if Cond =? JumpLessOrEqual then Ok (opJumpGT, true)
        else if Cond =? JumpBitsSet then Ok (opJumpSet, false)
        else if Cond =? JumpBitsNotSet then Ok (opJumpSet, true)
        else Fail (ErrUnknownJumpTest Cond));
  let '(cond, flip) := cf : Z * bool in
  let '(jt, jf) := if flip then (SkipFalse, SkipTrue) else (SkipTrue, SkipFalse) in
  Ok (mkRaw (Z.lor opClsJump cond) jt jf Val).

Definition RetA_Assemble : asm := Ok (mkRaw (Z.lor opClsReturn opRetSrcA) 0 0 0).

Definition RetConstant_Assemble (Val : Z) : asm :=
  Ok (mkRaw (Z.lor opClsReturn opRetSrcConstant) 0 0 Val).

Definition TXA_Assemble : asm := Ok (mkRaw (Z.lor opClsMisc opMiscTXA) 0 0 0).

Definition TAX_Assemble : asm := Ok (mkRaw (Z.lor opClsMisc opMiscTAX) 0 0 0).

(** The interface method: dispatch on the dynamic type. *)
Definition Instruction_Assemble (i : Instruction) : asm :=
  match i with
  | Raw ri => Raw_Assemble ri
  | LoadConstant d v => LoadConstant_Assemble d v
  | LoadScratch d n => LoadScratch_Assemble d n
  | LoadAbsolute o s => LoadAbsolute_Assemble o s
  | LoadIndirect o s => LoadIndirect_Assemble o s
  | LoadMemShift o => LoadMemShift_Assemble o
  | LoadExtension n => LoadExtension_Assemble n
  | StoreScratch s n => StoreScratch_Assemble s n
  | ALUOpConstant o v => ALUOpConstant_Assemble o v
  | ALUOpX o => ALUOpX_Assemble o
  | NegateA => NegateA_Assemble
  | Jump s => Jump_Assemble s
  | JumpIf c v t f => JumpIf_Assemble c v t f
  | RetA => RetA_Assemble
  | RetConstant v => RetConstant_Assemble v
  | TXA => TXA_Assemble
  | TAX => TAX_Assemble
  end.

Definition aluBinaryOp (op : Z) : bool :=
  (op =? ALUOpAdd) || (op =? ALUOpSub) || (op =? ALUOpMul) || (op =? ALUOpDiv)
  || (op =? ALUOpOr) || (op =? ALUOpAnd) || (op =? ALUOpShiftLeft)
  || (op =? ALUOpShiftRight) || (op =? ALUOpMod) || (op =? ALUOpXor).

Definition disassembleLoad (ri : RawInstruction) : Instruction :=
  let reg := Z.land (Op ri) opMaskLoadDest in
  let width := Z.land (Op ri) opMaskLoadWidth in
  let decode sz :=
    let mode := Z.land (Op ri) opMaskLoadMode in
    if mode =? opAddrModeImmediate then
      if negb (sz =? 4) then Raw ri else LoadConstant reg (K ri)
    else if mode =? opAddrModeScratch then
      if negb (sz =? 4) || (15 <? K ri) then Raw ri else LoadScratch reg (K ri)
    else if mode =? opAddrModeAbsolute then
      if extOffset + 0xffffffff <? K ri then LoadExtension (u32 (- extOffset + K ri))
      else LoadAbsolute (K ri) sz
    else if mode =? opAddrModeIndirect then LoadIndirect (K ri) sz
    else if mode =? opAddrModePacketLen then
      if negb (sz =? 4) then Raw ri else LoadExtension ExtLen
    else if mode =? opAddrModeMemShift then LoadMemShift (K ri)
    else Raw ri in
  if width =? opLoadWidth4 then decode 4
  else if width =? opLoadWidth2 then decode 2
  else if width =? opLoadWidth1 then decode 1
  else Raw ri.

Definition disassembleJump (ri : RawInstruction) : Instruction :=
  if negb (Z.land (Op ri) opMaskJumpConst =? opClsJump) then Raw ri else
  let cond := Z.land (Op ri) opMaskJumpCond in
  if cond =? opJumpAlways then Jump (K ri)
  else if cond =? opJumpEqual then
    if Jt ri =? 0 then JumpIf JumpNotEqual (K ri) (Jf ri) 0
    else JumpIf JumpEqual (K ri) (Jt ri) (Jf ri)
  else if cond =? opJumpGT then
    if Jt ri =? 0 then JumpIf JumpLessOrEqual (K ri) (Jf ri) 0
    else JumpIf JumpGreaterThan (K ri) (Jt ri) (Jf ri)
  else if cond =? opJumpGE then
    if Jt ri =? 0 then JumpIf JumpLessThan (K ri) (Jf ri) 0
    else JumpIf JumpGreaterOrEqual (K ri) (Jt ri) (Jf ri)
  else if cond =? opJumpSet then JumpIf JumpBitsSet (K ri) (Jt ri) (Jf ri)
  else Raw ri.

Definition Raw_Disassemble (ri : RawInstruction) : outcome bpf_error Instruction :=
  let cls := Z.land (Op ri) opMaskCls in
  if (cls =? opClsLoadA) || (cls =? opClsLoadX) then Ok (disassembleLoad ri)
  else if cls =? opClsStoreA then
    if negb (Op ri =? opClsStoreA) || (15 <? K ri) then Ok (Raw ri)
    else Ok (StoreScratch RegA (K ri))
  else if cls =? opClsStoreX then
    if negb (Op ri =? opClsStoreX) || (15 <? K ri) then Ok (Raw ri)
    else Ok (StoreScratch RegX (K ri))
  else if cls =? opClsALU then
    let op := Z.land (Op ri) opMaskOperator in
    if aluBinaryOp op then
      if negb (Z.land (Op ri) opMaskOperandSrc =? 0) then Ok (ALUOpX op)
      else Ok (ALUOpConstant op (K ri))
    else if op =? aluOpNeg then Ok NegateA
    else Ok (Raw ri)
  else if cls =? opClsJump then Ok (disassembleJump ri)
  else if cls =? opClsReturn then
    if Op ri =? Z.lor opClsReturn opRetSrcA then Ok RetA
    else if Op ri =? Z.lor opClsReturn opRetSrcConstant then Ok (RetConstant (K ri))
    else Ok (Raw ri)
  else if cls =? opClsMisc then
    if Op ri =? Z.lor opClsMisc opMiscTAX then Ok TAX
    else if Op ri =? Z.lor opClsMisc opMiscTXA then Ok TXA
    else Ok (Raw ri)
  else Panic.

(** * Programs (bpf/asm.go) *)

Fixpoint Assemble_from (i : Z) (insts : list Instruction) : outcome bpf_error (list RawInstruction) :=
  match insts with
  | [] => Ok []
  | inst :: rest =>
      match Instruction_Assemble inst with
      | Ok r => rs ← Assemble_from (i + 1) rest; Ok (r :: rs)
      | Fail e => Fail (ErrAssembling (i + 1) e)
      | Panic => Panic
      end
  end.

Definition Assemble (insts : list Instruction) : outcome bpf_error (list RawInstruction) :=
  Assemble_from 0 insts.

Definition is_Raw (i : Instruction) : bool := match i with Raw _ => true | _ => false end.

Fixpoint Disassemble (raw : list RawInstruction) : outcome bpf_error (list Instruction * bool) :=
  match raw with
  | [] => Ok ([], true)
  | r :: rest =>
      i ← Raw_Disassemble r;
      p ← Disassemble rest;
      Ok (i :: p.1, negb (is_Raw i) && p.2)
  end.

(** * Well-formed and canonical instructions

    [instr_ok]: the fields lie in their Go types' ranges and name operations
    the package defines (what [Assemble] needs to produce an opcode of the
    intended class). *)
Definition instr_ok (i : Instruction) : Prop :=
  match i with
  | Raw _ => False
  | LoadConstant d v => (d = RegA \/ d = RegX) /\ in_width 32 v
  | LoadScratch d n => (d = RegA \/ d = RegX) /\ 0 <= n <= 15
  | LoadAbsolute o s => in_width 32 o /\ (s = 1 \/ s = 2 \/ s = 4)
  | LoadIndirect o s => in_width 32 o /\ (s = 1 \/ s = 2 \/ s = 4)
  | LoadMemShift o => in_width 32 o
  | LoadExtension n => 0 <= n < - extOffset
  | StoreScratch s n => (s = RegA \/ s = RegX) /\ 0 <= n <= 15
  | ALUOpConstant o v => aluBinaryOp o = true /\ in_width 32 v
  | ALUOpX o => aluBinaryOp o = true
  | Jump s => in_width 32 s
  | JumpIf c v t f => 0 <= c <= JumpBitsNotSet /\ in_width 32 v /\ in_width 8 t /\ in_width 8 f
  | RetConstant v => in_width 32 v
  | NegateA | RetA | TXA | TAX => True
  end.

Definition raw_ok (r : RawInstruction) : Prop :=
  in_width 16 (Op r) /\ in_width 8 (Jt r) /\ in_width 8 (Jf r) /\ in_width 32 (K r).

(** The test a jump makes when its outcome is negated. *)
Definition negate_test (c : Z) : Z :=
  if c =? JumpEqual then JumpNotEqual
  else if c =? JumpNotEqual then JumpEqual
  else if c =? JumpGreaterThan then JumpLessOrEqual
  else if c =? JumpLessOrEqual then JumpGreaterThan
  else if c =? JumpGreaterOrEqual then JumpLessThan
  else if c =? JumpLessThan then JumpGreaterOrEqual
  else if c =? JumpBitsSet then JumpBitsNotSet
  else JumpBitsSet.

Definition positive_test (c : Z) : bool :=
  (c =? JumpEqual) || (c =? JumpGreaterThan) || (c =? JumpGreaterOrEqual) || (c =? JumpBitsSet).

(** The representative the disassembler picks among the instructions that
    assemble to the same opcode: a jump in its positive form unless its true
    branch falls through; a load of the kernel's extension area as an
    extension. *)
Definition canonical (i : Instruction) : Instruction :=
  match i with
  | LoadAbsolute o s =>
      if extOffset + 0xffffffff <? o then LoadExtension (o - (2 ^ 32 + extOffset)) else i
  | JumpIf c v t f =>
      let '(c', t', f') := if positive_test c then (c, t, f) else (negate_test c, f, t) in
      if (t' =? 0) && negb (c' =? JumpBitsSet) then JumpIf (negate_test c') v f' 0
      else JumpIf c' v t' f'
  | _ => i
  end.

Ltac in_cases :=
  repeat match goal with
  | H : _ \/ _ |- _ => destruct H
  | H : _ /\ _ |- _ => destruct H
  end; subst.

(** The ten binary operators, one by one. *)
Lemma aluBinaryOp_cases op : aluBinaryOp op = true ->
  op = 0x00 \/ op = 0x10 \/ op = 0x20 \/ op = 0x30 \/ op = 0x40 \/ op = 0x50 \/
  op = 0x60 \/ op = 0x70 \/ op = 0x90 \/ op = 0xa0.
Proof.
  unfold aluBinaryOp. rewrite !orb_true_iff, !Z.eqb_eq. tauto.
Qed.

Lemma jump_test_cases c : 0 <= c <= JumpBitsNotSet ->
  c = 0 \/ c = 1 \/ c = 2 \/ c = 3 \/ c = 4 \/ c = 5 \/ c = 6 \/ c = 7.
Proof. unfold JumpBitsNotSet. lia. Qed.

Lemma u32_ext n : 0 <= n < - extOffset -> u32 (i64 (extOffset + n)) = 2 ^ 32 + extOffset + n.
Proof.
  unfold extOffset, u32, i64. intros. rewrite signed_id by lia.
  unfold wrap. rewrite <- (Z.mod_add _ 1) by lia. rewrite Z.mod_small; lia.
Qed.

Lemma u32_ext_back k : 2 ^ 32 + extOffset <= k < 2 ^ 32 -> u32 (- extOffset + k) = k - (2 ^ 32 + extOffset).
Proof.
  unfold extOffset, u32, wrap. intros. rewrite <- (Z.mod_add _ (-1)) by lia.
  rewrite Z.mod_small by lia. lia.
Qed.

Lemma disassemble_ext_load op k :
  op = 0x20 \/ op = 0x28 \/ op = 0x30 ->
  Raw_Disassemble (mkRaw op 0 0 k) =
    Ok (if extOffset + 0xffffffff <? k then LoadExtension (u32 (- extOffset + k))
        else LoadAbsolute k (if op =? 0x20 then 4 else if op =? 0x28 then 2 else 1)).
Proof.
  intros Hop. destruct_or! Hop; subst; try done;
    unfold Raw_Disassemble, disassembleLoad; cbn; by z_cases.
Qed.

Definition asm_roundtrips (i : Instruction) : Prop :=
  exists r, Instruction_Assemble i = Ok r /\ raw_ok r /\ Raw_Disassemble r = Ok (canonical i).

Ltac solve_raw_ok := unfold raw_ok, Op, Jt, Jf, K, extOffset; split_and!; solve_width.

Lemma roundtrip_jump c v t f : instr_ok (JumpIf c v t f) -> asm_roundtrips (JumpIf c v t f).
Proof.
  intros (Hc%jump_test_cases & Hv & Ht & Hf). unfold asm_roundtrips.
  destruct_or! Hc; subst; (eexists; split; [reflexivity|]; split; [solve_raw_ok|]);
    destruct t, f; reflexivity.
Qed.

Lemma roundtrip_absolute o s : instr_ok (LoadAbsolute o s) -> asm_roundtrips (LoadAbsolute o s).
Proof.
  intros [Ho Hs]. unfold asm_roundtrips.
  destruct_or! Hs; subst; (eexists; split; [reflexivity|]; split; [solve_raw_ok|]);
    (rewrite disassemble_ext_load; [|by vm_compute; tauto]);
    unfold canonical; z_cases; try done; rewrite u32_ext_back; try done;
    unfold extOffset, in_width in *; lia.
Qed.

Lemma roundtrip_extension n : instr_ok (LoadExtension n) -> asm_roundtrips (LoadExtension n).
Proof.
  intros Hn. simpl in Hn. unfold asm_roundtrips, Instruction_Assemble, LoadExtension_Assemble.
  destruct (Z.eqb_spec n ExtLen) as [->|Hne].
  { eexists; split; [reflexivity|]; split; [solve_raw_ok|reflexivity]. }
  rewrite u32_ext by done.
  eexists; split; [reflexivity|]; split.
  { unfold extOffset in Hn. solve_raw_ok. }
  rewrite disassemble_ext_load; [|by vm_compute; tauto].
  unfold canonical. rewrite (proj2 (Z.ltb_lt _ _)) by (unfold extOffset in *; lia).
  rewrite u32_ext_back by (unfold extOffset in *; lia). do 2 f_equal. lia.
Qed.

Lemma roundtrip_scratch d n :
  (instr_ok (LoadScratch d n) -> asm_roundtrips (LoadScratch d n)) /\
  (instr_ok (StoreScratch d n) -> asm_roundtrips (StoreScratch d n)).
Proof.
  unfold asm_roundtrips. split; intros [Hd Hn].
  all: assert (Hc : n ∈ seqZ 0 16) by (apply elem_of_seqZ; lia).
  all: change (seqZ 0 16) with (Z.of_nat <$> seq 0 16) in Hc; cbn [seq fmap list_fmap] in Hc.
  all: rewrite !elem_of_cons, elem_of_nil in Hc; simpl Z.of_nat in Hc.
  all: destruct_or! Hd; destruct_or! Hc; subst;
    (eexists; split; [reflexivity|]; split; [solve_raw_ok|reflexivity]).
Qed.

Lemma instr_roundtrips i : instr_ok i -> asm_roundtrips i.
Proof.
  intros Hok. destruct i; try done;
    try solve [by apply roundtrip_jump | by apply roundtrip_absolute
              | by apply roundtrip_extension | by apply roundtrip_scratch].
  all: simpl in Hok; destruct_and? Hok.
  all: repeat match goal with H : aluBinaryOp _ = true |- _ => apply aluBinaryOp_cases in H end.
  all: repeat match goal with H : _ \/ _ |- _ => destruct H end; subst.
  all: eexists; split; [reflexivity|]; split; [solve_raw_ok|reflexivity].
Qed.

(** Assembling a well-formed instruction succeeds, produces an opcode with
    all fields in range, and disassembling that opcode gives back the same
    instruction up to its canonical form (jump tests in positive form, loads
    from the extension area as extensions). *)
Lemma assemble_disassemble i :
  instr_ok i ->
  exists r, Instruction_Assemble i = Ok r /\ raw_ok r /\ Raw_Disassemble r = Ok (canonical i).
Proof. apply instr_roundtrips. Qed.

Lemma assemble_disassemble_witness :
  instr_ok (JumpIf JumpBitsNotSet 7 3 4) /\
  exists r, Instruction_Assemble (JumpIf JumpBitsNotSet 7 3 4) = Ok r /\ raw_ok r /\
    Raw_Disassemble r = Ok (canonical (JumpIf JumpBitsNotSet 7 3 4)).
Proof.
  assert (H : instr_ok (JumpIf JumpBitsNotSet 7 3 4)).
  { repeat split; vm_compute; congruence. }
  split; [exact H|]. exact (assemble_disassemble _ H).
Defined.

Lemma land_small op n : 0 <= n -> 0 <= Z.land op (Z.ones n) < 2 ^ n.
Proof. intros. rewrite Z.land_ones by lia. apply Z.mod_pos_bound. lia. Qed.

Definition disassembles_well (r : RawInstruction) : Prop :=
  exists i, Raw_Disassemble r = Ok i /\ (i = Raw r \/ instr_ok i /\ canonical i = i).

Ltac keep_raw := exists (Raw _); split; [reflexivity | left; reflexivity].

Ltac found := eexists; split; [reflexivity | right; split; [|reflexivity]].

Lemma disassemble_load_well r : raw_ok r -> disassembleLoad r = Raw r \/
  instr_ok (disassembleLoad r) /\ canonical (disassembleLoad r) = disassembleLoad r.
Proof.
  intros (HOp & _ & _ & HK). unfold in_width in HK.
  assert (Hreg : Z.land (Op r) opMaskLoadDest = RegA \/ Z.land (Op r) opMaskLoadDest = RegX).
  { pose proof (land_small (Op r) 1 ltac:(lia)) as H. change (Z.ones 1) with opMaskLoadDest in H.
    unfold RegA, RegX. lia. }
  unfold disassembleLoad. cbv zeta. z_cases; try (by left); unfold negb;
    repeat match goal with |- context [if (?a || ?b)%bool then _ else _] =>
      destruct b eqn:?; simpl orb end;
    cbv match; try (by left); right; try (split; [|reflexivity]).
  all: try (simpl instr_ok; split_and?; [done..|]; unfold in_width; lia).
  all: try (simpl instr_ok; unfold in_width, ExtLen, extOffset; lia).
  all: try (rewrite u32_ext_back by (unfold extOffset in *; lia);
            simpl instr_ok; unfold extOffset in *; lia).
  all: try (split; [simpl instr_ok; unfold in_width; lia | unfold canonical; z_cases; [lia|done]]).
Qed.

Lemma disassemble_jump_well r : raw_ok r -> disassembleJump r = Raw r \/
  instr_ok (disassembleJump r) /\ canonical (disassembleJump r) = disassembleJump r.
Proof.
  intros (_ & HJt & HJf & HK). unfold disassembleJump. cbv zeta.
  destruct (Z.land (Op r) opMaskJumpConst =? opClsJump); [|by left]. cbv match beta delta [negb].
  z_cases; try (by left); right; split;
    try (simpl instr_ok; split_and?; solve [solve_width | vm_compute; congruence]).
  all: unfold canonical; try reflexivity.
  all: simpl; by rewrite ?(proj2 (Z.eqb_neq (Jt r) 0)), ?andb_false_r by done.
Qed.

Lemma disassemble_well r : raw_ok r -> disassembles_well r.
Proof.
  intros Hr. pose proof Hr as (HOp & HJt & HJf & HK). unfold in_width in HK.
  unfold disassembles_well, Raw_Disassemble. cbv zeta.
  pose proof (land_small (Op r) 3 ltac:(lia)) as Hcls. change (Z.ones 3) with opMaskCls in Hcls.
  destruct (_ || _)%bool eqn:Hload.
  { eexists; split; [reflexivity|]. by apply disassemble_load_well. }
  apply orb_false_iff in Hload as [H0%Z.eqb_neq H1%Z.eqb_neq].
  repeat match goal with |- context [if ?b then _ else _] => destruct b eqn:? end;
    try (eexists; split; [reflexivity | left; reflexivity]);
    try (eexists; split; [reflexivity | by apply disassemble_jump_well]);
    repeat match goal with
    | H : (_ || _)%bool = false |- _ => apply orb_false_iff in H as [? H]
    | H : (_ <? _) = false |- _ => apply Z.ltb_ge in H
    end;
    try (eexists; split; [reflexivity | right; split; [|reflexivity]; simpl instr_ok;
         split_and?; solve [done | left; done | right; done | solve_width | lia]]).
  exfalso. repeat match goal with H : (_ =? _) = false |- _ => apply Z.eqb_neq in H end.
  unfold opClsLoadA, opClsLoadX, opClsStoreA, opClsStoreX, opClsALU, opClsJump,
    opClsReturn, opClsMisc in *. lia.
Qed.

(** Disassembling any opcode with fields in range never panics; it yields
    the raw opcode itself or a well-formed instruction in canonical form which
    assembles to an opcode that disassembles to the same instruction. *)
Lemma disassemble_stable r :
  raw_ok r ->
  exists i, Raw_Disassemble r = Ok i /\
    (i = Raw r \/
     instr_ok i /\ exists r', Instruction_Assemble i = Ok r' /\ Raw_Disassemble r' = Ok i).
Proof.
  intros (i & Hi & Hwell)%disassemble_well. exists i. split; [done|].
  destruct Hwell as [->|[Hok Hc]]; [by left|right]. split; [done|].
  destruct (instr_roundtrips i Hok) as (r' & Ha & _ & Hd). exists r'. by rewrite Hd, Hc.
Qed.

Lemma disassemble_stable_witness :
  raw_ok (mkRaw 0xb1 3 9 14) /\
  exists i, Raw_Disassemble (mkRaw 0xb1 3 9 14) = Ok i /\
    (i = Raw (mkRaw 0xb1 3 9 14) \/
     instr_ok i /\ exists r', Instruction_Assemble i = Ok r' /\ Raw_Disassemble r' = Ok i).
Proof.
  assert (H : raw_ok (mkRaw 0xb1 3 9 14)) by solve_raw_ok.
  split; [exact H|]. exact (disassemble_stable _ H).
Defined.

(** Whole programs: [Assemble] and [Disassemble] work instruction by
    instruction. *)
Lemma is_Raw_canonical i : instr_ok i -> is_Raw (canonical i) = false.
Proof.
  destruct i; simpl; try done; intros; repeat case_match; done.
Qed.

Lemma Assemble_from_ok k p :
  Forall instr_ok p ->
  exists rs, Assemble_from k p = Ok rs /\ length rs = length p /\
    Disassemble rs = Ok (canonical <$> p, true).
Proof.
  intros Hp. revert k. induction Hp as [|i p Hi Hp IH]; intros k; [by exists []|].
  destruct (instr_roundtrips i Hi) as (r & Ha & _ & Hd).
  destruct (IH (k + 1)) as (rs & Hrs & Hlen & Hdis).
  exists (r :: rs). simpl. rewrite Ha, Hrs. simpl. rewrite Hd, Hdis. simpl.
  rewrite is_Raw_canonical by done. auto.
Qed.
