(* ===== verification/BpfVM.v ===== *)
(** The BPF virtual machine of [bpf/vm.go] and [bpf/vm_instructions.go]. *)
From S2P Require Import Prelude BpfInstr.

(** * ALU, jumps and loads (bpf/vm_instructions.go) *)

Definition aluOpCommon (op regA value : Z) : outcome bpf_error Z :=
  if op =? ALUOpAdd then Ok (u32 (regA + value))
  else if op =? ALUOpSub then Ok (u32 (regA - value))
  else if op =? ALUOpMul then Ok (u32 (regA * value))
  else if op =? ALUOpDiv then (if value =? 0 then Panic else Ok (regA / value))
  else if op =? ALUOpOr then Ok (Z.lor regA value)
  else if op =? ALUOpAnd then Ok (Z.land regA value)
  else if op =? ALUOpShiftLeft then Ok (shl 32 regA value)
  else if op =? ALUOpShiftRight then Ok (shr regA value)
  else if op =? ALUOpMod then (if value =? 0 then Panic else Ok (regA mod value))
  else if op =? ALUOpXor then Ok (Z.lxor regA value)
  else Ok regA.

Definition aluOpConstant (op val regA : Z) : outcome bpf_error Z := aluOpCommon op regA val.

Definition aluOpX (op regA regX : Z) : outcome bpf_error (Z * bool) :=
  if (regX =? 0) && ((op =? ALUOpDiv) || (op =? ALUOpMod)) then Ok (0, false)
  else r ← aluOpCommon op regA regX; Ok (r, true).

Definition jump_taken (cond value inV : Z) : bool :=
  if cond =? JumpEqual then value =? inV
  else if cond =? JumpNotEqual then negb (value =? inV)
  else if cond =? JumpGreaterThan then inV <? value
  else if cond =? JumpLessThan then value <? inV
  else if cond =? JumpGreaterOrEqual then inV <=? value
  else if cond =? JumpLessOrEqual then value <=? inV
  else if cond =? JumpBitsSet then negb (Z.land value inV =? 0)
  else if cond =? JumpBitsNotSet then Z.land value inV =? 0
  else false.

Definition jumpIf (cond val skipTrue skipFalse value : Z) : Z :=
  if jump_taken cond value val then skipTrue else skipFalse.

Definition inBounds (inLen offset size : Z) : bool := offset + size <=? inLen.

(** [binary.BigEndian.UintN(in[offset:offset+size])]; the slice expression
    panics when it runs past the packet. *)
Definition slice_be (inp : bytes) (offset size : Z) : outcome bpf_error Z :=
  if (offset <? 0) || (len inp <? offset + size) then Panic
  else Ok (be_get (upto size (from offset inp))).

Definition loadCommon (inp : bytes) (offset size : Z) : outcome bpf_error (Z * bool) :=
  if negb (inBounds (len inp) offset size) then Ok (0, false)
  else if size =? 1 then b ← or_panic (at_ inp offset); Ok (b, true)
  else if size =? 2 then v ← slice_be inp offset size; Ok (v, true)
  else if size =? 4 then v ← slice_be inp offset size; Ok (v, true)
  else Panic.

Definition loadAbsolute (off size : Z) (inp : bytes) : outcome bpf_error (Z * bool) :=
  loadCommon inp off size.

Definition loadConstant (dst val regA regX : Z) : Z * Z :=
  if dst =? RegA then (val, regX) else if dst =? RegX then (regA, val) else (regA, regX).

Definition loadExtension (num : Z) (inp : bytes) : outcome bpf_error Z :=
  if num =? ExtLen then Ok (u32 (len inp)) else Panic.

Definition loadIndirect (off size : Z) (inp : bytes) (regX : Z) : outcome bpf_error (Z * bool) :=
  loadCommon inp (i64 (off + regX)) size.

Definition loadMemShift (off : Z) (inp : bytes) : outcome bpf_error (Z * bool) :=
  if negb (inBounds (len inp) off 0) then Ok (0, false)
  else b ← or_panic (at_ inp off); Ok (u32 (Z.land b 0x0f * 4), true).

Definition loadScratch (dst n : Z) (scratch : list Z) (regA regX : Z) : outcome bpf_error (Z * Z) :=
  if dst =? RegA then v ← or_panic (at_ scratch n); Ok (v, regX)
  else if dst =? RegX then v ← or_panic (at_ scratch n); Ok (regA, v)
  else Ok (regA, regX).

(** Writing an element of the [[16]uint32] array. *)
Definition set_scratch (scratch : list Z) (n v : Z) : outcome bpf_error (list Z) :=
  _ ← or_panic (at_ scratch n); Ok (<[Z.to_nat n := v]> scratch).

Definition storeScratch (src n : Z) (scratch : list Z) (regA regX : Z) : outcome bpf_error (list Z) :=
  if src =? RegA then set_scratch scratch n regA
  else if src =? RegX then set_scratch scratch n regX
  else Ok scratch.

(** * The machine (bpf/vm.go) *)

(** The part of [NewVM]'s loop that checks instruction [i] of a filter of
    length [n]. *)
Definition check_instruction (n i : Z) (ins : Instruction) : option bpf_error :=
  let check := n - (i + 1) in
  match ins with
  | Jump skip => if check <=? skip then Some (ErrJumpBounds skip) else None
  | JumpIf _ _ st sf =>
      if check <=? st then Some (ErrJumpTrueBounds st)
      else if check <=? sf then Some (ErrJumpFalseBounds sf) else None
  | ALUOpConstant op val =>
      if negb (val =? 0) then None
      else if (op =? ALUOpDiv) || (op =? ALUOpMod) then Some ErrDivideByZero else None
  | LoadExtension num =>
      if num =? ExtLen then None else Some (ErrExtensionNotImplemented num)
  | _ => None
  end.

Fixpoint check_filter (n i : Z) (filter : list Instruction) : option bpf_error :=
  match filter with
  | [] => None
  | ins :: rest =>
      match check_instruction n i ins with
      | Some e => Some e
      | None => check_filter n (i + 1) rest
      end
  end.

Record VM := mkVM { filter_ : list Instruction }.

(** [NewVM] returns the machine and an error: the last check's error comes
    with a non-nil machine. *)
Definition NewVM (filter : list Instruction) : option VM * option bpf_error :=
  if len filter =? 0 then (None, Some ErrNoInstructions) else
  match check_filter (len filter) 0 filter with
  | Some e => (None, Some e)
  | None =>
      match last filter with
      | Some RetA | Some (RetConstant _) =>
          (Some (mkVM filter),
           match Assemble filter with Fail e => Some e | _ => None end)
      | _ => (None, Some ErrMustEndWithRet)
      end
  end.

Record vm_state := mkSt { pc : Z; regA : Z; regX : Z; scratch : list Z; okf : bool }.

(** What one iteration of [Run]'s loop does: return from the function, or go on
    in a new state (after the loop's [i++]). *)
Inductive step_result := Return (v : Z) | Continue (s : vm_state).

Definition step (ins : Instruction) (inp : bytes) (s : vm_state) : outcome bpf_error step_result :=
  let '(mkSt i a x sc ok) := s in
  let next i a x sc ok := Ok (Continue (mkSt (i + 1) a x sc ok)) in
  match ins with
  | ALUOpConstant op val => a' ← aluOpConstant op val a; next i a' x sc ok
  | ALUOpX op => r ← aluOpX op a x; next i r.1 x sc r.2
  | Jump skip => next (i + skip) a x sc ok
  | JumpIf c v t f => next (i + jumpIf c v t f a) a x sc ok
  | LoadAbsolute off size => r ← loadAbsolute off size inp; next i r.1 x sc r.2
  | LoadConstant dst val => let r := loadConstant dst val a x in next i r.1 r.2 sc ok
  | LoadExtension num => a' ← loadExtension num inp; next i a' x sc ok
  | LoadIndirect off size => r ← loadIndirect off size inp x; next i r.1 x sc r.2
  | LoadMemShift off => r ← loadMemShift off inp; next i a r.1 sc r.2
  | LoadScratch dst n => r ← loadScratch dst n sc a x; next i r.1 r.2 sc ok
  | RetA => Ok (Return a)
  | RetConstant val => Ok (Return val)
  | StoreScratch src n => sc' ← storeScratch src n sc a x; next i a x sc' ok
  | TAX => next i a a sc ok
  | TXA => next i x x sc ok
  | _ => Fail (ErrUnknownInstruction i ins)
  end.

(** The loop [for i := 0; i < len(v.filter) && ok; i++]; [None] when the fuel
    runs out. *)
Fixpoint run_loop (fuel : nat) (filter : list Instruction) (inp : bytes) (s : vm_state)
    : option (outcome bpf_error Z) :=
  if negb ((pc s <? len filter) && okf s) then Some (Ok 0) else
  match fuel with
  | O => None
  | S fuel' =>
      match at_ filter (pc s) with
      | None => Some Panic
      | Some ins =>
          match step ins inp s with
          | Ok (Return v) => Some (Ok v)
          | Ok (Continue s') => run_loop fuel' filter inp s'
          | Fail e => Some (Fail e)
          | Panic => Some Panic
          end
      end
  end.

Definition init_state : vm_state := mkSt 0 0 0 (replicate 16 0) true.

Definition Run (v : VM) (inp : bytes) : option (outcome bpf_error Z) :=
  run_loop (length (filter_ v)) (filter_ v) inp init_state.

(** * Type and range invariants *)

Definition state_ok (s : vm_state) : Prop :=
  0 <= pc s /\ in_width 32 (regA s) /\ in_width 32 (regX s) /\
  length (scratch s) = 16%nat /\ Forall (in_width 32) (scratch s).

(** Fields within the ranges of their Go types. *)
Definition fields_ok (i : Instruction) : Prop :=
  match i with
  | Raw r => raw_ok r
  | LoadConstant d v => in_width 16 d /\ in_width 32 v
  | LoadScratch d _ | StoreScratch d _ => in_width 16 d
  | LoadAbsolute o _ | LoadIndirect o _ | LoadMemShift o => in_width 32 o
  | ALUOpConstant o v => in_width 16 o /\ in_width 32 v
  | ALUOpX o => in_width 16 o
  | Jump s => in_width 32 s
  | JumpIf c v t f => in_width 16 c /\ in_width 32 v /\ in_width 8 t /\ in_width 8 f
  | RetConstant v => in_width 32 v
  | LoadExtension _ | NegateA | RetA | TXA | TAX => True
  end.

(** Instructions [Run] has no case for. *)
Definition unimplemented (i : Instruction) : bool :=
  match i with Raw _ | NegateA => true | _ => false end.

(** [NewVM] accepted the filter without an error. *)
Definition accepted (f : list Instruction) : Prop := NewVM f = (Some (mkVM f), None).

(** What acceptance says of the instruction at index [i]. *)
Definition admitted_at (f : list Instruction) (i : Z) (ins : Instruction) : Prop :=
  check_instruction (len f) i ins = None /\ exists r, Instruction_Assemble ins = Ok r.

Lemma check_filter_at n k f i ins :
  check_filter n k f = None -> f !! i = Some ins -> check_instruction n (k + Z.of_nat i) ins = None.
Proof.
  revert k i. induction f as [|a f IH]; intros k i Hc Hi; [done|]. simpl in Hc.
  destruct (check_instruction n k a) eqn:Ha; [done|].
  destruct i as [|i]; simpl in Hi.
  - injection Hi as ->. by rewrite Z.add_0_r.
  - replace (k + Z.of_nat (S i)) with ((k + 1) + Z.of_nat i) by lia. by apply IH.
Qed.

Lemma Assemble_from_at k f rs i ins :
  Assemble_from k f = Ok rs -> f !! i = Some ins -> exists r, Instruction_Assemble ins = Ok r.
Proof.
  revert k rs i. induction f as [|a f IH]; intros k rs i Ha Hi; [done|]. simpl in Ha.
  destruct (Instruction_Assemble a) eqn:Ea; [|done|done].
  destruct (Assemble_from (k + 1) f) eqn:Ef; [|done|done].
  destruct i as [|i]; simpl in Hi; [injection Hi as <-; eauto|]. eauto.
Qed.

Lemma Instruction_Assemble_no_panic ins : Instruction_Assemble ins <> Panic.
Proof.
  destruct ins; cbn; try done;
    unfold LoadScratch_Assemble, LoadAbsolute_Assemble, LoadIndirect_Assemble, LoadConstant_Assemble,
      LoadMemShift_Assemble, LoadExtension_Assemble, StoreScratch_Assemble, JumpIf_Assemble, assembleLoad;
    by repeat (case_match; simplify_eq/=).
Qed.

Lemma Assemble_from_no_panic k f : Assemble_from k f <> Panic.
Proof.
  revert k. induction f as [|a f IH]; intros k; [done|]. simpl.
  pose proof (Instruction_Assemble_no_panic a). destruct (Instruction_Assemble a); try done.
  specialize (IH (k + 1)). by destruct (Assemble_from (k + 1) f).
Qed.

Lemma accepted_at f i ins :
  accepted f -> at_ f i = Some ins -> admitted_at f i ins.
Proof.
  unfold accepted, NewVM. intros Hn Hi. pose proof (at_lt _ _ _ Hi) as Hlt.
  unfold at_ in Hi. case_decide; [|done].
  destruct (len f =? 0); [done|]. destruct (check_filter (len f) 0 f) eqn:Hc; [done|].
  assert (Ha : exists rs, Assemble f = Ok rs).
  { pose proof (Assemble_from_no_panic 0 f) as Hp. unfold Assemble in *.
    destruct (last f) as [[]|]; try done; destruct (Assemble_from 0 f); eauto; done. }
  destruct Ha as [rs Ha]. split.
  - pose proof (check_filter_at _ _ _ _ _ Hc Hi) as H'.
    by replace (0 + Z.of_nat (Z.to_nat i)) with i in H' by lia.
  - eapply Assemble_from_at; eauto.
Qed.

Lemma assembleLoad_inv d sz m k r : assembleLoad d sz m k = Ok r ->
  (d = RegA \/ d = RegX) /\ (sz = 1 \/ sz = 2 \/ sz = 4).
Proof.
  unfold assembleLoad. intros H.
  destruct (Z.eqb_spec d RegA), (Z.eqb_spec d RegX); try done;
    destruct (Z.eqb_spec sz 1), (Z.eqb_spec sz 2), (Z.eqb_spec sz 4); try done; auto.
Qed.

Lemma shr_in_width x n : in_width 32 x -> 0 <= n -> in_width 32 (shr x n).
Proof.
  unfold shr, in_width. intros Hx Hn. rewrite Z.shiftr_div_pow2 by lia.
  pose proof (Z.pow_pos_nonneg 2 n). split; [apply Z.div_pos; lia|].
  eapply Z.le_lt_trans; [apply Z.div_le_upper_bound with (q := x); nia|lia].
Qed.

Lemma aluOpCommon_ok op a v :
  in_width 32 a -> in_width 32 v ->
  (v = 0 -> op <> ALUOpDiv /\ op <> ALUOpMod) ->
  exists r, aluOpCommon op a v = Ok r /\ in_width 32 r.
Proof.
  intros Ha Hv Hz. unfold aluOpCommon, u32, shl.
  z_cases; try tauto; (eexists; split; [reflexivity|]);
    try solve [apply wrap_in_width; lia | by apply in_width_lor | by apply in_width_land
              | by apply in_width_lxor | apply shr_in_width; [done|apply Hv] | done].
  - unfold in_width in *. split; [apply Z.div_pos; lia|].
    eapply Z.le_lt_trans; [apply Z.div_le_upper_bound with (q := a); nia|lia].
  - unfold in_width in *. pose proof (Z.mod_pos_bound a v). lia.
Qed.

Lemma byte_32 b : byte_ok b -> in_width 32 b.
Proof. apply in_width_weaken. lia. Qed.

Lemma at_byte (inp : bytes) i b : bytes_ok inp -> at_ inp i = Some b -> byte_ok b.
Proof. intros H Hi%at_In. unfold bytes_ok in H. rewrite Forall_forall in H. auto. Qed.

Lemma slice_be_ok inp off sz :
  bytes_ok inp -> 0 <= off -> off + sz <= len inp -> 0 <= sz <= 4 ->
  exists v, slice_be inp off sz = Ok v /\ in_width 32 v.
Proof.
  intros Hb Ho Hl Hs. unfold slice_be.
  rewrite (proj2 (Z.ltb_ge off 0)), (proj2 (Z.ltb_ge (len inp) (off + sz))) by lia.
  eexists; split; [reflexivity|].
  assert (Hlen : len (upto sz (from off inp)) = sz).
  { apply len_upto. rewrite len_from by (pose proof (len_nonneg inp); lia). lia. }
  pose proof (be_get_bound (upto sz (from off inp)) ltac:(auto with go)) as Hg.
  rewrite Hlen in Hg. unfold in_width. split; [lia|].
  eapply Z.lt_le_trans; [apply Hg|]. change (2 ^ 32) with (256 ^ 4). apply Z.pow_le_mono_r; lia.
Qed.

Lemma loadCommon_ok inp off sz :
  bytes_ok inp -> 0 <= off -> (sz = 1 \/ sz = 2 \/ sz = 4) ->
  exists r, loadCommon inp off sz = Ok r /\ in_width 32 r.1.
Proof.
  intros Hb Ho Hs. unfold loadCommon, inBounds.
  destruct (Z.leb_spec (off + sz) (len inp)); simpl; [|eexists; split; [reflexivity|solve_width]].
  destruct_or! Hs; subst; simpl.
  - destruct (at_Some inp off ltac:(lia)) as [b Hb']. rewrite Hb'. simpl.
    eexists; split; [reflexivity|]. simpl. eapply byte_32, at_byte; eauto.
  - destruct (slice_be_ok inp off 2) as (v & -> & ?); try done; try lia. simpl. eauto.
  - destruct (slice_be_ok inp off 4) as (v & -> & ?); try done; try lia. simpl. eauto.
Qed.

(** [ins] does not read the byte just past the packet: the one access
    [inBounds(len(in), offset, 0)] lets through in [loadMemShift]. *)
Definition memshift_in_packet (inp : bytes) (ins : Instruction) : Prop :=
  match ins with LoadMemShift off => off <> len inp | _ => True end.

Definition step_good (ins : Instruction) (s : vm_state) (r : outcome bpf_error step_result) : Prop :=
  match r with
  | Ok (Return v) => in_width 32 v
  | Ok (Continue s') => state_ok s' /\ pc s < pc s'
  | Fail e => unimplemented ins = true /\ e = ErrUnknownInstruction (pc s) ins
  | Panic => False
  end.

Lemma scratch_ok sc n v : length sc = 16%nat -> Forall (in_width 32) sc -> in_width 32 v ->
  0 <= n <= 15 ->
  (exists w, at_ sc n = Some w /\ in_width 32 w) /\
  length (<[Z.to_nat n := v]> sc) = 16%nat /\ Forall (in_width 32) (<[Z.to_nat n := v]> sc).
Proof.
  intros Hl Hsc Hv Hn. split_and!.
  - destruct (at_Some sc n) as [w Hw]; [unfold len; lia|]. exists w. split; [done|].
    rewrite Forall_forall in Hsc. apply Hsc. by apply (at_In sc n).
  - by rewrite length_insert.
  - by apply Forall_insert.
Qed.

Ltac continue_ok := unfold state_ok; simpl; split_and!; try done; try lia.

Lemma step_mem_ok f ins inp s :
  admitted_at f (pc s) ins -> fields_ok ins -> state_ok s -> bytes_ok inp ->
  memshift_in_packet inp ins ->
  match ins with
  | LoadAbsolute _ _ | LoadIndirect _ _ | LoadMemShift _ | LoadScratch _ _ | StoreScratch _ _ =>
      step_good ins s (step ins inp s)
  | _ => True
  end.
Proof.
  intros [_ [r Hasm]] Hf Hs Hb Hm. destruct s as [i a x sc ok].
  destruct Hs as (Hi & Ha & Hx & Hl & Hsc). simpl in *.
  destruct ins; try done; cbn [Instruction_Assemble] in Hasm; simpl in Hf, Hm; unfold step_good.
  - unfold LoadScratch_Assemble in Hasm. case_match eqn:E; [done|].
    apply orb_false_iff in E as [?%Z.ltb_ge ?%Z.ltb_ge].
    destruct (scratch_ok sc N 0) as [[w [Hw Hw']] _]; try done; try lia.
    apply assembleLoad_inv in Hasm as [Hd _].
    unfold step, loadScratch. z_cases; simpl; rewrite ?Hw; simpl; continue_ok.
  - unfold LoadAbsolute_Assemble in Hasm.
    apply assembleLoad_inv in Hasm as [_ Hsz]. simpl. unfold loadAbsolute.
    destruct (loadCommon_ok inp Off Size Hb ltac:(apply Hf) Hsz) as (v & -> & ?). simpl. continue_ok.
  - unfold LoadIndirect_Assemble in Hasm.
    apply assembleLoad_inv in Hasm as [_ Hsz]. simpl. unfold loadIndirect.
    unfold in_width in *. assert (Hoff : i64 (Off + x) = Off + x) by (apply i64_id; lia).
    rewrite Hoff. destruct (loadCommon_ok inp (Off + x) Size Hb ltac:(lia) Hsz) as (v & -> & ?).
    simpl. continue_ok.
  - simpl. unfold loadMemShift, inBounds. unfold in_width in Hf.
    destruct (Z.leb_spec (Off + 0) (len inp)); simpl; [|continue_ok].
    destruct (at_Some inp Off ltac:(lia)) as [b Hb']. rewrite Hb'. simpl. continue_ok;
      apply wrap_in_width; lia.
  - unfold StoreScratch_Assemble in Hasm. case_match eqn:E; [done|].
    apply orb_false_iff in E as [?%Z.ltb_ge ?%Z.ltb_ge].
    destruct (scratch_ok sc N a) as [[w [Hw _]] Hset]; try done; try lia.
    destruct (scratch_ok sc N x) as [_ Hset']; try done; try lia.
    unfold step, storeScratch, set_scratch. rewrite Hw.
    z_cases; simpl; continue_ok; solve [apply Hset | apply Hset'].
Qed.

Lemma step_safe f ins inp s :
  admitted_at f (pc s) ins -> fields_ok ins -> state_ok s -> bytes_ok inp ->
  memshift_in_packet inp ins -> step_good ins s (step ins inp s).
Proof.
  intros Had Hf Hs Hb Hm. pose proof (step_mem_ok _ _ _ _ Had Hf Hs Hb Hm) as Hmem.
  destruct Had as [Hc [r Hasm]]. destruct s as [i a x sc ok].
  destruct Hs as (Hi & Ha & Hx & Hl & Hsc). simpl in *.
  destruct ins; try exact Hmem; clear Hmem; simpl in Hf, Hc; unfold step_good; simpl; try (by continue_ok); try done.
  - (* LoadConstant *) unfold loadConstant. destruct Hf. z_cases; continue_ok.
  - (* LoadExtension *) unfold loadExtension. destruct (Num =? ExtLen); [|done]. simpl. continue_ok.
    apply wrap_in_width. lia.
  - (* ALUOpConstant *) destruct Hf as [_ Hv]. unfold aluOpConstant.
    destruct (aluOpCommon_ok AOp a Val) as (v & -> & ?); try done; [|simpl; continue_ok].
    intros ->. simpl in Hc. destruct (_ || _)%bool eqn:E; [done|].
    by apply orb_false_iff in E as [?%Z.eqb_neq ?%Z.eqb_neq].
  - (* ALUOpX *) unfold aluOpX. destruct (_ && _)%bool eqn:E; [by continue_ok|].
    destruct (aluOpCommon_ok AOp a x) as (v & -> & ?); try done; [|simpl; continue_ok].
    intros ->. apply andb_false_iff in E as [E|E]; [done|].
    by apply orb_false_iff in E as [?%Z.eqb_neq ?%Z.eqb_neq].
  - (* Jump *) unfold in_width in Hf. continue_ok.
  - (* JumpIf *) unfold jumpIf, in_width in *. destruct (jump_taken _ _ _); continue_ok.
Qed.

(** * Termination and safety of [Run] *)

Definition run_good (r : outcome bpf_error Z) (f : list Instruction) : Prop :=
  match r with
  | Ok v => in_width 32 v
  | Fail e => exists i ins, at_ f i = Some ins /\ unimplemented ins = true /\ e = ErrUnknownInstruction i ins
  | Panic => False
  end.

Lemma run_loop_good f inp fuel s :
  accepted f -> Forall fields_ok f -> bytes_ok inp -> Forall (memshift_in_packet inp) f ->
  state_ok s -> len f <= Z.of_nat fuel + pc s ->
  exists r, run_loop fuel f inp s = Some r /\ run_good r f.
Proof.
  intros Hacc Hf Hb Hm. rewrite Forall_forall in Hf. rewrite Forall_forall in Hm.
  revert s. induction fuel as [|fuel IH]; intros s Hs Hfuel; simpl;
    (destruct (_ && okf s)%bool eqn:Hgo; simpl; [|by exists (Ok 0); split; [|solve_width]]);
    apply andb_true_iff in Hgo as [Hlt%Z.ltb_lt _]; [lia|].
  destruct (at_Some f (pc s)) as [ins Hins]; [destruct Hs; lia|]. rewrite Hins.
  assert (Hin : ins ∈ f) by by eapply at_In.
  pose proof (step_safe f ins inp s (accepted_at _ _ _ Hacc Hins) (Hf _ Hin) Hs Hb (Hm _ Hin)) as Hg.
  unfold step_good in Hg. destruct (step ins inp s) as [[v|s']|e|]; [| | |done].
  - by exists (Ok v).
  - destruct Hg. apply IH; [done|lia].
  - exists (Fail e). split; [done|]. simpl. destruct Hg. by exists (pc s), ins.
Qed.

Lemma init_state_ok : state_ok init_state.
Proof. repeat split; try done. repeat constructor; solve_width. Qed.

(** The states at the head of [Run]'s loop. *)
Inductive reaches (f : list Instruction) (inp : bytes) : vm_state -> Prop :=
| reach_init : reaches f inp init_state
| reach_step s ins s' : reaches f inp s -> okf s = true -> at_ f (pc s) = Some ins ->
    step ins inp s = Ok (Continue s') -> reaches f inp s'.

(** Only a return ends an accepted filter. *)
Lemma accepted_last f i ins : accepted f -> at_ f i = Some ins -> i + 1 = len f ->
  ins = RetA \/ exists v, ins = RetConstant v.
Proof.
  unfold accepted, NewVM. intros Hn Hi Hl. destruct (len f =? 0); [done|].
  destruct (check_filter _ _ _); [done|]. pose proof (at_lt _ _ _ Hi).
  unfold at_ in Hi. rewrite decide_True in Hi by lia.
  rewrite last_lookup in Hn. replace (pred (length f)) with (Z.to_nat i) in Hn by (unfold len in Hl; lia).
  rewrite Hi in Hn. destruct ins; try done; eauto.
Qed.

Lemma step_pc f inp s ins s' :
  accepted f -> at_ f (pc s) = Some ins -> step ins inp s = Ok (Continue s') -> pc s' < len f.
Proof.
  intros Hacc Hi Hst. pose proof (at_lt _ _ _ Hi) as Hlt. pose proof (accepted_last _ _ _ Hacc Hi) as Hlast.
  destruct (accepted_at _ _ _ Hacc Hi) as [Hc _]. destruct s as [i a x sc ok]. cbn [pc] in *.
  assert (Hnext : (forall v, ins <> RetA /\ ins <> RetConstant v) -> i + 1 < len f).
  { intros Hne. destruct (Z.eq_dec (i + 1) (len f)) as [He|]; [|lia].
    destruct (Hlast He) as [->|[v ->]]; [by destruct (Hne 0)|by destruct (Hne v)]. }
  destruct ins; cbn [step check_instruction] in Hst, Hc;
    repeat match type of Hst with
    | (_ ← ?o; _) = _ => destruct o; cbn [mbind outcome_bind] in Hst; [|done..]
    end; try done; try (injection Hst as <-; cbn [pc]; by apply Hnext); injection Hst as <-; cbn [pc].
  - destruct (Z.leb_spec (len f - (i + 1)) Skip); [done|lia].
  - destruct (Z.leb_spec (len f - (i + 1)) SkipTrue); [done|].
    destruct (Z.leb_spec (len f - (i + 1)) SkipFalse); [done|].
    unfold jumpIf. destruct (jump_taken _ _ _); lia.
Qed.

Lemma reaches_pc f inp s : accepted f -> reaches f inp s -> pc s < len f.
Proof.
  intros Hacc. induction 1 as [|s ins s' _ IH _ Hi Hst]; [|by eapply step_pc].
  unfold accepted, NewVM in Hacc. destruct (Z.eqb_spec (len f) 0); [done|].
  pose proof (len_nonneg f). cbn. lia.
Qed.

(** C6. A filter that [NewVM] accepts without an error always terminates
    within one pass over its instructions and never panics: on any packet of
    which no [LoadMemShift] addresses the byte just past the end, [Run]
    returns a 32-bit value, or an error naming an instruction of the filter
    that the machine does not implement. The loop is never left by running off
    the end: every state at its head has the counter inside the program, the
    jumps' targets included. *)
Theorem Run_accepted f inp :
  accepted f -> Forall fields_ok f -> bytes_ok inp -> Forall (memshift_in_packet inp) f ->
  (exists r, Run (mkVM f) inp = Some r /\ run_good r f) /\
  (forall s, reaches f inp s -> pc s < len f).
Proof.
  intros Hacc Hf Hb Hm. split; [|by intros s; apply reaches_pc].
  apply run_loop_good; try done; [apply init_state_ok|]. simpl. unfold len. lia.
Qed.

(** A filter with forward jumps, scratch memory and every kind of load. *)
Definition sample_filter : list Instruction :=
  [LoadAbsolute 0 2; JumpIf JumpGreaterThan 7 1 0; RetConstant 0; LoadMemShift 3;
   StoreScratch RegA 15; TXA; ALUOpX ALUOpDiv; LoadScratch RegX 15; ALUOpX ALUOpAdd; RetA].

Lemma Run_accepted_witness :
  accepted sample_filter /\ Run (mkVM sample_filter) [1; 2; 3; 0x45] = Some (Ok 259) /\
  exists r, Run (mkVM sample_filter) [1; 2; 3; 0x45] = Some r /\ run_good r sample_filter.
Proof.
  assert (H : accepted sample_filter) by (vm_compute; reflexivity).
  split; [exact H|]. split; [vm_compute; reflexivity|].
  apply (fun h2 h3 h4 => proj1 (Run_accepted sample_filter [1; 2; 3; 0x45] H h2 h3 h4)).
  - repeat (constructor; [first [exact I | vm_compute; intuition congruence]|]). constructor.
  - repeat (constructor; [vm_compute; intuition congruence|]). constructor.
  - repeat (constructor; [vm_compute; intuition congruence|]). constructor.
Defined.

(** The bounds test of [loadMemShift] admits the offset just past the
    packet: a two-instruction filter that [NewVM] accepts panics on every
    packet whose length is the instruction's offset. *)
Lemma LoadMemShift_panics inp :
  accepted [LoadMemShift (len inp); RetA] /\
  Run (mkVM [LoadMemShift (len inp); RetA]) inp = Some Panic.
Proof.
  split; [reflexivity|]. unfold Run, filter_. simpl length. cbn [run_loop init_state pc okf].
  change (0 <? len [LoadMemShift (len inp); RetA]) with true. simpl.
  unfold loadMemShift, inBounds. rewrite Z.add_0_r, Z.leb_refl. simpl.
  unfold at_. rewrite decide_True by apply len_nonneg. unfold len.
  rewrite Nat2Z.id, lookup_ge_None_2 by lia. done.
Qed.

(** * Assembling and disassembling preserve execution *)

(** Absolute loads below the kernel's extension area. *)
Definition no_ext_area (i : Instruction) : Prop :=
  match i with LoadAbsolute o _ => o <= extOffset + 0xffffffff | _ => True end.

Lemma jump_taken_negate c a v :
  0 <= c <= JumpBitsNotSet -> jump_taken (negate_test c) a v = negb (jump_taken c a v).
Proof.
  intros Hc%jump_test_cases. unfold jump_taken, negate_test.
  destruct_or! Hc; subst; cbn -[Z.eqb Z.ltb Z.leb Z.land];
    repeat match goal with |- context [(?x =? ?y)] =>
      first [ change (x =? y) with true | change (x =? y) with false ]; cbv match end;
    rewrite ?negb_involutive; try done.
  all: first [apply Z.leb_antisym | apply Z.ltb_antisym].
Qed.

Lemma jumpIf_negate c v t f a : 0 <= c <= JumpBitsNotSet ->
  jumpIf (negate_test c) v f t a = jumpIf c v t f a.
Proof. intros. unfold jumpIf. rewrite jump_taken_negate by done. by destruct (jump_taken c a v). Qed.

Lemma step_canonical i inp s : instr_ok i -> no_ext_area i -> step (canonical i) inp s = step i inp s.
Proof.
  intros Hok Hn. destruct i as [| | |o sz| | | | | | | | |c v t f| | | |]; try done.
  - simpl in Hn. unfold canonical. by rewrite (proj2 (Z.ltb_ge _ _)) by lia.
  - destruct Hok as (Hc & _). destruct s as [i a x sc ok]. unfold canonical.
    assert (H : forall c1 t1 f1, 0 <= c1 <= JumpBitsNotSet ->
      step (if (t1 =? 0) && negb (c1 =? JumpBitsSet) then JumpIf (negate_test c1) v f1 0
            else JumpIf c1 v t1 f1) inp (mkSt i a x sc ok) = step (JumpIf c1 v t1 f1) inp (mkSt i a x sc ok)).
    { intros c1 t1 f1 Hc1. destruct (Z.eqb_spec t1 0) as [->|]; simpl; [|done].
      destruct (c1 =? JumpBitsSet); simpl; [done|]. by rewrite jumpIf_negate. }
    destruct (positive_test c); rewrite H; try done.
    + simpl. by rewrite jumpIf_negate.
    + apply jump_test_cases in Hc. destruct_or! Hc; subst; by vm_compute.
Qed.

Lemma run_loop_canonical fuel f inp s :
  Forall instr_ok f -> Forall no_ext_area f ->
  run_loop fuel (canonical <$> f) inp s = run_loop fuel f inp s.
Proof.
  intros Hok Hn. revert s. induction fuel as [|fuel IH]; intros s; simpl;
    replace (len (canonical <$> f)) with (len f) by (unfold len; by rewrite length_fmap); [done|].
  destruct (negb _); [done|].
  assert (Hat : at_ (canonical <$> f) (pc s) = canonical <$> at_ f (pc s)).
  { unfold at_. case_decide; [|done]. apply list_lookup_fmap. }
  rewrite Hat. destruct (at_ f (pc s)) as [ins|] eqn:Hins; [|done]. simpl.
  assert (Hin : ins ∈ f) by by eapply at_In.
  rewrite Forall_forall in Hok. rewrite Forall_forall in Hn.
  rewrite step_canonical by auto. by destruct (step ins inp s) as [[]| |].
Qed.

(** Assembling a well-formed program (without absolute loads from the
    kernel's extension area) and disassembling it again succeeds, recognises
    every instruction, and gives a program that runs identically on every
    packet. *)
Lemma reassembled_runs_identically f :
  Forall instr_ok f -> Forall no_ext_area f ->
  exists rs f', Assemble f = Ok rs /\ Disassemble rs = Ok (f', true) /\
    forall inp, Run (mkVM f') inp = Run (mkVM f) inp.
Proof.
  intros Hok Hn. destruct (Assemble_from_ok 0 f Hok) as (rs & Ha & _ & Hd).
  exists rs, (canonical <$> f). split; [done|]. split; [done|]. intros inp.
  unfold Run. simpl filter_. rewrite length_fmap. by apply run_loop_canonical.
Qed.

Lemma reassembled_runs_identically_witness :
  Forall instr_ok sample_filter /\ Forall no_ext_area sample_filter /\
  exists rs f', Assemble sample_filter = Ok rs /\ Disassemble rs = Ok (f', true) /\
    forall inp, Run (mkVM f') inp = Run (mkVM sample_filter) inp.
Proof.
  assert (H1 : Forall instr_ok sample_filter).
  { repeat (constructor; [vm_compute; intuition congruence|]). constructor. }
  assert (H2 : Forall no_ext_area sample_filter).
  { repeat (constructor; [vm_compute; intuition congruence|]). constructor. }
  split; [exact H1|]. split; [exact H2|]. exact (reassembled_runs_identically _ H1 H2).
Defined.
