(* ===== verification/GoStrings.v ===== *)
(** What the code uses of Go's [strings] and [strconv], on bytes. *)
From S2P Require Import Prelude.

Definition chr (s : string) : Z := match str s with b :: _ => b | [] => 0 end.

(** * Strings *)

(** The UTF-8 encodings of the runes [unicode.IsSpace] accepts. *)
Definition spaces : list bytes :=
  [[9]; [10]; [11]; [12]; [13]; [32]; [194; 133]; [194; 160]; [225; 154; 128]] ++
  ((fun b => [226; 128; b]) <$> seqZ 128 11) ++ [[226; 128; 168]; [226; 128; 169]; [226; 128; 175]; [226; 129; 159]; [227; 128; 128]].

(** [s] without a first piece out of [l]. *)
Fixpoint strip (l : list bytes) (s : bytes) : option bytes :=
  match l with
  | [] => None
  | e :: l => if bool_decide (e `prefix_of` s) then Some (from (len e) s) else strip l s
  end.
Fixpoint strip_all (fuel : nat) (l : list bytes) (s : bytes) : bytes :=
  match fuel with
  | O => s
  | S fuel' => match strip l s with Some s => strip_all fuel' l s | None => s end
  end.

(** [strings.TrimSpace]: the spaces at both ends go; each takes a byte at least. *)
Definition TrimSpace (s : bytes) : bytes :=
  let s := strip_all (length s) spaces s in
  reverse (strip_all (length s) (reverse <$> spaces) (reverse s)).

(** [strings.IndexByte]. *)
Fixpoint IndexByte (s : bytes) (c : Z) : Z :=
  match s with
  | [] => -1
  | b :: s => if b =? c then 0 else let i := IndexByte s c in if i <? 0 then -1 else i + 1
  end.

(** [strings.Split(s, string(c))]. *)
Fixpoint Split (c : Z) (s : bytes) : list bytes :=
  match s with
  | [] => [[]]
  | b :: s => if b =? c then [] :: Split c s else match Split c s with [] => [[b]] | e :: l => (b :: e) :: l end
  end.

(** * Numbers *)

(** The number back from its digits. *)
Definition undigits (l : bytes) : Z := foldl (fun a b => a * 10 + (b - 48)) 0 l.

Definition is_digit (b : Z) : bool := (48 <=? b) && (b <=? 57).

(** [strconv.ParseInt(s, 10, 64)]: the number, and whether there is an error: 0
    when this is no number, the nearest one when it is out of range. *)
Definition ParseInt (s : bytes) : Z * bool :=
  let '(neg, ds) := match s with b :: k => if b =? chr "+" then (false, k) else if b =? chr "-" then (true, k) else (false, s) | [] => (false, s) end in
  if bool_decide (ds = []) || negb (forallb is_digit ds) then (0, true)
  else
    let n := undigits ds in
    if (neg : bool) then if n <=? 2 ^ 63 then (- n, false) else (- 2 ^ 63, true)
    else if n <? 2 ^ 63 then (n, false) else (2 ^ 63 - 1, true).

(** * Lemmas *)

Lemma IndexByte_bound s c : IndexByte s c = -1 \/ 0 <= IndexByte s c < len s.
Proof. induction s as [|b s IH]; [by left|]. cbn [IndexByte]. rewrite len_cons. case_match; [pose proof (len_nonneg s); lia|]. cbv zeta. z_cases; lia. Qed.

(** What is before the byte found. *)
Lemma IndexByte_upto s c : c ∉ upto (IndexByte s c) s.
Proof.
  induction s as [|b s IH]; [apply not_elem_of_nil|]. cbn [IndexByte]. destruct (Z.eqb_spec b c) as [|Hne]; [apply not_elem_of_nil|].
  cbv zeta. z_cases; [apply not_elem_of_nil|]. unfold upto in *. rewrite Z.add_1_r, Z2Nat.inj_succ by lia. cbn.
  apply not_elem_of_cons. split; [|exact IH]. intros E. by apply Hne.
Qed.

Lemma IndexByte_app t c r : c ∉ t -> IndexByte (t ++ c :: r) c = len t.
Proof.
  induction t as [|b t IH]; intros Hc; cbn; [by rewrite Z.eqb_refl|]. apply not_elem_of_cons in Hc as [Hb Hc].
  destruct (Z.eqb_spec b c) as [->|_]; [done|]. rewrite (IH Hc), len_cons. pose proof (len_nonneg t). z_cases; lia.
Qed.

Lemma IndexByte_absent t c : c ∉ t -> IndexByte t c = -1.
Proof.
  induction t as [|b t IH]; [done|]. intros [Hb Ht]%not_elem_of_cons. cbn. destruct (Z.eqb_spec b c) as [->|]; [done|]. by rewrite (IH Ht).
Qed.

Lemma strip_none l s : (forall e, e ∈ l -> ~ e `prefix_of` s) -> strip l s = None.
Proof.
  induction l as [|e l IH]; intros H; [done|]. cbn [strip]. rewrite bool_decide_false by (apply H; by left). apply IH. intros e' He. apply H. by right.
Qed.

Lemma strip_all_none fuel l s : strip l s = None -> strip_all fuel l s = s.
Proof. destruct fuel; [done|]. cbn. by intros ->. Qed.

(** A text between other bytes than those of spaces. *)
Lemma TrimSpace_id a k b : (forall s, strip spaces (a :: s) = None) -> (forall s, strip (reverse <$> spaces) (b :: s) = None) ->
  TrimSpace (a :: k ++ [b]) = a :: k ++ [b].
Proof.
  intros Ha Hb. unfold TrimSpace. rewrite (strip_all_none _ _ (a :: k ++ [b])) by done.
  assert (Hr : reverse (a :: k ++ [b]) = b :: reverse k ++ [a]) by by rewrite reverse_cons, reverse_snoc.
  rewrite Hr, strip_all_none by apply Hb. by rewrite reverse_cons, reverse_snoc, reverse_involutive.
Qed.

Lemma digit_cases b : is_digit b = true -> b ∈ seqZ 48 10.
Proof. unfold is_digit. rewrite andb_true_iff, !Z.leb_le. intros. apply elem_of_seqZ. lia. Qed.

Lemma undigits_nonneg l : forallb is_digit l = true -> 0 <= undigits l.
Proof.
  unfold undigits. assert (H : forall a, 0 <= a -> forallb is_digit l = true -> 0 <= foldl (fun a b => a * 10 + (b - 48)) a l).
  { induction l as [|b l IH]; intros a Ha Hl; [done|]. cbn in *. apply andb_true_iff in Hl as [Hb Hl]. apply IH; [|done].
    unfold is_digit in Hb. rewrite andb_true_iff, !Z.leb_le in Hb. lia. }
  intros. by apply H.
Qed.

Lemma ParseInt_digit s n : ParseInt s = (n, false) -> match s with b :: _ => is_digit b = true | [] => False end -> 0 <= n.
Proof.
  unfold ParseInt. destruct s as [|b k]; [done|]. intros H Hb. apply digit_cases in Hb.
  assert (E : (if b =? chr "+" then (false, k) else if b =? chr "-" then (true, k) else (false, b :: k)) = (false, b :: k)).
  { apply elem_of_seqZ in Hb. change (chr "+") with 43. change (chr "-") with 45. destruct (Z.eqb_spec b 43); [lia|]. destruct (Z.eqb_spec b 45); [lia|done]. }
  rewrite E in H. cbv beta iota zeta in H. destruct (bool_decide (b :: k = [])); [done|]. cbn [orb] in H. destruct (forallb is_digit (b :: k)) eqn:Hd; [|done]. cbn [negb] in H.
  destruct (undigits (b :: k) <? 2 ^ 63); [|done]. injection H as <-. by apply undigits_nonneg.
Qed.

Lemma ParseInt_bound s : - 2 ^ 63 <= fst (ParseInt s) < 2 ^ 63.
Proof.
  unfold ParseInt. set (nd := match s with [] => _ | _ :: _ => _ end). destruct nd as [neg ds]. destruct (bool_decide (ds = [])); [done|]. cbn [orb].
  destruct (forallb is_digit ds) eqn:Hd; [|done]. cbn [negb]. apply undigits_nonneg in Hd. cbv zeta. destruct neg; z_cases; cbn [fst]; lia.
Qed.

(** [strings.LastIndex] of one byte. *)
Fixpoint last_index (s : bytes) (c : Z) : Z :=
  match s with
  | [] => -1
  | b :: s => let i := last_index s c in if 0 <=? i then i + 1 else if b =? c then 0 else -1
  end.

Lemma last_index_none s c : c ∉ s -> last_index s c = -1.
Proof.
  induction s as [|b s IH]; [done|]. intros [Hc Hs]%not_elem_of_cons. cbn [last_index]. rewrite IH by done. cbn.
  destruct (Z.eqb_spec b c); congruence.
Qed.

Lemma last_index_last l c s : c ∉ s -> last_index (l ++ c :: s) c = len l.
Proof.
  intros Hs. induction l as [|b l IH]; cbn [app last_index].
  - rewrite last_index_none by done. by rewrite Z.eqb_refl.
  - rewrite IH, len_cons. pose proof (len_nonneg l). by rewrite (proj2 (Z.leb_le _ _)) by lia.
Qed.
