(* ===== verification/HpackVarint.v ===== *)
(** HPACK variable-length integers: [appendVarInt] of [http2/hpack/encode.go]
    and [readVarInt] of [http2/hpack/hpack.go]. *)
From S2P Require Import Prelude.

(** The errors of the package. *)
Inductive hpack_error :=
| errNeedMore
| errVarintOverflow
| ErrStringLength
| ErrInvalidHuffman
| InvalidIndexError (i : Z)
| ErrTableSizeTooLarge
| ErrInvalidEncoding
| ErrTruncatedHeaders.

#[global] Instance hpack_error_eq_dec : EqDecision hpack_error.
Proof. solve_decision. Defined.

Abbreviation hp A := (outcome hpack_error A).

(** The loop of [appendVarInt] and the byte after it. Ten rounds are enough for
    a [uint64] ([varint_tail_fuel]). *)
Fixpoint varint_tail (fuel : nat) (i : Z) : bytes :=
  match fuel with
  | O => [u8 i]
  | S fuel' =>
      if 128 <=? i then u8 (Z.lor 0x80 (Z.land i 0x7f)) :: varint_tail fuel' (shr i 7)
      else [u8 i]
  end.

Definition varint_rounds : nat := 10.

Definition appendVarInt (dst : bytes) (n i : Z) : bytes :=
  let k := u64 (Z.shiftl 1 n - 1) in
  if i <? k then dst ++ [u8 i]
  else (dst ++ [u8 k]) ++ varint_tail varint_rounds (u64 (i - k)).

(** The loop of [readVarInt]. *)
Fixpoint readVarInt_loop (p : bytes) (i m : Z) : hp (Z * bytes) :=
  match p with
  | [] => Fail errNeedMore
  | b :: p' =>
      let i' := u64 (i + shl 64 (Z.land b 127) m) in
      if Z.land b 128 =? 0 then Ok (i', p')
      else
        let m' := u64 (m + 7) in
        if 63 <=? m' then Fail errVarintOverflow else readVarInt_loop p' i' m'
  end.

Definition readVarInt (n : Z) (p : bytes) : hp (Z * bytes) :=
  if (n <? 1) || (8 <? n) then Panic else
  match p with
  | [] => Fail errNeedMore
  | b :: p' =>
      let i := if n <? 8 then Z.land b (Z.shiftl 1 n - 1) else b in
      if i <? Z.shiftl 1 n - 1 then Ok (i, p') else readVarInt_loop p' i 0
  end.

(** [dst[first] |= flag] after an append at [first]. *)
Definition or_at (first : nat) (flag : Z) (l : bytes) : bytes := alter (Z.lor flag) first l.

(** * Properties *)

Lemma shiftl_1 n : 0 <= n -> Z.shiftl 1 n = 2 ^ n.
Proof. intros. rewrite Z.shiftl_mul_pow2 by done. lia. Qed.

Lemma shr_div x n : 0 <= n -> shr x n = x / 2 ^ n.
Proof. apply Z.shiftr_div_pow2. Qed.

Lemma shr_7 i : shr i 7 = i / 128.
Proof. by rewrite shr_div by lia. Qed.

Lemma varint_cont_byte i : u8 (Z.lor 0x80 (Z.land i 0x7f)) = 128 + i mod 128.
Proof.
  rewrite (land_mask 7 i) by (try lia; done). change (2 ^ 7) with 128.
  pose proof (Z.mod_pos_bound i 128). rewrite (lor_add 7).
  - apply wrap_id. unfold in_width. lia.
  - lia.
  - done.
  - unfold in_width. lia.
Qed.

Lemma varint_tail_S fuel i : varint_tail (S fuel) i =
  if 128 <=? i then (128 + i mod 128) :: varint_tail fuel (i / 128) else [u8 i].
Proof. simpl. by rewrite varint_cont_byte, shr_7. Qed.

Lemma varint_tail_fuel f1 f2 i :
  0 <= i < 2 ^ (7 * Z.of_nat f1) -> (f1 <= f2)%nat -> varint_tail f2 i = varint_tail f1 i.
Proof.
  revert f2 i. induction f1 as [|f1 IH]; intros f2 i Hi Hle.
  - change (2 ^ (7 * Z.of_nat 0)) with 1 in Hi. destruct f2; [done|].
    rewrite varint_tail_S. by rewrite (proj2 (Z.leb_gt 128 i)) by lia.
  - destruct f2 as [|f2]; [lia|]. rewrite !varint_tail_S. z_cases; [|done].
    f_equal. apply IH; [|lia]. split; [apply Z.div_pos; lia|].
    apply Z.div_lt_upper_bound; [lia|].
    replace (128 * 2 ^ (7 * Z.of_nat f1)) with (2 ^ (7 * Z.of_nat (S f1))); [lia|].
    change 128 with (2 ^ 7). rewrite <- Z.pow_add_r by lia. f_equal. lia.
Qed.

Lemma varint_tail_ok fuel i : bytes_ok (varint_tail fuel i).
Proof.
  revert i. induction fuel as [|fuel IH]; intros i; simpl.
  { repeat constructor; by apply wrap_in_width. }
  case_match; repeat constructor; try apply wrap_in_width; try lia. apply IH.
Qed.

Lemma byte_low b : 0 <= b < 128 -> Z.land b 127 = b /\ Z.land b 128 = 0.
Proof.
  intros Hb. split.
  - rewrite (land_mask 7 b) by (try lia; done). apply Z.mod_small. lia.
  - apply Z.eqb_eq. rewrite byte_land_128 by (unfold byte_ok, in_width; lia). by apply Z.ltb_lt; lia.
Qed.

Lemma byte_high r : 0 <= r < 128 -> Z.land (128 + r) 127 = r /\ (Z.land (128 + r) 128 =? 0) = false.
Proof.
  intros Hb. split.
  - rewrite (land_mask 7 _) by (try lia; done). change (2 ^ 7) with 128.
    rewrite <- (Z.mod_add _ (-1)) by lia. rewrite Z.mod_small; lia.
  - rewrite byte_land_128 by (unfold byte_ok, in_width; lia). by apply Z.ltb_ge; lia.
Qed.

Lemma shl64_small x m : 0 <= m -> 0 <= x * 2 ^ m < 2 ^ 64 -> shl 64 x m = x * 2 ^ m.
Proof. intros. unfold shl. rewrite Z.shiftl_mul_pow2 by done. by apply wrap_id. Qed.

Lemma readVarInt_loop_last j acc m rest :
  0 <= j < 128 -> 0 <= m -> 0 <= acc -> acc + j * 2 ^ m < 2 ^ 64 ->
  readVarInt_loop (u8 j :: rest) acc m = Ok (acc + j * 2 ^ m, rest).
Proof.
  intros Hj Hm Hacc Hsum. destruct (byte_low j Hj) as [H1 H2].
  assert (Hu : u8 j = j) by (apply wrap_id; unfold in_width; lia).
  pose proof (Z.pow_pos_nonneg 2 m).
  simpl. rewrite Hu, H1, H2, Z.eqb_refl, shl64_small by nia.
  unfold u64. rewrite wrap_id by (unfold in_width; nia). done.
Qed.

#[global] Arguments varint_tail : simpl never.

(** Reading back the continuation bytes of [j]: [acc] and [j * 2^m] add up. *)
Lemma readVarInt_loop_tail fuel j acc m rest :
  0 <= j < 2 ^ (63 - m) -> j < 2 ^ (7 * Z.of_nat fuel) -> 0 <= m < 63 -> 0 <= acc ->
  acc + j * 2 ^ m < 2 ^ 64 ->
  readVarInt_loop (varint_tail fuel j ++ rest) acc m = Ok (acc + j * 2 ^ m, rest).
Proof.
  revert j acc m. induction fuel as [|fuel IH]; intros j acc m Hj Hf Hm Hacc Hsum.
  { change (2 ^ (7 * Z.of_nat 0)) with 1 in Hf. assert (j = 0) as -> by lia.
    apply readVarInt_loop_last; lia. }
  assert (H2m : 0 < 2 ^ m) by (apply Z.pow_pos_nonneg; lia).
  rewrite varint_tail_S. z_cases.
  - pose proof (Z.mod_pos_bound j 128 ltac:(lia)) as Hr. pose proof (Z.div_mod j 128 ltac:(lia)) as Hdm.
    destruct (byte_high (j mod 128) Hr) as [H1 H2].
    assert (Hm7 : m + 7 < 63).
    { destruct (decide (m + 7 < 63)); [done|].
      assert (2 ^ (63 - m) <= 2 ^ 7) by (apply Z.pow_le_mono_r; lia).
      change (2 ^ 7) with 128 in *. lia. }
    simpl app. cbn [readVarInt_loop]. rewrite H1, H2.
    rewrite shl64_small by nia.
    assert (Hm' : u64 (m + 7) = m + 7) by (apply wrap_id; unfold in_width; lia).
    rewrite Hm', (proj2 (Z.leb_gt 63 (m + 7))) by lia.
    assert (Hi' : u64 (acc + j mod 128 * 2 ^ m) = acc + j mod 128 * 2 ^ m).
    { apply wrap_id. unfold in_width. nia. }
    rewrite Hi'.
    assert (Hp7 : 2 ^ (m + 7) = 2 ^ m * 128) by (rewrite Z.pow_add_r by lia; done).
    rewrite IH.
    + do 2 f_equal. rewrite Hp7. nia.
    + split; [apply Z.div_pos; lia|]. apply Z.div_lt_upper_bound; [lia|].
      replace (128 * 2 ^ (63 - (m + 7))) with (2 ^ (63 - m)); [lia|].
      change 128 with (2 ^ 7). rewrite <- Z.pow_add_r by lia. f_equal. lia.
    + apply Z.div_lt_upper_bound; [lia|].
      replace (128 * 2 ^ (7 * Z.of_nat fuel)) with (2 ^ (7 * Z.of_nat (S fuel))); [lia|].
      change 128 with (2 ^ 7). rewrite <- Z.pow_add_r by lia. f_equal. lia.
    + lia.
    + nia.
    + rewrite Hp7. nia.
  - apply readVarInt_loop_last; lia.
Qed.

(** From [2^(63-m)] on, the ninth continuation byte is rejected. *)
Lemma readVarInt_loop_overflow fuel j acc m rest t :
  m = 7 * t -> 0 <= t -> m < 63 -> 2 ^ (63 - m) <= j -> j < 2 ^ (7 * Z.of_nat fuel) ->
  readVarInt_loop (varint_tail fuel j ++ rest) acc m = Fail errVarintOverflow.
Proof.
  revert j acc m t. induction fuel as [|fuel IH]; intros j acc m t Ht Ht0 Hm Hj Hf.
  { change (2 ^ (7 * Z.of_nat 0)) with 1 in Hf. pose proof (Z.pow_pos_nonneg 2 (63 - m)). lia. }
  assert (H128 : 128 <= j).
  { etrans; [|exact Hj]. change 128 with (2 ^ 7). apply Z.pow_le_mono_r; lia. }
  rewrite varint_tail_S, (proj2 (Z.leb_le 128 j)) by done.
  destruct (byte_high (j mod 128)) as [_ H2]; [apply Z.mod_pos_bound; lia|].
  simpl app. cbn [readVarInt_loop]. rewrite H2.
  assert (Hm' : u64 (m + 7) = m + 7) by (apply wrap_id; unfold in_width; lia).
  rewrite Hm'. destruct (Z.leb_spec 63 (m + 7)); [done|].
  apply IH with (t := t + 1); [lia|lia|lia| |].
  - apply Z.div_le_lower_bound; [lia|].
    replace (128 * 2 ^ (63 - (m + 7))) with (2 ^ (63 - m)); [lia|].
    change 128 with (2 ^ 7). rewrite <- Z.pow_add_r by lia. f_equal. lia.
  - apply Z.div_lt_upper_bound; [lia|].
    replace (128 * 2 ^ (7 * Z.of_nat fuel)) with (2 ^ (7 * Z.of_nat (S fuel))); [lia|].
    change 128 with (2 ^ 7). rewrite <- Z.pow_add_r by lia. f_equal. lia.
Qed.

(** A flag byte for prefix size [n]: a byte whose low [n] bits are clear. *)
Definition flag_ok (n flag : Z) : Prop := byte_ok flag /\ flag mod 2 ^ n = 0.

#[global] Instance flag_ok_dec n flag : Decision (flag_ok n flag).
Proof. unfold flag_ok. apply _. Defined.

Lemma prefix_bound n : 1 <= n <= 8 -> 2 <= 2 ^ n <= 256.
Proof.
  intros Hn. split.
  - change 2 with (2 ^ 1) at 1. apply Z.pow_le_mono_r; lia.
  - change 256 with (2 ^ 8). apply Z.pow_le_mono_r; lia.
Qed.

Lemma flag_or_mod n flag x :
  1 <= n <= 8 -> flag_ok n flag -> 0 <= x < 2 ^ n -> Z.lor flag x mod 2 ^ n = x.
Proof.
  intros Hn [_ Hf] Hx. rewrite (lor_add n) by (try done; lia).
  rewrite Zplus_mod, Hf, Z.add_0_l, Z.mod_mod by lia. by apply Z.mod_small.
Qed.

(** The first byte, as [readVarInt] masks it. *)
Lemma read_prefix n flag x :
  1 <= n <= 8 -> flag_ok n flag -> 0 <= x < 2 ^ n ->
  (if n <? 8 then Z.land (Z.lor flag x) (2 ^ n - 1) else Z.lor flag x) = x.
Proof.
  intros Hn Hf Hx. z_cases.
  - rewrite (land_mask n) by (try lia; rewrite Z.ones_equiv; lia). by apply flag_or_mod.
  - assert (n = 8) as -> by lia. destruct Hf as [Hb Hf]. unfold byte_ok, in_width in Hb.
    rewrite Z.mod_small in Hf by done. subst flag. apply Z.lor_0_l.
Qed.

Definition varint_limit (n : Z) : Z := 2 ^ 63 + (2 ^ n - 1).

Lemma appendVarInt_app dst n i : appendVarInt dst n i = dst ++ appendVarInt [] n i.
Proof. unfold appendVarInt. case_match; [done|]. by rewrite <- app_assoc. Qed.

Lemma appendVarInt_cons n i : exists b l, appendVarInt [] n i = b :: l.
Proof. unfold appendVarInt. case_match; rewrite ?app_nil_l; eexists _, _; reflexivity. Qed.

Lemma appendVarInt_ok n i : bytes_ok (appendVarInt [] n i).
Proof.
  unfold appendVarInt. case_match; rewrite ?app_nil_l.
  - constructor; [by apply wrap_in_width|constructor].
  - constructor; [by apply wrap_in_width|apply varint_tail_ok].
Qed.

Lemma or_at_app l flag k : or_at (length l) flag (l ++ k) = l ++ or_at 0 flag k.
Proof. unfold or_at. rewrite alter_app_r_alt by lia. by rewrite Nat.sub_diag. Qed.

Lemma or_at_0 flag b l : or_at 0 flag (b :: l) = Z.lor flag b :: l.
Proof. reflexivity. Qed.

Lemma varint_roundtrip n i flag rest :
  1 <= n <= 8 -> in_width 64 i -> flag_ok n flag ->
  readVarInt n (or_at 0 flag (appendVarInt [] n i) ++ rest) =
    if i <? varint_limit n then Ok (i, rest) else Fail errVarintOverflow.
Proof.
  intros Hn Hi Hf. pose proof (prefix_bound n Hn) as Hp. unfold in_width in Hi.
  unfold readVarInt, varint_limit.
  rewrite (proj2 (Z.ltb_ge n 1)), (proj2 (Z.ltb_ge 8 n)) by lia. cbn [orb].
  unfold appendVarInt. rewrite shiftl_1 by lia.
  assert (Hk : u64 (2 ^ n - 1) = 2 ^ n - 1) by (apply wrap_id; unfold in_width; lia).
  rewrite Hk. destruct (Z.ltb_spec i (2 ^ n - 1)) as [Hlt|Hge].
  - cbn [app]. rewrite or_at_0. cbn [app].
    assert (Hu : u8 i = i) by (apply wrap_id; unfold in_width; lia). rewrite Hu.
    rewrite read_prefix by (try done; lia). rewrite (proj2 (Z.ltb_lt _ _)) by done.
    by rewrite (proj2 (Z.ltb_lt i _)) by lia.
  - cbn [app]. rewrite or_at_0. cbn [app].
    assert (Hu : u8 (2 ^ n - 1) = 2 ^ n - 1) by (apply wrap_id; unfold in_width; lia). rewrite Hu.
    rewrite read_prefix by (try done; lia). rewrite Z.ltb_irrefl.
    assert (Hs : u64 (i - (2 ^ n - 1)) = i - (2 ^ n - 1)) by (apply wrap_id; unfold in_width; lia).
    rewrite Hs. destruct (Z.ltb_spec i (2 ^ 63 + (2 ^ n - 1))).
    + rewrite readVarInt_loop_tail; [do 2 f_equal; lia|..]; unfold varint_rounds; lia.
    + rewrite readVarInt_loop_overflow with (t := 0); try done; unfold varint_rounds; lia.
Qed.

(** For every prefix size 1 to 8, every [uint64] and every flag bits above
    the prefix, [readVarInt] reads back the integer [appendVarInt] wrote and
    leaves what follows, when the integer is below [2^63 + 2^n - 1]; from there
    on it reports a varint overflow. *)
Lemma readVarInt_appendVarInt n i flag rest :
  1 <= n <= 8 -> in_width 64 i -> flag_ok n flag ->
  readVarInt n (or_at 0 flag (appendVarInt [] n i) ++ rest) =
    if i <? varint_limit n then Ok (i, rest) else Fail errVarintOverflow.
Proof. apply varint_roundtrip. Qed.

Lemma readVarInt_appendVarInt_witness :
  (1 <= 5 <= 8 /\ in_width 64 1337 /\ flag_ok 5 0x20) /\
  readVarInt 5 (or_at 0 0x20 (appendVarInt [] 5 1337) ++ [7]) =
    (if 1337 <? varint_limit 5 then Ok (1337, [7]) else Fail errVarintOverflow).
Proof.
  assert (H1 : 1 <= 5 <= 8) by lia.
  assert (H2 : in_width 64 1337) by solve_width.
  assert (H3 : flag_ok 5 0x20) by (apply (bool_decide_unpack _); vm_compute; exact I).
  split; [done|]. exact (readVarInt_appendVarInt 5 1337 0x20 [7] H1 H2 H3).
Defined.
