(* ===== verification/HpackTables.v ===== *)
(** HPACK header fields and header tables: [http2/hpack/tables.go] and the
    dynamic table of [http2/hpack/hpack.go]. *)
From S2P Require Import Prelude HpackVarint.

(** * Header fields (hpack.go) *)

Record HeaderField := mkHF { Name : bytes; Value : bytes; Sensitive : bool }.

#[global] Instance HeaderField_eq_dec : EqDecision HeaderField.
Proof. solve_decision. Defined.

Definition IsPseudo (hf : HeaderField) : bool :=
  negb (len (Name hf) =? 0) && (match Name hf with b :: _ => b =? 58 | [] => false end).

Definition Size (hf : HeaderField) : Z := u32 (len (Name hf) + len (Value hf) + 32).

(** * Header field tables (tables.go) *)

Record headerFieldTable := mkTable {
  ents : list HeaderField;
  evictCount : Z;
  byName : gmap bytes Z;
  byNameValue : gmap (bytes * bytes) Z }.

Definition table_init : headerFieldTable := mkTable [] 0 ∅ ∅.

Definition table_len (t : headerFieldTable) : Z := len (ents t).

Definition addEntry (t : headerFieldTable) (f : HeaderField) : headerFieldTable :=
  let id := u64 (u64 (table_len t) + evictCount t + 1) in
  mkTable (ents t ++ [f]) (evictCount t)
    (<[Name f := id]> (byName t)) (<[(Name f, Value f) := id]> (byNameValue t)).

(** The loop of [evictOldest] over the entries it removes, the first of which
    has the unique id [id]. *)
Fixpoint evict_maps (es : list HeaderField) (id : Z) (bn : gmap bytes Z) (bnv : gmap (bytes * bytes) Z)
    : gmap bytes Z * gmap (bytes * bytes) Z :=
  match es with
  | [] => (bn, bnv)
  | f :: es' =>
      let bn' := if map_get0 bn (Name f) =? id then delete (Name f) bn else bn in
      let p := (Name f, Value f) in
      let bnv' := if map_get0 bnv p =? id then delete p bnv else bnv in
      evict_maps es' (u64 (id + 1)) bn' bnv'
  end.

Definition evictOldest (n : Z) (t : headerFieldTable) : hp headerFieldTable :=
  if table_len t <? n then Panic else
  let '(bn, bnv) := evict_maps (upto n (ents t)) (u64 (evictCount t + 1)) (byName t) (byNameValue t) in
  if u64 (evictCount t + n) <? evictCount t then Panic
  else Ok (mkTable (from n (ents t)) (u64 (evictCount t + n)) bn bnv).

(** [static] tells whether the receiver is the global [staticTable] pointer. *)
Definition idToIndex (static : bool) (t : headerFieldTable) (id : Z) : hp Z :=
  if id <=? evictCount t then Panic else
  let k := u64 (id - evictCount t - 1) in
  if negb static then Ok (u64 (u64 (table_len t) - k)) else Ok (u64 (k + 1)).

Definition search (static : bool) (t : headerFieldTable) (f : HeaderField) : hp (Z * bool) :=
  let by_name :=
    let id := map_get0 (byName t) (Name f) in
    if negb (id =? 0) then i ← idToIndex static t id; Ok (i, false) else Ok (0, false) in
  if negb (Sensitive f) then
    let id := map_get0 (byNameValue t) (Name f, Value f) in
    if negb (id =? 0) then i ← idToIndex static t id; Ok (i, true) else by_name
  else by_name.

Definition static_entry (name value : string) : HeaderField := mkHF (str name) (str value) false.

Definition staticTableEntries : list HeaderField :=
  [ static_entry ":authority" EmptyString;
    static_entry ":method" "GET";
    static_entry ":method" "POST";
    static_entry ":path" "/";
    static_entry ":path" "/index.html";
    static_entry ":scheme" "http";
    static_entry ":scheme" "https";
    static_entry ":status" "200";
    static_entry ":status" "204";
    static_entry ":status" "206";
    static_entry ":status" "304";
    static_entry ":status" "400";
    static_entry ":status" "404";
    static_entry ":status" "500";
    static_entry "accept-charset" EmptyString;
    static_entry "accept-encoding" "gzip, deflate";
    static_entry "accept-language" EmptyString;
    static_entry "accept-ranges" EmptyString;
    static_entry "accept" EmptyString;
    static_entry "access-control-allow-origin" EmptyString;
    static_entry "age" EmptyString;
    static_entry "allow" EmptyString;
    static_entry "authorization" EmptyString;
    static_entry "cache-control" EmptyString;
    static_entry "content-disposition" EmptyString;
    static_entry "content-encoding" EmptyString;
    static_entry "content-language" EmptyString;
    static_entry "content-length" EmptyString;
    static_entry "content-location" EmptyString;
    static_entry "content-range" EmptyString;
    static_entry "content-type" EmptyString;
    static_entry "cookie" EmptyString;
    static_entry "date" EmptyString;
    static_entry "etag" EmptyString;
    static_entry "expect" EmptyString;
    static_entry "expires" EmptyString;
    static_entry "from" EmptyString;
    static_entry "host" EmptyString;
    static_entry "if-match" EmptyString;
    static_entry "if-modified-since" EmptyString;
    static_entry "if-none-match" EmptyString;
    static_entry "if-range" EmptyString;
    static_entry "if-unmodified-since" EmptyString;
    static_entry "last-modified" EmptyString;
    static_entry "link" EmptyString;
    static_entry "location" EmptyString;
    static_entry "max-forwards" EmptyString;
    static_entry "proxy-authenticate" EmptyString;
    static_entry "proxy-authorization" EmptyString;
    static_entry "range" EmptyString;
    static_entry "referer" EmptyString;
    static_entry "refresh" EmptyString;
    static_entry "retry-after" EmptyString;
    static_entry "server" EmptyString;
    static_entry "set-cookie" EmptyString;
    static_entry "strict-transport-security" EmptyString;
    static_entry "transfer-encoding" EmptyString;
    static_entry "user-agent" EmptyString;
    static_entry "vary" EmptyString;
    static_entry "via" EmptyString;
    static_entry "www-authenticate" EmptyString ].

Definition newStaticTable : headerFieldTable := foldl addEntry table_init staticTableEntries.

Definition staticTable : headerFieldTable := newStaticTable.

(** [huffmanCodes], first and second half. *)
Definition huffmanCodes_lo : list Z :=
  [0x1ff8; 0x7fffd8; 0xfffffe2; 0xfffffe3; 0xfffffe4; 0xfffffe5; 0xfffffe6; 0xfffffe7;
    0xfffffe8; 0xffffea; 0x3ffffffc; 0xfffffe9; 0xfffffea; 0x3ffffffd; 0xfffffeb;
    0xfffffec; 0xfffffed; 0xfffffee; 0xfffffef; 0xffffff0; 0xffffff1; 0xffffff2;
    0x3ffffffe; 0xffffff3; 0xffffff4; 0xffffff5; 0xffffff6; 0xffffff7; 0xffffff8;
    0xffffff9; 0xffffffa; 0xffffffb; 0x14; 0x3f8; 0x3f9; 0xffa; 0x1ff9; 0x15; 0xf8;
    0x7fa; 0x3fa; 0x3fb; 0xf9; 0x7fb; 0xfa; 0x16; 0x17; 0x18; 0x0; 0x1; 0x2; 0x19; 0x1a;
    0x1b; 0x1c; 0x1d; 0x1e; 0x1f; 0x5c; 0xfb; 0x7ffc; 0x20; 0xffb; 0x3fc; 0x1ffa; 0x21;
    0x5d; 0x5e; 0x5f; 0x60; 0x61; 0x62; 0x63; 0x64; 0x65; 0x66; 0x67; 0x68; 0x69; 0x6a;
    0x6b; 0x6c; 0x6d; 0x6e; 0x6f; 0x70; 0x71; 0x72; 0xfc; 0x73; 0xfd; 0x1ffb; 0x7fff0;
    0x1ffc; 0x3ffc; 0x22; 0x7ffd; 0x3; 0x23; 0x4; 0x24; 0x5; 0x25; 0x26; 0x27; 0x6;
    0x74; 0x75; 0x28; 0x29; 0x2a; 0x7; 0x2b; 0x76; 0x2c; 0x8; 0x9; 0x2d; 0x77; 0x78;
    0x79; 0x7a; 0x7b; 0x7ffe; 0x7fc; 0x3ffd; 0x1ffd; 0xffffffc].

Definition huffmanCodes_hi : list Z :=
  [0xfffe6; 0x3fffd2; 0xfffe7; 0xfffe8; 0x3fffd3; 0x3fffd4; 0x3fffd5; 0x7fffd9;
    0x3fffd6; 0x7fffda; 0x7fffdb; 0x7fffdc; 0x7fffdd; 0x7fffde; 0xffffeb; 0x7fffdf;
    0xffffec; 0xffffed; 0x3fffd7; 0x7fffe0; 0xffffee; 0x7fffe1; 0x7fffe2; 0x7fffe3;
    0x7fffe4; 0x1fffdc; 0x3fffd8; 0x7fffe5; 0x3fffd9; 0x7fffe6; 0x7fffe7; 0xffffef;
    0x3fffda; 0x1fffdd; 0xfffe9; 0x3fffdb; 0x3fffdc; 0x7fffe8; 0x7fffe9; 0x1fffde;
    0x7fffea; 0x3fffdd; 0x3fffde; 0xfffff0; 0x1fffdf; 0x3fffdf; 0x7fffeb; 0x7fffec;
    0x1fffe0; 0x1fffe1; 0x3fffe0; 0x1fffe2; 0x7fffed; 0x3fffe1; 0x7fffee; 0x7fffef;
    0xfffea; 0x3fffe2; 0x3fffe3; 0x3fffe4; 0x7ffff0; 0x3fffe5; 0x3fffe6; 0x7ffff1;
    0x3ffffe0; 0x3ffffe1; 0xfffeb; 0x7fff1; 0x3fffe7; 0x7ffff2; 0x3fffe8; 0x1ffffec;
    0x3ffffe2; 0x3ffffe3; 0x3ffffe4; 0x7ffffde; 0x7ffffdf; 0x3ffffe5; 0xfffff1;
    0x1ffffed; 0x7fff2; 0x1fffe3; 0x3ffffe6; 0x7ffffe0; 0x7ffffe1; 0x3ffffe7; 0x7ffffe2;
    0xfffff2; 0x1fffe4; 0x1fffe5; 0x3ffffe8; 0x3ffffe9; 0xffffffd; 0x7ffffe3; 0x7ffffe4;
    0x7ffffe5; 0xfffec; 0xfffff3; 0xfffed; 0x1fffe6; 0x3fffe9; 0x1fffe7; 0x1fffe8;
    0x7ffff3; 0x3fffea; 0x3fffeb; 0x1ffffee; 0x1ffffef; 0xfffff4; 0xfffff5; 0x3ffffea;
    0x7ffff4; 0x3ffffeb; 0x7ffffe6; 0x3ffffec; 0x3ffffed; 0x7ffffe7; 0x7ffffe8;
    0x7ffffe9; 0x7ffffea; 0x7ffffeb; 0xffffffe; 0x7ffffec; 0x7ffffed; 0x7ffffee;
    0x7ffffef; 0x7fffff0; 0x3ffffee].

Definition huffmanCodes : list Z := huffmanCodes_lo ++ huffmanCodes_hi.

Definition huffmanCodeLen : list Z :=
  [13; 23; 28; 28; 28; 28; 28; 28; 28; 24; 30; 28; 28; 30; 28; 28; 28; 28; 28; 28; 28;
    28; 30; 28; 28; 28; 28; 28; 28; 28; 28; 28; 6; 10; 10; 12; 13; 6; 8; 11; 10; 10; 8;
    11; 8; 6; 6; 6; 5; 5; 5; 6; 6; 6; 6; 6; 6; 6; 7; 8; 15; 6; 12; 10; 13; 6; 7; 7; 7;
    7; 7; 7; 7; 7; 7; 7; 7; 7; 7; 7; 7; 7; 7; 7; 7; 7; 7; 7; 8; 7; 8; 13; 19; 13; 14; 6;
    15; 5; 6; 5; 6; 5; 6; 6; 6; 5; 7; 7; 6; 6; 6; 5; 6; 7; 6; 5; 5; 6; 7; 7; 7; 7; 7;
    15; 11; 14; 13; 28; 20; 22; 20; 20; 22; 22; 22; 23; 22; 23; 23; 23; 23; 23; 24; 23;
    24; 24; 22; 23; 24; 23; 23; 23; 23; 21; 22; 23; 22; 23; 23; 24; 22; 21; 20; 22; 22;
    23; 23; 21; 23; 22; 22; 24; 21; 22; 23; 23; 21; 21; 22; 21; 23; 22; 23; 23; 20; 22;
    22; 22; 23; 22; 22; 23; 26; 26; 20; 19; 22; 23; 22; 25; 26; 26; 26; 27; 27; 26; 24;
    25; 19; 21; 26; 27; 27; 26; 27; 24; 21; 21; 26; 26; 28; 27; 27; 27; 20; 24; 20; 21;
    22; 21; 21; 23; 22; 22; 25; 25; 24; 24; 26; 23; 26; 27; 26; 26; 27; 27; 27; 27; 27;
    28; 27; 27; 27; 27; 27; 26].

(** * The dynamic table (hpack.go) *)

Record dynamicTable := mkDyn {
  table : headerFieldTable;
  dsize : Z;
  maxSize : Z;
  allowedMaxSize : Z }.

Fixpoint evict_count (es : list HeaderField) (size max n : Z) : Z * Z :=
  match es with
  | [] => (size, n)
  | e :: es' => if max <? size then evict_count es' (u32 (size - Size e)) max (n + 1) else (size, n)
  end.

Definition evict (dt : dynamicTable) : hp dynamicTable :=
  let '(size, n) := evict_count (ents (table dt)) (dsize dt) (maxSize dt) 0 in
  t ← evictOldest n (table dt);
  Ok (mkDyn t size (maxSize dt) (allowedMaxSize dt)).

Definition setMaxSize (v : Z) (dt : dynamicTable) : hp dynamicTable :=
  evict (mkDyn (table dt) (dsize dt) v (allowedMaxSize dt)).

Definition add (f : HeaderField) (dt : dynamicTable) : hp dynamicTable :=
  evict (mkDyn (addEntry (table dt) f) (u32 (dsize dt + Size f)) (maxSize dt) (allowedMaxSize dt)).

(** * The table invariant: both maps point at the newest entries *)

(** The last index of an entry satisfying [P]. *)
Fixpoint newest (P : HeaderField -> bool) (l : list HeaderField) : option nat :=
  match l with
  | [] => None
  | f :: l' =>
      match newest P l' with
      | Some k => Some (S k)
      | None => if P f then Some O else None
      end
  end.

Section key.
Context {K : Type} `{Countable K} (key : HeaderField -> K).

Definition has_key (k : K) (f : HeaderField) : bool := bool_decide (key f = k).

(** The map [m] sends each key to the unique id of the newest entry with it. *)
Definition indexes (e : Z) (l : list HeaderField) (m : gmap K Z) : Prop :=
  forall k, m !! k = (fun i : nat => e + Z.of_nat i + 1) <$> newest (has_key k) l.

Fixpoint evict_map (es : list HeaderField) (id : Z) (m : gmap K Z) : gmap K Z :=
  match es with
  | [] => m
  | f :: es' =>
      evict_map es' (u64 (id + 1)) (if map_get0 m (key f) =? id then delete (key f) m else m)
  end.

Lemma newest_snoc P l f : newest P (l ++ [f]) = if P f then Some (length l) else newest P l.
Proof.
  induction l as [|g l IH]; simpl; [by destruct (P f)|]. rewrite IH.
  destruct (P f); [done|]. by destruct (newest P l).
Qed.

Lemma newest_lt P l k : newest P l = Some k -> (k < length l)%nat.
Proof.
  revert k. induction l as [|f l IH]; intros k; simpl; [done|].
  destruct (newest P l) as [j|]; [intros [= <-]; specialize (IH j eq_refl); lia|].
  destruct (P f); [|done]. intros [= <-]. lia.
Qed.

Lemma newest_lookup P l k : newest P l = Some k -> exists f, l !! k = Some f /\ P f = true.
Proof.
  revert k. induction l as [|f l IH]; intros k; simpl; [done|].
  destruct (newest P l) as [j|]; [intros [= <-]; by apply IH|].
  destruct (P f) eqn:E; [|done]. intros [= <-]. by exists f.
Qed.

Lemma newest_max P l k j f : newest P l = Some k -> l !! j = Some f -> P f = true -> (j <= k)%nat.
Proof.
  revert k j. induction l as [|g l IH]; intros k j; simpl; [done|].
  destruct j as [|j]; simpl; [lia|]. destruct (newest P l) as [i|] eqn:E.
  - intros [= <-] Hj HP. specialize (IH i j eq_refl Hj HP). lia.
  - intros _ Hj HP. exfalso. clear IH. revert j Hj. induction l as [|h l IH]; intros j Hj; [done|].
    simpl in E. destruct (newest P l); [done|]. destruct (P h) eqn:Eh; [done|].
    destruct j as [|j]; simpl in Hj; [congruence|]. by apply (IH eq_refl j).
Qed.

Lemma newest_None P l f : newest P l = None -> f ∈ l -> P f = false.
Proof.
  intros Hn [j Hj]%list_elem_of_lookup_1. destruct (P f) eqn:E; [|done].
  revert j Hj. induction l as [|g l IH]; intros j Hj; [done|]. simpl in Hn.
  destruct (newest P l); [done|]. destruct (P g) eqn:Eg; [done|].
  destruct j as [|j]; simpl in Hj; [congruence|]. by apply (IH eq_refl j).
Qed.

Lemma indexes_snoc e l m f :
  indexes e l m -> indexes e (l ++ [f]) (<[key f := e + len l + 1]> m).
Proof.
  intros Hm k. rewrite newest_snoc. unfold has_key at 1. case_bool_decide as Hk.
  - subst k. rewrite lookup_insert_eq. simpl. done.
  - rewrite lookup_insert_ne by done. apply Hm.
Qed.

Lemma indexes_uncons e f l m :
  0 <= e -> indexes e (f :: l) m ->
  indexes (e + 1) l (if map_get0 m (key f) =? e + 1 then delete (key f) m else m).
Proof.
  intros He Hm k. pose proof (Hm k) as Hk. pose proof (Hm (key f)) as Hf. simpl in Hk, Hf.
  unfold map_get0. rewrite Hf. unfold has_key at 2. rewrite bool_decide_true by done.
  destruct (newest (has_key (key f)) l) as [i|] eqn:Ei; simpl.
  - rewrite (proj2 (Z.eqb_neq _ _)) by lia. rewrite Hk.
    unfold has_key at 2. destruct (newest (has_key k) l) as [j|] eqn:Ej; simpl; [f_equal; lia|].
    case_bool_decide; [|done]. subst k. by rewrite Ei in Ej.
  - rewrite (proj2 (Z.eqb_eq _ _)) by lia. destruct (decide (key f = k)) as [<-|Hne].
    + by rewrite lookup_delete_eq, Ei.
    + rewrite lookup_delete_ne, Hk by done. unfold has_key at 2. rewrite bool_decide_false by done.
      destruct (newest (has_key k) l); simpl; [f_equal; lia|done].
Qed.

Lemma evict_map_indexes e l j m :
  0 <= e -> e + len l + 1 < 2 ^ 64 -> (j <= length l)%nat -> indexes e l m ->
  indexes (e + Z.of_nat j) (drop j l) (evict_map (take j l) (u64 (e + 1)) m).
Proof.
  revert e l m. induction j as [|j IH]; intros e l m He Hb Hj Hm.
  { simpl. by rewrite Z.add_0_r. }
  destruct l as [|f l]; [simpl in Hj; lia|]. simpl in Hj. rewrite len_cons in Hb.
  pose proof (len_nonneg l).
  assert (H1 : u64 (e + 1) = e + 1) by (apply wrap_id; unfold in_width; lia).
  simpl. rewrite H1. replace (e + Z.of_nat (S j)) with ((e + 1) + Z.of_nat j) by lia.
  apply IH; [lia|lia|lia|]. by apply indexes_uncons.
Qed.
End key.

Definition nv_key (f : HeaderField) : bytes * bytes := (Name f, Value f).

Lemma evict_maps_split es id bn bnv :
  evict_maps es id bn bnv = (evict_map Name es id bn, evict_map nv_key es id bnv).
Proof. revert id bn bnv. induction es as [|f es IH]; intros; [done|]. apply IH. Qed.

Record table_ok (t : headerFieldTable) : Prop := {
  tok_count : 0 <= evictCount t;
  tok_bound : evictCount t + table_len t + 1 < 2 ^ 64;
  tok_name : indexes Name (evictCount t) (ents t) (byName t);
  tok_nv : indexes nv_key (evictCount t) (ents t) (byNameValue t) }.

Lemma table_init_ok : table_ok table_init.
Proof. split; try done; by intros k. Qed.

Lemma addEntry_ents t f : ents (addEntry t f) = ents t ++ [f].
Proof. reflexivity. Qed.

Lemma addEntry_ok t f :
  table_ok t -> evictCount t + table_len t + 2 < 2 ^ 64 -> table_ok (addEntry t f).
Proof.
  intros [Hc Hb Hn Hv] Hid. pose proof (len_nonneg (ents t)). unfold table_len in *.
  assert (Hl : u64 (len (ents t)) = len (ents t)) by (apply wrap_id; unfold in_width; lia).
  assert (Hi : u64 (len (ents t) + evictCount t + 1) = evictCount t + len (ents t) + 1).
  { replace (len (ents t) + evictCount t + 1) with (evictCount t + len (ents t) + 1) by lia.
    apply wrap_id; unfold in_width; lia. }
  split; simpl; unfold table_len; rewrite ?Hl, ?Hi; simpl; rewrite ?len_app, ?len_cons, ?len_nil;
    try lia.
  - by apply (indexes_snoc Name).
  - by apply (indexes_snoc nv_key).
Qed.

Lemma evictOldest_spec t n :
  table_ok t -> 0 <= n <= table_len t ->
  exists t', evictOldest n t = Ok t' /\ table_ok t' /\
    ents t' = from n (ents t) /\ evictCount t' = evictCount t + n.
Proof.
  intros [Hc Hb Hn Hv] Hr. unfold evictOldest, table_len in *.
  rewrite (proj2 (Z.ltb_ge _ _)) by lia. rewrite evict_maps_split.
  assert (Hu : u64 (evictCount t + n) = evictCount t + n) by (apply wrap_id; unfold in_width; lia).
  rewrite Hu, (proj2 (Z.ltb_ge _ _)) by lia.
  eexists; split; [reflexivity|]. split; [|done].
  assert (Hl : (Z.to_nat n <= length (ents t))%nat) by (unfold len in *; lia).
  split; simpl; unfold table_len; simpl.
  - lia.
  - rewrite len_from by lia. lia.
  - pose proof (evict_map_indexes Name _ _ _ _ Hc Hb Hl Hn) as H.
    by rewrite Z2Nat.id in H by lia.
  - pose proof (evict_map_indexes nv_key _ _ _ _ Hc Hb Hl Hv) as H.
    by rewrite Z2Nat.id in H by lia.
Qed.

(** The index HPACK gives the entry at position [k] of a table. *)
Definition hpack_index (static : bool) (l : list HeaderField) (k : nat) : Z :=
  if static then Z.of_nat k + 1 else len l - Z.of_nat k.

Lemma idToIndex_spec static t k :
  table_ok t -> (k < length (ents t))%nat ->
  idToIndex static t (evictCount t + Z.of_nat k + 1) = Ok (hpack_index static (ents t) k).
Proof.
  intros [Hc Hb _ _] Hk. unfold idToIndex, table_len, hpack_index, len in *.
  rewrite (proj2 (Z.leb_gt _ _)) by lia.
  replace (evictCount t + Z.of_nat k + 1 - evictCount t - 1) with (Z.of_nat k) by lia.
  assert (Hk' : u64 (Z.of_nat k) = Z.of_nat k) by (apply wrap_id; unfold in_width; lia).
  assert (Hl : u64 (Z.of_nat (length (ents t))) = Z.of_nat (length (ents t)))
    by (apply wrap_id; unfold in_width; lia).
  rewrite Hk', Hl. destruct static; simpl; f_equal; apply wrap_id; unfold in_width; lia.
Qed.

(** What [search] is meant to return. *)
Definition search_spec (static : bool) (l : list HeaderField) (f : HeaderField) : Z * bool :=
  let by_name :=
    match newest (has_key Name (Name f)) l with
    | Some k => (hpack_index static l k, false)
    | None => (0, false)
    end in
  if Sensitive f then by_name
  else match newest (has_key nv_key (nv_key f)) l with
       | Some k => (hpack_index static l k, true)
       | None => by_name
       end.

Lemma search_ok static t f :
  table_ok t -> search static t f = Ok (search_spec static (ents t) f).
Proof.
  intros Ht. pose proof (tok_count t Ht). unfold search, search_spec.
  assert (Hname : (let id := map_get0 (byName t) (Name f) in
      if negb (id =? 0) then i ← idToIndex static t id; Ok (i, false) else Ok (0, false)) =
    Ok (match newest (has_key Name (Name f)) (ents t) with
        | Some k => (hpack_index static (ents t) k, false) | None => (0, false) end) :> hp _).
  { cbv zeta. unfold map_get0. rewrite !(tok_name t Ht (Name f)).
    destruct (newest _ (ents t)) as [k|] eqn:Hk; simpl; [|done].
    rewrite (proj2 (Z.eqb_neq _ _)) by lia. cbn [negb].
    rewrite idToIndex_spec by (try done; by eapply newest_lt). done. }
  cbv zeta in *. rewrite Hname. destruct (Sensitive f); cbn [negb]; [done|].
  unfold map_get0, nv_key. rewrite !(tok_nv t Ht (Name f, Value f)). fold nv_key.
  destruct (newest (has_key nv_key (Name f, Value f)) (ents t)) as [k|] eqn:Hk; simpl; [|done].
  rewrite (proj2 (Z.eqb_neq _ _)) by lia. cbn [negb].
  rewrite idToIndex_spec by (try done; by eapply newest_lt). done.
Qed.

(** * Eviction *)

Definition total (l : list HeaderField) : Z := foldr (fun f acc => Size f + acc) 0 l.

(** The longest suffix of [l] (entries are oldest first) that fits in [max]. *)
Fixpoint keep (max : Z) (l : list HeaderField) : list HeaderField :=
  match l with
  | [] => []
  | _ :: l' => if max <? total l then keep max l' else l
  end.

Lemma Size_range f : in_width 32 (Size f).
Proof. apply wrap_in_width. lia. Qed.

Lemma total_nonneg l : 0 <= total l.
Proof. induction l as [|f l IH]; simpl; [lia|]. pose proof (Size_range f). unfold in_width in *. lia. Qed.

Lemma total_app l k : total (l ++ k) = total l + total k.
Proof. induction l as [|f l IH]; simpl; lia. Qed.

Lemma keep_suffix max l : exists old, l = old ++ keep max l.
Proof.
  induction l as [|f l [old IH]]; [by exists []|]. simpl. case_match; [|by exists []].
  exists (f :: old). simpl. by rewrite <- IH.
Qed.

Lemma keep_total max l : 0 <= max -> total (keep max l) <= max.
Proof. intros Hm. induction l as [|f l IH]; simpl; [lia|]. z_cases; [done|]. simpl. lia. Qed.

(** A suffix that fits is kept. *)
Lemma keep_app max old l : total l <= max -> exists old', keep max (old ++ l) = old' ++ l.
Proof.
  intros Hl. induction old as [|f old IH]; simpl.
  - exists []. destruct l; simpl in *; [done|]. by rewrite (proj2 (Z.ltb_ge _ _)) by done.
  - case_match; [done|]. by exists (f :: old).
Qed.

Lemma keep_all max l : total l <= max -> keep max l = l.
Proof. intros H. destruct l; simpl in *; [done|]. by rewrite (proj2 (Z.ltb_ge _ _)) by done. Qed.

Lemma evict_count_spec es max n :
  0 <= max -> total es < 2 ^ 32 ->
  evict_count es (total es) max n =
    (total (keep max es), n + (len es - len (keep max es))) /\
  keep max es = from (len es - len (keep max es)) es /\ len (keep max es) <= len es.
Proof.
  intros Hm. revert n. induction es as [|e es IH]; intros n Ht.
  { simpl. change (len []) with 0. split; [f_equal; lia|done]. }
  simpl in Ht. pose proof (total_nonneg es). pose proof (Size_range e) as He.
  simpl. destruct (Z.ltb_spec max (Size e + total es)).
  - assert (Hu : u32 (Size e + total es - Size e) = total es).
    { replace (Size e + total es - Size e) with (total es) by lia. apply wrap_id.
      unfold in_width in *. lia. }
    rewrite Hu. unfold in_width in He. destruct (IH (n + 1) ltac:(lia)) as (-> & Hk & Hl).
    rewrite len_cons. split; [f_equal; lia|]. split; [|lia].
    replace (len es + 1 - len (keep max es)) with (1 + (len es - len (keep max es))) by lia.
    unfold from. rewrite Z2Nat.inj_add by lia. change (Z.to_nat 1) with 1%nat. exact Hk.
  - rewrite Z.sub_diag. split; [f_equal; lia|]. split; [done|lia].
Qed.

Record dyn_ok (dt : dynamicTable) : Prop := {
  dok_table : table_ok (table dt);
  dok_size : dsize dt = total (ents (table dt));
  dok_fits : dsize dt <= maxSize dt;
  dok_max : in_width 32 (maxSize dt) }.

Lemma evict_spec dt :
  table_ok (table dt) -> dsize dt = total (ents (table dt)) -> dsize dt < 2 ^ 32 ->
  in_width 32 (maxSize dt) ->
  exists dt', evict dt = Ok dt' /\ dyn_ok dt' /\
    ents (table dt') = keep (maxSize dt) (ents (table dt)) /\
    evictCount (table dt') + table_len (table dt') = evictCount (table dt) + table_len (table dt) /\
    maxSize dt' = maxSize dt /\ allowedMaxSize dt' = allowedMaxSize dt.
Proof.
  intros Ht Hs Hlt Hm. unfold evict. rewrite Hs in *.
  destruct (evict_count_spec (ents (table dt)) (maxSize dt) 0) as (Hc & Hk & Hl);
    [by apply Hm|done|]. rewrite Hc.
  pose proof (len_nonneg (keep (maxSize dt) (ents (table dt)))).
  destruct (evictOldest_spec (table dt) (0 + (len (ents (table dt)) - len (keep (maxSize dt) (ents (table dt))))))
    as (t' & He & Ht' & Hents & Hcount); [done|unfold table_len; lia|].
  rewrite He. simpl. eexists; split; [reflexivity|]. rewrite Z.add_0_l, <- Hk in Hents.
  split_and!; simpl; try done.
  - split; simpl; try done; [by rewrite Hents|]. by apply keep_total, Hm.
  - unfold table_len. rewrite Hents, Hcount. lia.
Qed.

(** Room for [n] more entries before the unique ids overflow. *)
Definition ids_left (dt : dynamicTable) (n : Z) : Prop :=
  evictCount (table dt) + table_len (table dt) + n + 1 < 2 ^ 64.

Lemma setMaxSize_spec v dt :
  dyn_ok dt -> in_width 32 v ->
  exists dt', setMaxSize v dt = Ok dt' /\ dyn_ok dt' /\ maxSize dt' = v /\
    ents (table dt') = keep v (ents (table dt)) /\ allowedMaxSize dt' = allowedMaxSize dt /\
    evictCount (table dt') + table_len (table dt') = evictCount (table dt) + table_len (table dt).
Proof.
  intros [Ht Hs Hf Hm] Hv.
  destruct (evict_spec (mkDyn (table dt) (dsize dt) v (allowedMaxSize dt)))
    as (dt' & He & Hok & Hents & Hid & Hmax & Hall); simpl; try done; [unfold in_width in *; lia|].
  exists dt'. unfold setMaxSize. by split_and!.
Qed.

Lemma add_spec f dt :
  dyn_ok dt -> ids_left dt 1 -> dsize dt + Size f < 2 ^ 32 ->
  exists dt', add f dt = Ok dt' /\ dyn_ok dt' /\ maxSize dt' = maxSize dt /\
    ents (table dt') = keep (maxSize dt) (ents (table dt) ++ [f]) /\
    allowedMaxSize dt' = allowedMaxSize dt /\
    evictCount (table dt') + table_len (table dt') = evictCount (table dt) + table_len (table dt) + 1.
Proof.
  intros [Ht Hs Hf Hm] Hi Hsz. unfold ids_left in Hi.
  pose proof (total_nonneg (ents (table dt))). pose proof (Size_range f).
  assert (Hu : u32 (dsize dt + Size f) = dsize dt + Size f) by (apply wrap_id; unfold in_width in *; lia).
  unfold add. rewrite Hu.
  destruct (evict_spec (mkDyn (addEntry (table dt) f) (dsize dt + Size f) (maxSize dt) (allowedMaxSize dt)))
    as (dt' & He & Hok & Hents & Hid & Hmax & Hall); simpl; try done.
  - apply addEntry_ok; [done|lia].
  - rewrite total_app, Hs. simpl. lia.
  - exists dt'. split_and!; try done. rewrite Hid. simpl. unfold table_len. simpl.
    rewrite len_app, len_cons. change (len []) with 0. lia.
Qed.

(** The dynamic table behaves as a bounded queue. [setMaxSize v] keeps the
    longest suffix of newest entries whose sizes fit in [v]; [add f] appends
    [f] and then does the same with the current maximum. Both keep the
    invariant: the size field is the sum of the entry sizes, it is within the
    maximum, and both lookup maps name the newest entry of each key. *)
Lemma dynamicTable_ops dt f v :
  dyn_ok dt -> in_width 32 v -> ids_left dt 1 -> dsize dt + Size f < 2 ^ 32 ->
  (exists dt', setMaxSize v dt = Ok dt' /\ dyn_ok dt' /\ maxSize dt' = v /\
    ents (table dt') = keep v (ents (table dt))) /\
  (exists dt', add f dt = Ok dt' /\ dyn_ok dt' /\ maxSize dt' = maxSize dt /\
    ents (table dt') = keep (maxSize dt) (ents (table dt) ++ [f])).
Proof.
  intros Hd Hv Hi Hs. split.
  - destruct (setMaxSize_spec v dt Hd Hv) as (dt' & ? & ? & ? & ? & _). by exists dt'.
  - destruct (add_spec f dt Hd Hi Hs) as (dt' & ? & ? & ? & ? & _). by exists dt'.
Qed.

Definition sample_dyn : dynamicTable := mkDyn table_init 0 4096 4096.

Lemma sample_dyn_ok : dyn_ok sample_dyn.
Proof. split; [apply table_init_ok|done..]. Qed.

Lemma dynamicTable_ops_witness :
  let f := static_entry "host" "a" in
  (dyn_ok sample_dyn /\ in_width 32 30 /\ ids_left sample_dyn 1 /\ dsize sample_dyn + Size f < 2 ^ 32) /\
  (exists dt', setMaxSize 30 sample_dyn = Ok dt' /\ dyn_ok dt' /\ maxSize dt' = 30 /\
    ents (table dt') = keep 30 (ents (table sample_dyn))) /\
  (exists dt', add f sample_dyn = Ok dt' /\ dyn_ok dt' /\ maxSize dt' = maxSize sample_dyn /\
    ents (table dt') = keep (maxSize sample_dyn) (ents (table sample_dyn) ++ [f])).
Proof.
  intros f. assert (H2 : in_width 32 30) by solve_width.
  assert (H3 : ids_left sample_dyn 1) by (vm_compute; reflexivity).
  assert (H4 : dsize sample_dyn + Size f < 2 ^ 32) by (vm_compute; reflexivity).
  split; [exact (conj sample_dyn_ok (conj H2 (conj H3 H4)))|].
  exact (dynamicTable_ops sample_dyn f 30 sample_dyn_ok H2 H3 H4).
Defined.
