(* ===== verification/HpackHuffman.v ===== *)
(** HPACK Huffman strings: [http2/hpack/huffman.go]. *)
From S2P Require Import Prelude Bits HpackVarint HpackTables.

(** * The decoding tree

    A node is internal (256 children, some nil) or a leaf. *)
#[warnings="-register-all"]
Inductive node :=
| Internal (children : list (option node))
| Leaf (codeLen sym : Z).

Definition newInternalNode : node := Internal (replicate 256 None).

(** [for i := start; i < start+end; i++ { cur.children[i] = leaf }] *)
Fixpoint fill (count : nat) (i : Z) (leaf : node) (children : list (option node)) : list (option node) :=
  match count with
  | O => children
  | S count' => fill count' (i + 1) leaf (<[Z.to_nat i := Some leaf]> children)
  end.

(** [None] is a panic (indexing the nil [children] of a leaf). The recursion
    follows the loop [for codeLen > 8]; a code has at most 30 bits. *)
Fixpoint addDecoderNode_at (depth : nat) (cur : node) (sym code codeLen : Z) : option node :=
  match cur with
  | Leaf _ _ => None
  | Internal children =>
      if 8 <? codeLen then
        match depth with
        | O => None
        | S depth' =>
            let codeLen' := u8 (codeLen - 8) in
            let i := Z.to_nat (u8 (shr code codeLen')) in
            let child := match children !! i with Some (Some c) => c | _ => newInternalNode end in
            child' ← addDecoderNode_at depth' child sym code codeLen';
            Some (Internal (<[i := Some child']> children))
        end
      else
        let shift := u8 (8 - codeLen) in
        let start := u8 (shl 32 code shift) in
        let end_ := Z.shiftl 1 shift in
        Some (Internal (fill (Z.to_nat end_) start (Leaf codeLen sym) children))
  end.

Definition addDecoderNode (root : node) (sym code codeLen : Z) : option node :=
  addDecoderNode_at 4 root sym code codeLen.

Fixpoint init_loop (i : Z) (codes lens : list Z) (root : node) : option node :=
  match codes, lens with
  | [], _ => Some root
  | code :: codes', codeLen :: lens' =>
      root' ← addDecoderNode root (u8 i) code codeLen; init_loop (i + 1) codes' lens' root'
  | _, [] => None
  end.

Definition init : option node :=
  if negb (len huffmanCodes =? 256) then None
  else init_loop 0 huffmanCodes huffmanCodeLen newInternalNode.

Definition rootHuffmanNode : node := default newInternalNode init.

(** * Decoding *)

(** [n.children[idx]]: [Panic] on a leaf, [Ok None] for a nil child. *)
Definition child_at (n : node) (idx : Z) : hp (option node) :=
  match n with
  | Leaf _ _ => Panic
  | Internal children => or_panic (at_ children idx)
  end.

Record huff_state := mkHuff {
  hnode : node;
  hcur : Z;
  hcbits : Z;
  hsbits : Z;
  hbuf : bytes }.

Section decode.
Variable maxLen : Z.

Definition emit_sym (s : huff_state) (codeLen sym : Z) : hp huff_state :=
  if negb (maxLen =? 0) && (len (hbuf s) =? maxLen) then Fail ErrStringLength
  else
    let cbits := u8 (hcbits s - codeLen) in
    Ok (mkHuff rootHuffmanNode (hcur s) cbits cbits (hbuf s ++ [sym])).

(** [for cbits >= 8]. Every round removes at least one bit; [None] when the
    fuel runs out. *)
Fixpoint huff_inner (fuel : nat) (s : huff_state) : option (hp huff_state) :=
  if hcbits s <? 8 then Some (Ok s) else
  match fuel with
  | O => None
  | S fuel' =>
      let idx := u8 (shr (hcur s) (hcbits s - 8)) in
      match child_at (hnode s) idx with
      | Ok None => Some (Fail ErrInvalidHuffman)
      | Ok (Some (Leaf codeLen sym)) =>
          match emit_sym s codeLen sym with
          | Ok s' => huff_inner fuel' s'
          | Fail e => Some (Fail e)
          | Panic => Some Panic
          end
      | Ok (Some n) => huff_inner fuel' (mkHuff n (hcur s) (u8 (hcbits s - 8)) (hsbits s) (hbuf s))
      | Fail e => Some (Fail e)
      | Panic => Some Panic
      end
  end.

Definition push_byte (s : huff_state) (b : Z) : huff_state :=
  mkHuff (hnode s) (Z.lor (shl 64 (hcur s) 8) b) (u8 (hcbits s + 8)) (u8 (hsbits s + 8)) (hbuf s).

(** [for _, b := range v] *)
Fixpoint huff_outer (v : bytes) (s : huff_state) : option (hp huff_state) :=
  match v with
  | [] => Some (Ok s)
  | b :: v' =>
      let s1 := push_byte s b in
      match huff_inner (Z.to_nat (hcbits s1)) s1 with
      | Some (Ok s2) => huff_outer v' s2
      | r => r
      end
  end.

(** [for cbits > 0] *)
Fixpoint huff_final (fuel : nat) (s : huff_state) : option (hp huff_state) :=
  if hcbits s <=? 0 then Some (Ok s) else
  match fuel with
  | O => None
  | S fuel' =>
      match child_at (hnode s) (u8 (shl 64 (hcur s) (u8 (8 - hcbits s)))) with
      | Ok None => Some (Fail ErrInvalidHuffman)
      | Ok (Some (Leaf codeLen sym)) =>
          if hcbits s <? codeLen then Some (Ok s)
          else match emit_sym s codeLen sym with
               | Ok s' => huff_final fuel' s'
               | Fail e => Some (Fail e)
               | Panic => Some Panic
               end
      | Ok (Some (Internal _)) => Some (Ok s)
      | Fail e => Some (Fail e)
      | Panic => Some Panic
      end
  end.

Definition huffmanDecode (v : bytes) : option (hp bytes) :=
  match huff_outer v (mkHuff rootHuffmanNode 0 0 0 []) with
  | Some (Ok s) =>
      match huff_final (Z.to_nat (hcbits s)) s with
      | Some (Ok s) =>
          if 7 <? hsbits s then Some (Fail ErrInvalidHuffman)
          else
            let mask := u64 (Z.shiftl 1 (hcbits s) - 1) in
            if negb (Z.land (hcur s) mask =? mask) then Some (Fail ErrInvalidHuffman)
            else Some (Ok (hbuf s))
      | Some (Fail e) => Some (Fail e)
      | Some Panic => Some Panic
      | None => None
      end
  | Some (Fail e) => Some (Fail e)
  | Some Panic => Some Panic
  | None => None
  end.
End decode.

Definition HuffmanDecodeToString (v : bytes) : option (hp bytes) := huffmanDecode 0 v.

(** * Encoding *)

(** [dst[len(dst)-1] |= t] *)
Definition or_last (t : Z) (dst : bytes) : bytes := alter (Z.lor t) (length dst - 1)%nat dst.

(** The loop of [appendByteToHuffmanCode]; five rounds are enough for a code of
    at most 30 bits. [None] when the fuel runs out. *)
Fixpoint appendCode_loop (fuel : nat) (dst : bytes) (rembits code nbits : Z) : option (bytes * Z) :=
  match fuel with
  | O => None
  | S fuel' =>
      if nbits <? rembits then
        let t := u8 (shl 32 code (rembits - nbits)) in
        Some (or_last t dst, u8 (rembits - nbits))
      else
        let t := u8 (shr code (nbits - rembits)) in
        let dst := or_last t dst in
        let nbits := u8 (nbits - rembits) in
        if nbits =? 0 then Some (dst, 8)
        else appendCode_loop fuel' (dst ++ [0]) 8 code nbits
  end.

Definition code_of (c : Z) : Z := nth (Z.to_nat c) huffmanCodes 0.
Definition codeLen_of (c : Z) : Z := nth (Z.to_nat c) huffmanCodeLen 0.

Definition appendByteToHuffmanCode (dst : bytes) (rembits c : Z) : option (bytes * Z) :=
  appendCode_loop 5 dst rembits (code_of c) (codeLen_of c).

Fixpoint appendHuffman_loop (s : bytes) (dst : bytes) (rembits : Z) : option (bytes * Z) :=
  match s with
  | [] => Some (dst, rembits)
  | c :: s' =>
      let dst := if rembits =? 8 then dst ++ [0] else dst in
      r ← appendByteToHuffmanCode dst rembits c;
      appendHuffman_loop s' r.1 r.2
  end.

Definition AppendHuffmanString (dst : bytes) (s : bytes) : option bytes :=
  r ← appendHuffman_loop s dst 8;
  let '(dst, rembits) := r : bytes * Z in
  if rembits <? 8 then
    let code := 0x3fffffff in
    let nbits := 30 in
    let t := u8 (shr code (nbits - rembits)) in
    Some (or_last t dst)
  else Some dst.

Definition HuffmanEncodeLength (s : bytes) : Z :=
  let n := foldl (fun n c => u64 (n + codeLen_of c)) 0 s in
  u64 (n + 7) / 8.

(** * The tree decodes the code table *)

Definition code_bits (c : Z) : list bool := bits (Z.to_nat (codeLen_of c)) (code_of c).

Fixpoint all_bits (k : nat) : list (list bool) :=
  match k with
  | O => [[]]
  | S k' => (cons true <$> all_bits k') ++ (cons false <$> all_bits k')
  end.

(** From node [n], the remaining code bits [cb] lead to the leaf of [c],
    whatever bits follow. *)
Fixpoint reaches (depth : nat) (n : node) (cb : list bool) (c : Z) : bool :=
  match depth with
  | O => false
  | S depth' =>
      if (8 <? length cb)%nat then
        match child_at n (val (take 8 cb)) with
        | Ok (Some (Internal ch)) => reaches depth' (Internal ch) (drop 8 cb) c
        | _ => false
        end
      else
        (0 <? length cb)%nat &&
        forallb (fun e => match child_at n (val (cb ++ e)) with
                          | Ok (Some (Leaf l s)) => (l =? len cb) && (s =? c)
                          | _ => false
                          end) (all_bits (8 - length cb))
  end.

Lemma all_bits_elem l : In l (all_bits (length l)).
Proof.
  induction l as [|b l IH]; simpl; [by left|]. apply in_or_app.
  destruct b; [left|right]; apply in_map_iff; eauto.
Qed.

Definition code_good (c : Z) : bool :=
  reaches 5 rootHuffmanNode (code_bits c) c &&
  ((5 <=? codeLen_of c) && (codeLen_of c <=? 30) && (0 <=? code_of c) && (code_of c <? 2 ^ codeLen_of c)).

Lemma all_codes_good : forallb code_good (seqZ 0 256) = true.
Proof. vm_compute. reflexivity. Qed.

Lemma code_good_byte c : byte_ok c -> code_good c = true.
Proof. apply byte_forall, all_codes_good. Qed.

Lemma code_reaches c : byte_ok c -> reaches 5 rootHuffmanNode (code_bits c) c = true.
Proof. intros Hc%code_good_byte. by apply andb_true_iff in Hc as [? _]. Qed.

Lemma codeLen_range c : byte_ok c -> 5 <= codeLen_of c <= 30 /\ 0 <= code_of c < 2 ^ codeLen_of c.
Proof.
  intros Hc%code_good_byte. unfold code_good in Hc.
  rewrite !andb_true_iff, !Z.leb_le, Z.ltb_lt in Hc. tauto.
Qed.

(** One to seven padding ones never complete a symbol. *)
Definition pad_good (p : nat) : bool :=
  match child_at rootHuffmanNode (val (replicate p true ++ replicate (8 - p) false)) with
  | Ok (Some (Internal _)) => true
  | Ok (Some (Leaf l _)) => Z.of_nat p <? l
  | _ => false
  end.

Lemma all_pads_good : forallb pad_good (seq 1 7) = true.
Proof. vm_compute. reflexivity. Qed.

#[global] Opaque rootHuffmanNode.

Lemma reaches_short d n cb c e :
  reaches d n cb c = true -> (length cb <= 8)%nat -> length e = (8 - length cb)%nat ->
  (0 < length cb)%nat /\ child_at n (val (cb ++ e)) = Ok (Some (Leaf (len cb) c)).
Proof.
  destruct d as [|d]; simpl; [done|]. intros H Hlen He.
  rewrite (proj2 (Nat.ltb_ge 8 (length cb))) in H by lia.
  apply andb_true_iff in H as [H0%Nat.ltb_lt Hall]. split; [done|].
  rewrite forallb_forall in Hall. specialize (Hall e). rewrite <- He in Hall.
  specialize (Hall (all_bits_elem e)).
  destruct (child_at n (val (cb ++ e))) as [[[|l s]|]| |]; try done.
  apply andb_true_iff in Hall as [?%Z.eqb_eq ?%Z.eqb_eq]. by subst.
Qed.

Lemma reaches_long d n cb c :
  reaches d n cb c = true -> (8 < length cb)%nat ->
  exists d' ch, child_at n (val (take 8 cb)) = Ok (Some (Internal ch)) /\
    reaches d' (Internal ch) (drop 8 cb) c = true.
Proof.
  destruct d as [|d]; [done|]. cbn [reaches]. intros H Hlen.
  rewrite (proj2 (Nat.ltb_lt 8 (length cb))) in H by lia.
  destruct (child_at n (val (take 8 cb))) as [[[ch|l s]|]| |]; try done. eauto.
Qed.

Lemma idx_top cur cbits : 8 <= cbits ->
  u8 (shr cur (cbits - 8)) = val (take 8 (bits (Z.to_nat cbits) cur)).
Proof.
  intros H. rewrite take_bits, val_bits by lia.
  unfold u8, wrap, shr. do 2 f_equal. f_equal. lia.
Qed.

Lemma idx_final cur cbits : 0 < cbits < 8 ->
  u8 (shl 64 cur (u8 (8 - cbits))) =
    val (bits (Z.to_nat cbits) cur ++ replicate (8 - Z.to_nat cbits) false).
Proof.
  intros H. assert (Hu : u8 (8 - cbits) = 8 - cbits) by (apply wrap_id; unfold in_width; lia).
  rewrite Hu.
  assert (Hb : bits (Z.to_nat cbits) cur ++ replicate (8 - Z.to_nat cbits) false =
          bits 8 (shl 64 cur (8 - cbits))).
  { replace 8%nat with (Z.to_nat cbits + (8 - Z.to_nat cbits))%nat at 2 by lia.
    rewrite bits_app, <- bits_0. unfold shl.
    f_equal; apply bits_ext; intros i Hi; rewrite ?Z.bits_0, ?Z.shiftr_spec by lia;
      unfold wrap; rewrite Z.mod_pow2_bits_low, Z.shiftl_spec by lia.
    - f_equal. lia.
    - symmetry. apply Z.testbit_neg_r. lia. }
  rewrite Hb, val_bits. unfold u8, wrap. done.
Qed.

(** * Decoding a well-formed stream *)

Section decode_ok.
Variable maxLen : Z.
Variable pad : nat.
Hypothesis pad_lt : (pad < 8)%nat.

Definition stream (ss : bytes) : list bool := concat (code_bits <$> ss) ++ replicate pad true.

(** The decoder stands at node [n] before the bits [T], which spell [ss]. *)
Definition at_point (n : node) (T : list bool) (ss : bytes) : Prop :=
  match ss with
  | [] => n = rootHuffmanNode /\ T = stream []
  | c :: ss' => exists d cb, reaches d n cb c = true /\ T = cb ++ stream ss'
  end.

Definition buffered (s : huff_state) : list bool := bits (Z.to_nat (hcbits s)) (hcur s).

Record dec_inv (whole : bytes) (s : huff_state) (fut : list bool) (ss : bytes) : Prop := {
  di_point : at_point (hnode s) (buffered s ++ fut) ss;
  di_cbits : 0 <= hcbits s < 16;
  di_sbits : ss = [] -> hsbits s = hcbits s;
  di_out : hbuf s ++ ss = whole;
  di_bytes : bytes_ok ss;
  di_max : maxLen = 0 \/ len whole <= maxLen }.

Lemma at_root ss : bytes_ok ss -> at_point rootHuffmanNode (stream ss) ss.
Proof.
  intros Hss. destruct Hss as [|c ss Hc Hss]; simpl; [done|].
  exists 5%nat, (code_bits c). split; [by apply code_reaches|].
  unfold stream. simpl. by rewrite app_assoc.
Qed.

Lemma reaches_nonempty d n cb c : reaches d n cb c = true -> (0 < length cb)%nat.
Proof.
  intros H. destruct (decide (8 < length cb)%nat); [lia|].
  edestruct (reaches_short d n cb c (replicate (8 - length cb) false)); [done|lia| |done].
  by rewrite length_replicate.
Qed.

(** Emitting the symbol whose last [l] bits head the buffer. *)
Lemma emit_ok whole s fut c ss cb :
  hbuf s ++ c :: ss = whole -> bytes_ok ss -> (maxLen = 0 \/ len whole <= maxLen) ->
  0 <= hcbits s < 16 -> (length cb <= Z.to_nat (hcbits s))%nat ->
  buffered s ++ fut = cb ++ stream ss ->
  exists s', emit_sym maxLen s (len cb) c = Ok s' /\ hcbits s' = hcbits s - len cb /\
    dec_inv whole s' fut ss.
Proof.
  intros Hout Hb Hmax Hcb Hlen HT. unfold emit_sym.
  assert (Hcap : negb (maxLen =? 0) && (len (hbuf s) =? maxLen) = false).
  { destruct (Z.eqb_spec maxLen 0); [done|]. destruct Hmax as [?|Hmax]; [done|].
    rewrite <- Hout, len_app, len_cons in Hmax. pose proof (len_nonneg ss).
    by rewrite (proj2 (Z.eqb_neq _ _)) by lia. }
  rewrite Hcap.
  assert (Hu : u8 (hcbits s - len cb) = hcbits s - len cb).
  { apply wrap_id. unfold in_width, len. lia. }
  rewrite Hu. eexists; split; [reflexivity|]. split; [done|].
  split; simpl; try done.
  - unfold buffered. simpl.
    replace (Z.to_nat (hcbits s - len cb)) with (Z.to_nat (hcbits s) - length cb)%nat
      by (unfold len; lia).
    rewrite <- drop_bits. fold (buffered s).
    rewrite <- drop_app_le by (unfold buffered; rewrite length_bits; lia).
    rewrite HT, drop_app_length. by apply at_root.
  - unfold len. lia.
  - rewrite <- app_assoc. done.
Qed.

Lemma inner_ok whole fuel s fut ss :
  dec_inv whole s fut ss -> (Z.to_nat (hcbits s) <= fuel)%nat ->
  exists s' ss', huff_inner maxLen fuel s = Some (Ok s') /\ dec_inv whole s' fut ss' /\ hcbits s' < 8.
Proof.
  revert s ss. induction fuel as [|fuel IH]; intros s ss Hinv Hfuel; cbn [huff_inner];
    (destruct (Z.ltb_spec (hcbits s) 8); [by exists s, ss|]); [lia|].
  destruct Hinv as [Hp Hc Hs Ho Hb Hm].
  assert (Hq : length (buffered s) = Z.to_nat (hcbits s)) by apply length_bits.
  rewrite idx_top by lia. fold (buffered s).
  destruct ss as [|c ss].
  { destruct Hp as [_ Hp]. apply (f_equal length) in Hp.
    unfold stream in Hp. simpl in Hp. rewrite length_app, length_replicate in Hp. lia. }
  destruct Hp as (d & cb & Hr & HT).
  assert (Hr0 := reaches_nonempty _ _ _ _ Hr).
  destruct (decide (8 < length cb)%nat) as [Hlong|Hshort].
  - destruct (reaches_long _ _ _ _ Hr Hlong) as (d' & ch & Hch & Hr').
    assert (Ht : take 8 (buffered s) = take 8 cb).
    { rewrite <- (take_app_le _ fut) by lia. rewrite HT. apply take_app_le. lia. }
    rewrite Ht, Hch. apply (IH _ (c :: ss)).
    2:{ simpl. unfold u8. rewrite wrap_id by (unfold in_width; lia). lia. }
    assert (Hu : u8 (hcbits s - 8) = hcbits s - 8) by (apply wrap_id; unfold in_width; lia).
    split; simpl; rewrite ?Hu; try done; [|lia].
    exists d', (drop 8 cb). split; [done|]. unfold buffered. simpl.
    replace (Z.to_nat (hcbits s - 8)) with (Z.to_nat (hcbits s) - 8)%nat by lia.
    rewrite <- drop_bits. fold (buffered s).
    rewrite <- drop_app_le by lia. rewrite HT. apply drop_app_le. lia.
  - assert (Ht : exists e, take 8 (buffered s) = cb ++ e /\ length e = (8 - length cb)%nat).
    { exists (drop (length cb) (take 8 (buffered s))). split; [|rewrite length_drop, length_take; lia].
      rewrite <- (take_drop (length cb) (take 8 (buffered s))) at 1. f_equal.
      rewrite take_take, Nat.min_l by lia. rewrite <- (take_app_le _ fut) by lia.
      rewrite HT. apply take_app_length. }
    destruct Ht as (e & Ht & He). rewrite Ht.
    destruct (reaches_short _ _ _ _ e Hr ltac:(lia) He) as [_ Hch]. rewrite Hch.
    apply Forall_cons in Hb as [_ Hb].
    destruct (emit_ok whole s fut c ss cb) as (s' & He' & Hc' & Hinv'); try done; [lia|].
    rewrite He'. apply (IH s' ss); [done|]. unfold len in Hc'. lia.
Qed.

Lemma push_ok whole s b fut ss :
  dec_inv whole s (bits 8 b ++ fut) ss -> hcbits s < 8 -> byte_ok b ->
  dec_inv whole (push_byte s b) fut ss.
Proof.
  intros [Hp Hc Hs Ho Hb Hm] Hlt Hbyte.
  assert (Hu : u8 (hcbits s + 8) = hcbits s + 8) by (apply wrap_id; unfold in_width; lia).
  assert (Hbuf : buffered (push_byte s b) = buffered s ++ bits 8 b).
  { unfold buffered, push_byte. cbn [hcbits hcur]. rewrite Hu.
    replace (Z.to_nat (hcbits s + 8)) with (Z.to_nat (hcbits s) + 8)%nat by lia.
    rewrite <- bits_push by done. apply bits_ext. intros i Hi. rewrite !Z.lor_spec. f_equal.
    unfold shl, wrap. apply Z.mod_pow2_bits_low. lia. }
  split; rewrite ?Hbuf; simpl; rewrite ?Hu; try done; [by rewrite <- app_assoc|lia|].
  intros ->. destruct Hp as [_ HT]. apply (f_equal length) in HT.
  unfold stream in HT. simpl in HT.
  rewrite !length_app, length_replicate in HT. simpl in HT. lia.
Qed.

Lemma outer_ok whole v s ss :
  dec_inv whole s (flat v) ss -> hcbits s < 8 -> bytes_ok v ->
  exists s' ss', huff_outer maxLen v s = Some (Ok s') /\ dec_inv whole s' [] ss' /\ hcbits s' < 8.
Proof.
  intros Hinv Hlt Hv. revert s ss Hinv Hlt. induction Hv as [|b v Hb Hv IH]; intros s ss Hinv Hlt.
  { by exists s, ss. }
  rewrite flat_cons in Hinv. cbn [huff_outer].
  pose proof (push_ok _ _ _ _ _ Hinv Hlt Hb) as Hpush.
  destruct (inner_ok whole (Z.to_nat (hcbits (push_byte s b))) _ _ _ Hpush ltac:(lia))
    as (s' & ss' & Hin & Hinv' & Hlt').
  rewrite Hin. by apply (IH s' ss').
Qed.

Definition finished (whole : bytes) (s : huff_state) : Prop :=
  hbuf s = whole /\ hsbits s = Z.of_nat pad /\ hcbits s = Z.of_nat pad /\
  buffered s = replicate pad true.

Lemma final_ok whole fuel s ss :
  dec_inv whole s [] ss -> hcbits s < 8 -> (Z.to_nat (hcbits s) <= fuel)%nat ->
  exists s', huff_final maxLen fuel s = Some (Ok s') /\ finished whole s'.
Proof.
  revert s ss. induction fuel as [|fuel IH]; intros s ss Hinv Hlt Hfuel;
    destruct Hinv as [Hp Hc Hs Ho Hb Hm]; rewrite app_nil_r in Hp;
    (assert (Hq : length (buffered s) = Z.to_nat (hcbits s)) by apply length_bits);
    cbn [huff_final].
  all: assert (Hdone : ss = [] -> finished whole s).
  1,3: intros ->; destruct Hp as [_ Hp]; rewrite app_nil_r in Ho;
    pose proof (f_equal length Hp) as Hl; rewrite Hq in Hl; unfold stream in Hl; simpl in Hl;
    rewrite length_replicate in Hl; unfold finished; rewrite Hs by done; split_and!; [done|lia|lia|done].
  all: assert (Hss : hcbits s <= 0 -> ss = []).
  1,3: intros H0; destruct ss as [|c ss]; [done|]; destruct Hp as (d & cb & Hr & HT);
    apply reaches_nonempty in Hr; apply (f_equal length) in HT; rewrite length_app in HT; lia.
  all: destruct (Z.leb_spec (hcbits s) 0); [exists s; auto|].
  { lia. }
  rewrite idx_final by lia. fold (buffered s).
  destruct ss as [|c ss].
  - destruct (Hdone eq_refl) as (_ & _ & Hcp & Hbp). rewrite Hbp, Hcp, Nat2Z.id.
    pose proof all_pads_good as Hpads. rewrite forallb_forall in Hpads.
    specialize (Hpads pad ltac:(apply in_seq; lia)). unfold pad_good in Hpads.
    destruct Hp as [Hroot _]. rewrite Hroot. revert Hpads.
    generalize (child_at rootHuffmanNode (val (replicate pad true ++ replicate (8 - pad) false))).
    intros r Hpads. destruct r as [[[ch|l c]|]| |]; try discriminate Hpads; [exists s; auto|].
    rewrite Hpads. exists s; auto.
  - destruct Hp as (d & cb & Hr & HT).
    assert (Hle : (length cb <= length (buffered s))%nat).
    { rewrite HT, length_app. lia. }
    assert (Hcat : buffered s ++ replicate (8 - Z.to_nat (hcbits s)) false =
      cb ++ (drop (length cb) (buffered s) ++ replicate (8 - Z.to_nat (hcbits s)) false)).
    { rewrite app_assoc. f_equal. rewrite <- (take_drop (length cb) (buffered s)) at 1. f_equal.
      rewrite HT. apply take_app_length. }
    rewrite Hcat.
    destruct (reaches_short _ _ _ _ (drop (length cb) (buffered s) ++
      replicate (8 - Z.to_nat (hcbits s)) false) Hr ltac:(lia)) as [H0 Hch].
    { rewrite length_app, length_drop, length_replicate. lia. }
    rewrite Hch. rewrite (proj2 (Z.ltb_ge _ _)) by (unfold len; lia).
    apply Forall_cons in Hb as [_ Hb].
    destruct (emit_ok whole s [] c ss cb) as (s' & He' & Hc' & Hinv');
      try done; [lia|by rewrite app_nil_r|].
    rewrite He'. apply (IH s' ss); [done| |]; unfold len in Hc'; lia.
Qed.

Lemma decode_stream v ss :
  bytes_ok v -> bytes_ok ss -> flat v = stream ss -> (maxLen = 0 \/ len ss <= maxLen) ->
  huffmanDecode maxLen v = Some (Ok ss).
Proof.
  intros Hv Hss Hf Hmax. unfold huffmanDecode.
  assert (Hinv : dec_inv ss (mkHuff rootHuffmanNode 0 0 0 []) (flat v) ss).
  { split; simpl; try done. unfold buffered. simpl. rewrite Hf. by apply at_root. }
  destruct (outer_ok ss v _ _ Hinv) as (s & ss' & Ho & Hinv' & Hlt); [done|done|].
  rewrite Ho. destruct (final_ok ss _ _ _ Hinv' Hlt ltac:(reflexivity)) as (s' & Hfin & Hb & Hsb & Hcb & Hbuf).
  rewrite Hfin, Hsb. rewrite (proj2 (Z.ltb_ge _ _)) by lia.
  assert (Hm2 : 2 ^ Z.of_nat pad < 2 ^ 64) by (apply Z.pow_lt_mono_r; lia).
  assert (Hmask : u64 (Z.shiftl 1 (hcbits s') - 1) = Z.ones (hcbits s')).
  { rewrite shiftl_1, Z.ones_equiv by lia. apply wrap_id. unfold in_width. rewrite Hcb.
    pose proof (Z.pow_pos_nonneg 2 (Z.of_nat pad)). lia. }
  rewrite Hmask. replace (Z.land (hcur s') (Z.ones (hcbits s'))) with (Z.ones (hcbits s')).
  { by rewrite Z.eqb_refl, Hb. }
  rewrite Z.land_ones by lia. unfold buffered in Hbuf. apply (f_equal val) in Hbuf.
  rewrite val_bits, <- (bits_ones _ pad), val_bits in Hbuf by lia.
  rewrite Z2Nat.id in Hbuf by lia. rewrite Hbuf, Hcb. symmetry. apply Z.mod_small.
  rewrite Z.ones_equiv. pose proof (Z.pow_pos_nonneg 2 (Z.of_nat pad)). lia.
Qed.
End decode_ok.

(** * Encoding spells the stream *)

Lemma flat_snoc d b : flat (d ++ [b]) = flat d ++ bits 8 b.
Proof. rewrite flat_app. f_equal. Qed.

Lemma or_last_snoc t d b : or_last t (d ++ [b]) = d ++ [Z.lor t b].
Proof.
  unfold or_last. rewrite length_app. simpl. rewrite alter_app_r_alt by lia.
  by replace (length d + 1 - 1 - length d)%nat with O by lia.
Qed.

(** Filling [k] of the [r] clear low bits of the last byte. *)
Lemma or_last_fill dst t (r : nat) W :
  (0 < r <= 8)%nat -> flat dst = W ++ replicate r false -> 0 <= t < 2 ^ Z.of_nat r ->
  bytes_ok dst ->
  flat (or_last t dst) = W ++ bits r t /\ bytes_ok (or_last t dst) /\
  length (or_last t dst) = length dst.
Proof.
  intros Hr Hd Ht Hok.
  destruct dst as [|b d _] using rev_ind.
  { apply (f_equal length) in Hd. rewrite length_app, length_replicate in Hd. simpl in Hd. lia. }
  apply bytes_ok_app in Hok as [Hokd Hokb]. rewrite bytes_ok_single in Hokb.
  rewrite or_last_snoc. rewrite flat_snoc in Hd.
  assert (HW : exists W0, W = flat d ++ W0 /\ bits 8 b = W0 ++ replicate r false).
  { exists (drop (length (flat d)) W).
    assert (Hl : (length (flat d) <= length W)%nat).
    { apply (f_equal length) in Hd. rewrite !length_app, length_bits, length_replicate in Hd. lia. }
    assert (HWd : W = flat d ++ drop (length (flat d)) W).
    { rewrite <- (take_drop (length (flat d)) W) at 1. f_equal.
      rewrite <- (take_app_le W (replicate r false)), <- Hd by done. apply take_app_length. }
    split; [done|]. rewrite HWd, <- app_assoc in Hd. by apply app_inv_head in Hd. }
  destruct HW as (W0 & -> & Hb). split_and!.
  - rewrite flat_snoc, <- app_assoc. f_equal. rewrite Z.lor_comm. apply bits_fill; [lia|done|done].
  - apply bytes_ok_app. split; [done|]. apply bytes_ok_single.
    apply in_width_lor; [lia| |exact Hokb]. unfold in_width.
    assert (2 ^ Z.of_nat r <= 2 ^ 8) by (apply Z.pow_le_mono_r; lia). lia.
  - by rewrite !length_app.
Qed.

(** The encoder has written the bits [W]: the last byte has [rembits] clear
    bits left (eight stand for none). *)
Definition enc_at (dst : bytes) (rembits : Z) (W : list bool) : Prop :=
  1 <= rembits <= 8 /\ bytes_ok dst /\
  flat dst = W ++ replicate (Z.to_nat (if rembits =? 8 then 0 else rembits)) false.

Definition code_rest (code nbits : Z) : list bool := bits (Z.to_nat nbits) code.

Lemma appendCode_ok fuel dst rembits code nbits W :
  bytes_ok dst -> 1 <= rembits <= 8 -> 1 <= nbits <= 30 ->
  flat dst = W ++ replicate (Z.to_nat rembits) false ->
  (code < 2 ^ nbits \/ rembits = 8) -> 0 <= code < 2 ^ 30 ->
  nbits <= rembits + 8 * (Z.of_nat fuel - 1) -> (0 < fuel)%nat ->
  exists dst' rembits', appendCode_loop fuel dst rembits code nbits = Some (dst', rembits') /\
    enc_at dst' rembits' (W ++ code_rest code nbits).
Proof.
  revert dst rembits nbits W. induction fuel as [|fuel IH]; [lia|].
  intros dst r nbits W Hdst Hr Hn Hf Hc Hc30 Hfuel _. cbn [appendCode_loop].
  assert (Hr8 : 2 ^ r <= 2 ^ 8) by (apply Z.pow_le_mono_r; lia).
  assert (Hn0 : 0 < 2 ^ nbits) by (apply Z.pow_pos_nonneg; lia).
  destruct (Z.ltb_spec nbits r) as [Hlt|Hge].
  - set (t := u8 (shl 32 code (r - nbits))).
    assert (Ht : bits (Z.to_nat r) t = code_rest code nbits ++ replicate (Z.to_nat (r - nbits)) false).
    { unfold code_rest. rewrite <- bits_0.
      replace (Z.to_nat r) with (Z.to_nat nbits + Z.to_nat (r - nbits))%nat by lia.
      rewrite bits_app. unfold t, u8, shl, wrap.
      f_equal; apply bits_ext; intros i Hi; rewrite ?Z.bits_0, ?Z.shiftr_spec by lia;
        rewrite !Z.mod_pow2_bits_low, Z.shiftl_spec by lia.
      - f_equal. lia.
      - apply Z.testbit_neg_r. lia. }
    assert (Htb : 0 <= t < 2 ^ r).
    { destruct Hc as [Hc| ->]; [|apply wrap_in_width; lia].
      assert (Hp : code * 2 ^ (r - nbits) < 2 ^ r).
      { replace (2 ^ r) with (2 ^ nbits * 2 ^ (r - nbits)).
        - apply Z.mul_lt_mono_pos_r; [|done]. apply Z.pow_pos_nonneg; lia.
        - rewrite <- Z.pow_add_r by lia. f_equal. lia. }
      assert (0 <= code * 2 ^ (r - nbits)) by (apply Z.mul_nonneg_nonneg; [lia|apply Z.pow_nonneg; lia]).
      unfold t, u8, shl. rewrite Z.shiftl_mul_pow2 by lia.
      rewrite !wrap_id; unfold in_width; rewrite ?wrap_id; unfold in_width; lia. }
    destruct (or_last_fill dst t (Z.to_nat r) W) as (Hfl & Hok & _);
      [lia|done|rewrite Z2Nat.id by lia; done|done|].
    assert (Hu : u8 (r - nbits) = r - nbits) by (apply wrap_id; unfold in_width; lia).
    eexists _, _; split; [reflexivity|]. rewrite Hu. split_and!; [lia|lia|done|].
    rewrite Hfl, Ht, <- app_assoc. rewrite (proj2 (Z.eqb_neq _ _)) by lia. done.
  - set (t := u8 (shr code (nbits - r))).
    assert (Ht : bits (Z.to_nat r) t = take (Z.to_nat r) (code_rest code nbits)).
    { unfold code_rest. rewrite take_bits by lia. unfold t, u8.
      rewrite bits_wrap by lia. unfold shr. f_equal. f_equal. lia. }
    assert (Htb : 0 <= t < 2 ^ Z.of_nat (Z.to_nat r)).
    { rewrite Z2Nat.id by lia. destruct Hc as [Hc| ->]; [|apply wrap_in_width; lia].
      unfold t. rewrite shr_div by lia.
      assert (Hq : 0 <= code / 2 ^ (nbits - r) < 2 ^ r).
      { pose proof (Z.pow_pos_nonneg 2 (nbits - r)). split; [apply Z.div_pos; lia|].
        apply Z.div_lt_upper_bound; [lia|]. rewrite <- Z.pow_add_r by lia.
        replace (nbits - r + r) with nbits by lia. lia. }
      unfold u8. rewrite wrap_id; [done|]. unfold in_width. lia. }
    destruct (or_last_fill dst t (Z.to_nat r) W) as (Hfl & Hok & _); [lia|done|done|done|].
    assert (Hu : u8 (nbits - r) = nbits - r) by (apply wrap_id; unfold in_width; lia).
    rewrite Hu. destruct (Z.eqb_spec (nbits - r) 0) as [He|Hne].
    + eexists _, _; split; [reflexivity|]. split_and!; [lia|lia|done|].
      rewrite Hfl, Ht. simpl. rewrite app_nil_r. f_equal.
      apply take_ge. unfold code_rest. rewrite length_bits. lia.
    + assert (Hrest : code_rest code (nbits - r) = drop (Z.to_nat r) (code_rest code nbits)).
      { unfold code_rest. rewrite drop_bits. f_equal. lia. }
      destruct (IH (or_last t dst ++ [0]) 8 (nbits - r) (flat (or_last t dst)))
        as (dst' & r' & He & Henc); try lia.
      * apply bytes_ok_app. split; [done|]. apply bytes_ok_single. solve_width.
      * rewrite flat_snoc. f_equal.
      * eexists _, _; split; [exact He|]. rewrite Hfl, Ht, Hrest, <- app_assoc, take_drop in Henc. done.
Qed.

Lemma appendHuffman_ok s dst rembits W :
  bytes_ok s -> enc_at dst rembits W ->
  exists dst' rembits', appendHuffman_loop s dst rembits = Some (dst', rembits') /\
    enc_at dst' rembits' (W ++ concat (code_bits <$> s)).
Proof.
  intros Hs. revert dst rembits W. induction Hs as [|c s Hc Hs IH]; intros dst r W (Hr & Hok & Hf).
  { exists dst, r. split; [done|]. rewrite app_nil_r. done. }
  destruct (codeLen_range c Hc) as [Hlen Hcode].
  assert (Hcode30 : code_of c < 2 ^ 30).
  { eapply Z.lt_le_trans; [apply Hcode|]. apply Z.pow_le_mono_r; lia. }
  set (dst1 := if r =? 8 then dst ++ [0] else dst).
  assert (Hd1 : bytes_ok dst1 /\ flat dst1 = W ++ replicate (Z.to_nat r) false).
  { unfold dst1. destruct (Z.eqb_spec r 8) as [->|]; [|done]. split.
    - apply bytes_ok_app. split; [done|]. apply bytes_ok_single. solve_width.
    - rewrite flat_snoc, Hf. simpl. by rewrite app_nil_r. }
  destruct Hd1 as [Hok1 Hf1].
  destruct (appendCode_ok 5 dst1 r (code_of c) (codeLen_of c) W) as (dst2 & r2 & He & Henc);
    try done; try lia.
  destruct (IH dst2 r2 _ Henc) as (dst3 & r3 & He3 & Henc3).
  exists dst3, r3. cbn [appendHuffman_loop]. fold dst1. unfold appendByteToHuffmanCode.
  rewrite He. simpl. split; [done|]. by rewrite <- app_assoc in Henc3.
Qed.

Lemma AppendHuffmanString_ok s :
  bytes_ok s ->
  exists v pad, AppendHuffmanString [] s = Some v /\ bytes_ok v /\ (pad < 8)%nat /\
    flat v = stream pad s.
Proof.
  intros Hs. destruct (appendHuffman_ok s [] 8 [] Hs) as (dst & r & He & Hr & Hok & Hf).
  { split_and!; try done. constructor. }
  unfold AppendHuffmanString. rewrite He. simpl.
  destruct (Z.ltb_spec r 8) as [Hlt|Hge].
  - rewrite (proj2 (Z.eqb_neq _ _)) in Hf by lia.
    set (t := u8 (shr 1073741823 (30 - r))).
    assert (Ht : t = Z.ones r).
    { unfold t. rewrite shr_div by lia. change 1073741823 with (2 ^ 30 - 1).
      assert (Hp : 2 ^ 30 = 2 ^ r * 2 ^ (30 - r)) by (rewrite <- Z.pow_add_r by lia; f_equal; lia).
      assert (Hp0 : 0 < 2 ^ (30 - r)) by (apply Z.pow_pos_nonneg; lia).
      assert (Hq : (2 ^ 30 - 1) / 2 ^ (30 - r) = 2 ^ r - 1).
      { symmetry. apply Z.div_unique with (r := 2 ^ (30 - r) - 1); [lia|]. rewrite Hp. lia. }
      rewrite Hq, Z.ones_equiv. apply wrap_id. unfold in_width.
      assert (2 ^ r <= 2 ^ 8) by (apply Z.pow_le_mono_r; lia).
      pose proof (Z.pow_pos_nonneg 2 r). lia. }
    destruct (or_last_fill dst t (Z.to_nat r) (concat (code_bits <$> s))) as (Hfl & Hok' & _);
      [lia|done| |done|].
    { rewrite Ht, Z2Nat.id, Z.ones_equiv by lia. pose proof (Z.pow_pos_nonneg 2 r). lia. }
    exists (or_last t dst), (Z.to_nat r). split_and!; [done|done|lia|].
    rewrite Hfl, Ht. unfold stream. f_equal.
    replace r with (Z.of_nat (Z.to_nat r)) at 2 by lia. by apply bits_ones.
  - assert (r = 8) as -> by lia. exists dst, O. split_and!; [done|done|lia|].
    rewrite Hf. done.
Qed.

(** * Soundness of decoding

    [spells n path]: below [n], which the bits [path] lead to, every leaf ends
    the code of its symbol. *)
Fixpoint spells (depth : nat) (n : node) (path : list bool) : bool :=
  match depth, n with
  | S depth', Internal ch =>
      (length ch =? 256)%nat &&
      forallb (fun i =>
        match child_at n i with
        | Ok None => true
        | Ok (Some (Leaf l s)) =>
            (1 <=? l) && (l <=? 8) && bool_decide (byte_ok s) &&
            bool_decide (code_bits s = path ++ take (Z.to_nat l) (bits 8 i))
        | Ok (Some c) => spells depth' c (path ++ bits 8 i)
        | _ => false
        end) (seqZ 0 256)
  | _, _ => false
  end.

#[global] Transparent rootHuffmanNode.
Lemma root_spells : spells 4 rootHuffmanNode [] = true.
Proof. vm_compute. reflexivity. Qed.
#[global] Opaque rootHuffmanNode.

Lemma spells_child d n path i :
  spells d n path = true -> byte_ok i ->
  child_at n i = Ok None \/
  (exists l s, child_at n i = Ok (Some (Leaf l s)) /\ 1 <= l <= 8 /\ byte_ok s /\
    code_bits s = path ++ take (Z.to_nat l) (bits 8 i)) \/
  (exists d' ch, child_at n i = Ok (Some (Internal ch)) /\ d = S d' /\
    spells d' (Internal ch) (path ++ bits 8 i) = true).
Proof.
  intros H Hi. destruct d as [|d]; [by destruct n|]. destruct n as [ch|]; [|done].
  cbn [spells] in H. apply andb_true_iff in H as [_ Hall].
  rewrite forallb_forall in Hall. specialize (Hall i).
  rewrite <- list_elem_of_In, elem_of_seqZ in Hall. unfold byte_ok, in_width in Hi.
  specialize (Hall ltac:(lia)). destruct (child_at (Internal ch) i) as [[[ch'|l s]|]| |]; try done.
  - right; right. eauto 10.
  - right; left. rewrite !andb_true_iff, !Z.leb_le, !bool_decide_eq_true in Hall.
    exists l, s. tauto.
  - by left.
Qed.

Section decode_sound.
Variable maxLen : Z.

Record snd_inv (consumed : list bool) (s : huff_state) : Prop := {
  si_walk : exists d path, spells d (hnode s) path = true /\ (8 * d + length path = 32)%nat /\
    consumed = concat (code_bits <$> hbuf s) ++ path ++ buffered s /\
    hsbits s = len path + hcbits s;
  si_cbits : 0 <= hcbits s < 16;
  si_bytes : bytes_ok (hbuf s) }.

Lemma spells_depth d n path : spells d n path = true -> (0 < d)%nat.
Proof. destruct d; [by destruct n|lia]. Qed.

Lemma snd_emit consumed s l c (d : nat) path s' :
  spells d (hnode s) path = true -> consumed = concat (code_bits <$> hbuf s) ++ path ++ buffered s ->
  0 <= hcbits s < 16 -> bytes_ok (hbuf s) -> byte_ok c -> 1 <= l <= hcbits s ->
  code_bits c = path ++ take (Z.to_nat l) (buffered s) ->
  emit_sym maxLen s l c = Ok s' -> snd_inv consumed s' /\ hcbits s' = hcbits s - l.
Proof.
  intros Hsp Hcons Hcb Hb Hc Hl Hcode. unfold emit_sym. case_match; [done|]. intros [= <-].
  assert (Hu : u8 (hcbits s - l) = hcbits s - l) by (apply wrap_id; unfold in_width; lia).
  rewrite Hu. split; [|done]. split; simpl; [|lia|].
  - exists 4%nat, []. split_and!; [apply root_spells|done| |done].
    rewrite Hcons, fmap_app, concat_app. cbn [fmap list_fmap concat]. rewrite app_nil_r, Hcode.
    rewrite <- !app_assoc. do 2 f_equal. cbn [app]. unfold buffered. cbn [hcbits hcur].
    replace (Z.to_nat (hcbits s - l)) with (Z.to_nat (hcbits s) - Z.to_nat l)%nat by lia.
    by rewrite <- drop_bits, take_drop.
  - apply bytes_ok_app. by rewrite bytes_ok_single.
Qed.

Definition sound_result (consumed : list bool) (r : option (hp huff_state)) : Prop :=
  match r with
  | Some (Ok s) => snd_inv consumed s /\ hcbits s < 8
  | Some (Fail e) => e = ErrInvalidHuffman \/ e = ErrStringLength /\ maxLen <> 0
  | _ => False
  end.

Lemma emit_result s l c :
  match emit_sym maxLen s l c with
  | Ok _ => True | Fail e => e = ErrStringLength /\ maxLen <> 0 | Panic => False end.
Proof.
  unfold emit_sym. destruct (_ && _)%bool eqn:E; [|done]. split; [done|].
  apply andb_true_iff in E as [E _]. apply negb_true_iff, Z.eqb_neq in E. done.
Qed.

Lemma inner_sound fuel consumed s :
  snd_inv consumed s -> (Z.to_nat (hcbits s) <= fuel)%nat ->
  sound_result consumed (huff_inner maxLen fuel s).
Proof.
  revert s. induction fuel as [|fuel IH]; intros s Hinv Hfuel; cbn [huff_inner];
    (destruct (Z.ltb_spec (hcbits s) 8); [done|]); [lia|].
  destruct Hinv as [(d & path & Hsp & Hd & Hcons & Hsb) Hcb Hb].
  assert (Hq : length (buffered s) = Z.to_nat (hcbits s)) by apply length_bits.
  rewrite idx_top by lia. fold (buffered s). set (i := val (take 8 (buffered s))).
  assert (Hlen8 : length (take 8 (buffered s)) = 8%nat) by (rewrite length_take; lia).
  assert (Hi : bits 8 i = take 8 (buffered s)) by (rewrite <- Hlen8 at 1; apply bits_val).
  assert (Hib : byte_ok i).
  { pose proof (val_bound (take 8 (buffered s))) as Hv. unfold len in Hv. rewrite Hlen8 in Hv. exact Hv. }
  destruct (spells_child d _ _ i Hsp Hib) as [Hch|[(l & c & Hch & Hl & Hc & Hcode)|(d' & ch & Hch & -> & Hsp')]];
    rewrite Hch.
  - by left.
  - rewrite Hi, take_take, Nat.min_l in Hcode by lia.
    pose proof (emit_result s l c) as Hres. pose proof (snd_emit consumed s l c d path) as Hem.
    destruct (emit_sym maxLen s l c) as [s'|e|]; [|by right|done].
    destruct (Hem s') as [Hinv' Hc']; try done; [lia|]. apply IH; [done|]. lia.
  - assert (Hu : u8 (hcbits s - 8) = hcbits s - 8) by (apply wrap_id; unfold in_width; lia).
    pose proof (spells_depth _ _ _ Hsp').
    apply IH; simpl; rewrite Hu; [|lia]. split; simpl; rewrite ?Hu; [|lia|done].
    exists d', (path ++ bits 8 i). split_and!; [done|rewrite length_app, length_bits; lia| |].
    + rewrite Hcons, Hi. rewrite <- app_assoc. do 2 f_equal. unfold buffered. cbn [hcbits hcur].
      replace (Z.to_nat (hcbits s - 8)) with (Z.to_nat (hcbits s) - 8)%nat by lia.
      by rewrite <- drop_bits, take_drop.
    + rewrite len_app. unfold len at 2. rewrite length_bits. lia.
Qed.

Lemma outer_sound v consumed s :
  snd_inv consumed s -> hcbits s < 8 -> bytes_ok v ->
  sound_result (consumed ++ flat v) (huff_outer maxLen v s).
Proof.
  intros Hinv Hlt Hv. revert consumed s Hinv Hlt.
  induction Hv as [|b v Hb Hv IH]; intros consumed s Hinv Hlt.
  { rewrite app_nil_r. done. }
  cbn [huff_outer]. rewrite flat_cons, app_assoc.
  assert (Hpush : snd_inv (consumed ++ bits 8 b) (push_byte s b)).
  { destruct Hinv as [(d & path & Hsp & Hd & Hcons & Hsb) Hcb Hbo].
    assert (Hu : u8 (hcbits s + 8) = hcbits s + 8) by (apply wrap_id; unfold in_width; lia).
    assert (Hu' : u8 (hsbits s + 8) = hsbits s + 8).
    { apply wrap_id. unfold in_width, len in *. lia. }
    split; [|simpl; rewrite Hu; lia|done]. exists d, path. split_and!; [done|done| |].
    - rewrite Hcons, <- !app_assoc. do 2 f_equal. unfold buffered, push_byte. cbn [hcbits hcur].
      rewrite Hu. replace (Z.to_nat (hcbits s + 8)) with (Z.to_nat (hcbits s) + 8)%nat by lia.
      rewrite <- bits_push by done. apply bits_ext. intros j Hj. rewrite !Z.lor_spec. f_equal.
      unfold shl, wrap. symmetry. apply Z.mod_pow2_bits_low. lia.
    - cbn [push_byte hsbits hcbits]. rewrite Hu, Hu', Hsb. lia. }
  pose proof (inner_sound (Z.to_nat (hcbits (push_byte s b))) _ _ Hpush ltac:(lia)) as Hin.
  destruct (huff_inner maxLen _ (push_byte s b)) as [[s'|e|]|]; try done.
  destruct Hin. by apply IH.
Qed.

Lemma final_sound fuel consumed s :
  snd_inv consumed s -> hcbits s < 8 -> (Z.to_nat (hcbits s) <= fuel)%nat ->
  sound_result consumed (huff_final maxLen fuel s).
Proof.
  revert s. induction fuel as [|fuel IH]; intros s Hinv Hlt Hfuel; cbn [huff_final];
    (destruct (Z.leb_spec (hcbits s) 0); [done|]); [lia|].
  pose proof Hinv as [(d & path & Hsp & Hd & Hcons & Hsb) Hcb Hb].
  assert (Hq : length (buffered s) = Z.to_nat (hcbits s)) by apply length_bits.
  rewrite idx_final by lia. fold (buffered s).
  set (ext := buffered s ++ replicate (8 - Z.to_nat (hcbits s)) false). set (i := val ext).
  assert (Hlen8 : length ext = 8%nat) by (unfold ext; rewrite length_app, length_replicate; lia).
  assert (Hi : bits 8 i = ext) by (rewrite <- Hlen8 at 1; apply bits_val).
  assert (Hib : byte_ok i).
  { pose proof (val_bound ext) as Hv. unfold len in Hv. rewrite Hlen8 in Hv. exact Hv. }
  destruct (spells_child d _ _ i Hsp Hib) as [Hch|[(l & c & Hch & Hl & Hc & Hcode)|(d' & ch & Hch & -> & Hsp')]];
    rewrite Hch; [by left| |done].
  destruct (Z.ltb_spec (hcbits s) l); [done|].
  rewrite Hi in Hcode. unfold ext in Hcode. rewrite take_app_le in Hcode by lia.
  pose proof (emit_result s l c) as Hres. pose proof (snd_emit consumed s l c d path) as Hem.
  destruct (emit_sym maxLen s l c) as [s'|e|]; [|by right|done].
  destruct (Hem s') as [Hinv' Hc']; try done; [lia|]. apply IH; [done|lia|lia].
Qed.

Definition decode_sound_result (v : bytes) (r : option (hp bytes)) : Prop :=
  match r with
  | Some (Ok s) => bytes_ok s /\ exists pad, (pad < 8)%nat /\ flat v = stream pad s
  | Some (Fail e) => e = ErrInvalidHuffman \/ e = ErrStringLength /\ maxLen <> 0
  | _ => False
  end.

Lemma huffmanDecode_sound v : bytes_ok v -> decode_sound_result v (huffmanDecode maxLen v).
Proof.
  intros Hv. unfold huffmanDecode.
  assert (Hinit : snd_inv [] (mkHuff rootHuffmanNode 0 0 0 [])).
  { split; simpl; [|lia|constructor]. exists 4%nat, []. split_and!; [apply root_spells|done..]. }
  pose proof (outer_sound v [] _ Hinit ltac:(done) Hv) as Ho.
  destruct (huff_outer maxLen v _) as [[s|e|]|]; try done. destruct Ho as [Hs Hlt].
  pose proof (final_sound (Z.to_nat (hcbits s)) _ s Hs Hlt ltac:(done)) as Hf.
  destruct (huff_final maxLen _ s) as [[s'|e|]|]; try done. destruct Hf as [Hs' Hlt'].
  destruct Hs' as [(d & path & Hsp & Hd & Hcons & Hsb) Hcb Hb].
  destruct (Z.ltb_spec 7 (hsbits s')); [by left|].
  destruct (Z.land (hcur s') _ =? _) eqn:Hm; cbn [negb]; [|by left]. apply Z.eqb_eq in Hm.
  split; [done|]. exists (Z.to_nat (hcbits s')). split; [lia|].
  assert (Hp : path = []) by (destruct path; [done|]; unfold len in *; simpl in *; lia).
  simpl in Hcons. rewrite Hcons, Hp. unfold stream. f_equal. cbn [app].
  assert (Hpow : 0 < 2 ^ hcbits s' <= 2 ^ 8).
  { split; [apply Z.pow_pos_nonneg; lia|apply Z.pow_le_mono_r; lia]. }
  assert (Hmask : u64 (Z.shiftl 1 (hcbits s') - 1) = Z.ones (hcbits s')).
  { rewrite shiftl_1, Z.ones_equiv by lia. apply wrap_id. unfold in_width. lia. }
  rewrite Hmask, Z.land_ones in Hm by lia. unfold buffered.
  rewrite <- (bits_ones _ (Z.to_nat (hcbits s'))) by lia. rewrite Z2Nat.id, <- Hm by lia.
  rewrite <- (Z2Nat.id (hcbits s')) at 3 by lia. symmetry. apply bits_mod. lia.
Qed.
End decode_sound.

(** * Lengths and the two properties *)

Lemma stream_length pad s : length (stream pad s) = (length (concat (code_bits <$> s)) + pad)%nat.
Proof. unfold stream. by rewrite length_app, length_replicate. Qed.

Lemma len_code_bits c : byte_ok c -> len (code_bits c) = codeLen_of c.
Proof.
  intros Hc. destruct (codeLen_range c Hc) as [Hl _]. unfold len, code_bits. rewrite length_bits. lia.
Qed.

Lemma foldl_codeLen s acc :
  bytes_ok s -> 0 <= acc -> acc + 30 * len s < 2 ^ 64 ->
  foldl (fun n c => u64 (n + codeLen_of c)) acc s = acc + len (concat (code_bits <$> s)).
Proof.
  intros Hs. revert acc. induction Hs as [|c s Hc Hs IH]; intros acc Ha Hb; cbn [foldl fmap list_fmap concat].
  { change (len []) with 0. lia. }
  destruct (codeLen_range c Hc) as [Hl _]. rewrite len_cons in Hb. pose proof (len_nonneg s).
  assert (Hu : u64 (acc + codeLen_of c) = acc + codeLen_of c) by (apply wrap_id; unfold in_width; lia).
  rewrite Hu, IH by lia.
  rewrite len_app, len_code_bits by done. lia.
Qed.

Lemma concat_len_bound s : bytes_ok s -> len (concat (code_bits <$> s)) <= 30 * len s.
Proof.
  induction 1 as [|c s Hc Hs IH]; [done|]. destruct (codeLen_range c Hc) as [Hl _].
  cbn [fmap list_fmap concat]. rewrite len_app, len_cons, len_code_bits by done. lia.
Qed.

Lemma HuffmanEncodeLength_ok s v pad :
  bytes_ok s -> len s < 2 ^ 58 -> (pad < 8)%nat -> flat v = stream pad s ->
  HuffmanEncodeLength s = len v.
Proof.
  intros Hs Hlen Hp Hf. unfold HuffmanEncodeLength.
  pose proof (concat_len_bound s Hs). rewrite foldl_codeLen by (try done; lia).
  pose proof (len_nonneg (concat (code_bits <$> s))).
  unfold u64. rewrite wrap_id by (unfold in_width; lia).
  apply (f_equal length) in Hf. rewrite length_flat, stream_length in Hf.
  symmetry. apply Z.div_unique with (r := 7 - Z.of_nat pad); [lia|]. unfold len in *. lia.
Qed.

(** Two encodings of the same string agree: the padding is determined. *)
Lemma stream_inj v w p q s :
  bytes_ok v -> bytes_ok w -> (p < 8)%nat -> (q < 8)%nat -> flat v = stream p s -> flat w = stream q s ->
  v = w.
Proof.
  intros Hv Hw Hp Hq Hfv Hfw. apply flat_inj; [done|done|]. rewrite Hfv, Hfw.
  pose proof (f_equal length Hfv) as H1. pose proof (f_equal length Hfw) as H2.
  rewrite length_flat, stream_length in H1. rewrite length_flat, stream_length in H2.
  by replace p with q by lia.
Qed.

(** C36. Huffman coding is a bijection between strings and valid encodings: a
    string's encoding exists, has the length [HuffmanEncodeLength] announces
    and decodes to the string (under any length limit the string meets), and
    any byte string that decodes successfully is the encoding of its result. *)
Theorem huffman_bijection s :
  bytes_ok s -> len s < 2 ^ 58 ->
  exists v, AppendHuffmanString [] s = Some v /\ len v = HuffmanEncodeLength s /\
    (forall maxLen, maxLen = 0 \/ len s <= maxLen -> huffmanDecode maxLen v = Some (Ok s)) /\
    (forall maxLen w, bytes_ok w -> huffmanDecode maxLen w = Some (Ok s) -> w = v).
Proof.
  intros Hs Hlen. destruct (AppendHuffmanString_ok s Hs) as (v & pad & He & Hv & Hp & Hf).
  exists v. split_and!; [done| | |].
  - symmetry. by eapply HuffmanEncodeLength_ok.
  - intros maxLen Hm. by eapply decode_stream.
  - intros maxLen w Hw Hd. pose proof (huffmanDecode_sound maxLen w Hw) as Hsnd.
    rewrite Hd in Hsnd. destruct Hsnd as (_ & p & Hp' & Hf'). exact (stream_inj w v p pad s Hw Hv Hp' Hp Hf' Hf).
Qed.

Lemma huffman_bijection_witness :
  (bytes_ok (str "no-cache") /\ len (str "no-cache") < 2 ^ 58) /\
  exists v, AppendHuffmanString [] (str "no-cache") = Some v /\
    len v = HuffmanEncodeLength (str "no-cache") /\
    (forall maxLen, maxLen = 0 \/ len (str "no-cache") <= maxLen ->
       huffmanDecode maxLen v = Some (Ok (str "no-cache"))) /\
    (forall maxLen w, bytes_ok w -> huffmanDecode maxLen w = Some (Ok (str "no-cache")) -> w = v).
Proof.
  assert (H1 : bytes_ok (str "no-cache")) by (apply (bool_decide_unpack _); vm_compute; exact I).
  assert (H2 : len (str "no-cache") < 2 ^ 58) by (vm_compute; reflexivity).
  split; [done|]. exact (huffman_bijection _ H1 H2).
Defined.

(** Decoding is total: on any bytes and any limit [huffmanDecode] ends
    without panicking, with a string, with [ErrInvalidHuffman], or, when a
    limit is set, with [ErrStringLength]. *)
Lemma huffmanDecode_total maxLen v :
  bytes_ok v ->
  exists r, huffmanDecode maxLen v = Some r /\
    ((exists s, r = Ok s /\ bytes_ok s) \/ r = Fail ErrInvalidHuffman \/
     (r = Fail ErrStringLength /\ maxLen <> 0)).
Proof.
  intros Hv. pose proof (huffmanDecode_sound maxLen v Hv) as H.
  destruct (huffmanDecode maxLen v) as [[s|e|]|]; try done; eexists; (split; [done|]).
  - left. destruct H. eauto.
  - right. destruct H as [->|[-> ?]]; [by left|by right].
Qed.

Lemma huffmanDecode_total_witness :
  bytes_ok [0xff; 0xff; 0xff; 0xff] /\
  exists r, huffmanDecode 0 [0xff; 0xff; 0xff; 0xff] = Some r /\
    ((exists s, r = Ok s /\ bytes_ok s) \/ r = Fail ErrInvalidHuffman \/
     (r = Fail ErrStringLength /\ 0 <> 0)).
Proof.
  assert (H1 : bytes_ok [0xff; 0xff; 0xff; 0xff]) by (apply (bool_decide_unpack _); vm_compute; exact I).
  split; [exact H1|]. exact (huffmanDecode_total 0 _ H1).
Defined.

(** * Appending to a non-empty buffer *)

Lemma or_last_app t d dst : dst <> [] -> or_last t (d ++ dst) = d ++ or_last t dst.
Proof.
  intros H. unfold or_last. rewrite length_app.
  assert (0 < length dst)%nat by (destruct dst; [done|simpl; lia]).
  rewrite alter_app_r_alt by lia. do 2 f_equal. lia.
Qed.

Lemma or_last_nonnil t dst : dst <> [] -> or_last t dst <> [].
Proof.
  intros H He. apply (f_equal length) in He. unfold or_last in He. rewrite length_alter in He.
  by destruct dst.
Qed.

Lemma appendCode_app fuel d dst r code nbits :
  dst <> [] ->
  appendCode_loop fuel (d ++ dst) r code nbits =
    (fun x => (d ++ x.1, x.2)) <$> appendCode_loop fuel dst r code nbits.
Proof.
  revert dst r nbits. induction fuel as [|fuel IH]; intros dst r nbits Hd; cbn [appendCode_loop]; [done|].
  case_match; simpl; [by rewrite or_last_app|]. rewrite or_last_app by done.
  case_match; simpl; [done|]. rewrite <- app_assoc. apply IH. by destruct (or_last _ dst).
Qed.

Lemma appendCode_nonnil fuel dst r code nbits dst' r' :
  dst <> [] -> appendCode_loop fuel dst r code nbits = Some (dst', r') -> dst' <> [].
Proof.
  revert dst r nbits. induction fuel as [|fuel IH]; intros dst r nbits Hd; cbn [appendCode_loop]; [done|].
  case_match; [intros [= <- _]; by apply or_last_nonnil|].
  case_match; [intros [= <- _]; by apply or_last_nonnil|].
  apply IH. by destruct (or_last _ dst).
Qed.

Lemma appendHuffman_app s d dst r :
  (r = 8 \/ dst <> []) ->
  appendHuffman_loop s (d ++ dst) r = (fun x => (d ++ x.1, x.2)) <$> appendHuffman_loop s dst r.
Proof.
  revert dst r. induction s as [|c s IH]; intros dst r Hd; cbn [appendHuffman_loop]; [done|].
  set (dst1 := if r =? 8 then dst ++ [0] else dst).
  assert (H1 : (if r =? 8 then (d ++ dst) ++ [0] else d ++ dst) = d ++ dst1).
  { unfold dst1. case_match; [by rewrite <- app_assoc|done]. }
  assert (H2 : dst1 <> []).
  { unfold dst1. destruct (Z.eqb_spec r 8); [by destruct dst|]. by destruct Hd. }
  rewrite H1. unfold appendByteToHuffmanCode. rewrite appendCode_app by done.
  destruct (appendCode_loop 5 dst1 r (code_of c) (codeLen_of c)) as [[dst2 r2]|] eqn:E; simpl; [|done].
  apply IH. right. by eapply appendCode_nonnil.
Qed.

Lemma AppendHuffmanString_app d s :
  AppendHuffmanString d s = (fun v => d ++ v) <$> AppendHuffmanString [] s.
Proof.
  unfold AppendHuffmanString. pose proof (appendHuffman_app s d [] 8 ltac:(by left)) as H.
  rewrite app_nil_r in H. rewrite H.
  destruct (appendHuffman_loop s [] 8) as [[dst r]|] eqn:E; simpl; [|done].
  destruct (Z.ltb_spec r 8); simpl; [|done]. rewrite or_last_app; [done|].
  intros ->. destruct s as [|c s]; [injection E as <-; lia|].
  cbn [appendHuffman_loop] in E. change (8 =? 8) with true in E. cbv match in E.
  unfold appendByteToHuffmanCode in E.
  destruct (appendCode_loop 5 ([] ++ [0]) 8 (code_of c) (codeLen_of c)) as [[dst2 r2]|] eqn:E2; [|done].
  apply appendCode_nonnil in E2; [|done]. simpl in E.
  clear -E E2. revert dst2 r2 E2 E. induction s as [|c s IH]; intros dst2 r2 Hd E; [by injection E as ->|].
  cbn [appendHuffman_loop] in E. unfold appendByteToHuffmanCode in E.
  destruct (appendCode_loop 5 (if r2 =? 8 then dst2 ++ [0] else dst2) r2 (code_of c) (codeLen_of c))
    as [[dst3 r3]|] eqn:E3; [|done].
  apply (IH dst3 r3); [|done]. eapply appendCode_nonnil; [|exact E3].
  case_match; [by destruct dst2|done].
Qed.
