(* ===== verification/HpackDecoder.v ===== *)
(** The HPACK decoder of [http2/hpack/hpack.go]. *)
From S2P Require Import Prelude HpackVarint HpackTables HpackHuffman.

(** * The decoder

    [d.buf] is only meaningful during a [Write], so it is an argument of the
    parsing functions; the callback's state is [St]. The callback receives the
    field and answers the new state and whether emitting stays enabled (it may
    call [SetEmitEnabled]). *)
Record Decoder := mkDec {
  dynTab : dynamicTable;
  emitEnabled : bool;
  maxStrLen : Z;
  saveBuf : bytes }.

Definition with_dynTab (t : dynamicTable) (d : Decoder) : Decoder :=
  mkDec t (emitEnabled d) (maxStrLen d) (saveBuf d).
Definition with_saveBuf (b : bytes) (d : Decoder) : Decoder :=
  mkDec (dynTab d) (emitEnabled d) (maxStrLen d) b.

Definition NewDecoder (maxDynamicTableSize : Z) : hp Decoder :=
  t ← setMaxSize maxDynamicTableSize (mkDyn table_init 0 0 maxDynamicTableSize);
  Ok (mkDec t true 0 []).

Definition SetMaxStringLength (n : Z) (d : Decoder) : Decoder :=
  mkDec (dynTab d) (emitEnabled d) n (saveBuf d).
Definition SetEmitEnabled (v : bool) (d : Decoder) : Decoder :=
  mkDec (dynTab d) v (maxStrLen d) (saveBuf d).
Definition EmitEnabled (d : Decoder) : bool := emitEnabled d.
Definition SetMaxDynamicTableSize (v : Z) (d : Decoder) : hp Decoder :=
  t ← setMaxSize v (dynTab d); Ok (with_dynTab t d).
Definition SetAllowedMaxDynamicTableSize (v : Z) (d : Decoder) : Decoder :=
  with_dynTab (mkDyn (table (dynTab d)) (dsize (dynTab d)) (maxSize (dynTab d)) v) d.

Definition maxTableIndex (d : Decoder) : Z := table_len (table (dynTab d)) + table_len staticTable.

Definition at_index (d : Decoder) (i : Z) : hp (option HeaderField) :=
  if i =? 0 then Ok None
  else if i <=? u64 (table_len staticTable) then
    f ← or_panic (at_ (ents staticTable) (i - 1)); Ok (Some f)
  else if u64 (maxTableIndex d) <? i then Ok None
  else
    let dt := table (dynTab d) in
    f ← or_panic (at_ (ents dt) (table_len dt - (i64 i - table_len staticTable))); Ok (Some f).

Inductive indexType := indexedTrue | indexedFalse | indexedNever.
Definition indexed (v : indexType) : bool := match v with indexedTrue => true | _ => false end.
Definition sensitive (v : indexType) : bool := match v with indexedNever => true | _ => false end.

(** [huffmanDecode] with its fuel, which never runs out, folded into a panic. *)
Definition huffman_decode (maxLen : Z) (v : bytes) : hp bytes :=
  match huffmanDecode maxLen v with Some r => r | None => Panic end.

Definition readString (d : Decoder) (p : bytes) (wantStr : bool) : hp (bytes * bytes) :=
  match p with
  | [] => Fail errNeedMore
  | b :: _ =>
      let isHuff := negb (Z.land b 128 =? 0) in
      r ← readVarInt 7 p;
      let '(strLen, p) := r : Z * bytes in
      if negb (maxStrLen d =? 0) && (u64 (maxStrLen d) <? strLen) then Fail ErrStringLength
      else if u64 (len p) <? strLen then Fail errNeedMore
      else if negb isHuff then Ok (if wantStr then upto strLen p else [], from strLen p)
      else if wantStr then
        s ← huffman_decode (maxStrLen d) (upto strLen p); Ok (s, from strLen p)
      else Ok ([], from strLen p)
  end.

Section write.
Context {St : Type} (emit : HeaderField -> St -> St * bool).

(** A parsing step returns the decoder, the callback's state, the rest of the
    buffer and the error, if any; a failed step leaves the buffer alone. *)
Definition pstate : Type := Decoder * St * bytes * option hpack_error.

Definition callEmit (d : Decoder) (st : St) (hf : HeaderField) : Decoder * St * option hpack_error :=
  if negb (maxStrLen d =? 0) && ((maxStrLen d <? len (Name hf)) || (maxStrLen d <? len (Value hf)))
  then (d, st, Some ErrStringLength)
  else if emitEnabled d then
    let '(st', enabled) := emit hf st in (SetEmitEnabled enabled d, st', None)
  else (d, st, None).

Definition parseFieldIndexed (d : Decoder) (st : St) (buf : bytes) : hp pstate :=
  match readVarInt 7 buf with
  | Fail e => Ok (d, st, buf, Some e)
  | Panic => Panic
  | Ok (idx, buf') =>
      o ← at_index d idx;
      match o with
      | None => Ok (d, st, buf, Some (InvalidIndexError idx))
      | Some hf =>
          let '(d', st', err) := callEmit d st (mkHF (Name hf) (Value hf) false) in
          Ok (d', st', buf', err)
      end
  end.

(** The name part of a literal: an indexed name or a string. *)
Definition read_name (d : Decoder) (nameIdx : Z) (buf : bytes) (wantStr : bool) : hp (bytes * bytes) :=
  if 0 <? nameIdx then
    o ← at_index d nameIdx;
    match o with
    | None => Fail (InvalidIndexError nameIdx)
    | Some ihf => Ok (Name ihf, buf)
    end
  else readString d buf wantStr.

Definition parseFieldLiteral (d : Decoder) (st : St) (n : Z) (it : indexType) (buf : bytes) : hp pstate :=
  let wantStr := emitEnabled d || indexed it in
  match (r ← readVarInt n buf;
         nb ← read_name d r.1 r.2 wantStr;
         vb ← readString d nb.2 wantStr;
         Ok (mkHF nb.1 vb.1 false, vb.2)) with
  | Fail e => Ok (d, st, buf, Some e)
  | Panic => Panic
  | Ok (hf, buf') =>
      t ← (if indexed it then add hf (dynTab d) else Ok (dynTab d));
      let '(d', st', err) := callEmit (with_dynTab t d) st (mkHF (Name hf) (Value hf) (sensitive it)) in
      Ok (d', st', buf', err)
  end.

Definition parseDynamicTableSizeUpdate (d : Decoder) (st : St) (buf : bytes) : hp pstate :=
  match readVarInt 5 buf with
  | Fail e => Ok (d, st, buf, Some e)
  | Panic => Panic
  | Ok (size, buf') =>
      if u64 (allowedMaxSize (dynTab d)) <? size then Ok (d, st, buf, Some ErrTableSizeTooLarge)
      else
        t ← setMaxSize (u32 size) (dynTab d);
        Ok (with_dynTab t d, st, buf', None)
  end.

Definition parseHeaderFieldRepr (d : Decoder) (st : St) (buf : bytes) : hp pstate :=
  match buf with
  | [] => Panic
  | b :: _ =>
      if negb (Z.land b 128 =? 0) then parseFieldIndexed d st buf
      else if Z.land b 192 =? 64 then parseFieldLiteral d st 6 indexedTrue buf
      else if Z.land b 240 =? 0 then parseFieldLiteral d st 4 indexedFalse buf
      else if Z.land b 240 =? 16 then parseFieldLiteral d st 4 indexedNever buf
      else if Z.land b 224 =? 32 then parseDynamicTableSizeUpdate d st buf
      else Ok (d, st, buf, Some ErrInvalidEncoding)
  end.

(** The loop of [Write]; every round that does not fail consumes a byte, so
    the length of the buffer is enough fuel. The result is the decoder, the
    callback's state and what [Write] returns as its error. *)
Fixpoint Write_loop (fuel : nat) (d : Decoder) (st : St) (buf : bytes)
    : option (hp (Decoder * St * option hpack_error)) :=
  match buf with
  | [] => Some (Ok (d, st, None))
  | _ =>
      match fuel with
      | O => None
      | S fuel' =>
          match parseHeaderFieldRepr d st buf with
          | Ok (d', st', buf', None) => Write_loop fuel' d' st' buf'
          | Ok (d', st', buf', Some errNeedMore) =>
              if negb (maxStrLen d' =? 0) && (i64 (2 * (maxStrLen d' + 8)) <? len buf') then
                Some (Ok (d', st', Some ErrStringLength))
              else Some (Ok (with_saveBuf (saveBuf d' ++ buf') d', st', None))
          | Ok (d', st', buf', Some e) => Some (Ok (d', st', Some e))
          | Fail e => Some (Fail e)
          | Panic => Some Panic
          end
      end
  end.

Definition Write (d : Decoder) (st : St) (p : bytes) : option (hp (Decoder * St * option hpack_error)) :=
  if len p =? 0 then Some (Ok (d, st, None))
  else
    let buf := saveBuf d ++ p in
    Write_loop (length buf) (with_saveBuf [] d) st buf.
End write.

Definition Close (d : Decoder) : Decoder * option hpack_error :=
  if 0 <? len (saveBuf d) then (with_saveBuf [] d, Some ErrTruncatedHeaders) else (d, None).

(** [DecodeFull] collects the fields with a callback of its own. *)
Definition collect (f : HeaderField) (l : list HeaderField) : list HeaderField * bool := (l ++ [f], true).

Definition DecodeFull (d : Decoder) (p : bytes)
    : option (hp (Decoder * (list HeaderField + hpack_error))) :=
  match Write collect d [] p with
  | Some (Ok (d', hf, None)) =>
      match Close d' with
      | (d'', None) => Some (Ok (d'', inl hf))
      | (d'', Some e) => Some (Ok (d'', inr e))
      end
  | Some (Ok (d', _, Some e)) => Some (Ok (d', inr e))
  | Some (Fail e) => Some (Fail e)
  | Some Panic => Some Panic
  | None => None
  end.
