(* ===== verification/HpackEncoder.v ===== *)
(** The HPACK encoder of [http2/hpack/encode.go], and the agreement of encoder
    and decoder. *)
From S2P Require Import Prelude HpackVarint HpackTables HpackHuffman HpackDecoder.

(** * The encoder *)

Definition uint32Max : Z := 2 ^ 32 - 1.
Definition initialHeaderTableSize : Z := 4096.

Record Encoder := mkEnc {
  e_dynTab : dynamicTable;
  minSize : Z;
  maxSizeLimit : Z;
  tableSizeUpdate : bool }.

Definition NewEncoder : hp Encoder :=
  t ← setMaxSize initialHeaderTableSize (mkDyn table_init 0 0 0);
  Ok (mkEnc t uint32Max initialHeaderTableSize false).

Definition searchTable (e : Encoder) (f : HeaderField) : hp (Z * bool) :=
  r ← search true staticTable f;
  let '(i, nameValueMatch) := r : Z * bool in
  if nameValueMatch then Ok (i, true)
  else
    r ← search false (table (e_dynTab e)) f;
    let '(j, nameValueMatch) := r : Z * bool in
    if nameValueMatch || ((i =? 0) && negb (j =? 0)) then
      Ok (u64 (j + u64 (table_len staticTable)), nameValueMatch)
    else Ok (i, false).

Definition enc_SetMaxDynamicTableSize (v : Z) (e : Encoder) : hp Encoder :=
  let v := if maxSizeLimit e <? v then maxSizeLimit e else v in
  let min := if v <? minSize e then v else minSize e in
  t ← setMaxSize v (e_dynTab e);
  Ok (mkEnc t min (maxSizeLimit e) true).

Definition SetMaxDynamicTableSizeLimit (v : Z) (e : Encoder) : hp Encoder :=
  if v <? maxSize (e_dynTab e) then
    t ← setMaxSize v (e_dynTab e); Ok (mkEnc t (minSize e) v true)
  else Ok (mkEnc (e_dynTab e) (minSize e) v (tableSizeUpdate e)).

Definition shouldIndex (e : Encoder) (f : HeaderField) : bool :=
  negb (Sensitive f) && (Size f <=? maxSize (e_dynTab e)).

Definition encodeTypeByte (indexing sensitive : bool) : Z :=
  if sensitive then 0x10 else if indexing then 0x40 else 0.

Definition appendIndexed (dst : bytes) (i : Z) : bytes :=
  or_at (length dst) 0x80 (appendVarInt dst 7 i).

Definition appendHpackString (dst s : bytes) : hp bytes :=
  let huffmanLength := HuffmanEncodeLength s in
  if huffmanLength <? u64 (len s) then
    let first := length dst in
    let dst := appendVarInt dst 7 huffmanLength in
    v ← or_panic (AppendHuffmanString dst s);
    Ok (or_at first 0x80 v)
  else Ok (appendVarInt dst 7 (u64 (len s)) ++ s).

Definition appendNewName (dst : bytes) (f : HeaderField) (indexing : bool) : hp bytes :=
  let dst := dst ++ [encodeTypeByte indexing (Sensitive f)] in
  dst ← appendHpackString dst (Name f);
  appendHpackString dst (Value f).

Definition appendIndexedName (dst : bytes) (f : HeaderField) (i : Z) (indexing : bool) : hp bytes :=
  let first := length dst in
  let n := if indexing then 6 else 4 in
  let dst := appendVarInt dst n i in
  appendHpackString (or_at first (encodeTypeByte indexing (Sensitive f)) dst) (Value f).

Definition appendTableSize (dst : bytes) (v : Z) : bytes :=
  or_at (length dst) 0x20 (appendVarInt dst 5 (u64 v)).

(** The part of [WriteField] that flushes a pending table size update. *)
Definition write_updates (e : Encoder) : Encoder * bytes :=
  if tableSizeUpdate e then
    let buf := if minSize e <? maxSize (e_dynTab e) then appendTableSize [] (minSize e) else [] in
    (mkEnc (e_dynTab e) uint32Max (maxSizeLimit e) false,
     appendTableSize buf (maxSize (e_dynTab e)))
  else (e, []).

(** The new encoder and the buffer [WriteField] hands to its writer. *)
Definition encode_field (e : Encoder) (f : HeaderField) : hp (Encoder * bytes) :=
  let '(e, buf) := write_updates e in
  r ← searchTable e f;
  let '(idx, nameValueMatch) := r : Z * bool in
  if nameValueMatch then Ok (e, appendIndexed buf idx)
  else
    let indexing := shouldIndex e f in
    t ← (if indexing then add f (e_dynTab e) else Ok (e_dynTab e));
    let e' := mkEnc t (minSize e) (maxSizeLimit e) (tableSizeUpdate e) in
    buf ← (if idx =? 0 then appendNewName buf f indexing else appendIndexedName buf f idx indexing);
    Ok (e', buf).

(** [WriteField] with the writer [w] it was made for: the count and error of
    one [Write] call. *)
Inductive write_error (IO : Type) := ErrShortWrite | ErrIO (e : IO).
Arguments ErrShortWrite {IO}.
Arguments ErrIO {IO} e.

Definition WriteField {IO} (w : bytes -> Z * option IO) (e : Encoder) (f : HeaderField)
    : hp (Encoder * bytes * option (write_error IO)) :=
  r ← encode_field e f;
  let '(e', buf) := r : Encoder * bytes in
  match w buf with
  | (n, Some err) => Ok (e', buf, Some (ErrIO err))
  | (n, None) => Ok (e', buf, if n =? len buf then None else Some ErrShortWrite)
  end.

(** * Strings *)

Lemma appendVarInt_head n i : 1 <= n <= 8 -> 0 <= i ->
  exists x l, appendVarInt [] n i = x :: l /\ 0 <= x < 2 ^ n.
Proof.
  intros Hn Hi. pose proof (prefix_bound n Hn). unfold appendVarInt. rewrite shiftl_1 by lia.
  assert (Hk : u64 (2 ^ n - 1) = 2 ^ n - 1) by (apply wrap_id; unfold in_width; lia). rewrite Hk.
  destruct (Z.ltb_spec i (2 ^ n - 1)); cbn [app].
  - exists (u8 i), []. split; [done|]. unfold u8. rewrite wrap_id by (unfold in_width; lia). lia.
  - exists (u8 (2 ^ n - 1)), (varint_tail varint_rounds (u64 (i - (2 ^ n - 1)))). split; [done|].
    unfold u8. rewrite wrap_id by (unfold in_width; lia). lia.
Qed.

(** A flagged varint: its first byte is the flag plus the prefix. *)
Lemma flagged_head n i flag : 1 <= n <= 8 -> 0 <= i -> flag_ok n flag ->
  exists x l, or_at 0 flag (appendVarInt [] n i) = (flag + x) :: l /\ 0 <= x < 2 ^ n.
Proof.
  intros Hn Hi [_ Hf]. destruct (appendVarInt_head n i Hn Hi) as (x & l & Hx & Hr).
  exists x, l. rewrite Hx, or_at_0, (lor_add n) by (try done; lia). done.
Qed.

Lemma varint_tail_len fuel i : len (varint_tail fuel i) <= Z.of_nat fuel + 1.
Proof.
  revert i. induction fuel as [|fuel IH]; intros i; [done|]. rewrite varint_tail_S.
  case_match; [|change (len [u8 i]) with 1; lia].
  rewrite len_cons. specialize (IH (i / 128)). lia.
Qed.

Lemma appendVarInt_len n i : len (appendVarInt [] n i) <= 12.
Proof.
  unfold appendVarInt. case_match; [done|]. cbn [app]. rewrite len_cons.
  pose proof (varint_tail_len varint_rounds (u64 (i - u64 (Z.shiftl 1 n - 1)))).
  unfold varint_rounds in *. lia.
Qed.

Lemma or_at_len k flag l : len (or_at k flag l) = len l.
Proof. unfold len, or_at. by rewrite length_alter. Qed.

Definition hpack_string (s : bytes) : hp bytes := appendHpackString [] s.

Lemma appendHpackString_app dst s : appendHpackString dst s = (fun v => dst ++ v) <$> hpack_string s.
Proof.
  unfold hpack_string, appendHpackString. case_match.
  - rewrite (appendVarInt_app dst).
    rewrite (AppendHuffmanString_app (dst ++ _)), (AppendHuffmanString_app (appendVarInt [] _ _)).
    destruct (AppendHuffmanString [] s) as [v|]; [|done]. simpl.
    rewrite <- app_assoc, or_at_app. done.
  - rewrite (appendVarInt_app dst). simpl. by rewrite app_assoc.
Qed.

Definition str_fits (m : Z) (s : bytes) : Prop := bytes_ok s /\ len s < 2 ^ 31 /\ (m = 0 \/ len s <= m < 2 ^ 63).

Lemma u64_len (s : bytes) : len s < 2 ^ 63 -> u64 (len s) = len s.
Proof. intros. apply wrap_id. unfold in_width. pose proof (len_nonneg s). lia. Qed.

Lemma byte_7bit x : 0 <= x < 128 -> (Z.land x 128 =? 0) = true /\ (Z.land (128 + x) 128 =? 0) = false.
Proof.
  intros Hx. split.
  - rewrite byte_land_128 by (unfold byte_ok, in_width; lia). apply Z.ltb_lt. lia.
  - by apply byte_high.
Qed.

Lemma hpack_string_ok d s :
  str_fits (maxStrLen d) s ->
  exists v, hpack_string s = Ok v /\ len v <= len s + 12 /\
    forall rest, len rest < 2 ^ 62 -> readString d (v ++ rest) true = Ok (s, rest).
Proof.
  intros (Hs & Hlen & Hmax). unfold hpack_string, appendHpackString.
  pose proof (len_nonneg s). rewrite u64_len by lia.
  assert (Hcap : forall k, 0 <= k <= len s ->
    negb (maxStrLen d =? 0) && (u64 (maxStrLen d) <? k) = false).
  { intros k Hk. destruct (Z.eqb_spec (maxStrLen d) 0); [done|]. destruct Hmax as [?|Hmax]; [done|].
    unfold u64. rewrite wrap_id by (unfold in_width; lia). apply Z.ltb_ge. lia. }
  destruct (Z.ltb_spec (HuffmanEncodeLength s) (len s)) as [Hh|Hh].
  - destruct (AppendHuffmanString_ok s Hs) as (w & pad & He & Hw & Hp & Hf).
    pose proof (HuffmanEncodeLength_ok s w pad Hs ltac:(lia) Hp Hf) as Hl. pose proof (len_nonneg w).
    rewrite AppendHuffmanString_app, He. simpl. eexists; split; [reflexivity|]. split.
    { rewrite or_at_len, len_app. pose proof (appendVarInt_len 7 (HuffmanEncodeLength s)). lia. }
    intros rest Hrest.
    destruct (flagged_head 7 (HuffmanEncodeLength s) 0x80) as (x & l & Hx & Hr); [lia|lia|by compute|].
    destruct (appendVarInt_cons 7 (HuffmanEncodeLength s)) as (b & l' & Hb).
    assert (Hor : or_at 0 128 (appendVarInt [] 7 (HuffmanEncodeLength s) ++ w) ++ rest =
                  or_at 0 128 (appendVarInt [] 7 (HuffmanEncodeLength s)) ++ (w ++ rest)).
    { rewrite Hb, <- app_comm_cons, !or_at_0. cbn [app]. by rewrite <- app_assoc. }
    rewrite Hor. pose proof (varint_roundtrip 7 (HuffmanEncodeLength s) 0x80 (w ++ rest)) as Hrt.
    unfold readString. rewrite Hx in *. cbn [app] in *.
    destruct (byte_7bit x Hr) as [_ Hbit]. change 0x80 with 128. rewrite Hbit. cbn [negb].
    rewrite Hrt; [|lia|unfold in_width; lia|by compute].
    unfold varint_limit. rewrite (proj2 (Z.ltb_lt _ _)) by lia. simpl.
    rewrite Hcap by lia. rewrite u64_len, len_app by (rewrite len_app; lia).
    rewrite (proj2 (Z.ltb_ge _ _)) by (pose proof (len_nonneg rest); lia).
    rewrite upto_app_len, from_app_len by lia.
    unfold huffman_decode. rewrite (decode_stream _ pad Hp w s); try done.
    destruct Hmax; [by left|right; lia].
  - eexists; split; [reflexivity|]. split.
    { rewrite len_app. pose proof (appendVarInt_len 7 (len s)). lia. }
    intros rest Hrest.
    destruct (appendVarInt_head 7 (len s)) as (x & l & Hx & Hr); [lia|lia|].
    pose proof (varint_roundtrip 7 (len s) 0 (s ++ rest)) as Hrt.
    rewrite <- app_assoc. rewrite Hx in *. rewrite or_at_0, Z.lor_0_l in Hrt.
    unfold readString. cbn [app] in *.
    destruct (byte_7bit x Hr) as [Hbit _]. rewrite Hbit. cbn [negb].
    rewrite Hrt; [|lia|unfold in_width; lia|by compute].
    unfold varint_limit. rewrite (proj2 (Z.ltb_lt _ _)) by lia. simpl.
    rewrite Hcap by lia. rewrite u64_len, len_app by (rewrite len_app; lia).
    rewrite (proj2 (Z.ltb_ge _ _)) by (pose proof (len_nonneg rest); lia).
    by rewrite upto_app_len, from_app_len by lia.
Qed.

(** * Table indices *)

Lemma foldl_addEntry_ok l t :
  table_ok t -> evictCount t + table_len t + len l + 2 < 2 ^ 64 -> table_ok (foldl addEntry t l).
Proof.
  revert t. induction l as [|f l IH]; intros t Ht Hb; [done|]. cbn [foldl]. rewrite len_cons in Hb.
  pose proof (len_nonneg l). apply IH; [apply addEntry_ok; [done|lia]|].
  unfold table_len in *. rewrite addEntry_ents, len_app, len_cons. change (len []) with 0. simpl. lia.
Qed.

Lemma staticTable_ok : table_ok staticTable.
Proof. apply foldl_addEntry_ok; [apply table_init_ok|]. by vm_compute. Qed.

Lemma staticTable_ents : ents staticTable = staticTableEntries.
Proof. by vm_compute. Qed.

Lemma staticTable_len : table_len staticTable = 61.
Proof. by vm_compute. Qed.

#[global] Opaque staticTable.

Lemma at_index_static d k f :
  ents staticTable !! k = Some f -> at_index d (Z.of_nat k + 1) = Ok (Some f).
Proof.
  intros Hk. pose proof (lookup_lt_Some _ _ _ Hk) as Hlt.
  pose proof staticTable_len as Hl. unfold table_len, len in Hl. unfold at_index.
  rewrite (proj2 (Z.eqb_neq _ _)), staticTable_len by lia. change (u64 61) with 61.
  rewrite (proj2 (Z.leb_le _ _)) by lia.
  replace (Z.of_nat k + 1 - 1) with (Z.of_nat k) by lia. unfold at_.
  rewrite decide_True, Nat2Z.id, Hk by lia. done.
Qed.

(** The newest entries of the decoder's table are those of [l]. *)
Lemma at_index_dynamic d old l k f :
  ents (table (dynTab d)) = old ++ l -> len (old ++ l) < 2 ^ 62 -> l !! k = Some f ->
  at_index d (len l - Z.of_nat k + 61) = Ok (Some f).
Proof.
  intros He Hb Hk. pose proof (lookup_lt_Some _ _ _ Hk) as Hlt. rewrite len_app in Hb.
  pose proof (len_nonneg old). unfold at_index, maxTableIndex. rewrite staticTable_len.
  unfold table_len. rewrite He, len_app. change (u64 61) with 61.
  assert (Hkl : Z.of_nat k < len l) by (unfold len; lia).
  rewrite (proj2 (Z.eqb_neq _ _)), (proj2 (Z.leb_gt _ _)) by lia.
  unfold u64. rewrite wrap_id by (unfold in_width; lia).
  rewrite (proj2 (Z.ltb_ge _ _)) by lia. rewrite i64_id by lia.
  replace (len old + len l - (len l - Z.of_nat k + 61 - 61)) with (len old + Z.of_nat k) by lia.
  unfold at_. rewrite decide_True by lia. unfold len.
  replace (Z.to_nat (Z.of_nat (length old) + Z.of_nat k)) with (length old + k)%nat by lia.
  rewrite lookup_app_r by lia. replace (length old + k - length old)%nat with k by lia.
  by rewrite Hk.
Qed.

(** What the encoder's search promises: an index that names an entry with the
    field's name, and with its value when it reports a full match. *)
Definition found_at (d : Decoder) (f : HeaderField) (idx : Z) (full : bool) : Prop :=
  (idx = 0 /\ full = false) \/
  (0 < idx < 2 ^ 62 /\ exists g, at_index d idx = Ok (Some g) /\ Name g = Name f /\
     (full = true -> Value g = Value f /\ Sensitive f = false)).

Lemma search_spec_found static l f :
  let '(i, full) := search_spec static l f in
  (i = 0 /\ full = false) \/
  (exists k g, i = hpack_index static l k /\ l !! k = Some g /\ Name g = Name f /\
     (full = true -> Value g = Value f /\ Sensitive f = false)).
Proof.
  unfold search_spec.
  assert (Hname : match (match newest (has_key Name (Name f)) l with
                  | Some k => (hpack_index static l k, false) | None => (0, false) end) with
    (i, full) => (i = 0 /\ full = false) \/
      (exists k g, i = hpack_index static l k /\ l !! k = Some g /\ Name g = Name f /\
        (full = true -> Value g = Value f /\ Sensitive f = false)) end).
  { destruct (newest _ l) as [k|] eqn:Hk; [right|by left].
    destruct (newest_lookup _ _ _ Hk) as (g & Hg & Hkey). apply bool_decide_eq_true in Hkey.
    by exists k, g. }
  destruct (Sensitive f) eqn:Hs; [exact Hname|].
  destruct (newest (has_key nv_key (nv_key f)) l) as [k|] eqn:Hk; [|exact Hname]. right.
  destruct (newest_lookup _ _ _ Hk) as (g & Hg & Hkey). apply bool_decide_eq_true in Hkey.
  unfold nv_key in Hkey. injection Hkey as ??. by exists k, g.
Qed.

Lemma searchTable_ok e d old f :
  table_ok (table (e_dynTab e)) -> ents (table (dynTab d)) = old ++ ents (table (e_dynTab e)) ->
  len (ents (table (dynTab d))) < 2 ^ 61 ->
  exists idx full, searchTable e f = Ok (idx, full) /\ found_at d f idx full.
Proof.
  intros Ht He Hb. unfold searchTable. rewrite (search_ok true _ f staticTable_ok). simpl.
  pose proof (search_spec_found true (ents staticTable) f) as Hstat.
  destruct (search_spec true (ents staticTable) f) as [i full].
  assert (Hstatic : found_at d f i full).
  { destruct Hstat as [[-> ->]|(k & g & -> & Hk & Hn & Hv)]; [by left|right].
    pose proof (lookup_lt_Some _ _ _ Hk) as Hlt. pose proof staticTable_len as Hl.
    unfold table_len, len in Hl. unfold hpack_index. split; [lia|].
    exists g. by rewrite (at_index_static d k g Hk). }
  destruct full; [by exists i, true|]. rewrite search_ok by done. simpl.
  pose proof (search_spec_found false (ents (table (e_dynTab e))) f) as Hdyn.
  destruct (search_spec false (ents (table (e_dynTab e))) f) as [j full].
  destruct (_ || _)%bool eqn:Hor; [|by exists i, false].
  eexists _, full; split; [reflexivity|].
  destruct Hdyn as [[-> ->]|(k & g & -> & Hk & Hn & Hv)].
  { rewrite orb_false_l, andb_false_r in Hor. done. }
  pose proof (lookup_lt_Some _ _ _ Hk) as Hlt. rewrite He in Hb. rewrite len_app in Hb.
  pose proof (len_nonneg old). unfold hpack_index. rewrite staticTable_len. change (u64 61) with 61.
  assert (Hkl : Z.of_nat k < len (ents (table (e_dynTab e)))) by (unfold len; lia).
  unfold u64. rewrite wrap_id by (unfold in_width; lia). right. split; [lia|].
  exists g. rewrite (at_index_dynamic d old _ k g He) by (rewrite ?len_app; try done; lia). done.
Qed.

(** * Representations *)

Section repr.
Context {St : Type} (emit : HeaderField -> St -> St * bool).
Hypothesis emit_stays : forall f st, (emit f st).2 = true.

(** Parsing the bytes [rep], whatever follows, takes [(d, st)] to [(d', st')]. *)
Definition parses (d : Decoder) (st : St) (rep : bytes) (d' : Decoder) (st' : St) : Prop :=
  rep <> [] /\ forall rest, len rest < 2 ^ 61 ->
    parseHeaderFieldRepr emit d st (rep ++ rest) = Ok (d', st', rest, None).

Definition field_fits (m : Z) (f : HeaderField) : Prop :=
  str_fits m (Name f) /\ str_fits m (Value f) /\ len (Name f) + len (Value f) + 32 < 2 ^ 31.

Definition enabled (d : Decoder) : Prop := emitEnabled d = true.

Lemma callEmit_ok d st f :
  enabled d -> field_fits (maxStrLen d) f ->
  callEmit emit d st f = (d, (emit f st).1, None).
Proof.
  intros He ((_ & _ & Hn) & (_ & _ & Hv) & _). unfold callEmit.
  assert (Hcap : negb (maxStrLen d =? 0) && ((maxStrLen d <? len (Name f)) || (maxStrLen d <? len (Value f))) = false).
  { destruct (Z.eqb_spec (maxStrLen d) 0); [done|].
    destruct Hn as [?|Hn]; [done|]. destruct Hv as [?|Hv]; [done|].
    by rewrite (proj2 (Z.ltb_ge _ _)), (proj2 (Z.ltb_ge _ _)) by lia. }
  rewrite Hcap, He. specialize (emit_stays f st). destruct (emit f st) as [st' en]. simpl in *. subst en.
  destruct d; simpl in *. unfold SetEmitEnabled. simpl. by rewrite <- He.
Qed.

Lemma parses_indexed d st f idx :
  enabled d -> field_fits (maxStrLen d) f -> found_at d f idx true ->
  parses d st (appendIndexed [] idx) d (emit f st).1.
Proof.
  intros He Hf Hat. destruct Hat as [[_ ?]|(Hidx & g & Hg & Hn & Hv)]; [done|].
  destruct (Hv eq_refl) as [Hv' Hs]. unfold appendIndexed.
  destruct (flagged_head 7 idx 0x80) as (x & l & Hx & Hr); [lia|lia|by compute|].
  simpl length. split; [by rewrite Hx|]. intros rest _.
  pose proof (varint_roundtrip 7 idx 0x80 rest) as Hrt. rewrite Hx in *. cbn [app] in *.
  unfold parseHeaderFieldRepr. destruct (byte_7bit x Hr) as [_ Hbit].
  change 0x80 with 128. rewrite Hbit. cbn [negb]. unfold parseFieldIndexed.
  rewrite Hrt; [|lia|unfold in_width; lia|by compute].
  unfold varint_limit. rewrite (proj2 (Z.ltb_lt _ _)) by lia. rewrite Hg. simpl.
  replace (mkHF (Name g) (Value g) false) with f; [by rewrite callEmit_ok|].
  destruct f; simpl in *. congruence.
Qed.

Lemma update_byte x : 0 <= x < 32 ->
  Z.land (32 + x) 128 = 0 /\ Z.land (32 + x) 192 <> 64 /\ Z.land (32 + x) 240 <> 0 /\
  Z.land (32 + x) 240 <> 16 /\ Z.land (32 + x) 224 = 32.
Proof.
  intros Hx. apply (bool_decide_unpack _).
  assert (H : forallb (fun y => bool_decide (Z.land (32 + y) 128 = 0 /\ Z.land (32 + y) 192 <> 64 /\
    Z.land (32 + y) 240 <> 0 /\ Z.land (32 + y) 240 <> 16 /\ Z.land (32 + y) 224 = 32)) (seqZ 0 32) = true)
    by (vm_compute; reflexivity).
  rewrite forallb_forall in H. rewrite H; [exact I|].
  apply list_elem_of_In, elem_of_seqZ. lia.
Qed.

Lemma parses_update d st v :
  in_width 32 v -> v <= allowedMaxSize (dynTab d) < 2 ^ 32 -> dyn_ok (dynTab d) ->
  exists t, setMaxSize v (dynTab d) = Ok t /\ parses d st (appendTableSize [] v) (with_dynTab t d) st.
Proof.
  intros Hv Ha Hd. destruct (setMaxSize_spec v (dynTab d) Hd Hv) as (t & Ht & _).
  exists t. split; [done|]. unfold appendTableSize, in_width in *. simpl length.
  assert (Hu : u64 v = v) by (apply wrap_id; unfold in_width; lia). rewrite Hu.
  destruct (flagged_head 5 v 0x20) as (x & l & Hx & Hr); [lia|lia|by compute|].
  split; [by rewrite Hx|]. intros rest _.
  pose proof (varint_roundtrip 5 v 0x20 rest) as Hrt. rewrite Hx in *. cbn [app] in *.
  unfold parseHeaderFieldRepr. change 0x20 with 32 in *. destruct (update_byte x Hr) as (-> & H1 & H2 & H3 & ->).
  apply Z.eqb_neq in H1, H2, H3. rewrite H1, H2, H3, !Z.eqb_refl. cbn [negb]. unfold parseDynamicTableSizeUpdate.
  rewrite Hrt; [|lia|unfold in_width; lia|by compute].
  unfold varint_limit. rewrite (proj2 (Z.ltb_lt _ _)) by lia.
  unfold u64, u32. rewrite !wrap_id by (unfold in_width; lia).
  rewrite (proj2 (Z.ltb_ge _ _)) by lia. by rewrite Ht.
Qed.

(** The literal representations: prefix size, type bits, index type. *)
Definition lit_n (indexing : bool) : Z := if indexing then 6 else 4.
Definition lit_type (indexing sens : bool) : indexType :=
  if sens then indexedNever else if indexing then indexedTrue else indexedFalse.

Lemma literal_dispatch d st indexing sens x l :
  (indexing = true -> sens = false) -> 0 <= x < 2 ^ lit_n indexing ->
  let b := encodeTypeByte indexing sens + x in
  parseHeaderFieldRepr emit d st (b :: l) =
    parseFieldLiteral emit d st (lit_n indexing) (lit_type indexing sens) (b :: l).
Proof.
  intros Hs Hx b. unfold parseHeaderFieldRepr.
  assert (H : forallb (fun y =>
    let b := encodeTypeByte indexing sens + y in
    (Z.land b 128 =? 0) &&
    (if indexing then Z.land b 192 =? 64
     else negb (Z.land b 192 =? 64) &&
       (if sens then negb (Z.land b 240 =? 0) && (Z.land b 240 =? 16) else Z.land b 240 =? 0)))
    (seqZ 0 (2 ^ lit_n indexing)) = true).
  { destruct indexing, sens; try (by specialize (Hs eq_refl)); vm_compute; reflexivity. }
  rewrite forallb_forall in H. specialize (H x).
  rewrite <- list_elem_of_In, elem_of_seqZ in H. specialize (H ltac:(lia)). fold b in H. cbv zeta in H.
  apply andb_true_iff in H as [-> H]. cbn [negb].
  destruct indexing; [by rewrite H; destruct sens; [specialize (Hs eq_refl)|]|].
  apply andb_true_iff in H as [->%negb_true_iff H].
  destruct sens; [|by rewrite H]. apply andb_true_iff in H as [->%negb_true_iff ->]. done.
Qed.

(** The name of a literal as the encoder writes it. *)
Lemma read_name_ok d f idx :
  field_fits (maxStrLen d) f -> found_at d f idx false ->
  exists nm, (if idx =? 0 then hpack_string (Name f) else Ok []) = Ok nm /\ len nm < 2 ^ 32 /\
    forall rest, len rest < 2 ^ 62 -> read_name d idx (nm ++ rest) true = Ok (Name f, rest).
Proof.
  intros (Hn & _ & _) Hat. unfold read_name.
  destruct Hat as [[-> _]|(Hidx & g & Hg & Hgn & _)].
  - destruct (hpack_string_ok d (Name f) Hn) as (nm & -> & Hl & Hrd). exists nm. split; [done|].
    split; [destruct Hn as (_ & ? & _); lia|]. intros rest Hrest. by apply Hrd.
  - rewrite (proj2 (Z.eqb_neq _ _)) by lia. exists []. split_and!; [done|done|]. intros rest _.
    rewrite (proj2 (Z.ltb_lt _ _)) by lia. rewrite Hg. simpl. by rewrite Hgn.
Qed.

Definition literal (f : HeaderField) (idx : Z) (indexing : bool) : hp bytes :=
  if idx =? 0 then appendNewName [] f indexing else appendIndexedName [] f idx indexing.

Lemma flag_ok_lit indexing sens : (indexing = true -> sens = false) ->
  flag_ok (lit_n indexing) (encodeTypeByte indexing sens).
Proof. intros Hs. destruct indexing, sens; try (by specialize (Hs eq_refl)); by compute. Qed.

Lemma literal_shape f idx indexing nm v :
  (if idx =? 0 then hpack_string (Name f) else Ok []) = Ok nm -> hpack_string (Value f) = Ok v ->
  literal f idx indexing =
    Ok (or_at 0 (encodeTypeByte indexing (Sensitive f)) (appendVarInt [] (lit_n indexing) idx) ++ nm ++ v).
Proof.
  intros Hnm Hv. unfold literal. destruct (Z.eqb_spec idx 0) as [->|Hne].
  - unfold appendNewName. cbn [app]. rewrite appendHpackString_app, Hnm. simpl.
    rewrite appendHpackString_app, Hv. simpl. f_equal.
    assert (Hz : appendVarInt [] (lit_n indexing) 0 = [0]) by (by destruct indexing).
    rewrite Hz, or_at_0, Z.lor_0_r. done.
  - injection Hnm as <-. unfold appendIndexedName. cbn [app length].
    rewrite appendHpackString_app, Hv. done.
Qed.

Lemma lit_n_range indexing : 1 <= lit_n indexing <= 8.
Proof. destruct indexing; simpl; lia. Qed.

Lemma lit_indexed indexing sens : (indexing = true -> sens = false) ->
  indexed (lit_type indexing sens) = indexing /\ sensitive (lit_type indexing sens) = sens.
Proof. intros Hs. destruct indexing, sens; try (by specialize (Hs eq_refl)); done. Qed.

(** The dynamic table after the representation of [f]. *)
Definition table_after (indexing : bool) (f : HeaderField) (t t' : dynamicTable) : Prop :=
  if indexing then add f t = Ok t' else t' = t.

Lemma parses_literal d st f idx indexing t' :
  enabled d -> field_fits (maxStrLen d) f -> found_at d f idx false ->
  (indexing = true -> Sensitive f = false) -> table_after indexing f (dynTab d) t' ->
  exists rep, literal f idx indexing = Ok rep /\ len rep < 2 ^ 34 /\
    parses d st rep (with_dynTab t' d) (emit f st).1.
Proof.
  intros He Hf Hat Hs Ht. destruct (read_name_ok d f idx Hf Hat) as (nm & Hnm & Hlnm & Hrn).
  pose proof Hf as (Hfn & Hfv & Hfl).
  destruct (hpack_string_ok d (Value f) Hfv) as (v & Hv & Hlv & Hrv).
  assert (Hlv' : len v < 2 ^ 32) by (destruct Hfv as (_ & ? & _); lia).
  assert (Hidx : 0 <= idx < 2 ^ 62) by (destruct Hat as [[-> _]|[? _]]; lia).
  pose proof (lit_n_range indexing) as Hn. pose proof (flag_ok_lit indexing (Sensitive f) Hs) as Hfl'.
  set (flag := encodeTypeByte indexing (Sensitive f)) in *.
  destruct (flagged_head (lit_n indexing) idx flag) as (x & l & Hx & Hr); [done|lia|done|].
  rewrite (literal_shape f idx indexing nm v Hnm Hv). fold flag.
  eexists; split; [reflexivity|]. split.
  { rewrite !len_app, or_at_len. pose proof (appendVarInt_len (lit_n indexing) idx). lia. }
  split; [by rewrite Hx|]. intros rest Hrest. rewrite <- !app_assoc.
  pose proof (varint_roundtrip (lit_n indexing) idx flag (nm ++ v ++ rest) Hn) as Hrt.
  rewrite Hx in *. cbn [app] in *. unfold flag. rewrite literal_dispatch by done. fold flag.
  unfold parseFieldLiteral.
  rewrite Hrt; [|unfold in_width; lia|done]. unfold varint_limit.
  pose proof (prefix_bound _ Hn). rewrite (proj2 (Z.ltb_lt _ _)) by lia. rewrite He. simpl.
  rewrite Hrn by (rewrite len_app; lia). simpl. rewrite Hrv by lia. simpl.
  destruct (lit_indexed indexing (Sensitive f) Hs) as [-> Hsens].
  assert (Hadd : (if indexing then add (mkHF (Name f) (Value f) false) (dynTab d) else Ok (dynTab d)) = Ok t').
  { unfold table_after in Ht. destruct indexing; [|by rewrite Ht].
    rewrite <- Ht. f_equal. rewrite <- (Hs eq_refl). by destruct f. }
  rewrite Hadd. simpl. rewrite Hsens.
  replace (mkHF (Name f) (Value f) (Sensitive f)) with f by (by destruct f).
  by rewrite callEmit_ok.
Qed.

(** * Whole buffers *)

Inductive parses_all : Decoder -> St -> list bytes -> Decoder -> St -> Prop :=
| parses_nil d st : parses_all d st [] d st
| parses_cons d st rep d1 st1 reps d2 st2 :
    parses d st rep d1 st1 -> parses_all d1 st1 reps d2 st2 ->
    parses_all d st (rep :: reps) d2 st2.

Lemma parses_all_app d st l d1 st1 k d2 st2 :
  parses_all d st l d1 st1 -> parses_all d1 st1 k d2 st2 -> parses_all d st (l ++ k) d2 st2.
Proof. induction 1; [done|]. intros. cbn [app]. econstructor; eauto. Qed.

Lemma Write_loop_parses d st reps d' st' fuel :
  parses_all d st reps d' st' -> len (concat reps) < 2 ^ 61 ->
  (length (concat reps) <= fuel)%nat ->
  Write_loop emit fuel d st (concat reps) = Some (Ok (d', st', None)).
Proof.
  intros Hp. revert fuel. induction Hp as [d st|d st rep d1 st1 reps d2 st2 [Hne Hrep] _ IH];
    intros fuel Hlen Hfuel; simpl in *; [by destruct fuel|].
  rewrite len_app in Hlen. pose proof (len_nonneg rep). pose proof (len_nonneg (concat reps)).
  rewrite length_app in Hfuel. specialize (Hrep (concat reps) ltac:(lia)).
  destruct rep as [|b rep]; [done|]. cbn [app] in *. destruct fuel as [|fuel]; [simpl in *; lia|].
  cbn [Write_loop]. rewrite Hrep. apply IH; simpl in *; lia.
Qed.
End repr.

(** * Agreement of the two dynamic tables *)

Lemma keep_mono max old l : exists old', keep max (old ++ l) = old' ++ keep max l.
Proof.
  induction old as [|f old [old' IH]]; [by exists []|]. simpl. case_match eqn:E; [eauto|].
  exists (f :: old). rewrite keep_all; [done|].
  apply Z.ltb_ge in E. rewrite total_app in E.
  pose proof (total_nonneg old). pose proof (Size_range f). unfold in_width in *. lia.
Qed.

(** The encoder's entries are the newest entries of the decoder (which keeps
    more while a size reduction is pending), and every size the encoder may
    announce is one the decoder accepts. [n] bounds the fields still to come. *)
Record sync (n : Z) (e : Encoder) (d : Decoder) : Prop := {
  sy_enc : dyn_ok (e_dynTab e);
  sy_dec : dyn_ok (dynTab d);
  sy_suffix : exists old, ents (table (dynTab d)) = old ++ ents (table (e_dynTab e));
  sy_total : dsize (e_dynTab e) <= minSize e;
  sy_min : in_width 32 (minSize e);
  sy_limit : maxSize (e_dynTab e) <= maxSizeLimit e <= allowedMaxSize (dynTab d);
  sy_current : tableSizeUpdate e = false -> maxSize (e_dynTab e) = maxSize (dynTab d) /\ minSize e = uint32Max;
  sy_allowed : maxSize (dynTab d) <= allowedMaxSize (dynTab d) < 2 ^ 31;
  sy_ids : evictCount (table (e_dynTab e)) + table_len (table (e_dynTab e)) + n < 2 ^ 60 /\
           evictCount (table (dynTab d)) + table_len (table (dynTab d)) + n < 2 ^ 60;
  sy_enabled : emitEnabled d = true;
  sy_saved : saveBuf d = [] }.

(** The decoder's limits, which no header block changes. *)
Record same_limits (d d' : Decoder) : Prop := {
  sl_str : maxStrLen d' = maxStrLen d;
  sl_allowed : allowedMaxSize (dynTab d') = allowedMaxSize (dynTab d) }.

Lemma same_limits_refl d : same_limits d d.
Proof. done. Qed.

Lemma same_limits_trans d1 d2 d3 : same_limits d1 d2 -> same_limits d2 d3 -> same_limits d1 d3.
Proof. intros [? ?] [? ?]. split; congruence. Qed.

Lemma setMaxSize_limits d v t : setMaxSize v (dynTab d) = Ok t -> same_limits d (with_dynTab t d).
Proof.
  unfold setMaxSize, evict. simpl. destruct (evict_count _ _ _ _) as [sz n].
  destruct (evictOldest _ _); intros ?; simplify_eq/=; done.
Qed.

Lemma add_limits d f t : add f (dynTab d) = Ok t -> same_limits d (with_dynTab t d).
Proof.
  unfold add, evict. simpl. destruct (evict_count _ _ _ _) as [sz n].
  destruct (evictOldest _ _); intros ?; simplify_eq/=; done.
Qed.

Lemma appendTableSize_app buf v : appendTableSize buf v = buf ++ appendTableSize [] v.
Proof. unfold appendTableSize. by rewrite appendVarInt_app, or_at_app. Qed.

Lemma appendTableSize_len v : len (appendTableSize [] v) <= 12.
Proof. unfold appendTableSize. rewrite or_at_len. apply appendVarInt_len. Qed.

Lemma sync_resize n e d v t :
  sync n e d -> in_width 32 v -> v <= allowedMaxSize (dynTab d) -> dsize (e_dynTab e) <= v ->
  setMaxSize v (dynTab d) = Ok t ->
  (tableSizeUpdate e = false -> maxSize (e_dynTab e) = v /\ minSize e = uint32Max) -> sync n e (with_dynTab t d).
Proof.
  intros [He Hd [old Hs] Ht Hmin Hl Hc Ha Hi Hen Hsv] Hv Hva Hsz Hset Hcur.
  destruct (setMaxSize_spec v (dynTab d) Hd Hv) as (t' & Hset' & Hok & Hm & Hents & Hall & Hids).
  rewrite Hset in Hset'. injection Hset' as <-.
  split; simpl; try done; rewrite ?Hall, ?Hm, ?Hids; try done; try lia.
  rewrite Hents, Hs. apply keep_app. by rewrite <- (dok_size _ He).
Qed.

Section writefield.
Context {St : Type} (emit : HeaderField -> St -> St * bool).
Hypothesis emit_stays : forall f st, (emit f st).2 = true.

Lemma write_updates_ok n e d st :
  sync n e d ->
  exists e1 reps d1, write_updates e = (e1, concat reps) /\ parses_all emit d st reps d1 st /\
    sync n e1 d1 /\ tableSizeUpdate e1 = false /\ same_limits d d1 /\ len (concat reps) <= 24.
Proof.
  intros Hsync. unfold write_updates. destruct (tableSizeUpdate e) eqn:Hu.
  2:{ exists e, [], d. split_and!; try done. constructor. }
  pose proof Hsync as [He Hd Hs Ht Hmin Hl Hc Ha Hi Hen Hsv].
  pose proof (dok_max _ He) as Hmax. pose proof (dok_fits _ He) as Hfits.
  assert (Hfinal : forall d0, sync n e d0 -> dyn_ok (dynTab d0) -> emitEnabled d0 = true ->
    exists t, setMaxSize (maxSize (e_dynTab e)) (dynTab d0) = Ok t /\
      parses emit d0 st (appendTableSize [] (maxSize (e_dynTab e))) (with_dynTab t d0) st /\
      sync n (mkEnc (e_dynTab e) uint32Max (maxSizeLimit e) false) (with_dynTab t d0)).
  { intros d0 H0 Hd0 Hen0. pose proof (sy_limit _ _ _ H0). pose proof (sy_allowed _ _ _ H0).
    destruct (parses_update emit d0 st (maxSize (e_dynTab e)) Hmax ltac:(lia) Hd0) as (t & Hset & Hp).
    exists t. split; [done|]. split; [done|].
    destruct (setMaxSize_spec _ _ Hd0 Hmax) as (t' & Hset' & Hok & Hm & _).
    rewrite Hset in Hset'. injection Hset' as <-.
    assert (Hs1 : sync n e (with_dynTab t d0)).
    { apply (sync_resize n e d0 (maxSize (e_dynTab e))); try done; [lia|]. by rewrite Hu. }
    destruct Hs1. split; simpl in *; try done; rewrite ?Hm; try done.
    unfold in_width, uint32Max in *. lia. }
  destruct (Z.ltb_spec (minSize e) (maxSize (e_dynTab e))) as [Hlt|Hge].
  - destruct (parses_update emit d st (minSize e) Hmin ltac:(lia) Hd) as (t & Hset & Hp).
    assert (Hs1 : sync n e (with_dynTab t d)).
    { apply (sync_resize n e d (minSize e)); try done; [lia|]. by rewrite Hu. }
    destruct (Hfinal _ Hs1 (sy_dec _ _ _ Hs1) (sy_enabled _ _ _ Hs1)) as (t2 & Hset2 & Hp2 & H2).
    eexists _, [appendTableSize [] (minSize e); appendTableSize [] (maxSize (e_dynTab e))], _.
    split_and!; [|econstructor; [exact Hp|econstructor; [exact Hp2|constructor]]|exact H2|done|eapply same_limits_trans; eapply setMaxSize_limits; eassumption|].
    + simpl. by rewrite app_nil_r, (appendTableSize_app (appendTableSize [] (minSize e))).
    + cbn [concat]. rewrite !len_app. change (len []) with 0.
      pose proof (appendTableSize_len (minSize e)).
      pose proof (appendTableSize_len (maxSize (e_dynTab e))). lia.
  - destruct (Hfinal _ Hsync Hd Hen) as (t2 & Hset2 & Hp2 & H2).
    eexists _, [appendTableSize [] (maxSize (e_dynTab e))], _.
    split_and!; [|econstructor; [exact Hp2|constructor]|exact H2|done|by eapply setMaxSize_limits|].
    + simpl. by rewrite app_nil_r.
    + cbn [concat]. rewrite !len_app. change (len []) with 0.
      pose proof (appendTableSize_len (maxSize (e_dynTab e))). lia.
Qed.

(** Both sides add [f]. *)
Lemma sync_add n e d f :
  sync (n + 1) e d -> 0 <= n -> tableSizeUpdate e = false -> shouldIndex e f = true ->
  len (Name f) + len (Value f) + 32 < 2 ^ 31 ->
  exists te td, add f (e_dynTab e) = Ok te /\ add f (dynTab d) = Ok td /\
    sync n (mkEnc te (minSize e) (maxSizeLimit e) (tableSizeUpdate e)) (with_dynTab td d).
Proof.
  intros [He Hd [old Hs] Ht Hmin Hl Hc Ha [Hie Hid] Hen Hsv] Hn Hu Hidx Hsz.
  apply andb_true_iff in Hidx as [_ Hfit%Z.leb_le]. destruct (Hc Hu) as [Hcm Hcu].
  pose proof (dok_fits _ He). pose proof (dok_fits _ Hd).
  assert (Hsize : Size f < 2 ^ 31).
  { unfold Size, u32. pose proof (len_nonneg (Name f)). pose proof (len_nonneg (Value f)).
    rewrite wrap_id by (unfold in_width; lia). lia. }
  destruct (add_spec f (e_dynTab e) He) as (te & Hte & Hoke & Hme & Hee & Hae & Hide);
    [unfold ids_left; lia|lia|].
  destruct (add_spec f (dynTab d) Hd) as (td & Htd & Hokd & Hmd & Hed & Had & Hidd);
    [unfold ids_left; lia|lia|].
  exists te, td. split_and!; [done|done|].
  split; simpl; rewrite ?Hme, ?Hmd, ?Had, ?Hide, ?Hidd; try done; try lia.
  - rewrite Hee, Hed, Hs, <- Hcm, <- app_assoc. apply keep_mono.
  - pose proof (dok_fits _ Hoke). pose proof (dok_max _ Hoke). rewrite Hcu.
    unfold in_width, uint32Max in *. lia.
Qed.

Lemma appendIndexed_app buf i : appendIndexed buf i = buf ++ appendIndexed [] i.
Proof. unfold appendIndexed. by rewrite appendVarInt_app, or_at_app. Qed.

Lemma literal_app buf f idx indexing :
  (if idx =? 0 then appendNewName buf f indexing else appendIndexedName buf f idx indexing) =
  (fun v => buf ++ v) <$> literal f idx indexing.
Proof.
  unfold literal. case_match.
  - unfold appendNewName. cbn [app].
    rewrite (appendHpackString_app (buf ++ _)), (appendHpackString_app [_] (Name f)).
    destruct (hpack_string (Name f)) as [nm| |]; [|done..]. simpl.
    rewrite (appendHpackString_app (_ ++ nm)), (appendHpackString_app (_ :: nm)).
    destruct (hpack_string (Value f)) as [v| |]; [|done..]. simpl.
    by rewrite <- !app_assoc.
  - unfold appendIndexedName. rewrite (appendVarInt_app buf), or_at_app.
    rewrite (appendHpackString_app (buf ++ _)), (appendHpackString_app (or_at _ _ _) (Value f)).
    destruct (hpack_string (Value f)) as [v| |]; [|done..]. simpl. by rewrite <- app_assoc.
Qed.

Lemma sync_weaken n m e d : sync n e d -> m <= n -> sync m e d.
Proof. intros [] ?. split; try done. lia. Qed.

Lemma sync_found n e d f : sync n e d -> 0 <= n -> exists idx full,
  searchTable e f = Ok (idx, full) /\ found_at d f idx full.
Proof.
  intros Hs Hn. destruct (sy_suffix _ _ _ Hs) as [old Hold]. pose proof (sy_ids _ _ _ Hs) as [_ Hid].
  destruct (sy_enc _ _ _ Hs). destruct (sy_dec _ _ _ Hs) as [[? ? ? ?] _ _ _].
  apply (searchTable_ok e d old f); [done|done|]. unfold table_len in *.
  unfold in_width in *. lia.
Qed.

(** One field: what [WriteField] writes, the decoder reads back. *)
Lemma encode_field_parses n e d st f :
  sync (n + 1) e d -> 0 <= n -> field_fits (maxStrLen d) f ->
  exists e' reps d', encode_field e f = Ok (e', concat reps) /\ len (concat reps) < 2 ^ 35 /\
    parses_all emit d st reps d' (emit f st).1 /\ sync n e' d' /\ same_limits d d'.
Proof.
  intros Hs Hn Hf. unfold encode_field.
  destruct (write_updates_ok (n + 1) e d st Hs) as (e1 & ups & d1 & -> & Hp & Hs1 & Hu1 & Hm1 & Hl1).
  destruct (sync_found (n + 1) e1 d1 f Hs1 ltac:(lia)) as (idx & full & Hsearch & Hat). rewrite Hsearch. simpl.
  rewrite <- (sl_str _ _ Hm1) in Hf. pose proof (sy_enabled _ _ _ Hs1) as Hen.
  destruct full.
  - exists e1, (ups ++ [appendIndexed [] idx]), d1.
    rewrite concat_app. cbn [concat]. rewrite app_nil_r, <- appendIndexed_app. split; [done|].
    split_and!; [| |apply (sync_weaken (n + 1)); [done|lia]|done].
    + rewrite appendIndexed_app, len_app. unfold appendIndexed. rewrite or_at_len.
      pose proof (appendVarInt_len 7 idx). lia.
    + eapply parses_all_app; [exact Hp|]. econstructor; [|constructor].
      by apply parses_indexed.
  - assert (Hadd : exists te td, (if shouldIndex e1 f then add f (e_dynTab e1) else Ok (e_dynTab e1)) = Ok te /\
      table_after (shouldIndex e1 f) f (dynTab d1) td /\
      sync n (mkEnc te (minSize e1) (maxSizeLimit e1) (tableSizeUpdate e1)) (with_dynTab td d1) /\ same_limits d1 (with_dynTab td d1)).
    { unfold table_after. destruct (shouldIndex e1 f) eqn:Hidx.
      - destruct Hf as (_ & _ & Hfl). destruct (sync_add n e1 d1 f Hs1 Hn Hu1 Hidx Hfl) as (te & td & ? & ? & ?).
        exists te, td. split_and!; try done. by apply (add_limits d1 f).
      - exists (e_dynTab e1), (dynTab d1). split_and!; [done|done| |done].
        apply (sync_weaken (n + 1)); [|lia]. by destruct e1, d1. }
    destruct Hadd as (te & td & -> & Hafter & Hs2 & Hl2). simpl.
    destruct (parses_literal emit emit_stays d1 st f idx (shouldIndex e1 f) td) as (rep & Hlit & Hlen & Hrep);
      try done.
    { unfold shouldIndex. by intros [?%negb_true_iff _]%andb_true_iff. }
    rewrite literal_app, Hlit. simpl.
    eexists _, (ups ++ [rep]), _. rewrite concat_app. cbn [concat]. rewrite app_nil_r.
    split_and!; [done| |eapply parses_all_app; [exact Hp|econstructor; [exact Hrep|constructor]]|exact Hs2|by eapply same_limits_trans].
    rewrite len_app. lia.
Qed.
End writefield.

(** * Size operations of the encoder *)

Lemma sync_shrink n e d v limit min :
  sync n e d -> in_width 32 v -> in_width 32 min -> v <= limit <= allowedMaxSize (dynTab d) ->
  (min = minSize e \/ min = v) ->
  exists t, setMaxSize v (e_dynTab e) = Ok t /\ sync n (mkEnc t min limit true) d.
Proof.
  intros [He Hd [old Hs] Ht Hmin Hl Hc Ha Hi Hen Hsv] Hv Hw Hlim Hm.
  destruct (setMaxSize_spec v (e_dynTab e) He Hv) as (t & Hset & Hok & Hmax & Hents & Hall & Hids).
  exists t. split; [done|]. destruct (keep_suffix v (ents (table (e_dynTab e)))) as [old2 Hk].
  pose proof (dok_fits _ Hok). pose proof (dok_size _ Hok) as Hsz.
  assert (dsize t <= minSize e).
  { etransitivity; [|exact Ht]. rewrite Hsz, (dok_size _ He), Hents.
    apply (f_equal total) in Hk. rewrite total_app in Hk. pose proof (total_nonneg old2). lia. }
  split; simpl; try done; try lia.
  exists (old ++ old2). by rewrite Hs, Hents, <- app_assoc, <- Hk.
Qed.

Lemma sync_enc_SetMax n e d v :
  sync n e d -> in_width 32 v ->
  exists e', enc_SetMaxDynamicTableSize v e = Ok e' /\ sync n e' d.
Proof.
  intros Hs Hv. unfold enc_SetMaxDynamicTableSize.
  pose proof (sy_limit _ _ _ Hs). pose proof (sy_allowed _ _ _ Hs). pose proof (sy_min _ _ _ Hs).
  pose proof (dok_max _ (sy_enc _ _ _ Hs)).
  set (v' := if maxSizeLimit e <? v then maxSizeLimit e else v).
  assert (Hv' : in_width 32 v' /\ v' <= maxSizeLimit e).
  { unfold v', in_width in *. z_cases; lia. }
  destruct Hv' as [Hw Hle]. set (min := if v' <? minSize e then v' else minSize e).
  destruct (sync_shrink n e d v' (maxSizeLimit e) min Hs Hw) as (t & -> & Hs').
  - unfold min. by destruct (v' <? minSize e).
  - lia.
  - unfold min. destruct (v' <? minSize e); auto.
  - by eexists.
Qed.

Lemma sync_SetMaxLimit n e d v :
  sync n e d -> in_width 32 v -> v <= allowedMaxSize (dynTab d) ->
  exists e', SetMaxDynamicTableSizeLimit v e = Ok e' /\ sync n e' d.
Proof.
  intros Hs Hv Hall. unfold SetMaxDynamicTableSizeLimit. pose proof (sy_min _ _ _ Hs).
  destruct (Z.ltb_spec v (maxSize (e_dynTab e))).
  - destruct (sync_shrink n e d v v (minSize e) Hs Hv) as (t & -> & Hs'); [done|lia|by left|].
    by eexists.
  - eexists; split; [reflexivity|]. destruct Hs. split; simpl; try done.
Qed.

(** * Encoding and decoding a header block *)

(** What the user of an [Encoder] does between two blocks and inside one. *)
Inductive enc_op :=
| OpWriteField (f : HeaderField)
| OpSetMaxDynamicTableSize (v : Z)
| OpSetMaxDynamicTableSizeLimit (v : Z).

Definition enc_step (e : Encoder) (o : enc_op) : hp (Encoder * bytes) :=
  match o with
  | OpWriteField f => encode_field e f
  | OpSetMaxDynamicTableSize v => e' ← enc_SetMaxDynamicTableSize v e; Ok (e', [])
  | OpSetMaxDynamicTableSizeLimit v => e' ← SetMaxDynamicTableSizeLimit v e; Ok (e', [])
  end.

(** The bytes the operations write to the encoder's writer. *)
Fixpoint enc_run (e : Encoder) (ops : list enc_op) : hp (Encoder * bytes) :=
  match ops with
  | [] => Ok (e, [])
  | o :: ops =>
      r ← enc_step e o;
      s ← enc_run r.1 ops;
      Ok (s.1, r.2 ++ s.2)
  end.

Fixpoint fields_of (ops : list enc_op) : list HeaderField :=
  match ops with
  | [] => []
  | OpWriteField f :: ops => f :: fields_of ops
  | _ :: ops => fields_of ops
  end.

(** Sizes are 32 bits, the limit stays within the decoder's. *)
Definition op_ok (m allowed : Z) (o : enc_op) : Prop :=
  match o with
  | OpWriteField f => field_fits m f
  | OpSetMaxDynamicTableSize v => in_width 32 v
  | OpSetMaxDynamicTableSizeLimit v => in_width 32 v /\ v <= allowed
  end.

Section run.
Context {St : Type} (emit : HeaderField -> St -> St * bool).
Hypothesis emit_stays : forall f st, (emit f st).2 = true.

Definition emit_all (st : St) (fs : list HeaderField) : St := foldl (fun st f => (emit f st).1) st fs.

Lemma enc_step_ok o n e d st :
  sync (n + 1) e d -> 0 <= n -> op_ok (maxStrLen d) (allowedMaxSize (dynTab d)) o ->
  exists e' reps d', enc_step e o = Ok (e', concat reps) /\ len (concat reps) < 2 ^ 35 /\
    parses_all emit d st reps d' (emit_all st (fields_of [o])) /\ sync n e' d' /\ same_limits d d'.
Proof.
  intros Hs Hn Ho. destruct o as [f|v|v]; simpl in *.
  - by apply encode_field_parses.
  - destruct (sync_enc_SetMax _ e d v Hs Ho) as (e' & -> & Hs'). exists e', [], d.
    split_and!; try done; [constructor|]. apply (sync_weaken (n + 1)); [done|lia].
  - destruct Ho as [Hv Ha]. destruct (sync_SetMaxLimit _ e d v Hs Hv Ha) as (e' & -> & Hs').
    exists e', [], d. split_and!; try done; [constructor|]. apply (sync_weaken (n + 1)); [done|lia].
Qed.

Lemma fields_of_cons o ops : fields_of (o :: ops) = fields_of [o] ++ fields_of ops.
Proof. by destruct o. Qed.

Lemma enc_run_ok ops n e d st :
  sync (n + len ops) e d -> 0 <= n ->
  Forall (op_ok (maxStrLen d) (allowedMaxSize (dynTab d))) ops ->
  exists e' reps d', enc_run e ops = Ok (e', concat reps) /\ len (concat reps) <= len ops * 2 ^ 35 /\
    parses_all emit d st reps d' (emit_all st (fields_of ops)) /\ sync n e' d' /\ same_limits d d'.
Proof.
  revert e d st. induction ops as [|o ops IH]; intros e d st Hs Hn Hops.
  { exists e, [], d. split_and!; try done; [constructor|].
    apply (sync_weaken (n + len (@nil enc_op))); [done|]. change (len (@nil enc_op)) with 0. lia. }
  inversion Hops as [|? ? Ho Hrest]; subst. rewrite len_cons in *. pose proof (len_nonneg ops).
  destruct (enc_step_ok o (n + len ops) e d st) as (e1 & r1 & d1 & H1 & Hl1 & Hp1 & Hs1 & Hlim1);
    [by replace (n + len ops + 1) with (n + (len ops + 1)) by lia|lia|done|].
  rewrite <- (sl_str _ _ Hlim1), <- (sl_allowed _ _ Hlim1) in Hrest.
  destruct (IH e1 d1 (emit_all st (fields_of [o])) Hs1 Hn Hrest) as (e2 & r2 & d2 & H2 & Hl2 & Hp2 & Hs2 & Hlim2).
  exists e2, (r1 ++ r2), d2. rewrite concat_app, len_app, fields_of_cons.
  cbn [enc_run]. rewrite H1. cbn. rewrite H2. cbn [mret]. unfold emit_all. rewrite foldl_app.
  split_and!; [done|lia| |done|by eapply same_limits_trans].
  by eapply parses_all_app.
Qed.

Lemma Write_blocks n ops e d st :
  sync (n + len ops) e d -> 0 <= n -> len ops < 2 ^ 25 ->
  Forall (op_ok (maxStrLen d) (allowedMaxSize (dynTab d))) ops ->
  exists e' buf d', enc_run e ops = Ok (e', buf) /\ sync n e' d' /\ same_limits d d' /\
    Write emit d st buf = Some (Ok (d', emit_all st (fields_of ops), None)).
Proof.
  intros Hs Hn Hl Hops. destruct (enc_run_ok ops n e d st Hs Hn Hops) as (e' & reps & d' & He & Hlen & Hp & Hs' & Hlim).
  exists e', (concat reps), d'. split_and!; try done. unfold Write.
  destruct (Z.eqb_spec (len (concat reps)) 0) as [Hz|Hz].
  - inversion Hp as [|d0 st0 rep d1 st1 reps' d2 st2 [Hne _] Hrest]; subst; [congruence|].
    destruct rep; [done|]. cbn [concat app] in Hz. rewrite len_cons in Hz.
    pose proof (len_nonneg (rep ++ concat reps')). lia.
  - rewrite (sy_saved _ _ _ Hs). cbn [app]. replace (with_saveBuf [] d) with d.
    + eapply Write_loop_parses; [exact Hp|nia|done].
    + pose proof (sy_saved _ _ _ Hs). destruct d; simpl in *; by subst.
Qed.
End run.

Lemma collect_all l fs : emit_all collect l fs = l ++ fs.
Proof.
  revert l. induction fs as [|f fs IH]; intros l; [by rewrite app_nil_r|].
  unfold emit_all in *. cbn [foldl]. unfold collect at 2. cbn [fst]. rewrite IH. by rewrite <- app_assoc.
Qed.

Definition new_tab (allowed : Z) : dynamicTable := mkDyn table_init 0 4096 allowed.

Lemma new_pair :
  NewEncoder = Ok (mkEnc (new_tab 0) uint32Max 4096 false) /\
  NewDecoder 4096 = Ok (mkDec (new_tab 4096) true 0 []).
Proof. done. Qed.

(** A fresh encoder agrees with a fresh decoder, whatever string limit the
    decoder is then given. *)
Lemma new_sync n m : n < 2 ^ 60 ->
  sync n (mkEnc (new_tab 0) uint32Max 4096 false) (SetMaxStringLength m (mkDec (new_tab 4096) true 0 [])).
Proof.
  intros Hn. assert (Hok : forall a, dyn_ok (new_tab a)) by (intros; split; [apply table_init_ok|done..]).
  split; simpl; try done; try (unfold table_len; simpl; change (len []) with 0; lia).
  by exists [].
Qed.

(** C2. Header blocks round trip. Whatever an encoder that agrees with a
    decoder is asked to do for a header block (writing fields, lowering or
    raising its table size, changing its size limit), the operations succeed,
    [DecodeFull] on the bytes they wrote returns exactly the fields written, in
    order and with their [Sensitive] bits, and encoder and decoder agree again,
    so that the next block round trips too. *)
Theorem header_blocks_roundtrip n ops e d :
  sync (n + len ops) e d -> 0 <= n -> len ops < 2 ^ 25 ->
  Forall (op_ok (maxStrLen d) (allowedMaxSize (dynTab d))) ops ->
  exists e' buf d', enc_run e ops = Ok (e', buf) /\
    DecodeFull d buf = Some (Ok (d', inl (fields_of ops))) /\ sync n e' d' /\ same_limits d d'.
Proof.
  intros Hs Hn Hl Hops.
  destruct (Write_blocks collect ltac:(done) n ops e d [] Hs Hn Hl Hops)
    as (e' & buf & d' & He & Hs' & Hlim & HW).
  exists e', buf, d'. split_and!; try done. unfold DecodeFull. rewrite HW.
  unfold Close. rewrite (sy_saved _ _ _ Hs'). by rewrite collect_all.
Qed.

Definition sample_ops : list enc_op :=
  [OpWriteField (static_entry ":method" "GET"); OpWriteField (static_entry "x-key" "custom");
   OpSetMaxDynamicTableSizeLimit 100; OpSetMaxDynamicTableSize 64;
   OpWriteField (mkHF (str "cookie") (str "secret") true); OpWriteField (static_entry "x-key" "custom")].

Lemma str_fits_dec s : forallb (fun b => (0 <=? b) && (b <? 256)) s && (len s <? 2 ^ 31) = true -> str_fits 0 s.
Proof.
  intros [Hb Hl%Z.ltb_lt]%andb_true_iff. split_and!; [|done|by left].
  apply Forall_forall. intros x Hx%list_elem_of_In. rewrite forallb_forall in Hb.
  specialize (Hb x Hx). unfold byte_ok, in_width. lia.
Qed.

Lemma header_blocks_roundtrip_witness :
  exists e d, NewEncoder = Ok e /\ NewDecoder 4096 = Ok d /\
    exists e' buf d', enc_run e sample_ops = Ok (e', buf) /\
      DecodeFull d buf = Some (Ok (d', inl (fields_of sample_ops))) /\ sync 1000 e' d' /\ same_limits d d'.
Proof.
  destruct new_pair as [He Hd]. eexists _, _. split; [exact He|]. split; [exact Hd|].
  apply (header_blocks_roundtrip 1000 sample_ops).
  - apply (new_sync (1000 + len sample_ops) 0). by vm_compute.
  - done.
  - by vm_compute.
  - repeat constructor; (try by apply str_fits_dec); by vm_compute.
Defined.
