(* ===== verification/HpackSafety.v ===== *)
(** What the HPACK decoder guarantees on arbitrary input: invariants of the
    callback's state, progress, and the absence of panics. *)
From S2P Require Import Prelude Bits HpackVarint HpackTables HpackHuffman HpackDecoder.

(** * The callback's state changes only through the callback *)

Section invariant.
Context {St : Type} (emit : HeaderField -> St -> St * bool) (I : St -> Prop).
Hypothesis emit_I : forall f st, I st -> I (emit f st).1.

Definition keeps (st : St) (r : hp (pstate (St := St))) : Prop :=
  forall d' st' buf' err, r = Ok (d', st', buf', err) -> I st -> I st'.

Lemma callEmit_I d st hf d' st' err : callEmit emit d st hf = (d', st', err) -> I st -> I st'.
Proof.
  unfold callEmit. intros H Hst. destruct (negb _ && _); [by simplify_eq|].
  destruct (emitEnabled d); [|by simplify_eq].
  pose proof (emit_I hf st Hst) as Hi. destruct (emit hf st) as [st1 en]. by simplify_eq.
Qed.

Lemma parseFieldIndexed_I d st buf : keeps st (parseFieldIndexed emit d st buf).
Proof.
  intros d' st' buf' err. unfold parseFieldIndexed.
  destruct (readVarInt 7 buf) as [[idx b]|e|]; [|by intros; simplify_eq|done].
  destruct (at_index d idx) as [[hf|]|e|]; simpl; [|by intros; simplify_eq|done..].
  destruct (callEmit emit d st _) as [[d1 st1] err1] eqn:Hc. intros [= <- <- <- <-].
  by eapply callEmit_I.
Qed.

Lemma parseFieldLiteral_I d st n it buf : keeps st (parseFieldLiteral emit d st n it buf).
Proof.
  intros d' st' buf' err. unfold parseFieldLiteral.
  destruct (_ ≫= _) as [[hf b]|e|]; [|by intros; simplify_eq|done].
  destruct (if indexed it then _ else _) as [t|e|]; simpl; [|done..].
  destruct (callEmit emit _ st _) as [[d1 st1] err1] eqn:Hc. intros [= <- <- <- <-].
  by eapply callEmit_I.
Qed.

Lemma parseUpdate_I d st buf : keeps st (parseDynamicTableSizeUpdate d st buf).
Proof.
  intros d' st' buf' err. unfold parseDynamicTableSizeUpdate.
  destruct (readVarInt 5 buf) as [[size b]|e|]; [|by intros; simplify_eq|done].
  destruct (_ <? size); [by intros; simplify_eq|].
  destruct (setMaxSize _ _) as [t|e|]; simpl; [by intros; simplify_eq|done..].
Qed.

Lemma parseRepr_I d st buf : keeps st (parseHeaderFieldRepr emit d st buf).
Proof.
  unfold parseHeaderFieldRepr. destruct buf as [|b buf]; [done|].
  repeat case_match; first [apply parseFieldIndexed_I | apply parseFieldLiteral_I | apply parseUpdate_I
    | by intros ????; intros; simplify_eq].
Qed.

Lemma Write_loop_I fuel d st buf d' st' err :
  Write_loop emit fuel d st buf = Some (Ok (d', st', err)) -> I st -> I st'.
Proof.
  revert d st buf. induction fuel as [|fuel IH]; intros d st buf; destruct buf as [|b buf]; cbn [Write_loop];
    try (by intros; simplify_eq).
  pose proof (parseRepr_I d st (b :: buf)) as Hk. unfold keeps in Hk.
  destruct (parseHeaderFieldRepr emit d st (b :: buf)) as [[[[d1 st1] buf1] [e|]]|e|]. 3,4: intros; discriminate.
  - intros H Hst. specialize (Hk _ _ _ _ eq_refl Hst).
    destruct e; try (by simplify_eq). case_match; by simplify_eq.
  - intros H Hst. eapply IH; [exact H|]. by eapply Hk.
Qed.

Lemma Write_I d st p d' st' err :
  Write emit d st p = Some (Ok (d', st', err)) -> I st -> I st'.
Proof. unfold Write. case_match; [by intros; simplify_eq|]. apply Write_loop_I. Qed.
End invariant.

(** * Reading never leaves the buffer *)

(** [p'] is what is left of [p] after at least one byte. *)
Definition consumed (p p' : bytes) : Prop := exists q, q <> [] /\ p = q ++ p'.

Lemma consumed_trans p q r : consumed p q -> (r = q \/ consumed q r) -> consumed p r.
Proof.
  intros (a & Ha & ->) [->|(b & _ & ->)]; [by exists a|]. exists (a ++ b).
  split; [by destruct a|by rewrite app_assoc].
Qed.

Lemma consumed_ok p p' : consumed p p' -> bytes_ok p -> bytes_ok p' /\ len p' < len p.
Proof.
  intros (q & Hq & ->) Hp. apply bytes_ok_app in Hp as [_ Hp]. split; [done|].
  rewrite len_app. destruct q as [|b q]; [done|]. rewrite len_cons. pose proof (len_nonneg q). lia.
Qed.

Lemma readVarInt_loop_safe p i m : bytes_ok p -> in_width 64 i ->
  match readVarInt_loop p i m with
  | Ok (v, p') => in_width 64 v /\ consumed p p'
  | Fail e => e = errNeedMore \/ e = errVarintOverflow
  | Panic => False
  end.
Proof.
  revert i m. induction p as [|b p IH]; intros i m Hp Hi; cbn [readVarInt_loop]; [by left|].
  apply Forall_cons in Hp as [Hb Hp]. destruct (Z.land b 128 =? 0).
  - split; [apply wrap_in_width; lia|]. by exists [b].
  - destruct (63 <=? u64 (m + 7)); [by right|].
    specialize (IH (u64 (i + shl 64 (Z.land b 127) m)) (u64 (m + 7)) Hp (wrap_in_width 64 _ ltac:(lia))).
    destruct (readVarInt_loop p _ _) as [[v p']|e|]; [|done..].
    destruct IH as [? (q & Hq & ->)]. split; [done|]. exists (b :: q). by split.
Qed.

Lemma readVarInt_safe n p : 1 <= n <= 8 -> bytes_ok p ->
  match readVarInt n p with
  | Ok (v, p') => in_width 64 v /\ consumed p p'
  | Fail e => e = errNeedMore \/ e = errVarintOverflow
  | Panic => False
  end.
Proof.
  intros Hn Hp. unfold readVarInt. rewrite (proj2 (Z.ltb_ge n 1)), (proj2 (Z.ltb_ge 8 n)) by lia. simpl.
  destruct p as [|b p]; [by left|]. apply Forall_cons in Hp as [Hb Hp].
  set (i := if n <? 8 then _ else _).
  assert (Hi : in_width 64 i).
  { apply (in_width_weaken 8); [lia|]. unfold i. destruct (n <? 8); [|exact Hb]. by apply in_width_land. }
  destruct (i <? _); [split; [done|by exists [b]]|].
  pose proof (readVarInt_loop_safe p i 0 Hp Hi) as H. destruct (readVarInt_loop p i 0) as [[v p']|e|]; [|done..].
  destruct H as [? (q & Hq & ->)]. split; [done|]. exists (b :: q). by split.
Qed.

(** * Strings and tables *)

Lemma huffman_expansion m v s : bytes_ok v -> huffmanDecode m v = Some (Ok s) ->
  bytes_ok s /\ 5 * len s <= 8 * len v.
Proof.
  intros Hv Hd. pose proof (huffmanDecode_sound m v Hv) as Hs. rewrite Hd in Hs.
  destruct Hs as (Hs & pad & _ & Hf). split; [done|].
  apply (f_equal length) in Hf. rewrite length_flat, stream_length in Hf.
  assert (H : 5 * len s <= len (concat (code_bits <$> s))).
  { clear Hf Hd. induction Hs as [|c s Hc Hs IH]; [done|]. destruct (codeLen_range c Hc) as [Hl _].
    cbn [fmap list_fmap concat]. rewrite len_app, len_cons, len_code_bits by done. lia. }
  unfold len in *. lia.
Qed.

Definition string_error (e : hpack_error) : Prop :=
  e = errNeedMore \/ e = errVarintOverflow \/ e = ErrStringLength \/ e = ErrInvalidHuffman.

Lemma readString_safe d p want : bytes_ok p -> len p < 2 ^ 62 ->
  match readString d p want with
  | Ok (s, p') => bytes_ok s /\ 5 * len s <= 8 * len p /\ consumed p p'
  | Fail e => string_error e
  | Panic => False
  end.
Proof.
  intros Hp Hl. unfold readString, string_error. destruct p as [|b p0] eqn:Hpe; [by left|].
  rewrite <- Hpe in *. pose proof (readVarInt_safe 7 p ltac:(lia) Hp) as Hr.
  destruct (readVarInt 7 p) as [[n p']|e|]; [|cbn; tauto|done]. destruct Hr as [Hn Hc]. cbn [mbind outcome_bind].
  destruct (consumed_ok _ _ Hc Hp) as [Hp' Hlt]. pose proof (len_nonneg p'). unfold in_width in Hn.
  destruct (_ && _); [tauto|]. unfold u64. rewrite wrap_id by (unfold in_width; lia).
  destruct (Z.ltb_spec (len p') n) as [|Hge]; [tauto|].
  assert (Hsuf : consumed p (from n p')).
  { destruct Hc as (q & Hq & ->). exists (q ++ upto n p').
    split; [by destruct q|]. by rewrite <- app_assoc, upto_from. }
  pose proof (len_upto n p' ltac:(lia)) as Hup. assert (Hbu : bytes_ok (upto n p')) by (by apply bytes_ok_upto).
  pose proof (len_nonneg p).
  destruct (Z.land b 128 =? 0); cbn [negb].
  - destruct want; split_and!; try done; try (rewrite ?Hup; change (len (@nil Z)) with 0; lia). constructor.
  - destruct want; [|split_and!; try done; [constructor|change (len (@nil Z)) with 0; lia]].
    unfold huffman_decode. pose proof (huffmanDecode_sound (maxStrLen d) (upto n p') Hbu) as Hs.
    destruct (huffmanDecode (maxStrLen d) (upto n p')) as [[s|e|]|] eqn:Hh; [|cbn|done..].
    + destruct (huffman_expansion _ _ _ Hbu Hh) as [? ?]. cbn. split_and!; [done|lia|done].
    + destruct Hs as [->|[-> _]]; tauto.
Qed.

(** A field of the tables: its size does not wrap. *)
Definition field_sane (f : HeaderField) : Prop :=
  bytes_ok (Name f) /\ bytes_ok (Value f) /\ len (Name f) + len (Value f) + 32 < 2 ^ 31.

#[global] Instance field_sane_dec f : Decision (field_sane f).
Proof. unfold field_sane. apply _. Defined.

(** The decoder is well formed, its sizes are moderate, and [n] more entries
    leave the entry ids far from overflow. *)
Record decoder_ok (n : Z) (d : Decoder) : Prop := {
  do_tab : dyn_ok (dynTab d);
  do_max : maxSize (dynTab d) <= 2 ^ 30 /\ 0 <= allowedMaxSize (dynTab d) <= 2 ^ 30;
  do_ids : evictCount (table (dynTab d)) + table_len (table (dynTab d)) + n < 2 ^ 60;
  do_ents : Forall field_sane (ents (table (dynTab d)));
  do_save : bytes_ok (saveBuf d) }.

Lemma field_size f l : Forall field_sane l -> f ∈ l -> len (Name f) + len (Value f) + 32 <= total l.
Proof.
  induction 1 as [|g l Hg Hl IH]; [by intros ?%elem_of_nil|]. cbn [total foldr].
  change (foldr _ 0 l) with (total l).
  intros [->|Hf]%elem_of_cons.
  - pose proof (total_nonneg l). destruct Hg as (_ & _ & Hg). unfold Size, u32.
    pose proof (len_nonneg (Name g)). pose proof (len_nonneg (Value g)).
    rewrite wrap_id by (unfold in_width; lia). lia.
  - specialize (IH Hf). pose proof (Size_range g) as Hr. unfold in_width in Hr. lia.
Qed.

Lemma static_names : Forall (fun f => field_sane f /\ len (Name f) <= 2 ^ 30) (ents staticTable).
Proof. apply (bool_decide_unpack _). vm_compute. exact I. Qed.

(** What an index names. *)
Lemma at_index_safe n d i : decoder_ok n d -> 0 <= n -> in_width 64 i ->
  match at_index d i with
  | Ok (Some f) => field_sane f /\ len (Name f) <= 2 ^ 30
  | Ok None => True
  | _ => False
  end.
Proof.
  intros Hd Hn Hi. unfold at_index, maxTableIndex. unfold in_width in Hi.
  assert (Hst : table_len staticTable = 61) by (by vm_compute). rewrite Hst. change (u64 61) with 61.
  destruct (Z.eqb_spec i 0); [done|]. destruct (Z.leb_spec i 61) as [Hs|Hs].
  - destruct (at_Some (ents staticTable) (i - 1)) as [f Hf]; [unfold table_len in Hst; lia|].
    rewrite Hf. cbn. pose proof static_names as Hall. rewrite Forall_forall in Hall.
    apply Hall. by eapply at_In.
  - pose proof (do_ids _ _ Hd) as Hids. pose proof (tok_count _ (dok_table _ (do_tab _ _ Hd))) as Hc.
    assert (Htl : 0 <= table_len (table (dynTab d))) by apply len_nonneg.
    unfold u64. rewrite wrap_id by (unfold in_width; lia).
    destruct (Z.ltb_spec (table_len (table (dynTab d)) + 61) i) as [|Hle]; [done|].
    rewrite i64_id by lia.
    destruct (at_Some (ents (table (dynTab d))) (table_len (table (dynTab d)) - (i - 61))) as [f Hf].
    { unfold table_len in *. lia. }
    rewrite Hf. cbn. pose proof (at_In _ _ _ Hf) as Hin. pose proof (do_ents _ _ Hd) as Hents.
    pose proof (field_size f _ Hents Hin) as Hsz. rewrite Forall_forall in Hents. split; [auto|].
    destruct (do_tab _ _ Hd) as [_ Hs1 Hs2 _]. pose proof (do_max _ _ Hd). pose proof (len_nonneg (Value f)). lia.
Qed.

Lemma keep_elem max l f : f ∈ keep max l -> f ∈ l.
Proof. destruct (keep_suffix max l) as [old Ho]. intros Hf. rewrite Ho. apply elem_of_app. by right. Qed.

Lemma decoder_ok_setMax n d v : decoder_ok n d -> in_width 32 v -> v <= 2 ^ 30 ->
  exists t, setMaxSize v (dynTab d) = Ok t /\ decoder_ok n (with_dynTab t d).
Proof.
  intros [Ht Hm Hi He Hs] Hv Hle.
  destruct (setMaxSize_spec v _ Ht Hv) as (t & Hset & Hok & Hmax & Hents & Hall & Hids).
  exists t. split; [done|]. split; simpl; rewrite ?Hmax, ?Hall, ?Hids; try done; try lia.
  rewrite Hents. rewrite Forall_forall in *. intros f Hf. apply He. by eapply keep_elem.
Qed.

Lemma decoder_ok_add n d f : decoder_ok (n + 1) d -> 0 <= n -> field_sane f ->
  exists t, add f (dynTab d) = Ok t /\ decoder_ok n (with_dynTab t d).
Proof.
  intros [Ht Hm Hi He Hs] Hn Hf.
  destruct (add_spec f (dynTab d) Ht) as (t & Hadd & Hok & Hmax & Hents & Hall & Hids).
  - unfold ids_left. lia.
  - pose proof (dok_fits _ Ht). destruct Hf as (_ & _ & Hf). unfold Size, u32.
    pose proof (len_nonneg (Name f)). pose proof (len_nonneg (Value f)).
    rewrite wrap_id by (unfold in_width; lia). lia.
  - exists t. split; [done|]. split; simpl; rewrite ?Hmax, ?Hall, ?Hids; try done; try lia.
    rewrite Hents. rewrite Forall_forall in *. intros g Hg. apply keep_elem in Hg.
    apply elem_of_app in Hg as [Hg| ->%list_elem_of_singleton]; auto.
Qed.

Lemma decoder_ok_weaken n m d : decoder_ok n d -> m <= n -> decoder_ok m d.
Proof. intros [] ?. split; try done. lia. Qed.

Section safe.
Context {St : Type} (emit : HeaderField -> St -> St * bool).

(** A parsing step on a non-empty buffer: it does not panic, keeps the decoder
    well formed, and if it succeeds consumes input. *)
Definition step_safe (n : Z) (d : Decoder) (buf : bytes) (r : hp (pstate (St := St))) : Prop :=
  exists d' st' buf' err, r = Ok (d', st', buf', err) /\ decoder_ok n d' /\
    saveBuf d' = saveBuf d /\ maxStrLen d' = maxStrLen d /\
    match err with None => consumed buf buf' | Some _ => bytes_ok buf' /\ len buf' <= len buf end.

Lemma callEmit_safe n d st f d' st' err : callEmit emit d st f = (d', st', err) -> decoder_ok n d ->
  decoder_ok n d' /\ saveBuf d' = saveBuf d /\ maxStrLen d' = maxStrLen d.
Proof.
  unfold callEmit. intros H Hd. destruct (_ && _); [by simplify_eq|].
  destruct (emitEnabled d); [|by simplify_eq]. destruct (emit f st) as [st1 en]. simplify_eq.
  destruct Hd. by split; [split|].
Qed.

Lemma step_fail n d st buf e : decoder_ok n d -> bytes_ok buf ->
  step_safe n d buf (Ok (d, st, buf, Some e)).
Proof. intros. exists d, st, buf, (Some e). by split_and!. Qed.

(** The end of a step that emits a field. *)
Lemma step_emit n d st f buf buf' : decoder_ok n d -> bytes_ok buf -> consumed buf buf' ->
  step_safe n d buf (let '(d', st', err) := callEmit emit d st f in Ok (d', st', buf', err)).
Proof.
  intros Hd Hb Hc. destruct (callEmit emit d st f) as [[d' st'] err] eqn:He.
  destruct (callEmit_safe n _ _ _ _ _ _ He Hd) as (H1 & H2 & H3).
  exists d', st', buf', err. split_and!; try done. destruct err; [|done].
  destruct (consumed_ok _ _ Hc Hb). split; [done|lia].
Qed.

Lemma step_same n d d0 buf r : saveBuf d0 = saveBuf d -> maxStrLen d0 = maxStrLen d ->
  step_safe n d0 buf r -> step_safe n d buf r.
Proof. intros Hs Hm (d' & st' & b' & err & ? & ? & ? & ? & ?). exists d', st', b', err. split_and!; congruence || done. Qed.

Lemma parseFieldIndexed_safe n d st buf : decoder_ok n d -> 0 <= n -> bytes_ok buf ->
  step_safe n d buf (parseFieldIndexed emit d st buf).
Proof.
  intros Hd Hn Hb. unfold parseFieldIndexed. pose proof (readVarInt_safe 7 buf ltac:(lia) Hb) as Hr.
  destruct (readVarInt 7 buf) as [[idx b]|e|]; [|by apply step_fail|done]. destruct Hr as [Hi Hc].
  pose proof (at_index_safe n d idx Hd Hn Hi) as Ha.
  destruct (at_index d idx) as [[hf|]|e|]; [|by apply step_fail|done..]. by apply step_emit.
Qed.

Lemma parseUpdate_safe n d st buf : decoder_ok n d -> bytes_ok buf ->
  step_safe n d buf (parseDynamicTableSizeUpdate d st buf).
Proof.
  intros Hd Hb. unfold parseDynamicTableSizeUpdate. pose proof (readVarInt_safe 5 buf ltac:(lia) Hb) as Hr.
  destruct (readVarInt 5 buf) as [[size b]|e|]; [|by apply step_fail|done]. destruct Hr as [Hi Hc].
  pose proof (do_max _ _ Hd) as [_ Hall]. unfold u64 at 1. unfold in_width in Hi.
  rewrite wrap_id by (unfold in_width; lia).
  destruct (Z.ltb_spec (allowedMaxSize (dynTab d)) size); [by apply step_fail|].
  assert (Hu : u32 size = size) by (apply wrap_id; unfold in_width; lia). rewrite Hu.
  destruct (decoder_ok_setMax n d size Hd) as (t & -> & Hok); [unfold in_width; lia|lia|]. cbn.
  exists (with_dynTab t d), st, b, None. by split_and!.
Qed.

(** The three reads of a literal. *)
Definition read_literal (d : Decoder) (n : Z) (buf : bytes) (want : bool) : hp (HeaderField * bytes) :=
  r ← readVarInt n buf;
  nb ← read_name d r.1 r.2 want;
  vb ← readString d nb.2 want;
  Ok (mkHF nb.1 vb.1 false, vb.2).

Lemma read_name_safe k d i buf want : decoder_ok k d -> 0 <= k -> in_width 64 i -> bytes_ok buf -> len buf < 2 ^ 28 ->
  match read_name d i buf want with
  | Ok (s, b) => bytes_ok s /\ len s <= 2 ^ 30 /\ (b = buf \/ consumed buf b)
  | Fail _ => True
  | Panic => False
  end.
Proof.
  intros Hd Hk Hi Hb Hl. unfold read_name. destruct (0 <? i).
  - pose proof (at_index_safe k d i Hd Hk Hi) as Ha. destruct (at_index d i) as [[f|]|e|]; try done.
    cbn. destruct Ha as [(? & ? & ?) ?]. split_and!; [done|done|by left].
  - pose proof (readString_safe d buf want Hb ltac:(lia)) as Hr. destruct (readString d buf want) as [[s b]|e|]; try done.
    destruct Hr as (? & ? & ?). split_and!; [done|lia|by right].
Qed.

Lemma read_literal_safe k d n buf want : 1 <= n <= 8 -> decoder_ok k d -> 0 <= k -> bytes_ok buf -> len buf < 2 ^ 28 ->
  match read_literal d n buf want with
  | Ok (f, b) => field_sane f /\ consumed buf b
  | Fail _ => True
  | Panic => False
  end.
Proof.
  intros Hn Hd Hk Hb Hl. unfold read_literal. pose proof (readVarInt_safe n buf Hn Hb) as Hr.
  destruct (readVarInt n buf) as [[i b]|e|]; [|done..]. destruct Hr as [Hi Hc]. cbn [mbind outcome_bind fst snd].
  destruct (consumed_ok _ _ Hc Hb) as [Hb1 Hl1].
  pose proof (read_name_safe k d i b want Hd Hk Hi Hb1 ltac:(lia)) as Hnm.
  destruct (read_name d i b want) as [[nm b1]|e|]; [|done..]. destruct Hnm as (Hnm & Hnl & Hc1).
  assert (Hc2 : consumed buf b1) by (by eapply consumed_trans).
  cbn [mbind outcome_bind fst snd]. destruct (consumed_ok _ _ Hc2 Hb) as [Hb2 Hl2].
  pose proof (readString_safe d b1 want Hb2 ltac:(lia)) as Hv.
  destruct (readString d b1 want) as [[v b2]|e|]; [|done..]. destruct Hv as (Hv & Hvl & Hc3). cbn.
  split; [|by eapply consumed_trans; [|right]]. split_and!; simpl; [done|done|lia].
Qed.

Lemma parseFieldLiteral_safe k d st n it buf : 1 <= n <= 8 -> decoder_ok (k + 1) d -> 0 <= k ->
  bytes_ok buf -> len buf < 2 ^ 28 -> step_safe k d buf (parseFieldLiteral emit d st n it buf).
Proof.
  intros Hn Hd Hk Hb Hl. unfold parseFieldLiteral. fold (read_literal d n buf (emitEnabled d || indexed it)).
  pose proof (read_literal_safe (k + 1) d n buf (emitEnabled d || indexed it) Hn Hd ltac:(lia) Hb Hl) as Hr.
  assert (Hd' : decoder_ok k d) by (eapply decoder_ok_weaken; [done|lia]).
  destruct (read_literal _ _ _ _) as [[f b]|e|]; [|by apply step_fail|done]. destruct Hr as [Hf Hc].
  destruct (indexed it).
  - destruct (decoder_ok_add k d f Hd Hk Hf) as (t & -> & Hok). cbn [mbind outcome_bind].
    eapply step_same; [| |by apply step_emit]; done.
  - cbn [mbind outcome_bind]. replace (with_dynTab (dynTab d) d) with d by (by destruct d). by apply step_emit.
Qed.

Lemma parseRepr_safe k d st buf : buf <> [] -> decoder_ok (k + 1) d -> 0 <= k -> bytes_ok buf -> len buf < 2 ^ 28 ->
  step_safe k d buf (parseHeaderFieldRepr emit d st buf).
Proof.
  intros Hne Hd Hk Hb Hl. assert (Hd' : decoder_ok k d) by (eapply decoder_ok_weaken; [done|lia]).
  unfold parseHeaderFieldRepr. destruct buf as [|b buf]; [done|].
  repeat match goal with |- step_safe _ _ _ (if ?c then _ else _) => destruct c end;
    first [ by apply parseFieldIndexed_safe | by apply parseFieldLiteral_safe; (done || lia)
          | by apply parseUpdate_safe | by apply step_fail ].
Qed.
(** [Write]'s bound on what it keeps for later. *)
Definition save_bounded (d : Decoder) : Prop :=
  0 < maxStrLen d < 2 ^ 40 -> len (saveBuf d) <= 2 * (maxStrLen d + 8).

Lemma Write_loop_safe fuel n d st buf :
  (length buf <= fuel)%nat -> decoder_ok (n + len buf) d -> 0 <= n -> bytes_ok buf -> len buf < 2 ^ 28 ->
  saveBuf d = [] ->
  exists d' st' err, Write_loop emit fuel d st buf = Some (Ok (d', st', err)) /\ decoder_ok n d' /\
    maxStrLen d' = maxStrLen d /\ len (saveBuf d') <= len buf /\ save_bounded d'.
Proof.
  revert d st buf. induction fuel as [|fuel IH]; intros d st buf Hf Hd Hn Hb Hl Hs.
  { destruct buf; simpl in Hf; [|lia]. exists d, st, None. split; [done|].
    unfold save_bounded. rewrite Hs. change (len (@nil Z)) with 0. split_and!; try done; try lia.
    eapply decoder_ok_weaken; [done|]. rewrite Z.add_0_r. done. }
  destruct (decide (buf = [])) as [->|Hne].
  { exists d, st, None. unfold save_bounded. rewrite Hs. change (len (@nil Z)) with 0.
    split_and!; try done; try lia. eapply decoder_ok_weaken; [done|]. rewrite Z.add_0_r. done. }
  assert (Hlen : 0 < len buf) by (destruct buf; [done|]; rewrite len_cons; pose proof (len_nonneg buf); lia).
  destruct (parseRepr_safe (n + len buf - 1) d st buf Hne) as (d1 & st1 & b1 & err & Hp & Hd1 & Hs1 & Hm1 & Hr);
    [by replace (n + len buf - 1 + 1) with (n + len buf) by lia|lia|done|done|].
  assert (Hd1n : decoder_ok n d1) by (eapply decoder_ok_weaken; [done|lia]).
  assert (Hloop : Write_loop emit (S fuel) d st buf =
    match err with
    | None => Write_loop emit fuel d1 st1 b1
    | Some errNeedMore =>
        if negb (maxStrLen d1 =? 0) && (i64 (2 * (maxStrLen d1 + 8)) <? len b1) then
          Some (Ok (d1, st1, Some ErrStringLength))
        else Some (Ok (with_saveBuf (saveBuf d1 ++ b1) d1, st1, None))
    | Some e => Some (Ok (d1, st1, Some e))
    end).
  { destruct buf as [|b buf]; [done|]. cbn [Write_loop]. rewrite Hp. by destruct err as [[]|]. }
  rewrite Hloop. clear Hloop. unfold save_bounded. rewrite Hs in Hs1.
  destruct err as [e|].
  - destruct Hr as [Hb1 Hl1].
    assert (Hnosave : exists d' st' err, Some (Ok (d1, st1, Some e)) =
      (Some (Ok (d', st', err)) : option (hp (Decoder * St * option hpack_error))) /\ decoder_ok n d' /\
      maxStrLen d' = maxStrLen d /\ len (saveBuf d') <= len buf /\
      (0 < maxStrLen d' < 2 ^ 40 -> len (saveBuf d') <= 2 * (maxStrLen d' + 8))).
    { exists d1, st1, (Some e). rewrite Hs1. change (len (@nil Z)) with 0. split_and!; try done; lia. }
    destruct e; try exact Hnosave. clear Hnosave.
    destruct (negb (maxStrLen d1 =? 0) && (i64 (2 * (maxStrLen d1 + 8)) <? len b1)) eqn:Hcap.
    + exists d1, st1, (Some ErrStringLength). rewrite Hs1. change (len (@nil Z)) with 0. split_and!; try done; lia.
    + exists (with_saveBuf (saveBuf d1 ++ b1) d1), st1, None. simpl. rewrite Hs1. cbn [app].
      split_and!; try done; try lia.
      * destruct Hd1n. by split.
      * intros Hms. rewrite i64_id in Hcap by lia. lia.
  - destruct (consumed_ok _ _ Hr Hb) as [Hb1 Hl1].
    destruct (IH d1 st1 b1) as (d2 & st2 & err2 & H2 & Hd2 & Hm2 & Hsv & Hsb); try done.
    + unfold len in *. lia.
    + eapply decoder_ok_weaken; [exact Hd1|lia].
    + lia.
    + exists d2, st2, err2. split_and!; try done; [congruence|lia].
Qed.

Lemma Write_safe n d st p :
  decoder_ok (n + len (saveBuf d ++ p)) d -> 0 <= n -> bytes_ok p -> len (saveBuf d ++ p) < 2 ^ 28 ->
  exists d' st' err, Write emit d st p = Some (Ok (d', st', err)) /\ decoder_ok n d' /\
    maxStrLen d' = maxStrLen d /\ len (saveBuf d') <= len (saveBuf d ++ p) /\
    (save_bounded d -> save_bounded d').
Proof.
  intros Hd Hn Hp Hl. unfold Write. pose proof (len_nonneg (saveBuf d ++ p)).
  destruct (Z.eqb_spec (len p) 0) as [Hz|].
  { exists d, st, None. split_and!; try done; [|rewrite len_app; lia].
    eapply decoder_ok_weaken; [done|lia]. }
  pose proof (do_save _ _ Hd) as Hsv.
  destruct (Write_loop_safe (length (saveBuf d ++ p)) n (with_saveBuf [] d) st (saveBuf d ++ p))
    as (d' & st' & err & HW & Hd' & Hm & Hs & Hsb); try done.
  - destruct Hd. split; try done. constructor.
  - by apply bytes_ok_app.
  - exists d', st', err. by split_and!.
Qed.
End safe.

(** C8. The decoder withstands any input. From a well-formed decoder, [Write]
    on arbitrary bytes, with whatever callback, returns without panicking (with
    fuel to spare), leaves the decoder well formed even when it reports an
    error, and, when a string limit is set, never saves more than
    [2 * (maxStrLen + 8)] bytes of an incomplete field. *)
Theorem Write_total {St} (emit : HeaderField -> St -> St * bool) n d st p :
  decoder_ok (n + len (saveBuf d ++ p)) d -> 0 <= n -> bytes_ok p -> len (saveBuf d ++ p) < 2 ^ 28 ->
  exists d' st' err, Write emit d st p = Some (Ok (d', st', err)) /\ decoder_ok n d' /\
    len (saveBuf d') <= len (saveBuf d ++ p) /\ (save_bounded d -> save_bounded d').
Proof.
  intros Hd Hn Hp Hl.
  destruct (Write_safe emit n d st p Hd Hn Hp Hl) as (d' & st' & err & ? & ? & _ & ? & ?).
  by exists d', st', err.
Qed.

Definition small_decoder : Decoder := mkDec (mkDyn table_init 0 4096 4096) true 16 [].

Lemma small_decoder_ok n : n < 2 ^ 59 -> decoder_ok n small_decoder.
Proof.
  intros Hn. split; simpl.
  - split; [apply table_init_ok|done..].
  - lia.
  - unfold table_len. simpl. change (len (@nil HeaderField)) with 0. lia.
  - constructor.
  - constructor.
Qed.

Lemma Write_total_witness :
  exists d' st' err, Write collect small_decoder [] [0x40; 0x8f; 0xff] = Some (Ok (d', st', err)) /\
    decoder_ok 5 d' /\ len (saveBuf d') <= len (saveBuf small_decoder ++ [0x40; 0x8f; 0xff]) /\
    (save_bounded small_decoder -> save_bounded d').
Proof.
  apply (Write_total collect 5 small_decoder [] [0x40; 0x8f; 0xff]).
  - apply small_decoder_ok. by vm_compute.
  - done.
  - apply (bool_decide_unpack _). vm_compute. exact I.
  - by vm_compute.
Defined.
