(* ===== verification/Httplex.v ===== *)
(** Lexical rules of HTTP: [lex/httplex/httplex.go] (without
    [PunycodeHostPort], which needs [net] and [idna]) and
    [validWireHeaderFieldName] of [http2/http2.go]. *)
From S2P Require Import Prelude Utf8.

(** * Tables *)

(** The table with [true] at the bytes of [s]. *)
Definition bool_table (n : Z) (s : bytes) : list bool :=
  (fun i => existsb (Z.eqb i) s) <$> seqZ 0 n.

Definition isTokenTable : list bool :=
  bool_table 127
    (str "!#$%&'*+-.0123456789ABCDEFGHIJKLMNOPQRSTUWVXYZ^_`abcdefghijklmnopqrstuvwxyz|~").

Definition validHostByte : list bool :=
  bool_table 256
    (str "0123456789abcdefghijklmnopqrstuvwxyzABCDEFGHIJKLMNOPQRSTUVWXYZ!$%&()*+,-.:;=['_~" ++ str "]").

(** The index is in range for the runes of a string, which are not negative. *)
Definition IsTokenRune (r : Z) : bool :=
  (r <? len isTokenTable) && default false (at_ isTokenTable r).

Definition isNotToken (r : Z) : bool := negb (IsTokenRune r).

(** * Tokens in header values *)

Definition isOWS (b : Z) : bool := (b =? 32) || (b =? 9).

(** The two loops of [trimOWS]. *)
Fixpoint trim_left (x : bytes) : bytes :=
  match x with
  | b :: x' => if isOWS b then trim_left x' else x
  | [] => []
  end.

Definition trim_right (x : bytes) : bytes := rev (trim_left (rev x)).

Definition trimOWS (x : bytes) : bytes := trim_right (trim_left x).

Definition lowerASCII (b : Z) : Z := if (65 <=? b) && (b <=? 90) then u8 (b + 32) else b.

(** The loop of [tokenEqual] over the runes of [t1]; [t2[i]] is in range, the
    strings having the same length. *)
Fixpoint token_loop (rs : list (Z * Z)) (t2 : bytes) : bool :=
  match rs with
  | [] => true
  | (i, b) :: rs =>
      if RuneSelf <=? b then false
      else match at_ t2 i with
           | Some c => if negb (lowerASCII (u8 b) =? lowerASCII c) then false else token_loop rs t2
           | None => false
           end
  end.

Definition tokenEqual (t1 t2 : bytes) : bool :=
  if negb (len t1 =? len t2) then false else token_loop (range_runes t1) t2.

(** [strings.IndexByte], as the parts before and after the first [c]. *)
Fixpoint cut (c : Z) (s : bytes) : option (bytes * bytes) :=
  match s with
  | [] => None
  | b :: s' => if b =? c then Some ([], s') else
      match cut c s' with Some (x, y) => Some (b :: x, y) | None => None end
  end.

(** Every call is on a shorter string: [length v + 1] is enough fuel. *)
Fixpoint contains_token (fuel : nat) (v token : bytes) : option bool :=
  match fuel with
  | O => None
  | S fuel' =>
      let v := trimOWS v in
      match cut 44 v with
      | Some (before, after) =>
          if tokenEqual (trimOWS before) token then Some true else contains_token fuel' after token
      | None => Some (tokenEqual v token)
      end
  end.

Definition headerValueContainsToken (v token : bytes) : option bool :=
  contains_token (S (length v)) v token.

Fixpoint HeaderValuesContainsToken (values : list bytes) (token : bytes) : option bool :=
  match values with
  | [] => Some false
  | v :: values =>
      b ← headerValueContainsToken v token;
      if (b : bool) then Some true else HeaderValuesContainsToken values token
  end.

(** * Validity of names, values and hosts *)

Definition isLWS (b : Z) : bool := (b =? 32) || (b =? 9).
Definition isCTL (b : Z) : bool := (b <? 32) || (b =? 0x7f).

Definition ValidHeaderFieldName (v : bytes) : bool :=
  if len v =? 0 then false else forallb IsTokenRune (runes v).

Definition ValidHostHeader (h : bytes) : bool :=
  forallb (fun b => default false (at_ validHostByte b)) h.

Definition ValidHeaderFieldValue (v : bytes) : bool :=
  forallb (fun b => negb (isCTL b && negb (isLWS b))) v.

Definition isASCII (s : bytes) : bool := forallb (fun b => negb (RuneSelf <=? b)) s.

Definition validWireHeaderFieldName (v : bytes) : bool :=
  if len v =? 0 then false
  else forallb (fun r => IsTokenRune r && negb ((65 <=? r) && (r <=? 90))) (runes v).

(** * Names *)

Lemma IsTokenRune_ascii r : RuneSelf <= r -> IsTokenRune r = false.
Proof.
  unfold IsTokenRune, RuneSelf. intros. change (len isTokenTable) with 127.
  by rewrite (proj2 (Z.ltb_ge _ _)) by lia.
Qed.

(** The bytes allowed in a token (RFC 7230, 3.2.6). *)
Definition tchar (b : Z) : Prop :=
  48 <= b <= 57 \/ 65 <= b <= 90 \/ 97 <= b <= 122 \/ b ∈ str "!#$%&'*+-.^_`|~".

#[global] Instance tchar_dec b : Decision (tchar b).
Proof. unfold tchar. apply _. Defined.

Lemma IsTokenRune_tchar b : byte_ok b -> IsTokenRune b = bool_decide (tchar b).
Proof.
  intros Hb. apply eqb_prop. revert b Hb. apply byte_forall. by vm_compute.
Qed.

Lemma ValidHeaderFieldName_spec v : bytes_ok v ->
  ValidHeaderFieldName v = true <-> v <> [] /\ Forall tchar v.
Proof.
  intros Hv. unfold ValidHeaderFieldName. destruct v as [|b v]; [naive_solver|].
  rewrite len_cons, (proj2 (Z.eqb_neq _ _)) by (pose proof (len_nonneg v); lia).
  rewrite forallb_runes by (done || apply IsTokenRune_ascii).
  rewrite forallb_forall, Forall_forall. setoid_rewrite <- list_elem_of_In.
  unfold bytes_ok in Hv. rewrite Forall_forall in Hv.
  split; [intros H; split; [done|]|intros [_ H]]; intros x Hx; specialize (H x Hx).
  - rewrite IsTokenRune_tchar in H by auto. by apply bool_decide_eq_true in H.
  - rewrite IsTokenRune_tchar by auto. by apply bool_decide_eq_true.
Qed.

Lemma validWire_spec v : bytes_ok v ->
  validWireHeaderFieldName v = true <-> v <> [] /\ Forall (fun b => tchar b /\ ~ 65 <= b <= 90) v.
Proof.
  intros Hv. unfold validWireHeaderFieldName. destruct v as [|b v]; [naive_solver|].
  rewrite len_cons, (proj2 (Z.eqb_neq _ _)) by (pose proof (len_nonneg v); lia).
  rewrite forallb_runes; [|intros r Hr; by rewrite IsTokenRune_ascii|done].
  rewrite forallb_forall, Forall_forall. setoid_rewrite <- list_elem_of_In.
  unfold bytes_ok in Hv. rewrite Forall_forall in Hv.
  split; [intros H; split; [done|]|intros [_ H]]; intros x Hx; specialize (H x Hx);
    rewrite ?andb_true_iff, ?negb_true_iff, IsTokenRune_tchar, bool_decide_eq_true in * by auto.
  - destruct H as [? H]. split; [done|]. apply andb_false_iff in H. lia.
  - destruct H as [? H]. split; [done|]. apply andb_false_iff. lia.
Qed.

(** * Case-insensitive equality *)

Lemma token_loop_spec fuel s pre rest :
  (length s <= fuel)%nat -> length s = length rest -> bytes_ok s ->
  token_loop (runes_from fuel (len pre) s) (pre ++ rest) = true <->
    Forall ascii s /\ lowerASCII <$> s = lowerASCII <$> rest.
Proof.
  revert s pre rest. induction fuel as [|fuel IH]; intros [|b s] pre [|c rest] Hl Hlen Hs;
    simpl in Hl, Hlen; try lia; try done; [split; done..|].
  apply Forall_cons in Hs as [Hb Hs]. cbn [runes_from].
  destruct (Z.lt_ge_cases b RuneSelf) as [Hlo|Hhi].
  - rewrite decode_rune_ascii by done. cbn [drop token_loop]. rewrite drop_0.
    rewrite (proj2 (Z.leb_gt _ _)) by done.
    assert (Hat : at_ (pre ++ c :: rest) (len pre) = Some c).
    { unfold at_, len. rewrite decide_True by lia. rewrite Nat2Z.id. by apply list_lookup_middle. }
    rewrite Hat. unfold u8. rewrite wrap_id by exact Hb.
    replace (len pre + Z.of_nat 1) with (len (pre ++ [c])) by (rewrite len_app; done).
    replace (pre ++ c :: rest) with ((pre ++ [c]) ++ rest) by (by rewrite <- app_assoc).
    specialize (IH s (pre ++ [c]) rest ltac:(lia) ltac:(lia) Hs).
    destruct (Z.eqb_spec (lowerASCII b) (lowerASCII c)) as [He|Hne]; cbn [negb].
    + rewrite IH, !fmap_cons, He. unfold ascii. rewrite Forall_cons.
      unfold byte_ok, in_width in Hb. split; [intros [? ->]; done || (split; [|done]); split; [lia|done]|].
      intros [[_ ?] Hc]. by injection Hc.
    + split; [done|]. rewrite !fmap_cons. intros [_ Hc]. by injection Hc.
  - pose proof (decode_rune_high b s Hb Hhi) as Hr. destruct (decode_rune b s) as [r w]. cbn [token_loop].
    simpl in Hr. rewrite (proj2 (Z.leb_le _ _)) by done. split; [done|].
    intros [Hf _]. apply Forall_cons in Hf as [[_ ?] _]. lia.
Qed.

Lemma tokenEqual_spec t1 t2 : bytes_ok t1 ->
  tokenEqual t1 t2 = true <-> Forall ascii t1 /\ lowerASCII <$> t1 = lowerASCII <$> t2.
Proof.
  intros Ht. unfold tokenEqual. destruct (Z.eqb_spec (len t1) (len t2)) as [He|Hne]; cbn [negb].
  - apply (token_loop_spec (length t1) t1 [] t2); [lia|unfold len in He; lia|done].
  - split; [done|]. intros [_ H]. apply (f_equal length) in H. rewrite !length_fmap in H.
    unfold len in Hne. lia.
Qed.

(** * Comma-separated lists *)

Fixpoint split_at (c : Z) (s : bytes) : list bytes :=
  match s with
  | [] => [[]]
  | b :: s' =>
      if b =? c then [] :: split_at c s'
      else match split_at c s' with
           | x :: l => (b :: x) :: l
           | [] => [[b]]
           end
  end.

Definition ows (l : bytes) : Prop := Forall (fun b => isOWS b = true) l.

Lemma trim_left_ows l x : ows l -> trim_left (l ++ x) = trim_left x.
Proof. induction 1 as [|b l Hb _ IH]; [done|]. simpl. by rewrite Hb. Qed.

Lemma trim_right_ows r x : ows r -> trim_right (x ++ r) = trim_right x.
Proof.
  intros Hr. unfold trim_right. rewrite rev_app_distr, trim_left_ows; [done|].
  by apply List.Forall_rev.
Qed.

Lemma trim_left_decomp x : exists l, ows l /\ x = l ++ trim_left x.
Proof.
  induction x as [|b x (l & Hl & Hx)]; [exists []; split; [constructor|done]|]. simpl. destruct (isOWS b) eqn:Hb; [|exists []; split; [constructor|done]].
  exists (b :: l). split; [by constructor|]. simpl. by rewrite <- Hx.
Qed.

Lemma trim_left_app e r : ows r -> trim_left (e ++ r) = trim_left e ++ r \/
  (trim_left e = [] /\ trim_left (e ++ r) = []).
Proof.
  intros Hr. induction e as [|b e IH]; simpl.
  - right. split; [done|]. rewrite <- (app_nil_r r). by rewrite trim_left_ows.
  - destruct (isOWS b); [done|by left].
Qed.

Lemma trimOWS_app l e r : ows l -> ows r -> trimOWS (l ++ e ++ r) = trimOWS e.
Proof.
  intros Hl Hr. unfold trimOWS. rewrite trim_left_ows by done.
  destruct (trim_left_app e r Hr) as [->|[-> ->]]; [by apply trim_right_ows|done].
Qed.

Lemma trimOWS_decomp x : exists l r, ows l /\ ows r /\ x = l ++ trimOWS x ++ r.
Proof.
  destruct (trim_left_decomp x) as (l & Hl & Hx).
  destruct (trim_left_decomp (rev (trim_left x))) as (r & Hr & Hy).
  exists l, (rev r). split; [done|]. split; [by apply List.Forall_rev|].
  unfold trimOWS, trim_right. rewrite <- rev_app_distr, <- Hy, rev_involutive. done.
Qed.

Lemma split_at_nonempty c s : exists x l, split_at c s = x :: l.
Proof. destruct s as [|b s]; simpl; [eauto|]. repeat case_match; eauto. Qed.

Lemma split_at_cut c s x y : cut c s = Some (x, y) -> split_at c s = x :: split_at c y.
Proof.
  revert x. induction s as [|b s IH]; intros x Hc; simpl in *; [done|].
  destruct (b =? c); [by simplify_eq|].
  destruct (cut c s) as [[x' y']|]; simplify_eq. by rewrite (IH x' eq_refl).
Qed.

Lemma split_at_uncut c s : cut c s = None -> split_at c s = [s].
Proof.
  induction s as [|b s IH]; intros Hc; simpl in *; [done|]. destruct (b =? c); [done|].
  destruct (cut c s) as [[]|]; [done|]. by rewrite IH.
Qed.

Lemma cut_length c s x y : cut c s = Some (x, y) -> (length y < length s)%nat.
Proof.
  revert x. induction s as [|b s IH]; intros x Hc; simpl in *; [done|].
  destruct (b =? c); [simplify_eq; lia|]. destruct (cut c s) as [[x' y']|]; simplify_eq.
  specialize (IH x' eq_refl). lia.
Qed.

Lemma ows_not_comma b : isOWS b = true -> (b =? 44) = false.
Proof. unfold isOWS. lia. Qed.

Definition elements_ok (token : bytes) (es : list bytes) : bool :=
  existsb (fun e => tokenEqual (trimOWS e) token) es.

(** Optional whitespace around the list changes nothing. *)
Lemma elements_left token l v : ows l ->
  elements_ok token (split_at 44 (l ++ v)) = elements_ok token (split_at 44 v).
Proof.
  induction 1 as [|b l Hb Hl IH]; [done|]. cbn [app split_at]. rewrite ows_not_comma by done.
  destruct (split_at_nonempty 44 (l ++ v)) as (x & es & Hs). rewrite <- IH, Hs.
  unfold elements_ok. cbn [existsb]. do 2 f_equal.
  pose proof (trimOWS_app [b] x [] ltac:(by constructor) ltac:(by constructor)) as Ht.
  by rewrite app_nil_r in Ht.
Qed.

Lemma elements_right token v r : ows r ->
  elements_ok token (split_at 44 (v ++ r)) = elements_ok token (split_at 44 v).
Proof.
  intros Hr. assert (Huncut : cut 44 r = None).
  { induction Hr as [|b r Hb _ IH]; [done|]. simpl. by rewrite ows_not_comma, IH. }
  assert (H : exists es x, split_at 44 v = es ++ [x] /\ split_at 44 (v ++ r) = es ++ [x ++ r]).
  { clear token. induction v as [|b v (es & x & H1 & H2)].
    - exists [], []. split; [done|]. by apply split_at_uncut.
    - cbn [app split_at]. rewrite H1, H2. destruct (b =? 44); [by exists ([] :: es), x|].
      destruct es as [|e es]; [by exists [], (b :: x)|by exists ((b :: e) :: es), x]. }
  destruct H as (es & x & -> & ->). unfold elements_ok. rewrite !existsb_app. f_equal. cbn [existsb].
  pose proof (trimOWS_app [] x r ltac:(by constructor) Hr) as Ht. cbn [app] in Ht. by rewrite Ht.
Qed.

Lemma contains_token_ok fuel v token : (length v < fuel)%nat ->
  contains_token fuel v token = Some (elements_ok token (split_at 44 v)).
Proof.
  revert v. induction fuel as [|fuel IH]; intros v Hf; [lia|]. cbn [contains_token].
  destruct (trimOWS_decomp v) as (l & r & Hl & Hr & Hv).
  assert (Hrhs : elements_ok token (split_at 44 v) = elements_ok token (split_at 44 (trimOWS v)))
    by (rewrite Hv at 1; by rewrite elements_left, elements_right). rewrite Hrhs.
  destruct (cut 44 (trimOWS v)) as [[before after]|] eqn:Hc.
  - rewrite (split_at_cut _ _ _ _ Hc). unfold elements_ok. cbn [existsb].
    destruct (tokenEqual (trimOWS before) token); [done|]. simpl. apply IH.
    apply cut_length in Hc. apply (f_equal length) in Hv. rewrite !length_app in Hv. lia.
  - rewrite (split_at_uncut _ _ Hc). unfold elements_ok. cbn [existsb]. rewrite orb_false_r.
    do 2 f_equal. rewrite Hv at 1. rewrite trimOWS_app by done. done.
Qed.

Lemma trimOWS_bytes e : bytes_ok e -> bytes_ok (trimOWS e).
Proof.
  intros He. destruct (trimOWS_decomp e) as (l & r & _ & _ & Heq). rewrite Heq in He.
  by apply bytes_ok_app in He as [_ [? _]%bytes_ok_app].
Qed.

Lemma split_at_bytes c s e : bytes_ok s -> e ∈ split_at c s -> bytes_ok e.
Proof.
  intros Hs. revert e. induction Hs as [|b s Hb Hs IH]; intros e; simpl.
  { intros ->%list_elem_of_singleton. constructor. }
  destruct (b =? c).
  - intros [->|He]%elem_of_cons; [constructor|auto].
  - destruct (split_at_nonempty c s) as (x & l & Hsplit). rewrite Hsplit in *.
    intros [->|He]%elem_of_cons; [constructor; [done|]; apply IH, list_elem_of_here|].
    apply IH. by apply list_elem_of_further.
Qed.

Lemma elements_ok_spec token v : bytes_ok v ->
  elements_ok token (split_at 44 v) = true <->
    exists e, e ∈ split_at 44 v /\ Forall ascii (trimOWS e) /\ lowerASCII <$> trimOWS e = lowerASCII <$> token.
Proof.
  intros Hv. unfold elements_ok. rewrite existsb_exists. setoid_rewrite <- list_elem_of_In.
  split; intros (e & He & Ht); exists e; (split; [done|]).
  - rewrite tokenEqual_spec in Ht; [done|]. by eapply trimOWS_bytes, split_at_bytes.
  - rewrite tokenEqual_spec; [done|]. by eapply trimOWS_bytes, split_at_bytes.
Qed.

(** * Properties *)

(** [HeaderValuesContainsToken] always returns, and says whether one of
    the comma-separated elements of one of the values, without the white space
    around it, equals the token up to the case of ASCII letters. *)
Lemma HeaderValuesContainsToken_spec values token : Forall bytes_ok values ->
  exists b, HeaderValuesContainsToken values token = Some b /\
    (b = true <-> exists v e, v ∈ values /\ e ∈ split_at 44 v /\
       Forall ascii (trimOWS e) /\ lowerASCII <$> trimOWS e = lowerASCII <$> token).
Proof.
  induction 1 as [|v values Hv _ (b & Hb & IH)].
  { exists false. split; [done|]. split; [done|]. intros (v & e & Hin & _). by apply elem_of_nil in Hin. }
  cbn [HeaderValuesContainsToken]. unfold headerValueContainsToken.
  rewrite contains_token_ok by lia. cbn [mbind option_bind].
  pose proof (elements_ok_spec token v Hv) as Hspec.
  destruct (elements_ok token (split_at 44 v)).
  - exists true. split; [done|]. split; [|done]. intros _. destruct (proj1 Hspec eq_refl) as (e & He & Heq).
    exists v, e. split; [apply list_elem_of_here|done].
  - exists b. split; [done|]. rewrite IH. split.
    + intros (v' & e & Hin & ?). exists v', e. split; [by apply list_elem_of_further|done].
    + intros (v' & e & Hin & He & Heq). apply elem_of_cons in Hin as [->|Hin]; [|by exists v', e].
      destruct Hspec as [_ Hf]. specialize (Hf (ex_intro _ e (conj He Heq))). done.
Qed.

Lemma HeaderValuesContainsToken_spec_witness :
  Forall bytes_ok [str "a,  CLOSE "] /\
  exists b, HeaderValuesContainsToken [str "a,  CLOSE "] (str "close") = Some b /\
    (b = true <-> exists v e, v ∈ [str "a,  CLOSE "] /\ e ∈ split_at 44 v /\
       Forall ascii (trimOWS e) /\ lowerASCII <$> trimOWS e = lowerASCII <$> str "close").
Proof.
  assert (H : Forall bytes_ok [str "a,  CLOSE "]) by (apply (bool_decide_unpack _); vm_compute; exact I).
  split; [exact H|]. exact (HeaderValuesContainsToken_spec _ (str "close") H).
Defined.

(** [ValidHeaderFieldName] accepts exactly the non-empty strings of token
    characters of RFC 7230, and [validWireHeaderFieldName] those among them
    without an upper-case letter, although both look at runes, not bytes. *)
Lemma header_field_names v : bytes_ok v ->
  (ValidHeaderFieldName v = true <-> v <> [] /\ Forall tchar v) /\
  (validWireHeaderFieldName v = true <-> v <> [] /\ Forall (fun b => tchar b /\ ~ 65 <= b <= 90) v).
Proof. intros Hv. split; [by apply ValidHeaderFieldName_spec|by apply validWire_spec]. Qed.

Lemma header_field_names_witness :
  bytes_ok (str "Accept") /\
  (ValidHeaderFieldName (str "Accept") = true <-> str "Accept" <> [] /\ Forall tchar (str "Accept")) /\
  (validWireHeaderFieldName (str "Accept") = true <->
     str "Accept" <> [] /\ Forall (fun b => tchar b /\ ~ 65 <= b <= 90) (str "Accept")).
Proof.
  assert (H : bytes_ok (str "Accept")) by (apply (bool_decide_unpack _); vm_compute; exact I).
  split; [exact H|]. exact (header_field_names _ H).
Defined.
