(* ===== verification/Http2Errors.v ===== *)
(** HTTP/2 error codes and errors ([http2/errors.go]) and settings
    ([http2/http2.go]). *)
From stdpp Require Import pretty.
From S2P Require Import Prelude.

(** [fmt.Sprintf("%d", n)] for a non-negative integer, and string
    concatenation. *)
Definition fmt_d (n : Z) : bytes := str (pretty (Z.to_N n)).

Definition hex_digit (d : Z) : Z := if d <? 10 then 48 + d else 87 + d.

(** [fmt.Sprintf("%x", n)]; a 64-bit integer has at most 16 digits. *)
Fixpoint hex_digits (fuel : nat) (n : Z) (acc : bytes) : bytes :=
  match fuel with
  | O => acc
  | S fuel' =>
      let acc := hex_digit (n mod 16) :: acc in
      if n / 16 =? 0 then acc else hex_digits fuel' (n / 16) acc
  end.
Definition fmt_x (n : Z) : bytes := hex_digits 16 n [].

(** * Error codes *)

Definition ErrCodeNo : Z := 0x0.
Definition ErrCodeProtocol : Z := 0x1.
Definition ErrCodeInternal : Z := 0x2.
Definition ErrCodeFlowControl : Z := 0x3.
Definition ErrCodeSettingsTimeout : Z := 0x4.
Definition ErrCodeStreamClosed : Z := 0x5.
Definition ErrCodeFrameSize : Z := 0x6.
Definition ErrCodeRefusedStream : Z := 0x7.
Definition ErrCodeCancel : Z := 0x8.
Definition ErrCodeCompression : Z := 0x9.
Definition ErrCodeConnect : Z := 0xa.
Definition ErrCodeEnhanceYourCalm : Z := 0xb.
Definition ErrCodeInadequateSecurity : Z := 0xc.
Definition ErrCodeHTTP11Required : Z := 0xd.

(** A Go map literal with integer keys. *)
Fixpoint assoc (k : Z) (l : list (Z * bytes)) : option bytes :=
  match l with
  | [] => None
  | (k', v) :: l => if k =? k' then Some v else assoc k l
  end.

Definition errCodeName : list (Z * bytes) :=
  [(ErrCodeNo, str "NO_ERROR"); (ErrCodeProtocol, str "PROTOCOL_ERROR");
   (ErrCodeInternal, str "INTERNAL_ERROR"); (ErrCodeFlowControl, str "FLOW_CONTROL_ERROR");
   (ErrCodeSettingsTimeout, str "SETTINGS_TIMEOUT"); (ErrCodeStreamClosed, str "STREAM_CLOSED");
   (ErrCodeFrameSize, str "FRAME_SIZE_ERROR"); (ErrCodeRefusedStream, str "REFUSED_STREAM");
   (ErrCodeCancel, str "CANCEL"); (ErrCodeCompression, str "COMPRESSION_ERROR");
   (ErrCodeConnect, str "CONNECT_ERROR"); (ErrCodeEnhanceYourCalm, str "ENHANCE_YOUR_CALM");
   (ErrCodeInadequateSecurity, str "INADEQUATE_SECURITY");
   (ErrCodeHTTP11Required, str "HTTP_1_1_REQUIRED")].

Definition ErrCode_String (e : Z) : bytes :=
  match assoc e errCodeName with
  | Some s => s
  | None => str "unknown error code 0x" ++ fmt_x e
  end.

(** * Errors

    The causes a [StreamError] of the frame reader carries. *)
Inductive header_error :=
| pseudoHeaderError (name : bytes)
| duplicatePseudoHeaderError (name : bytes)
| headerFieldNameError (name : bytes)
| headerFieldValueError (value : bytes)
| errMixPseudoHeaderTypes
| errPseudoAfterRegular.

#[global] Instance header_error_eq_dec : EqDecision header_error.
Proof. solve_decision. Defined.

Inductive http2_error :=
| ConnectionError (code : Z)
| StreamError (StreamID Code : Z) (Cause : option header_error)
| connError (Code : Z) (Reason : bytes)
| ErrFrameTooLarge
| EOF
| ErrUnexpectedEOF
| errIllegalMetaHeaders
| errStreamID
| errDepStreamID
| errPadLength
| errPadBytes
| errWindowIncrement.

#[global] Instance http2_error_eq_dec : EqDecision http2_error.
Proof. solve_decision. Defined.

Definition streamError (id code : Z) : http2_error := StreamError id code None.

(** The [Error] methods whose text has no quoted string. *)
Definition ConnectionError_Error (code : Z) : bytes := str "connection error: " ++ ErrCode_String code.
Definition connError_Error (code : Z) (reason : bytes) : bytes :=
  str "http2: connection error: " ++ ErrCode_String code ++ str ": " ++ reason.

(** * Settings *)

Record Setting := mkSetting { ID : Z; Val : Z }.

Definition SettingHeaderTableSize : Z := 0x1.
Definition SettingEnablePush : Z := 0x2.
Definition SettingMaxConcurrentStreams : Z := 0x3.
Definition SettingInitialWindowSize : Z := 0x4.
Definition SettingMaxFrameSize : Z := 0x5.
Definition SettingMaxHeaderListSize : Z := 0x6.

Definition settingName : list (Z * bytes) :=
  [(SettingHeaderTableSize, str "HEADER_TABLE_SIZE"); (SettingEnablePush, str "ENABLE_PUSH");
   (SettingMaxConcurrentStreams, str "MAX_CONCURRENT_STREAMS");
   (SettingInitialWindowSize, str "INITIAL_WINDOW_SIZE"); (SettingMaxFrameSize, str "MAX_FRAME_SIZE");
   (SettingMaxHeaderListSize, str "MAX_HEADER_LIST_SIZE")].

Definition SettingID_String (s : Z) : bytes :=
  match assoc s settingName with
  | Some v => v
  | None => str "UNKNOWN_SETTING_" ++ fmt_d s
  end.

Definition Setting_String (s : Setting) : bytes :=
  str "[" ++ SettingID_String (ID s) ++ str " = " ++ fmt_d (Val s) ++ str "]".

(** [Setting.Valid]: the error, or [None] for nil. *)
Definition Setting_Valid (s : Setting) : option http2_error :=
  if ID s =? SettingEnablePush then
    if negb (Val s =? 1) && negb (Val s =? 0) then Some (ConnectionError ErrCodeProtocol) else None
  else if ID s =? SettingInitialWindowSize then
    if 2 ^ 31 - 1 <? Val s then Some (ConnectionError ErrCodeFlowControl) else None
  else if ID s =? SettingMaxFrameSize then
    if (Val s <? 16384) || (2 ^ 24 - 1 <? Val s) then Some (ConnectionError ErrCodeProtocol) else None
  else None.

(** * Small helpers of [http2.go] *)

Inductive streamState := stateIdle | stateOpen | stateHalfClosedLocal | stateHalfClosedRemote | stateClosed.

#[global] Instance streamState_eq_dec : EqDecision streamState.
Proof. solve_decision. Defined.

Definition streamState_String (st : streamState) : bytes :=
  match st with
  | stateIdle => str "Idle"
  | stateOpen => str "Open"
  | stateHalfClosedLocal => str "HalfClosedLocal"
  | stateHalfClosedRemote => str "HalfClosedRemote"
  | stateClosed => str "Closed"
  end.

Definition mustUint31 (v : Z) : outcome http2_error Z :=
  if (v <? 0) || (2147483647 <? v) then Panic else Ok (u32 v).

Definition bodyAllowedForStatus (status : Z) : bool :=
  if (100 <=? status) && (status <=? 199) then false
  else if status =? 204 then false
  else if status =? 304 then false
  else true.

Definition validPseudoPath (v : bytes) : bool :=
  (match v with b :: _ => b =? 47 | [] => false end) || bool_decide (v = str "*").
