(* ===== verification/Http2Frame.v ===== *)
(** HTTP/2 frames: [http2/frame.go] without logging and frame reuse. *)
From S2P Require Import Prelude Httplex Http2Errors HpackVarint HpackTables HpackHuffman HpackDecoder.

(** * Frame types and flags *)

Definition frameHeaderLen : Z := 9.

Definition FrameData : Z := 0x0.
Definition FrameHeaders : Z := 0x1.
Definition FramePriority : Z := 0x2.
Definition FrameRSTStream : Z := 0x3.
Definition FrameSettings : Z := 0x4.
Definition FramePushPromise : Z := 0x5.
Definition FramePing : Z := 0x6.
Definition FrameGoAway : Z := 0x7.
Definition FrameWindowUpdate : Z := 0x8.
Definition FrameContinuation : Z := 0x9.

Definition frameName : list (Z * bytes) :=
  [(FrameData, str "DATA"); (FrameHeaders, str "HEADERS"); (FramePriority, str "PRIORITY");
   (FrameRSTStream, str "RST_STREAM"); (FrameSettings, str "SETTINGS");
   (FramePushPromise, str "PUSH_PROMISE"); (FramePing, str "PING"); (FrameGoAway, str "GOAWAY");
   (FrameWindowUpdate, str "WINDOW_UPDATE"); (FrameContinuation, str "CONTINUATION")].

Definition FrameType_String (t : Z) : bytes :=
  match assoc t frameName with
  | Some s => s
  | None => str "UNKNOWN_FRAME_TYPE_" ++ fmt_d t
  end.

(** [Flags.Has]. *)
Definition Has (f v : Z) : bool := Z.land f v =? v.

Definition FlagDataEndStream : Z := 0x1.
Definition FlagDataPadded : Z := 0x8.
Definition FlagHeadersEndStream : Z := 0x1.
Definition FlagHeadersEndHeaders : Z := 0x4.
Definition FlagHeadersPadded : Z := 0x8.
Definition FlagHeadersPriority : Z := 0x20.
Definition FlagSettingsAck : Z := 0x1.
Definition FlagPingAck : Z := 0x1.
Definition FlagContinuationEndHeaders : Z := 0x4.
Definition FlagPushPromiseEndHeaders : Z := 0x4.
Definition FlagPushPromisePadded : Z := 0x8.

(** * Frame headers *)

Record FrameHeader := mkFH {
  valid : bool;
  Type_ : Z;
  Flags : Z;
  Length : Z;
  StreamID : Z }.

Definition flagName (t : Z) : list (Z * bytes) :=
  if t =? FrameData then [(FlagDataEndStream, str "END_STREAM"); (FlagDataPadded, str "PADDED")]
  else if t =? FrameHeaders then
    [(FlagHeadersEndStream, str "END_STREAM"); (FlagHeadersEndHeaders, str "END_HEADERS");
     (FlagHeadersPadded, str "PADDED"); (FlagHeadersPriority, str "PRIORITY")]
  else if t =? FrameSettings then [(FlagSettingsAck, str "ACK")]
  else if t =? FramePing then [(FlagPingAck, str "ACK")]
  else if t =? FrameContinuation then [(FlagContinuationEndHeaders, str "END_HEADERS")]
  else if t =? FramePushPromise then
    [(FlagPushPromiseEndHeaders, str "END_HEADERS"); (FlagPushPromisePadded, str "PADDED")]
  else [].

(** The loop of [writeDebug] over the flag bits. *)
Definition flag_texts (h : FrameHeader) : list bytes :=
  (fun i => match assoc (Z.shiftl 1 i) (flagName (Type_ h)) with
            | Some name => name
            | None => str "0x" ++ fmt_x (Z.shiftl 1 i)
            end)
  <$> filter (fun i => Z.land (Flags h) (Z.shiftl 1 i) <> 0) (seqZ 0 8).

Fixpoint join_with (sep : bytes) (l : list bytes) : bytes :=
  match l with
  | [] => []
  | [x] => x
  | x :: l => x ++ sep ++ join_with sep l
  end.

Definition FrameHeader_writeDebug (h : FrameHeader) : bytes :=
  FrameType_String (Type_ h)
  ++ (if negb (Flags h =? 0) then str " flags=" ++ join_with (str "|") (flag_texts h) else [])
  ++ (if negb (StreamID h =? 0) then str " stream=" ++ fmt_d (StreamID h) else [])
  ++ str " len=" ++ fmt_d (Length h).

Definition FrameHeader_String (h : FrameHeader) : bytes :=
  str "[FrameHeader " ++ FrameHeader_writeDebug h ++ str "]".

Abbreviation h2 A := (outcome http2_error A).

Definition checkValid (h : FrameHeader) : h2 unit := if valid h then Ok tt else Panic.

Definition FrameHeader_invalidate (h : FrameHeader) : FrameHeader :=
  mkFH false (Type_ h) (Flags h) (Length h) (StreamID h).

(** A reader delivers its bytes and then [io.EOF]. [io.ReadFull] of [n] bytes:
    the bytes read and the rest, or the error and the drained reader. *)
Definition read_full (n : Z) (r : bytes) : h2 bytes * bytes :=
  if n <=? len r then (Ok (upto n r), from n r)
  else if (len r =? 0) then (Fail EOF, [])
  else (Fail ErrUnexpectedEOF, []).

Definition readFrameHeader (r : bytes) : h2 FrameHeader * bytes :=
  match read_full frameHeaderLen r with
  | (Ok buf, r') =>
      (b0 ← or_panic (at_ buf 0); b1 ← or_panic (at_ buf 1); b2 ← or_panic (at_ buf 2);
       b3 ← or_panic (at_ buf 3); b4 ← or_panic (at_ buf 4);
       Ok (mkFH true b3 b4 (Z.lor (Z.lor (shl 32 b0 16) (shl 32 b1 8)) b2)
             (Z.land (be_get (upto 4 (from 5 buf))) (2 ^ 31 - 1))), r')
  | (Fail e, r') => (Fail e, r')
  | (Panic, r') => (Panic, r')
  end.

(** * Frames *)

Record PriorityParam := mkPrio { StreamDep : Z; Exclusive : bool; Weight : Z }.

Definition zero_prio : PriorityParam := mkPrio 0 false 0.

Definition PriorityParam_IsZero (p : PriorityParam) : bool :=
  (StreamDep p =? 0) && negb (Exclusive p) && (Weight p =? 0).

Inductive Frame :=
| DataFrame (h : FrameHeader) (data : bytes)
| HeadersFrame (h : FrameHeader) (Priority : PriorityParam) (headerFragBuf : bytes)
| PriorityFrame (h : FrameHeader) (p : PriorityParam)
| RSTStreamFrame (h : FrameHeader) (ErrCode : Z)
| SettingsFrame (h : FrameHeader) (p : bytes)
| PushPromiseFrame (h : FrameHeader) (PromiseID : Z) (headerFragBuf : bytes)
| PingFrame (h : FrameHeader) (Data : bytes)
| GoAwayFrame (h : FrameHeader) (LastStreamID ErrCode : Z) (debugData : bytes)
| WindowUpdateFrame (h : FrameHeader) (Increment : Z)
| ContinuationFrame (h : FrameHeader) (headerFragBuf : bytes)
| UnknownFrame (h : FrameHeader) (p : bytes).

Definition Header (f : Frame) : FrameHeader :=
  match f with
  | DataFrame h _ | HeadersFrame h _ _ | PriorityFrame h _ | RSTStreamFrame h _ | SettingsFrame h _
  | PushPromiseFrame h _ _ | PingFrame h _ | GoAwayFrame h _ _ _ | WindowUpdateFrame h _
  | ContinuationFrame h _ | UnknownFrame h _ => h
  end.

Definition invalidate (f : Frame) : Frame :=
  match f with
  | DataFrame h d => DataFrame (FrameHeader_invalidate h) d
  | HeadersFrame h p b => HeadersFrame (FrameHeader_invalidate h) p b
  | PriorityFrame h p => PriorityFrame (FrameHeader_invalidate h) p
  | RSTStreamFrame h c => RSTStreamFrame (FrameHeader_invalidate h) c
  | SettingsFrame h p => SettingsFrame (FrameHeader_invalidate h) p
  | PushPromiseFrame h i b => PushPromiseFrame (FrameHeader_invalidate h) i b
  | PingFrame h d => PingFrame (FrameHeader_invalidate h) d
  | GoAwayFrame h l c d => GoAwayFrame (FrameHeader_invalidate h) l c d
  | WindowUpdateFrame h i => WindowUpdateFrame (FrameHeader_invalidate h) i
  | ContinuationFrame h b => ContinuationFrame (FrameHeader_invalidate h) b
  | UnknownFrame h p => UnknownFrame (FrameHeader_invalidate h) p
  end.

(** The accessors of frame bodies panic once the frame is invalidated. *)
Definition owned {A} (h : FrameHeader) (x : A) : h2 A := _ ← checkValid h; Ok x.

Definition DataFrame_Data (f : Frame) : h2 bytes :=
  match f with DataFrame h d => owned h d | _ => Panic end.
Definition GoAway_DebugData (f : Frame) : h2 bytes :=
  match f with GoAwayFrame h _ _ d => owned h d | _ => Panic end.
Definition Unknown_Payload (f : Frame) : h2 bytes :=
  match f with UnknownFrame h p => owned h p | _ => Panic end.

(** [HeaderBlockFragment] of the three frames that have one. *)
Definition HeaderBlockFragment (f : Frame) : h2 bytes :=
  match f with
  | HeadersFrame h _ b | ContinuationFrame h b | PushPromiseFrame h _ b => owned h b
  | _ => Panic
  end.

Definition StreamEnded (f : Frame) : bool :=
  match f with
  | DataFrame h _ => Has (Flags h) FlagDataEndStream
  | HeadersFrame h _ _ => Has (Flags h) FlagHeadersEndStream
  | _ => false
  end.

Definition HeadersEnded (f : Frame) : bool :=
  match f with
  | HeadersFrame h _ _ => Has (Flags h) FlagHeadersEndHeaders
  | ContinuationFrame h _ => Has (Flags h) FlagContinuationEndHeaders
  | PushPromiseFrame h _ _ => Has (Flags h) FlagPushPromiseEndHeaders
  | _ => false
  end.

Definition HasPriority (h : FrameHeader) : bool := Has (Flags h) FlagHeadersPriority.
Definition SettingsFrame_IsAck (h : FrameHeader) : bool := Has (Flags h) FlagSettingsAck.
Definition PingFrame_IsAck (h : FrameHeader) : bool := Has (Flags h) FlagPingAck.

(** The loop of [SettingsFrame.Value]; a tail shorter than a setting would be
    sliced out of range. *)
Fixpoint settings_value (buf : bytes) (s : Z) : h2 (Z * bool) :=
  match buf with
  | [] => Ok (0, false)
  | a :: b :: c :: d :: e :: f :: buf =>
      if be_get [a; b] =? s then Ok (be_get [c; d; e; f], true) else settings_value buf s
  | _ => Panic
  end.

Definition SettingsFrame_Value (h : FrameHeader) (p : bytes) (s : Z) : h2 (Z * bool) :=
  _ ← checkValid h; settings_value p s.

(** The loop of [ForeachSetting], with the callback's state. *)
Fixpoint foreach_setting {St} (fn : Setting -> St -> St * option http2_error) (buf : bytes) (st : St)
    : outcome http2_error (St * option http2_error) :=
  match buf with
  | [] => Ok (st, None)
  | a :: b :: c :: d :: e :: f :: buf =>
      match fn (mkSetting (be_get [a; b]) (be_get [c; d; e; f])) st with
      | (st, Some err) => Ok (st, Some err)
      | (st, None) => foreach_setting fn buf st
      end
  | _ => Panic
  end.

Definition ForeachSetting {St} (fn : Setting -> St -> St * option http2_error) (h : FrameHeader) (p : bytes)
    (st : St) : outcome http2_error (St * option http2_error) :=
  _ ← checkValid h; foreach_setting fn p st.

(** * Parsing payloads *)

Definition readByte (p : bytes) : h2 (bytes * Z) :=
  match p with [] => Fail ErrUnexpectedEOF | b :: p => Ok (p, b) end.

Definition readUint32 (p : bytes) : h2 (bytes * Z) :=
  if len p <? 4 then Fail ErrUnexpectedEOF else Ok (from 4 p, be_get (upto 4 p)).

(** The optional pad length that starts a padded payload. *)
Definition readPadLength (padded : bool) (p : bytes) : h2 (bytes * Z) :=
  if padded then readByte p else Ok (p, 0).

(** The optional priority of a HEADERS frame. *)
Definition readPriority (prio : bool) (p : bytes) : h2 (bytes * PriorityParam) :=
  if prio then
    r ← readUint32 p;
    let '(p, v) := r : bytes * Z in
    let dep := Z.land v 0x7fffffff in
    s ← readByte p;
    let '(p, weight) := s : bytes * Z in
    Ok (p, mkPrio dep (negb (v =? dep)) weight)
  else Ok (p, zero_prio).

Definition parseDataFrame (fh : FrameHeader) (payload : bytes) : h2 Frame :=
  if StreamID fh =? 0 then Fail (connError ErrCodeProtocol (str "DATA frame with stream ID 0"))
  else
    pp ← readPadLength (Has (Flags fh) FlagDataPadded) payload;
    let '(payload, padSize) := pp : bytes * Z in
    if len payload <? padSize then
      Fail (connError ErrCodeProtocol (str "pad size larger than data payload"))
    else Ok (DataFrame fh (upto (len payload - padSize) payload)).

Definition parseSettingsFrame (fh : FrameHeader) (p : bytes) : h2 Frame :=
  if Has (Flags fh) FlagSettingsAck && (0 <? Length fh) then Fail (ConnectionError ErrCodeFrameSize)
  else if negb (StreamID fh =? 0) then Fail (ConnectionError ErrCodeProtocol)
  else if negb (len p mod 6 =? 0) then Fail (ConnectionError ErrCodeFrameSize)
  else
    r ← SettingsFrame_Value fh p SettingInitialWindowSize;
    let '(v, ok) := r : Z * bool in
    if ok && (2 ^ 31 - 1 <? v) then Fail (ConnectionError ErrCodeFlowControl)
    else Ok (SettingsFrame fh p).

Definition parsePingFrame (fh : FrameHeader) (payload : bytes) : h2 Frame :=
  if negb (len payload =? 8) then Fail (ConnectionError ErrCodeFrameSize)
  else if negb (StreamID fh =? 0) then Fail (ConnectionError ErrCodeProtocol)
  else Ok (PingFrame fh payload).

Definition parseGoAwayFrame (fh : FrameHeader) (p : bytes) : h2 Frame :=
  if negb (StreamID fh =? 0) then Fail (ConnectionError ErrCodeProtocol)
  else if len p <? 8 then Fail (ConnectionError ErrCodeFrameSize)
  else Ok (GoAwayFrame fh (Z.land (be_get (upto 4 p)) (2 ^ 31 - 1)) (be_get (upto 4 (from 4 p))) (from 8 p)).

Definition parseUnknownFrame (fh : FrameHeader) (p : bytes) : h2 Frame := Ok (UnknownFrame fh p).

Definition parseWindowUpdateFrame (fh : FrameHeader) (p : bytes) : h2 Frame :=
  if negb (len p =? 4) then Fail (ConnectionError ErrCodeFrameSize)
  else
    let inc := Z.land (be_get (upto 4 p)) 0x7fffffff in
    if inc =? 0 then
      if StreamID fh =? 0 then Fail (ConnectionError ErrCodeProtocol)
      else Fail (streamError (StreamID fh) ErrCodeProtocol)
    else Ok (WindowUpdateFrame fh inc).

Definition parseHeadersFrame (fh : FrameHeader) (p : bytes) : h2 Frame :=
  if StreamID fh =? 0 then Fail (connError ErrCodeProtocol (str "HEADERS frame with stream ID 0"))
  else
    pp ← readPadLength (Has (Flags fh) FlagHeadersPadded) p;
    let '(p, padLength) := pp : bytes * Z in
    pq ← readPriority (Has (Flags fh) FlagHeadersPriority) p;
    let '(p, prio) := pq : bytes * PriorityParam in
    if len p - padLength <=? 0 then Fail (streamError (StreamID fh) ErrCodeProtocol)
    else Ok (HeadersFrame fh prio (upto (len p - padLength) p)).

Definition parsePriorityFrame (fh : FrameHeader) (payload : bytes) : h2 Frame :=
  if StreamID fh =? 0 then Fail (connError ErrCodeProtocol (str "PRIORITY frame with stream ID 0"))
  else if negb (len payload =? 5) then
    Fail (connError ErrCodeFrameSize
            (str "PRIORITY frame payload size was " ++ fmt_d (len payload) ++ str "; want 5"))
  else
    let v := be_get (upto 4 payload) in
    let streamID := Z.land v 0x7fffffff in
    w ← or_panic (at_ payload 4);
    Ok (PriorityFrame fh (mkPrio streamID (negb (streamID =? v)) w)).

Definition parseRSTStreamFrame (fh : FrameHeader) (p : bytes) : h2 Frame :=
  if negb (len p =? 4) then Fail (ConnectionError ErrCodeFrameSize)
  else if StreamID fh =? 0 then Fail (ConnectionError ErrCodeProtocol)
  else Ok (RSTStreamFrame fh (be_get (upto 4 p))).

Definition parseContinuationFrame (fh : FrameHeader) (p : bytes) : h2 Frame :=
  if StreamID fh =? 0 then Fail (connError ErrCodeProtocol (str "CONTINUATION frame with stream ID 0"))
  else Ok (ContinuationFrame fh p).

Definition parsePushPromise (fh : FrameHeader) (p : bytes) : h2 Frame :=
  if StreamID fh =? 0 then Fail (ConnectionError ErrCodeProtocol)
  else
    pp ← readPadLength (Has (Flags fh) FlagPushPromisePadded) p;
    let '(p, padLength) := pp : bytes * Z in
    r ← readUint32 p;
    let '(p, promise) := r : bytes * Z in
    let promise := Z.land promise (2 ^ 31 - 1) in
    if len p <? padLength then Fail (ConnectionError ErrCodeProtocol)
    else Ok (PushPromiseFrame fh promise (upto (len p - padLength) p)).

(** [frameParsers] and [typeFrameParser]. *)
Definition typeFrameParser (t : Z) : FrameHeader -> bytes -> h2 Frame :=
  if t =? FrameData then parseDataFrame
  else if t =? FrameHeaders then parseHeadersFrame
  else if t =? FramePriority then parsePriorityFrame
  else if t =? FrameRSTStream then parseRSTStreamFrame
  else if t =? FrameSettings then parseSettingsFrame
  else if t =? FramePushPromise then parsePushPromise
  else if t =? FramePing then parsePingFrame
  else if t =? FrameGoAway then parseGoAwayFrame
  else if t =? FrameWindowUpdate then parseWindowUpdateFrame
  else if t =? FrameContinuation then parseContinuationFrame
  else parseUnknownFrame.
