(* ===== verification/Http2Framer.v ===== *)
(** The [Framer] of [http2/frame.go]: writing frames, reading them, and merging
    header blocks into [MetaHeadersFrame]s. *)
From S2P Require Import Prelude Httplex Http2Errors Http2Frame HpackVarint HpackTables HpackHuffman HpackDecoder.

(** * State *)

(** What [ErrorDetail] reports. *)
Inductive detail := Reason (r : bytes) | Cause (e : header_error).

(** [r] and [w], the reader and the writer, are arguments of the operations.
    The buffer of a frame's payload is a value here: the [valid] bit says when
    the source may reuse it. *)
Record Framer := mkFramer {
  lastFrame : option Frame;
  errDetail : option detail;
  lastHeaderStream : Z;
  maxReadSize : Z;
  wbuf : bytes;
  AllowIllegalWrites : bool;
  AllowIllegalReads : bool;
  ReadMetaHeaders : option Decoder;
  MaxHeaderListSize : Z }.

Definition with_lastFrame (f : option Frame) (fr : Framer) : Framer :=
  mkFramer f (errDetail fr) (lastHeaderStream fr) (maxReadSize fr) (wbuf fr) (AllowIllegalWrites fr)
    (AllowIllegalReads fr) (ReadMetaHeaders fr) (MaxHeaderListSize fr).
Definition with_errDetail (d : option detail) (fr : Framer) : Framer :=
  mkFramer (lastFrame fr) d (lastHeaderStream fr) (maxReadSize fr) (wbuf fr) (AllowIllegalWrites fr)
    (AllowIllegalReads fr) (ReadMetaHeaders fr) (MaxHeaderListSize fr).
Definition with_lastHeaderStream (s : Z) (fr : Framer) : Framer :=
  mkFramer (lastFrame fr) (errDetail fr) s (maxReadSize fr) (wbuf fr) (AllowIllegalWrites fr)
    (AllowIllegalReads fr) (ReadMetaHeaders fr) (MaxHeaderListSize fr).
Definition with_wbuf (b : bytes) (fr : Framer) : Framer :=
  mkFramer (lastFrame fr) (errDetail fr) (lastHeaderStream fr) (maxReadSize fr) b (AllowIllegalWrites fr)
    (AllowIllegalReads fr) (ReadMetaHeaders fr) (MaxHeaderListSize fr).
Definition with_decoder (d : Decoder) (fr : Framer) : Framer :=
  mkFramer (lastFrame fr) (errDetail fr) (lastHeaderStream fr) (maxReadSize fr) (wbuf fr) (AllowIllegalWrites fr)
    (AllowIllegalReads fr) (Some d) (MaxHeaderListSize fr).

Definition minMaxFrameSize : Z := 2 ^ 14.
Definition maxFrameSize : Z := 2 ^ 24 - 1.

Definition SetMaxReadFrameSize (v : Z) (fr : Framer) : Framer :=
  mkFramer (lastFrame fr) (errDetail fr) (lastHeaderStream fr) (if maxFrameSize <? v then maxFrameSize else v)
    (wbuf fr) (AllowIllegalWrites fr) (AllowIllegalReads fr) (ReadMetaHeaders fr) (MaxHeaderListSize fr).

Definition NewFramer : Framer :=
  SetMaxReadFrameSize maxFrameSize (mkFramer None None 0 0 [] false false None 0).

Definition ErrorDetail (fr : Framer) : option detail := errDetail fr.

Definition maxHeaderListSize (fr : Framer) : Z :=
  if MaxHeaderListSize fr =? 0 then 2 ^ 24 else MaxHeaderListSize fr.

(** * Writing *)

Definition validStreamIDOrZero (streamID : Z) : bool := Z.land streamID (2 ^ 31) =? 0.
Definition validStreamID (streamID : Z) : bool :=
  negb (streamID =? 0) && (Z.land streamID (2 ^ 31) =? 0).

Definition startWrite (ftype flags streamID : Z) (fr : Framer) : Framer :=
  with_wbuf ([0; 0; 0; u8 ftype; u8 flags] ++
    [u8 (shr streamID 24); u8 (shr streamID 16); u8 (shr streamID 8); u8 streamID]) fr.

Definition writeByte (v : Z) (fr : Framer) : Framer := with_wbuf (wbuf fr ++ [v]) fr.
Definition writeBytes (v : bytes) (fr : Framer) : Framer := with_wbuf (wbuf fr ++ v) fr.
Definition writeUint16 (v : Z) (fr : Framer) : Framer :=
  with_wbuf (wbuf fr ++ [u8 (shr v 8); u8 v]) fr.
Definition writeUint32 (v : Z) (fr : Framer) : Framer :=
  with_wbuf (wbuf fr ++ [u8 (shr v 24); u8 (shr v 16); u8 (shr v 8); u8 v]) fr.

Record HeadersFrameParam := mkHeadersParam {
  hp_StreamID : Z;
  hp_BlockFragment : bytes;
  hp_EndStream : bool;
  hp_EndHeaders : bool;
  hp_PadLength : Z;
  hp_Priority : PriorityParam }.

Record PushPromiseParam := mkPushParam {
  pp_StreamID : Z;
  pp_PromiseID : Z;
  pp_BlockFragment : bytes;
  pp_EndHeaders : bool;
  pp_PadLength : Z }.

Definition padZeros (n : Z) : bytes := replicate (Z.to_nat n) 0.

Definition flag_if (b : bool) (flag : Z) : Z := if b then flag else 0.

Section write.
Context {IO : Type} (w : bytes -> Z * option IO).

Inductive werror := FrameErr (e : http2_error) | ErrShortWrite | ErrIO (e : IO).

(** The frame is [wbuf] of the resulting framer when [w] was called. *)
Definition endWrite (fr : Framer) : Framer * option werror :=
  let length := len (wbuf fr) - frameHeaderLen in
  if 2 ^ 24 <=? length then (fr, Some (FrameErr ErrFrameTooLarge))
  else
    let fr := with_wbuf ([u8 (shr length 16); u8 (shr length 8); u8 length] ++ from 3 (wbuf fr)) fr in
    match w (wbuf fr) with
    | (n, None) => (fr, if n =? len (wbuf fr) then None else Some ErrShortWrite)
    | (_, Some err) => (fr, Some (ErrIO err))
    end.

Definition refuse (e : http2_error) (fr : Framer) : Framer * option werror := (fr, Some (FrameErr e)).

(** [pad] is [None] for a nil slice. *)
Definition WriteDataPadded (streamID : Z) (endStream : bool) (data : bytes) (pad : option bytes)
    (fr : Framer) : Framer * option werror :=
  let padding := default [] pad in
  if negb (validStreamID streamID) && negb (AllowIllegalWrites fr) then refuse errStreamID fr
  else if (0 <? len padding) && (255 <? len padding) then refuse errPadLength fr
  else if (0 <? len padding) && negb (AllowIllegalWrites fr) && existsb (fun b => negb (b =? 0)) padding then
    refuse errPadBytes fr
  else
    let flags := flag_if endStream FlagDataEndStream in
    let flags := Z.lor flags (flag_if (bool_decide (pad <> None)) FlagDataPadded) in
    let fr := startWrite FrameData flags streamID fr in
    let fr := match pad with Some p => writeByte (u8 (len p)) fr | None => fr end in
    endWrite (writeBytes padding (writeBytes data fr)).

Definition WriteData (streamID : Z) (endStream : bool) (data : bytes) (fr : Framer) : Framer * option werror :=
  WriteDataPadded streamID endStream data None fr.

Definition writeSetting (fr : Framer) (s : Setting) : Framer := writeUint32 (Val s) (writeUint16 (ID s) fr).

Definition WriteSettings (settings : list Setting) (fr : Framer) : Framer * option werror :=
  endWrite (foldl writeSetting (startWrite FrameSettings 0 0 fr) settings).

Definition WriteSettingsAck (fr : Framer) : Framer * option werror :=
  endWrite (startWrite FrameSettings FlagSettingsAck 0 fr).

(** [data] is an array of 8 bytes. *)
Definition WritePing (ack : bool) (data : bytes) (fr : Framer) : Framer * option werror :=
  endWrite (writeBytes data (startWrite FramePing (flag_if ack FlagPingAck) 0 fr)).

Definition WriteGoAway (maxStreamID code : Z) (debugData : bytes) (fr : Framer) : Framer * option werror :=
  let fr := startWrite FrameGoAway 0 0 fr in
  let fr := writeUint32 (Z.land maxStreamID (2 ^ 31 - 1)) fr in
  endWrite (writeBytes debugData (writeUint32 code fr)).

Definition WriteWindowUpdate (streamID incr : Z) (fr : Framer) : Framer * option werror :=
  if ((incr <? 1) || (2147483647 <? incr)) && negb (AllowIllegalWrites fr) then refuse errWindowIncrement fr
  else endWrite (writeUint32 incr (startWrite FrameWindowUpdate 0 streamID fr)).

Definition WriteHeaders (p : HeadersFrameParam) (fr : Framer) : Framer * option werror :=
  if negb (validStreamID (hp_StreamID p)) && negb (AllowIllegalWrites fr) then refuse errStreamID fr
  else
    let padded := negb (hp_PadLength p =? 0) in
    let prio := negb (PriorityParam_IsZero (hp_Priority p)) in
    let flags := flag_if padded FlagHeadersPadded in
    let flags := Z.lor flags (flag_if (hp_EndStream p) FlagHeadersEndStream) in
    let flags := Z.lor flags (flag_if (hp_EndHeaders p) FlagHeadersEndHeaders) in
    let flags := Z.lor flags (flag_if prio FlagHeadersPriority) in
    let fr := startWrite FrameHeaders flags (hp_StreamID p) fr in
    let fr := if padded then writeByte (hp_PadLength p) fr else fr in
    let v := StreamDep (hp_Priority p) in
    if prio && negb (validStreamIDOrZero v) && negb (AllowIllegalWrites fr) then refuse errDepStreamID fr
    else
      let fr := if prio then
        let v := if Exclusive (hp_Priority p) then Z.lor v (2 ^ 31) else v in
        writeByte (Weight (hp_Priority p)) (writeUint32 v fr) else fr in
      endWrite (writeBytes (padZeros (hp_PadLength p)) (writeBytes (hp_BlockFragment p) fr)).

Definition WritePriority (streamID : Z) (p : PriorityParam) (fr : Framer) : Framer * option werror :=
  if negb (validStreamID streamID) && negb (AllowIllegalWrites fr) then refuse errStreamID fr
  else if negb (validStreamIDOrZero (StreamDep p)) then refuse errDepStreamID fr
  else
    let v := if Exclusive p then Z.lor (StreamDep p) (2 ^ 31) else StreamDep p in
    endWrite (writeByte (Weight p) (writeUint32 v (startWrite FramePriority 0 streamID fr))).

Definition WriteRSTStream (streamID code : Z) (fr : Framer) : Framer * option werror :=
  if negb (validStreamID streamID) && negb (AllowIllegalWrites fr) then refuse errStreamID fr
  else endWrite (writeUint32 code (startWrite FrameRSTStream 0 streamID fr)).

Definition WriteContinuation (streamID : Z) (endHeaders : bool) (headerBlockFragment : bytes) (fr : Framer)
    : Framer * option werror :=
  if negb (validStreamID streamID) && negb (AllowIllegalWrites fr) then refuse errStreamID fr
  else
    let flags := flag_if endHeaders FlagContinuationEndHeaders in
    endWrite (writeBytes headerBlockFragment (startWrite FrameContinuation flags streamID fr)).

Definition WritePushPromise (p : PushPromiseParam) (fr : Framer) : Framer * option werror :=
  if negb (validStreamID (pp_StreamID p)) && negb (AllowIllegalWrites fr) then refuse errStreamID fr
  else
    let padded := negb (pp_PadLength p =? 0) in
    let flags := flag_if padded FlagPushPromisePadded in
    let flags := Z.lor flags (flag_if (pp_EndHeaders p) FlagPushPromiseEndHeaders) in
    let fr := startWrite FramePushPromise flags (pp_StreamID p) fr in
    let fr := if padded then writeByte (pp_PadLength p) fr else fr in
    if negb (validStreamID (pp_PromiseID p)) && negb (AllowIllegalWrites fr) then refuse errStreamID fr
    else
      let fr := writeUint32 (pp_PromiseID p) fr in
      endWrite (writeBytes (padZeros (pp_PadLength p)) (writeBytes (pp_BlockFragment p) fr)).

Definition WriteRawFrame (t flags streamID : Z) (payload : bytes) (fr : Framer) : Framer * option werror :=
  endWrite (writeBytes payload (startWrite t flags streamID fr)).
End write.
Arguments werror : clear implicits.

(** * Reading *)

Definition terminalReadFrameError (err : option http2_error) : bool :=
  match err with
  | Some (StreamError _ _ _) => false
  | Some _ => true
  | None => false
  end.

Definition framer_connError (code : Z) (reason : bytes) (fr : Framer) : Framer * http2_error :=
  (with_errDetail (Some (Reason reason)) fr, ConnectionError code).

(** The error, or [None] for nil; reading the type of a nil last frame would
    panic. *)
Definition checkFrameOrder (f : Frame) (fr : Framer) : Framer * h2 unit :=
  let last := lastFrame fr in
  let fr := with_lastFrame (Some f) fr in
  if AllowIllegalReads fr then (fr, Ok tt) else
  let fh := Header f in
  let refuse reason :=
    let '(fr, e) := framer_connError ErrCodeProtocol reason fr in (fr, Fail e) in
  let advance :=
    if (Type_ fh =? FrameHeaders) || (Type_ fh =? FrameContinuation) then
      if Has (Flags fh) FlagHeadersEndHeaders then with_lastHeaderStream 0 fr
      else with_lastHeaderStream (StreamID fh) fr
    else fr in
  if negb (lastHeaderStream fr =? 0) then
    if negb (Type_ fh =? FrameContinuation) then
      match last with
      | None => (fr, Panic)
      | Some l =>
          refuse (str "got " ++ FrameType_String (Type_ fh) ++ str " for stream " ++ fmt_d (StreamID fh)
            ++ str "; expected CONTINUATION following " ++ FrameType_String (Type_ (Header l))
            ++ str " for stream " ++ fmt_d (lastHeaderStream fr))
      end
    else if negb (StreamID fh =? lastHeaderStream fr) then
      refuse (str "got CONTINUATION for stream " ++ fmt_d (StreamID fh) ++ str "; expected stream "
        ++ fmt_d (lastHeaderStream fr))
    else (advance, Ok tt)
  else if Type_ fh =? FrameContinuation then
    refuse (str "unexpected CONTINUATION for stream " ++ fmt_d (StreamID fh))
  else (advance, Ok tt).

(** [ReadFrame] up to the merging of header blocks: the framer, the rest of the
    reader and the frame. *)
Definition read_one (fr : Framer) (r : bytes) : Framer * bytes * h2 Frame :=
  let fr := with_lastFrame (invalidate <$> lastFrame fr) (with_errDetail None fr) in
  match readFrameHeader r with
  | (Fail e, r) => (fr, r, Fail e)
  | (Panic, r) => (fr, r, Panic)
  | (Ok fh, r) =>
      if maxReadSize fr <? Length fh then (fr, r, Fail ErrFrameTooLarge)
      else match read_full (Length fh) r with
        | (Fail e, r) => (fr, r, Fail e)
        | (Panic, r) => (fr, r, Panic)
        | (Ok payload, r) =>
            match typeFrameParser (Type_ fh) fh payload with
            | Fail (connError code reason) =>
                let '(fr, e) := framer_connError code reason fr in (fr, r, Fail e)
            | Fail e => (fr, r, Fail e)
            | Panic => (fr, r, Panic)
            | Ok f =>
                match checkFrameOrder f fr with
                | (fr, Ok _) => (fr, r, Ok f)
                | (fr, Fail e) => (fr, r, Fail e)
                | (fr, Panic) => (fr, r, Panic)
                end
            end
        end
  end.

(** * Merged header blocks *)

Record MetaHeadersFrame := mkMeta {
  mh_Header : FrameHeader;
  mh_Priority : PriorityParam;
  Fields : list HeaderField;
  Truncated : bool }.

Inductive AnyFrame := Plain (f : Frame) | Meta (mh : MetaHeadersFrame).

Fixpoint pseudo_value (fields : list HeaderField) (pseudo : bytes) : bytes :=
  match fields with
  | [] => []
  | hf :: fields =>
      if negb (IsPseudo hf) then []
      else if bool_decide (from 1 (Name hf) = pseudo) then Value hf
      else pseudo_value fields pseudo
  end.

Definition PseudoValue (mh : MetaHeadersFrame) (pseudo : bytes) : bytes := pseudo_value (Fields mh) pseudo.

Fixpoint regular_fields (fields : list HeaderField) : list HeaderField :=
  match fields with
  | [] => []
  | hf :: rest => if negb (IsPseudo hf) then fields else regular_fields rest
  end.

Definition RegularFields (mh : MetaHeadersFrame) : list HeaderField := regular_fields (Fields mh).

Fixpoint pseudo_fields (fields : list HeaderField) : list HeaderField :=
  match fields with
  | [] => []
  | hf :: rest => if negb (IsPseudo hf) then [] else hf :: pseudo_fields rest
  end.

Definition PseudoFields (mh : MetaHeadersFrame) : list HeaderField := pseudo_fields (Fields mh).

(** The loop of [checkPseudos] over [pf[i:]], with [pf[:i]] as [seen]. *)
Fixpoint pseudo_loop (seen pf : list HeaderField) (isRequest isResponse : bool) : option header_error :=
  match pf with
  | [] => if isRequest && isResponse then Some errMixPseudoHeaderTypes else None
  | hf :: pf =>
      let request := bool_decide (Name hf ∈ [str ":method"; str ":path"; str ":scheme"; str ":authority"]) in
      let response := bool_decide (Name hf = str ":status") in
      if negb request && negb response then Some (pseudoHeaderError (Name hf))
      else if existsb (fun hf2 => bool_decide (Name hf = Name hf2)) seen then
        Some (duplicatePseudoHeaderError (Name hf))
      else pseudo_loop (seen ++ [hf]) pf (isRequest || request) (isResponse || response)
  end.

Definition checkPseudos (mh : MetaHeadersFrame) : option header_error :=
  pseudo_loop [] (PseudoFields mh) false false.

Definition maxHeaderStringLen (fr : Framer) : Z :=
  let v := maxHeaderListSize fr in
  if u32 (i64 v) =? v then i64 v else 0.

(** The variables the callback of [readMetaFrame] closes over. *)
Record meta_state := mkMS {
  ms_Fields : list HeaderField;
  ms_Truncated : bool;
  remainSize : Z;
  sawRegular : bool;
  invalid : option header_error }.

(** The callback: the new state, and whether emitting stays enabled. *)
Definition meta_emit (hf : HeaderField) (st : meta_state) : meta_state * bool :=
  let inv := invalid st in
  let inv := if negb (ValidHeaderFieldValue (Value hf)) then Some (headerFieldValueError (Value hf)) else inv in
  let isPseudo := bool_decide (upto 1 (Name hf) = str ":") in
  let inv := if isPseudo then (if sawRegular st then Some errPseudoAfterRegular else inv)
             else if negb (validWireHeaderFieldName (Name hf)) then Some (headerFieldNameError (Name hf))
             else inv in
  let saw := sawRegular st || negb isPseudo in
  match inv with
  | Some _ => (mkMS (ms_Fields st) (ms_Truncated st) (remainSize st) saw inv, false)
  | None =>
      let size := Size hf in
      if remainSize st <? size then (mkMS (ms_Fields st) true (remainSize st) saw inv, false)
      else (mkMS (ms_Fields st ++ [hf]) (ms_Truncated st) (u32 (remainSize st - size)) saw inv, true)
  end.

(** The fragment loop. [next] reads the next frame; every round but the last
    reads one, so the number of bytes left is enough fuel. *)
Fixpoint meta_loop (fuel : nat) (next : Framer -> bytes -> Framer * bytes * h2 Frame)
    (hc : Frame) (fr : Framer) (r : bytes) (hdec : Decoder) (st : meta_state)
    : option (Framer * bytes * Decoder * h2 meta_state) :=
  match HeaderBlockFragment hc with
  | Panic => Some (fr, r, hdec, Panic)
  | Fail e => Some (fr, r, hdec, Fail e)
  | Ok frag =>
      match Write meta_emit hdec st frag with
      | None => None
      | Some (Ok (hdec, st, Some _)) => Some (fr, r, hdec, Fail (ConnectionError ErrCodeCompression))
      | Some (Fail _) | Some Panic => Some (fr, r, hdec, Panic)
      | Some (Ok (hdec, st, None)) =>
          if HeadersEnded hc then Some (fr, r, hdec, Ok st)
          else
            match fuel with
            | O => None
            | S fuel' =>
                match next fr r with
                | (fr, r, Ok (ContinuationFrame h b)) =>
                    meta_loop fuel' next (ContinuationFrame h b) fr r hdec st
                | (fr, r, Ok _) => Some (fr, r, hdec, Panic)
                | (fr, r, Fail e) => Some (fr, r, hdec, Fail e)
                | (fr, r, Panic) => Some (fr, r, hdec, Panic)
                end
            end
      end
  end.

(** The header frame a meta frame is built on is invalidated in place, also
    where the framer remembers it as its last frame. *)
Definition drop_fragment (f : Frame) : Frame :=
  match f with HeadersFrame h p _ => HeadersFrame (FrameHeader_invalidate h) p [] | f => f end.

Definition readMetaFrame (h : FrameHeader) (prio : PriorityParam) (frag : bytes) (hdec : Decoder)
    (fr : Framer) (r : bytes) : option (Framer * bytes * h2 MetaHeadersFrame) :=
  if AllowIllegalReads fr then Some (fr, r, Fail errIllegalMetaHeaders)
  else
    let hdec := SetMaxStringLength (maxHeaderStringLen fr) (SetEmitEnabled true hdec) in
    let st := mkMS [] false (maxHeaderListSize fr) false None in
    match meta_loop (length r) read_one (HeadersFrame h prio frag) fr r hdec st with
    | None => None
    | Some (fr, r, hdec, Fail e) => Some (with_decoder hdec fr, r, Fail e)
    | Some (fr, r, hdec, Panic) => Some (with_decoder hdec fr, r, Panic)
    | Some (fr, r, hdec, Ok st) =>
        let fr := with_lastFrame (drop_fragment <$> lastFrame fr) fr in
        let mh := mkMeta (FrameHeader_invalidate h) prio (ms_Fields st) (ms_Truncated st) in
        match Close hdec with
        | (hdec, Some _) => Some (with_decoder hdec fr, r, Fail (ConnectionError ErrCodeCompression))
        | (hdec, None) =>
            let fr := with_decoder hdec fr in
            match invalid st with
            | Some e => Some (with_errDetail (Some (Cause e)) fr, r,
                              Fail (StreamError (StreamID h) ErrCodeProtocol (Some e)))
            | None =>
                match checkPseudos mh with
                | Some e => Some (with_errDetail (Some (Cause e)) fr, r,
                                  Fail (StreamError (StreamID h) ErrCodeProtocol (Some e)))
                | None => Some (fr, r, Ok mh)
                end
            end
        end
    end.

(** The frames [readMetaFrame] reads are CONTINUATION frames, for which
    [ReadFrame] is [read_one]. *)
Definition ReadFrame (fr : Framer) (r : bytes) : option (Framer * bytes * h2 AnyFrame) :=
  match read_one fr r with
  | (fr, r, Fail e) => Some (fr, r, Fail e)
  | (fr, r, Panic) => Some (fr, r, Panic)
  | (fr, r, Ok f) =>
      match f, ReadMetaHeaders fr with
      | HeadersFrame h prio frag, Some hdec =>
          match readMetaFrame h prio frag hdec fr r with
          | Some (fr, r, Ok mh) => Some (fr, r, Ok (Meta mh))
          | Some (fr, r, Fail e) => Some (fr, r, Fail e)
          | Some (fr, r, Panic) => Some (fr, r, Panic)
          | None => None
          end
      | _, _ => Some (fr, r, Ok (Plain f))
      end
  end.
