(* ===== verification/Http2FrameRT.v ===== *)
(** Every frame the [Framer] writes is read back. *)
From S2P Require Import Prelude Httplex Http2Errors Http2Frame Http2Framer.

(** * The wire format *)

Definition wire (t flags sid : Z) (payload : bytes) : bytes :=
  be_put 3 (len payload) ++ [t; flags] ++ be_put 4 sid ++ payload.

Lemma startWrite_wbuf t flags sid fr : byte_ok t -> byte_ok flags ->
  wbuf (startWrite t flags sid fr) = [0; 0; 0; t; flags] ++ be_put 4 sid.
Proof. intros Ht Hf. unfold startWrite, u8. simpl. by rewrite !(wrap_id 8) by done. Qed.

Lemma endWrite_ok {IO} (w : bytes -> Z * option IO) fr fr' t flags sid payload :
  wbuf fr = ([0; 0; 0; t; flags] ++ be_put 4 sid) ++ payload ->
  endWrite w fr = (fr', None) -> wbuf fr' = wire t flags sid payload /\ len payload < 2 ^ 24.
Proof.
  intros Hw. unfold endWrite. rewrite Hw.
  assert (Hl : len (([0; 0; 0; t; flags] ++ be_put 4 sid) ++ payload) - frameHeaderLen = len payload).
  { rewrite !len_app. unfold frameHeaderLen. change (len [0; 0; 0; t; flags]) with 5.
    change (len (be_put 4 sid)) with 4. lia. }
  rewrite Hl. destruct (Z.leb_spec (2 ^ 24) (len payload)); [done|].
  simpl wbuf. destruct (w _) as [n [err|]]; [done|]. case_match; [|done].
  intros [= <-]. done.
Qed.

Lemma be_get_three a b c : byte_ok a -> byte_ok b -> byte_ok c ->
  Z.lor (Z.lor (shl 32 a 16) (shl 32 b 8)) c = be_get [a; b; c].
Proof.
  unfold byte_ok, in_width. intros Ha Hb Hc. unfold shl.
  rewrite !Z.shiftl_mul_pow2, !wrap_id by (unfold in_width; lia).
  rewrite (lor_add 16 _ (b * 2 ^ 8)), (lor_add 8); unfold in_width; try lia.
  - unfold be_get. simpl. lia.
  - change (2 ^ 16) with (2 ^ 8 * 2 ^ 8). rewrite Z.mul_assoc, <- Z.mul_add_distr_r. apply Z_mod_mult.
  - apply Z_mod_mult.
Qed.

Definition fh_of (t flags sid : Z) (payload : bytes) : FrameHeader :=
  mkFH true t flags (len payload) (sid mod 2 ^ 31).

(** What [read_one] does to the framer before it reads. *)
Definition reset (fr : Framer) : Framer :=
  with_lastFrame (invalidate <$> lastFrame fr) (with_errDetail None fr).

(** The end of [read_one] once the frame [f] is parsed. *)
Definition accept (f : Frame) (fr : Framer) (rest : bytes) : Framer * bytes * h2 Frame :=
  match checkFrameOrder f (reset fr) with
  | (fr, Ok _) => (fr, rest, Ok f)
  | (fr, Fail e) => (fr, rest, Fail e)
  | (fr, Panic) => (fr, rest, Panic)
  end.

Lemma at_here {A} (l : list A) i x : 0 <= i -> l !! Z.to_nat i = Some x -> at_ l i = Some x.
Proof. intros Hi Hl. unfold at_. by rewrite decide_True. Qed.

Lemma read_full_app n p rest : len p = n -> read_full n (p ++ rest) = (Ok p, rest).
Proof.
  intros Hn. unfold read_full. rewrite len_app. pose proof (len_nonneg rest).
  rewrite (proj2 (Z.leb_le _ _)) by lia. by rewrite upto_app_len, from_app_len.
Qed.

Lemma readFrameHeader_wire t flags sid payload rest :
  len payload < 2 ^ 24 -> in_width 32 sid ->
  readFrameHeader (wire t flags sid payload ++ rest) = (Ok (fh_of t flags sid payload), payload ++ rest).
Proof.
  intros Hl Hs. unfold readFrameHeader, wire.
  replace ((be_put 3 (len payload) ++ [t; flags] ++ be_put 4 sid ++ payload) ++ rest)
    with ((be_put 3 (len payload) ++ [t; flags] ++ be_put 4 sid) ++ payload ++ rest)
    by (by rewrite <- !app_assoc).
  rewrite read_full_app by done.
  pose proof (be_put_ok 3 (len payload)) as Hok. pose proof (be_get_put 3 (len payload)) as Hg.
  pose proof (be_get_put 4 sid) as Hg4. pose proof (length_be_put 4 sid) as Hl4.
  destruct (be_put 3 (len payload)) as [|a [|b [|c [|]]]] eqn:Hp; try done.
  destruct (be_put 4 sid) as [|s0 [|s1 [|s2 [|s3 [|]]]]]; try done.
  cbn [app]. rewrite !(at_here _ _ _) by (first [lia|reflexivity]). cbn [mbind outcome_bind or_panic].
  apply Forall_cons in Hok as [Ha [Hb [Hc _]%Forall_cons]%Forall_cons].
  rewrite be_get_three, Hg by done.
  change (upto 4 (from 5 [a; b; c; t; flags; s0; s1; s2; s3])) with [s0; s1; s2; s3]. rewrite Hg4.
  unfold fh_of. rewrite (land_mask 31) by (lia || done). pose proof (len_nonneg payload).
  rewrite !wrap_id by (unfold in_width in *; simpl Z.mul; lia). done.
Qed.

Lemma read_one_wire rd t flags sid payload rest f :
  len payload < 2 ^ 24 -> len payload <= maxReadSize rd -> in_width 32 sid ->
  typeFrameParser t (fh_of t flags sid payload) payload = Ok f ->
  read_one rd (wire t flags sid payload ++ rest) = accept f rd rest.
Proof.
  intros Hl Hm Hs Hp. unfold read_one. rewrite readFrameHeader_wire by done. fold (reset rd).
  assert (Hmax : maxReadSize (reset rd) = maxReadSize rd) by done. rewrite Hmax. cbn [Length fh_of].
  rewrite (proj2 (Z.ltb_ge _ _)) by done. rewrite read_full_app by done.
  cbn [Type_ fh_of]. change (mkFH true t flags (len payload) (sid mod 2 ^ 31)) with (fh_of t flags sid payload).
  rewrite Hp. done.
Qed.

(** * The frames written by each method *)

Inductive frame_op :=
| OpData (sid : Z) (endStream : bool) (data : bytes) (pad : option bytes)
| OpHeaders (p : HeadersFrameParam)
| OpPriority (sid : Z) (p : PriorityParam)
| OpRSTStream (sid code : Z)
| OpSettings (l : list Setting)
| OpSettingsAck
| OpPushPromise (p : PushPromiseParam)
| OpPing (ack : bool) (data : bytes)
| OpGoAway (maxStreamID code : Z) (debugData : bytes)
| OpWindowUpdate (sid incr : Z)
| OpContinuation (sid : Z) (endHeaders : bool) (frag : bytes)
| OpRaw (t flags sid : Z) (payload : bytes).

Definition run_op {IO} (w : bytes -> Z * option IO) (o : frame_op) (fr : Framer) : Framer * option (werror IO) :=
  match o with
  | OpData sid e data pad => WriteDataPadded w sid e data pad fr
  | OpHeaders p => WriteHeaders w p fr
  | OpPriority sid p => WritePriority w sid p fr
  | OpRSTStream sid code => WriteRSTStream w sid code fr
  | OpSettings l => WriteSettings w l fr
  | OpSettingsAck => WriteSettingsAck w fr
  | OpPushPromise p => WritePushPromise w p fr
  | OpPing ack data => WritePing w ack data fr
  | OpGoAway m c d => WriteGoAway w m c d fr
  | OpWindowUpdate sid incr => WriteWindowUpdate w sid incr fr
  | OpContinuation sid e frag => WriteContinuation w sid e frag fr
  | OpRaw t flags sid payload => WriteRawFrame w t flags sid payload fr
  end.

Definition settings_bytes (l : list Setting) : bytes :=
  concat ((fun s => be_put 2 (ID s) ++ be_put 4 (Val s)) <$> l).

(** The dependency field of a priority: 31 bits and the exclusive bit. *)
Definition prio_bytes (p : PriorityParam) : bytes :=
  be_put 4 (StreamDep p + flag_if (Exclusive p) (2 ^ 31)) ++ [Weight p].

Definition op_wire (o : frame_op) : Z * Z * Z * bytes :=
  match o with
  | OpData sid e data pad =>
      (FrameData, flag_if e 1 + flag_if (bool_decide (pad <> None)) 8, sid,
       match pad with Some p => [len p] ++ data ++ p | None => data end)
  | OpHeaders p =>
      let padded := negb (hp_PadLength p =? 0) in
      let prio := negb (PriorityParam_IsZero (hp_Priority p)) in
      (FrameHeaders,
       flag_if padded 8 + flag_if (hp_EndStream p) 1 + flag_if (hp_EndHeaders p) 4 + flag_if prio 32,
       hp_StreamID p,
       (if padded then [hp_PadLength p] else []) ++ (if prio then prio_bytes (hp_Priority p) else []) ++
       hp_BlockFragment p ++ padZeros (hp_PadLength p))
  | OpPriority sid p => (FramePriority, 0, sid, prio_bytes p)
  | OpRSTStream sid code => (FrameRSTStream, 0, sid, be_put 4 code)
  | OpSettings l => (FrameSettings, 0, 0, settings_bytes l)
  | OpSettingsAck => (FrameSettings, 1, 0, [])
  | OpPushPromise p =>
      let padded := negb (pp_PadLength p =? 0) in
      (FramePushPromise, flag_if padded 8 + flag_if (pp_EndHeaders p) 4, pp_StreamID p,
       (if padded then [pp_PadLength p] else []) ++ be_put 4 (pp_PromiseID p) ++
       pp_BlockFragment p ++ padZeros (pp_PadLength p))
  | OpPing ack data => (FramePing, flag_if ack 1, 0, data)
  | OpGoAway m c d => (FrameGoAway, 0, 0, be_put 4 (m mod 2 ^ 31) ++ be_put 4 c ++ d)
  | OpWindowUpdate sid incr => (FrameWindowUpdate, 0, sid, be_put 4 incr)
  | OpContinuation sid e frag => (FrameContinuation, flag_if e 4, sid, frag)
  | OpRaw t flags sid payload => (t, flags, sid, payload)
  end.

Definition op_header (o : frame_op) : FrameHeader :=
  let '(t, flags, sid, payload) := op_wire o in fh_of t flags sid payload.

(** The frame the peer gets. *)
Definition frame_of (o : frame_op) : Frame :=
  let h := op_header o in
  match o with
  | OpData _ _ data _ => DataFrame h data
  | OpHeaders p => HeadersFrame h (hp_Priority p) (hp_BlockFragment p)
  | OpPriority _ p => PriorityFrame h p
  | OpRSTStream _ code => RSTStreamFrame h code
  | OpSettings l => SettingsFrame h (settings_bytes l)
  | OpSettingsAck => SettingsFrame h []
  | OpPushPromise p => PushPromiseFrame h (pp_PromiseID p) (pp_BlockFragment p)
  | OpPing _ data => PingFrame h data
  | OpGoAway m c d => GoAwayFrame h (m mod 2 ^ 31) c d
  | OpWindowUpdate _ incr => WindowUpdateFrame h incr
  | OpContinuation _ _ frag => ContinuationFrame h frag
  | OpRaw _ _ _ payload => UnknownFrame h payload
  end.

(** The arguments are of their Go types, and what the reader of the frame
    insists on beyond what its writer checks: a header block fragment that is
    not empty, a window below [2^31], a raw frame of an unknown type. *)
Definition op_ok (o : frame_op) : Prop :=
  match o with
  | OpData sid _ _ _ => in_width 32 sid
  | OpHeaders p => in_width 32 (hp_StreamID p) /\ byte_ok (hp_PadLength p) /\ hp_BlockFragment p <> [] /\
      in_width 32 (StreamDep (hp_Priority p)) /\ byte_ok (Weight (hp_Priority p))
  | OpPriority sid p => in_width 32 sid /\ in_width 32 (StreamDep p) /\ byte_ok (Weight p)
  | OpRSTStream sid code => in_width 32 sid /\ in_width 32 code
  | OpSettings l => Forall (fun s => in_width 16 (ID s) /\ in_width 32 (Val s) /\
      (ID s = SettingInitialWindowSize -> Val s < 2 ^ 31)) l
  | OpSettingsAck => True
  | OpPushPromise p => in_width 32 (pp_StreamID p) /\ in_width 32 (pp_PromiseID p) /\ byte_ok (pp_PadLength p)
  | OpPing _ data => len data = 8
  | OpGoAway m c _ => in_width 32 m /\ in_width 32 c
  | OpWindowUpdate sid incr => in_width 32 sid /\ in_width 32 incr
  | OpContinuation sid _ _ => in_width 32 sid
  | OpRaw t flags sid _ => byte_ok t /\ FrameContinuation < t /\ byte_ok flags /\ in_width 32 sid
  end.

(** What the writer's checks establish. *)
Definition op_valid (o : frame_op) : Prop :=
  match o with
  | OpData sid _ _ pad => 0 < sid < 2 ^ 31 /\ len (default [] pad) <= 255
  | OpHeaders p => 0 < hp_StreamID p < 2 ^ 31 /\ StreamDep (hp_Priority p) < 2 ^ 31
  | OpPriority sid p => 0 < sid < 2 ^ 31 /\ StreamDep p < 2 ^ 31
  | OpRSTStream sid _ | OpContinuation sid _ _ => 0 < sid < 2 ^ 31
  | OpPushPromise p => 0 < pp_StreamID p < 2 ^ 31 /\ 0 < pp_PromiseID p < 2 ^ 31
  | OpWindowUpdate _ incr => 1 <= incr < 2 ^ 31
  | _ => True
  end.

Lemma validStreamIDOrZero_ok x : in_width 32 x -> validStreamIDOrZero x = true -> x < 2 ^ 31.
Proof.
  intros Hx H. apply Z.eqb_eq in H. destruct (Z.lt_ge_cases x (2 ^ 31)) as [|Hge]; [done|].
  unfold in_width in Hx. apply (f_equal (fun z => Z.testbit z 31)) in H.
  rewrite Z.land_spec, Z.pow2_bits_true, Z.bits_0, andb_true_r in H by lia.
  rewrite Z.testbit_eqb in H by lia.
  replace (x / 2 ^ 31) with 1 in H by (apply Z.div_unique with (x - 2 ^ 31); lia). done.
Qed.

Lemma validStreamID_ok x : in_width 32 x -> validStreamID x = true -> 0 < x < 2 ^ 31.
Proof.
  intros Hx [Hz%negb_true_iff Hb]%andb_true_iff. apply Z.eqb_neq in Hz.
  pose proof (validStreamIDOrZero_ok x Hx Hb). unfold in_width in Hx. lia.
Qed.

Lemma set_high v : 0 <= v < 2 ^ 31 -> Z.lor v (2 ^ 31) = v + 2 ^ 31.
Proof.
  intros Hv. rewrite Z.lor_comm, (lor_add 31); [lia|lia|done|unfold in_width; lia].
Qed.

Lemma writeUint32_wbuf v fr : wbuf (writeUint32 v fr) = wbuf fr ++ be_put 4 v.
Proof. reflexivity. Qed.

Lemma writeByte_wbuf b fr : wbuf (writeByte b fr) = wbuf fr ++ [b].
Proof. reflexivity. Qed.

Lemma writeBytes_wbuf b fr : wbuf (writeBytes b fr) = wbuf fr ++ b.
Proof. reflexivity. Qed.

Lemma writeUint16_wbuf v fr : wbuf (writeUint16 v fr) = wbuf fr ++ be_put 2 v.
Proof. reflexivity. Qed.

Lemma settings_wbuf l fr : wbuf (foldl writeSetting fr l) = wbuf fr ++ settings_bytes l.
Proof.
  revert fr. induction l as [|s l IH]; intros fr; [by rewrite app_nil_r|]. cbn [foldl]. rewrite IH.
  unfold writeSetting. rewrite writeUint32_wbuf, writeUint16_wbuf. unfold settings_bytes. simpl.
  by rewrite <- !app_assoc.
Qed.

Lemma flag_if_byte b f : byte_ok f -> byte_ok (flag_if b f).
Proof. destruct b; [done|]. intros _. by compute. Qed.

Lemma and3 (A B C : Prop) : (A /\ B) /\ C -> A /\ B /\ C.
Proof. tauto. Qed.

Section run.
Context {IO : Type} (w : bytes -> Z * option IO).

Lemma endWrite_wire fr fr' t flags sid payload :
  byte_ok t -> byte_ok flags -> wbuf fr = wbuf (startWrite t flags sid fr) ++ payload ->
  endWrite w fr = (fr', None) -> wbuf fr' = wire t flags sid payload /\ len payload < 2 ^ 24.
Proof.
  intros Ht Hf Hw. apply endWrite_ok. rewrite Hw. by rewrite startWrite_wbuf.
Qed.

Lemma run_data sid e data pad fr fr' :
  AllowIllegalWrites fr = false -> op_ok (OpData sid e data pad) ->
  WriteDataPadded w sid e data pad fr = (fr', None) ->
  let '(t, flags, sid, payload) := op_wire (OpData sid e data pad) in
  wbuf fr' = wire t flags sid payload /\ len payload < 2 ^ 24 /\ op_valid (OpData sid e data pad).
Proof.
  intros Hill Hok. unfold WriteDataPadded, refuse. rewrite Hill, !andb_true_r.
  destruct (validStreamID sid) eqn:Hv; [cbn [negb]|done].
  destruct ((0 <? len (default [] pad)) && (255 <? len (default [] pad))) eqn:Hl; [done|].
  destruct ((0 <? len (default [] pad)) && existsb _ _); [done|]. intros Hrun.
  assert (Hpad : len (default [] pad) <= 255) by (pose proof (len_nonneg (default [] pad)); lia).
  cbn [op_wire]. apply and3. split; [|by split; [apply validStreamID_ok|]].
  eapply endWrite_wire; [done| | |exact Hrun]; [by destruct e, (bool_decide _)|].
  unfold flag_if. destruct pad as [p|]; simpl.
  - unfold u8. simpl in Hpad. pose proof (len_nonneg p).
    rewrite !(wrap_id 8 (len p)) by (unfold in_width; lia). by destruct e.
  - rewrite app_nil_r. by destruct e.
Qed.

Lemma prio_wbuf p fr :
  0 <= StreamDep p < 2 ^ 31 ->
  wbuf (writeByte (Weight p) (writeUint32 (if Exclusive p then Z.lor (StreamDep p) (2 ^ 31) else StreamDep p) fr)) =
  wbuf fr ++ prio_bytes p.
Proof.
  intros Hd. unfold writeByte. cbn [wbuf with_wbuf]. rewrite writeUint32_wbuf, <- app_assoc.
  unfold prio_bytes. destruct (Exclusive p); cbn [flag_if]; [by rewrite set_high|by rewrite Z.add_0_r].
Qed.

Lemma run_headers p fr fr' :
  AllowIllegalWrites fr = false -> op_ok (OpHeaders p) -> WriteHeaders w p fr = (fr', None) ->
  let '(t, flags, sid, payload) := op_wire (OpHeaders p) in
  wbuf fr' = wire t flags sid payload /\ len payload < 2 ^ 24 /\ op_valid (OpHeaders p).
Proof.
  intros Hill (Hsid & Hpl & Hne & Hdep & Hw). unfold WriteHeaders, refuse. rewrite Hill, !andb_true_r.
  destruct (validStreamID (hp_StreamID p)) eqn:Hv; [cbn [negb]|done].
  destruct (hp_PadLength p =? 0) eqn:Hpad, (PriorityParam_IsZero (hp_Priority p)) eqn:Hz; cbn [negb andb];
    cbn [AllowIllegalWrites startWrite writeByte with_wbuf]; rewrite ?Hill, ?andb_true_r.
  2, 4: destruct (validStreamIDOrZero (StreamDep (hp_Priority p))) eqn:Hd; [cbn [negb]|done].
  all: intros Hrun; cbn [op_wire]; rewrite Hpad, Hz; cbn [negb app]; apply and3.
  all: assert (Hdep' : 0 <= StreamDep (hp_Priority p) < 2 ^ 31) by
    (first [ apply validStreamIDOrZero_ok in Hd; [unfold in_width in Hdep; lia|done]
           | unfold PriorityParam_IsZero in Hz; lia ]).
  all: split; [|split; [by apply validStreamID_ok|apply Hdep']].
  all: eapply endWrite_wire; [done| | |exact Hrun].
  all: try (by destruct (hp_EndStream p), (hp_EndHeaders p)).
  all: rewrite !writeBytes_wbuf, ?prio_wbuf, ?writeByte_wbuf by done.
  all: rewrite <- ?app_assoc; by destruct (hp_EndStream p), (hp_EndHeaders p).
Qed.

Lemma run_push p fr fr' :
  AllowIllegalWrites fr = false -> op_ok (OpPushPromise p) -> WritePushPromise w p fr = (fr', None) ->
  let '(t, flags, sid, payload) := op_wire (OpPushPromise p) in
  wbuf fr' = wire t flags sid payload /\ len payload < 2 ^ 24 /\ op_valid (OpPushPromise p).
Proof.
  intros Hill (Hsid & Hprom & Hpl). unfold WritePushPromise, refuse. rewrite Hill, !andb_true_r.
  destruct (validStreamID (pp_StreamID p)) eqn:Hv; [cbn [negb]|done].
  destruct (pp_PadLength p =? 0) eqn:Hpad; cbn [negb];
    cbn [AllowIllegalWrites startWrite writeByte with_wbuf]; rewrite ?Hill, ?andb_true_r.
  all: destruct (validStreamID (pp_PromiseID p)) eqn:Hd; [cbn [negb]|done].
  all: intros Hrun; cbn [op_wire]; rewrite Hpad; cbn [negb app]; apply and3.
  all: split; [|by split; apply validStreamID_ok].
  all: eapply endWrite_wire; [done| | |exact Hrun]; [by destruct (pp_EndHeaders p)|].
  all: rewrite !writeBytes_wbuf, writeUint32_wbuf, ?writeByte_wbuf.
  all: rewrite <- ?app_assoc; by destruct (pp_EndHeaders p).
Qed.

Lemma run_op_wire o fr fr' :
  AllowIllegalWrites fr = false -> op_ok o -> run_op w o fr = (fr', None) ->
  let '(t, flags, sid, payload) := op_wire o in
  wbuf fr' = wire t flags sid payload /\ len payload < 2 ^ 24 /\ op_valid o.
Proof.
  intros Hill Hok Hrun.
  destruct o; cbn [run_op] in Hrun.
  1: by apply run_data with fr.
  1: by apply run_headers with fr.
  5: by apply run_push with fr.
  all: cbn [op_wire op_valid op_ok] in *; apply and3.
  - unfold WritePriority, refuse in Hrun. rewrite Hill, andb_true_r in Hrun.
    destruct (validStreamID sid) eqn:Hv, (validStreamIDOrZero (StreamDep p)) eqn:Hd; try done.
    destruct Hok as (Hs & Hdep & Hw). apply validStreamID_ok in Hv; [|done].
    apply validStreamIDOrZero_ok in Hd; [|done]. split; [|done]. cbn [negb] in Hrun.
    eapply endWrite_wire; [done|done| |exact Hrun]. apply prio_wbuf. unfold in_width in Hdep. lia.
  - unfold WriteRSTStream, refuse in Hrun. rewrite Hill, andb_true_r in Hrun.
    destruct Hok as [Hs Hc]. destruct (validStreamID sid) eqn:Hv; [|done].
    split; [|by apply validStreamID_ok]. by eapply endWrite_wire; [done|done| |exact Hrun].
  - split; [|done]. eapply endWrite_wire; [done|done| |exact Hrun]. by rewrite settings_wbuf.
  - split; [|done]. eapply endWrite_wire; [done|done| |exact Hrun]. by rewrite app_nil_r.
  - split; [|done]. eapply endWrite_wire; [done|by destruct ack| |exact Hrun]. done.
  - split; [|done]. eapply endWrite_wire; [done|done| |exact Hrun]. cbn [writeBytes with_wbuf wbuf].
    rewrite !writeUint32_wbuf, <- !app_assoc, (land_mask 31) by (lia || done). done.
  - unfold WriteWindowUpdate, refuse in Hrun. rewrite Hill, andb_true_r in Hrun.
    destruct ((incr <? 1) || (2147483647 <? incr)) eqn:Hr; [done|]. split; [|lia].
    by eapply endWrite_wire; [done|done| |exact Hrun].
  - unfold WriteContinuation, refuse in Hrun. rewrite Hill, andb_true_r in Hrun.
    destruct (validStreamID sid) eqn:Hv; [|done]. split; [|by apply validStreamID_ok].
    by eapply endWrite_wire; [done|destruct endHeaders| |exact Hrun].
  - destruct Hok as (Ht & _ & Hf & _). split; [|done].
    by eapply endWrite_wire; [done|done| |exact Hrun].
Qed.
End run.


(** * Parsing them back *)

Lemma be_put4_get v : in_width 32 v -> be_get (be_put 4 v) = v.
Proof. intros. rewrite be_get_put. by apply wrap_id. Qed.

Lemma readUint32_put v rest : in_width 32 v -> readUint32 (be_put 4 v ++ rest) = Ok (rest, v).
Proof.
  intros Hv. unfold readUint32. rewrite len_app, len_be_put. pose proof (len_nonneg rest).
  rewrite (proj2 (Z.ltb_ge _ _)) by lia. rewrite upto_app_len, from_app_len by done.
  by rewrite be_put4_get.
Qed.

Lemma prio_value p : 0 <= StreamDep p < 2 ^ 31 ->
  let v := StreamDep p + flag_if (Exclusive p) (2 ^ 31) in
  in_width 32 v /\ Z.land v 0x7fffffff = StreamDep p /\ (v =? StreamDep p) = negb (Exclusive p).
Proof.
  intros Hd v. unfold in_width. rewrite (land_mask 31) by (lia || done).
  assert (Hv : v = StreamDep p + Z.b2z (Exclusive p) * 2 ^ 31) by (unfold v, flag_if; destruct (Exclusive p); simpl; lia).
  rewrite Hv, Z.mod_add, Z.mod_small by lia. destruct (Exclusive p); simpl Z.b2z; split_and!; lia.
Qed.

Lemma upto_pad (data pad : bytes) : upto (len (data ++ pad) - len pad) (data ++ pad) = data.
Proof. rewrite len_app. apply upto_app_len. lia. Qed.

Lemma len_padZeros n : 0 <= n -> len (padZeros n) = n.
Proof. intros. unfold len, padZeros. rewrite length_replicate. lia. Qed.

Lemma mod_id sid : 0 < sid < 2 ^ 31 -> sid mod 2 ^ 31 = sid /\ (sid =? 0) = false.
Proof. intros. rewrite Z.mod_small by lia. lia. Qed.

Lemma settings_value_ok l :
  Forall (fun s => in_width 16 (ID s) /\ in_width 32 (Val s) /\
    (ID s = SettingInitialWindowSize -> Val s < 2 ^ 31)) l ->
  exists v ok, settings_value (settings_bytes l) SettingInitialWindowSize = Ok (v, ok) /\ v < 2 ^ 31.
Proof.
  induction 1 as [|s l (Hi & Hv & Hw) _ (v & ok & IH & Hb)]; [by exists 0, false|].
  unfold settings_bytes in *. cbn [fmap list_fmap concat].
  assert (Hid : be_get (be_put 2 (ID s)) = ID s) by (rewrite be_get_put; by apply wrap_id).
  pose proof (be_put4_get (Val s) Hv) as Hval.
  pose proof (length_be_put 2 (ID s)) as H2. pose proof (length_be_put 4 (Val s)) as H4.
  destruct (be_put 2 (ID s)) as [|a [|b [|]]]; try done.
  destruct (be_put 4 (Val s)) as [|c [|d [|e [|f [|]]]]]; try done.
  cbn [app settings_value]. rewrite Hid, Hval.
  destruct (Z.eqb_spec (ID s) SettingInitialWindowSize) as [He|]; [|by exists v, ok].
  exists (Val s), true. split; [done|by apply Hw].
Qed.

Lemma settings_len l : len (settings_bytes l) mod 6 = 0.
Proof.
  assert (H : len (settings_bytes l) = 6 * len l).
  { induction l as [|s l IH]; [done|]. unfold settings_bytes in *. cbn [fmap list_fmap concat].
    rewrite !len_app, IH, len_cons, !len_be_put. lia. }
  rewrite H, Z.mul_comm. apply Z_mod_mult.
Qed.

Lemma data_flags e pad : Has (flag_if e 1 + flag_if pad 8) FlagDataPadded = pad.
Proof. by destruct e, pad. Qed.

Lemma headers_flags pad es eh prio :
  let f := flag_if pad 8 + flag_if es 1 + flag_if eh 4 + flag_if prio 32 in
  Has f FlagHeadersPadded = pad /\ Has f FlagHeadersPriority = prio.
Proof. by destruct pad, es, eh, prio. Qed.

Lemma push_flags pad eh : Has (flag_if pad 8 + flag_if eh 4) FlagPushPromisePadded = pad.
Proof. by destruct pad, eh. Qed.

Definition parses_back (o : frame_op) : Prop :=
  let '(t, flags, sid, payload) := op_wire o in
  typeFrameParser t (fh_of t flags sid payload) payload = Ok (frame_of o).

Lemma parse_data sid e data pad : op_valid (OpData sid e data pad) -> parses_back (OpData sid e data pad).
Proof.
  intros [Hs Hp]. unfold parses_back, frame_of, op_header. cbn [op_wire].
  change (typeFrameParser FrameData) with parseDataFrame. unfold parseDataFrame. cbn [fh_of StreamID Flags].
  destruct (mod_id sid Hs) as [-> ->]. rewrite data_flags. destruct pad as [p|].
  - rewrite bool_decide_true by done. cbn [app readPadLength readByte mbind outcome_bind]. simpl in Hp.
    rewrite len_app. pose proof (len_nonneg data).
    rewrite (proj2 (Z.ltb_ge _ _)) by lia. rewrite <- len_app, upto_pad.
    unfold fh_of. by destruct (mod_id sid Hs) as [-> _].
  - rewrite bool_decide_false by (intros Hc; by apply Hc). cbn [readPadLength mbind outcome_bind].
    pose proof (len_nonneg data). rewrite (proj2 (Z.ltb_ge _ _)) by lia.
    rewrite Z.sub_0_r. unfold upto, len. rewrite Nat2Z.id, take_ge by lia.
    unfold fh_of, len. by destruct (mod_id sid Hs) as [-> _].
Qed.

(** The optional parts, as the writers write them. *)
Lemma read_pad n q :
  let padded := negb (n =? 0) in
  readPadLength padded ((if padded then [n] else []) ++ q) = Ok (q, n).
Proof. simpl. destruct (Z.eqb_spec n 0) as [->|]; done. Qed.

Lemma read_prio p rest : 0 <= StreamDep p < 2 ^ 31 ->
  let prio := negb (PriorityParam_IsZero p) in
  readPriority prio ((if prio then prio_bytes p else []) ++ rest) = Ok (rest, p).
Proof.
  intros Hd prio. unfold prio, readPriority. destruct (PriorityParam_IsZero p) eqn:Hz; cbn [negb].
  - cbn [app]. do 2 f_equal. destruct p as [dep ex wt]. unfold PriorityParam_IsZero in Hz.
    simpl in Hz. destruct ex; [lia|]. unfold zero_prio. f_equal; lia.
  - destruct (prio_value p Hd) as (Hv & Hl & He). unfold prio_bytes. rewrite <- app_assoc.
    rewrite readUint32_put by done. cbn [mbind outcome_bind app readByte]. rewrite Hl, He, negb_involutive.
    by destruct p.
Qed.

Lemma parse_headers p : op_ok (OpHeaders p) -> op_valid (OpHeaders p) -> parses_back (OpHeaders p).
Proof.
  intros (_ & Hpl & Hne & Hdep & _) [Hs Hd]. unfold parses_back, frame_of, op_header. cbn [op_wire].
  change (typeFrameParser FrameHeaders) with parseHeadersFrame. unfold parseHeadersFrame.
  cbn [fh_of StreamID Flags]. destruct (mod_id _ Hs) as [Hm Hz]. rewrite Hm, Hz.
  destruct (headers_flags (negb (hp_PadLength p =? 0)) (hp_EndStream p) (hp_EndHeaders p)
    (negb (PriorityParam_IsZero (hp_Priority p)))) as [-> ->].
  unfold byte_ok, in_width in *.
  rewrite read_pad. cbn [mbind outcome_bind].
  set (body := hp_BlockFragment p ++ padZeros (hp_PadLength p)).
  rewrite read_prio by lia. cbn [mbind outcome_bind].
  assert (Hlen : len body - hp_PadLength p = len (hp_BlockFragment p)).
  { unfold body. rewrite len_app, len_padZeros by lia. lia. }
  rewrite Hlen. assert (0 < len (hp_BlockFragment p)).
  { destruct (hp_BlockFragment p) as [|b l]; [done|]. rewrite len_cons. pose proof (len_nonneg l). lia. }
  rewrite (proj2 (Z.leb_gt _ _)) by done. unfold body. rewrite upto_app_len by done.
  unfold fh_of. by rewrite Hm.
Qed.

Lemma parse_push p : op_ok (OpPushPromise p) -> op_valid (OpPushPromise p) -> parses_back (OpPushPromise p).
Proof.
  intros (_ & Hprom & Hpl) [Hs Hd]. unfold parses_back, frame_of, op_header. cbn [op_wire].
  change (typeFrameParser FramePushPromise) with parsePushPromise. unfold parsePushPromise.
  cbn [fh_of StreamID Flags]. destruct (mod_id _ Hs) as [Hm Hz]. rewrite Hm, Hz, push_flags.
  unfold byte_ok, in_width in Hpl.
  rewrite read_pad. cbn [mbind outcome_bind]. rewrite readUint32_put by done. cbn [mbind outcome_bind].
  rewrite (land_mask 31) by (lia || done). rewrite (Z.mod_small (pp_PromiseID p)) by lia.
  rewrite len_app, len_padZeros by lia. pose proof (len_nonneg (pp_BlockFragment p)).
  rewrite (proj2 (Z.ltb_ge _ _)) by lia. rewrite upto_app_len by lia. unfold fh_of. by rewrite Hm.
Qed.

Lemma parse_rest o : op_ok o -> op_valid o ->
  match o with OpData _ _ _ _ | OpHeaders _ | OpPushPromise _ => False | _ => True end -> parses_back o.
Proof.
  intros Hok Hv Ho. unfold parses_back, frame_of, op_header.
  destruct o; try done; cbn [op_wire op_ok op_valid] in *.
  - change (typeFrameParser FramePriority) with parsePriorityFrame. unfold parsePriorityFrame.
    cbn [fh_of StreamID]. destruct Hv as [Hs Hd]. destruct (mod_id sid Hs) as [Hm Hz]. rewrite Hm, Hz.
    destruct Hok as (_ & Hdep & Hw). unfold in_width in Hdep.
    destruct (prio_value p ltac:(lia)) as (Hvv & Hl & He). unfold prio_bytes.
    rewrite upto_app_len by done. rewrite be_put4_get, Hl by done.
    rewrite (Z.eqb_sym (StreamDep p)), He, negb_involutive. unfold fh_of. rewrite Hm. by destruct p.
  - change (typeFrameParser FrameRSTStream) with parseRSTStreamFrame. unfold parseRSTStreamFrame.
    cbn [fh_of StreamID]. destruct (mod_id sid Hv) as [Hm Hz]. rewrite len_be_put, Hm, Hz. cbn [negb Z.eqb].
    unfold upto. rewrite take_ge by done. rewrite be_put4_get by apply Hok. unfold fh_of. by rewrite Hm.
  - change (typeFrameParser FrameSettings) with parseSettingsFrame. unfold parseSettingsFrame.
    cbn [fh_of StreamID Flags]. change (Has 0 FlagSettingsAck) with false. cbn [andb]. rewrite settings_len.
    change (0 mod 2 ^ 31) with 0. cbn [negb Z.eqb]. unfold SettingsFrame_Value.
    destruct (settings_value_ok l Hok) as (v & ok & Hval & Hb).
    rewrite Hval.
    change (checkValid (fh_of FrameSettings 0 0 (settings_bytes l))) with (@Ok http2_error _ tt).
    cbn [mbind outcome_bind]. rewrite (proj2 (Z.ltb_ge _ _)) by lia. by rewrite andb_false_r.
  - change (typeFrameParser FramePing) with parsePingFrame. unfold parsePingFrame. by rewrite Hok.
  - change (typeFrameParser FrameGoAway) with parseGoAwayFrame. unfold parseGoAwayFrame. cbn [fh_of StreamID].
    destruct Hok as [Hm Hc]. rewrite !len_app, !len_be_put. pose proof (len_nonneg debugData).
    rewrite (proj2 (Z.ltb_ge _ _)) by lia. cbn [negb Z.eqb].
    assert (Hw : in_width 32 (maxStreamID mod 2 ^ 31)).
    { unfold in_width. pose proof (Z.mod_pos_bound maxStreamID (2 ^ 31)). lia. }
    rewrite (upto_app_len 4), (from_app_len 4), (upto_app_len 4) by done.
    rewrite app_assoc, from_app_len by (rewrite len_app, !len_be_put; done).
    rewrite !be_put4_get, (land_mask 31), Z.mod_mod by (done || lia). done.
  - change (typeFrameParser FrameWindowUpdate) with parseWindowUpdateFrame. unfold parseWindowUpdateFrame.
    rewrite len_be_put. cbn [negb Z.eqb]. unfold upto. rewrite take_ge by done.
    rewrite be_put4_get, (land_mask 31), Z.mod_small by (apply Hok || done || lia).
    rewrite (proj2 (Z.eqb_neq incr 0)) by lia. done.
  - change (typeFrameParser FrameContinuation) with parseContinuationFrame. unfold parseContinuationFrame.
    cbn [fh_of StreamID]. by destruct (mod_id sid Hv) as [-> ->].
  - destruct Hok as (Ht & Hc & _). unfold FrameContinuation in Hc. unfold typeFrameParser,
      FrameData, FrameHeaders, FramePriority, FrameRSTStream, FrameSettings, FramePushPromise, FramePing,
      FrameGoAway, FrameWindowUpdate, FrameContinuation.
    by rewrite !(proj2 (Z.eqb_neq _ _)) by lia.
Qed.

Lemma op_parses_back o : op_ok o -> op_valid o -> parses_back o.
Proof.
  intros Hok Hv. destruct o; try (by apply parse_rest);
    [by apply parse_data|by apply parse_headers|by apply parse_push].
Qed.

Lemma op_sid_width o : op_ok o -> let '(t, flags, sid, payload) := op_wire o in in_width 32 sid.
Proof. destruct o; simpl; intros; intuition; by compute. Qed.

(** C3. Every frame a [Framer] that respects the protocol writes without an
    error is read back: the bytes handed to the writer, followed by anything,
    make [read_one] parse the frame with the arguments of the call (padding
    stripped, priority and flags decoded, reserved bits cleared), consume
    exactly those bytes, and submit it to the frame order check. *)
Theorem frames_roundtrip {IO} (w : bytes -> Z * option IO) o fr fr' rd rest :
  AllowIllegalWrites fr = false -> op_ok o -> run_op w o fr = (fr', None) ->
  len (wbuf fr') - frameHeaderLen <= maxReadSize rd ->
  read_one rd (wbuf fr' ++ rest) = accept (frame_of o) rd rest.
Proof.
  intros Hill Hok Hrun. pose proof (run_op_wire w o fr fr' Hill Hok Hrun) as Hw.
  pose proof (op_parses_back o Hok) as Hp. pose proof (op_sid_width o Hok) as Hs. unfold parses_back in Hp.
  destruct (op_wire o) as [[[t flags] sid] payload]. destruct Hw as (-> & Hl & Hv). intros Hmax.
  apply read_one_wire; auto. unfold wire, frameHeaderLen in Hmax.
  rewrite !len_app, !len_be_put in Hmax. change (len [t; flags]) with 2 in Hmax. lia.
Qed.

Definition sample_headers : frame_op :=
  OpHeaders (mkHeadersParam 3 (str "block") true true 2 (mkPrio 1 true 200)).

Definition quiet_writer (b : bytes) : Z * option Empty_set := (len b, None).

Lemma frames_roundtrip_witness :
  exists fr', run_op quiet_writer sample_headers NewFramer = (fr', None) /\
    read_one NewFramer (wbuf fr' ++ [1; 2]) = accept (frame_of sample_headers) NewFramer [1; 2].
Proof.
  eexists. split; [reflexivity|]. eapply (frames_roundtrip quiet_writer sample_headers NewFramer).
  - reflexivity.
  - repeat split; (done || by compute).
  - reflexivity.
  - by compute.
Defined.
