(* ===== verification/Http2FrameSpec.v ===== *)
(** What a [Framer] guarantees of the frames it returns: the order of header
    blocks, and the contents of merged header blocks. *)
From S2P Require Import Prelude Httplex Http2Errors HpackTables HpackDecoder HpackSafety Http2Frame Http2Framer.

(** * Frame order *)

(** A frame that leaves a header block open. *)
Definition unfinished (h : FrameHeader) : bool :=
  ((Type_ h =? FrameHeaders) || (Type_ h =? FrameContinuation)) && negb (Has (Flags h) FlagHeadersEndHeaders).

(** What may follow [h]. *)
Definition follows (h h' : FrameHeader) : Prop :=
  if unfinished h then Type_ h' = FrameContinuation /\ StreamID h' = StreamID h
  else Type_ h' <> FrameContinuation.

Definition open_stream (h : FrameHeader) : Z := if unfinished h then StreamID h else 0.

(** What may come when [open] is the stream of an open header block (or 0). *)
Definition may_come (open : Z) (h : FrameHeader) : Prop :=
  if open =? 0 then Type_ h <> FrameContinuation
  else Type_ h = FrameContinuation /\ StreamID h = open.

#[global] Instance may_come_dec open h : Decision (may_come open h).
Proof. unfold may_come. destruct (open =? 0); apply _. Defined.

(** [checkFrameOrder] is the automaton [may_come]. *)
Lemma checkFrameOrder_spec f fr :
  AllowIllegalReads fr = false -> (lastHeaderStream fr <> 0 -> lastFrame fr <> None) ->
  exists fr', lastFrame fr' = Some f /\ AllowIllegalReads fr' = false /\
    ReadMetaHeaders fr' = ReadMetaHeaders fr /\ MaxHeaderListSize fr' = MaxHeaderListSize fr /\
    if decide (may_come (lastHeaderStream fr) (Header f)) then
      checkFrameOrder f fr = (fr', Ok tt) /\ lastHeaderStream fr' = open_stream (Header f)
    else
      checkFrameOrder f fr = (fr', Fail (ConnectionError ErrCodeProtocol)) /\
      lastHeaderStream fr' = lastHeaderStream fr /\ exists reason, errDetail fr' = Some (Reason reason).
Proof.
  intros Hill Hlast. unfold checkFrameOrder, open_stream, unfinished.
  cbn [AllowIllegalReads lastHeaderStream with_lastFrame]. rewrite Hill.
  destruct (decide (may_come (lastHeaderStream fr) (Header f))) as [Hm|Hm]; unfold may_come in Hm;
    destruct (Z.eqb_spec (lastHeaderStream fr) 0) as [Hz|Hnz]; cbn [negb].
  - rewrite (proj2 (Z.eqb_neq _ _) Hm), orb_false_r.
    destruct (Type_ (Header f) =? FrameHeaders), (Has (Flags (Header f)) FlagHeadersEndHeaders); cbn [andb negb];
      (eexists; split_and!; [..|reflexivity|]; done).
  - destruct Hm as [-> ->]. rewrite !Z.eqb_refl, orb_true_r. cbn [negb].
    destruct (Has (Flags (Header f)) FlagHeadersEndHeaders); cbn [andb negb];
      (eexists; split_and!; [..|reflexivity|]; done).
  - destruct (Z.eqb_spec (Type_ (Header f)) FrameContinuation) as [He|Hne]; [|done].
    eexists. split_and!; [..|reflexivity|done|by eexists]; done.
  - destruct (Z.eqb_spec (Type_ (Header f)) FrameContinuation) as [He|Hne]; cbn [negb].
    + destruct (Z.eqb_spec (StreamID (Header f)) (lastHeaderStream fr)) as [Hs|Hs]; [tauto|]. cbn [negb].
      eexists. split_and!; [..|reflexivity|done|by eexists]; done.
    + destruct (lastFrame fr) as [l|] eqn:Hl; [|by destruct (Hlast Hnz)].
      eexists. split_and!; [..|reflexivity|done|by eexists]; done.
Qed.

(** The header of a parsed frame is the one read, and header blocks are on a
    stream. *)
Lemma parsed_header t fh p f : typeFrameParser t fh p = Ok f ->
  Header f = fh /\ (t = FrameHeaders \/ t = FrameContinuation -> StreamID fh <> 0).
Proof.
  intros H. unfold typeFrameParser in H.
  repeat match type of H with (if ?c then _ else _) _ _ = _ => destruct c eqn:? end;
  unfold parseDataFrame, parseHeadersFrame, parsePriorityFrame, parseRSTStreamFrame, parseSettingsFrame,
    parsePushPromise, parsePingFrame, parseGoAwayFrame, parseWindowUpdateFrame, parseContinuationFrame,
    parseUnknownFrame in H;
  repeat match type of H with
  | (if ?c then _ else _) = Ok _ => destruct c eqn:?; try discriminate H
  | ?m ≫= _ = Ok _ => let E := fresh "E" in destruct m as [[]|?|] eqn:E; cbn [mbind outcome_bind] in H; try discriminate H
  end;
  try (injection H as <-; split; [done|]);
  unfold FrameData, FrameHeaders, FramePriority, FrameRSTStream, FrameSettings, FramePushPromise, FramePing,
    FrameGoAway, FrameWindowUpdate, FrameContinuation in *; try lia.
Qed.

Lemma read_one_Ok fr r fr' r' f : read_one fr r = (fr', r', Ok f) ->
  exists fh payload, typeFrameParser (Type_ fh) fh payload = Ok f /\ Header f = fh /\
    checkFrameOrder f (with_lastFrame (invalidate <$> lastFrame fr) (with_errDetail None fr)) = (fr', Ok tt).
Proof.
  unfold read_one. intros H. destruct (readFrameHeader r) as [[fh|e|] r1]; try done.
  destruct (_ <? Length fh); [done|]. destruct (read_full (Length fh) r1) as [[payload|e|] r2]; try done.
  destruct (typeFrameParser (Type_ fh) fh payload) as [g|e|] eqn:Hp; [|by destruct e|done].
  destruct (checkFrameOrder g _) as [fr1 [u|e|]] eqn:Hc; try done. injection H as <- _ <-. destruct u.
  exists fh, payload. split; [done|]. split; [by eapply parsed_header|done].
Qed.

(** The state between two frames: [h] is the last one returned. *)
Definition between (h : FrameHeader) (fr : Framer) : Prop :=
  AllowIllegalReads fr = false /\ lastHeaderStream fr = open_stream h /\
  (exists f, lastFrame fr = Some f) /\ (unfinished h = true -> StreamID h <> 0).

Lemma read_one_order fr r fr' r' f :
  AllowIllegalReads fr = false -> (lastHeaderStream fr <> 0 -> lastFrame fr <> None) ->
  read_one fr r = (fr', r', Ok f) ->
  may_come (lastHeaderStream fr) (Header f) /\ between (Header f) fr' /\
  ReadMetaHeaders fr' = ReadMetaHeaders fr /\ MaxHeaderListSize fr' = MaxHeaderListSize fr.
Proof.
  intros Hill Hlast H. destruct (read_one_Ok _ _ _ _ _ H) as (fh & payload & Hp & Hh & Hc).
  set (fr1 := with_lastFrame _ _) in Hc.
  destruct (checkFrameOrder_spec f fr1 Hill) as (fr2 & Hl2 & Hi2 & Hm2 & Hs2 & Hdec).
  { unfold fr1. simpl. intros Hne. specialize (Hlast Hne). by destruct (lastFrame fr). }
  change (lastHeaderStream fr1) with (lastHeaderStream fr) in Hdec.
  destruct (decide (may_come (lastHeaderStream fr) (Header f))) as [Hm|Hm].
  - destruct Hdec as [Hc2 Ho]. rewrite Hc in Hc2. injection Hc2 as <-. split; [done|]. split; [|done].
    split; [done|]. split; [done|]. split; [by eexists|]. rewrite Hh. unfold unfinished.
    intros [Ht _]%andb_true_iff. apply (parsed_header _ _ _ _ Hp). lia.
  - destruct Hdec as [Hc2 _]. by rewrite Hc in Hc2.
Qed.

(** Frames read in a row. *)
Inductive reads : Framer -> bytes -> list Frame -> Framer -> bytes -> Prop :=
| reads_nil fr r : reads fr r [] fr r
| reads_cons fr r f fr1 r1 fs fr2 r2 :
    read_one fr r = (fr1, r1, Ok f) -> reads fr1 r1 fs fr2 r2 -> reads fr r (f :: fs) fr2 r2.

Lemma reads_follow fr r fs fr' r' h : reads fr r fs fr' r' -> between h fr ->
  forall i f f', (h :: (Header <$> fs)) !! i = Some f -> (Header <$> fs) !! i = Some f' -> follows f f'.
Proof.
  intros Hr. revert h. induction Hr as [|fr r f fr1 r1 fs fr2 r2 H1 _ IH]; intros h Hb i g g' Hg Hg'; [done|].
  destruct Hb as (Hill & Ho & (l & Hl) & Hsid).
  destruct (read_one_order _ _ _ _ _ Hill ltac:(by rewrite Hl) H1) as (Hm & Hb1 & _).
  destruct i as [|i]; cbn in Hg, Hg'; [|by apply (IH (Header f) Hb1 i)].
  injection Hg as <-. injection Hg' as <-. unfold follows, may_come in *. rewrite Ho in Hm. unfold open_stream in Hm.
  destruct (unfinished h) eqn:Hu; [|by apply Hm]. rewrite (proj2 (Z.eqb_neq _ _)) in Hm; auto.
Qed.

(** C10. Header blocks are contiguous. In any run of frames a fresh [Framer]
    (without [AllowIllegalReads]) returns, the first is not a CONTINUATION; a
    HEADERS or CONTINUATION frame without END_HEADERS is followed by a
    CONTINUATION of the same stream, and no other frame by a CONTINUATION. *)
Theorem header_blocks_contiguous fr r fs fr' r' :
  AllowIllegalReads fr = false -> lastHeaderStream fr = 0 -> reads fr r fs fr' r' ->
  (forall f, fs !! 0%nat = Some f -> Type_ (Header f) <> FrameContinuation) /\
  (forall i f f', fs !! i = Some f -> fs !! S i = Some f' -> follows (Header f) (Header f')).
Proof.
  intros Hill Hz Hr. inversion Hr as [|? ? f fr1 r1 fs1 ? ? H1 Hr1]; subst; [split; by intros|].
  destruct (read_one_order _ _ _ _ _ Hill ltac:(by rewrite Hz) H1) as (Hm & Hb & _).
  rewrite Hz in Hm. unfold may_come in Hm. cbn [Z.eqb] in Hm. split; [by intros ? [= <-]|].
  intros i g g' Hg Hg'. change (fs1 !! i = Some g') in Hg'.
  assert (H0 : (Header f :: (Header <$> fs1)) !! i = Some (Header g)).
  { change (Header f :: (Header <$> fs1)) with (Header <$> (f :: fs1)). rewrite list_lookup_fmap. by rewrite Hg. }
  assert (H2 : (Header <$> fs1) !! i = Some (Header g')) by (rewrite list_lookup_fmap; by rewrite Hg').
  exact (reads_follow _ _ _ _ _ _ Hr1 Hb i _ _ H0 H2).
Qed.

Definition sample_frames : bytes :=
  [0; 0; 1; 1; 1; 0; 0; 0; 3; 0x82] ++ [0; 0; 1; 9; 4; 0; 0; 0; 3; 0x84] ++ [0; 0; 0; 0; 1; 0; 0; 0; 3].

Fixpoint read_frames (n : nat) (fr : Framer) (r : bytes) : option (list Frame * Framer * bytes) :=
  match n with
  | O => Some ([], fr, r)
  | S n =>
      match read_one fr r with
      | (fr, r, Ok f) =>
          match read_frames n fr r with Some (fs, fr, r) => Some (f :: fs, fr, r) | None => None end
      | _ => None
      end
  end.

Lemma read_frames_reads n fr r fs fr' r' : read_frames n fr r = Some (fs, fr', r') -> reads fr r fs fr' r'.
Proof.
  revert fr r fs. induction n as [|n IH]; intros fr r fs H; simpl in H; [simplify_eq; constructor|].
  destruct (read_one fr r) as [[fr1 r1] [f|e|]] eqn:H1; [|done..].
  destruct (read_frames n fr1 r1) as [[[fs1 fr2] r2]|] eqn:H2; [|done]. simplify_eq.
  econstructor; [done|by apply IH].
Qed.

Lemma header_blocks_contiguous_witness :
  exists fs fr', reads NewFramer sample_frames fs fr' [] /\
    (forall f, fs !! 0%nat = Some f -> Type_ (Header f) <> FrameContinuation) /\
    (forall i f f', fs !! i = Some f -> fs !! S i = Some f' -> follows (Header f) (Header f')).
Proof.
  destruct (read_frames 3 NewFramer sample_frames) as [[[fs fr'] r']|] eqn:H; [|vm_compute in H; discriminate H].
  assert (Hr : r' = []) by (vm_compute in H; congruence). subst r'. apply read_frames_reads in H.
  exists fs, fr'. split; [exact H|]. exact (header_blocks_contiguous NewFramer sample_frames fs fr' [] eq_refl eq_refl H).
Defined.
