(* ===== verification/Http2Meta.v ===== *)
(** The merged header blocks a [Framer] returns are well formed. *)
From S2P Require Import Prelude Httplex Http2Errors HpackVarint HpackTables HpackDecoder HpackSafety.
From S2P Require Import Http2Frame Http2Framer Http2FrameSpec.

(** * The callback's invariant *)

Definition request_names : list bytes := [str ":method"; str ":path"; str ":scheme"; str ":authority"].

Definition regular_ok (f : HeaderField) : Prop :=
  IsPseudo f = false /\ validWireHeaderFieldName (Name f) = true.

Record meta_inv (max : Z) (st : meta_state) : Prop := {
  mi_split : exists ps rs, ms_Fields st = ps ++ rs /\ Forall (fun f => IsPseudo f = true) ps /\
    Forall regular_ok rs /\ (sawRegular st = false -> rs = []);
  mi_values : Forall (fun f => ValidHeaderFieldValue (Value f) = true) (ms_Fields st);
  mi_size : remainSize st + total (ms_Fields st) = max /\ in_width 32 (remainSize st) }.

Lemma IsPseudo_prefix f : IsPseudo f = bool_decide (upto 1 (Name f) = str ":").
Proof.
  unfold IsPseudo. destruct (Name f) as [|b l]; [done|]. rewrite len_cons.
  rewrite (proj2 (Z.eqb_neq _ _)) by (pose proof (len_nonneg l); lia). cbn [negb andb].
  change (upto 1 (b :: l)) with [b]. change (str ":") with [58].
  destruct (Z.eqb_spec b 58) as [->|Hne]; [done|]. symmetry. apply bool_decide_eq_false. congruence.
Qed.

Lemma meta_emit_inv max f st : meta_inv max st -> meta_inv max (meta_emit f st).1.
Proof.
  intros [(ps & rs & Hf & Hps & Hrs & Hsaw) Hv [Hs Hw]]. unfold meta_emit. rewrite <- IsPseudo_prefix.
  set (inv1 := if negb (ValidHeaderFieldValue (Value f)) then _ else _).
  set (inv2 := if IsPseudo f then _ else _).
  assert (Hstop : forall tr inv, meta_inv max (mkMS (ms_Fields st) tr (remainSize st)
    (sawRegular st || negb (IsPseudo f)) inv)).
  { intros tr inv. split; simpl; [|done|done]. exists ps, rs. split_and!; [done..|].
    intros [? _]%orb_false_iff. auto. }
  destruct inv2 as [e|] eqn:Hi2; [apply Hstop|].
  destruct (Z.ltb_spec (remainSize st) (Size f)) as [|Hle]; [apply Hstop|]. cbn [fst].
  assert (Hi1 : inv1 = None) by (unfold inv2 in Hi2; repeat case_match; done).
  assert (Hval : ValidHeaderFieldValue (Value f) = true).
  { unfold inv1 in Hi1. by destruct (ValidHeaderFieldValue (Value f)). }
  pose proof (Size_range f) as Hsz. unfold in_width in *.
  split; simpl.
  - rewrite Hf. unfold inv2 in Hi2. destruct (IsPseudo f) eqn:Hp.
    + destruct (sawRegular st) eqn:Hsr; [done|]. rewrite (Hsaw eq_refl), app_nil_r. exists (ps ++ [f]), [].
      rewrite app_nil_r. split_and!; [done| |constructor|done]. apply Forall_app; by split; [|constructor].
    + destruct (validWireHeaderFieldName (Name f)) eqn:Hn; [|done]. exists ps, (rs ++ [f]).
      rewrite app_assoc. split_and!; [done|done| |by rewrite orb_true_r].
      apply Forall_app; split; [done|]. by constructor.
  - apply Forall_app; split; [done|]. by constructor.
  - unfold u32. rewrite wrap_id by (unfold in_width; lia). rewrite total_app. simpl. split; unfold in_width; lia.
Qed.

Lemma meta_loop_inv (I : meta_state -> Prop) (HI : forall f st, I st -> I (meta_emit f st).1)
    fuel next hc fr r hdec st fr' r' hdec' st' :
  meta_loop fuel next hc fr r hdec st = Some (fr', r', hdec', Ok st') -> I st -> I st'.
Proof.
  revert hc fr r hdec st. induction fuel as [|fuel IH]; intros hc fr r hdec st H Hst; cbn [meta_loop] in H;
    (destruct (HeaderBlockFragment hc) as [frag|e|]; [|done..]);
    (destruct (Write meta_emit hdec st frag) as [[[[d1 st1] [e|]]|e|]|] eqn:HW; try done);
    pose proof (Write_I meta_emit I HI _ _ _ _ _ _ HW Hst) as Hst1; destruct (HeadersEnded hc); try (by simplify_eq).
  destruct (next fr r) as [[fr1 r1] [f|e|]]; [|done..]. destruct f; try done. by eapply IH.
Qed.

(** * Pseudo headers *)

Lemma pseudo_fields_split ps rs :
  Forall (fun f => IsPseudo f = true) ps -> Forall regular_ok rs -> pseudo_fields (ps ++ rs) = ps.
Proof.
  induction 1 as [|f ps Hf _ IH]; intros Hrs; simpl; [|by rewrite Hf, IH].
  destruct Hrs as [|f rs [Hf _] _]; [done|]. simpl. by rewrite Hf.
Qed.

Definition status_name (n : bytes) : Prop := n = str ":status".
Definition request_name (n : bytes) : Prop := n ∈ request_names.

Lemma pseudo_disjoint n : request_name n -> ~ status_name n.
Proof.
  unfold request_name, status_name. intros Hr Hs. rewrite Hs in Hr. revert Hr.
  apply (bool_decide_unpack (str ":status" ∉ request_names)). by vm_compute.
Qed.

Lemma pseudo_loop_ok seen pf req resp :
  pseudo_loop seen pf req resp = None ->
  req && resp = false /\
  NoDup (Name <$> pf) /\ Forall (fun f => Name f ∉ Name <$> seen) pf /\
  Forall (fun f => request_name (Name f) \/ status_name (Name f)) pf /\
  (req = true -> Forall (fun f => ~ status_name (Name f)) pf) /\
  (resp = true -> Forall (fun f => ~ request_name (Name f)) pf).
Proof.
  revert seen req resp. induction pf as [|f pf IH]; intros seen req resp H; cbn [pseudo_loop] in H.
  { split; [by destruct (req && resp)|]. split_and!; try constructor; done. }
  change [str ":method"; str ":path"; str ":scheme"; str ":authority"] with request_names in H.
  set (rq := bool_decide (Name f ∈ request_names)) in *.
  set (sn := bool_decide (Name f = str ":status")) in *.
  destruct (negb rq && negb sn) eqn:Hk; [done|].
  destruct (existsb _ seen) eqn:Hex; [done|].
  destruct (IH _ _ _ H) as (Hboth & Hnd & Hseen & Hknown & Hreq & Hresp). clear IH H.
  assert (Hns : Name f ∉ Name <$> seen).
  { intros (g & Hg & Hin)%list_elem_of_fmap. apply not_true_iff_false in Hex. apply Hex.
    apply existsb_exists. exists g. split; [by apply list_elem_of_In|]. by apply bool_decide_eq_true. }
  assert (Hnf : Name f ∉ Name <$> pf).
  { intros (g & Hg & Hin)%list_elem_of_fmap. rewrite Forall_forall in Hseen. apply (Hseen g Hin).
    rewrite fmap_app. apply elem_of_app. right. rewrite <- Hg. apply list_elem_of_here. }
  assert (Hrq : rq = true <-> request_name (Name f)) by (apply bool_decide_eq_true).
  assert (Hsn : sn = true <-> status_name (Name f)) by (apply bool_decide_eq_true).
  split_and!.
  - by destruct req, resp, rq, sn.
  - rewrite fmap_cons. by constructor.
  - constructor; [done|]. eapply Forall_impl; [exact Hseen|]. intros g Hg Hc. apply Hg.
    rewrite fmap_app. apply elem_of_app. by left.
  - constructor; [|done]. rewrite <- Hrq, <- Hsn. destruct rq, sn; auto.
  - intros ->. constructor; [|by apply Hreq]. rewrite <- Hsn. by destruct rq, sn, resp.
  - intros ->. constructor; [|apply Hresp; by destruct sn]. rewrite <- Hrq. by destruct rq, sn, req.
Qed.

(** Pseudo headers of one kind only, each at most once. *)
Definition pseudos_ok (ps : list HeaderField) : Prop :=
  NoDup (Name <$> ps) /\
  (Forall (fun f => request_name (Name f)) ps \/ Forall (fun f => status_name (Name f)) ps).

Lemma pseudo_loop_kind seen pf req resp : pseudo_loop seen pf req resp = None -> pseudos_ok pf.
Proof.
  intros H. pose proof (pseudo_loop_ok _ _ _ _ H) as (_ & Hnd & _). split; [done|]. clear Hnd.
  destruct pf as [|f pf]; [by left|]. cbn [pseudo_loop] in H.
  change [str ":method"; str ":path"; str ":scheme"; str ":authority"] with request_names in H.
  destruct (bool_decide (Name f ∈ request_names)) eqn:Hr, (bool_decide (Name f = str ":status")) eqn:Hs;
    cbn [negb andb] in H; try done; (destruct (existsb _ seen); [done|]);
    apply pseudo_loop_ok in H as (_ & _ & _ & Hk & Hq & Hp); rewrite ?orb_true_r in *.
  1, 2: left; constructor; [exact (proj1 (bool_decide_eq_true _) Hr)|]; specialize (Hq eq_refl);
    rewrite Forall_forall in *; intros g Hg; destruct (Hk g Hg) as [|Hc]; [done|by destruct (Hq g Hg)].
  right. constructor; [exact (proj1 (bool_decide_eq_true _) Hs)|]. specialize (Hp eq_refl).
  rewrite Forall_forall in *. intros g Hg. destruct (Hk g Hg) as [Hc|]; [by destruct (Hp g Hg)|done].
Qed.

(** * The merged frame *)

(** What [MetaHeadersFrame]'s documentation guarantees of [Fields], with the
    size limit. *)
Definition meta_good (max : Z) (mh : MetaHeadersFrame) : Prop :=
  exists ps rs, Fields mh = ps ++ rs /\ pseudos_ok ps /\ Forall regular_ok rs /\
    Forall (fun f => ValidHeaderFieldValue (Value f) = true) (Fields mh) /\ total (Fields mh) <= max.

Lemma maxHeaderListSize_width fr : in_width 32 (MaxHeaderListSize fr) -> in_width 32 (maxHeaderListSize fr).
Proof. unfold maxHeaderListSize. intros H. destruct (_ =? 0); [unfold in_width; lia|exact H]. Qed.

Lemma readMetaFrame_good h prio frag hdec fr r fr' r' mh :
  in_width 32 (MaxHeaderListSize fr) ->
  readMetaFrame h prio frag hdec fr r = Some (fr', r', Ok mh) -> meta_good (maxHeaderListSize fr) mh.
Proof.
  intros Hw. unfold readMetaFrame. destruct (AllowIllegalReads fr); [done|].
  set (st0 := mkMS [] false (maxHeaderListSize fr) false None).
  destruct (meta_loop _ _ _ _ _ _ st0) as [[[[fr1 r1] d1] [st|e|]]|] eqn:Hm; try done.
  assert (Hinv : meta_inv (maxHeaderListSize fr) st).
  { eapply (meta_loop_inv (meta_inv (maxHeaderListSize fr))); [by apply meta_emit_inv|exact Hm|].
    split; simpl; [exists [], []; by split_and!|done|]. split; [lia|by apply maxHeaderListSize_width]. }
  destruct Hinv as [(ps & rs & Hf & Hps & Hrs & _) Hv [Hs Hr]].
  destruct (Close d1) as [d2 [e|]]; [done|]. destruct (invalid st); [done|].
  destruct (checkPseudos _) as [e|] eqn:Hp; [done|]. intros [= _ _ <-].
  unfold checkPseudos, PseudoFields in Hp. simpl in Hp. rewrite Hf, pseudo_fields_split in Hp by done.
  exists ps, rs. simpl. split_and!; [done|by eapply pseudo_loop_kind|done|done|]. unfold in_width in Hr. lia.
Qed.


Definition meta_framer : Framer :=
  mkFramer None None 0 16384 [] false false
    (Some (mkDec (mkDyn table_init 0 4096 4096) true 0 [])) 0.

(** HEADERS with [:method: GET] and, in a CONTINUATION, [:path: /]. *)
Definition meta_input : bytes :=
  [0; 0; 1; 1; 1; 0; 0; 0; 3; 0x82] ++ [0; 0; 1; 9; 4; 0; 0; 0; 3; 0x84].

