(* ===== verification/Http2Flow.v ===== *)
(** HTTP/2 flow control windows: [http2/flow.go].

    A stream's [flow] points to the [flow] of its connection, which all streams
    share: flows live in a store and are named by pointers. *)
From S2P Require Import Prelude.

Record flow := mkFlow { n : Z; conn : option positive }.

Abbreviation flows := (gmap positive flow).

(** The only failures are panics: a nil pointer or [take]'s own. *)
Abbreviation fl A := (outcome Empty_set A).

Definition deref (fs : flows) (p : positive) : fl flow := or_panic (fs !! p).

Definition setConnFlow (f cf : positive) (fs : flows) : fl flows :=
  x ← deref fs f; Ok (<[f := mkFlow (n x) (Some cf)]> fs).

Definition available (f : positive) (fs : flows) : fl Z :=
  x ← deref fs f;
  match conn x with
  | None => Ok (n x)
  | Some c => y ← deref fs c; Ok (if n y <? n x then n y else n x)
  end.

Definition sub_n (p : positive) (k : Z) (fs : flows) : fl flows :=
  x ← deref fs p; Ok (<[p := mkFlow (i32 (n x - k)) (conn x)]> fs).

Definition take (f : positive) (k : Z) (fs : flows) : fl flows :=
  a ← available f fs;
  if a <? k then Panic
  else
    fs ← sub_n f k fs;
    x ← deref fs f;
    match conn x with
    | None => Ok fs
    | Some c => sub_n c k fs
    end.

Definition add (f : positive) (k : Z) (fs : flows) : fl (flows * bool) :=
  x ← deref fs f;
  let remain := i32 (2 ^ 31 - 1 - n x) in
  if remain <? k then Ok (fs, false)
  else Ok (<[f := mkFlow (i32 (n x + k)) (conn x)]> fs, true).

(** * Lemmas *)

Definition window (w : Z) : Prop := - 2 ^ 31 <= w < 2 ^ 31.

Lemma i32_window z : window (i32 z).
Proof. pose proof (signed_range 32 z ltac:(lia)). unfold window, i32. lia. Qed.

Lemma i32_id z : window z -> i32 z = z.
Proof. intros. apply signed_id; [lia|]. by change (32 - 1) with 31. Qed.

Lemma add_nonneg f k fs x :
  fs !! f = Some x -> 0 <= n x < 2 ^ 31 -> window k ->
  add f k fs = if decide (n x + k < 2 ^ 31) then Ok (<[f := mkFlow (n x + k) (conn x)]> fs, true) else Ok (fs, false).
Proof.
  intros Hf Hn Hk. unfold add, deref. rewrite Hf. cbn [or_panic mbind outcome_bind]. unfold window in Hk.
  rewrite i32_id by (unfold window; lia). case_decide.
  - rewrite (proj2 (Z.ltb_ge _ _)) by lia. by rewrite i32_id by (unfold window; lia).
  - by rewrite (proj2 (Z.ltb_lt _ _)) by lia.
Qed.

(** The subtraction overflows when the window is negative. *)
Lemma add_negative f k fs x :
  fs !! f = Some x -> - 2 ^ 31 <= n x < 0 -> 0 <= k -> add f k fs = Ok (fs, false).
Proof.
  intros Hf Hn Hk. unfold add, deref. rewrite Hf. cbn [or_panic mbind outcome_bind].
  assert (Hr : i32 (2 ^ 31 - 1 - n x) = - 2 ^ 31 - 1 - n x).
  { unfold i32, signed. change (32 - 1) with 31.
    replace (2 ^ 31 - 1 - n x + 2 ^ 31) with (- 1 - n x + 1 * 2 ^ 32) by lia.
    rewrite Z.mod_add, Z.mod_small by lia. lia. }
  rewrite Hr. by rewrite (proj2 (Z.ltb_lt _ _)) by lia.
Qed.

(** A stream [s] and its connection [c]. *)
Definition linked (fs : flows) (s c : positive) (ws wc : Z) : Prop :=
  s <> c /\ fs !! s = Some (mkFlow ws (Some c)) /\ fs !! c = Some (mkFlow wc None).

Lemma take_spec fs s c ws wc k :
  linked fs s c ws wc -> window ws -> window wc -> 0 <= k ->
  take s k fs = if decide (k <= Z.min ws wc)
                then Ok (<[c := mkFlow (wc - k) None]> (<[s := mkFlow (ws - k) (Some c)]> fs)) else Panic.
Proof.
  intros (Hne & Hs & Hc) Hws Hwc Hk. unfold take, available, deref. rewrite Hs.
  cbn [or_panic mbind outcome_bind conn n]. rewrite Hc. cbn [or_panic mbind outcome_bind n].
  assert (Ha : (if wc <? ws then wc else ws) = Z.min ws wc) by (z_cases; lia). rewrite Ha.
  unfold window in *. case_decide as Hle.
  - rewrite (proj2 (Z.ltb_ge _ _)) by lia. unfold sub_n, deref. rewrite Hs.
    cbn [or_panic mbind outcome_bind conn n]. rewrite lookup_insert_eq. cbn [or_panic mbind outcome_bind conn].
    rewrite lookup_insert_ne by done. rewrite Hc. cbn [or_panic mbind outcome_bind conn n].
    by rewrite !i32_id by (unfold window; lia).
  - by rewrite (proj2 (Z.ltb_lt _ _)) by lia.
Qed.

(** * Many streams on one connection *)

(** Every stream of [ss] is linked to the connection [c]. *)
Record conn_ok (fs : flows) (c : positive) (ss : gset positive) : Prop := {
  co_conn : exists wc, fs !! c = Some (mkFlow wc None) /\ 0 <= wc < 2 ^ 31;
  co_out : c ∉ ss;
  co_streams : forall s, s ∈ ss -> exists ws, fs !! s = Some (mkFlow ws (Some c)) /\ window ws }.

Definition window_of (fs : flows) (p : positive) : Z := match fs !! p with Some x => n x | None => 0 end.

(** A schedule of [take]s. *)
Fixpoint takes (l : list (positive * Z)) (fs : flows) : fl flows :=
  match l with
  | [] => Ok fs
  | (s, k) :: l => fs ← take s k fs; takes l fs
  end.

Definition taken (l : list (positive * Z)) : Z := foldr (fun e acc => e.2 + acc) 0 l.
Definition taken_by (s : positive) (l : list (positive * Z)) : Z :=
  foldr (fun e acc => (if decide (e.1 = s) then e.2 else 0) + acc) 0 l.

Lemma take_ok fs c ss s k fs' :
  conn_ok fs c ss -> s ∈ ss -> 0 <= k -> take s k fs = Ok fs' ->
  conn_ok fs' c ss /\ k <= window_of fs s /\ window_of fs' c = window_of fs c - k /\
  (forall s', s' ∈ ss -> window_of fs' s' = window_of fs s' - (if decide (s = s') then k else 0)).
Proof.
  intros [(wc & Hc & Hwc) Hout Hst] Hs Hk Ht. destruct (Hst s Hs) as (ws & Hs' & Hws).
  assert (Hne : s <> c) by set_solver.
  rewrite (take_spec fs s c ws wc k) in Ht; [|done|done|unfold window; lia|done].
  case_decide as Hle; [|done]. injection Ht as <-. unfold window_of. rewrite Hs', Hc. cbn [n].
  split; [|split_and!; [lia|by rewrite lookup_insert_eq|]].
  - split; [|done|].
    + exists (wc - k). rewrite lookup_insert_eq. split; [done|lia].
    + intros s' Hin. assert (s' <> c) by set_solver. rewrite lookup_insert_ne by done.
      destruct (decide (s = s')) as [<-|].
      * exists (ws - k). rewrite lookup_insert_eq. split; [done|]. unfold window in *. lia.
      * rewrite lookup_insert_ne by done. auto.
  - intros s' Hin. assert (s' <> c) by set_solver. rewrite lookup_insert_ne by done.
    case_decide as He; [subst s'; rewrite lookup_insert_eq, Hs'; done|].
    rewrite lookup_insert_ne by done. lia.
Qed.

Lemma takes_ok l fs c ss fs' :
  conn_ok fs c ss -> Forall (fun e => e.1 ∈ ss /\ 0 <= e.2) l -> takes l fs = Ok fs' ->
  conn_ok fs' c ss /\ window_of fs' c = window_of fs c - taken l /\
  (forall s, s ∈ ss -> window_of fs' s = window_of fs s - taken_by s l).
Proof.
  revert fs. induction l as [|[s k] l IH]; intros fs Hok Hl Ht; cbn [takes] in Ht.
  { injection Ht as <-. split_and!; [done|simpl; lia|intros; simpl; lia]. }
  apply Forall_cons in Hl as [[Hs Hk] Hl]. simpl in Hs, Hk.
  destruct (take s k fs) as [fs1|e|] eqn:H1; [|done..].
  destruct (take_ok fs c ss s k fs1 Hok Hs Hk H1) as (Hok1 & _ & Hc1 & Hs1).
  destruct (IH fs1 Hok1 Hl Ht) as (Hok2 & Hc2 & Hs2). split; [done|]. cbn [taken taken_by foldr fst snd].
  split; [unfold taken in Hc2; lia|]. intros s' Hin. rewrite (Hs2 s' Hin), (Hs1 s' Hin).
  unfold taken_by. repeat case_decide; try done; lia.
Qed.

(** * Properties *)

(** Flow control is conserved: whatever streams of a connection consume,
    in whatever order, each [take] that does not panic leaves the connection's
    window non-negative, and after the whole schedule the connection has lost
    exactly the sum of what the streams took, each stream what it took itself. *)
Lemma takes_conserve l fs c ss fs' :
  conn_ok fs c ss -> Forall (fun e => e.1 ∈ ss /\ 0 <= e.2) l -> takes l fs = Ok fs' ->
  0 <= window_of fs' c /\ window_of fs' c = window_of fs c - taken l /\
  (forall s, s ∈ ss -> window_of fs' s = window_of fs s - taken_by s l).
Proof.
  intros Hok Hl Ht. destruct (takes_ok l fs c ss fs' Hok Hl Ht) as (Hok' & Hc & Hs).
  split; [|by split]. destruct (co_conn _ _ _ Hok') as (wc & Hwc & Hr). unfold window_of. rewrite Hwc. apply Hr.
Qed.

Definition sample_flows : flows :=
  <[1%positive := mkFlow 100 None]> (<[2%positive := mkFlow 70 (Some 1%positive)]>
    (<[3%positive := mkFlow 60 (Some 1%positive)]> ∅)).

Lemma sample_flows_ok : conn_ok sample_flows 1%positive {[2%positive; 3%positive]}.
Proof.
  split; [by exists 100|set_solver|].
  intros s [->%elem_of_singleton| ->%elem_of_singleton]%elem_of_union; [by exists 70|by exists 60].
Qed.

Lemma takes_conserve_witness :
  exists fs', takes [(2%positive, 50); (3%positive, 20); (2%positive, 20)] sample_flows = Ok fs' /\
    0 <= window_of fs' 1%positive /\
    window_of fs' 1%positive = window_of sample_flows 1%positive - taken [(2%positive, 50); (3%positive, 20); (2%positive, 20)] /\
    (forall s, s ∈ ({[2%positive; 3%positive]} : gset positive) ->
       window_of fs' s = window_of sample_flows s - taken_by s [(2%positive, 50); (3%positive, 20); (2%positive, 20)]).
Proof.
  destruct (takes [(2%positive, 50); (3%positive, 20); (2%positive, 20)] sample_flows) as [fs'|e|] eqn:H;
    [|destruct e|vm_compute in H; discriminate H].
  exists fs'. split; [reflexivity|].
  apply (takes_conserve _ sample_flows 1%positive {[2%positive; 3%positive]} fs' sample_flows_ok); [|exact H].
  repeat constructor; simpl; (lia || set_solver).
Defined.

(** A negative window, which a lowered SETTINGS_INITIAL_WINDOW_SIZE
    produces, can never be raised again: [2^31 - 1 - n] overflows [int32], so
    [add] refuses every increment, even zero. *)
Lemma add_negative_refused f k fs x :
  fs !! f = Some x -> - 2 ^ 31 <= n x < 0 -> 0 <= k -> add f k fs = Ok (fs, false).
Proof. apply add_negative. Qed.

(** A stream window of 10 lowered by 20, then raised by 1000. *)
Lemma add_negative_refused_witness :
  exists fs, add 2%positive (-80) sample_flows = Ok (fs, true) /\ add 2%positive 1000 fs = Ok (fs, false).
Proof.
  eexists. split; [vm_compute; reflexivity|].
  apply (add_negative_refused 2%positive 1000 _ (mkFlow (-10) (Some 1%positive))); [reflexivity|simpl; lia|lia].
Defined.
