(* ===== verification/Http2DataBuffer.v ===== *)
(** The chunked buffer of received DATA frames: [http2/databuffer.go]. *)
From S2P Require Import Prelude.

(** * Chunks *)

Definition dataChunkSizeClasses : list Z := [2 ^ 10; 2 * 2 ^ 10; 4 * 2 ^ 10; 8 * 2 ^ 10; 16 * 2 ^ 10].

(** The loop of [getDataBufferChunk]: the first class but the last that holds
    [size], else the last. *)
Fixpoint chunk_class (size : Z) (classes : list Z) : Z :=
  match classes with
  | [] => 0
  | [c] => c
  | c :: cs => if size <=? c then c else chunk_class size cs
  end.

Inductive db_error := errReadEmpty.

Abbreviation db A := (outcome db_error A).

Record dataBuffer := mkDB {
  chunks : list bytes;
  r : Z;
  w : Z;
  size : Z;
  expected : Z }.

Definition db_Len (b : dataBuffer) : Z := size b.

Definition bytesFromFirstChunk (b : dataBuffer) : db bytes :=
  c ← or_panic (chunks b !! 0%nat);
  if len (chunks b) =? 1 then Ok (from (r b) (upto (w b) c)) else Ok (from (r b) c).

(** [putDataBufferChunk]: it panics on a chunk of no class. *)
Definition putDataBufferChunk (p : bytes) : db unit :=
  if existsb (Z.eqb (len p)) dataChunkSizeClasses then Ok tt else Panic.

(** One round of [Read]'s loop into a buffer of [k] bytes: the bytes copied. *)
Definition read_step (k : Z) (b : dataBuffer) : db (bytes * dataBuffer) :=
  readFrom ← bytesFromFirstChunk b;
  let got := upto (Z.min k (len readFrom)) readFrom in
  let r' := r b + len got in
  let size' := size b - len got in
  c ← or_panic (chunks b !! 0%nat);
  if r' =? len c then
    _ ← putDataBufferChunk c;
    Ok (got, mkDB (tail (chunks b)) 0 (w b) size' (expected b))
  else Ok (got, mkDB (chunks b) r' (w b) size' (expected b)).

(** The loop of [Read]; a round that copies nothing would not end. *)
Fixpoint read_loop (fuel : nat) (k : Z) (acc : bytes) (b : dataBuffer) : option (db (bytes * dataBuffer)) :=
  if (0 <? k) && (0 <? size b) then
    match fuel with
    | O => None
    | S fuel' =>
        match read_step k b with
        | Ok (got, b') => read_loop fuel' (k - len got) (acc ++ got) b'
        | Fail e => Some (Fail e)
        | Panic => Some Panic
        end
    end
  else Some (Ok (acc, b)).

(** [Read] into a slice of [k] bytes: the bytes it is filled with. *)
Definition db_Read (k : Z) (b : dataBuffer) : option (db (bytes * dataBuffer)) :=
  if size b =? 0 then Some (Fail errReadEmpty) else read_loop (Z.to_nat k) k [] b.

Section write.
(** [alloc c] is the content of the chunk of class [c] the pool hands out: the
    pool returns used chunks uncleared. *)
Variable alloc : Z -> bytes.

Definition getDataBufferChunk (size : Z) : bytes := alloc (chunk_class size dataChunkSizeClasses).

Definition lastChunkOrAlloc (want : Z) (b : dataBuffer) : dataBuffer :=
  let fresh := mkDB (chunks b ++ [getDataBufferChunk want]) (r b) 0 (size b) (expected b) in
  match last (chunks b) with
  | Some l => if w b <? len l then b else fresh
  | None => fresh
  end.

(** One round of [Write]'s loop: the rest of [p]. *)
Definition write_step (p : bytes) (b : dataBuffer) : db (bytes * dataBuffer) :=
  let want := if len p <? expected b then expected b else len p in
  let b := lastChunkOrAlloc want b in
  chunk ← or_panic (last (chunks b));
  let k := Z.min (len chunk - w b) (len p) in
  let chunk' := upto (w b) chunk ++ upto k p ++ from (w b + k) chunk in
  Ok (from k p, mkDB (removelast (chunks b) ++ [chunk']) (r b) (w b + k) (size b + k) (expected b - k)).

Fixpoint write_loop (fuel : nat) (p : bytes) (b : dataBuffer) : option (db dataBuffer) :=
  if 0 <? len p then
    match fuel with
    | O => None
    | S fuel' =>
        match write_step p b with
        | Ok (p', b') => write_loop fuel' p' b'
        | Fail e => Some (Fail e)
        | Panic => Some Panic
        end
    end
  else Some (Ok b).

Definition db_Write (p : bytes) (b : dataBuffer) : option (db (Z * dataBuffer)) :=
  match write_loop (length p) p b with
  | Some (Ok b') => Some (Ok (len p, b'))
  | Some (Fail e) => Some (Fail e)
  | Some Panic => Some Panic
  | None => None
  end.
End write.

(** * The queue it implements *)

(** The room left in the last chunk. *)
Definition slack (b : dataBuffer) : Z :=
  match last (chunks b) with Some l => len l - w b | None => 0 end.

(** The buffered bytes: everything between the two cursors. *)
Definition contents (b : dataBuffer) : bytes :=
  let all := concat (chunks b) in from (r b) (upto (len all - slack b) all).

Definition class_ok (c : bytes) : Prop := len c ∈ dataChunkSizeClasses.

Record db_ok (b : dataBuffer) : Prop := {
  db_classes : Forall class_ok (chunks b);
  db_size : size b = len (contents b);
  db_r : 0 <= r b;
  db_first : match chunks b with
             | [] => r b = 0
             | [c] => r b <= w b <= len c /\ r b < len c
             | c :: _ => r b < len c
             end;
  db_w : match last (chunks b) with Some l => 0 <= w b <= len l | None => True end }.

Definition db_empty (expected : Z) : dataBuffer := mkDB [] 0 0 0 expected.

Lemma db_empty_ok e : db_ok (db_empty e).
Proof. by split. Qed.

Lemma class_pos c : class_ok c -> 2 ^ 10 <= len c.
Proof.
  unfold class_ok. intros H. unfold dataChunkSizeClasses in H. rewrite !elem_of_cons, elem_of_nil in H. lia.
Qed.

Lemma chunk_class_ok s : chunk_class s dataChunkSizeClasses ∈ dataChunkSizeClasses.
Proof.
  unfold dataChunkSizeClasses. cbn [chunk_class]. rewrite !elem_of_cons. repeat case_match; tauto.
Qed.

Lemma put_ok c : class_ok c -> putDataBufferChunk c = Ok tt.
Proof.
  intros Hc. unfold putDataBufferChunk. destruct (existsb _ _) eqn:H; [done|].
  apply not_true_iff_false in H. destruct H. apply existsb_exists. exists (len c).
  split; [by apply list_elem_of_In|by apply Z.eqb_refl].
Qed.

Lemma from_app_le {A} k (x y : list A) : 0 <= k <= len x -> from k (x ++ y) = from k x ++ y.
Proof. intros Hk. unfold from, len in *. rewrite drop_app_le by lia. done. Qed.

Lemma from_add {A} j k (x : list A) : 0 <= j -> 0 <= k -> from (j + k) x = from k (from j x).
Proof. intros. unfold from. rewrite drop_drop. f_equal. lia. Qed.

Lemma contents_snoc b init l :
  chunks b = init ++ [l] -> 0 <= w b <= len l -> contents b = from (r b) (concat init ++ upto (w b) l).
Proof.
  intros Hc Hw. unfold contents, slack. rewrite Hc, last_snoc, concat_app. cbn [concat]. rewrite app_nil_r.
  f_equal. rewrite len_app. unfold upto, len in *.
  rewrite take_app. rewrite take_ge by lia. f_equal. f_equal. lia.
Qed.

(** The first chunk's share of the contents. *)
Lemma contents_first b c cs : db_ok b -> chunks b = c :: cs ->
  bytesFromFirstChunk b = Ok (match cs with [] => from (r b) (upto (w b) c) | _ => from (r b) c end) /\
  contents b = (match cs with [] => from (r b) (upto (w b) c) | _ => from (r b) c end) ++
    match cs with [] => [] | _ => contents (mkDB cs 0 (w b) 0 0) end.
Proof.
  intros [Hcl Hs Hr Hf Hw] Hc. rewrite Hc in *. unfold bytesFromFirstChunk. rewrite Hc. cbn.
  destruct cs as [|c2 cs].
  - split; [done|]. rewrite app_nil_r. rewrite (contents_snoc b [] c); [done|done|lia].
  - rewrite !len_cons. pose proof (len_nonneg cs). rewrite (proj2 (Z.eqb_neq _ _)) by lia. split; [done|].
    destruct (exists_last (l := c2 :: cs) ltac:(done)) as (init & l & Hl). rewrite Hl in *.
    rewrite last_cons, last_snoc in Hw.
    rewrite (contents_snoc b (c :: init) l) by done. rewrite (contents_snoc (mkDB (init ++ [l]) 0 (w b) 0 0) init l) by done.
    cbn [r w concat]. rewrite <- app_assoc, from_app_le by lia. done.
Qed.

(** * Reading *)

Lemma read_step_ok b k : db_ok b -> 0 < k -> 0 < size b ->
  exists got b', read_step k b = Ok (got, b') /\ db_ok b' /\ contents b = got ++ contents b' /\
    0 < len got <= k /\ size b' = size b - len got.
Proof.
  intros Hok Hk Hsz. pose proof Hok as [Hcl Hs Hr Hf Hw].
  destruct (chunks b) as [|c cs] eqn:Hc.
  { unfold contents in Hs. rewrite Hc in Hs. cbn in Hs. unfold from, upto in Hs. rewrite take_nil, drop_nil in Hs.
    change (len (@nil Z)) with 0 in Hs. lia. }
  destruct (contents_first b c cs Hok Hc) as [Hfirst Hcont].
  set (part := match cs with [] => from (r b) (upto (w b) c) | _ => from (r b) c end) in *.
  assert (Hpart : 0 < len part /\ len part <= len c - r b /\ (cs = [] -> len part = w b - r b) /\
    (cs <> [] -> len part = len c - r b)).
  { unfold part. destruct cs as [|c2 cs].
    - assert (Hl : len (from (r b) (upto (w b) c)) = w b - r b).
      { rewrite len_from by (rewrite len_upto; lia). rewrite len_upto; lia. }
      rewrite Hl. rewrite Hs, Hcont, app_nil_r in Hsz. unfold part in Hsz. rewrite Hl in Hsz. split_and!; try lia; done.
    - rewrite len_from by lia. split_and!; try lia; done. }
  destruct Hpart as (Hpos & Hle & Hone & Hmany).
  unfold read_step. rewrite Hfirst, Hc. cbn [mbind outcome_bind or_panic lookup list_lookup].
  set (got := upto (Z.min k (len part)) part).
  assert (Hg : len got = Z.min k (len part)) by (apply len_upto; lia).
  assert (Hrest : part = got ++ from (len got) part) by (rewrite Hg; symmetry; apply upto_from).
  apply Forall_cons in Hcl as [Hclc Hclcs].
  destruct (Z.eqb_spec (r b + len got) (len c)) as [He|Hne].
  - rewrite put_ok by done. cbn [mbind outcome_bind tail]. eexists got, _. split; [reflexivity|].
    assert (Hall : len got = len part) by lia.
    assert (Hpg : part = got) by (unfold got; rewrite Hg in Hall; rewrite Hall; unfold upto, len; rewrite take_ge by lia; done).
    assert (Hb' : contents (mkDB cs 0 (w b) (size b - len got) (expected b)) =
                  match cs with [] => [] | _ => contents (mkDB cs 0 (w b) 0 0) end).
    { destruct cs; [|done]. unfold contents. cbn. unfold from, upto. by rewrite take_nil. }
    split_and!; [|by rewrite Hcont, Hb', <- Hpg|lia|lia|done].
    split; cbn [chunks r w size]; [done| |lia| |].
    + rewrite Hb'. rewrite Hs, Hcont, len_app in *. lia.
    + destruct cs as [|c2 [|c3 cs]]; [done| |].
      * apply Forall_cons in Hclcs as [Hc2%class_pos _]. cbn in Hw. lia.
      * apply Forall_cons in Hclcs as [Hc2%class_pos _]. lia.
    + destruct cs as [|c2 cs]; [done|]. by rewrite last_cons_cons in Hw.
  - eexists got, _. split; [reflexivity|].
    assert (Hb' : contents (mkDB (c :: cs) (r b + len got) (w b) (size b - len got) (expected b)) =
      from (len got) part ++ match cs with [] => [] | _ => contents (mkDB cs 0 (w b) 0 0) end).
    { unfold part. destruct cs as [|c2 cs].
      - rewrite (contents_snoc _ [] c); [|done|cbn; lia]. cbn [r w concat app]. rewrite app_nil_r.
        apply from_add; lia.
      - destruct (exists_last (l := c2 :: cs) ltac:(done)) as (init & l & Hl). rewrite Hl in *.
        rewrite last_cons, last_snoc in Hw.
        rewrite (contents_snoc _ (c :: init) l) by done.
        rewrite (contents_snoc (mkDB (init ++ [l]) 0 (w b) 0 0) init l) by done.
        cbn [r w concat]. rewrite <- app_assoc, from_app_le by lia. rewrite from_add by lia. done. }
    split_and!; [| |lia|lia|done].
    + split; cbn [chunks r w size]; [by constructor| |lia| |done].
      * pose proof (f_equal len Hrest) as Hlp. rewrite len_app in Hlp. rewrite Hb', Hs, Hcont, !len_app. lia.
      * destruct cs as [|c2 cs]; [specialize (Hone eq_refl)|]; lia.
    + rewrite Hb', Hcont, app_assoc. by rewrite <- Hrest.
Qed.

Lemma read_loop_ok fuel b k acc : db_ok b -> 0 <= k -> k <= Z.of_nat fuel ->
  exists b', read_loop fuel k acc b = Some (Ok (acc ++ upto (Z.min k (size b)) (contents b), b')) /\
    db_ok b' /\ contents b' = from (Z.min k (size b)) (contents b).
Proof.
  revert b k acc. induction fuel as [|fuel IH]; intros b k acc Hok Hk Hf; cbn [read_loop];
    pose proof (db_size _ Hok) as Hsz; pose proof (len_nonneg (contents b)).
  - assert (k = 0) as -> by lia. rewrite Z.min_l by lia. exists b. by rewrite app_nil_r.
  - destruct (Z.ltb_spec 0 k); cbn [andb].
    2:{ assert (k = 0) as -> by lia. rewrite Z.min_l by lia. exists b. by rewrite app_nil_r. }
    destruct (Z.ltb_spec 0 (size b)).
    2:{ rewrite Z.min_r by lia. assert (Hz : size b = 0) by lia. rewrite Hz.
        exists b. by rewrite app_nil_r. }
    destruct (read_step_ok b k Hok) as (got & b1 & -> & Hok1 & Hc1 & Hg & Hs1); [lia..|].
    destruct (IH b1 (k - len got) (acc ++ got) Hok1) as (b' & -> & Hok' & Hc'); [lia..|].
    pose proof (db_size _ Hok1). pose proof (len_nonneg (contents b1)).
    assert (Hmin : Z.min k (size b) = len got + Z.min (k - len got) (size b1)) by lia.
    exists b'. rewrite Hmin, Hc1. split; [|split; [done|]].
    + rewrite <- app_assoc. do 4 f_equal. unfold upto, len. rewrite Z2Nat.inj_add by (unfold len in *; lia).
      rewrite Nat2Z.id. by rewrite take_app_add.
    + rewrite Hc'. rewrite from_add by lia. by rewrite from_app_len.
Qed.

(** * Writing *)

Section alloc.
Context (alloc : Z -> bytes) (alloc_len : forall c, c ∈ dataChunkSizeClasses -> len (alloc c) = c).

Lemma alloc_ok b want : db_ok b ->
  let b1 := lastChunkOrAlloc alloc want b in
  db_ok b1 /\ contents b1 = contents b /\ size b1 = size b /\ expected b1 = expected b /\
  exists init l, chunks b1 = init ++ [l] /\ 0 <= w b1 < len l.
Proof.
  intros Hok b1. pose proof Hok as [Hcl Hs Hr Hf Hw].
  set (fresh := getDataBufferChunk alloc want).
  assert (Hfl : class_ok fresh).
  { unfold class_ok, fresh, getDataBufferChunk. rewrite alloc_len; apply chunk_class_ok. }
  pose proof (class_pos _ Hfl) as Hpos.
  assert (Hnew : (forall l, last (chunks b) = Some l -> w b = len l) ->
    db_ok (mkDB (chunks b ++ [fresh]) (r b) 0 (size b) (expected b)) /\
    contents (mkDB (chunks b ++ [fresh]) (r b) 0 (size b) (expected b)) = contents b).
  { intros Hfull.
    assert (Hc : contents (mkDB (chunks b ++ [fresh]) (r b) 0 (size b) (expected b)) = contents b).
    { rewrite (contents_snoc _ (chunks b) fresh) by (done || cbn; lia). cbn [r w].
      change (upto 0 fresh) with (@nil Z). rewrite app_nil_r. unfold contents, slack.
      destruct (last (chunks b)) as [l|] eqn:Hl.
      - rewrite (Hfull l eq_refl). unfold upto, len. by rewrite take_ge by lia.
      - apply last_None in Hl. by rewrite Hl. }
    split; [|done]. split; cbn [chunks r w size]; [by apply Forall_app; split; [|constructor]|by rewrite Hc|done| |].
    - destruct (chunks b) as [|c [|c2 cs]]; cbn [app]; lia.
    - rewrite last_snoc. lia. }
  unfold b1, lastChunkOrAlloc. fold fresh. destruct (last (chunks b)) as [l|] eqn:Hl.
  - destruct (Z.ltb_spec (w b) (len l)) as [Hlt|Hge].
    + split_and!; try done. apply last_Some in Hl as [init Hl]. exists init, l. split; [done|lia].
    + destruct Hnew as [Hn1 Hn2]; [intros ? [= <-]; lia|]. split_and!; try done.
      exists (chunks b), fresh. cbn [chunks w]. split; [done|lia].
  - destruct Hnew as [Hn1 Hn2]; [done|]. split_and!; try done.
    exists (chunks b), fresh. cbn [chunks w]. split; [done|lia].
Qed.

Lemma write_step_ok b p : db_ok b -> 0 < len p ->
  exists q p' b', write_step alloc p b = Ok (p', b') /\ p = q ++ p' /\ 0 < len q /\
    db_ok b' /\ contents b' = contents b ++ q.
Proof.
  intros Hok Hp. unfold write_step.
  set (want := if len p <? expected b then _ else _).
  destruct (alloc_ok b want Hok) as (Hok1 & Hc1 & Hs1 & He1 & init & l & Hl & Hw1).
  set (b1 := lastChunkOrAlloc alloc want b) in *. rewrite Hl, last_snoc. cbn [or_panic mbind outcome_bind].
  set (k := Z.min (len l - w b1) (len p)).
  assert (Hk : 0 < k <= len p /\ w b1 + k <= len l) by lia. rewrite removelast_last.
  set (l' := upto (w b1) l ++ upto k p ++ from (w b1 + k) l).
  assert (Hll : len l' = len l).
  { unfold l'. rewrite !len_app, !len_upto, len_from by lia. lia. }
  assert (Hup : upto (w b1 + k) l' = upto (w b1) l ++ upto k p).
  { unfold l'. rewrite app_assoc. apply upto_app_len. rewrite len_app, !len_upto by lia. lia. }
  pose proof Hok1 as [Hcl Hs Hr Hf Hw].
  assert (Hcont : contents (mkDB (init ++ [l']) (r b1) (w b1 + k) (size b1 + k) (expected b1 - k)) =
                  contents b ++ upto k p).
  { rewrite (contents_snoc _ init l') by (done || cbn; lia). cbn [r w]. rewrite Hup, <- Hc1.
    rewrite (contents_snoc b1 init l) by (done || lia). rewrite app_assoc. apply from_app_le.
    rewrite len_app, len_upto by lia. rewrite Hl in Hf.
    pose proof (len_nonneg (concat init)).
    destruct init as [|c init]; cbn [app concat] in *; [lia|]. rewrite len_app in *.
    pose proof (len_nonneg (concat init)). destruct (init ++ [l]) eqn:Hi; [by destruct init|]. lia. }
  exists (upto k p), (from k p). eexists. split; [reflexivity|].
  split_and!; [by rewrite upto_from|rewrite len_upto; lia| |exact Hcont].
  split; cbn [chunks r w size].
  - rewrite Hl in Hcl. apply Forall_app in Hcl as [Hi [Hlast _]%Forall_cons]. apply Forall_app; split; [done|].
    constructor; [|done]. unfold class_ok in *. rewrite Hll. exact Hlast.
  - rewrite Hcont, len_app, len_upto by lia. rewrite Hs1, (db_size _ Hok). done.
  - done.
  - rewrite Hl in Hf. destruct init as [|c init]; cbn [app] in *; [lia|].
    destruct (init ++ [l]) eqn:E1, (init ++ [l']) eqn:E2; try done; apply app_nil in E1 || apply app_nil in E2; naive_solver.
  - rewrite last_snoc. lia.
Qed.

Lemma write_loop_ok fuel p b : db_ok b -> (length p <= fuel)%nat ->
  exists b', write_loop alloc fuel p b = Some (Ok b') /\ db_ok b' /\ contents b' = contents b ++ p.
Proof.
  revert p b. induction fuel as [|fuel IH]; intros p b Hok Hf; cbn [write_loop].
  - destruct p; [|simpl in Hf; lia]. exists b. by rewrite app_nil_r.
  - destruct (Z.ltb_spec 0 (len p)) as [Hp|Hp].
    + destruct (write_step_ok b p Hok Hp) as (q & p' & b1 & -> & -> & Hq & Hok1 & Hc1).
      destruct (IH p' b1 Hok1) as (b' & -> & Hok' & Hc'); [rewrite length_app in Hf; unfold len in Hq; lia|].
      exists b'. split; [done|]. split; [done|]. by rewrite Hc', Hc1, <- app_assoc.
    + destruct p; [|rewrite len_cons in Hp; pose proof (len_nonneg p); lia]. exists b. by rewrite app_nil_r.
Qed.
End alloc.

(** * The property *)

(** C40. A [dataBuffer] is a byte queue, whatever stale chunks the pool hands
    out. From a well-formed buffer, [Write p] takes all of [p] and appends it to
    the contents; [Read] into [k] bytes fails exactly when the buffer is empty,
    and otherwise fills it with the oldest [min k size] bytes and removes them;
    [Len] is the number of buffered bytes. All operations end without panicking
    and keep the buffer well formed. *)
Theorem dataBuffer_queue alloc b p k :
  (forall c, c ∈ dataChunkSizeClasses -> len (alloc c) = c) -> db_ok b -> 0 <= k ->
  db_Len b = len (contents b) /\
  (exists b', db_Write alloc p b = Some (Ok (len p, b')) /\ db_ok b' /\ contents b' = contents b ++ p) /\
  (if decide (contents b = []) then db_Read k b = Some (Fail errReadEmpty) else
   exists b', db_Read k b = Some (Ok (upto (Z.min k (db_Len b)) (contents b), b')) /\ db_ok b' /\
     contents b' = from (Z.min k (db_Len b)) (contents b)).
Proof.
  intros Ha Hok Hk. pose proof (db_size _ Hok) as Hs. split; [done|]. split.
  - destruct (write_loop_ok alloc Ha (length p) p b Hok) as (b' & HW & Hok' & Hc'); [lia|].
    exists b'. unfold db_Write. rewrite HW. by split_and!.
  - unfold db_Read. case_decide as Hc; [by rewrite Hs, Hc|].
    rewrite (proj2 (Z.eqb_neq _ _)).
    + apply (read_loop_ok (Z.to_nat k) b k []); [done|lia|lia].
    + rewrite Hs. intros Hz. apply Hc. destruct (contents b); [done|]. rewrite len_cons in Hz.
      pose proof (len_nonneg l). lia.
Qed.

Definition zero_alloc (c : Z) : bytes := replicate (Z.to_nat c) 0.

Lemma zero_alloc_len c : c ∈ dataChunkSizeClasses -> len (zero_alloc c) = c.
Proof.
  intros H. unfold zero_alloc, len. rewrite length_replicate. unfold dataChunkSizeClasses in H.
  rewrite !elem_of_cons, elem_of_nil in H. lia.
Qed.

Lemma dataBuffer_queue_witness :
  let b := db_empty 0 in
  db_Len b = len (contents b) /\
  (exists b', db_Write zero_alloc [1; 2; 3] b = Some (Ok (len [1; 2; 3], b')) /\ db_ok b' /\
     contents b' = contents b ++ [1; 2; 3]) /\
  (if decide (contents b = []) then db_Read 2 b = Some (Fail errReadEmpty) else
   exists b', db_Read 2 b = Some (Ok (upto (Z.min 2 (db_Len b)) (contents b), b')) /\ db_ok b' /\
     contents b' = from (Z.min 2 (db_Len b)) (contents b)).
Proof. exact (dataBuffer_queue zero_alloc (db_empty 0) [1; 2; 3] 2 zero_alloc_len (db_empty_ok 0) ltac:(lia)). Defined.
