(* ===== verification/Http2Pipe.v ===== *)
(** The goroutine-safe pipe of a request or response body: [http2/pipe.go]. *)
From S2P Require Import Prelude Http2DataBuffer.

(** * The buffer a pipe is made on

    The interface [pipeBuffer], and what the pipe relies on: a queue that takes
    every write. *)
Class PipeBuffer (B : Type) := {
  pb_Len : B -> Z;
  pb_Write : bytes -> B -> option (Z * B);
  pb_Read : Z -> B -> option (bytes * B);
  pb_ok : B -> Prop;
  pb_contents : B -> bytes;
  pb_Len_ok b : pb_ok b -> pb_Len b = len (pb_contents b);
  pb_Write_ok d b : pb_ok b ->
    exists b', pb_Write d b = Some (len d, b') /\ pb_ok b' /\ pb_contents b' = pb_contents b ++ d;
  pb_Read_ok k b : pb_ok b -> 0 <= k -> pb_contents b <> [] ->
    exists b', pb_Read k b = Some (upto (Z.min k (len (pb_contents b))) (pb_contents b), b') /\ pb_ok b' /\
      pb_contents b' = from (Z.min k (len (pb_contents b))) (pb_contents b) }.

(** Data buffers qualify; a [None] would be a panic or an error of theirs. *)
Section databuffer.
Context (alloc : Z -> bytes) (alloc_len : forall c, c ∈ dataChunkSizeClasses -> len (alloc c) = c).

Definition db_write_pipe (d : bytes) (b : dataBuffer) : option (Z * dataBuffer) :=
  match db_Write alloc d b with Some (Ok r) => Some r | _ => None end.
Definition db_read_pipe (k : Z) (b : dataBuffer) : option (bytes * dataBuffer) :=
  match db_Read k b with Some (Ok r) => Some r | _ => None end.

#[global, program] Instance dataBuffer_pipe : PipeBuffer dataBuffer := {
  pb_Len := db_Len;
  pb_Write := db_write_pipe;
  pb_Read := db_read_pipe;
  pb_ok := db_ok;
  pb_contents := contents }.
Next Obligation. intros b Hb. apply (db_size _ Hb). Qed.
Next Obligation.
  intros d b Hb. destruct (write_loop_ok alloc alloc_len (length d) d b Hb) as (b' & HW & Hok & Hc); [lia|].
  exists b'. unfold db_write_pipe, db_Write. by rewrite HW.
Qed.
Next Obligation.
  intros k b Hb Hk Hc. pose proof (db_size _ Hb) as Hs. unfold db_read_pipe, db_Read.
  rewrite (proj2 (Z.eqb_neq _ _)).
  - destruct (read_loop_ok (Z.to_nat k) b k [] Hb Hk) as (b' & HR & Hok & Hc'); [lia|].
    exists b'. rewrite HR, <- Hs. by split_and!.
  - rewrite Hs. intros Hz. apply Hc. destruct (contents b) as [|x l]; [done|]. rewrite len_cons in Hz.
    pose proof (len_nonneg l). lia.
Qed.
End databuffer.

(** * The pipe

    Every method holds the mutex, so a method call is one step on the state;
    [Read] may answer that it waits for the condition variable. [readFn] is
    named by a number, and running it is logged in [ran]. *)
Section pipe.
Context {B E : Type} `{!PipeBuffer B}.

Inductive chan := chan_nil | chan_open | chan_closed.

Record pipe := mkPipe {
  pb : option B;
  err : option E;
  breakErr : option E;
  donec : chan;
  readFn : option nat;
  ran : list nat }.

Inductive pipe_error := PErr (e : E) | errClosedPipeWrite.

Inductive read_answer := RData (d : bytes) | RErr (e : E) | RWait | RPanic.

Definition pipe_Len (p : pipe) : Z := match pb p with None => 0 | Some b => pb_Len b end.

(** One pass of [Read]'s loop, for a slice of [k] bytes. *)
Definition pipe_Read (k : Z) (p : pipe) : pipe * read_answer :=
  match breakErr p with
  | Some e => (p, RErr e)
  | None =>
      if 0 <? pipe_Len p then
        match pb p with
        | Some b =>
            match pb_Read k b with
            | Some (d, b') => (mkPipe (Some b') (err p) (breakErr p) (donec p) (readFn p) (ran p), RData d)
            | None => (p, RPanic)
            end
        | None => (p, RPanic)
        end
      else
        match err p with
        | Some e =>
            let ran' := match readFn p with Some f => ran p ++ [f] | None => ran p end in
            (mkPipe None (err p) (breakErr p) (donec p) None ran', RErr e)
        | None => (p, RWait)
        end
  end.

Inductive write_answer := WOk (n : Z) | WErr (n : Z) (e : pipe_error) | WPanic.

Definition pipe_Write (d : bytes) (p : pipe) : pipe * write_answer :=
  match err p with
  | Some _ => (p, WErr 0 errClosedPipeWrite)
  | None =>
      match breakErr p with
      | Some _ => (p, WOk (len d))
      | None =>
          match pb p with
          | None => (p, WPanic)
          | Some b =>
              match pb_Write d b with
              | Some (n, b') => (mkPipe (Some b') (err p) (breakErr p) (donec p) (readFn p) (ran p), WOk n)
              | None => (p, WPanic)
              end
          end
      end
  end.

Definition closeDoneLocked (c : chan) : chan :=
  match c with chan_nil => chan_nil | _ => chan_closed end.

(** [closeWithError] for [dst = &p.err] and for [dst = &p.breakErr], with a
    non-nil error. *)
Definition close_err (e : E) (fn : option nat) (p : pipe) : pipe :=
  match err p with
  | Some _ => p
  | None => mkPipe (pb p) (Some e) (breakErr p) (closeDoneLocked (donec p)) fn (ran p)
  end.

Definition close_break (e : E) (p : pipe) : pipe :=
  match breakErr p with
  | Some _ => p
  | None => mkPipe None (err p) (Some e) (closeDoneLocked (donec p)) None (ran p)
  end.

Definition CloseWithError (e : E) (p : pipe) : pipe := close_err e None p.
Definition BreakWithError (e : E) (p : pipe) : pipe := close_break e p.
Definition closeWithErrorAndCode (e : E) (fn : nat) (p : pipe) : pipe := close_err e (Some fn) p.

Definition Err (p : pipe) : option E := match breakErr p with Some e => Some e | None => err p end.

Definition Done (p : pipe) : pipe * chan :=
  match donec p with
  | chan_nil =>
      let c := if (bool_decide (is_Some (err p)) || bool_decide (is_Some (breakErr p)))
               then closeDoneLocked chan_open else chan_open in
      (mkPipe (pb p) (err p) (breakErr p) c (readFn p) (ran p), c)
  | c => (p, c)
  end.

(** * Invariant *)

Record pipe_ok (p : pipe) : Prop := {
  po_buffer : forall b, pb p = Some b -> pb_ok b;
  po_nil : pb p = None -> is_Some (err p) \/ is_Some (breakErr p);
  po_done : donec p = chan_closed <-> donec p <> chan_nil /\ (is_Some (err p) \/ is_Some (breakErr p)) }.

(** The bytes a reader can still get. *)
Definition pending (p : pipe) : bytes := match pb p with Some b => pb_contents b | None => [] end.

Definition new_pipe (b : B) : pipe := mkPipe (Some b) None None chan_nil None [].

Lemma new_pipe_ok b : pb_ok b -> pipe_ok (new_pipe b).
Proof. intros Hb. split; simpl; [by intros ? [= <-]|done|]. naive_solver. Qed.

Lemma pipe_Len_ok p : pipe_ok p -> pipe_Len p = len (pending p).
Proof.
  intros Hp. unfold pipe_Len, pending. destruct (pb p) as [b|] eqn:Hb; [|done].
  apply pb_Len_ok. by apply (po_buffer _ Hp).
Qed.

(** * Traces

    A schedule of method calls by the writer, the reader and whoever closes:
    since each call holds the mutex, an interleaving of goroutines is a list of
    calls. *)
Inductive pipe_op := OWrite (d : bytes) | ORead (k : Z) | OClose (e : E) (fn : option nat) | OBreak (e : E) | ODone.

Inductive pipe_answer := AWrite (a : write_answer) | ARead (a : read_answer) | ADone (c : chan) | AUnit.

Definition pipe_step (o : pipe_op) (p : pipe) : pipe * pipe_answer :=
  match o with
  | OWrite d => let '(p, a) := pipe_Write d p in (p, AWrite a)
  | ORead k => let '(p, a) := pipe_Read k p in (p, ARead a)
  | OClose e None => (CloseWithError e p, AUnit)
  | OClose e (Some fn) => (closeWithErrorAndCode e fn p, AUnit)
  | OBreak e => (BreakWithError e p, AUnit)
  | ODone => let '(p, c) := Done p in (p, ADone c)
  end.

Fixpoint pipe_run (ops : list pipe_op) (p : pipe) : pipe * list (pipe_op * pipe_answer) :=
  match ops with
  | [] => (p, [])
  | o :: ops =>
      let '(p1, a) := pipe_step o p in
      let '(p2, log) := pipe_run ops p1 in (p2, (o, a) :: log)
  end.

(** What the log of a run says: the bytes of accepted writes, the bytes read,
    and the first errors given. *)
Definition sent_of (x : pipe_op * pipe_answer) : bytes :=
  match x with (OWrite d, AWrite (WOk _)) => d | _ => [] end.
Definition got_of (x : pipe_op * pipe_answer) : bytes :=
  match x with (_, ARead (RData d)) => d | _ => [] end.
Definition sent (log : list (pipe_op * pipe_answer)) : bytes := concat (map sent_of log).
Definition got (log : list (pipe_op * pipe_answer)) : bytes := concat (map got_of log).

Fixpoint first_close (ops : list pipe_op) : option (E * option nat) :=
  match ops with
  | [] => None
  | OClose e fn :: _ => Some (e, fn)
  | _ :: ops => first_close ops
  end.
Fixpoint first_break (ops : list pipe_op) : option E :=
  match ops with
  | [] => None
  | OBreak e :: _ => Some e
  | _ :: ops => first_break ops
  end.

Definition op_ok (o : pipe_op) : Prop := match o with ORead k => 0 <= k | _ => True end.

Definition no_panic (a : pipe_answer) : Prop := a <> AWrite WPanic /\ a <> ARead RPanic.

(** * The trace invariant *)

(** [tr] relates a pipe to what happened so far: [S] sent, [G] got, [c] and [k]
    the first close and break. *)
Record tr (S G : bytes) (c : option (E * option nat)) (k : option E) (p : pipe) : Prop := {
  tr_ok : pipe_ok p;
  tr_err : err p = fst <$> c;
  tr_break : breakErr p = k;
  tr_bytes : k = None -> S = G ++ pending p;
  tr_prefix : G `prefix_of` S;
  tr_nobreak : k <> None -> pb p = None;
  tr_fn : k = None -> ran p ++ option_list (readFn p) = option_list (c ≫= snd);
  tr_ran : ran p ++ option_list (readFn p) = [] \/ ran p ++ option_list (readFn p) = option_list (c ≫= snd) }.

Definition or_first {A} (a b : option A) : option A := match a with Some _ => a | None => b end.

Lemma first_close_snoc o ops : first_close (o :: ops) = or_first (first_close [o]) (first_close ops).
Proof. by destruct o. Qed.
Lemma first_break_snoc o ops : first_break (o :: ops) = or_first (first_break [o]) (first_break ops).
Proof. by destruct o. Qed.
Lemma or_first_assoc {A} (a b c : option A) : or_first (or_first a b) c = or_first a (or_first b c).
Proof. by destruct a. Qed.

Ltac tr_split := split; cbn [pb err breakErr donec readFn ran pending]; try done.

Lemma step_write S G c k p d : tr S G c k p ->
  let '(p', a) := pipe_Write d p in
  tr (S ++ sent_of (OWrite d, AWrite a)) G c k p' /\ a <> WPanic.
Proof.
  intros [Hok He Hb Hs Hpre Hnb Hf Hr]. unfold pipe_Write.
  destruct (err p) as [e|] eqn:Hep.
  { cbn. rewrite app_nil_r. split; [|done]. split; try done; congruence. }
  destruct (breakErr p) as [e|] eqn:Hbp.
  { cbn. split; [|done]. split; try done; try congruence. by apply prefix_app_r. }
  destruct (pb p) as [b|] eqn:Hpb.
  2:{ destruct (po_nil p Hok Hpb) as [[? H]|[? H]]; congruence. }
  destruct (pb_Write_ok d b (po_buffer p Hok b Hpb)) as (b' & -> & Hokb & Hcb). cbn [sent_of].
  split; [|done]. tr_split.
  - split; cbn; [by intros ? [= <-]|done|]. pose proof (po_done p Hok) as Hd. by rewrite Hep, Hbp in Hd.
  - intros Hk. specialize (Hs Hk). unfold pending in *. cbn. rewrite Hpb in Hs. by rewrite Hcb, app_assoc, <- Hs.
  - by apply prefix_app_r.
Qed.

Lemma step_read S G c k p n : 0 <= n -> tr S G c k p ->
  let '(p', a) := pipe_Read n p in
  tr S (G ++ got_of (ORead n, ARead a)) c k p' /\
  match a with
  | RData d => k = None /\ d = upto (Z.min n (len (pending p))) (pending p) /\ pending p <> []
  | RErr e => k = Some e \/ k = None /\ S = G /\ fst <$> c = Some e /\ ran p' = option_list (c ≫= snd)
  | RWait => k = None /\ c = None /\ S = G
  | RPanic => False
  end.
Proof.
  intros Hn Htr. pose proof Htr as [Hok He Hb Hs Hpre Hnb Hf Hr]. unfold pipe_Read.
  destruct (breakErr p) as [e|] eqn:Hbp.
  { cbn. rewrite app_nil_r. split; [done|]. by left. }
  subst k. rewrite (pipe_Len_ok p Hok). destruct (Z.ltb_spec 0 (len (pending p))) as [Hl|Hl].
  - assert (Hne : pending p <> []) by (intros Hz; rewrite Hz in Hl; by cbn in Hl).
    unfold pending in Hne, Hl |- *. destruct (pb p) as [b|] eqn:Hpb; [|done].
    destruct (pb_Read_ok n b (po_buffer p Hok b Hpb) Hn Hne) as (b' & -> & Hokb & Hcb). cbn [got_of].
    specialize (Hs eq_refl). unfold pending in Hs. rewrite Hpb in Hs.
    assert (HS : S = (G ++ upto (Z.min n (len (pb_contents b))) (pb_contents b)) ++ pb_contents b').
    { rewrite <- app_assoc, Hcb, upto_from. exact Hs. }
    split; [|done]. tr_split.
    + split; cbn; [by intros ? [= <-]|done|]. pose proof (po_done p Hok) as Hd. by rewrite Hbp in Hd.
    + rewrite HS. by eexists.
  - assert (Hz : pending p = []).
    { destruct (pending p) as [|x l]; [done|]. rewrite len_cons in Hl. pose proof (len_nonneg l). lia. }
    specialize (Hs eq_refl). rewrite Hz, app_nil_r in Hs. specialize (Hf eq_refl).
    destruct (err p) as [e|] eqn:Hep.
    + assert (Hran : match readFn p with Some f => ran p ++ [f] | None => ran p end = option_list (c ≫= snd)).
      { rewrite <- Hf. destruct (readFn p); cbn; [done|by rewrite app_nil_r]. }
      cbn [got_of]. rewrite app_nil_r, Hran. split; [|right; by rewrite <- He].
      assert (Hx : option_list (c ≫= snd) ++ option_list None = option_list (c ≫= snd)) by (cbn; by rewrite app_nil_r).
      tr_split.
      * split; cbn; [done|intros _; left; by eexists|]. pose proof (po_done p Hok) as Hd. by rewrite Hep, Hbp in Hd.
      * intros _. unfold pending. cbn. by rewrite app_nil_r.
      * by right.
    + cbn. rewrite app_nil_r. split; [done|]. split_and!; [done| |done]. by destruct c.
Qed.

Lemma done_iff p d f rn e (b : option B) (k : option E) :
  pipe_ok p -> is_Some e \/ is_Some k -> (b = None \/ b = pb p) ->
  pipe_ok (mkPipe b e k (closeDoneLocked d) f rn).
Proof.
  intros Hok Hs Hb. split; cbn.
  - intros b' Hb'. destruct Hb as [->| ->]; [done|]. by apply (po_buffer p Hok).
  - done.
  - unfold closeDoneLocked. by destruct d; naive_solver.
Qed.

Lemma step_close S G c k p e fn : tr S G c k p -> tr S G (or_first c (Some (e, fn))) k (close_err e fn p).
Proof.
  intros [Hok He Hb Hs Hpre Hnb Hf Hr]. unfold close_err. destruct (err p) as [e0|] eqn:Hep.
  - destruct c as [[e1 f1]|]; [|done]. split; try done. by rewrite Hep.
  - destruct c as [?|]; [done|]. cbn in Hr, Hf |- *.
    assert (Hrn : ran p = []) by (destruct Hr as [H|H]; by apply app_eq_nil in H as [? _]).
    assert (Hx : ran p ++ option_list fn = option_list fn) by (by rewrite Hrn).
    tr_split; [|by right].
    apply (done_iff p); [done|left; by eexists|by right].
Qed.

Lemma step_break S G c k p e : tr S G c k p -> tr S G c (or_first k (Some e)) (close_break e p).
Proof.
  intros [Hok He Hb Hs Hpre Hnb Hf Hr]. unfold close_break. destruct (breakErr p) as [e0|] eqn:Hbp.
  - subst k. by split.
  - subst k. cbn. tr_split.
    + apply (done_iff p); [done|right; by eexists|by left].
    + cbn. rewrite app_nil_r. destruct (readFn p) as [f|]; cbn in Hr; [|by rewrite app_nil_r in Hr].
      destruct (ran p) as [|g l]; [by left|]. exfalso. destruct Hr as [Hr|Hr]; [done|].
      destruct (c ≫= snd); cbn in Hr; [|done]. injection Hr as _ Hr. by destruct l.
Qed.

Lemma step_done S G c k p : tr S G c k p ->
  let '(p', ch) := Done p in tr S G c k p' /\ (ch = chan_closed <-> is_Some c \/ is_Some k).
Proof.
  intros [Hok He Hb Hs Hpre Hnb Hf Hr].
  assert (Hiff : is_Some (err p) \/ is_Some (breakErr p) <-> is_Some c \/ is_Some k).
  { rewrite He, Hb, fmap_is_Some. done. }
  pose proof (po_done p Hok) as Hd. unfold Done.
  destruct (donec p) eqn:Hdp.
  2:{ split; [by split|]. rewrite <- Hiff. split; [done|]. intros H. by apply Hd. }
  2:{ split; [by split|]. rewrite <- Hiff. split; [|done]. intros _. by apply Hd. }
  set (ch := if _ || _ then _ else _).
  assert (Hc : ch = chan_closed <-> is_Some (err p) \/ is_Some (breakErr p)).
  { unfold ch. destruct (err p), (breakErr p); cbn; naive_solver. }
  assert (Hn : ch <> chan_nil) by (unfold ch; by destruct (_ || _)).
  split; [|by rewrite Hc]. tr_split. split; cbn; [apply (po_buffer p Hok)|apply (po_nil p Hok)|].
  rewrite Hc. split; [by split|by intros [_ H]].
Qed.

(** One call, whichever it is. *)
Lemma step_tr S G c k p o : op_ok o -> tr S G c k p ->
  let '(p', a) := pipe_step o p in
  tr (S ++ sent_of (o, a)) (G ++ got_of (o, a)) (or_first c (first_close [o])) (or_first k (first_break [o])) p' /\
  no_panic a.
Proof.
  intros Ho Htr. assert (HN : forall A (a : option A), or_first a None = a) by (by intros ? []).
  destruct o as [d|n|e [fn|]|e|]; cbn [pipe_step first_close first_break]; rewrite ?HN.
  - pose proof (step_write _ _ _ _ _ d Htr) as H. destruct (pipe_Write d p) as [p' a]. destruct H as [H1 H2].
    cbn [got_of]. rewrite app_nil_r. split; [done|]. split; congruence.
  - pose proof (step_read _ _ _ _ _ n Ho Htr) as H. destruct (pipe_Read n p) as [p' a]. destruct H as [H1 H2].
    cbn [sent_of]. rewrite app_nil_r. split; [done|]. split; [done|]. intros [= ->]. done.
  - cbn. rewrite !app_nil_r. split; [by apply step_close|by split].
  - cbn. rewrite !app_nil_r. split; [by apply step_close|by split].
  - cbn. rewrite !app_nil_r. split; [by apply step_break|by split].
  - pose proof (step_done _ _ _ _ _ Htr) as H. destruct (Done p) as [p' ch]. destruct H as [H1 _].
    cbn. rewrite !app_nil_r. split; [done|by split].
Qed.

Lemma run_tr ops S G c k p p' log : Forall op_ok ops -> tr S G c k p -> pipe_run ops p = (p', log) ->
  tr (S ++ sent log) (G ++ got log) (or_first c (first_close ops)) (or_first k (first_break ops)) p' /\
  Forall (fun x => no_panic (snd x)) log.
Proof.
  intros Ho. revert S G c k p p' log. induction Ho as [|o ops Ho _ IH]; intros S G c k p p' log Htr; cbn [pipe_run].
  - intros [= <- <-]. unfold sent, got. cbn. rewrite !app_nil_r. by destruct c, k.
  - pose proof (step_tr _ _ _ _ _ o Ho Htr) as Hst. destruct (pipe_step o p) as [p1 a]. destruct Hst as [Hst Hnp].
    destruct (pipe_run ops p1) as [p2 log'] eqn:Hrun. intros [= <- <-].
    destruct (IH _ _ _ _ _ _ _ Hst Hrun) as [H1 H2].
    rewrite first_close_snoc, first_break_snoc, <- !or_first_assoc. unfold sent, got in *. cbn [map concat].
    rewrite !app_assoc. split; [done|]. by constructor.
Qed.

Lemma new_pipe_tr b : pb_ok b -> pb_contents b = [] -> tr [] [] None None (new_pipe b).
Proof.
  intros Hb Hc. split; cbn; auto; try done. by apply new_pipe_ok.
Qed.

(** C7. After any interleaving of writes, reads, closes and breaks of a fresh
    pipe, no call has panicked, what was read is a prefix of what was written,
    and the next [Read]: answers with the next buffered bytes while there are
    any; waits only when everything written was read and nothing closed the
    pipe; gives the first error of [CloseWithError] only when everything was
    read, having run that close's [readFn] exactly once; and gives the first
    error of [BreakWithError] whenever there is one. [Done]'s channel is closed
    exactly when one of them was called. *)
Theorem pipe_delivers b ops p log n :
  pb_ok b -> pb_contents b = [] -> Forall op_ok ops -> 0 <= n -> pipe_run ops (new_pipe b) = (p, log) ->
  Forall (fun x => no_panic (snd x)) log /\
  got log `prefix_of` sent log /\
  (length (ran p) <= 1)%nat /\
  (snd (Done p) = chan_closed <-> is_Some (first_close ops) \/ is_Some (first_break ops)) /\
  match first_break ops, snd (pipe_Read n p) with
  | Some e, a => a = RErr e
  | None, RData d => exists rest, sent log = got log ++ d ++ rest /\ len d = Z.min n (len (d ++ rest)) /\ d ++ rest <> []
  | None, RErr e => got log = sent log /\ exists fn, first_close ops = Some (e, fn) /\
      ran (fst (pipe_Read n p)) = option_list fn
  | None, RWait => got log = sent log /\ first_close ops = None
  | None, RPanic => False
  end.
Proof.
  intros Hb Hc Ho Hn Hrun. destruct (run_tr _ _ _ _ _ _ _ _ Ho (new_pipe_tr b Hb Hc) Hrun) as [Htr Hnp].
  cbn [or_first app] in Htr. pose proof Htr as [Hok He Hbr Hs Hpre Hnb Hf Hr].
  split; [done|]. split; [done|]. split.
  { destruct (ran p) as [|x [|y l]]; cbn; try lia. exfalso.
    destruct Hr as [Hr|Hr]; [done|]. by destruct (first_close ops ≫= snd). }
  split. { pose proof (step_done _ _ _ _ _ Htr) as H. destruct (Done p). apply H. }
  pose proof (step_read _ _ _ _ _ n Hn Htr) as H.
  destruct (pipe_Read n p) as [p' a] eqn:Hrd. cbn [fst snd]. destruct H as [_ H].
  destruct (first_break ops) as [e|] eqn:Hfb.
  - unfold pipe_Read in Hrd. rewrite Hbr in Hrd. by injection Hrd as _ <-.
  - destruct a as [d|e| |]; [|..|done].
    + destruct H as (_ & -> & Hne). specialize (Hs eq_refl).
      exists (from (Z.min n (len (pending p))) (pending p)). rewrite upto_from.
      split; [done|]. split; [|done]. rewrite len_upto by (pose proof (len_nonneg (pending p)); lia). lia.
    + destruct H as [?|(_ & HS & Hfc & Hrn)]; [done|]. split; [done|].
      destruct (first_close ops) as [[e' fn]|]; [|done]. injection Hfc as ->. by exists fn.
    + destruct H as (_ & Hfc & HS). by split.
Qed.
End pipe.
Arguments pipe : clear implicits.
Arguments pipe_error : clear implicits.
Arguments read_answer : clear implicits.
Arguments write_answer : clear implicits.
Arguments pipe_op : clear implicits.
Arguments pipe_answer : clear implicits.


(** A body written, half read, and closed with the code that copies trailers
    (named 5); the write after the close is refused. *)
Lemma pipe_delivers_witness :
  let P := dataBuffer_pipe zero_alloc zero_alloc_len in
  let ops := [OWrite [1; 2; 3]; ORead 2; OClose 7%nat (Some 5%nat); OWrite [9]] in
  exists p log,
    pipe_run (PipeBuffer0 := P) ops (new_pipe (db_empty 0)) = (p, log) /\
    got log `prefix_of` sent log /\ sent log = [1; 2; 3] /\ got log = [1; 2].
Proof.
  intros P ops. destruct (pipe_run (PipeBuffer0 := P) ops (new_pipe (db_empty 0))) as [p log] eqn:Hrun.
  exists p, log. split; [done|]. split.
  - eapply (pipe_delivers (PipeBuffer0 := P) (db_empty 0) ops p log 2).
    + exact (db_empty_ok 0).
    + reflexivity.
    + repeat constructor; by compute.
    + lia.
    + exact Hrun.
  - apply (f_equal (fun x => (sent (snd x), got (snd x)))) in Hrun.
    assert (Hv : (sent (snd (pipe_run (PipeBuffer0 := P) ops (new_pipe (db_empty 0)))),
                  got (snd (pipe_run (PipeBuffer0 := P) ops (new_pipe (db_empty 0))))) = ([1; 2; 3], [1; 2]))
      by (vm_compute; reflexivity).
    rewrite Hv in Hrun. injection Hrun as H1 H2. cbn [snd] in *. by rewrite <- H1, <- H2.
Defined.
