(* ===== verification/HpackChunks.v ===== *)
(** Header blocks arrive in fragments: [Decoder.Write] of
    [http2/hpack/hpack.go] gives the same result wherever a block is cut. And
    encoded header blocks as a [Framer] meets them: how long they are, and how
    they decode with a callback that may stop the emission. *)

From S2P Require Import Prelude HpackVarint HpackTables HpackHuffman HpackDecoder HpackSafety HpackEncoder.

(** * Reading from a longer buffer *)

(** [r'], read from a buffer that is longer by [q], agrees with [r] unless [r]
    asks for more. *)
Definition extends {A} (q : bytes) (r r' : hp (A * bytes)) : Prop :=
  match r with
  | Ok (a, rest) => r' = Ok (a, rest ++ q)
  | Fail errNeedMore => True
  | Fail e => r' = Fail e
  | Panic => r' = Panic
  end.

Lemma readVarInt_loop_extends p i m q :
  extends q (readVarInt_loop p i m) (readVarInt_loop (p ++ q) i m).
Proof.
  revert i m. induction p as [|b p IH]; intros i m; cbn [readVarInt_loop app extends]; [done|].
  destruct (Z.land b 128 =? 0); [done|]. destruct (63 <=? u64 (m + 7)); [done|]. apply IH.
Qed.

Lemma readVarInt_extends n p q : extends q (readVarInt n p) (readVarInt n (p ++ q)).
Proof.
  unfold readVarInt. destruct (_ || _); [done|]. destruct p as [|b p]; cbn [app]; [done|].
  set (i := if n <? 8 then _ else _). destruct (i <? _); [done|]. apply readVarInt_loop_extends.
Qed.

Lemma upto_app {A} n (p q : list A) : 0 <= n <= len p -> upto n (p ++ q) = upto n p.
Proof. intros Hn. unfold upto, len in *. by rewrite take_app_le by lia. Qed.

Lemma from_app {A} n (p q : list A) : 0 <= n <= len p -> from n (p ++ q) = from n p ++ q.
Proof. intros Hn. unfold from, len in *. by rewrite drop_app_le by lia. Qed.

(** Slices far shorter than Go's [int] can count. *)
Definition small (p : bytes) : Prop := bytes_ok p /\ len p < 2 ^ 62.

Lemma small_app p q : small (p ++ q) -> small p /\ small q.
Proof.
  unfold small. rewrite bytes_ok_app, len_app. pose proof (len_nonneg p). pose proof (len_nonneg q). intuition lia.
Qed.

Lemma small_rest p p' : small p -> consumed p p' -> small p'.
Proof. intros [Hb Hl] Hc. destruct (consumed_ok _ _ Hc Hb). split; [done|lia]. Qed.

Lemma u64_len_small p : small p -> u64 (len p) = len p.
Proof. intros [_ Hl]. apply wrap_id. unfold in_width. pose proof (len_nonneg p). lia. Qed.

Lemma readString_extends d p q want : small (p ++ q) ->
  extends q (readString d p want) (readString d (p ++ q) want).
Proof.
  intros Hs. destruct (small_app _ _ Hs) as [Hp _]. destruct p as [|b p]; [done|].
  unfold readString. cbn [app]. change (b :: p ++ q) with ((b :: p) ++ q).
  pose proof (readVarInt_extends 7 (b :: p) q) as Hv. pose proof (readVarInt_safe 7 (b :: p) ltac:(lia) (proj1 Hp)) as Hsafe.
  destruct (readVarInt 7 (b :: p)) as [[n p']|e|]; cbn [extends] in Hv; [| |done].
  2:{ destruct Hsafe as [->| ->]; [done|by rewrite Hv]. }
  rewrite Hv. destruct Hsafe as [Hn Hc]. cbn [mbind outcome_bind].
  destruct (_ && _); [done|].
  assert (Hp' : small p') by by eapply small_rest.
  assert (Hpq : small (p' ++ q)).
  { destruct Hc as (x & _ & Hx). rewrite Hx, <- app_assoc in Hs. by apply small_app in Hs as [_ Hs]. }
  rewrite !u64_len_small, len_app by done. pose proof (len_nonneg q).
  destruct (Z.ltb_spec (len p') n); [done|]. rewrite (proj2 (Z.ltb_ge _ _)) by lia.
  unfold in_width in Hn. rewrite upto_app, from_app by lia.
  destruct (Z.land b 128 =? 0); cbn [negb]; [by destruct want|].
  destruct want; [|done]. destruct (huffman_decode _ _) as [s|e|]; cbn; [done| |done]. by destruct e.
Qed.

Lemma extends_bind {A B} q (r r' : hp (A * bytes)) (f : A * bytes -> hp (B * bytes)) :
  extends q r r' ->
  (forall a rest, r = Ok (a, rest) -> extends q (f (a, rest)) (f (a, rest ++ q))) ->
  extends q (mbind f r) (mbind f r').
Proof.
  intros Hr Hf. destruct r as [[a rest]|e|]; cbn in Hr |- *.
  - subst r'. by apply Hf.
  - destruct e; try (by subst r'). done.
  - by subst r'.
Qed.

Lemma read_name_extends d i p q want : small (p ++ q) ->
  extends q (read_name d i p want) (read_name d i (p ++ q) want).
Proof.
  intros Hs. unfold read_name. destruct (0 <? i); [|by apply readString_extends].
  destruct (at_index d i) as [[hf|]|e|]; cbn; try done. by destruct e.
Qed.

(** * Parsing from a longer buffer *)

Section chunks.
Context {St : Type} (emit : HeaderField -> St -> St * bool).

(** The same for a parsing step: when it asks for more it has changed
    nothing. *)
Definition extends_step (d : Decoder) (st : St) (buf q : bytes) (r r' : hp (pstate (St := St))) : Prop :=
  match r with
  | Ok (d', st', rest, Some errNeedMore) => d' = d /\ st' = st /\ rest = buf
  | Ok (d', st', rest, Some e) => exists rest', r' = Ok (d', st', rest', Some e)
  | Ok (d', st', rest, None) => r' = Ok (d', st', rest ++ q, None)
  | Fail e => r' = Fail e
  | Panic => r' = Panic
  end.

Lemma extends_read {A} d st buf q (r r' : hp (A * bytes)) (k k' : A -> bytes -> hp (pstate (St := St))) :
  extends q r r' ->
  (forall a rest, r = Ok (a, rest) -> extends_step d st buf q (k a rest) (k' a (rest ++ q))) ->
  extends_step d st buf q
    (match r with Fail e => Ok (d, st, buf, Some e) | Panic => Panic | Ok (a, rest) => k a rest end)
    (match r' with Fail e => Ok (d, st, buf ++ q, Some e) | Panic => Panic | Ok (a, rest) => k' a rest end).
Proof.
  intros Hr Hk. destruct r as [[a rest]|e|]; cbn in Hr.
  - subst r'. by apply Hk.
  - destruct e; cbn; try (subst r'; by eexists). done.
  - by subst r'.
Qed.

Lemma callEmit_no_more d st hf : (callEmit emit d st hf).2 <> Some errNeedMore.
Proof.
  unfold callEmit. destruct (_ && _); [done|]. destruct (emitEnabled d); [|done]. by destruct (emit hf st).
Qed.

Lemma step_callEmit d0 st0 buf q d st hf rest :
  extends_step d0 st0 buf q
    (let '(d', st', err) := callEmit emit d st hf in Ok (d', st', rest, err))
    (let '(d', st', err) := callEmit emit d st hf in Ok (d', st', rest ++ q, err)).
Proof.
  pose proof (callEmit_no_more d st hf) as Hn. destruct (callEmit emit d st hf) as [[d' st'] [e|]]; [|done].
  cbn in Hn |- *. destruct e; try done; by eexists.
Qed.

Lemma indexed_extends d st buf q :
  extends_step d st buf q (parseFieldIndexed emit d st buf) (parseFieldIndexed emit d st (buf ++ q)).
Proof.
  unfold parseFieldIndexed. eapply extends_read; [apply readVarInt_extends|]. intros idx rest _.
  destruct (at_index d idx) as [[hf|]|e|]; cbn [mbind outcome_bind]; [apply step_callEmit|by eexists|done..].
Qed.

Lemma update_extends d st buf q :
  extends_step d st buf q (parseDynamicTableSizeUpdate d st buf) (parseDynamicTableSizeUpdate d st (buf ++ q)).
Proof.
  unfold parseDynamicTableSizeUpdate. eapply extends_read; [apply readVarInt_extends|]. intros size rest _.
  destruct (_ <? size); [by eexists|]. by destruct (setMaxSize (u32 size) (dynTab d)).
Qed.

Lemma readVarInt_small n p v rest q : 1 <= n <= 8 -> small (p ++ q) -> readVarInt n p = Ok (v, rest) ->
  small (rest ++ q).
Proof.
  intros Hn Hs Hr. destruct (small_app _ _ Hs) as [[Hb _] _].
  pose proof (readVarInt_safe n p Hn Hb) as Hsafe. rewrite Hr in Hsafe.
  destruct Hsafe as [_ (x & _ & ->)]. rewrite <- app_assoc in Hs. by apply small_app in Hs as [_ Hs].
Qed.

Lemma read_name_small d i p q want s rest : small (p ++ q) -> read_name d i p want = Ok (s, rest) ->
  small (rest ++ q).
Proof.
  intros Hs. unfold read_name. destruct (0 <? i).
  - destruct (at_index d i) as [[hf|]|e|]; cbn; try done. by intros [= _ <-].
  - intros Hr. destruct (small_app _ _ Hs) as [[Hb Hl] _].
    pose proof (readString_safe d p want Hb Hl) as Hsafe. rewrite Hr in Hsafe.
    destruct Hsafe as (_ & _ & x & _ & ->).
    rewrite <- app_assoc in Hs. by apply small_app in Hs as [_ Hs].
Qed.

Lemma literal_extends d st n it buf q : 1 <= n <= 8 -> small (buf ++ q) ->
  extends_step d st buf q (parseFieldLiteral emit d st n it buf) (parseFieldLiteral emit d st n it (buf ++ q)).
Proof.
  intros Hn Hs. unfold parseFieldLiteral. set (want := _ || _).
  eapply extends_read.
  - apply extends_bind; [apply readVarInt_extends|]. intros i rest Hi. cbn [fst snd].
    pose proof (readVarInt_small _ _ _ _ _ Hn Hs Hi) as Hs1.
    apply extends_bind; [by apply read_name_extends|]. intros nm rest2 Hnm. cbn [fst snd].
    pose proof (read_name_small _ _ _ _ _ _ _ Hs1 Hnm) as Hs2.
    apply extends_bind; [by apply readString_extends|]. done.
  - intros hf rest _. destruct (if indexed it then _ else _) as [t|e|]; cbn [mbind outcome_bind]; [|done..].
    apply step_callEmit.
Qed.

Lemma parse_extends d st buf q : buf <> [] -> small (buf ++ q) ->
  extends_step d st buf q (parseHeaderFieldRepr emit d st buf) (parseHeaderFieldRepr emit d st (buf ++ q)).
Proof.
  intros Hne Hs. destruct buf as [|b buf]; [done|]. unfold parseHeaderFieldRepr. cbn [app].
  change (b :: buf ++ q) with ((b :: buf) ++ q).
  repeat case_match; try (by apply indexed_extends); try (by apply update_extends);
    try (apply literal_extends; [lia|done]). by eexists.
Qed.

(** * Steps consume and keep the limits *)

(** What a parsing step leaves alone. *)
Record same_frame (d d' : Decoder) : Prop := {
  sf_max : maxStrLen d' = maxStrLen d;
  sf_save : saveBuf d' = saveBuf d }.

Lemma callEmit_frame d st hf d' st' err : callEmit emit d st hf = (d', st', err) -> same_frame d d'.
Proof.
  unfold callEmit. intros H. destruct (_ && _); [by simplify_eq|].
  destruct (emitEnabled d); [|by simplify_eq]. destruct (emit hf st). by simplify_eq.
Qed.

Definition step_keeps (d : Decoder) (buf : bytes) (r : hp (pstate (St := St))) : Prop :=
  match r with
  | Ok (d', _, rest, err) => same_frame d d' /\ (err = None -> consumed buf rest)
  | _ => True
  end.

Lemma keeps_callEmit d0 buf d st hf rest :
  same_frame d0 d -> consumed buf rest ->
  step_keeps d0 buf (let '(d', st', err) := callEmit emit d st hf in Ok (d', st', rest, err)).
Proof.
  intros [H1 H2] Hc. destruct (callEmit emit d st hf) as [[d' st'] err] eqn:He.
  destruct (callEmit_frame _ _ _ _ _ _ He) as [H3 H4]. split; [|done]. split; congruence.
Qed.

Lemma literal_keeps d st n it buf : 1 <= n <= 8 -> small buf ->
  step_keeps d buf (parseFieldLiteral emit d st n it buf).
Proof.
  intros Hn [Hb Hl]. unfold parseFieldLiteral. set (want := _ || _).
  pose proof (readVarInt_safe n buf Hn Hb) as H1.
  destruct (readVarInt n buf) as [[i p1]|e|]; cbn [mbind outcome_bind fst snd]; [|by split|done].
  destruct H1 as [_ H1]. destruct (consumed_ok _ _ H1 Hb) as [Hb1 Hl1].
  assert (H2 : match read_name d i p1 want with Ok (_, p2) => p2 = p1 \/ consumed p1 p2 | _ => True end).
  { unfold read_name. destruct (0 <? i).
    - destruct (at_index d i) as [[hf|]|e|]; cbn; auto.
    - pose proof (readString_safe d p1 want Hb1 ltac:(lia)) as Hr. destruct (readString d p1 want) as [[s p2]|e|]; [|done..].
      right. apply Hr. }
  destruct (read_name d i p1 want) as [[nm p2]|e|]; cbn [mbind outcome_bind fst snd]; [|by split|done].
  pose proof (consumed_trans _ _ _ H1 H2) as H12. destruct (consumed_ok _ _ H12 Hb) as [Hb2 Hl2].
  pose proof (readString_safe d p2 want Hb2 ltac:(lia)) as H3.
  destruct (readString d p2 want) as [[v p3]|e|]; cbn [mbind outcome_bind fst snd]; [|by split|done].
  destruct H3 as (_ & _ & H3).
  destruct (if indexed it then _ else _) as [t|e|]; cbn [mbind outcome_bind]; [|done..].
  apply keeps_callEmit; [done|]. apply (consumed_trans _ _ _ H12). by right.
Qed.

Lemma parse_keeps d st buf : small buf -> step_keeps d buf (parseHeaderFieldRepr emit d st buf).
Proof.
  intros Hs. unfold parseHeaderFieldRepr. destruct buf as [|b buf]; [done|].
  repeat case_match; try (by apply literal_keeps; [lia|done]); try (by split); destruct Hs as [Hb _].
  - unfold parseFieldIndexed. pose proof (readVarInt_safe 7 _ ltac:(lia) Hb) as Hv.
    destruct (readVarInt 7 _) as [[i p1]|e|]; [|by split|done].
    destruct (at_index d i) as [[hf|]|e|]; cbn [mbind outcome_bind]; [|by split|done..].
    apply keeps_callEmit; [done|apply Hv].
  - unfold parseDynamicTableSizeUpdate. pose proof (readVarInt_safe 5 _ ltac:(lia) Hb) as Hv.
    destruct (readVarInt 5 _) as [[i p1]|e|]; [|by split|done]. destruct (_ <? i); [by split|].
    destruct (setMaxSize (u32 i) (dynTab d)); cbn [mbind outcome_bind]; [|done..]. split; [done|]. intros _. apply Hv.
Qed.

(** * The loop *)

Definition over_limit (d : Decoder) (n : Z) : Prop := maxStrLen d <> 0 /\ i64 (2 * (maxStrLen d + 8)) < n.

(** Enough fuel is enough: the loop ends, with the same result for any more. *)
Lemma Write_loop_fuel fuel d st buf : small buf -> (length buf <= fuel)%nat ->
  Write_loop emit fuel d st buf = Write_loop emit (length buf) d st buf /\
  Write_loop emit (length buf) d st buf <> None.
Proof.
  revert d st buf. induction fuel as [fuel IH] using lt_wf_ind. intros d st buf Hs Hf.
  destruct buf as [|b buf0] eqn:Hbuf; [by destruct fuel|]. rewrite <- Hbuf in *.
  assert (Hlen : (length buf = S (length buf0))%nat) by (by rewrite Hbuf).
  destruct fuel as [|fuel]; [lia|]. rewrite Hlen.
  assert (Hunf : forall g, Write_loop emit (S g) d st buf =
    match parseHeaderFieldRepr emit d st buf with
    | Ok (d', st', buf', None) => Write_loop emit g d' st' buf'
    | Ok (d', st', buf', Some errNeedMore) =>
        if negb (maxStrLen d' =? 0) && (i64 (2 * (maxStrLen d' + 8)) <? len buf') then
          Some (Ok (d', st', Some ErrStringLength))
        else Some (Ok (with_saveBuf (saveBuf d' ++ buf') d', st', None))
    | Ok (d', st', buf', Some e) => Some (Ok (d', st', Some e))
    | Fail e => Some (Fail e)
    | Panic => Some Panic
    end) by (by rewrite Hbuf).
  rewrite !Hunf. pose proof (parse_keeps d st buf Hs) as Hk.
  destruct (parseHeaderFieldRepr emit d st buf) as [[[[d' st'] buf'] [e|]]|e|]; [| |done..].
  - destruct e; try done. by destruct (_ && _).
  - destruct Hk as [_ Hk]. specialize (Hk eq_refl). destruct Hs as [Hb Hl].
    destruct (consumed_ok _ _ Hk Hb) as [Hb' Hl']. unfold len in Hl, Hl'.
    destruct (IH fuel ltac:(lia) d' st' buf') as [E1 E2]; [by split; [|unfold len; lia]|lia|].
    destruct (IH (length buf0) ltac:(lia) d' st' buf') as [E3 E4]; [by split; [|unfold len; lia]|lia|].
    by rewrite E1, E3.
Qed.

(** The loop on [p ++ q], from the loop on [p]. *)
Lemma Write_loop_app d st p q : small (p ++ q) -> saveBuf d = [] ->
  match Write_loop emit (length p) d st p with
  | Some (Ok (d1, st1, None)) =>
      Write_loop emit (length (p ++ q)) d st (p ++ q) =
        Write_loop emit (length (saveBuf d1 ++ q)) (with_saveBuf [] d1) st1 (saveBuf d1 ++ q) /\
      maxStrLen d1 = maxStrLen d /\ len (saveBuf d1) <= len p /\ small (saveBuf d1 ++ q)
  | Some (Ok (d1, st1, Some e)) =>
      Write_loop emit (length (p ++ q)) d st (p ++ q) = Some (Ok (d1, st1, Some e)) \/
      e = ErrStringLength /\ over_limit d (len p)
  | r => Write_loop emit (length (p ++ q)) d st (p ++ q) = r
  end.
Proof.
  remember (length p) as n eqn:Hn. revert d st p Hn. induction n as [n IH] using lt_wf_ind.
  intros d st p -> Hs Hsv. destruct p as [|b p0] eqn:Hp.
  { cbn [length Write_loop]. rewrite Hsv. cbn [app]. destruct d; cbn in *; subst.
    by split_and!. }
  assert (Hne : p <> []) by (by rewrite Hp). rewrite <- Hp in *.
  destruct (small_app _ _ Hs) as [Hsp Hsq].
  assert (Hunf : forall m (l : bytes), l <> [] -> length l = S m ->
    Write_loop emit (length l) d st l =
    match parseHeaderFieldRepr emit d st l with
    | Ok (d', st', buf', None) => Write_loop emit m d' st' buf'
    | Ok (d', st', buf', Some errNeedMore) =>
        if negb (maxStrLen d' =? 0) && (i64 (2 * (maxStrLen d' + 8)) <? len buf') then
          Some (Ok (d', st', Some ErrStringLength))
        else Some (Ok (with_saveBuf (saveBuf d' ++ buf') d', st', None))
    | Ok (d', st', buf', Some e) => Some (Ok (d', st', Some e))
    | Fail e => Some (Fail e)
    | Panic => Some Panic
    end) by (intros m [|x l] ? ->; done).
  assert (Hlp : (length p = S (length p0))%nat) by (by rewrite Hp).
  rewrite (Hunf (length p0) p Hne Hlp).
  assert (Hlpq : (length (p ++ q) = S (length (p0 ++ q)))%nat) by (by rewrite Hp).
  rewrite (Hunf (length (p0 ++ q)) (p ++ q)) by (done || by rewrite Hp).
  pose proof (parse_extends d st p q Hne Hs) as He. pose proof (parse_keeps d st p Hsp) as Hk.
  destruct (parseHeaderFieldRepr emit d st p) as [[[[d' st'] rest] [e|]]|e|] eqn:Hparse; cbn [extends_step] in He.
  - destruct e; try (destruct He as [rest' ->]; by left).
    destruct He as (-> & -> & ->). destruct (_ && _) eqn:Hlim.
    + right. split; [done|]. apply andb_true_iff in Hlim as [Hz%negb_true_iff%Z.eqb_neq Hl%Z.ltb_lt]. by split.
    + rewrite <- (Hunf (length (p0 ++ q)) (p ++ q)) by (done || by rewrite Hp).
      rewrite Hsv. cbn [app saveBuf with_saveBuf maxStrLen].
      assert (Hd : with_saveBuf [] (with_saveBuf p d) = d) by (destruct d; cbn in *; by subst). rewrite Hd.
      split_and!; try done; lia.
  - rewrite He. destruct Hk as [[Hmx Hsb] Hk]. specialize (Hk eq_refl).
    assert (Hsr : small (rest ++ q)).
    { destruct Hk as (x & _ & Hx). rewrite Hx, <- app_assoc in Hs. by apply small_app in Hs as [_ Hs]. }
    destruct Hsp as [Hb Hl]. destruct (consumed_ok _ _ Hk Hb) as [Hb' Hl']. unfold len in Hl'.
    assert (Hrest : small rest) by (by destruct (small_app _ _ Hsr)).
    destruct (Write_loop_fuel (length p0) d' st' rest Hrest ltac:(lia)) as [-> _].
    destruct (Write_loop_fuel (length (p0 ++ q)) d' st' (rest ++ q) Hsr) as [-> _].
    { rewrite !length_app. lia. }
    specialize (IH (length rest) ltac:(lia) d' st' rest eq_refl Hsr ltac:(congruence)).
    destruct (Write_loop emit (length rest) d' st' rest) as [[[[d1 st1] [e|]]|e|]|]; try done.
    + destruct IH as [IH|[-> [IH1 IH2]]]; [by left|right]. split; [done|]. rewrite Hmx in IH1, IH2.
      split; [done|]. unfold len in *. lia.
    + destruct IH as (IH1 & IH2 & IH3 & IH4). rewrite IH1. split_and!; [done|congruence|unfold len in *; lia|done].
  - by rewrite He.
  - by rewrite He.
Qed.

Lemma over_limit_mono d m n : over_limit d m -> m <= n -> over_limit d n.
Proof. intros [? ?] ?. split; [done|lia]. Qed.

Lemma Write_app d st p q : small (saveBuf d ++ p ++ q) ->
  match Write emit d st p with
  | Some (Ok (d1, st1, None)) =>
      Write emit d st (p ++ q) = Write emit d1 st1 q /\ maxStrLen d1 = maxStrLen d /\
      len (saveBuf d1) <= len (saveBuf d ++ p) /\ small (saveBuf d1 ++ q)
  | Some (Ok (d1, st1, Some e)) =>
      Write emit d st (p ++ q) = Some (Ok (d1, st1, Some e)) \/
      e = ErrStringLength /\ over_limit d (len (saveBuf d ++ p))
  | r => Write emit d st (p ++ q) = r
  end.
Proof.
  intros Hs. rewrite app_assoc in Hs. unfold Write at 1. destruct p as [|b p0] eqn:Hp.
  { change (len [] =? 0) with true. cbv match. cbn [app]. rewrite app_nil_r in *. by split_and!. }
  rewrite <- Hp in *. assert (Hlp : 0 < len p) by (rewrite Hp, len_cons; pose proof (len_nonneg p0); lia).
  rewrite (proj2 (Z.eqb_neq (len p) 0)) by lia.
  assert (Hpq : Write emit d st (p ++ q) =
    Write_loop emit (length ((saveBuf d ++ p) ++ q)) (with_saveBuf [] d) st ((saveBuf d ++ p) ++ q)).
  { unfold Write. rewrite len_app. pose proof (len_nonneg q). rewrite (proj2 (Z.eqb_neq _ 0)) by lia.
    by rewrite <- app_assoc. }
  rewrite Hpq. pose proof (Write_loop_app (with_saveBuf [] d) st (saveBuf d ++ p) q Hs eq_refl) as HL.
  destruct (Write_loop emit (length (saveBuf d ++ p)) (with_saveBuf [] d) st (saveBuf d ++ p))
    as [[[[d1 st1] [e|]]|e|]|] eqn:Hrun; try exact HL.
  destruct HL as (HL1 & HL2 & HL3 & HL4). split; [|by split_and!].
  destruct q as [|c q0] eqn:Hq.
  - rewrite app_nil_r, Hrun. done.
  - rewrite <- Hq in *. rewrite HL1. unfold Write.
    assert (Hlq : 0 < len q) by (rewrite Hq, len_cons; pose proof (len_nonneg q0); lia).
    by rewrite (proj2 (Z.eqb_neq (len q) 0)) by lia.
Qed.

(** [Write] called for one fragment after the other, up to the first error, as
    [readMetaFrame] does. *)
Fixpoint Write_fragments (d : Decoder) (st : St) (ps : list bytes)
    : option (hp (Decoder * St * option hpack_error)) :=
  match ps with
  | [] => Some (Ok (d, st, None))
  | p :: ps =>
      match Write emit d st p with
      | Some (Ok (d1, st1, None)) => Write_fragments d1 st1 ps
      | r => r
      end
  end.

Lemma fragments_concat ps d st : small (saveBuf d ++ concat ps) ->
  Write_fragments d st ps = Write emit d st (concat ps) \/
  over_limit d (len (saveBuf d ++ concat ps)) /\
  exists d' st', Write_fragments d st ps = Some (Ok (d', st', Some ErrStringLength)).
Proof.
  revert d st. induction ps as [|p ps IH]; intros d st Hs; cbn [Write_fragments concat] in *; [by left|].
  pose proof (Write_app d st p (concat ps) Hs) as HW.
  destruct (Write emit d st p) as [[[[d1 st1] [e|]]|e|]|].
  - destruct HW as [HW|[-> HW]]; [by left|right]. split; [|by eauto].
    eapply over_limit_mono; [exact HW|]. rewrite !len_app. pose proof (len_nonneg (concat ps)). lia.
  - destruct HW as (-> & Hm & Hl & Hs1). destruct (IH d1 st1 Hs1) as [->|[[Ho1 Ho2] ?]]; [by left|right].
    split; [|done]. rewrite Hm in *. split; [done|]. rewrite !len_app in *. lia.
  - by left.
  - by left.
  - by left.
Qed.

(** C23. However a header block is cut into fragments, decoding them one after
    the other gives the decoder, the fields and the error that decoding the
    whole block gives; the only other outcome is [ErrStringLength], and only
    when a string limit is set and the bytes exceed twice that limit and 16. *)
Theorem Write_fragments_whole d st ps : bytes_ok (saveBuf d ++ concat ps) -> len (saveBuf d ++ concat ps) < 2 ^ 62 ->
  Write_fragments d st ps = Write emit d st (concat ps) \/
  (maxStrLen d <> 0 /\ i64 (2 * (maxStrLen d + 8)) < len (saveBuf d ++ concat ps)) /\
  exists d' st', Write_fragments d st ps = Some (Ok (d', st', Some ErrStringLength)).
Proof. intros Hb Hl. by apply fragments_concat. Qed.
End chunks.

(** A literal cut inside its name and inside its value. *)
Lemma Write_fragments_whole_witness :
  let d := small_decoder in
  let ps := [[0x40; 2; 97]; []; [98; 1]; [99; 0xbe]] in
  Write_fragments collect d [] ps = Write collect d [] (concat ps) /\
  (match Write_fragments collect d [] ps with Some (Ok (_, l, None)) => length l | _ => 0%nat end) = 2%nat.
Proof.
  intros d ps. split; [|vm_compute; reflexivity].
  destruct (Write_fragments_whole collect d [] ps) as [H|[[_ H] _]].
  - repeat (constructor; [solve_width|]). constructor.
  - by compute.
  - exact H.
  - exfalso. by vm_compute in H.
Defined.

(** * What the encoder writes *)

Lemma or_at_bytes k flag l : byte_ok flag -> bytes_ok l -> bytes_ok (or_at k flag l).
Proof.
  intros Hf Hl. unfold or_at, bytes_ok. apply Forall_alter; [done|]. intros x _ Hx. by apply in_width_lor.
Qed.

Lemma hpack_string_facts s v : bytes_ok s -> len s < 2 ^ 31 -> hpack_string s = Ok v ->
  bytes_ok v /\ len v <= len s + 12.
Proof.
  intros Hs Hl Hv. split.
  - unfold hpack_string, appendHpackString in Hv. case_match.
    + rewrite AppendHuffmanString_app in Hv. destruct (AppendHuffmanString_ok s Hs) as (w & pad & Hw & Hok & _).
      rewrite Hw in Hv. cbn in Hv. injection Hv as <-. apply or_at_bytes; [solve_width|].
      apply bytes_ok_app. split; [apply appendVarInt_ok|done].
    + injection Hv as <-. apply bytes_ok_app. split; [apply appendVarInt_ok|done].
  - destruct (hpack_string_ok (mkDec (new_tab 0) true 0 []) s) as (v' & Hv' & Hlen & _).
    { split; [done|]. split; [done|]. by left. }
    rewrite Hv in Hv'. by injection Hv' as <-.
Qed.

Definition plain_field (f : HeaderField) : Prop :=
  bytes_ok (Name f) /\ len (Name f) < 2 ^ 31 /\ bytes_ok (Value f) /\ len (Value f) < 2 ^ 31.

Lemma literal_facts f idx indexing v : plain_field f -> literal f idx indexing = Ok v ->
  bytes_ok v /\ len v <= len (Name f) + len (Value f) + 36.
Proof.
  intros (Hn & Hnl & Hv & Hvl) Hlit.
  destruct (hpack_string (Value f)) as [vb| |] eqn:Hvb.
  2,3: unfold literal, appendNewName, appendIndexedName in Hlit; destruct (idx =? 0);
    rewrite !appendHpackString_app, ?Hvb in Hlit; destruct (hpack_string (Name f)); cbn in Hlit;
    rewrite ?appendHpackString_app, ?Hvb in Hlit; done.
  destruct (hpack_string_facts _ _ Hv Hvl Hvb) as [Hvb1 Hvb2].
  destruct (if idx =? 0 then hpack_string (Name f) else Ok []) as [nb| |] eqn:Hnb.
  2,3: unfold literal, appendNewName in Hlit; destruct (idx =? 0); [|done];
    rewrite appendHpackString_app, Hnb in Hlit; done.
  rewrite (literal_shape f idx indexing nb vb Hnb Hvb) in Hlit. injection Hlit as <-.
  assert (Hnb' : bytes_ok nb /\ len nb <= len (Name f) + 12).
  { destruct (idx =? 0); [by apply hpack_string_facts|]. injection Hnb as <-. split; [constructor|].
    change (len []) with 0. pose proof (len_nonneg (Name f)). lia. }
  destruct Hnb' as [Hnb1 Hnb2]. rewrite !bytes_ok_app, !len_app, or_at_len. pose proof (appendVarInt_len (lit_n indexing) idx).
  split; [|lia]. split; [|by split]. apply or_at_bytes; [|apply appendVarInt_ok].
  destruct indexing, (Sensitive f); by compute.
Qed.

Lemma write_updates_facts e e1 buf : write_updates e = (e1, buf) ->
  bytes_ok buf /\ len buf <= (if tableSizeUpdate e then 24 else 0) /\ tableSizeUpdate e1 = false.
Proof.
  unfold write_updates. destruct (tableSizeUpdate e) eqn:Hu; intros [= <- <-].
  2:{ by split_and!; [constructor|..]. }
  assert (Hok : forall v, bytes_ok (appendTableSize [] v)).
  { intros v. apply or_at_bytes; [solve_width|apply appendVarInt_ok]. }
  rewrite appendTableSize_app. pose proof (appendTableSize_len (maxSize (e_dynTab e))).
  pose proof (appendTableSize_len (minSize e)). rewrite bytes_ok_app, len_app.
  destruct (_ <? _); (split_and!; [..|done]); try done; try constructor; try change (len []) with 0; lia.
Qed.

Lemma encode_field_facts e f e' buf : plain_field f -> encode_field e f = Ok (e', buf) ->
  bytes_ok buf /\ len buf <= (if tableSizeUpdate e then 24 else 0) + (len (Name f) + len (Value f) + 36) /\
  tableSizeUpdate e' = false.
Proof.
  intros Hf He. unfold encode_field in He. destruct (write_updates e) as [e1 ups] eqn:Hups.
  destruct (write_updates_facts _ _ _ Hups) as (Hok & Hl & Hu).
  destruct (searchTable e1 f) as [[idx full]| |]; cbn [mbind outcome_bind] in He; [|done..].
  pose proof (len_nonneg (Name f)). pose proof (len_nonneg (Value f)). destruct full.
  - injection He as <- <-. rewrite appendIndexed_app, bytes_ok_app, len_app. unfold appendIndexed.
    rewrite or_at_len. pose proof (appendVarInt_len 7 idx). split_and!; [done| |lia|done].
    apply or_at_bytes; [solve_width|apply appendVarInt_ok].
  - destruct (if shouldIndex e1 f then _ else _) as [t| |]; cbn [mbind outcome_bind] in He; [|done..].
    rewrite literal_app in He. destruct (literal f idx (shouldIndex e1 f)) as [v| |] eqn:Hv; cbn in He; [|done..].
    injection He as <- <-. destruct (literal_facts _ _ _ _ Hf Hv). rewrite bytes_ok_app, len_app.
    by split_and!; [..|lia|].
Qed.

Definition block_ops_of (fs : list HeaderField) : list enc_op := OpWriteField <$> fs.

Lemma fields_of_block fs : fields_of (block_ops_of fs) = fs.
Proof. induction fs as [|f fs IH]; [done|]. cbn. by f_equal. Qed.

Lemma block_facts fs e e' buf : Forall plain_field fs -> enc_run e (block_ops_of fs) = Ok (e', buf) ->
  bytes_ok buf /\
  len buf <= (if tableSizeUpdate e then 24 else 0) + foldr (fun f n => len (Name f) + len (Value f) + 36 + n) 0 fs.
Proof.
  intros Hfs. revert e e' buf. induction Hfs as [|f fs Hf _ IH]; intros e e' buf; cbn [block_ops_of fmap list_fmap enc_run enc_step].
  { intros [= <- <-]. split; [constructor|]. cbn. by destruct (tableSizeUpdate e). }
  destruct (encode_field e f) as [[e1 b1]| |] eqn:He; cbn [mbind outcome_bind fst snd]; [|done..].
  destruct (enc_run e1 _) as [[e2 b2]| |] eqn:Hrun; cbn [mbind outcome_bind fst snd]; [|done..]. intros [= <- <-].
  destruct (encode_field_facts _ _ _ _ Hf He) as (Hok & Hl & Hu). destruct (IH _ _ _ Hrun) as [Hok2 Hl2].
  rewrite Hu in Hl2. rewrite bytes_ok_app, len_app. cbn [foldr]. split; [done|lia].
Qed.

(** Half of the limit the decoder puts on saved input is enough. *)
Lemma block_length fs e e' buf : Forall (field_fits 0) fs -> enc_run e (block_ops_of fs) = Ok (e', buf) ->
  bytes_ok buf /\ len buf <= 2 * total fs + 16.
Proof.
  intros Hfs Hrun.
  assert (Hp : Forall plain_field fs).
  { eapply Forall_impl; [exact Hfs|]. intros f ((Hn & Hnl & _) & (Hv & Hvl & _) & _). done. }
  destruct (block_facts _ _ _ _ Hp Hrun) as [Hok Hl]. split; [done|].
  assert (Hsum : fs <> [] -> foldr (fun f n => len (Name f) + len (Value f) + 36 + n) 0 fs + 24 <= 2 * total fs + 16).
  { clear Hl Hok Hrun Hp. induction Hfs as [|f fs (_ & _ & Hf) _ IH]; [done|]. intros _. unfold total. cbn [foldr]. fold (total fs).
    pose proof (len_nonneg (Name f)). pose proof (len_nonneg (Value f)).
    assert (Hs : Size f = len (Name f) + len (Value f) + 32).
    { unfold Size, u32. rewrite wrap_id by (unfold in_width; lia). lia. }
    destruct fs as [|g fs]; [unfold total; cbn [foldr]; lia|]. specialize (IH ltac:(done)). unfold total in *. cbn [foldr] in *. lia. }
  destruct fs as [|f fs]; [cbn in Hrun; injection Hrun as <- <-; by compute|].
  specialize (Hsum ltac:(done)). destruct (tableSizeUpdate e); lia.
Qed.

(** * Decoding with a callback that accepts every field *)

Section stays.
Context {St : Type} (emit : HeaderField -> St -> St * bool).

(** The callback keeps the emission enabled for each of [fs] in turn. *)
Fixpoint stays (st : St) (fs : list HeaderField) : Prop :=
  match fs with
  | [] => True
  | f :: fs => (emit f st).2 = true /\ stays (emit f st).1 fs
  end.

Lemma stays_app st fs gs : stays st (fs ++ gs) <-> stays st fs /\ stays (emit_all emit st fs) gs.
Proof.
  revert st. induction fs as [|f fs IH]; intros st; cbn [stays app]; [by intuition|].
  rewrite IH. unfold emit_all. cbn [foldl]. tauto.
Qed.

(** A parsing step that collects the fields [fs] has the same result with
    [emit], as long as that keeps going. *)
Definition mirrors (l : list HeaderField) (st : St) (r : hp (pstate (St := list HeaderField)))
    (r' : hp (pstate (St := St))) : Prop :=
  match r with
  | Ok (d', l', rest, err) => emitEnabled d' = true /\
      exists fs, l' = l ++ fs /\ (stays st fs -> r' = Ok (d', emit_all emit st fs, rest, err))
  | Fail e => r' = Fail e
  | Panic => r' = Panic
  end.

Lemma mirrors_none d l st rest err : emitEnabled d = true ->
  mirrors l st (Ok (d, l, rest, err)) (Ok (d, st, rest, err)).
Proof. intros He. split; [done|]. exists []. by rewrite app_nil_r. Qed.

Lemma mirrors_callEmit d l st hf rest : emitEnabled d = true ->
  mirrors l st (let '(d', st', err) := callEmit collect d l hf in Ok (d', st', rest, err))
    (let '(d', st', err) := callEmit emit d st hf in Ok (d', st', rest, err)).
Proof.
  intros He. unfold callEmit. destruct (_ && _); [by apply mirrors_none|]. rewrite He.
  cbn [collect]. split; [done|]. exists [hf]. split; [done|]. cbn [stays]. intros [Hk _].
  unfold emit_all. cbn [foldl]. destruct (emit hf st) as [st' k]. cbn in Hk |- *. by subst k.
Qed.

Lemma parse_mirrors d l st buf : emitEnabled d = true ->
  mirrors l st (parseHeaderFieldRepr collect d l buf) (parseHeaderFieldRepr emit d st buf).
Proof.
  intros He.
  assert (Hidx : mirrors l st (parseFieldIndexed collect d l buf) (parseFieldIndexed emit d st buf)).
  { unfold parseFieldIndexed. destruct (readVarInt 7 buf) as [[i rest]|e|]; [|by apply mirrors_none|done].
    destruct (at_index d i) as [[hf|]|e|]; cbn [mbind outcome_bind]; [|by apply mirrors_none|done..].
    by apply mirrors_callEmit. }
  assert (Hlit : forall n it, mirrors l st (parseFieldLiteral collect d l n it buf) (parseFieldLiteral emit d st n it buf)).
  { intros n it. unfold parseFieldLiteral. destruct (mbind _ _) as [[hf rest]|e|]; [|by apply mirrors_none|done].
    destruct (if indexed it then _ else _) as [t|e|]; cbn [mbind outcome_bind]; [|done..]. by apply mirrors_callEmit. }
  assert (Hupd : mirrors l st (parseDynamicTableSizeUpdate d l buf) (parseDynamicTableSizeUpdate d st buf)).
  { unfold parseDynamicTableSizeUpdate. destruct (readVarInt 5 buf) as [[i rest]|e|]; [|by apply mirrors_none|done].
    destruct (_ <? i); [by apply mirrors_none|]. destruct (setMaxSize _ _); cbn [mbind outcome_bind]; [|done..].
    by apply mirrors_none. }
  unfold parseHeaderFieldRepr. destruct buf; [done|]. repeat case_match; try done. by apply mirrors_none.
Qed.

Lemma Write_loop_mirrors fuel d l st buf d' l' err : emitEnabled d = true ->
  Write_loop collect fuel d l buf = Some (Ok (d', l', err)) ->
  exists fs, l' = l ++ fs /\ (stays st fs -> Write_loop emit fuel d st buf = Some (Ok (d', emit_all emit st fs, err))).
Proof.
  revert d l st buf. induction fuel as [|fuel IH]; intros d l st buf He HW; destruct buf as [|b buf]; cbn [Write_loop] in *;
    try done; try (injection HW as <- <- <-; exists []; by rewrite app_nil_r).
  pose proof (parse_mirrors d l st (b :: buf) He) as Hm.
  destruct (parseHeaderFieldRepr collect d l (b :: buf)) as [[[[d1 l1] rest] e1]|e|]; cbn [mirrors] in Hm; [|done..].
  destruct Hm as (He1 & fs & -> & Hm). destruct e1 as [e|].
  - exists fs. assert (l' = l ++ fs) as ->.
    { destruct e; try (by injection HW as _ <- _). destruct (_ && _); by injection HW as _ <- _. }
    split; [done|]. intros Hst. rewrite (Hm Hst). destruct e; try (by injection HW as <- <-).
    destruct (_ && _); by injection HW as <- <-.
  - destruct (IH d1 (l ++ fs) (emit_all emit st fs) rest He1 HW) as (gs & -> & Hg).
    exists (fs ++ gs). rewrite app_assoc. split; [done|]. rewrite stays_app. intros [H1 H2].
    rewrite (Hm H1), (Hg H2). unfold emit_all. by rewrite foldl_app.
Qed.

Lemma Write_mirrors d st p d' fs err : emitEnabled d = true ->
  Write collect d [] p = Some (Ok (d', fs, err)) -> stays st fs ->
  Write emit d st p = Some (Ok (d', emit_all emit st fs, err)).
Proof.
  intros He HW Hst. unfold Write in *. destruct (len p =? 0).
  - by injection HW as <- <- <-.
  - destruct (Write_loop_mirrors _ (with_saveBuf [] d) [] st _ _ _ _ He HW) as (gs & -> & Hg). by apply Hg.
Qed.

(** A whole header block, cut into any fragments, reaches the callback field by
    field, and the tables agree afterwards. The fields' total size (with its
    overhead) is at most [m], the decoder's string limit when it has one. *)
Lemma block_decodes n fs e d st :
  sync (n + len fs) e d -> 0 <= n -> len fs < 2 ^ 25 -> Forall (field_fits (maxStrLen d)) fs ->
  (maxStrLen d = 0 \/ total fs <= maxStrLen d < 2 ^ 61) -> stays st fs ->
  exists e' buf d', enc_run e (block_ops_of fs) = Ok (e', buf) /\ bytes_ok buf /\
    sync n e' d' /\ same_limits d d' /\
    forall frags, concat frags = buf -> Write_fragments emit d st frags = Some (Ok (d', emit_all emit st fs, None)).
Proof.
  intros Hs Hn Hl Hfs Hm Hst.
  assert (Hlen : len (block_ops_of fs) = len fs) by (unfold block_ops_of, len; by rewrite length_fmap).
  destruct (Write_blocks collect ltac:(done) n (block_ops_of fs) e d []) as (e' & buf & d' & He & Hs' & Hlim & HW);
    [by rewrite Hlen|done|lia| |].
  { apply Forall_fmap. eapply Forall_impl; [exact Hfs|]. done. }
  rewrite collect_all, fields_of_block in HW. cbn [app] in HW.
  assert (Hf0 : Forall (field_fits 0) fs).
  { eapply Forall_impl; [exact Hfs|]. intros f ((? & ? & _) & (? & ? & _) & ?).
    by split_and!; [split_and!; [..|left]|split_and!; [..|left]|]. }
  destruct (block_length _ _ _ _ Hf0 He) as [Hok Hbl].
  assert (Hsmall : len buf < 2 ^ 62).
  { assert (Hx : total fs <= 2 ^ 31 * len fs).
    { clear -Hfs. induction Hfs as [|f fs (_ & _ & Hf) _ IH]; [by compute|]. rewrite len_cons. unfold total in *. cbn [foldr].
      assert (Size f < 2 ^ 31); [|lia]. unfold Size, u32. pose proof (len_nonneg (Name f)). pose proof (len_nonneg (Value f)).
      rewrite wrap_id by (unfold in_width; lia). lia. }
    lia. }
  exists e', buf, d'. split_and!; try done. intros frags <-.
  pose proof (sy_saved _ _ _ Hs) as Hsv. pose proof (sy_enabled _ _ _ Hs) as Hen.
  destruct (fragments_concat emit frags d st) as [->|[[Ho1 Ho2] _]]; [by rewrite Hsv|by eapply Write_mirrors|].
  exfalso. rewrite Hsv in Ho2. cbn [app] in Ho2. destruct Hm as [?|Hm]; [done|].
  pose proof (total_nonneg fs). rewrite i64_id in Ho2 by lia. lia.
Qed.
End stays.
