(* ===== verification/Http2Write.v ===== *)
(** The frame writers of the server: [http2/write.go], with the header name
    tables of [http2/headermap.go]. *)
From stdpp Require Import sorting.
From S2P Require Import Prelude Httplex Http2Errors HpackVarint HpackTables HpackEncoder.
From S2P Require Import Http2Frame Http2Framer.

(** * Header names *)

(** [http.CanonicalHeaderKey] of a header field name: upper case at the start
    and after a hyphen, lower case elsewhere. *)
Definition upperASCII (b : Z) : Z := if (97 <=? b) && (b <=? 122) then b - 32 else b.
Fixpoint canonical_loop (upper : bool) (k : bytes) : bytes :=
  match k with
  | [] => []
  | b :: k => (if upper then upperASCII b else lowerASCII b) :: canonical_loop (b =? 45) k
  end.
Definition CanonicalHeaderKey (k : bytes) : bytes := canonical_loop true k.

Definition common_headers : list bytes := str <$>
  ["accept"; "accept-charset"; "accept-encoding"; "accept-language"; "accept-ranges"; "age";
   "access-control-allow-origin"; "allow"; "authorization"; "cache-control"; "content-disposition";
   "content-encoding"; "content-language"; "content-length"; "content-location"; "content-range";
   "content-type"; "cookie"; "date"; "etag"; "expect"; "expires"; "from"; "host"; "if-match";
   "if-modified-since"; "if-none-match"; "if-unmodified-since"; "last-modified"; "link"; "location";
   "max-forwards"; "proxy-authenticate"; "proxy-authorization"; "range"; "referer"; "refresh";
   "retry-after"; "server"; "set-cookie"; "strict-transport-security"; "trailer"; "transfer-encoding";
   "user-agent"; "vary"; "via"; "www-authenticate"]%string.

Definition commonLowerHeader : gmap bytes bytes :=
  foldl (fun m v => <[CanonicalHeaderKey v := v]> m) ∅ common_headers.
Definition commonCanonHeader : gmap bytes bytes :=
  foldl (fun m v => <[v := CanonicalHeaderKey v]> m) ∅ common_headers.

(** Go's [<] on strings. *)
Fixpoint str_less (x y : bytes) : bool :=
  match x, y with
  | _, [] => false
  | [], _ => true
  | a :: x, b :: y => if a =? b then str_less x y else a <? b
  end.

Definition str_le (x y : bytes) : Prop := str_less y x = false.
#[global] Instance str_le_dec : RelDecision str_le.
Proof. intros x y. unfold str_le. apply _. Defined.

(** * Requests to write *)

Record writeResHeaders := mkRes {
  rh_streamID : Z;
  httpResCode : Z;
  rh_h : gmap bytes (list bytes);
  trailers : option (list bytes);
  rh_endStream : bool;
  date : bytes;
  contentType : bytes;
  contentLength : bytes }.

Record writePushPromise := mkPush {
  wp_streamID : Z;
  wp_method : bytes;
  url_Scheme : bytes;
  url_Host : bytes;
  url_RequestURI : bytes;
  wp_h : gmap bytes (list bytes);
  promisedID : Z }.

(** The types that implement the interface [writeFramer]. *)
Inductive writeFramer :=
| flushFrameWriter
| writeSettings (s : list Setting)
| writeGoAway (maxStreamID code : Z)
| writeData (streamID : Z) (p : bytes) (endStream : bool)
| handlerPanicRST (streamID : Z)
| write_StreamError (streamID code : Z)
| writePingAck (data : bytes)
| writeSettingsAck
| write_headers (w : writeResHeaders)
| write_push (w : writePushPromise)
| write100ContinueHeadersFrame (streamID : Z)
| writeWindowUpdate (streamID n : Z).

Definition writeEndsStream (w : option writeFramer) : outcome Empty_set bool :=
  match w with
  | Some (writeData _ _ endStream) => Ok endStream
  | Some (write_headers r) => Ok (rh_endStream r)
  | None => Panic
  | _ => Ok false
  end.

Definition staysWithinBuffer (w : writeFramer) (max : Z) : bool :=
  match w with
  | flushFrameWriter | writeGoAway _ _ | write_headers _ | write_push _ => false
  | writeSettings s => frameHeaderLen + 6 * len s <=? max
  | writeData _ p _ => frameHeaderLen + len p <=? max
  | handlerPanicRST _ | write_StreamError _ _ | writeWindowUpdate _ _ => frameHeaderLen + 4 <=? max
  | writePingAck data => frameHeaderLen + len data <=? max
  | writeSettingsAck => frameHeaderLen <=? max
  | write100ContinueHeadersFrame _ => 9 + 2 * (len (str ":status") + len (str "100")) <=? max
  end.

(** * The write context *)

(** What a writer did to the connection: bytes handed to the framer's writer,
    a flush, the pause before hanging up, the closing. *)
Inductive effect := Wrote (b : bytes) | Flushed | Slept | ConnClosed.

Record writeContext := mkCtx { cx_framer : Framer; cx_enc : Encoder; cx_log : list effect }.

Section writeFrame.
Context {IO : Type} (w : bytes -> Z * option IO) (flush : option IO).
(** [strings.ToLower] on a name that is not among the common ones. *)
Variable ToLower : bytes -> bytes.

Definition lowerHeader (v : bytes) : bytes := default (ToLower v) (commonLowerHeader !! v).

Definition log_effect (x : effect) (cx : writeContext) : writeContext :=
  mkCtx (cx_framer cx) (cx_enc cx) (cx_log cx ++ [x]).

(** A [Write] method of the framer, logged when it reaches its writer. *)
Definition call_framer (f : Framer -> Framer * option (werror IO)) (cx : writeContext)
    : writeContext * option (werror IO) :=
  let '(fr, e) := f (cx_framer cx) in
  let cx' := mkCtx fr (cx_enc cx) (cx_log cx) in
  match e with
  | Some (FrameErr _) => (cx', e)
  | _ => (log_effect (Wrote (wbuf fr)) cx', e)
  end.

Definition maxFragment : Z := 16384.

(** [splitHeaderBlock]; every round takes at least a byte. *)
Fixpoint split_loop (fuel : nat) (headerBlock : bytes) (first : bool)
    (fn : writeContext -> bytes -> bool -> bool -> writeContext * option (werror IO)) (cx : writeContext)
    : option (writeContext * option (werror IO)) :=
  if 0 <? len headerBlock then
    match fuel with
    | O => None
    | S fuel' =>
        let frag := if maxFragment <? len headerBlock then upto maxFragment headerBlock else headerBlock in
        let headerBlock := from (len frag) headerBlock in
        match fn cx frag first (len headerBlock =? 0) with
        | (cx, Some e) => Some (cx, Some e)
        | (cx, None) => split_loop fuel' headerBlock false fn cx
        end
    end
  else Some (cx, None).

Definition splitHeaderBlock (cx : writeContext) (headerBlock : bytes)
    (fn : writeContext -> bytes -> bool -> bool -> writeContext * option (werror IO))
    : option (writeContext * option (werror IO)) :=
  split_loop (length headerBlock) headerBlock true fn cx.

(** The encoder with the buffer it writes to. *)
Definition encKV (eb : Encoder * bytes) (k v : bytes) : hp (Encoder * bytes) :=
  r ← encode_field eb.1 (mkHF k v false); Ok (r.1, eb.2 ++ r.2).

Definition Keys (h : gmap bytes (list bytes)) : list bytes :=
  merge_sort str_le (fst <$> map_to_list h).

Fixpoint encode_values (eb : Encoder * bytes) (k : bytes) (isTE : bool) (vv : list bytes) : hp (Encoder * bytes) :=
  match vv with
  | [] => Ok eb
  | v :: vv =>
      if negb (ValidHeaderFieldValue v) then encode_values eb k isTE vv
      else if isTE && negb (bool_decide (v = str "trailers")) then encode_values eb k isTE vv
      else eb ← encKV eb k v; encode_values eb k isTE vv
  end.

Fixpoint encode_keys (eb : Encoder * bytes) (h : gmap bytes (list bytes)) (keys : list bytes) : hp (Encoder * bytes) :=
  match keys with
  | [] => Ok eb
  | k :: keys =>
      let vv := default [] (h !! k) in
      let k := lowerHeader k in
      if negb (validWireHeaderFieldName k) then encode_keys eb h keys
      else
        let isTE := bool_decide (k = str "transfer-encoding") in
        eb ← encode_values eb k isTE vv; encode_keys eb h keys
  end.

Definition encodeHeaders (eb : Encoder * bytes) (h : gmap bytes (list bytes)) (keys : option (list bytes))
    : hp (Encoder * bytes) :=
  encode_keys eb h (match keys with None => Keys h | Some keys => keys end).

Definition httpCodeString (code : Z) : bytes :=
  if code <? 0 then str "-" ++ fmt_d (- code) else fmt_d code.

Definition encKV_if (c : bool) (k v : bytes) (eb : Encoder * bytes) : hp (Encoder * bytes) :=
  if c then encKV eb k v else Ok eb.

Definition res_block (r : writeResHeaders) (e : Encoder) : hp (Encoder * bytes) :=
  eb ← encKV_if (negb (httpResCode r =? 0)) (str ":status") (httpCodeString (httpResCode r)) (e, []);
  eb ← encodeHeaders eb (rh_h r) (trailers r);
  eb ← encKV_if (negb (len (contentType r) =? 0)) (str "content-type") (contentType r) eb;
  eb ← encKV_if (negb (len (contentLength r) =? 0)) (str "content-length") (contentLength r) eb;
  encKV_if (negb (len (date r) =? 0)) (str "date") (date r) eb.

Definition res_writeHeaderBlock (r : writeResHeaders) (cx : writeContext) (frag : bytes) (firstFrag lastFrag : bool)
    : writeContext * option (werror IO) :=
  if firstFrag then
    call_framer (WriteHeaders w (mkHeadersParam (rh_streamID r) frag (rh_endStream r) lastFrag 0 zero_prio)) cx
  else call_framer (WriteContinuation w (rh_streamID r) lastFrag frag) cx.

Definition push_block (p : writePushPromise) (e : Encoder) : hp (Encoder * bytes) :=
  eb ← encKV (e, []) (str ":method") (wp_method p);
  eb ← encKV eb (str ":scheme") (url_Scheme p);
  eb ← encKV eb (str ":authority") (url_Host p);
  eb ← encKV eb (str ":path") (url_RequestURI p);
  encodeHeaders eb (wp_h p) None.

Definition push_writeHeaderBlock (p : writePushPromise) (cx : writeContext) (frag : bytes) (firstFrag lastFrag : bool)
    : writeContext * option (werror IO) :=
  if firstFrag then
    call_framer (WritePushPromise w (mkPushParam (wp_streamID p) (promisedID p) frag lastFrag 0)) cx
  else call_framer (WriteContinuation w (wp_streamID p) lastFrag frag) cx.

Definition with_enc (e : Encoder) (cx : writeContext) : writeContext := mkCtx (cx_framer cx) e (cx_log cx).

Definition Flush (cx : writeContext) : writeContext * option (werror IO) :=
  (log_effect Flushed cx, Http2Framer.ErrIO <$> flush).

(** [writeFrame]: the context it leaves and its error; [None] is fuel. *)
Definition writeFrame (wf : writeFramer) (cx : writeContext)
    : option (hp (writeContext * option (werror IO))) :=
  let plain f := Some (Ok (call_framer f cx)) in
  match wf with
  | flushFrameWriter => Some (Ok (Flush cx))
  | writeSettings s => plain (WriteSettings w s)
  | writeGoAway maxStreamID code =>
      let '(cx, e) := call_framer (WriteGoAway w maxStreamID code []) cx in
      if negb (code =? 0) then
        Some (Ok (log_effect ConnClosed (log_effect Slept (Flush cx).1), e))
      else Some (Ok (cx, e))
  | writeData streamID p endStream => plain (WriteData w streamID endStream p)
  | handlerPanicRST streamID => plain (WriteRSTStream w streamID ErrCodeInternal)
  | write_StreamError streamID code => plain (WriteRSTStream w streamID code)
  | writePingAck data => plain (WritePing w true data)
  | writeSettingsAck => plain (WriteSettingsAck w)
  | write_headers r =>
      match res_block r (cx_enc cx) with
      | Ok (e, block) =>
          if (len block =? 0) && bool_decide (trailers r = None) then Some Panic
          else Ok <$> splitHeaderBlock (with_enc e cx) block (res_writeHeaderBlock r)
      | Fail e => Some (Fail e)
      | Panic => Some Panic
      end
  | write_push p =>
      match push_block p (cx_enc cx) with
      | Ok (e, block) =>
          if len block =? 0 then Some Panic
          else Ok <$> splitHeaderBlock (with_enc e cx) block (push_writeHeaderBlock p)
      | Fail e => Some (Fail e)
      | Panic => Some Panic
      end
  | write100ContinueHeadersFrame streamID =>
      match encKV (cx_enc cx, []) (str ":status") (str "100") with
      | Ok (e, block) =>
          Some (Ok (call_framer (WriteHeaders w (mkHeadersParam streamID block false true 0 zero_prio)) (with_enc e cx)))
      | Fail e => Some (Fail e)
      | Panic => Some Panic
      end
  | writeWindowUpdate streamID n => plain (WriteWindowUpdate w streamID n)
  end.
End writeFrame.
