(* ===== verification/Http2Response.v ===== *)
(** From a server's response headers to the client's [MetaHeadersFrame]: the
    writer of [http2/write.go] against the reader of [http2/frame.go]. *)
From stdpp Require Import sorting.
From S2P Require Import Prelude Httplex Http2Errors HpackVarint HpackTables HpackDecoder HpackEncoder HpackChunks.
From S2P Require Import Http2Frame Http2Framer Http2FrameRT Http2FrameSpec Http2Meta Http2Write.

(** * The fields of a response *)

Section fields.
Variable ToLower : bytes -> bytes.

Definition value_written (k v : bytes) : bool :=
  ValidHeaderFieldValue v && (negb (bool_decide (k = str "transfer-encoding")) || bool_decide (v = str "trailers")).

Definition key_fields (h : gmap bytes (list bytes)) (k : bytes) : list HeaderField :=
  let k' := lowerHeader ToLower k in
  if validWireHeaderFieldName k' then
    (fun v => mkHF k' v false) <$> List.filter (value_written k') (default [] (h !! k))
  else [].

Definition header_fields (h : gmap bytes (list bytes)) (keys : option (list bytes)) : list HeaderField :=
  concat (key_fields h <$> match keys with None => Keys h | Some keys => keys end).

Definition field_if (c : bool) (k v : bytes) : list HeaderField := if c then [mkHF k v false] else [].

(** What [writeResHeaders.writeFrame] says: the status, the header map's valid
    fields in the order of the keys, and the fields the server adds. *)
Definition res_fields (r : writeResHeaders) : list HeaderField :=
  field_if (negb (httpResCode r =? 0)) (str ":status") (httpCodeString (httpResCode r)) ++
  header_fields (rh_h r) (trailers r) ++
  field_if (negb (len (contentType r) =? 0)) (str "content-type") (contentType r) ++
  field_if (negb (len (contentLength r) =? 0)) (str "content-length") (contentLength r) ++
  field_if (negb (len (date r) =? 0)) (str "date") (date r).

(** * The block is their encoding *)

Definition enc_more (fs : list HeaderField) (eb : Encoder * bytes) : hp (Encoder * bytes) :=
  r ← enc_run eb.1 (block_ops_of fs); Ok (r.1, eb.2 ++ r.2).

Lemma enc_more_nil eb : enc_more [] eb = Ok eb.
Proof. unfold enc_more. cbn. destruct eb. by rewrite app_nil_r. Qed.

Lemma enc_more_cons f fs eb : enc_more (f :: fs) eb = enc_more [f] eb ≫= enc_more fs.
Proof.
  unfold enc_more. cbn [block_ops_of fmap list_fmap enc_run enc_step].
  destruct (encode_field eb.1 f) as [[e b]| |]; cbn [mbind outcome_bind fst snd]; [|done..].
  rewrite app_nil_r. destruct (enc_run e _) as [[e2 b2]| |]; cbn [mbind outcome_bind fst snd]; [|done..].
  by rewrite app_assoc.
Qed.

Lemma enc_more_app fs gs eb : enc_more (fs ++ gs) eb = enc_more fs eb ≫= enc_more gs.
Proof.
  revert eb. induction fs as [|f fs IH]; intros eb; [by rewrite enc_more_nil|]. cbn [app].
  rewrite enc_more_cons, (enc_more_cons f fs). destruct (enc_more [f] eb); cbn [mbind outcome_bind]; [apply IH|done..].
Qed.

Lemma encKV_more eb k v : encKV eb k v = enc_more [mkHF k v false] eb.
Proof.
  unfold encKV, enc_more. cbn [block_ops_of fmap list_fmap enc_run enc_step].
  destruct (encode_field eb.1 _) as [[e b]| |]; cbn [mbind outcome_bind fst snd]; [|done..]. by rewrite app_nil_r.
Qed.

Lemma encKV_if_more c k v eb : encKV_if c k v eb = enc_more (field_if c k v) eb.
Proof. destruct c; [apply encKV_more|by rewrite enc_more_nil]. Qed.

Lemma encode_values_more k isTE vv eb : isTE = bool_decide (k = str "transfer-encoding") ->
  encode_values eb k isTE vv = enc_more ((fun v => mkHF k v false) <$> List.filter (value_written k) vv) eb.
Proof.
  intros HT. revert eb. induction vv as [|v vv IH]; intros eb; cbn [encode_values List.filter]; [by rewrite enc_more_nil|].
  unfold value_written at 1. rewrite <- HT. destruct (ValidHeaderFieldValue v); cbn [negb andb]; [|apply IH].
  destruct isTE; cbn [negb andb orb].
  - destruct (bool_decide (v = str "trailers")); cbn [negb]; [|apply IH].
    cbn [fmap list_fmap]. rewrite enc_more_cons, encKV_more. destruct (enc_more _ eb); cbn [mbind outcome_bind]; auto.
  - cbn [fmap list_fmap]. rewrite enc_more_cons, encKV_more. destruct (enc_more _ eb); cbn [mbind outcome_bind]; auto.
Qed.

Lemma encode_keys_more h keys eb : encode_keys ToLower eb h keys = enc_more (concat (key_fields h <$> keys)) eb.
Proof.
  revert eb. induction keys as [|k keys IH]; intros eb; cbn [encode_keys fmap list_fmap concat]; [by rewrite enc_more_nil|].
  unfold key_fields at 1. destruct (validWireHeaderFieldName (lowerHeader ToLower k)); cbn [negb]; [|apply IH].
  rewrite enc_more_app, (encode_values_more _ _ _ _ eq_refl).
  destruct (enc_more _ eb); cbn [mbind outcome_bind]; [apply IH|done..].
Qed.

Lemma res_block_more r e : res_block ToLower r e = enc_more (res_fields r) (e, []).
Proof.
  unfold res_block, res_fields. rewrite !enc_more_app, encKV_if_more.
  destruct (enc_more _ (e, [])) as [eb| |]; cbn [mbind outcome_bind]; [|done..].
  unfold encodeHeaders. rewrite encode_keys_more, enc_more_app. fold (header_fields (rh_h r) (trailers r)).
  destruct (enc_more _ eb) as [eb1| |]; cbn [mbind outcome_bind]; [|done..]. rewrite encKV_if_more, enc_more_app.
  destruct (enc_more _ eb1) as [eb2| |]; cbn [mbind outcome_bind]; [|done..]. rewrite encKV_if_more, enc_more_app.
  destruct (enc_more _ eb2) as [eb3| |]; cbn [mbind outcome_bind]; [|done..]. apply encKV_if_more.
Qed.
End fields.

(** * Writing the block *)

Definition op_bytes (o : frame_op) : bytes :=
  let '(t, flags, sid, payload) := op_wire o in wire t flags sid payload.

(** The frames of a block cut into [frags]. *)
Fixpoint block_frames (sid : Z) (endStream first : bool) (frags : list bytes) : list frame_op :=
  match frags with
  | [] => []
  | frag :: frags =>
      let lastFrag := bool_decide (frags = []) in
      (if first then OpHeaders (mkHeadersParam sid frag endStream lastFrag 0 zero_prio)
       else OpContinuation sid lastFrag frag) :: block_frames sid endStream false frags
  end.

Definition frag_ok (f : bytes) : Prop := f <> [] /\ len f <= maxFragment.

Lemma valid_sid sid : 0 < sid < 2 ^ 31 -> validStreamID sid = true.
Proof.
  intros Hs. unfold validStreamID. rewrite (proj2 (Z.eqb_neq sid 0)) by lia. cbn [negb andb]. apply Z.eqb_eq.
  apply Z.bits_inj'. intros i Hi. rewrite Z.land_spec, Z.bits_0.
  destruct (Z.eq_dec i 31) as [->|Hne]; [|by rewrite Z.pow2_bits_false, andb_false_r by lia].
  rewrite (Z.testbit_eqb sid 31) by lia. rewrite Z.div_small by lia. done.
Qed.

Section quiet.
Context {IO : Type} (w : bytes -> Z * option IO) (w_ok : forall b, w b = (len b, None)).

Lemma endWrite_quiet fr : frameHeaderLen <= len (wbuf fr) < 2 ^ 24 + frameHeaderLen ->
  exists fr', endWrite w fr = (fr', None) /\ AllowIllegalWrites fr' = AllowIllegalWrites fr.
Proof.
  intros Hl. unfold endWrite. rewrite (proj2 (Z.leb_gt _ _)) by lia. rewrite w_ok.
  rewrite Z.eqb_refl. eexists. split; [reflexivity|]. done.
Qed.

Lemma startWrite_len t flags sid fr : len (wbuf (startWrite t flags sid fr)) = frameHeaderLen.
Proof. reflexivity. Qed.

Lemma writeBytes_len b fr : len (wbuf (writeBytes b fr)) = len (wbuf fr) + len b.
Proof. rewrite writeBytes_wbuf. apply len_app. Qed.

(** One frame of a block: the framer's writer gets its bytes. *)
Lemma call_frame o fr : AllowIllegalWrites fr = false -> op_ok o ->
  (exists fr', run_op w o fr = (fr', None) /\ AllowIllegalWrites fr' = false) ->
  forall e lg, exists fr', call_framer (run_op w o) (mkCtx fr e lg) = (mkCtx fr' e (lg ++ [Wrote (op_bytes o)]), None) /\
    AllowIllegalWrites fr' = false.
Proof.
  intros Hill Hok (fr' & Hrun & Hill') e lg. exists fr'. split; [|done]. unfold call_framer. cbn [cx_framer].
  rewrite Hrun. unfold log_effect. cbn [cx_framer cx_enc cx_log].
  pose proof (run_op_wire w o fr fr' Hill Hok Hrun) as Hw. unfold op_bytes.
  destruct (op_wire o) as [[[t flags] sid] payload]. by destruct Hw as [-> _].
Qed.

Lemma headers_op_ok sid frag es eh : 0 < sid < 2 ^ 31 -> frag <> [] ->
  op_ok (OpHeaders (mkHeadersParam sid frag es eh 0 zero_prio)).
Proof. intros Hs Hf. split; [unfold in_width; cbn; lia|]. by split_and!. Qed.

Lemma block_frame_quiet sid es (first : bool) eh frag fr : 0 < sid < 2 ^ 31 -> frag_ok frag -> AllowIllegalWrites fr = false ->
  let o := if first then OpHeaders (mkHeadersParam sid frag es eh 0 zero_prio) else OpContinuation sid eh frag in
  op_ok o /\ exists fr', run_op w o fr = (fr', None) /\ AllowIllegalWrites fr' = false.
Proof.
  intros Hs [Hne Hlen] Hill o. pose proof (len_nonneg frag). unfold maxFragment in Hlen.
  assert (Hfit : forall fr1, AllowIllegalWrites fr1 = false -> len (wbuf fr1) = frameHeaderLen + len frag ->
    exists fr', endWrite w fr1 = (fr', None) /\ AllowIllegalWrites fr' = false).
  { intros fr1 H1 H2. rewrite <- H1. apply endWrite_quiet. lia. }
  destruct first; (split; [first [by apply headers_op_ok|unfold o; cbn; unfold in_width; lia]|]); cbn [o run_op].
  - unfold WriteHeaders. cbn [hp_StreamID hp_PadLength hp_Priority]. rewrite valid_sid by done. cbn [negb andb].
    change (PriorityParam_IsZero zero_prio) with true. cbn [negb andb Z.eqb]. apply Hfit; [done|].
    rewrite !writeBytes_len, startWrite_len. cbn [hp_BlockFragment]. change (len (padZeros 0)) with 0. lia.
  - unfold WriteContinuation. rewrite valid_sid by done. cbn [negb andb]. apply Hfit; [done|].
    by rewrite writeBytes_len, startWrite_len.
Qed.

Lemma split_loop_ok r fuel block first fr e lg :
  0 < rh_streamID r < 2 ^ 31 -> (length block <= fuel)%nat -> AllowIllegalWrites fr = false ->
  exists frags fr', concat frags = block /\ Forall frag_ok frags /\ AllowIllegalWrites fr' = false /\
    split_loop fuel block first (res_writeHeaderBlock w r) (mkCtx fr e lg) =
      Some (mkCtx fr' e (lg ++ ((Wrote ∘ op_bytes) <$> block_frames (rh_streamID r) (rh_endStream r) first frags)), None).
Proof.
  intros Hs. revert block first fr lg. induction fuel as [|fuel IH]; intros block first fr lg Hf Hill;
    pose proof (len_nonneg block); cbn [split_loop].
  { destruct block; [|by cbn in Hf; lia]. exists [], fr. split; [done|]. split; [constructor|]. split; [done|]. cbn. by rewrite app_nil_r. }
  destruct (Z.ltb_spec 0 (len block)) as [Hpos|Hz].
  2:{ assert (block = []) as -> by (destruct block; [done|]; rewrite len_cons in Hz; pose proof (len_nonneg block); lia).
      exists [], fr. split; [done|]. split; [constructor|]. split; [done|]. cbn. by rewrite app_nil_r. }
  set (frag := if maxFragment <? len block then upto maxFragment block else block).
  assert (Hfrag : block = frag ++ from (len frag) block /\ frag_ok frag).
  { unfold frag_ok, frag. destruct (Z.ltb_spec maxFragment (len block)) as [Hm|Hm].
    - assert (Hl : len (upto maxFragment block) = maxFragment) by (apply len_upto; unfold maxFragment in *; lia).
      rewrite Hl. split; [by rewrite upto_from|]. split; [|lia]. intros Hn. by rewrite Hn in Hl.
    - split; [|split; [by intros ->|done]]. unfold from, len. by rewrite Nat2Z.id, drop_all, app_nil_r. }
  destruct Hfrag as [Hsplit Hfok]. set (rest := from (len frag) block) in *.
  destruct (block_frame_quiet (rh_streamID r) (rh_endStream r) first (len rest =? 0) frag fr Hs Hfok Hill) as [Hop Hrun].
  destruct (call_frame _ fr Hill Hop Hrun e lg) as (fr1 & Hcall & Hill1).
  assert (Hthis : res_writeHeaderBlock w r (mkCtx fr e lg) frag first (len rest =? 0) =
    call_framer (run_op w (if first then OpHeaders (mkHeadersParam (rh_streamID r) frag (rh_endStream r) (len rest =? 0) 0 zero_prio)
      else OpContinuation (rh_streamID r) (len rest =? 0) frag)) (mkCtx fr e lg)) by (by destruct first).
  rewrite Hthis, Hcall.
  assert (Hlr : (length rest <= fuel)%nat).
  { destruct Hfok as [Hne _]. apply (f_equal length) in Hsplit. rewrite length_app in Hsplit.
    destruct frag; [done|]. cbn in Hsplit. lia. }
  destruct (IH rest false fr1 (lg ++ [Wrote (op_bytes (if first then OpHeaders (mkHeadersParam (rh_streamID r) frag (rh_endStream r) (len rest =? 0) 0 zero_prio)
      else OpContinuation (rh_streamID r) (len rest =? 0) frag))]) Hlr Hill1) as (frags & fr2 & Hc & Hfs & Hill2 & ->).
  exists (frag :: frags), fr2. split_and!; [by cbn; rewrite Hc|by constructor|done|].
  assert (Hlast : (len rest =? 0) = bool_decide (frags = [])).
  { rewrite <- Hc. destruct frags as [|f fs]; [done|]. rewrite bool_decide_false by done.
    apply Forall_cons in Hfs as [[Hne _] _]. cbn [concat]. rewrite len_app. pose proof (len_nonneg (concat fs)).
    destruct f as [|x f]; [done|]. rewrite len_cons. pose proof (len_nonneg f). apply Z.eqb_neq. lia. }
  cbn [block_frames fmap list_fmap]. rewrite <- Hlast, <- app_assoc. done.
Qed.
End quiet.

(** * Reading the frames *)

(** A framer ready for the next frame, on stream [sid] if a block is open. *)
Record ready (sid max : Z) (dec : option Decoder) (list_size : Z) (fr : Framer) : Prop := {
  rdy_strict : AllowIllegalReads fr = false;
  rdy_open : lastHeaderStream fr = sid;
  rdy_last : sid <> 0 -> lastFrame fr <> None;
  rdy_max : maxReadSize fr = max;
  rdy_dec : ReadMetaHeaders fr = dec;
  rdy_list : MaxHeaderListSize fr = list_size }.

Lemma checkFrameOrder_max f fr fr' r : checkFrameOrder f fr = (fr', r) -> maxReadSize fr' = maxReadSize fr.
Proof.
  unfold checkFrameOrder, framer_connError. cbn [AllowIllegalReads lastHeaderStream with_lastFrame].
  destruct (AllowIllegalReads fr); [by intros [= <- _]|].
  destruct (negb (lastHeaderStream fr =? 0)).
  - destruct (negb (Type_ (Header f) =? FrameContinuation)).
    + destruct (lastFrame fr); by intros [= <- _].
    + destruct (negb (StreamID (Header f) =? lastHeaderStream fr)); [by intros [= <- _]|].
      destruct (_ || _); [|by intros [= <- _]]. destruct (Has _ _); by intros [= <- _].
  - destruct (Type_ (Header f) =? FrameContinuation); [by intros [= <- _]|].
    destruct (_ || _); [|by intros [= <- _]]. destruct (Has _ _); by intros [= <- _].
Qed.

Lemma read_block_frame o sid max dec ls fr rest :
  op_ok o -> op_valid o -> ready sid max dec ls fr ->
  (let '(t, flags, sid, payload) := op_wire o in len payload < 2 ^ 24 /\ len payload <= max) ->
  may_come sid (op_header o) ->
  exists fr', read_one fr (op_bytes o ++ rest) = (fr', rest, Ok (frame_of o)) /\
    ready (open_stream (op_header o)) max dec ls fr' /\ Header (frame_of o) = op_header o.
Proof.
  intros Hok Hv [Hst Ho Hl Hm Hd Hls] Hlen Hmay.
  pose proof (op_parses_back o Hok Hv) as Hp. pose proof (op_sid_width o Hok) as Hsid.
  assert (Hhd : Header (frame_of o) = op_header o) by (by destruct o).
  unfold parses_back in Hp. unfold op_bytes. destruct (op_wire o) as [[[t flags] sid'] payload].
  destruct Hlen as [Hl1 Hl2]. rewrite read_one_wire with (f := frame_of o) by (done || lia).
  destruct (checkFrameOrder_spec (frame_of o) (reset fr) Hst) as (fr' & H1 & H2 & H3 & H4 & H5).
  { unfold reset. cbn. rewrite Ho. intros Hne. specialize (Hl Hne). by destruct (lastFrame fr). }
  change (lastHeaderStream (reset fr)) with (lastHeaderStream fr) in H5. rewrite Ho, Hhd, decide_True in H5 by done.
  destruct H5 as [H5 H6]. exists fr'. unfold accept. rewrite H5. split; [done|]. split; [|done].
  pose proof (checkFrameOrder_max _ _ _ _ H5) as H7. split; try done.
  - by rewrite H1.
  - by rewrite H7.
  - by rewrite H3.
  - by rewrite H4.
Qed.

Lemma headers_wire sid frag es eh : frag <> [] ->
  op_wire (OpHeaders (mkHeadersParam sid frag es eh 0 zero_prio)) =
    (FrameHeaders, flag_if es 1 + flag_if eh 4, sid, frag).
Proof.
  intros _. cbn [op_wire hp_PadLength hp_Priority hp_EndStream hp_EndHeaders hp_StreamID hp_BlockFragment].
  change (PriorityParam_IsZero zero_prio) with true. cbn [negb Z.eqb flag_if app]. unfold padZeros.
  cbn [Z.to_nat replicate]. by rewrite app_nil_r, Z.add_0_r.
Qed.

Lemma block_open sid t es eh : t = FrameHeaders \/ t = FrameContinuation -> 0 < sid < 2 ^ 31 -> forall p,
  open_stream (fh_of t (flag_if es 1 + flag_if eh 4) sid p) = if eh then 0 else sid.
Proof.
  intros Ht Hs p. unfold open_stream, unfinished. cbn [fh_of Type_ Flags StreamID]. rewrite Z.mod_small by lia.
  destruct Ht as [-> | ->]; by destruct es, eh.
Qed.

(** The loop of [readMetaFrame] over the rest of a block. *)
Lemma meta_loop_block sid es frags : 0 < sid < 2 ^ 31 -> Forall frag_ok frags ->
  forall hc frag fuel fr d st d' st' rest max dec ls,
  HeaderBlockFragment hc = Ok frag -> HeadersEnded hc = bool_decide (frags = []) ->
  Write_fragments meta_emit d st (frag :: frags) = Some (Ok (d', st', None)) ->
  (length frags <= fuel)%nat -> maxFragment <= max ->
  ready (if bool_decide (frags = []) then 0 else sid) max dec ls fr ->
  exists fr', meta_loop fuel read_one hc fr (concat (op_bytes <$> block_frames sid es false frags) ++ rest) d st =
      Some (fr', rest, d', Ok st') /\ ready 0 max dec ls fr'.
Proof.
  intros Hs Hfs. induction Hfs as [|f frags Hf Hfs IH];
    intros hc frag fuel fr d st d' st' rest max dec ls Hfrag Hend HW Hfuel Hmax Hrdy; cbn [Write_fragments] in HW.
  - destruct (Write meta_emit d st frag) as [[[[d1 st1] [e|]]|e|]|] eqn:HW1; try done. injection HW as <- <-.
    exists fr. destruct fuel; cbn [meta_loop block_frames fmap list_fmap concat app]; rewrite Hfrag, HW1, Hend; done.
  - destruct (Write meta_emit d st frag) as [[[[d1 st1] [e|]]|e|]|] eqn:HW1; try done.
    destruct fuel as [|fuel]; [cbn in Hfuel; lia|]. cbn [meta_loop]. rewrite Hfrag, HW1, Hend.
    rewrite bool_decide_false in Hrdy |- * by done. cbn [block_frames fmap list_fmap concat].
    set (eh := bool_decide (frags = [])) in *. set (o := OpContinuation sid eh f).
    rewrite <- app_assoc. destruct Hf as [Hne Hlen].
    destruct (read_block_frame o sid max dec ls fr (concat (op_bytes <$> block_frames sid es false frags) ++ rest))
      as (fr1 & Hread & Hrdy1 & Hhd); try done.
    { unfold o. cbn. unfold in_width. lia. }
    { unfold o. cbn [op_wire]. unfold maxFragment in *. lia. }
    { unfold may_come. rewrite (proj2 (Z.eqb_neq sid 0)) by lia. split; [done|].
      unfold op_header, o. cbn [op_wire fh_of StreamID]. apply Z.mod_small. lia. }
    rewrite Hread. change (frame_of o) with (ContinuationFrame (op_header o) f).
    assert (Hopen : open_stream (op_header o) = if eh then 0 else sid).
    { unfold op_header, o. cbn [op_wire]. apply (block_open sid FrameContinuation false eh); [by right|done]. }
    rewrite Hopen in Hrdy1.
    apply (IH (ContinuationFrame (op_header o) f) f fuel fr1 d1 st1 d' st' rest max dec ls); try done.
    + unfold op_header, o. cbn [HeadersEnded op_wire fh_of Flags]. fold eh. by destruct eh.
    + cbn in Hfuel. lia.
Qed.

(** * The callback accepts the fields *)

Lemma wire_name_regular f : bytes_ok (Name f) -> validWireHeaderFieldName (Name f) = true -> regular_ok f.
Proof.
  intros Hb Hv. split; [|done]. unfold IsPseudo.
  apply validWire_spec in Hv as [_ Hv]; [|done]. destruct (Name f) as [|b l]; [done|].
  apply Forall_cons in Hv as [[Ht _] _]. destruct (Z.eqb_spec b 58) as [->|]; [|by rewrite andb_false_r].
  exfalso. revert Ht. apply (bool_decide_unpack (~ tchar 58)). by vm_compute.
Qed.

(** A list of fields the callback takes whole. *)
Record takes_all (fs : list HeaderField) (st : meta_state) : Prop := {
  ta_values : Forall (fun f => ValidHeaderFieldValue (Value f) = true) fs;
  ta_size : total fs <= remainSize st /\ in_width 32 (remainSize st);
  ta_invalid : invalid st = None;
  ta_split : exists ps rs, fs = ps ++ rs /\ Forall (fun f => IsPseudo f = true) ps /\ Forall regular_ok rs /\
    (sawRegular st = true -> ps = []) }.

Lemma meta_stays fs st : takes_all fs st ->
  stays meta_emit st fs /\ exists saw, emit_all meta_emit st fs =
    mkMS (ms_Fields st ++ fs) (ms_Truncated st) (remainSize st - total fs) saw None.
Proof.
  revert st. induction fs as [|f fs IH]; intros st [Hv [Hs Hw] Hi (ps & rs & Hf & Hps & Hrs & Hsaw)].
  { split; [done|]. exists (sawRegular st). cbn. rewrite app_nil_r, Z.sub_0_r. destruct st; cbn in *; by subst. }
  apply Forall_cons in Hv as [Hv Hvs]. pose proof (Size_range f) as Hsz. pose proof (total_nonneg fs) as Htot.
  unfold total in Hs. cbn [foldr] in Hs. fold (total fs) in Hs. unfold in_width in *.
  assert (Hem : meta_emit f st = (mkMS (ms_Fields st ++ [f]) (ms_Truncated st) (remainSize st - Size f)
    (sawRegular st || negb (IsPseudo f)) None, true)).
  { unfold meta_emit. rewrite <- IsPseudo_prefix, Hv, Hi. cbn [negb].
    assert (Hname : (if IsPseudo f then if sawRegular st then Some errPseudoAfterRegular else None
      else if negb (validWireHeaderFieldName (Name f)) then Some (headerFieldNameError (Name f)) else None) = None).
    { destruct ps as [|p ps]; cbn [app] in Hf.
      - destruct rs as [|g rs]; [done|]. injection Hf as <- <-. apply Forall_cons in Hrs as [[-> ->] _]. done.
      - injection Hf as <- Hf. apply Forall_cons in Hps as [-> _]. destruct (sawRegular st); [by specialize (Hsaw eq_refl)|done]. }
    rewrite Hname. rewrite (proj2 (Z.ltb_ge _ _)) by lia. unfold u32. rewrite wrap_id by (unfold in_width; lia). done. }
  destruct (IH (meta_emit f st).1) as [Hst (saw & Hall)].
  { rewrite Hem. cbn [fst]. split; cbn [remainSize invalid sawRegular]; [done|unfold in_width; lia|done|].
    destruct ps as [|p ps]; cbn [app] in Hf.
    - destruct rs as [|g rs]; [done|]. injection Hf as <- <-. apply Forall_cons in Hrs as [_ Hrs].
      exists [], fs. split_and!; [done|constructor|done|done].
    - injection Hf as <- ->. apply Forall_cons in Hps as [Hp Hps]. exists ps, rs. split_and!; [done..|].
      rewrite Hp. cbn [negb]. rewrite orb_false_r. intros Ht. by specialize (Hsaw Ht). }
  split; [cbn [stays]; split; [by rewrite Hem|exact Hst]|]. exists saw. unfold emit_all in *. cbn [foldl]. rewrite Hall, Hem. cbn [fst ms_Fields ms_Truncated remainSize].
  rewrite <- app_assoc. cbn [app]. f_equal. unfold total. cbn [foldr]. fold (total fs). lia.
Qed.

(** * The response *)

Record response_ok (ToLower : bytes -> bytes) (max : Z) (r : writeResHeaders) : Prop := {
  ro_sid : 0 < rh_streamID r < 2 ^ 31;
  ro_status : ValidHeaderFieldValue (httpCodeString (httpResCode r)) = true;
  ro_added : ValidHeaderFieldValue (contentType r) = true /\ ValidHeaderFieldValue (contentLength r) = true /\
    ValidHeaderFieldValue (date r) = true;
  ro_some : res_fields ToLower r <> [];
  ro_fits : Forall (field_fits 0) (res_fields ToLower r);
  ro_total : total (res_fields ToLower r) <= max }.

Lemma Forall_field_if (P : HeaderField -> Prop) c k v : (c = true -> P (mkHF k v false)) -> Forall P (field_if c k v).
Proof. destruct c; cbn; intros H; [|constructor]. constructor; [auto|constructor]. Qed.

Lemma header_fields_ok T h keys : Forall (fun f => ValidHeaderFieldValue (Value f) = true /\
  validWireHeaderFieldName (Name f) = true) (header_fields T h keys).
Proof.
  unfold header_fields. apply Forall_concat, Forall_fmap, Forall_true. intros k. cbn. unfold key_fields.
  destruct (validWireHeaderFieldName (lowerHeader T k)) eqn:Hk; [|constructor].
  apply Forall_fmap, Forall_forall. intros v Hv%list_elem_of_In. apply filter_In in Hv as [_ Hv].
  split; [|exact Hk]. unfold value_written in Hv. by apply andb_true_iff in Hv as [? _].
Qed.

Definition res_status (r : writeResHeaders) : list HeaderField :=
  field_if (negb (httpResCode r =? 0)) (str ":status") (httpCodeString (httpResCode r)).

Lemma res_split T max r : response_ok T max r ->
  exists rs, res_fields T r = res_status r ++ rs /\ Forall regular_ok rs.
Proof.
  intros Hr. pose proof (ro_fits _ _ _ Hr) as Hfit. unfold res_fields in *. eexists. split; [reflexivity|].
  rewrite !Forall_app in Hfit. destruct Hfit as (_ & Hh & _). rewrite !Forall_app. split_and!.
  - rewrite Forall_forall in *. pose proof (header_fields_ok T (rh_h r) (trailers r)) as Hok.
    rewrite Forall_forall in Hok. intros f Hf. apply wire_name_regular; [apply (Hh f Hf)|apply (Hok f Hf)].
  - apply Forall_field_if. intros _. split; by vm_compute.
  - apply Forall_field_if. intros _. split; by vm_compute.
  - apply Forall_field_if. intros _. split; by vm_compute.
Qed.

Lemma res_pseudos T max r : response_ok T max r -> pseudo_loop [] (pseudo_fields (res_fields T r)) false false = None.
Proof.
  intros Hr. destruct (res_split T max r Hr) as (rs & -> & Hrs).
  rewrite pseudo_fields_split by (done || by apply Forall_field_if).
  unfold res_status, field_if. by destruct (negb _).
Qed.

Lemma res_takes_all T max r st : response_ok T max r -> max <= remainSize st -> in_width 32 (remainSize st) ->
  invalid st = None -> sawRegular st = false -> takes_all (res_fields T r) st.
Proof.
  intros Hr Hm Hw Hi Hs. pose proof (ro_total _ _ _ Hr). destruct (ro_added _ _ _ Hr) as (H1 & H2 & H3).
  split; [|split; [lia|done]|done|].
  - unfold res_fields. rewrite !Forall_app. split_and!; try (apply Forall_field_if; by intros _).
    + apply Forall_field_if. intros _. apply (ro_status _ _ _ Hr).
    + eapply Forall_impl; [apply header_fields_ok|]. by intros f [? _].
  - destruct (res_split T max r Hr) as (rs & -> & Hrs). exists (res_status r), rs.
    split_and!; [done|by apply Forall_field_if|done|by rewrite Hs].
Qed.

Lemma sync_framed n e d m : sync n e d -> sync n e (SetMaxStringLength m (SetEmitEnabled true d)).
Proof. intros []. by split. Qed.

Lemma fits_total m fs : 0 < m < 2 ^ 32 -> total fs <= m -> Forall (field_fits 0) fs -> Forall (field_fits m) fs.
Proof.
  intros Hm Ht Hfs. rewrite Forall_forall in *. intros f Hf. destruct (Hfs f Hf) as ((Hn & Hnl & _) & (Hv & Hvl & _) & Hsz).
  assert (Hs : Size f <= total fs).
  { clear -Hf. induction Hf as [f fs|f g fs _ IH]; unfold total in *; cbn [foldr]; fold (total fs).
    - pose proof (total_nonneg fs). lia.
    - fold (total fs) in IH. pose proof (Size_range g). unfold in_width in *. lia. }
  pose proof (len_nonneg (Name f)). pose proof (len_nonneg (Value f)).
  assert (Hsf : Size f = len (Name f) + len (Value f) + 32).
  { unfold Size, u32. rewrite wrap_id by (unfold in_width; lia). lia. }
  split_and!; try done; (split_and!; [done|done|right; lia]).
Qed.

Lemma frames_length sid es frags : Forall frag_ok frags ->
  forall rest, (length frags <= length (concat (op_bytes <$> block_frames sid es false frags) ++ rest))%nat.
Proof.
  induction 1 as [|f frags [Hne _] _ IH]; intros rest; cbn [block_frames fmap list_fmap concat length]; [lia|].
  rewrite <- app_assoc, length_app. specialize (IH rest). unfold op_bytes at 1. cbn [op_wire]. unfold wire.
  rewrite length_app in IH. rewrite !length_app. cbn [length]. lia.
Qed.

(** The first frame of a block, and the whole of it merged. *)
Lemma ReadFrame_block sid es f frags rd d max ls rest d' saw fields :
  0 < sid < 2 ^ 31 -> Forall frag_ok (f :: frags) -> ready 0 max (Some d) ls rd -> maxFragment <= max ->
  let hdec := SetMaxStringLength (maxHeaderStringLen rd) (SetEmitEnabled true d) in
  let st0 := mkMS [] false (maxHeaderListSize rd) false None in
  Write_fragments meta_emit hdec st0 (f :: frags) =
    Some (Ok (d', mkMS fields false (maxHeaderListSize rd - total fields) saw None, None)) ->
  saveBuf d' = [] -> pseudo_loop [] (pseudo_fields fields) false false = None ->
  exists rd' mh, ReadFrame rd (concat (op_bytes <$> block_frames sid es true (f :: frags)) ++ rest) =
      Some (rd', rest, Ok (Meta mh)) /\
    Fields mh = fields /\ Truncated mh = false /\ StreamID (mh_Header mh) = sid /\
    Has (Flags (mh_Header mh)) FlagHeadersEndStream = es /\ ready 0 max (Some d') ls rd'.
Proof.
  intros Hs Hfs Hrdy Hmax hdec st0 HW Hsv Hps. apply Forall_cons in Hfs as [Hf Hfs].
  cbn [block_frames fmap list_fmap concat]. rewrite <- app_assoc.
  set (eh := bool_decide (frags = [])). set (o := OpHeaders (mkHeadersParam sid f es eh 0 zero_prio)).
  set (tail := concat (op_bytes <$> block_frames sid es false frags) ++ rest).
  assert (Hwire : op_wire o = (FrameHeaders, flag_if es 1 + flag_if eh 4, sid, f)) by (apply headers_wire; apply Hf).
  assert (Hhd : op_header o = fh_of FrameHeaders (flag_if es 1 + flag_if eh 4) sid f) by (unfold op_header; by rewrite Hwire).
  destruct (read_block_frame o 0 max (Some d) ls rd tail) as (rd1 & Hread & Hrdy1 & _); try done.
  { by apply headers_op_ok; [|apply Hf]. }
  { rewrite Hwire. destruct Hf as [_ Hf]. unfold maxFragment in *. lia. }
  rewrite Hhd, block_open in Hrdy1 by (by left || done).
  unfold ReadFrame. rewrite Hread. change (frame_of o) with (HeadersFrame (op_header o) zero_prio f).
  destruct Hrdy1 as [Hst1 Ho1 Hl1 Hm1 Hd1 Hls1]. rewrite Hd1. unfold readMetaFrame. rewrite Hst1.
  assert (Hlist : maxHeaderListSize rd1 = maxHeaderListSize rd).
  { unfold maxHeaderListSize. by rewrite Hls1, (rdy_list _ _ _ _ _ Hrdy). }
  assert (Hstr : maxHeaderStringLen rd1 = maxHeaderStringLen rd) by (unfold maxHeaderStringLen; by rewrite Hlist).
  rewrite Hlist, Hstr. fold hdec. fold st0.
  destruct (meta_loop_block sid es frags Hs Hfs (HeadersFrame (op_header o) zero_prio f) f (length tail) rd1 hdec st0
    d' (mkMS fields false (maxHeaderListSize rd - total fields) saw None) rest max (Some d) ls)
    as (rd2 & Hloop & [Hst2 Ho2 Hl2 Hm2 Hd2 Hls2]); try done.
  { rewrite Hhd. cbn [HeadersEnded fh_of Flags]. fold eh. by destruct es, eh. }
  { by apply frames_length. }
  fold tail in Hloop. rewrite Hloop. cbn [ms_Fields ms_Truncated invalid].
  unfold Close. rewrite Hsv. change (0 <? len []) with false. cbv match.
  unfold checkPseudos, PseudoFields. cbn [Fields]. rewrite Hps.
  eexists _, _. split; [reflexivity|]. cbn [Fields Truncated mh_Header].
  split_and!; [done|done| | |].
  - rewrite Hhd. cbn. apply Z.mod_small. lia.
  - rewrite Hhd. cbn [FrameHeader_invalidate Flags fh_of]. by destruct es, eh.
  - by split.
Qed.

(** C1. A response's headers arrive. Whatever header map, status and trailers
    a handler gave [writeResHeaders], if its fields fit the client's limits and
    the server's encoder agrees with the client's decoder, [writeFrame] writes
    one HEADERS frame and the CONTINUATION frames it needs; the client's
    [ReadFrame], given these bytes and anything after them, returns a
    [MetaHeadersFrame] of that stream with exactly the valid fields in order,
    consumes exactly the frames, and leaves both sides in agreement for the
    next response. *)
Theorem response_arrives {IO} (w : bytes -> Z * option IO) flush ToLower r n fr e lg rd d max ls rest :
  (forall b, w b = (len b, None)) -> AllowIllegalWrites fr = false ->
  response_ok ToLower (maxHeaderListSize rd) r -> len (res_fields ToLower r) < 2 ^ 25 ->
  sync (n + len (res_fields ToLower r)) e d -> 0 <= n ->
  ready 0 max (Some d) ls rd -> maxFragment <= max -> in_width 32 ls ->
  exists fr' e' ops rd' mh d',
    writeFrame w flush ToLower (write_headers r) (mkCtx fr e lg) =
      Some (Ok (mkCtx fr' e' (lg ++ ((Wrote ∘ op_bytes) <$> ops)), None)) /\
    ReadFrame rd (concat (op_bytes <$> ops) ++ rest) = Some (rd', rest, Ok (Meta mh)) /\
    Fields mh = res_fields ToLower r /\ Truncated mh = false /\ StreamID (mh_Header mh) = rh_streamID r /\
    Has (Flags (mh_Header mh)) FlagHeadersEndStream = rh_endStream r /\
    ready 0 max (Some d') ls rd' /\ sync n e' d'.
Proof.
  intros Hw Hill Hr Hlen Hsync Hn Hrdy Hmax Hls. set (fs := res_fields ToLower r) in *.
  set (M := maxHeaderListSize rd) in *.
  assert (HM : 0 < M < 2 ^ 32 /\ in_width 32 M).
  { unfold M, maxHeaderListSize. rewrite (rdy_list _ _ _ _ _ Hrdy). unfold in_width in *.
    destruct (Z.eqb_spec ls 0); lia. }
  destruct HM as [HM HMw].
  assert (HL : maxHeaderStringLen rd = M).
  { unfold maxHeaderStringLen. fold M. rewrite i64_id by lia. unfold u32. rewrite wrap_id by done. by rewrite Z.eqb_refl. }
  set (st0 := mkMS [] false M false None).
  pose proof (res_takes_all ToLower M r st0 Hr ltac:(done) HMw eq_refl eq_refl) as Htakes. fold fs in Htakes.
  destruct (meta_stays fs st0 Htakes) as [Hstays (saw & Hall)].
  pose proof (sync_framed _ _ _ M Hsync) as Hsync'. set (hdec := SetMaxStringLength M (SetEmitEnabled true d)) in *.
  destruct (block_decodes meta_emit n fs e hdec st0 Hsync' Hn Hlen) as (e' & buf & d' & Henc & Hok & Hs' & Hlim & Hdec).
  { apply fits_total; [done|apply (ro_total _ _ _ Hr)|apply (ro_fits _ _ _ Hr)]. }
  { right. split; [apply (ro_total _ _ _ Hr)|]. unfold hdec. cbn. lia. }
  { done. }
  rewrite Hall in Hdec. cbn [ms_Fields ms_Truncated remainSize app] in Hdec.
  assert (Hbuf : 0 < len buf).
  { destruct buf as [|b buf]; [|rewrite len_cons; pose proof (len_nonneg buf); lia]. exfalso.
    specialize (Hdec [] eq_refl). cbn [Write_fragments] in Hdec. injection Hdec as _ Hfs _.
    by apply (ro_some _ _ _ Hr). }
  destruct (split_loop_ok w Hw r (length buf) buf true fr e' lg (ro_sid _ _ _ Hr) ltac:(lia) Hill)
    as (frags & fr' & Hc & Hfrags & Hill' & Hsplit).
  destruct frags as [|f frags]; [by rewrite <- Hc in Hbuf|].
  destruct (ReadFrame_block (rh_streamID r) (rh_endStream r) f frags rd d max ls rest d' saw fs (ro_sid _ _ _ Hr) Hfrags Hrdy Hmax)
    as (rd' & mh & Hread & Hf & Ht & Hsid & Hes & Hrdy').
  { rewrite HL. fold hdec M st0. by apply Hdec. }
  { apply (sy_saved _ _ _ Hs'). }
  { by apply (res_pseudos ToLower M). }
  exists fr', e', (block_frames (rh_streamID r) (rh_endStream r) true (f :: frags)), rd', mh, d'.
  split; [|by split_and!]. unfold writeFrame. rewrite res_block_more. unfold enc_more. cbn [fst snd cx_enc]. fold fs.
  rewrite Henc. cbn [mbind outcome_bind fst snd app]. rewrite (proj2 (Z.eqb_neq _ _)) by lia. cbn [andb].
  unfold splitHeaderBlock, with_enc. cbn [cx_framer cx_log]. by rewrite Hsplit.
Qed.

Definition sample_response : writeResHeaders :=
  mkRes 5 404 (<[str "X-Key" := [str "custom"; str "second"]]> (<[str "Etag" := [str "abc"]]> ∅)) None true
    (str "today") (str "text/plain") (str "3").

Definition sample_client : Framer :=
  mkFramer None None 0 16384 [] false false (Some (mkDec (new_tab 4096) true 0 [])) 0.

Definition ascii_lower (s : bytes) : bytes := lowerASCII <$> s.

Lemma sample_fields : res_fields ascii_lower sample_response =
  [mkHF (str ":status") (str "404") false; mkHF (str "etag") (str "abc") false;
   mkHF (str "x-key") (str "custom") false; mkHF (str "x-key") (str "second") false;
   mkHF (str "content-type") (str "text/plain") false; mkHF (str "content-length") (str "3") false;
   mkHF (str "date") (str "today") false].
Proof. vm_compute. reflexivity. Qed.

Lemma sample_response_ok : response_ok ascii_lower (2 ^ 24) sample_response.
Proof.
  split; [by compute|by vm_compute|split_and!; by vm_compute|by rewrite sample_fields| |].
  - rewrite sample_fields. repeat constructor; (try by apply str_fits_dec); by vm_compute.
  - rewrite sample_fields. by vm_compute.
Qed.

Lemma response_arrives_witness :
  exists fr' e' ops rd' mh d',
    writeFrame quiet_writer None ascii_lower (write_headers sample_response)
      (mkCtx NewFramer (mkEnc (new_tab 0) uint32Max 4096 false) []) =
      Some (Ok (mkCtx fr' e' ([] ++ ((Wrote ∘ op_bytes) <$> ops)), None)) /\
    ReadFrame sample_client (concat (op_bytes <$> ops) ++ [1; 2; 3]) = Some (rd', [1; 2; 3], Ok (Meta mh)) /\
    Fields mh = res_fields ascii_lower sample_response /\ Truncated mh = false /\ StreamID (mh_Header mh) = 5 /\
    Has (Flags (mh_Header mh)) FlagHeadersEndStream = true /\
    ready 0 16384 (Some d') 0 rd' /\ sync 1000 e' d'.
Proof.
  apply (response_arrives quiet_writer None ascii_lower sample_response 1000 NewFramer
    (mkEnc (new_tab 0) uint32Max 4096 false) [] sample_client (mkDec (new_tab 4096) true 0 []) 16384 0 [1; 2; 3]).
  - reflexivity.
  - reflexivity.
  - exact sample_response_ok.
  - rewrite sample_fields. by vm_compute.
  - apply (new_sync (1000 + len (res_fields ascii_lower sample_response)) 0). rewrite sample_fields. by vm_compute.
  - done.
  - split; try done.
  - by compute.
  - by compute.
Defined.
