(* ===== verification/Http2WriteBound.v ===== *)
(** The promise [staysWithinBuffer] of [http2/write.go]: the writers that make
    it never write more and never flush. *)
From S2P Require Import Prelude Httplex Http2Errors HpackVarint HpackTables HpackHuffman HpackDecoder HpackEncoder.
From S2P Require Import Http2Frame Http2Framer Http2FrameRT Http2Write.

(** * Short integers *)

Lemma varint_tail_short k fuel i : 0 <= i < 2 ^ (7 * Z.of_nat (S k)) -> (k < fuel)%nat ->
  len (varint_tail fuel i) <= Z.of_nat (S k).
Proof.
  revert fuel i. induction k as [|k IH]; intros fuel i Hi Hf; (destruct fuel as [|fuel]; [lia|]);
    rewrite varint_tail_S; destruct (Z.leb_spec 128 i) as [Hge|Hlt]; try (change (len [u8 i]) with 1; lia).
  rewrite len_cons. enough (len (varint_tail fuel (i / 128)) <= Z.of_nat (S k)) by lia. apply IH; [|lia].
  split; [apply Z.div_pos; lia|]. apply Z.div_lt_upper_bound; [lia|]. change 128 with (2 ^ 7).
  rewrite <- Z.pow_add_r by lia. replace (7 + 7 * Z.of_nat (S k)) with (7 * Z.of_nat (S (S k))) by lia. lia.
Qed.

Lemma appendVarInt_short n i : 1 <= n <= 8 -> 0 <= i < 2 ^ 35 -> len (appendVarInt [] n i) <= 6.
Proof.
  intros Hn Hi. unfold appendVarInt. case_match eqn:Hlt; [done|]. cbn [app]. rewrite len_cons.
  enough (len (varint_tail varint_rounds (u64 (i - u64 (Z.shiftl 1 n - 1)))) <= 5) by lia.
  pose proof (prefix_bound n Hn). rewrite shiftl_1 in * by lia.
  assert (Hk : u64 (2 ^ n - 1) = 2 ^ n - 1) by (apply wrap_id; unfold in_width; lia). rewrite Hk in *.
  apply Z.ltb_ge in Hlt. apply (varint_tail_short 4); [|unfold varint_rounds; lia].
  unfold u64. rewrite wrap_id by (unfold in_width; lia). change (7 * Z.of_nat 5) with 35. lia.
Qed.

(** * The block of a 100 (Continue) response *)

Definition status100 : HeaderField := mkHF (str ":status") (str "100") false.

Record encoder_small (e : Encoder) : Prop := {
  es_table : dyn_ok (e_dynTab e);
  es_entries : table_len (table (e_dynTab e)) < 2 ^ 28;
  es_ids : evictCount (table (e_dynTab e)) < 2 ^ 60;
  es_min : in_width 32 (minSize e);
  es_max : maxSize (e_dynTab e) < 2 ^ 31 }.

Lemma search100_static : search true staticTable status100 = Ok (14, false) \/ search true staticTable status100 = Ok (8, false).
Proof. vm_compute. tauto. Qed.

Lemma searchTable100 e : encoder_small e -> exists idx full, searchTable e status100 = Ok (idx, full) /\
  (if full then 0 <= idx < 2 ^ 35 else idx = 8 \/ idx = 14).
Proof.
  intros [[Ht _ _ _] He _ _ _]. unfold searchTable. unfold table_len in He.
  assert (Hst : exists i, search true staticTable status100 = Ok (i, false) /\ (i = 8 \/ i = 14)).
  { destruct search100_static as [-> | ->]; eexists; (split; [reflexivity|lia]). }
  destruct Hst as (i & -> & Hi). cbn [mbind outcome_bind]. rewrite search_ok by done. cbn [mbind outcome_bind].
  unfold search_spec. cbn [status100 Sensitive].
  assert (Hnz : (i =? 0) = false) by (apply Z.eqb_neq; lia). rewrite Hnz. cbn [andb].
  destruct (newest (has_key nv_key (nv_key status100)) (ents (table (e_dynTab e)))) as [k|] eqn:Hk.
  - apply newest_lt in Hk. unfold hpack_index, len in *. cbn [orb]. eexists _, true. split; [reflexivity|].
    assert (H61 : u64 (table_len staticTable) = 61) by (by vm_compute). rewrite H61.
    unfold u64. rewrite wrap_id by (unfold in_width; lia). lia.
  - destruct (newest (has_key Name (Name status100)) _); cbn [orb]; by eexists _, false.
Qed.

Lemma literal100 idx indexing : idx = 8 \/ idx = 14 ->
  exists v, literal status100 idx indexing = Ok v /\ len v <= 6.
Proof. intros [-> | ->]; destruct indexing; eexists; (split; [vm_compute; reflexivity|by vm_compute]). Qed.

Lemma updates_short e : encoder_small e -> len (write_updates e).2 <= 12.
Proof.
  intros [[_ _ _ Hmx] _ _ Hmin Hmax]. unfold in_width in *.
  assert (Hts : forall v, 0 <= v < 2 ^ 32 -> len (appendTableSize [] v) <= 6).
  { intros v Hv. unfold appendTableSize. rewrite or_at_len. apply appendVarInt_short; [lia|].
    unfold u64. rewrite wrap_id by (unfold in_width; lia). lia. }
  pose proof (Hts _ Hmin). pose proof (Hts _ Hmx). unfold write_updates. destruct (tableSizeUpdate e); [|by compute].
  cbn [snd]. rewrite appendTableSize_app, len_app. destruct (_ <? _); [|change (len []) with 0]; lia.
Qed.

Lemma block100 e : encoder_small e ->
  exists e' block, encKV (e, []) (str ":status") (str "100") = Ok (e', block) /\ len block <= 20.
Proof.
  intros He. unfold encKV. cbn [fst snd app]. fold status100. unfold encode_field.
  pose proof (updates_short e He) as Hu. destruct (write_updates e) as [e1 ups] eqn:Hups. cbn [snd] in Hu.
  assert (He1 : encoder_small e1).
  { unfold write_updates in Hups. destruct He as [? ? ? ? ?].
    destruct (tableSizeUpdate e); injection Hups as <- _; split; cbn; try done. }
  destruct (searchTable100 e1 He1) as (idx & full & -> & Hidx). cbn [mbind outcome_bind]. destruct full.
  - cbn [mbind outcome_bind fst snd]. eexists _, _. split; [reflexivity|].
    unfold appendIndexed. rewrite or_at_len, appendVarInt_app, len_app.
    pose proof (appendVarInt_short 7 idx ltac:(lia) Hidx). lia.
  - destruct He1 as [Hd Hn Hi Hmin Hmax].
    assert (Hadd : exists t, (if shouldIndex e1 status100 then add status100 (e_dynTab e1) else Ok (e_dynTab e1)) = Ok t).
    { destruct (shouldIndex e1 status100); [|eauto]. pose proof (dok_fits _ Hd).
      assert (Hsz : Size status100 = 42) by (by vm_compute).
      destruct (add_spec status100 (e_dynTab e1) Hd) as (t & -> & _); [unfold ids_left; lia|lia|eauto]. }
    destruct Hadd as (t & ->). cbn [mbind outcome_bind].
    rewrite literal_app. destruct (literal100 idx (shouldIndex e1 status100) Hidx) as (v & -> & Hv).
    cbn. eexists _, _. split; [reflexivity|]. rewrite len_app. lia.
Qed.

(** * The promise *)

(** The bytes written, when nothing but writes happened. *)
Fixpoint written (l : list effect) : option Z :=
  match l with
  | [] => Some 0
  | Wrote b :: l => n ← written l; Some (len b + n)
  | _ => None
  end.

Section bound.
Context {IO : Type} (w : bytes -> Z * option IO).

(** The framer's writer was called with [n] bytes, or not at all. *)
Definition writes (n : Z) (r : Framer * option (werror IO)) : Prop :=
  match r.2 with
  | Some (FrameErr _) => True
  | _ => len (wbuf r.1) = n
  end.

Lemma endWrite_writes fr n : len (wbuf fr) = frameHeaderLen + n -> 0 <= n -> writes (frameHeaderLen + n) (endWrite w fr).
Proof.
  intros Hl Hn. unfold endWrite, writes. destruct (2 ^ 24 <=? _); [done|].
  set (fr' := with_wbuf _ fr).
  assert (Hw : len (wbuf fr') = frameHeaderLen + n).
  { unfold fr'. cbn [wbuf with_wbuf]. rewrite len_app, len_from by (unfold frameHeaderLen in *; lia).
    change (len [_; _; _]) with 3. unfold frameHeaderLen in *. lia. }
  destruct (w (wbuf fr')) as [k [err|]]; cbn [fst snd]; [done|]. by destruct (k =? _).
Qed.

Lemma start_len t flags sid fr : len (wbuf (startWrite t flags sid fr)) = frameHeaderLen.
Proof. reflexivity. Qed.

Lemma settings_bytes_len l : len (settings_bytes l) = 6 * len l.
Proof.
  induction l as [|s l IH]; [done|]. unfold settings_bytes in *. cbn [fmap list_fmap concat].
  rewrite !len_app, IH, len_cons, !len_be_put. lia.
Qed.

Lemma call_framer_log f cx n : writes n (f (cx_framer cx)) -> 0 <= n ->
  exists l k, cx_log (call_framer f cx).1 = cx_log cx ++ l /\ written l = Some k /\ k <= n.
Proof.
  intros Hw Hn. unfold call_framer. unfold writes in Hw. destruct (f (cx_framer cx)) as [fr er].
  cbn [fst snd] in Hw.
  assert (Hone : exists l k, cx_log cx ++ [Wrote (wbuf fr)] = cx_log cx ++ l /\ written l = Some k /\ k <= len (wbuf fr)).
  { exists [Wrote (wbuf fr)], (len (wbuf fr) + 0). split_and!; [done|done|lia]. }
  destruct er as [[x| |x]|]; cbn [fst log_effect cx_log]; try by rewrite <- Hw.
  exists [], 0. cbn. by rewrite app_nil_r.
Qed.

Lemma rst_writes sid code fr : writes (frameHeaderLen + 4) (WriteRSTStream w sid code fr).
Proof. unfold WriteRSTStream. case_match; [done|]. apply endWrite_writes; [reflexivity|lia]. Qed.

Lemma data_writes sid es p fr : writes (frameHeaderLen + len p) (WriteData w sid es p fr).
Proof.
  unfold WriteData, WriteDataPadded. repeat (case_match; [done|]). apply endWrite_writes; [|apply len_nonneg].
  rewrite !writeBytes_wbuf, !len_app. cbn [default]. change (len []) with 0.
  rewrite start_len. lia.
Qed.

Lemma window_writes sid n fr : writes (frameHeaderLen + 4) (WriteWindowUpdate w sid n fr).
Proof. unfold WriteWindowUpdate. case_match; [done|]. apply endWrite_writes; [reflexivity|lia]. Qed.

Lemma headers_writes sid block fr :
  writes (frameHeaderLen + len block) (WriteHeaders w (mkHeadersParam sid block false true 0 zero_prio) fr).
Proof.
  unfold WriteHeaders. case_match; [done|]. cbn [hp_PadLength hp_Priority hp_BlockFragment].
  change (PriorityParam_IsZero zero_prio) with true. cbn [negb andb Z.eqb]. apply endWrite_writes; [|apply len_nonneg].
  rewrite !writeBytes_wbuf, !len_app. change (len (padZeros 0)) with 0.
  rewrite start_len. cbn [hp_BlockFragment]. lia.
Qed.

Lemma settings_writes l fr : writes (frameHeaderLen + 6 * len l) (WriteSettings w l fr).
Proof.
  unfold WriteSettings. apply endWrite_writes; [|pose proof (len_nonneg l); lia].
  rewrite settings_wbuf, len_app, settings_bytes_len. reflexivity.
Qed.

Lemma ping_writes data fr : writes (frameHeaderLen + len data) (WritePing w true data fr).
Proof.
  unfold WritePing. apply endWrite_writes; [|apply len_nonneg]. by rewrite writeBytes_wbuf, len_app.
Qed.

(** C30. A writer that promises to stay within a buffer of [max] bytes keeps the
    promise: with an encoder whose table is of moderate size, it ends without a
    panic, hands the framer's writer at most [max] bytes, and does not flush,
    pause or close the connection. *)
Theorem staysWithinBuffer_keeps flush ToLower wf max cx :
  staysWithinBuffer wf max = true -> encoder_small (cx_enc cx) ->
  exists cx' err l k, writeFrame w flush ToLower wf cx = Some (Ok (cx', err)) /\
    cx_log cx' = cx_log cx ++ l /\ written l = Some k /\ k <= max.
Proof.
  intros Hst He.
  assert (Hplain : forall f n cx1, cx_log cx1 = cx_log cx -> writes n (f (cx_framer cx1)) -> 0 <= n <= max ->
    exists cx' err l k, Some (Ok (call_framer f cx1)) = Some (@Ok hpack_error _ (cx', err)) /\
      cx_log cx' = cx_log cx ++ l /\ written l = Some k /\ k <= max).
  { intros f n cx1 Hl Hw Hn. destruct (call_framer_log f cx1 n Hw ltac:(lia)) as (l & k & H1 & H2 & H3).
    destruct (call_framer f cx1) as [cx' e]. exists cx', e, l, k. rewrite <- Hl. split_and!; [done|done|done|lia]. }
  destruct wf; cbn [staysWithinBuffer writeFrame] in *; try done; try apply Z.leb_le in Hst; unfold frameHeaderLen in Hst.
  - pose proof (len_nonneg s). eapply Hplain; [done|apply settings_writes|unfold frameHeaderLen; lia].
  - pose proof (len_nonneg p). eapply Hplain; [done|apply data_writes|unfold frameHeaderLen; lia].
  - eapply Hplain; [done|apply rst_writes|unfold frameHeaderLen; lia].
  - eapply Hplain; [done|apply rst_writes|unfold frameHeaderLen; lia].
  - pose proof (len_nonneg data). eapply Hplain; [done|apply ping_writes|unfold frameHeaderLen; lia].
  - eapply (Hplain _ (frameHeaderLen + 0)); [done|by apply endWrite_writes|unfold frameHeaderLen; lia].
  - destruct (block100 (cx_enc cx) He) as (e' & block & -> & Hb). pose proof (len_nonneg block).
    change (9 + 2 * (len (str ":status") + len (str "100"))) with 29 in Hst.
    eapply Hplain; [done|apply headers_writes|unfold frameHeaderLen; lia].
  - eapply Hplain; [done|apply window_writes|unfold frameHeaderLen; lia].
Qed.
End bound.

Lemma staysWithinBuffer_keeps_witness :
  exists cx' err l k,
    writeFrame quiet_writer None (fun s => s) (write100ContinueHeadersFrame 3)
      (mkCtx NewFramer (mkEnc (new_tab 0) uint32Max 4096 true) []) = Some (Ok (cx', err)) /\
    cx_log cx' = [] ++ l /\ written l = Some k /\ k <= 29.
Proof.
  apply (staysWithinBuffer_keeps quiet_writer None (fun s => s) (write100ContinueHeadersFrame 3) 29
    (mkCtx NewFramer (mkEnc (new_tab 0) uint32Max 4096 true) [])).
  - by vm_compute.
  - split; try (by compute); split; (apply table_init_ok || by compute).
Defined.
