(* ===== verification/DnsWire.v ===== *)
(** Bytes of DNS messages, [dns/dnsmessage/message.go]: errors, buffers that
    grow, and the packing of numbers and text. *)
From S2P Require Import Prelude.

(** * Errors *)

Inductive dns_error :=
| ErrNotStarted
| ErrSectionDone
| errBaseLen
| errCalcLen
| errReserved
| errTooManyPtr
| errInvalidPtr
| errNilResouceBody
| errResourceLen
| errSegTooLong
| errZeroSegLen
| errResTooLong
| errTooManyQuestions
| errTooManyAnswers
| errTooManyAuthorities
| errTooManyAdditionals
| errNonCanonicalName
| invalidResourceType (t : Z)
| nestedError (s : string) (err : dns_error).

#[global] Instance dns_error_eq_dec : EqDecision dns_error.
Proof. solve_decision. Defined.

Abbreviation dns A := (outcome dns_error A).

(** An error with the context a caller adds. *)
Definition nest {A} (s : string) (r : dns A) : dns A :=
  match r with Fail e => Fail (nestedError s e) | r => r end.

(** The error inside all contexts. *)
Fixpoint root_error (e : dns_error) : dns_error :=
  match e with nestedError _ e => root_error e | e => e end.

(** * Buffers

    A message being packed is a slice: its bytes, the capacity of its array,
    and which array it is. [append] writes in place up to the capacity and
    moves to a new array beyond; a slice kept into the old array then no longer
    reaches the message. *)
Record buf := mkBuf { data : bytes; cap : Z; array : Z }.

Section buffers.
(** The capacity wanted for a new array, [grow old needed]; the language only
    says that it is large enough. *)
Variable grow : Z -> Z -> Z.

Definition append (b : buf) (x : bytes) : buf :=
  let n := len (data b) + len x in
  if n <=? cap b then mkBuf (data b ++ x) (cap b) (array b)
  else mkBuf (data b ++ x) (Z.max n (grow (cap b) n)) (array b + 1).

(** Writes through the slice [msg[off:off+2]] taken when the message was in the
    array [arr]. *)
Definition write_at (arr off : Z) (x : bytes) (b : buf) : buf :=
  if arr =? array b then mkBuf (upto off (data b) ++ x ++ from (off + len x) (data b)) (cap b) (array b) else b.

(** * Numbers *)

Definition packUint16 (msg : buf) (field : Z) : buf := append msg [u8 (shr field 8); u8 field].
Definition packUint32 (msg : buf) (field : Z) : buf :=
  append msg [u8 (shr field 24); u8 (shr field 16); u8 (shr field 8); u8 field].

(** * Text *)

(** The loop of [packText]; each round takes a byte. *)
Fixpoint packText_loop (fuel : nat) (msg : buf) (field : bytes) : option buf :=
  if 0 <? len field then
    match fuel with
    | O => None
    | S fuel' =>
        let l := if 255 <? len field then 255 else len field in
        packText_loop fuel' (append (append msg [u8 l]) (upto l field)) (from l field)
    end
  else Some msg.

Definition packText (msg : buf) (field : bytes) : option buf := packText_loop (length field) msg field.

Definition packBytes (msg : buf) (field : bytes) : buf := append msg field.
End buffers.

Definition uint16Len : Z := 2.
Definition uint32Len : Z := 4.

Definition unpackUint16 (msg : bytes) (off : Z) : dns (Z * Z) :=
  if len msg <? off + uint16Len then Fail errBaseLen
  else
    a ← or_panic (at_ msg off); b ← or_panic (at_ msg (off + 1));
    Ok (Z.lor (shl 16 a 8) b, off + uint16Len).

Definition skipUint16 (msg : bytes) (off : Z) : dns Z :=
  if len msg <? off + uint16Len then Fail errBaseLen else Ok (off + uint16Len).

Definition unpackUint32 (msg : bytes) (off : Z) : dns (Z * Z) :=
  if len msg <? off + uint32Len then Fail errBaseLen
  else
    a ← or_panic (at_ msg off); b ← or_panic (at_ msg (off + 1));
    c ← or_panic (at_ msg (off + 2)); d ← or_panic (at_ msg (off + 3));
    Ok (Z.lor (Z.lor (Z.lor (shl 32 a 24) (shl 32 b 16)) (shl 32 c 8)) d, off + uint32Len).

Definition skipUint32 (msg : bytes) (off : Z) : dns Z :=
  if len msg <? off + uint32Len then Fail errBaseLen else Ok (off + uint32Len).

(** [msg[a:b]]. *)
Definition slice (msg : bytes) (a b : Z) : dns bytes :=
  if (0 <=? a) && (a <=? b) && (b <=? len msg) then Ok (upto (b - a) (from a msg)) else Panic.

Definition unpackText (msg : bytes) (off : Z) : dns (bytes * Z) :=
  if len msg <=? off then Fail errBaseLen
  else
    l ← or_panic (at_ msg off);
    let beginOff := off + 1 in
    let endOff := beginOff + l in
    if len msg <? endOff then Fail errCalcLen
    else t ← slice msg beginOff endOff; Ok (t, endOff).

Definition skipText (msg : bytes) (off : Z) : dns Z :=
  if len msg <=? off then Fail errBaseLen
  else
    l ← or_panic (at_ msg off);
    let endOff := off + 1 + l in
    if len msg <? endOff then Fail errCalcLen else Ok endOff.

(** [unpackBytes] into an array of [n] bytes. *)
Definition unpackBytes (msg : bytes) (off n : Z) : dns (bytes * Z) :=
  let newOff := off + n in
  if len msg <? newOff then Fail errBaseLen else t ← slice msg off newOff; Ok (t, newOff).

Definition skipBytes (msg : bytes) (off n : Z) : dns Z :=
  let newOff := off + n in
  if len msg <? newOff then Fail errBaseLen else Ok newOff.

(** * Reading back *)

(** The bytes of [x] stand at [off]. *)
Definition stands (msg : bytes) (off : Z) (x : bytes) : Prop :=
  0 <= off /\ exists pre post, msg = pre ++ x ++ post /\ len pre = off.

Lemma stands_app msg off x y : stands msg off (x ++ y) <-> stands msg off x /\ stands msg (off + len x) y.
Proof.
  split.
  - intros (Ho & pre & post & -> & Hl). split; (split; [pose proof (len_nonneg x); lia|]).
    + exists pre, (y ++ post). by rewrite <- !app_assoc.
    + exists (pre ++ x), post. rewrite len_app, <- !app_assoc. split; [done|lia].
  - intros [(Ho & p1 & q1 & H1 & L1) (_ & p2 & q2 & H2 & L2)]. split; [done|]. exists p1, q2. split; [|done].
    assert (Hp : p2 = p1 ++ x /\ y ++ q2 = q1); [|destruct Hp as [-> <-]; by rewrite H2, <- !app_assoc].
    rewrite H1, app_assoc in H2. apply app_inj_1 in H2 as [-> ->]; [done|].
    rewrite length_app. unfold len in *. lia.
Qed.

Lemma stands_more msg off x rest : stands msg off x -> stands (msg ++ rest) off x.
Proof. intros (Ho & p & q & -> & Hl). split; [done|]. exists p, (q ++ rest). by rewrite <- !app_assoc. Qed.

Lemma stands_end msg x : stands (msg ++ x) (len msg) x.
Proof. split; [apply len_nonneg|]. exists msg, []. by rewrite app_nil_r. Qed.

Lemma stands_bound msg off x : stands msg off x -> 0 <= off /\ off + len x <= len msg.
Proof. intros (Ho & p & q & -> & <-). rewrite !len_app. pose proof (len_nonneg q). pose proof (len_nonneg p). lia. Qed.

Lemma stands_at msg off x i b : stands msg off x -> 0 <= i -> at_ x i = Some b -> at_ msg (off + i) = Some b.
Proof.
  intros (Ho & p & q & -> & Hl) Hi Hx. unfold at_ in *. rewrite decide_True in Hx by lia. rewrite decide_True by lia.
  unfold len in Hl. rewrite lookup_app_r by lia. replace (Z.to_nat (off + i) - length p)%nat with (Z.to_nat i) by lia.
  by apply lookup_app_l_Some.
Qed.

Lemma stands_here msg off b x : stands msg off (b :: x) -> at_ msg off = Some b.
Proof. intros Hs. rewrite <- (Z.add_0_r off). by apply (stands_at _ _ _ 0 _ Hs). Qed.

Lemma stands_slice msg off x : stands msg off x -> slice msg off (off + len x) = Ok x.
Proof.
  intros Hs. pose proof (stands_bound _ _ _ Hs). pose proof (len_nonneg x). unfold slice.
  destruct Hs as (Ho & p & q & -> & Hl).
  rewrite (proj2 (Z.leb_le 0 off)), (proj2 (Z.leb_le off _)), (proj2 (Z.leb_le _ (len _))) by lia. cbn [andb].
  rewrite from_app_len by done. rewrite upto_app_len; [done|lia].
Qed.

Lemma or_bytes2 a b : byte_ok a -> byte_ok b -> Z.lor (shl 16 a 8) b = be_get [a; b].
Proof.
  unfold byte_ok, in_width. intros Ha Hb. unfold shl. rewrite Z.shiftl_mul_pow2, wrap_id by (unfold in_width; lia).
  rewrite (lor_add 8) by (try apply Z_mod_mult; unfold in_width; lia). unfold be_get. simpl. lia.
Qed.

Lemma or_bytes4 a b c d : byte_ok a -> byte_ok b -> byte_ok c -> byte_ok d ->
  Z.lor (Z.lor (Z.lor (shl 32 a 24) (shl 32 b 16)) (shl 32 c 8)) d = be_get [a; b; c; d].
Proof.
  unfold byte_ok, in_width. intros Ha Hb Hc Hd. unfold shl.
  rewrite !Z.shiftl_mul_pow2, !wrap_id by (unfold in_width; lia).
  rewrite (lor_add 24 (a * 2 ^ 24)) by (try apply Z_mod_mult; unfold in_width; lia).
  rewrite (lor_add 16 (a * 2 ^ 24 + b * 2 ^ 16)); [|lia| |unfold in_width; lia].
  2:{ replace (a * 2 ^ 24 + b * 2 ^ 16) with ((a * 2 ^ 8 + b) * 2 ^ 16) by lia. apply Z_mod_mult. }
  rewrite (lor_add 8); [|lia| |unfold in_width; lia].
  2:{ replace (a * 2 ^ 24 + b * 2 ^ 16 + c * 2 ^ 8) with ((a * 2 ^ 16 + b * 2 ^ 8 + c) * 2 ^ 8) by lia. apply Z_mod_mult. }
  unfold be_get. simpl. lia.
Qed.

Lemma unpackUint16_stands msg off v : in_width 16 v -> stands msg off (be_put 2 v) ->
  unpackUint16 msg off = Ok (v, off + 2).
Proof.
  intros Hv Hs. pose proof (stands_bound _ _ _ Hs) as Hb. rewrite len_be_put in Hb. unfold unpackUint16, uint16Len.
  rewrite (proj2 (Z.ltb_ge _ _)) by lia. pose proof (be_put_ok 2 v) as Hok. pose proof (be_get_put 2 v) as Hg.
  rewrite (wrap_id _ _ Hv : wrap (8 * Z.of_nat 2) v = v) in Hg.
  destruct (be_put 2 v) as [|a [|b [|]]] eqn:E; try (apply (f_equal length) in E; rewrite length_be_put in E; done).
  rewrite (stands_here _ _ _ _ Hs). rewrite (stands_at _ _ _ 1 b Hs); [|lia|reflexivity].
  cbn [or_panic mbind outcome_bind]. apply Forall_cons in Hok as [Ha [Hbb _]%Forall_cons].
  by rewrite or_bytes2, Hg.
Qed.

Lemma unpackUint32_stands msg off v : in_width 32 v -> stands msg off (be_put 4 v) ->
  unpackUint32 msg off = Ok (v, off + 4).
Proof.
  intros Hv Hs. pose proof (stands_bound _ _ _ Hs) as Hb. rewrite len_be_put in Hb. unfold unpackUint32, uint32Len.
  rewrite (proj2 (Z.ltb_ge _ _)) by lia. pose proof (be_put_ok 4 v) as Hok. pose proof (be_get_put 4 v) as Hg.
  rewrite (wrap_id _ _ Hv : wrap (8 * Z.of_nat 4) v = v) in Hg.
  destruct (be_put 4 v) as [|a [|b [|c [|d [|]]]]] eqn:E; try (apply (f_equal length) in E; rewrite length_be_put in E; done).
  rewrite (stands_here _ _ _ _ Hs). rewrite (stands_at _ _ _ 1 b Hs), (stands_at _ _ _ 2 c Hs), (stands_at _ _ _ 3 d Hs) by (lia || reflexivity).
  cbn [or_panic mbind outcome_bind].
  apply Forall_cons in Hok as [Ha [Hbb [Hc [Hd _]%Forall_cons]%Forall_cons]%Forall_cons].
  by rewrite or_bytes4, Hg.
Qed.

Lemma unpackBytes_stands msg off x : stands msg off x -> unpackBytes msg off (len x) = Ok (x, off + len x).
Proof.
  intros Hs. pose proof (stands_bound _ _ _ Hs). unfold unpackBytes. rewrite (proj2 (Z.ltb_ge _ _)) by lia.
  by rewrite stands_slice.
Qed.

Lemma unpackText_stands msg off t : len t <= 255 -> stands msg off (len t :: t) ->
  unpackText msg off = Ok (t, off + 1 + len t).
Proof.
  intros Hl Hs. pose proof (stands_bound _ _ _ Hs) as Hb. rewrite len_cons in Hb. pose proof (len_nonneg t).
  unfold unpackText. rewrite (proj2 (Z.leb_gt _ _)) by lia.
  rewrite (stands_here _ _ _ _ Hs). cbn [or_panic mbind outcome_bind].
  rewrite (proj2 (Z.ltb_ge _ _)) by lia. change (len t :: t) with ([len t] ++ t) in Hs.
  apply stands_app in Hs as [_ Hs]. change (len [len t]) with 1 in Hs. by rewrite stands_slice.
Qed.

(** Appending, whatever the capacity. *)
Lemma append_data grow b x : data (append grow b x) = data b ++ x.
Proof. unfold append. by destruct (_ <=? _). Qed.

Lemma packUint16_data grow b v : data (packUint16 grow b v) = data b ++ be_put 2 v.
Proof. unfold packUint16. by rewrite append_data. Qed.

Lemma packUint32_data grow b v : data (packUint32 grow b v) = data b ++ be_put 4 v.
Proof. unfold packUint32. by rewrite append_data. Qed.

(** While the bytes fit the capacity the array stays. *)
Definition same_array (b b' : buf) : Prop := cap b' = cap b /\ array b' = array b.

Lemma same_array_refl b : same_array b b.
Proof. done. Qed.

Lemma same_array_trans a b c : same_array a b -> same_array b c -> same_array a c.
Proof. intros [? ?] [? ?]. split; congruence. Qed.

Lemma append_fits grow b x : len (data b) + len x <= cap b -> same_array b (append grow b x).
Proof. intros H. unfold append. by rewrite (proj2 (Z.leb_le _ _)) by lia. Qed.

(** * Results without panics *)

(** The call returns; a value it returns satisfies [Q]. *)
Definition returns {E A} (r : outcome E A) (Q : A -> Prop) : Prop :=
  match r with Ok a => Q a | Fail _ => True | Panic => False end.

Lemma returns_bind {E A B} (m : outcome E A) (k : A -> outcome E B) (Q : A -> Prop) (R : B -> Prop) :
  returns m Q -> (forall a, Q a -> returns (k a) R) -> returns (m ≫= k) R.
Proof. destruct m; simpl; auto. Qed.

Lemma returns_nest {A} s (m : dns A) Q : returns m Q -> returns (nest s m) Q.
Proof. by destruct m. Qed.

Lemma returns_mono {E A} (m : outcome E A) (Q R : A -> Prop) : returns m Q -> (forall a, Q a -> R a) -> returns m R.
Proof. destruct m; simpl; auto. Qed.

Lemma byte_at msg i : bytes_ok msg -> 0 <= i < len msg -> exists b, at_ msg i = Some b /\ byte_ok b.
Proof.
  intros Hm Hi. destruct (at_Some msg i Hi) as [b Hb]. exists b. split; [done|].
  exact (proj1 (Forall_forall _ _) Hm b (at_In _ _ _ Hb)).
Qed.

Lemma slice_ok msg a b : 0 <= a <= b -> b <= len msg -> slice msg a b = Ok (upto (b - a) (from a msg)).
Proof.
  intros [Ha Hb] Hl. unfold slice.
  by rewrite (proj2 (Z.leb_le 0 a)), (proj2 (Z.leb_le a b)), (proj2 (Z.leb_le b (len msg))) by lia.
Qed.

Lemma be_get_width n l : bytes_ok l -> length l = n -> in_width (8 * Z.of_nat n) (be_get l).
Proof.
  intros Hl <-. pose proof (be_get_bound l Hl) as H. unfold in_width. change 256 with (2 ^ 8) in H.
  rewrite <- Z.pow_mul_r in H by (unfold len; lia). exact H.
Qed.

Lemma unpackUint16_returns msg off : bytes_ok msg -> 0 <= off ->
  returns (unpackUint16 msg off) (fun '(v, off') => in_width 16 v /\ (off' = off + 2 /\ off' <= len msg)).
Proof.
  intros Hm Ho. unfold unpackUint16, uint16Len. destruct (Z.ltb_spec (len msg) (off + 2)); [done|].
  destruct (byte_at msg off) as (a & -> & Ha); [done|lia|]. destruct (byte_at msg (off + 1)) as (b & -> & Hb); [done|lia|].
  cbn [or_panic mbind outcome_bind returns]. rewrite or_bytes2 by done. split; [|done].
  apply (be_get_width 2); [repeat (apply Forall_cons; split; [done|]); constructor|done].
Qed.

Lemma unpackUint32_returns msg off : bytes_ok msg -> 0 <= off ->
  returns (unpackUint32 msg off) (fun '(v, off') => in_width 32 v /\ (off' = off + 4 /\ off' <= len msg)).
Proof.
  intros Hm Ho. unfold unpackUint32, uint32Len. destruct (Z.ltb_spec (len msg) (off + 4)); [done|].
  destruct (byte_at msg off) as (a & -> & Ha); [done|lia|]. destruct (byte_at msg (off + 1)) as (b & -> & Hb); [done|lia|].
  destruct (byte_at msg (off + 2)) as (c & -> & Hc); [done|lia|]. destruct (byte_at msg (off + 3)) as (d & -> & Hd); [done|lia|].
  cbn [or_panic mbind outcome_bind returns]. rewrite or_bytes4 by done. split; [|done].
  apply (be_get_width 4); [repeat (apply Forall_cons; split; [done|]); constructor|done].
Qed.

Lemma unpackText_returns msg off : bytes_ok msg -> 0 <= off ->
  returns (unpackText msg off) (fun '(t, off') => (off' = off + 1 + len t /\ off' <= len msg) /\ len t <= 255 /\ bytes_ok t).
Proof.
  intros Hm Ho. unfold unpackText. destruct (Z.leb_spec (len msg) off); [done|].
  destruct (byte_at msg off) as (l & -> & Hl); [done|lia|]. cbn [or_panic mbind outcome_bind].
  assert (0 <= l < 256) by (unfold byte_ok, in_width in Hl; lia).
  destruct (Z.ltb_spec (len msg) (off + 1 + l)); [done|]. rewrite slice_ok by lia. cbn [mbind outcome_bind returns].
  rewrite len_upto by (rewrite len_from by lia; lia). split; [lia|]. split; [lia|auto with go].
Qed.

Lemma unpackBytes_returns msg off n : bytes_ok msg -> 0 <= off -> 0 <= n ->
  returns (unpackBytes msg off n) (fun '(t, off') => (off' = off + n /\ off' <= len msg) /\ len t = n /\ bytes_ok t).
Proof.
  intros Hm Ho Hn. unfold unpackBytes. destruct (Z.ltb_spec (len msg) (off + n)); [done|].
  rewrite slice_ok by lia. cbn [mbind outcome_bind returns].
  rewrite len_upto by (rewrite len_from by lia; lia). split; [lia|]. split; [lia|auto with go].
Qed.

Lemma skipUint16_returns msg off : returns (skipUint16 msg off) (fun off' => (off' = off + 2 /\ off' <= len msg)).
Proof. unfold skipUint16, uint16Len. by destruct (Z.ltb_spec (len msg) (off + 2)). Qed.

Lemma skipUint32_returns msg off : returns (skipUint32 msg off) (fun off' => (off' = off + 4 /\ off' <= len msg)).
Proof. unfold skipUint32, uint32Len. by destruct (Z.ltb_spec (len msg) (off + 4)). Qed.
