(* ===== verification/DnsName.v ===== *)
(** Domain names, [dns/dnsmessage/message.go]: [Name] with [pack], [unpack] and
    [skipName]. *)
From S2P Require Import Prelude.
From S2P Require Import DnsWire.

Definition nameLen : Z := 255.

(** An array of [nameLen] bytes and the number of them in use. *)
Record Name := mkName { Data : bytes; Length : Z }.

#[global] Instance Name_eq_dec : EqDecision Name.
Proof. solve_decision. Defined.

(** The array that holds [name] and is zero behind it. *)
Definition padded (name : bytes) : bytes := name ++ replicate (Z.to_nat nameLen - length name) 0.

Definition Name_zero : Name := mkName (padded []) 0.

Definition NewName (name : bytes) : dns Name :=
  if nameLen <? len name then Fail errCalcLen else Ok (mkName (padded name) (u8 (len name))).

(** [Name.String]. *)
Definition Name_String (n : Name) : bytes := upto (Length n) (Data n).

Definition dot : Z := 46.

(** [map[string]int]; [None] is the nil map, which turns compression off. A map
    is shared by all calls, so [pack] returns it also when it fails. *)
Abbreviation compression := (option (gmap (list Z) Z)).

Section pack.
Variable grow : Z -> Z -> Z.

(** The loop of [Name.pack]; [k] rounds are left. *)
Fixpoint pack_loop (k : nat) (n : Name) (i begin : Z) (msg : buf) (c : compression) : dns buf * compression :=
  match k with
  | O => (Ok (append grow msg [0]), c)
  | S k' =>
      match at_ (Data n) i with
      | None => (Panic, c)
      | Some ch =>
          if ch =? dot then
            if 64 <=? i - begin then (Fail errSegTooLong, c)
            else if i - begin =? 0 then (Fail errZeroSegLen, c)
            else
              let msg := append grow msg [u8 (i - begin)] in
              let msg := foldl (fun m b => append grow m [b]) msg (upto (i - begin) (from begin (Data n))) in
              pack_loop k' n (i + 1) (i + 1) msg c
          else
            match c with
            | Some m =>
                if (i =? 0) || bool_decide (at_ (Data n) (i - 1) = Some dot) then
                  match m !! from i (Data n) with
                  | Some ptr => (Ok (append grow msg [u8 (Z.lor (shr ptr 8) 192); u8 ptr]), c)
                  | None =>
                      let c := if len (data msg) <=? 16383 then Some (<[from i (Data n) := len (data msg)]> m) else c in
                      pack_loop k' n (i + 1) begin msg c
                  end
                else pack_loop k' n (i + 1) begin msg c
            | None => pack_loop k' n (i + 1) begin msg c
            end
      end
  end.

(** [Name.pack]. *)
Definition Name_pack (n : Name) (msg : buf) (c : compression) : dns buf * compression :=
  if (Length n =? 0) || negb (bool_decide (at_ (Data n) (Length n - 1) = Some dot)) then (Fail errNonCanonicalName, c)
  else if bool_decide (at_ (Data n) 0 = Some dot) && (Length n =? 1) then (Ok (append grow msg [0]), c)
  else pack_loop (Z.to_nat (Length n)) n 0 0 msg c.
End pack.

(** The loop of [Name.unpack]; its result is the name, [currOff], [newOff] and
    the number of pointers followed. *)
Fixpoint unpack_loop (fuel : nat) (msg : bytes) (currOff newOff ptr : Z) (name : bytes) : dns (bytes * Z * Z * Z) :=
  match fuel with
  | O => Panic
  | S fuel' =>
      if len msg <=? currOff then Fail errBaseLen
      else
        c ← or_panic (at_ msg currOff);
        let currOff := currOff + 1 in
        let t := Z.land c 192 in
        if t =? 0 then
          if c =? 0 then Ok (name, currOff, newOff, ptr)
          else
            let endOff := currOff + c in
            if len msg <? endOff then Fail errCalcLen
            else seg ← slice msg currOff endOff; unpack_loop fuel' msg endOff newOff ptr (name ++ seg ++ [dot])
        else if t =? 192 then
          if len msg <=? currOff then Fail errInvalidPtr
          else
            c1 ← or_panic (at_ msg currOff);
            let currOff := currOff + 1 in
            let newOff := if ptr =? 0 then currOff else newOff in
            let ptr := ptr + 1 in
            if 10 <? ptr then Fail errTooManyPtr
            else unpack_loop fuel' msg (Z.lor (Z.shiftl (Z.lxor c 192) 8) c1) newOff ptr name
        else Fail errReserved
  end.

(** At most ten pointers are followed, and between two of them every round moves
    forward in the message. *)
Definition unpack_fuel (msg : bytes) : nat := 11 * S (length msg) + 1.

(** [Name.unpack] into a zero [Name], as every caller has it; the offset is the
    one after the name. *)
Definition Name_unpack (msg : bytes) (off : Z) : dns (Name * Z) :=
  '(name, currOff, newOff, ptr) ← unpack_loop (unpack_fuel msg) msg off off 0 [];
  let name := if len name =? 0 then name ++ [dot] else name in
  if nameLen <? len name then Fail errCalcLen
  else
    let newOff := if ptr =? 0 then currOff else newOff in
    Ok (mkName (padded name) (u8 (len name)), newOff).

Fixpoint skipName_loop (fuel : nat) (msg : bytes) (newOff : Z) : dns Z :=
  match fuel with
  | O => Panic
  | S fuel' =>
      if len msg <=? newOff then Fail errBaseLen
      else
        c ← or_panic (at_ msg newOff);
        let newOff := newOff + 1 in
        let t := Z.land c 192 in
        if t =? 0 then
          if c =? 0 then Ok newOff
          else
            let newOff := newOff + c in
            if len msg <? newOff then Fail errCalcLen else skipName_loop fuel' msg newOff
        else if t =? 192 then Ok (newOff + 1)
        else Fail errReserved
  end.

Definition skipName (msg : bytes) (off : Z) : dns Z := skipName_loop (S (length msg)) msg off.

(** * What a parsed name is *)

(** Up to [nameLen] bytes, and zeros behind them: the names [NewName] and
    [unpack] make. *)
Definition name_ok (n : Name) : Prop :=
  bytes_ok (Data n) /\ 0 <= Length n <= nameLen /\ Data n = padded (Name_String n) /\ len (Name_String n) = Length n.

Lemma padded_ok s : bytes_ok s -> bytes_ok (padded s).
Proof. intros Hs. apply bytes_ok_app. split; [done|]. by apply Forall_replicate. Qed.

Lemma len_padded s : len s <= nameLen -> len (padded s) = nameLen.
Proof.
  unfold padded. rewrite len_app. unfold len at 1. intros H. unfold len in *. rewrite length_replicate.
  unfold nameLen in *. lia.
Qed.

(** The name with the text [s]. *)
Definition named (s : bytes) : Name := mkName (padded s) (len s).

Lemma named_String s : Name_String (named s) = s.
Proof. unfold Name_String, named, padded. simpl. by apply upto_app_len. Qed.

Lemma named_ok s : bytes_ok s -> len s <= nameLen -> name_ok (named s).
Proof.
  intros Hs Hl. split_and!; simpl; [by apply padded_ok|apply len_nonneg|done|by rewrite named_String|by rewrite named_String].
Qed.

Lemma name_ok_named n : name_ok n -> n = named (Name_String n).
Proof. intros (_ & _ & Hd & Hl). destruct n as [d l]. simpl in *. unfold named. by rewrite Hl, <- Hd. Qed.

Lemma named_wrapped s : len s <= nameLen -> mkName (padded s) (u8 (len s)) = named s.
Proof.
  intros Hl. unfold named, u8. rewrite wrap_id; [done|]. pose proof (len_nonneg s). unfold in_width, nameLen in *. lia.
Qed.

(** * Parsing a name is safe *)

(** The rounds the loop still needs. *)
Definition unpack_measure (msg : bytes) (currOff ptr : Z) : Z :=
  (10 - ptr) * (len msg + 1) + Z.max 0 (len msg - currOff) + 1.

Lemma unpack_loop_safe msg : bytes_ok msg -> forall fuel off currOff newOff ptr name,
  0 <= currOff -> 0 <= off -> 0 <= ptr <= 10 -> unpack_measure msg currOff ptr <= Z.of_nat fuel ->
  (ptr = 0 -> off <= currOff) -> (0 < ptr -> off < newOff <= len msg) -> bytes_ok name ->
  match unpack_loop fuel msg currOff newOff ptr name with
  | Ok (name', currOff', newOff', ptr') =>
      off < (if ptr' =? 0 then currOff' else newOff') <= len msg /\ bytes_ok name'
  | Fail _ => True
  | Panic => False
  end.
Proof.
  intros Hm. induction fuel as [|fuel IH]; intros off currOff newOff ptr name Hc Hoff Hp Hf H0 H1 Hn.
  { unfold unpack_measure in Hf. pose proof (len_nonneg msg). nia. }
  cbn [unpack_loop]. destruct (Z.leb_spec (len msg) currOff) as [|Hlt]; [done|].
  destruct (byte_at msg currOff) as (c & -> & Hcb); [done|lia|]. cbn [or_panic mbind outcome_bind].
  assert (0 <= c) by (unfold byte_ok, in_width in Hcb; lia).
  destruct (_ =? 0).
  - destruct (Z.eqb_spec c 0).
    { split; [|done]. destruct (Z.eqb_spec ptr 0); [lia|]. apply H1. lia. }
    destruct (Z.ltb_spec (len msg) (currOff + 1 + c)); [done|].
    rewrite slice_ok by lia. cbn [mbind outcome_bind].
    apply IH; [lia|done|done| |lia|done|].
    + unfold unpack_measure in *. lia.
    + apply bytes_ok_app; split; [done|]. apply bytes_ok_app; split; [auto with go|]. by repeat constructor.
  - destruct (_ =? 192); [|done].
    destruct (Z.leb_spec (len msg) (currOff + 1)); [done|].
    destruct (byte_at msg (currOff + 1)) as (c1 & -> & Hc1); [done|lia|]. cbn [or_panic mbind outcome_bind].
    destruct (Z.ltb_spec 10 (ptr + 1)); [done|].
    assert (0 <= Z.lor (Z.shiftl (Z.lxor c 192) 8) c1).
    { apply Z.lor_nonneg. split; [|by destruct Hc1]. apply Z.shiftl_nonneg, Z.lxor_nonneg. lia. }
    apply IH; [done|done|lia| |lia| |done].
    + unfold unpack_measure in *. lia.
    + intros _. destruct (Z.eqb_spec ptr 0); [lia|]. apply H1. lia.
Qed.

Lemma Name_unpack_safe msg off : bytes_ok msg -> 0 <= off ->
  returns (Name_unpack msg off) (fun '(n, off') => name_ok n /\ Length n <> 0 /\ off < off' <= len msg).
Proof.
  intros Hm Ho. unfold Name_unpack.
  pose proof (unpack_loop_safe msg Hm (unpack_fuel msg) off off off 0 []) as H.
  destruct (unpack_loop _ _ _ _ _ _) as [[[[name c] n] p]|e|].
  - cbn [mbind outcome_bind]. destruct H as [Hr Hb]; try done; try lia.
    { unfold unpack_measure, unpack_fuel, len. lia. }
    { constructor. }
    set (name' := if len name =? 0 then name ++ [dot] else name).
    assert (Hn : bytes_ok name' /\ 0 < len name').
    { unfold name'. destruct (Z.eqb_spec (len name) 0).
      - split; [apply bytes_ok_app; split; [done|by repeat constructor]|]. rewrite len_app. change (len [dot]) with 1. lia.
      - split; [done|]. pose proof (len_nonneg name). lia. }
    destruct (Z.ltb_spec nameLen (len name')); [done|]. destruct Hn.
    rewrite named_wrapped by done. split; [by apply named_ok|]. simpl. lia.
  - done.
  - apply H; try done; try lia. { unfold unpack_measure, unpack_fuel, len. lia. } constructor.
Qed.

Lemma skipName_loop_safe msg : bytes_ok msg -> forall fuel off,
  0 <= off -> Z.max 0 (len msg - off) + 1 <= Z.of_nat fuel ->
  match skipName_loop fuel msg off with
  | Ok off' => off < off' <= len msg + 1
  | Fail _ => True
  | Panic => False
  end.
Proof.
  intros Hm. induction fuel as [|fuel IH]; intros off Ho Hf; [lia|]. cbn [skipName_loop].
  destruct (Z.leb_spec (len msg) off) as [|Hlt]; [done|].
  destruct (byte_at msg off) as (c & -> & Hcb); [done|lia|]. cbn [or_panic mbind outcome_bind].
  assert (0 <= c) by (unfold byte_ok, in_width in Hcb; lia).
  destruct (_ =? 0).
  - destruct (Z.eqb_spec c 0); [lia|]. destruct (Z.ltb_spec (len msg) (off + 1 + c)); [done|].
    specialize (IH (off + 1 + c) ltac:(lia) ltac:(lia)). destruct (skipName_loop _ _ _); [lia|done|done].
  - destruct (_ =? 192); [lia|done].
Qed.

Lemma skipName_safe msg off : bytes_ok msg -> 0 <= off ->
  returns (skipName msg off) (fun off' => off < off' <= len msg + 1).
Proof. intros Hm Ho. apply skipName_loop_safe; [done|done|]. unfold len. lia. Qed.

(** Once a pointer is followed the end of the name is known. *)
Lemma unpack_loop_ptr fuel msg currOff newOff ptr name name' c' n' p' :
  0 < ptr -> unpack_loop fuel msg currOff newOff ptr name = Ok (name', c', n', p') -> 0 < p' /\ n' = newOff.
Proof.
  revert currOff ptr name. induction fuel as [|fuel IH]; intros currOff ptr name Hp; [intros [=]|]. cbn [unpack_loop].
  destruct (_ <=? currOff); [intros [=]|]. destruct (at_ msg currOff) as [c|]; cbn [or_panic mbind outcome_bind]; [|intros [=]].
  destruct (_ =? 0).
  - destruct (_ =? 0); [intros [= _ _ <- <-]; by split|]. destruct (_ <? _); [done|].
    destruct (slice _ _ _); cbn [mbind outcome_bind]; [|intros [=]..]. by apply IH.
  - destruct (_ =? 192); [|done]. destruct (_ <=? _); [done|].
    destruct (at_ msg (currOff + 1)); cbn [or_panic mbind outcome_bind]; [|intros [=]].
    rewrite (proj2 (Z.eqb_neq ptr 0)) by lia. destruct (10 <? _); [done|]. apply IH. lia.
Qed.

(** Skipping a name that parses ends where parsing it ends. *)
Lemma skipName_loop_follows msg : bytes_ok msg -> forall fuel fuel' currOff newOff name name' c' n' p',
  0 <= currOff -> Z.max 0 (len msg - currOff) + 1 <= Z.of_nat fuel' ->
  unpack_loop fuel msg currOff newOff 0 name = Ok (name', c', n', p') ->
  skipName_loop fuel' msg currOff = Ok (if p' =? 0 then c' else n').
Proof.
  intros Hm. induction fuel as [|fuel IH]; intros fuel' currOff newOff name name' c' n' p' Hc Hf; [intros [=]|].
  destruct fuel' as [|fuel']; [lia|].
  cbn [unpack_loop skipName_loop]. destruct (Z.leb_spec (len msg) currOff) as [|Hlt]; [done|].
  destruct (byte_at msg currOff) as (c & -> & Hcb); [done|lia|]. cbn [or_panic mbind outcome_bind].
  assert (0 <= c) by (unfold byte_ok, in_width in Hcb; lia).
  destruct (_ =? 0).
  - destruct (Z.eqb_spec c 0); [by intros [= <- <- <- <-]|].
    destruct (Z.ltb_spec (len msg) (currOff + 1 + c)); [done|].
    rewrite slice_ok by lia. cbn [mbind outcome_bind]. intros H'. eapply IH; [lia|lia|done].
  - destruct (_ =? 192); [|done]. destruct (_ <=? _); [done|].
    destruct (at_ msg (currOff + 1)); cbn [or_panic mbind outcome_bind]; [|intros [=]]. destruct (10 <? 0 + 1); [done|].
    intros H'. apply unpack_loop_ptr in H' as [? ->]; [|lia].
    by rewrite (proj2 (Z.eqb_neq _ _)) by lia.
Qed.

Lemma skipName_unpack msg off n off' : bytes_ok msg -> 0 <= off ->
  Name_unpack msg off = Ok (n, off') -> skipName msg off = Ok off'.
Proof.
  intros Hm Ho. unfold Name_unpack, skipName.
  destruct (unpack_loop _ _ _ _ _ _) as [[[[name c] n'] p]| |] eqn:E; [|done|done]. cbn [mbind outcome_bind].
  destruct (nameLen <? _); [done|]. intros [= _ <-].
  eapply skipName_loop_follows; [done|done| |done]. unfold len. lia.
Qed.
