(* ===== verification/DnsNameRT.v ===== *)
(** Packing a name and reading it back, compression included: what the bytes of
    a packed name denote, and what the compression map knows. *)
From S2P Require Import Prelude.
From S2P Require Import DnsWire DnsName.

(** * Views

    What is known of a message under construction: the bytes already final. The
    two bytes of a resource's length are unknown until [fixLen] writes them. *)
Definition view := Z -> option Z.

Definition view_le (V W : view) : Prop := forall i b, V i = Some b -> W i = Some b.

(** The bytes of [msg] outside the holes [h]. *)
Definition seen (h : Z -> bool) (msg : bytes) : view := fun i => if h i then None else at_ msg i.

Definition no_hole (i : Z) : bool := false.

Lemma view_le_refl V : view_le V V.
Proof. by intros i b. Qed.

Lemma view_le_trans U V W : view_le U V -> view_le V W -> view_le U W.
Proof. intros H1 H2 i b Hb. by apply H2, H1. Qed.

Lemma at_app_l {A} (l k : list A) i x : at_ l i = Some x -> at_ (l ++ k) i = Some x.
Proof. unfold at_. case_decide; [|done]. apply lookup_app_l_Some. Qed.

Lemma seen_app h msg x : view_le (seen h msg) (seen h (msg ++ x)).
Proof. intros i b. unfold seen. destruct (h i); [done|]. apply at_app_l. Qed.

Lemma seen_at h msg : view_le (seen h msg) (at_ msg).
Proof. intros i b. unfold seen. by destruct (h i). Qed.

Lemma at_view_app msg x : view_le (at_ msg) (at_ (msg ++ x)).
Proof. intros i b. apply at_app_l. Qed.

(** The bytes of [x] are known at [off]. *)
Definition sees (V : view) (off : Z) (x : bytes) : Prop := forall i b, 0 <= i -> at_ x i = Some b -> V (off + i) = Some b.

Lemma sees_mono V W off x : view_le V W -> sees V off x -> sees W off x.
Proof. intros H Hs i b Hi Hb. by apply H, Hs. Qed.

Lemma at_app_r {A} (l k : list A) i : 0 <= i -> at_ (l ++ k) (len l + i) = at_ k i.
Proof.
  intros Hi. unfold at_, len. rewrite !decide_True by lia. rewrite lookup_app_r by lia. f_equal. lia.
Qed.

Lemma sees_app V off x y : sees V off (x ++ y) <-> sees V off x /\ sees V (off + len x) y.
Proof.
  split.
  - intros H. split; intros i b Hi Hb.
    + apply H; [done|]. by apply at_app_l.
    + rewrite <- Z.add_assoc. apply H; [pose proof (len_nonneg x); lia|]. by rewrite at_app_r.
  - intros [H1 H2] i b Hi Hb. destruct (Z.ltb_spec i (len x)) as [Hl|Hl].
    + apply H1; [done|]. destruct (at_Some x i) as [b' Hb']; [lia|]. rewrite Hb'. by rewrite (at_app_l _ _ _ _ Hb') in Hb.
    + replace (off + i) with (off + len x + (i - len x)) by lia. apply H2; [lia|].
      rewrite <- at_app_r with (l := x) by lia. by replace (len x + (i - len x)) with i by lia.
Qed.

Lemma sees_cons V off b x : sees V off (b :: x) <-> V off = Some b /\ sees V (off + 1) x.
Proof.
  change (b :: x) with ([b] ++ x). rewrite sees_app. change (len [b]) with 1. split; intros [H1 H2]; (split; [|done]).
  - rewrite <- (Z.add_0_r off). by apply H1.
  - intros i c Hi Hc. pose proof (at_lt _ _ _ Hc). change (len [b]) with 1 in *. replace i with 0 in * by lia.
    injection Hc as <-. by rewrite Z.add_0_r.
Qed.

Lemma seen_end h msg x : (forall i, len msg <= i -> h i = false) -> sees (seen h (msg ++ x)) (len msg) x.
Proof. intros Hh i b Hi Hb. unfold seen. rewrite Hh by lia. by rewrite at_app_r. Qed.

Lemma sees_stands msg off x : 0 <= off <= len msg -> sees (at_ msg) off x -> stands msg off x.
Proof.
  intros Ho Hs. split; [lia|]. exists (upto off msg), (from (off + len x) msg).
  split; [|by apply len_upto]. pose proof (len_nonneg x) as Hx.
  assert (Hl : off + len x <= len msg).
  { destruct (Z.eqb_spec (len x) 0); [lia|]. destruct (at_Some x (len x - 1)) as [b Hb]; [lia|].
    apply Hs, at_lt in Hb; lia. }
  rewrite <- (upto_from off msg) at 1. f_equal. rewrite <- (upto_from (len x) (from off msg)) at 1. f_equal.
  - apply list_eq. intros i. unfold upto, from. rewrite lookup_take. case_decide as Hi.
    + destruct (lookup_lt_is_Some_2 x i) as [b Hb]; [unfold len in *; lia|].
      rewrite Hb, lookup_drop. specialize (Hs (Z.of_nat i) b). unfold at_ in Hs.
      rewrite !decide_True in Hs by lia. rewrite Nat2Z.id in Hs. rewrite <- Hs by (lia || done). f_equal. lia.
    + symmetry. apply lookup_ge_None. unfold len in *. lia.
  - unfold from. rewrite drop_drop. f_equal. lia.
Qed.

(** * Labels *)

(** The text of a list of labels: each is followed by a dot. *)
Definition text (ls : list bytes) : bytes := concat ((fun l => l ++ [dot]) <$> ls).

(** The labels of a name that ends in a dot. *)
Fixpoint labels (s : bytes) : list bytes :=
  match s with
  | [] => []
  | c :: s' =>
      if c =? dot then [] :: labels s'
      else match labels s' with [] => [[c]] | l :: ls => (c :: l) :: ls end
  end.

Definition ends_in_dot (s : bytes) : bool := bool_decide (last s = Some dot).

(** What is wrong with the first bad label. *)
Fixpoint labels_error (ls : list bytes) : option dns_error :=
  match ls with
  | [] => None
  | l :: ls =>
      if 64 <=? len l then Some errSegTooLong
      else if len l =? 0 then Some errZeroSegLen
      else labels_error ls
  end.

Definition dot_free (l : bytes) : Prop := dot ∉ l.

Lemma text_cons l ls : text (l :: ls) = l ++ dot :: text ls.
Proof. unfold text. simpl. by rewrite <- app_assoc. Qed.

Lemma text_last ls : ls <> [] -> last (text ls) = Some dot.
Proof.
  induction ls as [|l ls IH]; [done|]. intros _. rewrite text_cons. destruct ls as [|l' ls].
  - change (text []) with (@nil Z). by rewrite last_snoc.
  - rewrite cons_middle, app_assoc, last_app, IH by done. done.
Qed.

Lemma text_nil ls : text ls = [] -> ls = [].
Proof. destruct ls as [|l ls]; [done|]. rewrite text_cons. by destruct l. Qed.

Lemma last_tail (c : Z) s x : s <> [] -> last (c :: s) = Some x -> last s = Some x.
Proof. by destruct s. Qed.

Lemma text_labels s : s = [] \/ last s = Some dot -> text (labels s) = s.
Proof.
  induction s as [|c s IH]; intros Hs; [done|]. destruct Hs as [|Hs]; [done|]. cbn [labels].
  assert (IH' : text (labels s) = s). { apply IH. destruct s; [by left|right]. by apply last_tail in Hs. }
  destruct (Z.eqb_spec c dot) as [->|Hc]; [by rewrite text_cons, IH'|].
  destruct (labels s) as [|l ls].
  - change (text []) with (@nil Z) in IH'. subst s. injection Hs as ->. done.
  - rewrite text_cons in *. cbn [app]. by f_equal.
Qed.

Lemma labels_dot_free s : Forall dot_free (labels s).
Proof.
  induction s as [|c s IH]; [constructor|]. cbn [labels]. destruct (Z.eqb_spec c dot).
  - constructor; [|done]. unfold dot_free. apply not_elem_of_nil.
  - destruct IH as [|l ls Hl Hls]; (constructor; [|done]); unfold dot_free in *; rewrite elem_of_cons.
    + intros [|Hi]; [done|]. by apply elem_of_nil in Hi.
    + intros [|]; done.
Qed.

Lemma dot_split (l l' s s' : bytes) : dot_free l -> dot_free l' -> l ++ dot :: s = l' ++ dot :: s' -> l = l' /\ s = s'.
Proof.
  unfold dot_free. revert l'. induction l as [|c l IH]; intros [|c' l'] Hl Hl' He; simpl in He.
  - by injection He.
  - injection He as <- _. exfalso. apply Hl'. by left.
  - injection He as -> _. exfalso. apply Hl. by left.
  - injection He as -> He. rewrite elem_of_cons in Hl, Hl'. apply IH in He as [-> ->]; [done|tauto|tauto].
Qed.

Lemma text_inj ls ls' : Forall dot_free ls -> Forall dot_free ls' -> text ls = text ls' -> ls = ls'.
Proof.
  intros H. revert ls'. induction H as [|l ls Hl Hls IH]; intros ls' H' He.
  - symmetry in He. apply text_nil in He. done.
  - destruct H' as [|l' ls' Hl' Hls']; [by apply text_nil in He|].
    rewrite !text_cons in He. apply dot_split in He as [-> He]; [|done|done]. f_equal. by apply IH.
Qed.

(** A text and zeros behind it: the text ends at the last dot. *)
Lemma zeros_split (s s' : bytes) n n' : last s = Some dot -> last s' = Some dot ->
  s ++ replicate n 0 = s' ++ replicate n' 0 -> s = s'.
Proof.
  assert (Hone : forall k s s', last s = Some dot -> last s' = Some dot -> s ++ replicate k 0 = s' -> s = s').
  { intros [|k] a b Ha Hb; [by rewrite app_nil_r|]. intros <-. rewrite replicate_S_end, app_assoc, last_snoc in Hb. done. }
  intros Hs Hs' He. destruct (decide (n <= n')%nat) as [Hn|Hn].
  - symmetry. apply (Hone (n' - n)%nat); [done|done|]. replace n' with ((n' - n) + n)%nat in He by lia.
    rewrite replicate_add, app_assoc in He. by apply app_inv_tail in He.
  - apply (Hone (n - n')%nat); [done|done|]. replace n with ((n - n') + n')%nat in He by lia.
    rewrite replicate_add, app_assoc in He. by apply app_inv_tail in He.
Qed.

(** * What packed bytes denote

    [encodes V p off s e]: at [off] stands a name that reads as the text [s],
    follows [p] pointers, and ends before [e]. *)
Inductive encodes (V : view) : nat -> Z -> bytes -> Z -> Prop :=
| encodes_end off : V off = Some 0 -> encodes V 0 off [] (off + 1)
| encodes_label p off l s e : 0 < len l < 64 -> sees V off (len l :: l) ->
    encodes V p (off + 1 + len l) s e -> encodes V p off (l ++ dot :: s) e
| encodes_ptr p off c c1 s e :
    byte_ok c -> byte_ok c1 -> Z.land c 192 = 192 -> V off = Some c -> V (off + 1) = Some c1 ->
    encodes V p (Z.lor (Z.shiftl (Z.lxor c 192) 8) c1) s e -> encodes V (S p) off s (off + 2).

Lemma encodes_mono V W p off s e : view_le V W -> encodes V p off s e -> encodes W p off s e.
Proof.
  intros H He. induction He as [off H0|p off l s e Hl Hs He IH|p off c c1 s e Hc Hc1 H192 H0 H1 He IH].
  - apply encodes_end. by apply H.
  - apply encodes_label; [done| |done]. by eapply sees_mono.
  - by apply (encodes_ptr _ _ _ c c1 s e); [..|apply H|apply H|].
Qed.

Lemma label_byte (l : bytes) : 0 < len l < 64 -> Z.land (len l) 192 = 0.
Proof.
  intros Hl. apply Z.eqb_eq.
  assert (H : forallb (fun b => (64 <=? b) || (Z.land b 192 =? 0)) (seqZ 0 256) = true) by by vm_compute.
  assert (Hb : byte_ok (len l)) by (unfold byte_ok, in_width; lia).
  pose proof (byte_forall _ H _ Hb) as Hx. cbv beta in Hx. rewrite (proj2 (Z.leb_gt _ _)) in Hx by lia. done.
Qed.

Lemma unpack_measure_pos M off ptr : 0 <= ptr <= 10 -> 1 <= unpack_measure M off ptr.
Proof. intros Hp. unfold unpack_measure. pose proof (len_nonneg M). nia. Qed.

(** Reading such a name, from any point of the loop. *)
Lemma unpack_loop_encodes M p off s e : encodes (at_ M) p off s e ->
  forall fuel newOff ptr name, 0 <= ptr <= 10 -> unpack_measure M off ptr <= Z.of_nat fuel ->
  if ptr + Z.of_nat p <=? 10 then
    exists c', unpack_loop fuel M off newOff ptr name =
        Ok (name ++ s, c', (if (ptr =? 0) && negb (Z.of_nat p =? 0) then e else newOff), ptr + Z.of_nat p)
      /\ (ptr + Z.of_nat p = 0 -> c' = e)
  else unpack_loop fuel M off newOff ptr name = Fail errTooManyPtr.
Proof.
  induction 1 as [off H0|p off l s e Hl Hs He IH|p off c c1 s e Hc Hc1 H192 H0 H1 He IH];
    intros fuel newOff ptr name Hp Hf; pose proof (unpack_measure_pos M off ptr Hp).
  - pose proof (at_lt _ _ _ H0). destruct fuel as [|fuel]; [lia|].
    rewrite Z.add_0_r. rewrite (proj2 (Z.leb_le _ _)) by lia. exists (off + 1). split; [|done]. cbn [unpack_loop].
    rewrite (proj2 (Z.leb_gt _ _)) by lia. rewrite H0. cbn [or_panic mbind outcome_bind].
    change (Z.land 0 192 =? 0) with true. change (0 =? 0) with true. cbn [andb negb]. by rewrite andb_false_r, app_nil_r.
  - apply sees_cons in Hs as [H0 Hs]. pose proof (at_lt _ _ _ H0). pose proof Hs as Hs'.
    apply sees_stands in Hs'; [|lia]. pose proof (stands_bound _ _ _ Hs') as Hb.
    destruct fuel as [|fuel]; [lia|].
    assert (Hrun : unpack_loop (S fuel) M off newOff ptr name = unpack_loop fuel M (off + 1 + len l) newOff ptr (name ++ l ++ [dot])).
    { cbn [unpack_loop]. rewrite (proj2 (Z.leb_gt _ _)) by lia. rewrite H0. cbn [or_panic mbind outcome_bind].
      rewrite label_byte by done. change (0 =? 0) with true. cbn iota.
      rewrite (proj2 (Z.eqb_neq _ _)) by lia. rewrite (proj2 (Z.ltb_ge _ _)) by lia. by rewrite stands_slice. }
    rewrite Hrun. specialize (IH fuel newOff ptr (name ++ l ++ [dot]) Hp).
    replace ((name ++ l ++ [dot]) ++ s) with (name ++ l ++ dot :: s) in IH by (by rewrite <- !app_assoc).
    apply IH. unfold unpack_measure in *. lia.
  - pose proof (at_lt _ _ _ H0). pose proof (at_lt _ _ _ H1).
    destruct fuel as [|fuel]; [lia|].
    assert (Ht : 0 <= Z.lor (Z.shiftl (Z.lxor c 192) 8) c1).
    { apply Z.lor_nonneg. split; [|by destruct Hc1]. apply Z.shiftl_nonneg, Z.lxor_nonneg. destruct Hc. lia. }
    set (tgt := Z.lor _ _) in *.
    assert (Hrun : unpack_loop (S fuel) M off newOff ptr name =
      if 10 <? ptr + 1 then Fail errTooManyPtr
      else unpack_loop fuel M tgt (if ptr =? 0 then off + 2 else newOff) (ptr + 1) name).
    { cbn [unpack_loop]. rewrite (proj2 (Z.leb_gt _ _)) by lia. rewrite H0. cbn [or_panic mbind outcome_bind].
      rewrite H192. change (192 =? 0) with false. change (192 =? 192) with true. cbn iota.
      rewrite (proj2 (Z.leb_gt _ _)) by lia. rewrite H1. cbn [or_panic mbind outcome_bind].
      fold tgt. by replace (off + 1 + 1) with (off + 2) by lia. }
    rewrite Hrun. destruct (Z.ltb_spec 10 (ptr + 1)).
    { rewrite (proj2 (Z.leb_gt _ _)) by lia. done. }
    specialize (IH fuel (if ptr =? 0 then off + 2 else newOff) (ptr + 1) name).
    replace (ptr + 1 + Z.of_nat p) with (ptr + Z.of_nat (S p)) in IH by lia.
    assert (Hm : unpack_measure M tgt (ptr + 1) <= Z.of_nat fuel) by (unfold unpack_measure in *; nia).
    specialize (IH ltac:(lia) Hm). destruct (_ <=? 10); [|done]. destruct IH as (c' & -> & _). exists c'. split; [|lia].
    do 3 f_equal. rewrite (proj2 (Z.eqb_neq (ptr + 1) 0)) by lia. cbn [andb].
    rewrite (proj2 (Z.eqb_neq (Z.of_nat (S p)) 0)) by lia. by destruct (ptr =? 0).
Qed.

(** The name a text denotes: the root has an empty text on the wire. *)
Definition spelled (s : bytes) : bytes := if len s =? 0 then s ++ [dot] else s.

Lemma Name_unpack_encodes M p off s e : encodes (at_ M) p off s e -> len (spelled s) <= nameLen ->
  Name_unpack M off = if Z.of_nat p <=? 10 then Ok (named (spelled s), e) else Fail errTooManyPtr.
Proof.
  intros He Hl. unfold Name_unpack.
  pose proof (unpack_loop_encodes M p off s e He (unpack_fuel M) off 0 []) as H.
  assert (Ho : 0 <= off).
  { destruct He as [off H0|p off l s e _ Hs _|p off c c1 s e _ _ _ H0 _ _]; [|apply sees_cons in Hs as [H0 _]|];
    apply at_lt in H0; lia. }
  change (0 + Z.of_nat p) with (Z.of_nat p) in H. cbn [app] in H.
  assert (Hf : unpack_measure M off 0 <= Z.of_nat (unpack_fuel M)) by (unfold unpack_measure, unpack_fuel, len in *; lia).
  specialize (H ltac:(lia) Hf). destruct (Z.leb_spec (Z.of_nat p) 10); [|by rewrite H].
  destruct H as (c' & -> & Hc). cbn [mbind outcome_bind]. fold (spelled s).
  rewrite (proj2 (Z.ltb_ge _ _)) by done. rewrite named_wrapped by done. do 2 f_equal.
  destruct (Z.eqb_spec (Z.of_nat p) 0); cbn [andb negb]; [by apply Hc|done].
Qed.

(** * Packing *)

(** A buffer that has grown; within its capacity it stays where it is. *)
Definition grown (b b' : buf) (x : bytes) : Prop :=
  data b' = data b ++ x /\ (len (data b') <= cap b -> same_array b b').

Lemma grown_refl b : grown b b [].
Proof. split; [by rewrite app_nil_r|done]. Qed.

Lemma grown_trans a b c x y : grown a b x -> grown b c y -> grown a c (x ++ y).
Proof.
  intros [H1 S1] [H2 S2]. split; [by rewrite H2, H1, app_assoc|]. intros Hl.
  assert (len (data b) <= len (data c)) by (rewrite H2, len_app; pose proof (len_nonneg y); lia).
  destruct S1 as [Hc Ha]; [lia|]. apply (same_array_trans _ b); [done|]. apply S2. lia.
Qed.

Lemma append_grown grow b x : grown b (append grow b x) x.
Proof.
  split; [apply append_data|]. rewrite append_data, len_app. intros H. by apply append_fits.
Qed.

Lemma appends_grown grow b x : grown b (foldl (fun m c => append grow m [c]) b x) x.
Proof.
  revert b. induction x as [|c x IH]; intros b; [apply grown_refl|]. cbn [foldl].
  apply (grown_trans _ _ _ [c] x (append_grown grow b [c])). apply IH.
Qed.

(** What an entry of the compression map promises: at [ptr] stands the text of
    the key, behind at most [P] pointers. *)
Definition entry (V : view) (P : nat) (key : bytes) (ptr : Z) : Prop :=
  0 <= ptr <= 16383 /\ exists p ls e, (p <= P)%nat /\ ls <> [] /\ Forall dot_free ls /\ labels_error ls = None /\
    encodes V p ptr (text ls) e /\ exists n, key = text ls ++ replicate n 0.

Definition good (V : view) (P : nat) (c : compression) : Prop :=
  forall m key ptr, c = Some m -> m !! key = Some ptr -> entry V P key ptr.

Lemma entry_mono V W P Q key ptr : view_le V W -> (P <= Q)%nat -> entry V P key ptr -> entry W Q key ptr.
Proof.
  intros HV HP (Hr & p & ls & e & Hp & Hne & Hdf & Hle & He & Hk). split; [done|].
  exists p, ls, e. split_and!; try done; [lia|]. by eapply encodes_mono.
Qed.

Lemma good_mono V W P Q c : view_le V W -> (P <= Q)%nat -> good V P c -> good W Q c.
Proof. intros HV HP H m key ptr Hc Hk. eapply entry_mono; eauto. Qed.

(** The two bytes of a pointer. *)
Lemma pointer_bytes ptr : 0 <= ptr <= 16383 ->
  let c := u8 (Z.lor (shr ptr 8) 192) in let c1 := u8 ptr in
  byte_ok c /\ byte_ok c1 /\ Z.land c 192 = 192 /\ Z.lor (Z.shiftl (Z.lxor c 192) 8) c1 = ptr.
Proof.
  intros Hp c c1. assert (Hc1 : byte_ok c1) by by apply wrap_in_width.
  assert (H : forallb (fun b => (64 <=? b) || ((u8 (Z.lor b 192) <? 256) && (0 <=? u8 (Z.lor b 192))
     && (Z.land (u8 (Z.lor b 192)) 192 =? 192) && (Z.lxor (u8 (Z.lor b 192)) 192 =? b))) (seqZ 0 256) = true) by by vm_compute.
  assert (Hb : 0 <= shr ptr 8 < 64) by (unfold shr; rewrite Z.shiftr_div_pow2 by lia; split; [apply Z.div_pos; lia|apply Z.div_lt_upper_bound; lia]).
  pose proof (byte_forall _ H (shr ptr 8) ltac:(unfold byte_ok, in_width; lia)) as Hx. cbv beta in Hx.
  rewrite (proj2 (Z.leb_gt _ _)) in Hx by lia. cbn [orb] in Hx. fold c in Hx.
  apply andb_prop in Hx as [[[H1%Z.ltb_lt H2%Z.leb_le]%andb_prop H3%Z.eqb_eq]%andb_prop H4%Z.eqb_eq].
  split_and!; [by split|done|done|]. rewrite H4, lor_shiftl_add by (done || lia). unfold shr, c1, u8, wrap.
  rewrite Z.shiftr_div_pow2 by lia. pose proof (Z.div_mod ptr (2 ^ 8)). lia.
Qed.

Section pack.
Context (grow : Z -> Z -> Z).

(** Past the first letter of a label the loop only looks for the dot. *)
Lemma pack_letters n l : dot_free l -> forall k i begin msg c rest,
  0 < i -> at_ (Data n) (i - 1) <> Some dot -> from i (Data n) = l ++ rest ->
  pack_loop grow (length l + k) n i begin msg c = pack_loop grow k n (i + len l) begin msg c.
Proof.
  unfold dot_free. induction l as [|ch l IH]; intros Hd k i begin msg c rest Hi Hp Hf.
  { by rewrite len_nil, Z.add_0_r. }
  rewrite elem_of_cons in Hd. apply from_cons in Hf as [Ha Hf]; [|lia]. cbn [length Nat.add pack_loop].
  rewrite Ha. rewrite (proj2 (Z.eqb_neq ch dot)) by (intros ->; apply Hd; by left).
  assert (Hnext : pack_loop grow (length l + k) n (i + 1) begin msg c = pack_loop grow k n (i + len (ch :: l)) begin msg c).
  { rewrite len_cons. replace (i + (len l + 1)) with (i + 1 + len l) by lia. apply (IH ltac:(tauto) _ _ _ _ _ rest); [lia| |done].
    replace (i + 1 - 1) with i by lia. rewrite Ha. intros [= ->]. apply Hd. by left. }
  destruct c as [m|]; [|done]. rewrite (proj2 (Z.eqb_neq i 0)) by lia. by rewrite bool_decide_eq_false_2.
Qed.

(** The round at the dot behind a label that begins at [begin]. *)
Lemma pack_dot n l k begin msg c rest : 0 <= begin -> from begin (Data n) = l ++ dot :: rest ->
  pack_loop grow (S k) n (begin + len l) begin msg c =
    if 64 <=? len l then (Fail errSegTooLong, c)
    else if len l =? 0 then (Fail errZeroSegLen, c)
    else
      let i' := begin + len l + 1 in
      pack_loop grow k n i' i' (foldl (fun m b => append grow m [b]) (append grow msg [u8 (len l)]) l) c.
Proof.
  intros Hb Hf. pose proof (from_behind _ _ _ _ Hb Hf) as Hf'. apply from_cons in Hf' as [Ha _]; [|pose proof (len_nonneg l); lia].
  cbn [pack_loop]. rewrite Ha. change (dot =? dot) with true. cbn iota.
  replace (begin + len l - begin) with (len l) by lia. by rewrite Hf, upto_app_len.
Qed.

(** What packing a name does with a good map: [new] says which entries are new. *)
Definition only_new (V : view) (P : nat) (c c' : compression) : Prop :=
  (c = None -> c' = None) /\
  forall m' key ptr, c' = Some m' -> m' !! key = Some ptr ->
    (exists m, c = Some m /\ m !! key = Some ptr) \/ entry V P key ptr.

Definition packed_at (h : Z -> bool) (P : nat) (msg : buf) (s : bytes) (c : compression) (r : dns buf * compression) : Prop :=
  exists msg' c' x p, r = (Ok msg', c') /\ grown msg msg' x /\ (p <= S P)%nat /\
    encodes (seen h (data msg')) p (len (data msg)) s (len (data msg')) /\ only_new (seen h (data msg')) (S P) c c'.

(** The entries that can serve a suffix of [k] bytes are good. *)
Definition good_below (V : view) (P : nat) (k : nat) (c : compression) : Prop :=
  forall m key ptr, c = Some m -> (length key <= k)%nat -> m !! key = Some ptr -> entry V P key ptr.

Lemma grown_seen h b b' x : grown b b' x -> view_le (seen h (data b)) (seen h (data b')).
Proof. intros [-> _]. apply seen_app. Qed.

(** The label written and the rest of the name packed behind it. *)
Lemma pack_label_rest h P l ls msg b1 c r : 0 < len l < 64 -> (forall j, len (data msg) <= j -> h j = false) ->
  grown msg b1 (len l :: l) -> packed_at h P b1 (text ls) c r -> packed_at h P msg (text (l :: ls)) c r.
Proof.
  intros Hl Hh Hg (msg' & c' & x & p & -> & Hg' & Hp & He & Hn).
  exists msg', c', ((len l :: l) ++ x), p. split_and!; [done|by eapply grown_trans|done| |done].
  rewrite text_cons. pose proof Hg as [Hd _]. apply encodes_label; [done| |].
  - eapply sees_mono; [by eapply grown_seen|]. rewrite Hd. by apply seen_end.
  - rewrite Hd, len_app, len_cons in He. by replace (len (data msg) + 1 + len l) with (len (data msg) + (len l + 1)) by lia.
Qed.

(** A hit: two bytes point at the text. *)
Lemma pack_hit h P msg ls ptr z c : Forall dot_free ls -> ls <> [] -> (forall j, len (data msg) <= j -> h j = false) ->
  entry (seen h (data msg)) P (text ls ++ replicate z 0) ptr ->
  labels_error ls = None /\
  packed_at h P msg (text ls) c (Ok (append grow msg [u8 (Z.lor (shr ptr 8) 192); u8 ptr]), c).
Proof.
  intros Hdf Hne Hh (Hr & p & ls' & e & Hp & Hne' & Hdf' & Hle & He & n & Hk).
  apply zeros_split in Hk; [|by apply text_last..]. apply text_inj in Hk as <-; [|done|done]. split; [done|].
  set (x := [_; _]). exists (append grow msg x), c, x, (S p).
  split_and!; [done|apply append_grown|lia| |split; [done|by left; eauto]].
  rewrite append_data, len_app. change (len x) with 2. destruct (pointer_bytes ptr Hr) as (Hc & Hc1 & H192 & Ht).
  pose proof (seen_end h (data msg) x Hh) as Hs. apply sees_cons in Hs as [H0 Hs]. apply sees_cons in Hs as [H1 _].
  apply (encodes_ptr _ _ _ _ _ _ e Hc Hc1 H192 H0 H1). rewrite Ht. eapply encodes_mono; [apply seen_app|done].
Qed.

Lemma only_new_insert V P m key ptr c' : entry V P key ptr -> only_new V P (Some (<[key := ptr]> m)) c' -> only_new V P (Some m) c'.
Proof.
  intros He [_ Hn]. split; [done|]. intros m' k q Hc' Hk.
  destruct (Hn m' k q Hc' Hk) as [(m1 & [= <-] & Hm)|]; [|by right].
  destruct (decide (k = key)) as [->|Hne].
  - rewrite lookup_insert_eq in Hm. injection Hm as <-. by right.
  - rewrite lookup_insert_ne in Hm by done. left. eauto.
Qed.

Lemma pack_labels h P n ls : Forall dot_free ls -> forall i msg c z,
  0 <= i -> (i = 0 \/ at_ (Data n) (i - 1) = Some dot) -> from i (Data n) = text ls ++ replicate z 0 ->
  (forall j, len (data msg) <= j -> h j = false) ->
  good_below (seen h (data msg)) P (length (from i (Data n))) c ->
  match labels_error ls with
  | Some e => exists c', pack_loop grow (length (text ls)) n i i msg c = (Fail e, c')
  | None => packed_at h P msg (text ls) c (pack_loop grow (length (text ls)) n i i msg c)
  end.
Proof.
  induction 1 as [|l ls Hl Hdf IH]; intros i msg c z Hi Hprev Hf Hh Hgood.
  { exists (append grow msg [0]), c, [0], O. cbn [text length fmap list_fmap concat pack_loop].
    split_and!; [done|apply append_grown|lia| |split; [done|by left; eauto]].
    rewrite append_data, len_app. change (len [0]) with 1. apply encodes_end.
    pose proof (seen_end h (data msg) [0] Hh) as Hs. by apply sees_cons in Hs as [H0 _]. }
  rewrite text_cons in Hf. rewrite <- app_assoc in Hf. cbn [app] in Hf.
  assert (Hlen : length (text (l :: ls)) = (length l + S (length (text ls)))%nat) by (rewrite text_cons, length_app; done).
  (* from the second letter on, with any map that serves the suffixes behind *)
  assert (Hrest : forall c1, good_below (seen h (data msg)) P (length (text ls ++ replicate z 0)) c1 ->
    let r := if 64 <=? len l then (Fail errSegTooLong, c1) else if len l =? 0 then (Fail errZeroSegLen, c1)
      else pack_loop grow (length (text ls)) n (i + len l + 1) (i + len l + 1)
             (foldl (fun m b => append grow m [b]) (append grow msg [u8 (len l)]) l) c1 in
    match labels_error (l :: ls) with
    | Some e => exists c', r = (Fail e, c')
    | None => packed_at h P msg (text (l :: ls)) c1 r
    end).
  { intros c1 Hc1. cbn [labels_error]. destruct (Z.leb_spec 64 (len l)); [by exists c1|].
    destruct (Z.eqb_spec (len l) 0); [by exists c1|]. cbn zeta. pose proof (len_nonneg l).
    set (msg1 := foldl _ _ _).
    assert (Hg : grown msg msg1 (len l :: l)).
    { change (len l :: l) with ([len l] ++ l). unfold msg1, u8. rewrite wrap_id by (unfold in_width; lia).
      eapply grown_trans; [apply append_grown|apply appends_grown]. }
    pose proof (from_behind _ _ _ _ Hi Hf) as Hf1. apply from_cons in Hf1 as [Hdot Hf1]; [|lia].
    specialize (IH (i + len l + 1) msg1 c1 z ltac:(lia)). rewrite Hf1 in IH.
    replace (i + len l + 1 - 1) with (i + len l) in IH by lia.
    specialize (IH (or_intror Hdot) eq_refl).
    assert (Hh1 : forall j, len (data msg1) <= j -> h j = false).
    { intros j Hj. apply Hh. rewrite (proj1 Hg), len_app in Hj. pose proof (len_nonneg (len l :: l)). lia. }
    specialize (IH Hh1). destruct (labels_error ls).
    - apply IH. intros m key ptr Hm Hk Hp. eapply entry_mono; [by eapply grown_seen|done|by eapply Hc1].
    - apply (pack_label_rest h P l ls msg msg1); [lia|done|done|]. apply IH.
      intros m key ptr Hm Hk Hp. eapply entry_mono; [by eapply grown_seen|done|by eapply Hc1]. }
  rewrite Hlen. destruct l as [|ch l].
  { pose proof (pack_dot n [] (length (text ls)) i msg c _ Hi Hf) as Hd.
    replace (pack_loop _ _ _ (i + len []) _ _ _) with (pack_loop grow (S (length (text ls))) n i i msg c) in Hd
      by (f_equal; rewrite len_nil; lia).
    cbn [length Nat.add]. rewrite Hd. apply (Hrest c). rewrite Hf in Hgood.
    intros m key ptr Hm Hk. apply Hgood; [done|]. simpl. lia. }
  destruct (from_cons _ _ _ _ Hi Hf) as [Hch Hf1].
  assert (Hnd : ch <> dot) by (intros ->; apply Hl; by left).
  assert (Hl' : dot_free l) by (unfold dot_free in *; rewrite elem_of_cons in Hl; tauto).
  assert (Hgo : forall c1, pack_loop grow (length l + S (length (text ls))) n (i + 1) i msg c1 =
    if 64 <=? len (ch :: l) then (Fail errSegTooLong, c1) else if len (ch :: l) =? 0 then (Fail errZeroSegLen, c1)
    else pack_loop grow (length (text ls)) n (i + len (ch :: l) + 1) (i + len (ch :: l) + 1)
             (foldl (fun m b => append grow m [b]) (append grow msg [u8 (len (ch :: l))]) (ch :: l)) c1).
  { intros c1. rewrite (pack_letters n l Hl' _ _ _ _ _ (dot :: text ls ++ replicate z 0)); [|lia| |done].
    - rewrite <- (pack_dot n (ch :: l) _ _ _ _ (text ls ++ replicate z 0) Hi Hf). f_equal. rewrite len_cons. lia.
    - replace (i + 1 - 1) with i by lia. rewrite Hch. by intros [= ->]. }
  assert (Hshort : forall V k, good_below V P (length (from i (Data n))) k -> good_below V P (length (text ls ++ replicate z 0)) k).
  { intros V k Hk m key ptr Hm Hle. apply Hk; [done|]. rewrite Hf, length_app. simpl. lia. }
  cbn [length Nat.add pack_loop]. rewrite Hch, (proj2 (Z.eqb_neq ch dot) Hnd).
  destruct c as [m|]; [|rewrite Hgo; apply Hrest; by apply Hshort].
  assert (Hstart : (i =? 0) || bool_decide (at_ (Data n) (i - 1) = Some dot) = true).
  { destruct Hprev as [->|Hp]; [done|]. rewrite bool_decide_eq_true_2 by done. apply orb_true_r. }
  rewrite Hstart. destruct (m !! from i (Data n)) as [ptr|] eqn:Em.
  - assert (He : entry (seen h (data msg)) P (text ((ch :: l) :: ls) ++ replicate z 0) ptr).
    { rewrite text_cons, <- app_assoc. cbn [app]. cbn [app] in Hf. rewrite <- Hf. by eapply Hgood. }
    apply (pack_hit h P msg _ _ _ (Some m)) in He as [-> Hr]; [done|by constructor|done|done].
  - rewrite Hgo. destruct (Z.leb_spec (len (data msg)) 16383).
    2:{ apply (Hrest (Some m)). by apply Hshort. }
    set (m1 := <[_ := _]> m).
    assert (Hm1 : good_below (seen h (data msg)) P (length (text ls ++ replicate z 0)) (Some m1)).
    { intros m' key q [= <-] Hk Hq. unfold m1 in Hq. rewrite lookup_insert_ne in Hq.
      - eapply Hshort; eauto.
      - intros <-. rewrite Hf, length_app in Hk. simpl in Hk. lia. }
    pose proof (Hrest (Some m1) Hm1) as Hr. cbv zeta in Hr. destruct (labels_error ((ch :: l) :: ls)) eqn:El; [done|].
    destruct Hr as (msg' & c' & x & p & -> & Hg & Hp & He & Hn). exists msg', c', x, p. split_and!; try done.
    apply (only_new_insert _ _ _ (from i (Data n)) (len (data msg))); [|done].
    split; [pose proof (len_nonneg (data msg)); lia|]. exists p, ((ch :: l) :: ls), (len (data msg')).
    split_and!; [done|done|by constructor|done|done|]. exists z. rewrite Hf, text_cons, <- app_assoc. done.
Qed.
End pack.

(** * Names *)

(** What stands on the wire for a name, apart from lengths and the final zero. *)
Definition wire (s : bytes) : bytes := if bool_decide (s = [dot]) then [] else s.

Lemma spelled_wire s : s <> [] -> spelled (wire s) = s.
Proof.
  intros Hs. unfold wire. case_bool_decide as Hd; [by subst|]. unfold spelled.
  destruct s as [|c s]; [done|]. rewrite (proj2 (Z.eqb_neq _ _)); [done|]. rewrite len_cons. pose proof (len_nonneg s). lia.
Qed.

(** Why a name cannot be packed. *)
Definition name_error (s : bytes) : option dns_error :=
  if (len s =? 0) || negb (ends_in_dot s) then Some errNonCanonicalName
  else if bool_decide (s = [dot]) then None
  else labels_error (labels s).

Lemma padded_at s i b : at_ s i = Some b -> at_ (padded s) i = Some b.
Proof. apply at_app_l. Qed.

Lemma last_at (s : bytes) : s <> [] -> at_ s (len s - 1) = last s.
Proof.
  intros Hs. destruct s as [|b s _] using rev_ind; [done|]. rewrite last_snoc, len_app. change (len [b]) with 1.
  replace (len s + 1 - 1) with (len s + 0) by lia. by rewrite at_app_r.
Qed.

Lemma Name_pack_result grow h P s msg c : len s <= nameLen -> (forall j, len (data msg) <= j -> h j = false) ->
  good (seen h (data msg)) P c ->
  match name_error s with
  | Some e => exists c', Name_pack grow (named s) msg c = (Fail e, c')
  | None => packed_at h P msg (wire s) c (Name_pack grow (named s) msg c)
  end.
Proof.
  intros Hl Hh Hg. unfold name_error, Name_pack. cbn [named Data Length].
  destruct (Z.eqb_spec (len s) 0) as [|H0]; cbn [orb]; [by exists c|].
  assert (Hne : s <> []) by (by intros ->).
  assert (Hat : at_ (padded s) (len s - 1) = last s).
  { destruct (at_Some s (len s - 1)) as [b Hb]; [pose proof (len_nonneg s); lia|].
    rewrite (padded_at _ _ _ Hb), <- Hb. by apply last_at. }
  rewrite Hat. unfold ends_in_dot. case_bool_decide as Hdot; cbn [negb]; [|by exists c].
  unfold wire. case_bool_decide as Hroot.
  - subst s. cbn [len length]. change (bool_decide _ && _) with true. cbn iota.
    pose proof (pack_labels grow h P (named []) [] ltac:(constructor) 0 msg c (Z.to_nat nameLen) ltac:(lia) (or_introl eq_refl) eq_refl Hh) as Hp.
    apply Hp. intros m key ptr Hm _. by apply Hg.
  - assert (Hnr : bool_decide (at_ (padded s) 0 = Some dot) && (len s =? 1) = false).
    { destruct s as [|x [|y s]]; [done| |].
      - injection Hdot as ->. done.
      - rewrite !len_cons. rewrite (proj2 (Z.eqb_neq _ _)) by (pose proof (len_nonneg s); lia). apply andb_false_r. }
    rewrite Hnr. pose proof (text_labels s (or_intror Hdot)) as Ht.
    replace (Z.to_nat (len s)) with (length (text (labels s))) by (rewrite Ht; unfold len; lia).
    pose proof (pack_labels grow h P (named s) (labels s) (labels_dot_free s) 0 msg c (Z.to_nat nameLen - length s)
      ltac:(lia) (or_introl eq_refl)) as Hp.
    rewrite Ht in *. apply Hp; [done|done|]. intros m key ptr Hm _. by apply Hg.
Qed.

(** After a packed name the map is as good as before. *)
Lemma packed_good h P msg c msg' c' x : grown msg msg' x -> good (seen h (data msg)) P c ->
  only_new (seen h (data msg')) (S P) c c' -> good (seen h (data msg')) (S P) c'.
Proof.
  intros Hx Hg [_ Hn] m key ptr Hc Hk. destruct (Hn m key ptr Hc Hk) as [(m0 & Hm0 & Hk0)|]; [|done].
  eapply entry_mono; [by eapply grown_seen| |by eapply Hg]. lia.
Qed.
