(* ===== verification/DnsMessage.v ===== *)
(** DNS messages, [dns/dnsmessage/message.go]: headers, questions, resources
    and [Message.Pack]. *)
From S2P Require Import Prelude.
From S2P Require Import DnsWire DnsName.

(** * Constants *)

Definition TypeA : Z := 1.
Definition TypeNS : Z := 2.
Definition TypeCNAME : Z := 5.
Definition TypeSOA : Z := 6.
Definition TypePTR : Z := 12.
Definition TypeMX : Z := 15.
Definition TypeTXT : Z := 16.
Definition TypeAAAA : Z := 28.
Definition TypeSRV : Z := 33.

Definition packStartingCap : Z := 512.
Definition headerLen : Z := 6 * uint16Len.

Definition sectionNotStarted : Z := 0.
Definition sectionHeader : Z := 1.
Definition sectionQuestions : Z := 2.
Definition sectionAnswers : Z := 3.
Definition sectionAuthorities : Z := 4.
Definition sectionAdditionals : Z := 5.
Definition sectionDone : Z := 6.

Definition headerBitQR : Z := Z.shiftl 1 15.
Definition headerBitAA : Z := Z.shiftl 1 10.
Definition headerBitTC : Z := Z.shiftl 1 9.
Definition headerBitRD : Z := Z.shiftl 1 8.
Definition headerBitRA : Z := Z.shiftl 1 7.

Definition sectionNames (sec : Z) : string :=
  if sec =? sectionHeader then "header"
  else if sec =? sectionQuestions then "Question"
  else if sec =? sectionAnswers then "Answer"
  else if sec =? sectionAuthorities then "Authority"
  else if sec =? sectionAdditionals then "Additional"
  else "".

(** * Headers *)

Record Header := mkHeader {
  ID : Z; Response : bool; OpCode : Z; Authoritative : bool; Truncated : bool;
  RecursionDesired : bool; RecursionAvailable : bool; RCode : Z }.

Definition Header_zero : Header := mkHeader 0 false 0 false false false false 0.

(** [Header.pack]. *)
Definition Header_pack (m : Header) : Z * Z :=
  let bits := Z.lor (shl 16 (OpCode m) 11) (RCode m) in
  let bits := if RecursionAvailable m then Z.lor bits headerBitRA else bits in
  let bits := if RecursionDesired m then Z.lor bits headerBitRD else bits in
  let bits := if Truncated m then Z.lor bits headerBitTC else bits in
  let bits := if Authoritative m then Z.lor bits headerBitAA else bits in
  let bits := if Response m then Z.lor bits headerBitQR else bits in
  (ID m, bits).

(** The wire header. *)
Record header := mkheader {
  h_id : Z; h_bits : Z; h_questions : Z; h_answers : Z; h_authorities : Z; h_additionals : Z }.

Definition header_zero : header := mkheader 0 0 0 0 0 0.

Definition set_id v h := mkheader v (h_bits h) (h_questions h) (h_answers h) (h_authorities h) (h_additionals h).
Definition set_bits v h := mkheader (h_id h) v (h_questions h) (h_answers h) (h_authorities h) (h_additionals h).
Definition set_questions v h := mkheader (h_id h) (h_bits h) v (h_answers h) (h_authorities h) (h_additionals h).
Definition set_answers v h := mkheader (h_id h) (h_bits h) (h_questions h) v (h_authorities h) (h_additionals h).
Definition set_authorities v h := mkheader (h_id h) (h_bits h) (h_questions h) (h_answers h) v (h_additionals h).
Definition set_additionals v h := mkheader (h_id h) (h_bits h) (h_questions h) (h_answers h) (h_authorities h) v.

Definition header_count (h : header) (sec : Z) : Z :=
  if sec =? sectionQuestions then h_questions h
  else if sec =? sectionAnswers then h_answers h
  else if sec =? sectionAuthorities then h_authorities h
  else if sec =? sectionAdditionals then h_additionals h
  else 0.

(** One field of [header.unpack]: a failure leaves a zero in the field. *)
Definition unpack_field (set : Z -> header -> header) (s : string) (msg : bytes) (st : dns Z * header) : dns Z * header :=
  match st with
  | (Ok off, h) =>
      match unpackUint16 msg off with
      | Ok (v, newOff) => (Ok newOff, set v h)
      | Fail e => (Fail (nestedError s e), set 0 h)
      | Panic => (Panic, h)
      end
  | st => st
  end.

(** [header.unpack] mutates its receiver, also when it fails. *)
Definition header_unpack (h : header) (msg : bytes) (off : Z) : dns Z * header :=
  let st := (Ok off, h) in
  let st := unpack_field set_id "id" msg st in
  let st := unpack_field set_bits "bits" msg st in
  let st := unpack_field set_questions "questions" msg st in
  let st := unpack_field set_answers "answers" msg st in
  let st := unpack_field set_authorities "authorities" msg st in
  unpack_field set_additionals "additionals" msg st.

Definition header_header (h : header) : Header :=
  let flag b := negb (Z.land (h_bits h) b =? 0) in
  mkHeader (h_id h) (flag headerBitQR) (Z.land (shr (h_bits h) 11) 15) (flag headerBitAA) (flag headerBitTC)
    (flag headerBitRD) (flag headerBitRA) (Z.land (h_bits h) 15).

(** * Resource headers *)

Record ResourceHeader := mkResourceHeader {
  rh_Name : Name; rh_Type : Z; rh_Class : Z; rh_TTL : Z; rh_Length : Z }.

#[global] Instance ResourceHeader_eq_dec : EqDecision ResourceHeader.
Proof. solve_decision. Defined.

Definition ResourceHeader_zero : ResourceHeader := mkResourceHeader Name_zero 0 0 0 0.

Definition with_type (t : Z) (h : ResourceHeader) : ResourceHeader :=
  mkResourceHeader (rh_Name h) t (rh_Class h) (rh_TTL h) (rh_Length h).
Definition with_length (l : Z) (h : ResourceHeader) : ResourceHeader :=
  mkResourceHeader (rh_Name h) (rh_Type h) (rh_Class h) (rh_TTL h) l.

Definition ResourceHeader_unpack (msg : bytes) (off : Z) : dns (ResourceHeader * Z) :=
  '(name, off) ← nest "Name" (Name_unpack msg off);
  '(typ, off) ← nest "Type" (unpackUint16 msg off);
  '(class, off) ← nest "Class" (unpackUint16 msg off);
  '(ttl, off) ← nest "TTL" (unpackUint32 msg off);
  '(length, off) ← nest "Length" (unpackUint16 msg off);
  Ok (mkResourceHeader name typ class ttl length, off).

Definition skipResource (msg : bytes) (off : Z) : dns Z :=
  off ← nest "Name" (skipName msg off);
  off ← nest "Type" (skipUint16 msg off);
  off ← nest "Class" (skipUint16 msg off);
  off ← nest "TTL" (skipUint32 msg off);
  '(length, off) ← nest "Length" (unpackUint16 msg off);
  let newOff := off + length in
  if len msg <? newOff then Fail errResourceLen else Ok newOff.

(** * Resource bodies *)

Inductive ResourceBody :=
| AResource (A : bytes)
| NSResource (NS : Name)
| CNAMEResource (CNAME : Name)
| SOAResource (NS MBox : Name) (Serial Refresh Retry Expire MinTTL : Z)
| PTRResource (PTR : Name)
| MXResource (Pref : Z) (MX : Name)
| TXTResource (Txt : bytes)
| AAAAResource (AAAA : bytes)
| SRVResource (Priority Weight Port : Z) (Target : Name).

#[global] Instance ResourceBody_eq_dec : EqDecision ResourceBody.
Proof. solve_decision. Defined.

Definition realType (r : ResourceBody) : Z :=
  match r with
  | AResource _ => TypeA
  | NSResource _ => TypeNS
  | CNAMEResource _ => TypeCNAME
  | SOAResource _ _ _ _ _ _ _ => TypeSOA
  | PTRResource _ => TypePTR
  | MXResource _ _ => TypeMX
  | TXTResource _ => TypeTXT
  | AAAAResource _ => TypeAAAA
  | SRVResource _ _ _ _ => TypeSRV
  end.

Definition unpackAResource (msg : bytes) (off : Z) : dns ResourceBody :=
  '(a, _) ← unpackBytes msg off 4; Ok (AResource a).
Definition unpackNSResource (msg : bytes) (off : Z) : dns ResourceBody :=
  '(ns, _) ← Name_unpack msg off; Ok (NSResource ns).
Definition unpackCNAMEResource (msg : bytes) (off : Z) : dns ResourceBody :=
  '(cname, _) ← Name_unpack msg off; Ok (CNAMEResource cname).
Definition unpackSOAResource (msg : bytes) (off : Z) : dns ResourceBody :=
  '(ns, off) ← nest "NS" (Name_unpack msg off);
  '(mbox, off) ← nest "MBox" (Name_unpack msg off);
  '(serial, off) ← nest "Serial" (unpackUint32 msg off);
  '(refresh, off) ← nest "Refresh" (unpackUint32 msg off);
  '(retry, off) ← nest "Retry" (unpackUint32 msg off);
  '(expire, off) ← nest "Expire" (unpackUint32 msg off);
  '(minTTL, _) ← nest "MinTTL" (unpackUint32 msg off);
  Ok (SOAResource ns mbox serial refresh retry expire minTTL).
Definition unpackPTRResource (msg : bytes) (off : Z) : dns ResourceBody :=
  '(ptr, _) ← Name_unpack msg off; Ok (PTRResource ptr).
Definition unpackMXResource (msg : bytes) (off : Z) : dns ResourceBody :=
  '(pref, off) ← nest "Pref" (unpackUint16 msg off);
  '(mx, _) ← nest "MX" (Name_unpack msg off);
  Ok (MXResource pref mx).

(** The loop of [unpackTXTResource]; [n] bytes of [length] are consumed. *)
Fixpoint txt_loop (fuel : nat) (msg : bytes) (off length n : Z) (txt : bytes) : dns bytes :=
  if n <? length then
    match fuel with
    | O => Panic
    | S fuel' =>
        '(t, off) ← nest "text" (unpackText msg off);
        if u16 (length - n) <? u16 (u16 (len t) + 1) then Fail errCalcLen
        else txt_loop fuel' msg off length (u16 (n + u16 (u16 (len t) + 1))) (txt ++ t)
    end
  else Ok txt.

Definition unpackTXTResource (msg : bytes) (off length : Z) : dns ResourceBody :=
  txt ← txt_loop (Z.to_nat length) msg off length 0 []; Ok (TXTResource txt).
Definition unpackAAAAResource (msg : bytes) (off : Z) : dns ResourceBody :=
  '(aaaa, _) ← unpackBytes msg off 16; Ok (AAAAResource aaaa).
Definition unpackSRVResource (msg : bytes) (off : Z) : dns ResourceBody :=
  '(priority, off) ← nest "Priority" (unpackUint16 msg off);
  '(weight, off) ← nest "Weight" (unpackUint16 msg off);
  '(port, off) ← nest "Port" (unpackUint16 msg off);
  '(target, _) ← nest "Target" (Name_unpack msg off);
  Ok (SRVResource priority weight port target).

(** The case analysis of [unpackResourceBody] on the header's type. *)
Definition unpack_body (msg : bytes) (off : Z) (hdr : ResourceHeader) : option (string * dns ResourceBody) :=
  let t := rh_Type hdr in
  if t =? TypeA then Some ("A", unpackAResource msg off)
  else if t =? TypeNS then Some ("NS", unpackNSResource msg off)
  else if t =? TypeCNAME then Some ("CNAME", unpackCNAMEResource msg off)
  else if t =? TypeSOA then Some ("SOA", unpackSOAResource msg off)
  else if t =? TypePTR then Some ("PTR", unpackPTRResource msg off)
  else if t =? TypeMX then Some ("MX", unpackMXResource msg off)
  else if t =? TypeTXT then Some ("TXT", unpackTXTResource msg off (rh_Length hdr))
  else if t =? TypeAAAA then Some ("AAAA", unpackAAAAResource msg off)
  else if t =? TypeSRV then Some ("SRV", unpackSRVResource msg off)
  else None.

Definition unpackResourceBody (msg : bytes) (off : Z) (hdr : ResourceHeader) : dns (ResourceBody * Z) :=
  match unpack_body msg off hdr with
  | Some (name, r) => r ← nest (name +:+ " record") r; Ok (r, off + rh_Length hdr)
  | None => Fail (invalidResourceType (rh_Type hdr))
  end.

Record Resource := mkResource { r_Header : ResourceHeader; r_Body : option ResourceBody }.
Record Question := mkQuestion { q_Name : Name; q_Type : Z; q_Class : Z }.

Record Message := mkMessage {
  m_Header : Header; Questions : list Question; Answers : list Resource;
  Authorities : list Resource; Additionals : list Resource }.

(** * Packing *)

(** The rest of a packing after a name. *)
Definition after_name (s : string) (r : dns buf * compression) (k : buf -> buf) : dns buf * compression :=
  match r with (Ok msg, c) => (Ok (k msg), c) | (r, c) => (nest s r, c) end.

Section pack.
Variable grow : Z -> Z -> Z.

(** [header.pack]. *)
Definition header_pack (h : header) (msg : buf) : buf :=
  let msg := packUint16 grow msg (h_id h) in
  let msg := packUint16 grow msg (h_bits h) in
  let msg := packUint16 grow msg (h_questions h) in
  let msg := packUint16 grow msg (h_answers h) in
  let msg := packUint16 grow msg (h_authorities h) in
  packUint16 grow msg (h_additionals h).

(** [ResourceHeader.pack] with the slice where the length stands: the array of
    the message at that time and the offset. *)
Definition ResourceHeader_pack (h : ResourceHeader) (msg : buf) (c : compression) : dns (buf * (Z * Z)) * compression :=
  match Name_pack grow (rh_Name h) msg c with
  | (Ok msg, c) =>
      let msg := packUint16 grow msg (rh_Type h) in
      let msg := packUint16 grow msg (rh_Class h) in
      let msg := packUint32 grow msg (rh_TTL h) in
      let lenBegin := len (data msg) in
      let msg := packUint16 grow msg (rh_Length h) in
      (Ok (msg, (array msg, lenBegin)), c)
  | (Fail e, c) => (Fail (nestedError "Name" e), c)
  | (Panic, c) => (Panic, c)
  end.

(** [ResourceHeader.fixLen] writes through the slice [length]. *)
Definition fixLen (h : ResourceHeader) (msg : buf) (length : Z * Z) (preLen : Z) : dns (buf * ResourceHeader) :=
  let conLen := len (data msg) - preLen in
  if 65535 <? conLen then Fail errResTooLong
  else Ok (write_at (fst length) (snd length) [u8 (shr (u16 conLen) 8); u8 (u16 conLen)] msg, with_length (u16 conLen) h).

Definition AResource_pack (a : bytes) (msg : buf) (c : compression) : dns buf * compression :=
  (Ok (packBytes grow msg a), c).
Definition AAAAResource_pack (aaaa : bytes) (msg : buf) (c : compression) : dns buf * compression :=
  (Ok (packBytes grow msg aaaa), c).
Definition NSResource_pack (ns : Name) := Name_pack grow ns.
Definition CNAMEResource_pack (cname : Name) := Name_pack grow cname.
Definition PTRResource_pack (ptr : Name) := Name_pack grow ptr.

Definition SOAResource_pack (ns mbox : Name) (serial refresh retry expire minTTL : Z) (msg : buf) (c : compression)
    : dns buf * compression :=
  match Name_pack grow ns msg c with
  | (Ok msg, c) =>
      after_name "SOAResource.MBox" (Name_pack grow mbox msg c) (fun msg =>
        let msg := packUint32 grow msg serial in
        let msg := packUint32 grow msg refresh in
        let msg := packUint32 grow msg retry in
        let msg := packUint32 grow msg expire in
        packUint32 grow msg minTTL)
  | (r, c) => (nest "SOAResource.NS" r, c)
  end.

Definition MXResource_pack (pref : Z) (mx : Name) (msg : buf) (c : compression) : dns buf * compression :=
  let msg := packUint16 grow msg pref in
  after_name "MXResource.MX" (Name_pack grow mx msg c) id.

Definition TXTResource_pack (txt : bytes) (msg : buf) (c : compression) : dns buf * compression :=
  (or_panic (packText grow msg txt), c).

(** The target is packed with a nil map. *)
Definition SRVResource_pack (priority weight port : Z) (target : Name) (msg : buf) (c : compression) : dns buf * compression :=
  let msg := packUint16 grow msg priority in
  let msg := packUint16 grow msg weight in
  let msg := packUint16 grow msg port in
  (fst (after_name "SRVResource.Target" (Name_pack grow target msg None) id), c).

(** [ResourceBody.pack]. *)
Definition body_pack (r : ResourceBody) : buf -> compression -> dns buf * compression :=
  match r with
  | AResource a => AResource_pack a
  | NSResource ns => NSResource_pack ns
  | CNAMEResource cname => CNAMEResource_pack cname
  | SOAResource ns mbox serial refresh retry expire minTTL =>
      SOAResource_pack ns mbox serial refresh retry expire minTTL
  | PTRResource ptr => PTRResource_pack ptr
  | MXResource pref mx => MXResource_pack pref mx
  | TXTResource txt => TXTResource_pack txt
  | AAAAResource aaaa => AAAAResource_pack aaaa
  | SRVResource priority weight port target => SRVResource_pack priority weight port target
  end.

(** [Resource.pack]: it fills in the type and the length of its receiver. *)
Definition Resource_pack (r : Resource) (msg : buf) (c : compression) : dns buf * compression * Resource :=
  match r_Body r with
  | None => (Fail errNilResouceBody, c, r)
  | Some body =>
      let r := mkResource (with_type (realType body) (r_Header r)) (Some body) in
      match ResourceHeader_pack (r_Header r) msg c with
      | (Ok (msg, length), c) =>
          let preLen := len (data msg) in
          match body_pack body msg c with
          | (Ok msg, c) =>
              match fixLen (r_Header r) msg length preLen with
              | Ok (msg, h) => (Ok msg, c, mkResource h (Some body))
              | Fail e => (Fail e, c, r)
              | Panic => (Panic, c, r)
              end
          | (Fail e, c) => (Fail (nestedError "content" e), c, r)
          | (Panic, c) => (Panic, c, r)
          end
      | (Fail e, c) => (Fail (nestedError "ResourceHeader" e), c, r)
      | (Panic, c) => (Panic, c, r)
      end
  end.

Definition Question_pack (q : Question) (msg : buf) (c : compression) : dns buf * compression :=
  after_name "Name" (Name_pack grow (q_Name q) msg c) (fun msg =>
    let msg := packUint16 grow msg (q_Type q) in packUint16 grow msg (q_Class q)).

Fixpoint pack_questions (qs : list Question) (msg : buf) (c : compression) : dns buf * compression :=
  match qs with
  | [] => (Ok msg, c)
  | q :: qs =>
      match Question_pack q msg c with
      | (Ok msg, c) => pack_questions qs msg c
      | (r, c) => (nest "packing Question" r, c)
      end
  end.

(** One of the three loops over resources; [s] is its error context. *)
Fixpoint pack_resources (s : string) (rs : list Resource) (msg : buf) (c : compression) : dns buf * compression * list Resource :=
  match rs with
  | [] => (Ok msg, c, [])
  | r :: rs =>
      match Resource_pack r msg c with
      | (Ok msg, c, r) => let '(res, c, rs) := pack_resources s rs msg c in (res, c, r :: rs)
      | (res, c, r) => (nest s res, c, r :: rs)
      end
  end.

(** [Message.Pack] with the message as it leaves it. *)
Definition Message_Pack (m : Message) : dns bytes * Message :=
  if 65535 <? len (Questions m) then (Fail errTooManyQuestions, m)
  else if 65535 <? len (Answers m) then (Fail errTooManyAnswers, m)
  else if 65535 <? len (Authorities m) then (Fail errTooManyAuthorities, m)
  else if 65535 <? len (Additionals m) then (Fail errTooManyAdditionals, m)
  else
    let '(id, bits) := Header_pack (m_Header m) in
    let h := mkheader id bits (u16 (len (Questions m))) (u16 (len (Answers m)))
      (u16 (len (Authorities m))) (u16 (len (Additionals m))) in
    let msg := header_pack h (mkBuf [] packStartingCap 0) in
    match pack_questions (Questions m) msg (Some ∅) with
    | (Ok msg, c) =>
        let '(r, c, as_) := pack_resources "packing Answer" (Answers m) msg c in
        let m := mkMessage (m_Header m) (Questions m) as_ (Authorities m) (Additionals m) in
        match r with
        | Ok msg =>
            let '(r, c, us) := pack_resources "packing Authority" (Authorities m) msg c in
            let m := mkMessage (m_Header m) (Questions m) as_ us (Additionals m) in
            match r with
            | Ok msg =>
                let '(r, c, ds) := pack_resources "packing Additional" (Additionals m) msg c in
                (data <$> r, mkMessage (m_Header m) (Questions m) as_ us ds)
            | r => (data <$> r, m)
            end
        | r => (data <$> r, m)
        end
    | (r, _) => (data <$> r, m)
    end.
End pack.
