(* ===== verification/DnsParser.v ===== *)
(** The incremental [Parser] of [dns/dnsmessage/message.go] and
    [Message.Unpack]. *)
From S2P Require Import Prelude.
From S2P Require Import DnsWire DnsName DnsMessage.

(** * State *)

(** [p_msg] is [None] for the nil slice. *)
Record Parser := mkParser {
  p_msg : option bytes; p_header : header; p_section : Z; p_off : Z; p_index : Z;
  p_resHeaderValid : bool; p_resHeader : ResourceHeader }.

Definition Parser_zero : Parser := mkParser None header_zero sectionNotStarted 0 0 false ResourceHeader_zero.

Definition bytes_of (p : Parser) : bytes := default [] (p_msg p).

Definition with_off (off : Z) (p : Parser) : Parser :=
  mkParser (p_msg p) (p_header p) (p_section p) off (p_index p) (p_resHeaderValid p) (p_resHeader p).
Definition next_index (p : Parser) : Parser :=
  mkParser (p_msg p) (p_header p) (p_section p) (p_off p) (p_index p + 1) (p_resHeaderValid p) (p_resHeader p).
Definition drop_pending (p : Parser) : Parser :=
  mkParser (p_msg p) (p_header p) (p_section p) (p_off p) (p_index p) false (p_resHeader p).
Definition remember (h : ResourceHeader) (p : Parser) : Parser :=
  mkParser (p_msg p) (p_header p) (p_section p) (p_off p) (p_index p) true h.
Definition next_section (p : Parser) : Parser :=
  mkParser (p_msg p) (p_header p) (u8 (p_section p + 1)) (p_off p) 0 (p_resHeaderValid p) (p_resHeader p).

(** A method returns its result and leaves its receiver in a new state. *)
Definition method A := Parser -> dns A * Parser.

Definition andThen {A B} (m : method A) (k : A -> method B) : method B := fun p =>
  match m p with
  | (Ok a, p) => k a p
  | (Fail e, p) => (Fail e, p)
  | (Panic, p) => (Panic, p)
  end.

(** A call that only reads the message. *)
Definition reads {A} (f : bytes -> Z -> dns A) : method A := fun p => (f (bytes_of p) (p_off p), p).

Definition update (f : Parser -> Parser) : method unit := fun p => (Ok tt, f p).
Definition return_ {A} (a : A) : method A := fun p => (Ok a, p).

Declare Scope method_scope.
Delimit Scope method_scope with method.
Notation "'let!' x := m 'in' k" := (andThen m (fun x => k)) (at level 10, x pattern, m at level 100, k at level 200) : method_scope.
Open Scope method_scope.

(** * Operations *)

(** [Parser.Start]. *)
Definition Start (msg : option bytes) (p : Parser) : dns Header * Parser :=
  let p := match p_msg p with Some _ => Parser_zero | None => p end in
  let '(r, h) := header_unpack (p_header p) (default [] msg) 0 in
  let off := match r with Ok off => off | _ => 0 end in
  let p := mkParser msg h (p_section p) off (p_index p) (p_resHeaderValid p) (p_resHeader p) in
  match r with
  | Ok _ =>
      (Ok (header_header h), mkParser msg h sectionQuestions off (p_index p) (p_resHeaderValid p) (p_resHeader p))
  | Fail e => (Fail (nestedError "unpacking header" e), p)
  | Panic => (Panic, p)
  end.

Definition checkAdvance (sec : Z) : method unit := fun p =>
  if p_section p <? sec then (Fail ErrNotStarted, p)
  else if sec <? p_section p then (Fail ErrSectionDone, p)
  else
    let p := drop_pending p in
    if p_index p =? header_count (p_header p) sec then (Fail ErrSectionDone, next_section p)
    else (Ok tt, p).

Definition resourceHeader (sec : Z) : method ResourceHeader := fun p =>
  if p_resHeaderValid p then (Ok (p_resHeader p), p)
  else
    (let! _ := checkAdvance sec in
     let! (hdr, off) := reads ResourceHeader_unpack in
     let! _ := update (fun p => with_off off (remember hdr p)) in
     return_ hdr) p.

Definition resource (sec : Z) : method Resource :=
  let! hdr := resourceHeader sec in
  let! _ := update drop_pending in
  let! (body, off) := reads (fun msg off => nest ("unpacking " +:+ sectionNames sec) (unpackResourceBody msg off hdr)) in
  let! _ := update (fun p => next_index (with_off off p)) in
  return_ (mkResource hdr (Some body)).

Definition Parser_skipResource (sec : Z) : method unit := fun p =>
  if p_resHeaderValid p then
    let newOff := p_off p + rh_Length (p_resHeader p) in
    if len (bytes_of p) <? newOff then (Fail errResourceLen, p)
    else (Ok tt, next_index (drop_pending (with_off newOff p)))
  else
    (let! _ := checkAdvance sec in
     let! off := reads (fun msg off => nest ("skipping: " +:+ sectionNames sec) (skipResource msg off)) in
     update (fun p => next_index (with_off off p))) p.

Definition unpack_question (msg : bytes) (off : Z) : dns (Question * Z) :=
  '(name, off) ← nest "unpacking Question.Name" (Name_unpack msg off);
  '(typ, off) ← nest "unpacking Question.Type" (unpackUint16 msg off);
  '(class, off) ← nest "unpacking Question.Class" (unpackUint16 msg off);
  Ok (mkQuestion name typ class, off).

Definition Parser_Question : method Question :=
  let! _ := checkAdvance sectionQuestions in
  let! (q, off) := reads unpack_question in
  let! _ := update (fun p => next_index (with_off off p)) in
  return_ q.

Definition skip_question (msg : bytes) (off : Z) : dns Z :=
  off ← nest "skipping Question Name" (skipName msg off);
  off ← nest "skipping Question Type" (skipUint16 msg off);
  nest "skipping Question Class" (skipUint16 msg off).

Definition SkipQuestion : method unit :=
  let! _ := checkAdvance sectionQuestions in
  let! off := reads skip_question in
  update (fun p => next_index (with_off off p)).

(** The loop of the [AllXs] methods, until [ErrSectionDone]. *)
Fixpoint all_loop {A} (fuel : nat) (op : method A) (acc : list A) (p : Parser) : dns (list A) * Parser :=
  match fuel with
  | O => (Panic, p)
  | S fuel' =>
      match op p with
      | (Fail ErrSectionDone, p) => (Ok acc, p)
      | (Fail e, p) => (Fail e, p)
      | (Ok a, p) => all_loop fuel' op (acc ++ [a]) p
      | (Panic, p) => (Panic, p)
      end
  end.

Fixpoint skip_loop (fuel : nat) (op : method unit) (p : Parser) : dns unit * Parser :=
  match fuel with
  | O => (Panic, p)
  | S fuel' =>
      match op p with
      | (Fail ErrSectionDone, p) => (Ok tt, p)
      | (Fail e, p) => (Fail e, p)
      | (Ok _, p) => skip_loop fuel' op p
      | (Panic, p) => (Panic, p)
      end
  end.

(** One round per resource that is left, one for a pending header of another
    section, one to see the end. *)
Definition all_fuel (sec : Z) (p : Parser) : nat := Z.to_nat (header_count (p_header p) sec) + 2.

Definition all_of {A} (sec : Z) (op : method A) : method (list A) := fun p => all_loop (all_fuel sec p) op [] p.
Definition skip_all_of (sec : Z) (op : method unit) : method unit := fun p => skip_loop (all_fuel sec p) op p.

Definition AllQuestions := all_of sectionQuestions Parser_Question.
Definition SkipAllQuestions := skip_all_of sectionQuestions SkipQuestion.

Definition AnswerHeader := resourceHeader sectionAnswers.
Definition Answer := resource sectionAnswers.
Definition AllAnswers := all_of sectionAnswers Answer.
Definition SkipAnswer := Parser_skipResource sectionAnswers.
Definition SkipAllAnswers := skip_all_of sectionAnswers SkipAnswer.

Definition AuthorityHeader := resourceHeader sectionAuthorities.
Definition Authority := resource sectionAuthorities.
Definition AllAuthorities := all_of sectionAuthorities Authority.
Definition SkipAuthority := Parser_skipResource sectionAuthorities.
Definition SkipAllAuthorities := skip_all_of sectionAuthorities SkipAuthority.

Definition AdditionalHeader := resourceHeader sectionAdditionals.
Definition Additional := resource sectionAdditionals.
Definition AllAdditionals := all_of sectionAdditionals Additional.
Definition SkipAdditional := Parser_skipResource sectionAdditionals.
Definition SkipAllAdditionals := skip_all_of sectionAdditionals SkipAdditional.

(** The methods that parse a body of a known type behind its header. *)
Definition typed_resource (t : Z) (unpack : bytes -> Z -> Z -> dns ResourceBody) : method ResourceBody := fun p =>
  if negb (p_resHeaderValid p) || negb (rh_Type (p_resHeader p) =? t) then (Fail ErrNotStarted, p)
  else
    (let! r := reads (fun msg off => unpack msg off (rh_Length (p_resHeader p))) in
     let! _ := update (fun p => next_index (drop_pending (with_off (p_off p + rh_Length (p_resHeader p)) p))) in
     return_ r) p.

Definition Parser_CNAMEResource := typed_resource TypeCNAME (fun msg off _ => unpackCNAMEResource msg off).
Definition Parser_MXResource := typed_resource TypeMX (fun msg off _ => unpackMXResource msg off).
Definition Parser_NSResource := typed_resource TypeNS (fun msg off _ => unpackNSResource msg off).
Definition Parser_PTRResource := typed_resource TypePTR (fun msg off _ => unpackPTRResource msg off).
Definition Parser_SOAResource := typed_resource TypeSOA (fun msg off _ => unpackSOAResource msg off).
Definition Parser_TXTResource := typed_resource TypeTXT unpackTXTResource.
Definition Parser_SRVResource := typed_resource TypeSRV (fun msg off _ => unpackSRVResource msg off).
Definition Parser_AResource := typed_resource TypeA (fun msg off _ => unpackAResource msg off).
Definition Parser_AAAAResource := typed_resource TypeAAAA (fun msg off _ => unpackAAAAResource msg off).

(** [Message.Unpack]; a section that fails is left nil, the later ones as they
    were. *)
Definition Message_Unpack (m : Message) (msg : option bytes) : dns unit * Message :=
  let '(r, p) := Start msg Parser_zero in
  let m := mkMessage (match r with Ok h => h | _ => Header_zero end) (Questions m) (Answers m) (Authorities m) (Additionals m) in
  match r with
  | Ok _ =>
      let '(r, p) := AllQuestions p in
      let m := mkMessage (m_Header m) (match r with Ok qs => qs | _ => [] end) (Answers m) (Authorities m) (Additionals m) in
      match r with
      | Ok _ =>
          let '(r, p) := AllAnswers p in
          let m := mkMessage (m_Header m) (Questions m) (match r with Ok rs => rs | _ => [] end) (Authorities m) (Additionals m) in
          match r with
          | Ok _ =>
              let '(r, p) := AllAuthorities p in
              let m := mkMessage (m_Header m) (Questions m) (Answers m) (match r with Ok rs => rs | _ => [] end) (Additionals m) in
              match r with
              | Ok _ =>
                  let '(r, p) := AllAdditionals p in
                  (const tt <$> r, mkMessage (m_Header m) (Questions m) (Answers m) (Authorities m) (match r with Ok rs => rs | _ => [] end))
              | r => (const tt <$> r, m)
              end
          | r => (const tt <$> r, m)
          end
      | r => (const tt <$> r, m)
      end
  | r => (const tt <$> r, m)
  end.
