(* ===== verification/DnsParserSafe.v ===== *)
(** The DNS [Parser] on arbitrary bytes: it returns, keeps its invariant and
    only moves forward; skipping agrees with parsing. *)
From S2P Require Import Prelude.
From S2P Require Import DnsWire DnsName DnsMessage DnsParser.

(** * What parsing functions return *)

Lemma ResourceHeader_unpack_returns msg off : bytes_ok msg -> 0 <= off ->
  returns (ResourceHeader_unpack msg off) (fun '(h, off') =>
    off < off' <= len msg /\ name_ok (rh_Name h) /\ in_width 16 (rh_Type h) /\ in_width 16 (rh_Length h)).
Proof.
  intros Hm Ho. unfold ResourceHeader_unpack.
  eapply returns_bind; [apply returns_nest, Name_unpack_safe; [done|lia]|]. intros [n o1] (Hn & _ & H1).
  eapply returns_bind; [apply returns_nest, unpackUint16_returns; [done|lia]|]. intros [t o2] (Ht & -> & H2).
  eapply returns_bind; [apply returns_nest, unpackUint16_returns; [done|lia]|]. intros [c o3] (Hc & -> & H3).
  eapply returns_bind; [apply returns_nest, unpackUint32_returns; [done|lia]|]. intros [ttl o4] (Httl & -> & H4).
  eapply returns_bind; [apply returns_nest, unpackUint16_returns; [done|lia]|]. intros [l o5] (Hl & -> & H5).
  cbn. split_and!; try done; lia.
Qed.

Lemma skipResource_returns msg off : bytes_ok msg -> 0 <= off ->
  returns (skipResource msg off) (fun off' => off < off' <= len msg).
Proof.
  intros Hm Ho. unfold skipResource.
  eapply returns_bind; [apply returns_nest, skipName_safe; [done|lia]|]. intros o1 H1; cbv beta in H1.
  eapply returns_bind; [apply returns_nest, skipUint16_returns|]. intros o2 [-> H2].
  eapply returns_bind; [apply returns_nest, skipUint16_returns|]. intros o3 [-> H3].
  eapply returns_bind; [apply returns_nest, skipUint32_returns|]. intros o4 [-> H4].
  eapply returns_bind; [apply returns_nest, unpackUint16_returns; [done|lia]|]. intros [l o5] ([Hl _] & -> & H5).
  destruct (Z.ltb_spec (len msg) (o1 + 2 + 2 + 4 + 2 + l)); [done|]. cbn. lia.
Qed.

Lemma txt_loop_returns msg length : bytes_ok msg -> in_width 16 length -> forall fuel off n txt,
  0 <= off -> 0 <= n -> length - n <= Z.of_nat fuel -> returns (txt_loop fuel msg off length n txt) (fun _ => True).
Proof.
  intros Hm Hl. induction fuel as [|fuel IH]; intros off n txt Ho Hn Hf; cbn [txt_loop].
  { destruct (Z.ltb_spec n length); [lia|done]. }
  destruct (Z.ltb_spec n length); [|done].
  eapply returns_bind; [apply returns_nest, unpackText_returns; [done|lia]|]. intros [t o1] ((-> & H1) & Ht & _).
  pose proof (len_nonneg t). unfold in_width in Hl.
  assert (Hw : forall z, 0 <= z < 2 ^ 16 -> u16 z = z) by (intros; by apply wrap_id).
  rewrite (Hw (len t)), (Hw (length - n)), (Hw (len t + 1)) by lia.
  destruct (Z.ltb_spec (length - n) (len t + 1)); [done|]. rewrite Hw by lia.
  apply IH; lia.
Qed.

Lemma unpackResourceBody_returns msg off hdr : bytes_ok msg -> 0 <= off -> in_width 16 (rh_Length hdr) ->
  returns (unpackResourceBody msg off hdr) (fun r1 => snd r1 = off + rh_Length hdr).
Proof.
  intros Hm Ho Hl.
  assert (Hname : returns (Name_unpack msg off) (fun _ => True)).
  { eapply returns_mono; [by apply Name_unpack_safe|done]. }
  assert (Hrest : forall name (r : dns ResourceBody), returns r (fun _ => True) ->
    returns (r0 ← nest name r; Ok (r0, off + rh_Length hdr)) (fun r1 => snd r1 = off + rh_Length hdr)).
  { intros name r Hr. eapply returns_bind; [by apply returns_nest|]. done. }
  unfold unpackResourceBody, unpack_body.
  repeat (destruct (_ =? _); [apply Hrest|]); [..|done].
  - eapply returns_bind; [by apply unpackBytes_returns|]. by intros [].
  - eapply returns_bind; [done|]. by intros [].
  - eapply returns_bind; [done|]. by intros [].
  - unfold unpackSOAResource.
    eapply returns_bind; [by apply returns_nest, Name_unpack_safe|]. intros [n1 o1] (_ & _ & H1).
    eapply returns_bind; [apply returns_nest, Name_unpack_safe; [done|lia]|]. intros [n2 o2] (_ & _ & H2).
    do 5 (eapply returns_bind; [apply returns_nest, unpackUint32_returns; [done|lia]|]; intros [? ?] (_ & -> & ?)). done.
  - eapply returns_bind; [done|]. by intros [].
  - unfold unpackMXResource.
    eapply returns_bind; [by apply returns_nest, unpackUint16_returns|]. intros [? ?] (_ & -> & ?).
    eapply returns_bind; [apply returns_nest, Name_unpack_safe; [done|lia]|]. by intros [].
  - eapply returns_bind; [apply txt_loop_returns; [done|done|done|lia|]|done]. destruct Hl. lia.
  - eapply returns_bind; [by apply unpackBytes_returns|]. by intros [].
  - unfold unpackSRVResource.
    do 3 (eapply returns_bind; [apply returns_nest, unpackUint16_returns; [done|lia]|]; intros [? ?] (_ & -> & ?)).
    eapply returns_bind; [apply returns_nest, Name_unpack_safe; [done|lia]|]. by intros [].
Qed.

Lemma unpack_question_returns msg off : bytes_ok msg -> 0 <= off ->
  returns (unpack_question msg off) (fun '(q, off') => off < off' <= len msg /\ name_ok (q_Name q)).
Proof.
  intros Hm Ho. unfold unpack_question.
  eapply returns_bind; [by apply returns_nest, Name_unpack_safe|]. intros [n o1] (Hn & _ & H1).
  eapply returns_bind; [apply returns_nest, unpackUint16_returns; [done|lia]|]. intros [t o2] (Ht & -> & H2).
  eapply returns_bind; [apply returns_nest, unpackUint16_returns; [done|lia]|]. intros [c o3] (Hc & -> & H3).
  cbn. split; [lia|done].
Qed.

Lemma skip_question_returns msg off : bytes_ok msg -> 0 <= off ->
  returns (skip_question msg off) (fun off' => off < off' <= len msg).
Proof.
  intros Hm Ho. unfold skip_question.
  eapply returns_bind; [by apply returns_nest, skipName_safe|]. intros o1 H1; cbv beta in H1.
  eapply returns_bind; [apply returns_nest, skipUint16_returns|]. intros o2 [-> H2].
  eapply returns_mono; [apply returns_nest, skipUint16_returns|]. intros o3 [-> H3]. lia.
Qed.

(** * The parser's invariant *)

Definition counts_ok (h : header) : Prop :=
  in_width 16 (h_questions h) /\ in_width 16 (h_answers h) /\ in_width 16 (h_authorities h) /\ in_width 16 (h_additionals h).

(** A started parser is within its section, and a pending header belongs to a
    resource that is still to come. *)
Record parser_ok (p : Parser) : Prop := {
  ok_msg : bytes_ok (bytes_of p);
  ok_counts : counts_ok (p_header p);
  ok_off : 0 <= p_off p;
  ok_section : p_section p = sectionNotStarted \/ sectionQuestions <= p_section p <= sectionDone;
  ok_index : 0 <= p_index p <= header_count (p_header p) (p_section p);
  ok_pending : p_resHeaderValid p = true ->
    sectionAnswers <= p_section p <= sectionAdditionals /\
    p_index p < header_count (p_header p) (p_section p) /\ in_width 16 (rh_Length (p_resHeader p));
  ok_nil : p_msg p = None -> p_section p = sectionNotStarted }.

(** Later states of a parser: the same message, the same or a later section. *)
Record later (p p' : Parser) : Prop := {
  later_msg : p_msg p' = p_msg p;
  later_header : p_header p' = p_header p;
  later_section : p_section p <= p_section p';
  later_index : p_section p' = p_section p -> p_index p <= p_index p';
  later_off : p_off p <= p_off p' }.

Lemma later_refl p : later p p.
Proof. split; done || lia. Qed.

Lemma later_trans p q r : later p q -> later q r -> later p r.
Proof.
  intros [m1 h1 s1 i1 o1] [m2 h2 s2 i2 o2]. split; [congruence|congruence|lia| |lia].
  intros Hs. assert (p_section q = p_section p) by lia. etrans; [by apply i1|]. apply i2. congruence.
Qed.

(** The resources a loop over the section [sec] can still return. *)
Definition left_in (sec : Z) (p : Parser) : Z :=
  if p_section p =? sec then header_count (p_header p) sec - p_index p
  else if p_resHeaderValid p then 1 else 0.

(** A method that cannot panic from a good state; [Q] holds of what it returns
    and every state it leaves is good and later. *)
Definition safe {A} (m : method A) (Q : Parser -> A -> Parser -> Prop) : Prop := forall p, parser_ok p ->
  match m p with
  | (Ok a, p') => Q p a p' /\ parser_ok p' /\ later p p'
  | (Fail _, p') => parser_ok p' /\ later p p'
  | (Panic, _) => False
  end.

Lemma header_count_nonneg h sec : counts_ok h -> 0 <= header_count h sec < 2 ^ 16.
Proof.
  unfold counts_ok, header_count, in_width. intros (H1 & H2 & H3 & H4).
  repeat (destruct (_ =? _); [lia|]). lia.
Qed.

(** The section advances behind the last element. *)
Lemma checkAdvance_spec sec p : parser_ok p -> sectionQuestions <= sec <= sectionAdditionals ->
  match checkAdvance sec p with
  | (Ok _, p') => p' = drop_pending p /\ p_section p = sec /\ p_index p < header_count (p_header p) sec
  | (Fail e, p') => parser_ok p' /\ later p p' /\ (p' = p \/ p' = next_section (drop_pending p))
  | (Panic, _) => False
  end.
Proof.
  intros [Hm Hc Ho Hs Hi Hp Hnil] Hsec. unfold checkAdvance.
  destruct (Z.ltb_spec (p_section p) sec); [split_and!; [done|apply later_refl|by left]|].
  destruct (Z.ltb_spec sec (p_section p)); [split_and!; [done|apply later_refl|by left]|].
  assert (p_section p = sec) as <- by lia. cbn [drop_pending p_index p_header].
  destruct (Z.eqb_spec (p_index p) (header_count (p_header p) (p_section p))) as [He|Hne].
  - unfold sectionQuestions, sectionAdditionals, sectionNotStarted, sectionDone in *.
    assert (Hu : u8 (p_section p + 1) = p_section p + 1) by (apply wrap_id; unfold in_width; lia).
    pose proof (header_count_nonneg (p_header p) (p_section p + 1) Hc).
    split_and!; [| |by right]; split; cbn; rewrite ?Hu; unfold sectionQuestions, sectionNotStarted, sectionDone; try done; try lia.
    intros Hn%Hnil. lia.
  - split_and!; [done|done|lia].
Qed.

(** Moving behind an element: [p'] differs from [p] in its offset, its index
    and in that no header is pending. *)
Definition behind (off : Z) (p : Parser) : Parser := next_index (with_off off (drop_pending p)).

Lemma behind_ok sec off p : parser_ok p ->
  sectionQuestions <= p_section p <= sectionAdditionals -> p_index p < header_count (p_header p) (p_section p) ->
  p_resHeaderValid p = true \/ p_section p = sec -> p_off p <= off ->
  parser_ok (behind off p) /\ later p (behind off p) /\ left_in sec (behind off p) < left_in sec p.
Proof.
  intros [Hm Hc Ho Hs Hi Hp Hnil] Hsec Hlt Hv Hoff. unfold left_in, behind. split_and!.
  - split; cbn; try done; lia.
  - split; cbn; done || lia.
  - cbn. destruct (Z.eqb_spec (p_section p) sec) as [<-|Hne]; [lia|]. destruct Hv as [->|]; [lia|done].
Qed.

Lemma behind_invalidate off p : next_index (with_off off (drop_pending p)) = behind off p.
Proof. done. Qed.

Lemma left_in_nonneg sec p : parser_ok p -> 0 <= left_in sec p.
Proof.
  intros [_ _ _ _ Hi _ _]. unfold left_in. destruct (Z.eqb_spec (p_section p) sec) as [<-|]; [lia|].
  by destruct (p_resHeaderValid p).
Qed.

(** An element of the current section, read by [f]. *)
Lemma element_safe {A} sec (f : bytes -> Z -> dns (A * Z)) : sectionQuestions <= sec <= sectionAdditionals ->
  (forall msg off, bytes_ok msg -> 0 <= off -> returns (f msg off) (fun r => off <= snd r)) ->
  safe (let! _ := checkAdvance sec in
        let! (a, off) := reads f in
        let! _ := update (fun p => next_index (with_off off p)) in return_ a)
    (fun p _ p' => left_in sec p' < left_in sec p).
Proof.
  intros Hsec Hf p Hp. pose proof (checkAdvance_spec sec p Hp Hsec) as Hc. unfold andThen.
  destruct (checkAdvance sec p) as [[u|e|] p']; [|by destruct Hc as (? & ? & _)|done].
  destruct Hc as (-> & Hs & Hi). unfold reads, update, return_.
  specialize (Hf (bytes_of p) (p_off p) (ok_msg _ Hp) (ok_off _ Hp)).
  change (bytes_of (drop_pending p)) with (bytes_of p). change (p_off (drop_pending p)) with (p_off p).
  destruct (f _ _) as [[a off]|e|]; cbn [returns snd] in Hf; [| |done].
  - rewrite behind_invalidate. rewrite <- Hs in Hsec, Hi. edestruct (behind_ok sec off p) as (? & ? & ?); eauto.
  - destruct Hp as [Hm Hcs Ho Hsc Hix Hpe Hnil]. split; split; cbn; done || lia.
Qed.

Lemma resourceHeader_safe sec : sectionAnswers <= sec <= sectionAdditionals ->
  safe (resourceHeader sec) (fun p hdr p' => p_resHeaderValid p' = true /\ p_resHeader p' = hdr /\
    left_in sec p' = left_in sec p).
Proof.
  intros Hsec p Hp. unfold resourceHeader. destruct (p_resHeaderValid p) eqn:Hv.
  { split_and!; [done|done|done|done|apply later_refl]. }
  pose proof (checkAdvance_spec sec p Hp ltac:(unfold sectionAnswers, sectionQuestions in *; lia)) as Hc. unfold andThen.
  destruct (checkAdvance sec p) as [[u|e|] p']; [|by destruct Hc as (? & ? & _)|done].
  destruct Hc as (-> & Hs & Hi). unfold reads, update, return_.
  pose proof (ResourceHeader_unpack_returns (bytes_of p) (p_off p) (ok_msg _ Hp) (ok_off _ Hp)) as Hf.
  change (bytes_of (drop_pending p)) with (bytes_of p). change (p_off (drop_pending p)) with (p_off p).
  destruct Hp as [Hm Hcs Ho Hsc Hix Hpe Hnil].
  destruct (ResourceHeader_unpack _ _) as [[hdr off]|e|]; cbn [returns] in Hf; [| |done].
  - destruct Hf as (Hoff & _ & _ & Hl). split_and!; [done|done| |split|split]; cbn; try done; try lia.
    + unfold left_in. cbn. rewrite Hv, Hs. by rewrite Z.eqb_refl.
    + intros _. rewrite <- Hs in Hsec, Hi. done.
  - split; split; cbn; done || lia.
Qed.

Lemma resource_safe sec : sectionAnswers <= sec <= sectionAdditionals ->
  safe (resource sec) (fun p _ p' => left_in sec p' < left_in sec p).
Proof.
  intros Hsec p Hp. unfold resource. unfold andThen at 1. pose proof (resourceHeader_safe sec Hsec p Hp) as Hh.
  destruct (resourceHeader sec p) as [[hdr|e|] q]; [|done|done].
  destruct Hh as ((Hv & Hhdr & Hleft) & Hq & Hl). destruct (ok_pending _ Hq Hv) as (Hsq & Hiq & Hw).
  unfold andThen, update, reads, return_.
  change (bytes_of (drop_pending q)) with (bytes_of q). change (p_off (drop_pending q)) with (p_off q).
  pose proof (unpackResourceBody_returns (bytes_of q) (p_off q) hdr (ok_msg _ Hq) (ok_off _ Hq)) as Hb.
  rewrite Hhdr in Hw. specialize (Hb Hw).
  destruct (unpackResourceBody _ _ _) as [[b off]|e|]; cbn [nest returns snd] in *; [| |done].
  - rewrite behind_invalidate. subst off.
    destruct (behind_ok sec (p_off q + rh_Length hdr) q) as (H1 & H2 & H3); [done| |done|by left| |].
    { unfold sectionAnswers, sectionQuestions in *. lia. }
    { destruct Hw. lia. }
    split_and!; [lia|done|by eapply later_trans].
  - destruct Hq as [Hm Hcs Ho Hsc Hix Hpe Hnil]. split; [|eapply later_trans; [done|]]; split; cbn; done || lia.
Qed.

Lemma skip_element_safe sec (f : bytes -> Z -> dns Z) : sectionQuestions <= sec <= sectionAdditionals ->
  (forall msg off, bytes_ok msg -> 0 <= off -> returns (f msg off) (fun off' => off <= off')) ->
  safe (let! _ := checkAdvance sec in
        let! off := reads f in
        update (fun p => next_index (with_off off p)))
    (fun p _ p' => left_in sec p' < left_in sec p).
Proof.
  intros Hsec Hf p Hp.
  pose proof (element_safe sec (fun msg off => o ← f msg off; Ok (tt, o)) Hsec) as He.
  assert (Hf' : forall msg off, bytes_ok msg -> 0 <= off -> returns (o ← f msg off; Ok (tt, o)) (fun r => off <= snd r)).
  { intros msg off Hm Ho. eapply returns_bind; [by apply Hf|]. done. }
  specialize (He Hf' p Hp). unfold andThen, reads, update, return_ in *.
  destruct (checkAdvance sec p) as [[u|e|] p']; [|done|done]. by destruct (f _ _).
Qed.

Lemma skipResource_safe sec : sectionAnswers <= sec <= sectionAdditionals ->
  safe (Parser_skipResource sec) (fun p _ p' => left_in sec p' < left_in sec p).
Proof.
  intros Hsec p Hp. unfold Parser_skipResource. destruct (p_resHeaderValid p) eqn:Hv.
  - destruct (Z.ltb_spec (len (bytes_of p)) (p_off p + rh_Length (p_resHeader p))); [split; [done|apply later_refl]|].
    destruct (ok_pending _ Hp Hv) as (Hsp & Hip & Hw).
    destruct (behind_ok sec (p_off p + rh_Length (p_resHeader p)) p) as (H1 & H2 & H3); [done| |done|by left| |done].
    { unfold sectionAnswers, sectionQuestions in *. lia. }
    { destruct Hw. lia. }
  - apply skip_element_safe; [unfold sectionAnswers, sectionQuestions in *; lia| |done].
    intros msg off Hm Ho. eapply returns_mono; [by apply returns_nest, skipResource_returns|]. cbv beta. lia.
Qed.

Lemma Question_safe : safe Parser_Question (fun p _ p' => left_in sectionQuestions p' < left_in sectionQuestions p).
Proof.
  apply element_safe; [done|]. intros msg off Hm Ho. eapply returns_mono; [by apply unpack_question_returns|].
  intros [q off'] [H _]. simpl. lia.
Qed.

Lemma SkipQuestion_safe : safe SkipQuestion (fun p _ p' => left_in sectionQuestions p' < left_in sectionQuestions p).
Proof.
  apply skip_element_safe; [done|]. intros msg off Hm Ho. eapply returns_mono; [by apply skip_question_returns|].
  cbv beta. lia.
Qed.

Lemma typed_resource_safe t unpack :
  (forall msg off l, bytes_ok msg -> 0 <= off -> in_width 16 l -> returns (unpack msg off l) (fun _ => True)) ->
  safe (typed_resource t unpack) (fun _ _ _ => True).
Proof.
  intros Hu p Hp. unfold typed_resource. destruct (p_resHeaderValid p) eqn:Hv; cbn [negb orb]; [|split; [done|apply later_refl]].
  destruct (_ =? t); cbn [negb]; [|split; [done|apply later_refl]].
  destruct (ok_pending _ Hp Hv) as (Hsp & Hip & Hw). unfold andThen, reads, update, return_.
  specialize (Hu (bytes_of p) (p_off p) (rh_Length (p_resHeader p)) (ok_msg _ Hp) (ok_off _ Hp) Hw).
  destruct (unpack _ _ _); cbn [returns] in Hu; [|split; [done|apply later_refl]|done].
  destruct (behind_ok (p_section p) (p_off p + rh_Length (p_resHeader p)) p) as (? & ? & _); [done| |done|by left| |done].
  - unfold sectionAnswers, sectionQuestions in *. lia.
  - destruct Hw. lia.
Qed.

(** * The loops *)

Lemma all_loop_safe {A} sec (op : method A) : safe op (fun p _ p' => left_in sec p' < left_in sec p) ->
  forall fuel acc p, parser_ok p -> left_in sec p < Z.of_nat fuel ->
  match all_loop fuel op acc p with
  | (Panic, _) => False
  | (_, p') => parser_ok p' /\ later p p'
  end.
Proof.
  intros Hop. induction fuel as [|fuel IH]; intros acc p Hp Hf; [pose proof (left_in_nonneg sec p Hp); lia|].
  cbn [all_loop]. pose proof (Hop p Hp) as H. destruct (op p) as [[a|e|] q]; [| |done].
  - destruct H as (Hlt & Hq & Hl). specialize (IH (acc ++ [a]) q Hq ltac:(lia)).
    destruct (all_loop _ _ _ _) as [[?|?|] r]; try done; (destruct IH; split; [done|by eapply later_trans]).
  - by destruct e.
Qed.

Lemma skip_loop_safe sec (op : method unit) : safe op (fun p _ p' => left_in sec p' < left_in sec p) ->
  forall fuel p, parser_ok p -> left_in sec p < Z.of_nat fuel ->
  match skip_loop fuel op p with
  | (Panic, _) => False
  | (_, p') => parser_ok p' /\ later p p'
  end.
Proof.
  intros Hop. induction fuel as [|fuel IH]; intros p Hp Hf; [pose proof (left_in_nonneg sec p Hp); lia|].
  cbn [skip_loop]. pose proof (Hop p Hp) as H. destruct (op p) as [[a|e|] q]; [| |done].
  - destruct H as (Hlt & Hq & Hl). specialize (IH q Hq ltac:(lia)).
    destruct (skip_loop _ _ _) as [[?|?|] r]; try done; (destruct IH; split; [done|by eapply later_trans]).
  - by destruct e.
Qed.

Lemma all_fuel_enough sec p : parser_ok p -> left_in sec p < Z.of_nat (all_fuel sec p).
Proof.
  intros Hp. unfold all_fuel, left_in. pose proof (header_count_nonneg (p_header p) sec (ok_counts _ Hp)).
  pose proof (ok_index _ Hp). destruct (Z.eqb_spec (p_section p) sec); [lia|]. destruct (p_resHeaderValid p); lia.
Qed.

Definition calm {A} (m : method A) : Prop := forall p, parser_ok p ->
  match m p with (Panic, _) => False | (_, p') => parser_ok p' /\ later p p' end.

Lemma safe_calm {A} (m : method A) Q : safe m Q -> calm m.
Proof. intros H p Hp. specialize (H p Hp). destruct (m p) as [[]]; tauto. Qed.

Lemma all_of_calm {A} sec (op : method A) : safe op (fun p _ p' => left_in sec p' < left_in sec p) -> calm (all_of sec op).
Proof. intros H p Hp. by apply (all_loop_safe sec), all_fuel_enough. Qed.

Lemma skip_all_of_calm sec op : safe op (fun p _ p' => left_in sec p' < left_in sec p) -> calm (skip_all_of sec op).
Proof. intros H p Hp. by apply (skip_loop_safe sec), all_fuel_enough. Qed.

(** * Any use of a parser *)

Inductive parser_op :=
| op_Start (msg : option bytes)
| op_Question | op_AllQuestions | op_SkipQuestion | op_SkipAllQuestions
| op_AnswerHeader | op_Answer | op_AllAnswers | op_SkipAnswer | op_SkipAllAnswers
| op_AuthorityHeader | op_Authority | op_AllAuthorities | op_SkipAuthority | op_SkipAllAuthorities
| op_AdditionalHeader | op_Additional | op_AllAdditionals | op_SkipAdditional | op_SkipAllAdditionals
| op_CNAMEResource | op_MXResource | op_NSResource | op_PTRResource | op_SOAResource
| op_TXTResource | op_SRVResource | op_AResource | op_AAAAResource.

(** The parser after a call; [None] after a panic. *)
Definition leaves {A} (m : method A) (p : Parser) : option Parser :=
  match m p with (Panic, _) => None | (_, p') => Some p' end.

Definition run_op (o : parser_op) : Parser -> option Parser :=
  match o with
  | op_Start msg => leaves (Start msg)
  | op_Question => leaves Parser_Question
  | op_AllQuestions => leaves AllQuestions
  | op_SkipQuestion => leaves SkipQuestion
  | op_SkipAllQuestions => leaves SkipAllQuestions
  | op_AnswerHeader => leaves AnswerHeader
  | op_Answer => leaves Answer
  | op_AllAnswers => leaves AllAnswers
  | op_SkipAnswer => leaves SkipAnswer
  | op_SkipAllAnswers => leaves SkipAllAnswers
  | op_AuthorityHeader => leaves AuthorityHeader
  | op_Authority => leaves Authority
  | op_AllAuthorities => leaves AllAuthorities
  | op_SkipAuthority => leaves SkipAuthority
  | op_SkipAllAuthorities => leaves SkipAllAuthorities
  | op_AdditionalHeader => leaves AdditionalHeader
  | op_Additional => leaves Additional
  | op_AllAdditionals => leaves AllAdditionals
  | op_SkipAdditional => leaves SkipAdditional
  | op_SkipAllAdditionals => leaves SkipAllAdditionals
  | op_CNAMEResource => leaves Parser_CNAMEResource
  | op_MXResource => leaves Parser_MXResource
  | op_NSResource => leaves Parser_NSResource
  | op_PTRResource => leaves Parser_PTRResource
  | op_SOAResource => leaves Parser_SOAResource
  | op_TXTResource => leaves Parser_TXTResource
  | op_SRVResource => leaves Parser_SRVResource
  | op_AResource => leaves Parser_AResource
  | op_AAAAResource => leaves Parser_AAAAResource
  end.

Fixpoint run_ops (os : list parser_op) (p : Parser) : option Parser :=
  match os with [] => Some p | o :: os => p ← run_op o p; run_ops os p end.

Definition op_ok (o : parser_op) : Prop :=
  match o with op_Start (Some msg) => bytes_ok msg | _ => True end.

Definition starts (o : parser_op) : bool := match o with op_Start _ => true | _ => false end.

Definition field_ok (st : dns Z * header) : Prop := counts_ok (snd st) /\ returns (fst st) (fun off => 0 <= off).

Lemma unpack_field_ok set s msg st : bytes_ok msg ->
  (forall v h, in_width 16 v -> counts_ok h -> counts_ok (set v h)) -> field_ok st -> field_ok (unpack_field set s msg st).
Proof.
  intros Hm Hset [Hc Hr]. destruct st as [[off|e|] h]; cbn [fst snd returns unpack_field] in *; [|by split|done].
  pose proof (unpackUint16_returns msg off Hm Hr) as H. destruct (unpackUint16 msg off) as [[v o]|e|]; [| |done].
  - destruct H as (Hv & -> & Hl). split; cbn; [by apply Hset|lia].
  - split; cbn; [by apply Hset|done].
Qed.

Lemma header_unpack_ok h msg off : bytes_ok msg -> counts_ok h -> 0 <= off -> field_ok (header_unpack h msg off).
Proof.
  intros Hm Hc Ho. unfold header_unpack.
  repeat (apply unpack_field_ok; [done|by unfold counts_ok; intros v h0; cbn; intuition|]). by split.
Qed.

Lemma Parser_zero_ok : parser_ok Parser_zero.
Proof. split; cbn; try done; [constructor|by left]. Qed.

Lemma Start_calm msg p : parser_ok p -> bytes_ok (default [] msg) ->
  match Start msg p with (Panic, _) => False | (_, p') => parser_ok p' end.
Proof.
  intros Hp Hm. unfold Start.
  set (q := match p_msg p with Some _ => Parser_zero | None => p end).
  assert (Hq : parser_ok q /\ p_section q = sectionNotStarted).
  { unfold q. destruct (p_msg p) eqn:E; [split; [apply Parser_zero_ok|done]|split; [done|by apply ok_nil]]. }
  destruct Hq as [[_ Hc _ _ Hi Hpe _] Hs]. rewrite Hs in Hi, Hpe.
  assert (Hv : p_resHeaderValid q = false).
  { destruct (p_resHeaderValid q); [|done]. destruct (Hpe eq_refl) as [[H _] _]. done. }
  assert (Hix : p_index q = 0) by (change (header_count _ sectionNotStarted) with 0 in Hi; lia).
  pose proof (header_unpack_ok (p_header q) (default [] msg) 0 Hm Hc ltac:(lia)) as [Hc' Hr].
  destruct (header_unpack (p_header q) (default [] msg) 0) as [[off|e|] h] eqn:E; cbn [fst snd returns] in *; [| |done].
  - rewrite Hix, Hv. split; cbn; try done; [by right| |].
    + destruct Hc' as [[Hq _] _]. done.
    + intros ->. exfalso. by cbn in E.
  - rewrite Hix, Hv, Hs. split; cbn; try done. by left.
Qed.

Lemma leaves_calm {A} (m : method A) p : calm m -> parser_ok p -> exists p', leaves m p = Some p' /\ parser_ok p' /\ later p p'.
Proof. intros Hm Hp. specialize (Hm p Hp). unfold leaves. destruct (m p) as [[a|e|] p']; [eauto|eauto|done]. Qed.

(** A typed method reads the body [unpackResourceBody] reads for its type. *)
Lemma typed_calm t name unpack :
  (forall msg off hdr, rh_Type hdr = t -> unpack_body msg off hdr = Some (name, unpack msg off (rh_Length hdr))) ->
  calm (typed_resource t unpack).
Proof.
  intros Hu. eapply safe_calm, typed_resource_safe. intros msg off l Hm Ho Hl.
  set (hdr := mkResourceHeader Name_zero t 0 0 l).
  pose proof (unpackResourceBody_returns msg off hdr Hm Ho Hl) as H. unfold unpackResourceBody in H.
  rewrite (Hu _ _ hdr eq_refl) in H. change (rh_Length hdr) with l in H. by destruct (unpack msg off l).
Qed.

Ltac by_type := eapply typed_calm; intros msg off hdr H; unfold unpack_body; rewrite H; reflexivity.

Lemma run_op_calm o p : op_ok o -> parser_ok p ->
  exists p', run_op o p = Some p' /\ parser_ok p' /\ (starts o = false -> later p p').
Proof.
  intros Ho Hp. destruct o as [msg| | | | | | | | | | | | | | | | | | | | | | | | | | | | ]; cbn [run_op starts].
  1:{ pose proof (Start_calm msg p Hp) as H. unfold leaves. destruct (Start msg p) as [[h|e|] q].
      - exists q. split_and!; [done| |done]. apply H. destruct msg; [done|constructor].
      - exists q. split_and!; [done| |done]. apply H. destruct msg; [done|constructor].
      - exfalso. apply H. destruct msg; [done|constructor]. }
  all: match goal with |- exists _, leaves ?m _ = _ /\ _ =>
    assert (Hc : calm m); [|destruct (leaves_calm m p Hc Hp) as (p' & -> & ? & ?); eauto] end.
  all: first
    [ by_type
    | eapply safe_calm; first [apply Question_safe | apply SkipQuestion_safe
        | by apply resourceHeader_safe | by apply resource_safe | by apply skipResource_safe]
    | apply all_of_calm; first [apply Question_safe | by apply resource_safe]
    | apply skip_all_of_calm; first [apply SkipQuestion_safe | by apply skipResource_safe] ].
Qed.

Lemma run_ops_calm os p : Forall op_ok os -> parser_ok p ->
  exists p', run_ops os p = Some p' /\ parser_ok p' /\ (Forall (fun o => starts o = false) os -> later p p').
Proof.
  intros Hos. revert p. induction Hos as [|o os Ho Hos IH]; intros p Hp; cbn [run_ops].
  { exists p. split_and!; [done|done|]. intros _. apply later_refl. }
  destruct (run_op_calm o p Ho Hp) as (q & -> & Hq & Hl). destruct (IH q Hq) as (r & Hr & Hrok & Hlr).
  exists r. split_and!; [done|done|]. intros [Hs Hss]%Forall_cons. eapply later_trans; eauto.
Qed.

(** C9. Whatever bytes a [Parser] is started on and in whatever order its methods
    are called, no call panics or runs forever, the invariant holds after every
    call (the index within its section, a pending header only in a resource
    section and before its end), and between starts the parser keeps its message
    and never goes back. *)
Theorem parser_never_panics os : Forall op_ok os ->
  exists p, run_ops os Parser_zero = Some p /\ parser_ok p /\
    forall os', Forall op_ok os' -> Forall (fun o => starts o = false) os' ->
      exists p', run_ops os' p = Some p' /\ parser_ok p' /\ later p p'.
Proof.
  intros Hos. destruct (run_ops_calm os Parser_zero Hos Parser_zero_ok) as (p & Hp & Hok & _).
  exists p. split_and!; [done|done|]. intros os' Hos' Hns.
  destruct (run_ops_calm os' p Hos' Hok) as (p' & ? & ? & ?). eauto.
Qed.

Lemma parser_never_panics_witness :
  let msg := [18; 52; 128; 0; 0; 1; 0; 1; 0; 0; 0; 0; 1; 97; 0; 0; 1; 0; 1; 192; 12; 0; 1; 0; 1; 0; 0; 0; 60; 0; 4; 1; 2; 3; 4] in
  let os := [op_Start (Some msg); op_Question; op_AnswerHeader; op_Authority; op_AllAnswers; op_SkipAllAdditionals] in
  exists p, run_ops os Parser_zero = Some p /\ parser_ok p.
Proof.
  intros msg os. destruct (parser_never_panics os) as (p & Hp & Hok & _).
  - unfold os, msg. repeat (apply Forall_cons; split; [first [exact I | apply (bool_decide_unpack _); vm_compute; exact I]|]). apply Forall_nil_2.
  - exists p. by split.
Defined.

(** * Skipping and parsing *)

Lemma skipUint16_unpack msg off v o : unpackUint16 msg off = Ok (v, o) -> skipUint16 msg off = Ok o.
Proof.
  unfold unpackUint16, skipUint16. destruct (_ <? _); [done|].
  destruct (at_ msg off), (at_ msg (off + 1)); cbn [or_panic mbind outcome_bind]; intros [=]. by subst.
Qed.

Lemma skipUint32_unpack msg off v o : unpackUint32 msg off = Ok (v, o) -> skipUint32 msg off = Ok o.
Proof.
  unfold unpackUint32, skipUint32. destruct (_ <? _); [done|].
  destruct (at_ msg off), (at_ msg (off + 1)), (at_ msg (off + 2)), (at_ msg (off + 3));
    cbn [or_panic mbind outcome_bind]; intros [=]. by subst.
Qed.

Lemma nest_Ok {A} s (m : dns A) a : nest s m = Ok a -> m = Ok a.
Proof. by destruct m. Qed.

(** Take apart a run of calls that all succeeded. *)
Ltac ok_bind H :=
  let x := fresh "x" in let Hx := fresh "Hx" in
  apply bind_Ok in H as (x & Hx & H); try apply nest_Ok in Hx.

Lemma skip_question_unpack msg off q o : bytes_ok msg -> 0 <= off ->
  unpack_question msg off = Ok (q, o) -> skip_question msg off = Ok o.
Proof.
  intros Hm Ho H. unfold unpack_question in H. unfold skip_question.
  ok_bind H. destruct x as [n o1]. ok_bind H. destruct x as [t o2]. ok_bind H. destruct x as [c o3]. injection H as <- <-.
  rewrite (skipName_unpack _ _ _ _ Hm Ho Hx). cbn [nest mbind outcome_bind].
  rewrite (skipUint16_unpack _ _ _ _ Hx0). cbn [nest mbind outcome_bind]. by rewrite (skipUint16_unpack _ _ _ _ Hx1).
Qed.

Lemma skipResource_unpack msg off h o : bytes_ok msg -> 0 <= off ->
  ResourceHeader_unpack msg off = Ok (h, o) -> o + rh_Length h <= len msg -> skipResource msg off = Ok (o + rh_Length h).
Proof.
  intros Hm Ho H Hl. unfold ResourceHeader_unpack in H. unfold skipResource.
  do 5 (ok_bind H; destruct x as [? ?]). injection H as <- <-. cbn [rh_Length] in *.
  rewrite (skipName_unpack _ _ _ _ Hm Ho Hx). cbn [nest mbind outcome_bind].
  rewrite (skipUint16_unpack _ _ _ _ Hx0). cbn [nest mbind outcome_bind].
  rewrite (skipUint16_unpack _ _ _ _ Hx1). cbn [nest mbind outcome_bind].
  rewrite (skipUint32_unpack _ _ _ _ Hx2). cbn [nest mbind outcome_bind].
  rewrite Hx3. cbn [nest mbind outcome_bind]. by rewrite (proj2 (Z.ltb_ge _ _)) by lia.
Qed.

(** The parser without the last header it has read, which nothing reads when it
    is not pending. *)
Definition forget (p : Parser) : Parser :=
  mkParser (p_msg p) (p_header p) (p_section p) (p_off p) (p_index p) (p_resHeaderValid p) ResourceHeader_zero.

Definition same (p q : Parser) : Prop :=
  forget p = forget q /\ (p_resHeaderValid p = true -> p_resHeader p = p_resHeader q).

Lemma same_refl p : same p p.
Proof. done. Qed.

Lemma same_forget p q : forget p = forget q -> p_resHeaderValid p = false -> same p q.
Proof. intros Hf Hv. split; [done|]. by rewrite Hv. Qed.

Lemma checkAdvance_same sec p q : forget p = forget q ->
  match checkAdvance sec p, checkAdvance sec q with
  | (r, p'), (r', q') => r = r' /\ forget p' = forget q'
  end.
Proof.
  destruct p as [m h s o i v rh], q as [m' h' s' o' i' v' rh']. unfold forget. cbn. intros [= -> -> -> -> -> ->].
  unfold checkAdvance. cbn. by repeat case_match; simplify_eq.
Qed.

(** The end of a section is only reported before anything is read. *)
Lemma resource_done sec p p' : resource sec p = (Fail ErrSectionDone, p') ->
  p_resHeaderValid p = false /\ checkAdvance sec p = (Fail ErrSectionDone, p').
Proof.
  unfold resource, resourceHeader, andThen, reads, update, return_.
  destruct (p_resHeaderValid p).
  - destruct (unpackResourceBody _ _ _) as [[]|e|]; cbn; intros [=].
  - destruct (checkAdvance sec p) as [[u|e|] q]; [|by intros [= -> ->]|done].
    unfold ResourceHeader_unpack.
    destruct (Name_unpack _ _) as [[]|e|]; cbn [nest mbind outcome_bind]; [|intros [=]..].
    destruct (unpackUint16 _ _) as [[]|e|]; cbn [nest mbind outcome_bind]; [|intros [=]..].
    destruct (unpackUint16 _ _) as [[]|e|]; cbn [nest mbind outcome_bind]; [|intros [=]..].
    destruct (unpackUint32 _ _) as [[]|e|]; cbn [nest mbind outcome_bind]; [|intros [=]..].
    destruct (unpackUint16 _ _) as [[]|e|]; cbn [nest mbind outcome_bind]; [|intros [=]..].
    destruct (unpackResourceBody _ _ _) as [[]|e|]; cbn; intros [=].
Qed.

Lemma skip_done sec p q p' : same p q -> resource sec p = (Fail ErrSectionDone, p') ->
  exists q', Parser_skipResource sec q = (Fail ErrSectionDone, q') /\ forget p' = forget q'.
Proof.
  intros [Hf _] [Hv Hc]%resource_done. unfold Parser_skipResource.
  assert (p_resHeaderValid q = false) as ->.
  { apply (f_equal p_resHeaderValid) in Hf. cbn in Hf. congruence. }
  pose proof (checkAdvance_same sec p q Hf) as H. unfold andThen. rewrite Hc in H.
  destruct (checkAdvance sec q) as [r q']. destruct H as [<- H]. eauto.
Qed.

Lemma unpackResourceBody_off msg off h b o : unpackResourceBody msg off h = Ok (b, o) -> o = off + rh_Length h.
Proof. unfold unpackResourceBody. destruct (unpack_body _ _ _) as [[name r]|]; [|done]. intros H. ok_bind H. by injection H. Qed.

Lemma skip_follows sec p q r p' : sectionAnswers <= sec <= sectionAdditionals -> parser_ok p -> same p q ->
  resource sec p = (Ok r, p') -> p_off p' <= len (bytes_of p') ->
  exists q', Parser_skipResource sec q = (Ok tt, q') /\ forget p' = forget q'.
Proof.
  intros Hsec Hp [Hf Hh] Hr Hlen. pose proof (checkAdvance_same sec p q Hf) as Hca.
  pose proof (checkAdvance_spec sec p Hp ltac:(unfold sectionAnswers, sectionQuestions in *; lia)) as Hspec.
  destruct p as [m h s o i v rh], q as [m' h' s' o' i' v' rh']. unfold forget in Hf. cbn in Hf, Hh.
  injection Hf as <- <- <- <- <- <-. unfold resource, resourceHeader, andThen, reads, update, return_ in Hr.
  unfold Parser_skipResource, andThen, reads, update. cbn [p_resHeaderValid] in *. destruct v.
  - rewrite <- (Hh eq_refl). cbn in *.
    destruct (unpackResourceBody _ _ _) as [[b off]|e|] eqn:Eb; cbn in Hr; [|done|done]. injection Hr as <- <-.
    apply unpackResourceBody_off in Eb as ->. cbn in Hlen. unfold bytes_of in *. cbn in *.
    rewrite (proj2 (Z.ltb_ge _ _)) by lia. eauto.
  - destruct (checkAdvance sec _) as [[u|e|] p1]; [|done|done]. destruct Hspec as (-> & _ & _).
    destruct (checkAdvance sec _) as [r1 q1]. destruct Hca as [<- Hq1]. destruct q1 as [m1 h1 s1 o1 i1 v1 rh1].
    unfold forget in Hq1. cbn in Hq1. injection Hq1 as <- <- <- <- <- <-. cbn in *. unfold bytes_of in *. cbn in *.
    destruct (ResourceHeader_unpack _ _) as [[hdr off]|e|] eqn:Eh; cbn in Hr; [|done|done].
    destruct (unpackResourceBody _ _ _) as [[b off']|e|] eqn:Eb; cbn in Hr; [|done|done]. injection Hr as <- <-.
    apply unpackResourceBody_off in Eb as ->. cbn in Hlen.
    pose proof (skipResource_unpack _ _ _ _ (ok_msg _ Hp) (ok_off _ Hp) Eh Hlen) as Hk. unfold bytes_of in Hk. cbn in Hk.
    rewrite Hk. cbn. eauto.
Qed.

Lemma resource_valid sec p r p' : resource sec p = (Ok r, p') -> p_resHeaderValid p' = false.
Proof.
  unfold resource, andThen, reads, update, return_.
  destruct (resourceHeader sec p) as [[hdr|e|] q]; [|done|done].
  destruct (unpackResourceBody _ _ _) as [[b off]|e|]; cbn; [|done|done]. by intros [= <- <-].
Qed.

Lemma checkAdvance_valid sec p e p' : checkAdvance sec p = (Fail e, p') -> p' = p \/ p_resHeaderValid p' = false.
Proof.
  unfold checkAdvance. repeat case_match; intros [=]; subst; auto.
Qed.

Lemma resource_later sec p r p' : sectionAnswers <= sec <= sectionAdditionals -> parser_ok p ->
  resource sec p = (Ok r, p') -> parser_ok p' /\ later p p'.
Proof. intros Hs Hp H. pose proof (resource_safe sec Hs p Hp) as Hr. rewrite H in Hr. tauto. Qed.

Lemma all_loop_later sec fuel acc p rs p' : sectionAnswers <= sec <= sectionAdditionals -> parser_ok p ->
  all_loop fuel (resource sec) acc p = (Ok rs, p') -> later p p'.
Proof.
  intros Hs. revert acc p. induction fuel as [|fuel IH]; intros acc p Hp; cbn [all_loop]; [done|].
  pose proof (resource_safe sec Hs p Hp) as H. destruct (resource sec p) as [[r|e|] q]; [| |done].
  - intros Hl. eapply later_trans; [apply H|]. eapply IH; [apply H|exact Hl].
  - destruct e; intros [=]; subst; apply H.
Qed.

Lemma skip_loop_follows sec fuel acc p q rs p' : sectionAnswers <= sec <= sectionAdditionals -> parser_ok p -> same p q ->
  all_loop fuel (resource sec) acc p = (Ok rs, p') -> p_off p' <= len (bytes_of p') ->
  exists q', skip_loop fuel (Parser_skipResource sec) q = (Ok tt, q') /\ forget p' = forget q'.
Proof.
  intros Hs. revert acc p q. induction fuel as [|fuel IH]; intros acc p q Hp Hpq; cbn [all_loop skip_loop]; [done|].
  destruct (resource sec p) as [[r|e|] p1] eqn:Er; [| |done].
  - intros Hl Hlen. destruct (resource_later sec p r p1 Hs Hp Er) as [Hp1 _].
    pose proof (all_loop_later _ _ _ _ _ _ Hs Hp1 Hl) as Hlat.
    destruct (skip_follows sec p q r p1 Hs Hp Hpq Er) as (q1 & -> & Hf).
    { pose proof (later_off _ _ Hlat). unfold bytes_of in *. rewrite <- (later_msg _ _ Hlat). lia. }
    apply (IH (acc ++ [r]) p1 q1); [done| |done|done]. apply same_forget; [done|]. by eapply resource_valid.
  - destruct e; intros [=]; subst. intros _. by destruct (skip_done sec p q p' Hpq Er) as (q' & -> & Hf); eauto.
Qed.

Lemma SkipQuestion_follows p q p' : parser_ok p -> Parser_Question p = (Ok q, p') -> SkipQuestion p = (Ok tt, p').
Proof.
  intros Hp. unfold Parser_Question, SkipQuestion, andThen, reads, update, return_.
  pose proof (checkAdvance_spec sectionQuestions p Hp ltac:(done)) as Hspec.
  destruct (checkAdvance _ p) as [[u|e|] p1]; [|done|done]. destruct Hspec as (-> & _ & _).
  change (bytes_of (drop_pending p)) with (bytes_of p). change (p_off (drop_pending p)) with (p_off p).
  destruct (unpack_question _ _) as [[x off]|e|] eqn:E; [|done|done]. intros [= <- <-].
  by rewrite (skip_question_unpack _ _ _ _ (ok_msg _ Hp) (ok_off _ Hp) E).
Qed.

Lemma question_done p p' : Parser_Question p = (Fail ErrSectionDone, p') -> SkipQuestion p = (Fail ErrSectionDone, p').
Proof.
  unfold Parser_Question, SkipQuestion, andThen, reads, update, return_.
  destruct (checkAdvance _ p) as [[u|e|] p1]; [|by intros [= -> ->]|done]. unfold unpack_question.
  destruct (Name_unpack _ _) as [[]|e|]; cbn [nest mbind outcome_bind]; [|intros [=]..].
  destruct (unpackUint16 _ _) as [[]|e|]; cbn [nest mbind outcome_bind]; [|intros [=]..].
  destruct (unpackUint16 _ _) as [[]|e|]; cbn [nest mbind outcome_bind]; intros [=].
Qed.

Lemma skip_questions_follow fuel acc p qs p' : parser_ok p ->
  all_loop fuel Parser_Question acc p = (Ok qs, p') -> skip_loop fuel SkipQuestion p = (Ok tt, p').
Proof.
  revert acc p. induction fuel as [|fuel IH]; intros acc p Hp; cbn [all_loop skip_loop]; [done|].
  pose proof (Question_safe p Hp) as H. destruct (Parser_Question p) as [[q|e|] p1] eqn:E; [| |done].
  - rewrite (SkipQuestion_follows p q p1 Hp E). apply IH. tauto.
  - destruct e; intros [=]; subst. by rewrite (question_done _ _ E).
Qed.

(** Skipping agrees with parsing: where all questions parse, skipping them all
    leaves the parser in the same state; where all resources of a section parse
    and the bodies end within the message, skipping them leaves the same state
    but for the last header read, which is no longer pending. *)
Lemma skip_all_agrees p : parser_ok p ->
  (forall qs p', AllQuestions p = (Ok qs, p') -> SkipAllQuestions p = (Ok tt, p')) /\
  (forall sec rs p', sectionAnswers <= sec <= sectionAdditionals ->
    all_of sec (resource sec) p = (Ok rs, p') -> p_off p' <= len (bytes_of p') ->
    exists q', skip_all_of sec (Parser_skipResource sec) p = (Ok tt, q') /\ forget q' = forget p').
Proof.
  intros Hp. split.
  - intros qs p'. by apply skip_questions_follow.
  - intros sec rs p' Hs Ha Hl. destruct (skip_loop_follows sec _ _ _ _ _ _ Hs Hp (same_refl p) Ha Hl) as (q' & Hq & Hf).
    exists q'. by split.
Qed.

(** A message with a question and an answer whose parser stands at the answers. *)
Definition sample_parser : Parser :=
  let msg := [18; 52; 128; 0; 0; 1; 0; 1; 0; 0; 0; 0; 1; 97; 0; 0; 1; 0; 1; 192; 12; 0; 1; 0; 1; 0; 0; 0; 60; 0; 4; 1; 2; 3; 4] in
  default Parser_zero (run_ops [op_Start (Some msg); op_Question; op_Question] Parser_zero).

Lemma sample_parser_ok : parser_ok sample_parser.
Proof.
  split; try (vm_compute; by try right). apply (bool_decide_unpack _). vm_compute. exact I.
Qed.

Lemma skip_all_agrees_witness :
  exists r p' q', AllAnswers sample_parser = (Ok [r], p') /\ SkipAllAnswers sample_parser = (Ok tt, q') /\ forget q' = forget p'.
Proof.
  destruct (AllAnswers sample_parser) as [[[|r []]|e|] p'] eqn:E; [vm_compute in E; discriminate E| |vm_compute in E; discriminate E..].
  destruct (skip_all_agrees sample_parser sample_parser_ok) as [_ H].
  destruct (H sectionAnswers [r] p') as (q' & Hq & Hf); [vm_compute; split; intros [=]|exact E| |exists r, p', q'; split_and!; [done|exact Hq|exact Hf]].
  vm_compute in E. injection E as <- <-. vm_compute. intros [=].
Defined.
