(* ===== verification/DnsMessageRT.v ===== *)
(** What [Message.Pack] packs, [Message.Unpack] reads back. *)
From S2P Require Import Prelude.
From S2P Require Import DnsWire DnsName DnsNameRT DnsMessage DnsParser.

(** * Reading, but for pointer chains that are too long

    [reads_as r P a]: the call returns [a], or there are more than ten names
    ([P]) and it follows too many pointers. *)
Definition too_many_ptr (e : dns_error) : Prop := root_error e = errTooManyPtr.

Definition reads_as {A} (r : dns A) (P : nat) (a : A) : Prop :=
  r = Ok a \/ (10 < P)%nat /\ exists e, r = Fail e /\ too_many_ptr e.

Lemma reads_as_bind {A B} (m : dns A) (k : A -> dns B) P a b :
  reads_as m P a -> reads_as (k a) P b -> reads_as (m ≫= k) P b.
Proof. intros [->|(Hp & e & -> & He)] Hk; [done|]. right. split; [done|]. by exists e. Qed.

Lemma reads_as_nest {A} s (m : dns A) P a : reads_as m P a -> reads_as (nest s m) P a.
Proof. intros [->|(Hp & e & -> & He)]; [by left|right; split; [done|]]. by exists (nestedError s e). Qed.

Lemma reads_as_mono {A} (m : dns A) P Q a : (P <= Q)%nat -> reads_as m P a -> reads_as m Q a.
Proof. intros HP [->|(Hp & H)]; [by left|right; split; [lia|done]]. Qed.

(** One step of a parse. *)
Ltac reads_step := eapply reads_as_bind; [try apply reads_as_nest|cbv beta iota].

(** * Names *)

(** A name [NewName] makes and [pack] accepts. *)
Definition packable (n : Name) : Prop := name_ok n /\ name_error (Name_String n) = None.

#[global] Instance name_ok_dec n : Decision (name_ok n).
Proof. unfold name_ok. apply _. Defined.
#[global] Instance packable_dec n : Decision (packable n).
Proof. unfold packable. apply _. Defined.

Lemma encodes_length V p off s e : encodes V p off s e -> off < e <= off + len s + 2.
Proof.
  induction 1 as [off H0|p off l s e Hl Hs He IH|p off c c1 s e Hc Hc1 H192 H0 H1 He IH].
  - rewrite len_nil. lia.
  - rewrite len_app, len_cons. lia.
  - pose proof (len_nonneg s). lia.
Qed.

Lemma len_wire s : len (wire s) <= len s.
Proof. unfold wire. case_bool_decide; [|lia]. rewrite len_nil. apply len_nonneg. Qed.

(** Packing a name, and reading it from any message that has the bytes. *)
Lemma Name_pack_reads grow h P n msg c : packable n -> (forall j, len (data msg) <= j -> h j = false) ->
  good (seen h (data msg)) P c ->
  exists msg' c' x, Name_pack grow n msg c = (Ok msg', c') /\ grown msg msg' x /\ len x <= 257 /\
    good (seen h (data msg')) (S P) c' /\ (c = None -> c' = None) /\
    forall M, view_le (seen h (data msg')) (at_ M) -> reads_as (Name_unpack M (len (data msg))) (S P) (n, len (data msg')).
Proof.
  intros [Hok Herr] Hh Hg. pose proof (name_ok_named n Hok) as Hn. pose proof Hok as (_ & Hlen & _ & Hl).
  set (s := Name_String n) in *. rewrite Hn.
  pose proof (Name_pack_result grow h P s msg c ltac:(lia) Hh Hg) as Hr. rewrite Herr in Hr.
  destruct Hr as (msg' & c' & x & p & Hp & Hx & Hle & He & Hnew).
  pose proof (encodes_length _ _ _ _ _ He) as Hel. pose proof (len_wire s) as Hw. unfold nameLen in Hlen.
  exists msg', c', x. split_and!; [done|done| |by eapply packed_good|by apply Hnew|].
  { destruct Hx as [Hd _]. rewrite Hd, len_app in Hel. lia. }
  intros M HM. eapply encodes_mono in He; [|exact HM].
  assert (Hne : s <> []) by (intros Hs; rewrite Hs in Herr; done).
  rewrite (Name_unpack_encodes _ _ _ _ _ He) by (rewrite spelled_wire by done; unfold nameLen; lia).
  rewrite spelled_wire by done. destruct (Z.leb_spec (Z.of_nat p) 10); [by left|right]. split; [lia|]. by exists errTooManyPtr.
Qed.

(** C35. A name as [NewName] makes it is packed or refused for what its first bad
    label has wrong (no final dot; a label of no or of more than 63 bytes). A
    packed name takes at most 257 bytes, leaves a sound compression map sound,
    and [unpack] reads it back at its place whatever follows it in the message,
    as long as no more than ten names are chained. *)
Theorem Name_pack_unpack grow P n msg c : name_ok n -> good (at_ (data msg)) P c ->
  match name_error (Name_String n) with
  | Some e => exists c', Name_pack grow n msg c = (Fail e, c')
  | None => exists msg' c' x, Name_pack grow n msg c = (Ok msg', c') /\ data msg' = data msg ++ x /\ len x <= 257 /\
      good (at_ (data msg')) (S P) c' /\
      ((S P <= 10)%nat -> forall rest, Name_unpack (data msg' ++ rest) (len (data msg)) = Ok (n, len (data msg')))
  end.
Proof.
  intros Hok Hg. destruct (name_error (Name_String n)) as [e|] eqn:E.
  - rewrite (name_ok_named n Hok). pose proof Hok as (_ & Hl & _ & Hlen).
    pose proof (Name_pack_result grow no_hole P (Name_String n) msg c ltac:(lia) ltac:(done) Hg) as H. by rewrite E in H.
  - destruct (Name_pack_reads grow no_hole P n msg c) as (msg' & c' & x & Hp & [Hd _] & Hx & Hg' & _ & Hr); [done|done|done|].
    exists msg', c', x. split_and!; [done|done|done|done|]. intros HP rest.
    destruct (Hr (data msg' ++ rest)) as [H|[H _]]; [|done|lia]. apply at_view_app.
Qed.

Lemma Name_pack_unpack_witness :
  let n := named (str "go.dev.") in let b := mkBuf (replicate 12 0) 512 0 in
  exists msg' c', Name_pack (fun c n => Z.max (2 * c) n) n b (Some ∅) = (Ok msg', c') /\
    Name_unpack (data msg' ++ [1; 2; 3]) 12 = Ok (n, 20).
Proof.
  intros n b. pose proof (Name_pack_unpack (fun c n => Z.max (2 * c) n) 0 n b (Some ∅)) as H.
  assert (Hok : name_ok n) by (apply (bool_decide_unpack _); vm_compute; exact I).
  assert (Hg : good (at_ (data b)) 0 (Some ∅)) by (intros mm key ptr [= <-] Hk; by rewrite lookup_empty in Hk).
  specialize (H Hok Hg). replace (name_error (Name_String n)) with (@None dns_error) in H by (vm_compute; reflexivity).
  destruct H as (msg' & c' & x & Hp & Hd & _ & _ & Hr). exists msg', c'. split; [exact Hp|].
  rewrite (Hr ltac:(lia) [1; 2; 3] : Name_unpack _ 12 = _). do 2 f_equal.
  apply (f_equal (fun r => match fst r with Ok m => len (data m) | _ => 0 end)) in Hp. cbn [fst] in Hp. rewrite <- Hp. vm_compute. reflexivity.
Defined.

(** * Numbers and text *)

Lemma append_sees grow h msg x M : (forall j, len (data msg) <= j -> h j = false) ->
  view_le (seen h (data (append grow msg x))) (at_ M) -> x <> [] -> stands M (len (data msg)) x.
Proof.
  intros Hh HM Hx. rewrite append_data in HM.
  assert (Hs : sees (at_ M) (len (data msg)) x) by (eapply sees_mono; [exact HM|by apply seen_end]).
  apply sees_stands; [|done]. pose proof (len_nonneg (data msg)). split; [lia|].
  destruct x as [|b x]; [done|]. apply sees_cons in Hs as [Hb _]. apply at_lt in Hb. lia.
Qed.

Lemma packUint16_grown grow msg v : grown msg (packUint16 grow msg v) (be_put 2 v).
Proof. split; [apply packUint16_data|]. apply append_grown. Qed.

Lemma packUint32_grown grow msg v : grown msg (packUint32 grow msg v) (be_put 4 v).
Proof. split; [apply packUint32_data|]. apply append_grown. Qed.

Lemma packUint16_reads grow h msg v M : in_width 16 v -> (forall j, len (data msg) <= j -> h j = false) ->
  view_le (seen h (data (packUint16 grow msg v))) (at_ M) ->
  unpackUint16 M (len (data msg)) = Ok (v, len (data (packUint16 grow msg v))).
Proof.
  intros Hv Hh HM. rewrite (unpackUint16_stands M (len (data msg)) v Hv).
  - rewrite packUint16_data, len_app, len_be_put. done.
  - by apply (append_sees grow h msg (be_put 2 v) M Hh).
Qed.

Lemma packUint32_reads grow h msg v M : in_width 32 v -> (forall j, len (data msg) <= j -> h j = false) ->
  view_le (seen h (data (packUint32 grow msg v))) (at_ M) ->
  unpackUint32 M (len (data msg)) = Ok (v, len (data (packUint32 grow msg v))).
Proof.
  intros Hv Hh HM. rewrite (unpackUint32_stands M (len (data msg)) v Hv).
  - rewrite packUint32_data, len_app, len_be_put. done.
  - by apply (append_sees grow h msg (be_put 4 v) M Hh).
Qed.

Lemma grown_len b b' x : grown b b' x -> len (data b') = len (data b) + len x.
Proof. intros [-> _]. apply len_app. Qed.

Lemma grown_holes h b b' x : grown b b' x -> (forall j, len (data b) <= j -> h j = false) ->
  forall j, len (data b') <= j -> h j = false.
Proof. intros Hg Hh j Hj. apply Hh. rewrite (grown_len _ _ _ Hg) in Hj. pose proof (len_nonneg x). lia. Qed.

Lemma grown_view h b b' x V : grown b b' x -> view_le (seen h (data b')) V -> view_le (seen h (data b)) V.
Proof. intros Hg. apply view_le_trans. by eapply grown_seen. Qed.

Lemma grown_good h P b b' x c : grown b b' x -> good (seen h (data b)) P c -> good (seen h (data b')) P c.
Proof. intros Hg. apply good_mono; [by eapply grown_seen|done]. Qed.

(** The wire form of a text: chunks of up to 255 bytes. *)
Fixpoint text_wire (fuel : nat) (t : bytes) : bytes :=
  match fuel with
  | O => []
  | S fuel' =>
      if 0 <? len t then
        let l := if 255 <? len t then 255 else len t in
        l :: upto l t ++ text_wire fuel' (from l t)
      else []
  end.

Lemma text_wire_nil fuel : text_wire fuel [] = [].
Proof. by destruct fuel. Qed.

(** The size of a chunk. *)
Lemma chunk_size (t : bytes) : 0 < len t ->
  let l := if 255 <? len t then 255 else len t in 0 < l <= len t /\ l <= 255 /\ (l = 255 \/ l = len t).
Proof. intros Ht. cbv zeta. destruct (Z.ltb_spec 255 (len t)); lia. Qed.

Lemma packText_loop_spec grow fuel : forall msg t, (length t <= fuel)%nat ->
  exists msg', packText_loop grow fuel msg t = Some msg' /\ grown msg msg' (text_wire fuel t).
Proof.
  induction fuel as [|fuel IH]; intros msg t Hf; cbn [packText_loop text_wire].
  { destruct t; [|simpl in Hf; lia]. exists msg. split; [done|apply grown_refl]. }
  destruct (Z.ltb_spec 0 (len t)) as [Ht|Ht].
  - pose proof (chunk_size t Ht) as Hl. cbv zeta in Hl. set (l := if 255 <? len t then 255 else len t) in *.
    destruct (IH (append grow (append grow msg [u8 l]) (upto l t)) (from l t)) as (msg' & -> & Hg).
    { pose proof (len_from l t ltac:(lia)) as Hn. unfold len in *. lia. }
    exists msg'. split; [done|]. change (l :: upto l t ++ ?y) with ([l] ++ (upto l t ++ y)).
    assert (Hu : u8 l = l) by (apply wrap_id; unfold in_width; lia). rewrite Hu in Hg.
    eapply grown_trans; [apply append_grown|]. eapply grown_trans; [apply append_grown|done].
  - exists msg. split; [done|apply grown_refl].
Qed.

Definition max_text : Z := 65279.

Lemma text_wire_len fuel : forall t, (length t <= fuel)%nat -> 255 * len (text_wire fuel t) <= 256 * len t + 254 /\
  len t <= len (text_wire fuel t).
Proof.
  induction fuel as [|fuel IH]; intros t Hf; cbn [text_wire].
  { destruct t; [|simpl in Hf; lia]. done. }
  destruct (Z.ltb_spec 0 (len t)) as [Ht|Ht].
  - pose proof (chunk_size t Ht) as Hl. cbv zeta in Hl. set (l := if 255 <? len t then 255 else len t) in *.
    pose proof (len_from l t ltac:(lia)) as Hn. pose proof (len_upto l t ltac:(lia)) as Hu.
    destruct (IH (from l t)) as [H1 H2]; [unfold len in *; lia|].
    rewrite len_cons, len_app, Hu. destruct Hl as (Hl & Hl' & [Hl2|Hl2]); [lia|].
    assert (from l t = []) as ->. { destruct (from l t); [done|]. rewrite len_cons in Hn. pose proof (len_nonneg l0). lia. }
    rewrite text_wire_nil, len_nil. lia.
  - change (len []) with 0. pose proof (len_nonneg t). lia.
Qed.

Lemma txt_loop_reads M fuel : forall t gas off length n txt,
  (List.length t <= fuel)%nat -> 0 <= off <= len M -> (text_wire fuel t <> [] -> stands M off (text_wire fuel t)) ->
  0 <= n -> length = n + len (text_wire fuel t) -> length <= 65535 -> length - n <= Z.of_nat gas ->
  txt_loop gas M off length n txt = Ok (txt ++ t).
Proof.
  induction fuel as [|fuel IH]; intros t gas off length n txt Hf Ho Hs Hn Hl Hmax Hg; cbn [text_wire] in *.
  { destruct t; [|simpl in Hf; lia]. rewrite app_nil_r, len_nil, Z.add_0_r in *. subst.
    destruct gas; cbn [txt_loop]; by rewrite (proj2 (Z.ltb_ge n n)) by lia. }
  destruct (Z.ltb_spec 0 (len t)) as [Ht|Ht].
  2:{ destruct t; [|rewrite len_cons in Ht; pose proof (len_nonneg t); lia]. rewrite app_nil_r, len_nil, Z.add_0_r in *. subst.
      destruct gas; cbn [txt_loop]; by rewrite (proj2 (Z.ltb_ge n n)) by lia. }
  pose proof (chunk_size t Ht) as Hc. cbv zeta in Hc. set (l := if 255 <? len t then 255 else len t) in *.
  pose proof (len_from l t ltac:(lia)) as Hfr. pose proof (len_upto l t ltac:(lia)) as Hu.
  rewrite len_cons, len_app, Hu in Hl. set (rest := text_wire fuel (from l t)) in *. pose proof (len_nonneg rest).
  specialize (Hs ltac:(done)). pose proof (stands_bound _ _ _ Hs) as Hb. rewrite len_cons, len_app, Hu in Hb.
  destruct gas as [|gas]; [lia|]. cbn [txt_loop]. rewrite (proj2 (Z.ltb_lt n length)) by lia.
  change (l :: upto l t ++ rest) with ((l :: upto l t) ++ rest) in Hs. apply stands_app in Hs as [Hs Hrest].
  rewrite len_cons, Hu in Hrest. rewrite <- Hu in Hs at 1.
  rewrite (unpackText_stands M off (upto l t)) by (lia || done). cbn [nest mbind outcome_bind]. rewrite Hu.
  assert (Hw : forall z, 0 <= z < 2 ^ 16 -> u16 z = z) by (intros; by apply wrap_id).
  rewrite (Hw l), (Hw (length - n)), (Hw (l + 1)) by lia. rewrite (proj2 (Z.ltb_ge _ _)) by lia.
  rewrite Hw by lia. rewrite <- (upto_from l t) at 2. rewrite app_assoc.
  apply IH; [unfold len in *; lia|lia| |lia|unfold rest in *; lia|lia|unfold rest in *; lia].
  intros _. by replace (off + 1 + l) with (off + (l + 1)) by lia.
Qed.

(** * Resource bodies *)

Definition body_ok (r : ResourceBody) : Prop :=
  match r with
  | AResource a => len a = 4
  | AAAAResource a => len a = 16
  | NSResource n | CNAMEResource n | PTRResource n => packable n
  | SOAResource ns mbox a b c d e =>
      packable ns /\ packable mbox /\ in_width 32 a /\ in_width 32 b /\ in_width 32 c /\ in_width 32 d /\ in_width 32 e
  | MXResource pref mx => in_width 16 pref /\ packable mx
  | TXTResource t => len t <= max_text
  | SRVResource a b c n => in_width 16 a /\ in_width 16 b /\ in_width 16 c /\ packable n
  end.

#[global] Instance body_ok_dec r : Decision (body_ok r).
Proof. destruct r; cbn; apply _. Defined.

(** The compressed names of a body. *)
Definition body_names (r : ResourceBody) : nat :=
  match r with
  | NSResource _ | CNAMEResource _ | PTRResource _ | MXResource _ _ => 1
  | SOAResource _ _ _ _ _ _ _ => 2
  | _ => 0
  end.

Lemma unpackResourceBody_reads M off hdr name r P body :
  unpack_body M off hdr = Some (name, r) -> reads_as r P body ->
  reads_as (unpackResourceBody M off hdr) P (body, off + rh_Length hdr).
Proof. intros Hu Hr. unfold unpackResourceBody. rewrite Hu. reads_step; [done|by left]. Qed.

(** What packing a body promises. *)
Definition body_packs (grow : Z -> Z -> Z) (h : Z -> bool) (P : nat) (r : ResourceBody) (msg : buf) (c : compression) : Prop :=
  exists msg' c' x, body_pack grow r msg c = (Ok msg', c') /\ grown msg msg' x /\ len x <= 65535 /\
    good (seen h (data msg')) (P + body_names r) c' /\ (c = None -> c' = None) /\
    forall M hdr, view_le (seen h (data msg')) (at_ M) -> len (data msg') <= len M ->
      rh_Type hdr = realType r -> rh_Length hdr = len x ->
      reads_as (unpackResourceBody M (len (data msg)) hdr) (P + body_names r) (r, len (data msg')).

Section bodies.
Context (grow : Z -> Z -> Z) (h : Z -> bool) (P : nat) (msg : buf) (c : compression).
Context (Hh : forall j, len (data msg) <= j -> h j = false) (Hg : good (seen h (data msg)) P c).

(** A body without compressed names: bytes that read back. *)
Lemma plain_body r msg' x : body_names r = O -> body_pack grow r msg c = (Ok msg', c) -> grown msg msg' x -> len x <= 65535 ->
  (forall M hdr, view_le (seen h (data msg')) (at_ M) -> len (data msg') <= len M ->
     rh_Type hdr = realType r -> rh_Length hdr = len x ->
     exists name u, unpack_body M (len (data msg)) hdr = Some (name, u) /\ reads_as u P r) -> body_packs grow h P r msg c.
Proof.
  intros Hn Hb Hx Hl Hu. exists msg', c, x. rewrite Hn, Nat.add_0_r. split_and!; [done|done|done| |done|].
  - by eapply grown_good.
  - intros M hdr HM HlM Ht Hlen. destruct (Hu M hdr HM HlM Ht Hlen) as (name & u & He & Hr).
    rewrite (grown_len _ _ _ Hx), <- Hlen. by eapply unpackResourceBody_reads.
Qed.

Lemma bytes_body (a : bytes) (mk : bytes -> ResourceBody) n : a <> [] -> len a = n -> n <= 65535 -> body_names (mk a) = O ->
  body_pack grow (mk a) msg c = (Ok (packBytes grow msg a), c) ->
  (forall M off hdr, rh_Type hdr = realType (mk a) -> exists name,
     unpack_body M off hdr = Some (name, '(b, _) ← unpackBytes M off n; Ok (mk b))) ->
  body_packs grow h P (mk a) msg c.
Proof.
  intros Hne Hl Hn Hz Hb Hu. eapply plain_body; [done|exact Hb|apply append_grown|lia|].
  intros M hdr HM _ Ht _. destruct (Hu M (len (data msg)) hdr Ht) as (name & ->).
  eexists _, _. split; [done|]. left. subst n.
  by rewrite (unpackBytes_stands M (len (data msg)) a (append_sees grow h msg a M Hh HM Hne)).
Qed.

(** A body that is one compressed name. *)
Lemma name_body (n : Name) (mk : Name -> ResourceBody) : packable n -> body_names (mk n) = 1%nat ->
  body_pack grow (mk n) msg c = Name_pack grow n msg c ->
  (forall M off hdr, rh_Type hdr = realType (mk n) -> exists name,
     unpack_body M off hdr = Some (name, '(m, _) ← Name_unpack M off; Ok (mk m))) ->
  body_packs grow h P (mk n) msg c.
Proof.
  intros Hn Hz Hb Hu. destruct (Name_pack_reads grow h P n msg c Hn Hh Hg) as (msg' & c' & x & Hp & Hx & Hlx & Hg' & Hc & Hr).
  exists msg', c', x. rewrite Hb, Hz, Nat.add_1_r. split_and!; [done|done|lia|done|done|].
  intros M hdr HM _ Ht Hlen. destruct (Hu M (len (data msg)) hdr Ht) as (name & He).
  rewrite (grown_len _ _ _ Hx), <- Hlen. eapply unpackResourceBody_reads; [done|]. reads_step; [by apply Hr|]. by left.
Qed.

Lemma txt_body t : len t <= max_text -> body_packs grow h P (TXTResource t) msg c.
Proof.
  intros Ht. destruct (packText_loop_spec grow (length t) msg t ltac:(done)) as (msg' & Hp & Hx).
  pose proof (text_wire_len (length t) t ltac:(done)) as [Hw _]. unfold max_text in Ht.
  apply (plain_body _ msg' (text_wire (length t) t)); [done| |done|lia|].
  - cbn [body_pack]. unfold TXTResource_pack, packText. by rewrite Hp.
  - intros M hdr HM HlM Hty Hlen. eexists "TXT", _. split; [unfold unpack_body; rewrite Hty; done|].
    left. unfold unpackTXTResource. rewrite (txt_loop_reads M (length t) t); [done|done| |  |done|lia|lia|lia].
    + pose proof (len_nonneg (data msg)). rewrite (grown_len _ _ _ Hx) in HlM.
      pose proof (len_nonneg (text_wire (length t) t)). lia.
    + intros Hne. destruct Hx as [Hd _]. rewrite Hd in HM.
      apply (append_sees (fun _ _ => 0) h msg); [done|by rewrite append_data|done].
Qed.

Lemma mx_body pref mx : in_width 16 pref -> packable mx -> body_packs grow h P (MXResource pref mx) msg c.
Proof.
  intros Hp Hn. pose proof (packUint16_grown grow msg pref) as G1.
  destruct (Name_pack_reads grow h P mx (packUint16 grow msg pref) c Hn (grown_holes h _ _ _ G1 Hh) (grown_good _ _ _ _ _ _ G1 Hg))
    as (msg' & c' & x & Hpk & Hx & Hlx & Hg' & Hc & Hr).
  exists msg', c', (be_put 2 pref ++ x). cbn [body_pack body_names]. unfold MXResource_pack. rewrite Hpk, Nat.add_1_r.
  split_and!; [done|by eapply grown_trans|rewrite len_app, len_be_put; lia|done|done|].
  intros M hdr HM _ Hty Hlen. pose proof (grown_len _ _ _ (grown_trans _ _ _ _ _ G1 Hx)) as Hl. rewrite Hl, <- Hlen.
  eapply unpackResourceBody_reads; [unfold unpack_body; rewrite Hty; reflexivity|]. unfold unpackMXResource.
  reads_step; [left; eapply packUint16_reads; [done|done|by eapply grown_view]|].
  reads_step; [by apply Hr|]. by left.
Qed.

(** The target of an SRV record is packed without the map. *)
Lemma srv_body a b d n : in_width 16 a -> in_width 16 b -> in_width 16 d -> packable n ->
  body_packs grow h P (SRVResource a b d n) msg c.
Proof.
  intros Ha Hb Hd Hn.
  set (m1 := packUint16 grow msg a). set (m2 := packUint16 grow m1 b). set (m3 := packUint16 grow m2 d).
  pose proof (packUint16_grown grow msg a : grown msg m1 _) as G1. pose proof (packUint16_grown grow m1 b : grown m1 m2 _) as G2.
  pose proof (packUint16_grown grow m2 d : grown m2 m3 _) as G3.
  pose proof (grown_holes h _ _ _ G1 Hh) as H1. pose proof (grown_holes h _ _ _ G2 H1) as H2. pose proof (grown_holes h _ _ _ G3 H2) as H3.
  assert (Hnone : good (seen h (data m3)) 0 None) by by intros m key ptr.
  destruct (Name_pack_reads grow h 0 n m3 None Hn H3 Hnone) as (msg' & c' & x & Hpk & Hx & Hlx & _ & _ & Hr).
  pose proof (grown_trans _ _ _ _ _ G1 (grown_trans _ _ _ _ _ G2 (grown_trans _ _ _ _ _ G3 Hx))) as G.
  eapply (plain_body _ msg' _); [done| |exact G| |].
  - cbn [body_pack]. unfold SRVResource_pack. fold m1 m2 m3. by rewrite Hpk.
  - rewrite !len_app, !len_be_put. lia.
  - intros M hdr HM _ Hty Hlen. eexists _, _. split; [unfold unpack_body; rewrite Hty; reflexivity|]. left.
    pose proof (grown_view h _ _ _ _ Hx HM) as V3. pose proof (grown_view h _ _ _ _ G3 V3) as V2.
    pose proof (grown_view h _ _ _ _ G2 V2) as V1. unfold unpackSRVResource.
    rewrite (packUint16_reads grow h msg a M Ha Hh V1). cbn [nest mbind outcome_bind]. fold m1.
    rewrite (packUint16_reads grow h m1 b M Hb H1 V2). cbn [nest mbind outcome_bind]. fold m2.
    rewrite (packUint16_reads grow h m2 d M Hd H2 V3). cbn [nest mbind outcome_bind]. fold m3.
    destruct (Hr M HM) as [->|[? _]]; [done|lia].
Qed.

Lemma soa_body ns mbox a b d e f : packable ns -> packable mbox ->
  in_width 32 a -> in_width 32 b -> in_width 32 d -> in_width 32 e -> in_width 32 f ->
  body_packs grow h P (SOAResource ns mbox a b d e f) msg c.
Proof.
  intros Hns Hmb Ha Hb Hd He Hf.
  destruct (Name_pack_reads grow h P ns msg c Hns Hh Hg) as (m0 & c0 & x0 & Hp0 & G0 & L0 & Hg0 & Hc0 & Hr0).
  pose proof (grown_holes h _ _ _ G0 Hh) as H0.
  destruct (Name_pack_reads grow h (S P) mbox m0 c0 Hmb H0 Hg0) as (m1 & c1 & x1 & Hp1 & G1 & L1 & Hg1 & Hc1 & Hr1).
  pose proof (grown_holes h _ _ _ G1 H0) as H1.
  set (m2 := packUint32 grow m1 a). pose proof (packUint32_grown grow m1 a : grown m1 m2 _) as G2. pose proof (grown_holes h _ _ _ G2 H1) as H2.
  set (m3 := packUint32 grow m2 b). pose proof (packUint32_grown grow m2 b : grown m2 m3 _) as G3. pose proof (grown_holes h _ _ _ G3 H2) as H3.
  set (m4 := packUint32 grow m3 d). pose proof (packUint32_grown grow m3 d : grown m3 m4 _) as G4. pose proof (grown_holes h _ _ _ G4 H3) as H4.
  set (m5 := packUint32 grow m4 e). pose proof (packUint32_grown grow m4 e : grown m4 m5 _) as G5. pose proof (grown_holes h _ _ _ G5 H4) as H5.
  set (m6 := packUint32 grow m5 f). pose proof (packUint32_grown grow m5 f : grown m5 m6 _) as G6.
  pose proof (grown_trans _ _ _ _ _ G2 (grown_trans _ _ _ _ _ G3 (grown_trans _ _ _ _ _ G4 (grown_trans _ _ _ _ _ G5 G6)))) as G26.
  pose proof (grown_trans _ _ _ _ _ G0 (grown_trans _ _ _ _ _ G1 G26)) as G.
  exists m6, c1. eexists. cbn [body_pack body_names]. unfold SOAResource_pack. rewrite Hp0, Hp1. cbn [after_name].
  fold m2 m3 m4 m5 m6. replace (P + 2)%nat with (S (S P)) by lia.
  split_and!; [done|exact G|rewrite !len_app, !len_be_put; lia|exact (grown_good _ _ _ _ _ _ G26 Hg1)|intros Hc; by apply Hc1, Hc0|].
  intros M hdr HM _ Hty Hlen. rewrite (grown_len _ _ _ G), <- Hlen.
  eapply unpackResourceBody_reads; [unfold unpack_body; rewrite Hty; reflexivity|]. unfold unpackSOAResource.
  pose proof (grown_view h _ _ _ _ G6 HM) as V5. pose proof (grown_view h _ _ _ _ G5 V5) as V4. pose proof (grown_view h _ _ _ _ G4 V4) as V3.
  pose proof (grown_view h _ _ _ _ G3 V3) as V2. pose proof (grown_view h _ _ _ _ G2 V2) as V1. pose proof (grown_view h _ _ _ _ G1 V1) as V0.
  reads_step; [eapply reads_as_mono; [|by apply Hr0]; lia|]. reads_step; [by apply Hr1|].
  reads_step; [left; by apply (packUint32_reads grow h m1 a M Ha H1)|].
  reads_step; [left; by apply (packUint32_reads grow h m2 b M Hb H2)|].
  reads_step; [left; by apply (packUint32_reads grow h m3 d M Hd H3)|].
  reads_step; [left; by apply (packUint32_reads grow h m4 e M He H4)|].
  reads_step; [left; by apply (packUint32_reads grow h m5 f M Hf H5)|]. by left.
Qed.

Lemma body_pack_reads r : body_ok r -> body_packs grow h P r msg c.
Proof.
  destruct r as [a|n|n|ns mbox s r t e m|n|pref mx|t|a|pr w po n]; cbn [body_ok].
  - intros Ha. apply (bytes_body a AResource 4); try done; [by intros ->|].
    intros M off hdr Hty. eexists. unfold unpack_body. by rewrite Hty.
  - intros Hn. apply (name_body n NSResource); try done. intros M off hdr Hty. eexists. unfold unpack_body. by rewrite Hty.
  - intros Hn. apply (name_body n CNAMEResource); try done. intros M off hdr Hty. eexists. unfold unpack_body. by rewrite Hty.
  - intros (? & ? & ? & ? & ? & ? & ?). by apply soa_body.
  - intros Hn. apply (name_body n PTRResource); try done. intros M off hdr Hty. eexists. unfold unpack_body. by rewrite Hty.
  - intros [? ?]. by apply mx_body.
  - apply txt_body.
  - intros Ha. apply (bytes_body a AAAAResource 16); try done; [by intros ->|].
    intros M off hdr Hty. eexists. unfold unpack_body. by rewrite Hty.
  - intros (? & ? & ? & ?). by apply srv_body.
Qed.
End bodies.

(** * Resources *)

Definition resource_ok (r : Resource) : Prop :=
  match r_Body r with
  | None => False
  | Some b => body_ok b /\ packable (rh_Name (r_Header r)) /\ in_width 16 (rh_Class (r_Header r)) /\ in_width 32 (rh_TTL (r_Header r))
  end.

#[global] Instance resource_ok_dec r : Decision (resource_ok r).
Proof. unfold resource_ok. destruct (r_Body r); apply _. Defined.

Definition resource_names (r : Resource) : nat := S (default O (body_names <$> r_Body r)).

(** A resource without the fields that packing fills in. *)
Definition erase (r : Resource) : Resource := mkResource (with_type 0 (with_length 0 (r_Header r))) (r_Body r).

(** A header and its body, as [Parser.resource] reads them. *)
Definition unpack_resource (sec : Z) (msg : bytes) (off : Z) : dns (Resource * Z) :=
  '(hdr, off) ← ResourceHeader_unpack msg off;
  '(body, off) ← nest ("unpacking " +:+ sectionNames sec) (unpackResourceBody msg off hdr);
  Ok (mkResource hdr (Some body), off).

(** The hole that [ResourceHeader.pack] leaves for the length. *)
Definition hole (L i : Z) : bool := (L <=? i) && (i <? L + 2).

Lemma hole_before L m x : L = len m -> view_le (seen no_hole m) (seen (hole L) (m ++ x)).
Proof.
  intros -> i b. unfold seen, no_hole, hole. intros Hb. pose proof (at_lt _ _ _ Hb).
  rewrite (proj2 (Z.leb_gt _ _)) by lia. cbn [andb]. by apply at_app_l.
Qed.

Lemma hole_filled m y y' x : len y = 2 -> len y' = 2 ->
  view_le (seen (hole (len m)) (m ++ y ++ x)) (seen no_hole (m ++ y' ++ x)).
Proof.
  intros Hy Hy' i b. unfold seen, no_hole, hole. destruct (Z.leb_spec (len m) i) as [Hi|Hi]; cbn [andb].
  - destruct (Z.ltb_spec i (len m + 2)); [done|].
    assert (Hz : forall z : list Z, len z = 2 -> at_ (m ++ z ++ x) i = at_ x (i - len m - 2)).
    { intros z Hz. rewrite app_assoc. rewrite <- (at_app_r (m ++ z) x (i - len m - 2)) by lia. f_equal. rewrite len_app. lia. }
    by rewrite !Hz.
  - intros Hb. destruct (decide (0 <= i)) as [H0|]; [|unfold at_ in Hb; rewrite decide_False in Hb by done; discriminate Hb].
    destruct (at_Some m i) as [b' Hb']; [lia|]. rewrite (at_app_l _ _ _ _ Hb') in Hb. rewrite <- Hb. by apply at_app_l.
Qed.

Lemma write_at_spec arr b m y y' x : data b = m ++ y ++ x -> len y = len y' ->
  let b' := write_at arr (len m) y' b in
  cap b' = cap b /\ array b' = array b /\
  data b' = m ++ (if arr =? array b then y' else y) ++ x.
Proof.
  intros Hd Hy b'. unfold b', write_at. destruct (_ =? _); cbn [cap array data]; [|done]. split_and!; [done|done|].
  rewrite Hd, upto_app_len by done. do 2 f_equal. rewrite app_assoc. apply from_app_len. rewrite len_app. lia.
Qed.

Lemma realType_width b : in_width 16 (realType b).
Proof. by destruct b. Qed.

Lemma be_put_bytes v : be_put 2 v = [u8 (shr v 8); u8 v].
Proof. cbn [be_put]. unfold shr. by rewrite Z.shiftr_0_r. Qed.

(** What packing an element promises: it appends bytes, and while the message
    stays within its capacity any message that has the bytes reads as [a]. *)
Definition element_packs {A} (f : bytes -> Z -> dns (A * Z)) (P n : nat) (msg : buf) (r : dns buf * compression) (a : A) : Prop :=
  exists msg' c' x, r = (Ok msg', c') /\ grown msg msg' x /\ good (seen no_hole (data msg')) (P + n) c' /\
    (len (data msg') <= cap msg -> forall M, view_le (seen no_hole (data msg')) (at_ M) -> len (data msg') <= len M ->
       reads_as (f M (len (data msg))) (P + n) (a, len (data msg'))).

Lemma no_holes (b : buf) : forall j, len (data b) <= j -> no_hole j = false.
Proof. done. Qed.

Section resource.
Context (grow : Z -> Z -> Z) (P : nat) (msg : buf) (c : compression).
Context (Hg : good (seen no_hole (data msg)) P c).

(** The header up to the length, and the length's hole. *)
Lemma ResourceHeader_pack_reads h : packable (rh_Name h) -> in_width 16 (rh_Type h) -> in_width 16 (rh_Class h) -> in_width 32 (rh_TTL h) ->
  exists m4 m5 c' x, let L := len (data m4) in
    ResourceHeader_pack grow h msg c = (Ok (m5, (array m5, L)), c') /\
    grown msg m4 x /\ grown m4 m5 (be_put 2 (rh_Length h)) /\ good (seen (hole L) (data m5)) (S P) c' /\
    forall M v, view_le (seen no_hole (data m4)) (at_ M) -> in_width 16 v -> stands M L (be_put 2 v) ->
      reads_as (ResourceHeader_unpack M (len (data msg))) (S P) (with_length v h, L + 2).
Proof.
  intros Hn Ht Hc Httl.
  destruct (Name_pack_reads grow no_hole P (rh_Name h) msg c Hn (no_holes msg) Hg) as (m1 & c1 & x1 & Hp & G1 & _ & Hg1 & _ & Hr).
  set (m2 := packUint16 grow m1 (rh_Type h)). pose proof (packUint16_grown grow m1 (rh_Type h) : grown m1 m2 _) as G2.
  set (m3 := packUint16 grow m2 (rh_Class h)). pose proof (packUint16_grown grow m2 (rh_Class h) : grown m2 m3 _) as G3.
  set (m4 := packUint32 grow m3 (rh_TTL h)). pose proof (packUint32_grown grow m3 (rh_TTL h) : grown m3 m4 _) as G4.
  set (m5 := packUint16 grow m4 (rh_Length h)). pose proof (packUint16_grown grow m4 (rh_Length h) : grown m4 m5 _) as G5.
  exists m4, m5, c1. eexists. cbv zeta. split_and!.
  - unfold ResourceHeader_pack. rewrite Hp. cbv zeta. reflexivity.
  - exact (grown_trans _ _ _ _ _ G1 (grown_trans _ _ _ _ _ G2 (grown_trans _ _ _ _ _ G3 G4))).
  - done.
  - apply (good_mono (seen no_hole (data m1)) _ (S P) _ c1); [|done|done].
    apply (view_le_trans _ (seen no_hole (data m4))).
    + exact (grown_seen _ _ _ _ (grown_trans _ _ _ _ _ G2 (grown_trans _ _ _ _ _ G3 G4))).
    + rewrite (proj1 G5). by apply hole_before.
  - intros M v HM Hv Hs.
    pose proof (grown_view _ _ _ _ _ G4 HM) as V3. pose proof (grown_view _ _ _ _ _ G3 V3) as V2. pose proof (grown_view _ _ _ _ _ G2 V2) as V1.
    unfold ResourceHeader_unpack. reads_step; [by apply Hr|].
    reads_step; [left; by apply (packUint16_reads grow no_hole m1 _ M Ht (no_holes m1))|].
    reads_step; [left; by apply (packUint16_reads grow no_hole m2 _ M Hc (no_holes m2))|].
    reads_step; [left; by apply (packUint32_reads grow no_hole m3 _ M Httl (no_holes m3))|].
    reads_step; [left; by apply unpackUint16_stands|]. by left.
Qed.

Lemma Resource_pack_reads sec r : resource_ok r ->
  exists r', snd (Resource_pack grow r msg c) = r' /\ erase r' = erase r /\
    element_packs (unpack_resource sec) P (resource_names r) msg (fst (Resource_pack grow r msg c)) r'.
Proof.
  destruct r as [h [b|]]; [|done]. unfold resource_ok. cbn [r_Body r_Header]. intros (Hb & Hn & Hc & Httl).
  destruct (ResourceHeader_pack_reads (with_type (realType b) h)) as (m4 & m5 & c5 & x4 & Hp & G4 & G5 & Hg5 & Hr5); [done|apply realType_width|done|done|].
  set (L := len (data m4)) in *. pose proof (grown_len _ _ _ G5) as Hl5. rewrite len_be_put in Hl5.
  destruct (body_pack_reads grow (hole L) (S P) m5 c5) with (r := b) as (m6 & c6 & x6 & Hp6 & G6 & Hx6 & Hg6 & _ & Hr6); [| done|done|].
  { intros j Hj. unfold hole. rewrite (proj2 (Z.ltb_ge _ _)) by lia. apply andb_false_r. }
  pose proof (len_nonneg x6) as Hx6'. pose proof (grown_len _ _ _ G6) as Hl6.
  assert (Hw : in_width 16 (len x6)) by (unfold in_width; lia).
  assert (Hd6 : data m6 = data m4 ++ be_put 2 (rh_Length h) ++ x6) by by rewrite (proj1 G6), (proj1 G5), <- app_assoc.
  destruct (write_at_spec (array m5) m6 (data m4) _ (be_put 2 (len x6)) _ Hd6 eq_refl) as (Hcap & Harr & Hd7). fold L in Hcap, Harr, Hd7.
  set (m7 := write_at (array m5) L (be_put 2 (len x6)) m6) in *.
  exists (mkResource (with_length (len x6) (with_type (realType b) h)) (Some b)).
  assert (Hrun : Resource_pack grow (mkResource h (Some b)) msg c =
    (Ok m7, c6, mkResource (with_length (len x6) (with_type (realType b) h)) (Some b))).
  { unfold Resource_pack. cbn [r_Body r_Header]. rewrite Hp, Hp6. unfold fixLen. rewrite Hl6.
    replace (len (data m5) + len x6 - len (data m5)) with (len x6) by lia. rewrite (proj2 (Z.ltb_ge _ _)) by lia.
    unfold u16 at 1 2 3. rewrite !wrap_id by done. rewrite <- be_put_bytes. done. }
  rewrite Hrun. cbn [fst snd]. split_and!; [done|done|].
  pose proof (grown_trans _ _ _ _ _ G4 (grown_trans _ _ _ _ _ G5 G6)) as G.
  assert (H67 : view_le (seen (hole L) (data m6)) (seen no_hole (data m7))).
  { rewrite Hd7, Hd6. destruct (_ =? _); by apply hole_filled. }
  assert (Hlen : len (data m7) = len (data m6)) by (rewrite Hd7, Hd6; destruct (_ =? _); rewrite !len_app, !len_be_put; done).
  exists m7, c6. eexists. split_and!; [done| | |].
  - split.
    + rewrite Hd7, (proj1 G4), <- app_assoc. reflexivity.
    + rewrite Hlen. intros Hf. destruct (proj2 G Hf) as [E1 E2]. split; congruence.
  - change (resource_names _) with (S (body_names b)).
    eapply good_mono; [exact H67| |exact Hg6]. lia.
  - rewrite Hlen. intros Hf M HM HlM. change (resource_names _) with (S (body_names b)).
    assert (Harr56 : (array m5 =? array m6) = true).
    { apply Z.eqb_eq. destruct G6 as [_ S6]. destruct (proj2 (grown_trans _ _ _ _ _ G4 G5)) as [E1 E2]; [lia|].
      destruct S6 as [_ E]; [rewrite E1; lia|done]. }
    rewrite Harr56 in Hd7.
    assert (V6 : view_le (seen (hole L) (data m6)) (at_ M)) by (eapply view_le_trans; [exact H67|exact HM]).
    assert (V4 : view_le (seen no_hole (data m4)) (at_ M)).
    { eapply view_le_trans; [|exact V6]. rewrite Hd6. by apply hole_before. }
    assert (Hs : stands M L (be_put 2 (len x6))).
    { apply sees_stands; [split; [apply len_nonneg|lia]|]. eapply sees_mono; [exact HM|]. rewrite Hd7.
      apply (sees_app _ _ _ x6). by apply seen_end. }
    unfold unpack_resource.
    reads_step; [eapply reads_as_mono; [|apply (Hr5 M (len x6) V4 Hw Hs)]; lia|].
    replace (L + 2) with (len (data m5)) by lia. reads_step; [eapply reads_as_mono; [|apply (Hr6 M); [done|done|done|done]]; lia|]. by left.
Qed.
End resource.

(** * Sections *)

Definition question_ok (q : Question) : Prop := packable (q_Name q) /\ in_width 16 (q_Type q) /\ in_width 16 (q_Class q).

#[global] Instance question_ok_dec q : Decision (question_ok q).
Proof. unfold question_ok. apply _. Defined.

(** Elements that follow each other in a message. *)
Inductive chain {A} (f : Z -> dns (A * Z)) (P : nat) : Z -> list A -> Z -> Prop :=
| chain_nil off : chain f P off [] off
| chain_cons off a off1 xs off2 : reads_as (f off) P (a, off1) -> chain f P off1 xs off2 -> chain f P off (a :: xs) off2.

Lemma chain_mono {A} (f : Z -> dns (A * Z)) P Q off xs off' : (P <= Q)%nat -> chain f P off xs off' -> chain f Q off xs off'.
Proof.
  intros HP Hc. induction Hc as [off|off a off1 xs off2 H Hc IH]; [constructor|].
  apply (chain_cons _ _ _ _ off1); [by eapply reads_as_mono|done].
Qed.

(** What packing a section promises. *)
Definition section_packs {A} (f : bytes -> Z -> dns (A * Z)) (P n : nat) (msg : buf) (r : dns buf * compression) (xs : list A) : Prop :=
  exists msg' c' x, r = (Ok msg', c') /\ grown msg msg' x /\ good (seen no_hole (data msg')) (P + n) c' /\
    (len (data msg') <= cap msg -> forall M, view_le (seen no_hole (data msg')) (at_ M) -> len (data msg') <= len M ->
       chain (f M) (P + n) (len (data msg)) xs (len (data msg'))).

Lemma section_nil {A} (f : bytes -> Z -> dns (A * Z)) P msg c : good (seen no_hole (data msg)) P c ->
  section_packs f P 0 msg (Ok msg, c) [].
Proof.
  intros Hg. exists msg, c, []. rewrite Nat.add_0_r. split_and!; [done|apply grown_refl|done|]. intros. constructor.
Qed.

Lemma section_cons {A} (f : bytes -> Z -> dns (A * Z)) P n k msg msg1 x1 r a xs :
  grown msg msg1 x1 ->
  (len (data msg1) <= cap msg -> forall M, view_le (seen no_hole (data msg1)) (at_ M) -> len (data msg1) <= len M ->
     reads_as (f M (len (data msg))) (P + n) (a, len (data msg1))) ->
  section_packs f (P + n) k msg1 r xs -> section_packs f P (n + k) msg r (a :: xs).
Proof.
  intros G1 H1 (msg2 & c2 & x2 & -> & G2 & Hg2 & H2). exists msg2, c2, (x1 ++ x2). rewrite Nat.add_assoc.
  pose proof (grown_len _ _ _ G2) as Hl. pose proof (len_nonneg x2).
  split_and!; [done|by eapply grown_trans|done|]. intros Hf M HM HlM.
  destruct (proj2 G1) as [Hcap _]; [lia|].
  apply (chain_cons _ _ _ _ (len (data msg1))).
  - eapply reads_as_mono; [|apply H1; [lia| |lia]]; [lia|by eapply grown_view].
  - apply H2; [lia|done|done].
Qed.

Lemma Question_pack_reads grow P msg c q : question_ok q -> good (seen no_hole (data msg)) P c ->
  element_packs unpack_question P 1 msg (Question_pack grow q msg c) q.
Proof.
  intros (Hn & Ht & Hc) Hg.
  destruct (Name_pack_reads grow no_hole P (q_Name q) msg c Hn (no_holes msg) Hg) as (m1 & c1 & x1 & Hp & G1 & _ & Hg1 & _ & Hr).
  set (m2 := packUint16 grow m1 (q_Type q)). pose proof (packUint16_grown grow m1 (q_Type q) : grown m1 m2 _) as G2.
  set (m3 := packUint16 grow m2 (q_Class q)). pose proof (packUint16_grown grow m2 (q_Class q) : grown m2 m3 _) as G3.
  exists m3, c1. eexists. rewrite Nat.add_1_r. split_and!.
  - unfold Question_pack. rewrite Hp. reflexivity.
  - exact (grown_trans _ _ _ _ _ G1 (grown_trans _ _ _ _ _ G2 G3)).
  - exact (grown_good _ _ _ _ _ _ (grown_trans _ _ _ _ _ G2 G3) Hg1).
  - intros _ M HM _. pose proof (grown_view _ _ _ _ _ G3 HM) as V2. pose proof (grown_view _ _ _ _ _ G2 V2) as V1.
    unfold unpack_question. reads_step; [by apply Hr|].
    reads_step; [left; by apply (packUint16_reads grow no_hole m1 _ M Ht (no_holes m1))|].
    reads_step; [left; by apply (packUint16_reads grow no_hole m2 _ M Hc (no_holes m2))|].
    left. by destruct q.
Qed.

Lemma pack_questions_reads grow qs : Forall question_ok qs -> forall P msg c, good (seen no_hole (data msg)) P c ->
  section_packs unpack_question P (length qs) msg (pack_questions grow qs msg c) qs.
Proof.
  induction 1 as [|q qs Hq Hqs IH]; intros P msg c Hg; [by apply section_nil|]. cbn [pack_questions].
  destruct (Question_pack_reads grow P msg c q Hq Hg) as (m1 & c1 & x1 & -> & G1 & Hg1 & H1).
  change (length (q :: qs)) with (1 + length qs)%nat. eapply section_cons; [done|done|]. by apply IH.
Qed.

Definition names_in (rs : list Resource) : nat := sum_list_with resource_names rs.

Lemma pack_resources_reads grow s sec rs : Forall resource_ok rs -> forall P msg c, good (seen no_hole (data msg)) P c ->
  exists rs', snd (pack_resources grow s rs msg c) = rs' /\ erase <$> rs' = erase <$> rs /\
    section_packs (unpack_resource sec) P (names_in rs) msg (fst (pack_resources grow s rs msg c)) rs'.
Proof.
  induction 1 as [|r rs Hr Hrs IH]; intros P msg c Hg.
  { exists []. split_and!; [done|done|by apply section_nil]. }
  destruct (Resource_pack_reads grow P msg c Hg sec r Hr) as (r' & Hr' & He & m1 & c1 & x1 & Hp & G1 & Hg1 & H1).
  destruct (IH _ m1 c1 Hg1) as (rs' & Hrs' & Hes & Hsec). cbn [pack_resources].
  destruct (Resource_pack grow r msg c) as [[res c2] r2]. cbn [fst snd] in *. injection Hp as -> ->. subst r2.
  destruct (pack_resources grow s rs m1 c1) as [[res2 c2] rs2]. cbn [fst snd] in *. subst rs2.
  exists (r' :: rs'). split_and!; [done|by rewrite !fmap_cons, He, Hes|].
  change (names_in (r :: rs)) with (resource_names r + names_in rs)%nat. by eapply section_cons.
Qed.

(** * Parsing a section *)

(** A parser before the [i]-th element of the section [sec]. *)
Definition before (M : bytes) (hd : header) (sec off i : Z) (p : Parser) : Prop :=
  p_msg p = Some M /\ p_header p = hd /\ p_section p = sec /\ p_off p = off /\ p_index p = i /\ p_resHeaderValid p = false.

(** The method [op] reads one element of a section with [f]. *)
Definition reads_section {A} (op : method A) (f : bytes -> Z -> dns (A * Z)) (sec : Z) : Prop :=
  forall M hd off i p, before M hd sec off i p ->
    (i = header_count hd sec -> exists p', op p = (Fail ErrSectionDone, p') /\ before M hd (u8 (sec + 1)) off 0 p') /\
    (i <> header_count hd sec ->
       match f M off with
       | Ok (a, off') => exists p', op p = (Ok a, p') /\ before M hd sec off' (i + 1) p'
       | Fail e => exists p', op p = (Fail e, p')
       | Panic => True
       end).

Lemma checkAdvance_before M hd sec off i p : before M hd sec off i p ->
  checkAdvance sec p = if i =? header_count hd sec then (Fail ErrSectionDone, next_section (drop_pending p)) else (Ok tt, drop_pending p).
Proof.
  destruct p as [m h s o ix v rh]. unfold before. cbn. intros (-> & -> & -> & -> & -> & ->). unfold checkAdvance.
  cbn. by rewrite !Z.ltb_irrefl.
Qed.

Lemma Question_reads : reads_section Parser_Question unpack_question sectionQuestions.
Proof.
  intros M hd off i p Hb. unfold Parser_Question, andThen, reads, update, return_. rewrite (checkAdvance_before _ _ _ _ _ _ Hb).
  destruct p as [m h s o ix v rh]. unfold before in Hb. cbn in Hb. destruct Hb as (-> & -> & -> & -> & -> & ->). split; intros Hi.
  - rewrite (proj2 (Z.eqb_eq _ _) Hi). by eexists.
  - rewrite (proj2 (Z.eqb_neq _ _) Hi). unfold bytes_of. cbn. destruct (unpack_question M off) as [[q off']|e|]; [|eauto|done].
    eexists. split; [done|]. done.
Qed.

Lemma resource_reads sec : reads_section (resource sec) (unpack_resource sec) sec.
Proof.
  intros M hd off i p Hb. pose proof (checkAdvance_before _ _ _ _ _ _ Hb) as Hc.
  destruct p as [m h s o ix v rh]. unfold before in Hb. cbn in Hb. destruct Hb as (-> & -> & -> & -> & -> & ->).
  unfold resource, resourceHeader, andThen, reads, update, return_. cbn [p_resHeaderValid]. rewrite Hc. split; intros Hi.
  - rewrite (proj2 (Z.eqb_eq _ _) Hi). by eexists.
  - rewrite (proj2 (Z.eqb_neq _ _) Hi). unfold bytes_of, unpack_resource. cbn.
    destruct (ResourceHeader_unpack M off) as [[hdr off1]|e|]; cbn; [|eauto|done].
    destruct (unpackResourceBody M off1 hdr) as [[b off2]|e|]; cbn; [|eauto|done].
    eexists. split; [done|]. done.
Qed.

Lemma all_loop_reads {A} (op : method A) f sec P M hd : reads_section op f sec -> forall xs off off' fuel acc i p,
  chain (f M) P off xs off' -> before M hd sec off i p -> i + len xs = header_count hd sec -> (length xs < fuel)%nat ->
  (exists p', all_loop fuel op acc p = (Ok (acc ++ xs), p') /\ before M hd (u8 (sec + 1)) off' 0 p') \/
  ((10 < P)%nat /\ exists e p', all_loop fuel op acc p = (Fail e, p') /\ too_many_ptr e).
Proof.
  intros Hop. induction xs as [|x xs IH]; intros off off' fuel acc i p Hc Hb Hi Hf; (destruct fuel as [|fuel]; [simpl in Hf; lia|]); cbn [all_loop].
  - invert Hc. destruct (proj1 (Hop _ _ _ _ _ Hb)) as (p' & -> & Hb'); [change (len []) with 0 in Hi; lia|].
    left. exists p'. by rewrite app_nil_r.
  - invert Hc. rewrite len_cons in Hi. pose proof (len_nonneg xs).
    pose proof (proj2 (Hop _ _ _ _ _ Hb) ltac:(lia)) as Hx. match goal with H : reads_as _ _ _ |- _ => destruct H as [E|(Hp & e & E & He)] end.
    + rewrite E in Hx. destruct Hx as (p' & -> & Hb').
      destruct (IH _ off' fuel (acc ++ [x]) _ p' ltac:(done) Hb' ltac:(lia) ltac:(simpl in Hf; lia)) as [(q & Hq & Hbq)|H']; [left|by right].
      exists q. by rewrite <- app_assoc in Hq.
    + rewrite E in Hx. destruct Hx as (p' & ->). right. split; [done|]. exists e, p'. split; [|done]. by destruct e.
Qed.

(** * Headers *)

Definition header_ok (h : Header) : Prop := in_width 16 (ID h) /\ in_width 4 (OpCode h) /\ in_width 4 (RCode h).

#[global] Instance header_ok_dec h : Decision (header_ok h).
Proof. unfold header_ok. apply _. Defined.

Definition bools : list bool := [true; false].

Lemma in_bools (b : bool) : In b bools.
Proof. destruct b; simpl; tauto. Qed.

Definition header_check (op rc : Z) (qr aa tc rd ra : bool) : bool :=
  let bits := snd (Header_pack (mkHeader 0 qr op aa tc rd ra rc)) in
  let h := header_header (mkheader 0 bits 0 0 0 0) in
  (0 <=? bits) && (bits <? 65536) && (OpCode h =? op) && (RCode h =? rc) && eqb (Response h) qr && eqb (Authoritative h) aa &&
  eqb (Truncated h) tc && eqb (RecursionDesired h) rd && eqb (RecursionAvailable h) ra.

Lemma header_check_all : forallb (fun op => forallb (fun rc => forallb (fun qr => forallb (fun aa => forallb (fun tc =>
  forallb (fun rd => forallb (fun ra => header_check op rc qr aa tc rd ra) bools) bools) bools) bools) bools) (seqZ 0 16)) (seqZ 0 16) = true.
Proof. by vm_compute. Qed.

Lemma header_roundtrip h id bits a b c d : header_ok h -> Header_pack h = (id, bits) ->
  in_width 16 id /\ in_width 16 bits /\ header_header (mkheader id bits a b c d) = h.
Proof.
  destruct h as [i qr op aa tc rd ra rc]. unfold header_ok. cbn [ID OpCode RCode]. intros (Hi & Ho & Hr) Hp.
  assert (Hin : forall x, in_width 4 x -> In x (seqZ 0 16)).
  { intros x Hx. apply list_elem_of_In, elem_of_seqZ. unfold in_width in Hx. lia. }
  pose proof header_check_all as H.
  repeat match type of H with forallb _ _ = true => rewrite forallb_forall in H end.
  specialize (H op (Hin op Ho)). rewrite forallb_forall in H. specialize (H rc (Hin rc Hr)).
  rewrite forallb_forall in H. specialize (H qr (in_bools qr)). rewrite forallb_forall in H. specialize (H aa (in_bools aa)).
  rewrite forallb_forall in H. specialize (H tc (in_bools tc)). rewrite forallb_forall in H. specialize (H rd (in_bools rd)).
  rewrite forallb_forall in H. specialize (H ra (in_bools ra)). unfold header_check in H.
  assert (Hb : snd (Header_pack (mkHeader 0 qr op aa tc rd ra rc)) = bits) by (by injection Hp).
  assert (Hid : id = i) by (by injection Hp). rewrite Hb in H. subst id.
  repeat (apply andb_prop in H as [H ?]).
  apply Z.leb_le in H. repeat match goal with
  | E : (_ =? _) = true |- _ => apply Z.eqb_eq in E
  | E : (_ <? _) = true |- _ => apply Z.ltb_lt in E
  | E : eqb _ _ = true |- _ => apply eqb_prop in E
  end. split_and!; [done|unfold in_width; lia|].
  unfold header_header in *. cbn in *. by f_equal.
Qed.

Lemma header_pack_reads grow h msg : data msg = [] ->
  in_width 16 (h_id h) -> in_width 16 (h_bits h) -> in_width 16 (h_questions h) -> in_width 16 (h_answers h) ->
  in_width 16 (h_authorities h) -> in_width 16 (h_additionals h) ->
  exists x, grown msg (header_pack grow h msg) x /\ len (data (header_pack grow h msg)) = headerLen /\
    forall M, view_le (seen no_hole (data (header_pack grow h msg))) (at_ M) -> header_unpack header_zero M 0 = (Ok headerLen, h).
Proof.
  intros Hd H1 H2 H3 H4 H5 H6.
  set (m1 := packUint16 grow msg (h_id h)). pose proof (packUint16_grown grow msg (h_id h) : grown msg m1 _) as G1.
  set (m2 := packUint16 grow m1 (h_bits h)). pose proof (packUint16_grown grow m1 (h_bits h) : grown m1 m2 _) as G2.
  set (m3 := packUint16 grow m2 (h_questions h)). pose proof (packUint16_grown grow m2 (h_questions h) : grown m2 m3 _) as G3.
  set (m4 := packUint16 grow m3 (h_answers h)). pose proof (packUint16_grown grow m3 (h_answers h) : grown m3 m4 _) as G4.
  set (m5 := packUint16 grow m4 (h_authorities h)). pose proof (packUint16_grown grow m4 (h_authorities h) : grown m4 m5 _) as G5.
  set (m6 := packUint16 grow m5 (h_additionals h)). pose proof (packUint16_grown grow m5 (h_additionals h) : grown m5 m6 _) as G6.
  change (header_pack grow h msg) with m6. eexists. split_and!.
  - exact (grown_trans _ _ _ _ _ G1 (grown_trans _ _ _ _ _ G2 (grown_trans _ _ _ _ _ G3 (grown_trans _ _ _ _ _ G4 (grown_trans _ _ _ _ _ G5 G6))))).
  - rewrite (grown_len _ _ _ G6), (grown_len _ _ _ G5), (grown_len _ _ _ G4), (grown_len _ _ _ G3), (grown_len _ _ _ G2), (grown_len _ _ _ G1), Hd.
    by rewrite !len_be_put.
  - intros M V6.
    pose proof (grown_view _ _ _ _ _ G6 V6) as V5. pose proof (grown_view _ _ _ _ _ G5 V5) as V4. pose proof (grown_view _ _ _ _ _ G4 V4) as V3.
    pose proof (grown_view _ _ _ _ _ G3 V3) as V2. pose proof (grown_view _ _ _ _ _ G2 V2) as V1.
    pose proof (packUint16_reads grow no_hole msg _ M H1 (no_holes msg) V1) as R1. rewrite Hd in R1. change (len []) with 0 in R1.
    unfold header_unpack. cbn [unpack_field]. rewrite R1. cbn [unpack_field]. fold m1.
    rewrite (packUint16_reads grow no_hole m1 _ M H2 (no_holes m1) V2). cbn [unpack_field]. fold m2.
    rewrite (packUint16_reads grow no_hole m2 _ M H3 (no_holes m2) V3). cbn [unpack_field]. fold m3.
    rewrite (packUint16_reads grow no_hole m3 _ M H4 (no_holes m3) V4). cbn [unpack_field]. fold m4.
    rewrite (packUint16_reads grow no_hole m4 _ M H5 (no_holes m4) V5). cbn [unpack_field]. fold m5.
    rewrite (packUint16_reads grow no_hole m5 _ M H6 (no_holes m5) V6). fold m6.
    f_equal; [f_equal|by destruct h].
    rewrite (grown_len _ _ _ G6), (grown_len _ _ _ G5), (grown_len _ _ _ G4), (grown_len _ _ _ G3), (grown_len _ _ _ G2), (grown_len _ _ _ G1), Hd.
    by rewrite !len_be_put.
Qed.

(** * Messages *)

Definition message_ok (m : Message) : Prop :=
  header_ok (m_Header m) /\ Forall question_ok (Questions m) /\ Forall resource_ok (Answers m) /\
  Forall resource_ok (Authorities m) /\ Forall resource_ok (Additionals m) /\
  len (Questions m) <= 65535 /\ len (Answers m) <= 65535 /\ len (Authorities m) <= 65535 /\ len (Additionals m) <= 65535.

#[global] Instance message_ok_dec m : Decision (message_ok m).
Proof. unfold message_ok. apply _. Defined.

(** The compressed names of a message. *)
Definition message_names (m : Message) : nat :=
  length (Questions m) + names_in (Answers m) + names_in (Authorities m) + names_in (Additionals m).

(** A message without the fields that packing fills in. *)
Definition erase_message (m : Message) : Message :=
  mkMessage (m_Header m) (Questions m) (erase <$> Answers m) (erase <$> Authorities m) (erase <$> Additionals m).

(** How [Message.Unpack] ends on the bytes of [m']. *)
Definition unpacks_as (bs : bytes) (P : nat) (m' : Message) : Prop := forall m0,
  Message_Unpack m0 (Some bs) = (Ok tt, m') \/
  ((10 < P)%nat /\ exists e m1, Message_Unpack m0 (Some bs) = (Fail e, m1) /\ too_many_ptr e).

Lemma sections_unpack M hd h P m' o0 o1 o2 o3 o4 :
  header_unpack header_zero M 0 = (Ok o0, hd) -> header_header hd = h -> m_Header m' = h ->
  h_questions hd = len (Questions m') -> h_answers hd = len (Answers m') ->
  h_authorities hd = len (Authorities m') -> h_additionals hd = len (Additionals m') ->
  chain (unpack_question M) P o0 (Questions m') o1 -> chain (unpack_resource sectionAnswers M) P o1 (Answers m') o2 ->
  chain (unpack_resource sectionAuthorities M) P o2 (Authorities m') o3 ->
  chain (unpack_resource sectionAdditionals M) P o3 (Additionals m') o4 -> unpacks_as M P m'.
Proof.
  intros Hu Hh Hm Hq Ha Hn Hd Cq Ca Cn Cd m0. unfold Message_Unpack.
  assert (Hst : exists p, Start (Some M) Parser_zero = (Ok h, p) /\ before M hd sectionQuestions o0 0 p).
  { unfold Start. cbn [p_msg Parser_zero p_header default from_option id]. rewrite Hu, Hh. by eexists. }
  destruct Hst as (p0 & -> & B0).
  assert (Hfuel : forall A sec p off (xs : list A), before M hd sec off 0 p -> header_count hd sec = len xs -> (length xs < all_fuel sec p)%nat).
  { intros A sec p off xs (_ & E & _) Hc. unfold all_fuel. rewrite E, Hc. unfold len. lia. }
  assert (Hs : forall A (op : method A) f sec p off off' xs, reads_section op f sec -> chain (f M) P off xs off' ->
    before M hd sec off 0 p -> header_count hd sec = len xs ->
    (exists p', all_of sec op p = (Ok xs, p') /\ before M hd (u8 (sec + 1)) off' 0 p') \/
    ((10 < P)%nat /\ exists e p', all_of sec op p = (Fail e, p') /\ too_many_ptr e)).
  { intros A op f sec p off off' xs Hop Hc Hb Hl. unfold all_of.
    apply (all_loop_reads op f sec P M hd Hop xs off off' _ [] 0 p Hc Hb); [lia|by eapply Hfuel]. }
  destruct (Hs _ _ _ sectionQuestions p0 o0 o1 (Questions m') Question_reads Cq B0 Hq) as [(p1 & E1 & B1)|(HP & e & p1 & E1 & He)];
    unfold AllQuestions; rewrite E1; [|right; split; [done|by eexists _, _]].
  destruct (Hs _ _ _ sectionAnswers p1 o1 o2 (Answers m') (resource_reads _) Ca B1 Ha) as [(p2 & E2 & B2)|(HP & e & p2 & E2 & He)];
    unfold AllAnswers, Answer; rewrite E2; [|right; split; [done|by eexists _, _]].
  destruct (Hs _ _ _ sectionAuthorities p2 o2 o3 (Authorities m') (resource_reads _) Cn B2 Hn) as [(p3 & E3 & B3)|(HP & e & p3 & E3 & He)];
    unfold AllAuthorities, Authority; rewrite E3; [|right; split; [done|by eexists _, _]].
  destruct (Hs _ _ _ sectionAdditionals p3 o3 o4 (Additionals m') (resource_reads _) Cd B3 Hd) as [(p4 & E4 & B4)|(HP & e & p4 & E4 & He)];
    unfold AllAdditionals, Additional; rewrite E4; [|right; split; [done|by eexists _, _]].
  left. cbn. destruct m'; cbn in *. by subst.
Qed.

Lemma len_fmap_eq {A B} (f : A -> B) (l k : list A) : f <$> l = f <$> k -> len l = len k.
Proof. intros H. apply (f_equal length) in H. rewrite !length_fmap in H. unfold len. by rewrite H. Qed.


(** A response whose names share suffixes at the same place. *)
Definition sample_message : Message :=
  let n s := named (str s) in
  let h s := mkResourceHeader (n s) 0 1 3600 0 in
  mkMessage (mkHeader 4660 true 0 true false true true 0) [mkQuestion (n "a.example.") 255 1]
    [mkResource (h "a.example.") (Some (AResource [192; 0; 2; 1]));
     mkResource (h "b.example.") (Some (CNAMEResource (n "a.example.")));
     mkResource (h "a.example.") (Some (MXResource 10 (n "m.example.")));
     mkResource (h "a.example.") (Some (TXTResource (str "some text")))]
    [mkResource (h "c.example.") (Some (SOAResource (n "a.example.") (n "q.example.") 1 2 3 4 5))]
    [mkResource (h "s.example.") (Some (SRVResource 1 2 3 (n "a.example.")))].

