(* ===== verification/DnsBuilder.v ===== *)
(** The incremental [Builder] of [dns/dnsmessage/message.go], and that it builds
    what [Message.Pack] packs. *)
From S2P Require Import Prelude.
From S2P Require Import DnsWire DnsName DnsMessage.

Record Builder := mkBuilder { b_msg : buf; b_header : header; b_section : Z; b_compression : compression }.

Definition Builder_zero : Builder := mkBuilder (mkBuf [] 0 0) header_zero sectionNotStarted None.

Definition with_section (s : Z) (b : Builder) : Builder := mkBuilder (b_msg b) (b_header b) s (b_compression b).
Definition with_compression (c : compression) (b : Builder) : Builder := mkBuilder (b_msg b) (b_header b) (b_section b) c.
Definition with_msg (m : buf) (b : Builder) : Builder := mkBuilder m (b_header b) (b_section b) (b_compression b).
Definition with_header (h : header) (b : Builder) : Builder := mkBuilder (b_msg b) h (b_section b) (b_compression b).

(** [Builder.StartWithoutCompression]; the buffer given is the whole array of
    the slice, [None] for nil. *)
Definition StartWithoutCompression (buf : option bytes) (h : Header) : Builder :=
  let '(id, bits) := Header_pack h in
  let all := default [] buf in
  let all := if len all <? headerLen then replicate (Z.to_nat packStartingCap) 0 else all in
  mkBuilder (mkBuf (upto headerLen all) (len all) 0) (mkheader id bits 0 0 0 0) sectionHeader None.

(** [Builder.Start]. *)
Definition Builder_Start (buf : option bytes) (h : Header) : Builder := with_compression (Some ∅) (StartWithoutCompression buf h).

Definition startCheck (s : Z) (b : Builder) : dns unit :=
  if b_section b <=? sectionNotStarted then Fail ErrNotStarted
  else if s <? b_section b then Fail ErrSectionDone
  else Ok tt.

Definition start_section (s : Z) (b : Builder) : dns unit * Builder :=
  match startCheck s b with Ok _ => (Ok tt, with_section s b) | r => (r, b) end.

Definition StartQuestions := start_section sectionQuestions.
Definition StartAnswers := start_section sectionAnswers.
Definition StartAuthorities := start_section sectionAuthorities.
Definition StartAdditionals := start_section sectionAdditionals.

(** [Builder.incrementSectionCount]; outside the four sections the count is a
    nil pointer. *)
Definition incrementSectionCount (b : Builder) : dns unit * Builder :=
  let h := b_header b in
  let step count err set :=
    if count =? 65535 then (Fail err, b) else (Ok tt, with_header (set (count + 1) h) b) in
  if b_section b =? sectionQuestions then step (h_questions h) errTooManyQuestions set_questions
  else if b_section b =? sectionAnswers then step (h_answers h) errTooManyAnswers set_answers
  else if b_section b =? sectionAuthorities then step (h_authorities h) errTooManyAuthorities set_authorities
  else if b_section b =? sectionAdditionals then step (h_additionals h) errTooManyAdditionals set_additionals
  else (Panic, b).

Definition checkResourceSection (b : Builder) : dns unit :=
  if b_section b <? sectionAnswers then Fail ErrNotStarted
  else if sectionAdditionals <? b_section b then Fail ErrSectionDone
  else Ok tt.

Section build.
Variable grow : Z -> Z -> Z.

(** The end of an addition: the count, then the message. *)
Definition commit (msg : buf) (b : Builder) : dns unit * Builder :=
  match incrementSectionCount b with
  | (Ok _, b) => (Ok tt, with_msg msg b)
  | (r, b) => (r, b)
  end.

Definition Builder_Question (q : Question) (b : Builder) : dns unit * Builder :=
  if b_section b <? sectionQuestions then (Fail ErrNotStarted, b)
  else if sectionQuestions <? b_section b then (Fail ErrSectionDone, b)
  else
    match Question_pack grow q (b_msg b) (b_compression b) with
    | (Ok msg, c) => commit msg (with_compression c b)
    | (Fail e, c) => (Fail e, with_compression c b)
    | (Panic, c) => (Panic, with_compression c b)
    end.

(** The body all the resource methods share; [s] is the error context. *)
Definition add_resource (s : string) (h : ResourceHeader) (r : ResourceBody) (b : Builder) : dns unit * Builder :=
  match checkResourceSection b with
  | Ok _ =>
      let h := with_type (realType r) h in
      match ResourceHeader_pack grow h (b_msg b) (b_compression b) with
      | (Ok (msg, length), c) =>
          let preLen := len (data msg) in
          match body_pack grow r msg c with
          | (Ok msg, c) =>
              match fixLen h msg length preLen with
              | Ok (msg, _) => commit msg (with_compression c b)
              | Fail e => (Fail e, with_compression c b)
              | Panic => (Panic, with_compression c b)
              end
          | (r, c) => (const tt <$> nest s r, with_compression c b)
          end
      | (r, c) => (const tt <$> nest "ResourceHeader" r, with_compression c b)
      end
  | r => (r, b)
  end.

Definition Builder_CNAMEResource h cname := add_resource "CNAMEResource body" h (CNAMEResource cname).
Definition Builder_MXResource h pref mx := add_resource "MXResource body" h (MXResource pref mx).
Definition Builder_NSResource h ns := add_resource "NSResource body" h (NSResource ns).
Definition Builder_PTRResource h ptr := add_resource "PTRResource body" h (PTRResource ptr).
Definition Builder_SOAResource h ns mbox serial refresh retry expire minTTL :=
  add_resource "SOAResource body" h (SOAResource ns mbox serial refresh retry expire minTTL).
Definition Builder_TXTResource h txt := add_resource "TXTResource body" h (TXTResource txt).
Definition Builder_SRVResource h priority weight port target :=
  add_resource "SRVResource body" h (SRVResource priority weight port target).
Definition Builder_AResource h a := add_resource "AResource body" h (AResource a).
Definition Builder_AAAAResource h aaaa := add_resource "AAAAResource body" h (AAAAResource aaaa).

(** [Builder.Finish] writes the header over the first bytes of the message. *)
Definition Finish (b : Builder) : dns bytes * Builder :=
  if b_section b <? sectionHeader then (Fail ErrNotStarted, b)
  else
    let b := with_section sectionDone b in
    let m := b_msg b in
    let w := header_pack grow (b_header b) (mkBuf [] (cap m) (array m)) in
    let m := if array w =? array m then mkBuf (data w ++ from headerLen (data m)) (cap m) (array m) else m in
    (Ok (data m), with_msg m b).

(** * A caller that builds a whole message *)

(** The method for a body. *)
Definition add (h : ResourceHeader) (r : ResourceBody) : Builder -> dns unit * Builder :=
  match r with
  | CNAMEResource cname => Builder_CNAMEResource h cname
  | MXResource pref mx => Builder_MXResource h pref mx
  | NSResource ns => Builder_NSResource h ns
  | PTRResource ptr => Builder_PTRResource h ptr
  | SOAResource ns mbox a b c d e => Builder_SOAResource h ns mbox a b c d e
  | TXTResource txt => Builder_TXTResource h txt
  | SRVResource a b c n => Builder_SRVResource h a b c n
  | AResource a => Builder_AResource h a
  | AAAAResource a => Builder_AAAAResource h a
  end.

(** Calls in a row, up to the first that fails. *)
Fixpoint in_turn (ops : list (Builder -> dns unit * Builder)) (b : Builder) : dns unit * Builder :=
  match ops with
  | [] => (Ok tt, b)
  | op :: ops => match op b with (Ok _, b) => in_turn ops b | (r, b) => (r, b) end
  end.

Definition add_all (rs : list Resource) : list (Builder -> dns unit * Builder) :=
  omap (fun r => add (r_Header r) <$> r_Body r) rs.

Definition build (m : Message) : dns bytes :=
  match in_turn (StartQuestions :: map Builder_Question (Questions m) ++
                 StartAnswers :: add_all (Answers m) ++
                 StartAuthorities :: add_all (Authorities m) ++
                 StartAdditionals :: add_all (Additionals m)) (Builder_Start None (m_Header m)) with
  | (Ok _, b) => fst (Finish b)
  | (r, _) => const [] <$> r
  end.
End build.
