(* ===== verification/DnsBuilderRef.v ===== *)
(** The [Builder] against [Message.Pack]: both produce the same bytes. *)
From S2P Require Import Prelude.
From S2P Require Import DnsWire DnsName DnsMessage DnsBuilder.

(** * Buffers that differ in their header only *)

Section header_bytes.
(** The packed header; the builder's is still to come. *)
Context (w2 : bytes).

Definition alike (b1 b2 : buf) : Prop :=
  cap b1 = cap b2 /\ array b1 = array b2 /\ headerLen <= cap b2 /\
  exists w1 x, data b1 = w1 ++ x /\ data b2 = w2 ++ x /\ len w1 = headerLen /\ len w2 = headerLen.

Lemma alike_len b1 b2 : alike b1 b2 -> len (data b1) = len (data b2).
Proof. intros (_ & _ & _ & w1 & x & -> & -> & H1 & H2). rewrite !len_app. lia. Qed.

(** Results on such buffers. *)
Definition results_alike (r1 r2 : dns buf * compression) : Prop :=
  snd r1 = snd r2 /\
  match fst r1, fst r2 with
  | Ok b1, Ok b2 => alike b1 b2
  | Fail e1, Fail e2 => e1 = e2
  | Panic, Panic => True
  | _, _ => False
  end.

Section alike.
Context (grow : Z -> Z -> Z).

Lemma append_alike b1 b2 y : alike b1 b2 -> alike (append grow b1 y) (append grow b2 y).
Proof.
  intros H. pose proof (alike_len _ _ H) as Hl. destruct H as (Hc & Ha & Hfit & w1 & x & H1 & H2 & L1 & L2).
  unfold append. rewrite Hl, Hc, Ha. destruct (Z.leb_spec (len (data b2) + len y) (cap b2));
    (split; [done|split; [done|split; [cbn; rewrite H2, len_app in *; pose proof (len_nonneg x); pose proof (len_nonneg y); lia|]]]); cbn [data];
    exists w1, (x ++ y); rewrite H1, H2, <- !app_assoc; done.
Qed.

Lemma appends_alike y b1 b2 : alike b1 b2 ->
  alike (foldl (fun m c => append grow m [c]) b1 y) (foldl (fun m c => append grow m [c]) b2 y).
Proof. revert b1 b2. induction y as [|c y IH]; intros b1 b2 H; cbn [foldl]; [done|]. by apply IH, append_alike. Qed.

Lemma packUint16_alike b1 b2 v : alike b1 b2 -> alike (packUint16 grow b1 v) (packUint16 grow b2 v).
Proof. apply append_alike. Qed.

Lemma packUint32_alike b1 b2 v : alike b1 b2 -> alike (packUint32 grow b1 v) (packUint32 grow b2 v).
Proof. apply append_alike. Qed.

Lemma pack_loop_alike n k : forall i begin b1 b2 c, alike b1 b2 ->
  results_alike (pack_loop grow k n i begin b1 c) (pack_loop grow k n i begin b2 c).
Proof.
  induction k as [|k IH]; intros i begin b1 b2 c H; cbn [pack_loop]; [split; [done|]; by apply append_alike|].
  destruct (at_ (Data n) i) as [ch|]; [|done]. rewrite (alike_len _ _ H). destruct (ch =? dot).
  - repeat (destruct (_ : bool); [done|]). by apply IH, appends_alike, append_alike.
  - destruct c as [m|]; [|by apply IH]. destruct (_ || _); [|by apply IH].
    destruct (m !! _) as [ptr|]; [split; [done|]; by apply append_alike|]. by apply IH.
Qed.

Lemma Name_pack_alike n b1 b2 c : alike b1 b2 -> results_alike (Name_pack grow n b1 c) (Name_pack grow n b2 c).
Proof.
  intros H. unfold Name_pack. destruct (_ || _); [done|]. destruct (_ && _); [split; [done|]; by apply append_alike|].
  by apply pack_loop_alike.
Qed.

Lemma after_name_alike s r1 r2 k : results_alike r1 r2 -> (forall b1 b2, alike b1 b2 -> alike (k b1) (k b2)) ->
  results_alike (after_name s r1 k) (after_name s r2 k).
Proof.
  destruct r1 as [[b1|e1|] c1], r2 as [[b2|e2|] c2]; intros [Hc Hr] Hk; cbn in *; try done; subst; split; try done. by apply Hk.
Qed.

Lemma packText_alike t fuel : forall b1 b2, alike b1 b2 ->
  match packText_loop grow fuel b1 t, packText_loop grow fuel b2 t with
  | Some b1, Some b2 => alike b1 b2 | None, None => True | _, _ => False
  end.
Proof.
  revert t. induction fuel as [|fuel IH]; intros t b1 b2 H; cbn [packText_loop]; destruct (_ <? _); try done.
  by apply IH, append_alike, append_alike.
Qed.

Lemma body_pack_alike r b1 b2 c : alike b1 b2 -> results_alike (body_pack grow r b1 c) (body_pack grow r b2 c).
Proof.
  intros H. destruct r as [a|n|n|ns mbox a b d e f|n|pref mx|t|a|pr w po n]; cbn [body_pack];
    unfold AResource_pack, NSResource_pack, CNAMEResource_pack, SOAResource_pack, PTRResource_pack, MXResource_pack,
      TXTResource_pack, AAAAResource_pack, SRVResource_pack.
  - split; [done|]. by apply append_alike.
  - by apply Name_pack_alike.
  - by apply Name_pack_alike.
  - pose proof (Name_pack_alike ns b1 b2 c H) as H1.
    destruct (Name_pack grow ns b1 c) as [[m1|e1|] c1], (Name_pack grow ns b2 c) as [[m2|e2|] c2];
      destruct H1 as [Hc Hr]; cbn in *; try done; subst; try done.
    apply after_name_alike; [by apply Name_pack_alike|]. intros. by repeat apply packUint32_alike.
  - by apply Name_pack_alike.
  - apply after_name_alike; [|done]. by apply Name_pack_alike, packUint16_alike.
  - split; [done|]. cbn. pose proof (packText_alike t (length t) b1 b2 H) as Ht. unfold packText.
    by destruct (packText_loop grow (length t) b1 t), (packText_loop grow (length t) b2 t).
  - split; [done|]. by apply append_alike.
  - split; [done|]. cbn. apply after_name_alike; [|done]. apply Name_pack_alike. by repeat apply packUint16_alike.
Qed.

Lemma ResourceHeader_pack_alike h b1 b2 c : alike b1 b2 ->
  match ResourceHeader_pack grow h b1 c, ResourceHeader_pack grow h b2 c with
  | (Ok (m1, l1), c1), (Ok (m2, l2), c2) => alike m1 m2 /\ l1 = l2 /\ headerLen <= snd l1 /\ c1 = c2
  | (Fail e1, c1), (Fail e2, c2) => e1 = e2 /\ c1 = c2
  | (Panic, _), (Panic, _) => True
  | _, _ => False
  end.
Proof.
  intros H. unfold ResourceHeader_pack. pose proof (Name_pack_alike (rh_Name h) b1 b2 c H) as Hn.
  destruct (Name_pack grow _ b1 c) as [[m1|e1|] c1], (Name_pack grow _ b2 c) as [[m2|e2|] c2]; destruct Hn as [Hc Hr];
    cbn in *; try done; subst; try done.
  set (k1 := packUint32 _ _ _). set (k2 := packUint32 grow (packUint16 grow (packUint16 grow m2 _) _) _).
  assert (Hk : alike k1 k2) by by apply packUint32_alike, packUint16_alike, packUint16_alike.
  pose proof (packUint16_alike k1 k2 (rh_Length h) Hk) as Hk'. split_and!; [done| | |done].
  - rewrite (alike_len _ _ Hk). f_equal. by destruct Hk' as (_ & -> & _).
  - destruct Hk as (_ & _ & _ & w1 & x & -> & _ & L1 & _). rewrite len_app. pose proof (len_nonneg x). lia.
Qed.

Lemma write_at_alike arr off y b1 b2 : headerLen <= off -> alike b1 b2 ->
  alike (write_at arr off y b1) (write_at arr off y b2).
Proof.
  intros Ho H. pose proof H as (Hc & Ha & Hfit & w1 & x & H1 & H2 & L1 & L2). unfold write_at. rewrite <- Ha.
  destruct (_ =? _); [|done]. split; [done|]. split; [done|]. split; [done|]. cbn [data]. rewrite H1, H2. pose proof (len_nonneg y).
  exists w1, (upto (off - headerLen) x ++ y ++ from (off - headerLen + len y) x).
  assert (Hu : forall w, len w = headerLen -> upto off (w ++ x) = w ++ upto (off - headerLen) x).
  { intros w Hw. unfold upto, len in *. rewrite take_app. rewrite take_ge by lia. f_equal. f_equal. lia. }
  assert (Hf : forall w, len w = headerLen -> from (off + len y) (w ++ x) = from (off - headerLen + len y) x).
  { intros w Hw. unfold from, len in *. rewrite drop_app. rewrite drop_ge by lia. cbn [app]. f_equal. lia. }
  rewrite !Hu, !Hf by done. rewrite <- !app_assoc. done.
Qed.
End alike.

(** * One element *)

(** A builder in step with a packing: the same bytes behind the header, the same
    map. *)
Definition in_step (b : Builder) (sec : Z) (hd : header) (m : buf) (c : compression) : Prop :=
  alike (b_msg b) m /\ b_compression b = c /\ b_section b = sec /\ b_header b = hd.

(** The builder's call ends like the packing; errors may differ in context. *)
Definition follows (r : dns unit * Builder) (sec : Z) (hd : header) (p : dns buf * compression) : Prop :=
  match p with
  | (Ok m, c) => exists b, r = (Ok tt, b) /\ in_step b sec hd m c
  | (Fail e, _) => exists e' b, r = (Fail e', b) /\ root_error e' = root_error e
  | (Panic, _) => exists b, r = (Panic, b)
  end.

(** The counts of a header, and counting one element more. *)
Definition counted (sec : Z) (h : header) : header :=
  if sec =? sectionQuestions then set_questions (h_questions h + 1) h
  else if sec =? sectionAnswers then set_answers (h_answers h + 1) h
  else if sec =? sectionAuthorities then set_authorities (h_authorities h + 1) h
  else set_additionals (h_additionals h + 1) h.

Definition a_section (sec : Z) : Prop := sectionQuestions <= sec <= sectionAdditionals.

Lemma commit_follows m1 m2 b sec hd c : a_section sec -> header_count hd sec < 65535 ->
  alike m1 m2 -> b_compression b = c -> b_section b = sec -> b_header b = hd ->
  follows (commit m1 b) sec (counted sec hd) (Ok m2, c).
Proof.
  intros Hs Hlt Hm <- <- <-. unfold commit, incrementSectionCount, counted, a_section in *. unfold header_count in Hlt.
  destruct (Z.eqb_spec (b_section b) sectionQuestions).
  { rewrite (proj2 (Z.eqb_neq _ _)) by lia. by eexists. }
  destruct (Z.eqb_spec (b_section b) sectionAnswers).
  { rewrite (proj2 (Z.eqb_neq _ _)) by lia. by eexists. }
  destruct (Z.eqb_spec (b_section b) sectionAuthorities).
  { rewrite (proj2 (Z.eqb_neq _ _)) by lia. by eexists. }
  destruct (Z.eqb_spec (b_section b) sectionAdditionals).
  { rewrite (proj2 (Z.eqb_neq _ _)) by lia. by eexists. }
  unfold sectionQuestions, sectionAnswers, sectionAuthorities, sectionAdditionals in *. lia.
Qed.

Section elements.
Context (grow : Z -> Z -> Z).

Lemma Question_follows q b m c hd : in_step b sectionQuestions hd m c -> h_questions hd < 65535 ->
  follows (Builder_Question grow q b) sectionQuestions (counted sectionQuestions hd) (Question_pack grow q m c).
Proof.
  intros (Hm & Hc & Hs & Hh) Hlt. unfold Builder_Question. rewrite Hs. change (_ <? _) with false. cbn iota. rewrite Hc.
  assert (Hq : results_alike (Question_pack grow q (b_msg b) c) (Question_pack grow q m c)).
  { apply after_name_alike; [by apply Name_pack_alike|]. intros. by apply packUint16_alike, packUint16_alike. }
  destruct (Question_pack grow q (b_msg b) c) as [[m1|e1|] c1], (Question_pack grow q m c) as [[m2|e2|] c2];
    destruct Hq as [Hc' Hr]; cbn [fst snd] in *; try done; subst.
  - by apply commit_follows.
  - by eexists _, _.
  - by eexists.
Qed.

Lemma resource_follows s h r b m c hd sec : in_step b sec hd m c -> sectionAnswers <= sec <= sectionAdditionals ->
  header_count hd sec < 65535 ->
  follows (add_resource grow s h r b) sec (counted sec hd) (fst (Resource_pack grow (mkResource h (Some r)) m c)).
Proof.
  intros (Hm & Hc & Hs & Hh) Hsec Hlt. unfold add_resource, Resource_pack, checkResourceSection. cbn [r_Body r_Header].
  rewrite Hs, (proj2 (Z.ltb_ge sec _)), (proj2 (Z.ltb_ge _ sec)) by lia. rewrite Hc.
  pose proof (ResourceHeader_pack_alike grow (with_type (realType r) h) (b_msg b) m c Hm) as H.
  destruct (ResourceHeader_pack grow _ (b_msg b) c) as [[[m1 l1]|e1|] c1], (ResourceHeader_pack grow _ m c) as [[[m2 l2]|e2|] c2]; try done.
  2:{ destruct H as [-> ->]. by eexists _, _. }
  2:{ by eexists. }
  destruct H as (Hm1 & <- & Hl & <-). pose proof (body_pack_alike grow r m1 m2 c1 Hm1) as Hb.
  destruct (body_pack grow r m1 c1) as [[n1|e1|] k1], (body_pack grow r m2 c1) as [[n2|e2|] k2]; destruct Hb as [Hk Hr];
    cbn [fst snd] in *; try done; subst.
  2:{ by eexists _, _. }
  2:{ by eexists. }
  unfold fixLen. rewrite (alike_len _ _ Hr), (alike_len _ _ Hm1). destruct (65535 <? _); cbn [fst]; [by eexists _, _|].
  apply commit_follows; [unfold a_section, sectionAnswers, sectionQuestions in *; lia|done| |done|done|done].
  by apply write_at_alike.
Qed.

Lemma add_follows h r b m c hd sec : in_step b sec hd m c -> sectionAnswers <= sec <= sectionAdditionals ->
  header_count hd sec < 65535 ->
  follows (add grow h r b) sec (counted sec hd) (fst (Resource_pack grow (mkResource h (Some r)) m c)).
Proof. destruct r; apply resource_follows. Qed.
End elements.

(** * A whole message *)

(** [n] elements more. *)
Definition counted_n (sec n : Z) (h : header) : header :=
  if sec =? sectionQuestions then set_questions (h_questions h + n) h
  else if sec =? sectionAnswers then set_answers (h_answers h + n) h
  else if sec =? sectionAuthorities then set_authorities (h_authorities h + n) h
  else set_additionals (h_additionals h + n) h.

Lemma counted_n_0 sec h : counted_n sec 0 h = h.
Proof. unfold counted_n. destruct h. repeat case_match; cbn; by rewrite Z.add_0_r. Qed.

Lemma counted_n_S sec n h : counted_n sec n (counted sec h) = counted_n sec (n + 1) h.
Proof.
  unfold counted_n, counted. destruct h.
  destruct (sec =? sectionQuestions), (sec =? sectionAnswers), (sec =? sectionAuthorities);
    unfold set_questions, set_answers, set_authorities, set_additionals; cbn; f_equal; lia.
Qed.

Lemma count_counted sec h : a_section sec -> header_count (counted sec h) sec = header_count h sec + 1.
Proof.
  unfold a_section, header_count, counted. intros Hs.
  repeat (case_match; [done|]). destruct (Z.eqb_spec sec sectionAdditionals); [done|].
  unfold sectionQuestions, sectionAnswers, sectionAuthorities, sectionAdditionals in *.
  repeat match goal with H : (_ =? _) = false |- _ => apply Z.eqb_neq in H end. lia.
Qed.

Section messages.
Context (grow : Z -> Z -> Z).

Lemma questions_follow qs : forall b m c hd, in_step b sectionQuestions hd m c -> h_questions hd + len qs <= 65535 ->
  follows (in_turn (map (Builder_Question grow) qs) b) sectionQuestions (counted_n sectionQuestions (len qs) hd)
    (pack_questions grow qs m c).
Proof.
  induction qs as [|q qs IH]; intros b m c hd Hb Hl; cbn [map in_turn pack_questions].
  { change (len []) with 0. rewrite counted_n_0. by eexists. }
  rewrite len_cons in Hl. rewrite len_cons. pose proof (len_nonneg qs).
  pose proof (Question_follows grow q b m c hd Hb ltac:(lia)) as H1.
  destruct (Question_pack grow q m c) as [[m1|e|] c1]; cbn [follows] in H1.
  - destruct H1 as (b1 & -> & Hb1). rewrite <- counted_n_S. apply IH; [done|].
    unfold counted. cbn. lia.
  - destruct H1 as (e' & b1 & -> & He). cbn. by eexists _, _.
  - destruct H1 as (b1 & ->). cbn. by eexists.
Qed.

(** The message has every body. *)
Definition bodied (r : Resource) : Prop := is_Some (r_Body r).

Lemma resources_follow s sec rs : Forall bodied rs -> sectionAnswers <= sec <= sectionAdditionals ->
  forall b m c hd, in_step b sec hd m c -> header_count hd sec + len rs <= 65535 ->
  follows (in_turn (add_all grow rs) b) sec (counted_n sec (len rs) hd) (fst (pack_resources grow s rs m c)).
Proof.
  intros Hrs Hsec. induction Hrs as [|[h body] rs [r Hr] Hrs IH]; intros b m c hd Hb Hl.
  { change (len []) with 0. rewrite counted_n_0. by eexists. }
  cbn [r_Body] in Hr. subst body. rewrite len_cons in Hl. rewrite len_cons. pose proof (len_nonneg rs).
  change (add_all grow (mkResource h (Some r) :: rs)) with (add grow h r :: add_all grow rs). cbn [in_turn pack_resources].
  pose proof (add_follows grow h r b m c hd sec Hb Hsec ltac:(lia)) as H1.
  destruct (Resource_pack grow _ m c) as [[[m1|e|] c1] r1]; cbn [follows fst] in H1.
  - destruct H1 as (b1 & -> & Hb1). rewrite <- counted_n_S.
    assert (Ha : a_section sec) by (unfold a_section, sectionAnswers, sectionQuestions in *; lia).
    specialize (IH b1 m1 c1 (counted sec hd) Hb1). rewrite count_counted in IH by done. specialize (IH ltac:(lia)).
    by destruct (pack_resources grow s rs m1 c1) as [[res k] rs'].
  - destruct H1 as (e' & b1 & -> & He). cbn. by eexists _, _.
  - destruct H1 as (b1 & ->). cbn. by eexists.
Qed.

Lemma in_turn_app xs ys b : in_turn (xs ++ ys) b =
  match in_turn xs b with (Ok _, b) => in_turn ys b | (r, b) => (r, b) end.
Proof. revert b. induction xs as [|x xs IH]; intros b; cbn [app in_turn]; [done|]. by destruct (x b) as [[]]. Qed.

Lemma start_section_step b sec s hd m c : in_step b sec hd m c -> sectionHeader <= sec <= s ->
  exists b', start_section s b = (Ok tt, b') /\ in_step b' s hd m c.
Proof.
  intros (Hm & Hc & Hs & Hh) Hle. unfold start_section, startCheck. rewrite Hs.
  unfold sectionHeader, sectionNotStarted in *.
  rewrite (proj2 (Z.leb_gt _ _)), (proj2 (Z.ltb_ge _ _)) by lia. by eexists.
Qed.

(** Starting a section and adding to it. *)
Lemma section_step sec sec' hd m c b ops p hd' : in_step b sec hd m c -> sectionHeader <= sec <= sec' ->
  (forall b', in_step b' sec' hd m c -> follows (in_turn ops b') sec' hd' p) ->
  follows (in_turn (start_section sec' :: ops) b) sec' hd' p.
Proof.
  intros Hb Hle H. cbn [in_turn]. destruct (start_section_step b sec sec' hd m c Hb Hle) as (b' & -> & Hb').
  exact (H b' Hb').
Qed.

Lemma header_pack_len h m : data m = [] -> len (data (header_pack grow h m)) = headerLen.
Proof. intros Hd. unfold header_pack, packUint16. rewrite !append_data, Hd. done. Qed.

(** Packing a header in place. *)
Lemma header_pack_data h m : data (header_pack grow h m) = data m ++ data (header_pack grow h (mkBuf [] 0 0)).
Proof. unfold header_pack, packUint16. rewrite !append_data, <- !app_assoc. done. Qed.

Lemma header_pack_fits h m : len (data m) + headerLen <= cap m ->
  cap (header_pack grow h m) = cap m /\ array (header_pack grow h m) = array m.
Proof.
  intros Hl. unfold header_pack, packUint16, headerLen, uint16Len in *.
  assert (Hstep : forall b v, len (data b) + 2 <= cap b -> cap (append grow b [u8 (shr v 8); u8 v]) = cap b /\
    array (append grow b [u8 (shr v 8); u8 v]) = array b /\ len (data (append grow b [u8 (shr v 8); u8 v])) = len (data b) + 2).
  { intros b v Hb. destruct (append_fits grow b [u8 (shr v 8); u8 v] Hb) as [E1 E2]. split_and!; [done|done|].
    rewrite append_data, len_app. done. }
  destruct (Hstep m (h_id h)) as (C1 & A1 & L1); [lia|]. set (m1 := append _ m _) in *.
  destruct (Hstep m1 (h_bits h)) as (C2 & A2 & L2); [lia|]. set (m2 := append _ m1 _) in *.
  destruct (Hstep m2 (h_questions h)) as (C3 & A3 & L3); [lia|]. set (m3 := append _ m2 _) in *.
  destruct (Hstep m3 (h_answers h)) as (C4 & A4 & L4); [lia|]. set (m4 := append _ m3 _) in *.
  destruct (Hstep m4 (h_authorities h)) as (C5 & A5 & L5); [lia|]. set (m5 := append _ m4 _) in *.
  destruct (Hstep m5 (h_additionals h)) as (C6 & A6 & L6); [lia|]. split; congruence.
Qed.

(** What [Finish] returns. *)
Lemma Finish_data b sec hd m c hd' : in_step b sec hd m c -> sectionHeader <= sec -> hd' = hd ->
  w2 = data (header_pack grow hd' (mkBuf [] 0 0)) -> fst (Finish grow b) = Ok (data m).
Proof.
  intros ((Hc & Ha & Hfit & w1 & x & H1 & H2 & L1 & L2) & _ & Hs & Hh) Hsec -> Hy.
  unfold Finish. rewrite (proj2 (Z.ltb_ge _ _)) by lia. cbn [with_section b_header b_msg]. rewrite Hh.
  destruct (header_pack_fits hd (mkBuf [] (cap (b_msg b)) (array (b_msg b)))) as [_ E]; [cbn [data cap]; change (len []) with 0; lia|].
  rewrite E, Z.eqb_refl. cbn [fst data with_msg b_msg]. rewrite header_pack_data. cbn [data app].
  f_equal. rewrite H1, from_app_len by done. by rewrite <- Hy, H2.
Qed.

End messages.
End header_bytes.

Lemma follows_cases w r sec hd p : follows w r sec hd p ->
  match p with
  | (Ok m, c) => exists b, r = (Ok tt, b) /\ in_step w b sec hd m c
  | (Fail e, _) => exists e' b, r = (Fail e', b) /\ root_error e' = root_error e
  | (Panic, _) => exists b, r = (Panic, b)
  end.
Proof. done. Qed.

(** C24. The incremental [Builder], started with no buffer and given the elements of
    a message in order, produces exactly the bytes of [Message.Pack], or fails for
    the same reason (in another context of the error's text). *)
Theorem build_Pack grow m :
  len (Questions m) <= 65535 -> len (Answers m) <= 65535 -> len (Authorities m) <= 65535 -> len (Additionals m) <= 65535 ->
  Forall bodied (Answers m) -> Forall bodied (Authorities m) -> Forall bodied (Additionals m) ->
  match fst (Message_Pack grow m) with
  | Ok bs => build grow m = Ok bs
  | Fail e => exists e', build grow m = Fail e' /\ root_error e' = root_error e
  | Panic => build grow m = Panic
  end.
Proof.
  intros Lq La Ln Ld Ha Hn Hd. unfold Message_Pack. rewrite !(proj2 (Z.ltb_ge 65535 _)) by done.
  destruct (Header_pack (m_Header m)) as [id bits] eqn:Hp.
  assert (Hw : forall A (l : list A), len l <= 65535 -> u16 (len l) = len l).
  { intros A l Hl. apply wrap_id. pose proof (len_nonneg l). unfold in_width. lia. }
  rewrite !Hw by done. set (h := mkheader id bits _ _ _ _).
  set (w := data (header_pack grow h (mkBuf [] 0 0))). set (s0 := header_pack grow h _).
  set (b0 := Builder_Start None (m_Header m)). set (hd0 := mkheader id bits 0 0 0 0).
  assert (Hs0 : cap s0 = packStartingCap /\ array s0 = 0).
  { apply (header_pack_fits grow h (mkBuf [] packStartingCap 0)). done. }
  assert (Hb0 : in_step w b0 sectionHeader hd0 s0 (Some ∅)).
  { unfold b0, Builder_Start, StartWithoutCompression. rewrite Hp. split_and!; try done.
    destruct Hs0 as [Hc Harr]. split; [done|]. split; [done|]. split; [by rewrite Hc|]. exists (upto headerLen (replicate (Z.to_nat packStartingCap) 0)), [].
    rewrite !app_nil_r. split_and!; [done| |done|by apply header_pack_len]. unfold s0. by rewrite header_pack_data. }
  change (build grow m) with (match in_turn ((StartQuestions :: map (Builder_Question grow) (Questions m)) ++
      (StartAnswers :: add_all grow (Answers m)) ++ (StartAuthorities :: add_all grow (Authorities m)) ++
      (StartAdditionals :: add_all grow (Additionals m))) b0 with
    | (Ok _, b) => fst (Finish grow b) | (r, _) => const [] <$> r end).
  rewrite in_turn_app.
  pose proof (section_step w sectionHeader sectionQuestions hd0 s0 _ b0 _ _ (counted_n sectionQuestions (len (Questions m)) hd0)
    Hb0 ltac:(done) (fun b' Hb' => questions_follow w grow (Questions m) b' s0 _ hd0 Hb' ltac:(cbn; lia))) as F1.
  apply follows_cases in F1. fold StartQuestions in F1.
  destruct (pack_questions grow (Questions m) s0 (Some ∅)) as [[s1|e|] c1]; [|by destruct F1 as (e' & b1 & -> & He); exists e'|by destruct F1 as (b1 & ->)].
  destruct F1 as (b1 & -> & Hb1). set (hd1 := counted_n _ _ hd0) in *. rewrite in_turn_app.
  pose proof (section_step w sectionQuestions sectionAnswers hd1 s1 c1 b1 _ _ (counted_n sectionAnswers (len (Answers m)) hd1)
    Hb1 ltac:(done) (fun b' Hb' => resources_follow w grow "packing Answer" sectionAnswers (Answers m) Ha ltac:(done) b' s1 c1 hd1 Hb' ltac:(cbn; lia))) as F2.
  apply follows_cases in F2. fold StartAnswers in F2.
  destruct (pack_resources grow "packing Answer" (Answers m) s1 c1) as [[[s2|e|] c2] as_]; cbn [fst] in F2;
    [|by destruct F2 as (e' & b2 & -> & He); exists e'|by destruct F2 as (b2 & ->)].
  destruct F2 as (b2 & -> & Hb2). set (hd2 := counted_n _ _ hd1) in *. rewrite in_turn_app. cbn [Authorities].
  pose proof (section_step w sectionAnswers sectionAuthorities hd2 s2 c2 b2 _ _ (counted_n sectionAuthorities (len (Authorities m)) hd2)
    Hb2 ltac:(done) (fun b' Hb' => resources_follow w grow "packing Authority" sectionAuthorities (Authorities m) Hn ltac:(done) b' s2 c2 hd2 Hb' ltac:(cbn; lia))) as F3.
  apply follows_cases in F3. fold StartAuthorities in F3.
  destruct (pack_resources grow "packing Authority" (Authorities m) s2 c2) as [[[s3|e|] c3] us]; cbn [fst] in F3;
    [|by destruct F3 as (e' & b3 & -> & He); exists e'|by destruct F3 as (b3 & ->)].
  destruct F3 as (b3 & -> & Hb3). set (hd3 := counted_n _ _ hd2) in *. cbn [Additionals].
  pose proof (section_step w sectionAuthorities sectionAdditionals hd3 s3 c3 b3 _ _ (counted_n sectionAdditionals (len (Additionals m)) hd3)
    Hb3 ltac:(done) (fun b' Hb' => resources_follow w grow "packing Additional" sectionAdditionals (Additionals m) Hd ltac:(done) b' s3 c3 hd3 Hb' ltac:(cbn; lia))) as F4.
  apply follows_cases in F4. fold StartAdditionals in F4.
  destruct (pack_resources grow "packing Additional" (Additionals m) s3 c3) as [[[s4|e|] c4] ds]; cbn [fst] in F4;
    [|by destruct F4 as (e' & b4 & -> & He); exists e'|by destruct F4 as (b4 & ->)].
  destruct F4 as (b4 & -> & Hb4). cbn [fst fmap outcome_fmap].
  apply (Finish_data w grow b4 sectionAdditionals _ s4 c4 h Hb4); [done| |done].
  unfold hd3, hd2, hd1, hd0, h, counted_n. cbn. by rewrite !Z.add_0_l.
Qed.

Lemma build_Pack_witness :
  let n := named (str "a.example.") in
  let m := mkMessage Header_zero [mkQuestion n 1 1]
    [mkResource (mkResourceHeader n 0 1 60 0) (Some (AResource [1; 2; 3; 4]))] []
    [mkResource (mkResourceHeader n 0 1 60 0) (Some (TXTResource (str "text")))] in
  exists bs, build (fun c n => Z.max (2 * c) n) m = Ok bs /\ len bs = 60.
Proof.
  intros n m. pose proof (build_Pack (fun c n => Z.max (2 * c) n) m) as H.
  assert (E : exists bs, fst (Message_Pack (fun c n => Z.max (2 * c) n) m) = Ok bs /\ len bs = 60).
  { eexists. split; vm_compute; reflexivity. }
  destruct E as (bs & E & Hl). rewrite E in H. exists bs. split; [|exact Hl].
  apply H; [vm_compute; intros [=]..| | |]; repeat (apply Forall_cons; split; [by eexists|]); apply Forall_nil_2.
Defined.
