(* ===== verification/DnsLimits.v ===== *)
(** Where DNS packing and parsing do not do what they promise: messages the
    round trip excludes, shown on concrete messages. *)
From S2P Require Import Prelude.
From S2P Require Import DnsWire DnsName DnsMessage DnsParser DnsBuilder.

(** Doubling, as the runtime grows small slices. *)
Definition doubling (c n : Z) : Z := Z.max (2 * c) n.

Definition name_of (s : string) : Name := named (str s).
Definition header_for (s : string) : ResourceHeader := mkResourceHeader (name_of s) 0 1 60 0.
Definition message_zero : Message := mkMessage Header_zero [] [] [] [].

Definition unpacked (r : dns bytes) : option (dns unit * Message) :=
  match r with Ok bs => Some (Message_Unpack message_zero (Some bs)) | _ => None end.

Definition answers (m : Message) : list (option ResourceBody) := r_Body <$> Answers m.

(** [fixLen] writes the length through a slice of the array the message had when
    the header was packed: when packing the body moves the message to a larger
    array, the length in the message stays what the caller's header held. *)
Lemma long_body_loses_length :
  let m := mkMessage Header_zero [] [mkResource (header_for "a.") (Some (TXTResource (replicate 600 97)))] [] [] in
  let '(r, m') := Message_Pack doubling m in
  (rh_Length ∘ r_Header <$> Answers m') = [603] /\
  (prod_map (fun r => r) answers <$> unpacked r) = Some (Ok tt, [Some (TXTResource [])]).
Proof. vm_compute. split; reflexivity. Qed.

(** The name whose label [i] and all before it are the letter [c]. *)
Definition chain_name (i c : nat) (s : bytes) : bytes := concat (replicate i [Z.of_nat c; 46]) ++ drop (2 * i) s.

(** Twelve names, each pointing into the one before. *)
Definition chain_names : list bytes :=
  (fix go (k : nat) (s : bytes) : list bytes :=
     match k with O => [s] | S k' => s :: go k' (chain_name k (109 - k) s) end) 11%nat (concat (replicate 12 [97; 46])).

(** [Pack] makes chains of more than ten pointers, which [Unpack] refuses. *)
Lemma long_chain_refused :
  let m := mkMessage Header_zero ((fun s => mkQuestion (named s) 1 1) <$> chain_names) [] [] [] in
  match Message_Pack doubling m with
  | (Ok bs, _) => fst (Message_Unpack message_zero (Some bs)) = Fail (nestedError "unpacking Question.Name" errTooManyPtr)
  | _ => False
  end.
Proof. vm_compute. reflexivity. Qed.

(** Suffixes are shared only where they stand at the same place in both names:
    the keys are all of [Data[i:]], so that [example.] is written twice. *)
Lemma suffix_shared_at_same_place_only :
  let size s t := match fst (Message_Pack doubling (mkMessage Header_zero [mkQuestion (name_of s) 1 1; mkQuestion (name_of t) 1 1] [] [] [])) with
    | Ok bs => len bs | _ => 0 end in
  size "a.example." "b.example." = 12 + (11 + 4) + (4 + 4) /\
  size "a.example." "bb.example." = 12 + (11 + 4) + (12 + 4).
Proof. vm_compute. split; reflexivity. Qed.

(** A failed [Builder] method leaves its names in the compression map; a later
    method points at bytes that hold something else. *)
Lemma failed_addition_poisons_map :
  let b := Builder_Start None Header_zero in
  let '(_, b) := start_section sectionAnswers b in
  let '(r1, b) := Builder_SOAResource doubling (header_for "x.") (name_of "ns.") (name_of "no-dot") 0 0 0 0 0 b in
  let '(r2, b) := Builder_NSResource doubling (header_for "y.") (name_of "ns.") b in
  r1 = Fail (nestedError "SOAResource body" (nestedError "SOAResource.MBox" errNonCanonicalName)) /\ r2 = Ok tt /\
  match fst (Finish doubling b) with
  | Ok bs => fst (Message_Unpack message_zero (Some bs)) <> Ok tt
  | _ => False
  end.
Proof. vm_compute. split; [reflexivity|]. split; [reflexivity|]. intros [=]. Qed.

(** With a header pending, the methods of any section return it. *)
Lemma pending_header_ignores_section :
  let m := mkMessage Header_zero [] [mkResource (header_for "a.") (Some (AResource [1; 2; 3; 4]))] [] [] in
  match Message_Pack doubling m with
  | (Ok bs, _) =>
      let p := snd (Start (Some bs) Parser_zero) in
      let p := snd (SkipAllQuestions p) in
      let '(r1, p) := AnswerHeader p in
      let '(r2, p) := Additional p in
      (rh_Name <$> r1) = Ok (name_of "a.") /\ (r_Body <$> r2) = Ok (Some (AResource [1; 2; 3; 4]))
  | _ => False
  end.
Proof. vm_compute. split; reflexivity. Qed.

(** [resource] does not check that the body's length stays within the message;
    [skipResource] does. *)
Lemma length_checked_by_skip_only :
  let msg := [0; 0; 0; 0; 0; 0; 0; 1; 0; 0; 0; 0; 0; 0; 1; 0; 1; 0; 0; 0; 0; 0; 9; 1; 2; 3; 4] in
  let p := snd (SkipAllQuestions (snd (Start (Some msg) Parser_zero))) in
  (r_Body <$> fst (Answer p)) = Ok (Some (AResource [1; 2; 3; 4])) /\
  fst (SkipAnswer p) = Fail (nestedError "skipping: Answer" errResourceLen).
Proof. vm_compute. split; reflexivity. Qed.
