(* ===== verification/Http2WriteSched.v ===== *)
(** Write requests, their queues and the random write scheduler:
    [http2/writesched.go], [http2/writesched_random.go]. *)
From S2P Require Import Prelude Http2Frame Http2Write.
From S2P Require Import Http2Flow.

(** * Requests *)

(** What a request uses of a [*stream]: its id and its window. The maximum frame
    size belongs to the connection all streams share. *)
Record stream := mkStream { st_id : Z; st_flow : positive }.

(** [done] names a channel. *)
Record FrameWriteRequest := mkReq {
  write : option writeFramer; req_stream : option stream; done : option positive }.

Definition FWR_zero : FrameWriteRequest := mkReq None None None.

(** [FrameWriteRequest.StreamID]. *)
Definition StreamID (wr : FrameWriteRequest) : Z :=
  match req_stream wr with
  | None => match write wr with Some (write_StreamError id _) => id | _ => 0 end
  | Some s => st_id s
  end.

(** [FrameWriteRequest.DataSize]. *)
Definition DataSize (wr : FrameWriteRequest) : Z :=
  match write wr with Some (writeData _ p _) => len p | _ => 0 end.

(** [FrameWriteRequest.Consume]: the consumed request, the rest, their number and
    the windows. *)
Definition Consume (maxFrameSize n : Z) (wr : FrameWriteRequest) (fs : flows)
    : fl (FrameWriteRequest * FrameWriteRequest * Z * flows) :=
  match write wr with
  | Some (writeData streamID p endStream) =>
      if len p =? 0 then Ok (wr, FWR_zero, 1, fs)
      else
        s ← or_panic (req_stream wr);
        allowed ← available (st_flow s) fs;
        let allowed := if n <? allowed then n else allowed in
        let allowed := if maxFrameSize <? allowed then maxFrameSize else allowed in
        if allowed <=? 0 then Ok (FWR_zero, FWR_zero, 0, fs)
        else if allowed <? len p then
          fs ← take (st_flow s) allowed fs;
          let consumed := mkReq (Some (writeData streamID (upto allowed p) false)) (Some s) None in
          let rest := mkReq (Some (writeData streamID (from allowed p) endStream)) (Some s) (done wr) in
          Ok (consumed, rest, 2, fs)
        else
          fs ← take (st_flow s) (i32 (len p)) fs; Ok (wr, FWR_zero, 1, fs)
  | _ => Ok (wr, FWR_zero, 1, fs)
  end.

(** [replyToWriter] with the space left in the channel's buffer: the request
    after it and whether a value was sent; sending into a full channel
    panics. *)
Definition replyToWriter (space : positive -> bool) (wr : FrameWriteRequest) : fl (FrameWriteRequest * option positive) :=
  match done wr with
  | None => Ok (wr, None)
  | Some ch => if space ch then Ok (mkReq None (req_stream wr) (done wr), Some ch) else Panic
  end.

(** * Queues *)

Abbreviation writeQueue := (list FrameWriteRequest).

Definition empty (q : writeQueue) : bool := len q =? 0.
Definition push (wr : FrameWriteRequest) (q : writeQueue) : writeQueue := q ++ [wr].
Definition shift (q : writeQueue) : fl (FrameWriteRequest * writeQueue) :=
  match q with [] => Panic | wr :: q => Ok (wr, q) end.

(** [writeQueue.consume]: the request, whether there is one, the queue and the
    windows after it. *)
Definition consume (maxFrameSize n : Z) (q : writeQueue) (fs : flows) : fl (FrameWriteRequest * bool * writeQueue * flows) :=
  match q with
  | [] => Ok (FWR_zero, false, q, fs)
  | wr :: tl =>
      '(consumed, rest, numresult, fs) ← Consume maxFrameSize n wr fs;
      if numresult =? 0 then Ok (FWR_zero, false, q, fs)
      else if numresult =? 1 then '(_, q) ← shift q; Ok (consumed, true, q, fs)
      else Ok (consumed, true, rest :: tl, fs)
  end.

(** The pool's queues; [put] empties a queue. *)
Abbreviation writeQueuePool := (list writeQueue).

Definition pool_put (q : writeQueue) (p : writeQueuePool) : writeQueuePool := p ++ [upto 0 q].
Definition pool_get (p : writeQueuePool) : writeQueue * writeQueuePool :=
  match last p with None => ([], p) | Some q => (q, upto (len p - 1) p) end.

(** * The random scheduler *)

Module Random.

Record scheduler := mkScheduler { zero : writeQueue; sq : gmap Z writeQueue; queuePool : writeQueuePool }.

Definition New : scheduler := mkScheduler [] ∅ [].

Definition OpenStream (streamID pusherID : Z) (ws : scheduler) : scheduler := ws.

Definition CloseStream (streamID : Z) (ws : scheduler) : scheduler :=
  match sq ws !! streamID with
  | None => ws
  | Some q => mkScheduler (zero ws) (delete streamID (sq ws)) (pool_put q (queuePool ws))
  end.

Definition AdjustStream (streamID : Z) (priority : PriorityParam) (ws : scheduler) : scheduler := ws.

Definition Push (wr : FrameWriteRequest) (ws : scheduler) : scheduler :=
  let id := StreamID wr in
  if id =? 0 then mkScheduler (push wr (zero ws)) (sq ws) (queuePool ws)
  else
    let '(q, pool) := match sq ws !! id with Some q => (q, queuePool ws) | None => pool_get (queuePool ws) end in
    mkScheduler (zero ws) (<[id := push wr q]> (sq ws)) pool.

Section pop.
(** The order in which [range] visits the map: any permutation of its keys. *)
Variable order : gmap Z writeQueue -> list Z.
Variable maxFrameSize : Z.

Fixpoint pop_loop (ids : list Z) (ws : scheduler) (fs : flows) : fl (FrameWriteRequest * bool * scheduler * flows) :=
  match ids with
  | [] => Ok (FWR_zero, false, ws, fs)
  | id :: ids =>
      let q := default [] (sq ws !! id) in
      '(wr, ok, q, fs) ← consume maxFrameSize (2 ^ 31 - 1) q fs;
      if (ok : bool) then Ok (wr, true, mkScheduler (zero ws) (<[id := q]> (sq ws)) (queuePool ws), fs)
      else pop_loop ids ws fs
  end.

Definition Pop (ws : scheduler) (fs : flows) : fl (FrameWriteRequest * bool * scheduler * flows) :=
  if negb (empty (zero ws)) then
    '(wr, z) ← shift (zero ws); Ok (wr, true, mkScheduler z (sq ws) (queuePool ws), fs)
  else pop_loop (order (sq ws)) ws fs.
End pop.
End Random.

(** * Consuming *)

(** The stream of a request is linked to its connection by windows [ws], [wc]. *)
Definition req_linked (fs : flows) (wr : FrameWriteRequest) (s : stream) (c : positive) (ws wc : Z) : Prop :=
  req_stream wr = Some s /\ linked fs (st_flow s) c ws wc /\ window ws /\ window wc.

(** What flow control and frame size let through. *)
Definition allowance (maxFrameSize n ws wc : Z) : Z := Z.min maxFrameSize (Z.min n (Z.min ws wc)).

Definition debited (fs : flows) (s : stream) (c : positive) (ws wc k : Z) : flows :=
  <[c := mkFlow (wc - k) None]> (<[st_flow s := mkFlow (ws - k) (Some c)]> fs).

Lemma available_linked fs s c ws wc : linked fs s c ws wc -> available s fs = Ok (Z.min ws wc).
Proof.
  intros (Hne & Hs & Hc). unfold available, deref. rewrite Hs. cbn [or_panic mbind outcome_bind conn Http2Flow.n]. rewrite Hc.
  cbn [or_panic mbind outcome_bind Http2Flow.n]. f_equal. z_cases; lia.
Qed.

Lemma Consume_data maxFrameSize n fs sid p e st d s c ws wc :
  req_linked fs (mkReq (Some (writeData sid p e)) st d) s c ws wc -> p <> [] ->
  let wr := mkReq (Some (writeData sid p e)) st d in
  let a := allowance maxFrameSize n ws wc in
  Consume maxFrameSize n wr fs =
    if a <=? 0 then Ok (FWR_zero, FWR_zero, 0, fs)
    else if a <? len p then
      Ok (mkReq (Some (writeData sid (upto a p) false)) (Some s) None,
          mkReq (Some (writeData sid (from a p) e)) (Some s) d, 2, debited fs s c ws wc a)
    else Ok (wr, FWR_zero, 1, debited fs s c ws wc (len p)).
Proof.
  intros (Hst & Hl & Hws & Hwc) Hp. cbn [req_stream] in Hst. subst st. cbv zeta. unfold Consume. cbn [write req_stream done].
  rewrite (proj2 (Z.eqb_neq (len p) 0)) by (destruct p; [done|rewrite len_cons; pose proof (len_nonneg p); lia]).
  cbn [or_panic mbind outcome_bind]. rewrite (available_linked _ _ _ _ _ Hl). cbn [mbind outcome_bind].
  assert (Ha : (let allowed := if n <? Z.min ws wc then n else Z.min ws wc in
    if maxFrameSize <? allowed then maxFrameSize else allowed) = allowance maxFrameSize n ws wc).
  { unfold allowance. cbv zeta. destruct (Z.ltb_spec n (Z.min ws wc)); z_cases; lia. }
  cbv zeta in Ha. rewrite Ha. set (a := allowance _ _ _ _) in *. unfold window in *.
  assert (Hle : a <= ws /\ a <= wc) by (unfold a, allowance; lia).
  destruct (Z.leb_spec a 0); [done|]. destruct (Z.ltb_spec a (len p)).
  - rewrite (take_spec _ _ _ _ _ a Hl) by (unfold window; lia). by rewrite decide_True by lia.
  - pose proof (len_nonneg p). rewrite i32_id by (unfold window; lia).
    rewrite (take_spec _ _ _ _ _ (len p) Hl) by (unfold window; lia). by rewrite decide_True by lia.
Qed.

(** Requests that flow control does not touch. *)
Definition unlimited (wr : FrameWriteRequest) : bool :=
  match write wr with Some (writeData _ p _) => len p =? 0 | _ => true end.

Lemma Consume_unlimited maxFrameSize n wr fs : unlimited wr = true -> Consume maxFrameSize n wr fs = Ok (wr, FWR_zero, 1, fs).
Proof. unfold unlimited, Consume. destruct (write wr) as [[]|]; try done. by intros ->. Qed.

(** * What a queue still owes

    The bytes and the ends of DATA frames, and the other frames: splitting a
    DATA frame does not show. *)
Inductive token :=
| Byte (sid : Z) (s : option stream) (b : Z)
| Final (sid : Z) (s : option stream) (endStream : bool) (d : option positive)
| Whole (wr : FrameWriteRequest).

Definition content (wr : FrameWriteRequest) : list token :=
  match write wr with
  | Some (writeData sid p e) =>
      (Byte sid (req_stream wr) <$> p) ++
      (if e || bool_decide (is_Some (done wr)) then [Final sid (req_stream wr) e (done wr)] else [])
  | _ => [Whole wr]
  end.

Definition contents (q : writeQueue) : list token := q ≫= content.

Lemma contents_cons wr q : contents (wr :: q) = content wr ++ contents q.
Proof. done. Qed.

Lemma contents_app q1 q2 : contents (q1 ++ q2) = contents q1 ++ contents q2.
Proof. apply bind_app. Qed.

(** A pool of empty queues gives an empty queue. *)
Lemma pool_get_empty p : Forall (fun q => q = []) p -> fst (pool_get p) = [] /\ Forall (fun q => q = []) (snd (pool_get p)).
Proof.
  intros Hp. unfold pool_get. destruct (last p) as [q|] eqn:E; [|by split]. split; [|by apply Forall_take].
  apply last_Some in E as [k ->]. apply Forall_app in Hp as [_ Hp]. exact (proj1 (proj1 (Forall_cons _ _ _) Hp)).
Qed.

(** A queue whose DATA frames have linked streams. *)
Definition req_ok (fs : flows) (wr : FrameWriteRequest) : Prop :=
  unlimited wr = false -> exists s c ws wc, req_linked fs wr s c ws wc.

Definition queue_ok (fs : flows) (q : writeQueue) : Prop := Forall (req_ok fs) q.

(** The head of a queue waits for a window. *)
Definition blocked (maxFrameSize : Z) (fs : flows) (q : writeQueue) : Prop :=
  match q with
  | [] => True
  | wr :: _ => unlimited wr = false /\
      exists s c ws wc, req_linked fs wr s c ws wc /\ Z.min maxFrameSize (Z.min ws wc) <= 0
  end.

Lemma is_unlimited wr : unlimited wr = false ->
  exists sid p e, write wr = Some (writeData sid p e) /\ p <> [].
Proof.
  unfold unlimited. destruct (write wr) as [[]|]; try done. intros H. eexists _, _, _. split; [done|]. by intros ->.
Qed.

Lemma content_split sid p e st d k : 0 <= k <= len p ->
  content (mkReq (Some (writeData sid p e)) st d) =
  content (mkReq (Some (writeData sid (upto k p) false)) st None) ++ content (mkReq (Some (writeData sid (from k p) e)) st d).
Proof.
  intros Hk. unfold content. cbn [write req_stream done]. change (bool_decide (is_Some (@None positive))) with false.
  cbn [orb]. rewrite app_nil_r, app_assoc, <- fmap_app. by rewrite upto_from.
Qed.

(** [consume] moves content from the head of the queue, unless the head is
    blocked. *)
Lemma consume_spec maxFrameSize n q fs : queue_ok fs q -> 0 < n ->
  match consume maxFrameSize n q fs with
  | Ok (wr, true, q', _) => q <> [] /\ contents q = content wr ++ contents q' /\
      (forall id, Forall (fun wr => StreamID wr = id) q -> StreamID wr = id /\ Forall (fun wr => StreamID wr = id) q')
  | Ok (_, false, q', fs') => q' = q /\ fs' = fs /\ blocked maxFrameSize fs q
  | _ => False
  end.
Proof.
  intros Hq Hn. destruct q as [|wr tl]; [done|]. apply Forall_cons in Hq as [Hw Hq]. unfold consume.
  destruct (unlimited wr) eqn:Hu.
  { rewrite (Consume_unlimited _ _ _ _ Hu). cbn [mbind outcome_bind]. change (1 =? 0) with false. change (1 =? 1) with true.
    cbn [shift mbind outcome_bind]. split_and!; [done|done|]. intros id Hid. by apply Forall_cons in Hid. }
  destruct (Hw Hu) as (s & c & ws & wc & Hl). destruct (is_unlimited _ Hu) as (sid & p & e & Hwd & Hp).
  destruct wr as [w st d]. cbn in Hwd. subst w. pose proof Hl as (Hst & _ & Hws & Hwc). cbn in Hst. subst st.
  rewrite (Consume_data _ _ _ _ _ _ _ _ _ _ _ _ Hl Hp).
  cbv zeta. set (a := allowance maxFrameSize n ws wc) in *. destruct (Z.leb_spec a 0) as [Ha0|Ha0].
  { cbn. split_and!; [done|done|done|]. exists s, c, ws, wc. split; [done|]. unfold a, allowance in Ha0. lia. }
  destruct (Z.ltb_spec a (len p)); cbn [mbind outcome_bind]; [change (2 =? 0) with false; change (2 =? 1) with false|change (1 =? 0) with false; change (1 =? 1) with true; cbn [shift mbind outcome_bind]]; cbv iota.
  - split_and!; [done| |].
    + rewrite !contents_cons, app_assoc. f_equal. apply content_split. lia.
    + intros id [Hid Htl]%Forall_cons. cbn in Hid. split; [done|]. by constructor.
  - split_and!; [done|done|]. intros id [Hid Htl]%Forall_cons. done.
Qed.

(** The windows after [k] bytes. *)
Definition paid (fs fs' : flows) (s : stream) (c : positive) (k : Z) : Prop :=
  window_of fs' (st_flow s) = window_of fs (st_flow s) - k /\ window_of fs' c = window_of fs c - k.

Lemma debited_paid fs s c ws wc k : linked fs (st_flow s) c ws wc -> paid fs (debited fs s c ws wc k) s c k.
Proof.
  intros (Hne & Hs & Hc). unfold paid, debited, window_of. rewrite lookup_insert_ne, lookup_insert_eq by done.
  by rewrite lookup_insert_eq, Hs, Hc.
Qed.

(** [Consume] never panics on a request whose stream is linked to its connection;
    it returns nothing when no window, frame size or limit lets a byte of a
    non-empty DATA frame through; the whole request when it fits; or else two
    DATA frames that make up the request, the first as large as allowed, not
    ending the stream and with no one waiting for it. The stream's and the
    connection's windows are charged exactly for the data returned. *)
Lemma Consume_conserves maxFrameSize k wr fs s c ws wc : req_linked fs wr s c ws wc -> k <= 2 ^ 31 - 1 ->
  let allowed := allowance maxFrameSize k ws wc in
  exists a b num fs', Consume maxFrameSize k wr fs = Ok (a, b, num, fs') /\
    ((num = 0 /\ a = FWR_zero /\ fs' = fs /\ 0 < DataSize wr /\ allowed <= 0) \/
     (num = 1 /\ a = wr /\ paid fs fs' s c (DataSize wr) /\ DataSize wr <= Z.max 0 allowed) \/
     (num = 2 /\ content wr = content a ++ content b /\ paid fs fs' s c (DataSize a) /\
      0 < DataSize a /\ DataSize a = allowed /\ DataSize a + DataSize b = DataSize wr /\ 0 < DataSize b /\
      writeEndsStream (write a) = Ok false /\ done a = None /\
      writeEndsStream (write b) = writeEndsStream (write wr) /\ done b = done wr)).
Proof.
  intros Hl Hk allowed. destruct (unlimited wr) eqn:Hu.
  - exists wr, FWR_zero, 1, fs. split; [by apply Consume_unlimited|]. right. left.
    assert (Hz : DataSize wr = 0). { unfold unlimited, DataSize in *. destruct (write wr) as [[]|]; try done. by apply Z.eqb_eq. }
    split_and!; [done|done| |lia]. rewrite Hz. by unfold paid; rewrite !Z.sub_0_r.
  - destruct (is_unlimited _ Hu) as (sid & p & e & Hw & Hp). destruct wr as [w st d]. cbn in Hw. subst w.
    pose proof Hl as (Hst & Hln & Hws & Hwc). cbn in Hst. subst st.
    pose proof (Consume_data maxFrameSize k _ _ _ _ _ _ _ _ _ _ Hl Hp) as Hc. cbv zeta in Hc. fold allowed in Hc. rewrite Hc.
    assert (0 < len p) by (destruct p; [done|rewrite len_cons; pose proof (len_nonneg p); lia]).
    destruct (Z.leb_spec allowed 0).
    { eexists _, _, _, _. split; [done|]. left. done. }
    destruct (Z.ltb_spec allowed (len p)); (eexists _, _, _, _; split; [done|]); right; [right|left].
    + unfold DataSize. cbn [write done]. rewrite len_upto, len_from by lia. split_and!; try done; try lia.
      * apply content_split. lia.
      * by apply debited_paid.
    + unfold DataSize. cbn [write]. split_and!; [done|done|by apply debited_paid|lia].
Qed.

Lemma Consume_conserves_witness :
  let fs := list_to_map [(1%positive, mkFlow 4 (Some 2%positive)); (2%positive, mkFlow 10 None)] in
  let wr := mkReq (Some (writeData 1 (str "abcdef") true)) (Some (mkStream 1 1%positive)) (Some 7%positive) in
  exists a b fs', Consume 16384 100 wr fs = Ok (a, b, 2, fs') /\ content wr = content a ++ content b.
Proof.
  intros fs wr.
  assert (Hl : req_linked fs wr (mkStream 1 1%positive) 2%positive 4 10).
  { repeat split; first [reflexivity|discriminate|vm_compute; reflexivity|vm_compute; intros [=]]. }
  destruct (Consume_conserves 16384 100 wr fs _ _ _ _ Hl ltac:(lia)) as (a & b & num & fs' & Hc & [H|[H|H]]).
  - exfalso. destruct H as (_ & _ & _ & _ & H). vm_compute in H. by apply H.
  - exfalso. destruct H as (_ & _ & _ & H). vm_compute in H. by apply H.
  - destruct H as (-> & H & _). exists a, b, fs'. split; [exact Hc|exact H].
Defined.

(** * The random scheduler implements queues per stream

    Control frames leave in order and before all others; the frames of a stream
    leave in order, DATA frames in parts; nothing leaves only when all that is
    owed are DATA bytes without a window. *)
Module RandomSpec.
Import Random.

Record spec := mkSpec { control : list FrameWriteRequest; pending : Z -> list token }.

Definition spec_empty : spec := mkSpec [] (fun _ => []).

Inductive event :=
| EOpen (streamID pusherID : Z)
| EAdjust (streamID : Z) (p : PriorityParam)
| EPush (wr : FrameWriteRequest)
| EClose (streamID : Z)
| EPop (order : gmap Z writeQueue -> list Z) (maxFrameSize : Z) (fs : flows).

Definition sched_step (e : event) (ws : scheduler) : fl (scheduler * option FrameWriteRequest) :=
  match e with
  | EOpen id pusher => Ok (OpenStream id pusher ws, None)
  | EAdjust id p => Ok (AdjustStream id p ws, None)
  | EPush wr => Ok (Push wr ws, None)
  | EClose id => Ok (CloseStream id ws, None)
  | EPop order maxFrameSize fs =>
      '(wr, ok, ws, _) ← Pop order maxFrameSize ws fs; Ok (ws, if (ok : bool) then Some wr else None)
  end.

(** A pop visits every queue, and the streams that wait have windows. *)
Definition event_ok (ws : scheduler) (e : event) : Prop :=
  match e with
  | EPop order _ fs => order (sq ws) ≡ₚ (map_to_list (sq ws)).*1 /\ map_Forall (fun _ => queue_ok fs) (sq ws)
  | _ => True
  end.

(** The first thing owed is a byte that no window lets through. *)
Definition held (maxFrameSize : Z) (fs : flows) (l : list token) : Prop :=
  match l with
  | [] => True
  | Byte _ (Some s) _ :: _ => exists w, available (st_flow s) fs = Ok w /\ Z.min maxFrameSize w <= 0
  | _ => False
  end.

Definition set_pending (id : Z) (l : list token) (a : spec) : spec :=
  mkSpec (control a) (fun i => if decide (i = id) then l else pending a i).

Inductive spec_step (a : spec) : event -> option FrameWriteRequest -> spec -> Prop :=
| spec_open id pusher : spec_step a (EOpen id pusher) None a
| spec_adjust id p : spec_step a (EAdjust id p) None a
| spec_push_control wr : StreamID wr = 0 -> spec_step a (EPush wr) None (mkSpec (control a ++ [wr]) (pending a))
| spec_push_stream wr : StreamID wr <> 0 ->
    spec_step a (EPush wr) None (set_pending (StreamID wr) (pending a (StreamID wr) ++ content wr) a)
| spec_close id : spec_step a (EClose id) None (set_pending id [] a)
| spec_pop_control order m fs wr l : control a = wr :: l -> spec_step a (EPop order m fs) (Some wr) (mkSpec l (pending a))
| spec_pop_stream order m fs wr l : control a = [] -> pending a (StreamID wr) = content wr ++ l ->
    spec_step a (EPop order m fs) (Some wr) (set_pending (StreamID wr) l a)
| spec_pop_none order m fs : control a = [] -> (forall id, id <> 0 -> held m fs (pending a id)) ->
    spec_step a (EPop order m fs) None a.

(** The scheduler's state for a state of the specification. *)
Record agrees (ws : scheduler) (a : spec) : Prop := {
  ag_control : zero ws = control a;
  ag_pending : forall id, id <> 0 -> pending a id = contents (default [] (sq ws !! id));
  ag_ids : map_Forall (fun id q => id <> 0 /\ Forall (fun wr => StreamID wr = id) q) (sq ws);
  ag_pool : Forall (fun q => q = []) (queuePool ws) }.

Lemma Push_agrees wr ws a : agrees ws a -> exists a', spec_step a (EPush wr) None a' /\ agrees (Push wr ws) a'.
Proof.
  intros [Hz Hp Hi Hpool]. unfold Push. destruct (Z.eqb_spec (StreamID wr) 0) as [H0|H0].
  { eexists. split; [by apply spec_push_control|]. split; cbn; [by rewrite Hz|done|done|done]. }
  eexists. split; [by apply spec_push_stream|].
  set (qp := match sq ws !! StreamID wr with Some q => (q, queuePool ws) | None => pool_get (queuePool ws) end).
  assert (Hq : fst qp = default [] (sq ws !! StreamID wr) /\ Forall (fun q => q = []) (snd qp)).
  { unfold qp. destruct (sq ws !! StreamID wr); [by split|]. by apply pool_get_empty. }
  assert (Hids : Forall (fun w => StreamID w = StreamID wr) (default [] (sq ws !! StreamID wr))).
  { destruct (sq ws !! StreamID wr) as [q|] eqn:E; [|constructor]. by apply (Hi _ _ E). }
  destruct qp as [q pool]. cbn [fst snd] in Hq. destruct Hq as [-> Hpl]. split; cbn; [done| | |done].
  - intros id Hid. unfold set_pending. cbn. case_decide as Hd.
    + subst id. rewrite lookup_insert_eq. cbn. unfold push. rewrite contents_app, (Hp _ Hid). by rewrite contents_cons, app_nil_r.
    + by rewrite lookup_insert_ne, (Hp _ Hid).
  - apply map_Forall_insert_2; [|done]. split; [done|]. apply Forall_app. split; [done|by apply Forall_singleton].
Qed.

Lemma CloseStream_agrees id ws a : agrees ws a -> agrees (CloseStream id ws) (set_pending id [] a).
Proof.
  intros [Hz Hp Hi Hpool]. unfold CloseStream. destruct (sq ws !! id) as [q|] eqn:E.
  - split; cbn; [done| |by apply map_Forall_delete|].
    + intros i H0. case_decide as Hd; [subst; by rewrite lookup_delete_eq|]. by rewrite lookup_delete_ne, (Hp _ H0).
    + apply Forall_app. split; [done|by apply Forall_singleton].
  - split; [done| |done|done]. intros i H0. cbn [set_pending pending].
    case_decide as Hd; [by rewrite Hd, E|]. by apply Hp.
Qed.

Lemma blocked_held m fs q : blocked m fs q -> held m fs (contents q).
Proof.
  destruct q as [|wr tl]; [done|]. intros (Hu & s & c & ws & wc & Hl & Hle).
  destruct (is_unlimited _ Hu) as (sid & p & e & Hw & Hp). destruct wr as [w st d]. cbn in Hw. subst w.
  destruct Hl as (Hst & Hl & _). cbn in Hst. subst st. rewrite contents_cons. unfold content. cbn [write req_stream].
  destruct p as [|b p]; [done|]. cbn. exists (Z.min ws wc). split; [|done]. by eapply available_linked.
Qed.

(** The loop stops at the first queue that gives a frame. *)
Lemma pop_loop_spec m fs ids ws : map_Forall (fun _ => queue_ok fs) (sq ws) -> (forall id, id ∈ ids -> is_Some (sq ws !! id)) ->
  match pop_loop m ids ws fs with
  | Ok (wr, true, ws', _) => exists id q q', sq ws !! id = Some q /\ ws' = mkScheduler (zero ws) (<[id := q']> (sq ws)) (queuePool ws) /\
      contents q = content wr ++ contents q' /\
      (forall i, Forall (fun wr => StreamID wr = i) q -> StreamID wr = i /\ Forall (fun wr => StreamID wr = i) q')
  | Ok (_, false, ws', _) => ws' = ws /\ forall id q, id ∈ ids -> sq ws !! id = Some q -> blocked m fs q
  | _ => False
  end.
Proof.
  intros Hq. induction ids as [|id ids IH]; intros Hin; cbn [pop_loop].
  { split; [done|]. intros id q H. by apply elem_of_nil in H. }
  destruct (Hin id) as [q Eq]; [by left|]. rewrite Eq. cbn [default].
  pose proof (consume_spec m (2 ^ 31 - 1) q fs (Hq _ _ Eq) ltac:(lia)) as Hc.
  destruct (consume _ _ _ _) as [[[[wr ok] q'] fs']| |]; [|done|done]. cbn [mbind outcome_bind]. destruct ok.
  - destruct Hc as (_ & Hc & Hi). eexists _, _, _. split; [exact Eq|]. done.
  - destruct Hc as (-> & -> & Hb).
    assert (Hin' : forall i, i ∈ ids -> is_Some (sq ws !! i)) by (intros i Hi; apply Hin; by right).
    specialize (IH Hin'). destruct (pop_loop _ _ _ _) as [[[[wr' ok'] ws'] fs'']| |]; [|done|done]. destruct ok'; [done|].
    destruct IH as [-> IH]. split; [done|]. intros i q0 Hi Hq0. apply elem_of_cons in Hi as [->|Hi]; [|by eapply IH].
    rewrite Eq in Hq0. by injection Hq0 as <-.
Qed.

Lemma Pop_agrees order m fs ws a : agrees ws a -> event_ok ws (EPop order m fs) ->
  exists ws' o a', sched_step (EPop order m fs) ws = Ok (ws', o) /\ spec_step a (EPop order m fs) o a' /\ agrees ws' a'.
Proof.
  intros [Hz Hp Hi Hpool] [Hperm Hqs]. cbn [sched_step]. unfold Pop, empty. destruct (zero ws) as [|wr z] eqn:Ez.
  - change (negb (len [] =? 0)) with false. cbn iota.
    pose proof (pop_loop_spec m fs (order (sq ws)) ws Hqs) as Hl.
    assert (Hin : forall id, id ∈ order (sq ws) -> is_Some (sq ws !! id)).
    { intros id. rewrite Hperm. intros [[i q] [-> Hx%elem_of_map_to_list]]%list_elem_of_fmap. by exists q. }
    specialize (Hl Hin). destruct (pop_loop _ _ _ _) as [[[[wr ok] ws'] fs']| |]; [|done|done]. cbn [mbind outcome_bind].
    destruct ok.
    + destruct Hl as (id & q & q' & Hq & -> & Hc & Hids). destruct (Hi _ _ Hq) as [H0 Hf]. destruct (Hids id Hf) as [Hid Hf'].
      eexists _, _, _. split; [done|]. split.
      * apply (spec_pop_stream _ order m fs wr (contents q')); [done|]. by rewrite Hid, Hp, Hq by done.
      * split; cbn; [by rewrite Ez| | |done].
        -- intros i Hi0. rewrite Hid. case_decide as Hd; [subst; by rewrite lookup_insert_eq|].
           by rewrite lookup_insert_ne, Hp by done.
        -- apply map_Forall_insert_2; [|done]. by subst id.
    + destruct Hl as [-> Hb]. eexists _, _, _. split; [done|]. split.
      * apply spec_pop_none; [done|]. intros id H0. rewrite (Hp id H0). destruct (sq ws !! id) as [q|] eqn:E; [|done].
        apply blocked_held, (Hb id q); [|done]. rewrite Hperm. apply list_elem_of_fmap. exists (id, q).
        split; [done|]. by apply elem_of_map_to_list.
      * split; [by rewrite Ez|done|done|done].
  - rewrite len_cons. rewrite (proj2 (Z.eqb_neq _ _)) by (pose proof (len_nonneg z); lia). cbn.
    eexists _, _, _. split; [done|]. split; [by apply spec_pop_control|]. by split.
Qed.

(** Traces: events with what each pop returned. *)
Inductive runs : scheduler -> list (event * option FrameWriteRequest) -> scheduler -> Prop :=
| runs_nil ws : runs ws [] ws
| runs_cons ws e ws' o tr ws'' : event_ok ws e -> sched_step e ws = Ok (ws', o) -> runs ws' tr ws'' -> runs ws ((e, o) :: tr) ws''.

Inductive spec_runs : spec -> list (event * option FrameWriteRequest) -> spec -> Prop :=
| spec_runs_nil a : spec_runs a [] a
| spec_runs_cons a e o a' tr a'' : spec_step a e o a' -> spec_runs a' tr a'' -> spec_runs a ((e, o) :: tr) a''.

Lemma step_agrees e ws a : agrees ws a -> event_ok ws e ->
  exists ws' o a', sched_step e ws = Ok (ws', o) /\ spec_step a e o a' /\ agrees ws' a'.
Proof.
  intros Ha He. destruct e as [id pid|id p|wr|id|order m fs].
  - exists ws, None, a. split_and!; [done|constructor|done].
  - exists ws, None, a. split_and!; [done|constructor|done].
  - destruct (Push_agrees wr ws a Ha) as (a' & ? & ?). by exists (Push wr ws), None, a'.
  - exists (CloseStream id ws), None, (set_pending id [] a). split_and!; [done|constructor|by apply CloseStream_agrees].
  - by apply Pop_agrees.
Qed.

Lemma runs_agrees ws tr ws' a : runs ws tr ws' -> agrees ws a -> exists a', spec_runs a tr a' /\ agrees ws' a'.
Proof.
  intros Hr. revert a. induction Hr as [ws|ws e ws1 o tr ws2 He Hs Hr IH]; intros a Ha.
  { exists a. split; [constructor|done]. }
  destruct (step_agrees e ws a Ha He) as (ws1' & o' & a1 & Hs' & Hsp & Ha1). rewrite Hs in Hs'. injection Hs' as <- <-.
  destruct (IH a1 Ha1) as (a2 & Hsr & Ha2). exists a2. split; [by econstructor|done].
Qed.

(** C25. The random write scheduler, used from its creation in any way, behaves as
    the specification: control frames first and in order, each stream's frames in
    order with DATA split at will but every byte and every end kept, a closed
    stream's frames dropped, and an empty answer only when all that is owed are
    DATA bytes that no window or frame size lets through; and no call panics. *)
Theorem random_scheduler_refines tr ws : runs New tr ws ->
  exists a, spec_runs spec_empty tr a /\ agrees ws a /\
    forall e, event_ok ws e -> exists ws' o, sched_step e ws = Ok (ws', o).
Proof.
  intros Hr. destruct (runs_agrees _ _ _ spec_empty Hr) as (a & Hs & Ha).
  { split; [done|done|apply map_Forall_empty|constructor]. }
  exists a. split_and!; [done|done|]. intros e He. destruct (step_agrees e ws a Ha He) as (ws' & o & _ & ? & _). eauto.
Qed.

Lemma random_scheduler_refines_witness :
  let fs := list_to_map [(1%positive, mkFlow 4 (Some 2%positive)); (2%positive, mkFlow 10 None)] in
  let order (m : gmap Z writeQueue) := (map_to_list m).*1 in
  let rst := mkReq (Some (write_StreamError 9 8)) None None in
  let wr := mkReq (Some (writeData 1 (str "abcdef") true)) (Some (mkStream 1 1%positive)) None in
  let part := mkReq (Some (writeData 1 (str "abcd") false)) (Some (mkStream 1 1%positive)) None in
  let ping := mkReq (Some writeSettingsAck) None None in
  exists ws a, runs New [(EPush wr, None); (EPush ping, None); (EPop order 16384 fs, Some ping); (EPop order 16384 fs, Some part);
                         (EClose 1, None); (EPush rst, None)] ws /\ spec_runs spec_empty
                        [(EPush wr, None); (EPush ping, None); (EPop order 16384 fs, Some ping); (EPop order 16384 fs, Some part);
                         (EClose 1, None); (EPush rst, None)] a /\ pending a 9 = [Whole rst].
Proof.
  intros fs order rst wr part ping.
  set (tr := [(EPush wr, None); _; _; _; _; _]). 
  assert (Hq : queue_ok fs [wr]).
  { apply Forall_singleton. intros _. exists (mkStream 1 1%positive), 2%positive, 4, 10.
    repeat split; first [reflexivity|discriminate|vm_compute; reflexivity|vm_compute; intros [=]]. }
  assert (Hr : exists ws, runs New tr ws).
  { eexists. unfold tr. eapply runs_cons; [exact I|vm_compute; reflexivity|]. eapply runs_cons; [exact I|vm_compute; reflexivity|].
    eapply runs_cons; [split; [reflexivity|]|vm_compute; reflexivity|].
    { intros i q Hi. change (sq _) with (singletonM (M := gmap Z writeQueue) 1 [wr]) in Hi.
      apply lookup_singleton_Some in Hi as [_ <-]. exact Hq. }
    eapply runs_cons; [split; [reflexivity|]|vm_compute; reflexivity|].
    { intros i q Hi. change (sq _) with (singletonM (M := gmap Z writeQueue) 1 [wr]) in Hi.
      apply lookup_singleton_Some in Hi as [_ <-]. exact Hq. }
    eapply runs_cons; [exact I|vm_compute; reflexivity|]. eapply runs_cons; [exact I|vm_compute; reflexivity|]. apply runs_nil. }
  destruct Hr as (ws & Hr). destruct (random_scheduler_refines tr ws Hr) as (a & Hs & Ha & _).
  exists ws, a. split; [exact Hr|]. split; [exact Hs|]. rewrite (ag_pending _ _ Ha 9) by discriminate.
  revert Hr. unfold tr. intros Hr. repeat (inversion Hr as [|? ? ? ? ? ? _ Hstep Hr' ]; subst; clear Hr; rename Hr' into Hr; vm_compute in Hstep; injection Hstep as <-).
  inversion Hr. subst. vm_compute. reflexivity.
Defined.
End RandomSpec.
