(* ===== verification/Http2ServerData.v ===== *)
(** The requests of a server connection and its configuration, and its state:
    [serverConn] and [stream] of [http2/server.go]. *)

From S2P Require Import Prelude GoStrings Httplex Http2Errors HpackTables Http2Frame Http2Framer Http2Write Http2DataBuffer Http2Pipe Http2Flow Http2WriteSched.

(** * Configuration *)

Definition initialWindowSize : Z := 65535.
Definition initialMaxFrameSize : Z := 16384.
Definition initialHeaderTableSize : Z := 4096.
Definition minMaxFrameSize : Z := 2 ^ 14.
Definition maxFrameSizeLimit : Z := 2 ^ 24 - 1.
Definition defaultMaxReadFrameSize : Z := 2 ^ 20.
Definition defaultMaxStreams : Z := 250.

(** The fields of [http2.Server], and those of the [http.Server] the connection
    reads. *)
Record Server := mkServer {
  MaxConcurrentStreams : Z;
  MaxReadFrameSize : Z;
  MaxUploadBufferPerConnection : Z;
  MaxUploadBufferPerStream : Z;
  IdleTimeout : Z;
  MaxHeaderBytes : Z }.

Definition initialConnRecvWindowSize (s : Server) : Z :=
  if initialWindowSize <? MaxUploadBufferPerConnection s then MaxUploadBufferPerConnection s else 2 ^ 20.
Definition initialStreamRecvWindowSize (s : Server) : Z :=
  if 0 <? MaxUploadBufferPerStream s then MaxUploadBufferPerStream s else 2 ^ 20.
Definition maxReadFrameSize (s : Server) : Z :=
  let v := MaxReadFrameSize s in
  if (minMaxFrameSize <=? v) && (v <=? maxFrameSizeLimit) then v else defaultMaxReadFrameSize.
Definition maxConcurrentStreams (s : Server) : Z :=
  let v := MaxConcurrentStreams s in if 0 <? v then v else defaultMaxStreams.

(** [http.DefaultMaxHeaderBytes] is 1 MB. *)
Definition sc_maxHeaderListSize (s : Server) : Z :=
  let n := MaxHeaderBytes s in
  let n := if n <=? 0 then 2 ^ 20 else n in
  u32 (i64 (n + 10 * 32)).

(** * Headers *)

Abbreviation http_header := (gmap bytes (list bytes)).

(** [http.CanonicalHeaderKey]: a key with a byte that no header name has stays as
    it is. *)
Definition CanonicalMIMEHeaderKey (k : bytes) : bytes := if forallb IsTokenRune k then CanonicalHeaderKey k else k.

Definition header_Add (key value : bytes) (h : http_header) : http_header :=
  let key := CanonicalMIMEHeaderKey key in <[key := default [] (h !! key) ++ [value]]> h.
Definition header_Set (key value : bytes) (h : http_header) : http_header := <[CanonicalMIMEHeaderKey key := [value]]> h.
Definition header_Get (key : bytes) (h : http_header) : bytes :=
  match h !! CanonicalMIMEHeaderKey key with Some (v :: _) => v | _ => [] end.
Definition header_Del (key : bytes) (h : http_header) : http_header := delete (CanonicalMIMEHeaderKey key) h.

(** [serverConn.canonicalHeader]; the connection's own map only remembers
    results. *)
Definition canonicalHeader (v : bytes) : bytes := default (CanonicalMIMEHeaderKey v) (commonCanonHeader !! v).

Definition connHeaders : list bytes := str <$> ["Connection"; "Keep-Alive"; "Proxy-Connection"; "Transfer-Encoding"; "Upgrade"]%string.

(** [checkValidHTTP2RequestHeaders]: whether there is no error. *)
Definition checkValidHTTP2RequestHeaders (h : http_header) : bool :=
  if existsb (fun k => bool_decide (is_Some (h !! k))) connHeaders then false
  else
    let te := default [] (h !! str "Te") in
    negb ((0 <? len te) && ((1 <? len te) ||
          match te with t :: _ => negb (bool_decide (t = str "trailers")) && negb (bool_decide (t = [])) | [] => false end)).

Definition badTrailer : list bytes := str <$>
  ["Authorization"; "Cache-Control"; "Connection"; "Content-Encoding"; "Content-Length"; "Content-Range"; "Content-Type";
   "Expect"; "Host"; "Keep-Alive"; "Max-Forwards"; "Pragma"; "Proxy-Authenticate"; "Proxy-Authorization"; "Proxy-Connection";
   "Range"; "Realm"; "Te"; "Trailer"; "Transfer-Encoding"; "Www-Authenticate"]%string.

Definition ValidTrailerHeader (name : bytes) : bool :=
  let name := CanonicalMIMEHeaderKey name in
  negb (bool_decide (str "If-" `prefix_of` name) || bool_decide (name ∈ badTrailer)).

(** * Requests *)

Record requestParam := mkParam { rp_method : bytes; rp_scheme : bytes; rp_authority : bytes; rp_path : bytes; rp_header : http_header }.

(** What the code sets of an [http.Request] and of its [requestBody]. *)
Record Request := mkRequest {
  Method : bytes;
  RequestURI : bytes;
  req_Header : http_header;
  Host : bytes;
  ContentLength : Z;
  Trailer : option http_header;
  overTLS : bool;
  hasBody : bool;
  needsContinue : bool }.

Section requests.
(** Whether [url.ParseRequestURI] accepts a path. *)
Variable ParseRequestURI : bytes -> bool.

(** The keys of [Trailer] headers. *)
Definition announced (vv : list bytes) : option http_header :=
  foldl (fun t key =>
    let key := CanonicalMIMEHeaderKey (TrimSpace key) in
    if bool_decide (key ∈ str <$> ["Transfer-Encoding"; "Trailer"; "Content-Length"]%string) then t
    else Some (<[key := []]> (default ∅ t))) None (vv ≫= Split (chr ",")).

(** [newWriterAndRequestNoBody]; [None] is [streamError(st.id, ErrCodeProtocol)]. *)
Definition newWriterAndRequestNoBody (rp : requestParam) : option Request :=
  let h := rp_header rp in
  let tls := bool_decide (rp_scheme rp = str "https") in
  let needsContinue := bool_decide (header_Get (str "Expect") h = str "100-continue") in
  let h := if needsContinue then header_Del (str "Expect") h else h in
  let cookies := default [] (h !! str "Cookie") in
  let h := if 1 <? len cookies then header_Set (str "Cookie") (join_with (str "; ") cookies) h else h in
  let trailer := announced (default [] (h !! str "Trailer")) in
  let h := delete (str "Trailer") h in
  if decide (rp_method rp = str "CONNECT") then
    Some (mkRequest (rp_method rp) (rp_authority rp) h (rp_authority rp) 0 trailer tls false needsContinue)
  else if negb (ParseRequestURI (rp_path rp)) then None
  else Some (mkRequest (rp_method rp) (rp_path rp) h (rp_authority rp) 0 trailer tls false needsContinue).

Definition mh_StreamEnded (f : MetaHeadersFrame) : bool := Has (Flags (mh_Header f)) FlagHeadersEndStream.

Definition set_body_length (n : Z) (r : Request) : Request :=
  mkRequest (Method r) (RequestURI r) (req_Header r) (Host r) n (Trailer r) (overTLS r) true (needsContinue r).

Definition add_fields (fields : list HeaderField) : http_header :=
  foldl (fun h hf => header_Add (canonicalHeader (Name hf)) (Value hf) h) ∅ fields.

(** [newWriterAndRequest]; [None] is [streamError(f.StreamID, ErrCodeProtocol)]. *)
Definition newWriterAndRequest (f : MetaHeadersFrame) : option Request :=
  let method := PseudoValue f (str "method") in
  let scheme := PseudoValue f (str "scheme") in
  let authority := PseudoValue f (str "authority") in
  let path := PseudoValue f (str "path") in
  let isConnect := bool_decide (method = str "CONNECT") in
  if (if isConnect then negb (bool_decide (path = [])) || negb (bool_decide (scheme = [])) || bool_decide (authority = [])
      else bool_decide (method = []) || bool_decide (path = []) ||
           negb (bool_decide (scheme = str "https")) && negb (bool_decide (scheme = str "http"))) then None
  else
    let bodyOpen := negb (mh_StreamEnded f) in
    if bool_decide (method = str "HEAD") && bodyOpen then None
    else
      let h := add_fields (RegularFields f) in
      let authority := if decide (authority = []) then header_Get (str "Host") h else authority in
      match newWriterAndRequestNoBody (mkParam method scheme authority path h) with
      | None => None
      | Some req =>
          if bodyOpen then
            Some (set_body_length (match req_Header req !! str "Content-Length" with
                                   | Some (v :: _) => fst (ParseInt v)
                                   | Some [] => 0
                                   | None => -1
                                   end) req)
          else Some req
      end.
End requests.

(** [checkPriority]: whether there is no error. *)
Definition checkPriority (streamID : Z) (p : PriorityParam) : bool := negb (streamID =? StreamDep p).

(** * Streams

    A stream is named by its id: the connection never uses an id twice. *)

(** What closes the pipe of a request body. *)
Inductive body_error :=
| bodyEOF
| bodyStreamError (StreamID Code : Z)
| errClientDisconnected
| errClosedBody
| errHandlerComplete
| errHandlerPanicked
| errTooLong (declared : Z)
| errTooShort (declared wrote : Z).

Section data.
Context {B : Type}.

Record sstream := mkSS {
  s_body : option (pipe B body_error); cw_closed : bool; bodyBytes : Z; declBodyBytes : Z; s_flow : positive;
  s_inflow : positive; s_state : streamState; resetQueued : bool; gotTrailerHeader : bool; wroteHeaders : bool;
  s_trailer : option http_header; s_reqTrailer : option http_header }.

Definition set_s_body (v : option (pipe B body_error)) (s : sstream) : sstream :=
    mkSS v (cw_closed s) (bodyBytes s) (declBodyBytes s) (s_flow s) (s_inflow s) (s_state s) (resetQueued s)
    (gotTrailerHeader s) (wroteHeaders s) (s_trailer s) (s_reqTrailer s).
Definition set_cw_closed (v : bool) (s : sstream) : sstream :=
    mkSS (s_body s) v (bodyBytes s) (declBodyBytes s) (s_flow s) (s_inflow s) (s_state s) (resetQueued s)
    (gotTrailerHeader s) (wroteHeaders s) (s_trailer s) (s_reqTrailer s).
Definition set_bodyBytes (v : Z) (s : sstream) : sstream :=
    mkSS (s_body s) (cw_closed s) v (declBodyBytes s) (s_flow s) (s_inflow s) (s_state s) (resetQueued s)
    (gotTrailerHeader s) (wroteHeaders s) (s_trailer s) (s_reqTrailer s).
Definition set_declBodyBytes (v : Z) (s : sstream) : sstream :=
    mkSS (s_body s) (cw_closed s) (bodyBytes s) v (s_flow s) (s_inflow s) (s_state s) (resetQueued s)
    (gotTrailerHeader s) (wroteHeaders s) (s_trailer s) (s_reqTrailer s).
Definition set_s_state (v : streamState) (s : sstream) : sstream :=
    mkSS (s_body s) (cw_closed s) (bodyBytes s) (declBodyBytes s) (s_flow s) (s_inflow s) v (resetQueued s)
    (gotTrailerHeader s) (wroteHeaders s) (s_trailer s) (s_reqTrailer s).
Definition set_resetQueued (v : bool) (s : sstream) : sstream :=
    mkSS (s_body s) (cw_closed s) (bodyBytes s) (declBodyBytes s) (s_flow s) (s_inflow s) (s_state s) v
    (gotTrailerHeader s) (wroteHeaders s) (s_trailer s) (s_reqTrailer s).
Definition set_gotTrailerHeader (v : bool) (s : sstream) : sstream :=
    mkSS (s_body s) (cw_closed s) (bodyBytes s) (declBodyBytes s) (s_flow s) (s_inflow s) (s_state s) (resetQueued
    s) v (wroteHeaders s) (s_trailer s) (s_reqTrailer s).
Definition set_wroteHeaders (v : bool) (s : sstream) : sstream :=
    mkSS (s_body s) (cw_closed s) (bodyBytes s) (declBodyBytes s) (s_flow s) (s_inflow s) (s_state s) (resetQueued
    s) (gotTrailerHeader s) v (s_trailer s) (s_reqTrailer s).
Definition set_s_trailer (v : option http_header) (s : sstream) : sstream :=
    mkSS (s_body s) (cw_closed s) (bodyBytes s) (declBodyBytes s) (s_flow s) (s_inflow s) (s_state s) (resetQueued
    s) (gotTrailerHeader s) (wroteHeaders s) v (s_reqTrailer s).
Definition set_s_reqTrailer (v : option http_header) (s : sstream) : sstream :=
    mkSS (s_body s) (cw_closed s) (bodyBytes s) (declBodyBytes s) (s_flow s) (s_inflow s) (s_state s) (resetQueued
    s) (gotTrailerHeader s) (wroteHeaders s) (s_trailer s) v.

(** * Effects

    What the serve loop does besides changing its state, the last effect
    first. *)
Inductive handler_error := errStreamClosed | ErrNotSupported | ErrPushLimitReached | errWrite (code : Z).

Inductive handler_kind := ServeHTTP | handleHeaderListTooLong | new400Handler.

Inductive sc_effect :=
| EStarted (wr : FrameWriteRequest)
| EReplied (ch : positive) (e : option handler_error)
| EConnState (active : bool)
| EIdleTimer (run : bool)
| EShutDownIn (d : Z)
| EEncoderTable (size : Z)
| ERunHandler (id : Z) (req : Request) (k : handler_kind).

(** * The connection

    [fls] holds the windows, [fresh] the next free pointer; [heap] all streams
    ever made, [streams] those of the map. [inflight] is the request a goroutine
    is writing, [keepAlives] the server's setting, [frames] counts the frames
    started. *)
Record serverConn := mkSC {
  fls : flows; fresh : positive; heap : gmap Z sstream; streams : gset Z; pushEnabled : bool;
  sawFirstSettings : bool; needToSendSettingsAck : bool; unackedSettings : Z; clientMaxStreams : Z;
  curClientStreams : Z; curPushedStreams : Z; maxClientStreamID : Z; maxPushPromiseID : Z;
  initialStreamSendWindowSize : Z; maxFrameSize : Z; headerTableSize : Z; peerMaxHeaderListSize : Z;
  writingFrame : bool; writingFrameAsync : bool; inflight : option FrameWriteRequest; needsFrameFlush : bool;
  inGoAway : bool; inFrameScheduleLoop : bool; needToSendGoAway : bool; goAwayCode : Z;
  writeSched : Random.scheduler; keepAlives : bool; frames : nat; log : list sc_effect }.

Definition set_fls (v : flows) (c : serverConn) : serverConn :=
  mkSC v (fresh c) (heap c) (streams c) (pushEnabled c) (sawFirstSettings c) (needToSendSettingsAck c)
    (unackedSettings c) (clientMaxStreams c) (curClientStreams c) (curPushedStreams c) (maxClientStreamID c)
    (maxPushPromiseID c) (initialStreamSendWindowSize c) (maxFrameSize c) (headerTableSize c)
    (peerMaxHeaderListSize c) (writingFrame c) (writingFrameAsync c) (inflight c) (needsFrameFlush c) (inGoAway c)
    (inFrameScheduleLoop c) (needToSendGoAway c) (goAwayCode c) (writeSched c) (keepAlives c) (frames c) (log c).
Definition set_fresh (v : positive) (c : serverConn) : serverConn :=
  mkSC (fls c) v (heap c) (streams c) (pushEnabled c) (sawFirstSettings c) (needToSendSettingsAck c)
    (unackedSettings c) (clientMaxStreams c) (curClientStreams c) (curPushedStreams c) (maxClientStreamID c)
    (maxPushPromiseID c) (initialStreamSendWindowSize c) (maxFrameSize c) (headerTableSize c)
    (peerMaxHeaderListSize c) (writingFrame c) (writingFrameAsync c) (inflight c) (needsFrameFlush c) (inGoAway c)
    (inFrameScheduleLoop c) (needToSendGoAway c) (goAwayCode c) (writeSched c) (keepAlives c) (frames c) (log c).
Definition set_heap (v : gmap Z sstream) (c : serverConn) : serverConn :=
  mkSC (fls c) (fresh c) v (streams c) (pushEnabled c) (sawFirstSettings c) (needToSendSettingsAck c)
    (unackedSettings c) (clientMaxStreams c) (curClientStreams c) (curPushedStreams c) (maxClientStreamID c)
    (maxPushPromiseID c) (initialStreamSendWindowSize c) (maxFrameSize c) (headerTableSize c)
    (peerMaxHeaderListSize c) (writingFrame c) (writingFrameAsync c) (inflight c) (needsFrameFlush c) (inGoAway c)
    (inFrameScheduleLoop c) (needToSendGoAway c) (goAwayCode c) (writeSched c) (keepAlives c) (frames c) (log c).
Definition set_streams (v : gset Z) (c : serverConn) : serverConn :=
  mkSC (fls c) (fresh c) (heap c) v (pushEnabled c) (sawFirstSettings c) (needToSendSettingsAck c) (unackedSettings c)
    (clientMaxStreams c) (curClientStreams c) (curPushedStreams c) (maxClientStreamID c) (maxPushPromiseID c)
    (initialStreamSendWindowSize c) (maxFrameSize c) (headerTableSize c) (peerMaxHeaderListSize c) (writingFrame c)
    (writingFrameAsync c) (inflight c) (needsFrameFlush c) (inGoAway c) (inFrameScheduleLoop c) (needToSendGoAway c)
    (goAwayCode c) (writeSched c) (keepAlives c) (frames c) (log c).
Definition set_pushEnabled (v : bool) (c : serverConn) : serverConn :=
  mkSC (fls c) (fresh c) (heap c) (streams c) v (sawFirstSettings c) (needToSendSettingsAck c) (unackedSettings c)
    (clientMaxStreams c) (curClientStreams c) (curPushedStreams c) (maxClientStreamID c) (maxPushPromiseID c)
    (initialStreamSendWindowSize c) (maxFrameSize c) (headerTableSize c) (peerMaxHeaderListSize c) (writingFrame c)
    (writingFrameAsync c) (inflight c) (needsFrameFlush c) (inGoAway c) (inFrameScheduleLoop c) (needToSendGoAway c)
    (goAwayCode c) (writeSched c) (keepAlives c) (frames c) (log c).
Definition set_sawFirstSettings (v : bool) (c : serverConn) : serverConn :=
  mkSC (fls c) (fresh c) (heap c) (streams c) (pushEnabled c) v (needToSendSettingsAck c) (unackedSettings c)
    (clientMaxStreams c) (curClientStreams c) (curPushedStreams c) (maxClientStreamID c) (maxPushPromiseID c)
    (initialStreamSendWindowSize c) (maxFrameSize c) (headerTableSize c) (peerMaxHeaderListSize c) (writingFrame c)
    (writingFrameAsync c) (inflight c) (needsFrameFlush c) (inGoAway c) (inFrameScheduleLoop c) (needToSendGoAway c)
    (goAwayCode c) (writeSched c) (keepAlives c) (frames c) (log c).
Definition set_needToSendSettingsAck (v : bool) (c : serverConn) : serverConn :=
  mkSC (fls c) (fresh c) (heap c) (streams c) (pushEnabled c) (sawFirstSettings c) v (unackedSettings c)
    (clientMaxStreams c) (curClientStreams c) (curPushedStreams c) (maxClientStreamID c) (maxPushPromiseID c)
    (initialStreamSendWindowSize c) (maxFrameSize c) (headerTableSize c) (peerMaxHeaderListSize c) (writingFrame c)
    (writingFrameAsync c) (inflight c) (needsFrameFlush c) (inGoAway c) (inFrameScheduleLoop c) (needToSendGoAway c)
    (goAwayCode c) (writeSched c) (keepAlives c) (frames c) (log c).
Definition set_unackedSettings (v : Z) (c : serverConn) : serverConn :=
  mkSC (fls c) (fresh c) (heap c) (streams c) (pushEnabled c) (sawFirstSettings c) (needToSendSettingsAck c) v
    (clientMaxStreams c) (curClientStreams c) (curPushedStreams c) (maxClientStreamID c) (maxPushPromiseID c)
    (initialStreamSendWindowSize c) (maxFrameSize c) (headerTableSize c) (peerMaxHeaderListSize c) (writingFrame c)
    (writingFrameAsync c) (inflight c) (needsFrameFlush c) (inGoAway c) (inFrameScheduleLoop c) (needToSendGoAway c)
    (goAwayCode c) (writeSched c) (keepAlives c) (frames c) (log c).
Definition set_clientMaxStreams (v : Z) (c : serverConn) : serverConn :=
  mkSC (fls c) (fresh c) (heap c) (streams c) (pushEnabled c) (sawFirstSettings c) (needToSendSettingsAck c)
    (unackedSettings c) v (curClientStreams c) (curPushedStreams c) (maxClientStreamID c) (maxPushPromiseID c)
    (initialStreamSendWindowSize c) (maxFrameSize c) (headerTableSize c) (peerMaxHeaderListSize c) (writingFrame c)
    (writingFrameAsync c) (inflight c) (needsFrameFlush c) (inGoAway c) (inFrameScheduleLoop c) (needToSendGoAway c)
    (goAwayCode c) (writeSched c) (keepAlives c) (frames c) (log c).
Definition set_curClientStreams (v : Z) (c : serverConn) : serverConn :=
  mkSC (fls c) (fresh c) (heap c) (streams c) (pushEnabled c) (sawFirstSettings c) (needToSendSettingsAck c)
    (unackedSettings c) (clientMaxStreams c) v (curPushedStreams c) (maxClientStreamID c) (maxPushPromiseID c)
    (initialStreamSendWindowSize c) (maxFrameSize c) (headerTableSize c) (peerMaxHeaderListSize c) (writingFrame c)
    (writingFrameAsync c) (inflight c) (needsFrameFlush c) (inGoAway c) (inFrameScheduleLoop c) (needToSendGoAway c)
    (goAwayCode c) (writeSched c) (keepAlives c) (frames c) (log c).
Definition set_curPushedStreams (v : Z) (c : serverConn) : serverConn :=
  mkSC (fls c) (fresh c) (heap c) (streams c) (pushEnabled c) (sawFirstSettings c) (needToSendSettingsAck c)
    (unackedSettings c) (clientMaxStreams c) (curClientStreams c) v (maxClientStreamID c) (maxPushPromiseID c)
    (initialStreamSendWindowSize c) (maxFrameSize c) (headerTableSize c) (peerMaxHeaderListSize c) (writingFrame c)
    (writingFrameAsync c) (inflight c) (needsFrameFlush c) (inGoAway c) (inFrameScheduleLoop c) (needToSendGoAway c)
    (goAwayCode c) (writeSched c) (keepAlives c) (frames c) (log c).
Definition set_maxClientStreamID (v : Z) (c : serverConn) : serverConn :=
  mkSC (fls c) (fresh c) (heap c) (streams c) (pushEnabled c) (sawFirstSettings c) (needToSendSettingsAck c)
    (unackedSettings c) (clientMaxStreams c) (curClientStreams c) (curPushedStreams c) v (maxPushPromiseID c)
    (initialStreamSendWindowSize c) (maxFrameSize c) (headerTableSize c) (peerMaxHeaderListSize c) (writingFrame c)
    (writingFrameAsync c) (inflight c) (needsFrameFlush c) (inGoAway c) (inFrameScheduleLoop c) (needToSendGoAway c)
    (goAwayCode c) (writeSched c) (keepAlives c) (frames c) (log c).
Definition set_maxPushPromiseID (v : Z) (c : serverConn) : serverConn :=
  mkSC (fls c) (fresh c) (heap c) (streams c) (pushEnabled c) (sawFirstSettings c) (needToSendSettingsAck c)
    (unackedSettings c) (clientMaxStreams c) (curClientStreams c) (curPushedStreams c) (maxClientStreamID c) v
    (initialStreamSendWindowSize c) (maxFrameSize c) (headerTableSize c) (peerMaxHeaderListSize c) (writingFrame c)
    (writingFrameAsync c) (inflight c) (needsFrameFlush c) (inGoAway c) (inFrameScheduleLoop c) (needToSendGoAway c)
    (goAwayCode c) (writeSched c) (keepAlives c) (frames c) (log c).
Definition set_initialStreamSendWindowSize (v : Z) (c : serverConn) : serverConn :=
  mkSC (fls c) (fresh c) (heap c) (streams c) (pushEnabled c) (sawFirstSettings c) (needToSendSettingsAck c)
    (unackedSettings c) (clientMaxStreams c) (curClientStreams c) (curPushedStreams c) (maxClientStreamID c)
    (maxPushPromiseID c) v (maxFrameSize c) (headerTableSize c) (peerMaxHeaderListSize c) (writingFrame c)
    (writingFrameAsync c) (inflight c) (needsFrameFlush c) (inGoAway c) (inFrameScheduleLoop c) (needToSendGoAway c)
    (goAwayCode c) (writeSched c) (keepAlives c) (frames c) (log c).
Definition set_maxFrameSize (v : Z) (c : serverConn) : serverConn :=
  mkSC (fls c) (fresh c) (heap c) (streams c) (pushEnabled c) (sawFirstSettings c) (needToSendSettingsAck c)
    (unackedSettings c) (clientMaxStreams c) (curClientStreams c) (curPushedStreams c) (maxClientStreamID c)
    (maxPushPromiseID c) (initialStreamSendWindowSize c) v (headerTableSize c) (peerMaxHeaderListSize c)
    (writingFrame c) (writingFrameAsync c) (inflight c) (needsFrameFlush c) (inGoAway c) (inFrameScheduleLoop c)
    (needToSendGoAway c) (goAwayCode c) (writeSched c) (keepAlives c) (frames c) (log c).
Definition set_headerTableSize (v : Z) (c : serverConn) : serverConn :=
  mkSC (fls c) (fresh c) (heap c) (streams c) (pushEnabled c) (sawFirstSettings c) (needToSendSettingsAck c)
    (unackedSettings c) (clientMaxStreams c) (curClientStreams c) (curPushedStreams c) (maxClientStreamID c)
    (maxPushPromiseID c) (initialStreamSendWindowSize c) (maxFrameSize c) v (peerMaxHeaderListSize c) (writingFrame c)
    (writingFrameAsync c) (inflight c) (needsFrameFlush c) (inGoAway c) (inFrameScheduleLoop c) (needToSendGoAway c)
    (goAwayCode c) (writeSched c) (keepAlives c) (frames c) (log c).
Definition set_peerMaxHeaderListSize (v : Z) (c : serverConn) : serverConn :=
  mkSC (fls c) (fresh c) (heap c) (streams c) (pushEnabled c) (sawFirstSettings c) (needToSendSettingsAck c)
    (unackedSettings c) (clientMaxStreams c) (curClientStreams c) (curPushedStreams c) (maxClientStreamID c)
    (maxPushPromiseID c) (initialStreamSendWindowSize c) (maxFrameSize c) (headerTableSize c) v (writingFrame c)
    (writingFrameAsync c) (inflight c) (needsFrameFlush c) (inGoAway c) (inFrameScheduleLoop c) (needToSendGoAway c)
    (goAwayCode c) (writeSched c) (keepAlives c) (frames c) (log c).
Definition set_writingFrame (v : bool) (c : serverConn) : serverConn :=
  mkSC (fls c) (fresh c) (heap c) (streams c) (pushEnabled c) (sawFirstSettings c) (needToSendSettingsAck c)
    (unackedSettings c) (clientMaxStreams c) (curClientStreams c) (curPushedStreams c) (maxClientStreamID c)
    (maxPushPromiseID c) (initialStreamSendWindowSize c) (maxFrameSize c) (headerTableSize c)
    (peerMaxHeaderListSize c) v (writingFrameAsync c) (inflight c) (needsFrameFlush c) (inGoAway c)
    (inFrameScheduleLoop c) (needToSendGoAway c) (goAwayCode c) (writeSched c) (keepAlives c) (frames c) (log c).
Definition set_writingFrameAsync (v : bool) (c : serverConn) : serverConn :=
  mkSC (fls c) (fresh c) (heap c) (streams c) (pushEnabled c) (sawFirstSettings c) (needToSendSettingsAck c)
    (unackedSettings c) (clientMaxStreams c) (curClientStreams c) (curPushedStreams c) (maxClientStreamID c)
    (maxPushPromiseID c) (initialStreamSendWindowSize c) (maxFrameSize c) (headerTableSize c)
    (peerMaxHeaderListSize c) (writingFrame c) v (inflight c) (needsFrameFlush c) (inGoAway c) (inFrameScheduleLoop c)
    (needToSendGoAway c) (goAwayCode c) (writeSched c) (keepAlives c) (frames c) (log c).
Definition set_inflight (v : option FrameWriteRequest) (c : serverConn) : serverConn :=
  mkSC (fls c) (fresh c) (heap c) (streams c) (pushEnabled c) (sawFirstSettings c) (needToSendSettingsAck c)
    (unackedSettings c) (clientMaxStreams c) (curClientStreams c) (curPushedStreams c) (maxClientStreamID c)
    (maxPushPromiseID c) (initialStreamSendWindowSize c) (maxFrameSize c) (headerTableSize c)
    (peerMaxHeaderListSize c) (writingFrame c) (writingFrameAsync c) v (needsFrameFlush c) (inGoAway c)
    (inFrameScheduleLoop c) (needToSendGoAway c) (goAwayCode c) (writeSched c) (keepAlives c) (frames c) (log c).
Definition set_needsFrameFlush (v : bool) (c : serverConn) : serverConn :=
  mkSC (fls c) (fresh c) (heap c) (streams c) (pushEnabled c) (sawFirstSettings c) (needToSendSettingsAck c)
    (unackedSettings c) (clientMaxStreams c) (curClientStreams c) (curPushedStreams c) (maxClientStreamID c)
    (maxPushPromiseID c) (initialStreamSendWindowSize c) (maxFrameSize c) (headerTableSize c)
    (peerMaxHeaderListSize c) (writingFrame c) (writingFrameAsync c) (inflight c) v (inGoAway c)
    (inFrameScheduleLoop c) (needToSendGoAway c) (goAwayCode c) (writeSched c) (keepAlives c) (frames c) (log c).
Definition set_inGoAway (v : bool) (c : serverConn) : serverConn :=
  mkSC (fls c) (fresh c) (heap c) (streams c) (pushEnabled c) (sawFirstSettings c) (needToSendSettingsAck c)
    (unackedSettings c) (clientMaxStreams c) (curClientStreams c) (curPushedStreams c) (maxClientStreamID c)
    (maxPushPromiseID c) (initialStreamSendWindowSize c) (maxFrameSize c) (headerTableSize c)
    (peerMaxHeaderListSize c) (writingFrame c) (writingFrameAsync c) (inflight c) (needsFrameFlush c) v
    (inFrameScheduleLoop c) (needToSendGoAway c) (goAwayCode c) (writeSched c) (keepAlives c) (frames c) (log c).
Definition set_inFrameScheduleLoop (v : bool) (c : serverConn) : serverConn :=
  mkSC (fls c) (fresh c) (heap c) (streams c) (pushEnabled c) (sawFirstSettings c) (needToSendSettingsAck c)
    (unackedSettings c) (clientMaxStreams c) (curClientStreams c) (curPushedStreams c) (maxClientStreamID c)
    (maxPushPromiseID c) (initialStreamSendWindowSize c) (maxFrameSize c) (headerTableSize c)
    (peerMaxHeaderListSize c) (writingFrame c) (writingFrameAsync c) (inflight c) (needsFrameFlush c) (inGoAway c) v
    (needToSendGoAway c) (goAwayCode c) (writeSched c) (keepAlives c) (frames c) (log c).
Definition set_needToSendGoAway (v : bool) (c : serverConn) : serverConn :=
  mkSC (fls c) (fresh c) (heap c) (streams c) (pushEnabled c) (sawFirstSettings c) (needToSendSettingsAck c)
    (unackedSettings c) (clientMaxStreams c) (curClientStreams c) (curPushedStreams c) (maxClientStreamID c)
    (maxPushPromiseID c) (initialStreamSendWindowSize c) (maxFrameSize c) (headerTableSize c)
    (peerMaxHeaderListSize c) (writingFrame c) (writingFrameAsync c) (inflight c) (needsFrameFlush c) (inGoAway c)
    (inFrameScheduleLoop c) v (goAwayCode c) (writeSched c) (keepAlives c) (frames c) (log c).
Definition set_goAwayCode (v : Z) (c : serverConn) : serverConn :=
  mkSC (fls c) (fresh c) (heap c) (streams c) (pushEnabled c) (sawFirstSettings c) (needToSendSettingsAck c)
    (unackedSettings c) (clientMaxStreams c) (curClientStreams c) (curPushedStreams c) (maxClientStreamID c)
    (maxPushPromiseID c) (initialStreamSendWindowSize c) (maxFrameSize c) (headerTableSize c)
    (peerMaxHeaderListSize c) (writingFrame c) (writingFrameAsync c) (inflight c) (needsFrameFlush c) (inGoAway c)
    (inFrameScheduleLoop c) (needToSendGoAway c) v (writeSched c) (keepAlives c) (frames c) (log c).
Definition set_writeSched (v : Random.scheduler) (c : serverConn) : serverConn :=
  mkSC (fls c) (fresh c) (heap c) (streams c) (pushEnabled c) (sawFirstSettings c) (needToSendSettingsAck c)
    (unackedSettings c) (clientMaxStreams c) (curClientStreams c) (curPushedStreams c) (maxClientStreamID c)
    (maxPushPromiseID c) (initialStreamSendWindowSize c) (maxFrameSize c) (headerTableSize c)
    (peerMaxHeaderListSize c) (writingFrame c) (writingFrameAsync c) (inflight c) (needsFrameFlush c) (inGoAway c)
    (inFrameScheduleLoop c) (needToSendGoAway c) (goAwayCode c) v (keepAlives c) (frames c) (log c).
Definition set_keepAlives (v : bool) (c : serverConn) : serverConn :=
  mkSC (fls c) (fresh c) (heap c) (streams c) (pushEnabled c) (sawFirstSettings c) (needToSendSettingsAck c)
    (unackedSettings c) (clientMaxStreams c) (curClientStreams c) (curPushedStreams c) (maxClientStreamID c)
    (maxPushPromiseID c) (initialStreamSendWindowSize c) (maxFrameSize c) (headerTableSize c)
    (peerMaxHeaderListSize c) (writingFrame c) (writingFrameAsync c) (inflight c) (needsFrameFlush c) (inGoAway c)
    (inFrameScheduleLoop c) (needToSendGoAway c) (goAwayCode c) (writeSched c) v (frames c) (log c).
Definition set_frames (v : nat) (c : serverConn) : serverConn :=
  mkSC (fls c) (fresh c) (heap c) (streams c) (pushEnabled c) (sawFirstSettings c) (needToSendSettingsAck c)
    (unackedSettings c) (clientMaxStreams c) (curClientStreams c) (curPushedStreams c) (maxClientStreamID c)
    (maxPushPromiseID c) (initialStreamSendWindowSize c) (maxFrameSize c) (headerTableSize c)
    (peerMaxHeaderListSize c) (writingFrame c) (writingFrameAsync c) (inflight c) (needsFrameFlush c) (inGoAway c)
    (inFrameScheduleLoop c) (needToSendGoAway c) (goAwayCode c) (writeSched c) (keepAlives c) v (log c).
Definition set_log (v : list sc_effect) (c : serverConn) : serverConn :=
  mkSC (fls c) (fresh c) (heap c) (streams c) (pushEnabled c) (sawFirstSettings c) (needToSendSettingsAck c)
    (unackedSettings c) (clientMaxStreams c) (curClientStreams c) (curPushedStreams c) (maxClientStreamID c)
    (maxPushPromiseID c) (initialStreamSendWindowSize c) (maxFrameSize c) (headerTableSize c)
    (peerMaxHeaderListSize c) (writingFrame c) (writingFrameAsync c) (inflight c) (needsFrameFlush c) (inGoAway c)
    (inFrameScheduleLoop c) (needToSendGoAway c) (goAwayCode c) (writeSched c) (keepAlives c) (frames c) v.
End data.
Arguments sstream : clear implicits.
Arguments serverConn : clear implicits.
