(* ===== verification/Http2Server.v ===== *)
(** The serve loop of a server connection, [http2/server.go]: every method the
    loop runs, up to the goroutines it starts. *)
From S2P Require Import Prelude GoStrings HpackTables Http2Errors Http2DataBuffer Http2Pipe Http2Frame Http2Framer.
From S2P Require Import Http2Write Http2ServerData Http2Flow Http2WriteSched.

Definition conn_flow : positive := 1.
Definition conn_inflow : positive := 2.

(** A request that goes to the connection itself. *)
Definition on_conn (w : writeFramer) : FrameWriteRequest := mkReq (Some w) None None.

Section server.
Context {B : Type} `{!PipeBuffer B}.

(** [&dataBuffer{expected: n}]. *)
Variable newBuffer : Z -> B.
Variable srv : Server.
Variable ParseRequestURI : bytes -> bool.

(** What the run-time decides: the space left in the connection's buffer when the
    [k]-th frame is started and the error of writing it, the orders in which
    [range] visits the scheduler's queues and the streams. *)
Variable Available : nat -> Z.
Variable writeErr : nat -> option handler_error.
Variable range_queues : nat -> gmap Z writeQueue -> list Z.
Variable range_streams : nat -> list Z -> list Z.

Abbreviation sc := (serverConn B).
Abbreviation stream_of := (sstream B).

(** * Small steps *)

Definition get_stream (id : Z) (c : sc) : fl stream_of := or_panic (heap c !! id).
Definition upd_stream (id : Z) (f : stream_of -> stream_of) (c : sc) : fl sc :=
  st ← get_stream id c; Ok (set_heap (<[id := f st]> (heap c)) c).
Definition log_effect (e : sc_effect) (c : sc) : sc := set_log (e :: log c) c.

(** [f.add(n)] on the window [p]. *)
Definition flow_add (p : positive) (k : Z) (c : sc) : fl (sc * bool) :=
  '(fs, ok) ← add p k (fls c); Ok (set_fls fs c, ok).

Definition curOpenStreams (c : sc) : Z := u32 (curClientStreams c + curPushedStreams c).

(** [serverConn.state]. *)
Definition sc_state (streamID : Z) (c : sc) : streamState :=
  if decide (streamID ∈ streams c) then match heap c !! streamID with Some st => s_state st | None => stateIdle end
  else if streamID mod 2 =? 1 then if streamID <=? maxClientStreamID c then stateClosed else stateIdle
  else if streamID <=? maxPushPromiseID c then stateClosed else stateIdle.

(** The request's view of a stream. *)
Definition view (id : Z) (st : stream_of) : stream := mkStream id (s_flow st).

Definition reply (wr : FrameWriteRequest) (e : option handler_error) (c : sc) : fl sc :=
  '(_, ch) ← replyToWriter (fun _ => true) wr;
  Ok (match ch with Some ch => log_effect (EReplied ch e) c | None => c end).

Definition isPushed (id : Z) : bool := id mod 2 =? 0.

(** [newStream]; the streams that pushed it do not matter to the random
    scheduler. *)
Definition newStream (id pusherID : Z) (state : streamState) (c : sc) : fl sc :=
  if id =? 0 then Panic
  else
    let f := fresh c in
    let g := (f + 1)%positive in
    let c := set_fresh (g + 1) (set_fls (<[g := mkFlow 0 (Some conn_inflow)]> (<[f := mkFlow 0 (Some conn_flow)]> (fls c))) c) in
    '(c, _) ← flow_add f (initialStreamSendWindowSize c) c;
    '(c, _) ← flow_add g (initialStreamRecvWindowSize srv) c;
    let st := mkSS None false 0 0 f g state false false false None None in
    let c := set_streams ({[id]} ∪ streams c) (set_heap (<[id := st]> (heap c)) c) in
    let c := set_writeSched (Random.OpenStream id pusherID (writeSched c)) c in
    let c := if isPushed id then set_curPushedStreams (u32 (curPushedStreams c + 1)) c
             else set_curClientStreams (u32 (curClientStreams c + 1)) c in
    Ok (if curOpenStreams c =? 1 then log_effect (EConnState true) c else c).

(** * Writing

    [writeFrame] and [scheduleFrameWrite] call each other through
    [startFrameWrite] and [wroteFrame]: the methods are defined over the
    scheduling they call. *)
Section methods.
Variable scheduleFrameWrite : sc -> fl sc.

Definition is_reset (wr : FrameWriteRequest) : bool := match write wr with Some (write_StreamError _ _) => true | _ => false end.

Definition writeFrame (wr : FrameWriteRequest) (c : sc) : fl sc :=
  let ignoreWrite :=
    negb (StreamID wr =? 0) && bool_decide (sc_state (StreamID wr) c = stateClosed) && negb (is_reset wr) in
  '(c, ignoreWrite) ←
    match write wr with
    | Some (write_headers _) =>
        s ← or_panic (req_stream wr); c ← upd_stream (st_id s) (set_wroteHeaders true) c; Ok (c, ignoreWrite)
    | Some (write100ContinueHeadersFrame _) =>
        s ← or_panic (req_stream wr);
        st ← get_stream (st_id s) c;
        if wroteHeaders st then if decide (done wr = None) then Ok (c, true) else Panic else Ok (c, ignoreWrite)
    | _ => Ok (c, ignoreWrite)
    end;
  scheduleFrameWrite (if (ignoreWrite : bool) then c else set_writeSched (Random.Push wr (writeSched c)) c).

(** [sendWindowUpdate32]; without a stream the update is the connection's. *)
Definition sendWindowUpdate32 (id : option Z) (k : Z) (c : sc) : fl sc :=
  if k =? 0 then Ok c
  else if k <? 0 then Panic
  else
    '(streamID, stream, window) ←
      match id with
      | None => Ok (0, None, conn_inflow)
      | Some id => st ← get_stream id c; Ok (id, Some (view id st), s_inflow st)
      end;
    c ← writeFrame (mkReq (Some (writeWindowUpdate streamID (u32 k))) stream None) c;
    '(c, ok) ← flow_add window k c;
    if (ok : bool) then Ok c else Panic.

Definition maxUint31 : Z := 2 ^ 31 - 1.
Fixpoint update_loop (fuel : nat) (id : option Z) (k : Z) (c : sc) : fl sc :=
  if maxUint31 <=? k then
    match fuel with
    | O => Panic
    | S fuel' => c ← sendWindowUpdate32 id maxUint31 c; update_loop fuel' id (k - maxUint31) c
    end
  else sendWindowUpdate32 id (i32 k) c.
(** [sendWindowUpdate]; every round takes [maxUint31] away. *)
Definition sendWindowUpdate (id : option Z) (k : Z) (c : sc) : fl sc := update_loop (Z.to_nat (k / maxUint31)) id k c.

Definition Millisecond : Z := 1000000.

Definition goAwayIn (code forceCloseIn : Z) (c : sc) : fl sc :=
  if inGoAway c then Ok c
  else
    let c := if forceCloseIn =? 0 then c else log_effect (EShutDownIn forceCloseIn) c in
    scheduleFrameWrite (set_goAwayCode code (set_needToSendGoAway true (set_inGoAway true c))).
Definition startGracefulShutdownInternal (c : sc) : fl sc := goAwayIn ErrCodeNo 0 c.
Definition goAway (code : Z) (c : sc) : fl sc :=
  goAwayIn code (if negb (code =? ErrCodeNo) then 250 * Millisecond else 1000 * Millisecond) c.

Definition closeStream (id : Z) (err : body_error) (c : sc) : fl sc :=
  st ← get_stream id c;
  if bool_decide (s_state st = stateIdle) || bool_decide (s_state st = stateClosed) then Panic
  else
    c ← upd_stream id (set_s_state stateClosed) c;
    let c := if isPushed id then set_curPushedStreams (u32 (curPushedStreams c - 1)) c
             else set_curClientStreams (u32 (curClientStreams c - 1)) c in
    let c := set_streams (streams c ∖ {[id]}) c in
    c ← (if decide (streams c = ∅) then
           let c := log_effect (EConnState false) c in
           let c := if negb (IdleTimeout srv =? 0) then log_effect (EIdleTimer true) c else c in
           if negb (keepAlives c) then startGracefulShutdownInternal c else Ok c
         else Ok c);
    c ← match s_body st with
        | None => Ok c
        | Some p =>
            c ← sendWindowUpdate None (pipe_Len p) c;
            upd_stream id (fun st => set_s_body (CloseWithError err <$> s_body st) st) c
        end;
    st ← get_stream id c;
    if cw_closed st then Panic
    else
      c ← upd_stream id (set_cw_closed true) c;
      Ok (set_writeSched (Random.CloseStream id (writeSched c)) c).

Definition resetStream (id code : Z) (c : sc) : fl sc :=
  c ← writeFrame (on_conn (write_StreamError id code)) c;
  if decide (id ∈ streams c) then upd_stream id (set_resetQueued true) c else Ok c.

Definition wroteFrame (wr : FrameWriteRequest) (err : option handler_error) (c : sc) : fl sc :=
  if negb (writingFrame c) then Panic
  else
    let c := set_inflight None (set_writingFrameAsync false (set_writingFrame false c)) in
    ends ← writeEndsStream (write wr);
    c ← (if (ends : bool) then
           s ← or_panic (req_stream wr);
           st ← get_stream (st_id s) c;
           match s_state st with
           | stateOpen =>
               c ← upd_stream (st_id s) (set_s_state stateHalfClosedLocal) c;
               resetStream (st_id s) ErrCodeNo c
           | stateHalfClosedRemote => closeStream (st_id s) errHandlerComplete c
           | _ => Ok c
           end
         else
           match write wr with
           | Some (write_StreamError id code) =>
               if decide (id ∈ streams c) then closeStream id (bodyStreamError id code) c else Ok c
           | Some (handlerPanicRST _) => s ← or_panic (req_stream wr); closeStream (st_id s) errHandlerPanicked c
           | _ => Ok c
           end);
    c ← reply wr err c;
    scheduleFrameWrite c.

(** The closure [allocatePromisedID] of [startPush]. *)
Definition allocatePromisedID (w : writePushPromise) (c : sc) : fl (sc * (Z + handler_error)) :=
  if negb (pushEnabled c) then Ok (c, inr ErrNotSupported)
  else if clientMaxStreams c <? u32 (curPushedStreams c + 1) then Ok (c, inr ErrPushLimitReached)
  else if 2 ^ 31 <=? u32 (maxPushPromiseID c + 2) then
    c ← startGracefulShutdownInternal c; Ok (c, inr ErrPushLimitReached)
  else
    let c := set_maxPushPromiseID (u32 (maxPushPromiseID c + 2)) c in
    let promisedID := maxPushPromiseID c in
    c ← newStream promisedID (wp_streamID w) stateHalfClosedRemote c;
    match newWriterAndRequestNoBody ParseRequestURI
            (mkParam (wp_method w) (url_Scheme w) (url_Host w) (url_RequestURI w) (wp_h w)) with
    | None => Panic
    | Some req => Ok (log_effect (ERunHandler promisedID req ServeHTTP) c, inl promisedID)
    end.

Definition set_promisedID (id : Z) (w : writePushPromise) : writePushPromise :=
  mkPush (wp_streamID w) (wp_method w) (url_Scheme w) (url_Host w) (url_RequestURI w) (wp_h w) id.

(** May a frame be sent in the state of its stream? *)
Definition send_allowed (st : streamState) (wr : FrameWriteRequest) : bool :=
  match st with
  | stateHalfClosedLocal =>
      match write wr with Some (write_StreamError _ _) | Some (handlerPanicRST _) | Some (writeWindowUpdate _ _) => true | _ => false end
  | stateClosed => false
  | _ => true
  end.

Definition startFrameWrite (wr : FrameWriteRequest) (c : sc) : fl sc :=
  if writingFrame c then Panic
  else
    ok ← match req_stream wr with
         | None => Ok true
         | Some s => st ← get_stream (st_id s) c; Ok (send_allowed (s_state st) wr)
         end;
    if negb (ok : bool) then Panic
    else
      '(c, wr) ← match write wr with
                 | Some (write_push w) =>
                     '(c, r) ← allocatePromisedID w c;
                     match r with
                     | inl id => Ok (c, inl (mkReq (Some (write_push (set_promisedID id w))) (req_stream wr) (done wr)))
                     | inr e => c ← reply wr (Some e) (set_writingFrameAsync false c); Ok (c, inr tt)
                     end
                 | _ => Ok (c, inl wr)
                 end;
      match wr with
      | inr _ => Ok c
      | inl wr =>
          w ← or_panic (write wr);
          let k := frames c in
          let c := log_effect (EStarted wr) (set_frames (S k) (set_needsFrameFlush true (set_writingFrame true c))) in
          if staysWithinBuffer w (Available k) then wroteFrame wr (writeErr k) (set_writingFrameAsync false c)
          else Ok (set_inflight (Some wr) (set_writingFrameAsync true c))
      end.
End methods.

(** The bytes, frames and streams a run of the scheduling loop can use up. *)
Definition request_weight (wr : FrameWriteRequest) : nat :=
  match write wr with Some (writeData _ p _) => 8 + 2 * length p | Some (write_push _) => 64 | _ => 8 end.
Definition queue_weight (q : writeQueue) : nat := foldr (fun wr n => request_weight wr + n)%nat 0%nat q.
Definition loop_fuel (c : sc) : nat :=
  (queue_weight (Random.zero (writeSched c)) + map_fold (fun _ q n => queue_weight q + n)%nat 0%nat (Random.sq (writeSched c)) +
   48 * base.size (streams c) + 16)%nat.

(** [scheduleFrameWrite]'s loop over the [startFrameWrite] it calls. *)
Section schedule.
Variable startFrameWrite : FrameWriteRequest -> sc -> fl sc.

Definition pop (c : sc) : fl (option FrameWriteRequest * sc) :=
  if negb (inGoAway c) || (goAwayCode c =? ErrCodeNo) then
    '(wr, ok, ws, fs) ← Random.Pop (range_queues (frames c)) (maxFrameSize c) (writeSched c) (fls c);
    Ok (if (ok : bool) then Some wr else None, set_fls fs (set_writeSched ws c))
  else Ok (None, c).

Fixpoint schedule_loop (fuel : nat) (c : sc) : fl sc :=
  if writingFrameAsync c then Ok c
  else
    match fuel with
    | O => Panic
    | S fuel' =>
        if needToSendGoAway c then
          c ← startFrameWrite (on_conn (writeGoAway (maxClientStreamID c) (goAwayCode c))) (set_needToSendGoAway false c);
          schedule_loop fuel' c
        else if needToSendSettingsAck c then
          c ← startFrameWrite (on_conn writeSettingsAck) (set_needToSendSettingsAck false c); schedule_loop fuel' c
        else
          '(wr, c) ← pop c;
          match wr with
          | Some wr => c ← startFrameWrite wr c; schedule_loop fuel' c
          | None =>
              if needsFrameFlush c then
                c ← startFrameWrite (on_conn flushFrameWriter) c; schedule_loop fuel' (set_needsFrameFlush false c)
              else Ok c
          end
    end.
End schedule.

(** [scheduleFrameWrite]; a call from within the loop does nothing, so that the
    depth never exceeds one. *)
Fixpoint scheduleFrameWrite (depth : nat) (c : sc) : fl sc :=
  if writingFrame c || inFrameScheduleLoop c then Ok c
  else
    match depth with
    | O => Panic
    | S depth' =>
        let c := set_inFrameScheduleLoop true c in
        c ← schedule_loop (startFrameWrite (scheduleFrameWrite depth')) (loop_fuel c) c;
        Ok (set_inFrameScheduleLoop false c)
    end.
Definition schedule (c : sc) : fl sc := scheduleFrameWrite 1 c.

(** * Frames from the client *)

Inductive proc_error := PErr (e : http2_error) | goAwayFlowError.

Definition serr (id code : Z) : option proc_error := Some (PErr (streamError id code)).
Definition cerr (code : Z) : option proc_error := Some (PErr (ConnectionError code)).

Abbreviation processed := (fl (sc * option proc_error)).

(** The request to write [w] on [stream id], and what to answer. *)
Definition then_ok (r : fl sc) : processed := c ← r; Ok (c, None).

Definition processPing (h : FrameHeader) (data : bytes) (c : sc) : processed :=
  if PingFrame_IsAck h then Ok (c, None)
  else if negb (Http2Frame.StreamID h =? 0) then Ok (c, cerr ErrCodeProtocol)
  else if inGoAway c && negb (goAwayCode c =? ErrCodeNo) then Ok (c, None)
  else then_ok (writeFrame schedule (on_conn (writePingAck data)) c).

Definition processWindowUpdate (h : FrameHeader) (increment : Z) (c : sc) : processed :=
  let id := Http2Frame.StreamID h in
  if negb (id =? 0) then
    if bool_decide (sc_state id c = stateIdle) then Ok (c, cerr ErrCodeProtocol)
    else if decide (id ∈ streams c) then
      st ← get_stream id c;
      '(c, ok) ← flow_add (s_flow st) (i32 increment) c;
      if negb (ok : bool) then Ok (c, serr id ErrCodeFlowControl) else then_ok (schedule c)
    else Ok (c, None)
  else
    '(c, ok) ← flow_add conn_flow (i32 increment) c;
    if negb (ok : bool) then Ok (c, Some goAwayFlowError) else then_ok (schedule c).

Definition processResetStream (h : FrameHeader) (code : Z) (c : sc) : processed :=
  let id := Http2Frame.StreamID h in
  if bool_decide (sc_state id c = stateIdle) then Ok (c, cerr ErrCodeProtocol)
  else if decide (id ∈ streams c) then then_ok (closeStream schedule id (bodyStreamError id code) c)
  else Ok (c, None).

(** The loop over the streams' windows. *)
Fixpoint grow_loop (ids : list Z) (growth : Z) (c : sc) : processed :=
  match ids with
  | [] => Ok (c, None)
  | id :: ids =>
      st ← get_stream id c;
      '(c, ok) ← flow_add (s_flow st) growth c;
      if negb (ok : bool) then Ok (c, cerr ErrCodeFlowControl) else grow_loop ids growth c
  end.
Definition processSettingInitialWindowSize (val : Z) (c : sc) : processed :=
  let old := initialStreamSendWindowSize c in
  let c := set_initialStreamSendWindowSize (i32 val) c in
  grow_loop (range_streams (frames c) (elements (streams c))) (i32 (i32 val - old)) c.

Definition processSetting (s : Setting) (c : sc) : processed :=
  match Setting_Valid s with
  | Some e => Ok (c, Some (PErr e))
  | None =>
      let v := Val s in
      if ID s =? SettingHeaderTableSize then Ok (log_effect (EEncoderTable v) (set_headerTableSize v c), None)
      else if ID s =? SettingEnablePush then Ok (set_pushEnabled (negb (v =? 0)) c, None)
      else if ID s =? SettingMaxConcurrentStreams then Ok (set_clientMaxStreams v c, None)
      else if ID s =? SettingInitialWindowSize then processSettingInitialWindowSize v c
      else if ID s =? SettingMaxFrameSize then Ok (set_maxFrameSize (i32 v) c, None)
      else if ID s =? SettingMaxHeaderListSize then Ok (set_peerMaxHeaderListSize v c, None)
      else Ok (c, None)
  end.

(** [ForeachSetting] with [processSetting]. *)
Fixpoint settings_loop (buf : bytes) (c : sc) : processed :=
  match buf with
  | [] => Ok (c, None)
  | b0 :: b1 :: b2 :: b3 :: b4 :: b5 :: buf =>
      '(c, e) ← processSetting (mkSetting (be_get [b0; b1]) (be_get [b2; b3; b4; b5])) c;
      match e with Some e => Ok (c, Some e) | None => settings_loop buf c end
  | _ => Panic
  end.
Definition processSettings (h : FrameHeader) (p : bytes) (c : sc) : processed :=
  if SettingsFrame_IsAck h then
    let c := set_unackedSettings (unackedSettings c - 1) c in
    Ok (c, if unackedSettings c <? 0 then cerr ErrCodeProtocol else None)
  else
    '(c, e) ← settings_loop p c;
    match e with
    | Some e => Ok (c, Some e)
    | None => then_ok (schedule (set_needToSendSettingsAck true c))
    end.

(** [stream.endStream]; the code to run at the end of the body is [0]. *)
Definition endStream (id : Z) (c : sc) : fl sc :=
  st ← get_stream id c;
  p ← or_panic (s_body st);
  let p :=
    if negb (declBodyBytes st =? -1) && negb (declBodyBytes st =? bodyBytes st)
    then CloseWithError (errTooShort (declBodyBytes st) (bodyBytes st)) p
    else CloseWithError bodyEOF (closeWithErrorAndCode bodyEOF 0%nat p) in
  upd_stream id (fun st => set_s_state stateHalfClosedRemote (set_s_body (Some p) st)) c.

(** The parts of [processData]: a frame that no one will read, [already] when its
    stream is being reset; *)
Definition refuse_data (id length : Z) (already : bool) (c : sc) : processed :=
  quota ← available conn_inflow (fls c);
  if quota <? i32 length then Ok (c, serr id ErrCodeFlowControl)
  else
    fs ← take conn_inflow (i32 length) (fls c);
    c ← sendWindowUpdate schedule None length (set_fls fs c);
    Ok (c, if already then None else serr id ErrCodeStreamClosed).

(** the bytes for the handler; *)
Definition write_body (id : Z) (data : bytes) (p : pipe B body_error) (c : sc) : processed :=
  if 0 <? len data then
    let '(p, a) := pipe_Write data p in
    c ← upd_stream id (set_s_body (Some p)) c;
    match a with
    | WErr _ _ => Ok (c, serr id ErrCodeStreamClosed)
    | WOk wrote =>
        if negb (wrote =? len data) then Panic
        else c ← upd_stream id (fun st => set_bodyBytes (i64 (bodyBytes st + len data)) st) c; Ok (c, None)
    | WPanic => Panic
    end
  else Ok (c, None).

(** a frame that is not empty. *)
Definition take_data (id length : Z) (data : bytes) (st : stream_of) (p : pipe B body_error) (c : sc) : processed :=
  quota ← available (s_inflow st) (fls c);
  if quota <? i32 length then Ok (c, serr id ErrCodeFlowControl)
  else
    fs ← take (s_inflow st) (i32 length) (fls c);
    '(c, e) ← write_body id data p (set_fls fs c);
    match e with
    | Some e => Ok (c, Some e)
    | None =>
        let pad := i32 (i32 length - i32 (len data)) in
        if 0 <? pad then
          c ← sendWindowUpdate32 schedule None pad c;
          then_ok (sendWindowUpdate32 schedule (Some id) pad c)
        else Ok (c, None)
    end.

Definition processData (h : FrameHeader) (data : bytes) (c : sc) : processed :=
  let id := Http2Frame.StreamID h in
  let length := Http2Frame.Length h in
  if inGoAway c && negb (goAwayCode c =? ErrCodeNo) then Ok (c, None)
  else
    let state := sc_state id c in
    if (id =? 0) || bool_decide (state = stateIdle) then Ok (c, cerr ErrCodeProtocol)
    else if decide (id ∈ streams c) then
      st ← get_stream id c;
      if negb (bool_decide (state = stateOpen)) || gotTrailerHeader st || resetQueued st then
        refuse_data id length (resetQueued st) c
      else
        p ← or_panic (s_body st);
        if negb (declBodyBytes st =? -1) && (declBodyBytes st <? i64 (bodyBytes st + len data)) then
          c ← upd_stream id (set_s_body (Some (CloseWithError (errTooLong (declBodyBytes st)) p))) c;
          Ok (c, serr id ErrCodeStreamClosed)
        else
          '(c, e) ← (if 0 <? length then take_data id length data st p c else Ok (c, None));
          match e with
          | Some e => Ok (c, Some e)
          | None => if Has (Flags h) FlagDataEndStream then then_ok (endStream id c) else Ok (c, None)
          end
    else refuse_data id length false c.

Definition processGoAway (c : sc) : processed :=
  c ← startGracefulShutdownInternal schedule c; Ok (set_pushEnabled false c, None).

(** The loop of [processTrailerHeaders]; [false] for a trailer that is not
    allowed. *)
Fixpoint trailer_loop (fields : list HeaderField) (t : http_header) : http_header * bool :=
  match fields with
  | [] => (t, true)
  | hf :: fields =>
      let key := canonicalHeader (Name hf) in
      if negb (ValidTrailerHeader key) then (t, false)
      else trailer_loop fields (<[key := default [] (t !! key) ++ [Value hf]]> t)
  end.

Definition processTrailerHeaders (id : Z) (f : MetaHeadersFrame) (c : sc) : processed :=
  st ← get_stream id c;
  if gotTrailerHeader st then Ok (c, cerr ErrCodeProtocol)
  else
    c ← upd_stream id (set_gotTrailerHeader true) c;
    if negb (mh_StreamEnded f) then Ok (c, serr id ErrCodeProtocol)
    else if 0 <? len (PseudoFields f) then Ok (c, serr id ErrCodeProtocol)
    else
      match s_trailer st with
      | None => then_ok (endStream id c)
      | Some t =>
          let '(t, ok) := trailer_loop (RegularFields f) t in
          c ← upd_stream id (set_s_trailer (Some t)) c;
          if negb ok then Ok (c, serr id ErrCodeProtocol) else then_ok (endStream id c)
      end.

(** The new stream with what the request says of it. *)
Definition init_stream (req : Request) (st : stream_of) : stream_of :=
  let t := if decide (is_Some (Trailer req)) then Some ∅ else s_trailer st in
  let body := if hasBody req then Some (new_pipe (newBuffer (ContentLength req))) else None in
  set_declBodyBytes (ContentLength req) (set_s_body body (set_s_trailer t (set_s_reqTrailer (Trailer req) st))).

Definition processHeaders (f : MetaHeadersFrame) (c : sc) : processed :=
  let id := Http2Frame.StreamID (mh_Header f) in
  if inGoAway c then Ok (c, None)
  else if negb (id mod 2 =? 1) then Ok (c, cerr ErrCodeProtocol)
  else if decide (id ∈ streams c) then
    st ← get_stream id c;
    if resetQueued st then Ok (c, None) else processTrailerHeaders id f c
  else if id <=? maxClientStreamID c then Ok (c, cerr ErrCodeProtocol)
  else
    let c := set_maxClientStreamID id c in
    let c := if negb (IdleTimeout srv =? 0) then log_effect (EIdleTimer false) c else c in
    if maxConcurrentStreams srv <? u32 (curClientStreams c + 1) then
      Ok (c, serr id (if unackedSettings c =? 0 then ErrCodeProtocol else ErrCodeRefusedStream))
    else
      c ← newStream id 0 (if mh_StreamEnded f then stateHalfClosedRemote else stateOpen) c;
      if HasPriority (mh_Header f) && negb (checkPriority id (mh_Priority f)) then Ok (c, serr id ErrCodeProtocol)
      else
        let c := if HasPriority (mh_Header f) then set_writeSched (Random.AdjustStream id (mh_Priority f) (writeSched c)) c else c in
        match newWriterAndRequest ParseRequestURI f with
        | None => Ok (c, serr id ErrCodeProtocol)
        | Some req =>
            c ← upd_stream id (init_stream req) c;
            let handler :=
              if Truncated f then handleHeaderListTooLong
              else if negb (checkValidHTTP2RequestHeaders (req_Header req)) then new400Handler else ServeHTTP in
            Ok (log_effect (ERunHandler id req handler) c, None)
        end.

Definition processPriority (h : FrameHeader) (p : PriorityParam) (c : sc) : processed :=
  let id := Http2Frame.StreamID h in
  if inGoAway c then Ok (c, None)
  else if negb (checkPriority id p) then Ok (c, serr id ErrCodeProtocol)
  else Ok (set_writeSched (Random.AdjustStream id p (writeSched c)) c, None).

Definition processFrame (f : AnyFrame) (c : sc) : processed :=
  let settings := match f with Plain (SettingsFrame _ _) => true | _ => false end in
  if negb (sawFirstSettings c) && negb settings then Ok (c, cerr ErrCodeProtocol)
  else
    let c := set_sawFirstSettings true c in
    match f with
    | Plain (SettingsFrame h p) => processSettings h p c
    | Meta f => processHeaders f c
    | Plain (WindowUpdateFrame h i) => processWindowUpdate h i c
    | Plain (PingFrame h data) => processPing h data c
    | Plain (DataFrame h data) => processData h data c
    | Plain (RSTStreamFrame h code) => processResetStream h code c
    | Plain (PriorityFrame h p) => processPriority h p c
    | Plain (GoAwayFrame _ _ _ _) => processGoAway c
    | Plain (PushPromiseFrame _ _ _) => Ok (c, cerr ErrCodeProtocol)
    | _ => Ok (c, None)
    end.

(** What [readFrames] sends; the error of a closed connection counts as [EOF]. *)
Inductive readFrameResult := FrameRead (f : AnyFrame) | ReadFailed (e : http2_error).

(** [processFrameFromReader]: the connection, and whether to keep it open. *)
Definition processFrameFromReader (res : readFrameResult) (c : sc) : fl (sc * bool) :=
  let fail (e : proc_error) (c : sc) : fl (sc * bool) :=
    match e with
    | PErr (StreamError id code _) => c ← resetStream schedule id code c; Ok (c, true)
    | goAwayFlowError => c ← goAway schedule ErrCodeFlowControl c; Ok (c, true)
    | PErr (ConnectionError code) => c ← goAway schedule code c; Ok (c, true)
    | _ => Ok (c, false)
    end in
  match res with
  | ReadFailed ErrFrameTooLarge => c ← goAway schedule ErrCodeFrameSize c; Ok (c, true)
  | ReadFailed (EOF | ErrUnexpectedEOF) => Ok (c, false)
  | ReadFailed e => fail (PErr e) c
  | FrameRead f => '(c, e) ← processFrame f c; match e with None => Ok (c, true) | Some e => fail e c end
  end.

(** * Handlers and timers *)

Definition noteBodyRead (id k : Z) (c : sc) : fl sc :=
  c ← sendWindowUpdate schedule None k c;
  st ← get_stream id c;
  if negb (bool_decide (s_state st = stateHalfClosedRemote)) && negb (bool_decide (s_state st = stateClosed))
  then sendWindowUpdate schedule (Some id) k c else Ok c.

(** The handler's side of a request body. [copyTrailersToHandlerRequest] keeps the
    trailers that were announced. *)
Definition copyTrailersToHandlerRequest (st : stream_of) : stream_of :=
  let t := default ∅ (s_trailer st) in
  set_s_reqTrailer (option_map (map_imap (fun k v => Some (default v (t !! k)))) (s_reqTrailer st)) st.

(** [requestBody.Read] of [k] bytes; the code a pipe runs is
    [copyTrailersToHandlerRequest]. *)
Definition body_read (id k : Z) (c : sc) : fl (sc * read_answer body_error) :=
  st ← get_stream id c;
  match s_body st with
  | None => Ok (c, RErr bodyEOF)
  | Some p =>
      let '(p', a) := pipe_Read k p in
      let ran_now := bool_decide (ran p' <> ran p) in
      c ← upd_stream id (fun st => let st := set_s_body (Some p') st in if ran_now then copyTrailersToHandlerRequest st else st) c;
      Ok (c, a)
  end.

(** [requestBody.Close]. *)
Definition body_close (id : Z) (c : sc) : fl sc :=
  upd_stream id (fun st => set_s_body (BreakWithError errClosedBody <$> s_body st) st) c.

(** [startPushRequest]; [push] holds the parent's id and the request. *)
Record startPushRequest := mkStartPush { push : writePushPromise; push_done : positive }.

Definition startPush (msg : startPushRequest) (c : sc) : fl sc :=
  let parent := wp_streamID (push msg) in
  st ← get_stream parent c;
  if negb (bool_decide (s_state st = stateOpen)) && negb (bool_decide (s_state st = stateHalfClosedRemote)) then
    Ok (log_effect (EReplied (push_done msg) (Some errStreamClosed)) c)
  else if negb (pushEnabled c) then Ok (log_effect (EReplied (push_done msg) (Some ErrNotSupported)) c)
  else writeFrame schedule (mkReq (Some (write_push (push msg))) (Some (view parent st)) (Some (push_done msg))) c.

(** The cases of the loop's [select]. *)
Inductive sc_event :=
| WantWriteFrame (wr : FrameWriteRequest)
| WroteFrame (err : option handler_error)
| ReadFrameResult (res : readFrameResult)
| BodyRead (id n : Z)
| SettingsTimer
| IdleTimer
| ShutdownTimer
| GracefulShutdown
| StartPush (msg : startPushRequest).

Definition handle (ev : sc_event) (c : sc) : fl (sc * bool) :=
  match ev with
  | WantWriteFrame wr =>
      match write wr with
      | Some (write_StreamError id code) => c ← resetStream schedule id code c; Ok (c, true)
      | _ => c ← writeFrame schedule wr c; Ok (c, true)
      end
  | WroteFrame err => wr ← or_panic (inflight c); c ← wroteFrame schedule wr err c; Ok (c, true)
  | ReadFrameResult res => processFrameFromReader res c
  | BodyRead id n => c ← noteBodyRead id n c; Ok (c, true)
  | SettingsTimer => Ok (c, false)
  | IdleTimer => c ← goAway schedule ErrCodeNo c; Ok (c, true)
  | ShutdownTimer => Ok (c, false)
  | GracefulShutdown => c ← startGracefulShutdownInternal schedule c; Ok (c, true)
  | StartPush msg => c ← startPush msg c; Ok (c, true)
  end.

(** One round of [serve]'s loop: the connection, and whether the loop goes on. *)
Definition serve_step (ev : sc_event) (c : sc) : fl (sc * bool) :=
  '(c, more) ← handle ev c;
  Ok (c, more && negb (inGoAway c && (curOpenStreams c =? 0) && negb (needToSendGoAway c) && negb (writingFrame c))).

(** The connection [ServeConn] makes. *)
Definition newServerConn (keepAlives : bool) : sc :=
  mkSC (<[conn_inflow := mkFlow initialWindowSize None]> (<[conn_flow := mkFlow initialWindowSize None]> ∅)) 3 ∅ ∅
       true false false 0 (2 ^ 32 - 1) 0 0 0 0 initialWindowSize initialMaxFrameSize initialHeaderTableSize 0
       false false None false false false false 0 Random.New keepAlives 0 [].

(** [serve] up to its loop. *)
Definition serve_start (c : sc) : fl sc :=
  c ← writeFrame schedule (on_conn (writeSettings
        [mkSetting SettingMaxFrameSize (maxReadFrameSize srv); mkSetting SettingMaxConcurrentStreams (maxConcurrentStreams srv);
         mkSetting SettingMaxHeaderListSize (sc_maxHeaderListSize srv);
         mkSetting SettingInitialWindowSize (u32 (initialStreamRecvWindowSize srv))])) c;
  let c := set_unackedSettings (unackedSettings c + 1) c in
  let diff := i32 (initialConnRecvWindowSize srv - initialWindowSize) in
  if 0 <? diff then sendWindowUpdate schedule None diff c else Ok c.

(** [closeAllStreamsOnConnClose], in the order [range] visits the streams. *)
Fixpoint close_all (ids : list Z) (c : sc) : fl sc :=
  match ids with
  | [] => Ok c
  | id :: ids =>
      c ← (if decide (id ∈ streams c) then closeStream schedule id errClientDisconnected c else Ok c);
      close_all ids c
  end.
Definition closeAllStreamsOnConnClose (c : sc) : fl sc := close_all (range_streams (frames c) (elements (streams c))) c.
End server.
