(* ===== verification/Http2ServerInv.v ===== *)
(** The invariant of a server connection: [http2/server.go]. *)
From S2P Require Import Prelude HpackTables Http2Errors Http2DataBuffer Http2Pipe Http2Frame Http2Framer.
From S2P Require Import Http2Write Http2ServerData Http2Flow Http2WriteSched Http2Server.

(** * Frames and the log *)

Definition ends (wr : FrameWriteRequest) : bool :=
  match write wr with Some (writeData _ _ e) => e | Some (write_headers r) => rh_endStream r | _ => false end.

(** Frames that may follow the end of a stream. *)
Definition benign (wr : FrameWriteRequest) : Prop :=
  match write wr with Some (write_StreamError _ _ | handlerPanicRST _ | writeWindowUpdate _ _) => True | _ => False end.

Definition of_stream (id : Z) (wr : FrameWriteRequest) : Prop := exists s, req_stream wr = Some s /\ st_id s = id.

Lemma writeEndsStream_ends wr b : writeEndsStream (write wr) = Ok b -> b = ends wr.
Proof. unfold ends. destruct (write wr) as [[]|]; cbn; congruence. Qed.

(** The frames started and the streams whose handlers run, the last one first. *)
Definition started (l : list sc_effect) : list FrameWriteRequest := omap (fun e => match e with EStarted wr => Some wr | _ => None end) l.
Definition handled (l : list sc_effect) : list Z := omap (fun e => match e with ERunHandler id _ _ => Some id | _ => None end) l.

Definition ended (id : Z) (l : list FrameWriteRequest) : Prop := Exists (fun wr => ends wr = true /\ of_stream id wr) l.

(** After the end of a stream only frames that may follow it. *)
Fixpoint orderly (l : list FrameWriteRequest) : Prop :=
  match l with [] => True | wr :: l => (forall id, of_stream id wr -> ended id l -> benign wr) /\ orderly l end.

(** An effect that neither starts a frame nor a handler. *)
Definition quiet (e : sc_effect) : Prop := match e with EStarted _ | ERunHandler _ _ _ => False | _ => True end.

Lemma started_quiet e l : quiet e -> started (e :: l) = started l /\ handled (e :: l) = handled l.
Proof. by destruct e. Qed.

Section inv.
Context {B : Type}.
Variable maxStreams : Z.

Abbreviation sc := (serverConn B).
Abbreviation stream_of := (sstream B).

Definition queue_of (id : Z) (ws : Random.scheduler) : writeQueue := default [] (Random.sq ws !! id).

Lemma get_stream_Some id (c : sc) st : heap c !! id = Some st -> get_stream id c = Ok st.
Proof. intros H. unfold get_stream. by rewrite H. Qed.

Lemma upd_stream_Some id f (c : sc) st : heap c !! id = Some st -> upd_stream id f c = Ok (set_heap (<[id := f st]> (heap c)) c).
Proof. intros H. unfold upd_stream. by rewrite (get_stream_Some _ _ _ H). Qed.

(** * The parts of the invariant *)

(** A request that names a stream names one of the connection. *)
Definition linked_req (heap : gmap Z stream_of) (wr : FrameWriteRequest) : Prop :=
  forall s, req_stream wr = Some s -> exists st, heap !! st_id s = Some st /\ st_flow s = s_flow st.

(** The windows: the client's are never negative. *)
Record flows_inv (fs : flows) (heap : gmap Z stream_of) (fresh : positive) : Prop := {
  fi_conn : exists w, fs !! conn_flow = Some (mkFlow w None) /\ window w;
  fi_in : exists w, fs !! conn_inflow = Some (mkFlow w None) /\ 0 <= w < 2 ^ 31;
  fi_out : forall id st, heap !! id = Some st -> exists w, fs !! s_flow st = Some (mkFlow w (Some conn_flow)) /\ window w;
  fi_body : forall id st, heap !! id = Some st -> exists w, fs !! s_inflow st = Some (mkFlow w (Some conn_inflow)) /\ window w;
  fi_fresh : forall p, is_Some (fs !! p) -> (p < fresh)%positive }.

Definition odd_ids (X : gset Z) : gset Z := filter (fun id => isPushed id = false) X.
Definition even_ids (X : gset Z) : gset Z := filter (fun id => isPushed id = true) X.

(** [Y] are streams whose reset is under way. *)
Record streams_inv (Y : gset Z) (heap : gmap Z stream_of) (live : gset Z) (maxClient maxPush : Z) : Prop := {
  si_live : forall id, id ∈ live -> exists st, heap !! id = Some st /\ s_state st <> stateClosed;
  si_dead : forall id st, heap !! id = Some st -> id ∉ live -> s_state st = stateClosed;
  si_idle : forall id st, heap !! id = Some st -> s_state st <> stateIdle;
  si_local : forall id st, heap !! id = Some st -> s_state st = stateHalfClosedLocal -> id ∉ Y -> resetQueued st = true;
  si_id : forall id, is_Some (heap !! id) -> 0 < id /\ id <= (if isPushed id then maxPush else maxClient);
  si_max : 0 <= maxClient < 2 ^ 31 /\ 0 <= maxPush < 2 ^ 31 /\ isPushed maxPush = true }.

Record counts_inv (live : gset Z) (client pushed : Z) : Prop := {
  ci_client : client = Z.of_nat (base.size (odd_ids live));
  ci_pushed : pushed = Z.of_nat (base.size (even_ids live));
  ci_limit : client <= maxStreams }.

Record queues_inv (heap : gmap Z stream_of) (ws : Random.scheduler) (infl : option FrameWriteRequest) : Prop := {
  qi_pool : Forall (fun q => q = []) (Random.queuePool ws);
  qi_none : Random.sq ws !! 0 = None;
  qi_zero : Forall (fun wr => StreamID wr = 0 /\ linked_req heap wr) (Random.zero ws);
  qi_ids : forall id, Forall (fun wr => StreamID wr = id /\ linked_req heap wr) (queue_of id ws);
  qi_flight : forall wr, infl = Some wr -> linked_req heap wr }.

Definition silent (s : streamState) : Prop := s = stateHalfClosedLocal \/ s = stateClosed.

Record log_inv (heap : gmap Z stream_of) (infl : option FrameWriteRequest) (l : list sc_effect) : Prop := {
  li_ended : forall id, ended id (started l) ->
    (exists st, heap !! id = Some st /\ silent (s_state st)) \/
    (exists st wr, heap !! id = Some st /\ infl = Some wr /\ ends wr = true /\ of_stream id wr);
  li_orderly : orderly (started l);
  li_handled : NoDup (handled l) /\ forall id, id ∈ handled l -> is_Some (heap !! id) }.

Record inv (Y : gset Z) (c : sc) : Prop := {
  v_flows : flows_inv (fls c) (heap c) (fresh c);
  v_streams : streams_inv Y (heap c) (streams c) (maxClientStreamID c) (maxPushPromiseID c);
  v_counts : counts_inv (streams c) (curClientStreams c) (curPushedStreams c);
  v_queues : queues_inv (heap c) (writeSched c) (inflight c);
  v_log : log_inv (heap c) (inflight c) (log c);
  v_flight : writingFrame c = bool_decide (is_Some (inflight c)) /\ writingFrameAsync c = writingFrame c }.

(** * What cannot be sent *)

Definition pop_disabled (c : sc) : Prop := inGoAway c = true /\ goAwayCode c <> ErrCodeNo.

(** Nothing can be sent. *)
Definition stuck (c : sc) : Prop :=
  needToSendGoAway c = false /\ needToSendSettingsAck c = false /\
  (pop_disabled c \/
   Random.zero (writeSched c) = [] /\
   forall id q, Random.sq (writeSched c) !! id = Some q -> blocked (maxFrameSize c) (fls c) q).

(** Between two events: a frame is being written or nothing can be sent. *)
Definition settled (c : sc) : Prop := inFrameScheduleLoop c = true \/ writingFrame c = true \/ stuck c.

(** * What methods keep *)

Definition st_same (st st' : stream_of) : Prop := s_flow st' = s_flow st /\ s_inflow st' = s_inflow st.

Record grows (c c' : sc) : Prop := {
  gr_loop : inFrameScheduleLoop c' = inFrameScheduleLoop c;
  gr_heap : forall id st, heap c !! id = Some st -> exists st', heap c' !! id = Some st' /\ st_same st st' }.

#[global] Instance grows_preorder : PreOrder grows.
Proof.
  split.
  - intros c. split; [done|]. intros id st H. by exists st.
  - intros a b c [L1 H1] [L2 H2]. split; [congruence|]. intros id st E. destruct (H1 id st E) as (st' & E' & Ha & Hb).
    destruct (H2 id st' E') as (st2 & E2 & Hc & Hd). exists st2. split; [done|]. split; congruence.
Qed.

Lemma linked_grows c c' wr : grows c c' -> linked_req (heap c) wr -> linked_req (heap c') wr.
Proof.
  intros G H s E. destruct (H s E) as (st & Hst & Hf). destruct (gr_heap _ _ G _ _ Hst) as (st' & Hst' & Hs & _). exists st'. split; [done|]. congruence.
Qed.
End inv.
