(* ===== verification/Http2ServerPanics.v ===== *)
(** Runs of the serve loop of [http2/server.go] that end in a panic. *)
From S2P Require Import Prelude GoStrings HpackTables Http2Errors Http2DataBuffer Http2Pipe Http2Frame Http2Framer.
From S2P Require Import Http2Write Http2ServerData Http2Flow Http2WriteSched Http2Server Http2ServerInv.

(** * Trailers for a request without a body *)

Section trailers.
Context {B : Type} `{!PipeBuffer B}.
Variable newBuffer : Z -> B.
Variable srv : Server.
Variable ParseRequestURI : bytes -> bool.
Variable Available : nat -> Z.
Variable writeErr : nat -> option handler_error.
Variable range_queues : nat -> gmap Z writeQueue -> list Z.
Variable range_streams : nat -> list Z -> list Z.

Abbreviation sc := (serverConn B).
Abbreviation step := (serve_step newBuffer srv ParseRequestURI Available writeErr range_queues range_streams).

Definition valid_trailers (fields : list HeaderField) : Prop :=
  Forall (fun hf => ValidTrailerHeader (canonicalHeader (Name hf)) = true) fields.

Lemma trailer_loop_valid fields t : valid_trailers fields -> (trailer_loop fields t).2 = true.
Proof.
  revert t. induction fields as [|hf fields IH]; intros t H; [done|]. apply Forall_cons in H as [Hv H]. cbn [trailer_loop]. rewrite Hv. cbn [negb].
  by apply IH.
Qed.

Lemma newWriterAndRequestNoBody_no_body rp req : newWriterAndRequestNoBody ParseRequestURI rp = Some req -> hasBody req = false.
Proof. unfold newWriterAndRequestNoBody. destruct (decide _); [by intros [= <-]|]. destruct (ParseRequestURI _); cbn [negb]; by intros [= <-]. Qed.

Lemma newWriterAndRequest_no_body f req : mh_StreamEnded f = true -> newWriterAndRequest ParseRequestURI f = Some req -> hasBody req = false.
Proof.
  intros He. unfold newWriterAndRequest. rewrite He. cbn [negb]. rewrite andb_false_r. destruct (if bool_decide _ then _ else _); [done|].
  destruct (newWriterAndRequestNoBody ParseRequestURI _) as [r|] eqn:E; [|done]. intros [= <-]. by eapply newWriterAndRequestNoBody_no_body.
Qed.

(** Ending a stream without a body dereferences a nil pipe. *)
Lemma trailers_end_panics id f (c : sc) st : heap c !! id = Some st -> s_body st = None -> gotTrailerHeader st = false ->
  mh_StreamEnded f = true -> PseudoFields f = [] -> valid_trailers (RegularFields f) -> processTrailerHeaders id f c = Panic.
Proof.
  intros Hst Hb Hg He Hp Hv. unfold processTrailerHeaders, get_stream. rewrite Hst. cbn [or_panic mbind outcome_bind]. rewrite Hg.
  rewrite (upd_stream_Some _ _ _ _ Hst). cbn [mbind outcome_bind]. rewrite He, Hp. cbn [negb]. change (0 <? len []) with false.
  cbv iota. assert (Hend : forall c' : sc, (exists st', heap c' !! id = Some st' /\ s_body st' = None) -> endStream id c' = Panic).
  { intros c' (st' & Hst' & Hb'). unfold endStream, get_stream. rewrite Hst'. cbn [or_panic mbind outcome_bind]. by rewrite Hb'. }
  destruct (s_trailer st) as [t|].
  - pose proof (trailer_loop_valid (RegularFields f) t Hv) as Ht. destruct (trailer_loop (RegularFields f) t) as [t' ok]. cbn in Ht. subst ok.
    rewrite (upd_stream_Some _ _ _ (set_gotTrailerHeader true st)) by apply lookup_insert_eq. cbn [mbind outcome_bind negb]. unfold then_ok.
    rewrite Hend; [done|]. eexists. split; [apply lookup_insert_eq|]. done.
  - unfold then_ok. rewrite Hend; [done|]. eexists. split; [apply lookup_insert_eq|]. done.
Qed.

(** C29. Two frames of a client end the process: a HEADERS frame that opens a stream
    and ends it at once, with any request the server accepts, and then, before
    the stream is closed, HEADERS that end the stream and have no pseudo
    fields. Whatever the state of the connection, the second frame makes the
    serve loop panic, since the request has no body whose end it could
    announce. *)
Theorem half_closed_trailers_panic (c : sc) f req f2 :
  let id := Http2Frame.StreamID (mh_Header f) in
  sawFirstSettings c = true -> inGoAway c = false ->
  id mod 2 = 1 -> (id ∉ streams c) -> maxClientStreamID c < id -> u32 (curClientStreams c + 1) <= maxConcurrentStreams srv ->
  mh_StreamEnded f = true -> HasPriority (mh_Header f) = false -> newWriterAndRequest ParseRequestURI f = Some req ->
  Http2Frame.StreamID (mh_Header f2) = id -> mh_StreamEnded f2 = true -> PseudoFields f2 = [] -> valid_trailers (RegularFields f2) ->
  exists c', step (ReadFrameResult (FrameRead (Meta f))) c = Ok (c', true) /\
    step (ReadFrameResult (FrameRead (Meta f2))) c' = Panic.
Proof.
  intros id Hsaw Haway Hodd Hid Hmax Hlim He Hprio Hreq Hid2 He2 Hp2 Hv2.
  assert (Hproc : exists c' st, processFrame newBuffer srv ParseRequestURI Available writeErr range_queues range_streams (Meta f) c = Ok (c', None) /\
    sawFirstSettings c' = true /\ inGoAway c' = false /\ id ∈ streams c' /\ heap c' !! id = Some st /\
    s_body st = None /\ gotTrailerHeader st = false /\ resetQueued st = false).
  { unfold processFrame. rewrite Hsaw. cbn [negb andb]. unfold processHeaders. fold id. cbn [inGoAway set_sawFirstSettings streams maxClientStreamID].
    rewrite Haway, (proj2 (Z.eqb_eq _ _) Hodd). cbn [negb]. rewrite decide_False by done. rewrite (proj2 (Z.leb_gt _ _)) by lia.
    assert (Hid0 : (id =? 0) = false). { apply Z.eqb_neq. intros E. rewrite E in Hodd. done. }
    assert (Hpush : isPushed id = false). { unfold isPushed. by rewrite Hodd. }
    set (c1 := if negb (IdleTimeout srv =? 0) then _ else _).
    assert (Hc1 : curClientStreams c1 = curClientStreams c /\ sawFirstSettings c1 = true /\ inGoAway c1 = false) by (unfold c1; by destruct (negb _)).
    destruct Hc1 as (Hcur & Hs1 & Ha1). rewrite Hcur, (proj2 (Z.ltb_ge _ _)) by lia. rewrite He, Hprio. cbn [andb].
    unfold newStream. rewrite Hid0, Hpush. unfold flow_add, add, deref. cbn [fls set_fls set_fresh]. rewrite lookup_insert_ne by lia. rewrite lookup_insert_eq. cbn [or_panic mbind outcome_bind].
    set (fs1 := if i32 _ <? initialStreamSendWindowSize _ then _ else _).
    assert (Hfs : exists fs1' b, fs1 = Ok (fs1', b) /\ is_Some (fs1' !! (fresh c1 + 1)%positive)).
    { unfold fs1. destruct (_ <? _); eexists _, _; (split; [reflexivity|]); [rewrite lookup_insert_eq; by eexists|].
      rewrite lookup_insert_ne by lia. rewrite lookup_insert_eq. by eexists. }
    destruct Hfs as (fs1' & b1 & -> & [x Hx]). cbn [mbind outcome_bind fls set_fls]. rewrite Hx. cbn [or_panic mbind outcome_bind].
    set (fs2 := if i32 _ <? initialStreamRecvWindowSize srv then _ else _).
    assert (Hfs2 : exists fs2' b, fs2 = Ok (fs2', b)) by (unfold fs2; destruct (_ <? _); by eexists _, _).
    destruct Hfs2 as (fs2' & b2 & ->). cbn [mbind outcome_bind]. rewrite Hreq.
    set (st := mkSS _ _ _ _ _ _ _ _ _ _ _ _). set (c2 := set_curClientStreams _ _).
    set (c3 := if curOpenStreams c2 =? 1 then _ else _).
    assert (Hc3 : heap c3 !! id = Some st /\ id ∈ streams c3 /\ sawFirstSettings c3 = true /\ inGoAway c3 = false).
    { unfold c3. destruct (curOpenStreams c2 =? 1); (split_and!; [apply lookup_insert_eq|cbn; set_solver|done|done]). }
    destruct Hc3 as (Hst3 & Hlive3 & Hs3 & Ha3). rewrite (upd_stream_Some _ _ _ _ Hst3). cbn [mbind outcome_bind].
    eexists _, (init_stream newBuffer req st). split; [reflexivity|]. cbn [log_effect set_log set_heap sawFirstSettings inGoAway streams heap].
    split_and!; [done|done|done|apply lookup_insert_eq| |done|done]. unfold init_stream. cbn [s_body set_declBodyBytes set_s_body].
    by rewrite (newWriterAndRequest_no_body f req He Hreq). }
  destruct Hproc as (c' & st & Hp & Hs' & Ha' & Hl' & Hst' & Hb' & Hg' & Hr'). exists c'. split.
  - unfold serve_step, handle, processFrameFromReader. rewrite Hp. cbn [mbind outcome_bind]. by rewrite Ha'.
  - unfold serve_step, handle, processFrameFromReader, processFrame. rewrite Hs'. cbn [negb andb]. unfold processHeaders. rewrite Hid2. fold id.
    cbn [inGoAway set_sawFirstSettings streams]. rewrite Ha', (proj2 (Z.eqb_eq _ _) Hodd). cbn [negb]. rewrite decide_True by done.
    unfold get_stream. cbn [heap set_sawFirstSettings]. rewrite Hst'. cbn [or_panic mbind outcome_bind]. rewrite Hr'.
    by rewrite (trailers_end_panics id f2 _ st).
Qed.
End trailers.

(** * Concrete connections *)

Section examples.
#[local] Instance data_buffer : PipeBuffer dataBuffer := dataBuffer_pipe zero_alloc zero_alloc_len.

Definition plain_server (upload : Z) : Server := mkServer 0 0 upload 0 0 0.
Definition req_field (n v : string) : HeaderField := mkHF (str n) (str v) false.
Definition any_path : bytes -> bool := fun _ => true.
Definition never_fails : nat -> option handler_error := fun _ => None.
Definition map_order : nat -> gmap Z writeQueue -> list Z := fun _ m => (map_to_list m).*1.
Definition list_order : nat -> list Z -> list Z := fun _ l => l.
Definition header_of (ty fl length id : Z) : FrameHeader := mkFH true ty fl length id.

Definition headers_event (id fl : Z) (fields : list HeaderField) : sc_event :=
  ReadFrameResult (FrameRead (Meta (mkMeta (header_of 1 fl 0 id) zero_prio fields false))).
Definition data_event (id : Z) (d : bytes) : sc_event := ReadFrameResult (FrameRead (Plain (DataFrame (header_of 0 0 (len d) id) d))).
Definition reset_event (id code : Z) : sc_event := ReadFrameResult (FrameRead (Plain (RSTStreamFrame (header_of 3 0 4 id) code))).
Definition settings_event : sc_event := ReadFrameResult (FrameRead (Plain (SettingsFrame (header_of 4 0 0 0) []))).
Definition get_fields : list HeaderField :=
  [req_field ":method" "GET"; req_field ":scheme" "https"; req_field ":authority" "h"; req_field ":path" "/"].
Definition post_fields : list HeaderField :=
  [req_field ":method" "POST"; req_field ":scheme" "https"; req_field ":authority" "h"; req_field ":path" "/"].

Definition run_step (upload : Z) (space : nat -> Z) (ev : sc_event) (c : serverConn dataBuffer) : fl (serverConn dataBuffer * bool) :=
  serve_step db_empty (plain_server upload) any_path space never_fails map_order list_order ev c.
Fixpoint run_all (upload : Z) (space : nat -> Z) (l : list sc_event) (c : serverConn dataBuffer) : fl (serverConn dataBuffer) :=
  match l with [] => Ok c | ev :: l => '(c, _) ← run_step upload space ev c; run_all upload space l c end.

(** A connection whose settings are exchanged. *)
Definition booted (upload : Z) (space : nat -> Z) : fl (serverConn dataBuffer) :=
  c ← serve_start (plain_server upload) any_path space never_fails map_order (newServerConn true);
  run_all upload space [WroteFrame None; settings_event; WroteFrame None; WroteFrame None] c.

Definition buffered : nat -> Z := fun _ => 4096.
(** The eighth frame goes to another goroutine. *)
Definition seventh_async : nat -> Z := fun k => if decide (k = 6)%nat then 0 else 4096.

Definition first_conn : serverConn dataBuffer := match booted 0 buffered with Ok c => c | _ => newServerConn true end.
Definition first_request : MetaHeadersFrame := mkMeta (header_of 1 1 0 1) zero_prio get_fields false.
Definition first_trailers : MetaHeadersFrame := mkMeta (header_of 1 1 0 1) zero_prio [] false.
Definition parsed_request : Request :=
  match newWriterAndRequest any_path first_request with Some r => r | None => mkRequest [] [] ∅ [] 0 None false false false end.

Lemma half_closed_trailers_panic_witness : booted 0 buffered = Ok first_conn /\
  exists c, run_step 0 buffered (ReadFrameResult (FrameRead (Meta first_request))) first_conn = Ok (c, true) /\
    run_step 0 buffered (ReadFrameResult (FrameRead (Meta first_trailers))) c = Panic.
Proof.
  split; [vm_compute; reflexivity|].
  unfold run_step.
  refine (half_closed_trailers_panic db_empty (plain_server 0) any_path buffered never_fails map_order list_order first_conn
            first_request parsed_request first_trailers _ _ _ _ _ _ _ _ _ _ _ _ _).
  all: try (constructor; fail).
  all: try (vm_compute; reflexivity).
  - vm_compute. congruence.
  - vm_compute. intros [=].
Defined.

(** ** Other panics *)

Definition panics {A} (r : fl A) : bool := match r with Panic => true | _ => false end.

Definition read_body (id k : Z) (c : serverConn dataBuffer) : fl (serverConn dataBuffer) := '(c, _) ← body_read id k c; Ok c.

(** The bytes a handler has not read when its stream is reset go back to the
    client twice: [closeStream] returns them, and so does [noteBodyRead] when the
    handler reads them after all. With the largest upload buffer the second
    return overflows the window. *)
Lemma refunded_twice : panics (
    c ← booted (2 ^ 31 - 1) buffered;
    c ← run_all (2 ^ 31 - 1) buffered [headers_event 1 0 post_fields; data_event 1 [1; 2; 3]; reset_event 1 8] c;
    c ← read_body 1 3 c;
    run_all (2 ^ 31 - 1) buffered [BodyRead 1 3] c) = true.
Proof. vm_compute. reflexivity. Qed.

(** A stream is closed when its RST_STREAM has been written; [closeStream] returns
    the unread bytes before it drops the stream's queue, and the WINDOW_UPDATE
    starts the scheduler, which sends the handler's frame of that queue on the
    closed stream. *)
Definition response_of (id : Z) (p : positive) : FrameWriteRequest :=
  mkReq (Some (write_headers (mkRes id 200 ∅ None false [] [] []))) (Some (mkStream id p)) None.
Lemma closed_stream_scheduled : panics (
    c ← booted 0 seventh_async;
    run_all 0 seventh_async [headers_event 1 0 (post_fields ++ [req_field "content-length" "4"]); data_event 1 [1; 2; 3];
      data_event 1 [1; 2; 3]; WantWriteFrame (response_of 1 3); WroteFrame None] c) = true.
Proof. vm_compute. reflexivity. Qed.

(** When a handler panics and the client resets the stream while the server's
    RST_STREAM is being written, [wroteFrame] closes the stream again. *)
Lemma closed_twice : panics (
    c ← booted 0 seventh_async;
    run_all 0 seventh_async [headers_event 1 0 post_fields; WantWriteFrame (mkReq (Some (handlerPanicRST 1)) (Some (mkStream 1 3)) None);
      reset_event 1 8; WroteFrame None] c) = true.
Proof. vm_compute. reflexivity. Qed.

(** ** Bytes the client never gets back *)

Definition conn_window (c : serverConn dataBuffer) : Z := window_of (fls c) conn_inflow.

(** DATA that comes after the handler closed the body is charged to the client's
    window and never returned, not even when the stream ends. *)
Lemma late_data_lost :
  match (c ← booted 0 buffered;
         c ← run_all 0 buffered [headers_event 1 0 post_fields] c;
         c ← body_close 1 c;
         c1 ← run_all 0 buffered [data_event 1 [1; 2; 3]; reset_event 1 8] c;
         Ok (conn_window c, conn_window c1, streams c1)) with
  | Ok (w, w1, live) => w1 = w - 3 /\ live = ∅
  | _ => False
  end.
Proof. vm_compute. split; reflexivity. Qed.

(** DATA beyond the declared length is not charged at all, though the client has
    counted it. *)
Lemma long_data_uncharged :
  match (c ← booted 0 buffered;
         c ← run_all 0 buffered [headers_event 1 0 (post_fields ++ [req_field "content-length" "2"])] c;
         c1 ← run_all 0 buffered [data_event 1 [1; 2; 3]] c;
         Ok (conn_window c, conn_window c1, streams c1)) with
  | Ok (w, w1, live) => w1 = w /\ live = ∅
  | _ => False
  end.
Proof. vm_compute. split; reflexivity. Qed.
End examples.
