(* ===== verification/Http2ServerKeep.v ===== *)
(** What pushing, popping and closing streams does to the scheduler of a server
    connection, and what its small steps do to its invariant. *)

From S2P Require Import Prelude HpackTables Http2Errors Http2DataBuffer Http2Pipe Http2Frame Http2Framer Http2Write Http2ServerData Http2Flow Http2WriteSched Http2Server Http2ServerInv.

(** * Weights *)

Definition queues_weight (m : gmap Z writeQueue) : nat := map_fold (fun _ q n => queue_weight q + n)%nat 0%nat m.

Lemma queues_weight_insert m id q : m !! id = None -> queues_weight (<[id := q]> m) = (queue_weight q + queues_weight m)%nat.
Proof. intros H. unfold queues_weight. rewrite map_fold_insert_L; [done| |done]. intros. lia. Qed.

Lemma queues_weight_delete m id q : m !! id = Some q -> queues_weight m = (queue_weight q + queues_weight (delete id m))%nat.
Proof. intros H. rewrite <- (queues_weight_insert (delete id m) id) by apply lookup_delete_eq. by rewrite insert_delete_id. Qed.

Lemma queues_weight_update m id q : (queues_weight (<[id := q]> m) + queue_weight (default [] (m !! id)) = queue_weight q + queues_weight m)%nat.
Proof.
  rewrite <- insert_delete_eq, queues_weight_insert by apply lookup_delete_eq. destruct (m !! id) as [q0|] eqn:E.
  - change (default [] (Some q0)) with q0. pose proof (queues_weight_delete m id q0 E). lia.
  - rewrite delete_id by done. change (queue_weight (default [] None)) with 0%nat. lia.
Qed.

Lemma queue_weight_app q k : queue_weight (q ++ k) = (queue_weight q + queue_weight k)%nat.
Proof. induction q as [|w q IH]; [done|]. cbn. unfold queue_weight in *. cbn. rewrite IH. lia. Qed.

Lemma push_weight wr q : queue_weight (Http2WriteSched.push wr q) = (queue_weight q + request_weight wr)%nat.
Proof. unfold Http2WriteSched.push. rewrite queue_weight_app. unfold queue_weight at 2. cbn [foldr]. lia. Qed.

Definition sched_weight (ws : Random.scheduler) : Z :=
  Z.of_nat (queue_weight (Random.zero ws) + map_fold (fun _ q n => queue_weight q + n)%nat 0%nat (Random.sq ws)).

Lemma sched_weight_eq ws : sched_weight ws = Z.of_nat (queue_weight (Random.zero ws)) + Z.of_nat (queues_weight (Random.sq ws)).
Proof. unfold sched_weight. apply Nat2Z.inj_add. Qed.

Lemma weight_pos wr : (8 <= request_weight wr)%nat.
Proof. unfold request_weight. destruct (write wr) as [[]|]; lia. Qed.

(** * Pushing and closing *)

Definition pool_ok (ws : Random.scheduler) : Prop := Forall (fun q => q = []) (Random.queuePool ws).

Lemma Push_queue wr ws id : pool_ok ws -> queue_of id (Random.Push wr ws) =
  if decide (StreamID wr = id /\ id <> 0) then queue_of id ws ++ [wr] else queue_of id ws.
Proof.
  intros Hp. unfold Random.Push, queue_of. destruct (Z.eqb_spec (StreamID wr) 0) as [E|E]; cbn [Random.sq].
  - rewrite decide_False; [done|]. intros [E2 E3]. congruence.
  - destruct (Random.sq ws !! StreamID wr) as [q|] eqn:Eq; cbn [Random.sq].
    + case_decide as H; [destruct H as [<- _]; by rewrite lookup_insert_eq, Eq|]. rewrite lookup_insert_ne; [done|]. intros E2. apply H. split; congruence.
    + pose proof (pool_get_empty _ Hp) as [He _]. destruct (pool_get (Random.queuePool ws)) as [q p]. cbn in He. subst q. cbn [Random.sq].
      case_decide as H; [destruct H as [<- _]; by rewrite lookup_insert_eq, Eq|]. rewrite lookup_insert_ne; [done|]. intros E2. apply H. split; congruence.
Qed.

Lemma Push_rest wr ws : pool_ok ws -> pool_ok (Random.Push wr ws) /\
  Random.zero (Random.Push wr ws) = (if StreamID wr =? 0 then Random.zero ws ++ [wr] else Random.zero ws) /\
  (Random.sq ws !! 0 = None -> Random.sq (Random.Push wr ws) !! 0 = None) /\
  sched_weight (Random.Push wr ws) = sched_weight ws + Z.of_nat (request_weight wr).
Proof.
  intros Hp. unfold Random.Push. rewrite !sched_weight_eq. destruct (Z.eqb_spec (StreamID wr) 0) as [E|E].
  - split_and!; [done|done|done|]. cbn [Random.zero Random.sq]. pose proof (push_weight wr (Random.zero ws)). lia.
  - destruct (Random.sq ws !! StreamID wr) as [q|] eqn:Eq; cbn [Random.sq Random.zero Random.queuePool].
    + split_and!; [done|done|by rewrite lookup_insert_ne|]. pose proof (queues_weight_update (Random.sq ws) (StreamID wr) (Http2WriteSched.push wr q)) as H.
      rewrite Eq in H. change (default [] (Some q)) with q in H. pose proof (push_weight wr q). lia.
    + pose proof (pool_get_empty _ Hp) as [He Hr]. destruct (pool_get (Random.queuePool ws)) as [q p]. cbn in He, Hr. subst q. cbn [Random.sq Random.zero Random.queuePool].
      split_and!; [done|done|by rewrite lookup_insert_ne|]. rewrite queues_weight_insert by done. pose proof (push_weight wr []). change (queue_weight []) with 0%nat in *. lia.
Qed.

Lemma CloseStream_queue id id' ws : queue_of id' (Random.CloseStream id ws) = if decide (id' = id) then [] else queue_of id' ws.
Proof.
  unfold Random.CloseStream, queue_of. destruct (Random.sq ws !! id) as [q|] eqn:E; cbn [Random.sq].
  - case_decide as H; [subst; by rewrite lookup_delete_eq|by rewrite lookup_delete_ne].
  - case_decide as H; [by subst; rewrite E|done].
Qed.

Lemma CloseStream_rest id ws : pool_ok ws -> pool_ok (Random.CloseStream id ws) /\ Random.zero (Random.CloseStream id ws) = Random.zero ws /\
  (Random.sq ws !! 0 = None -> Random.sq (Random.CloseStream id ws) !! 0 = None) /\
  sched_weight (Random.CloseStream id ws) <= sched_weight ws.
Proof.
  intros Hp. unfold Random.CloseStream. rewrite !sched_weight_eq. destruct (Random.sq ws !! id) as [q|] eqn:E; [|split_and!; [done..|lia]].
  cbn [Random.zero Random.sq Random.queuePool]. split_and!.
  - unfold pool_ok. cbn. apply Forall_app. split; [done|by apply Forall_singleton].
  - done.
  - intros H. destruct (decide (id = 0)) as [->|]; [by rewrite lookup_delete_eq|by rewrite lookup_delete_ne].
  - rewrite (queues_weight_delete _ _ _ E). lia.
Qed.

(** * Popping *)

(** Taking one request from the queue [q]. *)
Inductive popped (fs : flows) : FrameWriteRequest -> writeQueue -> writeQueue -> flows -> Prop :=
| popped_whole wr q : unlimited wr = true -> popped fs wr (wr :: q) q fs
| popped_data wr q s c ws wc : unlimited wr = false -> req_linked fs wr s c ws wc -> DataSize wr <= Z.min ws wc ->
    popped fs wr (wr :: q) q (debited fs s c ws wc (DataSize wr))
| popped_part sid p e s d q c ws wc a : req_linked fs (mkReq (Some (writeData sid p e)) (Some s) d) s c ws wc -> 0 < a < len p -> a <= Z.min ws wc ->
    popped fs (mkReq (Some (writeData sid (upto a p) false)) (Some s) None) (mkReq (Some (writeData sid p e)) (Some s) d :: q)
      (mkReq (Some (writeData sid (from a p) e)) (Some s) d :: q) (debited fs s c ws wc a).

Lemma req_linked_unique fs wr s c ws wc s' c' ws' wc' : req_linked fs wr s c ws wc -> req_linked fs wr s' c' ws' wc' -> s' = s /\ c' = c /\ ws' = ws /\ wc' = wc.
Proof. intros (H1 & (_ & H2 & H3) & _) (K1 & (_ & K2 & K3) & _). assert (s' = s) as -> by congruence. rewrite H2 in K2. injection K2 as -> ->. split_and!; congruence. Qed.

Lemma consume_cases mfs fs q : queue_ok fs q ->
  (consume mfs (2 ^ 31 - 1) q fs = Ok (FWR_zero, false, q, fs) /\ blocked mfs fs q) \/
  (exists wr q' fs', consume mfs (2 ^ 31 - 1) q fs = Ok (wr, true, q', fs') /\ popped fs wr q q' fs' /\ ~ blocked mfs fs q).
Proof.
  intros Hq. destruct q as [|wr tl]; [by left|]. apply Forall_cons in Hq as [Hw Hq]. unfold consume. destruct (unlimited wr) eqn:Hu.
  { right. rewrite (Consume_unlimited _ _ _ _ Hu). cbn [mbind outcome_bind]. eexists _, _, _. split; [reflexivity|]. split; [by constructor|]. intros [Hx _]. congruence. }
  destruct (Hw Hu) as (s & c & ws & wc & Hl). destruct (is_unlimited _ Hu) as (sid & p & e & Hwd & Hp).
  destruct wr as [w st d]. cbn in Hwd. subst w. pose proof Hl as (Hst & _ & Hws & Hwc). cbn in Hst. subst st.
  rewrite (Consume_data _ _ _ _ _ _ _ _ _ _ _ _ Hl Hp). cbv zeta. set (a := allowance mfs _ ws wc) in *. destruct (Z.leb_spec a 0) as [Ha|Ha].
  { left. split; [reflexivity|]. split; [done|]. exists s, c, ws, wc. split; [done|]. unfold a, allowance in Ha. unfold window in *. lia. }
  assert (Hle : a <= Z.min ws wc) by (unfold a, allowance; lia).
  assert (Hnb : ~ blocked mfs fs (mkReq (Some (writeData sid p e)) (Some s) d :: tl)).
  { intros (_ & s' & c' & ws' & wc' & Hl' & Hm). destruct (req_linked_unique _ _ _ _ _ _ _ _ _ _ Hl Hl') as (-> & -> & -> & ->). unfold a, allowance in Ha. lia. }
  right. destruct (Z.ltb_spec a (len p)).
  - cbn [mbind outcome_bind]. eexists _, _, _. split; [reflexivity|]. split; [|exact Hnb]. econstructor; [exact Hl|lia|done].
  - cbn [mbind outcome_bind]. eexists _, _, _. split; [reflexivity|]. change (len p) with (DataSize (mkReq (Some (writeData sid p e)) (Some s) d)).
    split; [|exact Hnb]. econstructor; [done|exact Hl|]. unfold DataSize. cbn. lia.
Qed.

Lemma pop_loop_cases mfs fs ws ids : (forall id, queue_ok fs (queue_of id ws)) ->
  (Random.pop_loop mfs ids ws fs = Ok (FWR_zero, false, ws, fs) /\ forall id, id ∈ ids -> blocked mfs fs (queue_of id ws)) \/
  (exists wr id q' fs', Random.pop_loop mfs ids ws fs = Ok (wr, true, Random.mkScheduler (Random.zero ws) (<[id := q']> (Random.sq ws)) (Random.queuePool ws), fs') /\
     popped fs wr (queue_of id ws) q' fs' /\ ~ blocked mfs fs (queue_of id ws)).
Proof.
  intros Hq. induction ids as [|id ids IH]; [left; split; [done|by intros ? ?%elem_of_nil]|]. cbn [Random.pop_loop].
  destruct (consume_cases mfs fs (queue_of id ws) (Hq id)) as [[Hc Hb]|(wr & q' & fs' & Hc & Hp)]; unfold queue_of in Hc; rewrite Hc; cbn [mbind outcome_bind].
  - destruct IH as [[Hr Hall]|(wr & id' & q' & fs' & Hr & Hp)]; [left|right; by exists wr, id', q', fs'].
    split; [done|]. by intros id' [->|?]%elem_of_cons; [|by apply Hall].
  - right. by exists wr, id, q', fs'.
Qed.

Lemma Pop_cases order mfs fs ws : (forall id, queue_ok fs (queue_of id ws)) -> order (Random.sq ws) ≡ₚ (map_to_list (Random.sq ws)).*1 ->
  (exists wr z, Random.zero ws = wr :: z /\ Random.Pop order mfs ws fs = Ok (wr, true, Random.mkScheduler z (Random.sq ws) (Random.queuePool ws), fs)) \/
  (Random.Pop order mfs ws fs = Ok (FWR_zero, false, ws, fs) /\ Random.zero ws = [] /\
     forall id q, Random.sq ws !! id = Some q -> blocked mfs fs q) \/
  (exists wr id q' fs', Random.zero ws = [] /\
     Random.Pop order mfs ws fs = Ok (wr, true, Random.mkScheduler [] (<[id := q']> (Random.sq ws)) (Random.queuePool ws), fs') /\
     popped fs wr (queue_of id ws) q' fs' /\ ~ blocked mfs fs (queue_of id ws)).
Proof.
  intros Hq Ho. unfold Random.Pop. destruct (Random.zero ws) as [|wr z] eqn:Ez.
  - right. cbn [empty negb]. change (negb (empty [])) with false. cbv iota. destruct (pop_loop_cases mfs fs ws (order (Random.sq ws)) Hq) as [[Hr Hb]|(wr & id & q' & fs' & Hr & Hp)].
    + left. split; [exact Hr|]. split; [done|]. intros id q E. specialize (Hb id). unfold queue_of in Hb. rewrite E in Hb. apply Hb. rewrite Ho.
      apply list_elem_of_fmap. exists (id, q). split; [done|]. by apply elem_of_map_to_list.
    + right. rewrite Hr, Ez. by exists wr, id, q', fs'.
  - left. exists wr, z. split; [done|]. destruct (Z.eqb_spec (len (wr :: z)) 0) as [E|E]; [rewrite len_cons in E; pose proof (len_nonneg z); lia|].
    unfold empty. rewrite (proj2 (Z.eqb_neq _ _) E). done.
Qed.

Lemma queue_weight_cons wr q : queue_weight (wr :: q) = (request_weight wr + queue_weight q)%nat.
Proof. done. Qed.

Definition is_push (wr : FrameWriteRequest) : bool := match write wr with Some (write_push _) => true | _ => false end.

(** Room for what starting the frame adds. *)
Lemma popped_weight fs wr q q' fs' : popped fs wr q q' fs' ->
  (queue_weight q' + (if is_push wr then 64 else if ends wr then 8 else 2) <= queue_weight q)%nat /\
  ((forall sid p e, write wr <> Some (writeData sid p e)) -> (queue_weight q' + request_weight wr <= queue_weight q)%nat).
Proof.
  destruct 1 as [wr q|wr q s c ws wc|sid p e s d q c ws wc a Hl Ha Hle]; rewrite ?queue_weight_cons.
  - pose proof (weight_pos wr). unfold is_push, request_weight in *. destruct (write wr) as [[]|], (ends wr); lia.
  - pose proof (weight_pos wr). unfold is_push, request_weight in *. destruct (write wr) as [[]|], (ends wr); lia.
  - assert (length (from a p) + Z.to_nat a = length p)%nat by (unfold from; rewrite length_drop; unfold len in Ha; lia). split.
    + unfold request_weight, is_push, ends. cbn [write]. lia.
    + intros H'. by destruct (H' sid (upto a p) false).
Qed.

(** Takes the first call of the method [H] apart. *)
Tactic Notation "step_in" hyp(H) "as" ident(x) ident(E) := apply bind_Ok in H as (x & E & H).

(** * Windows *)

(** The windows for what the server sends stay. *)
Record out_same (fs fs' : flows) : Prop := {
  os_conn : fs' !! conn_flow = fs !! conn_flow;
  os_out : forall p w, fs !! p = Some (mkFlow w (Some conn_flow)) -> fs' !! p = fs !! p }.

(** A change of the client's windows. *)
Record in_change (fs fs' : flows) : Prop := {
  ic_same : out_same fs fs';
  ic_in : forall w, fs !! conn_inflow = Some (mkFlow w None) -> 0 <= w < 2 ^ 31 -> exists w', fs' !! conn_inflow = Some (mkFlow w' None) /\ 0 <= w' < 2 ^ 31;
  ic_body : forall p w, fs !! p = Some (mkFlow w (Some conn_inflow)) -> window w -> exists w', fs' !! p = Some (mkFlow w' (Some conn_inflow)) /\ window w';
  ic_dom : forall p, is_Some (fs' !! p) -> is_Some (fs !! p) }.

#[global] Instance in_change_preorder : PreOrder in_change.
Proof.
  split.
  - intros fs. split; eauto. by split.
  - intros a b c [[A1 A2] A3 A4 A5] [[B1 B2] B3 B4 B5]. split.
    + split; [congruence|]. intros p w H. rewrite <- (A2 p w H). apply (B2 p w). by rewrite (A2 p w H).
    + intros w H Hw. destruct (A3 w H Hw) as (w' & H' & Hw'). by apply (B3 w').
    + intros p w H Hw. destruct (A4 p w H Hw) as (w' & H' & Hw'). by apply (B4 p w').
    + auto.
Qed.

Lemma in_change_conn fs w w' : fs !! conn_inflow = Some (mkFlow w None) -> 0 <= w' < 2 ^ 31 -> in_change fs (<[conn_inflow := mkFlow w' None]> fs).
Proof.
  intros H Hw. split.
  - split; [by rewrite lookup_insert_ne|]. intros p v Hp. rewrite lookup_insert_ne; [done|]. intros <-. congruence.
  - intros v _ _. exists w'. by rewrite lookup_insert_eq.
  - intros p v Hp Hv. exists v. rewrite lookup_insert_ne; [done|]. intros <-. congruence.
  - intros p [x Hx]. destruct (decide (conn_inflow = p)) as [<-|]; [by eexists|]. rewrite lookup_insert_ne in Hx by done. by eexists.
Qed.

Section keep.
Context {B : Type} `{!PipeBuffer B}.
Variable maxStreams : Z.

Abbreviation sc := (serverConn B).
Abbreviation stream_of := (sstream B).
Abbreviation inv := (inv (B := B) maxStreams).

Lemma flows_inv_in fs fs' (heap : gmap Z stream_of) fresh : flows_inv fs heap fresh -> in_change fs fs' -> flows_inv fs' heap fresh.
Proof.
  intros [H1 (w & H2 & Hw) H3 H4 H5] [[I1 I2] I3 I4 I5]. split.
  - by rewrite I1.
  - by apply (I3 w).
  - intros id st E. destruct (H3 id st E) as (v & E' & Hv). exists v. by rewrite (I2 _ v).
  - intros id st E. destruct (H4 id st E) as (v & E' & Hv). by apply (I4 _ v).
  - auto.
Qed.

(** What cannot be sent stays so when only the client's windows change. *)
Lemma blocked_out fs fs' (heap : gmap Z stream_of) fresh m q : flows_inv fs heap fresh -> out_same fs fs' -> Forall (linked_req heap) q ->
  blocked m fs q -> blocked m fs' q.
Proof.
  intros Hf Hi Hq. destruct q as [|wr q]; [done|]. apply Forall_cons in Hq as [Hl _]. intros (Hu & s & c & ws & wc & (Hs & (Hne & Hfl & Hc) & Hw1 & Hw2) & Hm).
  split; [done|]. destruct (Hl s Hs) as (st & Hst & Hp). destruct (fi_out _ _ _ Hf _ _ Hst) as (v & Hv & _). rewrite Hp in Hfl. rewrite Hv in Hfl. injection Hfl as -> <-.
  exists s, conn_flow, ws, wc. split; [|done]. split; [done|]. rewrite <- Hp in Hv. split; [split_and!|done].
  - done.
  - by rewrite (os_out _ _ Hi _ _ Hv).
  - by rewrite (os_conn _ _ Hi).
Qed.

Lemma queues_linked (heap : gmap Z stream_of) ws infl id q : queues_inv heap ws infl -> Random.sq ws !! id = Some q -> Forall (linked_req heap) q.
Proof.
  intros H E. pose proof (qi_ids _ _ _ H id) as Hq. unfold queue_of in Hq. rewrite E in Hq. eapply Forall_impl; [exact Hq|]. by intros wr [_ ?].
Qed.

Lemma stuck_out Y (c c' : sc) : inv Y c -> out_same (fls c) (fls c') -> writeSched c' = writeSched c -> maxFrameSize c' = maxFrameSize c ->
  inGoAway c' = inGoAway c -> goAwayCode c' = goAwayCode c -> needToSendGoAway c' = needToSendGoAway c ->
  needToSendSettingsAck c' = needToSendSettingsAck c -> stuck c -> stuck c'.
Proof.
  intros Hi Hf Hws Hm Hg Hgc Hn Ha (S1 & S2 & S3). unfold stuck, pop_disabled. rewrite Hws, Hm, Hg, Hgc, Hn, Ha. split_and!; [done..|].
  destruct S3 as [S3|[S3 S4]]; [by left|right]. split; [done|]. intros id q E.
  eapply blocked_out; [apply (v_flows _ _ _ Hi)|done| |by eapply S4]. eapply queues_linked; [apply (v_queues _ _ _ Hi)|done].
Qed.

(** * Keeping the invariant *)

Record keeps (Y : gset Z) (c c' : sc) : Prop := {
  k_inv : inv Y c';
  k_grows : grows c c';
  k_settled : settled c -> settled c' }.

Lemma keeps_refl Y c : inv Y c -> keeps Y c c.
Proof. intros H. split; [done|reflexivity|done]. Qed.

Lemma keeps_trans Y c1 c2 c3 : keeps Y c1 c2 -> keeps Y c2 c3 -> keeps Y c1 c3.
Proof. intros [H1 G1 S1] [H2 G2 S2]. split; [done|by etransitivity|auto]. Qed.

(** ** Streams *)

(** A change of a stream that the invariant does not see. *)
Definition minor (f : stream_of -> stream_of) : Prop := forall st : stream_of,
  st_same st (f st) /\ s_state (f st) = s_state st /\ (resetQueued st = true -> resetQueued (f st) = true).

Lemma lookup_upd (h : gmap Z stream_of) id i st f : h !! id = Some st ->
  forall st', <[id := f st]> h !! i = Some st' -> exists st0, h !! i = Some st0 /\ (i = id /\ st' = f st0 \/ i <> id /\ st' = st0).
Proof.
  intros H st' E. destruct (decide (i = id)) as [->|Hne].
  - rewrite lookup_insert_eq in E. injection E as <-. exists st. auto.
  - rewrite lookup_insert_ne in E by done. exists st'. auto.
Qed.

Lemma grows_upd (c : sc) id st f : heap c !! id = Some st -> st_same st (f st) -> grows c (set_heap (<[id := f st]> (heap c)) c).
Proof.
  intros H Hf. split; [done|]. intros i st0 E. cbn [heap set_heap]. destruct (decide (i = id)) as [->|].
  - rewrite lookup_insert_eq. exists (f st). split; [done|]. assert (st0 = st) as -> by congruence. done.
  - exists st0. rewrite lookup_insert_ne by done. done.
Qed.

Lemma linked_upd (h : gmap Z stream_of) id st f wr : h !! id = Some st -> st_same st (f st) -> linked_req h wr -> linked_req (<[id := f st]> h) wr.
Proof.
  intros H [Hf _] Hl s E. destruct (Hl s E) as (st0 & E0 & Hs). destruct (decide (st_id s = id)) as [E1|].
  - rewrite E1 in *. exists (f st). rewrite lookup_insert_eq. split; [done|]. congruence.
  - exists st0. by rewrite lookup_insert_ne.
Qed.

Lemma queues_impl (h h' : gmap Z stream_of) ws infl : (forall wr, linked_req h wr -> linked_req h' wr) -> queues_inv h ws infl -> queues_inv h' ws infl.
Proof.
  intros Hi [H1 H2 H3 H4 H5]. split; [done|done| | |auto].
  - eapply Forall_impl; [exact H3|]. intros wr [? ?]. auto.
  - intros id. eapply Forall_impl; [apply H4|]. intros wr [? ?]. auto.
Qed.

Lemma flows_upd fs (h : gmap Z stream_of) fr id st f : h !! id = Some st -> st_same st (f st) -> flows_inv fs h fr -> flows_inv fs (<[id := f st]> h) fr.
Proof.
  intros H [Hf Hg] [H1 H2 H3 H4 H5]. split; [done|done| | |done].
  - intros i st' E. destruct (lookup_upd _ _ _ _ f H _ E) as (st0 & E0 & [[-> ->]|[? ->]]); [|by apply (H3 i)]. assert (st0 = st) as -> by congruence. rewrite Hf. by apply (H3 id).
  - intros i st' E. destruct (lookup_upd _ _ _ _ f H _ E) as (st0 & E0 & [[-> ->]|[? ->]]); [|by apply (H4 i)]. assert (st0 = st) as -> by congruence. rewrite Hg. by apply (H4 id).
Qed.

Lemma lookup_upd_is (h : gmap Z stream_of) id i st f : h !! id = Some st -> is_Some (<[id := f st]> h !! i) -> is_Some (h !! i).
Proof. intros H [x E]. destruct (lookup_upd _ _ _ _ f H _ E) as (st0 & E0 & _). by eexists. Qed.

Lemma log_upd (h : gmap Z stream_of) infl l id st f : h !! id = Some st -> (silent (s_state st) -> silent (s_state (f st))) ->
  log_inv h infl l -> log_inv (<[id := f st]> h) infl l.
Proof.
  intros H Hs [H1 H2 [H3 H4]]. assert (Hx : forall i st0, h !! i = Some st0 -> exists st', <[id := f st]> h !! i = Some st' /\ (silent (s_state st0) -> silent (s_state st'))).
  { intros i st0 E. destruct (decide (i = id)) as [->|]; [rewrite lookup_insert_eq; exists (f st); split; [done|]; by assert (st0 = st) as -> by congruence|].
    exists st0. by rewrite lookup_insert_ne. }
  split; [|done|split; [done|]].
  - intros i E. destruct (H1 i E) as [(st0 & E0 & Hq)|(st0 & wr & E0 & Hw)].
    + destruct (Hx i st0 E0) as (st' & E' & Hs'). left. exists st'. auto.
    + destruct (Hx i st0 E0) as (st' & E' & _). right. by exists st', wr.
  - intros i Hi. destruct (H4 i Hi) as [st0 E0]. destruct (Hx i st0 E0) as (st' & E' & _). by eexists.
Qed.

Lemma keeps_upd Y (c : sc) id st f : inv Y c -> heap c !! id = Some st -> minor f -> keeps Y c (set_heap (<[id := f st]> (heap c)) c).
Proof.
  intros Hi H Hf. destruct (Hf st) as (Hs & Hst & Hr). split; [|by apply grows_upd|].
  - destruct Hi as [V1 V2 V3 V4 V5 V6]. split; cbn [fls heap fresh streams maxClientStreamID maxPushPromiseID curClientStreams curPushedStreams writeSched inflight log writingFrame writingFrameAsync set_heap].
    + by apply flows_upd.
    + destruct V2 as [S1 S2 S3 S4 S5 S6]. split; [..|done].
      * intros i Hl. destruct (S1 i Hl) as (st0 & E0 & Hn). destruct (decide (i = id)) as [->|]; [|exists st0; by rewrite lookup_insert_ne].
        exists (f st). rewrite lookup_insert_eq. split; [done|]. assert (st0 = st) as -> by congruence. by rewrite Hst.
      * intros i st' E Hl. destruct (lookup_upd _ _ _ _ f H _ E) as (st0 & E0 & [[-> ->]|[? ->]]); [|by apply (S2 i)].
        assert (st0 = st) as -> by congruence. rewrite Hst. by apply (S2 id).
      * intros i st' E. destruct (lookup_upd _ _ _ _ f H _ E) as (st0 & E0 & [[-> ->]|[? ->]]); [|by apply (S3 i)].
        assert (st0 = st) as -> by congruence. rewrite Hst. by apply (S3 id).
      * intros i st' E Hl Hy. destruct (lookup_upd _ _ _ _ f H _ E) as (st0 & E0 & [[-> ->]|[? ->]]); [|by apply (S4 i)].
        assert (st0 = st) as -> by congruence. rewrite Hst in Hl. apply Hr. by apply (S4 id).
      * intros i Hl. apply S5. by eapply lookup_upd_is.
    + done.
    + eapply queues_impl; [|done]. intros wr. by apply linked_upd.
    + apply log_upd; [done| |done]. by rewrite Hst.
    + done.
  - intros [L|[L|L]]; [by left|by right; left|right; right; exact L].
Qed.

Lemma inv_weaken Y Y' c : inv Y c -> Y ⊆ Y' -> inv Y' c.
Proof.
  intros [V1 V2 V3 V4 V5 V6] Hs. split; [done| |done..]. destruct V2 as [S1 S2 S3 S4 S5 S6]. split; [done..| |done|done].
  intros i st E Hl Hy. apply (S4 i); [done|done|]. intros Hx. by apply Hy, Hs.
Qed.

(** ** The log *)

Lemma keeps_effect Y (c : sc) e : inv Y c -> quiet e -> keeps Y c (log_effect e c).
Proof.
  intros Hi He. destruct (started_quiet e (log c) He) as [E1 E2]. split.
  - destruct Hi as [V1 V2 V3 V4 V5 V6]. split; [done..| |done]. destruct V5 as [L1 L2 L3]. split; cbn [log log_effect set_log heap inflight]; by rewrite ?E1, ?E2.
  - split; [done|]. intros i st E. by exists st.
  - intros [L|[L|L]]; [by left|by right; left|right; right; exact L].
Qed.

(** A handler is started for a new stream. *)
Lemma keeps_handler Y (c : sc) id req k : inv Y c -> is_Some (heap c !! id) -> id ∉ handled (log c) -> keeps Y c (log_effect (ERunHandler id req k) c).
Proof.
  intros Hi Hid Hn. split.
  - destruct Hi as [V1 V2 V3 V4 V5 V6]. split; [done..| |done]. destruct V5 as [L1 L2 [L3 L4]]. split; [done|done|].
    cbn [log log_effect set_log heap]. change (handled (ERunHandler id req k :: log c)) with (id :: handled (log c)). split.
    + by apply NoDup_cons.
    + intros i [->|Hi]%elem_of_cons; [done|by apply L4].
  - split; [done|]. intros i st E. by exists st.
  - intros [L|[L|L]]; [by left|by right; left|right; right; exact L].
Qed.

(** ** The scheduler *)

Lemma keeps_push Y (c : sc) wr : inv Y c -> linked_req (heap c) wr -> inv Y (set_writeSched (Random.Push wr (writeSched c)) c).
Proof.
  intros [V1 V2 V3 V4 V5 V6] Hl. split; [done|done|done| |done|done]. cbn [heap writeSched inflight set_writeSched].
  destruct V4 as [Q1 Q2 Q3 Q4 Q5]. destruct (Push_rest wr _ Q1) as (P1 & P2 & P3 & _). split; [done|by apply P3| | |done].
  - rewrite P2. destruct (Z.eqb_spec (StreamID wr) 0); [|done]. apply Forall_app. split; [done|by apply Forall_singleton].
  - intros id. rewrite Push_queue by done. destruct (decide (StreamID wr = id /\ id <> 0)) as [[E _]|_]; [|apply Q4].
    apply Forall_app. split; [apply Q4|by apply Forall_singleton].
Qed.

Lemma keeps_drop_queue Y (c : sc) id : inv Y c -> keeps Y c (set_writeSched (Random.CloseStream id (writeSched c)) c).
Proof.
  intros Hi. split.
  - destruct Hi as [V1 V2 V3 V4 V5 V6]. split; [done|done|done| |done|done]. cbn [heap writeSched inflight set_writeSched].
    destruct V4 as [Q1 Q2 Q3 Q4 Q5]. destruct (CloseStream_rest id _ Q1) as (P1 & P2 & P3 & _). split; [done|by apply P3|by rewrite P2| |done].
    intros i. rewrite CloseStream_queue. destruct (decide (i = id)); [done|apply Q4].
  - split; [done|]. intros i st E. by exists st.
  - intros [L|[L|(L1 & L2 & L3)]]; [by left|by right; left|right; right]. split; [done|]. split; [done|].
    destruct L3 as [L3|[L3 L4]]; [by left|right]. cbn [writeSched set_writeSched maxFrameSize fls]. unfold Random.CloseStream.
    destruct (Random.sq (writeSched c) !! id) as [q|] eqn:E; [|done]. split; [done|]. cbn [Random.sq]. intros i k Ei.
    destruct (decide (i = id)) as [->|]; [by rewrite lookup_delete_eq in Ei|]. rewrite lookup_delete_ne in Ei by done. by eapply L4.
Qed.

(** ** Windows *)

Lemma add_Ok p k fs fs' ok x : fs !! p = Some x -> add p k fs = Ok (fs', ok) ->
  (fs' = fs /\ ok = false) \/ (exists w, fs' = <[p := mkFlow w (conn x)]> fs /\ window w /\ ok = true /\ (0 <= n x < 2 ^ 31 -> 0 <= k -> n x + k < 2 ^ 31 /\ w = n x + k)).
Proof.
  intros E H. unfold add, deref in H. rewrite E in H. cbn [or_panic mbind outcome_bind] in H.
  destruct (Z.ltb_spec (i32 (2 ^ 31 - 1 - n x)) k); injection H as <- <-; [by left|right].
  eexists. split; [done|]. split; [apply i32_window|]. split; [done|]. intros Hn Hk. pose proof (i32_window (2 ^ 31 - 1 - n x)) as Hw. unfold window in Hw. rewrite (i32_id (2 ^ 31 - 1 - n x)) in * by (unfold window; lia).
  split; [lia|]. apply i32_id. unfold window. lia.
Qed.

Lemma keeps_in Y (c : sc) fs' : inv Y c -> in_change (fls c) fs' -> keeps Y c (set_fls fs' c).
Proof.
  intros Hi Hf. split.
  - destruct Hi as [V1 V2 V3 V4 V5 V6]. split; [|done..]. by eapply flows_inv_in.
  - split; [done|]. intros i st E. by exists st.
  - intros [L|[L|L]]; [by left|by right; left|right; right]. eapply stuck_out; [exact Hi|apply Hf|done..].
Qed.

Lemma in_pointer Y (c : sc) id st : inv Y c -> heap c !! id = Some st -> exists w, fls c !! s_inflow st = Some (mkFlow w (Some conn_inflow)) /\ window w /\ s_inflow st <> conn_inflow /\ s_inflow st <> conn_flow.
Proof.
  intros Hi E. destruct (fi_body _ _ _ (v_flows _ _ _ Hi) _ _ E) as (w & Hw & Hr). destruct (fi_in _ _ _ (v_flows _ _ _ Hi)) as (v & Hv & _).
  destruct (fi_conn _ _ _ (v_flows _ _ _ Hi)) as (u & Hu & _). exists w. split_and!; [done|done|congruence|congruence].
Qed.

Lemma in_change_add_body fs p k fs' ok w : fs !! p = Some (mkFlow w (Some conn_inflow)) -> p <> conn_inflow -> p <> conn_flow ->
  add p k fs = Ok (fs', ok) -> in_change fs fs'.
Proof.
  intros E N1 N2 H. destruct (add_Ok _ _ _ _ _ _ E H) as [[-> _]|(w' & -> & Hw & _)]; [reflexivity|]. cbn [conn]. split.
  - split; [by rewrite lookup_insert_ne|]. intros q v Hq. rewrite lookup_insert_ne; [done|]. intros <-. by rewrite E in Hq.
  - intros v Hv Hv2. exists v. by rewrite lookup_insert_ne.
  - intros q v Hq Hv. destruct (decide (p = q)) as [<-|]; [exists w'; by rewrite lookup_insert_eq|]. exists v. by rewrite lookup_insert_ne.
  - intros q [x Hx]. destruct (decide (p = q)) as [<-|]; [by eexists|]. rewrite lookup_insert_ne in Hx by done. by eexists.
Qed.

(** ** Counting streams *)

Lemma size_ids (X : gset Z) m : (forall id, id ∈ X -> 0 < id <= m) -> 0 <= m -> Z.of_nat (base.size X) <= m.
Proof.
  intros H Hm. assert (Hs : X ⊆ list_to_set (seqZ 1 m)).
  { intros id Hid. apply elem_of_list_to_set, elem_of_seqZ. specialize (H id Hid). lia. }
  apply subseteq_size in Hs. rewrite size_list_to_set in Hs by apply NoDup_seqZ. rewrite length_seqZ in Hs. lia.
Qed.

Lemma odd_insert X id : id ∉ X -> Z.of_nat (base.size (odd_ids ({[id]} ∪ X))) = (if isPushed id then 0 else 1) + Z.of_nat (base.size (odd_ids X)).
Proof.
  intros H. unfold odd_ids. rewrite filter_union_L by apply _. destruct (isPushed id) eqn:E.
  - rewrite filter_singleton_L by apply _. rewrite decide_False by (by rewrite E). by rewrite (left_id_L ∅ (∪)).
  - rewrite filter_singleton_L by apply _. rewrite decide_True by done. rewrite size_union, size_singleton; [lia|].
    apply disjoint_singleton_l. intros Hx. by apply elem_of_filter in Hx as [_ Hx].
Qed.

Lemma even_insert X id : id ∉ X -> Z.of_nat (base.size (even_ids ({[id]} ∪ X))) = (if isPushed id then 1 else 0) + Z.of_nat (base.size (even_ids X)).
Proof.
  intros H. unfold even_ids. rewrite filter_union_L by apply _. destruct (isPushed id) eqn:E.
  - rewrite filter_singleton_L by apply _. rewrite decide_True by done. rewrite size_union, size_singleton; [lia|].
    apply disjoint_singleton_l. intros Hx. by apply elem_of_filter in Hx as [_ Hx].
  - rewrite filter_singleton_L by apply _. rewrite decide_False by (by rewrite E). by rewrite (left_id_L ∅ (∪)).
Qed.

Lemma without (X : gset Z) id : id ∈ X -> X = {[id]} ∪ X ∖ {[id]} /\ id ∉ X ∖ {[id]}.
Proof.
  intros H. split; [|intros [_ Hx]%elem_of_difference; apply Hx; by apply elem_of_singleton].
  apply set_eq. intros i. rewrite elem_of_union, elem_of_difference, elem_of_singleton. destruct (decide (i = id)) as [->|]; tauto.
Qed.

Lemma counts_bound Y (c : sc) : inv Y c -> curClientStreams c < 2 ^ 31 /\ curPushedStreams c < 2 ^ 31.
Proof.
  intros [_ [S1 S2 S3 S4 S5 S6] [C1 C2 _] _ _ _]. rewrite C1, C2. split.
  - pose proof (size_ids (odd_ids (streams c)) (maxClientStreamID c)) as H. enough (Z.of_nat (base.size (odd_ids (streams c))) <= maxClientStreamID c) by lia.
    apply H; [|lia]. intros id [Hp Hid]%elem_of_filter. destruct (S1 id Hid) as (st & E & _). specialize (S5 id ltac:(by eexists)). rewrite Hp in S5. lia.
  - pose proof (size_ids (even_ids (streams c)) (maxPushPromiseID c)) as H. enough (Z.of_nat (base.size (even_ids (streams c))) <= maxPushPromiseID c) by lia.
    apply H; [|lia]. intros id [Hp Hid]%elem_of_filter. destruct (S1 id Hid) as (st & E & _). specialize (S5 id ltac:(by eexists)). rewrite Hp in S5. lia.
Qed.

Lemma u32_id z : 0 <= z < 2 ^ 32 -> u32 z = z.
Proof. apply wrap_id. Qed.

(** ** Closing and ending streams *)

(** The first part of [closeStream]. *)
Definition close_part (id : Z) (st : stream_of) (c : sc) : sc :=
  let c := set_heap (<[id := set_s_state stateClosed st]> (heap c)) c in
  let c := if isPushed id then set_curPushedStreams (u32 (curPushedStreams c - 1)) c
           else set_curClientStreams (u32 (curClientStreams c - 1)) c in
  set_streams (streams c ∖ {[id]}) c.

Lemma counts_close X client pushed id : counts_inv maxStreams X client pushed -> client < 2 ^ 31 -> pushed < 2 ^ 31 -> id ∈ X ->
  counts_inv maxStreams (X ∖ {[id]}) (if isPushed id then client else u32 (client - 1)) (if isPushed id then u32 (pushed - 1) else pushed).
Proof.
  intros [C1 C2 C3] B1 B2 H. destruct (without X id H) as [E N]. pose proof (odd_insert _ _ N) as Ho. pose proof (even_insert _ _ N) as He.
  rewrite <- E in Ho, He. destruct (isPushed id); split; rewrite ?u32_id; lia.
Qed.

Lemma streams_state Y (h : gmap Z stream_of) live mc mp id st s : streams_inv Y h live mc mp -> h !! id = Some st -> s <> stateIdle ->
  s <> stateClosed -> id ∈ live -> (s = stateHalfClosedLocal -> id ∉ Y -> resetQueued st = true) -> streams_inv Y (<[id := set_s_state s st]> h) live mc mp.
Proof.
  intros [S1 S2 S3 S4 S5 S6] H Hs Hc Hl Hr. split; [..|done].
  - intros i Hi. destruct (decide (i = id)) as [->|]; [exists (set_s_state s st); by rewrite lookup_insert_eq|]. rewrite lookup_insert_ne by done. auto.
  - intros i st' E Hi. rewrite lookup_insert_ne in E by congruence. by apply (S2 i).
  - intros i st' E. destruct (lookup_upd _ _ _ _ (set_s_state s) H _ E) as (st0 & E0 & [[-> ->]|[? ->]]); [done|by apply (S3 i)].
  - intros i st' E E2 Hy. destruct (lookup_upd _ _ _ _ (set_s_state s) H _ E) as (st0 & E0 & [[-> ->]|[? ->]]); [|by apply (S4 i)].
    assert (st0 = st) as -> by congruence. by apply Hr.
  - intros i Hi. apply S5. by apply (lookup_upd_is _ _ _ _ (set_s_state s) H).
Qed.

Lemma streams_close Y (h : gmap Z stream_of) live mc mp id st : streams_inv Y h live mc mp -> h !! id = Some st ->
  streams_inv Y (<[id := set_s_state stateClosed st]> h) (live ∖ {[id]}) mc mp.
Proof.
  intros [S1 S2 S3 S4 S5 S6] H. split; [..|done].
  - intros i [Hi Hn]%elem_of_difference. rewrite lookup_insert_ne by (intros ->; apply Hn; by apply elem_of_singleton). auto.
  - intros i st' E Hi. destruct (decide (i = id)) as [->|Hne]; [rewrite lookup_insert_eq in E; by injection E as <-|].
    rewrite lookup_insert_ne in E by done. apply (S2 i); [done|]. intros Hx. apply Hi, elem_of_difference. split; [done|]. by rewrite elem_of_singleton.
  - intros i st' E. destruct (lookup_upd _ _ _ _ (set_s_state stateClosed) H _ E) as (st0 & E0 & [[-> ->]|[? ->]]); [done|by apply (S3 i)].
  - intros i st' E E2 Hy. destruct (lookup_upd _ _ _ _ (set_s_state stateClosed) H _ E) as (st0 & E0 & [[-> ->]|[? ->]]); [done|by apply (S4 i)].
  - intros i Hi. apply S5. by apply (lookup_upd_is _ _ _ _ (set_s_state stateClosed) H).
Qed.

Lemma alive Y (c : sc) id st : inv Y c -> heap c !! id = Some st -> s_state st <> stateClosed -> id ∈ streams c.
Proof. intros Hi E Hs. destruct (decide (id ∈ streams c)) as [|Hn]; [done|]. destruct Hs. by apply (si_dead _ _ _ _ _ (v_streams _ _ _ Hi) id). Qed.

Lemma keeps_close Y (c : sc) id st : inv Y c -> heap c !! id = Some st -> s_state st <> stateClosed -> keeps Y c (close_part id st c).
Proof.
  intros Hi E Hs. pose proof (alive _ _ _ _ Hi E Hs) as Hl. destruct (counts_bound _ _ Hi) as [B1 B2]. split.
  - destruct Hi as [V1 V2 V3 V4 V5 V6].
    assert (Hfl : flows_inv (fls c) (<[id := set_s_state stateClosed st]> (heap c)) (fresh c)) by (by apply flows_upd).
    assert (Hq : queues_inv (<[id := set_s_state stateClosed st]> (heap c)) (writeSched c) (inflight c)) by (eapply queues_impl; [|done]; intros wr; by apply linked_upd).
    assert (Hlg : log_inv (<[id := set_s_state stateClosed st]> (heap c)) (inflight c) (log c)) by (apply log_upd; [done|by right|done]).
    pose proof (streams_close _ _ _ _ _ _ _ V2 E) as Hst. pose proof (counts_close _ _ _ _ V3 B1 B2 Hl) as Hc.
    unfold close_part. destruct (isPushed id); by split.
  - pose proof (grows_upd c id st (set_s_state stateClosed) E) as G. destruct G as [G1 G2]; [done|]. unfold close_part. destruct (isPushed id); by split.
  - unfold close_part. intros [L|[L|L]]; [left|right; left|right; right]; by destruct (isPushed id).
Qed.

(** The server ends its side of a stream. *)
Lemma keeps_local Y (c : sc) id st : inv Y c -> heap c !! id = Some st -> s_state st = stateOpen ->
  keeps ({[id]} ∪ Y) c (set_heap (<[id := set_s_state stateHalfClosedLocal st]> (heap c)) c).
Proof.
  intros Hi E Hs. pose proof (alive _ _ _ _ Hi E ltac:(congruence)) as Hl. split.
  - apply (inv_weaken _ ({[id]} ∪ Y)) in Hi; [|apply union_subseteq_r]. destruct Hi as [V1 V2 V3 V4 V5 V6]. split; cbn [fls heap fresh streams maxClientStreamID maxPushPromiseID curClientStreams curPushedStreams writeSched inflight log writingFrame writingFrameAsync set_heap].
    + by apply flows_upd.
    + apply streams_state; [done..|]. intros _ Hy. destruct Hy. apply elem_of_union_l. by apply elem_of_singleton.
    + done.
    + eapply queues_impl; [|done]. intros wr. by apply linked_upd.
    + apply log_upd; [done|by left|done].
    + done.
  - by apply (grows_upd c id st (set_s_state stateHalfClosedLocal)).
  - intros [L|[L|L]]; [by left|by right; left|right; right; exact L].
Qed.

(** The client ends its side of a stream that the server has not ended. *)
Lemma keeps_remote Y (c : sc) id st st' : inv Y c -> heap c !! id = Some st -> ~ silent (s_state st) ->
  st_same st st' -> s_state st' = stateHalfClosedRemote -> resetQueued st' = resetQueued st ->
  keeps Y c (set_heap (<[id := st']> (heap c)) c).
Proof.
  intros Hi E Hs Hsame Hst' Hr.
  assert (Hl : id ∈ streams c) by (eapply alive; [done..|]; intros Hc; apply Hs; by right). split.
  - destruct Hi as [V1 V2 V3 V4 V5 V6]. split; cbn [fls heap fresh streams maxClientStreamID maxPushPromiseID curClientStreams curPushedStreams writeSched inflight log writingFrame writingFrameAsync set_heap].
    + by apply (flows_upd _ _ _ id st (fun _ => st')).
    + destruct V2 as [S1 S2 S3 S4 S5 S6]. split; [..|done].
      * intros i Hi. destruct (decide (i = id)) as [->|]; [exists st'; rewrite lookup_insert_eq, Hst'; by split|]. rewrite lookup_insert_ne by done. auto.
      * intros i st0 E0 Hi. rewrite lookup_insert_ne in E0 by congruence. by apply (S2 i).
      * intros i st0 E0. destruct (decide (i = id)) as [->|]; [rewrite lookup_insert_eq in E0; injection E0 as <-; by rewrite Hst'|]. rewrite lookup_insert_ne in E0 by done. by apply (S3 i).
      * intros i st0 E0 E2 Hy. destruct (decide (i = id)) as [->|]; [rewrite lookup_insert_eq in E0; injection E0 as <-; congruence|]. rewrite lookup_insert_ne in E0 by done. by apply (S4 i).
      * intros i Hi. apply S5. by apply (lookup_upd_is _ _ _ _ (fun _ => st') E).
    + done.
    + eapply queues_impl; [|done]. intros wr. by apply (linked_upd _ _ st (fun _ => st')).
    + apply (log_upd _ _ _ id st (fun _ => st')); [done| |done]. done.
    + done.
  - by apply (grows_upd c id st (fun _ => st')).
  - intros [L|[L|L]]; [by left|by right; left|right; right; exact L].
Qed.

(** The frame that was being written is done. *)
Definition drop_flight (c : sc) : sc := set_inflight None (set_writingFrameAsync false (set_writingFrame false c)).

Lemma inv_drop_flight Y (c : sc) : inv Y c ->
  (forall wr id st, inflight c = Some wr -> ends wr = true -> of_stream id wr -> heap c !! id = Some st -> silent (s_state st)) -> inv Y (drop_flight c).
Proof.
  intros [V1 V2 V3 V4 V5 V6] H. split; cbn [fls heap fresh streams maxClientStreamID maxPushPromiseID curClientStreams curPushedStreams writeSched inflight log writingFrame writingFrameAsync drop_flight set_inflight set_writingFrameAsync set_writingFrame]; try done.
  - destruct V4. by split.
  - destruct V5 as [L1 L2 L3]. split; [|done..]. intros id Hid. left. destruct (L1 id Hid) as [?|(st & wr & E & Hw & He & Hs)]; [done|].
    exists st. split; [done|]. by eapply H.
Qed.

(** ** New streams *)

Lemma flow_pair fs f g k1 k2 fs1 ok1 fs2 ok2 : f <> g ->
  add f k1 (<[g := mkFlow 0 (Some conn_inflow)]> (<[f := mkFlow 0 (Some conn_flow)]> fs)) = Ok (fs1, ok1) -> add g k2 fs1 = Ok (fs2, ok2) ->
  exists w1 w2, window w1 /\ window w2 /\ fs2 !! f = Some (mkFlow w1 (Some conn_flow)) /\ fs2 !! g = Some (mkFlow w2 (Some conn_inflow)) /\
    forall p, p <> f -> p <> g -> fs2 !! p = fs !! p.
Proof.
  intros Hne H1 H2. set (fs0 := <[g := _]> _) in H1.
  assert (E0 : fs0 !! f = Some (mkFlow 0 (Some conn_flow)) /\ fs0 !! g = Some (mkFlow 0 (Some conn_inflow)) /\ forall p, p <> f -> p <> g -> fs0 !! p = fs !! p).
  { unfold fs0. split_and!; [by rewrite lookup_insert_ne, lookup_insert_eq|by rewrite lookup_insert_eq|]. intros p N1 N2. by rewrite !lookup_insert_ne. }
  clearbody fs0. destruct E0 as (Ef & Eg & Eo).
  assert (E1 : exists w1, window w1 /\ fs1 !! f = Some (mkFlow w1 (Some conn_flow)) /\ fs1 !! g = Some (mkFlow 0 (Some conn_inflow)) /\ forall p, p <> f -> p <> g -> fs1 !! p = fs !! p).
  { destruct (add_Ok _ _ _ _ _ _ Ef H1) as [[-> _]|(w & -> & Hw & _)]; [by exists 0|]. exists w. cbn [conn].
    split_and!; [done|by rewrite lookup_insert_eq|by rewrite lookup_insert_ne|]. intros p N1 N2. rewrite lookup_insert_ne by done. by apply Eo. }
  destruct E1 as (w1 & Hw1 & Ef1 & Eg1 & Eo1). exists w1.
  destruct (add_Ok _ _ _ _ _ _ Eg1 H2) as [[-> _]|(w & -> & Hw & _)]; [by exists 0|]. exists w. cbn [conn].
  split_and!; [done|done|by rewrite lookup_insert_ne|by rewrite lookup_insert_eq|]. intros p N1 N2. rewrite lookup_insert_ne by done. by apply Eo1.
Qed.

Definition new_sstream (f g : positive) (s : streamState) : stream_of := mkSS None false 0 0 f g s false false false None None.

(** The connection after [newStream], but for the effect. *)
Definition with_stream (id : Z) (fs : flows) (s : streamState) (c : sc) : sc :=
  let f := fresh c in
  let c := set_fls fs (set_fresh (f + 1 + 1) c) in
  let c := set_streams ({[id]} ∪ streams c) (set_heap (<[id := new_sstream f (f + 1) s]> (heap c)) c) in
  if isPushed id then set_curPushedStreams (u32 (curPushedStreams c + 1)) c else set_curClientStreams (u32 (curClientStreams c + 1)) c.

Lemma with_stream_fields id fs s c : let c' := with_stream id fs s c in
  fls c' = fs /\ fresh c' = (fresh c + 1 + 1)%positive /\ heap c' = <[id := new_sstream (fresh c) (fresh c + 1) s]> (heap c) /\
  streams c' = {[id]} ∪ streams c /\ curClientStreams c' = (if isPushed id then curClientStreams c else u32 (curClientStreams c + 1)) /\
  curPushedStreams c' = (if isPushed id then u32 (curPushedStreams c + 1) else curPushedStreams c).
Proof. unfold with_stream. by destruct (isPushed id). Qed.

Lemma with_stream_rest id fs s c : let c' := with_stream id fs s c in
  maxClientStreamID c' = maxClientStreamID c /\ maxPushPromiseID c' = maxPushPromiseID c /\ writeSched c' = writeSched c /\ inflight c' = inflight c /\
  log c' = log c /\ writingFrame c' = writingFrame c /\ writingFrameAsync c' = writingFrameAsync c /\ maxFrameSize c' = maxFrameSize c /\
  inGoAway c' = inGoAway c /\ goAwayCode c' = goAwayCode c /\ needToSendGoAway c' = needToSendGoAway c /\
  needToSendSettingsAck c' = needToSendSettingsAck c /\ inFrameScheduleLoop c' = inFrameScheduleLoop c.
Proof. unfold with_stream. by destruct (isPushed id). Qed.

Lemma fresh_pointers fs (h : gmap Z stream_of) f : flows_inv fs h f -> conn_flow <> f /\ conn_flow <> (f + 1)%positive /\ conn_inflow <> f /\ conn_inflow <> (f + 1)%positive /\
  (forall p, is_Some (fs !! p) -> p <> f /\ p <> (f + 1)%positive).
Proof.
  intros [(w & H1 & _) (v & H2 & _) _ _ H5]. pose proof (H5 conn_flow ltac:(by eexists)). pose proof (H5 conn_inflow ltac:(by eexists)).
  split_and!; [lia..|]. intros p Hp. specialize (H5 p Hp). lia.
Qed.

Lemma keeps_new Y (c : sc) id fs s : inv Y c -> heap c !! id = None -> 0 < id -> id <= (if isPushed id then maxPushPromiseID c else maxClientStreamID c) ->
  (isPushed id = false -> curClientStreams c + 1 <= maxStreams) -> s = stateOpen \/ s = stateHalfClosedRemote ->
  (exists w1 w2, window w1 /\ window w2 /\ fs !! fresh c = Some (mkFlow w1 (Some conn_flow)) /\ fs !! (fresh c + 1)%positive = Some (mkFlow w2 (Some conn_inflow)) /\
    forall p, p <> fresh c -> p <> (fresh c + 1)%positive -> fs !! p = fls c !! p) ->
  keeps Y c (with_stream id fs s c).
Proof.
  intros Hi Hn H0 Hmax Hlim Hs (w1 & w2 & Hw1 & Hw2 & Ef & Eg & Eo).
  assert (Hns : id ∉ streams c). { intros Hx. destruct (si_live _ _ _ _ _ (v_streams _ _ _ Hi) _ Hx) as (st & E & _). congruence. }
  destruct (with_stream_fields id fs s c) as (F1 & F2 & F3 & F4 & F5 & F6). destruct (with_stream_rest id fs s c) as (R1 & R2 & R3 & R4 & R5 & R6 & R7 & R8 & R9 & R10 & R11 & R12 & R13).
  destruct (fresh_pointers _ _ _ (v_flows _ _ _ Hi)) as (N1 & N2 & N3 & N4 & N5). pose proof (counts_bound _ _ Hi) as [B1 B2].
  assert (Hold : forall i st, heap c !! i = Some st -> <[id := new_sstream (fresh c) (fresh c + 1) s]> (heap c) !! i = Some st).
  { intros i st E. rewrite lookup_insert_ne; [done|]. congruence. }
  assert (Hout : out_same (fls c) fs). { split; [by apply Eo|]. intros p w E. by apply Eo; apply N5; eexists. }
  split.
  - destruct Hi as [V1 V2 V3 V4 V5 V6]. split; rewrite ?F1, ?F2, ?F3, ?F4, ?F5, ?F6, ?R1, ?R2, ?R3, ?R4, ?R5, ?R6, ?R7.
    + destruct V1 as [W1 W2 W3 W4 W5]. split; [by rewrite Eo|by rewrite Eo| | |].
      * intros i st E. destruct (decide (i = id)) as [->|]; [rewrite lookup_insert_eq in E; injection E as <-; by exists w1|].
        rewrite lookup_insert_ne in E by done. destruct (W3 i st E) as (w & E' & Hw). exists w. rewrite Eo; [done|by apply N5; eexists..].
      * intros i st E. destruct (decide (i = id)) as [->|]; [rewrite lookup_insert_eq in E; injection E as <-; by exists w2|].
        rewrite lookup_insert_ne in E by done. destruct (W4 i st E) as (w & E' & Hw). exists w. rewrite Eo; [done|by apply N5; eexists..].
      * intros p Hp. destruct (decide (p = fresh c)); [lia|]. destruct (decide (p = (fresh c + 1)%positive)); [lia|].
        rewrite Eo in Hp by done. specialize (W5 p Hp). lia.
    + destruct V2 as [S1 S2 S3 S4 S5 S6]. split; [..|done].
      * intros i [->%elem_of_singleton|Hx]%elem_of_union; [rewrite lookup_insert_eq; eexists; split; [done|]; by destruct Hs as [-> | ->]|].
        destruct (S1 i Hx) as (st & E & ?). exists st. split; [by apply Hold|done].
      * intros i st E Hx. destruct (decide (i = id)) as [->|]; [destruct Hx; apply elem_of_union_l; by apply elem_of_singleton|].
        rewrite lookup_insert_ne in E by done. apply (S2 i); [done|]. intros Hy. apply Hx. by apply elem_of_union_r.
      * intros i st E. destruct (decide (i = id)) as [->|]; [rewrite lookup_insert_eq in E; injection E as <-; by destruct Hs as [-> | ->]|].
        rewrite lookup_insert_ne in E by done. by apply (S3 i).
      * intros i st E. destruct (decide (i = id)) as [->|]; [rewrite lookup_insert_eq in E; injection E as <-; by destruct Hs as [-> | ->]|].
        rewrite lookup_insert_ne in E by done. by apply (S4 i).
      * intros i [st E]. destruct (decide (i = id)) as [->|]; [done|]. rewrite lookup_insert_ne in E by done. apply S5. by eexists.
    + destruct V3 as [C1 C2 C3]. pose proof (odd_insert _ _ Hns) as Ho. pose proof (even_insert _ _ Hns) as He.
      destruct (isPushed id); split; rewrite ?u32_id by lia; lia.
    + eapply queues_impl; [|done]. intros wr Hl t E. destruct (Hl t E) as (st & E' & ?). exists st. split; [by apply Hold|done].
    + destruct V5 as [L1 L2 [L3 L4]]. split; [|done|split; [done|]].
      * intros i Hx. destruct (L1 i Hx) as [(st & E & ?)|(st & wr & E & ?)]; [left; exists st|right; exists st, wr]; (split; [by apply Hold|done]).
      * intros i Hx. destruct (L4 i Hx) as [st E]. exists st. by apply Hold.
    + done.
  - split; [done|]. intros i st E. exists st. rewrite F3. split; [by apply Hold|done].
  - unfold settled. rewrite R6, R13. intros [L|[L|L]]; [by left|by right; left|right; right]. eapply stuck_out; [exact Hi| |done..]. by rewrite F1.
Qed.
End keep.
