(* ===== verification/Http2ServerSteps.v ===== *)
(** The methods of a server connection that write frames keep its invariant,
    whatever scheduling they call. *)
From S2P Require Import Prelude HpackTables Http2Errors Http2DataBuffer Http2Pipe Http2Frame Http2Framer.
From S2P Require Import Http2Write Http2ServerData Http2Flow Http2WriteSched Http2Server Http2ServerInv Http2ServerKeep.

Section steps.
Context {B : Type} `{!PipeBuffer B}.
Variable newBuffer : Z -> B.
Variable srv : Server.
Variable ParseRequestURI : bytes -> bool.
Variable Available : nat -> Z.
Variable writeErr : nat -> option handler_error.

Abbreviation sc := (serverConn B).
Abbreviation inv := (inv (B := B) (maxConcurrentStreams srv)).
Abbreviation keeps := (keeps (B := B) (maxConcurrentStreams srv)).

Variable scheduleFrameWrite : sc -> fl sc.
(** Within the scheduling loop, scheduling does nothing. *)
Hypothesis loops : forall c, inFrameScheduleLoop c = true -> scheduleFrameWrite c = Ok c.
Hypothesis schedules : forall Y c c', inv Y c -> scheduleFrameWrite c = Ok c' -> keeps Y c c' /\ settled c'.

Lemma get_stream_Ok id (c : sc) st : get_stream id c = Ok st -> heap c !! id = Some st.
Proof. unfold get_stream. by destruct (heap c !! id); cbn; [intros [= ->]|]. Qed.

Lemma upd_stream_keeps Y id f (c c' : sc) : inv Y c -> minor f -> upd_stream id f c = Ok c' -> keeps Y c c'.
Proof.
  intros Hi Hf H. unfold upd_stream in H. step_in H as st E. injection H as <-. apply get_stream_Ok in E. by apply keeps_upd.
Qed.

(** Writing a frame ends with scheduling. *)
Lemma writeFrame_keeps Y wr c c' : inv Y c -> linked_req (heap c) wr -> writeFrame scheduleFrameWrite wr c = Ok c' -> keeps Y c c' /\ settled c'.
Proof.
  intros Hi Hl H. unfold writeFrame in H. cbv zeta in H. step_in H as r E. destruct r as [c1 ig].
  assert (Hk : keeps Y c c1).
  { destruct (write wr) as [[]|]; try (injection E as <- _; by apply keeps_refl).
    - step_in E as s Es. step_in E as c2 E2. injection E as <- _. eapply upd_stream_keeps; [done| |exact E2]. by intros st.
    - step_in E as s Es. step_in E as st Est. destruct (wroteHeaders st); [|injection E as <- _; by apply keeps_refl].
      destruct (decide _); [|done]. injection E as <- _. by apply keeps_refl. }
  set (c2 := if (ig : bool) then c1 else _) in H.
  assert (H2 : inv Y c2 /\ grows c1 c2).
  { unfold c2. destruct ig; [split; [apply Hk|reflexivity]|]. split.
    - apply keeps_push; [apply Hk|]. eapply linked_grows; [apply Hk|done].
    - split; [done|]. intros i st Hst. by exists st. }
  destruct (schedules _ _ _ (proj1 H2) H) as [K2 S2]. split; [|done]. split; [apply K2| |done].
  transitivity c1; [apply Hk|]. transitivity c2; [apply H2|apply K2].
Qed.

Lemma settled_keeps Y c c' : inv Y c' -> grows c c' -> settled c' -> keeps Y c c'.
Proof. by split. Qed.

Lemma on_conn_linked h w : linked_req (B := B) h (on_conn w).
Proof. by intros s [=]. Qed.

Lemma add_conn_keeps Y k (c c' : sc) ok : inv Y c -> 0 <= k -> flow_add conn_inflow k c = Ok (c', ok) -> keeps Y c c'.
Proof.
  intros Hi Hk H. unfold flow_add in H. step_in H as r E. destruct r as [fs b]. injection H as <- <-.
  destruct (fi_in _ _ _ (v_flows _ _ _ Hi)) as (w & Hw & Hr). apply keeps_in; [done|].
  destruct (add_Ok _ _ _ _ _ _ Hw E) as [[-> _]|(w' & -> & Hw' & _ & He)]; [reflexivity|]. cbn [Http2Flow.n conn] in *.
  destruct (He Hr Hk) as [H1 H2]. eapply in_change_conn; [exact Hw|]. lia.
Qed.

Lemma add_stream_keeps Y id st k (c c' : sc) ok : inv Y c -> heap c !! id = Some st -> flow_add (s_inflow st) k c = Ok (c', ok) -> keeps Y c c'.
Proof.
  intros Hi Hst H. unfold flow_add in H. step_in H as r E. destruct r as [fs b]. injection H as <- <-.
  destruct (in_pointer _ _ _ _ _ Hi Hst) as (w & Hw & Hr & N1 & N2). apply keeps_in; [done|]. by eapply in_change_add_body.
Qed.

Lemma sendWindowUpdate32_keeps Y id k c c' : inv Y c -> sendWindowUpdate32 scheduleFrameWrite id k c = Ok c' -> keeps Y c c'.
Proof.
  intros Hi H. unfold sendWindowUpdate32 in H. destruct (k =? 0); [injection H as <-; by apply keeps_refl|]. destruct (Z.ltb_spec k 0); [done|].
  step_in H as r E. destruct r as [[sid st] p]. step_in H as c1 E1. step_in H as r E2. destruct r as [c2 ok]. destruct ok; [|done]. injection H as <-.
  destruct id as [id|].
  - step_in E as st0 E0. injection E as <- <- <-. apply get_stream_Ok in E0.
    assert (Hl : linked_req (heap c) (mkReq (Some (writeWindowUpdate id (u32 k))) (Some (view id st0)) None)) by (intros s [= <-]; by exists st0).
    destruct (writeFrame_keeps Y _ _ _ Hi Hl E1) as [K1 S1].
    destruct (gr_heap _ _ (k_grows _ _ _ _ K1) _ _ E0) as (st1 & Hst1 & Hsame). eapply keeps_trans; [exact K1|].
    destruct Hsame as [_ Hs]. rewrite <- Hs in E2. eapply add_stream_keeps; [apply K1|exact Hst1|exact E2].
  - injection E as <- <- <-. destruct (writeFrame_keeps Y _ _ _ Hi (on_conn_linked _ _) E1) as [K1 S1].
    eapply keeps_trans; [exact K1|]. eapply add_conn_keeps; [apply K1| |exact E2]. lia.
Qed.

Lemma update_loop_keeps Y fuel id k c c' : inv Y c -> update_loop scheduleFrameWrite fuel id k c = Ok c' -> keeps Y c c'.
Proof.
  revert k c. induction fuel as [|fuel IH]; intros k c Hi H; cbn [update_loop] in H; destruct (maxUint31 <=? k); try done.
  - by eapply sendWindowUpdate32_keeps.
  - step_in H as c1 E1. apply (sendWindowUpdate32_keeps Y) in E1; [|done]. eapply keeps_trans; [exact E1|]. eapply IH; [apply E1|exact H].
  - by eapply sendWindowUpdate32_keeps.
Qed.

Lemma sendWindowUpdate_keeps Y id k c c' : inv Y c -> sendWindowUpdate scheduleFrameWrite id k c = Ok c' -> keeps Y c c'.
Proof. apply update_loop_keeps. Qed.

Lemma goAwayIn_keeps Y code d c c' : inv Y c -> goAwayIn scheduleFrameWrite code d c = Ok c' -> keeps Y c c'.
Proof.
  intros Hi H. unfold goAwayIn in H. destruct (inGoAway c); [injection H as <-; by apply keeps_refl|]. cbv zeta in H.
  set (c1 := if d =? 0 then c else _) in H. assert (K1 : keeps Y c c1) by (unfold c1; destruct (d =? 0); [by apply keeps_refl|by apply keeps_effect]).
  match type of H with scheduleFrameWrite ?x = _ => assert (K2 : inv Y x /\ grows c1 x) end.
  { split; [destruct (k_inv _ _ _ _ K1); by split|]. split; [done|]. intros i st Hst. by exists st. }
  destruct (schedules _ _ _ (proj1 K2) H) as [K3 S3]. apply settled_keeps; [apply K3| |done].
  transitivity c1; [apply K1|]. etransitivity; [apply K2|apply K3].
Qed.

(** ** Closing streams *)

Lemma minor_body (f : option (pipe B body_error) -> option (pipe B body_error)) : minor (fun st => set_s_body (f (s_body st)) st).
Proof. by intros st. Qed.

Lemma minor_reset : minor (B := B) (set_resetQueued true).
Proof. by intros st. Qed.

Lemma minor_cw : minor (B := B) (set_cw_closed true).
Proof. by intros st. Qed.

(** Once the stream is marked as closed. *)
Lemma closeStream_rest Y id err st c c' : heap c !! id = Some st -> inv Y (close_part id st c) ->
  closeStream srv scheduleFrameWrite id err c = Ok c' -> keeps Y (close_part id st c) c'.
Proof.
  intros E Hi H. unfold closeStream in H. rewrite (get_stream_Some _ _ _ E) in H. cbn [mbind outcome_bind] in H.
  destruct (bool_decide (s_state st = stateIdle) || bool_decide (s_state st = stateClosed)); [done|].
  rewrite (upd_stream_Some _ _ _ _ E) in H. cbn [mbind outcome_bind] in H. cbv zeta in H.
  change (set_streams _ _) with (close_part id st c) in H. step_in H as c1 E1.
  assert (K1 : keeps Y (close_part id st c) c1).
  { destruct (decide _); [|injection E1 as <-; by apply keeps_refl].
    set (c2 := if negb (IdleTimeout srv =? 0) then _ else _) in E1.
    assert (K2 : keeps Y (close_part id st c) c2).
    { unfold c2. assert (K0 : keeps Y (close_part id st c) (log_effect (EConnState false) (close_part id st c))) by (by apply keeps_effect).
      destruct (negb _); [|done]. eapply keeps_trans; [exact K0|]. apply keeps_effect; [apply K0|done]. }
    destruct (negb (keepAlives c2)); [|by injection E1 as <-]. eapply keeps_trans; [exact K2|]. eapply goAwayIn_keeps; [apply K2|exact E1]. }
  step_in H as c2 E2.
  assert (K2 : keeps Y (close_part id st c) c2).
  { destruct (s_body st) as [p|]; [|injection E2 as <-; done]. step_in E2 as c3 E3. apply (sendWindowUpdate_keeps Y) in E3; [|apply K1].
    eapply keeps_trans; [exact K1|]. eapply keeps_trans; [exact E3|]. eapply upd_stream_keeps; [apply E3| |exact E2].
    exact (minor_body (fmap (CloseWithError err))). }
  step_in H as st2 E3. destruct (cw_closed st2); [done|]. step_in H as c3 E4. injection H as <-.
  apply (upd_stream_keeps Y) in E4; [|apply K2|exact minor_cw]. eapply keeps_trans; [exact K2|]. eapply keeps_trans; [exact E4|].
  apply keeps_drop_queue. apply E4.
Qed.

Lemma closeStream_keeps Y id err c c' : inv Y c -> closeStream srv scheduleFrameWrite id err c = Ok c' -> keeps Y c c'.
Proof.
  intros Hi H. destruct (heap c !! id) as [st|] eqn:E; [|unfold closeStream, get_stream in H; by rewrite E in H].
  assert (Hs : s_state st <> stateClosed).
  { unfold closeStream in H. rewrite (get_stream_Some _ _ _ E) in H. cbn [mbind outcome_bind] in H. intros Hc. by rewrite Hc in H. }
  pose proof (keeps_close _ _ _ _ _ Hi E Hs) as K. eapply keeps_trans; [exact K|]. eapply closeStream_rest; [exact E|apply K|exact H].
Qed.

Lemma resetStream_keeps Y id code c c' : inv Y c -> resetStream scheduleFrameWrite id code c = Ok c' ->
  inv (Y ∖ {[id]}) c' /\ grows c c' /\ settled c'.
Proof.
  intros Hi H. unfold resetStream in H. step_in H as c1 E1. destruct (writeFrame_keeps Y _ _ _ Hi (on_conn_linked _ _) E1) as [K1 S1].
  assert (Hw : forall c2, inv Y c2 -> (forall st, heap c2 !! id = Some st -> s_state st = stateHalfClosedLocal -> resetQueued st = true) -> inv (Y ∖ {[id]}) c2).
  { intros c2 [V1 V2 V3 V4 V5 V6] Hr. split; [done| |done..]. destruct V2 as [T1 T2 T3 T4 T5 T6]. split; [done..| |done|done].
    intros i st E Hl Hy. destruct (decide (i = id)) as [->|Hne]; [by apply Hr|]. apply (T4 i); [done|done|]. intros Hx. apply Hy, elem_of_difference.
    split; [done|]. by rewrite elem_of_singleton. }
  destruct (decide (id ∈ streams c1)).
  - unfold upd_stream in H. step_in H as st E. injection H as <-. apply get_stream_Ok in E.
    pose proof (keeps_upd _ _ _ _ _ _ (k_inv _ _ _ _ K1) E minor_reset) as K2. split; [|split].
    + apply Hw; [apply K2|]. cbn [heap set_heap]. intros st' E'. rewrite lookup_insert_eq in E'. by injection E' as <-.
    + etransitivity; [apply K1|apply K2].
    + by apply (k_settled _ _ _ _ K2).
  - injection H as <-. split; [|split; [apply K1|done]]. apply Hw; [apply K1|]. intros st E Hl.
    pose proof (si_dead _ _ _ _ _ (v_streams _ _ _ (k_inv _ _ _ _ K1)) _ _ E) as Hd. rewrite Hd in Hl by done. done.
Qed.

(** ** Frames that are written *)

Lemma reply_keeps Y wr err (c c' : sc) : inv Y c -> reply wr err c = Ok c' -> keeps Y c c'.
Proof.
  intros Hi H. unfold reply in H. step_in H as r E. destruct r as [w ch]. injection H as <-. destruct ch; [by apply keeps_effect|by apply keeps_refl].
Qed.

Lemma drop_flight_grows (c : sc) : grows c (drop_flight c).
Proof. split; [done|]. intros id st E. by exists st. Qed.

Lemma wroteFrame_keeps Y wr err c c' : inv Y c -> inflight c = Some wr -> wroteFrame srv scheduleFrameWrite wr err c = Ok c' ->
  inv Y c' /\ grows c c' /\ settled c'.
Proof.
  intros Hi Hf H. unfold wroteFrame in H. destruct (negb (writingFrame c)); [done|]. cbv zeta in H. fold (drop_flight c) in H.
  step_in H as b Eb. apply writeEndsStream_ends in Eb as ->. step_in H as c1 E1.
  assert (K1 : inv Y c1 /\ grows c c1).
  { destruct (ends wr) eqn:Ee.
    - step_in E1 as s Es. apply or_panic_Ok in Es. step_in E1 as st Est. apply get_stream_Ok in Est. change (heap (drop_flight c)) with (heap c) in Est.
      assert (Hid : forall id, of_stream id wr -> id = st_id s) by (intros id (s' & Es' & <-); congruence).
      destruct (s_state st) eqn:Est2.
      + by destruct (si_idle _ _ _ _ _ (v_streams _ _ _ Hi) _ _ Est).
      + step_in E1 as c2 E2. unfold upd_stream, get_stream in E2. change (heap (drop_flight c)) with (heap c) in E2. rewrite Est in E2.
        cbn [or_panic mbind outcome_bind] in E2. injection E2 as <-. pose proof (keeps_local _ _ _ _ _ Hi Est Est2) as K2.
        match type of E1 with resetStream _ _ _ ?x = _ => change x with (drop_flight (set_heap (<[st_id s := set_s_state stateHalfClosedLocal st]> (heap c)) c)) in E1 end.
        apply (resetStream_keeps ({[st_id s]} ∪ Y)) in E1 as (K3 & G3 & _).
        * split; [|transitivity (set_heap (<[st_id s := set_s_state stateHalfClosedLocal st]> (heap c)) c); [apply K2|]; etransitivity; [apply drop_flight_grows|done]].
          eapply inv_weaken; [exact K3|]. intros x [Hx Hn]%elem_of_difference. apply elem_of_union in Hx as [Hx|Hx]; [by destruct Hn|done].
        * apply inv_drop_flight; [apply K2|]. intros wr' id st' Hw _ Ho Hs. cbn [inflight set_heap] in Hw. assert (wr' = wr) as -> by congruence.
          rewrite (Hid id Ho) in Hs. cbn [heap set_heap] in Hs. rewrite lookup_insert_eq in Hs. injection Hs as <-. by left.
      + injection E1 as <-. split; [|apply drop_flight_grows]. apply inv_drop_flight; [done|]. intros wr' id st' Hw _ Ho Hs.
        assert (wr' = wr) as -> by congruence. rewrite (Hid id Ho) in Hs. assert (st' = st) as -> by congruence. by left.
      + pose proof (keeps_close _ _ _ _ _ Hi Est ltac:(congruence)) as K2.
        assert (Ecp : close_part (st_id s) st (drop_flight c) = drop_flight (close_part (st_id s) st c)) by (unfold close_part; by destruct (isPushed _)).
        apply (closeStream_rest Y _ _ st) in E1; [|done|].
        * split; [apply E1|]. etransitivity; [apply K2|]. etransitivity; [apply drop_flight_grows|]. rewrite <- Ecp. apply E1.
        * rewrite Ecp. apply inv_drop_flight; [apply K2|]. intros wr' id st' Hw _ Ho Hs.
          assert (Hw' : inflight c = Some wr') by (revert Hw; unfold close_part; by destruct (isPushed _)). assert (wr' = wr) as -> by congruence.
          rewrite (Hid id Ho) in Hs. right. revert Hs. unfold close_part. destruct (isPushed _); cbn [heap set_streams set_curPushedStreams set_curClientStreams set_heap]; rewrite lookup_insert_eq; by intros [= <-].
      + injection E1 as <-. split; [|apply drop_flight_grows]. apply inv_drop_flight; [done|]. intros wr' id st' Hw _ Ho Hs.
        assert (wr' = wr) as -> by congruence. rewrite (Hid id Ho) in Hs. assert (st' = st) as -> by congruence. by right.
    - assert (Hd : inv Y (drop_flight c)) by (apply inv_drop_flight; [done|]; intros wr' id st' Hw He; congruence).
      assert (Hc : forall id e, closeStream srv scheduleFrameWrite id e (drop_flight c) = Ok c1 -> inv Y c1 /\ grows c c1).
      { intros id e Hcl. apply (closeStream_keeps Y) in Hcl; [|done]. split; [apply Hcl|]. etransitivity; [apply drop_flight_grows|apply Hcl]. }
      assert (Ho : Ok (drop_flight c) = Ok (E := Empty_set) c1 -> inv Y c1 /\ grows c c1) by (intros [= <-]; split; [done|apply drop_flight_grows]).
      destruct (write wr) as [[]|]; try (by apply Ho).
      + step_in E1 as s Es. by eapply Hc.
      + destruct (decide _); [by eapply Hc|by apply Ho]. }
  step_in H as c2 E2. apply (reply_keeps Y) in E2; [|apply K1]. destruct (schedules _ _ _ (k_inv _ _ _ _ E2) H) as [K3 S3].
  split; [apply K3|split; [|done]]. etransitivity; [apply K1|]. etransitivity; [apply E2|apply K3].
Qed.

(** ** New streams and frames that are started *)

Lemma newStream_shape id pid s (c c' : sc) : newStream srv id pid s c = Ok c' ->
  exists k1 k2 fs1 ok1 fs2 ok2,
    add (fresh c) k1 (<[(fresh c + 1)%positive := mkFlow 0 (Some conn_inflow)]> (<[fresh c := mkFlow 0 (Some conn_flow)]> (fls c))) = Ok (fs1, ok1) /\
    add (fresh c + 1)%positive k2 fs1 = Ok (fs2, ok2) /\
    (c' = with_stream id fs2 s c \/ c' = log_effect (EConnState true) (with_stream id fs2 s c)).
Proof.
  intros H. unfold newStream in H. destruct (id =? 0); [done|]. cbv zeta in H.
  step_in H as r1 E1. destruct r1 as [c1 ok1]. step_in H as r2 E2. destruct r2 as [c2 ok2]. unfold flow_add in E1, E2.
  step_in E1 as r1 F1. destruct r1 as [fs1 b1]. injection E1 as <- <-. step_in E2 as r2 F2. destruct r2 as [fs2 b2]. injection E2 as <- <-. injection H as H.
  eexists _, _, _, _, _, _. split; [exact F1|]. split; [exact F2|]. unfold with_stream, new_sstream. rewrite <- H.
  destruct (isPushed id); (destruct (curOpenStreams _ =? 1); [by right|by left]).
Qed.

Lemma newStream_Ok Y id pid s (c c' : sc) : inv Y c -> heap c !! id = None -> 0 < id ->
  id <= (if isPushed id then maxPushPromiseID c else maxClientStreamID c) ->
  (isPushed id = false -> curClientStreams c + 1 <= maxConcurrentStreams srv) -> s = stateOpen \/ s = stateHalfClosedRemote ->
  newStream srv id pid s c = Ok c' ->
  keeps Y c c' /\ handled (log c') = handled (log c) /\ started (log c') = started (log c) /\ inflight c' = inflight c /\
  exists f g, heap c' = <[id := new_sstream f g s]> (heap c).
Proof.
  intros Hi Hn H0 Hmax Hlim Hs H. apply newStream_shape in H as (k1 & k2 & fs1 & ok1 & fs2 & ok2 & F1 & F2 & Hc).
  destruct (fresh_pointers _ _ _ (v_flows _ _ _ Hi)) as (N1 & N2 & N3 & N4 & N5).
  assert (Hne : fresh c <> (fresh c + 1)%positive) by lia. pose proof (flow_pair _ _ _ _ _ _ _ _ _ Hne F1 F2) as Hp.
  pose proof (keeps_new _ _ _ _ fs2 s Hi Hn H0 Hmax Hlim Hs Hp) as K. destruct (with_stream_fields id fs2 s c) as (_ & _ & Hh & _).
  destruct (with_stream_rest id fs2 s c) as (_ & _ & _ & Hfl & Hlog & _).
  destruct Hc as [-> | ->].
  - split_and!; [done|by rewrite Hlog|by rewrite Hlog|done|]. eexists _, _. exact Hh.
  - split_and!; [eapply keeps_trans; [exact K|]; by apply keeps_effect; [apply K|]|..].
    + change (handled (log (with_stream id fs2 s c)) = handled (log c)). by rewrite Hlog.
    + change (started (log (with_stream id fs2 s c)) = started (log c)). by rewrite Hlog.
    + done.
    + eexists _, _. exact Hh.
Qed.

Lemma unknown Y (c : sc) id : inv Y c -> (if isPushed id then maxPushPromiseID c else maxClientStreamID c) < id -> heap c !! id = None.
Proof.
  intros Hi Hlt. destruct (heap c !! id) as [st|] eqn:E; [|done]. destruct (si_id _ _ _ _ _ (v_streams _ _ _ Hi) id ltac:(by eexists)). lia.
Qed.

Lemma not_handled Y (c : sc) id : inv Y c -> heap c !! id = None -> id ∉ handled (log c).
Proof. intros Hi E Hx. destruct (li_handled _ _ _ (v_log _ _ _ Hi)) as [_ H]. destruct (H id Hx) as [st Hst]. congruence. Qed.

Lemma keeps_maxPush Y (c : sc) m : inv Y c -> maxPushPromiseID c <= m < 2 ^ 31 -> isPushed m = true -> keeps Y c (set_maxPushPromiseID m c).
Proof.
  intros Hi Hm Hp. split.
  - destruct Hi as [V1 V2 V3 V4 V5 V6]. split; [done| |done..]. destruct V2 as [S1 S2 S3 S4 S5 S6]. split; [done..| |].
    + intros id Hid. destruct (S5 id Hid) as [H1 H2]. cbn [maxPushPromiseID maxClientStreamID set_maxPushPromiseID]. destruct (isPushed id); lia.
    + cbn [maxPushPromiseID maxClientStreamID set_maxPushPromiseID]. split_and!; [lia..|done].
  - split; [done|]. intros id st E. by exists st.
  - intros [L|[L|L]]; [by left|by right; left|right; right; exact L].
Qed.

Lemma keeps_maxClient Y (c : sc) m : inv Y c -> maxClientStreamID c <= m < 2 ^ 31 -> keeps Y c (set_maxClientStreamID m c).
Proof.
  intros Hi Hm. split.
  - destruct Hi as [V1 V2 V3 V4 V5 V6]. split; [done| |done..]. destruct V2 as [S1 S2 S3 S4 S5 S6]. split; [done..| |].
    + intros id Hid. destruct (S5 id Hid) as [H1 H2]. cbn [maxPushPromiseID maxClientStreamID set_maxClientStreamID]. destruct (isPushed id); lia.
    + cbn [maxPushPromiseID maxClientStreamID set_maxClientStreamID]. split_and!; [lia..|apply S6].
  - split; [done|]. intros id st E. by exists st.
  - intros [L|[L|L]]; [by left|by right; left|right; right; exact L].
Qed.

Lemma allocatePromisedID_keeps Y w c c' r : inv Y c -> allocatePromisedID srv ParseRequestURI scheduleFrameWrite w c = Ok (c', r) ->
  keeps Y c c' /\ match r with inl _ => started (log c') = started (log c) /\ inflight c' = inflight c
    | inr _ => inFrameScheduleLoop c = true -> writingFrame c' = writingFrame c end.
Proof.
  intros Hi H. unfold allocatePromisedID in H. destruct (negb (pushEnabled c)); [injection H as <- <-; split; [by apply keeps_refl|done]|].
  destruct (clientMaxStreams c <? _); [injection H as <- <-; split; [by apply keeps_refl|done]|].
  destruct (si_max _ _ _ _ _ (v_streams _ _ _ Hi)) as (_ & Hm & He). rewrite u32_id in H by lia.
  destruct (Z.leb_spec (2 ^ 31) (maxPushPromiseID c + 2)).
  { step_in H as c1 E1. injection H as <- <-. split; [by eapply goAwayIn_keeps|]. intros Hloop. unfold startGracefulShutdownInternal, goAwayIn in E1.
    destruct (inGoAway c); [by injection E1 as <-|]. rewrite loops in E1 by done. by injection E1 as <-. }
  cbv zeta in H. step_in H as c1 E1. cbn [maxPushPromiseID set_maxPushPromiseID] in E1, H. set (id := maxPushPromiseID c + 2) in *.
  assert (Hp : isPushed id = true). { unfold isPushed, id in *. apply Z.eqb_eq in He. apply Z.eqb_eq. by rewrite Zplus_mod, He. }
  pose proof (keeps_maxPush _ c id Hi ltac:(lia) Hp) as K1.
  assert (Hn : heap c !! id = None) by (eapply unknown; [exact Hi|]; rewrite Hp; lia).
  destruct (newStream_Ok Y _ _ _ _ _ (k_inv _ _ _ _ K1) Hn ltac:(lia) ltac:(rewrite Hp; reflexivity) ltac:(congruence) ltac:(by right) E1) as (K2 & Hh & Hst & Hfl & f & g & Hheap).
  destruct (newWriterAndRequestNoBody _ _) as [req|]; [|done]. injection H as <- <-.
  assert (K3 : keeps Y c1 (log_effect (ERunHandler id req ServeHTTP) c1)).
  { apply keeps_handler; [apply K2| |].
    - rewrite Hheap, lookup_insert_eq. by eexists.
    - rewrite Hh. exact (not_handled Y c _ Hi Hn). }
  split; [eapply keeps_trans; [exact K1|]; by eapply keeps_trans|]. split; [|done].
  change (started (log c1) = started (log c)). by rewrite Hst.
Qed.

Lemma allowed_benign st wr : send_allowed st wr = true -> silent st -> benign wr.
Proof. unfold send_allowed, benign. intros H [-> | ->]; [|done]. by destruct (write wr) as [[]|]. Qed.

(** The frame [wr] goes out. *)
Definition in_flight (wr : FrameWriteRequest) (c : sc) : sc :=
  set_inflight (Some wr) (set_writingFrameAsync true (log_effect (EStarted wr) (set_frames (S (frames c)) (set_needsFrameFlush true (set_writingFrame true c))))).

Lemma inv_in_flight Y c wr : inv Y c -> inflight c = None -> linked_req (heap c) wr ->
  (forall id, of_stream id wr -> ended id (started (log c)) -> benign wr) -> inv Y (in_flight wr c) /\ grows c (in_flight wr c).
Proof.
  intros [V1 V2 V3 V4 V5 V6] Hf Hl Hb. split; [|split; [done|]; intros id st E; by exists st].
  split; [done|done|done| | |done]; cbn [heap writeSched inflight log in_flight log_effect set_log set_inflight set_writingFrameAsync set_frames set_needsFrameFlush set_writingFrame].
  - destruct V4 as [Q1 Q2 Q3 Q4 Q5]. split; [done..|]. by intros wr' [= <-].
  - destruct V5 as [L1 L2 L3]. change (started (EStarted wr :: log c)) with (wr :: started (log c)). split.
    + intros id Hid. apply Exists_cons in Hid as [[He Ho]|Hid].
      * right. destruct Ho as (s & Es & <-). destruct (Hl s Es) as (st & Est & _). exists st, wr. split_and!; [done|done|done|by exists s].
      * left. destruct (L1 id Hid) as [?|(st & wr' & _ & Hw & _)]; [done|congruence].
    + split; [|done]. intros id Ho He. by eapply Hb.
    + exact L3.
Qed.

(** What [startFrameWrite] does with a push before it writes. *)
Definition prepare (wr : FrameWriteRequest) (c : sc) : fl (sc * (FrameWriteRequest + unit)) :=
  match write wr with
  | Some (write_push w) =>
      '(c, r) ← allocatePromisedID srv ParseRequestURI scheduleFrameWrite w c;
      match r with
      | inl id => Ok (c, inl (mkReq (Some (write_push (set_promisedID id w))) (req_stream wr) (done wr)))
      | inr e => c ← reply wr (Some e) (set_writingFrameAsync false c); Ok (c, inr tt)
      end
  | _ => Ok (c, inl wr)
  end.

Lemma prepare_keeps Y wr c c1 r : inv Y c -> inFrameScheduleLoop c = true -> linked_req (heap c) wr -> writingFrame c = false ->
  (forall id, of_stream id wr -> ended id (started (log c)) -> benign wr) -> prepare wr c = Ok (c1, r) ->
  inv Y c1 /\ grows c c1 /\ match r with inl wr' => inv Y (in_flight wr' c1) | inr _ => True end.
Proof.
  intros Hi Hloop Hl Hw Hb Er.
  assert (Hf : inflight c = None). { destruct (v_flight _ _ _ Hi) as [Hx _]. rewrite Hw in Hx. by destruct (inflight c). }
  assert (Hsame : Ok (E := Empty_set) (c, inl (B := unit) wr) = Ok (c1, r) -> inv Y c1 /\ grows c c1 /\ match r with inl wr' => inv Y (in_flight wr' c1) | inr _ => True end).
  { intros [= <- <-]. split; [done|]. split; [done|]. by apply inv_in_flight. }
  unfold prepare in Er. destruct (write wr) as [w|] eqn:Ewr; [|by apply Hsame]. destruct w; try (by apply Hsame). clear Hsame.
  step_in Er as r1 E1. destruct r1 as [c2 r1]. destruct (allocatePromisedID_keeps Y _ _ _ _ Hi E1) as [K2 K3]. destruct r1 as [pid|e].
  - injection Er as <- <-. destruct K3 as [Hst Hfl]. split; [apply K2|]. split; [apply K2|]. apply inv_in_flight; [apply K2|congruence|apply (linked_grows c); [apply K2|exact Hl]|].
    intros id Ho He. rewrite Hst in He. exfalso. specialize (Hb id Ho He). unfold benign in Hb. by rewrite Ewr in Hb.
  - step_in Er as c3 E3. injection Er as <- <-.
    apply (reply_keeps Y) in E3; [split; [apply E3|split; [|done]]; transitivity c2; [apply K2|]; transitivity (set_writingFrameAsync false c2);
      [split; [done|]; intros id st Est; by exists st|apply E3]|].
    rewrite Hw in K3. specialize (K3 Hloop). destruct K2 as [[V1 V2 V3 V4 V5 [V6 _]] _ _]. split; try done.
Qed.

(** The check of the stream's state keeps frames from following its end. *)
Lemma allowed_orderly Y wr (c : sc) : inv Y c -> writingFrame c = false ->
  match req_stream wr with None => Ok true | Some s => st ← get_stream (st_id s) c; Ok (E := Empty_set) (send_allowed (s_state st) wr) end = Ok true ->
  forall id, of_stream id wr -> ended id (started (log c)) -> benign wr.
Proof.
  intros Hi Hw Eb id (s & Es & <-) He. rewrite Es in Eb. step_in Eb as st Est. apply get_stream_Ok in Est. injection Eb as Eb.
  destruct (li_ended _ _ _ (v_log _ _ _ Hi) _ He) as [(st' & Est' & Hs)|(? & ? & _ & Hx & _)].
  - assert (st' = st) as -> by congruence. by eapply allowed_benign.
  - destruct (v_flight _ _ _ Hi) as [Hy _]. rewrite Hw, Hx in Hy. done.
Qed.

Lemma startFrameWrite_keeps Y wr c c' : inv Y c -> inFrameScheduleLoop c = true -> linked_req (heap c) wr ->
  startFrameWrite srv ParseRequestURI Available writeErr scheduleFrameWrite wr c = Ok c' -> inv Y c' /\ grows c c'.
Proof.
  intros Hi Hloop Hl H. unfold startFrameWrite in H. destruct (writingFrame c) eqn:Hw; [done|].
  step_in H as b Eb. destruct b; [|done]. cbn [negb] in H. step_in H as r Er. destruct r as [c1 r].
  destruct (prepare_keeps _ _ _ _ _ Hi Hloop Hl Hw (allowed_orderly _ _ _ Hi Hw Eb) Er) as (Hi1 & G1 & K1).
  destruct r as [wr'|]; [|injection H as <-; by split]. step_in H as w Ewr. cbv zeta in H.
  assert (G2 : grows c (in_flight wr' c1)) by (transitivity c1; [done|]; split; [done|]; intros id st Est; by exists st).
  destruct (staysWithinBuffer w (Available (frames c1))); [|injection H as <-; by split].
  assert (H' : wroteFrame srv scheduleFrameWrite wr' (writeErr (frames c1)) (in_flight wr' c1) = Ok c') by exact H.
  apply (wroteFrame_keeps Y) in H' as (K & G & _); [|done|done]. split; [done|]. by etransitivity.
Qed.
End steps.
