(* ===== verification/Http2ServerFuel.v ===== *)
(** The scheduling loop of a server connection keeps its invariant, leaves nothing
    to send, and ends: [http2/server.go]. *)

From S2P Require Import Prelude HpackTables Http2Errors Http2DataBuffer Http2Pipe Http2Frame Http2Framer Http2Write Http2ServerData Http2Flow Http2WriteSched Http2Server Http2ServerInv Http2ServerKeep Http2ServerSteps.

Section loop.
Context {B : Type} `{!PipeBuffer B}.
Variable srv : Server.
Variable ParseRequestURI : bytes -> bool.
Variable Available : nat -> Z.
Variable writeErr : nat -> option handler_error.
Variable range_queues : nat -> gmap Z writeQueue -> list Z.
Hypothesis range_keys : forall k m, range_queues k m ≡ₚ (map_to_list m).*1.

Abbreviation sc := (serverConn B).
Abbreviation inv := (inv (B := B) (maxConcurrentStreams srv)).
Abbreviation keeps := (keeps (B := B) (maxConcurrentStreams srv)).
Abbreviation start := (startFrameWrite srv ParseRequestURI Available writeErr).
Abbreviation sched := (scheduleFrameWrite srv ParseRequestURI Available writeErr range_queues).

(** * Taking a frame *)

Lemma linked_flows Y (c : sc) st id : inv Y c -> heap c !! id = Some st -> exists ws wc, linked (fls c) (s_flow st) conn_flow ws wc /\ window ws /\ window wc.
Proof.
  intros Hi E. destruct (v_flows _ _ _ Hi) as [(wc & Hc & Hwc) _ H3 _ _]. destruct (H3 _ _ E) as (ws & Hs & Hws). exists ws, wc.
  split; [|done]. split; [|done]. intros Hx. congruence.
Qed.

Lemma queues_ok Y (c : sc) id : inv Y c -> queue_ok (fls c) (queue_of id (writeSched c)).
Proof.
  intros Hi. pose proof (qi_ids _ _ _ (v_queues _ _ _ Hi) id) as Hq. destruct (decide (id = 0)) as [->|Hne].
  { unfold queue_of. rewrite (qi_none _ _ _ (v_queues _ _ _ Hi)). constructor. }
  eapply Forall_impl; [exact Hq|]. intros wr [Hid Hl] Hu. destruct (is_unlimited _ Hu) as (sid & p & e & Hw & _).
  destruct (req_stream wr) as [s|] eqn:Es; [|unfold StreamID in Hid; by rewrite Es, Hw in Hid].
  destruct (Hl s Es) as (st & Est & Hf). destruct (linked_flows _ _ _ _ Hi Est) as (ws & wc & Hlk & Hws & Hwc).
  exists s, conn_flow, ws, wc. split; [done|]. by rewrite Hf.
Qed.

(** The windows pay for a frame. *)
Lemma flows_debited Y (c : sc) s id st ws wc k : inv Y c -> heap c !! id = Some st -> st_flow s = s_flow st -> linked (fls c) (st_flow s) conn_flow ws wc ->
  0 <= k <= Z.min ws wc -> flows_inv (debited (fls c) s conn_flow ws wc k) (heap c) (fresh c).
Proof.
  intros Hi E Hs (Hne & Hfl & Hc) Hk. destruct (v_flows _ _ _ Hi) as [(wc' & Hc' & Hwc) (w & H2 & Hw) H3 H4 H5].
  rewrite Hc in Hc'. injection Hc' as <-. destruct (H3 _ _ E) as (ws' & Hs' & Hws). rewrite <- Hs, Hfl in Hs'. injection Hs' as <-. unfold window in *.
  assert (Hin : conn_inflow <> st_flow s) by congruence.
  unfold debited. split.
  - exists (wc - k). rewrite lookup_insert_eq. split; [done|]. unfold window. lia.
  - exists w. by rewrite !lookup_insert_ne.
  - intros i st' E'. destruct (H3 _ _ E') as (v & Hv & Hvw). rewrite lookup_insert_ne by congruence.
    destruct (decide (st_flow s = s_flow st')) as [<-|]; [rewrite lookup_insert_eq; exists (ws - k); split; [done|]; unfold window; lia|].
    rewrite lookup_insert_ne by done. by exists v.
  - intros i st' E'. destruct (H4 _ _ E') as (v & Hv & Hvw). rewrite lookup_insert_ne by congruence.
    rewrite lookup_insert_ne; [by exists v|]. intros Hx. rewrite <- Hx, Hfl in Hv. done.
  - intros p [x Hx]. destruct (decide (conn_flow = p)) as [<-|]; [apply H5; by eexists|]. rewrite lookup_insert_ne in Hx by done.
    destruct (decide (st_flow s = p)) as [<-|]; [apply H5; by eexists|]. rewrite lookup_insert_ne in Hx by done. apply H5. by eexists.
Qed.

Lemma popped_ok Y (c : sc) id wr q' fs' : inv Y c -> popped (fls c) wr (queue_of id (writeSched c)) q' fs' ->
  flows_inv fs' (heap c) (fresh c) /\ linked_req (heap c) wr /\ StreamID wr = id /\ Forall (fun wr => StreamID wr = id /\ linked_req (heap c) wr) q'.
Proof.
  intros Hi Hp. pose proof (qi_ids _ _ _ (v_queues _ _ _ Hi) id) as Hq. remember (queue_of id (writeSched c)) as q eqn:Eq. clear Eq.
  assert (Hpay : forall s cc ws wc wr' k, linked_req (heap c) wr' -> req_linked (fls c) wr' s cc ws wc -> 0 <= k -> k <= Z.min ws wc ->
            flows_inv (debited (fls c) s cc ws wc k) (heap c) (fresh c)).
  { intros s cc ws wc wr' k Hl (Hs & Hlk & _) H0 Hk. destruct (Hl s Hs) as (st & Est & Hf).
    assert (cc = conn_flow) as ->. { destruct Hlk as (_ & Hfl & _). destruct (fi_out _ _ _ (v_flows _ _ _ Hi) _ _ Est) as (v & Hv & _). congruence. }
    by eapply flows_debited. }
  destruct Hp as [wr q|wr q s cc ws wc Hu Hl Hk|sid p e s d q cc ws wc a Hl Ha Hle]; apply Forall_cons in Hq as [[Hid Hw] Hq].
  - split; [apply (v_flows _ _ _ Hi)|]. by split_and!.
  - split; [|by split_and!]. eapply Hpay; [exact Hw|exact Hl| |done]. unfold DataSize. destruct (write wr) as [[]|]; try lia. apply len_nonneg.
  - split; [|split_and!; [done|done|]].
    + eapply Hpay; [exact Hw|exact Hl|lia|done].
    + apply Forall_cons. by split.
Qed.

Lemma same_conn (c : sc) : set_fls (fls c) (set_writeSched (writeSched c) c) = c.
Proof. by destruct c. Qed.

Lemma pop_Ok Y (c c' : sc) r : inv Y c -> pop range_queues c = Ok (r, c') ->
  match r with
  | Some wr => inv Y c' /\ grows c c' /\ linked_req (heap c') wr
  | None => c' = c /\ (pop_disabled c \/ Random.zero (writeSched c) = [] /\
      forall id q, Random.sq (writeSched c) !! id = Some q -> blocked (maxFrameSize c) (fls c) q)
  end.
Proof.
  intros Hi H. unfold pop in H. destruct (negb (inGoAway c) || (goAwayCode c =? ErrCodeNo)) eqn:Ed.
  - step_in H as x Ex. destruct x as [[[wr ok] ws] fs].
    destruct (Pop_cases (range_queues (frames c)) (maxFrameSize c) (fls c) (writeSched c) (fun id => queues_ok Y c id Hi) (range_keys _ _))
      as [(wr0 & z & Ez & Hp)|[(Hp & Ez & Hb)|(wr0 & id & q' & fs' & Ez & Hp & Hpp & _)]]; rewrite Hp in Ex; injection Ex as <- <- <- <-; injection H as <- <-.
    + assert (Hi2 := Hi). destruct Hi2 as [V1 V2 V3 [Q1 Q2 Q3 Q4 Q5] V5 V6]. rewrite Ez in Q3. apply Forall_cons in Q3 as [[_ Hl] Q3].
      split; [|split; [split; [done|]; intros i st E; by exists st|done]]. by split.
    + split; [apply same_conn|]. right. by split.
    + destruct (popped_ok _ _ _ _ _ _ Hi Hpp) as (Hf & Hl & Hid & Hq). assert (Hi2 := Hi). destruct Hi2 as [V1 V2 V3 [Q1 Q2 Q3 Q4 Q5] V5 V6].
      assert (Hne : id <> 0). { intros ->. assert (E0 : queue_of 0 (writeSched c) = []) by (unfold queue_of; by rewrite Q2). rewrite E0 in Hpp. inversion Hpp. }
      split; [|split; [split; [done|]; intros i st E; by exists st|done]]. split; [done|done|done| |done|done].
      cbn [heap writeSched inflight set_fls set_writeSched]. split; cbn [Random.queuePool Random.sq Random.zero]; [done| |done| |done].
      * by rewrite lookup_insert_ne.
      * intros i. unfold queue_of. cbn [Random.sq]. destruct (decide (i = id)) as [->|]; [by rewrite lookup_insert_eq|]. rewrite lookup_insert_ne by done. apply Q4.
  - injection H as <- <-. split; [done|]. left. apply orb_false_iff in Ed as [E1 E2]. apply negb_false_iff in E1. by apply Z.eqb_neq in E2.
Qed.

(** * The loop *)

Section rounds.
Variable S : sc -> fl sc.
Hypothesis loops : forall c, inFrameScheduleLoop c = true -> S c = Ok c.
Hypothesis schedules : forall Y c c', inv Y c -> S c = Ok c' -> keeps Y c c' /\ settled c'.

Lemma start_ok Y wr c c' : inv Y c -> inFrameScheduleLoop c = true -> linked_req (heap c) wr -> start S wr c = Ok c' ->
  inv Y c' /\ grows c c' /\ inFrameScheduleLoop c' = true.
Proof.
  intros Hi Hl Hw H. apply (startFrameWrite_keeps _ _ _ _ _ loops schedules Y) in H as [H1 H2]; [|done..]. split_and!; [done|done|]. by rewrite (gr_loop _ _ H2).
Qed.

Lemma schedule_loop_ok Y fuel c c' : inv Y c -> inFrameScheduleLoop c = true -> schedule_loop range_queues (start S) fuel c = Ok c' ->
  inv Y c' /\ grows c c' /\ (writingFrame c' = true \/ stuck c').
Proof.
  revert c. induction fuel as [|fuel IH]; intros c Hi Hloop H; cbn [schedule_loop] in H.
  { destruct (writingFrameAsync c) eqn:Ea; [|done]. injection H as <-. split_and!; [done|done|left]. by rewrite <- (proj2 (v_flight _ _ _ Hi)). }
  destruct (writingFrameAsync c) eqn:Ea.
  { injection H as <-. split_and!; [done|done|left]. by rewrite <- (proj2 (v_flight _ _ _ Hi)). }
  assert (Hround : forall c0 c1 wr, inv Y c0 -> grows c c0 -> linked_req (heap c0) wr -> start S wr c0 = Ok c1 -> inv Y c1 /\ grows c c1 /\ inFrameScheduleLoop c1 = true).
  { intros c0 c1 wr H0 G0 Hl Hs. destruct (start_ok Y wr c0 c1 H0 ltac:(by rewrite (gr_loop _ _ G0)) Hl Hs) as (? & ? & ?). split_and!; [done|by etransitivity|done]. }
  assert (Hnext : forall c0, inv Y c0 -> grows c c0 -> inFrameScheduleLoop c0 = true -> schedule_loop range_queues (start S) fuel c0 = Ok c' ->
            inv Y c' /\ grows c c' /\ (writingFrame c' = true \/ stuck c')).
  { intros c0 H0 G0 L0 Hs. destruct (IH c0 H0 L0 Hs) as (? & ? & ?). split_and!; [done|by etransitivity|done]. }
  destruct (needToSendGoAway c) eqn:Eg; [|destruct (needToSendSettingsAck c) eqn:Es].
  - step_in H as c1 E1. apply Hround in E1 as (? & ? & ?); [by apply (Hnext c1)|by destruct Hi; split|split; [done|]; intros i st E; by exists st|apply on_conn_linked].
  - step_in H as c1 E1. apply Hround in E1 as (? & ? & ?); [by apply (Hnext c1)|by destruct Hi; split|split; [done|]; intros i st E; by exists st|apply on_conn_linked].
  - step_in H as r Er. destruct r as [r c1]. pose proof (pop_Ok _ _ _ _ Hi Er) as Hp. destruct r as [wr|].
    + destruct Hp as (H1 & G1 & Hl). step_in H as c2 E2. apply Hround in E2 as (? & ? & ?); [by apply (Hnext c2)|done..].
    + destruct Hp as [-> Hp]. destruct (needsFrameFlush c).
      * step_in H as c2 E2. apply Hround in E2 as (Hi2 & G2 & L2); [|done|done|apply on_conn_linked].
        apply (Hnext (set_needsFrameFlush false c2)); [by destruct Hi2; split|destruct G2; by split|done|done].
      * injection H as <-. split_and!; [done|done|right]. split_and!; [done|done|]. destruct Hp as [Hp|Hp]; [by left|by right].
Qed.
End rounds.

Lemma sched_loops depth c : inFrameScheduleLoop c = true -> sched depth c = Ok c.
Proof. intros H. destruct depth; cbn [scheduleFrameWrite]; by rewrite H, orb_true_r. Qed.

Lemma sched_schedules depth Y c c' : inv Y c -> sched depth c = Ok c' -> keeps Y c c' /\ settled c'.
Proof.
  revert Y c c'. induction depth as [|depth IH]; intros Y c c' Hi H; cbn [scheduleFrameWrite] in H.
  - destruct (writingFrame c || inFrameScheduleLoop c) eqn:E; [|done]. injection H as <-. split; [by apply keeps_refl|].
    apply orb_true_iff in E as [E|E]; [by right; left|by left].
  - destruct (writingFrame c || inFrameScheduleLoop c) eqn:E.
    { injection H as <-. split; [by apply keeps_refl|]. apply orb_true_iff in E as [E|E]; [by right; left|by left]. }
    apply orb_false_iff in E as [Ew El]. cbv zeta in H. step_in H as c1 E1. injection H as <-.
    apply (schedule_loop_ok _ (sched_loops depth) IH Y) in E1 as (H1 & G1 & H2); [|by destruct Hi; split|done].
    assert (Hs : settled (set_inFrameScheduleLoop false c1)) by (right; destruct H2 as [H2|H2]; [by left|right; exact H2]).
    split; [|done]. split; [by destruct H1; split| |done]. destruct G1 as [G1 G2]. split; [done|]. exact G2.
Qed.

Lemma schedule_keeps Y c c' : inv Y c -> schedule srv ParseRequestURI Available writeErr range_queues c = Ok c' -> keeps Y c c' /\ settled c'.
Proof. apply sched_schedules. Qed.
End loop.

(** * Sums over the streams *)

Definition sum_over (f : Z -> Z) (X : gset Z) : Z := foldr (fun id a => f id + a) 0 (elements X).

Lemma foldr_perm (f : Z -> Z) l k : l ≡ₚ k -> foldr (fun id a => f id + a) 0 l = foldr (fun id a => f id + a) 0 k.
Proof. induction 1; cbn; lia. Qed.

Lemma sum_insert f X id : id ∉ X -> sum_over f ({[id]} ∪ X) = f id + sum_over f X.
Proof. intros H. unfold sum_over. rewrite (foldr_perm f _ (id :: elements X)); [done|]. by apply elements_union_singleton. Qed.

Lemma sum_delete f X id : id ∈ X -> sum_over f X = f id + sum_over f (X ∖ {[id]}).
Proof. intros H. destruct (without X id H) as [E N]. rewrite E at 1. by rewrite sum_insert. Qed.

Lemma foldr_ext (f g : Z -> Z) l : (forall id, id ∈ l -> f id = g id) -> foldr (fun id a => f id + a) 0 l = foldr (fun id a => g id + a) 0 l.
Proof.
  induction l as [|x l IH]; cbn; [done|]. intros H. rewrite (H x (list_elem_of_here _ _)), IH; [done|]. intros id Hid. by apply H, list_elem_of_further.
Qed.

Lemma sum_ext f g X : (forall id, id ∈ X -> f id = g id) -> sum_over f X = sum_over g X.
Proof. intros H. apply foldr_ext. intros id Hid. apply H. by apply elem_of_elements in Hid. Qed.

Lemma sum_bound f X k : (forall id, 0 <= f id <= k) -> 0 <= sum_over f X <= k * Z.of_nat (base.size X).
Proof.
  intros H. unfold sum_over. replace (base.size X) with (length (elements X)) by done. induction (elements X) as [|x l IH]; cbn [foldr length]; [lia|].
  specialize (H x). lia.
Qed.

Section fuel.
Context {B : Type} `{!PipeBuffer B}.
Variable srv : Server.
Variable ParseRequestURI : bytes -> bool.
Variable Available : nat -> Z.
Variable writeErr : nat -> option handler_error.
Variable range_queues : nat -> gmap Z writeQueue -> list Z.
Hypothesis range_keys : forall k m, range_queues k m ≡ₚ (map_to_list m).*1.

Abbreviation sc := (serverConn B).
Abbreviation stream_of := (sstream B).
Abbreviation inv := (inv (B := B) (maxConcurrentStreams srv)).
Abbreviation start := (startFrameWrite srv ParseRequestURI Available writeErr).

(** * The measure

    A stream is worth the frames its end can give rise to. *)
Definition state_weight (s : streamState) : Z := match s with stateOpen => 22 | _ => 12 end.
Definition stream_weight (h : gmap Z stream_of) (id : Z) : Z := match h !! id with Some st => state_weight (s_state st) | None => 12 end.
Definition flag (b : bool) (k : Z) : Z := if b then k else 0.
Definition streams_weight (c : sc) : Z := sum_over (stream_weight (heap c)) (streams c).
Definition flags_weight (c : sc) : Z :=
  flag (negb (inGoAway c)) 3 + flag (needToSendGoAway c) 2 + flag (needToSendSettingsAck c) 2 + flag (needsFrameFlush c) 1.
Definition measure (c : sc) : Z := sched_weight (writeSched c) + streams_weight c + flags_weight c.

Lemma sched_weight_nonneg ws : 0 <= sched_weight ws.
Proof. unfold sched_weight. lia. Qed.

Lemma streams_weight_bound (c : sc) : 0 <= streams_weight c <= 22 * Z.of_nat (base.size (streams c)).
Proof. apply sum_bound. intros id. unfold stream_weight. destruct (heap c !! id) as [st|]; [destruct (s_state st)|]; cbn; lia. Qed.

Lemma flags_weight_bound (c : sc) : 0 <= flags_weight c <= 8.
Proof. unfold flags_weight, flag. destruct (negb (inGoAway c)), (needToSendGoAway c), (needToSendSettingsAck c), (needsFrameFlush c); lia. Qed.

Lemma measure_fuel (c : sc) : 0 <= measure c < Z.of_nat (loop_fuel c).
Proof.
  pose proof (sched_weight_nonneg (writeSched c)). pose proof (streams_weight_bound c). pose proof (flags_weight_bound c).
  unfold measure. split; [lia|]. unfold loop_fuel, sched_weight in *. lia.
Qed.

Lemma upd_weight id f (c c' : sc) : (forall st, s_state (f st) = s_state st) -> upd_stream id f c = Ok c' -> measure c' = measure c.
Proof.
  intros Hf H. unfold upd_stream in H. step_in H as st E. apply get_stream_Ok in E. injection H as <-. unfold measure. f_equal. f_equal.
  unfold streams_weight. cbn [heap streams set_heap]. apply sum_ext. intros i _. unfold stream_weight. destruct (decide (i = id)) as [->|].
  - by rewrite lookup_insert_eq, E, Hf.
  - by rewrite lookup_insert_ne.
Qed.

Lemma close_weight id st (c : sc) : heap c !! id = Some st -> id ∈ streams c -> measure (close_part id st c) + 12 <= measure c.
Proof.
  intros E Hl. assert (Hw : streams_weight (close_part id st c) = sum_over (stream_weight (heap c)) (streams c ∖ {[id]})).
  { unfold streams_weight, close_part. destruct (isPushed id); cbn [heap streams set_streams set_curPushedStreams set_curClientStreams set_heap]; apply sum_ext; intros i [_ Hi]%elem_of_difference;
      unfold stream_weight; (rewrite lookup_insert_ne; [done|]); intros ->; apply Hi; by apply elem_of_singleton. }
  assert (Hd : streams_weight c = stream_weight (heap c) id + sum_over (stream_weight (heap c)) (streams c ∖ {[id]})) by (by apply sum_delete).
  assert (H12 : 12 <= stream_weight (heap c) id) by (unfold stream_weight; rewrite E; destruct (s_state st); cbn; lia).
  assert (Hr : writeSched (close_part id st c) = writeSched c /\ flags_weight (close_part id st c) = flags_weight c) by (unfold close_part; by destruct (isPushed id)).
  destruct Hr as [R1 R2]. unfold measure. rewrite R1, R2, Hw. lia.
Qed.

Lemma local_weight id st (c : sc) : heap c !! id = Some st -> id ∈ streams c -> s_state st = stateOpen ->
  measure (set_heap (<[id := set_s_state stateHalfClosedLocal st]> (heap c)) c) + 10 = measure c.
Proof.
  intros E Hl Hs. unfold measure, streams_weight. cbn [heap streams set_heap writeSched].
  change (flags_weight (set_heap (<[id := set_s_state stateHalfClosedLocal st]> (heap c)) c)) with (flags_weight c).
  rewrite (sum_delete (stream_weight (heap c)) _ id Hl), (sum_delete (stream_weight (<[id := _]> _)) _ id Hl).
  rewrite (sum_ext (stream_weight (<[id := _]> _)) (stream_weight (heap c)) (streams c ∖ {[id]})).
  - unfold stream_weight. rewrite lookup_insert_eq, E, Hs. cbn. lia.
  - intros i [_ Hi]%elem_of_difference. unfold stream_weight. rewrite lookup_insert_ne; [done|]. intros ->. apply Hi. by apply elem_of_singleton.
Qed.

Lemma with_stream_weight id fs s (c : sc) : id ∉ streams c -> s = stateHalfClosedRemote -> measure (with_stream id fs s c) = measure c + 12.
Proof.
  intros Hn ->. destruct (with_stream_fields id fs stateHalfClosedRemote c) as (_ & _ & F3 & F4 & _).
  destruct (with_stream_rest id fs stateHalfClosedRemote c) as (_ & _ & R3 & _ & _ & _ & _ & _ & R9 & _ & R11 & R12 & _).
  assert (Hf : needsFrameFlush (with_stream id fs stateHalfClosedRemote c) = needsFrameFlush c) by (unfold with_stream; by destruct (isPushed id)).
  unfold measure, flags_weight, streams_weight. rewrite R3, R9, R11, R12, F3, F4, Hf, sum_insert by done.
  rewrite (sum_ext (stream_weight (<[id := _]> _)) (stream_weight (heap c)) (streams c)).
  - unfold stream_weight at 1. rewrite lookup_insert_eq. cbn. lia.
  - intros i Hi. unfold stream_weight. rewrite lookup_insert_ne; [done|]. congruence.
Qed.

(** * Methods within the loop *)

Section methods.
Variable S : sc -> fl sc.
Hypothesis loops : forall c, inFrameScheduleLoop c = true -> S c = Ok c.
Hypothesis schedules : forall Y c c', inv Y c -> S c = Ok c' -> keeps (maxConcurrentStreams srv) Y c c' /\ settled c'.

Lemma writeFrame_weight wr (c c' : sc) : inFrameScheduleLoop c = true -> pool_ok (writeSched c) -> writeFrame S wr c = Ok c' ->
  measure c' <= measure c + Z.of_nat (request_weight wr) /\ inFrameScheduleLoop c' = true /\ fls c' = fls c /\ pool_ok (writeSched c').
Proof.
  intros Hl Hp H. unfold writeFrame in H. cbv zeta in H. step_in H as r E. destruct r as [c1 ig].
  assert (Hc : measure c1 = measure c /\ inFrameScheduleLoop c1 = true /\ fls c1 = fls c /\ writeSched c1 = writeSched c).
  { destruct (write wr) as [[]|]; try (by injection E as <- _).
    - step_in E as s Es. step_in E as c2 E2. injection E as <- _. split; [by eapply upd_weight; [|exact E2]|].
      unfold upd_stream in E2. step_in E2 as st Est. by injection E2 as <-.
    - step_in E as s Es. step_in E as st Est. destruct (wroteHeaders st); [|by injection E as <- _]. destruct (decide _); [|done]. by injection E as <- _. }
  destruct Hc as (H1 & H2 & H3 & H4). destruct ig.
  - rewrite loops in H by done. injection H as <-. rewrite H1, H4. split_and!; [lia|done..].
  - rewrite loops in H by done. injection H as <-. destruct (Push_rest wr (writeSched c1) ltac:(by rewrite H4)) as (P1 & _ & _ & P4).
    split_and!; [|done|done|done]. unfold measure in *. cbn [writeSched set_writeSched].
    change (streams_weight (set_writeSched _ c1)) with (streams_weight c1). change (flags_weight (set_writeSched _ c1)) with (flags_weight c1). lia.
Qed.

(** The window of the connection. *)
Definition in_window (c : sc) : Prop := exists w, fls c !! conn_inflow = Some (mkFlow w None) /\ 0 <= w < 2 ^ 31.

Lemma flow_add_weight p k (c c' : sc) ok : flow_add p k c = Ok (c', ok) -> measure c' = measure c /\ inFrameScheduleLoop c' = inFrameScheduleLoop c /\ writeSched c' = writeSched c.
Proof. intros H. unfold flow_add in H. step_in H as r E. destruct r as [fs b]. by injection H as <- <-. Qed.

(** A connection window update takes room that the window then lacks. *)
Lemma conn_update32 k (c c' : sc) : inFrameScheduleLoop c = true -> pool_ok (writeSched c) -> in_window c -> sendWindowUpdate32 S None k c = Ok c' ->
  inFrameScheduleLoop c' = true /\ pool_ok (writeSched c') /\
  (c' = c /\ k = 0 \/
   0 < k /\ measure c' <= measure c + 8 /\
   exists w, fls c !! conn_inflow = Some (mkFlow w None) /\ 0 <= w /\ w + k < 2 ^ 31 /\ fls c' !! conn_inflow = Some (mkFlow (w + k) None)).
Proof.
  intros Hl Hp (w & Hw & Hr) H. unfold sendWindowUpdate32 in H. destruct (Z.eqb_spec k 0) as [->|Hk]; [injection H as <-; auto|].
  destruct (Z.ltb_spec k 0); [done|]. cbn [mbind outcome_bind] in H. step_in H as c1 E1. step_in H as r E2. destruct r as [c2 ok]. destruct ok; [|done]. injection H as <-.
  apply writeFrame_weight in E1 as (M1 & L1 & F1 & P1); [|done|done]. destruct (flow_add_weight _ _ _ _ _ E2) as (M2 & L2 & W2).
  split; [congruence|]. split; [by rewrite W2|]. right. split; [lia|]. split; [rewrite M2; cbn in M1; lia|].
  unfold flow_add in E2. step_in E2 as r E. destruct r as [fs b]. injection E2 as <- ->. rewrite F1 in E. exists w. split; [done|]. split; [lia|].
  destruct (add_Ok _ _ _ _ _ _ Hw E) as [[_ Hx]|(v & -> & Hv & _ & He)]; [done|]. cbn [Http2Flow.n conn] in *.
  destruct (He Hr ltac:(lia)) as [He1 ->]. split; [done|]. cbn [fls set_fls]. by rewrite lookup_insert_eq.
Qed.

Lemma update_full fuel k (c c' : sc) : inFrameScheduleLoop c = true -> pool_ok (writeSched c) -> fls c !! conn_inflow = Some (mkFlow (2 ^ 31 - 1) None) ->
  update_loop S fuel None k c = Ok c' -> c' = c.
Proof.
  intros Hl Hp Hw H. assert (Hin : in_window c) by (exists (2 ^ 31 - 1); split; [done|lia]).
  assert (Hnone : forall k c1, 0 <= k -> sendWindowUpdate32 S None k c = Ok c1 -> c1 = c).
  { intros k0 c1 H0 E. destruct (conn_update32 _ _ _ Hl Hp Hin E) as (_ & _ & [[-> _]|(Hk & _ & w & Hw' & _ & Hlt & _)]); [done|].
    rewrite Hw in Hw'. injection Hw' as <-. lia. }
  revert k H. induction fuel as [|fuel IH]; intros k H; cbn [update_loop] in H; destruct (maxUint31 <=? k); try done.
  - destruct (Z.ltb_spec (i32 k) 0) as [Hneg|]; [|by apply (Hnone (i32 k))]. unfold sendWindowUpdate32 in H. rewrite (proj2 (Z.eqb_neq _ _)), (proj2 (Z.ltb_lt _ _)) in H by lia. done.
  - step_in H as c1 E1. apply Hnone in E1 as ->; [|unfold maxUint31; lia]. by apply (IH (k - maxUint31)).
  - destruct (Z.ltb_spec (i32 k) 0) as [Hneg|]; [|by apply (Hnone (i32 k))]. unfold sendWindowUpdate32 in H. rewrite (proj2 (Z.eqb_neq _ _)), (proj2 (Z.ltb_lt _ _)) in H by lia. done.
Qed.

Lemma sendWindowUpdate_weight k (c c' : sc) : inFrameScheduleLoop c = true -> pool_ok (writeSched c) -> in_window c -> sendWindowUpdate S None k c = Ok c' ->
  measure c' <= measure c + 8 /\ inFrameScheduleLoop c' = true /\ pool_ok (writeSched c').
Proof.
  intros Hl Hp Hw H. unfold sendWindowUpdate in H.
  assert (Hone : forall k c1, sendWindowUpdate32 S None k c = Ok c1 -> measure c1 <= measure c + 8 /\ inFrameScheduleLoop c1 = true /\ pool_ok (writeSched c1)).
  { intros k0 c1 E. destruct (conn_update32 _ _ _ Hl Hp Hw E) as (? & ? & [[-> _]|(_ & ? & _)]); split_and!; try done; lia. }
  destruct (Z.to_nat (k / maxUint31)) as [|fuel]; cbn [update_loop] in H; destruct (maxUint31 <=? k); try done; [by eapply Hone| |by eapply Hone].
  step_in H as c1 E1. destruct (Hone _ _ E1) as (M1 & L1 & P1). destruct (conn_update32 _ _ _ Hl Hp Hw E1) as (_ & _ & [[_ Hx]|(_ & _ & w & _ & H0 & Hlt & Ew)]); [done|].
  assert (w = 0) as -> by (unfold maxUint31 in Hlt; lia). rewrite Z.add_0_l in Ew. apply update_full in H as ->; [done|done|done|exact Ew].
Qed.

Lemma goAwayIn_weight code d (c c' : sc) : inFrameScheduleLoop c = true -> goAwayIn S code d c = Ok c' ->
  measure c' <= measure c /\ inFrameScheduleLoop c' = true /\ fls c' = fls c /\ writeSched c' = writeSched c /\ heap c' = heap c /\ streams c' = streams c.
Proof.
  intros Hl H. unfold goAwayIn in H. destruct (inGoAway c) eqn:Eg; [injection H as <-; split_and!; [lia|done..]|]. cbv zeta in H.
  set (c1 := if d =? 0 then c else _) in H. assert (H1 : measure c1 = measure c /\ inFrameScheduleLoop c1 = true /\ fls c1 = fls c /\ writeSched c1 = writeSched c /\ heap c1 = heap c /\ streams c1 = streams c /\ inGoAway c1 = false)
    by (unfold c1; by destruct (d =? 0)).
  clearbody c1. destruct H1 as (M1 & L1 & F1 & W1 & E1 & S1 & G1). rewrite loops in H by done. injection H as <-. split_and!; try done.
  rewrite <- M1. unfold measure. match goal with |- ?a + ?b + ?d <= ?e + ?f + ?g => change (e + f + d <= e + f + g) end. unfold flags_weight. cbn [inGoAway needToSendGoAway needToSendSettingsAck needsFrameFlush set_goAwayCode set_needToSendGoAway set_inGoAway].
  rewrite G1. unfold flag. cbn [negb]. destruct (needToSendGoAway c1); lia.
Qed.

(** Closing a stream leaves less to do. *)
Lemma closeStream_weight id err st (c c' : sc) : inFrameScheduleLoop c = true -> pool_ok (writeSched c) -> in_window c -> heap c !! id = Some st -> id ∈ streams c ->
  closeStream srv S id err c = Ok c' -> measure c' + 4 <= measure c /\ inFrameScheduleLoop c' = true.
Proof.
  intros Hl Hp Hw E Hlive H. unfold closeStream in H. rewrite (get_stream_Some _ _ _ E) in H. cbn [mbind outcome_bind] in H.
  destruct (_ || _); [done|]. rewrite (upd_stream_Some _ _ _ _ E) in H. cbn [mbind outcome_bind] in H. cbv zeta in H.
  change (set_streams _ _) with (close_part id st c) in H. pose proof (close_weight id st c E Hlive) as M0.
  assert (R0 : inFrameScheduleLoop (close_part id st c) = true /\ pool_ok (writeSched (close_part id st c)) /\ in_window (close_part id st c)) by (unfold close_part; by destruct (isPushed id)).
  destruct R0 as (L0 & P0 & W0). step_in H as c1 E1.
  assert (H1 : measure c1 <= measure (close_part id st c) /\ inFrameScheduleLoop c1 = true /\ fls c1 = fls (close_part id st c) /\ writeSched c1 = writeSched (close_part id st c)).
  { destruct (decide _); [|injection E1 as <-; split_and!; [lia|done..]]. set (c2 := if negb (IdleTimeout srv =? 0) then _ else _) in E1.
    assert (H2 : measure c2 = measure (close_part id st c) /\ inFrameScheduleLoop c2 = true /\ fls c2 = fls (close_part id st c) /\ writeSched c2 = writeSched (close_part id st c)) by (unfold c2; by destruct (negb _)).
    clearbody c2. destruct H2 as (M2 & L2 & F2 & P2). destruct (negb (keepAlives c2)); [|injection E1 as <-; split_and!; [lia|done..]].
    apply goAwayIn_weight in E1 as (M3 & L3 & F3 & P3 & _); [|done]. split_and!; [lia|done|congruence..]. }
  destruct H1 as (M1 & L1 & F1 & P1). step_in H as c2 E2.
  assert (H2 : measure c2 <= measure c1 + 8 /\ inFrameScheduleLoop c2 = true /\ pool_ok (writeSched c2)).
  { destruct (s_body st) as [p|]; [|injection E2 as <-; split_and!; [lia|done|by rewrite P1]]. step_in E2 as c3 E3.
    apply sendWindowUpdate_weight in E3 as (M3 & L3 & P3); [|done|by rewrite P1|unfold in_window; by rewrite F1].
    assert (M4 : measure c2 = measure c3) by (by eapply upd_weight; [|exact E2]). unfold upd_stream in E2. step_in E2 as st3 Est3. injection E2 as <-. by rewrite M4. }
  destruct H2 as (M2 & L2 & P2). step_in H as st2 Est2. destruct (cw_closed st2); [done|]. step_in H as c3 E3. injection H as <-.
  assert (M3 : measure c3 = measure c2) by (by eapply upd_weight; [|exact E3]). unfold upd_stream in E3. step_in E3 as st3 Est3. injection E3 as <-.
  destruct (CloseStream_rest id (writeSched c2) P2) as (_ & _ & _ & Hle). split; [|done].
  unfold measure in *. cbn [writeSched set_writeSched set_heap] in *.
  change (streams_weight (set_writeSched _ (set_heap ?h c2))) with (streams_weight (set_heap h c2)). change (flags_weight (set_writeSched _ (set_heap ?h c2))) with (flags_weight (set_heap h c2)). lia.
Qed.

Lemma resetStream_weight id code (c c' : sc) : inFrameScheduleLoop c = true -> pool_ok (writeSched c) -> resetStream S id code c = Ok c' ->
  measure c' <= measure c + 8 /\ inFrameScheduleLoop c' = true.
Proof.
  intros Hl Hp H. unfold resetStream in H. step_in H as c1 E1. apply writeFrame_weight in E1 as (M1 & L1 & _ & _); [|done|done]. cbn in M1.
  destruct (decide _); [|injection H as <-; by split]. assert (M2 : measure c' = measure c1) by (by eapply upd_weight; [|exact H]).
  unfold upd_stream in H. step_in H as st Est. injection H as <-. split; [lia|done].
Qed.

Lemma inv_pool Y (c : sc) : inv Y c -> pool_ok (writeSched c).
Proof. intros H. apply (qi_pool _ _ _ (v_queues _ _ _ H)). Qed.

Lemma inv_window Y (c : sc) : inv Y c -> in_window c.
Proof. intros H. apply (fi_in _ _ _ (v_flows _ _ _ H)). Qed.

Lemma wroteFrame_weight Y wr err (c c' : sc) : inv Y c -> inFrameScheduleLoop c = true -> wroteFrame srv S wr err c = Ok c' ->
  measure c' <= measure c /\ inFrameScheduleLoop c' = true.
Proof.
  intros Hi Hl H. unfold wroteFrame in H. destruct (negb _); [done|]. cbv zeta in H. fold (drop_flight c) in H.
  pose proof (inv_pool _ _ Hi) as Hp. pose proof (inv_window _ _ Hi) as Hw. change (writeSched c) with (writeSched (drop_flight c)) in Hp. change (in_window c) with (in_window (drop_flight c)) in Hw.
  change (inFrameScheduleLoop c) with (inFrameScheduleLoop (drop_flight c)) in Hl. change (measure c) with (measure (drop_flight c)).
  assert (Hlive : forall id st, heap (drop_flight c) !! id = Some st -> s_state st <> stateClosed -> id ∈ streams (drop_flight c)) by (intros id st; by apply (alive _ _ _ _ _ Hi)).
  assert (Hsi : forall id, id ∈ streams (drop_flight c) -> is_Some (heap (drop_flight c) !! id)).
  { intros id Hid. destruct (si_live _ _ _ _ _ (v_streams _ _ _ Hi) _ Hid) as (st & E & _). by exists st. }
  set (c0 := drop_flight c) in *. clearbody c0. step_in H as b Eb. step_in H as c1 E1.
  assert (H1 : measure c1 <= measure c0 /\ inFrameScheduleLoop c1 = true).
  { assert (Hclose : forall id e, closeStream srv S id e c0 = Ok c1 -> measure c1 <= measure c0 /\ inFrameScheduleLoop c1 = true).
    { intros id e Hc. destruct (heap c0 !! id) as [st|] eqn:E; [|unfold closeStream, get_stream in Hc; by rewrite E in Hc].
      assert (Hid : id ∈ streams c0).
      { apply (Hlive id st E). unfold closeStream in Hc. rewrite (get_stream_Some _ _ _ E) in Hc. cbn [mbind outcome_bind] in Hc. intros Hx. by rewrite Hx in Hc. }
      destruct (closeStream_weight id e st c0 c1 Hl Hp Hw E Hid Hc). split; [lia|done]. }
    assert (Hsame : Ok (E := Empty_set) c0 = Ok c1 -> measure c1 <= measure c0 /\ inFrameScheduleLoop c1 = true) by (intros [= <-]; split; [lia|done]).
    destruct b.
    - step_in E1 as s Es. step_in E1 as st Est. apply get_stream_Ok in Est. destruct (s_state st) eqn:Est2; try (by apply Hsame); try (by eapply Hclose).
      rewrite (upd_stream_Some _ _ _ _ Est) in E1. cbn [mbind outcome_bind] in E1. pose proof (local_weight _ _ _ Est (Hlive _ _ Est ltac:(congruence)) Est2) as M1.
      apply resetStream_weight in E1 as [M2 L2]; [|done|done]. split; [lia|done].
    - destruct (write wr) as [[]|]; try (by apply Hsame).
      + step_in E1 as s Es. by eapply Hclose.
      + destruct (decide _); [by eapply Hclose|by apply Hsame]. }
  destruct H1 as [M1 L1]. step_in H as c2 E2. unfold reply in E2. step_in E2 as r Er. destruct r as [w ch]. injection E2 as <-.
  destruct ch; rewrite loops in H by done; injection H as <-; by split.
Qed.

Lemma newStream_weight Y id pid (c c' : sc) : inv Y c -> heap c !! id = None -> newStream srv id pid stateHalfClosedRemote c = Ok c' ->
  measure c' = measure c + 12 /\ needsFrameFlush c' = needsFrameFlush c.
Proof.
  intros Hi Hn H. apply newStream_shape in H as (k1 & k2 & fs1 & ok1 & fs2 & ok2 & _ & _ & Hc).
  assert (Hns : id ∉ streams c). { intros Hx. destruct (si_live _ _ _ _ _ (v_streams _ _ _ Hi) _ Hx) as (st & E & _). congruence. }
  pose proof (with_stream_weight id fs2 _ c Hns eq_refl) as M. assert (F : needsFrameFlush (with_stream id fs2 stateHalfClosedRemote c) = needsFrameFlush c) by (unfold with_stream; by destruct (isPushed id)).
  by destruct Hc as [-> | ->].
Qed.

Lemma allocatePromisedID_weight Y w (c c' : sc) r : inv Y c -> inFrameScheduleLoop c = true -> allocatePromisedID srv ParseRequestURI S w c = Ok (c', r) ->
  measure c' <= measure c + 12 /\ needsFrameFlush c' = needsFrameFlush c.
Proof.
  intros Hi Hl H. unfold allocatePromisedID in H. destruct (negb _); [injection H as <- <-; split; [lia|done]|].
  destruct (clientMaxStreams c <? _); [injection H as <- <-; split; [lia|done]|].
  destruct (si_max _ _ _ _ _ (v_streams _ _ _ Hi)) as (_ & Hm & He). rewrite u32_id in H by lia.
  destruct (Z.leb_spec (2 ^ 31) (maxPushPromiseID c + 2)).
  { step_in H as c1 E1. injection H as <- <-. unfold startGracefulShutdownInternal in E1. assert (F : needsFrameFlush c1 = needsFrameFlush c).
    { unfold goAwayIn in E1. destruct (inGoAway c); [by injection E1 as <-|]. rewrite loops in E1 by done. by injection E1 as <-. }
    apply goAwayIn_weight in E1 as [M _]; [|done]. split; [lia|done]. }
  cbv zeta in H. step_in H as c1 E1. cbn [maxPushPromiseID set_maxPushPromiseID] in E1, H. set (id := maxPushPromiseID c + 2) in *.
  assert (Hp : isPushed id = true). { unfold isPushed, id in *. apply Z.eqb_eq in He. apply Z.eqb_eq. by rewrite Zplus_mod, He. }
  assert (Hn : heap c !! id = None) by (eapply unknown; [exact Hi|]; rewrite Hp; lia).
  assert (Hi2 : inv Y (set_maxPushPromiseID id c)) by (apply keeps_maxPush; [exact Hi|lia|exact Hp]).
  destruct (newStream_weight Y id (wp_streamID w) (set_maxPushPromiseID id c) c1 Hi2 Hn E1) as [M F].
  destruct (newWriterAndRequestNoBody _ _); [|done]. injection H as <- <-. split; [|exact F].
  change (measure c1 <= measure c + 12). change (measure (set_maxPushPromiseID id c)) with (measure c) in M. lia.
Qed.

Lemma prepare_weight Y wr (c c1 : sc) r : inv Y c -> inFrameScheduleLoop c = true -> prepare srv ParseRequestURI S wr c = Ok (c1, r) ->
  measure c1 <= measure c + (if is_push wr then 12 else 0) /\ needsFrameFlush c1 = needsFrameFlush c.
Proof.
  intros Hi Hl Er. unfold prepare, is_push in *. assert (Hsame : Ok (E := Empty_set) (c, inl (B := unit) wr) = Ok (c1, r) -> measure c1 <= measure c + 0 /\ needsFrameFlush c1 = needsFrameFlush c)
    by (intros [= <- _]; split; [lia|done]).
  destruct (write wr) as [w|]; [|by apply Hsame]. destruct w; try (by apply Hsame). step_in Er as r1 E1. destruct r1 as [c2 r1].
  apply (allocatePromisedID_weight Y) in E1 as [M F]; [|done|done]. destruct r1; [by injection Er as <- _|]. step_in Er as c3 E3. injection Er as <- _.
  unfold reply in E3. step_in E3 as r3 Er3. destruct r3 as [w' ch]. injection E3 as <-. by destruct ch.
Qed.

Lemma startFrameWrite_weight Y wr (c c' : sc) : inv Y c -> inFrameScheduleLoop c = true -> linked_req (heap c) wr -> start S wr c = Ok c' ->
  measure c' <= measure c + (1 - flag (needsFrameFlush c) 1) + (if is_push wr then 12 else 0).
Proof.
  intros Hi Hl Hw H. pose proof H as H0. unfold startFrameWrite in H. destruct (writingFrame c) eqn:Hwf; [done|].
  assert (Hfl : 0 <= flag (needsFrameFlush c) 1 <= 1) by (unfold flag; destruct (needsFrameFlush c); lia).
  step_in H as b Eb. destruct b; [|done]. cbn [negb] in H. step_in H as r Er. destruct r as [c1 r].
  destruct (prepare_keeps srv ParseRequestURI S loops schedules Y wr c c1 r Hi Hl Hw Hwf (allowed_orderly srv Y wr c Hi Hwf Eb) Er) as (_ & G1 & K1).
  assert (L1 : inFrameScheduleLoop c1 = true) by (by rewrite (gr_loop _ _ G1)). destruct (prepare_weight Y wr c c1 r Hi Hl Er) as [M1 F1].
  destruct r as [wr'|]; [|injection H as <-; lia].
  step_in H as w Ew. cbv zeta in H.
  assert (M2 : measure (in_flight wr' c1) = measure c1 + (1 - flag (needsFrameFlush c1) 1)).
  { unfold measure. change (writeSched (in_flight wr' c1)) with (writeSched c1). change (streams_weight (in_flight wr' c1)) with (streams_weight c1).
    unfold flags_weight. cbn [inGoAway needToSendGoAway needToSendSettingsAck needsFrameFlush in_flight log_effect set_log set_inflight set_writingFrameAsync set_frames set_needsFrameFlush set_writingFrame].
    unfold flag at 4. lia. }
  rewrite F1 in M2. destruct (staysWithinBuffer w _).
  - assert (H' : wroteFrame srv S wr' (writeErr (frames c1)) (in_flight wr' c1) = Ok c') by exact H.
    apply (wroteFrame_weight Y) in H' as [M3 _]; [|done|done]. lia.
  - injection H as <-. change (measure (in_flight wr' c1) <= measure c + (1 - flag (needsFrameFlush c) 1) + (if is_push wr then 12 else 0)). lia.
Qed.

(** * The loop *)

Lemma pop_weight Y wr (c c' : sc) : inv Y c -> pop range_queues c = Ok (Some wr, c') ->
  measure c' + (if is_push wr then 64 else 2) <= measure c /\ inFrameScheduleLoop c' = inFrameScheduleLoop c.
Proof.
  intros Hi H. unfold pop in H. destruct (_ || _); [|by injection H]. step_in H as x Ex. destruct x as [[[wr' ok] ws] fs].
  assert (Hm : forall ws', measure (set_fls fs (set_writeSched ws' c)) = sched_weight ws' + streams_weight c + flags_weight c) by done.
  destruct (Pop_cases (range_queues (frames c)) (maxFrameSize c) (fls c) (writeSched c) (fun id => queues_ok srv Y c id Hi) (range_keys _ _))
    as [(wr0 & z & Ez & Hp)|[(Hp & Ez & Hb)|(wr0 & id & q' & fs' & Ez & Hp & Hpp & _)]]; rewrite Hp in Ex; injection Ex as <- <- <- <-.
  - injection H as <- <-. split; [|done]. rewrite Hm. unfold measure. rewrite !sched_weight_eq. cbn [Random.zero Random.sq]. rewrite Ez, queue_weight_cons.
    pose proof (weight_pos wr0). unfold is_push, request_weight in *. destruct (write wr0) as [[]|]; lia.
  - by injection H.
  - injection H as <- <-. split; [|done]. rewrite Hm. unfold measure. rewrite !sched_weight_eq. cbn [Random.zero Random.sq]. rewrite Ez.
    pose proof (queues_weight_update (Random.sq (writeSched c)) id q') as Hu. fold (queue_of id (writeSched c)) in Hu.
    destruct (popped_weight _ _ _ _ _ Hpp) as [Hw _]. change (queue_weight []) with 0%nat. destruct (is_push wr0), (ends wr0); lia.
Qed.

Lemma start_flush (c c' : sc) : start S (on_conn flushFrameWriter) c = Ok c' -> needsFrameFlush c' = true.
Proof. intros H. unfold startFrameWrite in H. destruct (writingFrame c); [done|]. cbn in H. by injection H as <-. Qed.

(** With fuel for the measure, more makes no difference. *)
Lemma schedule_loop_more Y k fuel (c : sc) : inv Y c -> inFrameScheduleLoop c = true -> measure c < Z.of_nat fuel ->
  schedule_loop range_queues (start S) (fuel + k) c = schedule_loop range_queues (start S) fuel c.
Proof.
  revert c. induction fuel as [|fuel IH]; intros c Hi Hl Hm; [pose proof (measure_fuel c); lia|].
  change (Datatypes.S fuel + k)%nat with (Datatypes.S (fuel + k)). cbn [schedule_loop]. destruct (writingFrameAsync c); [done|].
  assert (Hnext : forall wr c0 d, inv Y c0 -> inFrameScheduleLoop c0 = true -> linked_req (heap c0) wr ->
            (forall c1, measure (d c1) <= measure c1 /\ inFrameScheduleLoop (d c1) = inFrameScheduleLoop c1 /\ (inv Y c1 -> inv Y (d c1))) ->
            (forall c1, start S wr c0 = Ok c1 -> measure (d c1) < measure c) ->
            (c1 ← start S wr c0; schedule_loop range_queues (start S) (fuel + k) (d c1)) = (c1 ← start S wr c0; schedule_loop range_queues (start S) fuel (d c1))).
  { intros wr c0 d H0 L0 Hw Hd Hlt. destruct (start S wr c0) as [c1|e|] eqn:E; [|done..]. cbn [mbind outcome_bind].
    destruct (start_ok srv ParseRequestURI Available writeErr S loops schedules Y wr c0 c1 H0 L0 Hw E) as (H1 & _ & L1). destruct (Hd c1) as (M1 & L2 & H2).
    specialize (Hlt c1 eq_refl). apply IH; [by apply H2|congruence|lia]. }
  assert (Hid : forall c1 : sc, measure c1 <= measure c1 /\ inFrameScheduleLoop c1 = inFrameScheduleLoop c1 /\ (inv Y c1 -> inv Y c1)) by (intros c1; split; [lia|done]).
  assert (Hfl : forall c1 : sc, 0 <= flag (needsFrameFlush c1) 1 <= 1) by (intros c1; unfold flag; destruct (needsFrameFlush c1); lia).
  destruct (needToSendGoAway c) eqn:Eg; [|destruct (needToSendSettingsAck c) eqn:Es].
  - apply (Hnext _ _ (fun c => c)); [by destruct Hi; split|done|apply on_conn_linked|exact Hid|]. intros c1 E1.
    assert (Hi0 : inv Y (set_needToSendGoAway false c)) by (by destruct Hi; split). apply (startFrameWrite_weight Y) in E1; [|exact Hi0|done|apply on_conn_linked].
    assert (M : measure (set_needToSendGoAway false c) + 2 = measure c) by (unfold measure, flags_weight; cbn; rewrite Eg; unfold flag; unfold streams_weight; cbn; lia).
    specialize (Hfl (set_needToSendGoAway false c)). unfold is_push in E1. cbn [write on_conn] in E1. lia.
  - apply (Hnext _ _ (fun c => c)); [by destruct Hi; split|done|apply on_conn_linked|exact Hid|]. intros c1 E1.
    assert (Hi0 : inv Y (set_needToSendSettingsAck false c)) by (by destruct Hi; split). apply (startFrameWrite_weight Y) in E1; [|exact Hi0|done|apply on_conn_linked].
    assert (M : measure (set_needToSendSettingsAck false c) + 2 = measure c) by (unfold measure, flags_weight; cbn; rewrite Es; unfold flag; unfold streams_weight; cbn; lia).
    specialize (Hfl (set_needToSendSettingsAck false c)). unfold is_push in E1. cbn [write on_conn] in E1. lia.
  - destruct (pop range_queues c) as [[r c1]|e|] eqn:Ep; [|done..]. cbn [mbind outcome_bind]. destruct r as [wr|].
    + destruct (pop_Ok srv range_queues range_keys Y _ _ _ Hi Ep) as (H1 & _ & Hw). destruct (pop_weight _ _ _ _ Hi Ep) as [M1 L1].
      apply (Hnext _ _ (fun c => c)); [done|congruence|done|exact Hid|]. intros c2 E2. apply (startFrameWrite_weight Y) in E2; [|done|congruence|done].
      specialize (Hfl c1). destruct (is_push wr); lia.
    + destruct (pop_Ok srv range_queues range_keys Y _ _ _ Hi Ep) as [-> _]. destruct (needsFrameFlush c) eqn:Ef; [|done].
      assert (Hclr : forall c1 : sc, measure (set_needsFrameFlush false c1) + flag (needsFrameFlush c1) 1 = measure c1) by (intros c1; unfold measure, flags_weight, streams_weight; cbn; unfold flag; lia).
      apply (Hnext _ _ (set_needsFrameFlush false)); [done|done|apply on_conn_linked| |].
      * intros c1. specialize (Hclr c1). specialize (Hfl c1). split; [lia|]. split; [done|]. intros Hx. by destruct Hx; split.
      * intros c1 E1. pose proof (Hclr c1) as M2. pose proof (start_flush _ _ E1) as Hset.
        apply (startFrameWrite_weight Y) in E1; [|done|done|apply on_conn_linked]. rewrite Ef in E1. rewrite Hset in M2. unfold is_push in E1. cbn [write on_conn flag] in E1, M2. lia.
Qed.

Lemma update_loop_more k fuel id n (c : sc) : n < maxUint31 * (Z.of_nat fuel + 1) -> update_loop S (fuel + k) id n c = update_loop S fuel id n c.
Proof.
  revert n c. induction fuel as [|fuel IH]; intros n c Hn; cbn [update_loop Nat.add].
  - rewrite (proj2 (Z.leb_gt _ _)) by lia. destruct k; cbn [update_loop]; by rewrite (proj2 (Z.leb_gt _ _)) by lia.
  - destruct (maxUint31 <=? n); [|done]. destruct (sendWindowUpdate32 S id maxUint31 c) as [c1|e|]; [|done..]. cbn [mbind outcome_bind]. apply IH. lia.
Qed.
End methods.

End fuel.
