(* ===== verification/Http2ServerFrames.v ===== *)
(** What the serve loop does with the client's frames keeps the invariant of the
    connection; a settled connection that sends a window update sends nothing
    else. *)

From S2P Require Import Prelude HpackTables Http2Errors Http2DataBuffer Http2Pipe Http2Frame Http2Framer Http2Write Http2ServerData Http2Flow Http2WriteSched Http2Server Http2ServerInv Http2ServerKeep Http2ServerSteps Http2ServerFuel.

(** Frames that neither start nor end anything. *)
Definition plain (wr : FrameWriteRequest) : Prop :=
  match write wr with Some (writeWindowUpdate _ _ | flushFrameWriter | writeGoAway _ _ | writeSettingsAck) => True | _ => False end.

Section calm.
Context {B : Type} `{!PipeBuffer B}.
Variable srv : Server.
Variable ParseRequestURI : bytes -> bool.
Variable Available : nat -> Z.
Variable writeErr : nat -> option handler_error.
Variable range_queues : nat -> gmap Z writeQueue -> list Z.
Hypothesis range_keys : forall k m, range_queues k m ≡ₚ (map_to_list m).*1.

Abbreviation sc := (serverConn B).
Abbreviation inv := (inv (B := B) (maxConcurrentStreams srv)).
Abbreviation keeps := (keeps (B := B) (maxConcurrentStreams srv)).
Abbreviation start := (startFrameWrite srv ParseRequestURI Available writeErr).
Abbreviation sched := (schedule srv ParseRequestURI Available writeErr range_queues).

(** What such frames leave alone. *)
Record same_streams (c c' : sc) : Prop := {
  ss_heap : heap c' = heap c;
  ss_streams : streams c' = streams c;
  ss_sched : writeSched c' = writeSched c;
  ss_fls : fls c' = fls c;
  ss_max : maxFrameSize c' = maxFrameSize c;
  ss_away : inGoAway c' = inGoAway c /\ goAwayCode c' = goAwayCode c;
  ss_loop : inFrameScheduleLoop c' = inFrameScheduleLoop c }.

Lemma reply_same wr err (c c' : sc) : reply wr err c = Ok c' -> same_streams c c'.
Proof. intros H. unfold reply in H. step_in H as r E. destruct r as [w ch]. injection H as <-. by destruct ch. Qed.

Lemma same_streams_trans a b c : same_streams a b -> same_streams b c -> same_streams a c.
Proof. intros [A1 A2 A3 A4 A5 [A6 A7] A8] [B1 B2 B3 B4 B5 [B6 B7] B8]. split; first [split; congruence|congruence]. Qed.

Lemma wroteFrame_plain S wr err (c c' : sc) : (forall c, inFrameScheduleLoop c = true -> S c = Ok c) -> inFrameScheduleLoop c = true -> plain wr ->
  wroteFrame srv S wr err c = Ok c' -> same_streams c c'.
Proof.
  intros HS Hl Hp H. unfold wroteFrame in H. destruct (negb _); [done|]. cbv zeta in H. fold (drop_flight c) in H.
  assert (H2 : same_streams c (drop_flight c)) by (by split). step_in H as b Eb.
  assert (Hend : reply wr err (drop_flight c) ≫= (fun c => S c) = Ok c').
  { unfold plain in Hp. destruct (write wr) as [w|]; [|done]. destruct w; try done; cbn [writeEndsStream] in Eb; injection Eb as <-; cbn [mbind outcome_bind] in H; exact H. }
  step_in Hend as c3 E3. apply reply_same in E3. rewrite HS in Hend by (by rewrite (ss_loop _ _ E3)). injection Hend as <-. by eapply same_streams_trans.
Qed.

Lemma start_plain S wr (c c' : sc) : (forall c, inFrameScheduleLoop c = true -> S c = Ok c) -> inFrameScheduleLoop c = true -> plain wr ->
  start S wr c = Ok c' -> same_streams c c'.
Proof.
  intros HS Hl Hp H. unfold startFrameWrite in H. destruct (writingFrame c); [done|]. step_in H as b Eb. destruct b; [|done]. cbn [negb] in H.
  step_in H as r Er. destruct r as [c1 r].
  assert (Hr : c1 = c /\ r = inl wr).
  { unfold plain in Hp. destruct (write wr) as [w|]; [|done]. destruct w; try done; by injection Er as <- <-. }
  destruct Hr as [-> ->]. step_in H as w Ew. cbv zeta in H. destruct (staysWithinBuffer w _); [|injection H as <-; by split].
  apply wroteFrame_plain in H; [|done|done|done]. eapply same_streams_trans; [|exact H]. by split.
Qed.

(** Only such frames can be taken. *)
Definition calm (c : sc) : Prop := pop_disabled c \/
  Forall plain (Random.zero (writeSched c)) /\
  forall id, Forall plain (queue_of id (writeSched c)) \/ queue_of id (writeSched c) <> [] /\ blocked (maxFrameSize c) (fls c) (queue_of id (writeSched c)).

Lemma calm_same c c' : same_streams c c' -> calm c -> calm c'.
Proof. intros [S1 S2 S3 S4 S5 [S6 S7] S8] H. unfold calm, pop_disabled in *. by rewrite S3, S4, S5, S6, S7. Qed.

Lemma plain_unlimited wr : plain wr -> unlimited wr = true.
Proof. unfold plain, unlimited. by destruct (write wr) as [[]|]. Qed.

Lemma pop_calm Y (c c' : sc) wr : inv Y c -> calm c -> pop range_queues c = Ok (Some wr, c') ->
  plain wr /\ calm c' /\ heap c' = heap c /\ streams c' = streams c /\ inFrameScheduleLoop c' = inFrameScheduleLoop c.
Proof.
  intros Hi Hc H. unfold pop in H. destruct (negb (inGoAway c) || (goAwayCode c =? ErrCodeNo)) eqn:Ed; [|by injection H].
  destruct Hc as [[Hp1 Hp2]|[Hz Hq]]; [by rewrite Hp1, (proj2 (Z.eqb_neq _ _) Hp2) in Ed|].
  step_in H as x Ex. destruct x as [[[wr' ok] ws] fs].
  destruct (Pop_cases (range_queues (frames c)) (maxFrameSize c) (fls c) (writeSched c) (fun id => queues_ok srv Y c id Hi) (range_keys _ _))
    as [(wr0 & z & Ez & Hp)|[(Hp & Ez & Hb)|(wr0 & id & q' & fs' & Ez & Hp & Hpp & Hnb)]]; rewrite Hp in Ex; injection Ex as <- <- <- <-.
  - injection H as <- <-. rewrite Ez in Hz. apply Forall_cons in Hz as [Hw Hz]. split; [done|]. split; [|done]. right. by split.
  - by injection H.
  - injection H as <- <-. destruct (Hq id) as [Ha|[Hne Hb]].
    + remember (queue_of id (writeSched c)) as q eqn:Eq. destruct Hpp as [wr q Hu|wr q s cc ws wc Hu|sid p e s d q cc ws wc a Hl Hx Hle];
        apply Forall_cons in Ha as [Hw Ha]; [|by rewrite plain_unlimited in Hu|done].
      split; [done|]. split; [|done]. right. cbn [writeSched set_fls set_writeSched Random.zero]. split; [done|]. intros i. unfold queue_of. cbn [Random.sq].
      destruct (decide (i = id)) as [->|]; [rewrite lookup_insert_eq; by left|]. rewrite lookup_insert_ne by done. apply Hq.
    + by destruct Hnb.
Qed.

Lemma schedule_loop_calm Y S fuel c c' : (forall c, inFrameScheduleLoop c = true -> S c = Ok c) ->
  (forall Y c c', inv Y c -> S c = Ok c' -> keeps Y c c' /\ settled c') ->
  inv Y c -> inFrameScheduleLoop c = true -> calm c -> schedule_loop range_queues (start S) fuel c = Ok c' -> heap c' = heap c /\ streams c' = streams c.
Proof.
  intros HS HK. revert c. induction fuel as [|fuel IH]; intros c Hi Hl Hc H; cbn [schedule_loop] in H; (destruct (writingFrameAsync c); [by injection H as <-|]); [done|].
  assert (Hround : forall wr c0 c1 c2, inv Y c0 -> calm c0 -> inFrameScheduleLoop c0 = true -> heap c0 = heap c -> streams c0 = streams c -> plain wr -> linked_req (heap c0) wr ->
            start S wr c0 = Ok c1 -> same_streams c1 c2 -> (inv Y c1 -> inv Y c2) ->
            schedule_loop range_queues (start S) fuel c2 = Ok c' -> heap c' = heap c /\ streams c' = streams c).
  { intros wr c0 c1 c2 H0 C0 L0 E1 E2 Hp Hw Hs Hsame Hi2 Hn. destruct (start_ok srv ParseRequestURI Available writeErr S HS HK Y wr c0 c1 H0 L0 Hw Hs) as (Hi1 & _ & L1).
    pose proof (same_streams_trans _ _ _ (start_plain _ _ _ _ HS L0 Hp Hs) Hsame) as Hs2. rewrite <- E1, <- E2, <- (ss_heap _ _ Hs2), <- (ss_streams _ _ Hs2).
    apply IH; [by apply Hi2|by rewrite (ss_loop _ _ Hs2)|by eapply calm_same|done]. }
  destruct (needToSendGoAway c); [|destruct (needToSendSettingsAck c)].
  - step_in H as c1 E1. eapply Hround; [| | | | | | |exact E1|by split|done|exact H]; [by destruct Hi; split|exact Hc|done|done|done|exact I|apply on_conn_linked].
  - step_in H as c1 E1. eapply Hround; [| | | | | | |exact E1|by split|done|exact H]; [by destruct Hi; split|exact Hc|done|done|done|exact I|apply on_conn_linked].
  - step_in H as r Er. destruct r as [[wr|] c1].
    + destruct (pop_calm Y _ _ _ Hi Hc Er) as (Hp & Hc1 & Eh & Es & El). destruct (pop_Ok srv range_queues range_keys Y _ _ _ Hi Er) as (Hi1 & _ & Hw).
      step_in H as c2 E2. eapply Hround; [exact Hi1|exact Hc1|congruence|exact Eh|exact Es|exact Hp|exact Hw|exact E2|by split|done|exact H].
    + destruct (pop_Ok srv range_queues range_keys Y _ _ _ Hi Er) as [-> _]. destruct (needsFrameFlush c); [|by injection H as <-].
      step_in H as c2 E2. eapply (Hround (on_conn flushFrameWriter) c c2 (set_needsFrameFlush false c2)); [done..|exact I|apply on_conn_linked|exact E2|by split| |exact H].
      intros Hx. by destruct Hx; split.
Qed.

Lemma sched_calm Y c c' : inv Y c -> inFrameScheduleLoop c = false -> writingFrame c = true \/ calm c -> sched c = Ok c' -> heap c' = heap c /\ streams c' = streams c.
Proof.
  intros Hi Hl Hc H. unfold schedule in H. cbn [scheduleFrameWrite] in H. rewrite Hl, orb_false_r in H. destruct (writingFrame c); [by injection H as <-|].
  destruct Hc as [|Hc]; [done|]. cbv zeta in H. step_in H as c1 E1. injection H as <-.
  change (fun c => if writingFrame c || inFrameScheduleLoop c then Ok c else Panic) with (scheduleFrameWrite srv ParseRequestURI Available writeErr range_queues 0) in E1.
  eapply (schedule_loop_calm Y) in E1; [exact E1|apply (sched_loops srv ParseRequestURI Available writeErr range_queues 0)|
    apply (sched_schedules srv ParseRequestURI Available writeErr range_queues range_keys 0)|by destruct Hi; split|done|exact Hc].
Qed.

Lemma settled_calm (c : sc) wr : inFrameScheduleLoop c = false -> pool_ok (writeSched c) -> settled c -> plain wr ->
  writingFrame c = true \/ calm (set_writeSched (Random.Push wr (writeSched c)) c).
Proof.
  intros Hl Hp [L|[L|(_ & _ & L)]] Hw; [congruence|by left|right]. unfold calm. destruct L as [L|[Hz Hb]]; [by left|right].
  cbn [writeSched set_writeSched fls maxFrameSize]. destruct (Push_rest wr _ Hp) as (_ & Ez & _). rewrite Ez, Hz. split.
  - destruct (StreamID wr =? 0); [by apply Forall_singleton|done].
  - intros id. rewrite Push_queue by done. assert (Hq : Forall plain (queue_of id (writeSched c)) \/ queue_of id (writeSched c) <> [] /\ blocked (maxFrameSize c) (fls c) (queue_of id (writeSched c))).
    { unfold queue_of. destruct (Random.sq (writeSched c) !! id) as [q|] eqn:E; [|left; constructor]. destruct q as [|w q]; [left; constructor|]. right. split; [done|]. by apply (Hb id). }
    destruct (decide _); [|exact Hq]. destruct Hq as [Hq|[Hne Hq]].
    + left. apply Forall_app. split; [done|by apply Forall_singleton].
    + right. destruct (queue_of id (writeSched c)) as [|w q]; [done|]. split; [done|exact Hq].
Qed.

(** A window update of a settled connection changes no stream. *)
Lemma sendWindowUpdate32_quiet Y id k c c' : inv Y c -> inFrameScheduleLoop c = false -> settled c -> sendWindowUpdate32 sched id k c = Ok c' ->
  heap c' = heap c /\ streams c' = streams c.
Proof.
  intros Hi Hl Hs H. unfold sendWindowUpdate32 in H. destruct (k =? 0); [by injection H as <-|]. destruct (k <? 0); [done|].
  step_in H as r E. destruct r as [[sid st] p]. step_in H as c1 E1. step_in H as r E2. destruct r as [c2 ok]. destruct ok; [|done]. injection H as <-.
  unfold flow_add in E2. step_in E2 as r F. destruct r as [fs b]. injection E2 as <- _. cbn [heap streams set_fls].
  unfold writeFrame in E1. cbn [write] in E1. cbv zeta in E1. cbn [mbind outcome_bind] in E1.
  set (ig := _ && negb (is_reset _)) in E1. assert (Hst : linked_req (heap c) (mkReq (Some (writeWindowUpdate sid (u32 k))) st None)).
  { destruct id as [id|]; [|injection E as <- <- <-; by intros s [=]]. step_in E as st0 E0. injection E as <- <- <-. apply get_stream_Ok in E0.
    intros s [= <-]. by exists st0. }
  destruct ig.
  - destruct Hs as [Hs|[Hs|Hs]]; [congruence|by eapply sched_calm; [|done|by left|exact E1]|]. eapply sched_calm; [exact Hi|done| |exact E1].
    right. destruct Hs as (_ & _ & [Hs|[Hz Hb]]); [by left|right]. rewrite Hz. split; [constructor|]. intros i. unfold queue_of.
    destruct (Random.sq (writeSched c) !! i) as [q|] eqn:Eq; [|left; constructor]. destruct q as [|w q]; [left; constructor|]. right. split; [done|]. by apply (Hb i).
  - pose proof (settled_calm c (mkReq (Some (writeWindowUpdate sid (u32 k))) st None) Hl (qi_pool _ _ _ (v_queues _ _ _ Hi)) Hs I) as Hc.
    eapply sched_calm in E1; [exact E1|by apply keeps_push|done|exact Hc].
Qed.
End calm.

Section frames.
Context {B : Type} `{!PipeBuffer B}.
Variable newBuffer : Z -> B.
Variable srv : Server.
Variable ParseRequestURI : bytes -> bool.
Variable Available : nat -> Z.
Variable writeErr : nat -> option handler_error.
Variable range_queues : nat -> gmap Z writeQueue -> list Z.
Variable range_streams : nat -> list Z -> list Z.
Hypothesis range_keys : forall k m, range_queues k m ≡ₚ (map_to_list m).*1.

Abbreviation sc := (serverConn B).
Abbreviation inv := (inv (B := B) (maxConcurrentStreams srv)).
Abbreviation keeps := (keeps (B := B) (maxConcurrentStreams srv) ∅).
Abbreviation sched := (schedule srv ParseRequestURI Available writeErr range_queues).

Lemma schedules Y c c' : inv Y c -> sched c = Ok c' -> Http2ServerKeep.keeps (maxConcurrentStreams srv) Y c c' /\ settled c'.
Proof. by apply schedule_keeps. Qed.

Lemma then_ok_Ok (r : fl sc) c' e : then_ok r = Ok (c', e) -> r = Ok c' /\ e = None.
Proof. unfold then_ok. intros H. step_in H as c E. by injection H as <- <-. Qed.

Lemma keep_chain c1 c2 c3 : keeps c1 c2 -> keeps c2 c3 -> keeps c1 c3.
Proof. apply keeps_trans. Qed.

(** A step that ends with scheduling need not keep the connection settled. *)
Lemma keeps_sched (c c1 c2 : sc) : inv ∅ c1 -> grows c c1 -> sched c1 = Ok c2 -> keeps c c2.
Proof. intros Hi G H. destruct (schedules _ _ _ Hi H) as [K S]. split; [apply K| |done]. etransitivity; [exact G|apply K]. Qed.

Lemma keeps_settled (c c' : sc) : keeps c c' /\ settled c' -> keeps c c'.
Proof. by intros [H _]. Qed.

(** * Windows for what the server sends *)

Lemma inv_out Y (c c' : sc) p k ok : inv Y c -> (p = conn_flow \/ exists id st, heap c !! id = Some st /\ s_flow st = p) -> flow_add p k c = Ok (c', ok) ->
  inv Y c' /\ grows c c' /\ (ok = false -> c' = c) /\ heap c' = heap c /\ streams c' = streams c.
Proof.
  intros Hi Hp H. unfold flow_add in H. step_in H as r E. destruct r as [fs b]. injection H as <- <-.
  assert (Hx : exists w cc, fls c !! p = Some (mkFlow w cc) /\ (cc = None /\ p = conn_flow \/ cc = Some conn_flow)).
  { destruct (v_flows _ _ _ Hi) as [(w & Hw & _) _ H3 _ _]. destruct Hp as [->|(id & st & Hst & <-)]; [exists w, None; auto|].
    destruct (H3 _ _ Hst) as (v & Hv & _). exists v, (Some conn_flow). auto. }
  destruct Hx as (w & cc & Ep & Hcc). split; [|split; [split; [done|]; intros id st Hst; by exists st|split; [|done]]].
  - destruct Hi as [V1 V2 V3 V4 V5 V6]. split; [|done..]. cbn [fls heap fresh set_fls].
    destruct (add_Ok _ _ _ _ _ _ Ep E) as [[-> _]|(v & -> & Hv & _)]; [done|]. cbn [conn]. destruct V1 as [(w1 & H1 & Hw1) (w2 & H2 & Hw2) H3 H4 H5].
    assert (Hin : conn_inflow <> p). { intros <-. rewrite H2 in Ep. injection Ep as <- <-. by destruct Hcc as [[_ Hx]|Hx]. }
    split.
    + destruct (decide (p = conn_flow)) as [->|Hne]; [|exists w1; by rewrite lookup_insert_ne].
      rewrite H1 in Ep. injection Ep as <- <-. rewrite lookup_insert_eq. by exists v.
    + exists w2. by rewrite lookup_insert_ne.
    + intros id st Hst. destruct (H3 _ _ Hst) as (u & Hu & Huw). destruct (decide (p = s_flow st)) as [->|Hne]; [|exists u; by rewrite lookup_insert_ne].
      rewrite Hu in Ep. injection Ep as <- <-. rewrite lookup_insert_eq. by exists v.
    + intros id st Hst. destruct (H4 _ _ Hst) as (u & Hu & Huw). rewrite lookup_insert_ne; [by exists u|]. intros ->. rewrite Hu in Ep. injection Ep as <- <-.
      by destruct Hcc as [[Hx _]|Hx].
    + intros q [x Hq]. destruct (decide (p = q)) as [<-|]; [apply H5; by eexists|]. rewrite lookup_insert_ne in Hq by done. apply H5. by eexists.
  - intros ->. destruct (add_Ok _ _ _ _ _ _ Ep E) as [[-> _]|(v & _ & _ & Hx & _)]; [by destruct c|done].
Qed.

(** * Frames *)

Lemma processPing_keeps h data c c' e : inv ∅ c -> processPing srv ParseRequestURI Available writeErr range_queues h data c = Ok (c', e) -> keeps c c'.
Proof.
  intros Hi H. unfold processPing in H. destruct (PingFrame_IsAck h); [injection H as <- _; by apply keeps_refl|].
  destruct (negb _); [injection H as <- _; by apply keeps_refl|]. destruct (_ && _); [injection H as <- _; by apply keeps_refl|].
  apply then_ok_Ok in H as [H _]. apply keeps_settled. eapply writeFrame_keeps; [apply schedules|done|apply on_conn_linked|exact H].
Qed.

Lemma processWindowUpdate_keeps h i c c' e : inv ∅ c -> processWindowUpdate srv ParseRequestURI Available writeErr range_queues h i c = Ok (c', e) -> keeps c c'.
Proof.
  intros Hi H. unfold processWindowUpdate in H. cbv zeta in H. assert (R : keeps c c) by (by apply keeps_refl). destruct (negb (_ =? 0)).
  - destruct (bool_decide _); [by injection H as <- _|]. destruct (decide _); [|by injection H as <- _].
    step_in H as st Est. apply get_stream_Ok in Est. step_in H as r E. destruct r as [c1 ok].
    destruct (inv_out ∅ c c1 _ _ ok Hi (or_intror (ex_intro _ _ (ex_intro _ _ (conj Est eq_refl)))) E) as (H1 & G1 & Hc1 & _). destruct ok; cbn [negb] in H.
    + apply then_ok_Ok in H as [H _]. by eapply keeps_sched.
    + injection H as <- _. by rewrite Hc1.
  - step_in H as r E. destruct r as [c1 ok]. destruct (inv_out ∅ c c1 _ _ ok Hi (or_introl eq_refl) E) as (H1 & G1 & Hc1 & _). destruct ok; cbn [negb] in H.
    + apply then_ok_Ok in H as [H _]. by eapply keeps_sched.
    + injection H as <- _. by rewrite Hc1.
Qed.

Lemma processResetStream_keeps h code c c' e : inv ∅ c -> processResetStream srv ParseRequestURI Available writeErr range_queues h code c = Ok (c', e) -> keeps c c'.
Proof.
  intros Hi H. unfold processResetStream in H. cbv zeta in H. destruct (bool_decide _); [injection H as <- _; by apply keeps_refl|].
  destruct (decide _); [|injection H as <- _; by apply keeps_refl]. apply then_ok_Ok in H as [H _]. eapply closeStream_keeps; [apply schedules|done|exact H].
Qed.

(** ** Settings: the windows change before anything is sent *)

Lemma grow_loop_inv ids g c c' e : inv ∅ c -> grow_loop ids g c = Ok (c', e) -> inv ∅ c' /\ grows c c'.
Proof.
  revert c. induction ids as [|id ids IH]; intros c Hi H; cbn [grow_loop] in H; [injection H as <- _; by split|].
  step_in H as st Est. apply get_stream_Ok in Est. step_in H as r E. destruct r as [c1 ok].
  destruct (inv_out ∅ c c1 _ _ ok Hi (or_intror (ex_intro _ _ (ex_intro _ _ (conj Est eq_refl)))) E) as (H1 & G1 & _). destruct ok; cbn [negb] in H.
  - destruct (IH _ H1 H) as [H2 G2]. split; [done|by etransitivity].
  - injection H as <- _. by split.
Qed.

Lemma processSetting_inv s c c' e : inv ∅ c -> processSetting range_streams s c = Ok (c', e) -> inv ∅ c' /\ grows c c'.
Proof.
  intros Hi H. unfold processSetting in H. destruct (Setting_Valid s); [injection H as <- _; by split|]. cbv zeta in H.
  assert (Hset : forall c1, inv ∅ c1 /\ grows c c1 -> Ok (E := Empty_set) (c1, None (A := proc_error)) = Ok (c', e) -> inv ∅ c' /\ grows c c') by (by intros c1 Hc1 [= <- _]).
  destruct (ID s =? SettingHeaderTableSize).
  { eapply Hset; [|exact H]. assert (K : keeps (set_headerTableSize (Val s) c) (log_effect (EEncoderTable (Val s)) (set_headerTableSize (Val s) c))) by (apply keeps_effect; [by destruct Hi; split|done]).
    split; [apply K|]. etransitivity; [|apply K]. split; [done|]. intros id st E. by exists st. }
  destruct (ID s =? SettingEnablePush); [eapply Hset; [|exact H]; split; [by destruct Hi; split|split; [done|]; intros id st E; by exists st]|].
  destruct (ID s =? SettingMaxConcurrentStreams); [eapply Hset; [|exact H]; split; [by destruct Hi; split|split; [done|]; intros id st E; by exists st]|].
  destruct (ID s =? SettingInitialWindowSize).
  { unfold processSettingInitialWindowSize in H. cbv zeta in H. apply grow_loop_inv in H as [H1 G1]; [|by destruct Hi; split]. split; [done|].
    etransitivity; [|exact G1]. split; [done|]. intros id st E. by exists st. }
  destruct (ID s =? SettingMaxFrameSize); [eapply Hset; [|exact H]; split; [by destruct Hi; split|split; [done|]; intros id st E; by exists st]|].
  destruct (ID s =? SettingMaxHeaderListSize); (eapply Hset; [|exact H]; split; [by destruct Hi; split|split; [done|]; intros id st E; by exists st]).
Qed.

Lemma settings_loop_inv buf c c' e : inv ∅ c -> settings_loop range_streams buf c = Ok (c', e) -> inv ∅ c' /\ grows c c'.
Proof.
  remember (length buf) as n eqn:En. assert (Hn : (length buf <= n)%nat) by lia. clear En. revert buf Hn c.
  induction n as [n IH] using lt_wf_ind. intros buf Hn c Hi H.
  destruct buf as [|b0 [|b1 [|b2 [|b3 [|b4 [|b5 buf]]]]]]; try done; cbn [settings_loop] in H; [injection H as <- _; by split|].
  step_in H as r E. destruct r as [c1 e1]. apply processSetting_inv in E as [H1 G1]; [|done]. destruct e1; [injection H as <- _; by split|].
  cbn [length] in Hn. destruct (IH (n - 1)%nat ltac:(lia) buf ltac:(lia) c1 H1 H) as [H2 G2]. split; [done|by etransitivity].
Qed.

(** The new windows are used at once, unless the frame is refused. *)
Lemma processSettings_keeps h p c c' e : inv ∅ c -> processSettings srv ParseRequestURI Available writeErr range_queues range_streams h p c = Ok (c', e) ->
  inv ∅ c' /\ grows c c' /\ (settled c -> e = None \/ SettingsFrame_IsAck h = true -> settled c').
Proof.
  intros Hi H. unfold processSettings in H. destruct (SettingsFrame_IsAck h).
  - cbv zeta in H. injection H as <- _. split; [by destruct Hi; split|]. split; [split; [done|]; intros id st E; by exists st|].
    intros [L|[L|L]] _; [by left|by right; left|right; right; exact L].
  - step_in H as r E. destruct r as [c1 e1]. apply settings_loop_inv in E as [H1 G1]; [|done]. destruct e1.
    + injection H as <- <-. split; [done|]. split; [done|]. by intros _ [|].
    + apply then_ok_Ok in H as [H ->]. destruct (schedules ∅ (set_needToSendSettingsAck true c1) c') as [K S]; [by destruct H1; split|exact H|].
      split; [apply K|]. split; [|done]. etransitivity; [exact G1|]. etransitivity; [|apply K]. split; [done|]. intros id st E'. by exists st.
Qed.

(** ** Data *)

Lemma take_conn_in Y (c : sc) k fs' : inv Y c -> 0 <= k -> take conn_inflow k (fls c) = Ok fs' -> in_change (fls c) fs'.
Proof.
  intros Hi Hk H. destruct (fi_in _ _ _ (v_flows _ _ _ Hi)) as (w & Hw & Hr). unfold take, available, sub_n, deref in H. rewrite Hw in H.
  cbn [or_panic mbind outcome_bind conn Http2Flow.n] in H. destruct (Z.ltb_spec w k); [done|]. rewrite lookup_insert_eq in H. cbn [or_panic mbind outcome_bind conn] in H.
  injection H as <-. rewrite i32_id by (unfold window; lia). eapply in_change_conn; [exact Hw|lia].
Qed.

Lemma take_body_in Y (c : sc) id st k fs' : inv Y c -> heap c !! id = Some st -> 0 <= k -> take (s_inflow st) k (fls c) = Ok fs' -> in_change (fls c) fs'.
Proof.
  intros Hi E Hk H. destruct (in_pointer _ _ _ _ _ Hi E) as (w & Hw & Hr & N1 & N2). destruct (fi_in _ _ _ (v_flows _ _ _ Hi)) as (v & Hv & Hvr).
  rewrite (take_spec (fls c) (s_inflow st) conn_inflow w v k) in H; [|by split_and!|done|unfold window; lia|done].
  case_decide as Hle; [|done]. injection H as <-. unfold window in Hr. split.
  - split; [by rewrite !lookup_insert_ne|]. intros p u Hp. rewrite !lookup_insert_ne; [done| |]; intros <-; [by rewrite Hw in Hp|by rewrite Hv in Hp].
  - intros u _ _. exists (v - k). rewrite lookup_insert_eq. split; [done|lia].
  - intros p u Hp Hu. destruct (decide (conn_inflow = p)) as [<-|Hne]; [by rewrite Hv in Hp|]. rewrite lookup_insert_ne by done.
    destruct (decide (s_inflow st = p)) as [<-|Hne2]; [|exists u; by rewrite lookup_insert_ne].
    exists (w - k). rewrite lookup_insert_eq. split; [done|]. unfold window. lia.
  - intros p [x Hx]. destruct (decide (conn_inflow = p)) as [<-|Hne]; [by eexists|]. rewrite lookup_insert_ne in Hx by done.
    destruct (decide (s_inflow st = p)) as [<-|Hne2]; [by eexists|]. rewrite lookup_insert_ne in Hx by done. by eexists.
Qed.

Lemma refuse_data_keeps id length already c c' e : inv ∅ c -> 0 <= length < 2 ^ 31 ->
  refuse_data srv ParseRequestURI Available writeErr range_queues id length already c = Ok (c', e) -> keeps c c'.
Proof.
  intros Hi Hl H. unfold refuse_data in H. rewrite i32_id in H by (unfold window; lia). step_in H as q Eq. destruct (q <? length); [injection H as <- _; by apply keeps_refl|].
  step_in H as fs E. step_in H as c1 E1. injection H as <- _. pose proof (keeps_in _ _ _ _ Hi (take_conn_in _ _ _ _ Hi (proj1 Hl) E)) as K.
  eapply keep_chain; [exact K|]. eapply sendWindowUpdate_keeps; [apply schedules|apply K|exact E1].
Qed.

(** The stream [id] goes on as it was. *)
Definition same_state (id : Z) (c c' : sc) : Prop := forall st, heap c !! id = Some st ->
  exists st', heap c' !! id = Some st' /\ s_state st' = s_state st /\ resetQueued st' = resetQueued st.

Lemma same_state_trans id c1 c2 c3 : same_state id c1 c2 -> same_state id c2 c3 -> same_state id c1 c3.
Proof. intros H1 H2 st E. destruct (H1 st E) as (st1 & E1 & ? & ?). destruct (H2 st1 E1) as (st2 & E2 & ? & ?). exists st2. split_and!; congruence. Qed.

Lemma same_heap id (c c' : sc) : heap c' = heap c -> same_state id c c'.
Proof. intros H st E. exists st. by rewrite H. Qed.

Lemma upd_same id f (c c' : sc) : (forall st, s_state (f st) = s_state st /\ resetQueued (f st) = resetQueued st) -> upd_stream id f c = Ok c' -> same_state id c c'.
Proof.
  intros Hf H st E. rewrite (upd_stream_Some _ _ _ _ E) in H. injection H as <-. exists (f st). cbn [heap set_heap]. rewrite lookup_insert_eq.
  split; [done|]. apply Hf.
Qed.

Lemma write_body_keeps id data p c c' e : inv ∅ c -> write_body id data p c = Ok (c', e) -> keeps c c' /\ same_state id c c'.
Proof.
  intros Hi H. unfold write_body in H. destruct (0 <? len data); [|injection H as <- _; split; [by apply keeps_refl|by apply same_heap]].
  destruct (pipe_Write data p) as [p' a]. step_in H as c1 E1.
  assert (K1 : keeps c c1 /\ same_state id c c1).
  { split; [eapply upd_stream_keeps; [done| |exact E1]; by intros st|]. by eapply upd_same; [|exact E1]. }
  destruct a; [|by injection H as <- _|done]. destruct (negb _); [done|]. step_in H as c2 E2. injection H as <- _. split.
  - eapply keep_chain; [apply K1|]. eapply upd_stream_keeps; [apply K1| |exact E2]. by intros st.
  - eapply same_state_trans; [apply K1|]. by eapply upd_same; [|exact E2].
Qed.

Lemma loop_keeps (c c' : sc) : keeps c c' -> inFrameScheduleLoop c = false -> inFrameScheduleLoop c' = false.
Proof. intros K H. by rewrite (gr_loop _ _ (k_grows _ _ _ _ K)). Qed.

Lemma take_data_keeps id length data st p c c' e : inv ∅ c -> inFrameScheduleLoop c = false -> settled c -> 0 <= length < 2 ^ 31 -> heap c !! id = Some st ->
  take_data srv ParseRequestURI Available writeErr range_queues id length data st p c = Ok (c', e) -> keeps c c' /\ (e = None -> same_state id c c').
Proof.
  intros Hi Hloop Hs Hl Est H. unfold take_data in H. rewrite (i32_id length) in H by (unfold window; lia). step_in H as q Eq.
  destruct (q <? length); [injection H as <- <-; split; [by apply keeps_refl|done]|]. step_in H as fs E. step_in H as r E1. destruct r as [c1 e1].
  pose proof (keeps_in _ _ _ _ Hi (take_body_in _ _ _ _ _ _ Hi Est (proj1 Hl) E)) as K0. apply write_body_keeps in E1 as [K1 S1]; [|apply K0].
  assert (K : keeps c c1) by (by eapply keep_chain). assert (Hst : same_state id c c1) by (intros x Hx; by apply S1).
  destruct e1; [by injection H as <- <-|]. cbv zeta in H. destruct (0 <? _); [|by injection H as <- <-].
  step_in H as c2 E2. apply then_ok_Ok in H as [H ->].
  pose proof (sendWindowUpdate32_keeps _ _ schedules ∅ _ _ _ _ (k_inv _ _ _ _ K) E2) as K2.
  pose proof (sendWindowUpdate32_quiet _ _ _ _ _ range_keys ∅ _ _ _ _ (k_inv _ _ _ _ K) (loop_keeps _ _ K Hloop) (k_settled _ _ _ _ K Hs) E2) as [Q2 _].
  assert (K' : keeps c c2) by (by eapply keep_chain).
  pose proof (sendWindowUpdate32_keeps _ _ schedules ∅ _ _ _ _ (k_inv _ _ _ _ K') H) as K3.
  pose proof (sendWindowUpdate32_quiet _ _ _ _ _ range_keys ∅ _ _ _ _ (k_inv _ _ _ _ K') (loop_keeps _ _ K' Hloop) (k_settled _ _ _ _ K' Hs) H) as [Q3 _].
  split; [by eapply keep_chain|]. intros _. eapply same_state_trans; [exact Hst|]. eapply same_state_trans; [by apply same_heap|by apply same_heap].
Qed.

Lemma endStream_keeps id st c c' : inv ∅ c -> heap c !! id = Some st -> ~ silent (s_state st) -> endStream id c = Ok c' -> keeps c c'.
Proof.
  intros Hi E Hs H. unfold endStream in H. rewrite (get_stream_Some _ _ _ E) in H. cbn [mbind outcome_bind] in H. step_in H as p Ep. cbv zeta in H.
  rewrite (upd_stream_Some _ _ _ _ E) in H. injection H as <-. by eapply keeps_remote.
Qed.

Lemma state_of id (c : sc) st : id ∈ streams c -> heap c !! id = Some st -> sc_state id c = s_state st.
Proof. intros Hl E. unfold sc_state. rewrite decide_True by done. by rewrite E. Qed.

Lemma processData_keeps h data c c' e : inv ∅ c -> inFrameScheduleLoop c = false -> settled c -> 0 <= Http2Frame.Length h < 2 ^ 31 ->
  processData srv ParseRequestURI Available writeErr range_queues h data c = Ok (c', e) -> keeps c c'.
Proof.
  intros Hi Hloop Hs Hl H. unfold processData in H. cbv zeta in H. assert (R : keeps c c) by (by apply keeps_refl). destruct (_ && _); [by injection H as <- _|].
  destruct (_ || _); [by injection H as <- _|]. destruct (decide _) as [Hlive|]; [|by eapply refuse_data_keeps].
  step_in H as st Est. apply get_stream_Ok in Est. set (id := Http2Frame.StreamID h) in *. rewrite (state_of _ _ _ Hlive Est) in H.
  destruct (bool_decide (s_state st = stateOpen)) eqn:Eo; cbn [negb orb] in H; [|by eapply refuse_data_keeps].
  apply bool_decide_eq_true in Eo. destruct (gotTrailerHeader st || resetQueued st); [by eapply refuse_data_keeps|].
  step_in H as p Ep. destruct (_ && _).
  { step_in H as c1 E1. injection H as <- _. eapply upd_stream_keeps; [done| |exact E1]. by intros x. }
  step_in H as r E1. destruct r as [c1 e1].
  assert (K1 : keeps c c1 /\ (e1 = None -> same_state id c c1)).
  { destruct (0 <? Http2Frame.Length h); [by eapply take_data_keeps|]. injection E1 as <- <-. split; [done|]. intros _. by apply same_heap. }
  destruct K1 as [K1 S1]. destruct e1; [by injection H as <- _|]. destruct (Has _ _); [|by injection H as <- _].
  apply then_ok_Ok in H as [H _]. destruct (S1 eq_refl st Est) as (st' & Est' & Hst' & _). eapply keep_chain; [exact K1|].
  eapply endStream_keeps; [apply K1|exact Est'| |exact H]. rewrite Hst', Eo. by intros [|].
Qed.

Lemma processGoAway_keeps c c' e : inv ∅ c -> processGoAway srv ParseRequestURI Available writeErr range_queues c = Ok (c', e) -> keeps c c'.
Proof.
  intros Hi H. unfold processGoAway in H. step_in H as c1 E1. injection H as <- _. pose proof (goAwayIn_keeps _ _ schedules _ _ _ _ _ Hi E1) as K.
  destruct K as [K1 K2 K3]. split; [by destruct K1; split| |].
  - etransitivity; [exact K2|]. split; [done|]. intros id st E. by exists st.
  - intros Hs. destruct (K3 Hs) as [L|[L|L]]; [by left|by right; left|right; right; exact L].
Qed.

(** ** Headers *)

Lemma processTrailerHeaders_keeps id f c c' e : inv ∅ c -> id ∈ streams c -> (forall st, heap c !! id = Some st -> resetQueued st = false) ->
  processTrailerHeaders id f c = Ok (c', e) -> keeps c c'.
Proof.
  intros Hi Hl Hr H. unfold processTrailerHeaders in H. step_in H as st Est. apply get_stream_Ok in Est. assert (R : keeps c c) by (by apply keeps_refl).
  assert (Hns : ~ silent (s_state st)).
  { destruct (si_live _ _ _ _ _ (v_streams _ _ _ Hi) _ Hl) as (st' & E' & Hc). assert (st' = st) as -> by congruence. intros [Hx|Hx]; [|done].
    pose proof (si_local _ _ _ _ _ (v_streams _ _ _ Hi) _ _ Est Hx (not_elem_of_empty _)) as Hq. by rewrite (Hr _ Est) in Hq. }
  destruct (gotTrailerHeader st); [by injection H as <- _|]. rewrite (upd_stream_Some _ _ _ _ Est) in H. cbn [mbind outcome_bind] in H.
  set (st1 := set_gotTrailerHeader true st) in H. set (c1 := set_heap _ c) in H.
  assert (K1 : keeps c c1) by (apply (keeps_upd _ _ c id st (set_gotTrailerHeader true)); [done..|]; by intros x).
  assert (E1 : heap c1 !! id = Some st1) by apply lookup_insert_eq.
  destruct (negb _); [by injection H as <- _|]. destruct (0 <? _); [by injection H as <- _|]. destruct (s_trailer st) as [t|].
  - destruct (trailer_loop _ t) as [t' ok]. rewrite (upd_stream_Some _ _ _ _ E1) in H. cbn [mbind outcome_bind] in H. set (c2 := set_heap _ c1) in H.
    assert (K2 : keeps c1 c2) by (apply (keeps_upd _ _ c1 id st1 (set_s_trailer (Some t'))); [apply K1|done|]; by intros x).
    assert (E2 : heap c2 !! id = Some (set_s_trailer (Some t') st1)) by apply lookup_insert_eq.
    assert (K : keeps c c2) by (by eapply keep_chain). destruct (negb ok); [by injection H as <- _|]. apply then_ok_Ok in H as [H _].
    eapply keep_chain; [exact K|]. eapply endStream_keeps; [apply K|exact E2| |exact H]. exact Hns.
  - apply then_ok_Ok in H as [H _]. eapply keep_chain; [exact K1|]. eapply endStream_keeps; [apply K1|exact E1| |exact H]. exact Hns.
Qed.

Lemma minor_init req : minor (init_stream newBuffer req).
Proof. by intros st. Qed.

Lemma keeps_adjust Y (c : sc) id p : inv Y c -> Http2ServerKeep.keeps (maxConcurrentStreams srv) Y c (set_writeSched (Random.AdjustStream id p (writeSched c)) c).
Proof.
  intros Hi. split; [by destruct Hi; split|split; [done|]; intros i st E; by exists st|].
  intros [L|[L|L]]; [by left|by right; left|right; right; exact L].
Qed.

Lemma isPushed_odd id : negb (id mod 2 =? 1) = false -> isPushed id = false.
Proof. intros H. apply negb_false_iff, Z.eqb_eq in H. unfold isPushed. by rewrite H. Qed.

Lemma processHeaders_keeps f c c' e : inv ∅ c -> Http2Frame.StreamID (mh_Header f) < 2 ^ 31 ->
  processHeaders newBuffer srv ParseRequestURI f c = Ok (c', e) -> keeps c c'.
Proof.
  intros Hi Hid H. unfold processHeaders in H. cbv zeta in H. set (id := Http2Frame.StreamID (mh_Header f)) in *. assert (R : keeps c c) by (by apply keeps_refl).
  destruct (inGoAway c); [by injection H as <- _|]. destruct (negb (id mod 2 =? 1)) eqn:Eodd; [by injection H as <- _|]. apply isPushed_odd in Eodd.
  destruct (decide (id ∈ streams c)) as [Hl|Hn].
  { step_in H as st Est. apply get_stream_Ok in Est. destruct (resetQueued st) eqn:Er; [by injection H as <- _|].
    eapply processTrailerHeaders_keeps; [done|exact Hl| |exact H]. intros st' E'. congruence. }
  destruct (Z.leb_spec id (maxClientStreamID c)); [by injection H as <- _|].
  assert (Hnone : heap c !! id = None) by (eapply unknown; [exact Hi|]; by rewrite Eodd).
  destruct (si_max _ _ _ _ _ (v_streams _ _ _ Hi)) as (Hm & _). pose proof (keeps_maxClient srv _ _ id Hi ltac:(lia)) as K1.
  set (c1 := set_maxClientStreamID id c) in *. set (c2 := if negb (IdleTimeout srv =? 0) then _ else _) in H.
  assert (K2 : keeps c c2 /\ heap c2 = heap c /\ maxClientStreamID c2 = id /\ curClientStreams c2 = curClientStreams c /\ handled (log c2) = handled (log c)).
  { unfold c2. destruct (negb _); [|by split_and!]. split; [|done]. eapply keep_chain; [exact K1|]. by apply keeps_effect; [apply K1|]. }
  clearbody c2. destruct K2 as (K2 & Eh & Em & Ec & Elog). destruct (counts_bound _ _ _ Hi) as [Hb _].
  assert (Hpos : 0 <= curClientStreams c) by (rewrite (ci_client _ _ _ _ (v_counts _ _ _ Hi)); lia). rewrite Ec, u32_id in H by lia.
  destruct (Z.ltb_spec (maxConcurrentStreams srv) (curClientStreams c + 1)); [by injection H as <- _|]. step_in H as c3 E3.
  destruct (newStream_Ok srv ∅ id 0 (if mh_StreamEnded f then stateHalfClosedRemote else stateOpen) c2 c3 (k_inv _ _ _ _ K2) ltac:(by rewrite Eh) ltac:(lia) ltac:(rewrite Eodd; lia) ltac:(lia)
              ltac:(destruct (mh_StreamEnded f); [by right|by left]) E3) as (K3 & Elog3 & _ & _ & fp & gp & Eh3).
  assert (K : keeps c c3) by (by eapply keep_chain). destruct (_ && _); [by injection H as <- _|].
  set (c4 := if HasPriority _ then _ else c3) in H.
  assert (K4 : keeps c c4 /\ heap c4 = heap c3 /\ log c4 = log c3) by (unfold c4; destruct (HasPriority _); [split; [|done]; eapply keep_chain; [exact K|]; apply keeps_adjust; apply K|by split_and!]).
  clearbody c4. destruct K4 as (K4 & Eh4 & El4). destruct (newWriterAndRequest _ _) as [req|]; [|by injection H as <- _].
  step_in H as c5 E5. injection H as <- _. rewrite (upd_stream_Some id _ c4 (new_sstream fp gp (if mh_StreamEnded f then stateHalfClosedRemote else stateOpen))) in E5
    by (rewrite Eh4, Eh3; apply lookup_insert_eq). injection E5 as <-. eapply keep_chain; [exact K4|].
  pose proof (keeps_upd _ _ c4 id _ (init_stream newBuffer req) (k_inv _ _ _ _ K4) ltac:(rewrite Eh4, Eh3; apply lookup_insert_eq) (minor_init req)) as K5.
  eapply keep_chain; [exact K5|]. apply keeps_handler; [apply K5|cbn [heap set_heap]; rewrite lookup_insert_eq; by eexists|].
  cbn [log set_heap]. rewrite El4, Elog3, Elog. by eapply not_handled.
Qed.

Lemma processPriority_keeps h p c c' e : inv ∅ c -> processPriority h p c = Ok (c', e) -> keeps c c'.
Proof.
  intros Hi H. unfold processPriority in H. cbv zeta in H. destruct (inGoAway c); [injection H as <- _; by apply keeps_refl|].
  destruct (negb _); [injection H as <- _; by apply keeps_refl|]. injection H as <- _. by apply keeps_adjust.
Qed.
End frames.
