(* ===== verification/Http2ServerSafe.v ===== *)
(** Every run of a server connection keeps its streams in order:
    [http2/server.go]. *)
From S2P Require Import Prelude GoStrings HpackTables Http2Errors Http2DataBuffer Http2Pipe Http2Frame Http2Framer.
From S2P Require Import Http2Write Http2ServerData Http2Flow Http2WriteSched Http2Server Http2ServerInv Http2ServerKeep.
From S2P Require Import Http2ServerSteps Http2ServerFuel Http2ServerFrames Http2ServerPanics.

Section safe.
Context {B : Type} `{!PipeBuffer B}.
Variable newBuffer : Z -> B.
Variable srv : Server.
Variable ParseRequestURI : bytes -> bool.
Variable Available : nat -> Z.
Variable writeErr : nat -> option handler_error.
Variable range_queues : nat -> gmap Z writeQueue -> list Z.
Variable range_streams : nat -> list Z -> list Z.

Abbreviation sc := (serverConn B).
Abbreviation step := (serve_step newBuffer srv ParseRequestURI Available writeErr range_queues range_streams).

(** * Runs *)

(** A SETTINGS frame that is refused during a graceful shutdown; its error has no
    effect, since [goAwayIn] returns at once. *)
Definition refused_settings (p : bytes) (c : sc) : Prop :=
  inGoAway c = true /\ goAwayCode c = ErrCodeNo /\ exists c' e, settings_loop range_streams p (set_sawFirstSettings true c) = Ok (c', Some e).

(** What the frame parser guarantees of a frame. *)
Definition frame_ok (f : AnyFrame) (c : sc) : Prop :=
  match f with
  | Meta f => Http2Frame.StreamID (mh_Header f) < 2 ^ 31
  | Plain (DataFrame h _) => 0 <= Http2Frame.Length h < 2 ^ 24
  | Plain (SettingsFrame h p) => SettingsFrame_IsAck h = true \/ ~ refused_settings p c
  | _ => True
  end.

(** The events: frames of a handler name a stream of the connection. *)
Definition event_ok (ev : sc_event) (c : sc) : Prop :=
  match ev with
  | WantWriteFrame wr => linked_req (heap c) wr
  | ReadFrameResult (FrameRead f) => frame_ok f c
  | _ => True
  end.

(** The states of a connection, and whether its loop goes on. *)
Inductive reached : bool -> sc -> Prop :=
| reached_start ka c : serve_start srv ParseRequestURI Available writeErr range_queues (newServerConn ka) = Ok c -> reached true c
| reached_step c ev c' more : reached true c -> event_ok ev c -> step ev c = Ok (c', more) -> reached more c'
| reached_read b c id k c' a : reached b c -> body_read id k c = Ok (c', a) -> reached b c'
| reached_body_close b c id c' : reached b c -> body_close id c = Ok c' -> reached b c'
| reached_keepAlives b c ka : reached b c -> reached b (set_keepAlives ka c)
| reached_close c c' : reached false c ->
    closeAllStreamsOnConnClose srv ParseRequestURI Available writeErr range_queues range_streams c = Ok c' -> reached false c'.

(** * Keeping the invariant *)

Section runs.
Hypothesis range_keys : forall k m, range_queues k m ≡ₚ (map_to_list m).*1.

Abbreviation inv := (inv (B := B) (maxConcurrentStreams srv)).
Abbreviation keeps := (keeps (B := B) (maxConcurrentStreams srv) ∅).
Abbreviation sched := (schedule srv ParseRequestURI Available writeErr range_queues).
Abbreviation sk := (schedules srv ParseRequestURI Available writeErr range_queues range_keys).

(** Between events. *)
Definition at_rest (c : sc) : Prop := inv ∅ c /\ inFrameScheduleLoop c = false /\ settled c.

Lemma rest_keeps (c c' : sc) : at_rest c -> keeps c c' -> at_rest c'.
Proof. intros (H1 & H2 & H3) [K1 K2 K3]. split; [done|]. split; [by rewrite (gr_loop _ _ K2)|auto]. Qed.

Lemma rest_grows (c c' : sc) : at_rest c -> inv ∅ c' -> grows c c' -> settled c' -> at_rest c'.
Proof. intros (H1 & H2 & H3) Hi G S. split; [done|]. split; [by rewrite (gr_loop _ _ G)|done]. Qed.

Lemma goAway_keeps code (c c' : sc) : inv ∅ c -> goAway sched code c = Ok c' -> keeps c c'.
Proof. apply (goAwayIn_keeps _ _ sk). Qed.

Lemma goAway_settled code (c c' : sc) : inv ∅ c -> inGoAway c = false -> goAway sched code c = Ok c' -> settled c'.
Proof.
  intros Hi Ha H. unfold goAway, goAwayIn in H. rewrite Ha in H. cbv zeta in H. set (d := if negb _ then _ else _) in H.
  set (c1 := if d =? 0 then c else _) in H. assert (H1 : inv ∅ c1) by (unfold c1; destruct (d =? 0); [done|]; by apply keeps_effect).
  match type of H with _ ?x = _ => assert (H2 : inv ∅ x) by (destruct H1; by split) end. by apply (sk _ _ _ H2) in H as [_ H].
Qed.

Lemma reset_rest id code (c c' : sc) : at_rest c -> resetStream sched id code c = Ok c' -> at_rest c'.
Proof.
  intros Hr H. apply (resetStream_keeps _ _ sk ∅) in H as (H1 & H2 & H3); [|apply Hr]. eapply rest_grows; [exact Hr| |done..].
  eapply inv_weaken; [exact H1|]. intros x [Hx _]%elem_of_difference. done.
Qed.

(** ** Settings *)

(** What settings leave alone. *)
Definition same_flags (c c' : sc) : Prop :=
  writingFrame c' = writingFrame c /\ needToSendGoAway c' = needToSendGoAway c /\ needToSendSettingsAck c' = needToSendSettingsAck c /\
  inGoAway c' = inGoAway c /\ goAwayCode c' = goAwayCode c /\ inFrameScheduleLoop c' = inFrameScheduleLoop c.

Lemma same_flags_trans a b c : same_flags a b -> same_flags b c -> same_flags a c.
Proof. intros (A1 & A2 & A3 & A4 & A5 & A6) (B1 & B2 & B3 & B4 & B5 & B6). split_and!; congruence. Qed.

Lemma grow_loop_flags ids g (c c' : sc) e : grow_loop ids g c = Ok (c', e) -> same_flags c c'.
Proof.
  revert c. induction ids as [|id ids IH]; intros c H; cbn [grow_loop] in H; [by injection H as <- _|].
  step_in H as st Est. step_in H as r E. destruct r as [c1 ok]. unfold flow_add in E. step_in E as r F. destruct r as [fs b]. injection E as <- <-.
  destruct b; cbn [negb] in H; [|by injection H as <- _]. apply IH in H. exact H.
Qed.

Lemma processSetting_flags s (c c' : sc) e : processSetting range_streams s c = Ok (c', e) -> same_flags c c'.
Proof.
  intros H. unfold processSetting in H. destruct (Setting_Valid s); [by injection H as <- _|]. cbv zeta in H.
  do 3 (destruct (ID s =? _); [by injection H as <- _|]). destruct (ID s =? SettingInitialWindowSize).
  { unfold processSettingInitialWindowSize in H. cbv zeta in H. apply grow_loop_flags in H. exact H. }
  do 2 (destruct (ID s =? _); [by injection H as <- _|]). by injection H as <- _.
Qed.

Lemma settings_loop_flags buf (c c' : sc) e : settings_loop range_streams buf c = Ok (c', e) -> same_flags c c'.
Proof.
  remember (length buf) as n eqn:En. assert (Hn : (length buf <= n)%nat) by lia. clear En. revert buf Hn c.
  induction n as [n IH] using lt_wf_ind. intros buf Hn c H.
  destruct buf as [|b0 [|b1 [|b2 [|b3 [|b4 [|b5 buf]]]]]]; try done; cbn [settings_loop] in H; [by injection H as <- _|].
  step_in H as r E. destruct r as [c1 e1]. apply processSetting_flags in E. destruct e1; [by injection H as <- _|].
  cbn [length] in Hn. eapply same_flags_trans; [exact E|]. apply (IH (n - 1)%nat ltac:(lia) buf ltac:(lia) c1 H).
Qed.

(** ** Frames *)

Lemma saw_rest (c : sc) : at_rest c -> at_rest (set_sawFirstSettings true c).
Proof. intros (H1 & H2 & H3). split; [by destruct H1; split|]. split; [done|]. destruct H3 as [L|[L|L]]; [by left|by right; left|right; right; exact L]. Qed.

Lemma processSettings_ok h p (c c' : sc) e : at_rest c -> SettingsFrame_IsAck h = true \/
    ~ (inGoAway c = true /\ goAwayCode c = ErrCodeNo /\ exists c' e, settings_loop range_streams p c = Ok (c', Some e)) ->
  processSettings srv ParseRequestURI Available writeErr range_queues range_streams h p c = Ok (c', e) ->
  inv ∅ c' /\ grows c c' /\ (settled c' \/ e <> None /\ inGoAway c' = false).
Proof.
  intros (Hi & Hl & Hs) Hr H. pose proof (processSettings_keeps _ _ _ _ _ _ range_keys _ _ _ _ _ Hi H) as (H1 & G1 & H2). split; [done|]. split; [done|].
  destruct (SettingsFrame_IsAck h) eqn:Ea; [left; apply H2; [done|by right]|]. destruct e as [e|]; [|left; apply H2; [done|by left]].
  destruct Hr as [|Hr]; [done|]. unfold processSettings in H. rewrite Ea in H. step_in H as r E. destruct r as [c1 [e1|]]; [|by apply then_ok_Ok in H as [_ H]].
  injection H as <- <-. destruct (settings_loop_flags _ _ _ _ E) as (F1 & F2 & F3 & F4 & F5 & F6).
  destruct (inGoAway c1) eqn:Eg; [|by right]. left. unfold settled, stuck, pop_disabled in *. rewrite F1, F2, F3, F5, F6.
  destruct Hs as [L|[L|(L1 & L2 & _)]]; [by left|by right; left|right; right]. split; [done|]. split; [done|]. left. split; [done|].
  intros Hc. apply Hr. split; [done|]. split; [done|]. by eexists _, _.
Qed.

(** An error that sends nothing is one of a refused SETTINGS frame. *)
Lemma processFrame_ok f (c c' : sc) e : at_rest c -> frame_ok f c ->
  processFrame newBuffer srv ParseRequestURI Available writeErr range_queues range_streams f c = Ok (c', e) ->
  inv ∅ c' /\ grows c c' /\ (settled c' \/ e <> None /\ inGoAway c' = false).
Proof.
  intros Hr Hf H. assert (Hk : forall c1, at_rest c1 -> grows c c1 -> keeps c1 c' -> inv ∅ c' /\ grows c c' /\ (settled c' \/ e <> None /\ inGoAway c' = false)).
  { intros c1 R1 G1 K. split; [apply K|]. split; [by etransitivity; [exact G1|apply K]|]. left. apply (k_settled _ _ _ _ K). apply R1. }
  assert (G0 : grows c (set_sawFirstSettings true c)) by (split; [done|]; intros id st E; by exists st).
  pose proof (saw_rest c Hr) as R1. assert (Hi1 := proj1 R1).
  assert (Hsame : forall x, Ok (E := Empty_set) (set_sawFirstSettings true c, x) = Ok (c', e) -> inv ∅ c' /\ grows c c' /\ (settled c' \/ e <> None /\ inGoAway c' = false)).
  { intros x [= <- _]. apply (Hk (set_sawFirstSettings true c)); [done|done|]. by apply keeps_refl. }
  unfold processFrame in H. destruct (_ && _).
  { injection H as <- _. apply (Hk c); [done|reflexivity|]. apply keeps_refl. apply Hr. }
  cbv zeta in H. destruct f as [f|f].
  - destruct f; cbn [frame_ok] in Hf; try (by apply (Hsame _ H)).
    + eapply Hk; [exact R1|exact G0|]. eapply processData_keeps; [exact range_keys|exact Hi1|apply R1|apply R1| |exact H]; lia.
    + eapply Hk; [exact R1|exact G0|]. by eapply processPriority_keeps.
    + eapply Hk; [exact R1|exact G0|]. by eapply processResetStream_keeps.
    + apply processSettings_ok in H as (H1 & G1 & H2); [|exact R1|exact Hf]. split; [done|]. split; [by etransitivity|done].
    + eapply Hk; [exact R1|exact G0|]. by eapply processPing_keeps.
    + eapply Hk; [exact R1|exact G0|]. by eapply processGoAway_keeps.
    + eapply Hk; [exact R1|exact G0|]. by eapply processWindowUpdate_keeps.
  - eapply Hk; [exact R1|exact G0|]. eapply processHeaders_keeps; [exact Hi1|exact Hf|exact H].
Qed.

(** ** Events *)

Lemma processFrameFromReader_rest res (c c' : sc) more : at_rest c -> event_ok (ReadFrameResult res) c ->
  processFrameFromReader newBuffer srv ParseRequestURI Available writeErr range_queues range_streams res c = Ok (c', more) ->
  inv ∅ c' /\ inFrameScheduleLoop c' = false /\ (more = true -> settled c').
Proof.
  intros Hr Ho H. assert (Hdone : forall c1, at_rest c1 -> inv ∅ c1 /\ inFrameScheduleLoop c1 = false /\ (more = true -> settled c1)).
  { intros c1 (H1 & H2 & H3). by split_and!. }
  (* what an error does *)
  assert (Hfail : forall e c1, inv ∅ c1 -> grows c c1 -> settled c1 \/ inGoAway c1 = false ->
    match e with
    | PErr (StreamError id code _) => c ← resetStream sched id code c1; Ok (c, true)
    | goAwayFlowError => c ← goAway sched ErrCodeFlowControl c1; Ok (c, true)
    | PErr (ConnectionError code) => c ← goAway sched code c1; Ok (c, true)
    | _ => Ok (c1, false)
    end = Ok (c', more) -> inv ∅ c' /\ inFrameScheduleLoop c' = false /\ (more = true -> settled c')).
  { intros e c1 H1 G1 Hs Hx. assert (L1 : inFrameScheduleLoop c1 = false) by (rewrite (gr_loop _ _ G1); apply Hr).
    assert (Hgo : forall code, (c ← goAway sched code c1; Ok (c, true)) = Ok (c', more) -> inv ∅ c' /\ inFrameScheduleLoop c' = false /\ (more = true -> settled c')).
    { intros code Hy. step_in Hy as c2 E2. injection Hy as <- <-. pose proof (goAway_keeps _ _ _ H1 E2) as K. split; [apply K|].
      split; [by rewrite (gr_loop _ _ (k_grows _ _ _ _ K))|]. intros _. destruct Hs as [Hs|Hs]; [by apply (k_settled _ _ _ _ K)|by eapply goAway_settled]. }
    assert (Hstop : Ok (E := Empty_set) (c1, false) = Ok (c', more) -> inv ∅ c' /\ inFrameScheduleLoop c' = false /\ (more = true -> settled c')) by (by intros [= <- <-]).
    destruct e as [[]|]; try (by apply Hstop); try (by eapply Hgo). step_in Hx as c2 E2. injection Hx as <- <-.
    apply (resetStream_keeps _ _ sk ∅) in E2 as (H2 & G2 & S2); [|done]. split; [|split; [by rewrite (gr_loop _ _ G2)|done]].
    eapply inv_weaken; [exact H2|]. by intros x [Hx _]%elem_of_difference. }
  unfold processFrameFromReader in H. cbv zeta in H. destruct res as [f|e].
  - step_in H as r E. destruct r as [c1 e]. apply processFrame_ok in E as (H1 & G1 & H2); [|exact Hr|exact Ho]. destruct e as [e|].
    + eapply Hfail; [exact H1|exact G1| |exact H]. destruct H2 as [H2|[_ H2]]; [by left|by right].
    + injection H as <- <-. destruct H2 as [H2|[H2 _]]; [|done]. split; [done|]. split; [by rewrite (gr_loop _ _ G1); apply Hr|done].
  - assert (Hs : settled c \/ inGoAway c = false) by (left; apply Hr). assert (Hi := proj1 Hr).
    assert (Hcode : forall code, (c ← goAway sched code c; Ok (c, true)) = Ok (c', more) -> inv ∅ c' /\ inFrameScheduleLoop c' = false /\ (more = true -> settled c'))
      by (intros code; by apply (Hfail (PErr (ConnectionError code)))).
    destruct e; try (by injection H as <- <-; apply Hdone); try (by apply (Hcode _ H)).
    eapply (Hfail (PErr (StreamError _ _ None))); [exact Hi|reflexivity|exact Hs|exact H].
Qed.

Lemma noteBodyRead_keeps id k (c c' : sc) : inv ∅ c -> noteBodyRead srv ParseRequestURI Available writeErr range_queues id k c = Ok c' -> keeps c c'.
Proof.
  intros Hi H. unfold noteBodyRead in H. step_in H as c1 E1. step_in H as st Est. pose proof (sendWindowUpdate_keeps _ _ sk _ _ _ _ _ Hi E1) as K1.
  destruct (_ && _); [|by injection H as <-]. eapply keeps_trans; [exact K1|]. eapply sendWindowUpdate_keeps; [exact sk|apply K1|exact H].
Qed.

Lemma startPush_keeps msg (c c' : sc) : inv ∅ c -> startPush srv ParseRequestURI Available writeErr range_queues msg c = Ok c' -> keeps c c'.
Proof.
  intros Hi H. unfold startPush in H. cbv zeta in H. step_in H as st Est. apply get_stream_Ok in Est.
  destruct (_ && _); [injection H as <-; by apply keeps_effect|]. destruct (negb _); [injection H as <-; by apply keeps_effect|].
  eapply keeps_settled, writeFrame_keeps; [exact sk|done| |exact H]. intros s [= <-]. by exists st.
Qed.

Lemma serve_step_rest ev (c c' : sc) more : at_rest c -> event_ok ev c -> step ev c = Ok (c', more) ->
  inv ∅ c' /\ inFrameScheduleLoop c' = false /\ (more = true -> settled c').
Proof.
  intros Hr Ho H. unfold serve_step in H. step_in H as r E. destruct r as [c1 m]. injection H as <- Hm.
  assert (Hk : forall c2, at_rest c2 -> c1 = c2 -> inv ∅ c1 /\ inFrameScheduleLoop c1 = false /\ (more = true -> settled c1)) by (intros c2 (?&?&?) ->; by split_and!).
  assert (Hi := proj1 Hr). destruct ev; cbn [handle] in E.
  - assert (Hw : (c ← writeFrame sched wr c; Ok (c, true)) = Ok (c1, m) -> inv ∅ c1 /\ inFrameScheduleLoop c1 = false /\ (more = true -> settled c1)).
    { intros Hx. step_in Hx as c2 E2. injection Hx as <- _. eapply Hk; [|reflexivity]. eapply rest_keeps; [exact Hr|]. eapply keeps_settled, writeFrame_keeps; [exact sk|done|exact Ho|exact E2]. }
    destruct (write wr) as [[]|]; try (by apply Hw). step_in E as c2 E2. injection E as <- _. eapply Hk; [|reflexivity]. by eapply reset_rest.
  - step_in E as wr Ew. apply or_panic_Ok in Ew. step_in E as c2 E2. injection E as <- _. apply (wroteFrame_keeps _ _ sk ∅) in E2 as (H1 & G1 & S1); [|done..].
    eapply Hk; [|reflexivity]. by eapply rest_grows.
  - apply processFrameFromReader_rest in E as (H1 & H2 & H3); [|done..]. split; [done|]. split; [done|]. intros ->. apply H3. by apply andb_true_iff in Hm as [-> _].
  - step_in E as c2 E2. injection E as <- _. eapply Hk; [|reflexivity]. eapply rest_keeps; [exact Hr|]. by eapply noteBodyRead_keeps.
  - injection E as <- _. by eapply Hk.
  - step_in E as c2 E2. injection E as <- _. eapply Hk; [|reflexivity]. eapply rest_keeps; [exact Hr|]. by eapply goAway_keeps.
  - injection E as <- _. by eapply Hk.
  - step_in E as c2 E2. injection E as <- _. eapply Hk; [|reflexivity]. eapply rest_keeps; [exact Hr|]. by eapply (goAwayIn_keeps _ _ sk).
  - step_in E as c2 E2. injection E as <- _. eapply Hk; [|reflexivity]. eapply rest_keeps; [exact Hr|]. by eapply startPush_keeps.
Qed.

(** ** Runs *)

Lemma maxConcurrentStreams_nonneg : 0 <= maxConcurrentStreams srv.
Proof. unfold maxConcurrentStreams. destruct (Z.ltb_spec 0 (MaxConcurrentStreams srv)); unfold defaultMaxStreams; lia. Qed.

Lemma new_rest ka : at_rest (newServerConn ka).
Proof.
  split; [|split; [done|]].
  - split; cbn [newServerConn fls heap fresh streams maxClientStreamID maxPushPromiseID curClientStreams curPushedStreams writeSched inflight log writingFrame writingFrameAsync].
    + split.
      * exists initialWindowSize. split; [done|]. unfold window, initialWindowSize. lia.
      * exists initialWindowSize. split; [done|]. unfold initialWindowSize. lia.
      * by intros id st H.
      * by intros id st H.
      * intros p [x H]. apply lookup_insert_Some in H as [[<- _]|[_ H]]; [done|]. apply lookup_insert_Some in H as [[<- _]|[_ H]]; [done|]. by rewrite lookup_empty in H.
    + split; try (by intros id st H).
      * intros id H. by apply elem_of_empty in H.
      * intros id [st H]. done.
      * done.
    + split; [done|done|apply maxConcurrentStreams_nonneg].
    + split; [constructor|done|constructor|intros id; constructor|done].
    + split; [intros id H; by apply Exists_nil in H|done|]. split; [constructor|]. intros id H. by apply elem_of_nil in H.
    + done.
  - right. right. split; [done|]. split; [done|]. right. split; [done|]. by intros id q H.
Qed.

Lemma start_rest (c0 c : sc) : at_rest c0 -> serve_start srv ParseRequestURI Available writeErr range_queues c0 = Ok c -> at_rest c.
Proof.
  intros Hr H. unfold serve_start in H. step_in H as c1 E1. cbv zeta in H.
  apply (writeFrame_keeps _ _ sk ∅) in E1 as [K1 S1]; [|apply Hr|apply on_conn_linked]. pose proof (rest_keeps _ _ Hr K1) as (H1 & H2 & H3).
  assert (R2 : at_rest (set_unackedSettings (unackedSettings c1 + 1) c1)).
  { split; [by destruct H1; split|]. split; [done|]. destruct H3 as [L|[L|L]]; [by left|by right; left|right; right; exact L]. }
  set (diff := i32 _) in H. clearbody diff. destruct (0 <? diff); [|by injection H as <-]. eapply rest_keeps; [exact R2|]. eapply sendWindowUpdate_keeps; [exact sk|apply R2|exact H].
Qed.

Lemma close_all_keeps ids (c c' : sc) : inv ∅ c -> close_all srv ParseRequestURI Available writeErr range_queues ids c = Ok c' -> keeps c c'.
Proof.
  revert c. induction ids as [|id ids IH]; intros c Hi H; cbn [close_all] in H; [injection H as <-; by apply keeps_refl|].
  step_in H as c1 E1. assert (K : keeps c c1) by (destruct (decide _); [by eapply closeStream_keeps; [exact sk|done|exact E1]|injection E1 as <-; by apply keeps_refl]).
  eapply keeps_trans; [exact K|]. apply IH; [apply K|exact H].
Qed.

Lemma reached_inv b (c : sc) : reached b c -> inv ∅ c /\ inFrameScheduleLoop c = false /\ (b = true -> settled c).
Proof.
  assert (Hkeep : forall b c c', inv ∅ c /\ inFrameScheduleLoop c = false /\ (b = true -> settled c) -> keeps c c' -> inv ∅ c' /\ inFrameScheduleLoop c' = false /\ (b = true -> settled c')).
  { intros b0 c0 c1 (H1 & H2 & H3) [K1 K2 K3]. split; [done|]. split; [by rewrite (gr_loop _ _ K2)|auto]. }
  induction 1 as [ka c H|c ev c' more H IH Ho Hs|b c id k c' a H IH Hb|b c id c' H IH Hb|b c ka H IH|c c' H IH Hc].
  - destruct (start_rest _ _ (new_rest ka) H) as (? & ? & ?). by split_and!.
  - destruct IH as (? & ? & ?). eapply serve_step_rest; [|exact Ho|exact Hs]. split_and!; auto.
  - eapply Hkeep; [exact IH|]. unfold body_read in Hb. step_in Hb as st Est. destruct (s_body st) as [p|]; [|injection Hb as <- _; apply keeps_refl, IH].
    destruct (pipe_Read k p) as [p' x]. step_in Hb as c1 E1. injection Hb as <- _. eapply upd_stream_keeps; [apply IH| |exact E1].
    intros st'. cbv beta zeta. case_match; by split_and!.
  - eapply Hkeep; [exact IH|]. eapply upd_stream_keeps; [apply IH| |exact Hb]. by intros st.
  - destruct IH as (H1 & H2 & H3). split; [by destruct H1; split|]. split; [done|]. intros Hb. destruct (H3 Hb) as [L|[L|L]]; [by left|by right; left|right; right; exact L].
  - eapply Hkeep; [exact IH|]. eapply close_all_keeps; [apply IH|exact Hc].
Qed.

(** * Properties *)

(** C14. In every state a connection reaches, whatever the client and the handlers
    send, the map of streams holds exactly the streams that are open or half
    closed, the counters are the numbers of these streams the client and the
    server opened, the client's do not exceed the advertised limit, stream ids
    stay within what was announced, and the window the client may fill is never
    negative. *)
Theorem connection_well_formed b (c : sc) : reached b c ->
  (forall id, id ∈ streams c <-> exists st, heap c !! id = Some st /\ s_state st <> stateClosed) /\
  (forall id st, heap c !! id = Some st -> s_state st <> stateIdle /\ 0 < id < 2 ^ 31 /\ id <= (if isPushed id then maxPushPromiseID c else maxClientStreamID c)) /\
  curClientStreams c = Z.of_nat (base.size (filter (fun id => isPushed id = false) (streams c))) /\
  curPushedStreams c = Z.of_nat (base.size (filter (fun id => isPushed id = true) (streams c))) /\
  curClientStreams c <= maxConcurrentStreams srv /\
  0 <= window_of (fls c) conn_inflow < 2 ^ 31.
Proof.
  intros H. destruct (reached_inv _ _ H) as ([V1 V2 V3 _ _ _] & _ & _). destruct V2 as [S1 S2 S3 S4 S5 S6], V3 as [C1 C2 C3]. split_and!; try done.
  - intros id. split; [apply S1|]. intros (st & E & Hs). destruct (decide (id ∈ streams c)) as [|Hn]; [done|]. destruct Hs. by apply (S2 id).
  - intros id st E. pose proof (S3 id st E). destruct (S5 id ltac:(by eexists)). split; [done|]. split; [|done]. destruct (isPushed id); lia.
  - destruct V1 as [_ (w & Hw & ?) _ _ _]. unfold window_of. rewrite Hw. cbn [Http2Flow.n]. lia.
  - destruct V1 as [_ (w & Hw & ?) _ _ _]. unfold window_of. rewrite Hw. cbn [Http2Flow.n]. lia.
Qed.

(** C4. Whatever frames the handlers ask for, in every run of a connection the
    frames it starts respect the end of a stream: after a frame with END_STREAM
    only RST_STREAM and WINDOW_UPDATE frames of the stream are started; and a
    handler is started at most once for a stream. *)
Theorem streams_end_once b (c : sc) : reached b c ->
  orderly (started (log c)) /\ NoDup (handled (log c)) /\ forall id, id ∈ handled (log c) -> is_Some (heap c !! id).
Proof. intros H. destruct (reached_inv _ _ H) as ([_ _ _ _ [L1 L2 [L3 L4]] _] & _ & _). by split_and!. Qed.

End runs.
End safe.

(** * A run *)

#[local] Existing Instance data_buffer.

(** A client posts, and the handler answers before the body has ended. *)
Definition early_answer : FrameWriteRequest :=
  mkReq (Some (write_headers (mkRes 1 200 ∅ None true [] [] []))) (Some (mkStream 1 3)) None.
Definition post_event : sc_event := headers_event 1 0 post_fields.
Definition sample_step (ev : sc_event) (c : serverConn dataBuffer) : serverConn dataBuffer :=
  match run_step 0 buffered ev c with Ok (c, _) => c | _ => c end.
Definition sample_start : serverConn dataBuffer :=
  match serve_start (plain_server 0) any_path buffered never_fails map_order (newServerConn true) with Ok c => c | _ => newServerConn true end.
Definition sample_events : list sc_event := [WroteFrame None; settings_event; WroteFrame None; WroteFrame None; post_event; WantWriteFrame early_answer;
  WroteFrame None].
Definition sample_conn (k : nat) : serverConn dataBuffer := foldl (fun c ev => sample_step ev c) sample_start (firstn k sample_events).

Abbreviation sample_reached := (reached db_empty (plain_server 0) any_path buffered never_fails map_order list_order).

Lemma map_order_keys k m : map_order k m ≡ₚ (map_to_list m).*1.
Proof. done. Qed.

Lemma sample_runs : sample_reached true (sample_conn 7).
Proof.
  assert (H0 : sample_reached true (sample_conn 0)) by (apply (reached_start _ _ _ _ _ _ _ true); vm_compute; reflexivity).
  assert (Hn : forall k, sample_reached true (sample_conn k) -> forall ev, sample_events !! k = Some ev -> event_ok list_order ev (sample_conn k) ->
            run_step 0 buffered ev (sample_conn k) = Ok (sample_conn (S k), true) -> sample_reached true (sample_conn (S k))).
  { intros k H ev _ Ho E. eapply reached_step; [exact H|exact Ho|exact E]. }
  assert (H1 : sample_reached true (sample_conn 1)) by (eapply (Hn 0%nat H0); [reflexivity|exact I|vm_compute; reflexivity]).
  assert (H2 : sample_reached true (sample_conn 2)).
  { eapply (Hn 1%nat H1); [reflexivity| |vm_compute; reflexivity]. right. intros (Ha & _). vm_compute in Ha. discriminate Ha. }
  assert (H3 : sample_reached true (sample_conn 3)) by (eapply (Hn 2%nat H2); [reflexivity|exact I|vm_compute; reflexivity]).
  assert (H4 : sample_reached true (sample_conn 4)) by (eapply (Hn 3%nat H3); [reflexivity|exact I|vm_compute; reflexivity]).
  assert (H5 : sample_reached true (sample_conn 5)) by (eapply (Hn 4%nat H4); [reflexivity|vm_compute; reflexivity|vm_compute; reflexivity]).
  assert (H6 : sample_reached true (sample_conn 6)).
  { eapply (Hn 5%nat H5); [reflexivity| |vm_compute; reflexivity]. intros s [= <-]. eexists. split; vm_compute; reflexivity. }
  eapply (Hn 6%nat H6); [reflexivity|exact I|vm_compute; reflexivity].
Qed.

Lemma sample_ended : ended 1 (started (log (sample_conn 7))).
Proof.
  apply Exists_exists. exists early_answer. split; [|split; [reflexivity|exists (mkStream 1 3); by split]]. vm_compute. repeat first [left|right].
Qed.

(** The stream has ended, and the server has reset it. *)
Lemma connection_well_formed_witness : sample_reached true (sample_conn 7) /\ ended 1 (started (log (sample_conn 7))) /\ (1 ∉ streams (sample_conn 7)) /\
  curClientStreams (sample_conn 7) = Z.of_nat (base.size (filter (fun id => isPushed id = false) (streams (sample_conn 7)))).
Proof.
  split; [exact sample_runs|]. split; [|split].
  - exact sample_ended.
  - vm_compute. congruence.
  - destruct (connection_well_formed db_empty (plain_server 0) any_path buffered never_fails map_order list_order map_order_keys true _ sample_runs) as (_ & _ & H & _).
    exact H.
Defined.

Lemma streams_end_once_witness : ended 1 (started (log (sample_conn 7))) /\ orderly (started (log (sample_conn 7))) /\ handled (log (sample_conn 7)) = [1].
Proof.
  split; [|split].
  - exact sample_ended.
  - destruct (streams_end_once db_empty (plain_server 0) any_path buffered never_fails map_order list_order map_order_keys true _ sample_runs) as (H & _).
    exact H.
  - vm_compute. reflexivity.
Defined.


(** The same connection, about to schedule. *)
Definition scheduling_conn : serverConn dataBuffer := set_inFrameScheduleLoop true (sample_conn 7).

Lemma scheduling_conn_inv : inv (maxConcurrentStreams (plain_server 0)) ∅ scheduling_conn.
Proof.
  destruct (reached_inv _ _ _ _ _ _ _ map_order_keys _ _ sample_runs) as (Hi & _). unfold scheduling_conn. revert Hi. generalize (sample_conn 7).
  intros c Hi. destruct Hi. by split.
Qed.

