(* ===== verification/Http2Priority.v ===== *)
(** The priority write scheduler, [http2/writesched_priority.go]: a tree of
    streams in a heap of nodes, with doubly linked lists of siblings. *)
From Stdlib Require Import SpecFloat.
From S2P Require Import Prelude Http2Frame Http2Write Http2Flow Http2WriteSched.

Definition priorityDefaultWeight : Z := 15.

Inductive priorityNodeState := priorityNodeOpen | priorityNodeClosed | priorityNodeIdle.

#[global] Instance priorityNodeState_eq_dec : EqDecision priorityNodeState.
Proof. solve_decision. Defined.

(** A pointer to a node; [None] is nil. *)
Abbreviation ptr := (option positive).

Record priorityNode := mkNode {
  q : writeQueue; id : Z; weight : Z; state : priorityNodeState; nbytes : Z; subtreeBytes : Z;
  parent : ptr; kids : ptr; prev : ptr; next : ptr }.

Abbreviation heap := (gmap positive priorityNode).

Definition node_zero : priorityNode := mkNode [] 0 0 priorityNodeOpen 0 0 None None None None.

Definition set_q v n := mkNode v (id n) (weight n) (state n) (nbytes n) (subtreeBytes n) (parent n) (kids n) (prev n) (next n).
Definition set_weight v n := mkNode (q n) (id n) v (state n) (nbytes n) (subtreeBytes n) (parent n) (kids n) (prev n) (next n).
Definition set_state v n := mkNode (q n) (id n) (weight n) v (nbytes n) (subtreeBytes n) (parent n) (kids n) (prev n) (next n).
Definition set_nbytes v n := mkNode (q n) (id n) (weight n) (state n) v (subtreeBytes n) (parent n) (kids n) (prev n) (next n).
Definition set_subtreeBytes v n := mkNode (q n) (id n) (weight n) (state n) (nbytes n) v (parent n) (kids n) (prev n) (next n).
Definition set_parent v n := mkNode (q n) (id n) (weight n) (state n) (nbytes n) (subtreeBytes n) v (kids n) (prev n) (next n).
Definition set_kids v n := mkNode (q n) (id n) (weight n) (state n) (nbytes n) (subtreeBytes n) (parent n) v (prev n) (next n).
Definition set_prev v n := mkNode (q n) (id n) (weight n) (state n) (nbytes n) (subtreeBytes n) (parent n) (kids n) v (next n).
Definition set_next v n := mkNode (q n) (id n) (weight n) (state n) (nbytes n) (subtreeBytes n) (parent n) (kids n) (prev n) v.

(** Reading and writing a field through a pointer; nil panics. *)
Definition get (p : positive) (h : heap) : fl priorityNode := or_panic (h !! p).
Definition upd (p : positive) (f : priorityNode -> priorityNode) (h : heap) : fl heap := x ← get p h; Ok (<[p := f x]> h).

(** Go on with the node a pointer names, if it names one. *)
Definition when (p : ptr) (f : positive -> heap -> fl heap) (h : heap) : fl heap :=
  match p with None => Ok h | Some p => f p h end.

(** * The tree *)

Definition setParent (n : positive) (par : ptr) (h : heap) : fl heap :=
  if decide (par = Some n) then Panic
  else
    x ← get n h;
    if decide (parent x = par) then Ok h
    else
      h ← when (parent x) (fun p h =>
            h ← match prev x with
                | None => upd p (set_kids (next x)) h
                | Some pr => upd pr (set_next (next x)) h
                end;
            x ← get n h;
            when (next x) (fun nx => upd nx (set_prev (prev x))) h) h;
      h ← upd n (set_parent par) h;
      match par with
      | None => h ← upd n (set_next None) h; upd n (set_prev None) h
      | Some p =>
          y ← get p h;
          h ← upd n (set_next (kids y)) h;
          h ← upd n (set_prev None) h;
          h ← when (kids y) (fun k => upd k (set_prev (Some n))) h;
          upd p (set_kids (Some n)) h
      end.

(** The loop of [addBytes] up to the root; at most every node once. *)
Fixpoint addBytes_loop (fuel : nat) (n : ptr) (b : Z) (h : heap) : fl heap :=
  match n with
  | None => Ok h
  | Some p =>
      match fuel with
      | O => Panic
      | S fuel' =>
          x ← get p h;
          h ← upd p (set_subtreeBytes (i64 (subtreeBytes x + b))) h;
          addBytes_loop fuel' (parent x) b h
      end
  end.

Definition addBytes (n : positive) (b : Z) (h : heap) : fl heap :=
  x ← get n h;
  h ← upd n (set_nbytes (i64 (nbytes x + b))) h;
  addBytes_loop (size h) (Some n) b h.

(** * Walking

    [float64] arithmetic by the standard's specification: 53 bits of
    significand, exponents up to 1024. *)
Definition float64 (z : Z) : spec_float := binary_normalize 53 1024 z 0 false.

(** [sortPriorityNodeSiblings.Less]; [weight+1] is computed in [uint8]. *)
Definition Less (h : heap) (i k : positive) : bool :=
  match h !! i, h !! k with
  | Some x, Some y =>
      let wi := float64 (u8 (weight x + 1)) in let bi := float64 (subtreeBytes x) in
      let wk := float64 (u8 (weight y + 1)) in let bk := float64 (subtreeBytes y) in
      if SFeqb bi (float64 0) && SFeqb bk (float64 0) then SFleb wk wi
      else if SFeqb bk (float64 0) then false
      else SFleb (SFdiv 53 1024 bi bk) (SFdiv 53 1024 wi wk)
  | _, _ => false
  end.

Section walk.
(** [sort.Sort]: of an order that is not strict it only promises a
    permutation. *)
Variable Sort : (positive -> positive -> bool) -> list positive -> list positive.
(** The callback with what it closes over. *)
Variable X : Type.
Variable f : positive -> bool -> heap * X -> fl (bool * (heap * X)).

(** Is there a sibling from [k] on whose weight is not [w]? *)
Fixpoint needSort_loop (fuel : nat) (w : Z) (k : ptr) (h : heap) : fl bool :=
  match k with
  | None => Ok false
  | Some p =>
      match fuel with
      | O => Panic
      | S fuel' => x ← get p h; if negb (weight x =? w) then Ok true else needSort_loop fuel' w (next x) h
      end
  end.

(** Take the kids of [n] off, the first one first. *)
Fixpoint unlink_loop (fuel : nat) (n : positive) (tmp : list positive) (h : heap) : fl (list positive * heap) :=
  x ← get n h;
  match kids x with
  | None => Ok (tmp, h)
  | Some k =>
      match fuel with
      | O => Panic
      | S fuel' => h ← setParent k None h; unlink_loop fuel' n (tmp ++ [k]) h
      end
  end.

Fixpoint link_loop (n : positive) (l : list positive) (h : heap) : fl heap :=
  match l with [] => Ok h | k :: l => h ← setParent k (Some n) h; link_loop n l h end.

(** Visit the siblings from [k] on with [walk]. *)
Fixpoint kids_loop (fuel : nat) (walk : positive -> heap * X -> fl (bool * (heap * X))) (k : ptr) (st : heap * X)
    : fl (bool * (heap * X)) :=
  match k with
  | None => Ok (false, st)
  | Some p =>
      match fuel with
      | O => Panic
      | S fuel' =>
          '(b, st) ← walk p st;
          if (b : bool) then Ok (true, st)
          else x ← get p (fst st); kids_loop fuel' walk (next x) st
      end
  end.

(** [fuel] bounds the depth; [size h] bounds a list of siblings. *)
Fixpoint walkReadyInOrder (fuel : nat) (n : positive) (openParent : bool) (st : heap * X) : fl (bool * (heap * X)) :=
  match fuel with
  | O => Panic
  | S fuel' =>
      x ← get n (fst st);
      '(b, st) ← (if negb (empty (q x)) then f n openParent st else Ok (false, st));
      if (b : bool) then Ok (true, st)
      else
        x ← get n (fst st);
        match kids x with
        | None => Ok (false, st)
        | Some k0 =>
            let openParent :=
              if negb (id x =? 0) then openParent || bool_decide (state x = priorityNodeOpen) else openParent in
            y ← get k0 (fst st);
            needSort ← needSort_loop (size (fst st)) (weight y) (next y) (fst st);
            if negb needSort then kids_loop (size (fst st)) (fun k => walkReadyInOrder fuel' k openParent) (Some k0) st
            else
              '(tmp, h) ← unlink_loop (size (fst st)) n [] (fst st);
              h ← link_loop n (reverse (Sort (Less h) tmp)) h;
              x ← get n h;
              kids_loop (size h) (fun k => walkReadyInOrder fuel' k openParent) (kids x) (h, snd st)
        end
  end.
End walk.

(** * The scheduler *)

Record PriorityWriteSchedulerConfig := mkConfig {
  MaxClosedNodesInTree : Z; MaxIdleNodesInTree : Z; ThrottleOutOfOrderWrites : bool }.

(** The root is the node at pointer 1; [fresh] is the next pointer. The scratch
    space [tmp] is local to [walkReadyInOrder]. *)
Record scheduler := mkSched {
  nodes_heap : heap; fresh : positive; nodes : gmap Z positive; maxID : Z;
  closedNodes : list positive; idleNodes : list positive;
  maxClosedNodesInTree : Z; maxIdleNodesInTree : Z;
  writeThrottleLimit : Z; enableWriteThrottle : bool; ws_pool : writeQueuePool }.

Definition root : positive := 1.

Definition with_heap (h : heap) (ws : scheduler) : scheduler :=
  mkSched h (fresh ws) (nodes ws) (maxID ws) (closedNodes ws) (idleNodes ws) (maxClosedNodesInTree ws)
    (maxIdleNodesInTree ws) (writeThrottleLimit ws) (enableWriteThrottle ws) (ws_pool ws).
Definition with_nodes (m : gmap Z positive) (ws : scheduler) : scheduler :=
  mkSched (nodes_heap ws) (fresh ws) m (maxID ws) (closedNodes ws) (idleNodes ws) (maxClosedNodesInTree ws)
    (maxIdleNodesInTree ws) (writeThrottleLimit ws) (enableWriteThrottle ws) (ws_pool ws).
Definition with_maxID (i : Z) (ws : scheduler) : scheduler :=
  mkSched (nodes_heap ws) (fresh ws) (nodes ws) i (closedNodes ws) (idleNodes ws) (maxClosedNodesInTree ws)
    (maxIdleNodesInTree ws) (writeThrottleLimit ws) (enableWriteThrottle ws) (ws_pool ws).
Definition with_closedNodes (l : list positive) (ws : scheduler) : scheduler :=
  mkSched (nodes_heap ws) (fresh ws) (nodes ws) (maxID ws) l (idleNodes ws) (maxClosedNodesInTree ws)
    (maxIdleNodesInTree ws) (writeThrottleLimit ws) (enableWriteThrottle ws) (ws_pool ws).
Definition with_idleNodes (l : list positive) (ws : scheduler) : scheduler :=
  mkSched (nodes_heap ws) (fresh ws) (nodes ws) (maxID ws) (closedNodes ws) l (maxClosedNodesInTree ws)
    (maxIdleNodesInTree ws) (writeThrottleLimit ws) (enableWriteThrottle ws) (ws_pool ws).
Definition with_limit (z : Z) (ws : scheduler) : scheduler :=
  mkSched (nodes_heap ws) (fresh ws) (nodes ws) (maxID ws) (closedNodes ws) (idleNodes ws) (maxClosedNodesInTree ws)
    (maxIdleNodesInTree ws) z (enableWriteThrottle ws) (ws_pool ws).
Definition with_pool (p : writeQueuePool) (ws : scheduler) : scheduler :=
  mkSched (nodes_heap ws) (fresh ws) (nodes ws) (maxID ws) (closedNodes ws) (idleNodes ws) (maxClosedNodesInTree ws)
    (maxIdleNodesInTree ws) (writeThrottleLimit ws) (enableWriteThrottle ws) p.

Definition default_config : PriorityWriteSchedulerConfig := mkConfig 10 10 false.

Definition NewPriorityWriteScheduler (cfg : option PriorityWriteSchedulerConfig) : scheduler :=
  let cfg := default default_config cfg in
  mkSched {[ root := node_zero ]} 2 {[ 0 := root ]} 0 [] [] (MaxClosedNodesInTree cfg) (MaxIdleNodesInTree cfg)
    (if ThrottleOutOfOrderWrites cfg then 1024 else 2 ^ 31 - 1) (ThrottleOutOfOrderWrites cfg) [].

(** A change of the heap. *)
Definition on_heap (f : heap -> fl heap) (ws : scheduler) : fl scheduler := h ← f (nodes_heap ws); Ok (with_heap h ws).

(** A new node for a stream, with a queue from the pool. *)
Definition alloc (streamID : Z) (st : priorityNodeState) (ws : scheduler) : positive * scheduler :=
  let '(q, pool) := pool_get (ws_pool ws) in
  let n := fresh ws in
  let x := mkNode q streamID priorityDefaultWeight st 0 0 None None None None in
  (n, mkSched (<[n := x]> (nodes_heap ws)) (n + 1) (nodes ws) (maxID ws) (closedNodes ws) (idleNodes ws)
        (maxClosedNodesInTree ws) (maxIdleNodesInTree ws) (writeThrottleLimit ws) (enableWriteThrottle ws) pool).

Definition OpenStream (streamID pusherID : Z) (ws : scheduler) : fl scheduler :=
  match nodes ws !! streamID with
  | Some curr =>
      x ← get curr (nodes_heap ws);
      if negb (bool_decide (state x = priorityNodeIdle)) then Panic
      else on_heap (upd curr (set_state priorityNodeOpen)) ws
  | None =>
      let par := default root (nodes ws !! pusherID) in
      let '(n, ws) := alloc streamID priorityNodeOpen ws in
      ws ← on_heap (setParent n (Some par)) ws;
      let ws := with_nodes (<[streamID := n]> (nodes ws)) ws in
      Ok (if maxID ws <? streamID then with_maxID streamID ws else ws)
  end.

(** The loop of [removeNode] follows [next] of a node it has just moved. *)
Fixpoint removeNode_loop (fuel : nat) (n : positive) (k : ptr) (h : heap) : fl heap :=
  match k with
  | None => Ok h
  | Some p =>
      match fuel with
      | O => Panic
      | S fuel' =>
          x ← get n h;
          h ← setParent p (parent x) h;
          y ← get p h;
          removeNode_loop fuel' n (next y) h
      end
  end.

Definition removeNode (n : positive) (ws : scheduler) : fl scheduler :=
  ws ← on_heap (fun h =>
    x ← get n h;
    h ← removeNode_loop (S (size h)) n (kids x) h;
    setParent n None h) ws;
  x ← get n (nodes_heap ws);
  Ok (with_nodes (delete (id x) (nodes ws)) ws).

(** [addClosedOrIdleNode] for one of the two lists. *)
Definition addClosedOrIdleNode (list_of : scheduler -> list positive) (with_list : list positive -> scheduler -> scheduler)
    (maxSize : Z) (n : positive) (ws : scheduler) : fl scheduler :=
  if maxSize =? 0 then Ok ws
  else
    ws ← (if len (list_of ws) =? maxSize then
            o ← or_panic (at_ (list_of ws) 0);
            ws ← removeNode o ws;
            Ok (with_list (from 1 (list_of ws)) ws)
          else Ok ws);
    Ok (with_list (list_of ws ++ [n]) ws).

Definition CloseStream (streamID : Z) (ws : scheduler) : fl scheduler :=
  if streamID =? 0 then Panic
  else
    match nodes ws !! streamID with
    | None => Panic
    | Some n =>
        x ← get n (nodes_heap ws);
        if negb (bool_decide (state x = priorityNodeOpen)) then Panic
        else
          ws ← on_heap (fun h =>
            h ← upd n (set_state priorityNodeClosed) h;
            addBytes n (i64 (- nbytes x)) h) ws;
          let ws := with_pool (pool_put (q x) (ws_pool ws)) ws in
          ws ← on_heap (upd n (set_q [])) ws;
          if 0 <? maxClosedNodesInTree ws then addClosedOrIdleNode closedNodes with_closedNodes (maxClosedNodesInTree ws) n ws
          else removeNode n ws
    end.

(** Is [n] among the ancestors from [x] on? *)
Fixpoint is_ancestor (fuel : nat) (n : positive) (x : ptr) (h : heap) : fl bool :=
  match x with
  | None => Ok false
  | Some p =>
      match fuel with
      | O => Panic
      | S fuel' => if decide (p = n) then Ok true else y ← get p h; is_ancestor fuel' n (parent y) h
      end
  end.

(** Make the kids from [k] on depend on [n], except [n]. *)
Fixpoint adopt_loop (fuel : nat) (n : positive) (k : ptr) (h : heap) : fl heap :=
  match k with
  | None => Ok h
  | Some p =>
      match fuel with
      | O => Panic
      | S fuel' =>
          x ← get p h;
          h ← (if decide (p = n) then Ok h else setParent p (Some n) h);
          adopt_loop fuel' n (next x) h
      end
  end.

(** [AdjustStream] once the node [n] exists. *)
Definition reprioritize (n : positive) (priority : PriorityParam) (ws : scheduler) : fl scheduler :=
  match nodes ws !! StreamDep priority with
  | None =>
      on_heap (fun h => h ← setParent n (Some root) h; upd n (set_weight priorityDefaultWeight) h) ws
  | Some par =>
      if decide (n = par) then Ok ws
      else
        on_heap (fun h =>
          y ← get par h;
          a ← is_ancestor (size h) n (parent y) h;
          h ← (if (a : bool) then x ← get n h; setParent par (parent x) h else Ok h);
          h ← (if Exclusive priority then y ← get par h; adopt_loop (size h) n (kids y) h else Ok h);
          h ← setParent n (Some par) h;
          upd n (set_weight (Weight priority)) h) ws
  end.

Definition AdjustStream (streamID : Z) (priority : PriorityParam) (ws : scheduler) : fl scheduler :=
  if streamID =? 0 then Panic
  else
    match nodes ws !! streamID with
    | Some n => reprioritize n priority ws
    | None =>
        if (streamID <=? maxID ws) || (maxIdleNodesInTree ws =? 0) then Ok ws
        else
          let ws := with_maxID streamID ws in
          let '(n, ws) := alloc streamID priorityNodeIdle ws in
          ws ← on_heap (setParent n (Some root)) ws;
          let ws := with_nodes (<[streamID := n]> (nodes ws)) ws in
          ws ← addClosedOrIdleNode idleNodes with_idleNodes (maxIdleNodesInTree ws) n ws;
          reprioritize n priority ws
    end.

Definition Push (wr : FrameWriteRequest) (ws : scheduler) : fl scheduler :=
  let i := StreamID wr in
  n ← (if i =? 0 then Ok root
       else match nodes ws !! i with
            | Some n => Ok n
            | None => if 0 <? DataSize wr then Panic else Ok root
            end);
  on_heap (upd n (fun x => set_q (push wr (q x)) x)) ws.

Section pop.
Variable Sort : (positive -> positive -> bool) -> list positive -> list positive.
Variable maxFrameSize : Z.

(** What [Pop]'s callback closes over: the answer, the throttle limit, and the
    windows. *)
Record pop_state := mkPop { p_wr : FrameWriteRequest; p_ok : bool; p_limit : Z; p_flows : flows }.

Definition pop_visit (throttle : bool) (n : positive) (openParent : bool) (st : heap * pop_state) : fl (bool * (heap * pop_state)) :=
  let '(h, s) := st in
  let limit := if openParent then p_limit s else 2 ^ 31 - 1 in
  x ← get n h;
  '(wr, ok, q', fs) ← consume maxFrameSize limit (q x) (p_flows s);
  h ← upd n (set_q q') h;
  if negb (ok : bool) then Ok (false, (h, mkPop wr false (p_limit s) fs))
  else
    h ← addBytes n (DataSize wr) h;
    let l :=
      if openParent then let l := i32 (p_limit s + 1024) in if l <? 0 then 2 ^ 31 - 1 else l
      else if throttle then 1024 else p_limit s in
    Ok (true, (h, mkPop wr true l fs)).

Definition Pop (ws : scheduler) (fs : flows) : fl (FrameWriteRequest * bool * scheduler * flows) :=
  '(_, (h, s)) ← walkReadyInOrder Sort pop_state (pop_visit (enableWriteThrottle ws)) (size (nodes_heap ws)) root false
                   (nodes_heap ws, mkPop FWR_zero false (writeThrottleLimit ws) fs);
  Ok (p_wr s, p_ok s, with_limit (p_limit s) (with_heap h ws), p_flows s).
End pop.
