(* ===== verification/Http2PriorityTree.v ===== *)
(** The tree of the priority scheduler: the pointers of the nodes form a forest
    with doubly linked lists of siblings, and every operation keeps it. *)
From Stdlib Require Import SpecFloat.
From S2P Require Import Prelude Http2Frame Http2Write Http2Flow Http2WriteSched Http2Priority.

(** * Fields of a heap *)

Definition fld {A} (π : priorityNode -> A) (h : heap) (k : positive) : option A := π <$> h !! k.

Lemma upd_alter p f h : is_Some (h !! p) -> upd p f h = Ok (alter f p h).
Proof.
  intros [x Hx]. unfold upd, get. rewrite Hx. cbn [or_panic mbind outcome_bind]. f_equal.
  apply map_eq. intros i. destruct (decide (i = p)) as [->|Hne].
  - by rewrite lookup_insert_eq, lookup_alter_eq, Hx.
  - by rewrite lookup_insert_ne, lookup_alter_ne.
Qed.

Lemma alter_some p f (h : heap) k : is_Some (alter f p h !! k) <-> is_Some (h !! k).
Proof. apply lookup_alter_is_Some. Qed.

Lemma fld_alter_same {A} (π : priorityNode -> A) f p h k : (forall y, π (f y) = π y) -> fld π (alter f p h) k = fld π h k.
Proof.
  intros Hf. unfold fld. destruct (decide (k = p)) as [->|Hne]; [|by rewrite lookup_alter_ne].
  rewrite lookup_alter_eq. destruct (h !! p) as [y|]; [|done]. cbn. by rewrite Hf.
Qed.

Lemma fld_alter_ne {A} (π : priorityNode -> A) f p h k : k <> p -> fld π (alter f p h) k = fld π h k.
Proof. intros Hne. unfold fld. by rewrite lookup_alter_ne. Qed.

Lemma fld_alter_set {A} (π : priorityNode -> A) f p h v : is_Some (h !! p) -> (forall y, π (f y) = v) ->
  fld π (alter f p h) p = Some v.
Proof. intros [y Hy] Hf. unfold fld. rewrite lookup_alter_eq, Hy. cbn. by rewrite Hf. Qed.

Lemma fld_some {A} (π : priorityNode -> A) h k v : fld π h k = Some v -> is_Some (h !! k).
Proof. unfold fld. destruct (h !! k); [eauto|done]. Qed.

(** What a node holds besides its links. *)
Definition payload (n : priorityNode) := (q n, id n, weight n, state n, nbytes n, subtreeBytes n).

Definition same_payload (h h' : heap) : Prop := forall k, fld payload h' k = fld payload h k.

Lemma same_payload_refl h : same_payload h h.
Proof. done. Qed.

Lemma same_payload_trans a b c : same_payload a b -> same_payload b c -> same_payload a c.
Proof. intros H1 H2 k. by rewrite H2, H1. Qed.

Lemma same_payload_alter f p h : (forall y, payload (f y) = payload y) -> same_payload h (alter f p h).
Proof. intros Hf k. by apply fld_alter_same. Qed.

Lemma same_payload_dom h h' : same_payload h h' -> forall k, is_Some (h' !! k) <-> is_Some (h !! k).
Proof.
  intros H k. specialize (H k). unfold fld in H.
  destruct (h !! k), (h' !! k); cbn in H; split; intros [? ?]; try done; eauto.
Qed.

(** * Lists of siblings *)

Definition hd_or (nx : ptr) (l : list positive) : ptr := match l with [] => nx | k :: _ => Some k end.
Definition last_or (pv : ptr) (l : list positive) : ptr := match last l with None => pv | Some k => Some k end.

(** The nodes of [l] are linked in this order, between [pv] and [nx]. *)
Fixpoint seg (h : heap) (pv : ptr) (l : list positive) (nx : ptr) : Prop :=
  match l with
  | [] => True
  | k :: l' => fld prev h k = Some pv /\ fld next h k = Some (hd_or nx l') /\ seg h (Some k) l' nx
  end.

Lemma last_or_cons pv k l : last_or pv (k :: l) = last_or (Some k) l.
Proof. unfold last_or. destruct l as [|a l]; [done|]. change (last (k :: a :: l)) with (last (a :: l)). by destruct (last (a :: l)) eqn:E; [|by apply last_None in E]. Qed.

Lemma last_or_snoc pv l k : last_or pv (l ++ [k]) = Some k.
Proof. unfold last_or. by rewrite last_snoc. Qed.

Lemma hd_or_app nx l1 l2 : hd_or nx (l1 ++ l2) = hd_or (hd_or nx l2) l1.
Proof. by destruct l1. Qed.

Lemma seg_app h l1 : forall pv l2 nx, seg h pv (l1 ++ l2) nx <-> seg h pv l1 (hd_or nx l2) /\ seg h (last_or pv l1) l2 nx.
Proof.
  induction l1 as [|k l1 IH]; intros pv l2 nx; [cbn; tauto|]. cbn [app seg]. rewrite IH, hd_or_app, last_or_cons. tauto.
Qed.

(** Lists whose nodes keep their links stay. *)
Lemma seg_frame h h' pv l nx : (forall k, k ∈ l -> fld prev h' k = fld prev h k /\ fld next h' k = fld next h k) ->
  seg h pv l nx -> seg h' pv l nx.
Proof.
  revert pv. induction l as [|k l IH]; intros pv Hf; [done|]. intros (Hp & Hn & Hs). destruct (Hf k) as [E1 E2]; [by left|].
  split_and!; [by rewrite E1|by rewrite E2|]. apply IH; [|done]. intros j Hj. apply Hf. by right.
Qed.

Lemma seg_dom h pv l nx k : seg h pv l nx -> k ∈ l -> is_Some (h !! k).
Proof.
  revert pv. induction l as [|j l IH]; intros pv Hs Hk; [by apply elem_of_nil in Hk|].
  destruct Hs as (Hp & _ & Hs). apply elem_of_cons in Hk as [->|Hk]; [by eapply fld_some|by eapply IH].
Qed.

Lemma seg_set_first h pv pv' k l nx : k ∉ l -> seg h pv (k :: l) nx -> seg (alter (set_prev pv') k h) pv' (k :: l) nx.
Proof.
  intros Hk (Hp & Hn & Hs). split_and!.
  - apply fld_alter_set; [by eapply fld_some|done].
  - by rewrite fld_alter_same.
  - eapply seg_frame; [|exact Hs]. intros j Hj. assert (j <> k) by by intros ->. by rewrite !fld_alter_ne.
Qed.

Lemma seg_set_last h pv k l nx nx' : k ∉ l -> seg h pv (l ++ [k]) nx -> seg (alter (set_next nx') k h) pv (l ++ [k]) nx'.
Proof.
  intros Hk [H1 (Hp & Hn & _)]%seg_app. apply seg_app. split.
  - cbn in *. eapply seg_frame; [|exact H1]. intros j Hj. assert (j <> k) by by intros ->. by rewrite !fld_alter_ne.
  - cbn. split_and!; [by rewrite fld_alter_same| |done]. apply fld_alter_set; [by eapply fld_some|done].
Qed.

(** * Forests *)

(** [ch p] are the kids of [p] in order. *)
Record forest (h : heap) (ch : positive -> list positive) : Prop := {
  f_kids : forall p, is_Some (h !! p) -> fld kids h p = Some (hd_or None (ch p));
  f_seg : forall p, seg h None (ch p) None;
  f_nodup : forall p, NoDup (ch p);
  f_child : forall p k, k ∈ ch p <-> fld parent h k = Some (Some p);
  f_parent : forall p k, fld parent h k = Some (Some p) -> is_Some (h !! p);
  f_orphan : forall k, fld parent h k = Some None -> fld prev h k = Some None /\ fld next h k = Some None }.

(** A forest but for the node [n], which is in no list and whose own links are
    stale. *)
Record forest_but (n : positive) (h : heap) (ch : positive -> list positive) : Prop := {
  fb_kids : forall p, is_Some (h !! p) -> fld kids h p = Some (hd_or None (ch p));
  fb_seg : forall p, seg h None (ch p) None;
  fb_nodup : forall p, NoDup (ch p);
  fb_out : forall p, n ∉ ch p;
  fb_child : forall p k, k <> n -> k ∈ ch p <-> fld parent h k = Some (Some p);
  fb_parent : forall p k, k <> n -> fld parent h k = Some (Some p) -> is_Some (h !! p);
  fb_orphan : forall k, k <> n -> fld parent h k = Some None -> fld prev h k = Some None /\ fld next h k = Some None }.

Definition set_ch (p : positive) (l : list positive) (ch : positive -> list positive) : positive -> list positive :=
  fun i => if decide (i = p) then l else ch i.

Lemma set_ch_eq p l ch : set_ch p l ch p = l.
Proof. unfold set_ch. by rewrite decide_True. Qed.

Lemma set_ch_ne p l ch i : i <> p -> set_ch p l ch i = ch i.
Proof. intros H. unfold set_ch. by rewrite decide_False. Qed.

(** Nodes of different lists differ. *)
Lemma forest_disjoint h ch p p' k : forest h ch -> k ∈ ch p -> k ∈ ch p' -> p = p'.
Proof. intros Hf H1%(f_child _ _ Hf) H2%(f_child _ _ Hf). congruence. Qed.

(** * Taking a node out of its list *)

Definition unlink (n p : positive) (x : priorityNode) (h : heap) : fl heap :=
  h ← match prev x with
      | None => upd p (set_kids (next x)) h
      | Some pr => upd pr (set_next (next x)) h
      end;
  x ← get n h;
  when (next x) (fun nx => upd nx (set_prev (prev x))) h.

Lemma fld_get {A} (π : priorityNode -> A) h k x : h !! k = Some x -> fld π h k = Some (π x).
Proof. intros H. unfold fld. by rewrite H. Qed.

Lemma get_some h k : is_Some (h !! k) -> exists x, get k h = Ok x /\ h !! k = Some x.
Proof. intros [x Hx]. exists x. unfold get. by rewrite Hx. Qed.

(** The first half: what stood before [n] leads behind it. *)
Lemma unlink_before h ch n x p l1 l2 : forest h ch -> h !! n = Some x -> ch p = l1 ++ n :: l2 ->
  exists h', match prev x with None => upd p (set_kids (next x)) h | Some pr => upd pr (set_next (next x)) h end = Ok h' /\
    same_payload h h' /\ (forall k, fld parent h' k = fld parent h k) /\
    (forall k, fld prev h' k = fld prev h k) /\
    (forall k, k ∉ l1 -> fld next h' k = fld next h k) /\
    (forall k, k <> p -> fld kids h' k = fld kids h k) /\
    (is_Some (h !! p) -> fld kids h' p = Some (hd_or None (l1 ++ l2))) /\
    seg h' None l1 (hd_or None l2).
Proof.
  intros Hf Hx Hl. pose proof (f_seg _ _ Hf p) as Hs. rewrite Hl in Hs. apply seg_app in Hs as [H1 (Hp & Hn & H2)].
  pose proof (f_nodup _ _ Hf p) as Hnd. rewrite Hl in Hnd.
  assert (Hpi : is_Some (h !! p)).
  { apply (f_parent _ _ Hf p n), (f_child _ _ Hf). rewrite Hl. apply elem_of_app. right. by left. }
  rewrite (fld_get prev _ _ _ Hx) in Hp. rewrite (fld_get next _ _ _ Hx) in Hn. injection Hp as ->. injection Hn as ->.
  destruct l1 as [|pr l1 _] using rev_ind.
  - cbn [last_or last]. exists (alter (set_kids (hd_or None l2)) p h). split; [by apply upd_alter|].
    split_and!; [by apply same_payload_alter|intros; by apply fld_alter_same..| | |done].
    + intros k Hk. by apply fld_alter_ne.
    + intros _. by apply fld_alter_set.
  - rewrite last_or_snoc. pose proof (seg_dom _ _ _ _ pr H1 ltac:(apply elem_of_app; right; by left)) as Hpr.
    exists (alter (set_next (hd_or None l2)) pr h). split; [by apply upd_alter|].
    split_and!; [by apply same_payload_alter|intros; by apply fld_alter_same..| | | |].
    + intros k Hk. apply fld_alter_ne. intros ->. apply Hk, elem_of_app. right. by left.
    + intros k Hk. by apply fld_alter_same.
    + intros _. rewrite fld_alter_same by done. rewrite (f_kids _ _ Hf p Hpi), Hl.
      by destruct l1.
    + apply seg_set_last with (nx := Some n); [|done]. apply NoDup_app in Hnd as (Hnd & _ & _).
      apply NoDup_app in Hnd as (_ & Hnd & _). intros Hin. eapply Hnd; [done|by left].
Qed.

Lemma unlink_spec h ch n x p : forest h ch -> h !! n = Some x -> parent x = Some p ->
  exists h1 l1 l2, unlink n p x h = Ok h1 /\ ch p = l1 ++ n :: l2 /\ forest_but n h1 (set_ch p (l1 ++ l2) ch) /\
    same_payload h h1 /\ (forall k, fld parent h1 k = fld parent h k).
Proof.
  intros Hf Hx Hpx. assert (Hin : n ∈ ch p) by (apply (f_child _ _ Hf); by rewrite (fld_get _ _ _ _ Hx), Hpx).
  pose proof Hin as (l1 & l2 & Hl)%list_elem_of_split.
  destruct (unlink_before h ch n x p l1 l2 Hf Hx Hl) as (h' & Hr & Hpay & Hpar & Hprev & Hnext & Hkids & Hkp & Hs1).
  pose proof (f_nodup _ _ Hf p) as Hnd. rewrite Hl in Hnd. apply NoDup_app in Hnd as (Hnd1 & Hnd12 & Hnd2).
  apply NoDup_cons in Hnd2 as [Hn2 Hnd2].
  assert (Hn1 : n ∉ l1) by (intros H; eapply Hnd12; [exact H|by left]).
  pose proof (f_seg _ _ Hf p) as Hs. rewrite Hl in Hs. apply seg_app in Hs as [_ (Hp & Hn & H2)].
  assert (Hpi : is_Some (h !! p)) by (apply (f_parent _ _ Hf p n); by apply (f_child _ _ Hf)).
  assert (H2' : seg h' (Some n) l2 None).
  { eapply seg_frame; [|exact H2]. intros k Hk. split; [done|]. apply Hnext. intros Hk1. eapply Hnd12; [exact Hk1|by right]. }
  destruct (get_some h' n) as (x' & Hg & Hx'). { apply (same_payload_dom _ _ Hpay). eauto. }
  pose proof (Hnext n Hn1) as En. pose proof (Hprev n) as Ep. rewrite (fld_get next _ _ _ Hx') in En. rewrite (fld_get prev _ _ _ Hx') in Ep.
  rewrite Hn in En. rewrite Hp in Ep. injection En as En. injection Ep as Ep.
  assert (Hstep : exists h1, when (next x') (fun nx => upd nx (set_prev (prev x'))) h' = Ok h1 /\ same_payload h' h1 /\
    (forall k, fld parent h1 k = fld parent h' k) /\ (forall k, fld next h1 k = fld next h' k) /\ (forall k, fld kids h1 k = fld kids h' k) /\
    (forall k, k ∉ l2 -> fld prev h1 k = fld prev h' k) /\ seg h1 (last_or None l1) l2 None).
  { rewrite En, Ep. destruct l2 as [|nx l2]; cbn [hd_or when]; [by exists h'|].
    pose proof (seg_dom _ _ _ _ nx H2' ltac:(by left)) as Hnx. eexists. split; [by apply upd_alter|].
    split_and!; [by apply same_payload_alter|intros; by apply fld_alter_same..| |].
    - intros k Hk. apply fld_alter_ne. intros ->. apply Hk. by left.
    - apply seg_set_first with (pv := Some n); [|done]. by apply NoDup_cons in Hnd2 as [? _]. }
  destruct Hstep as (h1 & Hr1 & Hpay1 & Hpar1 & Hnext1 & Hkids1 & Hprev1 & Hs2).
  exists h1, l1, l2. unfold unlink. rewrite Hr. cbn [mbind outcome_bind]. rewrite Hg. cbn [mbind outcome_bind].
  split; [done|]. split; [done|].
  assert (Hpar' : forall k, fld parent h1 k = fld parent h k) by (intros k; by rewrite Hpar1, Hpar).
  split; [|split; [by eapply same_payload_trans|done]].
  assert (Hdom : forall k, is_Some (h1 !! k) <-> is_Some (h !! k)).
  { apply same_payload_dom. by eapply same_payload_trans. }
  assert (Hout : forall q, q <> p -> n ∉ ch q).
  { intros q0 Hq H. apply Hq. by eapply forest_disjoint. }
  split.
  - intros q0 Hq. rewrite Hkids1. destruct (decide (q0 = p)) as [->|Hne].
    + rewrite set_ch_eq. by apply Hkp.
    + rewrite set_ch_ne, Hkids by done. apply (f_kids _ _ Hf). by apply Hdom.
  - intros q0. destruct (decide (q0 = p)) as [->|Hne].
    + rewrite set_ch_eq. apply seg_app. split; [|done].
      eapply seg_frame; [|exact Hs1]. intros k Hk. split; [|done]. apply Hprev1. intros Hk2. eapply Hnd12; [exact Hk|by right].
    + rewrite set_ch_ne by done. eapply seg_frame; [|exact (f_seg _ _ Hf q0)]. intros k Hk.
      assert (Hk' : k ∉ ch p) by (intros H; apply Hne; by eapply forest_disjoint).
      rewrite Hl, elem_of_app, elem_of_cons in Hk'. split.
      * rewrite Hprev1 by tauto. apply Hprev.
      * rewrite Hnext1. apply Hnext. tauto.
  - intros q0. destruct (decide (q0 = p)) as [->|Hne]; [|rewrite set_ch_ne by done; apply (f_nodup _ _ Hf)].
    rewrite set_ch_eq. apply NoDup_app. split_and!; [done| |done]. intros k Hk Hk2. eapply Hnd12; [exact Hk|by right].
  - intros q0. destruct (decide (q0 = p)) as [->|Hne]; [|rewrite set_ch_ne by done; by apply Hout].
    rewrite set_ch_eq, elem_of_app. tauto.
  - intros q0 k Hk. rewrite Hpar'. rewrite <- (f_child _ _ Hf). destruct (decide (q0 = p)) as [->|Hne]; [|by rewrite set_ch_ne].
    rewrite set_ch_eq, Hl, !elem_of_app, elem_of_cons. tauto.
  - intros q0 k Hk. rewrite Hpar'. intros Hq. apply Hdom. by eapply (f_parent _ _ Hf).
  - intros k Hk. rewrite Hpar'. intros Ho. destruct (f_orphan _ _ Hf k Ho) as [E1 E2].
    assert (Hk' : k ∉ ch p) by (intros H%(f_child _ _ Hf); congruence).
    rewrite Hl, elem_of_app, elem_of_cons in Hk'. rewrite Hprev1, Hprev, Hnext1, Hnext by tauto. done.
Qed.

(** * Putting a node into a list *)

Definition link (n : positive) (par : ptr) (h : heap) : fl heap :=
  h ← upd n (set_parent par) h;
  match par with
  | None => h ← upd n (set_next None) h; upd n (set_prev None) h
  | Some p =>
      y ← get p h;
      h ← upd n (set_next (kids y)) h;
      h ← upd n (set_prev None) h;
      h ← when (kids y) (fun k => upd k (set_prev (Some n))) h;
      upd p (set_kids (Some n)) h
  end.

Definition linked_ch (n : positive) (par : ptr) (ch : positive -> list positive) : positive -> list positive :=
  match par with None => ch | Some p => set_ch p (n :: ch p) ch end.

(** Setting the three links of [n]. *)
Lemma three_links n par nx h : is_Some (h !! n) ->
  exists h3, (h ← upd n (set_parent par) h; h ← upd n (set_next nx) h; upd n (set_prev None) h) = Ok h3 /\
    same_payload h h3 /\ fld parent h3 n = Some par /\ fld next h3 n = Some nx /\ fld prev h3 n = Some None /\
    (forall k, fld kids h3 k = fld kids h k) /\
    (forall k, k <> n -> fld parent h3 k = fld parent h k /\ fld next h3 k = fld next h k /\ fld prev h3 k = fld prev h k).
Proof.
  intros Hn. set (h1 := alter (set_parent par) n h). assert (Hn1 : is_Some (h1 !! n)) by by apply alter_some.
  set (h2 := alter (set_next nx) n h1). assert (Hn2 : is_Some (h2 !! n)) by by apply alter_some.
  exists (alter (set_prev None) n h2). split.
  { rewrite upd_alter by done. cbn [mbind outcome_bind]. fold h1. rewrite upd_alter by done. cbn [mbind outcome_bind].
    fold h2. by apply upd_alter. }
  split_and!.
  - intros k. unfold h2, h1. by rewrite !fld_alter_same.
  - rewrite fld_alter_same by done. unfold h2. rewrite fld_alter_same by done. by apply fld_alter_set.
  - rewrite fld_alter_same by done. by apply fld_alter_set.
  - by apply fld_alter_set.
  - intros k. unfold h2, h1. by rewrite !fld_alter_same.
  - intros k Hk. unfold h2, h1. by rewrite !fld_alter_ne.
Qed.

Lemma seg_but n h h' pv l nx : n ∉ l -> (forall k, k <> n -> fld next h' k = fld next h k /\ fld prev h' k = fld prev h k) ->
  seg h pv l nx -> seg h' pv l nx.
Proof. intros Hn Hf. apply seg_frame. intros k Hk. destruct (Hf k) as [-> ->]; [|done]. by intros ->. Qed.

Lemma link_spec n par h ch : forest_but n h ch -> is_Some (h !! n) ->
  (forall p, par = Some p -> p <> n /\ is_Some (h !! p)) ->
  exists h', link n par h = Ok h' /\ forest h' (linked_ch n par ch) /\ same_payload h h' /\
    (forall k, fld parent h' k = if decide (k = n) then Some par else fld parent h k).
Proof.
  intros Hf Hn Hpar. unfold link. destruct par as [p|]; cbn [linked_ch].
  - destruct (Hpar p eq_refl) as [Hpn Hp]. clear Hpar.
    destruct (three_links n (Some p) (hd_or None (ch p)) h Hn) as (h3 & Hr & Hpay & E1 & E2 & E3 & Ek & Eo).
    rewrite upd_alter in Hr |- * by done. cbn [mbind outcome_bind] in *. set (h1 := alter _ n h) in *.
    destruct (get_some h1 p) as (y & Hg & Hy); [by apply alter_some|]. rewrite Hg. cbn [mbind outcome_bind].
    assert (Hky : kids y = hd_or None (ch p)).
    { pose proof (fb_kids _ _ _ Hf p Hp) as H. rewrite <- (fld_alter_same kids (set_parent (Some p)) n h p ltac:(done)) in H.
      fold h1 in H. rewrite (fld_get _ _ _ _ Hy) in H. by injection H. }
    rewrite Hky. destruct (upd n (set_next _) h1) as [h2| |]; [|done|done]. cbn [mbind outcome_bind] in *. rewrite Hr. cbn [mbind outcome_bind].
    assert (Hd3 : forall k, is_Some (h3 !! k) <-> is_Some (h !! k)) by by apply same_payload_dom.
    assert (Hstep : exists h4, when (hd_or None (ch p)) (fun k => upd k (set_prev (Some n))) h3 = Ok h4 /\ same_payload h3 h4 /\
      (forall k, fld parent h4 k = fld parent h3 k) /\ (forall k, fld next h4 k = fld next h3 k) /\ (forall k, fld kids h4 k = fld kids h3 k) /\
      (forall k, k ∉ ch p -> fld prev h4 k = fld prev h3 k) /\ seg h4 (Some n) (ch p) None).
    { assert (Hs : seg h3 None (ch p) None).
      { eapply (seg_but n); [apply (fb_out _ _ _ Hf)| |exact (fb_seg _ _ _ Hf p)]. intros k Hk. by destruct (Eo k Hk) as (_ & ? & ?). }
      pose proof (fb_nodup _ _ _ Hf p) as Hnd. destruct (ch p) as [|k0 l]; cbn [hd_or when]; [by exists h3|].
      eexists. split; [apply upd_alter; eapply seg_dom; [exact Hs|by left]|].
      split_and!; [by apply same_payload_alter|intros; by apply fld_alter_same..| |].
      - intros k Hk. apply fld_alter_ne. intros ->. apply Hk. by left.
      - apply seg_set_first with (pv := None); [|done]. by apply NoDup_cons in Hnd as [? _]. }
    destruct Hstep as (h4 & -> & Hpay4 & Ep4 & En4 & Ek4 & Ev4 & Hs4). cbn [mbind outcome_bind].
    assert (Hd4 : forall k, is_Some (h4 !! k) <-> is_Some (h !! k)).
    { intros k. rewrite <- Hd3. by apply same_payload_dom. }
    exists (alter (set_kids (Some n)) p h4). split; [apply upd_alter; by apply Hd4|].
    set (h5 := alter _ p h4).
    assert (Ep : forall k, fld parent h5 k = if decide (k = n) then Some (Some p) else fld parent h k).
    { intros k. unfold h5. rewrite fld_alter_same, Ep4 by done. case_decide as Hk; [by subst|]. by destruct (Eo k Hk). }
    assert (En : forall k, fld next h5 k = fld next h3 k) by (intros k; unfold h5; by rewrite fld_alter_same, En4).
    assert (Ev : forall k, fld prev h5 k = fld prev h4 k) by (intros k; unfold h5; by rewrite fld_alter_same).
    assert (Hd5 : forall k, is_Some (h5 !! k) <-> is_Some (h !! k)) by (intros k; unfold h5; rewrite alter_some; apply Hd4).
    assert (Hno : forall i, n ∉ ch i) by apply (fb_out _ _ _ Hf).
    assert (Hdis : forall i k, i <> p -> k ∈ ch i -> k ∉ ch p).
    { intros i k Hi H1 H2. assert (k <> n) by (intros ->; by eapply Hno). apply (fb_child _ _ _ Hf) in H1, H2; congruence. }
    split; [|split; [|done]].
    2:{ eapply same_payload_trans; [exact Hpay|]. eapply same_payload_trans; [exact Hpay4|]. by apply same_payload_alter. }
    split.
    + intros i Hi. destruct (decide (i = p)) as [->|Hne].
      * rewrite set_ch_eq. apply fld_alter_set; [by apply Hd4|done].
      * rewrite set_ch_ne by done. unfold h5. rewrite fld_alter_ne, Ek4, Ek by done. apply (fb_kids _ _ _ Hf). by apply Hd5.
    + intros i. destruct (decide (i = p)) as [->|Hne].
      * rewrite set_ch_eq. cbn [seg]. split_and!.
        -- rewrite Ev, Ev4 by apply Hno. done.
        -- rewrite En. done.
        -- eapply seg_frame; [|exact Hs4]. intros k _. by rewrite Ev, En, En4.
      * rewrite set_ch_ne by done. eapply seg_frame; [|exact (fb_seg _ _ _ Hf i)]. intros k Hk.
        assert (Hkn : k <> n) by (intros ->; by eapply Hno). destruct (Eo k Hkn) as (_ & F1 & F2).
        rewrite Ev, Ev4, En by (by eapply Hdis). done.
    + intros i. destruct (decide (i = p)) as [->|Hne]; [|rewrite set_ch_ne by done; apply (fb_nodup _ _ _ Hf)].
      rewrite set_ch_eq. apply NoDup_cons. split; [apply Hno|apply (fb_nodup _ _ _ Hf)].
    + intros i k. rewrite Ep. case_decide as Hk.
      * subst k. split.
        -- intros H. destruct (decide (i = p)) as [->|Hne]; [done|]. rewrite set_ch_ne in H by done. by apply Hno in H.
        -- intros [= <-]. rewrite set_ch_eq. by left.
      * rewrite <- (fb_child _ _ _ Hf i k Hk). destruct (decide (i = p)) as [->|Hne]; [|by rewrite set_ch_ne].
        rewrite set_ch_eq, elem_of_cons. tauto.
    + intros i k. rewrite Ep. case_decide as Hk; [intros [= <-]; by apply Hd5|]. intros H. apply Hd5. by eapply (fb_parent _ _ _ Hf).
    + intros k. rewrite Ep. case_decide as Hk; [done|]. intros H. destruct (fb_orphan _ _ _ Hf k Hk H) as [F1 F2].
      assert (Hkp : k ∉ ch p) by (intros Hin%(fb_child _ _ _ Hf); congruence).
      destruct (Eo k Hk) as (_ & G1 & G2). rewrite Ev, Ev4, En by done. by rewrite G1, G2.
  - destruct (three_links n None None h Hn) as (h3 & Hr & Hpay & E1 & E2 & E3 & Ek & Eo).
    exists h3. split; [done|].
    assert (Ep : forall k, fld parent h3 k = if decide (k = n) then Some None else fld parent h k).
    { intros k. case_decide as Hk; [by subst|]. by destruct (Eo k Hk). }
    assert (Hd3 : forall k, is_Some (h3 !! k) <-> is_Some (h !! k)) by by apply same_payload_dom.
    split; [|by split]. split.
    + intros i Hi. rewrite Ek. apply (fb_kids _ _ _ Hf). by apply Hd3.
    + intros i. eapply (seg_but n); [apply (fb_out _ _ _ Hf)| |exact (fb_seg _ _ _ Hf i)].
      intros k Hk. by destruct (Eo k Hk) as (_ & ? & ?).
    + apply (fb_nodup _ _ _ Hf).
    + intros i k. rewrite Ep. case_decide as Hk; [|by apply (fb_child _ _ _ Hf)]. subst k. split; [|done].
      intros H. by apply (fb_out _ _ _ Hf) in H.
    + intros i k. rewrite Ep. case_decide as Hk; [done|]. intros H. apply Hd3. by eapply (fb_parent _ _ _ Hf).
    + intros k. rewrite Ep. case_decide as Hk; [by subst|]. intros H. destruct (Eo k Hk) as (_ & -> & ->).
      by apply (fb_orphan _ _ _ Hf).
Qed.

(** * [setParent] *)

Lemma setParent_unlink_link n par h : setParent n par h =
  if decide (par = Some n) then Panic
  else
    x ← get n h;
    if decide (parent x = par) then Ok h
    else h ← when (parent x) (fun p h => unlink n p x h) h; link n par h.
Proof. done. Qed.

(** The lists of kids once [n] has moved to the head of the list of [par]. *)
Definition move_ch (n : positive) (par : ptr) (ch : positive -> list positive) : positive -> list positive :=
  fun i => let l := filter (fun k => k <> n) (ch i) in if decide (par = Some i) then n :: l else l.

Lemma filter_ne_out (n : positive) (l : list positive) : n ∉ l -> filter (fun k => k <> n) l = l.
Proof.
  induction l as [|k l IH]; intros Hn; [done|]. rewrite not_elem_of_cons in Hn. destruct Hn as [H1 H2].
  rewrite filter_cons_True by congruence. by rewrite IH.
Qed.

Lemma filter_ne_mid (n : positive) (l1 l2 : list positive) : n ∉ l1 -> n ∉ l2 -> filter (fun k => k <> n) (l1 ++ n :: l2) = l1 ++ l2.
Proof. intros H1 H2. rewrite filter_app, filter_cons_False, !filter_ne_out by (done || tauto). done. Qed.

Lemma seg_ext h pv l l' nx : l = l' -> seg h pv l nx -> seg h pv l' nx.
Proof. by intros ->. Qed.

Lemma forest_ext h ch ch' : (forall i, ch' i = ch i) -> forest h ch -> forest h ch'.
Proof.
  intros E [H1 H2 H3 H4 H5 H6]. split; try done.
  - intros p Hp. rewrite E. by apply H1.
  - intros p. rewrite E. apply H2.
  - intros p. rewrite E. apply H3.
  - intros p k. rewrite E. apply H4.
Qed.

(** A node without a parent is in no list. *)
Lemma forest_orphan_but n h ch : forest h ch -> fld parent h n = Some None -> forest_but n h ch.
Proof.
  intros [H1 H2 H3 H4 H5 H6] Hn. split; try done.
  - intros p Hp%H4. congruence.
  - intros p k _ H. by eapply H5.
  - intros k _ H. by apply H6.
Qed.

Lemma unlink_when h ch n x : forest h ch -> h !! n = Some x ->
  exists h1 ch1, when (parent x) (fun p h => unlink n p x h) h = Ok h1 /\ forest_but n h1 ch1 /\
    (forall i, ch1 i = filter (fun k => k <> n) (ch i)) /\ same_payload h h1 /\ (forall k, fld parent h1 k = fld parent h k).
Proof.
  intros Hf Hx. destruct (parent x) as [p|] eqn:Hp; cbn [when].
  - destruct (unlink_spec h ch n x p Hf Hx Hp) as (h1 & l1 & l2 & Hr & Hl & Hb & Hpay & Hpar).
    exists h1, (set_ch p (l1 ++ l2) ch). split; [done|]. split; [done|]. split; [|done]. intros i.
    pose proof (f_nodup _ _ Hf p) as Hnd. rewrite Hl in Hnd. apply NoDup_app in Hnd as (_ & H1 & [H2 _]%NoDup_cons).
    assert (Hi : n ∈ ch p) by (rewrite Hl; apply elem_of_app; right; by left).
    destruct (decide (i = p)) as [->|Hne].
    + rewrite set_ch_eq, Hl, filter_ne_mid; [done| |done]. intros H. eapply H1; [exact H|by left].
    + rewrite set_ch_ne, filter_ne_out by first [done | intros H; apply Hne; by eapply forest_disjoint]. done.
  - assert (Hb : forest_but n h ch). { apply forest_orphan_but; [done|]. by rewrite (fld_get _ _ _ _ Hx), Hp. }
    exists h, ch. split; [done|]. split; [done|]. split; [|done]. intros i. rewrite filter_ne_out; [done|apply (fb_out _ _ _ Hb)].
Qed.

(** [setParent] moves [n] to the head of the kids of [par], or changes nothing. *)
Lemma setParent_spec h ch n par : forest h ch -> is_Some (h !! n) ->
  (forall p, par = Some p -> p <> n /\ is_Some (h !! p)) ->
  exists h' ch', setParent n par h = Ok h' /\ forest h' ch' /\ same_payload h h' /\
    (forall k, fld parent h' k = if decide (k = n) then Some par else fld parent h k) /\
    (fld parent h n = Some par -> h' = h /\ ch' = ch) /\ (fld parent h n <> Some par -> ch' = move_ch n par ch).
Proof.
  intros Hf [x Hx] Hpar. rewrite setParent_unlink_link, decide_False by (intros ->; by destruct (Hpar n eq_refl)).
  unfold get. rewrite Hx. cbn [or_panic mbind outcome_bind]. pose proof (fld_get parent _ _ _ Hx) as Hpx.
  case_decide as E.
  - exists h, ch. split_and!; [done..| | |by rewrite Hpx, E]; [|done]. intros k. case_decide; by subst.
  - destruct (unlink_when h ch n x Hf Hx) as (h1 & ch1 & -> & Hb & Hch & Hpay & Hp1). cbn [mbind outcome_bind].
    assert (Hd : forall k, is_Some (h1 !! k) <-> is_Some (h !! k)) by by apply same_payload_dom.
    destruct (link_spec n par h1 ch1 Hb) as (h2 & Hr & Hf2 & Hpay2 & Hp2); [apply Hd; eauto| |].
    { intros p Hp. rewrite Hd. by apply Hpar. }
    exists h2, (move_ch n par ch). split_and!; [done| |by eapply same_payload_trans| |by rewrite Hpx; intros [=]|done].
    + eapply forest_ext; [|exact Hf2]. intros i. unfold move_ch, linked_ch. destruct par as [p|].
      * destruct (decide (i = p)) as [->|Hne]; [by rewrite decide_True, set_ch_eq, Hch|].
        rewrite decide_False, set_ch_ne, Hch by congruence. done.
      * by rewrite decide_False, Hch.
    + intros k. rewrite Hp2. by rewrite Hp1.
Qed.
