(* ===== verification/Http2PriorityInv.v ===== *)
(** The tree of the priority scheduler stays a tree: paths to a root, the loops
    along them, and every operation but [Pop]. *)
From Stdlib Require Import SpecFloat.
From S2P Require Import Prelude Http2Frame Http2Write Http2Flow Http2WriteSched Http2Priority Http2PriorityTree.

(** * Paths to a root *)

(** [l] are the nodes from [p] up to a node without parent. *)
Inductive up (h : heap) : ptr -> list positive -> Prop :=
  | up_nil : up h None []
  | up_cons p par l : fld parent h p = Some par -> up h par l -> up h (Some p) (p :: l).

Definition acyclic (h : heap) : Prop := forall p, is_Some (h !! p) -> exists l, up h (Some p) l.

Lemma up_det h p l l' : up h p l -> up h p l' -> l = l'.
Proof.
  intros H. revert l'. induction H as [|p par l Hp _ IH]; intros l' H'; inversion H' as [|? par' ? Hp']; subst; [done|].
  f_equal. apply IH. congruence.
Qed.

Lemma up_suffix h p l k : up h p l -> k ∈ l -> exists l1 l2, l = l1 ++ k :: l2 /\ up h (Some k) (k :: l2).
Proof.
  induction 1 as [|p par l Hp Hu IH]; intros Hk; [by apply elem_of_nil in Hk|].
  apply elem_of_cons in Hk as [->|Hk].
  - exists [], l. split; [done|]. by econstructor.
  - destruct (IH Hk) as (l1 & l2 & -> & Hu2). by exists (p :: l1), l2.
Qed.

Lemma up_nodup h p l : up h p l -> NoDup l.
Proof.
  induction 1 as [|p par l Hp Hu IH]; [constructor|]. apply NoDup_cons. split; [|done]. intros Hin.
  destruct (up_suffix _ _ _ _ Hu Hin) as (l1 & l2 & -> & Hu2).
  assert (E : p :: l1 ++ p :: l2 = p :: l2) by (eapply up_det; [by econstructor|done]).
  apply (f_equal length) in E. cbn in E. rewrite length_app in E. cbn in E. lia.
Qed.

Lemma up_dom h p l k : up h p l -> k ∈ l -> is_Some (h !! k).
Proof.
  induction 1 as [|p par l Hp Hu IH]; intros Hk; [by apply elem_of_nil in Hk|].
  apply elem_of_cons in Hk as [->|Hk]; [by eapply fld_some|by apply IH].
Qed.

(** Distinct nodes of a heap are at most its size. *)
Lemma nodup_size (h : heap) l : NoDup l -> (forall k, k ∈ l -> is_Some (h !! k)) -> (length l <= size h)%nat.
Proof.
  intros Hnd Hd. rewrite <- (size_list_to_set (C := gset positive) l Hnd), <- (size_dom (D := gset positive) h).
  apply subseteq_size. intros k Hk. apply elem_of_dom, Hd. set_solver.
Qed.

Lemma up_length h p l : up h p l -> (length l <= size h)%nat.
Proof. intros H. apply nodup_size; [by eapply up_nodup|]. intros k. by eapply up_dom. Qed.

Lemma up_frame h h' p l : up h p l -> (forall k, k ∈ l -> fld parent h' k = fld parent h k) -> up h' p l.
Proof.
  induction 1 as [|p par l Hp Hu IH]; intros Hf; [constructor|]. econstructor.
  - rewrite Hf; [done|by left].
  - apply IH. intros k Hk. apply Hf. by right.
Qed.

Lemma acyclic_frame h h' : (forall k, fld parent h' k = fld parent h k) -> acyclic h -> acyclic h'.
Proof.
  intros Hf Ha p [x Hx]. destruct (Ha p) as [l Hl].
  - pose proof (fld_get parent _ _ _ Hx) as E. rewrite Hf in E. by eapply fld_some.
  - exists l. eapply up_frame; [exact Hl|done].
Qed.

(** A node's parent is not below it. *)
Lemma up_parent h p par l : up h (Some p) l -> fld parent h p = Some par -> exists l', l = p :: l' /\ up h par l' /\ p ∉ l'.
Proof.
  intros H Hp. inversion H as [|? par' l' Hp' Hu]; subst. exists l'. split; [done|]. split; [congruence|].
  apply up_nodup in H. by apply NoDup_cons in H as [? _].
Qed.

Lemma parent_irrefl h p : acyclic h -> fld parent h p <> Some (Some p).
Proof.
  intros Ha Hp. destruct (Ha p) as [l Hl]; [by eapply fld_some|].
  destruct (up_parent _ _ _ _ Hl Hp) as (l' & -> & Hu & Hn). inversion Hu; subst. apply Hn. by left.
Qed.

(** Moving one node under a path it is not on. *)
Lemma acyclic_move h h' n par l : acyclic h -> up h par l -> n ∉ l ->
  (forall k, fld parent h' k = if decide (k = n) then Some par else fld parent h k) ->
  (forall k, is_Some (h' !! k) <-> is_Some (h !! k)) -> acyclic h'.
Proof.
  intros Ha Hl Hn Hp Hd p Hpd. apply Hd in Hpd. destruct (Ha p Hpd) as [lp Hlp].
  assert (Hl' : up h' par l). { eapply up_frame; [exact Hl|]. intros k Hk. rewrite Hp, decide_False; [done|by intros ->]. }
  clear Hpd. revert Hlp. generalize (Some p) as o. induction 1 as [|k kp lk Hk _ IH]; [by eexists; constructor|].
  destruct (decide (k = n)) as [->|Hne].
  - exists (n :: l). econstructor; [|exact Hl']. by rewrite Hp, decide_True.
  - destruct IH as [lk' Hlk]. exists (k :: lk'). econstructor; [|exact Hlk]. by rewrite Hp, decide_False.
Qed.

(** * Heaps whose links agree *)

Definition links (n : priorityNode) := (parent n, kids n, prev n, next n).

Definition same_links (h h' : heap) : Prop := forall k, fld links h' k = fld links h k.

Lemma fld_proj {A B} (π : priorityNode -> A) (ρ : priorityNode -> B) (g : A -> B) h k :
  (forall x, ρ x = g (π x)) -> fld ρ h k = g <$> fld π h k.
Proof. intros E. unfold fld. destruct (h !! k); [|done]. cbn. by rewrite E. Qed.

Lemma same_links_fld {B} (ρ : priorityNode -> B) (g : _ -> B) h h' k :
  (forall x, ρ x = g (links x)) -> same_links h h' -> fld ρ h' k = fld ρ h k.
Proof. intros E H. rewrite !(fld_proj links ρ g _ _ E). by rewrite H. Qed.

Lemma same_links_dom h h' : same_links h h' -> forall k, is_Some (h' !! k) <-> is_Some (h !! k).
Proof.
  intros H k. specialize (H k). unfold fld in H.
  destruct (h !! k), (h' !! k); cbn in H; split; intros [? ?]; try done; eauto.
Qed.

Lemma same_links_parent h h' k : same_links h h' -> fld parent h' k = fld parent h k.
Proof. by apply (same_links_fld parent (fun t => t.1.1.1)). Qed.

Lemma same_links_forest h h' ch : same_links h h' -> forest h ch -> forest h' ch.
Proof.
  intros H Hf.
  assert (Ek : forall k, fld kids h' k = fld kids h k) by (intros k; by apply (same_links_fld kids (fun t => t.1.1.2))).
  assert (Ev : forall k, fld prev h' k = fld prev h k) by (intros k; by apply (same_links_fld prev (fun t => t.1.2))).
  assert (En : forall k, fld next h' k = fld next h k) by (intros k; by apply (same_links_fld next (fun t => t.2))).
  assert (Ep : forall k, fld parent h' k = fld parent h k) by (intros k; by apply same_links_parent).
  pose proof (same_links_dom _ _ H) as Hd. destruct Hf as [F1 F2 F3 F4 F5 F6]. split.
  - intros p Hp. rewrite Ek. apply F1. by apply Hd.
  - intros p. eapply seg_frame; [|apply F2]. done.
  - done.
  - intros p k. by rewrite Ep.
  - intros p k. rewrite Ep, Hd. apply F5.
  - intros k. rewrite Ep, Ev, En. apply F6.
Qed.

Lemma same_links_acyclic h h' : same_links h h' -> acyclic h -> acyclic h'.
Proof. intros H. apply acyclic_frame. intros k. by apply same_links_parent. Qed.

Lemma same_links_alter f p h : (forall y, links (f y) = links y) -> same_links h (alter f p h).
Proof. intros Hf k. by apply fld_alter_same. Qed.

Lemma same_links_trans a b c : same_links a b -> same_links b c -> same_links a c.
Proof. intros H1 H2 k. by rewrite H2, H1. Qed.

(** What [addBytes] leaves alone. *)
Definition meta (n : priorityNode) := (q n, id n, weight n, state n).

Definition same_meta (h h' : heap) : Prop := forall k, fld meta h' k = fld meta h k.

Lemma same_meta_trans a b c : same_meta a b -> same_meta b c -> same_meta a c.
Proof. intros H1 H2 k. by rewrite H2, H1. Qed.

Lemma same_payload_meta h h' : same_payload h h' -> same_meta h h'.
Proof. intros H k. rewrite !(fld_proj payload meta (fun t => (t.1.1.1.1.1, t.1.1.1.1.2, t.1.1.1.2, t.1.1.2))) by done. by rewrite H. Qed.

Lemma same_meta_q h h' k : same_meta h h' -> fld q h' k = fld q h k.
Proof. intros H. rewrite !(fld_proj meta q (fun t => t.1.1.1)) by done. by rewrite H. Qed.

Lemma same_meta_id h h' k : same_meta h h' -> fld id h' k = fld id h k.
Proof. intros H. rewrite !(fld_proj meta id (fun t => t.1.1.2)) by done. by rewrite H. Qed.

Lemma same_meta_state h h' k : same_meta h h' -> fld state h' k = fld state h k.
Proof. intros H. rewrite !(fld_proj meta state (fun t => t.2)) by done. by rewrite H. Qed.

(** * [addBytes] *)

Lemma upd_get f p h x : h !! p = Some x -> upd p f h = Ok (alter f p h).
Proof. intros H. apply upd_alter. eauto. Qed.

Lemma addBytes_loop_spec b fuel : forall n h l, up h n l -> (length l <= fuel)%nat ->
  exists h', addBytes_loop fuel n b h = Ok h' /\ same_links h h' /\ same_meta h h'.
Proof.
  induction fuel as [|fuel IH]; intros n h l Hu Hl; inversion Hu as [|p par l' Hp Hu']; subst.
  - by exists h.
  - cbn in Hl. lia.
  - by exists h.
  - cbn [addBytes_loop]. destruct (get_some h p) as (x & Hg & Hx); [by eapply fld_some|]. rewrite Hg. cbn [mbind outcome_bind].
    rewrite (upd_get _ _ _ _ Hx). cbn [mbind outcome_bind]. set (h1 := alter _ p h).
    assert (Hs : same_links h h1) by by apply same_links_alter.
    rewrite (fld_get parent _ _ _ Hx) in Hp. injection Hp as ->.
    destruct (IH par h1 l') as (h' & Hr & Hs' & Hm').
    + eapply up_frame; [exact Hu'|]. intros k _. by apply same_links_parent.
    + cbn in Hl. lia.
    + exists h'. split; [done|]. split; [by eapply same_links_trans|]. eapply same_meta_trans; [|exact Hm'].
      intros k. by apply fld_alter_same.
Qed.

Lemma addBytes_spec n b h : acyclic h -> is_Some (h !! n) ->
  exists h', addBytes n b h = Ok h' /\ same_links h h' /\ same_meta h h'.
Proof.
  intros Ha Hn. unfold addBytes. destruct (get_some h n Hn) as (x & Hg & Hx). rewrite Hg. cbn [mbind outcome_bind].
  rewrite (upd_get _ _ _ _ Hx). cbn [mbind outcome_bind]. set (h1 := alter _ n h).
  assert (Hs : same_links h h1) by by apply same_links_alter.
  destruct (Ha n Hn) as [l Hl]. assert (Hl1 : up h1 (Some n) l).
  { eapply up_frame; [exact Hl|]. intros k _. by apply same_links_parent. }
  destruct (addBytes_loop_spec b (size h1) (Some n) h1 l Hl1) as (h' & Hr & Hs' & Hm').
  - by eapply up_length.
  - exists h'. split; [done|]. split; [by eapply same_links_trans|]. eapply same_meta_trans; [|exact Hm'].
    intros k. by apply fld_alter_same.
Qed.

(** * A forest without cycles *)

Record tree (h : heap) (ch : positive -> list positive) : Prop := { t_forest : forest h ch; t_acyclic : acyclic h }.

Lemma same_links_tree h h' ch : same_links h h' -> tree h ch -> tree h' ch.
Proof. intros H [Hf Ha]. split; [by eapply same_links_forest|by eapply same_links_acyclic]. Qed.

(** What follows [k] in its list. *)
Lemma next_in_list h ch p l1 k l2 : forest h ch -> ch p = l1 ++ k :: l2 -> fld next h k = Some (hd_or None l2).
Proof. intros Hf Hl. pose proof (f_seg _ _ Hf p) as H. rewrite Hl in H. by apply seg_app in H as [_ (_ & H & _)]. Qed.

Lemma child_dom h ch p k : forest h ch -> k ∈ ch p -> is_Some (h !! k).
Proof. intros Hf Hk. eapply seg_dom; [exact (f_seg _ _ Hf p)|done]. Qed.

Lemma children_length h ch p : forest h ch -> (length (ch p) <= size h)%nat.
Proof. intros Hf. apply nodup_size; [by apply (f_nodup _ _ Hf)|]. intros k. by apply child_dom. Qed.

Lemma move_ch_other n par ch i : par <> Some i -> move_ch n par ch i = filter (fun k => k <> n) (ch i).
Proof. intros H. unfold move_ch. by rewrite decide_False. Qed.

Lemma move_ch_to n p ch : move_ch n (Some p) ch p = n :: filter (fun k => k <> n) (ch p).
Proof. unfold move_ch. by rewrite decide_True. Qed.

(** [setParent] to a node that is not below [n] keeps the tree. *)
Lemma setParent_tree h ch n par l : tree h ch -> is_Some (h !! n) -> up h par l -> n ∉ l ->
  exists h' ch', setParent n par h = Ok h' /\ tree h' ch' /\ same_payload h h' /\
    (forall k, fld parent h' k = if decide (k = n) then Some par else fld parent h k) /\
    (fld parent h n = Some par -> h' = h /\ ch' = ch) /\ (fld parent h n <> Some par -> ch' = move_ch n par ch).
Proof.
  intros [Hf Ha] Hn Hu Hnl. destruct (setParent_spec h ch n par Hf Hn) as (h' & ch' & Hr & Hf' & Hpay & Hp & Hsame & Hmove).
  { intros p ->. inversion Hu as [|? ? ? Hq]; subst. split; [|by eapply fld_some]. intros ->. apply Hnl. by left. }
  exists h', ch'. split; [done|]. split; [|done]. split; [done|]. eapply acyclic_move; try done. by apply same_payload_dom.
Qed.

Lemma setParent_None h ch n : tree h ch -> is_Some (h !! n) ->
  exists h' ch', setParent n None h = Ok h' /\ tree h' ch' /\ same_payload h h' /\
    (forall k, fld parent h' k = if decide (k = n) then Some None else fld parent h k) /\
    (fld parent h n = Some None -> h' = h /\ ch' = ch) /\ (fld parent h n <> Some None -> ch' = move_ch n None ch).
Proof. intros Ht Hn. eapply setParent_tree; [done|done|constructor|]. apply not_elem_of_nil. Qed.

(** * [is_ancestor] *)

Lemma is_ancestor_spec n fuel : forall x h l, up h x l -> (length l <= fuel)%nat ->
  is_ancestor fuel n x h = Ok (bool_decide (n ∈ l)).
Proof.
  induction fuel as [|fuel IH]; intros x h l Hu Hl; inversion Hu as [|p par l' Hp Hu']; subst.
  - done.
  - cbn in Hl. lia.
  - done.
  - cbn [is_ancestor]. case_decide as E.
    + subst p. rewrite bool_decide_true; [done|by left].
    + destruct (get_some h p) as (y & Hg & Hy); [by eapply fld_some|]. rewrite Hg. cbn [mbind outcome_bind].
      rewrite (fld_get parent _ _ _ Hy) in Hp. injection Hp as ->. rewrite (IH _ _ l') by (done || cbn in Hl; lia).
      f_equal. apply bool_decide_ext. rewrite elem_of_cons. split; [by right|]. by intros [?|?].
Qed.

(** * [adopt_loop] *)

(** The kids of [par] but [n] become kids of [n]; their order does not matter
    here. *)
Lemma adopt_loop_spec n par fuel : n <> par -> forall l2 l1 h ch, forest h ch -> is_Some (h !! n) -> n ∉ l1 \/ n ∉ l2 ->
  ch par = l1 ++ l2 -> (length l2 <= fuel)%nat ->
  exists h' ch', adopt_loop fuel n (hd_or None l2) h = Ok h' /\ forest h' ch' /\ same_payload h h' /\
    (forall k, fld parent h' k = if decide (k ∈ l2 /\ k <> n) then Some (Some n) else fld parent h k).
Proof.
  intros Hne. induction fuel as [|fuel IH]; intros l2 l1 h ch Hf Hn Hor Hl Hlen; (destruct l2 as [|p l2]; [|]).
  2: by cbn in Hlen; lia.
  1, 2: exists h, ch; split_and!; [done..|]; intros k; rewrite decide_False; [done|]; intros [H _]; by apply elem_of_nil in H.
  cbn [hd_or adopt_loop]. pose proof (next_in_list _ _ _ _ _ _ Hf Hl) as Hnx.
  destruct (get_some h p) as (x & Hg & Hx); [by eapply fld_some|]. rewrite Hg. cbn [mbind outcome_bind].
  rewrite (fld_get next _ _ _ Hx) in Hnx. injection Hnx as Hnx. rewrite Hnx.
  pose proof (f_nodup _ _ Hf par) as Hnd. rewrite Hl in Hnd. apply NoDup_app in Hnd as (Hnd1 & Hnd12 & [Hp2 Hnd2]%NoDup_cons).
  assert (Hp1 : p ∉ l1) by (intros H; eapply Hnd12; [exact H|by left]).
  destruct (decide (p = n)) as [->|Hpn]; cbn [mbind outcome_bind].
  - destruct (IH l2 (l1 ++ [n]) h ch) as (h' & ch' & Hr & Hf' & Hpay & Hp'); [done|done|by right|by rewrite <- app_assoc|cbn in Hlen; lia|].
    exists h', ch'. split_and!; [done..|]. intros k. rewrite Hp'. apply decide_ext. rewrite elem_of_cons. tauto.
  - destruct (setParent_spec h ch p (Some n) Hf) as (h1 & ch1 & Hr1 & Hf1 & Hpay1 & Hpar1 & _ & Hmv); [by eauto|by intros ? [= <-]|].
    assert (Hpp : fld parent h p = Some (Some par)).
    { apply (f_child _ _ Hf). rewrite Hl. apply elem_of_app. right. by left. }
    rewrite Hr1. cbn [mbind outcome_bind]. destruct (IH l2 l1 h1 ch1) as (h' & ch' & Hr & Hf' & Hpay & Hp').
    + done.
    + by apply (same_payload_dom _ _ Hpay1).
    + destruct Hor as [?|H]; [by left|right]. intros Hin. apply H. by right.
    + rewrite Hmv by (rewrite Hpp; congruence). rewrite move_ch_other by congruence. rewrite Hl. by apply filter_ne_mid.
    + cbn in Hlen; lia.
    + exists h', ch'. split_and!; [done|done|by eapply same_payload_trans|]. intros k. rewrite Hp', Hpar1.
      destruct (decide (k = p)) as [->|Hk].
      * assert (p ∈ p :: l2) by by left. repeat case_decide; first [done|tauto].
      * apply decide_ext. rewrite elem_of_cons. tauto.
Qed.

(** * [removeNode] *)

(** The nodes in the list of [n]'s parent stay where they are. *)
Lemma removeNode_loop_siblings n p h ch fuel : tree h ch -> fld parent h n = Some (Some p) -> forall l2 l1, ch p = l1 ++ l2 ->
  (length l2 <= fuel)%nat -> removeNode_loop fuel n (hd_or None l2) h = Ok h.
Proof.
  intros Ht Hn. induction fuel as [|fuel IH]; intros l2 l1 Hl Hlen; destruct l2 as [|k l2]; [done|cbn in Hlen; lia|done|].
  destruct Ht as [Hf Ha]. cbn [hd_or removeNode_loop].
  destruct (get_some h n) as (x & Hg & Hx); [by eapply fld_some|]. rewrite Hg. cbn [mbind outcome_bind].
  assert (Epx : parent x = Some p) by (rewrite (fld_get parent _ _ _ Hx) in Hn; congruence). rewrite Epx.
  assert (Hk : k ∈ ch p) by (rewrite Hl; apply elem_of_app; right; by left).
  pose proof (proj1 (f_child _ _ Hf _ _) Hk) as Hkp.
  destruct (setParent_spec h ch k (Some p) Hf) as (h' & ch' & Hr & _ & _ & _ & Hsame & _).
  - by eapply child_dom.
  - intros ? [= <-]. split; [|by eapply (f_parent _ _ Hf)]. intros ->. by eapply parent_irrefl.
  - destruct (Hsame Hkp) as [-> ->]. rewrite Hr. cbn [mbind outcome_bind].
    pose proof (next_in_list _ _ _ _ _ _ Hf Hl) as Hnx.
    destruct (get_some h k) as (y & Hgy & Hy); [by eauto using child_dom|]. rewrite Hgy. cbn [mbind outcome_bind].
    rewrite (fld_get next _ _ _ Hy) in Hnx. injection Hnx as ->.
    apply (IH l2 (l1 ++ [k])); [by rewrite <- app_assoc|cbn in Hlen; lia].
Qed.

(** The loop of [removeNode] moves the first kid of [n] to the parent of [n], and
    none of the others. *)
Lemma removeNode_loop_spec n h ch pn : tree h ch -> fld parent h n = Some pn ->
  exists h' ch', removeNode_loop (S (size h)) n (hd_or None (ch n)) h = Ok h' /\ tree h' ch' /\ same_payload h h' /\
    (forall k, fld parent h' k = if decide (head (ch n) = Some k) then Some pn else fld parent h k) /\ ch' n = tail (ch n).
Proof.
  intros Ht Hn. destruct (ch n) as [|k l] eqn:Hl; [by exists h, ch|]. cbn [hd_or removeNode_loop head tail].
  destruct (get_some h n) as (x & Hg & Hx); [by eapply fld_some|]. rewrite Hg. cbn [mbind outcome_bind].
  assert (Epx : parent x = pn) by (rewrite (fld_get parent _ _ _ Hx) in Hn; congruence). rewrite Epx.
  pose proof Ht as [Hf Ha]. assert (Hk : k ∈ ch n) by (rewrite Hl; by left). pose proof (proj1 (f_child _ _ Hf _ _) Hk) as Hkp.
  destruct (Ha k) as [lk Hlk]; [by eapply child_dom|]. destruct (up_parent _ _ _ _ Hlk Hkp) as (ln & -> & Hun & Hkn).
  destruct (up_parent _ _ _ _ Hun Hn) as (lp & -> & Hup & Hnn).
  destruct (setParent_tree h ch k pn lp Ht) as (h1 & ch1 & Hr & Ht1 & Hpay & Hpar & _ & Hmv); [by eapply child_dom|done|set_solver|].
  assert (Hkk : pn <> Some n) by (intros ->; by eapply parent_irrefl).
  rewrite Hr. cbn [mbind outcome_bind]. specialize (Hmv ltac:(rewrite Hkp; congruence)).
  assert (Hn1 : fld parent h1 n = Some pn). { rewrite Hpar, decide_False; [done|]. intros ->. apply Hkn. by left. }
  assert (Hch1 : ch1 n = l).
  { rewrite Hmv, move_ch_other, Hl by done. rewrite filter_cons_False by tauto. apply filter_ne_out.
    pose proof (f_nodup _ _ Hf n) as Hnd. rewrite Hl in Hnd. by apply NoDup_cons in Hnd as [? _]. }
  assert (Hkd : is_Some (h1 !! k)). { apply (same_payload_dom _ _ Hpay). by eapply child_dom. }
  destruct (get_some h1 k Hkd) as (y & Hgy & Hy). rewrite Hgy. cbn [mbind outcome_bind].
  assert (Hloop : removeNode_loop (size h) n (next y) h1 = Ok h1).
  { replace (size h) with (size h1).
    2:{ rewrite <- !(size_dom (D := gset positive)). f_equal. apply set_eq. intros i. rewrite !elem_of_dom. by apply same_payload_dom. }
    destruct pn as [p|].
    - assert (E : ch1 p = [] ++ k :: filter (fun i => i <> k) (ch p)) by by rewrite Hmv, move_ch_to.
      pose proof (next_in_list _ _ _ _ _ _ (t_forest _ _ Ht1) E) as Hnx. rewrite (fld_get next _ _ _ Hy) in Hnx. injection Hnx as ->.
      apply (removeNode_loop_siblings n p h1 ch1 (size h1) Ht1 Hn1 _ [k]); [done|].
      pose proof (children_length _ _ p (t_forest _ _ Ht1)) as Hlen. rewrite E in Hlen. cbn in Hlen. lia.
    - destruct (f_orphan _ _ (t_forest _ _ Ht1) k) as [_ Hnx]; [by rewrite Hpar, decide_True|].
      rewrite (fld_get next _ _ _ Hy) in Hnx. injection Hnx as ->. by destruct (size h1). }
  exists h1, ch1. split_and!; [done..| |done]. intros i. rewrite Hpar. apply decide_ext. naive_solver.
Qed.

(** * The scheduler's state *)

Record inv (ws : scheduler) (ch : positive -> list positive) : Prop := {
  i_tree : tree (nodes_heap ws) ch;
  i_root : fld parent (nodes_heap ws) root = Some None;
  i_root_id : fld id (nodes_heap ws) root = Some 0;
  i_ids : forall p, p <> root -> fld id (nodes_heap ws) p <> Some 0;
  i_zero : nodes ws !! 0 = Some root;
  i_nodes : forall i p, nodes ws !! i = Some p -> fld id (nodes_heap ws) p = Some i;
  i_lists : forall p, p ∈ closedNodes ws ++ idleNodes ws -> is_Some (nodes_heap ws !! p) /\ p <> root;
  i_fresh : forall p, is_Some (nodes_heap ws !! p) -> (p < fresh ws)%positive;
  i_limit : 0 < writeThrottleLimit ws < 2 ^ 31;
  i_pool : Forall (fun q => q = []) (ws_pool ws) }.

Definition scheduler_ok (ws : scheduler) : Prop := exists ch, inv ws ch.

Lemma same_payload_id h h' k : same_payload h h' -> fld id h' k = fld id h k.
Proof. intros H. apply same_meta_id. by apply same_payload_meta. Qed.

Lemma same_ids_dom h h' : (forall k, fld id h' k = fld id h k) -> forall k, is_Some (h' !! k) <-> is_Some (h !! k).
Proof.
  intros H k. specialize (H k). unfold fld in H.
  destruct (h !! k), (h' !! k); cbn in H; split; intros [? ?]; try done; eauto.
Qed.

(** Another heap with the same nodes. *)
Lemma inv_heap ws ch h' ch' : inv ws ch -> tree h' ch' -> fld parent h' root = Some None ->
  (forall k, fld id h' k = fld id (nodes_heap ws) k) -> inv (with_heap h' ws) ch'.
Proof.
  intros [H1 H2 H3 H4 H5 H6 H7 H8 H9 H10] Ht Hr Hid. pose proof (same_ids_dom _ _ Hid) as Hd.
  split; cbn [with_heap nodes_heap nodes closedNodes idleNodes fresh writeThrottleLimit ws_pool]; try done.
  - by rewrite Hid.
  - intros p. rewrite Hid. apply H4.
  - intros i p. rewrite Hid. apply H6.
  - intros p. rewrite Hd. apply H7.
  - intros p. rewrite Hd. apply H8.
Qed.

(** A node's change outside of the links. *)
Lemma inv_upd ws ch f p : inv ws ch -> is_Some (nodes_heap ws !! p) -> (forall y, links (f y) = links y) -> (forall y, id (f y) = id y) ->
  on_heap (upd p f) ws = Ok (with_heap (alter f p (nodes_heap ws)) ws) /\ inv (with_heap (alter f p (nodes_heap ws)) ws) ch.
Proof.
  intros Hi Hp Hl Hid. unfold on_heap. rewrite upd_alter by done. split; [done|].
  assert (Hs : same_links (nodes_heap ws) (alter f p (nodes_heap ws))) by by apply same_links_alter.
  eapply inv_heap; [done|eapply same_links_tree; [done|apply Hi]| |].
  - rewrite (same_links_parent _ _ _ Hs). apply Hi.
  - intros k. by apply fld_alter_same.
Qed.

Lemma inv_dom ws ch i p : inv ws ch -> nodes ws !! i = Some p -> is_Some (nodes_heap ws !! p).
Proof. intros Hi H. eapply fld_some. by eapply (i_nodes _ _ Hi). Qed.

Lemma inv_not_root ws ch i p : inv ws ch -> nodes ws !! i = Some p -> i <> 0 -> p <> root.
Proof. intros Hi H Hne ->. pose proof (i_nodes _ _ Hi _ _ H) as E. rewrite (i_root_id _ _ Hi) in E. congruence. Qed.

Lemma inv_root_dom ws ch : inv ws ch -> is_Some (nodes_heap ws !! root).
Proof. intros Hi. eapply fld_some, (i_root _ _ Hi). Qed.

(** The path of the root is the root. *)
Lemma up_root ws ch : inv ws ch -> up (nodes_heap ws) (Some root) [root].
Proof. intros Hi. econstructor; [by apply (i_root _ _ Hi)|constructor]. Qed.

Lemma inv_new cfg : scheduler_ok (NewPriorityWriteScheduler cfg).
Proof.
  exists (fun _ => []).
  assert (Hfld : forall A (π : priorityNode -> A) p, fld π {[root := node_zero]} p = if decide (p = root) then Some (π node_zero) else None).
  { intros A π p. unfold fld. case_decide as E; [by subst; rewrite lookup_singleton_eq|by rewrite lookup_singleton_ne by congruence]. }
  assert (Hlim : 0 < (if ThrottleOutOfOrderWrites (default default_config cfg) then 1024 else 2 ^ 31 - 1) < 2 ^ 31) by by destruct ThrottleOutOfOrderWrites.
  split; cbn [NewPriorityWriteScheduler nodes_heap nodes closedNodes idleNodes fresh writeThrottleLimit ws_pool]; try done.
  - split.
    + split; try done.
      * intros p [x Hx]. apply lookup_singleton_Some in Hx as [<- <-]. by rewrite Hfld, decide_True.
      * intros p. constructor.
      * intros p k. rewrite Hfld. split; [by intros ?%elem_of_nil|]. by case_decide.
      * intros p k. rewrite Hfld. by case_decide.
      * intros k. rewrite Hfld. case_decide as E; [|done]. intros _. subst. split; vm_compute; reflexivity.
    + intros p [x Hx]. apply lookup_singleton_Some in Hx as [<- <-]. exists [root].
      econstructor; [|constructor]. by rewrite Hfld, decide_True.
  - intros p Hp. rewrite Hfld. by rewrite decide_False.
  - by intros i p [<- <-]%lookup_singleton_Some.
  - by intros p ?%elem_of_nil.
  - intros p [x Hx]. apply lookup_singleton_Some in Hx as [<- <-]. done.
Qed.

(** * Opening *)

Definition alloc_node (streamID : Z) (st : priorityNodeState) : priorityNode :=
  mkNode [] streamID priorityDefaultWeight st 0 0 None None None None.

(** A new node stands alone. *)
Lemma inv_alloc ws ch i st n ws' : inv ws ch -> i <> 0 -> alloc i st ws = (n, ws') ->
  n = fresh ws /\ nodes_heap ws' = <[n := alloc_node i st]> (nodes_heap ws) /\ nodes ws' = nodes ws /\ n <> root /\
  nodes_heap ws !! n = None /\ exists ch', inv ws' ch'.
Proof.
  intros Hi Hi0. unfold alloc. destruct (pool_get (ws_pool ws)) as [q0 p0] eqn:Hg. intros [= <- <-].
  pose proof (pool_get_empty _ (i_pool _ _ Hi)) as [Eq0 Hp0]. rewrite Hg in Eq0, Hp0. cbn in Eq0, Hp0. subst q0. cbn [nodes_heap nodes]. set (n := fresh ws). fold (alloc_node i st).
  assert (Hn : nodes_heap ws !! n = None).
  { destruct (nodes_heap ws !! n) eqn:E; [|done]. pose proof (i_fresh _ _ Hi n ltac:(eauto)). unfold n in *. lia. }
  assert (Hnr : n <> root) by (intros E; destruct (inv_root_dom _ _ Hi) as [? Hr]; by rewrite E, Hr in Hn).
  split_and!; [done..|]. exists ch. set (h' := <[n := alloc_node i st]> (nodes_heap ws)).
  assert (Hne : forall A (π : priorityNode -> A) k, k <> n -> fld π h' k = fld π (nodes_heap ws) k).
  { intros A π k Hk. unfold fld, h'. by rewrite lookup_insert_ne. }
  assert (Heq : forall A (π : priorityNode -> A), fld π h' n = Some (π (alloc_node i st))).
  { intros A π. unfold fld, h'. by rewrite lookup_insert_eq. }
  assert (Hdom : forall k, is_Some (h' !! k) <-> k = n \/ is_Some (nodes_heap ws !! k)).
  { intros k. unfold h'. rewrite lookup_insert_is_Some'. by split; intros [?|?]; auto. }
  destruct Hi as [[Hf Ha] H2 H3 H4 H5 H6 H7 H8 H9 H10].
  assert (Hold : forall k, is_Some (nodes_heap ws !! k) -> k <> n) by (intros k [? Hk] ->; congruence).
  assert (Hin : forall p k, k ∈ ch p -> k <> n) by (intros p k Hk; eapply Hold, child_dom; done).
  assert (Hchn : ch n = []).
  { destruct (ch n) as [|k l] eqn:E; [done|]. exfalso. apply (Hold n); [|done].
    apply (f_parent _ _ Hf n k), (f_child _ _ Hf). rewrite E. by left. }
  split; cbn [nodes_heap nodes closedNodes idleNodes fresh writeThrottleLimit ws_pool]; fold h'; try done.
  - split; [|].
    + split.
      * intros p [->|Hp]%Hdom; [by rewrite Heq, Hchn|]. rewrite Hne by by apply Hold. by apply (f_kids _ _ Hf).
      * intros p. eapply seg_frame; [|apply (f_seg _ _ Hf)]. intros k Hk. by rewrite !Hne by by eapply Hin.
      * apply (f_nodup _ _ Hf).
      * intros p k. destruct (decide (k = n)) as [->|Hk]; [|rewrite Hne by done; apply (f_child _ _ Hf)].
        rewrite Heq. split; [by intros ?%Hin|done].
      * intros p k. destruct (decide (k = n)) as [->|Hk]; [by rewrite Heq|]. rewrite Hne by done. intros Hp.
        apply Hdom. right. by eapply (f_parent _ _ Hf).
      * intros k. destruct (decide (k = n)) as [->|Hk]; [by rewrite !Heq|]. rewrite !Hne by done. apply (f_orphan _ _ Hf).
    + intros p [->|Hp]%Hdom.
      * exists [n]. econstructor; [by rewrite Heq|constructor].
      * destruct (Ha p Hp) as [l Hl]. exists l. eapply up_frame; [exact Hl|]. intros k Hk. apply Hne. eapply Hold, up_dom; done.
  - by rewrite Hne.
  - by rewrite Hne.
  - intros p Hp. destruct (decide (p = n)) as [->|Hk]; [rewrite Heq; cbn; congruence|]. rewrite Hne by done. by apply H4.
  - intros j p Hj. apply H6 in Hj. rewrite Hne; [done|]. apply Hold. by eapply fld_some.
  - intros p Hp. destruct (H7 p Hp). split; [apply Hdom; by right|done].
  - intros p [->|Hp]%Hdom; [unfold n; lia|]. pose proof (H8 _ Hp). lia.
Qed.

(** Moving [n], which is not the root, in the scheduler's heap. *)
Lemma inv_setParent ws ch n par l : inv ws ch -> is_Some (nodes_heap ws !! n) -> n <> root -> up (nodes_heap ws) par l -> n ∉ l ->
  exists h' ch', setParent n par (nodes_heap ws) = Ok h' /\ inv (with_heap h' ws) ch' /\
    same_payload (nodes_heap ws) h' /\ (forall k, fld parent h' k = if decide (k = n) then Some par else fld parent (nodes_heap ws) k).
Proof.
  intros Hi Hn Hnr Hu Hnl. destruct (setParent_tree _ _ _ _ _ (i_tree _ _ Hi) Hn Hu Hnl) as (h' & ch' & Hr & Ht & Hpay & Hp & _).
  exists h', ch'. split; [done|]. split; [|done]. eapply inv_heap; [done|done| |].
  - rewrite Hp, decide_False by congruence. apply Hi.
  - intros k. by apply same_payload_id.
Qed.

(** A new entry of the map of streams. *)
Lemma inv_insert ws ch i n : inv ws ch -> i <> 0 -> fld id (nodes_heap ws) n = Some i ->
  inv (with_nodes (<[i := n]> (nodes ws)) ws) ch.
Proof.
  intros [H1 H2 H3 H4 H5 H6 H7 H8 H9 H10] Hi0 Hn. split; cbn [with_nodes nodes_heap nodes closedNodes idleNodes fresh writeThrottleLimit ws_pool]; try done.
  - by rewrite lookup_insert_ne.
  - intros j p Hj. destruct (decide (j = i)) as [->|Hne]; [rewrite lookup_insert_eq in Hj; congruence|].
    rewrite lookup_insert_ne in Hj by done. by apply H6.
Qed.

Lemma inv_maxID ws ch z : inv ws ch -> inv (with_maxID z ws) ch.
Proof. by intros []. Qed.

Lemma up_of ws ch p : inv ws ch -> is_Some (nodes_heap ws !! p) -> exists l, up (nodes_heap ws) (Some p) l.
Proof. intros Hi. apply (t_acyclic _ _ (i_tree _ _ Hi)). Qed.

(** A new stream below [par]. *)
Lemma inv_new_stream ws ch i st par n ws' : inv ws ch -> i <> 0 -> is_Some (nodes_heap ws !! par) -> alloc i st ws = (n, ws') ->
  exists h' ch', setParent n (Some par) (nodes_heap ws') = Ok h' /\
    inv (with_nodes (<[i := n]> (nodes ws')) (with_heap h' ws')) ch' /\ n <> root /\ is_Some (h' !! n) /\ nodes ws' = nodes ws /\
    (forall k, is_Some (nodes_heap ws !! k) -> is_Some (h' !! k) /\ k <> n).
Proof.
  intros Hi Hi0 Hp Ha. destruct (inv_alloc _ _ _ _ _ _ Hi Hi0 Ha) as (-> & Hh & Hns & Hnr & Hnone & ch0 & Hi').
  set (n := fresh ws) in *. assert (Hpn : par <> n) by (intros ->; destruct Hp; congruence).
  assert (Hpar : is_Some (nodes_heap ws' !! par)) by by rewrite Hh, lookup_insert_ne.
  assert (Hn : is_Some (nodes_heap ws' !! n)) by (rewrite Hh, lookup_insert_eq; eauto).
  destruct (up_of _ _ _ Hi' Hpar) as [l Hl].
  assert (Hnl : n ∉ l).
  { assert (Hch : fld parent (nodes_heap ws') n = Some None) by (unfold fld; by rewrite Hh, lookup_insert_eq).
    inversion Hl as [|? par' l' Hq Hu]; subst. apply not_elem_of_cons. split; [done|]. intros Hin.
    destruct (up_of _ _ _ Hi Hp) as [lo Hlo].
    assert (Hlo' : up (nodes_heap ws') (Some par) lo).
    { eapply up_frame; [exact Hlo|]. intros k Hk. unfold fld. rewrite Hh, lookup_insert_ne; [done|].
      intros <-. pose proof (up_dom _ _ _ _ Hlo Hk) as [? ?]. congruence. }
    pose proof (up_det _ _ _ _ Hlo' Hl) as ->. pose proof (up_dom _ _ _ n Hlo ltac:(by right)) as [? ?]. congruence. }
  destruct (inv_setParent _ _ n (Some par) l Hi' Hn Hnr Hl Hnl) as (h' & ch' & Hr & Hi2 & Hpay & Hp2).
  assert (Hid : fld id h' n = Some i) by (rewrite (same_payload_id _ _ _ Hpay); unfold fld; by rewrite Hh, lookup_insert_eq).
  assert (Hdom : forall k, is_Some (nodes_heap ws' !! k) -> is_Some (h' !! k)) by (intros k; by apply (same_payload_dom _ _ Hpay)).
  exists h', ch'. split; [done|]. split; [|split_and!; [done|by apply Hdom|done|]].
  - by apply (inv_insert (with_heap h' ws')).
  - intros k Hk. split; [|intros ->; destruct Hk; congruence]. apply Hdom. rewrite Hh, lookup_insert_is_Some'. by right.
Qed.

Lemma OpenStream_ok i pusher ws : scheduler_ok ws ->
  (forall p, nodes ws !! i = Some p -> fld state (nodes_heap ws) p = Some priorityNodeIdle) ->
  exists ws', OpenStream i pusher ws = Ok ws' /\ scheduler_ok ws'.
Proof.
  intros [ch Hi] Hidle. unfold OpenStream. destruct (nodes ws !! i) as [p|] eqn:E.
  - pose proof (inv_dom _ _ _ _ Hi E) as Hd. destruct (get_some _ _ Hd) as (x & Hg & Hx). rewrite Hg. cbn [mbind outcome_bind].
    pose proof (Hidle p eq_refl) as Hst. rewrite (fld_get state _ _ _ Hx) in Hst. injection Hst as ->. cbn [negb bool_decide].
    rewrite bool_decide_true by done. cbn [negb]. destruct (inv_upd ws ch (set_state priorityNodeOpen) p Hi Hd) as [-> Hi']; [done..|].
    eexists. split; [done|]. by exists ch.
  - assert (Hi0 : i <> 0) by (intros ->; rewrite (i_zero _ _ Hi) in E; done).
    set (par := default root _). assert (Hpar : is_Some (nodes_heap ws !! par)).
    { unfold par. destruct (nodes ws !! pusher) eqn:Ep; [by eapply inv_dom|by eapply inv_root_dom]. }
    destruct (alloc i priorityNodeOpen ws) as [n ws1] eqn:Ha.
    destruct (inv_new_stream _ _ _ _ par _ _ Hi Hi0 Hpar Ha) as (h' & ch' & Hr & Hi' & _).
    unfold on_heap. rewrite Hr. cbn [mbind outcome_bind]. eexists. split; [done|]. exists ch'.
    case_match; [by apply inv_maxID|done].
Qed.

(** * Removing and closing *)

Lemma removeNode_spec n ws ch : inv ws ch -> is_Some (nodes_heap ws !! n) -> n <> root ->
  exists h' ch' i, removeNode n ws = Ok (with_nodes (delete i (nodes ws)) (with_heap h' ws)) /\
    fld id (nodes_heap ws) n = Some i /\ inv (with_nodes (delete i (nodes ws)) (with_heap h' ws)) ch' /\
    same_payload (nodes_heap ws) h' /\
    (forall k, fld parent h' k = if decide (k = n) then Some None
       else if decide (head (ch n) = Some k) then fld parent (nodes_heap ws) n else fld parent (nodes_heap ws) k).
Proof.
  intros Hi Hn Hnr. unfold removeNode, on_heap. destruct (get_some _ _ Hn) as (x & Hg & Hx). rewrite Hg. cbn [mbind outcome_bind].
  pose proof (f_kids _ _ (t_forest _ _ (i_tree _ _ Hi)) n Hn) as Hk. rewrite (fld_get kids _ _ _ Hx) in Hk. injection Hk as ->.
  destruct (removeNode_loop_spec n _ ch (parent x) (i_tree _ _ Hi)) as (h1 & ch1 & -> & Ht1 & Hpay1 & Hp1 & _); [by rewrite (fld_get parent _ _ _ Hx)|].
  cbn [mbind outcome_bind]. destruct (setParent_None h1 ch1 n Ht1) as (h2 & ch2 & -> & Ht2 & Hpay2 & Hp2 & _); [by apply (same_payload_dom _ _ Hpay1)|].
  cbn [mbind outcome_bind with_heap nodes_heap]. assert (Hpay : same_payload (nodes_heap ws) h2) by by eapply same_payload_trans.
  destruct (get_some h2 n) as (y & Hgy & Hy); [by apply (same_payload_dom _ _ Hpay)|]. rewrite Hgy. cbn [mbind outcome_bind].
  pose proof (same_payload_id _ _ n Hpay) as Hid. rewrite (fld_get id _ _ _ Hy) in Hid.
  exists h2, ch2, (id y). split; [done|]. split; [done|].
  assert (Hpar : forall k, fld parent h2 k = if decide (k = n) then Some None
       else if decide (head (ch n) = Some k) then fld parent (nodes_heap ws) n else fld parent (nodes_heap ws) k).
  { intros k. rewrite Hp2. case_decide; [done|]. rewrite Hp1. case_decide; [|done]. by rewrite (fld_get parent _ _ _ Hx). }
  split; [|done].
  assert (Hi2 : inv (with_heap h2 ws) ch2).
  { eapply inv_heap; [done|done| |by intros; apply same_payload_id]. rewrite Hpar, decide_False by congruence.
    rewrite decide_False; [apply Hi|]. intros Hh. assert (Hc : root ∈ ch n) by by apply head_Some_elem_of.
    apply (f_child _ _ (t_forest _ _ (i_tree _ _ Hi))) in Hc. rewrite (i_root _ _ Hi) in Hc. done. }
  assert (Hid0 : id y <> 0). { intros E. apply (i_ids _ _ Hi n Hnr). by rewrite <- Hid, E. }
  destruct Hi2 as [H1 H2 H3 H4 H5 H6 H7 H8 H9 H10]. split; cbn [with_nodes with_heap nodes_heap nodes closedNodes idleNodes fresh writeThrottleLimit ws_pool] in *; try done.
  - by rewrite lookup_delete_ne.
  - intros i p Hp. apply lookup_delete_Some in Hp as [_ Hp]. by apply H6.
Qed.

Lemma inv_lists ws ch l1 l2 : inv ws ch -> (forall p, p ∈ l1 ++ l2 -> is_Some (nodes_heap ws !! p) /\ p <> root) ->
  inv (with_closedNodes l1 (with_idleNodes l2 ws)) ch.
Proof. intros [] H. by split. Qed.

(** One of the two lists. *)
Inductive node_list := closed_list | idle_list.
Definition list_of (k : node_list) : scheduler -> list positive := match k with closed_list => closedNodes | idle_list => idleNodes end.
Definition with_list (k : node_list) : list positive -> scheduler -> scheduler :=
  match k with closed_list => with_closedNodes | idle_list => with_idleNodes end.

Lemma with_list_eq k l ws : with_list k l ws =
  with_closedNodes (list_of closed_list (with_list k l ws)) (with_idleNodes (list_of idle_list (with_list k l ws)) ws).
Proof. by destruct k, ws. Qed.

Lemma inv_with_list k ws ch l : inv ws ch -> (forall p, p ∈ l -> is_Some (nodes_heap ws !! p) /\ p <> root) -> inv (with_list k l ws) ch.
Proof.
  intros Hi Hl. rewrite with_list_eq. apply inv_lists; [done|]. intros p. pose proof (i_lists _ _ Hi p) as H.
  rewrite elem_of_app in *. destruct k; cbn; intros [?|?]; auto.
Qed.

Lemma addClosedOrIdleNode_spec k maxSize n ws ch : inv ws ch -> is_Some (nodes_heap ws !! n) -> n <> root ->
  exists ws' ch', addClosedOrIdleNode (list_of k) (with_list k) maxSize n ws = Ok ws' /\ inv ws' ch' /\
    same_payload (nodes_heap ws) (nodes_heap ws').
Proof.
  intros Hi Hn Hnr. unfold addClosedOrIdleNode. case_match eqn:Hz; [by exists ws, ch|].
  assert (Hin : forall ws ch p, inv ws ch -> p ∈ list_of k ws -> is_Some (nodes_heap ws !! p) /\ p <> root).
  { intros ws' ch' p Hi' Hp. apply (i_lists _ _ Hi'). rewrite elem_of_app. destruct k; [by left|by right]. }
  assert (Hpush : forall ws1 ch1, inv ws1 ch1 -> same_payload (nodes_heap ws) (nodes_heap ws1) ->
    inv (with_list k (list_of k ws1 ++ [n]) ws1) ch1).
  { intros ws1 ch1 Hi1 Hpay. apply inv_with_list; [done|]. intros p. rewrite elem_of_app, list_elem_of_singleton.
    intros [Hp| ->]; [by eapply Hin|]. split; [|done]. by apply (same_payload_dom _ _ Hpay). }
  assert (Hheap : forall l ws1, nodes_heap (with_list k l ws1) = nodes_heap ws1) by by destruct k.
  destruct (Z.eqb_spec (len (list_of k ws)) maxSize) as [E|E]; cbn [mbind outcome_bind].
  2:{ eexists _, ch. split; [done|]. split; [by apply Hpush|]. by rewrite Hheap. }
  destruct (list_of k ws) as [|o l] eqn:El; [cbn in E; subst; done|].
  change (at_ (o :: l) 0) with (Some o). cbn [or_panic mbind outcome_bind].
  destruct (Hin _ _ o Hi) as [Ho Hor]; [rewrite El; by left|].
  destruct (removeNode_spec o ws ch Hi Ho Hor) as (h1 & ch1 & i & -> & _ & Hi1 & Hpay & _). cbn [mbind outcome_bind].
  set (ws1 := with_nodes _ _) in *. eexists _, ch1. split; [done|].
  assert (Hi2 : inv (with_list k (from 1 (list_of k ws1)) ws1) ch1).
  { apply inv_with_list; [done|]. intros p Hp. apply (Hin _ _ _ Hi1). replace (list_of k ws1) with (list_of k ws) in * by by destruct k.
    rewrite El in *. by right. }
  split; [apply Hpush; [done|]|]; by rewrite ?Hheap.
Qed.

Lemma CloseStream_ok i ws : scheduler_ok ws -> i <> 0 ->
  (exists p, nodes ws !! i = Some p /\ fld state (nodes_heap ws) p = Some priorityNodeOpen) ->
  exists ws', CloseStream i ws = Ok ws' /\ scheduler_ok ws'.
Proof.
  intros [ch Hi] Hi0 (n & E & Hst). unfold CloseStream. rewrite (proj2 (Z.eqb_neq _ _) Hi0), E.
  pose proof (inv_dom _ _ _ _ Hi E) as Hd. pose proof (inv_not_root _ _ _ _ Hi E Hi0) as Hnr.
  destruct (get_some _ _ Hd) as (x & Hg & Hx). rewrite Hg. cbn [mbind outcome_bind].
  rewrite (fld_get state _ _ _ Hx) in Hst. injection Hst as ->. rewrite bool_decide_true by done. cbn [negb].
  set (h1 := alter (set_state priorityNodeClosed) n (nodes_heap ws)).
  assert (Hs1 : same_links (nodes_heap ws) h1) by by apply same_links_alter.
  destruct (addBytes_spec n (i64 (- nbytes x)) h1) as (h2 & Hr2 & Hs2 & Hm2).
  { by eapply same_links_acyclic, (t_acyclic _ _ (i_tree _ _ Hi)). } { by apply alter_some. }
  assert (Hclose : on_heap (fun h => h ← upd n (set_state priorityNodeClosed) h; addBytes n (i64 (- nbytes x)) h) ws = Ok (with_heap h2 ws)).
  { unfold on_heap. rewrite (upd_get _ _ _ _ Hx). cbn [mbind outcome_bind]. fold h1. by rewrite Hr2. }
  rewrite Hclose. cbn [mbind outcome_bind]. assert (Hs : same_links (nodes_heap ws) h2) by by eapply same_links_trans.
  assert (Hi2 : inv (with_heap h2 ws) ch).
  { eapply inv_heap; [done|by eapply same_links_tree, Hi|rewrite (same_links_parent _ _ _ Hs); apply Hi|].
    intros k. rewrite (same_meta_id _ _ _ Hm2). by apply fld_alter_same. }
  set (ws2 := with_pool _ _). assert (Hi3 : inv ws2 ch).
  { destruct Hi2. split; try done. cbn. unfold pool_put. apply Forall_app. split; [done|]. by constructor. }
  assert (Hd3 : is_Some (nodes_heap ws2 !! n)) by by apply (same_links_dom _ _ Hs).
  destruct (inv_upd ws2 ch (set_q []) n Hi3 Hd3) as [-> Hi4]; [done..|]. cbn [mbind outcome_bind].
  set (ws4 := with_heap _ ws2) in *. assert (Hd4 : is_Some (nodes_heap ws4 !! n)) by by apply alter_some.
  case_match.
  - destruct (addClosedOrIdleNode_spec closed_list (maxClosedNodesInTree ws4) n ws4 ch Hi4 Hd4 Hnr) as (ws' & ch' & Hr & Hi' & _).
    exists ws'. split; [exact Hr|by exists ch'].
  - destruct (removeNode_spec n ws4 ch Hi4 Hd4 Hnr) as (h' & ch' & j & Hr & _ & Hi' & _). eexists. split; [exact Hr|by exists ch'].
Qed.

(** * Reprioritizing *)

(** The parents after [n] has become a kid of [par], with the kids of [par] if
    [excl]. *)
Definition adopted (excl : bool) (n par : positive) (pf : positive -> option ptr) (k : positive) : option ptr :=
  if decide (k = n) then Some (Some par)
  else if excl && bool_decide (pf k = Some (Some par)) then Some (Some n)
  else pf k.

(** Section 5.3.3: if [par] depends on [n], it first moves to the parent of
    [n]. *)
Definition adjusted (excl : bool) (n par : positive) (depends : bool) (pf : positive -> option ptr) : positive -> option ptr :=
  adopted excl n par (fun k => if depends && bool_decide (k = par) then pf n else pf k).

Lemma acyclic_adopted excl h h' n par lp : acyclic h -> up h (Some par) lp -> n ∉ lp ->
  (forall k, fld parent h' k = adopted excl n par (fld parent h) k) ->
  (forall k, is_Some (h' !! k) <-> is_Some (h !! k)) -> acyclic h'.
Proof.
  intros Ha Hl Hn Hp Hd p Hpd. apply Hd in Hpd. destruct (Ha p Hpd) as [l Hlp].
  assert (Hpar : up h' (Some par) lp).
  { eapply up_frame; [exact Hl|]. intros k Hk. rewrite Hp. unfold adopted. rewrite decide_False by by intros ->.
    destruct excl; [|done]. cbn [andb]. rewrite bool_decide_false; [done|]. intros E.
    destruct (up_suffix _ _ _ _ Hl Hk) as (l1 & l2 & -> & Hk2). destruct (up_parent _ _ _ _ Hk2 E) as (l' & [= <-] & Hu & Hkn).
    pose proof (up_det _ _ _ _ Hl Hu) as El. apply (f_equal length) in El. rewrite length_app in El. cbn in El. lia. }
  assert (Hnl : up h' (Some n) (n :: lp)). { econstructor; [|done]. rewrite Hp. unfold adopted. by rewrite decide_True. }
  clear Hpd. revert Hlp. generalize (Some p) as o. induction 1 as [|k kp lk Hk _ [lk' Hlk]]; [by eexists; constructor|].
  destruct (decide (k = n)) as [->|Hne]; [by eexists|].
  destruct (decide (excl = true /\ kp = Some par)) as [[-> ->]|Hno].
  - exists (k :: n :: lp). econstructor; [|exact Hnl]. rewrite Hp. unfold adopted. rewrite decide_False by done.
    rewrite Hk. by rewrite bool_decide_true.
  - exists (k :: lk'). econstructor; [|exact Hlk]. rewrite Hp. unfold adopted. rewrite decide_False by done.
    rewrite Hk. destruct excl; [|done]. cbn [andb]. rewrite bool_decide_false; [done|]. intros [= ->]. by apply Hno.
Qed.

(** Moving [par] out from under [n] first. *)
Lemma move_dependent h ch n par pn lpar : tree h ch -> n <> par -> fld parent h n = Some pn -> up h (Some par) lpar ->
  exists h1 ch1 lp, (if bool_decide (n ∈ lpar) then setParent par pn h else Ok h) = Ok h1 /\ tree h1 ch1 /\ same_payload h h1 /\
    (forall k, fld parent h1 k = if bool_decide (n ∈ lpar) && bool_decide (k = par) then Some pn else fld parent h k) /\
    up h1 (Some par) lp /\ n ∉ lp.
Proof.
  intros Ht Hne Hn Hl. case_bool_decide as Hin.
  2:{ exists h, ch, lpar. split_and!; done. }
  destruct (up_suffix _ _ _ _ Hl Hin) as (l1 & l2 & E & Hln). destruct (up_parent _ _ _ _ Hln Hn) as (l' & [= <-] & Hup & Hn2).
  pose proof (up_nodup _ _ _ Hl) as Hnd. destruct l1 as [|p1 l1]; [rewrite E in Hl; inversion Hl; congruence|].
  assert (p1 = par) as -> by (rewrite E in Hl; inversion Hl; congruence).
  assert (Hpar2 : par ∉ l2). { rewrite E in Hnd. apply NoDup_cons in Hnd as [Hnd _]. intros H. apply Hnd, elem_of_app. right. by right. }
  destruct (setParent_tree h ch par pn l2 Ht) as (h1 & ch1 & Hr & Ht1 & Hpay & Hp & _); [inversion Hl; subst; by eapply fld_some|done|done|].
  exists h1, ch1, (par :: l2). split_and!; [done|done|done| | |by apply not_elem_of_cons].
  - intros k. rewrite Hp. cbn [andb]. repeat case_decide; by try case_bool_decide.
  - econstructor; [by rewrite Hp, decide_True|]. eapply up_frame; [exact Hup|]. intros k Hk. rewrite Hp, decide_False; [done|]. by intros ->.
Qed.

(** The kids of [par], or none. *)
Lemma adopt_step excl h ch n par : tree h ch -> n <> par -> is_Some (h !! n) -> is_Some (h !! par) ->
  exists h1 ch1, (if (excl : bool) then y ← get par h; adopt_loop (size h) n (kids y) h else Ok h) = Ok h1 /\ forest h1 ch1 /\
    same_payload h h1 /\ (forall k, k <> n -> fld parent h1 k = adopted excl n par (fld parent h) k).
Proof.
  intros [Hf Ha] Hne Hn Hpar. unfold adopted. destruct excl.
  2:{ exists h, ch. split_and!; [done..|]. intros k Hk. by rewrite decide_False. }
  destruct (get_some _ _ Hpar) as (y & Hg & Hy). rewrite Hg. cbn [mbind outcome_bind].
  pose proof (f_kids _ _ Hf par Hpar) as Hk. rewrite (fld_get kids _ _ _ Hy) in Hk. injection Hk as ->.
  destruct (adopt_loop_spec n par (size h) Hne (ch par) [] h ch Hf Hn) as (h1 & ch1 & Hr & Hf1 & Hpay & Hp).
  { left. apply not_elem_of_nil. } { done. } { by apply children_length. }
  exists h1, ch1. split_and!; [done..|]. intros k Hk. rewrite Hp, (decide_False (P := k = n)) by done. cbn [andb].
  case_bool_decide as E; [rewrite decide_True; [done|]|rewrite decide_False; [done|]]; rewrite (f_child _ _ Hf); tauto.
Qed.

(** The tree after [n], not the root, became dependent on [par]. *)
Lemma depend_on excl w ws ch n par pn lpar : inv ws ch -> n <> root -> n <> par -> fld parent (nodes_heap ws) n = Some pn ->
  up (nodes_heap ws) (Some par) lpar ->
  exists h' ch',
    on_heap (fun h =>
      y ← get par h;
      a ← is_ancestor (size h) n (parent y) h;
      h ← (if (a : bool) then x ← get n h; setParent par (parent x) h else Ok h);
      h ← (if (excl : bool) then y ← get par h; adopt_loop (size h) n (kids y) h else Ok h);
      h ← setParent n (Some par) h;
      upd n (set_weight w) h) ws = Ok (with_heap h' ws) /\ inv (with_heap h' ws) ch' /\
    (forall k, fld parent h' k = adjusted excl n par (bool_decide (n ∈ lpar)) (fld parent (nodes_heap ws)) k) /\
    (forall k, fld weight h' k = if decide (k = n) then Some w else fld weight (nodes_heap ws) k) /\
    (forall k, fld state h' k = fld state (nodes_heap ws) k) /\ (forall k, fld q h' k = fld q (nodes_heap ws) k).
Proof.
  intros Hi Hnr Hne Hn Hl. set (h := nodes_heap ws) in *. pose proof (i_tree _ _ Hi) as Ht. fold h in Ht.
  assert (Hnd : is_Some (h !! n)) by by eapply fld_some. destruct (get_some _ _ Hnd) as (x & Hgx & Hx).
  rewrite (fld_get parent _ _ _ Hx) in Hn. injection Hn as Hpx.
  destruct (move_dependent h ch n par pn lpar Ht Hne) as (h1 & ch1 & lp & Hr1 & Ht1 & Hpay1 & Hp1 & Hl1 & Hn1); [by rewrite (fld_get parent _ _ _ Hx), Hpx|done|].
  inversion Hl as [|? ppar lpar' Hpp Hup]; subst. assert (Hpd : is_Some (h !! par)) by by eapply fld_some.
  destruct (get_some _ _ Hpd) as (y & Hgy & Hy). rewrite (fld_get parent _ _ _ Hy) in Hpp. injection Hpp as Hpp.
  assert (Hd1 : forall k, is_Some (h1 !! k) <-> is_Some (h !! k)) by by apply same_payload_dom.
  destruct (adopt_step excl h1 ch1 n par Ht1 Hne) as (h2 & ch2 & Hr2 & Hf2 & Hpay2 & Hp2); [by apply Hd1|by apply Hd1|].
  assert (Hd2 : forall k, is_Some (h2 !! k) <-> is_Some (h !! k)) by (intros k; rewrite <- Hd1; by apply same_payload_dom).
  destruct (setParent_spec h2 ch2 n (Some par) Hf2) as (h3 & ch3 & Hr3 & Hf3 & Hpay3 & Hp3 & _).
  { by apply Hd2. } { intros p [= <-]. by rewrite Hd2. }
  assert (Hd3 : forall k, is_Some (h3 !! k) <-> is_Some (h !! k)) by (intros k; rewrite <- Hd2; by apply same_payload_dom).
  assert (Hpay : same_payload h h3) by (eapply same_payload_trans; [exact Hpay1|]; by eapply same_payload_trans).
  assert (Hp : forall k, fld parent h3 k = adopted excl n par (fld parent h1) k).
  { intros k. rewrite Hp3. unfold adopted. destruct (decide (k = n)) as [E|E]; [done|]. rewrite Hp2 by done. unfold adopted. by rewrite decide_False. }
  assert (Ht3 : tree h3 ch3).
  { split; [done|]. eapply acyclic_adopted; [apply (t_acyclic _ _ Ht1)|done|done|done|]. intros k. by rewrite Hd3, Hd1. }
  set (h4 := alter (set_weight w) n h3). assert (Hs4 : same_links h3 h4) by by apply same_links_alter.
  assert (Hp4 : forall k, fld parent h4 k = adjusted excl n par (bool_decide (n ∈ par :: lpar')) (fld parent h) k).
  { intros k. rewrite (same_links_parent _ _ _ Hs4), Hp. unfold adjusted, adopted. rewrite (fld_get parent _ _ _ Hx). by rewrite !Hp1. }
  exists h4, ch3. split_and!; [| |exact Hp4| | |].
  - unfold on_heap. fold h. rewrite Hgy. cbn [mbind outcome_bind]. rewrite Hpp.
    rewrite (is_ancestor_spec n (size h) _ _ _ Hup) by by eapply up_length. cbn [mbind outcome_bind].
    replace (bool_decide (n ∈ lpar')) with (bool_decide (n ∈ par :: lpar')) by (apply bool_decide_ext; rewrite elem_of_cons; tauto).
    rewrite Hgx. cbn [mbind outcome_bind]. rewrite Hr1. cbn [mbind outcome_bind]. rewrite Hr2. cbn [mbind outcome_bind].
    rewrite Hr3. cbn [mbind outcome_bind]. rewrite upd_alter; [done|]. by apply Hd3.
  - eapply inv_heap; [done|by eapply same_links_tree| |].
    + rewrite Hp4. unfold adjusted, adopted. rewrite decide_False by done.
      assert (Hr : (if bool_decide (n ∈ par :: lpar') && bool_decide (root = par) then fld parent h n else fld parent h root) = Some None).
      { case_bool_decide as E1; cbn [andb]; [|apply (i_root _ _ Hi)]. case_bool_decide as E2; [|apply (i_root _ _ Hi)].
        exfalso. rewrite <- E2 in Hl, E1. rewrite (up_det _ _ _ _ Hl (up_root _ _ Hi)) in E1. by apply list_elem_of_singleton in E1. }
      rewrite Hr. rewrite bool_decide_false by congruence. by rewrite andb_false_r.
    + intros k. unfold h4. rewrite fld_alter_same by done. by apply same_payload_id.
  - intros k. unfold h4. destruct (decide (k = n)) as [->|E].
    + apply fld_alter_set; [by apply Hd3|done].
    + rewrite fld_alter_ne by done. rewrite !(fld_proj payload weight (fun t => t.1.1.1.2)) by done. by rewrite Hpay.
  - intros k. unfold h4. rewrite fld_alter_same by done. apply same_meta_state. by apply same_payload_meta.
  - intros k. unfold h4. rewrite fld_alter_same by done. apply same_meta_q. by apply same_payload_meta.
Qed.

(** The parents and the weight [reprioritize] gives. *)
Definition reprioritized (ws : scheduler) (n : positive) (p : PriorityParam) (depends : positive -> bool)
    (pf : positive -> option ptr) (wf : positive -> option Z) : (positive -> option ptr) * (positive -> option Z) :=
  let weigh w := fun k => if decide (k = n) then Some w else wf k in
  match nodes ws !! StreamDep p with
  | None => (adopted false n root pf, weigh priorityDefaultWeight)
  | Some par => if decide (n = par) then (pf, wf) else (adjusted (Exclusive p) n par (depends par) pf, weigh (Weight p))
  end.

Definition depends_on (h : heap) (n par : positive) : Prop := exists l, up h (Some par) l /\ n ∈ l.

Lemma reprioritize_spec ws ch n p (depends : positive -> bool) : inv ws ch -> n <> root -> is_Some (nodes_heap ws !! n) ->
  (forall par, nodes ws !! StreamDep p = Some par -> depends par = true <-> depends_on (nodes_heap ws) n par) ->
  exists h' ch', reprioritize n p ws = Ok (with_heap h' ws) /\ inv (with_heap h' ws) ch' /\
    (forall k, fld parent h' k = (reprioritized ws n p depends (fld parent (nodes_heap ws)) (fld weight (nodes_heap ws))).1 k) /\
    (forall k, fld weight h' k = (reprioritized ws n p depends (fld parent (nodes_heap ws)) (fld weight (nodes_heap ws))).2 k) /\
    (forall k, fld state h' k = fld state (nodes_heap ws) k) /\ (forall k, fld q h' k = fld q (nodes_heap ws) k).
Proof.
  intros Hi Hnr Hn Hdep. unfold reprioritize, reprioritized. destruct (nodes ws !! StreamDep p) as [par|] eqn:E.
  - pose proof (inv_dom _ _ _ _ Hi E) as Hpar. destruct (decide (n = par)) as [->|Hne].
    { exists (nodes_heap ws), ch. destruct ws. split_and!; done. }
    destruct (up_of _ _ _ Hi Hpar) as [lpar Hl]. destruct (get_some _ _ Hn) as (x & _ & Hx).
    destruct (depend_on (Exclusive p) (Weight p) ws ch n par (parent x) lpar Hi Hnr Hne) as (h' & ch' & Hr & Hi' & Hp & Hw & Hs & Hq); [by rewrite (fld_get parent _ _ _ Hx)|done|].
    exists h', ch'. split_and!; try done. intros k. rewrite Hp. cbn [fst]. f_equal. apply eq_bool_prop_intro.
    rewrite bool_decide_spec. specialize (Hdep par eq_refl). rewrite Is_true_true, Hdep. unfold depends_on. split; [by exists lpar|].
    intros (l & Hl2 & Hin). by rewrite (up_det _ _ _ _ Hl Hl2).
  - destruct (inv_setParent ws ch n (Some root) [root] Hi Hn Hnr (up_root _ _ Hi)) as (h1 & ch1 & Hr & Hi1 & Hpay & Hp); [by rewrite list_elem_of_singleton|].
    set (h2 := alter (set_weight priorityDefaultWeight) n h1). assert (Hs : same_links h1 h2) by by apply same_links_alter.
    assert (Hd : is_Some (h1 !! n)) by by apply (same_payload_dom _ _ Hpay).
    destruct (inv_upd (with_heap h1 ws) ch1 (set_weight priorityDefaultWeight) n Hi1 Hd) as [_ Hi2]; [done..|].
    exists h2, ch1. split; [|split; [exact Hi2|]].
    { unfold on_heap. rewrite Hr. cbn [mbind outcome_bind]. by rewrite upd_alter. }
    pose proof (same_payload_meta _ _ Hpay) as Hm. split_and!; intros k.
    + rewrite (same_links_parent _ _ _ Hs), Hp. done.
    + cbn [snd]. destruct (decide (k = n)) as [->|Hk]; [by apply fld_alter_set|]. unfold h2. rewrite fld_alter_ne by done.
      rewrite !(fld_proj meta weight (fun t => t.1.2)) by done. by rewrite Hm.
    + unfold h2. rewrite fld_alter_same by done. by apply same_meta_state.
    + unfold h2. rewrite fld_alter_same by done. by apply same_meta_q.
Qed.

Lemma depends_dec ws ch n par : inv ws ch -> is_Some (nodes_heap ws !! par) ->
  exists b : bool, b = true <-> depends_on (nodes_heap ws) n par.
Proof.
  intros Hi Hp. destruct (up_of _ _ _ Hi Hp) as [l Hl]. exists (bool_decide (n ∈ l)). rewrite bool_decide_eq_true. unfold depends_on.
  split; [by exists l|]. intros (l' & Hl' & Hin). by rewrite (up_det _ _ _ _ Hl Hl').
Qed.

Lemma reprioritize_ok ws ch n p : inv ws ch -> n <> root -> is_Some (nodes_heap ws !! n) ->
  exists ws', reprioritize n p ws = Ok ws' /\ scheduler_ok ws'.
Proof.
  intros Hi Hnr Hn. assert (Hb : exists b : bool, forall par, nodes ws !! StreamDep p = Some par -> b = true <-> depends_on (nodes_heap ws) n par).
  { destruct (nodes ws !! StreamDep p) as [par|] eqn:E; [|by exists true].
    destruct (depends_dec ws ch n par Hi) as [b Hb]; [by eapply inv_dom|]. exists b. by intros ? [= <-]. }
  destruct Hb as [b Hb]. destruct (reprioritize_spec ws ch n p (fun _ => b) Hi Hnr Hn Hb) as (h' & ch' & Hr & Hi' & _).
  eexists. split; [exact Hr|by exists ch'].
Qed.

Lemma AdjustStream_ok i p ws : scheduler_ok ws -> i <> 0 -> exists ws', AdjustStream i p ws = Ok ws' /\ scheduler_ok ws'.
Proof.
  intros [ch Hi] Hi0. unfold AdjustStream. rewrite (proj2 (Z.eqb_neq _ _) Hi0). destruct (nodes ws !! i) as [n|] eqn:E.
  { eapply reprioritize_ok; [done|by eapply inv_not_root|by eapply inv_dom]. }
  case_match; [eexists; split; [done|by exists ch]|]. pose proof (inv_maxID ws ch i Hi) as Him. set (wm := with_maxID i ws) in *.
  destruct (alloc i priorityNodeIdle wm) as [n ws1] eqn:Ha.
  destruct (inv_new_stream wm ch i _ root n ws1 Him Hi0 (inv_root_dom _ _ Him) Ha) as (h' & ch' & Hr & Hi' & Hnr & Hn & _).
  unfold on_heap at 1. rewrite Hr. cbn [mbind outcome_bind]. set (ws2 := with_nodes _ _) in *.
  destruct (addClosedOrIdleNode_spec idle_list (maxIdleNodesInTree ws2) n ws2 ch' Hi') as (ws3 & ch3 & Hr3 & Hi3 & Hpay); [done|done|].
  cbn [list_of with_list] in Hr3. rewrite Hr3. cbn [mbind outcome_bind]. eapply reprioritize_ok; [done|done|].
  by apply (same_payload_dom _ _ Hpay).
Qed.

Lemma Push_ok wr ws : scheduler_ok ws -> (StreamID wr <> 0 -> 0 < DataSize wr -> is_Some (nodes ws !! StreamID wr)) ->
  exists ws', Push wr ws = Ok ws' /\ scheduler_ok ws'.
Proof.
  intros [ch Hi] Hopen. unfold Push.
  assert (Hn : exists n, is_Some (nodes_heap ws !! n) /\
    (if StreamID wr =? 0 then Ok root
       else match nodes ws !! StreamID wr with
            | Some n => Ok n
            | None => if 0 <? DataSize wr then Panic else Ok root
            end) = Ok (E := Empty_set) n).
  { pose proof (inv_root_dom _ _ Hi). destruct (Z.eqb_spec (StreamID wr) 0) as [Ez|Ez]; [by exists root|].
    destruct (nodes ws !! StreamID wr) as [n|] eqn:E; [exists n; split; [by eapply inv_dom|done]|].
    destruct (Z.ltb_spec 0 (DataSize wr)); [|by exists root]. by destruct Hopen. }
  destruct Hn as (n & Hd & ->). cbn [mbind outcome_bind].
  destruct (inv_upd ws ch (fun x => set_q (push wr (q x)) x) n Hi Hd) as [Hr Hi']; [done..|].
  eexists. split; [exact Hr|by exists ch].
Qed.
