(* ===== verification/Http2PriorityPop.v ===== *)
(** [Pop] of the priority scheduler: the walk returns, keeps the tree, serves a
    parent before its kids and misses no frame it could send. *)
From Stdlib Require Import SpecFloat.
From S2P Require Import Prelude Http2Frame Http2Write Http2Flow Http2WriteSched Http2Priority Http2PriorityTree Http2PriorityInv.

(** * Sorting the kids of a node *)

Lemma unlink_loop_spec n l : forall fuel tmp h ch, forest h ch -> is_Some (h !! n) -> ch n = l -> (length l <= fuel)%nat ->
  exists h' ch', unlink_loop fuel n tmp h = Ok (tmp ++ l, h') /\ forest h' ch' /\ same_payload h h' /\ ch' n = [] /\
    (forall i, i <> n -> ch' i = ch i) /\ (forall k, fld parent h' k = if decide (k ∈ l) then Some None else fld parent h k).
Proof.
  induction l as [|k l IH]; intros fuel tmp h ch Hf Hn Hl Hlen; destruct (get_some _ _ Hn) as (x & Hg & Hx);
    pose proof (f_kids _ _ Hf n Hn) as Hk; rewrite Hl, (fld_get kids _ _ _ Hx) in Hk; injection Hk as Hk.
  - exists h, ch. rewrite app_nil_r. split_and!; try done. destruct fuel; cbn [unlink_loop]; rewrite Hg; cbn [mbind outcome_bind]; by rewrite Hk.
  - destruct fuel as [|fuel]; [cbn in Hlen; lia|]. cbn [unlink_loop]. rewrite Hg. cbn [mbind outcome_bind]. rewrite Hk. cbn [hd_or].
    assert (Hkn : k ∈ ch n) by (rewrite Hl; by left). pose proof (proj1 (f_child _ _ Hf _ _) Hkn) as Hkp.
    pose proof (f_nodup _ _ Hf n) as Hnd. rewrite Hl in Hnd. apply NoDup_cons in Hnd as [Hkl _].
    destruct (setParent_spec h ch k None Hf) as (h1 & ch1 & -> & Hf1 & Hpay1 & Hp1 & _ & Hmv); [by eapply child_dom|done|].
    cbn [mbind outcome_bind]. specialize (Hmv ltac:(rewrite Hkp; congruence)).
    destruct (IH fuel (tmp ++ [k]) h1 ch1) as (h' & ch' & -> & Hf' & Hpay & Hch & Hoth & Hp); [done|by apply (same_payload_dom _ _ Hpay1)| |cbn in Hlen; lia|].
    { rewrite Hmv, move_ch_other, Hl by done. rewrite filter_cons_False by tauto. by apply filter_ne_out. }
    exists h', ch'. rewrite <- app_assoc. split_and!; [done|done|by eapply same_payload_trans|done| |].
    + intros i Hi. rewrite Hoth, Hmv, move_ch_other by done. apply filter_ne_out. intros Hin. apply Hi. exact (forest_disjoint _ _ _ _ _ Hf Hin Hkn).
    + intros i. rewrite Hp. destruct (decide (i ∈ l)) as [E|E].
      * rewrite decide_True; [done|by right].
      * rewrite Hp1. destruct (decide (i = k)) as [->|Hik]; [rewrite decide_True; [done|by left]|].
        rewrite decide_False; [done|]. by intros [?|?]%elem_of_cons.
Qed.

Lemma link_loop_spec n l : forall h ch, forest h ch -> is_Some (h !! n) -> NoDup l -> n ∉ l -> (forall k, k ∈ l -> fld parent h k = Some None) ->
  exists h' ch', link_loop n l h = Ok h' /\ forest h' ch' /\ same_payload h h' /\ ch' n = reverse l ++ ch n /\
    (forall i, i <> n -> ch' i = ch i) /\ (forall k, fld parent h' k = if decide (k ∈ l) then Some (Some n) else fld parent h k).
Proof.
  induction l as [|k l IH]; intros h ch Hf Hn Hnd Hnl Ho; [by exists h, ch|].
  apply NoDup_cons in Hnd as [Hkl Hnd]. apply not_elem_of_cons in Hnl as [Hnk Hnl]. pose proof (Ho k ltac:(by left)) as Hk.
  cbn [link_loop]. destruct (setParent_spec h ch k (Some n) Hf) as (h1 & ch1 & -> & Hf1 & Hpay1 & Hp1 & _ & Hmv); [by eapply fld_some|by intros ? [= <-]|].
  cbn [mbind outcome_bind]. specialize (Hmv ltac:(rewrite Hk; congruence)).
  assert (Hout : forall i, k ∉ ch i) by (intros i Hi%(f_child _ _ Hf); congruence).
  destruct (IH h1 ch1) as (h' & ch' & -> & Hf' & Hpay & Hch & Hoth & Hp); [done|by apply (same_payload_dom _ _ Hpay1)|done|done| |].
  { intros i Hi. rewrite Hp1, decide_False by by intros ->. apply Ho. by right. }
  exists h', ch'. split_and!; [done|done|by eapply same_payload_trans| | |].
  - rewrite Hch, Hmv, move_ch_to, filter_ne_out, reverse_cons, <- app_assoc by done. done.
  - intros i Hi. rewrite Hoth, Hmv, move_ch_other, filter_ne_out by congruence || done. done.
  - intros i. rewrite Hp. destruct (decide (i ∈ l)) as [E|E].
    + rewrite decide_True; [done|by right].
    + rewrite Hp1. destruct (decide (i = k)) as [->|Hik]; [rewrite decide_True; [done|by left]|].
      rewrite decide_False; [done|]. by intros [?|?]%elem_of_cons.
Qed.

Section sort.
Context (Sort : (positive -> positive -> bool) -> list positive -> list positive).
Context (Sort_perm : forall less l, Sort less l ≡ₚ l).

(** Taking the kids off, sorting them and putting them back permutes them. *)
Lemma sort_kids_spec n h ch : tree h ch -> is_Some (h !! n) ->
  exists tmp h1 h' ch', unlink_loop (size h) n [] h = Ok (tmp, h1) /\ link_loop n (reverse (Sort (Less h1) tmp)) h1 = Ok h' /\
    tree h' ch' /\ same_payload h h' /\ ch' n ≡ₚ ch n /\ (forall i, i <> n -> ch' i = ch i) /\
    (forall k, fld parent h' k = fld parent h k).
Proof.
  intros [Hf Ha] Hn. destruct (unlink_loop_spec n (ch n) (size h) [] h ch Hf Hn eq_refl) as (h1 & ch1 & Hr1 & Hf1 & Hpay1 & Hch1 & Hoth1 & Hp1); [by apply children_length|].
  pose proof (f_nodup _ _ Hf n) as Hnd. set (l := Sort (Less h1) (ch n)). assert (Hl : l ≡ₚ ch n) by apply Sort_perm.
  assert (Hnn : n ∉ ch n) by (intros H%(f_child _ _ Hf); by eapply parent_irrefl).
  destruct (link_loop_spec n (reverse l) h1 ch1 Hf1) as (h' & ch' & Hr' & Hf' & Hpay & Hch & Hoth & Hp).
  { by apply (same_payload_dom _ _ Hpay1). } { by rewrite reverse_Permutation, Hl. } { by rewrite reverse_Permutation, Hl. }
  { intros k. rewrite reverse_Permutation, Hl. intros Hk. by rewrite Hp1, decide_True. }
  assert (Hpar : forall k, fld parent h' k = fld parent h k).
  { intros k. rewrite Hp, Hp1. destruct (decide (k ∈ ch n)) as [E|E].
    - rewrite decide_True by by rewrite reverse_Permutation, Hl. symmetry. by apply (f_child _ _ Hf).
    - rewrite decide_False; [done|]. by rewrite reverse_Permutation, Hl. }
  exists (ch n), h1, h', ch'. split_and!; [done|done| |by eapply same_payload_trans| | |done].
  - split; [done|]. by eapply acyclic_frame.
  - by rewrite Hch, Hch1, reverse_involutive, app_nil_r.
  - intros i Hi. by rewrite Hoth, Hoth1.
Qed.
End sort.

Lemma needSort_loop_spec h ch p w fuel : forest h ch -> forall l2 l1, ch p = l1 ++ l2 -> (length l2 <= fuel)%nat ->
  exists b, needSort_loop fuel w (hd_or None l2) h = Ok b.
Proof.
  intros Hf. induction fuel as [|fuel IH]; intros l2 l1 Hl Hlen; destruct l2 as [|k l2]; [by exists false|cbn in Hlen; lia|by exists false|].
  cbn [hd_or needSort_loop]. pose proof (next_in_list _ _ _ _ _ _ Hf Hl) as Hnx.
  destruct (get_some h k) as (x & Hg & Hx); [by eapply fld_some|]. rewrite Hg. cbn [mbind outcome_bind].
  rewrite (fld_get next _ _ _ Hx) in Hnx. injection Hnx as ->. case_match; [by exists true|].
  apply (IH l2 (l1 ++ [k])); [by rewrite <- app_assoc|cbn in Hlen; lia].
Qed.

(** * Dependents *)

Definition same_parents (h h' : heap) : Prop := forall k, fld parent h' k = fld parent h k.

Lemma same_parents_up h h' p l : same_parents h h' -> up h p l <-> up h' p l.
Proof. intros H. split; intros Hu; (eapply up_frame; [exact Hu|]); by intros k _; rewrite H. Qed.

Lemma same_parents_depends h h' n m : same_parents h h' -> depends_on h n m <-> depends_on h' n m.
Proof. intros H. unfold depends_on. by setoid_rewrite (same_parents_up h h' (Some m) _ H). Qed.

Lemma same_parents_trans a b c : same_parents a b -> same_parents b c -> same_parents a c.
Proof. intros H1 H2 k. by rewrite H2, H1. Qed.

(** A dependent is the node itself or a dependent of a kid. *)
Lemma depends_cases h n m : depends_on h n m -> m = n \/ exists k, fld parent h k = Some (Some n) /\ depends_on h k m.
Proof.
  intros (l & Hu & Hin). remember (Some m) as o eqn:Eo. revert m Eo. induction Hu as [|p par l Hp Hu IH]; intros m [= ->].
  apply elem_of_cons in Hin as [->|Hin]; [by left|right]. destruct par as [p|]; [|inversion Hu; subst; by apply elem_of_nil in Hin].
  assert (Hself : forall i l', up h (Some p) l' -> i ∈ l' -> depends_on h i m).
  { intros i l' Hl' Hi. exists (m :: l'). split; [by econstructor|by right]. }
  destruct (IH Hin p eq_refl) as [->|(k & Hk & lk & Hlk & Hkin)].
  - exists m. split; [done|]. exists (m :: l). split; [by econstructor|by left].
  - exists k. split; [done|]. by eapply Hself.
Qed.

Lemma depends_self h n l : up h (Some n) l -> depends_on h n n.
Proof. intros H. exists l. split; [done|]. inversion H. by left. Qed.

(** A node does not depend on its kids. *)
Lemma depends_kid_irrefl h n k : fld parent h k = Some (Some n) -> ~ depends_on h k n.
Proof.
  intros Hk (l & Hu & Hin). assert (Hu2 : up h (Some k) (k :: l)) by by econstructor.
  apply up_nodup in Hu2. by apply NoDup_cons in Hu2 as [? _].
Qed.

Lemma depends_kid h n k m : fld parent h k = Some (Some n) -> depends_on h k m -> depends_on h n m.
Proof.
  intros Hk (l & Hu & Hin). exists l. split; [done|]. destruct (up_suffix _ _ _ _ Hu Hin) as (l1 & l2 & -> & Hu2).
  destruct (up_parent _ _ _ _ Hu2 Hk) as (l' & [= <-] & Hu3 & _). inversion Hu3; subst. apply elem_of_app. right. right. by left.
Qed.

(** Kids with a common dependent are the same. *)
Lemma depends_kids_disjoint h n k k' : fld parent h k = Some (Some n) -> fld parent h k' = Some (Some n) -> depends_on h k k' -> k = k'.
Proof.
  intros Hk Hk' (l & Hu & Hin). destruct (up_parent _ _ _ _ Hu Hk') as (l' & -> & Hn & _).
  apply elem_of_cons in Hin as [->|Hin]; [done|]. exfalso. apply (depends_kid_irrefl _ _ _ Hk). by exists l'.
Qed.

(** * The callback of [Pop] *)

Definition opening (x : priorityNode) : bool := negb (id x =? 0) && bool_decide (state x = priorityNodeOpen).
Definition opens_in (h : heap) (l : list positive) : bool := existsb (fun a => bool_decide (fld opening h a = Some true)) l.
Definition queues_ok (h : heap) (fs : flows) : Prop := forall k l, fld q h k = Some l -> queue_ok fs l.
Definition rest (x : priorityNode) := (id x, weight x, state x).

Lemma same_meta_rest h h' k : same_meta h h' -> fld rest h' k = fld rest h k.
Proof. intros H. rewrite !(fld_proj meta rest (fun t => (t.1.1.2, t.1.2, t.2))) by done. by rewrite H. Qed.

Lemma same_meta_opens h h' l : same_meta h h' -> opens_in h' l = opens_in h l.
Proof.
  intros H. unfold opens_in. induction l as [|a l IH]; [done|]. cbn [existsb]. rewrite IH. f_equal.
  rewrite !(fld_proj meta opening (fun t => negb (t.1.1.2 =? 0) && bool_decide (t.2 = priorityNodeOpen))) by done. by rewrite H.
Qed.

Lemma same_meta_queues h h' fs : same_meta h h' -> queues_ok h fs -> queues_ok h' fs.
Proof. intros H Hq k l. rewrite (same_meta_q _ _ _ H). apply Hq. Qed.

Section pop.
Context (Sort : (positive -> positive -> bool) -> list positive -> list positive).
Context (Sort_perm : forall less l, Sort less l ≡ₚ l).
Context (maxFrameSize : Z) (throttle : bool).

(** The limit for a frame below an open stream, or not; the limit after it. *)
Definition limit_of (op : bool) (s : pop_state) : Z := if op then p_limit s else 2 ^ 31 - 1.
Definition next_limit (op : bool) (limit : Z) : Z :=
  if op then let l := i32 (limit + 1024) in if l <? 0 then 2 ^ 31 - 1 else l else if throttle then 1024 else limit.

Lemma next_limit_range op l : 0 < l < 2 ^ 31 -> 0 < next_limit op l < 2 ^ 31.
Proof.
  intros Hl. unfold next_limit. destruct op; [|destruct throttle; lia].
  pose proof (signed_range 32 (l + 1024) ltac:(lia)) as Hr. change (signed 32 (l + 1024)) with (i32 (l + 1024)) in Hr.
  destruct (Z.ltb_spec (i32 (l + 1024)) 0); [lia|]. split; [|lia].
  destruct (decide (l + 1024 < 2 ^ 31)); [rewrite i32_id by (unfold window; lia); lia|].
  assert (E : i32 (l + 1024) <> 0).
  { unfold i32, signed. intros E. assert (H1 : (l + 1024 + 2 ^ (32 - 1)) mod 2 ^ 32 = 2 ^ (32 - 1)) by lia.
    pose proof (Z.div_mod (l + 1024 + 2 ^ (32 - 1)) (2 ^ 32) ltac:(lia)). lia. }
  lia.
Qed.

(** One frame left the queue of [m]. *)
Definition sent (op : bool) (m : positive) (h : heap) (s : pop_state) (h' : heap) (s' : pop_state) : Prop :=
  exists l l', fld q h m = Some l /\ consume maxFrameSize (limit_of op s) l (p_flows s) = Ok (p_wr s', true, l', p_flows s') /\
    p_ok s' = true /\ p_limit s' = next_limit op (p_limit s) /\
    (forall k, fld q h' k = if decide (k = m) then Some l' else fld q h k) /\ (forall k, fld rest h' k = fld rest h k).

(** Nothing changed but the answer. *)
Definition nothing (h : heap) (s : pop_state) (h' : heap) (s' : pop_state) : Prop :=
  same_meta h h' /\ p_flows s' = p_flows s /\ p_limit s' = p_limit s /\ p_ok s' = false.

Definition node_blocked (fs : flows) (h : heap) (n : positive) : Prop := forall l, fld q h n = Some l -> blocked maxFrameSize fs l.

Lemma pop_visit_spec n op h ch s : tree h ch -> is_Some (h !! n) -> queues_ok h (p_flows s) -> 0 < p_limit s < 2 ^ 31 ->
  exists b h' s', pop_visit maxFrameSize throttle n op (h, s) = Ok (b, (h', s')) /\ same_links h h' /\
    if (b : bool) then sent op n h s h' s' else nothing h s h' s' /\ node_blocked (p_flows s) h n.
Proof.
  intros Ht Hn Hq Hl. destruct (get_some _ _ Hn) as (x & Hg & Hx). cbn [pop_visit]. rewrite Hg. cbn [mbind outcome_bind].
  fold (limit_of op s). assert (Hlim : 0 < limit_of op s) by (destruct op; cbn; lia).
  pose proof (consume_spec maxFrameSize (limit_of op s) (q x) (p_flows s) (Hq n _ (fld_get q _ _ _ Hx)) Hlim) as Hc.
  destruct (consume _ _ _ _) as [[[[wr ok] q'] fs]| |] eqn:Ec; [|done|done]. cbn [mbind outcome_bind].
  rewrite (upd_get _ _ _ _ Hx). cbn [mbind outcome_bind]. set (h1 := alter _ n h).
  assert (Hs1 : same_links h h1) by by apply same_links_alter. destruct ok; cbn [negb].
  - destruct (addBytes_spec n (DataSize wr) h1) as (h2 & -> & Hs2 & Hm2).
    { eapply same_links_acyclic; [done|apply Ht]. } { by apply alter_some. }
    cbn [mbind outcome_bind]. eexists true, h2, _. split; [done|]. split; [by eapply same_links_trans|].
    exists (q x), q'. cbn [p_wr p_flows p_ok p_limit]. split_and!; [by apply fld_get|exact Ec|done|by destruct op| |].
    + intros k. rewrite (same_meta_q _ _ _ Hm2). unfold h1. destruct (decide (k = n)) as [->|Hk]; [by apply fld_alter_set|by apply fld_alter_ne].
    + intros k. rewrite (same_meta_rest _ _ _ Hm2). by apply fld_alter_same.
  - destruct Hc as (-> & -> & Hb). eexists false, h1, _. split; [done|]. split; [done|]. split.
    + split; [|done]. intros k. unfold h1. destruct (decide (k = n)) as [->|Hk]; [|by apply fld_alter_ne].
      unfold fld. rewrite lookup_alter_eq, Hx. done.
    + intros l. rewrite (fld_get q _ _ _ Hx). by intros [= <-].
Qed.

(** * The walk *)

(** Some node at or below [n] was served; its ancestors from [n] on are
    blocked. [ln] are the ancestors of [n]. *)
Definition served (n : positive) (ln : list positive) (h : heap) (s : pop_state) (h' : heap) (s' : pop_state) : Prop :=
  exists m l l1, up h (Some m) (m :: l) /\ m :: l = l1 ++ n :: ln /\ sent (opens_in h l) m h s h' s' /\
    (forall a, a ∈ l -> a ∉ ln -> node_blocked (p_flows s) h a).

Definition quiet (fs : flows) (h : heap) (n : positive) : Prop := forall m, depends_on h n m -> node_blocked fs h m.

Lemma node_blocked_meta fs h h' n : same_meta h h' -> node_blocked fs h' n <-> node_blocked fs h n.
Proof. intros H. unfold node_blocked. by rewrite (same_meta_q _ _ _ H). Qed.

(** What a walk over the dependents in [below] does. *)
Definition walked (n : positive) (ln : list positive) (below : positive -> Prop) (h : heap) (ch : positive -> list positive) (s : pop_state)
    (r : fl (bool * (heap * pop_state))) : Prop :=
  exists b h' s' ch', r = Ok (b, (h', s')) /\ tree h' ch' /\ same_parents h h' /\ (forall i, ~ below i -> ch' i = ch i) /\
    if (b : bool) then served n ln h s h' s'
    else nothing h s h' s' /\ forall m, below m -> node_blocked (p_flows s) h m.

Definition walk (fuel : nat) (n : positive) (op : bool) (st : heap * pop_state) : fl (bool * (heap * pop_state)) :=
  walkReadyInOrder Sort pop_state (pop_visit maxFrameSize throttle) fuel n op st.

(** A state from which a walk may start at a node with ancestors [ln]. *)
Definition ready (n : positive) (ln : list positive) (fuel : nat) (h : heap) (ch : positive -> list positive) (s : pop_state) : Prop :=
  tree h ch /\ up h (Some n) (n :: ln) /\ (size h + 1 <= fuel + length (n :: ln))%nat /\
  queues_ok h (p_flows s) /\ 0 < p_limit s < 2 ^ 31 /\ p_ok s = false.

Definition walk_ok (fuel : nat) : Prop := forall n ln h ch s, ready n ln fuel h ch s ->
  walked n ln (depends_on h n) h ch s (walk fuel n (opens_in h ln) (h, s)).

Lemma same_size (h h' : heap) : (forall k, is_Some (h' !! k) <-> is_Some (h !! k)) -> size h' = size h.
Proof. intros H. rewrite <- !(size_dom (D := gset positive)). f_equal. apply set_eq. intros i. by rewrite !elem_of_dom. Qed.

Lemma same_meta_dom h h' : same_meta h h' -> forall k, is_Some (h' !! k) <-> is_Some (h !! k).
Proof. intros H. apply same_ids_dom. intros k. by apply same_meta_id. Qed.

(** After a walk that changed nothing, another may start. *)
Lemma ready_next n ln fuel h ch s h' ch' s' : ready n ln fuel h ch s -> tree h' ch' -> same_parents h h' -> nothing h s h' s' ->
  ready n ln fuel h' ch' s'.
Proof.
  intros (Ht & Hu & Hf & Hq & Hl & Ho) Ht' Hp (Hm & Ef & El & Eo). split_and!; [done|by apply (same_parents_up _ _ _ _ Hp)| | |rewrite El; lia|rewrite El; lia|done].
  - rewrite (same_size h h'); [done|]. by apply same_meta_dom.
  - rewrite Ef. by eapply same_meta_queues.
Qed.

Lemma served_next n ln h s h1 s1 h' s' : same_parents h h1 -> nothing h s h1 s1 ->
  served n ln h1 s1 h' s' -> served n ln h s h' s'.
Proof.
  intros Hp (Hm & Ef & El & Eo) (m & l & l1 & Hu & Hl & Hs & Hb). exists m, l, l1. split_and!.
  - by apply (same_parents_up _ _ _ _ Hp).
  - done.
  - rewrite (same_meta_opens _ _ _ Hm) in Hs. destruct Hs as (l0 & l' & H1 & H2 & H3 & H4 & H5 & H6).
    unfold limit_of in H2. rewrite Ef, El in *. rewrite (same_meta_q _ _ _ Hm) in H1. exists l0, l'. split_and!; try done.
    + intros k. rewrite H5. by rewrite (same_meta_q _ _ _ Hm).
    + intros k. rewrite H6. by apply same_meta_rest.
  - intros a Ha Hn. rewrite <- (node_blocked_meta _ _ _ _ Hm), <- Ef. by apply Hb.
Qed.

Lemma nothing_trans h s h1 s1 h' s' : nothing h s h1 s1 -> nothing h1 s1 h' s' -> nothing h s h' s'.
Proof.
  intros (Hm & Ef & El & Eo) (Hm' & Ef' & El' & Eo'). split; [by eapply same_meta_trans|]. by rewrite Ef', Ef, El', El.
Qed.

(** The walk of a kid of [n], seen from [n]. *)
Lemma served_kid n k ln h s h' s' : node_blocked (p_flows s) h n -> served k (n :: ln) h s h' s' -> served n ln h s h' s'.
Proof.
  intros Hn (m & l & l1 & Hu & Hl & Hs & Hb). exists m, l, (l1 ++ [k]). split_and!; [done|by rewrite Hl, <- app_assoc|done|].
  intros a Ha Hna. destruct (decide (a = n)) as [->|Hne]; [done|]. apply Hb; [done|]. by apply not_elem_of_cons.
Qed.

Lemma kids_loop_spec fuel n ln : walk_ok fuel -> forall fl l2 l1 h ch s, ready n ln (S fuel) h ch s -> node_blocked (p_flows s) h n ->
  ch n = l1 ++ l2 -> (length l2 <= fl)%nat ->
  walked n ln (fun m => exists k, k ∈ l2 /\ depends_on h k m) h ch s
    (kids_loop pop_state fl (fun k => walk fuel k (opens_in h (n :: ln))) (hd_or None l2) (h, s)).
Proof.
  intros Hwalk. induction fl as [|fl IH]; intros l2 l1 h ch s Hr Hb Hl Hlen; (destruct l2 as [|k l2]; [|]).
  2: by cbn in Hlen; lia.
  1, 2: exists false, h, s, ch; pose proof Hr as (Ht & _ & _ & _ & _ & Ho); split_and!; [done..|]; by intros m (k & Hk%elem_of_nil & _).
  pose proof Hr as (Ht & Hu & Hf & Hq & Hlim & Ho). cbn [hd_or kids_loop].
  assert (Hkn : k ∈ ch n) by (rewrite Hl; apply elem_of_app; right; by left).
  assert (Hkids : forall i, i ∈ k :: l2 -> fld parent h i = Some (Some n)).
  { intros i Hi. apply (f_child _ _ (t_forest _ _ Ht)). rewrite Hl. apply elem_of_app. by right. }
  pose proof (Hkids k ltac:(by left)) as Hkp. pose proof (f_nodup _ _ (t_forest _ _ Ht) n) as Hnd. rewrite Hl in Hnd.
  apply NoDup_app in Hnd as (_ & _ & [Hkl2 _]%NoDup_cons).
  destruct (Hwalk k (n :: ln) h ch s) as (b & h1 & s1 & ch1 & -> & Ht1 & Hp1 & Hch1 & Hres).
  { split_and!; [done|by econstructor|cbn [length] in *; lia|done|lia|lia|done]. }
  cbn [mbind outcome_bind]. destruct b.
  - exists true, h1, s1, ch1. split_and!; [done|done|done| |by eapply served_kid]. intros i Hi. apply Hch1.
    intros Hd. apply Hi. exists k. split; [by left|done].
  - destruct Hres as [Hno Hqk]. cbn [fst]. pose proof Hno as (Hm & Ef & _).
    assert (Hn1 : ch1 n = l1 ++ k :: l2). { rewrite Hch1, Hl; [done|]. by apply depends_kid_irrefl. }
    pose proof (next_in_list _ _ _ _ _ _ (t_forest _ _ Ht1) Hn1) as Hnx. destruct (get_some h1 k) as (y & Hg & Hy); [by eapply fld_some|].
    rewrite Hg. cbn [mbind outcome_bind]. rewrite (fld_get next _ _ _ Hy) in Hnx. injection Hnx as ->.
    rewrite <- (same_meta_opens _ _ _ Hm).
    destruct (IH l2 (l1 ++ [k]) h1 ch1 s1) as (b & h' & s' & ch' & -> & Ht' & Hp' & Hch' & Hres').
    + by eapply ready_next.
    + apply (node_blocked_meta _ _ _ _ Hm). by rewrite Ef.
    + by rewrite <- app_assoc.
    + cbn in Hlen. lia.
    + exists b, h', s', ch'. split_and!; [done|done|by eapply same_parents_trans| |].
      * intros i Hi. rewrite Hch'.
        -- apply Hch1. intros Hd. apply Hi. exists k. split; [by left|done].
        -- intros (j & Hj & Hd). apply Hi. exists j. split; [by right|]. by apply (same_parents_depends _ _ _ _ Hp1).
      * destruct b; [by eapply served_next|]. destruct Hres' as [Hno' Hq']. split; [by eapply nothing_trans|].
        intros m (j & Hj & Hd). apply elem_of_cons in Hj as [->|Hj]; [by apply Hqk|].
        rewrite <- (node_blocked_meta _ _ _ _ Hm), <- Ef. apply Hq'. exists j. split; [done|]. by apply (same_parents_depends _ _ _ _ Hp1).
Qed.

(** The walk over the kids, in any order, seen from before the visit of [n]. *)
Lemma walked_up n ln h ch s h1 ch1 s1 l r : tree h ch -> up h (Some n) (n :: ln) -> same_parents h h1 -> nothing h s h1 s1 ->
  node_blocked (p_flows s) h n -> l ≡ₚ ch n -> (forall i, i <> n -> ch1 i = ch i) ->
  walked n ln (fun m => exists k, k ∈ l /\ depends_on h1 k m) h1 ch1 s1 r -> walked n ln (depends_on h n) h ch s r.
Proof.
  intros Ht Hu Hp Hno Hb Hl Hoth (b & h' & s' & ch' & -> & Ht' & Hp' & Hch' & Hres). exists b, h', s', ch'.
  assert (Hkid : forall k, k ∈ l <-> fld parent h k = Some (Some n)) by (intros k; rewrite Hl; apply (f_child _ _ (t_forest _ _ Ht))).
  split_and!; [done|done|by eapply same_parents_trans| |].
  - intros i Hi. rewrite Hch'; [apply Hoth; intros ->; apply Hi; by eapply depends_self|].
    intros (k & Hk & Hd). apply Hi. eapply depends_kid; [by apply Hkid|]. by apply (same_parents_depends _ _ _ _ Hp).
  - destruct b; [by eapply served_next|]. destruct Hres as [Hno' Hq]. split; [by eapply nothing_trans|].
    intros m [->|(k & Hk & Hd)]%depends_cases; [done|]. destruct Hno as (Hm & Ef & _).
    apply (node_blocked_meta _ _ _ _ Hm). rewrite <- Ef. apply Hq. exists k. split; [by apply Hkid|].
    by apply (same_parents_depends _ _ _ _ Hp).
Qed.

Lemma opens_in_cons h n x l : h !! n = Some x ->
  opens_in h (n :: l) = (if negb (id x =? 0) then opens_in h l || bool_decide (state x = priorityNodeOpen) else opens_in h l).
Proof.
  intros Hx. unfold opens_in at 1. cbn [existsb]. fold (opens_in h l). rewrite (fld_get opening _ _ _ Hx). unfold opening.
  destruct (negb (id x =? 0)); cbn [andb]; [|done]. rewrite orb_comm. f_equal.
  destruct (bool_decide (state x = priorityNodeOpen)); done.
Qed.

(** The visit of a node by the walk. *)
Lemma visit_spec n op h ch s x : tree h ch -> h !! n = Some x -> queues_ok h (p_flows s) -> 0 < p_limit s < 2 ^ 31 -> p_ok s = false ->
  exists b h' s', (if negb (empty (q x)) then pop_visit maxFrameSize throttle n op (h, s) else Ok (false, (h, s))) = Ok (b, (h', s')) /\
    same_links h h' /\ if (b : bool) then sent op n h s h' s' else nothing h s h' s' /\ node_blocked (p_flows s) h n.
Proof.
  intros Ht Hx Hq Hl Ho. destruct (empty (q x)) eqn:He; cbn [negb]; [|apply (pop_visit_spec n op h ch s Ht); eauto].
  exists false, h, s. split_and!; [done|done|done|]. intros l. rewrite (fld_get q _ _ _ Hx). intros [= <-].
  destruct (q x) as [|w l] eqn:E; [done|]. unfold empty in He. rewrite len_cons in He. pose proof (len_nonneg l). lia.
Qed.

Lemma walk_spec fuel : walk_ok fuel.
Proof.
  induction fuel as [|fuel IH]; intros n ln h ch s Hr; pose proof Hr as (Ht & Hu & Hf & Hq & Hlim & Ho); pose proof (up_length _ _ _ Hu) as Hlen.
  { lia. }
  assert (Hn : is_Some (h !! n)) by (inversion Hu; by eapply fld_some). destruct (get_some _ _ Hn) as (x & Hg & Hx).
  unfold walk. cbn [walkReadyInOrder fst]. rewrite Hg. cbn [mbind outcome_bind].
  destruct (visit_spec n (opens_in h ln) h ch s x Ht Hx Hq Hlim Ho) as (b & h1 & s1 & -> & Hs1 & Hres). cbn [mbind outcome_bind fst].
  pose proof (same_links_tree _ _ _ Hs1 Ht) as Ht1. assert (Hp1 : same_parents h h1) by (intros k; by apply same_links_parent).
  destruct b.
  { exists true, h1, s1, ch. split_and!; [done..|]. exists n, ln, []. split_and!; [done|done|done|]. by intros a Ha. }
  destruct Hres as [Hno Hb]. pose proof Hno as (Hm & Ef & El & Eo). pose proof (ready_next _ _ _ _ _ _ _ _ _ Hr Ht1 Hp1 Hno) as Hr1.
  assert (Hb1 : node_blocked (p_flows s1) h1 n) by (rewrite Ef; by apply (node_blocked_meta _ _ _ _ Hm)).
  destruct (get_some h1 n) as (x1 & Hg1 & Hx1); [by apply (same_links_dom _ _ Hs1)|]. rewrite Hg1. cbn [mbind outcome_bind].
  pose proof (f_kids _ _ (t_forest _ _ Ht1) n ltac:(eauto)) as Hk. rewrite (fld_get kids _ _ _ Hx1) in Hk. injection Hk as ->.
  rewrite <- (same_meta_opens _ _ _ Hm), <- (opens_in_cons _ _ _ _ Hx1).
  destruct (ch n) as [|k0 l] eqn:Hch; cbn [hd_or].
  { exists false, h1, s1, ch. split_and!; [done..|]. intros m [->|(k & Hk & _)]%depends_cases; [done|].
    apply (f_child _ _ (t_forest _ _ Ht)) in Hk. rewrite Hch in Hk. by apply elem_of_nil in Hk. }
  destruct (get_some h1 k0) as (y & Hgy & Hy); [eapply (child_dom _ _ n); [apply Ht1|rewrite Hch; by left]|]. rewrite Hgy. cbn [mbind outcome_bind].
  pose proof (next_in_list _ _ n [] _ _ (t_forest _ _ Ht1) Hch) as Hnx. rewrite (fld_get next _ _ _ Hy) in Hnx. injection Hnx as ->.
  pose proof (children_length _ _ n (t_forest _ _ Ht1)) as Hkl. rewrite Hch in Hkl.
  destruct (needSort_loop_spec h1 ch n (weight y) (size h1) (t_forest _ _ Ht1) l [k0] Hch) as (nd & ->); [cbn in Hkl; lia|].
  cbn [mbind outcome_bind]. destruct nd; cbn [negb].
  - destruct (sort_kids_spec Sort Sort_perm n h1 ch Ht1) as (tmp & h2 & h3 & ch3 & Hr2 & Hr3 & Ht3 & Hpay & Hperm & Hoth & Hp3); [eauto|].
    rewrite Hr2. cbn [mbind outcome_bind]. rewrite Hr3. cbn [mbind outcome_bind].
    assert (Hno3 : nothing h1 s1 h3 s1) by (split; [by apply same_payload_meta|done]).
    destruct (get_some h3 n) as (x3 & Hg3 & Hx3); [apply (same_payload_dom _ _ Hpay); eauto|]. rewrite Hg3. cbn [mbind outcome_bind snd].
    pose proof (f_kids _ _ (t_forest _ _ Ht3) n ltac:(eauto)) as Hk3. rewrite (fld_get kids _ _ _ Hx3) in Hk3. injection Hk3 as ->.
    eapply (walked_up _ _ h ch s h3 ch3 s1 (ch3 n)); [done|done|by eapply same_parents_trans|by eapply nothing_trans|done|done|done|].
    rewrite <- (same_meta_opens h1 h3) by by apply same_payload_meta.
    apply (kids_loop_spec fuel n ln IH (size h3) (ch3 n) []).
    + eapply ready_next; [exact Hr1|done|done|done].
    + apply (node_blocked_meta _ h1); [by apply same_payload_meta|done].
    + done.
    + apply children_length, Ht3.
  - eapply (walked_up _ _ h ch s h1 ch s1 (k0 :: l)); [done|done|done|done|done|by rewrite Hch|done|].
    apply (kids_loop_spec fuel n ln IH (size h1) (k0 :: l) []); [done|done|by rewrite Hch|done].
Qed.
End pop.
