(* ===== verification/Http2PrioritySpec.v ===== *)
(** What the priority scheduler promises: which calls panic, which frame [Pop]
    returns, what [AdjustStream] does to the tree; and where it falls short. *)
From Stdlib Require Import SpecFloat.
From S2P Require Import Prelude Http2Frame Http2Write Http2Flow Http2WriteSched.
From S2P Require Import Http2Priority Http2PriorityTree Http2PriorityInv Http2PriorityPop.

Section spec.
Context (Sort : (positive -> positive -> bool) -> list positive -> list positive).
Context (Sort_perm : forall less l, Sort less l ≡ₚ l).
Context (maxFrameSize : Z).

(** * [Pop] *)

Lemma Pop_spec ws fs : scheduler_ok ws -> queues_ok (nodes_heap ws) fs ->
  let h := nodes_heap ws in
  exists wr ok ws' fs', Pop Sort maxFrameSize ws fs = Ok (wr, ok, ws', fs') /\ scheduler_ok ws' /\
    nodes ws' = nodes ws /\ same_parents h (nodes_heap ws') /\
    if (ok : bool) then
      exists m l s s', up h (Some m) (m :: l) /\ last (m :: l) = Some root /\ (forall a, a ∈ l -> node_blocked maxFrameSize fs h a) /\
        sent maxFrameSize (enableWriteThrottle ws) (opens_in h l) m h s (nodes_heap ws') s' /\
        s = mkPop FWR_zero false (writeThrottleLimit ws) fs /\ s' = mkPop wr true (writeThrottleLimit ws') fs'
    else fs' = fs /\ same_meta h (nodes_heap ws') /\ forall m, depends_on h root m -> node_blocked maxFrameSize fs h m.
Proof.
  intros [ch Hi] Hq h. unfold Pop. set (s := mkPop FWR_zero false (writeThrottleLimit ws) fs).
  assert (Hr : ready root [] (size h) h ch s).
  { split_and!; [apply Hi|by apply (up_root _ _ Hi)|cbn; lia|done|apply (i_limit _ _ Hi)..|done]. }
  destruct (walk_spec Sort Sort_perm maxFrameSize (enableWriteThrottle ws) _ root [] h ch s Hr) as (b & h' & s' & ch' & Hw & Ht' & Hp & _ & Hres).
  change (walkReadyInOrder Sort pop_state (pop_visit maxFrameSize (enableWriteThrottle ws)) (size (nodes_heap ws)) root false (nodes_heap ws, s) =
    Ok (b, (h', s'))) in Hw. rewrite Hw. cbn [mbind outcome_bind].
  eexists _, _, _, _. split; [done|].
  assert (Hinv : forall h1, (forall k, fld id h1 k = fld id h k) -> tree h1 ch' -> same_parents h h1 -> 0 < p_limit s' < 2 ^ 31 ->
    scheduler_ok (with_limit (p_limit s') (with_heap h1 ws))).
  { intros h1 Hid Ht1 Hp1 Hl. exists ch'. assert (Hi1 : inv (with_heap h1 ws) ch').
    { eapply inv_heap; [done|done| |done]. rewrite Hp1. apply (i_root _ _ Hi). }
    destruct Hi1. by split. }
  destruct b.
  - destruct Hres as (m & l & l1 & Hu & Hl & Hs & Hb). pose proof Hs as (q0 & q' & Hq0 & Hc & Ho & Hlim & Hqs & Hrest).
    split; [|split; [done|split; [done|]]].
    + apply Hinv; [|done|done|].
      * intros k. rewrite !(fld_proj rest id (fun t => t.1.1)) by done. by rewrite Hrest.
      * rewrite Hlim. apply next_limit_range. apply (i_limit _ _ Hi).
    + rewrite Ho. exists m, l, s, s'. split_and!; [done|by rewrite Hl, last_snoc| |done|done|].
      * intros a Ha. apply Hb; [done|]. apply not_elem_of_nil.
      * destruct s'. cbn in *. by subst.
  - destruct Hres as [(Hm & Ef & El & Eo) Hb]. split; [|split; [done|split; [done|]]].
    + apply Hinv; [|done|done|rewrite El; apply (i_limit _ _ Hi)]. intros k. by apply same_meta_id.
    + by rewrite Eo.
Qed.

(** C22. [Pop] returns; the frame comes from the queue of a node below the root none
    of whose ancestors has a frame that could be sent, under the throttling limit
    when one of the ancestors is an open stream; no other queue changes. It
    returns nothing only when no queue of the tree has a frame that the windows
    and the frame size let through. *)
Theorem Pop_serves ws fs : scheduler_ok ws -> queues_ok (nodes_heap ws) fs ->
  let h := nodes_heap ws in
  exists wr ok ws' fs', Pop Sort maxFrameSize ws fs = Ok (wr, ok, ws', fs') /\ nodes ws' = nodes ws /\ same_parents h (nodes_heap ws') /\
    if (ok : bool) then
      exists m l q0 q1, up h (Some m) (m :: l) /\ last (m :: l) = Some root /\ fld q h m = Some q0 /\
        consume maxFrameSize (if opens_in h l then writeThrottleLimit ws else 2 ^ 31 - 1) q0 fs = Ok (wr, true, q1, fs') /\
        (forall a, a ∈ l -> node_blocked maxFrameSize fs h a) /\
        (forall k, fld q (nodes_heap ws') k = if decide (k = m) then Some q1 else fld q h k)
    else fs' = fs /\ (forall k, fld q (nodes_heap ws') k = fld q h k) /\ forall m, depends_on h root m -> node_blocked maxFrameSize fs h m.
Proof.
  intros Hi Hq h. destruct (Pop_spec ws fs Hi Hq) as (wr & ok & ws' & fs' & Hr & _ & Hn & Hp & Hres).
  exists wr, ok, ws', fs'. split; [done|]. split; [done|]. split; [done|]. destruct ok.
  - destruct Hres as (m & l & s & s' & Hu & Hl & Hb & (q0 & q1 & Hq0 & Hc & _ & _ & Hqs & _) & -> & ->).
    by exists m, l, q0, q1.
  - destruct Hres as (Hf & Hm & Hb). split; [done|]. split; [|done]. intros k. by apply same_meta_q.
Qed.

(** * The calls *)

Inductive call :=
  | COpen (streamID pusherID : Z)
  | CClose (streamID : Z)
  | CAdjust (streamID : Z) (priority : PriorityParam)
  | CPush (wr : FrameWriteRequest)
  | CPop (fs : flows).

(** The scheduler after a call. *)
Definition run (c : call) (ws : scheduler) : fl scheduler :=
  match c with
  | COpen i j => OpenStream i j ws
  | CClose i => CloseStream i ws
  | CAdjust i p => AdjustStream i p ws
  | CPush wr => Push wr ws
  | CPop fs => '(_, _, ws, _) ← Pop Sort maxFrameSize ws fs; Ok ws
  end.

Definition state_of (ws : scheduler) (i : Z) : option priorityNodeState := p ← nodes ws !! i; fld state (nodes_heap ws) p.

(** The calls that violate the interface. *)
Definition violates (c : call) (ws : scheduler) : bool :=
  match c with
  | COpen i _ => bool_decide (state_of ws i ∉ [None; Some priorityNodeIdle])
  | CClose i => (i =? 0) || bool_decide (state_of ws i <> Some priorityNodeOpen)
  | CAdjust i _ => i =? 0
  | CPush wr => negb (StreamID wr =? 0) && bool_decide (state_of ws (StreamID wr) = None) && (0 <? DataSize wr)
  | CPop _ => false
  end.

Definition call_ok (c : call) (ws : scheduler) : Prop := match c with CPop fs => queues_ok (nodes_heap ws) fs | _ => True end.

Lemma state_of_node ws ch i p : inv ws ch -> nodes ws !! i = Some p -> exists st, state_of ws i = Some st /\ fld state (nodes_heap ws) p = Some st.
Proof.
  intros Hi E. destruct (get_some _ _ (inv_dom _ _ _ _ Hi E)) as (x & _ & Hx). exists (state x). unfold state_of. rewrite E. cbn.
  by rewrite (fld_get state _ _ _ Hx).
Qed.

Lemma state_of_none ws i : nodes ws !! i = None -> state_of ws i = None.
Proof. intros E. unfold state_of. by rewrite E. Qed.

(** A call that violates the interface panics. *)
Lemma run_panics c ws : scheduler_ok ws -> violates c ws = true -> run c ws = Panic.
Proof.
  intros [ch Hi]. destruct c as [i j|i|i p|wr|fs]; cbn [violates run]; [| | | |done].
  - intros Hv%bool_decide_eq_true. unfold OpenStream. destruct (nodes ws !! i) as [p|] eqn:E.
    + destruct (state_of_node _ _ _ _ Hi E) as (st & Hs & Hst). rewrite Hs in Hv.
      destruct (get_some _ _ (inv_dom _ _ _ _ Hi E)) as (x & Hg & Hx). rewrite Hg. cbn [mbind outcome_bind].
      rewrite (fld_get state _ _ _ Hx) in Hst. injection Hst as ->. rewrite bool_decide_false; [done|].
      intros ->. apply Hv. right. by left.
    + rewrite state_of_none in Hv by done. exfalso. apply Hv. by left.
  - unfold CloseStream. destruct (i =? 0); [done|]. cbn [orb]. intros Hv%bool_decide_eq_true.
    destruct (nodes ws !! i) as [p|] eqn:E; [|done].
    destruct (state_of_node _ _ _ _ Hi E) as (st & Hs & Hst). rewrite Hs in Hv.
    destruct (get_some _ _ (inv_dom _ _ _ _ Hi E)) as (x & Hg & Hx). rewrite Hg. cbn [mbind outcome_bind].
    rewrite (fld_get state _ _ _ Hx) in Hst. injection Hst as ->. rewrite bool_decide_false; [done|congruence].
  - intros Hv. unfold AdjustStream. by rewrite Hv.
  - intros [[Hv1 Hv2%bool_decide_eq_true]%andb_prop Hv3]%andb_prop. unfold Push. apply negb_true_iff in Hv1. rewrite Hv1.
    destruct (nodes ws !! StreamID wr) as [p|] eqn:E; [|by rewrite Hv3].
    destruct (state_of_node _ _ _ _ Hi E) as (st & Hs & _). congruence.
Qed.

(** Every other call returns and keeps the scheduler's invariant. *)
Lemma run_ok c ws : scheduler_ok ws -> call_ok c ws -> violates c ws = false -> exists ws', run c ws = Ok ws' /\ scheduler_ok ws'.
Proof.
  intros Hok. pose proof Hok as [ch Hi]. destruct c as [i j|i|i p|wr|fs]; cbn [violates run call_ok]; intros Hc Hv.
  - apply OpenStream_ok; [done|]. intros p E. destruct (state_of_node _ _ _ _ Hi E) as (st & Hs & Hst). rewrite Hst.
    apply bool_decide_eq_false in Hv. rewrite Hs in Hv. apply dec_stable in Hv.
    by apply elem_of_cons in Hv as [?|[= ->]%list_elem_of_singleton].
  - apply orb_false_elim in Hv as [Hi0 Hv%bool_decide_eq_false]. apply dec_stable in Hv. apply CloseStream_ok; [done|by apply Z.eqb_neq|].
    destruct (nodes ws !! i) as [p|] eqn:E; [|by rewrite state_of_none in Hv]. exists p. split; [done|].
    destruct (state_of_node _ _ _ _ Hi E) as (st & Hs & Hst). congruence.
  - apply AdjustStream_ok; [done|]. by apply Z.eqb_neq.
  - apply Push_ok; [done|]. intros Hn0%Z.eqb_neq Hd%Z.ltb_lt. rewrite Hn0, Hd, andb_true_r in Hv. cbn in Hv.
    apply bool_decide_eq_false in Hv. destruct (nodes ws !! StreamID wr) eqn:E; [done|]. by rewrite state_of_none in Hv.
  - destruct (Pop_spec ws fs Hok Hc) as (wr & ok & ws' & fs' & -> & Hok' & _). by exists ws'.
Qed.

(** The schedulers that calls reach. *)
Inductive reaches (cfg : option PriorityWriteSchedulerConfig) : scheduler -> Prop :=
  | reaches_new : reaches cfg (NewPriorityWriteScheduler cfg)
  | reaches_call c ws ws' : reaches cfg ws -> call_ok c ws -> run c ws = Ok ws' -> reaches cfg ws'.

Lemma reaches_ok cfg ws : reaches cfg ws -> scheduler_ok ws.
Proof.
  induction 1 as [|c ws ws' _ IH Hc Hr]; [apply inv_new|]. destruct (violates c ws) eqn:Hv.
  - by rewrite run_panics in Hr.
  - destruct (run_ok c ws IH Hc Hv) as (ws2 & Hr2 & Hok). congruence.
Qed.


End spec.

(** * Reprioritizing *)

(** C26. [AdjustStream] on a known stream gives the tree of section 5.3.3: its node
    depends on the given parent, which has first moved to the node's own old
    parent if it depended on the node; with the exclusive flag the parent's other
    kids depend on the node; every other node keeps its parent, and only this
    node's weight changes. A dependency on an unknown stream gives the defaults,
    one on itself nothing. No queue and no state changes. *)
Theorem AdjustStream_reprioritizes ws i n p (depends : positive -> bool) : scheduler_ok ws -> i <> 0 -> nodes ws !! i = Some n ->
  (forall par, nodes ws !! StreamDep p = Some par -> depends par = true <-> depends_on (nodes_heap ws) n par) ->
  let h := nodes_heap ws in
  let expected := reprioritized ws n p depends (fld parent h) (fld weight h) in
  exists h', AdjustStream i p ws = Ok (with_heap h' ws) /\
    (forall k, fld parent h' k = expected.1 k) /\ (forall k, fld weight h' k = expected.2 k) /\
    (forall k, fld state h' k = fld state h k) /\ (forall k, fld q h' k = fld q h k).
Proof.
  intros [ch Hi] Hi0 Hn Hdep h expected.
  destruct (reprioritize_spec ws ch n p depends Hi) as (h' & ch' & Hr & _ & Hp & Hw & Hs & Hq); [by eapply inv_not_root|by eapply inv_dom|done|].
  exists h'. split; [|done]. unfold AdjustStream. by rewrite (proj2 (Z.eqb_neq _ _) Hi0), Hn.
Qed.

(** * Runs, for concrete instances *)

Fixpoint runs_to (Sort : (positive -> positive -> bool) -> list positive -> list positive) (m : Z) (l : list call) (ws : scheduler) : fl scheduler :=
  match l with [] => Ok ws | c :: l => ws ← run Sort m c ws; runs_to Sort m l ws end.

Definition is_pop (c : call) : bool := match c with CPop _ => true | _ => false end.

Lemma runs_reaches Sort m cfg l : forallb (fun c => negb (is_pop c)) l = true -> forall ws ws', reaches Sort m cfg ws ->
  runs_to Sort m l ws = Ok ws' -> reaches Sort m cfg ws'.
Proof.
  induction l as [|c l IH]; intros Hl ws ws' Hr; cbn [runs_to]; [by intros [= <-]|].
  cbn in Hl. apply andb_prop in Hl as [Hc Hl]. destruct (run Sort m c ws) as [ws1| |] eqn:E; [|done|done]. cbn [mbind outcome_bind].
  apply IH; [done|]. eapply reaches_call; [exact Hr| |exact E]. by destruct c.
Qed.

Definition same_order (less : positive -> positive -> bool) (l : list positive) : list positive := l.

Lemma same_order_perm less l : same_order less l ≡ₚ l.
Proof. done. Qed.

(** A decidable form of [req_ok]. *)
Definition req_okb (fs : flows) (wr : FrameWriteRequest) : bool :=
  unlimited wr ||
  match req_stream wr with
  | Some s =>
      match fs !! st_flow s with
      | Some (mkFlow a (Some c)) =>
          match fs !! c with
          | Some (mkFlow b None) =>
              negb (bool_decide (st_flow s = c)) && bool_decide (window a) && bool_decide (window b)
          | _ => false
          end
      | _ => false
      end
  | None => false
  end.

Lemma req_okb_ok fs wr : req_okb fs wr = true -> req_ok fs wr.
Proof.
  unfold req_okb, req_ok. intros H Hu. rewrite Hu in H. cbn [orb] in H. destruct (req_stream wr) as [s|] eqn:Es; [|done].
  destruct (fs !! st_flow s) as [[a [c|]]|] eqn:Ea; try done. destruct (fs !! c) as [[b [|]]|] eqn:Eb; try done.
  apply andb_prop in H as [[H1 H2%bool_decide_eq_true]%andb_prop H3%bool_decide_eq_true].
  exists s, c, a, b. split_and!; [done|split_and!; [|done|done]|done|done]. intros E. by rewrite bool_decide_true in H1.
Qed.

Lemma queues_okb h fs : forallb (fun kx => forallb (req_okb fs) (q kx.2)) (map_to_list h) = true -> queues_ok h fs.
Proof.
  intros H k l. unfold fld. destruct (h !! k) as [x|] eqn:E; [|done]. intros [= <-].
  rewrite forallb_forall in H. apply elem_of_map_to_list in E. rewrite list_elem_of_In in E. apply H in E. cbn in E.
  apply Forall_forall. intros wr Hwr. apply req_okb_ok. rewrite forallb_forall in E. apply E. by apply list_elem_of_In.
Qed.

(** Stream 3 depends on stream 1, whose window is closed. *)
Definition demo_flows : flows :=
  list_to_map [(11, mkFlow 0 (Some 20)); (13, mkFlow 1000 (Some 20)); (20, mkFlow 5000 None)]%positive.
Definition demo_data (i : Z) (w : positive) : FrameWriteRequest :=
  mkReq (Some (writeData i (replicate 8 0) true)) (Some (mkStream i w)) None.
Definition demo_calls : list call :=
  [COpen 1 0; COpen 3 0; CAdjust 3 (mkPrio 1 false 10); CPush (demo_data 1 11); CPush (demo_data 3 13)].
Definition demo : scheduler :=
  match runs_to same_order 16384 demo_calls (NewPriorityWriteScheduler None) with Ok ws => ws | _ => NewPriorityWriteScheduler None end.

Lemma demo_reaches : reaches same_order 16384 None demo.
Proof. eapply (runs_reaches _ _ _ demo_calls); [done|apply reaches_new|]. vm_compute. reflexivity. Qed.

Lemma demo_ok : scheduler_ok demo.
Proof. eapply reaches_ok; [apply same_order_perm|apply demo_reaches]. Qed.

Lemma demo_queues : queues_ok (nodes_heap demo) demo_flows.
Proof. apply queues_okb. vm_compute. reflexivity. Qed.

(** Stream 3 is served, under the limit for frames below an open stream. *)
Lemma Pop_serves_witness :
  (exists ws fs, Pop same_order 16384 demo demo_flows = Ok (demo_data 3 13, true, ws, fs)) /\
  exists wr ok ws' fs', Pop same_order 16384 demo demo_flows = Ok (wr, ok, ws', fs') /\ same_parents (nodes_heap demo) (nodes_heap ws').
Proof.
  split.
  - eexists _, _. vm_compute. reflexivity.
  - destruct (Pop_serves same_order same_order_perm 16384 demo demo_flows demo_ok demo_queues) as (wr & ok & ws' & fs' & H1 & _ & H2 & _).
    exists wr, ok, ws', fs'. split; [exact H1|exact H2].
Defined.


(** Making stream 1 depend on stream 3, which depends on it. *)
Lemma AdjustStream_reprioritizes_witness :
  exists h', AdjustStream 1 (mkPrio 3 true 7) demo = Ok (with_heap h' demo) /\
    fld parent h' 2 = Some (Some 3%positive) /\ fld parent h' 3 = Some (Some root) /\ fld weight h' 2 = Some 7.
Proof.
  assert (H10 : 1 <> 0) by lia.
  assert (Hdep : forall par, nodes demo !! StreamDep (mkPrio 3 true 7) = Some par -> true = true <-> depends_on (nodes_heap demo) 2 par).
  { intros par Hpar. assert (par = 3%positive) as ->. { vm_compute in Hpar. congruence. }
    split; [|done]. intros _. exists [3; 2; 1]%positive. split; [|right; left].
    repeat (econstructor; [vm_compute; reflexivity|]). constructor. }
  assert (Hn : nodes demo !! 1 = Some 2%positive) by (vm_compute; reflexivity).
  destruct (AdjustStream_reprioritizes demo 1 2 (mkPrio 3 true 7) (fun _ => true) demo_ok H10 Hn Hdep) as (h' & Hr & Hp & Hw & _).
  exists h'. split; [exact Hr|]. rewrite !Hp, Hw. vm_compute. repeat split.
Defined.

(** * Where it falls short *)

(** Removing a node with several kids moves only the first one to its parent: the
    loop goes on with the siblings of the moved kid in its new list. The others
    keep a removed parent, and are no longer below the root. *)
Lemma removeNode_loses_kids ws ch n k0 k l : inv ws ch -> is_Some (nodes_heap ws !! n) -> n <> root -> ch n = k0 :: l -> k ∈ l ->
  exists ws', removeNode n ws = Ok ws' /\ fld parent (nodes_heap ws') k = Some (Some n) /\ ~ depends_on (nodes_heap ws') root k.
Proof.
  intros Hi Hn Hnr Hl Hk. destruct (removeNode_spec n ws ch Hi Hn Hnr) as (h' & ch' & i & Hr & _ & Hi' & Hpay & Hp).
  assert (Hkc : k ∈ ch n) by (rewrite Hl; by right). pose proof (t_forest _ _ (i_tree _ _ Hi)) as Hf.
  assert (Hkn : k <> n). { intros ->. apply (f_child _ _ Hf) in Hkc. by eapply parent_irrefl; [apply (t_acyclic _ _ (i_tree _ _ Hi))|]. }
  assert (Hk0 : k <> k0). { pose proof (f_nodup _ _ Hf n) as Hnd. rewrite Hl in Hnd. apply NoDup_cons in Hnd as [Hnd _]. by intros ->. }
  assert (Hkp : fld parent h' k = Some (Some n)).
  { rewrite Hp, decide_False by done. rewrite decide_False by (rewrite Hl; cbn; congruence). by apply (f_child _ _ Hf). }
  eexists. split; [exact Hr|]. cbn [with_nodes with_heap nodes_heap]. split; [done|]. intros (lk & Hu & Hin).
  assert (Hu2 : up h' (Some k) [k; n]).
  { econstructor; [done|]. econstructor; [|constructor]. rewrite Hp. by rewrite decide_True. }
  rewrite (up_det _ _ _ _ Hu Hu2) in Hin. apply elem_of_cons in Hin as [E|E%list_elem_of_singleton]; [|congruence].
  apply (f_child _ _ Hf) in Hkc. rewrite <- E, (i_root _ _ Hi) in Hkc. done.
Qed.

(** A frame queued there is never sent: stream 3's after its parent is gone. *)
Lemma lost_frame :
  let calls := [COpen 1 0; COpen 3 1; COpen 5 1; CPush (demo_data 3 13); CClose 1] in
  match runs_to same_order 16384 calls (NewPriorityWriteScheduler (Some (mkConfig 0 10 false))) with
  | Ok ws => state_of ws 3 = Some priorityNodeOpen /\
      match Pop same_order 16384 ws demo_flows with Ok (_, ok, _, _) => ok = false | _ => False end
  | _ => False
  end.
Proof. vm_compute. done. Qed.

(** An idle node stays in the list of idle nodes when its stream opens; evicting
    it removes the open stream, and closing that stream panics. *)
Lemma evicted_open_stream :
  let calls := [CAdjust 3 (mkPrio 0 false 1); COpen 3 0; CAdjust 5 (mkPrio 0 false 1)] in
  match runs_to same_order 16384 calls (NewPriorityWriteScheduler (Some (mkConfig 10 1 false))) with
  | Ok ws => state_of ws 3 = None /\ run same_order 16384 (CClose 3) ws = Panic
  | _ => False
  end.
Proof. vm_compute. done. Qed.

(** The largest weight counts as 0, not 256: [weight+1] is a [uint8]. *)
Lemma heaviest_goes_last :
  let calls := [COpen 1 0; COpen 3 0; CAdjust 1 (mkPrio 0 false 255); CAdjust 3 (mkPrio 0 false 0)] in
  match runs_to same_order 16384 calls (NewPriorityWriteScheduler None) with
  | Ok ws => Less (nodes_heap ws) 2 3 = false /\ Less (nodes_heap ws) 3 2 = true
  | _ => False
  end.
Proof. vm_compute. done. Qed.

(** [setParent] leaves [subtreeBytes] alone: after a move the field of the new
    parent is not the sum over its subtree. *)
Lemma subtreeBytes_not_sum :
  let calls := [COpen 1 0; COpen 3 0; CPush (demo_data 3 13); CPop demo_flows; CAdjust 3 (mkPrio 1 false 15)] in
  match runs_to same_order 16384 calls (NewPriorityWriteScheduler None) with
  | Ok ws => fld parent (nodes_heap ws) 3 = Some (Some 2%positive) /\ fld nbytes (nodes_heap ws) 3 = Some 8 /\
      fld subtreeBytes (nodes_heap ws) 2 = Some 0
  | _ => False
  end.
Proof. vm_compute. done. Qed.
