(* ===== verification/GoHeap.v ===== *)
(** The standard library's [container/heap] over its interface: what [Push] and
    [Remove] do to a binary heap. *)
From S2P Require Import Prelude.

(** [heap.Interface]; a call may panic. *)
Class Interface (S X : Type) := {
  Len : S -> Z;
  Less : Z -> Z -> S -> bool;
  Swap : Z -> Z -> S -> outcome Empty_set S;
  Push_ : X -> S -> outcome Empty_set S;
  Pop_ : S -> outcome Empty_set (X * S) }.

Section heap.
Context {S X : Type} `{!Interface S X}.

(** [up]: [(0-1)/2] is 0 in Go, as division truncates. *)
Fixpoint up (fuel : nat) (j : Z) (h : S) : outcome Empty_set S :=
  match fuel with
  | O => Panic
  | Datatypes.S fuel' =>
      let i := Z.quot (j - 1) 2 in
      if (i =? j) || negb (Less j i h) then Ok h else h ← Swap i j h; up fuel' i h
  end.

(** [down] from [i] with the first [n] elements: where it stops. *)
Fixpoint down (fuel : nat) (i n : Z) (h : S) : outcome Empty_set (Z * S) :=
  match fuel with
  | O => Panic
  | Datatypes.S fuel' =>
      let j1 := 2 * i + 1 in
      if n <=? j1 then Ok (i, h)
      else
        let j := if (j1 + 1 <? n) && Less (j1 + 1) j1 h then j1 + 1 else j1 in
        if negb (Less j i h) then Ok (i, h) else h ← Swap i j h; down fuel' j n h
  end.

Definition heap_Push (x : X) (h : S) : outcome Empty_set S :=
  h ← Push_ x h; up (Z.to_nat (Len h)) (Len h - 1) h.

Definition heap_Remove (i : Z) (h : S) : outcome Empty_set (X * S) :=
  let n := Len h - 1 in
  h ← (if negb (n =? i) then
         h ← Swap i n h;
         '(i', h) ← down (Z.to_nat (Len h)) i n h;
         if i <? i' then Ok h else up (Z.to_nat (Len h)) i h
       else Ok h);
  Pop_ h.
End heap.

(** * Heap order *)

(** [f] gives the key at each index; [par] an index's parent. *)
Definition par (i : Z) : Z := Z.quot (i - 1) 2.

Lemma par_bound i : 0 < i -> 0 <= par i < i /\ (i = 2 * par i + 1 \/ i = 2 * par i + 2).
Proof.
  intros Hi. unfold par. rewrite Z.quot_div_nonneg by lia. pose proof (Z.div_mod (i - 1) 2 ltac:(lia)).
  pose proof (Z.mod_pos_bound (i - 1) 2 ltac:(lia)). lia.
Qed.

Definition ordered (n : Z) (f : Z -> Z) : Prop := forall i, 0 < i < n -> f (par i) <= f i.

(** The order may fail between [j] and its parent, but not around [j]. *)
Definition ordered_up (n j : Z) (f : Z -> Z) : Prop :=
  (forall i, 0 < i < n -> i <> j -> f (par i) <= f i) /\
  (forall i, 0 < i < n -> par i = j -> 0 < j -> f (par j) <= f i).

(** The order may fail between [j] and its kids, but not around [j]. *)
Definition ordered_down (n j : Z) (f : Z -> Z) : Prop :=
  (forall i, 0 < i < n -> par i <> j -> f (par i) <= f i) /\
  (forall i, 0 < i < n -> par i = j -> 0 < j -> f (par j) <= f i).

(** The order may fail on both sides of [j]. *)
Definition ordered_but (n j : Z) (f : Z -> Z) : Prop :=
  (forall i, 0 < i < n -> i <> j -> par i <> j -> f (par i) <= f i) /\
  (forall i, 0 < i < n -> par i = j -> 0 < j -> f (par j) <= f i).

Definition swapped {A} (i j : Z) (f g : Z -> A) : Prop :=
  g i = f j /\ g j = f i /\ forall k, k <> i -> k <> j -> g k = f k.

(** The root's key is least. *)
Lemma ordered_root n f : ordered n f -> forall i, 0 <= i < n -> f 0 <= f i.
Proof.
  intros H i Hi. assert (Hw : forall m, 0 <= m -> forall i, 0 <= i < m -> i < n -> f 0 <= f i).
  { intros m Hm. revert m Hm. apply (natlike_ind (fun m => forall i, 0 <= i < m -> i < n -> f 0 <= f i)); [lia|].
    intros m Hm IH k Hk Hkn. destruct (decide (k = 0)) as [->|Hk0]; [lia|].
    pose proof (par_bound k ltac:(lia)) as [Hb _]. specialize (IH (par k) ltac:(lia) ltac:(lia)). specialize (H k ltac:(lia)). lia. }
  apply (Hw n); lia.
Qed.

Lemma ordered_up_done n j f : ordered_up n j f -> (0 < j < n -> f (par j) <= f j) -> ordered n f.
Proof. intros [H1 _] Hj i Hi. destruct (decide (i = j)) as [->|Hne]; [by apply Hj|by apply H1]. Qed.

(** Swapping [j] with its larger parent. *)
Lemma ordered_up_swap n j f g : ordered_up n j f -> 0 < j < n -> f j < f (par j) -> swapped (par j) j f g -> ordered_up n (par j) g.
Proof.
  intros [H1 H2] Hj Hlt (Gi & Gj & Gk). pose proof (par_bound j ltac:(lia)) as [Hb _]. split.
  - intros i Hi Hne. pose proof (par_bound i ltac:(lia)) as [Hbi _]. destruct (decide (i = j)) as [->|Hij].
    { rewrite Gi, Gj. lia. }
    rewrite (Gk i Hne Hij). destruct (decide (par i = j)) as [E|E]; [rewrite E, Gj; by apply H2; lia|].
    destruct (decide (par i = par j)) as [E2|E2].
    + rewrite E2, Gi. pose proof (H1 i Hi Hij) as H. rewrite E2 in H. lia.
    + rewrite (Gk (par i)) by done. by apply H1.
  - intros i Hi Hp Hj0. pose proof (par_bound i ltac:(lia)) as [Hbi _]. pose proof (par_bound (par j) Hj0) as [Hbp _].
    rewrite (Gk (par (par j))) by lia. pose proof (H1 (par j) ltac:(lia) ltac:(lia)) as Hpp.
    destruct (decide (i = j)) as [->|Hij]; [rewrite Gj; lia|]. rewrite (Gk i) by lia.
    pose proof (H1 i Hi Hij) as H. rewrite Hp in H. lia.
Qed.

Lemma ordered_down_done n j f : ordered_down n j f -> (forall i, 0 < i < n -> par i = j -> f j <= f i) -> ordered n f.
Proof. intros [H1 _] Hj i Hi. destruct (decide (par i = j)) as [E|Hne]; [rewrite E; by apply Hj|by apply H1]. Qed.

Lemma ordered_but_done n j f : ordered_but n j f -> (forall i, 0 < i < n -> par i = j -> f j <= f i) -> ordered_up n j f.
Proof.
  intros [H1 H2] Hj. split; [|done]. intros i Hi Hne. destruct (decide (par i = j)) as [E|Hp]; [rewrite E; by apply Hj|by apply H1].
Qed.

(** Swapping [j] with its least kid [c], whose key is smaller. *)
Lemma ordered_but_swap n j c f g : ordered_but n j f -> 0 <= j -> 0 < c < n -> par c = j -> f c < f j ->
  (forall i, 0 < i < n -> par i = j -> f c <= f i) -> swapped j c f g -> ordered_down n c g.
Proof.
  intros [H1 H2] Hj Hc Hpc Hlt Hleast (Gi & Gj & Gk). pose proof (par_bound c ltac:(lia)) as [Hb _]. split.
  - intros i Hi Hne. pose proof (par_bound i ltac:(lia)) as [Hbi _]. destruct (decide (i = c)) as [->|Hic].
    { rewrite Hpc, Gi, Gj. lia. }
    destruct (decide (par i = j)) as [E|E].
    { rewrite E, Gi, (Gk i) by lia. by apply Hleast. }
    rewrite (Gk (par i)) by done. destruct (decide (i = j)) as [->|Hij].
    + rewrite Gi. apply (H2 c Hc Hpc). lia.
    + rewrite (Gk i) by done. apply H1; done.
  - intros i Hi Hp Hc0. pose proof (par_bound i ltac:(lia)) as [Hbi _]. rewrite Hpc, Gi, (Gk i) by lia.
    rewrite <- Hp. apply H1; lia.
Qed.

Lemma ordered_down_but n j f : ordered_down n j f -> ordered_but n j f.
Proof. intros [H1 H2]. split; [|done]. intros i Hi _ Hp. by apply H1. Qed.

(** * Push and Remove, over an interface that keeps its promises *)

(** [key h i] is the key at index [i], [elt h i] the element; [kept] relates the
    states a [Swap] may lead to. *)
Class InterfaceLaws (S X : Type) `{!Interface S X} (key : S -> Z -> Z) (elt : S -> Z -> option X) (good : S -> Prop) (kept : S -> S -> Prop) := {
  law_Len h : 0 <= Len h;
  law_Less h i j : good h -> 0 <= i < Len h -> 0 <= j < Len h -> Less i j h = (key h i <? key h j);
  law_Swap h i j : good h -> 0 <= i < Len h -> 0 <= j < Len h -> i <> j ->
    exists h', Swap i j h = Ok h' /\ good h' /\ kept h h' /\ Len h' = Len h /\ swapped i j (key h) (key h') /\ swapped i j (elt h) (elt h');
  law_kept : PreOrder kept }.

Section laws.
Context {S X : Type} `{Laws : InterfaceLaws S X key elt good kept}.

(** A state that [Swap]s lead to. *)
Definition rearranged (h h' : S) : Prop := good h' /\ kept h h' /\ Len h' = Len h.

Lemma rearranged_refl h : good h -> rearranged h h.
Proof. intros H. split_and!; [done|apply law_kept|done]. Qed.

Lemma rearranged_trans a b c : rearranged a b -> rearranged b c -> rearranged a c.
Proof. intros (_ & H1 & L1) (G & H2 & L2). split_and!; [done|by eapply law_kept|by rewrite L2]. Qed.

(** [up] mends the order above [j]; elements from [n] on are out of it. *)
Lemma up_spec n fuel : forall j h, good h -> 0 <= j < n -> n <= Len h -> (Z.to_nat j < fuel)%nat -> ordered_up n j (key h) ->
  exists h', up fuel j h = Ok h' /\ rearranged h h' /\ ordered n (key h') /\ forall k, n <= k -> elt h' k = elt h k.
Proof.
  induction fuel as [|fuel IH]; intros j h Hg Hj Hn Hf Ho; [lia|]. cbn [up]. fold (par j).
  destruct (decide (j = 0)) as [->|Hj0].
  { exists h. split_and!; [done|by apply rearranged_refl|apply (ordered_up_done _ _ _ Ho); lia|done]. }
  pose proof (par_bound j ltac:(lia)) as [Hb _]. rewrite (proj2 (Z.eqb_neq _ _)) by lia. cbn [orb].
  rewrite law_Less by (done || lia). destruct (Z.ltb_spec (key h j) (key h (par j))) as [Hlt|Hle]; cbn [negb].
  - destruct (law_Swap h (par j) j Hg) as (h1 & -> & Hg1 & Hk1 & Hl1 & Hs & He); [lia..|]. cbn [mbind outcome_bind].
    destruct (IH (par j) h1) as (h' & Hr & Hre & Ho' & Hsame); [done|lia|lia|lia|by eapply ordered_up_swap; [done|lia|..]|].
    exists h'. split_and!; [done| |done|].
    + eapply rearranged_trans; [|done]. by split_and!.
    + intros k Hk. rewrite Hsame by done. apply He; lia.
  - exists h. split_and!; [done|by apply rearranged_refl|by apply (ordered_up_done _ _ _ Ho)|done].
Qed.

(** One step of [down] from [i]: the order below [i] is mended, or the swap moves
    the defect to a kid. *)
Lemma down_spec n fuel : forall i h, good h -> 0 <= i < n -> n <= Len h -> (Z.to_nat (n - i) <= fuel)%nat -> ordered_but n i (key h) ->
  exists i' h', down fuel i n h = Ok (i', h') /\ rearranged h h' /\ i <= i' /\
    (if i <? i' then ordered n (key h') else h' = h /\ ordered_up n i (key h)) /\ forall k, n <= k -> elt h' k = elt h k.
Proof.
  induction fuel as [|fuel IH]; intros i h Hg Hi Hn Hf Ho; [lia|]. cbn [down]. set (j1 := 2 * i + 1).
  assert (Hkid : forall k, 0 < k < n -> par k = i -> k = j1 \/ k = j1 + 1).
  { intros k Hk E. pose proof (par_bound k ltac:(lia)). unfold j1. lia. }
  assert (Hstop : (forall k, 0 < k < n -> par k = i -> key h i <= key h k) ->
    exists i' h', Ok (i, h) = Ok (E := Empty_set) (i', h') /\ rearranged h h' /\ i <= i' /\
    (if i <? i' then ordered n (key h') else h' = h /\ ordered_up n i (key h)) /\ forall k, n <= k -> elt h' k = elt h k).
  { intros Hk. exists i, h. rewrite Z.ltb_irrefl. split_and!; [done|by apply rearranged_refl|lia|done|by apply ordered_but_done|done]. }
  destruct (Z.leb_spec n j1) as [Hle|Hlt]; [apply Hstop; intros k Hk [->| ->]%Hkid; lia|].
  set (j := if _ && _ then j1 + 1 else j1).
  assert (Hj : j1 <= j < n /\ par j = i /\ forall k, 0 < k < n -> par k = i -> key h j <= key h k).
  { assert (Hp1 : par j1 = i) by (unfold par, j1; rewrite Z.quot_div_nonneg by lia; Z.div_mod_to_equations; lia).
    assert (Hp2 : par (j1 + 1) = i) by (unfold par, j1; rewrite Z.quot_div_nonneg by lia; Z.div_mod_to_equations; lia).
    unfold j. destruct (Z.ltb_spec (j1 + 1) n) as [H2|H2]; cbn [andb].
    - rewrite law_Less by (done || lia). destruct (Z.ltb_spec (key h (j1 + 1)) (key h j1)); split_and!; try done; try lia;
        intros k Hk [->| ->]%Hkid; lia.
    - split_and!; [lia|lia|done|]. intros k Hk [->| ->]%Hkid; lia. }
  clearbody j. destruct Hj as (Hjb & Hpj & Hleast). rewrite law_Less by (done || lia).
  destruct (Z.ltb_spec (key h j) (key h i)) as [Hlt2|Hle]; cbn [negb].
  - destruct (law_Swap h i j Hg) as (h1 & -> & Hg1 & Hk1 & Hl1 & Hs & He); [lia..|]. cbn [mbind outcome_bind].
    assert (Ho1 : ordered_down n j (key h1)) by (eapply ordered_but_swap; [exact Ho|lia|lia|done|done|done|done]).
    destruct (IH j h1) as (i' & h' & -> & Hre & Hij & Hres & Hsame); [done|lia|lia|lia|by apply ordered_down_but|].
    exists i', h'. rewrite (proj2 (Z.ltb_lt i i')) by lia. split_and!; [done| |lia| |].
    + eapply rearranged_trans; [|done]. by split_and!.
    + destruct (Z.ltb_spec j i'); [done|]. destruct Hres as [-> [Hres1 _]]. intros k Hk.
      destruct (decide (k = j)) as [->|Hkj]; [|by apply Hres1]. apply (proj1 Ho1); lia.
    + intros k Hk. rewrite Hsame by done. apply He; lia.
  - apply Hstop. intros k Hk E. specialize (Hleast k Hk E). lia.
Qed.

(** [Push] adds an element and mends the order. *)
Lemma heap_Push_spec x h h1 : Push_ x h = Ok h1 -> good h1 -> Len h1 = Len h + 1 -> (forall k, k < Len h -> key h1 k = key h k) ->
  ordered (Len h) (key h) -> exists h', heap_Push x h = Ok h' /\ rearranged h1 h' /\ ordered (Len h') (key h').
Proof.
  intros Hp Hg Hl Hk Ho. unfold heap_Push. rewrite Hp. cbn [mbind outcome_bind]. pose proof (law_Len h) as Hl0.
  destruct (up_spec (Len h1) (Z.to_nat (Len h1)) (Len h1 - 1) h1) as (h' & Hr & Hre & Ho' & _); [done|lia|lia|lia| |].
  - split.
    + intros i Hi Hne. pose proof (par_bound i ltac:(lia)). rewrite !Hk by lia. apply Ho. lia.
    + intros i Hi Hpi. pose proof (par_bound i ltac:(lia)). lia.
  - exists h'. split_and!; [done|done|]. destruct Hre as (_ & _ & ->). done.
Qed.

(** [Remove] leaves an ordered heap with the element of index [i] last, for
    [Pop_] to take off. *)
Lemma heap_Remove_spec i h : good h -> 0 <= i < Len h -> ordered (Len h) (key h) ->
  exists h', heap_Remove i h = Pop_ h' /\ rearranged h h' /\ ordered (Len h - 1) (key h') /\
    elt h' (Len h - 1) = elt h i.
Proof.
  intros Hg Hi Ho. unfold heap_Remove. set (n := Len h - 1).
  destruct (Z.eqb_spec n i) as [<-|Hne]; cbn [negb mbind outcome_bind].
  { exists h. split_and!; [done|by apply rearranged_refl| |done]. intros k Hk. apply Ho. lia. }
  destruct (law_Swap h i n Hg) as (h1 & Hs1 & Hg1 & Hk1 & Hl1 & Hs & He); [lia..|]. rewrite Hs1. cbn [mbind outcome_bind].
  assert (Ho1 : ordered_but n i (key h1)).
  { destruct Hs as (_ & _ & Gk). split.
    - intros k Hk Hki Hkp. pose proof (par_bound k ltac:(lia)). rewrite !Gk by lia. apply Ho. lia.
    - intros k Hk Hkp Hi0. pose proof (par_bound k ltac:(lia)). pose proof (par_bound i ltac:(lia)). rewrite !Gk by lia.
      pose proof (Ho k ltac:(lia)) as H1. pose proof (Ho i ltac:(lia)) as H2. rewrite Hkp in H1. lia. }
  assert (Hre1 : rearranged h h1) by by split_and!.
  destruct (down_spec n (Z.to_nat (Len h1)) i h1) as (i' & h2 & -> & Hre & Hii & Hres & Hsame); [done|lia|lia|lia|done|].
  cbn [mbind outcome_bind]. destruct (Z.ltb_spec i i').
  - cbn [mbind outcome_bind]. exists h2. split_and!; [done|by eapply rearranged_trans|done|]. rewrite Hsame by lia. apply He.
  - destruct Hres as [-> Hou]. destruct (up_spec n (Z.to_nat (Len h1)) i h1) as (h' & -> & Hre' & Ho' & Hsame'); [done|lia|lia|lia|done|].
    cbn [mbind outcome_bind]. exists h'. split_and!; [done|by eapply rearranged_trans|done|]. rewrite Hsame' by lia. apply He.
Qed.
End laws.
