(* ===== verification/WebdavPath.v ===== *)
(** The resource names of the WebDAV lock system: [slashClean] of
    [webdav/file.go] and [walkToRoot] of [webdav/lock.go]. *)
From S2P Require Import Prelude.

Definition slash : Z := 47.

(** * Names *)

(** [strings.Split(s, "/")]. *)
Fixpoint split_slash (s : bytes) : list bytes :=
  match s with
  | [] => [[]]
  | b :: s =>
      if b =? slash then [] :: split_slash s
      else match split_slash s with [] => [[b]] | e :: l => (b :: e) :: l end
  end.

(** The path with the given elements. *)
Definition path_of (l : list bytes) : bytes :=
  match l with [] => [slash] | _ => (l ≫= (fun e => slash :: e)) end.

(** [path.Clean] of a rooted path: no empty element, no [.], and [..] takes the
    element before it away, if there is one. [acc] are the elements so far, the
    last one first. *)
Definition clean_elem (acc : list bytes) (e : bytes) : list bytes :=
  if decide (e = [] \/ e = str ".") then acc else if decide (e = str "..") then tail acc else e :: acc.
Definition path_Clean (name : bytes) : bytes := path_of (reverse (foldl clean_elem [] (split_slash name))).

Definition slashClean (name : bytes) : bytes :=
  let name := match name with b :: _ => if b =? slash then name else slash :: name | [] => slash :: name end in path_Clean name.

(** [strings.HasPrefix]. *)
Definition HasPrefix (s pre : bytes) : bool := bool_decide (pre `prefix_of` s).

(** [strings.LastIndex] for a single byte. *)
Fixpoint LastIndex_from (i : Z) (s : bytes) (c r : Z) : Z :=
  match s with [] => r | b :: s => LastIndex_from (i + 1) s c (if b =? c then i else r) end.
Definition LastIndex (s : bytes) (c : Z) : Z := LastIndex_from 0 s c (-1).

Section walk.
Context {S : Type}.
Variable f : bytes -> bool -> S -> outcome Empty_set (bool * S).

(** One round per element of the name. *)
Fixpoint walk_loop (fuel : nat) (name : bytes) (first : bool) (s : S) : outcome Empty_set (bool * S) :=
  match fuel with
  | O => Panic
  | Datatypes.S fuel' =>
      '(b, s) ← f name first s;
      if negb (b : bool) then Ok (false, s)
      else if decide (name = [slash]) then Ok (true, s)
      else
        let i := LastIndex name slash in
        if i <? 0 then Panic
        else
          let name := upto i name in
          walk_loop fuel' (if decide (name = []) then [slash] else name) false s
  end.
Definition walkToRoot (name : bytes) (s : S) : outcome Empty_set (bool * S) :=
  walk_loop (Datatypes.S (length name)) name true s.
End walk.

(** * Canonical names *)

Definition elem_ok (e : bytes) : Prop := e <> [] /\ (slash ∉ e) /\ e <> str "." /\ e <> str "..".
Definition elems_ok (l : list bytes) : Prop := Forall elem_ok l.

Lemma split_slash_elems s e : e ∈ split_slash s -> slash ∉ e.
Proof.
  revert e. induction s as [|b s IH]; intros e; cbn [split_slash].
  - intros ->%list_elem_of_singleton. apply not_elem_of_nil.
  - destruct (Z.eqb_spec b slash) as [->|Hb].
    + intros [->|He]%elem_of_cons; [apply not_elem_of_nil|by apply IH].
    + destruct (split_slash s) as [|e0 l].
      * intros ->%list_elem_of_singleton. by intros ?%list_elem_of_singleton.
      * intros [->|He]%elem_of_cons; [|apply IH; by right]. apply not_elem_of_cons. split; [done|]. apply IH. by left.
Qed.

Lemma clean_elems_ok l : forall acc, elems_ok acc -> (forall e, e ∈ l -> slash ∉ e) -> elems_ok (foldl clean_elem acc l).
Proof.
  induction l as [|e l IH]; intros acc Ha Hl; [done|]. cbn [foldl]. apply IH; [|intros x Hx; apply Hl; by right].
  unfold clean_elem. case_decide as E1; [done|]. case_decide as E2; [by apply Forall_tail|].
  constructor; [|done]. split_and!; [tauto|apply Hl; by left|tauto|done].
Qed.

Lemma slashClean_canonical name : exists l, elems_ok l /\ slashClean name = path_of l.
Proof.
  unfold slashClean, path_Clean. set (n := match name with [] => _ | _ => _ end).
  exists (reverse (foldl clean_elem [] (split_slash n))). split; [|done]. apply Forall_reverse.
  apply clean_elems_ok; [constructor|]. apply split_slash_elems.
Qed.

(** The elements of a canonical name come back. *)
Lemma split_slash_app e l : slash ∉ e -> split_slash (e ++ slash :: l) = e :: split_slash l.
Proof.
  induction e as [|b e IH]; intros He; [done|]. apply not_elem_of_cons in He as [Hb He]. cbn [app split_slash].
  rewrite (proj2 (Z.eqb_neq b slash)) by done. by rewrite IH.
Qed.

Lemma split_slash_last e : slash ∉ e -> split_slash e = [e].
Proof.
  induction e as [|b e IH]; intros He; [done|]. apply not_elem_of_cons in He as [Hb He]. cbn [split_slash].
  rewrite (proj2 (Z.eqb_neq b slash)) by done. by rewrite IH.
Qed.

Lemma split_path_of l : elems_ok l -> l <> [] -> split_slash (path_of l) = [] :: l.
Proof.
  intros Hl Hne. assert (E : path_of l = l ≫= (fun e => slash :: e)) by by destruct l. rewrite E. clear E.
  induction Hl as [|e l (_ & He & _) Hl IH]; [done|]. cbn [mbind list_bind app split_slash]. rewrite Z.eqb_refl. f_equal.
  destruct l as [|e2 l]; [by rewrite app_nil_r, split_slash_last|].
  change ((e2 :: l) ≫= (fun e => slash :: e)) with (slash :: (e2 ++ (l ≫= fun e => slash :: e))) in *.
  rewrite split_slash_app by done. f_equal.
  specialize (IH ltac:(done)). cbn [split_slash] in IH. rewrite Z.eqb_refl in IH. by injection IH.
Qed.

Lemma clean_ok_id l : forall acc, elems_ok l -> foldl clean_elem acc l = reverse l ++ acc.
Proof.
  induction l as [|e l IH]; intros acc Hl; [done|]. apply Forall_cons in Hl as [(H1 & _ & H2 & H3) Hl]. cbn [foldl].
  rewrite IH by done. unfold clean_elem. rewrite decide_False by tauto. rewrite decide_False by done.
  by rewrite reverse_cons, <- app_assoc.
Qed.

(** A canonical name is clean. *)
Lemma slashClean_path_of l : elems_ok l -> slashClean (path_of l) = path_of l.
Proof.
  intros Hl. destruct l as [|e l]; [done|]. unfold slashClean. cbn [path_of mbind list_bind app]. rewrite Z.eqb_refl. unfold path_Clean.
  change (slash :: e ++ (l ≫= fun e => slash :: e)) with (path_of (e :: l)). rewrite split_path_of by done.
  change (foldl clean_elem [] ([] :: e :: l)) with (foldl clean_elem [] (e :: l)). rewrite clean_ok_id by done.
  by rewrite app_nil_r, reverse_involutive.
Qed.

Lemma path_of_inj l1 l2 : elems_ok l1 -> elems_ok l2 -> path_of l1 = path_of l2 -> l1 = l2.
Proof.
  intros H1 H2 E. assert (Hroot : forall l, elems_ok l -> path_of l = [slash] -> l = []).
  { intros [|e l] Hl El; [done|]. apply Forall_cons in Hl as [(Hne & _) _]. cbn in El. injection El as El.
    apply app_nil in El as [-> _]. done. }
  destruct (decide (l1 = [])) as [->|N1]; [symmetry; by apply Hroot|]. destruct (decide (l2 = [])) as [->|N2]; [by apply Hroot|].
  apply (f_equal split_slash) in E. rewrite !split_path_of in E by done. congruence.
Qed.

(** * Walking to the root *)

(** The prefixes of a list, the longest first. *)
Fixpoint rev_prefixes (r : list bytes) : list (list bytes) :=
  match r with [] => [[]] | e :: r' => reverse (e :: r') :: rev_prefixes r' end.
Definition prefixes (l : list bytes) : list (list bytes) := rev_prefixes (reverse l).

Lemma prefixes_snoc l e : prefixes (l ++ [e]) = (l ++ [e]) :: prefixes l.
Proof. unfold prefixes. rewrite reverse_snoc. cbn [rev_prefixes]. by rewrite reverse_cons, reverse_involutive. Qed.

Lemma prefixes_spec p l : p ∈ prefixes l <-> p `prefix_of` l.
Proof.
  induction l as [|e l IH] using rev_ind.
  - unfold prefixes. cbn. rewrite list_elem_of_singleton. split; [by intros ->|]. by intros ->%prefix_nil_inv.
  - rewrite prefixes_snoc, elem_of_cons, IH. split.
    + intros [->|H]; [done|]. by apply prefix_app_r.
    + intros [k Hk]. destruct k as [|x k _] using rev_ind; [left; by rewrite app_nil_r in Hk|].
      rewrite app_assoc in Hk. apply app_inj_tail in Hk as [-> _]. right. by exists k.
Qed.

Lemma prefixes_NoDup l : NoDup (prefixes l).
Proof.
  induction l as [|e l IH] using rev_ind; [apply NoDup_singleton|]. rewrite prefixes_snoc. constructor; [|done].
  rewrite prefixes_spec. intros H%prefix_length. rewrite length_app in H. cbn in H. lia.
Qed.

Lemma LastIndex_from_app c s2 : forall s1 i r, LastIndex_from i (s1 ++ s2) c r = LastIndex_from (i + len s1) s2 c (LastIndex_from i s1 c r).
Proof.
  induction s1 as [|b s1 IH]; intros i r; cbn [app LastIndex_from]; [by rewrite Z.add_0_r|].
  rewrite IH, len_cons. f_equal. lia.
Qed.

Lemma LastIndex_from_none c s : forall i r, c ∉ s -> LastIndex_from i s c r = r.
Proof.
  induction s as [|b s IH]; intros i r H; [done|]. apply not_elem_of_cons in H as [Hb H]. cbn [LastIndex_from].
  rewrite (proj2 (Z.eqb_neq b c)) by congruence. by apply IH.
Qed.

Lemma LastIndex_last s e c : c ∉ e -> LastIndex (s ++ c :: e) c = len s.
Proof.
  intros He. unfold LastIndex. rewrite LastIndex_from_app. cbn [LastIndex_from]. rewrite Z.eqb_refl. rewrite LastIndex_from_none by done. lia.
Qed.

(** Cutting the last element off a canonical name. *)
Lemma path_of_cut l e : elem_ok e -> let name := path_of (l ++ [e]) in
  name <> [slash] /\ 0 <= LastIndex name slash /\ (length (path_of l) < length name)%nat /\
  (if decide (upto (LastIndex name slash) name = []) then [slash] else upto (LastIndex name slash) name) = path_of l.
Proof.
  intros (He & Hs & _) name. set (b := l ≫= (fun e => slash :: e)).
  assert (E : name = b ++ slash :: e).
  { unfold name. assert (E : path_of (l ++ [e]) = (l ++ [e]) ≫= (fun e => slash :: e)) by by destruct l.
    rewrite E, bind_app. cbn. by rewrite app_nil_r. }
  rewrite E, LastIndex_last, upto_app_len by done. assert (Hb : path_of l = if decide (b = []) then [slash] else b).
  { unfold b. by destruct l. }
  assert (He0 : (0 < length e)%nat) by (destruct e; [done|cbn; lia]).
  split_and!; [|apply len_nonneg| |done].
  - intros H. apply (f_equal length) in H. rewrite length_app in H. cbn in H. lia.
  - rewrite Hb, length_app. cbn [length]. case_decide as Eb; [rewrite Eb; cbn; lia|lia].
Qed.

Section walk_spec.
Context {S : Type}.
Variable f : bytes -> bool -> S -> outcome Empty_set (bool * S).

(** [f] on a list of names, until it returns false. *)
Fixpoint walk_list (l : list (list bytes)) (first : bool) (s : S) : outcome Empty_set (bool * S) :=
  match l with
  | [] => Ok (true, s)
  | p :: l => '(b, s) ← f (path_of p) first s; if negb (b : bool) then Ok (false, s) else walk_list l false s
  end.

(** [walkToRoot] calls [f] on the name and its ancestors up to the root. *)
Lemma walkToRoot_spec l s : elems_ok l -> walkToRoot f (path_of l) s = walk_list (prefixes l) true s.
Proof.
  unfold walkToRoot. assert (H : forall fuel l first s, elems_ok l -> (length (path_of l) < fuel)%nat ->
    walk_loop f fuel (path_of l) first s = walk_list (prefixes l) first s).
  2:{ intros Hl. apply H; [done|lia]. }
  clear. induction fuel as [|fuel IH]; intros l first s Hl Hf; [lia|].
  destruct l as [|e l _] using rev_ind.
  - cbn. destruct (f _ _ _) as [[[] s']| |]; done.
  - rewrite prefixes_snoc. cbn [walk_list walk_loop]. apply Forall_app in Hl as [Hl He]. apply Forall_cons in He as [He _].
    destruct (path_of_cut l e He) as (H1 & H2 & H3 & H4).
    destruct (f _ _ _) as [[b s']| |]; [|done|done]. cbn [mbind outcome_bind]. destruct b; [|done]. cbn [negb].
    rewrite decide_False by done. rewrite (proj2 (Z.ltb_ge _ _) H2). rewrite H4. apply IH; [done|lia].
Qed.
End walk_spec.

(** * Ancestors *)

(** A lock covers its root, and everything below if it has infinite depth. *)
Lemma HasPrefix_path l r : elems_ok l -> elems_ok r -> r <> [] -> HasPrefix (path_of l) (path_of r ++ [slash]) = true <-> r `prefix_of` l /\ l <> r.
Proof.
  intros Hl Hr Hne. unfold HasPrefix. rewrite bool_decide_eq_true. assert (Er : path_of r = r ≫= (fun e => slash :: e)) by by destruct r.
  rewrite Er. split.
  - intros [k Hk]. destruct (decide (l = [])) as [->|Hnl].
    { destruct r as [|e r]; [done|]. cbn in Hk. injection Hk as Hk. apply Forall_cons in Hr as [(He & _) _].
      apply (f_equal length) in Hk. rewrite !length_app in Hk. cbn in Hk. lia. }
    assert (El : path_of l = l ≫= (fun e => slash :: e)) by by destruct l. rewrite El in Hk. clear Er El.
    assert (H : forall r l k, elems_ok r -> elems_ok l -> l ≫= (fun e => slash :: e) = ((r ≫= (fun e => slash :: e)) ++ [slash]) ++ k -> r `prefix_of` l /\ l <> r).
    2:{ by eapply H. }
    clear. induction r as [|e r IH]; intros l k Hr Hl Hk.
    + split; [apply prefix_nil|]. by intros ->.
    + apply Forall_cons in Hr as [(He1 & He2 & _) Hr]. destruct l as [|e' l]; [done|]. apply Forall_cons in Hl as [(He1' & He2' & _) Hl].
      cbn in Hk. injection Hk as Hk. rewrite <- !app_assoc in Hk.
      assert (Hsp : e' = e /\ l ≫= (fun e => slash :: e) = ((r ≫= (fun e => slash :: e)) ++ [slash]) ++ k).
      { assert (Hh : forall (a b c d : bytes), slash ∉ a -> slash ∉ b -> (c = [] \/ head c = Some slash) -> (head d = Some slash) -> a ++ c = b ++ d -> a = b /\ c = d).
        { clear. induction a as [|x a IH]; intros [|y b] c d Ha Hb Hc Hd E; cbn in E.
          - done.
          - subst c. destruct Hc as [?|[= ->]]; [done|]. apply not_elem_of_cons in Hb as [? _]. done.
          - subst d. cbn in Hd. injection Hd as ->. apply not_elem_of_cons in Ha as [? _]. done.
          - injection E as -> E. apply not_elem_of_cons in Ha as [_ Ha], Hb as [_ Hb]. destruct (IH b c d Ha Hb Hc Hd E) as [-> ->]. done. }
        rewrite <- app_assoc. apply Hh; [done|done| | |exact Hk]; [destruct l; [by left|by right]|by destruct r]. }
      destruct Hsp as [-> Hsp]. destruct (IH l k Hr Hl Hsp) as [Hp Hn]. split; [by apply prefix_cons|congruence].
  - intros [[k ->] Hn]. destruct k as [|e k]; [by rewrite app_nil_r in Hn|].
    assert (El : path_of (r ++ e :: k) = (r ++ e :: k) ≫= (fun e => slash :: e)) by by destruct r.
    rewrite El, bind_app. apply prefix_app. cbn. by apply (prefix_app_r [slash] [slash]).
Qed.
