(* ===== verification/WebdavLock.v ===== *)
(** The in-memory lock system, [webdav/lock.go]: nodes by name and by token, and a
    heap of those that expire. *)
From S2P Require Import Prelude GoHeap WebdavPath.

(** * Data *)

Inductive ls_error := ErrConfirmationFailed | ErrForbidden | ErrLocked | ErrNoSuchLock.

#[global] Instance ls_error_eq_dec : EqDecision ls_error.
Proof. solve_decision. Defined.

Record Condition := mkCondition { Not : bool; Token : bytes; ETag : bytes }.

(** A duration and a time are numbers of nanoseconds; a negative duration is
    infinite. *)
Record LockDetails := mkDetails { Root : bytes; Duration : Z; OwnerXML : bytes; ZeroDepth : bool }.

Record memLSNode := mkNode {
  details : LockDetails; token : bytes; refCount : Z; expiry : Z; byExpiryIndex : Z; held : bool }.

(** A pointer to a node; [None] is nil. *)
Abbreviation ptr := (option positive).

(** [store] holds the nodes, [fresh] is the next pointer. *)
Record memLS := mkLS {
  store : gmap positive memLSNode; fresh : positive;
  byName : gmap bytes positive; byToken : gmap bytes positive; gen : Z; byExpiry : list positive }.

Abbreviation fl A := (outcome Empty_set A).

Definition set_details v n := mkNode v (token n) (refCount n) (expiry n) (byExpiryIndex n) (held n).
Definition set_token v n := mkNode (details n) v (refCount n) (expiry n) (byExpiryIndex n) (held n).
Definition set_refCount v n := mkNode (details n) (token n) v (expiry n) (byExpiryIndex n) (held n).
Definition set_expiry v n := mkNode (details n) (token n) (refCount n) v (byExpiryIndex n) (held n).
Definition set_index v n := mkNode (details n) (token n) (refCount n) (expiry n) v (held n).
Definition set_held v n := mkNode (details n) (token n) (refCount n) (expiry n) (byExpiryIndex n) v.

Definition with_store s m := mkLS s (fresh m) (byName m) (byToken m) (gen m) (byExpiry m).
Definition with_byName v m := mkLS (store m) (fresh m) v (byToken m) (gen m) (byExpiry m).
Definition with_byToken v m := mkLS (store m) (fresh m) (byName m) v (gen m) (byExpiry m).
Definition with_gen v m := mkLS (store m) (fresh m) (byName m) (byToken m) v (byExpiry m).
Definition with_byExpiry v m := mkLS (store m) (fresh m) (byName m) (byToken m) (gen m) v.

Definition deref (p : positive) (m : memLS) : fl memLSNode := or_panic (store m !! p).
Definition update (p : positive) (f : memLSNode -> memLSNode) (m : memLS) : fl memLS :=
  x ← deref p m; Ok (with_store (<[p := f x]> (store m)) m).

(** * The heap of expiring nodes *)

Definition byExpiry_Less (i j : Z) (m : memLS) : bool :=
  match at_ (byExpiry m) i ≫= (store m !!.), at_ (byExpiry m) j ≫= (store m !!.) with
  | Some a, Some b => expiry a <? expiry b
  | _, _ => false
  end.

Definition byExpiry_Swap (i j : Z) (m : memLS) : fl memLS :=
  bi ← or_panic (at_ (byExpiry m) i);
  bj ← or_panic (at_ (byExpiry m) j);
  let m := with_byExpiry (<[Z.to_nat j := bi]> (<[Z.to_nat i := bj]> (byExpiry m))) m in
  p ← or_panic (at_ (byExpiry m) i);
  m ← update p (set_index i) m;
  p ← or_panic (at_ (byExpiry m) j);
  update p (set_index j) m.

Definition byExpiry_Push (n : positive) (m : memLS) : fl memLS :=
  m ← update n (set_index (len (byExpiry m))) m; Ok (with_byExpiry (byExpiry m ++ [n]) m).

Definition byExpiry_Pop (m : memLS) : fl (positive * memLS) :=
  let i := len (byExpiry m) - 1 in
  n ← or_panic (at_ (byExpiry m) i);
  m ← update n (set_index (-1)) m;
  Ok (n, with_byExpiry (upto i (byExpiry m)) m).

#[global] Instance byExpiry_Interface : Interface memLS positive := {|
  Len := fun m => len (byExpiry m); Less := byExpiry_Less; Swap := byExpiry_Swap;
  Push_ := byExpiry_Push; Pop_ := byExpiry_Pop |}.

(** * Tokens *)

(** [strconv.FormatUint(z, 10)]; twenty digits hold any [uint64]. *)
Fixpoint digits (fuel : nat) (z : Z) (acc : bytes) : bytes :=
  match fuel with
  | O => acc
  | S fuel' => if z <? 10 then (48 + z) :: acc else digits fuel' (z / 10) ((48 + z mod 10) :: acc)
  end.
Definition FormatUint (z : Z) : bytes := digits 20 z [].

(** [NewMemLS] at the Unix time [unix]. *)
Definition NewMemLS (unix : Z) : memLS := mkLS ∅ 1 ∅ ∅ (u64 unix) [].

Definition nextToken (m : memLS) : bytes * memLS :=
  let m := with_gen (u64 (gen m + 1)) m in (FormatUint (gen m), m).

(** * Operations *)

Definition remove (n : positive) (m : memLS) : fl memLS :=
  x ← deref n m;
  let m := with_byToken (delete (token x) (byToken m)) m in
  m ← update n (set_token []) m;
  '(_, m) ← walkToRoot (fun name0 first m =>
    p ← or_panic (byName m !! name0);
    m ← update p (fun x => set_refCount (refCount x - 1) x) m;
    x ← deref p m;
    Ok (true, if refCount x =? 0 then with_byName (delete name0 (byName m)) m else m)) (Root (details x)) m;
  x ← deref n m;
  if 0 <=? byExpiryIndex x then '(_, m) ← heap_Remove (byExpiryIndex x) m; Ok m else Ok m.

(** [collectExpiredNodes]; every round removes a node from the heap. *)
Fixpoint collect_loop (fuel : nat) (now : Z) (m : memLS) : fl memLS :=
  match byExpiry m with
  | [] => Ok m
  | n :: _ =>
      match fuel with
      | O => Panic
      | S fuel' =>
          x ← deref n m;
          if now <? expiry x then Ok m else m ← remove n m; collect_loop fuel' now m
      end
  end.
Definition collectExpiredNodes (now : Z) (m : memLS) : fl memLS := collect_loop (length (byExpiry m)) now m.

Fixpoint lookup_lock (name : bytes) (conditions : list Condition) (m : memLS) : fl ptr :=
  match conditions with
  | [] => Ok None
  | c :: conditions =>
      match byToken m !! Token c with
      | None => lookup_lock name conditions m
      | Some n =>
          x ← deref n m;
          if held x then lookup_lock name conditions m
          else if decide (name = Root (details x)) then Ok (Some n)
          else if ZeroDepth (details x) then lookup_lock name conditions m
          else if bool_decide (Root (details x) = [slash]) || HasPrefix name (Root (details x) ++ [slash]) then Ok (Some n)
          else lookup_lock name conditions m
      end
  end.

Definition hold (n : positive) (m : memLS) : fl memLS :=
  x ← deref n m;
  if held x then Panic
  else
    m ← update n (set_held true) m;
    if (0 <=? Duration (details x)) && (0 <=? byExpiryIndex x)
    then '(_, m) ← heap_Remove (byExpiryIndex x) m; Ok m else Ok m.

Definition unhold (n : positive) (m : memLS) : fl memLS :=
  x ← deref n m;
  if negb (held x) then Panic
  else
    m ← update n (set_held false) m;
    if 0 <=? Duration (details x) then heap_Push n m else Ok m.

(** The nodes the [release] function of [Confirm] closes over. *)
Definition release_of : Type := ptr * ptr.

Definition hold_opt (n : ptr) (m : memLS) : fl memLS := match n with Some n => hold n m | None => Ok m end.
Definition unhold_opt (n : ptr) (m : memLS) : fl memLS := match n with Some n => unhold n m | None => Ok m end.

Definition find (name : bytes) (conditions : list Condition) (m : memLS) : fl ptr :=
  if decide (name = []) then Ok None else lookup_lock (slashClean name) conditions m.

Definition Confirm (now : Z) (name0 name1 : bytes) (conditions : list Condition) (m : memLS) : fl (memLS * (release_of + ls_error)) :=
  m ← collectExpiredNodes now m;
  n0 ← find name0 conditions m;
  if negb (bool_decide (name0 = [])) && bool_decide (n0 = None) then Ok (m, inr ErrConfirmationFailed)
  else
    n1 ← find name1 conditions m;
    if negb (bool_decide (name1 = [])) && bool_decide (n1 = None) then Ok (m, inr ErrConfirmationFailed)
    else
      let n1 := if decide (n1 = n0) then None else n1 in
      m ← hold_opt n0 m;
      m ← hold_opt n1 m;
      Ok (m, inl (n0, n1)).

Definition release (r : release_of) (m : memLS) : fl memLS := m ← unhold_opt (snd r) m; unhold_opt (fst r) m.

Definition canCreate (name : bytes) (zeroDepth : bool) (m : memLS) : fl bool :=
  '(b, _) ← walkToRoot (fun name0 first m =>
    match byName m !! name0 with
    | None => Ok (true, m)
    | Some n =>
        x ← deref n m;
        let locked := negb (bool_decide (token x = [])) in
        Ok (if (first : bool) then negb locked && zeroDepth else negb (locked && negb (ZeroDepth (details x))), m)
    end) name m;
  Ok b.

(** [ret] is the node of [name] itself. *)
Definition create (name : bytes) (m : memLS) : fl (positive * memLS) :=
  '(_, (ret, m)) ← walkToRoot (fun name0 first '((ret, m) : ptr * memLS) =>
    let '(n, m) := match byName m !! name0 with
                   | Some n => (n, m)
                   | None =>
                       let n := fresh m in
                       (n, mkLS (<[n := mkNode (mkDetails name0 0 [] false) [] 0 0 (-1) false]> (store m)) (n + 1)
                             (<[name0 := n]> (byName m)) (byToken m) (gen m) (byExpiry m))
                   end in
    m ← update n (fun x => set_refCount (refCount x + 1) x) m;
    Ok (true, (if (first : bool) then Some n else ret, m))) name (None, m);
  n ← or_panic ret;
  Ok (n, m).

Definition Create (now : Z) (d : LockDetails) (m : memLS) : fl (memLS * (bytes + ls_error)) :=
  m ← collectExpiredNodes now m;
  let d := mkDetails (slashClean (Root d)) (Duration d) (OwnerXML d) (ZeroDepth d) in
  ok ← canCreate (Root d) (ZeroDepth d) m;
  if negb (ok : bool) then Ok (m, inr ErrLocked)
  else
    '(n, m) ← create (Root d) m;
    let '(tok, m) := nextToken m in
    m ← update n (set_token tok) m;
    let m := with_byToken (<[tok := n]> (byToken m)) m in
    m ← update n (set_details d) m;
    m ← (if 0 <=? Duration d then m ← update n (set_expiry (now + Duration d)) m; heap_Push n m else Ok m);
    Ok (m, inl tok).

Definition set_Duration (v : Z) (d : LockDetails) : LockDetails := mkDetails (Root d) v (OwnerXML d) (ZeroDepth d).

Definition Refresh (now : Z) (tok : bytes) (duration : Z) (m : memLS) : fl (memLS * (LockDetails + ls_error)) :=
  m ← collectExpiredNodes now m;
  match byToken m !! tok with
  | None => Ok (m, inr ErrNoSuchLock)
  | Some n =>
      x ← deref n m;
      if held x then Ok (m, inr ErrLocked)
      else
        m ← (if 0 <=? byExpiryIndex x then '(_, m) ← heap_Remove (byExpiryIndex x) m; Ok m else Ok m);
        m ← update n (fun x => set_details (set_Duration duration (details x)) x) m;
        m ← (if 0 <=? duration then m ← update n (set_expiry (now + duration)) m; heap_Push n m else Ok m);
        x ← deref n m;
        Ok (m, inl (details x))
  end.

Definition Unlock (now : Z) (tok : bytes) (m : memLS) : fl (memLS * option ls_error) :=
  m ← collectExpiredNodes now m;
  match byToken m !! tok with
  | None => Ok (m, Some ErrNoSuchLock)
  | Some n =>
      x ← deref n m;
      if held x then Ok (m, Some ErrLocked) else m ← remove n m; Ok (m, None)
  end.
