(* ===== verification/WebdavHeap.v ===== *)
(** The heap of expiring locks keeps the promises of [container/heap]: what adding
    and removing a node does to the lock system. *)
From S2P Require Import Prelude GoHeap WebdavPath WebdavLock.

(** Every node of the heap knows its index. *)
Definition good (m : memLS) : Prop :=
  forall i p, byExpiry m !! i = Some p -> exists x, store m !! p = Some x /\ byExpiryIndex x = Z.of_nat i.

(** A node but for its index. *)
Definition noidx (x : memLSNode) : memLSNode := set_index 0 x.

Definition same_but (m m' : memLS) : Prop :=
  byName m' = byName m /\ byToken m' = byToken m /\ gen m' = gen m /\ fresh m' = fresh m /\
  forall p, noidx <$> store m' !! p = noidx <$> store m !! p.

(** The same heap in another order. *)
Definition kept (m m' : memLS) : Prop :=
  same_but m m' /\ byExpiry m' ≡ₚ byExpiry m /\ forall p, p ∉ byExpiry m -> store m' !! p = store m !! p.

#[global] Instance same_but_preorder : PreOrder same_but.
Proof.
  split; [intros m; by repeat split|]. intros a b c (H1 & H2 & H3 & H4 & H5) (K1 & K2 & K3 & K4 & K5).
  split_and!; first [congruence|intros p; by rewrite K5, H5].
Qed.

#[global] Instance kept_preorder : PreOrder kept.
Proof.
  split; [intros m; split; [reflexivity|done]|]. intros a b c (H1 & H2 & H3) (K1 & K2 & K3). split; [by etrans|].
  split; [by rewrite K2|]. intros p Hp. rewrite K3; [by apply H3|]. by rewrite H2.
Qed.

Definition key (m : memLS) (i : Z) : Z :=
  match at_ (byExpiry m) i ≫= (store m !!.) with Some x => expiry x | None => 0 end.
Definition elt (m : memLS) (i : Z) : option positive := at_ (byExpiry m) i.

Lemma noidx_some m m' p x : (forall p, noidx <$> store m' !! p = noidx <$> store m !! p) -> store m !! p = Some x ->
  exists i, store m' !! p = Some (set_index i x).
Proof.
  intros H Hx. specialize (H p). rewrite Hx in H. destruct (store m' !! p) as [y|] eqn:E; [|done]. cbn in H. injection H as H.
  exists (byExpiryIndex y). f_equal. destruct x, y. unfold noidx, set_index in *. cbn in *. congruence.
Qed.

(** Keys do not depend on the indices. *)
Lemma key_same m m' i j : (forall p, noidx <$> store m' !! p = noidx <$> store m !! p) -> elt m' i = elt m j -> key m' i = key m j.
Proof.
  unfold key, elt. intros H ->. destruct (at_ (byExpiry m) j) as [p|]; [|done]. cbn. specialize (H p).
  destruct (store m !! p) as [x|], (store m' !! p) as [y|]; cbn in H; try done. injection H. unfold noidx. destruct x, y. cbn. congruence.
Qed.

Lemma good_elt m i : good m -> 0 <= i < len (byExpiry m) ->
  exists p x, at_ (byExpiry m) i = Some p /\ store m !! p = Some x /\ byExpiryIndex x = i /\ byExpiry m !! Z.to_nat i = Some p.
Proof.
  intros Hg Hi. destruct (at_Some (byExpiry m) i Hi) as [p Hp]. unfold at_ in *. rewrite decide_True in * by lia.
  destruct (Hg _ _ Hp) as (x & Hx & Hix). exists p, x. split_and!; try done. lia.
Qed.

(** The indices of a good heap differ. *)
Lemma good_inj m i j p : good m -> byExpiry m !! i = Some p -> byExpiry m !! j = Some p -> i = j.
Proof. intros Hg Hi Hj. destruct (Hg _ _ Hi) as (x & Hx & E1), (Hg _ _ Hj) as (y & Hy & E2). assert (x = y) by congruence. subst. lia. Qed.

Lemma good_NoDup m : good m -> NoDup (byExpiry m).
Proof. intros Hg. apply NoDup_alt. intros i j p. by apply good_inj. Qed.

Lemma deref_some p m x : store m !! p = Some x -> deref p m = Ok x.
Proof. intros H. unfold deref. by rewrite H. Qed.

Lemma update_some p f m x : store m !! p = Some x -> update p f m = Ok (with_store (<[p := f x]> (store m)) m).
Proof. intros H. unfold update, deref. by rewrite H. Qed.

(** The store after two nodes have new indices. *)
Lemma byExpiry_Swap_spec m i j : good m -> 0 <= i < len (byExpiry m) -> 0 <= j < len (byExpiry m) -> i <> j ->
  exists m', byExpiry_Swap i j m = Ok m' /\ good m' /\ kept m m' /\ len (byExpiry m') = len (byExpiry m) /\
    swapped i j (key m) (key m') /\ swapped i j (elt m) (elt m').
Proof.
  intros Hg Hi Hj Hij. destruct (good_elt m i Hg Hi) as (a & x & Ha & Hx & Hxi & Ha'), (good_elt m j Hg Hj) as (b & y & Hb & Hy & Hyj & Hb').
  assert (Hab : a <> b) by (intros ->; assert (x = y) by congruence; subst; lia).
  unfold byExpiry_Swap. rewrite Ha, Hb. cbn [or_panic mbind outcome_bind with_byExpiry byExpiry].
  set (l := <[Z.to_nat j:=a]> (<[Z.to_nat i:=b]> (byExpiry m))).
  pose proof (lookup_lt_Some _ _ _ Ha') as Hil. pose proof (lookup_lt_Some _ _ _ Hb') as Hjl.
  assert (Hlen : length l = length (byExpiry m)) by (unfold l; by rewrite !length_insert).
  assert (Hli : l !! Z.to_nat i = Some b) by (unfold l; rewrite list_lookup_insert_ne by lia; by rewrite list_lookup_insert_eq).
  assert (Hlj : l !! Z.to_nat j = Some a) by (unfold l; rewrite list_lookup_insert_eq; [done|by rewrite length_insert]).
  assert (Hlk : forall k, k <> Z.to_nat i -> k <> Z.to_nat j -> l !! k = byExpiry m !! k).
  { intros k H1 H2. unfold l. rewrite !list_lookup_insert_ne by done. done. }
  unfold at_. rewrite !decide_True by lia. rewrite Hli. cbn [or_panic mbind outcome_bind].
  rewrite (update_some b _ _ y) by done. cbn [mbind outcome_bind with_store with_byExpiry byExpiry store]. rewrite decide_True, Hlj by lia. cbn [or_panic mbind outcome_bind].
  rewrite (update_some a _ _ x) by (cbn; by rewrite lookup_insert_ne). cbn [with_store store with_byExpiry].
  set (st := <[a := set_index j x]> (<[b := set_index i y]> (store m))).
  assert (Hst : forall p, noidx <$> st !! p = noidx <$> store m !! p).
  { intros p. unfold st. destruct (decide (p = a)) as [->|Hpa]; [by rewrite lookup_insert_eq, Hx|].
    rewrite lookup_insert_ne by done. destruct (decide (p = b)) as [->|Hpb]; [by rewrite lookup_insert_eq, Hy|]. by rewrite lookup_insert_ne. }
  set (m' := mkLS st (fresh m) (byName m) (byToken m) (gen m) l). exists m'. split; [reflexivity|].
  assert (Helt : swapped i j (elt m) (elt m')).
  { unfold swapped, elt, m', at_. cbn [byExpiry with_byExpiry with_store]. rewrite !decide_True by lia. rewrite Ha', Hb', Hli, Hlj. split_and!; [done..|].
    intros k H1 H2. case_decide; [|done]. apply Hlk; lia. }
  split; [|split; [|split; [|split; [|done]]]].
  - intros k p Hk. cbn [m' byExpiry with_byExpiry with_store store] in *. unfold st.
    destruct (decide (k = Z.to_nat i)) as [->|H1]; [|destruct (decide (k = Z.to_nat j)) as [->|H2]].
    + assert (p = b) as -> by congruence. rewrite lookup_insert_ne, lookup_insert_eq by done. eexists. split; [done|]. cbn. lia.
    + assert (p = a) as -> by congruence. rewrite lookup_insert_eq by done. eexists. split; [done|]. cbn. lia.
    + rewrite Hlk in Hk by done. assert (p <> a) by (intros ->; apply H1; by eapply good_inj).
      assert (p <> b) by (intros ->; apply H2; by eapply good_inj). rewrite !lookup_insert_ne by done. by apply Hg.
  - split; [by split_and!|]. split; [by apply Permutation_insert_swap|]. intros p Hp. cbn [m' store]. unfold st.
    rewrite !lookup_insert_ne; [done| |]; intros <-; apply Hp; by eapply list_elem_of_lookup_2.
  - unfold len. cbn [m' byExpiry with_byExpiry with_store]. fold l. by rewrite Hlen.
  - destruct Helt as (E1 & E2 & E3). split_and!; [by apply key_same|by apply key_same|]. intros k H1 H2. apply key_same; [done|by apply E3].
Qed.

#[global] Instance byExpiry_laws : InterfaceLaws memLS positive key elt good kept.
Proof.
  split; [| |apply byExpiry_Swap_spec|apply kept_preorder].
  - intros m. apply len_nonneg.
  - intros m i j Hg Hi Hj. cbn [Less byExpiry_Interface Len] in *. destruct (good_elt m i Hg Hi) as (a & x & Ha & Hx & _), (good_elt m j Hg Hj) as (b & y & Hb & Hy & _).
    unfold byExpiry_Less, key. rewrite Ha, Hb. cbn. by rewrite Hx, Hy.
Qed.

(** * Adding and removing *)

(** A heap in order; the other nodes have index -1. *)
Record heap_ok (m : memLS) : Prop := {
  ho_good : good m;
  ho_off : forall p x, store m !! p = Some x -> p ∉ byExpiry m -> byExpiryIndex x = -1;
  ho_ordered : ordered (len (byExpiry m)) (key m) }.

Lemma heap_push_ok m n x : heap_ok m -> store m !! n = Some x -> n ∉ byExpiry m ->
  exists m', heap_Push n m = Ok m' /\ heap_ok m' /\ same_but m m' /\ byExpiry m' ≡ₚ n :: byExpiry m.
Proof.
  intros [Hg Hoff Hord] Hx Hn. set (m1 := with_byExpiry (byExpiry m ++ [n]) (with_store (<[n := set_index (len (byExpiry m)) x]> (store m)) m)).
  assert (Hp : Push_ n m = Ok m1) by (cbn [Push_ byExpiry_Interface]; unfold byExpiry_Push; by rewrite (update_some _ _ _ x)).
  assert (Hst1 : forall p, p <> n -> store m1 !! p = store m !! p) by (intros p Hpn; cbn; by rewrite lookup_insert_ne).
  assert (Hsb : same_but m m1).
  { split_and!; try done. intros p. destruct (decide (p = n)) as [->|Hpn]; [|by rewrite Hst1]. cbn. by rewrite lookup_insert_eq, Hx. }
  assert (Hg1 : good m1).
  { intros i p [Hi|[Hi Hi2]]%lookup_app_Some; cbn [m1 with_byExpiry byExpiry] in *.
    - rewrite Hst1; [by apply Hg|]. intros ->. apply Hn. by eapply list_elem_of_lookup_2.
    - apply list_lookup_singleton_Some in Hi2 as [Hi2 <-]. eexists. split; [cbn; by rewrite lookup_insert_eq|]. cbn. unfold len. lia. }
  assert (Hl1 : Len m1 = Len m + 1) by (cbn; rewrite len_app; done).
  destruct (heap_Push_spec (key := key) n m m1 Hp Hg1 Hl1) as (m' & Hr & (Hg' & (Hsb' & Hperm & Hsame) & Hl') & Ho').
  - intros k Hk. destruct (decide (0 <= k)) as [Hk0|Hk0].
    + apply key_same; [apply Hsb|]. unfold elt, at_. rewrite !decide_True by done. cbn. rewrite lookup_app_l; [done|].
      cbn in Hk. unfold len in Hk. lia.
    + unfold key, at_. by rewrite !decide_False.
  - done.
  - exists m'. split; [done|]. split; [|split; [by etrans|]].
    + split; [done| |done]. intros p y Hy Hpn. rewrite Hperm in Hpn. rewrite Hsame in Hy by done.
      assert (p <> n) by (intros ->; apply Hpn; cbn; apply elem_of_app; right; by left). rewrite Hst1 in Hy by done.
      apply (Hoff _ _ Hy). intros Hin. apply Hpn. cbn. apply elem_of_app. by left.
    + rewrite Hperm. cbn. by rewrite Permutation_app_comm.
Qed.

Lemma heap_remove_ok m n x : heap_ok m -> store m !! n = Some x -> n ∈ byExpiry m ->
  exists m', heap_Remove (byExpiryIndex x) m = Ok (n, m') /\ heap_ok m' /\ same_but m m' /\ n :: byExpiry m' ≡ₚ byExpiry m.
Proof.
  intros [Hg Hoff Hord] Hx (i & Hi)%list_elem_of_lookup_1. destruct (Hg _ _ Hi) as (x' & Hx' & Hix). assert (x' = x) as -> by congruence.
  pose proof (lookup_lt_Some _ _ _ Hi) as Hil.
  assert (Hib : 0 <= byExpiryIndex x < Len m) by (cbn; unfold len; lia).
  destruct (heap_Remove_spec (key := key) (byExpiryIndex x) m Hg Hib Hord) as (m1 & Hr & (Hg1 & (Hsb1 & Hperm1 & Hsame1) & Hl1) & Ho1 & Hlast).
  cbn [Len byExpiry_Interface] in *. set (k := len (byExpiry m1) - 1).
  assert (Hk : elt m1 k = Some n).
  { unfold k. rewrite Hl1, Hlast. unfold elt, at_. rewrite decide_True by lia. by rewrite Hix, Nat2Z.id. }
  assert (Hn1 : exists y, store m1 !! n = Some y).
  { destruct Hsb1 as (_ & _ & _ & _ & H). destruct (noidx_some m m1 n x H Hx) as [j Hj]. eauto. }
  destruct Hn1 as [y Hy]. rewrite Hr. cbn [Pop_ byExpiry_Interface]. unfold byExpiry_Pop. fold k. fold (elt m1 k). rewrite Hk. cbn [or_panic mbind outcome_bind].
  rewrite (update_some _ _ _ y Hy). cbn [mbind outcome_bind with_store byExpiry]. eexists. split; [done|].
  set (m2 := with_byExpiry _ _).
  assert (Hlast1 : byExpiry m1 = upto k (byExpiry m1) ++ [n]).
  { unfold elt, at_ in Hk. case_decide as Hk0; [|done]. unfold upto. rewrite <- (take_drop (Z.to_nat k) (byExpiry m1)) at 1. f_equal.
    apply drop_S in Hk. rewrite Hk. rewrite drop_ge; [done|]. unfold k, len. lia. }
  assert (Hnk : n ∉ upto k (byExpiry m1)).
  { pose proof (good_NoDup _ Hg1) as Hnd. rewrite Hlast1 in Hnd. apply NoDup_app in Hnd as (_ & Hnd & _). intros H. eapply Hnd; [exact H|by left]. }
  assert (Hst : forall p, p <> n -> store m2 !! p = store m1 !! p) by (intros p Hp; cbn; by rewrite lookup_insert_ne).
  assert (Hsb2 : same_but m1 m2).
  { split_and!; try done. intros p. destruct (decide (p = n)) as [->|Hp]; [|by rewrite Hst]. cbn. by rewrite lookup_insert_eq, Hy. }
  assert (Hpre : forall j p, byExpiry m2 !! j = Some p -> byExpiry m1 !! j = Some p /\ p <> n /\ Z.of_nat j < k).
  { intros j p Hj. cbn in Hj. split_and!.
    - rewrite Hlast1. by apply lookup_app_l_Some.
    - intros ->. apply Hnk. by eapply list_elem_of_lookup_2.
    - apply lookup_lt_Some in Hj. unfold upto in Hj. rewrite length_take in Hj. unfold k in *. lia. }
  assert (Hl2 : len (byExpiry m2) = len (byExpiry m) - 1).
  { cbn. rewrite len_upto; [unfold k; lia|]. unfold k. unfold len in *. lia. }
  split; [|split; [by etrans|]].
  - split.
    + intros j p Hj. destruct (Hpre _ _ Hj) as (Hj1 & Hp & _). rewrite Hst by done. by apply Hg1.
    + intros p z Hz Hp. destruct (decide (p = n)) as [->|Hpn].
      * cbn in Hz. rewrite lookup_insert_eq in Hz. by injection Hz as <-.
      * rewrite Hst in Hz by done. assert (Hp1 : p ∉ byExpiry m1).
        { rewrite Hlast1, elem_of_app. intros [?|?%list_elem_of_singleton]; [by apply Hp|done]. }
        rewrite Hsame1 in Hz by by rewrite <- Hperm1. apply (Hoff _ _ Hz). by rewrite <- Hperm1.
    + rewrite Hl2. intros j Hj. pose proof (par_bound j ltac:(lia)) as [Hb _].
      assert (Hkey : forall j, 0 <= j < len (byExpiry m) - 1 -> key m2 j = key m1 j).
      { intros j' Hj'. apply key_same; [apply Hsb2|]. unfold elt, at_. rewrite !decide_True by lia. cbn. unfold upto. rewrite lookup_take_lt; [done|].
        unfold k. lia. }
      rewrite !Hkey by lia. apply Ho1. lia.
  - rewrite <- Hperm1, Hlast1. cbn. by rewrite Permutation_app_comm.
Qed.

(** A change of nodes outside of the heap, or of fields without effect on it. *)
Lemma heap_ok_store m s : heap_ok m ->
  (forall p, p ∈ byExpiry m -> exists x y, store m !! p = Some x /\ s !! p = Some y /\ byExpiryIndex y = byExpiryIndex x /\ expiry y = expiry x) ->
  (forall p y, s !! p = Some y -> p ∉ byExpiry m -> byExpiryIndex y = -1) -> heap_ok (with_store s m).
Proof.
  intros [Hg Hoff Hord] Hin Hout. split; [|exact Hout|].
  - intros i p Hi. destruct (Hin p) as (x & y & Hx & Hy & E & _); [by eapply list_elem_of_lookup_2|]. exists y. split; [done|].
    rewrite E. destruct (Hg _ _ Hi) as (x' & Hx' & Ei). congruence.
  - assert (E : forall i, key (with_store s m) i = key m i).
    { intros i. unfold key. cbn [with_store byExpiry store]. destruct (at_ (byExpiry m) i) as [p|] eqn:Ep; [|done]. cbn.
      destruct (Hin p) as (x & y & Hx & Hy & _ & Ex); [by eapply at_In|]. by rewrite Hx, Hy. }
    intros i Hi. rewrite !E. by apply Hord.
Qed.
