(* ===== verification/WebdavLockSpec.v ===== *)
(** What the lock system promises: a table of locks by token, without nodes, paths
    or heaps. *)
From S2P Require Import Prelude GoStrings WebdavPath WebdavLock.

Record lock := mkLock { l_details : LockDetails; l_expiry : Z; l_held : bool }.

(** The locks by token, and the number of the last token. *)
Record table := mkTable { locks : gmap bytes lock; last_token : Z }.

(** A lock on [d] covers its root, and everything below unless it is of depth
    zero. *)
Definition below (root name : bytes) : bool := bool_decide (root = [slash]) || HasPrefix name (root ++ [slash]).
Definition covers (d : LockDetails) (name : bytes) : bool :=
  bool_decide (Root d = name) || negb (ZeroDepth d) && below (Root d) name.

(** Two locks conflict when one covers the other's root. *)
Definition conflict (d e : LockDetails) : bool := covers d (Root e) || covers e (Root d).

Definition finite (d : LockDetails) : bool := 0 <=? Duration d.
Definition expires_at (now : Z) (d : LockDetails) : Z := if finite d then now + Duration d else 0.

(** A lock that is not held expires when its time has come. *)
Definition expired (now : Z) (l : lock) : bool := negb (l_held l) && finite (l_details l) && negb (now <? l_expiry l).
Definition expire (now : Z) (s : table) : table := mkTable (filter (fun tl => expired now tl.2 = false) (locks s)) (last_token s).

Definition with_locks (l : gmap bytes lock) (s : table) : table := mkTable l (last_token s).

Definition s_create (now : Z) (d : LockDetails) (s : table) : table * (bytes + ls_error) :=
  let s := expire now s in
  let d := mkDetails (slashClean (Root d)) (Duration d) (OwnerXML d) (ZeroDepth d) in
  if existsb (fun tl => conflict (l_details tl.2) d) (map_to_list (locks s)) then (s, inr ErrLocked)
  else
    let z := u64 (last_token s + 1) in
    (mkTable (<[FormatUint z := mkLock d (expires_at now d) false]> (locks s)) z, inl (FormatUint z)).

Definition s_refresh (now : Z) (tok : bytes) (duration : Z) (s : table) : table * (LockDetails + ls_error) :=
  let s := expire now s in
  match locks s !! tok with
  | None => (s, inr ErrNoSuchLock)
  | Some l =>
      if l_held l then (s, inr ErrLocked)
      else let d := set_Duration duration (l_details l) in (with_locks (<[tok := mkLock d (expires_at now d) false]> (locks s)) s, inl d)
  end.

Definition s_unlock (now : Z) (tok : bytes) (s : table) : table * option ls_error :=
  let s := expire now s in
  match locks s !! tok with
  | None => (s, Some ErrNoSuchLock)
  | Some l => if l_held l then (s, Some ErrLocked) else (with_locks (delete tok (locks s)) s, None)
  end.

(** The first token presented that names a lock on the resource that no one
    holds. *)
Fixpoint claim (name : bytes) (conditions : list Condition) (s : table) : option bytes :=
  match conditions with
  | [] => None
  | c :: conditions =>
      match locks s !! Token c with
      | Some l => if negb (l_held l) && covers (l_details l) name then Some (Token c) else claim name conditions s
      | None => claim name conditions s
      end
  end.

Definition set_l_held (b : bool) (l : lock) : lock := mkLock (l_details l) (l_expiry l) b.
Definition s_hold (b : bool) (t : option bytes) (s : table) : table :=
  match t with Some t => with_locks (alter (set_l_held b) t (locks s)) s | None => s end.

Definition s_find (name : bytes) (conditions : list Condition) (s : table) : option bytes :=
  if decide (name = []) then None else claim (slashClean name) conditions s.

Definition s_confirm (now : Z) (name0 name1 : bytes) (conditions : list Condition) (s : table)
    : table * (option bytes * option bytes + ls_error) :=
  let s := expire now s in
  let t0 := s_find name0 conditions s in
  let t1 := s_find name1 conditions s in
  if negb (bool_decide (name0 = [])) && bool_decide (t0 = None) || negb (bool_decide (name1 = [])) && bool_decide (t1 = None)
  then (s, inr ErrConfirmationFailed)
  else let t1 := if decide (t1 = t0) then None else t1 in (s_hold true t1 (s_hold true t0 s), inl (t0, t1)).

Definition s_release (r : option bytes * option bytes) (s : table) : table := s_hold false (fst r) (s_hold false (snd r) s).

(** * Tokens *)

Lemma digits_app fuel : forall z acc, digits fuel z acc = digits fuel z [] ++ acc.
Proof.
  induction fuel as [|fuel IH]; intros z acc; cbn [digits]; [done|]. case_match; [done|].
  rewrite IH, (IH _ [_]). by rewrite <- app_assoc.
Qed.

Lemma undigits_digits fuel : forall z, 0 <= z < 10 ^ Z.of_nat fuel -> undigits (digits fuel z []) = z.
Proof.
  induction fuel as [|fuel IH]; intros z Hz; [cbn in Hz; cbn; lia|]. cbn [digits]. destruct (Z.ltb_spec z 10).
  - unfold undigits. cbn. lia.
  - rewrite digits_app. unfold undigits. rewrite foldl_app. fold (undigits (digits fuel (z / 10) [])).
    rewrite Nat2Z.inj_succ, Z.pow_succ_r in Hz by lia. rewrite IH.
    + cbn. pose proof (Z.div_mod z 10 ltac:(lia)). lia.
    + split; [apply Z.div_pos; lia|]. apply Z.div_lt_upper_bound; lia.
Qed.

Lemma FormatUint_inj a b : 0 <= a < 2 ^ 64 -> 0 <= b < 2 ^ 64 -> FormatUint a = FormatUint b -> a = b.
Proof.
  intros Ha Hb E. apply (f_equal undigits) in E. unfold FormatUint in E.
  assert (H : 2 ^ 64 < 10 ^ Z.of_nat 20) by reflexivity. rewrite !undigits_digits in E by lia. done.
Qed.

Lemma FormatUint_nonempty z : FormatUint z <> [].
Proof.
  unfold FormatUint. change (digits 20 z []) with (if z <? 10 then [48 + z] else digits 19 (z / 10) [48 + z mod 10]).
  case_match; [done|]. rewrite digits_app. intros [_ Hnil]%app_nil. done.
Qed.

(** * Names *)

Lemma below_prefix r l : elems_ok r -> elems_ok l -> r <> l -> below (path_of r) (path_of l) = true <-> r `prefix_of` l.
Proof.
  intros Hr Hl Hne. unfold below. rewrite orb_true_iff, bool_decide_eq_true. destruct (decide (r = [])) as [->|Hr0].
  - split; [intros _; apply prefix_nil|by left].
  - rewrite HasPrefix_path by done. split; [intros [E|[? _]]; [|done]|by right].
    change [slash] with (path_of []) in E. apply path_of_inj in E; [done|done|constructor].
Qed.

(** Covering, on the elements of canonical names. *)
Lemma covers_spec d r l : elems_ok r -> elems_ok l -> Root d = path_of r ->
  covers d (path_of l) = true <-> r = l \/ ZeroDepth d = false /\ r `prefix_of` l.
Proof.
  intros Hr Hl E. unfold covers. rewrite E, orb_true_iff, andb_true_iff, bool_decide_eq_true, negb_true_iff.
  destruct (decide (r = l)) as [->|Hne]; [by split; left|]. rewrite (below_prefix r l) by done.
  split; [intros [H|?]; [|by right]|intros [?|?]; [done|by right]]. apply path_of_inj in H; done.
Qed.

(** Two locks without conflict never cover the same name. *)
Lemma no_conflict_covers d e r k l : elems_ok r -> elems_ok k -> elems_ok l -> Root d = path_of r -> Root e = path_of k ->
  conflict d e = false -> covers d (path_of l) = true -> covers e (path_of l) = false.
Proof.
  intros Hr Hk Hl Ed Ee Hc Hd. apply not_true_iff_false. intros He. apply orb_false_elim in Hc as [H1 H2].
  rewrite Ee in H1. rewrite Ed in H2. apply not_true_iff_false in H1, H2. rewrite (covers_spec d r k) in H1 by done. rewrite (covers_spec e k r) in H2 by done.
  rewrite (covers_spec d r l) in Hd by done. rewrite (covers_spec e k l) in He by done.
  destruct Hd as [->|[Zd Pd]], He as [->|[Ze Pe]]; try tauto.
  destruct (prefix_weak_total r k l Pd Pe); tauto.
Qed.
