(* ===== verification/WebdavLockWalk.v ===== *)
(** What the walks of [create] and [remove] do to the nodes by name: one more, or
    one less, reference along the path to the root. *)
From S2P Require Import Prelude GoHeap WebdavPath WebdavLock WebdavHeap WebdavLockSpec.

(** Names lead to nodes with that name. *)
Record names_ok (m : memLS) : Prop := {
  no_node : forall name p, byName m !! name = Some p -> exists x, store m !! p = Some x /\ Root (details x) = name;
  no_fresh : forall p x, store m !! p = Some x -> (p < fresh m)%positive }.

Definition node_at (m : memLS) (name : bytes) : option memLSNode := byName m !! name ≫= (store m !!.).

Lemma names_inj m n1 n2 p : names_ok m -> byName m !! n1 = Some p -> byName m !! n2 = Some p -> n1 = n2.
Proof. intros Hm H1 H2. destruct (no_node _ Hm _ _ H1) as (x & Hx & <-), (no_node _ Hm _ _ H2) as (y & Hy & <-). congruence. Qed.

Lemma node_at_some m name x : node_at m name = Some x <-> exists p, byName m !! name = Some p /\ store m !! p = Some x.
Proof. unfold node_at. apply bind_Some. Qed.

Lemma node_at_none m name : names_ok m -> node_at m name = None <-> byName m !! name = None.
Proof.
  intros Hm. unfold node_at. destruct (byName m !! name) as [p|] eqn:E; cbn; [|done].
  destruct (no_node _ Hm _ _ E) as (x & Hx & _). rewrite Hx. done.
Qed.

(** What the walks leave alone. *)
Definition norefs (x : memLSNode) : memLSNode := set_refCount 0 x.

Definition rest_same (m m' : memLS) : Prop := byToken m' = byToken m /\ gen m' = gen m /\ byExpiry m' = byExpiry m.

Definition path_in (ps : list (list bytes)) (name : bytes) : Prop := exists k, k ∈ ps /\ name = path_of k.

(** * [create] *)

Definition blank (name : bytes) : memLSNode := mkNode (mkDetails name 0 [] false) [] 0 0 (-1) false.
Definition refer (x : memLSNode) : memLSNode := set_refCount (refCount x + 1) x.

(** The node of a name, with one more reference, old or new. *)
Record referred (m m' : memLS) (changed : bytes -> Prop) : Prop := {
  rf_names : names_ok m';
  rf_rest : rest_same m m';
  rf_in : forall name, changed name -> node_at m' name = Some (refer (default (blank name) (node_at m name)));
  rf_out : forall name, ~ changed name -> byName m' !! name = byName m !! name /\ node_at m' name = node_at m name;
  rf_old : forall name p, byName m !! name = Some p -> byName m' !! name = Some p;
  rf_ptr : forall name p, byName m' !! name = Some p -> byName m !! name = Some p \/ store m !! p = None;
  rf_store : forall p x, store m !! p = Some x -> exists x', store m' !! p = Some x' /\ norefs x' = norefs x;
  rf_new : forall p x, store m !! p = None -> store m' !! p = Some x -> norefs x = norefs (blank (Root (details x))) }.

Definition create_f (name0 : bytes) (first : bool) (st : ptr * memLS) : fl (bool * (ptr * memLS)) :=
  let '(ret, m) := st in
  let '(n, m) := match byName m !! name0 with
                 | Some n => (n, m)
                 | None =>
                     let n := fresh m in
                     (n, mkLS (<[n := blank name0]> (store m)) (n + 1) (<[name0 := n]> (byName m)) (byToken m) (gen m) (byExpiry m))
                 end in
  m ← update n refer m;
  Ok (true, (if (first : bool) then Some n else ret, m)).

Lemma create_step name0 first ret m : names_ok m ->
  exists n m', create_f name0 first (ret, m) = Ok (true, (if (first : bool) then Some n else ret, m')) /\
    byName m' !! name0 = Some n /\ referred m m' (fun name => name = name0).
Proof.
  intros Hm. unfold create_f. destruct (byName m !! name0) as [n|] eqn:E.
  - destruct (no_node _ Hm _ _ E) as (x & Hx & Hr). rewrite (update_some _ _ _ x Hx). cbn [mbind outcome_bind].
    exists n. eexists. split; [done|]. split; [done|]. split; cbn [with_store byName store fresh].
    + split; cbn [with_store byName store fresh].
      * intros name p Hp. destruct (decide (p = n)) as [->|Hne].
        -- rewrite lookup_insert_eq. eexists. split; [done|]. cbn. rewrite Hr. by eapply names_inj.
        -- rewrite lookup_insert_ne by done. by apply (no_node _ Hm).
      * intros p y. destruct (decide (p = n)) as [->|Hne]; [intros _; by eapply (no_fresh _ Hm)|rewrite lookup_insert_ne by done; apply (no_fresh _ Hm)].
    + done.
    + intros name ->. unfold node_at. cbn. rewrite E. cbn. by rewrite lookup_insert_eq, Hx.
    + intros name Hne. split; [done|]. unfold node_at. cbn. destruct (byName m !! name) as [p|] eqn:Ep; [|done]. cbn.
      rewrite lookup_insert_ne; [done|]. intros <-. apply Hne. by eapply names_inj.
    + done.
    + by left.
    + intros p y Hy. destruct (decide (p = n)) as [->|Hne]; [rewrite lookup_insert_eq|rewrite lookup_insert_ne by done]; [|by exists y].
      eexists. split; [done|]. assert (y = x) as -> by congruence. done.
    + intros p y Hy. destruct (decide (p = n)) as [->|Hne]; [congruence|]. rewrite lookup_insert_ne by done. congruence.
  - set (n := fresh m). assert (Hn : store m !! n = None).
    { destruct (store m !! n) as [x|] eqn:Ex; [|done]. apply (no_fresh _ Hm) in Ex. unfold n in Ex. lia. }
    assert (Hnn : forall name, byName m !! name <> Some n) by (intros name Hp; destruct (no_node _ Hm _ _ Hp) as (x & Hx & _); congruence).
    rewrite (update_some n _ _ (blank name0)) by (cbn; by rewrite lookup_insert_eq). cbn [mbind outcome_bind with_store store].
    rewrite insert_insert_eq. exists n. eexists. split; [done|]. split; [cbn; by rewrite lookup_insert_eq|].
    split; cbn [with_store byName store fresh].
    + split; cbn [with_store byName store fresh].
      * intros name p [[<- <-]|[Hne Hp]]%lookup_insert_Some; [rewrite lookup_insert_eq; by eexists|].
        rewrite lookup_insert_ne by (intros <-; by eapply Hnn). by apply (no_node _ Hm).
      * intros p y [[<- _]|[_ Hy]]%lookup_insert_Some; [lia|]. apply (no_fresh _ Hm) in Hy. unfold n. lia.
    + done.
    + intros name ->. unfold node_at. cbn. rewrite lookup_insert_eq. cbn. by rewrite lookup_insert_eq, E.
    + intros name Hne. unfold node_at. cbn. rewrite lookup_insert_ne by done. split; [done|].
      destruct (byName m !! name) as [p|] eqn:Ep; [|done]. cbn. rewrite lookup_insert_ne; [done|]. intros <-. by eapply Hnn.
    + intros name p Hp. rewrite lookup_insert_ne; [done|]. congruence.
    + intros name p [[_ <-]|[_ ?]]%lookup_insert_Some; [by right|by left].
    + intros p y Hy. rewrite lookup_insert_ne by congruence. by exists y.
    + intros p y Hy [[<- <-]|[_ Hy2]]%lookup_insert_Some; [done|congruence].
Qed.

Lemma referred_cons m m1 m' k ps : path_of k ∉ (path_of <$> ps) ->
  referred m m1 (fun name => name = path_of k) -> referred m1 m' (path_in ps) -> referred m m' (path_in (k :: ps)).
Proof.
  intros Hk [A1 A2 A3 A4 A5 A8 A6 A7] [B1 B2 B3 B4 B5 B8 B6 B7].
  assert (Hkn : ~ path_in ps (path_of k)).
  { intros (j & Hj & E). apply Hk. rewrite E. by apply list_elem_of_fmap_2. }
  split.
  - done.
  - destruct A2 as (? & ? & ?), B2 as (? & ? & ?). split_and!; congruence.
  - intros name (j & [->|Hj]%elem_of_cons & ->).
    + destruct (B4 _ Hkn) as [_ ->]. by apply A3.
    + rewrite B3 by (by exists j). destruct (A4 (path_of j)) as [_ ->]; [|done]. intros E. apply Hkn. exists j. by rewrite E.
  - intros name Hne. destruct (B4 name) as [-> ->]. { intros (j & Hj & E). apply Hne. exists j. split; [by right|done]. }
    apply A4. intros ->. apply Hne. exists k. split; [by left|done].
  - intros name p Hp. by apply B5, A5.
  - intros name p [Hp|Hp]%B8; [by apply A8|right]. destruct (store m !! p) eqn:E; [|done]. destruct (A6 _ _ E) as (? & ? & _). congruence.
  - intros p x Hx. destruct (A6 _ _ Hx) as (x1 & Hx1 & E1), (B6 _ _ Hx1) as (x2 & Hx2 & E2). exists x2. split; [done|congruence].
  - intros p x Hn Hx. destruct (store m1 !! p) as [x1|] eqn:E; [|by eapply B7]. pose proof (A7 _ _ Hn E) as H1.
    destruct (B6 _ _ E) as (x2 & Hx2 & E2). assert (x2 = x) as -> by congruence. rewrite E2, H1.
    apply (f_equal details) in E2. cbn in E2. by rewrite E2.
Qed.

Lemma referred_refl m (P : bytes -> Prop) : names_ok m -> (forall name, ~ P name) -> referred m m P.
Proof. intros Hm HP. split; try done; [intros name H; by destruct (HP name)|by left|by eauto|intros; congruence]. Qed.

Lemma path_not_in k ps : elems_ok k -> Forall elems_ok ps -> k ∉ ps -> path_of k ∉ (path_of <$> ps).
Proof.
  intros Hk Hps Hn (j & E & Hj)%list_elem_of_fmap. apply path_of_inj in E; [by subst|done|]. exact (proj1 (Forall_forall _ _) Hps _ Hj).
Qed.

Lemma create_list ps : forall first ret m, names_ok m -> Forall elems_ok ps -> NoDup ps ->
  exists ret' m', walk_list create_f ps first (ret, m) = Ok (true, (ret', m')) /\ referred m m' (path_in ps) /\
    match ps with k :: _ => if (first : bool) then exists n, ret' = Some n /\ byName m' !! path_of k = Some n else ret' = ret | [] => ret' = ret end.
Proof.
  induction ps as [|k ps IH]; intros first ret m Hm Hps Hnd.
  - exists ret, m. split; [done|]. split; [|done]. apply referred_refl; [done|]. by intros name (j & Hj%elem_of_nil & _).
  - apply Forall_cons in Hps as [Hk Hps]. apply NoDup_cons in Hnd as [Hkn Hnd]. cbn [walk_list].
    destruct (create_step (path_of k) first ret m Hm) as (n & m1 & -> & Hn & Hr). cbn [mbind outcome_bind negb].
    destruct (IH false (if first then Some n else ret) m1) as (ret' & m' & -> & Hr' & Hret); [apply Hr|done|done|].
    exists ret', m'. split; [done|]. split; [eapply referred_cons; [by apply path_not_in|done|done]|].
    assert (ret' = if first then Some n else ret) as -> by by destruct ps. destruct first; [|done].
    exists n. split; [done|]. by apply (rf_old _ _ _ Hr').
Qed.

Lemma prefixes_ok l : elems_ok l -> Forall elems_ok (prefixes l).
Proof. intros Hl. apply Forall_forall. intros p [k ->]%prefixes_spec. by apply Forall_app in Hl as [? _]. Qed.

Lemma prefixes_head l : exists ps, prefixes l = l :: ps.
Proof. destruct l as [|e l _] using rev_ind; [by exists []|]. rewrite prefixes_snoc. by eexists. Qed.

(** [create]: the nodes from the name to the root get one more reference. *)
Lemma create_spec l m : elems_ok l -> names_ok m ->
  exists n m', create (path_of l) m = Ok (n, m') /\ byName m' !! path_of l = Some n /\ referred m m' (path_in (prefixes l)).
Proof.
  intros Hl Hm. destruct (create_list (prefixes l) true None m Hm (prefixes_ok l Hl) (prefixes_NoDup l)) as (ret & m' & Hw & Hr & Hret).
  destruct (prefixes_head l) as [ps E]. rewrite E in Hret. destruct Hret as (n & -> & Hn). exists n, m'. split; [|done].
  unfold create. change (walkToRoot create_f (path_of l) (None, m) ≫= (fun '(_, (ret, m)) => n ← or_panic ret; Ok (n, m)) = Ok (n, m')).
  rewrite walkToRoot_spec by done. by rewrite Hw.
Qed.

(** * [remove] *)

Definition unrefer (x : memLSNode) : memLSNode := set_refCount (refCount x - 1) x.

Record unreferred (m m' : memLS) (changed : bytes -> Prop) : Prop := {
  uf_names : names_ok m';
  uf_rest : rest_same m m';
  uf_in : forall name x, changed name -> node_at m name = Some x -> node_at m' name = if refCount x =? 1 then None else Some (unrefer x);
  uf_out : forall name, ~ changed name -> byName m' !! name = byName m !! name /\ node_at m' name = node_at m name;
  uf_old : forall name p, byName m' !! name = Some p -> byName m !! name = Some p;
  uf_store : forall p x, store m !! p = Some x -> exists x', store m' !! p = Some x' /\ norefs x' = norefs x;
  uf_dom : forall p, store m !! p = None -> store m' !! p = None }.

Definition remove_f (name0 : bytes) (first : bool) (m : memLS) : fl (bool * memLS) :=
  p ← or_panic (byName m !! name0);
  m ← update p (fun x => set_refCount (refCount x - 1) x) m;
  x ← deref p m;
  Ok (true, if refCount x =? 0 then with_byName (delete name0 (byName m)) m else m).

Lemma remove_step name0 first m x : names_ok m -> node_at m name0 = Some x ->
  exists m', remove_f name0 first m = Ok (true, m') /\ unreferred m m' (fun name => name = name0).
Proof.
  intros Hm (n & E & Hx)%node_at_some. destruct (no_node _ Hm _ _ E) as (x' & Hx' & Hr). assert (x' = x) as -> by congruence.
  unfold remove_f. rewrite E. cbn [or_panic mbind outcome_bind]. rewrite (update_some _ _ _ x Hx). cbn [mbind outcome_bind].
  fold (unrefer x). set (m1 := with_store _ m). unfold deref. cbn [m1 with_store store]. rewrite lookup_insert_eq. cbn [or_panic mbind outcome_bind].
  fold m1. set (m' := if refCount (unrefer x) =? 0 then with_byName (delete name0 (byName m1)) m1 else m1). exists m'. split; [done|].
  assert (Hst : store m' = <[n := unrefer x]> (store m)) by (unfold m'; by case_match).
  assert (Hfr : fresh m' = fresh m) by (unfold m'; by case_match).
  assert (Hsub : forall name p, byName m' !! name = Some p -> byName m !! name = Some p).
  { intros name p. unfold m'. case_match; [|done]. cbn. by intros [_ ?]%lookup_delete_Some. }
  assert (Hne : forall name, name <> name0 -> byName m' !! name = byName m !! name).
  { intros name Hn. unfold m'. case_match; [|done]. cbn. by rewrite lookup_delete_ne. }
  assert (Hlk : forall p y, store m !! p = Some y -> exists y', store m' !! p = Some y' /\ norefs y' = norefs y).
  { intros p y Hy. rewrite Hst. destruct (decide (p = n)) as [->|Hp]; [|rewrite lookup_insert_ne by done; by exists y].
    rewrite lookup_insert_eq. eexists. split; [done|]. assert (y = x) as -> by congruence. done. }
  split.
  - split.
    + intros name p Hp. apply Hsub in Hp. destruct (no_node _ Hm _ _ Hp) as (y & Hy & Hry). destruct (Hlk _ _ Hy) as (y' & Hy' & Ey).
      exists y'. split; [done|]. apply (f_equal details) in Ey. cbn in Ey. by rewrite Ey.
    + intros p y. rewrite Hst, Hfr. destruct (decide (p = n)) as [->|Hp]; [intros _; by eapply (no_fresh _ Hm)|rewrite lookup_insert_ne by done; apply (no_fresh _ Hm)].
  - unfold m'. by case_match.
  - intros name y -> Hy%node_at_some. destruct Hy as (p & Hp & Hy). assert (p = n) as -> by congruence. assert (y = x) as -> by congruence.
    unfold node_at. rewrite Hst. unfold m'. change (refCount (unrefer x)) with (refCount x - 1).
    destruct (Z.eqb_spec (refCount x) 1) as [E1|E1]; [rewrite (proj2 (Z.eqb_eq _ _)) by lia|rewrite (proj2 (Z.eqb_neq _ _)) by lia]; cbn.
    + by rewrite lookup_delete_eq.
    + rewrite E. cbn. by rewrite lookup_insert_eq.
  - intros name Hn. unfold node_at. rewrite Hne by done. split; [done|]. destruct (byName m !! name) as [p|] eqn:Ep; [|done]. cbn.
    rewrite Hst, lookup_insert_ne; [done|]. intros <-. apply Hn. by eapply names_inj.
  - done.
  - done.
  - intros p Hp. rewrite Hst, lookup_insert_ne by congruence. done.
Qed.

Lemma unreferred_cons m m1 m' k ps : path_of k ∉ (path_of <$> ps) ->
  unreferred m m1 (fun name => name = path_of k) -> unreferred m1 m' (path_in ps) -> unreferred m m' (path_in (k :: ps)).
Proof.
  intros Hk [A1 A2 A3 A4 A5 A6 A7] [B1 B2 B3 B4 B5 B6 B7].
  assert (Hkn : ~ path_in ps (path_of k)).
  { intros (j & Hj & E). apply Hk. rewrite E. by apply list_elem_of_fmap_2. }
  split.
  - done.
  - destruct A2 as (? & ? & ?), B2 as (? & ? & ?). split_and!; congruence.
  - intros name x (j & [->|Hj]%elem_of_cons & ->) Hx.
    + destruct (B4 _ Hkn) as [_ ->]. by apply A3.
    + apply B3; [by exists j|]. destruct (A4 (path_of j)) as [_ ->]; [|done]. intros E. apply Hkn. exists j. by rewrite E.
  - intros name Hne. destruct (B4 name) as [-> ->]. { intros (j & Hj & E). apply Hne. exists j. split; [by right|done]. }
    apply A4. intros ->. apply Hne. exists k. split; [by left|done].
  - intros name p Hp. by apply A5, B5.
  - intros p x Hx. destruct (A6 _ _ Hx) as (x1 & Hx1 & E1), (B6 _ _ Hx1) as (x2 & Hx2 & E2). exists x2. split; [done|congruence].
  - intros p Hp. by apply B7, A7.
Qed.

Lemma remove_list ps : forall first m, names_ok m -> Forall elems_ok ps -> NoDup ps -> (forall k, k ∈ ps -> is_Some (node_at m (path_of k))) ->
  exists m', walk_list remove_f ps first m = Ok (true, m') /\ unreferred m m' (path_in ps).
Proof.
  induction ps as [|k ps IH]; intros first m Hm Hps Hnd Hin.
  - exists m. split; [done|]. split; try done; [by intros name x (j & Hj%elem_of_nil & _)|by eauto].
  - apply Forall_cons in Hps as [Hk Hps]. apply NoDup_cons in Hnd as [Hkn Hnd]. cbn [walk_list].
    destruct (Hin k) as [x Hx]; [by left|]. destruct (remove_step (path_of k) first m x Hm Hx) as (m1 & -> & Hr). cbn [mbind outcome_bind negb].
    pose proof (path_not_in k ps Hk Hps Hkn) as Hkp.
    destruct (IH false m1) as (m' & -> & Hr'); [apply Hr|done|done| |].
    { intros j Hj. destruct (uf_out _ _ _ Hr (path_of j)) as [_ ->]; [|apply Hin; by right].
      intros E. apply Hkp. rewrite <- E. by apply list_elem_of_fmap_2. }
    exists m'. split; [done|]. by eapply unreferred_cons.
Qed.

(** [canCreate] reads one node per prefix. *)
Definition admits (zeroDepth first : bool) (o : option memLSNode) : bool :=
  match o with
  | None => true
  | Some x =>
      let locked := negb (bool_decide (token x = [])) in
      if first then negb locked && zeroDepth else negb (locked && negb (ZeroDepth (details x)))
  end.

Fixpoint admits_all (zeroDepth first : bool) (m : memLS) (ps : list (list bytes)) : bool :=
  match ps with [] => true | k :: ps => admits zeroDepth first (node_at m (path_of k)) && admits_all zeroDepth false m ps end.

Lemma canCreate_spec l zeroDepth m : elems_ok l -> names_ok m -> canCreate (path_of l) zeroDepth m = Ok (admits_all zeroDepth true m (prefixes l)).
Proof.
  intros Hl Hm. unfold canCreate. set (f := fun name0 first m => _). rewrite walkToRoot_spec by done.
  assert (Hf : forall name first, f name first m = Ok (admits zeroDepth first (node_at m name), m)).
  { intros name first. unfold f, node_at. destruct (byName m !! name) as [p|] eqn:E; [|done]. cbn.
    destruct (no_node _ Hm _ _ E) as (x & Hx & _). unfold deref. by rewrite Hx. }
  assert (H : forall ps first, exists m', walk_list f ps first m = Ok (admits_all zeroDepth first m ps, m')).
  { induction ps as [|k ps IH]; intros first; [by exists m|]. cbn [walk_list admits_all]. rewrite Hf. cbn [mbind outcome_bind].
    destruct (admits _ _ _); cbn [negb andb]; [apply IH|by exists m]. }
  destruct (H (prefixes l) true) as [m' ->]. done.
Qed.
