(* ===== verification/WebdavLockInv.v ===== *)
(** The invariant of the lock system, and that each step on it is the step of the
    table of locks. *)
From S2P Require Import Prelude GoHeap WebdavPath WebdavLock WebdavHeap WebdavLockSpec WebdavLockWalk.

(** * Counting *)

(** The locked names at or below a name. *)
Definition count (L : gset (list bytes)) (k : list bytes) : nat := size (filter (fun l => k `prefix_of` l) L).

Lemma count_pos L k : (0 < count L k)%nat <-> exists l, l ∈ L /\ k `prefix_of` l.
Proof.
  unfold count. split.
  - intros H. destruct (set_choose_or_empty (filter (fun l => k `prefix_of` l) L)) as [[l Hl]|E].
    + apply elem_of_filter in Hl as [? ?]. by exists l.
    + apply size_empty_iff in E. lia.
  - intros (l & Hl & Hp). apply Nat.neq_0_lt_0. intros E. apply size_empty_iff in E. specialize (E l).
    rewrite elem_of_filter in E. by apply (not_elem_of_empty (C := gset (list bytes)) l), E.
Qed.

Lemma count_add L l k : l ∉ L -> count ({[l]} ∪ L) k = (count L k + if decide (k `prefix_of` l) then 1 else 0)%nat.
Proof.
  intros Hl. unfold count. rewrite (leibniz_equiv _ _ (filter_union (fun l => k `prefix_of` l) {[l]} L)).
  rewrite (leibniz_equiv _ _ (filter_singleton (fun l => k `prefix_of` l) l)). case_decide as Hp.
  - rewrite size_union, size_singleton; [lia|]. intros x ->%elem_of_singleton [_ ?]%elem_of_filter. done.
  - rewrite union_empty_l_L. lia.
Qed.

Lemma count_del L l k : l ∈ L -> count L k = (count (L ∖ {[l]}) k + if decide (k `prefix_of` l) then 1 else 0)%nat.
Proof.
  intros Hl. rewrite <- count_add by (intros [_ H]%elem_of_difference; by apply H, elem_of_singleton).
  f_equal. apply set_eq. intros x. rewrite elem_of_union, elem_of_difference, elem_of_singleton. destruct (decide (x = l)) as [->|]; tauto.
Qed.

(** * The invariant *)

Record inv (m : memLS) (L : gset (list bytes)) : Prop := {
  v_names : names_ok m;
  v_heap : heap_ok m;
  v_path : forall name p, byName m !! name = Some p -> exists l, elems_ok l /\ name = path_of l;
  v_node : forall l x, elems_ok l -> node_at m (path_of l) = Some x ->
    refCount x = Z.of_nat (count L l) /\ (token x <> [] <-> l ∈ L) /\ (token x = [] -> held x = false);
  v_dom : forall l, elems_ok l -> is_Some (byName m !! path_of l) <-> (0 < count L l)%nat;
  v_elems : forall l, l ∈ L -> elems_ok l;
  v_token : forall t p, byToken m !! t = Some p ->
    exists x, store m !! p = Some x /\ token x = t /\ t <> [] /\ byName m !! Root (details x) = Some p;
  v_named : forall name p x, byName m !! name = Some p -> store m !! p = Some x -> token x <> [] -> byToken m !! token x = Some p;
  v_expiry : forall p, p ∈ byExpiry m <->
    exists t x, byToken m !! t = Some p /\ store m !! p = Some x /\ held x = false /\ finite (details x) = true;
  v_compat : forall t u p q x y, byToken m !! t = Some p -> byToken m !! u = Some q -> t <> u ->
    store m !! p = Some x -> store m !! q = Some y -> conflict (details x) (details y) = false;
  v_gen : 0 <= gen m < 2 ^ 64;
  v_tokens : forall t, is_Some (byToken m !! t) -> exists z, 0 <= z <= gen m /\ t = FormatUint z }.

(** The table a lock system stands for. *)
Definition abs_node (x : memLSNode) : lock := mkLock (details x) (if finite (details x) then expiry x else 0) (held x).
Definition abs (m : memLS) : table := mkTable (omap (fun p => abs_node <$> store m !! p) (byToken m)) (gen m).

Lemma abs_lookup m t : locks (abs m) !! t = byToken m !! t ≫= fun p => abs_node <$> store m !! p.
Proof. cbn. by rewrite lookup_omap. Qed.

Lemma abs_token m L t p : inv m L -> byToken m !! t = Some p ->
  exists x, store m !! p = Some x /\ token x = t /\ locks (abs m) !! t = Some (abs_node x).
Proof.
  intros Hi Hp. destruct (v_token _ _ Hi _ _ Hp) as (x & Hx & Ht & _). exists x. split_and!; [done|done|].
  rewrite abs_lookup, Hp. cbn. by rewrite Hx.
Qed.

Lemma abs_none m t : byToken m !! t = None -> locks (abs m) !! t = None.
Proof. intros H. by rewrite abs_lookup, H. Qed.

Lemma token_inj m L t u p : inv m L -> byToken m !! t = Some p -> byToken m !! u = Some p -> t = u.
Proof. intros Hi H1 H2. destruct (v_token _ _ Hi _ _ H1) as (x & Hx & <- & _), (v_token _ _ Hi _ _ H2) as (y & Hy & <- & _). congruence. Qed.

(** The path of a locked node. *)
Lemma token_path m L t p : inv m L -> byToken m !! t = Some p ->
  exists x l, store m !! p = Some x /\ elems_ok l /\ Root (details x) = path_of l /\ node_at m (path_of l) = Some x /\ l ∈ L /\ t = token x /\ t <> [].
Proof.
  intros Hi Hp. destruct (v_token _ _ Hi _ _ Hp) as (x & Hx & Ht & Hne & Hn). destruct (v_path _ _ Hi _ _ Hn) as (l & Hl & El).
  rewrite El in Hn. assert (Hna : node_at m (path_of l) = Some x) by (apply node_at_some; eauto).
  exists x, l. split_and!; try done. apply (v_node _ _ Hi l x Hl Hna). by rewrite Ht.
Qed.

Lemma inv_NewMemLS unix : 0 <= unix < 2 ^ 64 -> inv (NewMemLS unix) ∅.
Proof.
  intros Hu. unfold NewMemLS. rewrite (wrap_id 64 unix Hu : u64 unix = unix).
  assert (Hc : forall l, count ∅ l = O).
  { intros l. destruct (decide (0 < count ∅ l)%nat) as [H|]; [|lia]. apply count_pos in H as (k & Hk & _). by apply elem_of_empty in Hk. }
  assert (Hno : forall (k : bytes) (p : positive), (∅ : gmap bytes positive) !! k = Some p -> False) by (intros k p H; by rewrite lookup_empty in H).
  split; cbn [store byName byToken gen byExpiry fresh]; try done; try (intros * H; by destruct (Hno _ _ H)).
  - split; cbn [store byName byToken gen byExpiry fresh].
    + intros i p H. cbn in H. by rewrite lookup_nil in H.
    + intros p x H. by rewrite lookup_empty in H.
    + intros i Hi. change (len (@nil positive)) with 0 in Hi. lia.
  - intros l. rewrite Hc. intros _. split; [intros [p H]; by destruct (Hno _ _ H)|lia].
  - intros p. split; [by intros ?%elem_of_nil|]. intros (t & x & H & _). by destruct (Hno _ _ H).
  - intros t [p H]. by destruct (Hno _ _ H).
Qed.

(** * Changing one locked node *)

(** A change of the held mark, the duration, the expiry and the place in the heap
    of the lock with token [t]. *)
Lemma inv_change m L t n x m' x' : inv m L -> byToken m !! t = Some n -> store m !! n = Some x ->
  byName m' = byName m -> byToken m' = byToken m -> gen m' = gen m -> fresh m' = fresh m ->
  (forall p, p <> n -> noidx <$> store m' !! p = noidx <$> store m !! p) ->
  store m' !! n = Some x' -> token x' = token x -> refCount x' = refCount x ->
  Root (details x') = Root (details x) -> ZeroDepth (details x') = ZeroDepth (details x) ->
  heap_ok m' -> (forall p, p <> n -> p ∈ byExpiry m' <-> p ∈ byExpiry m) ->
  (n ∈ byExpiry m' <-> held x' = false /\ finite (details x') = true) ->
  inv m' L /\ abs m' = with_locks (<[t := abs_node x']> (locks (abs m))) (abs m).
Proof.
  intros Hi Ht Hx EN ET EG EF Hst Hx' Etok Eref Eroot Ezero Hho Hmem Hn.
  assert (Hold : forall p y', store m' !! p = Some y' -> exists y, store m !! p = Some y /\ token y' = token y /\ refCount y' = refCount y /\
    Root (details y') = Root (details y) /\ ZeroDepth (details y') = ZeroDepth (details y) /\ (p <> n -> held y' = held y /\ abs_node y' = abs_node y)).
  { intros p y' Hy'. destruct (decide (p = n)) as [->|Hp].
    - assert (y' = x') as -> by congruence. exists x. by split_and!.
    - specialize (Hst p Hp). rewrite Hy' in Hst. destruct (store m !! p) as [y|]; [|done]. cbn in Hst. injection Hst as E1 E2 E3 E4 E5.
      exists y. split_and!; try done; [by rewrite E1|by rewrite E1|]. intros _. split; [done|]. unfold abs_node. by rewrite E1, E4, E5. }
  assert (Hnew : forall p y, store m !! p = Some y -> exists y', store m' !! p = Some y').
  { intros p y Hy. destruct (decide (p = n)) as [->|Hp]; [eauto|]. specialize (Hst p Hp). rewrite Hy in Hst.
    destruct (store m' !! p); [eauto|done]. }
  assert (Habs : abs m' = with_locks (<[t := abs_node x']> (locks (abs m))) (abs m)).
  { unfold with_locks. unfold abs at 1. f_equal; [|done]. apply map_eq. intros u. rewrite ET. rewrite lookup_omap.
    destruct (decide (u = t)) as [->|Hu]; [rewrite lookup_insert_eq, Ht; cbn; by rewrite Hx'|].
    rewrite lookup_insert_ne, abs_lookup by done. destruct (byToken m !! u) as [p|] eqn:Ep; [|done]. cbn.
    assert (Hpn : p <> n) by (intros ->; apply Hu; by eapply token_inj).
    destruct (v_token _ _ Hi _ _ Ep) as (y & Hy & _). destruct (Hnew _ _ Hy) as [y' Hy']. destruct (Hold _ _ Hy') as (y2 & Hy2 & _ & _ & _ & _ & H).
    rewrite Hy', Hy2. cbn. f_equal. by apply H. }
  split; [|done].
  assert (Hna : forall name y', node_at m' name = Some y' -> exists y, node_at m name = Some y /\ token y' = token y /\ refCount y' = refCount y /\
    (token y' = [] -> held y' = held y)).
  { intros name y' (p & Hp & Hy')%node_at_some. rewrite EN in Hp. destruct (Hold _ _ Hy') as (y & Hy & E1 & E2 & _ & _ & H). exists y.
    split_and!; [apply node_at_some; eauto|done|done|]. intros E. apply H. intros ->. assert (y' = x') as -> by congruence.
    destruct (v_token _ _ Hi _ _ Ht) as (x2 & Hx2 & Et & Hne & _). assert (x2 = x) as -> by congruence. congruence. }
  destruct Hi as [H1 H2 H3 H4 H5 H6 H7 H8 H9 H10 H11 H12]. split; rewrite ?EN, ?ET, ?EG; try done.
  - split; rewrite ?EN, ?EF.
    + intros name p Hp. destruct (no_node _ H1 _ _ Hp) as (y & Hy & Er). destruct (Hnew _ _ Hy) as [y' Hy'].
      destruct (Hold _ _ Hy') as (y2 & Hy2 & _ & _ & E & _). exists y'. split; [done|]. rewrite E. congruence.
    + intros p y' Hy'. destruct (Hold _ _ Hy') as (y & Hy & _). by eapply (no_fresh _ H1).
  - intros l y' Hl Hy'. destruct (Hna _ _ Hy') as (y & Hy & E1 & E2 & E3). destruct (H4 l y Hl Hy) as (K1 & K2 & K3).
    split_and!; [by rewrite E2|by rewrite E1|]. intros E. rewrite E3 by done. apply K3. by rewrite <- E1.
  - intros u p Hp. destruct (H7 _ _ Hp) as (y & Hy & Et & Hne & Hnm). destruct (Hnew _ _ Hy) as [y' Hy'].
    destruct (Hold _ _ Hy') as (y2 & Hy2 & E1 & _ & E2 & _). assert (y2 = y) as -> by congruence. exists y'. by rewrite E1, E2.
  - intros name p y' Hp Hy' Hne. destruct (Hold _ _ Hy') as (y & Hy & E & _). rewrite E in *. by eapply H8.
  - intros p. destruct (decide (p = n)) as [->|Hp].
    + rewrite Hn. split.
      * intros [? ?]. by exists t, x'.
      * intros (u & y & Hu & Hy & ? & ?). assert (y = x') as -> by congruence. done.
    + rewrite Hmem, H9 by done. split; intros (u & y & Hu & Hy & Hh & Hf).
      * destruct (Hnew _ _ Hy) as [y' Hy']. destruct (Hold _ _ Hy') as (y2 & Hy2 & _ & _ & _ & _ & H). destruct (H Hp) as [Eh Ea].
        assert (y2 = y) as -> by congruence. exists u, y'. split_and!; [done|done|by rewrite Eh|]. apply (f_equal l_details) in Ea. cbn in Ea. by rewrite Ea.
      * destruct (Hold _ _ Hy) as (y2 & Hy2 & _ & _ & _ & _ & H). destruct (H Hp) as [Eh Ea].
        exists u, y2. split_and!; [done|done|by rewrite <- Eh|]. apply (f_equal l_details) in Ea. cbn in Ea. by rewrite <- Ea.
  - intros u1 u2 p1 p2 y1 y2 Hp1 Hp2 Hne Hy1 Hy2. destruct (Hold _ _ Hy1) as (z1 & Hz1 & _ & _ & R1 & Z1 & _), (Hold _ _ Hy2) as (z2 & Hz2 & _ & _ & R2 & Z2 & _).
    unfold conflict, covers. rewrite R1, R2, Z1, Z2. exact (H10 u1 u2 p1 p2 z1 z2 Hp1 Hp2 Hne Hz1 Hz2).
Qed.

(** * [remove] *)

Lemma rest_same_refl m : rest_same m m.
Proof. done. Qed.

(** The heap does not see names, tokens and references. *)
Lemma heap_ok_frame m m' : heap_ok m -> byExpiry m' = byExpiry m ->
  (forall p x, store m !! p = Some x -> exists x', store m' !! p = Some x' /\ byExpiryIndex x' = byExpiryIndex x /\ expiry x' = expiry x) ->
  (forall p x', store m' !! p = Some x' -> p ∉ byExpiry m -> byExpiryIndex x' = -1) -> heap_ok m'.
Proof.
  intros Hh Hb Hst Hnew. pose proof Hh as [Hg _ _].
  assert (Hh2 : heap_ok (with_store (store m') m)).
  { apply heap_ok_store; [done| |done]. intros p (i & Hi)%list_elem_of_lookup_1. destruct (Hg _ _ Hi) as (x & Hx & _).
    destruct (Hst _ _ Hx) as (x' & Hx' & E1 & E2). by exists x, x'. }
  destruct Hh2 as [K1 K2 K3]. split; rewrite ?Hb; try done.
  - intros i p. rewrite Hb. apply K1.
  - intros i Hi. unfold key. rewrite Hb. by apply K3.
Qed.

(** The names after the walk of [remove]. *)
Lemma remove_names m m0 L l m1 : inv m L -> l ∈ L -> byName m0 = byName m -> names_ok m0 ->
  (forall k x, elems_ok k -> node_at m0 (path_of k) = Some x -> refCount x = Z.of_nat (count L k)) ->
  unreferred m0 m1 (path_in (prefixes l)) ->
  (forall k, elems_ok k -> is_Some (byName m1 !! path_of k) <-> (0 < count (L ∖ {[l]}) k)%nat) /\
  (forall k y, elems_ok k -> node_at m1 (path_of k) = Some y -> refCount y = Z.of_nat (count (L ∖ {[l]}) k)).
Proof.
  intros Hi Hl HN Hm0 Hnode Hr. pose proof (v_elems _ _ Hi _ Hl) as Hle.
  assert (Hin : forall k, elems_ok k -> path_in (prefixes l) (path_of k) <-> k `prefix_of` l).
  { intros k Hk. rewrite <- prefixes_spec. split; [|by exists k]. intros (j & Hj & E). apply path_of_inj in E; [by subst|done|].
    exact (proj1 (Forall_forall _ _) (prefixes_ok _ Hle) _ Hj). }
  assert (Hstep : forall k, elems_ok k -> k `prefix_of` l -> exists x, node_at m0 (path_of k) = Some x /\
    node_at m1 (path_of k) = if Z.of_nat (count L k) =? 1 then None else Some (unrefer x)).
  { intros k Hk Hp. pose proof (count_del L l k Hl) as Hc. rewrite decide_True in Hc by done.
    assert (Hpos : is_Some (byName m !! path_of k)) by (apply (v_dom _ _ Hi k Hk); lia). destruct Hpos as [p Hpk]. rewrite <- HN in Hpk.
    destruct (no_node _ Hm0 _ _ Hpk) as (x & Hx & _). assert (Hna : node_at m0 (path_of k) = Some x) by (apply node_at_some; eauto).
    exists x. split; [done|]. rewrite (uf_in _ _ _ Hr _ x (proj2 (Hin k Hk) Hp) Hna). by rewrite (Hnode k x Hk Hna). }
  split.
  - intros k Hk. pose proof (count_del L l k Hl) as Hc. destruct (decide (k `prefix_of` l)) as [Hp|Hp].
    + destruct (Hstep k Hk Hp) as (x & _ & Hn'). destruct (Z.eqb_spec (Z.of_nat (count L k)) 1).
      * apply node_at_none in Hn'; [|apply Hr]. rewrite Hn'. split; [by intros [? ?]|lia].
      * apply node_at_some in Hn' as (p' & -> & _). split; [lia|eauto].
    + destruct (uf_out _ _ _ Hr (path_of k)) as [-> _]; [by rewrite Hin|]. rewrite HN, (v_dom _ _ Hi k Hk). lia.
  - intros k y Hk Hy. pose proof (count_del L l k Hl) as Hc. destruct (decide (k `prefix_of` l)) as [Hp|Hp].
    + destruct (Hstep k Hk Hp) as (x & Hx & Hn'). rewrite Hy in Hn'. case_match; [done|]. injection Hn' as ->.
      cbn. rewrite (Hnode k x Hk Hx). lia.
    + destruct (uf_out _ _ _ Hr (path_of k)) as [_ E]; [by rewrite Hin|]. rewrite E in Hy. rewrite (Hnode k y Hk Hy). f_equal. lia.
Qed.

(** A lock system with the lock of [n] gone: the parts, put together. *)
Lemma inv_removed m L t n x l m2 : inv m L -> byToken m !! t = Some n -> store m !! n = Some x -> held x = false ->
  Root (details x) = path_of l -> l ∈ L -> heap_ok m2 -> names_ok m2 ->
  byToken m2 = delete t (byToken m) -> gen m2 = gen m ->
  (forall name p, byName m2 !! name = Some p -> byName m !! name = Some p) ->
  (forall k, elems_ok k -> is_Some (byName m2 !! path_of k) <-> (0 < count (L ∖ {[l]}) k)%nat) ->
  (forall k y, elems_ok k -> node_at m2 (path_of k) = Some y -> refCount y = Z.of_nat (count (L ∖ {[l]}) k)) ->
  (forall p y, store m !! p = Some y -> exists y', store m2 !! p = Some y' /\ details y' = details y /\ held y' = held y /\ expiry y' = expiry y /\
     token y' = if decide (p = n) then [] else token y) ->
  (forall p, store m !! p = None -> store m2 !! p = None) ->
  (forall p, p ∈ byExpiry m2 <-> p ∈ byExpiry m /\ p <> n) ->
  inv m2 (L ∖ {[l]}) /\ abs m2 = with_locks (delete t (locks (abs m))) (abs m).
Proof.
  intros Hi Ht Hx Hh Hroot Hl Hho Hnm ET EG Hsub Hdom Href Hst Hnone Hexp.
  assert (Hback : forall p y', store m2 !! p = Some y' -> exists y, store m !! p = Some y /\ details y' = details y /\ held y' = held y /\ expiry y' = expiry y /\
     token y' = if decide (p = n) then [] else token y).
  { intros p y' Hy'. destruct (store m !! p) as [y|] eqn:E; [|by rewrite Hnone in Hy']. exists y. split; [done|].
    destruct (Hst _ _ E) as (y2 & Hy2 & H). assert (y2 = y') as -> by congruence. done. }
  assert (Hpt : forall u p, u <> t -> byToken m !! u = Some p -> p <> n) by (intros u p Hu Hp ->; apply Hu; by eapply token_inj).
  split.
  - split; try done.
    + intros name p Hp. eapply v_path; [done|by apply Hsub].
    + intros k y' Hk Hy'. split; [by apply Href|]. apply node_at_some in Hy' as (p & Hp%Hsub & Hy').
      destruct (Hback _ _ Hy') as (y & Hy & _ & Eh & _ & Etok). assert (Hna : node_at m (path_of k) = Some y) by (apply node_at_some; eauto).
      destruct (v_node _ _ Hi k y Hk Hna) as (_ & Hin & Hheld). rewrite Etok, Eh, elem_of_difference, elem_of_singleton.
      assert (Hkl : p = n <-> k = l).
      { destruct (v_token _ _ Hi _ _ Ht) as (x2 & Hx2 & _ & _ & Hn). assert (x2 = x) as -> by congruence. rewrite Hroot in Hn. split.
        - intros ->. apply path_of_inj; [done|by eapply v_elems|]. eapply names_inj; [apply Hi|done|done].
        - intros ->. congruence. }
      case_decide as Ep.
      * split; [split; [done|tauto]|]. intros _. assert (y = x) as -> by congruence. done.
      * split; [|exact Hheld]. rewrite Hin. tauto.
    + intros k [Hk _]%elem_of_difference. by eapply v_elems.
    + intros u p. rewrite ET. intros [Hu Hp]%lookup_delete_Some. pose proof (Hpt u p ltac:(congruence) Hp) as Hpn.
      destruct (token_path _ _ _ _ Hi Hp) as (y & k & Hy & Hk & Hrk & Hna & HkL & Eu & Hne). destruct (Hst _ _ Hy) as (y' & Hy' & Ed & _ & _ & Etok).
      rewrite decide_False in Etok by done. exists y'. split_and!; [done|congruence|done|]. rewrite Ed, Hrk.
      assert (Hkl : k <> l).
      { intros ->. destruct (v_token _ _ Hi _ _ Ht) as (x2 & Hx2 & _ & _ & Hn). assert (x2 = x) as -> by congruence.
        apply node_at_some in Hna as (p2 & Hp2 & Hy2). destruct (v_token _ _ Hi _ _ Hp) as (y3 & Hy3 & _ & _ & Hn3). assert (y3 = y) as -> by congruence. congruence. }
      assert (Hs : is_Some (byName m2 !! path_of k)).
      { apply Hdom; [done|]. apply count_pos. exists k. split; [|done]. by apply elem_of_difference; rewrite elem_of_singleton. }
      destruct Hs as [p' Hp']. rewrite Hp'. f_equal. apply Hsub in Hp'. destruct (v_token _ _ Hi _ _ Hp) as (y3 & Hy3 & _ & _ & Hn3).
      assert (y3 = y) as -> by congruence. congruence.
    + intros name p y' Hp%Hsub Hy' Hne. rewrite ET. destruct (Hback _ _ Hy') as (y & Hy & _ & _ & _ & Etok). case_decide as Ep; [done|].
      rewrite Etok in *. rewrite lookup_delete_ne; [by eapply v_named|]. intros ->. pose proof (v_named _ _ Hi _ _ _ Hp Hy Hne). congruence.
    + intros p. rewrite Hexp, (v_expiry _ _ Hi), ET. split.
      * intros [(u & y & Hu & Hy & E1 & E2) Hp]. destruct (Hst _ _ Hy) as (y' & Hy' & Ed & Eh & _). exists u, y'.
        rewrite lookup_delete_ne, Ed, Eh by congruence. done.
      * intros (u & y' & [Hu Hp]%lookup_delete_Some & Hy' & E1 & E2). destruct (Hback _ _ Hy') as (y & Hy & Ed & Eh & _).
        split; [|by eapply Hpt]. exists u, y. by rewrite <- Ed, <- Eh.
    + intros u1 u2 p1 p2 y1 y2. rewrite ET. intros [_ Hp1]%lookup_delete_Some [_ Hp2]%lookup_delete_Some Hne Hy1 Hy2.
      destruct (Hback _ _ Hy1) as (z1 & Hz1 & -> & _), (Hback _ _ Hy2) as (z2 & Hz2 & -> & _). by eapply (v_compat _ _ Hi u1 u2).
    + rewrite EG. apply Hi.
    + intros u. rewrite ET, EG. intros [p [_ Hp]%lookup_delete_Some]. eapply v_tokens; [done|eauto].
  - unfold with_locks. unfold abs at 1. rewrite EG. f_equal. apply map_eq. intros u. rewrite lookup_omap, ET.
    destruct (decide (u = t)) as [->|Hu]; [by rewrite !lookup_delete_eq|]. rewrite !lookup_delete_ne by done. rewrite abs_lookup.
    destruct (byToken m !! u) as [p|] eqn:Ep; [|done]. cbn. destruct (v_token _ _ Hi _ _ Ep) as (y & Hy & _).
    destruct (Hst _ _ Hy) as (y' & Hy' & Ed & Eh & Ee & _). rewrite Hy, Hy'. cbn. f_equal. unfold abs_node. by rewrite Ed, Eh, Ee.
Qed.

Lemma remove_ok m L t n x : inv m L -> byToken m !! t = Some n -> store m !! n = Some x -> held x = false ->
  exists m' L', remove n m = Ok m' /\ inv m' L' /\ abs m' = with_locks (delete t (locks (abs m))) (abs m) /\ byToken m' = delete t (byToken m) /\
    (n ∈ byExpiry m -> length (byExpiry m) = S (length (byExpiry m'))).
Proof.
  intros Hi Ht Hx Hh. destruct (token_path _ _ _ _ Hi Ht) as (x2 & l & Hx2 & Hl & Hroot & Hna & HlL & Et & Hne).
  assert (x2 = x) as -> by congruence. unfold remove. rewrite (deref_some _ _ _ Hx). cbn [mbind outcome_bind]. rewrite <- Et.
  rewrite (update_some n _ _ x) by done. cbn [mbind outcome_bind].
  set (m0 := with_store _ _). pose proof (v_names _ _ Hi) as Hm.
  assert (Hm0 : names_ok m0).
  { split; cbn.
    - intros name p Hp. destruct (decide (p = n)) as [->|Hpn].
      + rewrite lookup_insert_eq. eexists. split; [done|]. destruct (no_node _ Hm _ _ Hp) as (y & Hy & E). cbn. congruence.
      + rewrite lookup_insert_ne by done. by apply (no_node _ Hm).
    - intros p y [[<- _]|[_ Hy]]%lookup_insert_Some; by eapply (no_fresh _ Hm). }
  assert (Href0 : forall k y, elems_ok k -> node_at m0 (path_of k) = Some y -> refCount y = Z.of_nat (count L k)).
  { intros k y Hk (p & Hp & Hy)%node_at_some. cbn in Hp, Hy. apply lookup_insert_Some in Hy as [[<- <-]|[_ Hy]];
      [change (refCount (set_token [] x)) with (refCount x)|]; (apply (v_node _ _ Hi k _ Hk), node_at_some; eauto). }
  destruct (remove_list (prefixes l) true m0 Hm0 (prefixes_ok l Hl) (prefixes_NoDup l)) as (m1 & Hw & Hr).
  { intros k [j Ej]%prefixes_spec. assert (Hk : elems_ok k) by (rewrite Ej in Hl; by apply Forall_app in Hl as [? _]).
    assert (Hs : is_Some (byName m !! path_of k)) by (apply (v_dom _ _ Hi k Hk), count_pos; exists l; split; [done|by exists j]).
    destruct Hs as [p Hp]. destruct (no_node _ Hm0 (path_of k) p Hp) as (y & Hy & _). exists y. apply node_at_some; eauto. }
  destruct (remove_names m m0 L l m1 Hi HlL eq_refl Hm0 Href0 Hr) as (Hdom1 & Href1).
  change (walkToRoot _ _ _) with (walkToRoot remove_f (Root (details x)) m0). rewrite Hroot, (walkToRoot_spec remove_f l m0 Hl), Hw.
  cbn [mbind outcome_bind]. destruct Hr as [Hn1 (ET1 & EG1 & EB1) Hin1 Hout1 Hold1 Hst1 Hdm1].
  assert (Hst01 : forall p y, store m !! p = Some y -> exists y', store m1 !! p = Some y' /\ details y' = details y /\ held y' = held y /\
    expiry y' = expiry y /\ byExpiryIndex y' = byExpiryIndex y /\ token y' = if decide (p = n) then [] else token y).
  { intros p y Hy. assert (H0 : exists y0, store m0 !! p = Some y0 /\ y0 = if decide (p = n) then set_token [] y else y).
    { cbn. case_decide as Ep; [subst p; rewrite lookup_insert_eq; eexists; split; [done|]; congruence|rewrite lookup_insert_ne by done; by exists y]. }
    destruct H0 as (y0 & Hy0 & E0). destruct (Hst1 _ _ Hy0) as (y1 & Hy1 & E1). exists y1. split; [done|]. unfold norefs, set_refCount in E1.
    injection E1 as -> -> -> -> ->. case_decide; by subst y0. }
  assert (Hnone1 : forall p, store m !! p = None -> store m1 !! p = None).
  { intros p Hp. apply Hdm1. cbn. rewrite lookup_insert_ne; [done|]. congruence. }
  assert (Hho1 : heap_ok m1).
  { eapply heap_ok_frame; [apply Hi|exact EB1| |].
    - intros p y Hy. destruct (Hst01 _ _ Hy) as (y' & Hy' & _ & _ & ? & ? & _). by exists y'.
    - intros p y' Hy' Hp. destruct (store m !! p) as [y|] eqn:E; [|by rewrite Hnone1 in Hy'].
      destruct (Hst01 _ _ E) as (y2 & Hy2 & _ & _ & _ & Ei & _). assert (y2 = y') as -> by congruence. rewrite Ei.
      by eapply (ho_off _ (v_heap _ _ Hi)). }
  destruct (Hst01 _ _ Hx) as (x1 & Hx1 & Ed1 & Eh1 & Ee1 & Ei1 & _). rewrite (deref_some _ _ _ Hx1). cbn [mbind outcome_bind].
  destruct (decide (n ∈ byExpiry m)) as [Hnb|Hnb].
  - assert (Hidx : 0 <= byExpiryIndex x1).
    { apply list_elem_of_lookup_1 in Hnb as [i Hib]. destruct (ho_good _ (v_heap _ _ Hi) _ _ Hib) as (y & Hy & E). assert (y = x) as -> by congruence. lia. }
    rewrite (proj2 (Z.leb_le _ _) Hidx). destruct (heap_remove_ok m1 n x1 Hho1 Hx1) as (m2 & -> & Hho2 & (E1 & E2 & E3 & E4 & E5) & Hperm); [by rewrite EB1|].
    cbn [mbind outcome_bind]. exists m2, (L ∖ {[l]}).
    assert (Hst02 : forall p y, store m !! p = Some y -> exists y', store m2 !! p = Some y' /\ details y' = details y /\ held y' = held y /\
      expiry y' = expiry y /\ token y' = if decide (p = n) then [] else token y).
    { intros p y Hy. destruct (Hst01 _ _ Hy) as (y1 & Hy1 & ? & ? & ? & _ & ?). destruct (noidx_some m1 m2 p y1 E5 Hy1) as [i Hy2]. by eexists. }
    assert (Hnode2 : forall k y, node_at m2 k = Some y -> exists y1, node_at m1 k = Some y1 /\ refCount y = refCount y1).
    { intros k y (p & Hp & Hy)%node_at_some. rewrite E1 in Hp. destruct (no_node _ Hn1 _ _ Hp) as (y1 & Hy1 & _).
      exists y1. split; [apply node_at_some; eauto|]. specialize (E5 p). rewrite Hy, Hy1 in E5. cbn in E5. by injection E5. }
    destruct (inv_removed m L t n x l m2 Hi Ht Hx Hh Hroot HlL Hho2) as [Hi2 Ha2].
    + split.
      * intros name p. rewrite E1. intros Hp. destruct (no_node _ Hn1 _ _ Hp) as (y & Hy & Er). destruct (noidx_some m1 m2 p y E5 Hy) as [i Hy2]. by eexists.
      * intros p y Hy. rewrite E4. specialize (E5 p). rewrite Hy in E5. destruct (store m1 !! p) as [y1|] eqn:Ey; [|done]. by eapply (no_fresh _ Hn1).
    + rewrite E2, ET1. cbn. by rewrite Et.
    + by rewrite E3, EG1.
    + intros name p. rewrite E1. apply Hold1.
    + intros k Hk. rewrite E1. by apply Hdom1.
    + intros k y Hk Hy. destruct (Hnode2 _ _ Hy) as (y1 & Hy1 & ->). by apply Href1.
    + done.
    + intros p Hp. specialize (E5 p). rewrite Hnone1 in E5 by done. by destruct (store m2 !! p).
    + intros p. rewrite EB1 in Hperm. change (byExpiry m0) with (byExpiry m) in Hperm. rewrite <- Hperm, elem_of_cons.
      pose proof (good_NoDup _ (ho_good _ (v_heap _ _ Hi))) as Hnd. rewrite <- Hperm in Hnd. apply NoDup_cons in Hnd as [Hnd _].
      split; [intros H; split; [by right|congruence]|tauto].
    + split_and!; [done|done|done|by rewrite E2, ET1; cbn; rewrite Et|]. intros _. rewrite EB1 in Hperm. change (byExpiry m0) with (byExpiry m) in Hperm. by rewrite <- Hperm.
  - assert (Hidx : byExpiryIndex x1 = -1) by (rewrite Ei1; by eapply (ho_off _ (v_heap _ _ Hi))). rewrite Hidx. change (0 <=? -1) with false. cbv iota.
    exists m1, (L ∖ {[l]}). destruct (inv_removed m L t n x l m1 Hi Ht Hx Hh Hroot HlL Hho1) as [Hi1 Ha1]; try done.
    + intros p y Hy. destruct (Hst01 _ _ Hy) as (y1 & Hy1 & ? & ? & ? & _ & ?). by exists y1.
    + intros p. rewrite EB1. cbn. split; [|tauto]. intros H. split; [done|congruence].
Qed.

(** * [collectExpiredNodes] *)

Lemma expire_none now s : (forall t l, locks s !! t = Some l -> expired now l = false) -> expire now s = s.
Proof. intros H. destruct s as [L z]. unfold expire. cbn. f_equal. apply map_filter_id. intros t l Hl. by eapply H. Qed.

Lemma expire_delete now t l s : locks s !! t = Some l -> expired now l = true ->
  expire now (with_locks (delete t (locks s)) s) = expire now s.
Proof.
  intros Hl He. unfold expire. cbn. f_equal. apply map_eq. intros u. destruct (decide (u = t)) as [->|Hu].
  - trans (@None lock); [|symmetry]; apply map_lookup_filter_None; right; intros x Hx; [by rewrite lookup_delete_eq in Hx|].
    cbn. assert (x = l) as -> by congruence. congruence.
  - rewrite !map_lookup_filter, lookup_delete_ne by done. done.
Qed.

(** The first node of the heap has the least expiry. *)
Lemma first_least m L n tl x p y : inv m L -> byExpiry m = n :: tl -> store m !! n = Some x -> p ∈ byExpiry m -> store m !! p = Some y ->
  expiry x <= expiry y.
Proof.
  intros Hi Hb Hx (i & Hp)%list_elem_of_lookup_1 Hy. pose proof (v_heap _ _ Hi) as Hho. pose proof (lookup_lt_Some _ _ _ Hp) as Hlt.
  pose proof (ordered_root _ _ (ho_ordered _ Hho) (Z.of_nat i) ltac:(unfold len; lia)) as H. unfold key, at_ in H.
  rewrite !decide_True in H by lia. rewrite Nat2Z.id, Hp, Hb in H. change ((n :: tl) !! Z.to_nat 0) with (Some n) in H. cbn in H. by rewrite Hx, Hy in H.
Qed.

Lemma collect_ok now fuel : forall m L, inv m L -> (length (byExpiry m) <= fuel)%nat ->
  exists m' L', collect_loop fuel now m = Ok m' /\ inv m' L' /\ abs m' = expire now (abs m) /\
    (forall t p, byToken m' !! t = Some p -> byToken m !! t = Some p).
Proof.
  assert (Hstop : forall m L, inv m L -> (forall p y, p ∈ byExpiry m -> store m !! p = Some y -> now < expiry y) -> abs m = expire now (abs m)).
  { intros m L Hi H. symmetry. apply expire_none. intros t l. rewrite abs_lookup. intros (p & Hp & Hl)%bind_Some.
    apply fmap_Some in Hl as (y & Hy & ->). unfold expired, abs_node. cbn. destruct (held y) eqn:Eh; [done|]. destruct (finite (details y)) eqn:Ef; [|done].
    cbn. assert (Hin : p ∈ byExpiry m) by (apply (v_expiry _ _ Hi); by exists t, y). specialize (H p y Hin Hy). by rewrite (proj2 (Z.ltb_lt _ _) H). }
  induction fuel as [|fuel IH]; intros m L Hi Hlen; cbn [collect_loop]; destruct (byExpiry m) as [|n tl] eqn:Hb; try (cbn in Hlen; lia).
  1, 2: exists m, L; split_and!; [done|done| |done]; apply (Hstop m L Hi); intros p y Hp; rewrite Hb in Hp; by apply elem_of_nil in Hp.
  assert (Hn : n ∈ byExpiry m) by (rewrite Hb; by left). destruct (proj1 (v_expiry _ _ Hi n) Hn) as (t & x & Ht & Hx & Hh & Hf).
  rewrite (deref_some _ _ _ Hx). cbn [mbind outcome_bind]. destruct (Z.ltb_spec now (expiry x)) as [Hlt|Hle].
  - exists m, L. split_and!; [done|done| |done]. apply (Hstop m L Hi). intros p y Hp Hy.
    pose proof (first_least _ _ _ _ _ _ _ Hi Hb Hx Hp Hy). lia.
  - destruct (remove_ok m L t n x Hi Ht Hx Hh) as (m1 & L1 & -> & Hi1 & Ha1 & ET1 & Hlen1). cbn [mbind outcome_bind].
    specialize (Hlen1 Hn). destruct (IH m1 L1 Hi1) as (m' & L' & -> & Hi' & Ha' & HT'); [rewrite Hb in Hlen1; cbn in *; lia|].
    exists m', L'. split_and!; [done|done| |].
    + destruct (abs_token _ _ _ _ Hi Ht) as (x2 & Hx2 & _ & Hl). assert (x2 = x) as -> by congruence.
      rewrite Ha', Ha1. apply (expire_delete _ _ _ _ Hl). unfold expired, abs_node. cbn. rewrite Hh, Hf. cbn. by rewrite (proj2 (Z.ltb_ge _ _) Hle).
    + intros u p Hp%HT'. rewrite ET1 in Hp. by apply lookup_delete_Some in Hp as [_ ?].
Qed.

Lemma collectExpiredNodes_ok now m L : inv m L ->
  exists m' L', collectExpiredNodes now m = Ok m' /\ inv m' L' /\ abs m' = expire now (abs m) /\
    (forall t p, byToken m' !! t = Some p -> byToken m !! t = Some p).
Proof. intros Hi. by eapply collect_ok. Qed.

(** * Holding, releasing, refreshing *)

(** The held mark of [n] set or cleared. *)
Lemma hold_ok m L t n x : inv m L -> byToken m !! t = Some n -> store m !! n = Some x -> held x = false ->
  exists m', hold n m = Ok m' /\ inv m' L /\ abs m' = s_hold true (Some t) (abs m) /\ byToken m' = byToken m /\
    exists x', store m' !! n = Some x' /\ held x' = true.
Proof.
  intros Hi Ht Hx Hh. unfold hold. rewrite (deref_some _ _ _ Hx). cbn [mbind outcome_bind]. rewrite Hh.
  rewrite (update_some _ _ _ _ Hx). cbn [mbind outcome_bind]. set (m1 := with_store _ m). pose proof (v_heap _ _ Hi) as Hho.
  assert (Hx1 : store m1 !! n = Some (set_held true x)) by (cbn; by rewrite lookup_insert_eq).
  assert (Hne1 : forall p, p <> n -> store m1 !! p = store m !! p) by (intros p Hp; cbn; by rewrite lookup_insert_ne).
  assert (Hho1 : heap_ok m1).
  { apply (heap_ok_frame m); [done|done| |].
    - intros p y Hy. destruct (decide (p = n)) as [->|Hp]; [|rewrite Hne1 by done; by exists y].
      assert (y = x) as -> by congruence. by exists (set_held true x).
    - intros p y Hy Hp. destruct (decide (p = n)) as [->|Hpn]; [|rewrite Hne1 in Hy by done; by eapply (ho_off _ Hho)].
      assert (y = set_held true x) as -> by congruence. by eapply (ho_off _ Hho n x). }
  assert (Habs : forall m' x', abs m' = with_locks (<[t := abs_node x']> (locks (abs m))) (abs m) -> details x' = details x -> expiry x' = expiry x -> held x' = true ->
    abs m' = s_hold true (Some t) (abs m)).
  { intros m' x' -> Ed Ee Eh. cbn. f_equal. apply map_eq. intros u. destruct (decide (u = t)) as [->|Hu].
    - rewrite lookup_insert_eq, lookup_alter_eq, lookup_omap, Ht. cbn. rewrite Hx. cbn. f_equal. unfold abs_node, set_l_held. cbn. by rewrite Ed, Ee, Eh.
    - by rewrite lookup_insert_ne, lookup_alter_ne. }
  destruct (decide (n ∈ byExpiry m)) as [Hin|Hin].
  - destruct (proj1 (v_expiry _ _ Hi n) Hin) as (t2 & x2 & _ & Hx2 & _ & Hf). assert (x2 = x) as -> by congruence.
    apply list_elem_of_lookup_1 in Hin as Hin'. destruct Hin' as [i Hib]. destruct (ho_good _ Hho _ _ Hib) as (x2 & Hx2' & Eidx). assert (x2 = x) as -> by congruence.
    unfold finite in Hf. rewrite Hf, (proj2 (Z.leb_le _ _)) by lia. cbn [andb].
    destruct (heap_remove_ok m1 n _ Hho1 Hx1 Hin) as (m2 & Hr & Hho2 & (E1 & E2 & E3 & E4 & E5) & Hperm).
    change (byExpiryIndex (set_held true x)) with (byExpiryIndex x) in Hr. rewrite Hr. cbn [mbind outcome_bind]. exists m2.
    destruct (noidx_some _ _ _ _ E5 Hx1) as [j Hx2j]. cbn in Hperm.
    assert (Hnot : n ∉ byExpiry m2).
    { pose proof (good_NoDup _ (ho_good _ Hho)) as Hnd. rewrite <- Hperm in Hnd. by apply NoDup_cons in Hnd as [? _]. }
    destruct (inv_change m L t n x m2 (set_index j (set_held true x)) Hi Ht Hx E1 E2 E3 E4) as [Hi2 Ha2]; try done.
    + intros p Hp. by rewrite E5, Hne1.
    + intros p Hp. rewrite <- Hperm, elem_of_cons. split; [by right|]. by intros [?|?].
    + split; [done|]. cbn. by intros [? ?].
    + split_and!; [done|done|by eapply Habs|by rewrite E2|by eexists].
  - assert (Ehf : finite (details x) = false).
    { destruct (finite (details x)) eqn:E; [|done]. exfalso. apply Hin, (v_expiry _ _ Hi). by exists t, x. }
    unfold finite in Ehf. rewrite Ehf. cbn [andb]. exists m1.
    destruct (inv_change m L t n x m1 (set_held true x) Hi Ht Hx) as [Hi2 Ha2]; try done.
    + intros p Hp. by rewrite Hne1.
    + split; [by intros ?|]. cbn. by intros [? ?].
    + split_and!; [done|done|by eapply Habs|done|by eexists].
Qed.

(** Any change of a node outside of the heap, but for its index. *)
Lemma heap_ok_off m n x x' : heap_ok m -> store m !! n = Some x -> n ∉ byExpiry m -> byExpiryIndex x' = byExpiryIndex x ->
  heap_ok (with_store (<[n := x']> (store m)) m).
Proof.
  intros Hho Hx Hn Ei. apply heap_ok_store; [done| |].
  - intros p Hp. apply list_elem_of_lookup_1 in Hp as Hp'. destruct Hp' as [i Hi]. destruct (ho_good _ Hho _ _ Hi) as (y & Hy & _).
    exists y, y. rewrite lookup_insert_ne by (by intros ->). done.
  - intros p y [[<- <-]|[_ Hy]]%lookup_insert_Some Hp; [rewrite Ei|]; by eapply (ho_off _ Hho).
Qed.

(** A lock outside of the heap changes and goes into it if it is finite and not
    held. *)
Lemma change_and_push m L t n x x' : inv m L -> byToken m !! t = Some n -> store m !! n = Some x ->
  forall m1, store m1 !! n = Some x' -> (forall p, p <> n -> noidx <$> store m1 !! p = noidx <$> store m !! p) ->
  byName m1 = byName m -> byToken m1 = byToken m -> gen m1 = gen m -> fresh m1 = fresh m -> heap_ok m1 -> n ∉ byExpiry m1 ->
  (forall p, p <> n -> p ∈ byExpiry m1 <-> p ∈ byExpiry m) ->
  token x' = token x -> refCount x' = refCount x -> Root (details x') = Root (details x) -> ZeroDepth (details x') = ZeroDepth (details x) ->
  held x' = false ->
  exists m', (if 0 <=? Duration (details x') then heap_Push n m1 else Ok m1) = Ok m' /\ inv m' L /\ byToken m' = byToken m /\
    abs m' = with_locks (<[t := abs_node x']> (locks (abs m))) (abs m) /\ exists i, store m' !! n = Some (set_index i x').
Proof.
  intros Hi Ht Hx m1 Hx1 Hst EN ET EG EF Hho1 Hoff Hmem K1 K2 K3 K4 K5. fold (finite (details x')). destruct (finite (details x')) eqn:Ef.
  - destruct (heap_push_ok m1 n x' Hho1 Hx1 Hoff) as (m2 & Hr & Hho2 & (E1 & E2 & E3 & E4 & E5) & Hperm). exists m2. split; [done|].
    destruct (noidx_some _ _ _ _ E5 Hx1) as [j Hxj].
    destruct (inv_change m L t n x m2 (set_index j x') Hi Ht Hx) as [Hi2 Ha2]; try done; try congruence.
    + intros p Hp. by rewrite E5, Hst.
    + intros p Hp. rewrite Hperm, elem_of_cons, Hmem by done. split; [by intros [?|?]|by right].
    + rewrite Hperm. cbn. split; [done|by left].
    + split_and!; [done|congruence|done|by exists j].
  - exists m1. split; [done|]. destruct (inv_change m L t n x m1 x' Hi Ht Hx) as [Hi2 Ha2]; try done.
    + split; [by intros ?|]. rewrite Ef. by intros [_ ?].
    + split_and!; [done|done|done|]. exists (byExpiryIndex x'). rewrite Hx1. by destruct x'.
Qed.

Lemma not_in_heap m L t n x : inv m L -> byToken m !! t = Some n -> store m !! n = Some x -> held x = true -> n ∉ byExpiry m.
Proof. intros Hi Ht Hx Hh (u & y & Hu & Hy & Hhy & _)%(v_expiry _ _ Hi). congruence. Qed.

Lemma unhold_ok m L t n x : inv m L -> byToken m !! t = Some n -> store m !! n = Some x -> held x = true ->
  exists m', unhold n m = Ok m' /\ inv m' L /\ abs m' = s_hold false (Some t) (abs m) /\ byToken m' = byToken m.
Proof.
  intros Hi Ht Hx Hh. unfold unhold. rewrite (deref_some _ _ _ Hx). cbn [mbind outcome_bind]. rewrite Hh. cbn [negb].
  rewrite (update_some _ _ _ _ Hx). cbn [mbind outcome_bind]. set (m1 := with_store _ m).
  pose proof (not_in_heap _ _ _ _ _ Hi Ht Hx Hh) as Hoff.
  destruct (change_and_push m L t n x (set_held false x) Hi Ht Hx m1) as (m' & Hr & Hi' & ET & Ha & _); try done.
  - cbn. by rewrite lookup_insert_eq.
  - intros p Hp. cbn. by rewrite lookup_insert_ne.
  - eapply heap_ok_off; [apply Hi|done|done|done].
  - exists m'. split_and!; [exact Hr|done| |done]. rewrite Ha. cbn. f_equal. apply map_eq. intros u. destruct (decide (u = t)) as [->|Hu].
    + rewrite lookup_insert_eq, lookup_alter_eq, lookup_omap, Ht. cbn. by rewrite Hx.
    + by rewrite lookup_insert_ne, lookup_alter_ne.
Qed.

(** Taking a lock out of the heap, if it is there. *)
Lemma take_out m L t n x : inv m L -> byToken m !! t = Some n -> store m !! n = Some x ->
  exists m1, (if 0 <=? byExpiryIndex x then '(_, m) ← heap_Remove (byExpiryIndex x) m; Ok m else Ok m) = Ok m1 /\ heap_ok m1 /\ same_but m m1 /\
    (n ∉ byExpiry m1) /\ (forall p, p <> n -> p ∈ byExpiry m1 <-> p ∈ byExpiry m).
Proof.
  intros Hi Ht Hx. pose proof (v_heap _ _ Hi) as Hho. destruct (decide (n ∈ byExpiry m)) as [Hin|Hin].
  - apply list_elem_of_lookup_1 in Hin as Hin'. destruct Hin' as [i Hib]. destruct (ho_good _ Hho _ _ Hib) as (y & Hy & Eidx). assert (y = x) as -> by congruence.
    rewrite (proj2 (Z.leb_le _ _)) by lia. destruct (heap_remove_ok m n x Hho Hx Hin) as (m1 & -> & Hho1 & Hsb & Hperm). cbn [mbind outcome_bind].
    exists m1. split_and!; [done|done|done..| |].
    + pose proof (good_NoDup _ (ho_good _ Hho)) as Hnd. rewrite <- Hperm in Hnd. by apply NoDup_cons in Hnd as [? _].
    + intros p Hp. rewrite <- Hperm, elem_of_cons. split; [by right|]. by intros [?|?].
  - rewrite (ho_off _ Hho _ _ Hx Hin). change (0 <=? -1) with false. cbv iota. by exists m.
Qed.

Lemma Refresh_ok now tok duration m L : inv m L ->
  exists m' L' r, Refresh now tok duration m = Ok (m', r) /\ inv m' L' /\ s_refresh now tok duration (abs m) = (abs m', r) /\
    (forall t p, byToken m' !! t = Some p -> byToken m !! t = Some p).
Proof.
  intros Hi. unfold Refresh, s_refresh. destruct (collectExpiredNodes_ok now m L Hi) as (m1 & L1 & -> & Hi1 & Ha1 & Hsub). cbn [mbind outcome_bind].
  rewrite <- Ha1. destruct (byToken m1 !! tok) as [n|] eqn:Ht; [|rewrite abs_none by done; by exists m1, L1, (inr ErrNoSuchLock)].
  destruct (abs_token _ _ _ _ Hi1 Ht) as (x & Hx & Etok & ->). rewrite (deref_some _ _ _ Hx). cbn [mbind outcome_bind abs_node l_held l_details].
  destruct (held x) eqn:Hh; [by exists m1, L1, (inr ErrLocked)|].
  destruct (take_out m1 L1 tok n x Hi1 Ht Hx) as (m2 & -> & Hho2 & (E1 & E2 & E3 & E4 & E5) & Hoff & Hmem). cbn [mbind outcome_bind].
  destruct (noidx_some _ _ _ _ E5 Hx) as [j Hx2]. rewrite (update_some _ _ _ _ Hx2). cbn [mbind outcome_bind].
  set (d := set_Duration duration (details x)). change (details (set_index j x)) with (details x). fold d. set (x3 := set_details d (set_index j x)). set (m3 := with_store _ m2).
  set (x' := if 0 <=? duration then set_expiry (now + duration) x3 else x3).
  set (m4 := if 0 <=? duration then with_store (<[n := set_expiry (now + duration) x3]> (store m3)) m3 else m3).
  assert (Hx3 : store m3 !! n = Some x3) by (cbn; by rewrite lookup_insert_eq).
  assert (Hho3 : heap_ok m3) by (eapply heap_ok_off; [done|exact Hx2|done|done]).
  assert (Hx4 : store m4 !! n = Some x') by (unfold m4, x'; case_match; [cbn; by rewrite lookup_insert_eq|done]).
  assert (Hst4 : forall p, p <> n -> noidx <$> store m4 !! p = noidx <$> store m1 !! p).
  { intros p Hp. rewrite <- E5. unfold m4. case_match; cbn; rewrite ?lookup_insert_ne by done; done. }
  assert (Hho4 : heap_ok m4) by (unfold m4; case_match; [eapply heap_ok_off; [done|exact Hx3|done|done]|done]).
  assert (E6 : byName m4 = byName m1) by (unfold m4; case_match; done).
  assert (E7 : byToken m4 = byToken m1) by (unfold m4; case_match; done).
  assert (E8 : gen m4 = gen m1) by (unfold m4; case_match; done).
  assert (E9 : fresh m4 = fresh m1) by (unfold m4; case_match; done).
  assert (E10 : byExpiry m4 = byExpiry m2) by (unfold m4; case_match; done).
  destruct (change_and_push m1 L1 tok n x x' Hi1 Ht Hx m4) as (m' & Hr & Hi' & ET & Ha & (i & Hx')); try done; try (unfold x'; case_match; done).
  { by rewrite E10. } { intros p Hp. rewrite E10. by apply Hmem. }
  assert (Ed : details x' = d) by (unfold x'; destruct (0 <=? duration); reflexivity). rewrite Ed in Hr. change (Duration d) with duration in Hr.
  assert (Hbody : (if 0 <=? duration then m ← update n (set_expiry (now + duration)) m3; heap_Push n m else Ok m3) = Ok m').
  { rewrite <- Hr. unfold m4. case_match; [|done]. rewrite (update_some _ _ _ _ Hx3). done. }
  rewrite Hbody. cbn [mbind outcome_bind]. rewrite (deref_some _ _ _ Hx'). cbn [mbind outcome_bind].
  exists m', L1, (inl d). change (details (set_index i x')) with (details x'). rewrite Ed. split_and!; [done|done| |].
  - rewrite Ha. f_equal. f_equal. f_equal. unfold abs_node. rewrite Ed. unfold expires_at, finite. change (Duration d) with duration.
    unfold x'. destruct (0 <=? duration); cbn; by rewrite Hh.
  - intros t p. rewrite ET. apply Hsub.
Qed.

Lemma Unlock_ok now tok m L : inv m L ->
  exists m' L' r, Unlock now tok m = Ok (m', r) /\ inv m' L' /\ s_unlock now tok (abs m) = (abs m', r) /\
    (forall t p, byToken m' !! t = Some p -> byToken m !! t = Some p).
Proof.
  intros Hi. unfold Unlock, s_unlock. destruct (collectExpiredNodes_ok now m L Hi) as (m1 & L1 & -> & Hi1 & Ha1 & Hsub). cbn [mbind outcome_bind].
  rewrite <- Ha1. destruct (byToken m1 !! tok) as [n|] eqn:Ht; [|rewrite abs_none by done; by exists m1, L1, (Some ErrNoSuchLock)].
  destruct (abs_token _ _ _ _ Hi1 Ht) as (x & Hx & Etok & ->). rewrite (deref_some _ _ _ Hx). cbn [mbind outcome_bind abs_node l_held].
  destruct (held x) eqn:Hh; [by exists m1, L1, (Some ErrLocked)|].
  destruct (remove_ok m1 L1 tok n x Hi1 Ht Hx Hh) as (m2 & L2 & -> & Hi2 & Ha2 & ET & _). cbn [mbind outcome_bind].
  exists m2, L2, None. split_and!; [done|done|by rewrite Ha2|]. intros t p. rewrite ET. intros [_ Hp]%lookup_delete_Some. by apply Hsub.
Qed.
