(* ===== verification/WebdavLockCreate.v ===== *)
(** [Create] of the lock system is the step of the table of locks. *)
From S2P Require Import Prelude GoHeap WebdavPath WebdavLock WebdavHeap WebdavLockSpec WebdavLockWalk WebdavLockInv.

(** * [canCreate] *)

Lemma admits_all_false z m ps : admits_all z false m ps = true <-> forall k, k ∈ ps -> admits z false (node_at m (path_of k)) = true.
Proof.
  induction ps as [|k ps IH]; cbn [admits_all].
  - split; [intros _ k Hk; by apply elem_of_nil in Hk|done].
  - rewrite andb_true_iff, IH. split.
    + intros [H1 H2] j [->|Hj]%elem_of_cons; [done|by apply H2].
    + intros H. split; [apply H; by left|]. intros j Hj. apply H. by right.
Qed.

(** No lock conflicts with a new one. *)
Definition compatible (m : memLS) (d : LockDetails) : Prop :=
  forall t p x, byToken m !! t = Some p -> store m !! p = Some x -> conflict (details x) d = false.

Lemma conflict_false d e r k : elems_ok r -> elems_ok k -> Root d = path_of r -> Root e = path_of k ->
  conflict d e = false <-> r <> k /\ (ZeroDepth d = false -> ~ r `prefix_of` k) /\ (ZeroDepth e = false -> ~ k `prefix_of` r).
Proof.
  intros Hr Hk Ed Ee. unfold conflict. rewrite orb_false_iff, Ed, Ee, <- (not_true_iff_false (covers d _)), <- (not_true_iff_false (covers e _)).
  rewrite (covers_spec d r k) by done. rewrite (covers_spec e k r) by done. split.
  2:{ intros (H1 & H2 & H3). split; intros [E|[Hz Hp]]; [done|by destruct (H2 Hz)|by symmetry in E|by destruct (H3 Hz)]. }
  intros [H1 H2]. split; [|split; intros ? ?]; [intros ->; apply H1; by left|apply H1; by right|apply H2; by right].
Qed.

Lemma admits_compatible m L l d : inv m L -> elems_ok l -> Root d = path_of l ->
  admits_all (ZeroDepth d) true m (prefixes l) = true <-> compatible m d.
Proof.
  intros Hi Hl Hd. destruct (prefixes_head l) as [ps Eps]. rewrite Eps. cbn [admits_all]. rewrite andb_true_iff, admits_all_false.
  assert (Hps : forall k, k ∈ ps <-> k `prefix_of` l /\ k <> l).
  { intros k. rewrite <- prefixes_spec, Eps, elem_of_cons. pose proof (prefixes_NoDup l) as Hnd. rewrite Eps in Hnd. apply NoDup_cons in Hnd as [Hnd _].
    split; [intros H; split; [by right|by intros ->]|tauto]. }
  assert (Hok : forall k, k `prefix_of` l -> elems_ok k) by (intros k [j ->]; by apply Forall_app in Hl as [? _]).
  assert (Hlocked : forall k x, elems_ok k -> node_at m (path_of k) = Some x -> token x <> [] ->
    exists t p, byToken m !! t = Some p /\ store m !! p = Some x /\ Root (details x) = path_of k).
  { intros k x Hk (p & Hp & Hx)%node_at_some Ht. exists (token x), p. split_and!; [by eapply v_named|done|].
    destruct (no_node _ (v_names _ _ Hi) _ _ Hp) as (y & Hy & E). congruence. }
  split.
  - intros [Hfirst Hrest] t p x Hp Hx. destruct (token_path _ _ _ _ Hi Hp) as (x2 & k & Hx2 & Hk & Hroot & Hna & HkL & -> & Hne).
    assert (x2 = x) as -> by congruence. apply (conflict_false _ _ k l Hk Hl Hroot Hd). split; [|split].
    + intros ->. rewrite Hna in Hfirst. cbn in Hfirst. by rewrite bool_decide_false in Hfirst.
    + intros Hz Hpre. destruct (decide (k = l)) as [->|Hkl].
      * rewrite Hna in Hfirst. cbn in Hfirst. by rewrite bool_decide_false in Hfirst.
      * specialize (Hrest k (proj2 (Hps k) (conj Hpre Hkl))). rewrite Hna in Hrest. cbn in Hrest. by rewrite bool_decide_false, Hz in Hrest.
    + intros Hz Hpre. assert (Hs : is_Some (byName m !! path_of l)) by (apply (v_dom _ _ Hi l Hl), count_pos; by exists k).
      destruct Hs as [p' Hp']. destruct (no_node _ (v_names _ _ Hi) _ _ Hp') as (y & Hy & _).
      rewrite (proj2 (node_at_some m (path_of l) y)) in Hfirst by eauto. cbn in Hfirst. by rewrite Hz, andb_false_r in Hfirst.
  - intros Hc. split.
    + destruct (node_at m (path_of l)) as [x|] eqn:Hna; [|done]. cbn. case_bool_decide as Ht; cbn [negb].
      * destruct (ZeroDepth d) eqn:Hz; [done|]. exfalso. apply node_at_some in Hna as (p & Hp & _).
        assert (Hpos : (0 < count L l)%nat) by (apply (v_dom _ _ Hi l Hl); eauto). apply count_pos in Hpos as (k & HkL & Hpre).
        pose proof (v_elems _ _ Hi _ HkL) as Hk. assert (Hs : is_Some (byName m !! path_of k)) by (apply (v_dom _ _ Hi k Hk), count_pos; by exists k).
        destruct Hs as [p' Hp']. destruct (no_node _ (v_names _ _ Hi) _ _ Hp') as (y & Hy & _).
        assert (Hnk : node_at m (path_of k) = Some y) by (apply node_at_some; eauto).
        destruct (Hlocked k y Hk Hnk) as (t & p2 & Ht2 & Hy2 & Hroot); [by apply (v_node _ _ Hi k y Hk Hnk)|].
        pose proof (Hc t p2 y Ht2 Hy2) as Hcf. apply (conflict_false _ _ k l Hk Hl Hroot Hd) in Hcf as (_ & _ & Hcf). by apply Hcf.
      * destruct (Hlocked l x Hl Hna Ht) as (t & p2 & Ht2 & Hy2 & Hroot). pose proof (Hc t p2 x Ht2 Hy2) as Hcf.
        apply (conflict_false _ _ l l Hl Hl Hroot Hd) in Hcf as [? _]. done.
    + intros k [Hpre Hkl]%Hps. destruct (node_at m (path_of k)) as [x|] eqn:Hna; [|done]. cbn. case_bool_decide as Ht; [done|]. cbn.
      destruct (ZeroDepth (details x)) eqn:Hz; [done|]. pose proof (Hok k Hpre) as Hk. destruct (Hlocked k x Hk Hna Ht) as (t & p2 & Ht2 & Hy2 & Hroot).
      pose proof (Hc t p2 x Ht2 Hy2) as Hcf. apply (conflict_false _ _ k l Hk Hl Hroot Hd) in Hcf as (_ & Hcf & _). by destruct (Hcf Hz).
Qed.

Lemma compatible_abs m L d : inv m L -> compatible m d <-> existsb (fun tl => conflict (l_details tl.2) d) (map_to_list (locks (abs m))) = false.
Proof.
  intros Hi. rewrite <- not_true_iff_false, existsb_exists. split.
  - intros Hc ([t l] & Hin & Hcf). apply list_elem_of_In, elem_of_map_to_list in Hin. rewrite abs_lookup in Hin.
    apply bind_Some in Hin as (p & Hp & (x & Hx & ->)%fmap_Some). cbn in Hcf. by rewrite (Hc t p x) in Hcf.
  - intros Hn t p x Hp Hx. destruct (conflict (details x) d) eqn:E; [|done]. exfalso. apply Hn. exists (t, abs_node x). split; [|done].
    apply list_elem_of_In, elem_of_map_to_list. rewrite abs_lookup, Hp. cbn. by rewrite Hx.
Qed.

(** * [Create] *)

(** The names after the walk of [create]. *)
Lemma create_names m L l m1 : inv m L -> elems_ok l -> l ∉ L -> referred m m1 (path_in (prefixes l)) ->
  (forall name p, byName m1 !! name = Some p -> exists k, elems_ok k /\ name = path_of k) /\
  (forall k, elems_ok k -> is_Some (byName m1 !! path_of k) <-> (0 < count ({[l]} ∪ L) k)%nat) /\
  (forall k y, elems_ok k -> node_at m1 (path_of k) = Some y -> refCount y = Z.of_nat (count ({[l]} ∪ L) k)).
Proof.
  intros Hi Hl HlL Hr.
  assert (Hin : forall k, elems_ok k -> path_in (prefixes l) (path_of k) <-> k `prefix_of` l).
  { intros k Hk. rewrite <- prefixes_spec. split; [|by exists k]. intros (j & Hj & E). apply path_of_inj in E; [by subst|done|].
    exact (proj1 (Forall_forall _ _) (prefixes_ok _ Hl) _ Hj). }
  split; [|split].
  - intros name p Hp. destruct (decide (Exists (fun k => name = path_of k) (prefixes l))) as [(k & Hk & ->)%Exists_exists|Hno].
    + exists k. split; [|done]. exact (proj1 (Forall_forall _ _) (prefixes_ok _ Hl) _ Hk).
    + destruct (rf_out _ _ _ Hr name) as [E _]; [intros (k & Hk & ->); apply Hno, Exists_exists; by exists k|]. rewrite E in Hp. by eapply v_path.
  - intros k Hk. rewrite count_add by done. case_decide as Hp.
    + split; [lia|]. intros _. pose proof (rf_in _ _ _ Hr _ (proj2 (Hin k Hk) Hp)) as (p & -> & _)%node_at_some. eauto.
    + destruct (rf_out _ _ _ Hr (path_of k)) as [-> _]; [by rewrite Hin|]. rewrite (v_dom _ _ Hi k Hk). lia.
  - intros k y Hk Hy. rewrite count_add by done. case_decide as Hp.
    + rewrite (rf_in _ _ _ Hr _ (proj2 (Hin k Hk) Hp)) in Hy. injection Hy as <-. cbn. destruct (node_at m (path_of k)) as [x|] eqn:E; cbn.
      * rewrite (proj1 (v_node _ _ Hi k x Hk E)). lia.
      * apply node_at_none in E; [|apply Hi]. assert (Hz : ~ (0 < count L k)%nat) by (rewrite <- (v_dom _ _ Hi k Hk), E; by intros [? ?]). lia.
    + destruct (rf_out _ _ _ Hr (path_of k)) as [_ E]; [by rewrite Hin|]. rewrite E in Hy. rewrite (proj1 (v_node _ _ Hi k y Hk Hy)). f_equal. lia.
Qed.

(** A lock system with a new lock: the parts, put together. *)
Lemma inv_created m L l d n x' m2 z : inv m L -> elems_ok l -> l ∉ L -> Root d = path_of l -> compatible m d ->
  gen m < z -> z < 2 ^ 64 -> heap_ok m2 -> names_ok m2 -> byToken m2 = <[FormatUint z := n]> (byToken m) -> gen m2 = z ->
  (forall name p, byName m !! name = Some p -> byName m2 !! name = Some p) ->
  (forall name p, byName m2 !! name = Some p -> byName m !! name = Some p \/ store m !! p = None) ->
  (forall name p, byName m2 !! name = Some p -> exists k, elems_ok k /\ name = path_of k) ->
  (forall k, elems_ok k -> is_Some (byName m2 !! path_of k) <-> (0 < count ({[l]} ∪ L) k)%nat) ->
  (forall k y, elems_ok k -> node_at m2 (path_of k) = Some y -> refCount y = Z.of_nat (count ({[l]} ∪ L) k)) ->
  byName m2 !! path_of l = Some n -> store m2 !! n = Some x' -> details x' = d -> token x' = FormatUint z -> held x' = false ->
  (forall t, byToken m !! t <> Some n) ->
  (forall p y, p <> n -> store m !! p = Some y -> exists y', store m2 !! p = Some y' /\ details y' = details y /\ held y' = held y /\
     expiry y' = expiry y /\ token y' = token y) ->
  (forall p y', p <> n -> store m !! p = None -> store m2 !! p = Some y' -> token y' = [] /\ held y' = false) ->
  (forall p, p ∈ byExpiry m2 <-> p ∈ byExpiry m \/ p = n /\ finite d = true) ->
  inv m2 ({[l]} ∪ L) /\ abs m2 = mkTable (<[FormatUint z := abs_node x']> (locks (abs m))) z.
Proof.
  intros Hi Hl HlL Hroot Hcomp Hgz Hz Hho Hnm ET EG Hold Hptr Hpath Hdom Href Hn Hx' Ed Etok Eh Hnt Hst Hnew Hexp.
  assert (Hback : forall p y', p <> n -> store m2 !! p = Some y' -> (exists y, store m !! p = Some y /\ details y' = details y /\ held y' = held y /\
     expiry y' = expiry y /\ token y' = token y) \/ (store m !! p = None /\ token y' = [] /\ held y' = false)).
  { intros p y' Hp Hy'. destruct (store m !! p) as [y|] eqn:E.
    - left. destruct (Hst _ _ Hp E) as (y2 & Hy2 & H). assert (y2 = y') as -> by congruence. by exists y.
    - right. split; [done|]. by eapply Hnew. }
  assert (Hfresh : byToken m !! FormatUint z = None).
  { destruct (byToken m !! FormatUint z) as [p|] eqn:E; [|done]. exfalso. destruct (v_tokens _ _ Hi (FormatUint z)) as (w & Hw & Ew); [eauto|].
    pose proof (v_gen _ _ Hi). apply FormatUint_inj in Ew; lia. }
  assert (Htok : forall t p, byToken m2 !! t = Some p -> (t = FormatUint z /\ p = n) \/ (t <> FormatUint z /\ byToken m !! t = Some p /\ p <> n)).
  { intros t p. rewrite ET. intros [[<- <-]|[Hne Hp]]%lookup_insert_Some; [by left|right]. split_and!; [done|done|]. intros ->. by eapply Hnt. }
  assert (Hnl : forall k p, elems_ok k -> byName m2 !! path_of k = Some p -> p = n <-> k = l).
  { intros k p Hk Hp. split; [intros ->|intros ->; congruence]. apply path_of_inj; [done|done|]. by eapply names_inj. }
  split.
  - split; try done.
    + intros k y Hk Hy. split; [by apply Href|]. apply node_at_some in Hy as (p & Hp & Hy). rewrite elem_of_union, elem_of_singleton.
      pose proof (Hnl k p Hk Hp) as Hpk. destruct (decide (p = n)) as [->|Hpn].
      * assert (y = x') as -> by congruence. assert (k = l) as -> by by apply Hpk. rewrite Etok. split; [|done]. split; [by left|]. intros _. apply FormatUint_nonempty.
      * destruct (Hback _ _ Hpn Hy) as [(y0 & Hy0 & _ & Ehy & _ & Ety)|(Hnone & Ety & Ehy)].
        -- assert (Hp0 : byName m !! path_of k = Some p) by (destruct (Hptr _ _ Hp); [done|congruence]).
           assert (Hna : node_at m (path_of k) = Some y0) by (apply node_at_some; eauto). destruct (v_node _ _ Hi k y0 Hk Hna) as (_ & K1 & K2).
           rewrite Ety, Ehy, K1. split; [|done]. split; [by right|]. intros [->|?]; [by destruct Hpn; apply Hpk|done].
        -- rewrite Ety. split; [|done]. split; [done|]. intros [->|HkL]; [by destruct Hpn; apply Hpk|].
           assert (Hs : is_Some (byName m !! path_of k)) by (apply (v_dom _ _ Hi k Hk), count_pos; by exists k). destruct Hs as [p0 Hp0].
           destruct (no_node _ (v_names _ _ Hi) _ _ Hp0) as (y0 & Hy0 & _). apply Hold in Hp0. congruence.
    + intros k [->%elem_of_singleton|Hk]%elem_of_union; [done|by eapply v_elems].
    + intros t p [[-> ->]|(Ht & Hp & Hpn)]%Htok.
      * exists x'. split_and!; [done|done|apply FormatUint_nonempty|by rewrite Ed, Hroot].
      * destruct (v_token _ _ Hi _ _ Hp) as (y & Hy & Ey & Hne & Hnm0). destruct (Hst _ _ Hpn Hy) as (y' & Hy' & Edy & _ & _ & Ety).
        exists y'. split_and!; [done|congruence|done|]. rewrite Edy. by apply Hold.
    + intros name p y Hp Hy Hne. destruct (decide (p = n)) as [->|Hpn].
      * assert (y = x') as -> by congruence. by rewrite Etok, ET, lookup_insert_eq.
      * destruct (Hback _ _ Hpn Hy) as [(y0 & Hy0 & _ & _ & _ & Ety)|(_ & Ety & _)]; [|done]. destruct (Hptr _ _ Hp) as [Hp0|]; [|congruence].
        rewrite Ety in *. pose proof (v_named _ _ Hi _ _ _ Hp0 Hy0 Hne) as Ht. rewrite ET, lookup_insert_ne; [done|congruence].
    + intros p. rewrite Hexp, (v_expiry _ _ Hi). split.
      * intros [(t & y & Ht & Hy & E1 & E2)|[-> Hf]].
        -- assert (Hpn : p <> n) by (intros ->; by eapply Hnt). destruct (Hst _ _ Hpn Hy) as (y' & Hy' & Edy & Ehy & _). exists t, y'.
           rewrite ET, lookup_insert_ne, Edy, Ehy by congruence. done.
        -- exists (FormatUint z), x'. rewrite ET, lookup_insert_eq, Ed. done.
      * intros (t & y' & [[-> ->]|(Ht & Hp & Hpn)]%Htok & Hy' & E1 & E2).
        -- right. assert (y' = x') as -> by congruence. by rewrite <- Ed.
        -- left. destruct (Hback _ _ Hpn Hy') as [(y & Hy & Edy & Ehy & _)|(Hnone & _)].
           ++ exists t, y. by rewrite <- Edy, <- Ehy.
           ++ destruct (v_token _ _ Hi _ _ Hp) as (y & Hy & _). congruence.
    + intros t u p q x y Ht Hu Hne Hx Hy.
      assert (Hdet : forall v r w, byToken m !! v = Some r -> r <> n -> store m2 !! r = Some w -> exists w0, store m !! r = Some w0 /\ details w = details w0).
      { intros v r w Hv Hr Hw. destruct (v_token _ _ Hi _ _ Hv) as (w0 & Hw0 & _). destruct (Hst _ _ Hr Hw0) as (w1 & Hw1 & E & _). exists w0. split; [done|congruence]. }
      assert (Hsym : forall a b, conflict a b = conflict b a) by (intros a b; unfold conflict; apply orb_comm).
      apply Htok in Ht as [[-> ->]|(Ht & Hp & Hpn)], Hu as [[-> ->]|(Hu & Hq & Hqn)].
      * done.
      * assert (x = x') as -> by congruence. destruct (Hdet _ _ _ Hq Hqn Hy) as (y0 & Hy0 & ->). rewrite Ed, Hsym. by eapply Hcomp.
      * assert (y = x') as -> by congruence. destruct (Hdet _ _ _ Hp Hpn Hx) as (x0 & Hx0 & ->). rewrite Ed. by eapply Hcomp.
      * destruct (Hdet _ _ _ Hp Hpn Hx) as (x0 & Hx0 & ->), (Hdet _ _ _ Hq Hqn Hy) as (y0 & Hy0 & ->). by eapply (v_compat _ _ Hi t u).
    + pose proof (v_gen _ _ Hi). lia.
    + intros t [p Hp]. rewrite EG. apply Htok in Hp as [[-> _]|(_ & Hp & _)].
      * exists z. pose proof (v_gen _ _ Hi). split; [lia|done].
      * destruct (v_tokens _ _ Hi t) as (w & Hw & Ew); [eauto|]. exists w. split; [lia|done].
  - unfold abs at 1. rewrite EG. f_equal. apply map_eq. intros t. rewrite lookup_omap, ET. destruct (decide (t = FormatUint z)) as [->|Ht].
    + rewrite !lookup_insert_eq. cbn. by rewrite Hx'.
    + rewrite !lookup_insert_ne, abs_lookup by done. destruct (byToken m !! t) as [p|] eqn:Ep; [|done]. cbn.
      destruct (v_token _ _ Hi _ _ Ep) as (y & Hy & _). assert (Hpn : p <> n) by (intros ->; by eapply Hnt).
      destruct (Hst _ _ Hpn Hy) as (y' & Hy' & Edy & Ehy & Eey & _). rewrite Hy, Hy'. cbn. f_equal. unfold abs_node. by rewrite Edy, Ehy, Eey.
Qed.

Lemma heap_ok_ext m m' : heap_ok m -> byExpiry m' = byExpiry m -> store m' = store m -> heap_ok m'.
Proof.
  intros Hho Hb Hs. apply (heap_ok_frame m); [done|done|rewrite Hs; by eauto|]. intros p x. rewrite Hs. apply (ho_off _ Hho).
Qed.

Lemma referred_heap m m' P : heap_ok m -> referred m m' P -> heap_ok m'.
Proof.
  intros Hho Hr. destruct (rf_rest _ _ _ Hr) as (_ & _ & Hb). apply (heap_ok_frame m); [done|done| |].
  - intros p x Hx. destruct (rf_store _ _ _ Hr _ _ Hx) as (x' & Hx' & E). exists x'. unfold norefs, set_refCount in E. injection E as _ _ -> -> _. done.
  - intros p x' Hx' Hp. destruct (store m !! p) as [x|] eqn:Ex.
    + destruct (rf_store _ _ _ Hr _ _ Ex) as (x2 & Hx2 & E). assert (x2 = x') as -> by congruence. apply (f_equal byExpiryIndex) in E. cbn in E.
      rewrite E. by eapply (ho_off _ Hho).
    + pose proof (rf_new _ _ _ Hr _ _ Ex Hx') as E. by apply (f_equal byExpiryIndex) in E.
Qed.

(** The state of [Create] before the heap: the node [n] became the lock. *)
Definition locked_at (n : positive) (x' : memLSNode) (z : Z) (m : memLS) : memLS :=
  mkLS (<[n := x']> (store m)) (fresh m) (byName m) (<[FormatUint z := n]> (byToken m)) z (byExpiry m).

Lemma locked_at_inv m L l d n x2 x' m2 m3 z : inv m L -> elems_ok l -> l ∉ L -> Root d = path_of l -> compatible m d ->
  gen m < z -> z < 2 ^ 64 -> referred m m2 (path_in (prefixes l)) -> byName m2 !! path_of l = Some n -> store m2 !! n = Some x2 ->
  details x' = d -> token x' = FormatUint z -> held x' = false -> refCount x' = refCount x2 ->
  (forall t, byToken m !! t <> Some n) -> heap_ok m3 -> same_but (locked_at n x' z m2) m3 ->
  (forall p, p ∈ byExpiry m3 <-> p ∈ byExpiry m2 \/ p = n /\ finite d = true) ->
  inv m3 ({[l]} ∪ L) /\ abs m3 = mkTable (<[FormatUint z := abs_node x']> (locks (abs m))) z.
Proof.
  intros Hi Hl HlL Hroot Hcomp Hgz Hz Hr Hn Hx2 Ed Etok Eh Eref Hnt Hho (E1 & E2 & E3 & E4 & E5) Hexp. cbn in E1, E2, E3, E4.
  destruct (create_names m L l m2 Hi Hl HlL Hr) as (Hpath & Hdom & Href). destruct (rf_rest _ _ _ Hr) as (ET & EG & EB).
  assert (Hnx : exists i, store m3 !! n = Some (set_index i x')) by (apply (noidx_some _ _ _ _ E5); cbn; by rewrite lookup_insert_eq).
  destruct Hnx as [i Hx']. assert (Hne : forall p, p <> n -> noidx <$> store m3 !! p = noidx <$> store m2 !! p).
  { intros p Hp. rewrite E5. cbn. by rewrite lookup_insert_ne. }
  pose proof (rf_names _ _ _ Hr) as Hnm2.
  assert (Hnm : names_ok m3).
  { split.
    - intros name p. rewrite E1. intros Hp. destruct (decide (p = n)) as [->|Hpn].
      + eexists. split; [done|]. cbn. rewrite Ed, Hroot. by eapply names_inj.
      + destruct (no_node _ Hnm2 _ _ Hp) as (y & Hy & Ey). specialize (Hne p Hpn). rewrite Hy in Hne. destruct (store m3 !! p) as [y'|]; [|done].
        exists y'. split; [done|]. cbn in Hne. apply (f_equal (fun o => details <$> o)) in Hne. cbn in Hne. congruence.
    - intros p y Hy. rewrite E4. destruct (decide (p = n)) as [->|Hpn]; [by eapply (no_fresh _ Hnm2)|].
      specialize (Hne p Hpn). rewrite Hy in Hne. destruct (store m2 !! p) as [y2|] eqn:Ey; [|done]. by eapply (no_fresh _ Hnm2). }
  assert (Hold2 : forall p y, p <> n -> store m2 !! p = Some y -> exists y', store m3 !! p = Some y' /\ noidx y' = noidx y).
  { intros p y Hpn Hy. specialize (Hne p Hpn). rewrite Hy in Hne. destruct (store m3 !! p) as [y'|]; [|done]. cbn in Hne. exists y'. split; [done|congruence]. }
  assert (Hsplit : forall y y' : memLSNode, noidx y' = noidx y -> details y' = details y /\ held y' = held y /\ expiry y' = expiry y /\ token y' = token y /\ refCount y' = refCount y).
  { intros y y' E. unfold noidx, set_index in E. by injection E as -> -> -> -> ->. }
  assert (Hsplit2 : forall y y' : memLSNode, norefs y' = norefs y -> details y' = details y /\ held y' = held y /\ expiry y' = expiry y /\ token y' = token y).
  { intros y y' E. unfold norefs, set_refCount in E. by injection E as -> -> -> _ ->. }
  assert (Habs : abs_node (set_index i x') = abs_node x') by done. rewrite <- Habs.
  eapply (inv_created m L l d n (set_index i x') m3 z); try done.
  - by rewrite E2, ET.
  - intros name p Hp. rewrite E1. by apply (rf_old _ _ _ Hr).
  - intros name p. rewrite E1. apply (rf_ptr _ _ _ Hr).
  - intros name p. rewrite E1. apply Hpath.
  - intros k Hk. rewrite E1. by apply Hdom.
  - intros k y Hk (p & Hp & Hy)%node_at_some. rewrite E1 in Hp. destruct (no_node _ Hnm2 _ _ Hp) as (y2 & Hy2 & _).
    assert (Hna : node_at m2 (path_of k) = Some y2) by (apply node_at_some; eauto). rewrite <- (Href k y2 Hk Hna).
    destruct (decide (p = n)) as [->|Hpn]; [assert (y2 = x2) as -> by congruence; assert (y = set_index i x') as -> by congruence; done|].
    destruct (Hold2 _ _ Hpn Hy2) as (y3 & Hy3 & E). assert (y3 = y) as -> by congruence. by apply Hsplit in E as (_ & _ & _ & _ & ->).
  - by rewrite E1.
  - intros p y Hpn Hy. destruct (rf_store _ _ _ Hr _ _ Hy) as (y2 & Hy2 & Ey2). destruct (Hold2 _ _ Hpn Hy2) as (y3 & Hy3 & Ey3).
    exists y3. apply Hsplit in Ey3 as (-> & -> & -> & -> & _). by apply Hsplit2 in Ey2 as (-> & -> & -> & ->).
  - intros p y' Hpn Hnone Hy'. specialize (Hne p Hpn). rewrite Hy' in Hne. destruct (store m2 !! p) as [y2|] eqn:Ey2; [|done]. cbn in Hne.
    pose proof (rf_new _ _ _ Hr _ _ Hnone Ey2) as Eb. assert (E : noidx y' = noidx y2) by congruence.
    apply Hsplit in E as (_ & -> & _ & -> & _). apply Hsplit2 in Eb as (_ & -> & _ & ->). done.
  - intros p. by rewrite Hexp, EB.
Qed.

Lemma Create_ok now d0 m L : inv m L -> gen m + 1 < 2 ^ 64 ->
  exists m' L' r, Create now d0 m = Ok (m', r) /\ inv m' L' /\ s_create now d0 (abs m) = (abs m', r) /\
    (forall t p, byToken m' !! t = Some p -> is_Some (locks (expire now (abs m)) !! t) -> byToken m !! t = Some p).
Proof.
  intros Hi Hgen. unfold Create, s_create. destruct (collectExpiredNodes_ok now m L Hi) as (m1 & L1 & -> & Hi1 & Ha1 & Hsub). cbn [mbind outcome_bind].
  rewrite <- Ha1. assert (Hg1 : gen m1 = gen m) by (apply (f_equal last_token) in Ha1; exact Ha1).
  set (d := mkDetails (slashClean (Root d0)) (Duration d0) (OwnerXML d0) (ZeroDepth d0)).
  destruct (slashClean_canonical (Root d0)) as (l & Hl & El). assert (Hroot : Root d = path_of l) by exact El.
  change (slashClean (Root d0)) with (Root d). rewrite Hroot. rewrite canCreate_spec by (done || apply Hi1). cbn [mbind outcome_bind].
  change (ZeroDepth d0) with (ZeroDepth d). pose proof (admits_compatible m1 L1 l d Hi1 Hl Hroot) as Hadm. pose proof (compatible_abs m1 L1 d Hi1) as Hcab.
  destruct (admits_all _ _ _ _) eqn:Ea; cbn [negb].
  2:{ destruct (existsb _ _) eqn:Ee; [|exfalso; assert (false = true) by (apply Hadm, Hcab; done); done].
      exists m1, L1, (inr ErrLocked). split_and!; [done|done|done|]. intros t p Hp _. by apply Hsub. }
  pose proof (proj1 Hadm eq_refl) as Hcomp. rewrite (proj1 Hcab Hcomp).
  assert (HlL : l ∉ L1).
  { intros HlL. assert (Hs : is_Some (byName m1 !! path_of l)) by (apply (v_dom _ _ Hi1 l Hl), count_pos; by exists l). destruct Hs as [p Hp].
    destruct (no_node _ (v_names _ _ Hi1) _ _ Hp) as (x & Hx & Ex). assert (Hna : node_at m1 (path_of l) = Some x) by (apply node_at_some; eauto).
    assert (Ht : token x <> []) by by apply (v_node _ _ Hi1 l x Hl Hna). pose proof (v_named _ _ Hi1 _ _ _ Hp Hx Ht) as Hbt.
    pose proof (Hcomp _ _ _ Hbt Hx) as Hc. apply (conflict_false _ _ l l Hl Hl Ex Hroot) in Hc as [? _]. done. }
  destruct (create_spec l m1 Hl (v_names _ _ Hi1)) as (n & m2 & -> & Hn & Hr). cbn [mbind outcome_bind].
  destruct (rf_rest _ _ _ Hr) as (ET & EG & EB). unfold nextToken. set (z := u64 (gen m2 + 1)).
  pose proof (v_gen _ _ Hi1) as Hgb. assert (Ez : z = gen m1 + 1) by (unfold z; rewrite EG; apply wrap_id; unfold in_width; lia).
  change (last_token (abs m1)) with (gen m1). assert (Ez2 : u64 (gen m1 + 1) = z) by (unfold z; by rewrite EG). rewrite Ez2.
  assert (Hx2 : exists x2, store m2 !! n = Some x2 /\ held x2 = false).
  { assert (Hpi : path_in (prefixes l) (path_of l)) by (exists l; split; [apply prefixes_spec; done|done]).
    pose proof (rf_in _ _ _ Hr _ Hpi) as Hna2. apply node_at_some in Hna2 as (n' & Hn' & Hx2). assert (n' = n) as -> by congruence.
    eexists. split; [exact Hx2|]. destruct (node_at m1 (path_of l)) as [x|] eqn:Hna; [|done]. cbn. destruct (v_node _ _ Hi1 l x Hl Hna) as (_ & K1 & K2).
    apply K2. destruct (decide (token x = [])) as [?|Hne]; [done|]. by destruct HlL; apply K1. }
  destruct Hx2 as (x2 & Hx2 & Hh2).
  assert (Hnt : forall t, byToken m1 !! t <> Some n).
  { intros t Ht. destruct (token_path _ _ _ _ Hi1 Ht) as (x & k & Hx & Hk & Hrk & Hna & HkL & _). destruct (v_token _ _ Hi1 _ _ Ht) as (y & Hy & _ & _ & Hnm).
    assert (y = x) as -> by congruence. rewrite Hrk in Hnm. apply (rf_old _ _ _ Hr) in Hnm.
    pose proof (names_inj _ _ _ _ (rf_names _ _ _ Hr) Hnm Hn) as E. apply path_of_inj in E; [by subst|done|done]. }
  assert (Hoff : n ∉ byExpiry m2) by (rewrite EB; intros (t & x & Ht & _)%(v_expiry _ _ Hi1); by eapply Hnt).
  cbn [with_gen gen]. rewrite (update_some n _ _ x2) by done. cbn [mbind outcome_bind with_store with_gen with_byToken store fresh byName byToken gen byExpiry].
  rewrite (update_some n _ _ (set_token (FormatUint z) x2)) by (cbn; by rewrite lookup_insert_eq).
  cbn [mbind outcome_bind with_store with_gen with_byToken store fresh byName byToken gen byExpiry]. rewrite insert_insert_eq.
  set (x3 := set_details d (set_token (FormatUint z) x2)). 
  change (with_store (<[n:=x3]> (store m2)) (with_byToken (<[FormatUint z:=n]> (byToken m2)) (with_store (<[n:=set_token (FormatUint z) x2]> (store m2)) (with_gen z m2))))
    with (locked_at n x3 z m2).
  pose proof (referred_heap _ _ _ (v_heap _ _ Hi1) Hr) as Hho2.
  assert (Hho : forall x, byExpiryIndex x = byExpiryIndex x2 -> heap_ok (locked_at n x z m2)).
  { intros x Ex. eapply heap_ok_ext; [exact (heap_ok_off m2 n x2 x Hho2 Hx2 Hoff Ex)|done|done]. }
  assert (Hdone : forall m3 x', details x' = d -> token x' = FormatUint z -> held x' = false -> refCount x' = refCount x2 ->
    heap_ok m3 -> same_but (locked_at n x' z m2) m3 -> (forall p, p ∈ byExpiry m3 <-> p ∈ byExpiry m2 \/ p = n /\ finite d = true) ->
    abs_node x' = mkLock d (expires_at now d) false ->
    exists m' L' r, Ok (E := Empty_set) (m3, inl (B := ls_error) (FormatUint z)) = Ok (m', r) /\ inv m' L' /\
      (mkTable (<[FormatUint z := mkLock d (expires_at now d) false]> (locks (abs m1))) z, inl (FormatUint z)) = (abs m', r) /\
      (forall t p, byToken m' !! t = Some p -> is_Some (locks (abs m1) !! t) -> byToken m !! t = Some p)).
  { intros m3 x' K1 K2 K3 K4 K5 K6 K7 K8. destruct (locked_at_inv m1 L1 l d n x2 x' m2 m3 z Hi1 Hl HlL Hroot Hcomp) as [Hi3 Ha3]; try done; try lia.
    exists m3, ({[l]} ∪ L1), (inl (FormatUint z)). split_and!; [done|done|by rewrite Ha3, K8|].
    intros t p Hp Hs. destruct K6 as (_ & E2 & _). rewrite E2 in Hp. cbn in Hp. rewrite ET in Hp. apply lookup_insert_Some in Hp as [[<- _]|[_ Hp]]; [|by apply Hsub].
    exfalso. destruct Hs as [lk Hs]. rewrite abs_lookup in Hs. apply bind_Some in Hs as (p1 & Hp1 & _).
    destruct (v_tokens _ _ Hi1 (FormatUint z)) as (w & Hw & Ew); [eauto|]. apply FormatUint_inj in Ew; lia. }
  change (Duration d0) with (Duration d). fold (finite d). destruct (finite d) eqn:Ef.
  - set (x4 := set_expiry (now + Duration d) x3).
    assert (Eu : update n (set_expiry (now + Duration d)) (locked_at n x3 z m2) = Ok (locked_at n x4 z m2)).
    { rewrite (update_some n _ _ x3) by (cbn; by rewrite lookup_insert_eq). unfold locked_at, with_store. cbn [store fresh byName byToken gen byExpiry].
      by rewrite insert_insert_eq. }
    rewrite Eu. cbn [mbind outcome_bind]. destruct (heap_push_ok (locked_at n x4 z m2) n x4) as (m3 & -> & Hho3 & Hsb & Hperm); [by apply Hho|cbn; by rewrite lookup_insert_eq|done|].
    cbn [mbind outcome_bind]. apply (Hdone m3 x4); try done.
    + intros p. rewrite Hperm, elem_of_cons. cbn. tauto.
    + unfold abs_node, expires_at. cbn. rewrite Ef. by rewrite Hh2.
  - cbn [mbind outcome_bind]. apply (Hdone _ x3); try done.
    + by apply Hho.
    + intros p. cbn. split; [by left|]. by intros [?|[_ ?]].
    + unfold abs_node, expires_at. cbn. rewrite Ef. by rewrite Hh2.
Qed.
