(* ===== verification/WebdavLockRefine.v ===== *)
(** The lock system implements the table of locks: every run of calls returns,
    with the table's results. *)
From S2P Require Import Prelude GoHeap WebdavPath WebdavLock WebdavHeap WebdavLockSpec WebdavLockWalk WebdavLockInv WebdavLockCreate.

(** * [Confirm] and its release function *)

(** A pointer and a token for the same lock, or none. *)
Definition same_lock (m : memLS) (p : ptr) (t : option bytes) : Prop :=
  match p, t with
  | Some n, Some t => byToken m !! t = Some n
  | None, None => True
  | _, _ => False
  end.

Definition unheld (s : table) (t : option bytes) : Prop :=
  match t with Some t => exists l, locks s !! t = Some l /\ l_held l = false | None => True end.

Lemma lookup_lock_ok name conds m L : inv m L ->
  exists p, lookup_lock name conds m = Ok p /\ same_lock m p (claim name conds (abs m)) /\ unheld (abs m) (claim name conds (abs m)).
Proof.
  intros Hi. induction conds as [|c conds IH]; [by exists None|]. cbn [lookup_lock claim]. destruct (byToken m !! Token c) as [n|] eqn:E.
  - destruct (abs_token _ _ _ _ Hi E) as (x & Hx & _ & Ha). rewrite Ha, (deref_some _ _ _ Hx). cbn [mbind outcome_bind abs_node l_held l_details].
    assert (Hsome : held x = false -> exists p, Ok (E := Empty_set) (Some n) = Ok p /\ same_lock m p (Some (Token c)) /\ unheld (abs m) (Some (Token c))).
    { intros Hh. exists (Some n). split; [done|]. split; [done|]. exists (abs_node x). by split. }
    destruct (held x) eqn:Hh; [exact IH|]. cbn [negb andb]. unfold covers. destruct (decide (name = Root (details x))) as [Er|Er].
    + rewrite (bool_decide_true (Root (details x) = name)) by by symmetry. by apply Hsome.
    + rewrite (bool_decide_false (Root (details x) = name)) by by symmetry. cbn [orb]. destruct (ZeroDepth (details x)); cbn [negb andb]; [exact IH|]. unfold below.
      destruct (bool_decide (Root (details x) = [slash]) || HasPrefix name (Root (details x) ++ [slash])); [by apply Hsome|exact IH].
  - rewrite (abs_none _ _ E). exact IH.
Qed.

Lemma find_ok name conds m L : inv m L ->
  exists p, find name conds m = Ok p /\ same_lock m p (s_find name conds (abs m)) /\ unheld (abs m) (s_find name conds (abs m)).
Proof. intros Hi. unfold find, s_find. case_decide; [by exists None|]. by eapply lookup_lock_ok. Qed.

Lemma same_lock_none m p t : same_lock m p t -> bool_decide (p = None) = bool_decide (t = None).
Proof. destruct p, t; done. Qed.

Lemma same_lock_eq m L p p' t t' : inv m L -> same_lock m p t -> same_lock m p' t' -> p = p' <-> t = t'.
Proof.
  intros Hi. destruct p as [n|], t as [u|], p' as [n'|], t' as [u'|]; cbn; try done. intros H1 H2.
  split; intros [= ->]; [f_equal; by eapply token_inj|congruence].
Qed.

Lemma hold_opt_ok m L p t : inv m L -> same_lock m p t -> unheld (abs m) t ->
  exists m', hold_opt p m = Ok m' /\ inv m' L /\ abs m' = s_hold true t (abs m) /\ byToken m' = byToken m.
Proof.
  intros Hi Hs Hu. destruct p as [n|], t as [t|]; cbn in Hs, Hu; try done; [|by exists m].
  destruct Hu as (l & Hl & Hh). destruct (abs_token _ _ _ _ Hi Hs) as (x & Hx & _ & Ha). assert (held x = false) as Hhx.
  { pose proof (eq_trans (eq_sym Hl) Ha) as [= ->]. exact Hh. }
  destruct (hold_ok m L t n x Hi Hs Hx Hhx) as (m' & Hr & Hi' & Ha' & ET & _). by exists m'.
Qed.

Lemma unhold_opt_ok m L p t : inv m L -> same_lock m p t ->
  match t with Some t => exists l, locks (abs m) !! t = Some l /\ l_held l = true | None => True end ->
  exists m', unhold_opt p m = Ok m' /\ inv m' L /\ abs m' = s_hold false t (abs m) /\ byToken m' = byToken m.
Proof.
  intros Hi Hs Hu. destruct p as [n|], t as [t|]; cbn in Hs, Hu; try done; [|by exists m].
  destruct Hu as (l & Hl & Hh). destruct (abs_token _ _ _ _ Hi Hs) as (x & Hx & _ & Ha). assert (held x = true) as Hhx.
  { pose proof (eq_trans (eq_sym Hl) Ha) as [= ->]. exact Hh. }
  destruct (unhold_ok m L t n x Hi Hs Hx Hhx) as (m' & Hr & Hi' & Ha' & ET). by exists m'.
Qed.

Definition same_release (m : memLS) (r : release_of) (u : option bytes * option bytes) : Prop :=
  same_lock m (fst r) (fst u) /\ same_lock m (snd r) (snd u).

Lemma Confirm_ok now name0 name1 conds m L : inv m L ->
  exists m' L' r u, Confirm now name0 name1 conds m = Ok (m', r) /\ inv m' L' /\ s_confirm now name0 name1 conds (abs m) = (abs m', u) /\
    (forall t p, byToken m' !! t = Some p -> byToken m !! t = Some p) /\
    match r, u with
    | inl r, inl u => same_release m' r u /\ (fst u <> snd u \/ snd u = None) /\ unheld (expire now (abs m)) (fst u) /\ unheld (expire now (abs m)) (snd u)
    | inr e, inr e' => e = e'
    | _, _ => False
    end.
Proof.
  intros Hi. unfold Confirm, s_confirm. destruct (collectExpiredNodes_ok now m L Hi) as (m1 & L1 & -> & Hi1 & Ha1 & Hsub). cbn [mbind outcome_bind].
  rewrite <- Ha1. destruct (find_ok name0 conds m1 L1 Hi1) as (n0 & -> & Hs0 & Hu0). cbn [mbind outcome_bind]. rewrite (same_lock_none _ _ _ Hs0).
  destruct (negb (bool_decide (name0 = [])) && bool_decide (s_find name0 conds (abs m1) = None)); cbn [orb].
  { by exists m1, L1, (inr ErrConfirmationFailed), (inr ErrConfirmationFailed). }
  destruct (find_ok name1 conds m1 L1 Hi1) as (n1 & -> & Hs1 & Hu1). cbn [mbind outcome_bind]. rewrite (same_lock_none _ _ _ Hs1).
  destruct (negb (bool_decide (name1 = [])) && bool_decide (s_find name1 conds (abs m1) = None)).
  { by exists m1, L1, (inr ErrConfirmationFailed), (inr ErrConfirmationFailed). }
  set (t0 := s_find name0 conds (abs m1)) in *. set (t1 := s_find name1 conds (abs m1)) in *.
  set (n1' := if decide (n1 = n0) then None else n1). set (t1' := if decide (t1 = t0) then None else t1).
  assert (Hs1' : same_lock m1 n1' t1').
  { unfold n1', t1'. pose proof (same_lock_eq _ _ _ _ _ _ Hi1 Hs1 Hs0) as Heq. do 2 case_decide; first [done|tauto]. }
  assert (Hu1' : unheld (abs m1) t1') by (unfold t1'; by case_decide).
  assert (Hne : t0 <> t1' \/ t1' = None) by (unfold t1'; case_decide; [by right|left; congruence]).
  destruct (hold_opt_ok m1 L1 n0 t0 Hi1 Hs0 Hu0) as (m2 & -> & Hi2 & Ha2 & ET2). cbn [mbind outcome_bind].
  assert (Hs12 : same_lock m2 n1' t1') by (unfold same_lock in *; by rewrite ET2).
  assert (Hu12 : unheld (abs m2) t1').
  { rewrite Ha2. destruct t1' as [t|]; [|done]. destruct Hu1' as (l & Hl & Hh). exists l. split; [|done]. destruct t0 as [u|]; [|done]. cbn.
    rewrite lookup_alter_ne; [done|]. destruct Hne as [Hne|]; [congruence|done]. }
  destruct (hold_opt_ok m2 L1 n1' t1' Hi2 Hs12 Hu12) as (m3 & -> & Hi3 & Ha3 & ET3). cbn [mbind outcome_bind].
  exists m3, L1, (inl (n0, n1')), (inl (t0, t1')). split_and!; [done|done|by rewrite Ha3, Ha2| | |done|done|done].
  - intros t p. rewrite ET3, ET2. apply Hsub.
  - split; cbn; unfold same_lock in *; by rewrite ET3, ET2.
Qed.

(** * Runs *)

(** The calls; [LRelease i] calls the [i]-th release function not called yet. *)
Inductive ls_call :=
  | LConfirm (now : Z) (name0 name1 : bytes) (conditions : list Condition)
  | LCreate (now : Z) (d : LockDetails)
  | LRefresh (now : Z) (tok : bytes) (duration : Z)
  | LUnlock (now : Z) (tok : bytes)
  | LRelease (i : nat).

Inductive ls_result :=
  | RConfirm (e : option ls_error)
  | RCreate (r : bytes + ls_error)
  | RRefresh (r : LockDetails + ls_error)
  | RUnlock (e : option ls_error)
  | RRelease.

(** Error or nothing. *)
Definition confirmed {A} (rs : list A) (r : A + ls_error) : list A * ls_result :=
  match r with inl r => (r :: rs, RConfirm None) | inr e => (rs, RConfirm (Some e)) end.

Definition run1 (c : ls_call) (st : memLS * list release_of) : fl (ls_result * (memLS * list release_of)) :=
  let '(m, rs) := st in
  match c with
  | LConfirm now n0 n1 conds => '(m, r) ← Confirm now n0 n1 conds m; let '(rs, res) := confirmed rs r in Ok (res, (m, rs))
  | LCreate now d => '(m, r) ← Create now d m; Ok (RCreate r, (m, rs))
  | LRefresh now tok d => '(m, r) ← Refresh now tok d m; Ok (RRefresh r, (m, rs))
  | LUnlock now tok => '(m, r) ← Unlock now tok m; Ok (RUnlock r, (m, rs))
  | LRelease i =>
      match rs !! i with
      | Some r => m ← release r m; Ok (RRelease, (m, delete i rs))
      | None => Ok (RRelease, (m, rs))
      end
  end.

Abbreviation spec_state := (table * list (option bytes * option bytes))%type.

Definition spec1 (c : ls_call) (st : spec_state) : ls_result * spec_state :=
  let '(s, us) := st in
  match c with
  | LConfirm now n0 n1 conds => let '(s, r) := s_confirm now n0 n1 conds s in let '(us, res) := confirmed us r in (res, (s, us))
  | LCreate now d => let '(s, r) := s_create now d s in (RCreate r, (s, us))
  | LRefresh now tok d => let '(s, r) := s_refresh now tok d s in (RRefresh r, (s, us))
  | LUnlock now tok => let '(s, r) := s_unlock now tok s in (RUnlock r, (s, us))
  | LRelease i =>
      match us !! i with
      | Some u => (RRelease, (s_release u s, delete i us))
      | None => (RRelease, (s, us))
      end
  end.

Fixpoint run (l : list ls_call) (st : memLS * list release_of) : fl (list ls_result * (memLS * list release_of)) :=
  match l with [] => Ok ([], st) | c :: l => '(r, st) ← run1 c st; '(rs, st) ← run l st; Ok (r :: rs, st) end.
Fixpoint spec_run (l : list ls_call) (st : spec_state) : list ls_result * spec_state :=
  match l with [] => ([], st) | c :: l => let '(r, st) := spec1 c st in let '(rs, st) := spec_run l st in (r :: rs, st) end.

(** The tokens of the locks a release function will release. *)
Definition opt_list {A} (o : option A) : list A := match o with Some a => [a] | None => [] end.
Definition tokens_of (u : option bytes * option bytes) : list bytes := opt_list (fst u) ++ opt_list (snd u).

Definition is_held (s : table) (t : bytes) : Prop := exists l, locks s !! t = Some l /\ l_held l = true.

Record simulates (m : memLS) (rs : list release_of) (us : list (option bytes * option bytes)) : Prop := {
  sm_inv : exists L, inv m L;
  sm_releases : Forall2 (same_release m) rs us;
  sm_nodup : NoDup (us ≫= tokens_of);
  sm_held : forall t, t ∈ us ≫= tokens_of -> is_held (abs m) t }.

(** * Held locks stay *)

Lemma held_expire now s t : is_held s t -> is_held (expire now s) t.
Proof.
  intros (l & Hl & Hh). exists l. split; [|done]. cbn. apply map_lookup_filter_Some. split; [done|]. unfold expired. cbn. by rewrite Hh.
Qed.

Lemma held_hold t u s : is_held s t -> is_held (s_hold true u s) t.
Proof.
  intros (l & Hl & Hh). destruct u as [u|]; [|by exists l]. destruct (decide (u = t)) as [->|Hne].
  - exists (set_l_held true l). split; [|done]. cbn. rewrite lookup_alter_eq. by setoid_rewrite Hl.
  - exists l. split; [|done]. cbn. by rewrite lookup_alter_ne.
Qed.

Lemma held_unhold t u s : is_held s t -> Some t <> u -> is_held (s_hold false u s) t.
Proof.
  intros (l & Hl & Hh) Hne. exists l. split; [|done]. destruct u as [u|]; [|done]. cbn. rewrite lookup_alter_ne; [done|congruence].
Qed.

Lemma hold_held t s : unheld s (Some t) -> is_held (s_hold true (Some t) s) t.
Proof. intros (l & Hl & Hh). exists (set_l_held true l). split; [|done]. cbn. rewrite lookup_alter_eq. by setoid_rewrite Hl. Qed.

Lemma held_refresh now tok d s t : is_held s t -> is_held (s_refresh now tok d s).1 t.
Proof.
  intros H%(held_expire now). unfold s_refresh. destruct (locks (expire now s) !! tok) as [l|] eqn:E; [|done].
  destruct (l_held l) eqn:Hl; [done|]. destruct H as (l' & Hl' & Hh). exists l'. split; [|done]. cbn [fst with_locks locks].
  rewrite lookup_insert_ne; [done|]. intros ->. pose proof (eq_trans (eq_sym E) Hl') as [= ->]. congruence.
Qed.

Lemma held_unlock now tok s t : is_held s t -> is_held (s_unlock now tok s).1 t.
Proof.
  intros H%(held_expire now). unfold s_unlock. destruct (locks (expire now s) !! tok) as [l|] eqn:E; [|done].
  destruct (l_held l) eqn:Hl; [done|]. destruct H as (l' & Hl' & Hh). exists l'. split; [|done]. cbn [fst with_locks locks].
  rewrite lookup_delete_ne; [done|]. intros ->. pose proof (eq_trans (eq_sym E) Hl') as [= ->]. congruence.
Qed.

Lemma held_confirm now n0 n1 conds s t : is_held s t -> is_held (s_confirm now n0 n1 conds s).1 t.
Proof. intros H%(held_expire now). unfold s_confirm. case_match; [done|]. by apply held_hold, held_hold. Qed.

Lemma held_create now d s t : t <> FormatUint (u64 (last_token s + 1)) -> is_held s t -> is_held (s_create now d s).1 t.
Proof.
  intros Hne H%(held_expire now). unfold s_create. case_match; [done|]. destruct H as (l' & Hl' & Hh). exists l'. split; [|done].
  cbn [fst locks]. rewrite lookup_insert_ne; [done|]. intros E. apply Hne. symmetry. exact E.
Qed.

Lemma held_known m L t : inv m L -> is_held (abs m) t -> is_Some (byToken m !! t).
Proof. intros Hi (l & Hl & _). rewrite abs_lookup in Hl. apply bind_Some in Hl as (p & -> & _). by exists p. Qed.

(** The next token is not that of a lock. *)
Lemma held_fresh m L t : inv m L -> gen m + 1 < 2 ^ 64 -> is_held (abs m) t -> t <> FormatUint (u64 (last_token (abs m) + 1)).
Proof.
  intros Hi Hg Ht E. destruct (v_tokens _ _ Hi t (held_known _ _ _ Hi Ht)) as (z & Hz & ->). pose proof (v_gen _ _ Hi). cbn in E.
  unfold u64 in E. rewrite (wrap_id 64) in E by (split; [lia|exact Hg]). apply FormatUint_inj in E; lia.
Qed.

(** * One step *)

Lemma tokens_held m rs us i u : simulates m rs us -> us !! i = Some u -> forall t, t ∈ tokens_of u -> is_held (abs m) t.
Proof. intros Hs Hu t Ht. apply (sm_held _ _ _ Hs), list_elem_of_bind. exists u. split; [done|]. by eapply list_elem_of_lookup_2. Qed.

Lemma same_lock_held m p t : same_lock m p t -> forall m' L', inv m' L' -> (forall u, t = Some u -> is_held (abs m') u) ->
  (forall u q, t = Some u -> byToken m' !! u = Some q -> byToken m !! u = Some q) -> same_lock m' p t.
Proof.
  intros Hs m' L' Hi Hh Hb. destruct p as [n|], t as [t|]; cbn in *; try done.
  destruct (held_known m' L' t Hi (Hh t eq_refl)) as [q Hq]. pose proof (Hb t q eq_refl Hq). congruence.
Qed.

Lemma in_tokens_fst u t : fst u = Some t -> t ∈ tokens_of u.
Proof. unfold tokens_of. intros ->. by left. Qed.
Lemma in_tokens_snd u t : snd u = Some t -> t ∈ tokens_of u.
Proof. unfold tokens_of. intros ->. apply elem_of_app. right. by left. Qed.

Lemma simulates_step m rs us m' L' : simulates m rs us -> inv m' L' -> (forall t, is_held (abs m) t -> is_held (abs m') t) ->
  (forall t p, is_held (abs m) t -> byToken m' !! t = Some p -> byToken m !! t = Some p) -> simulates m' rs us.
Proof.
  intros Hs Hi Hh Hb. split; [by exists L'| |apply Hs|].
  - apply Forall2_same_length_lookup. pose proof (sm_releases _ _ _ Hs) as Hr. split; [by eapply Forall2_length|].
    intros i r u Hri Hui. pose proof (tokens_held _ _ _ _ _ Hs Hui) as Ht. destruct (Forall2_lookup_lr _ _ _ _ _ _ Hr Hri Hui) as [H1 H2].
    split; (eapply same_lock_held; [eassumption|exact Hi| |]).
    + intros t E. by apply Hh, Ht, in_tokens_fst.
    + intros t q E. apply Hb. by apply Ht, in_tokens_fst.
    + intros t E. by apply Hh, Ht, in_tokens_snd.
    + intros t q E. apply Hb. by apply Ht, in_tokens_snd.
  - intros t Ht. by apply Hh, (sm_held _ _ _ Hs).
Qed.

(** Two locks for one release are not the same. *)
Lemma tokens_nodup u : (fst u <> snd u \/ snd u = None) -> NoDup (tokens_of u).
Proof.
  unfold tokens_of. destruct u as [[t|] [t'|]]; cbn; intros H; repeat constructor; try apply not_elem_of_nil.
  intros ->%list_elem_of_singleton. by destruct H.
Qed.

Lemma confirm_step now n0 n1 conds m rs us : simulates m rs us ->
  exists m' rs' us' res, run1 (LConfirm now n0 n1 conds) (m, rs) = Ok (res, (m', rs')) /\
    spec1 (LConfirm now n0 n1 conds) (abs m, us) = (res, (abs m', us')) /\ simulates m' rs' us'.
Proof.
  intros Hs. destruct (sm_inv _ _ _ Hs) as [L Hi]. cbn [run1 spec1].
  destruct (Confirm_ok now n0 n1 conds m L Hi) as (m' & L' & r & u & -> & Hi' & Hsp & Hsub & Hru). rewrite Hsp. cbn [mbind outcome_bind].
  assert (Hs' : simulates m' rs us).
  { apply (simulates_step m rs us m' L'); [done|done| |by intros t p _; apply Hsub]. intros t Ht. pose proof (held_confirm now n0 n1 conds _ _ Ht) as H. by rewrite Hsp in H. }
  destruct r as [r|e], u as [u|e']; try done; cbn [confirmed]; [|by subst; exists m', rs, us, (RConfirm (Some e'))].
  exists m', (r :: rs), (u :: us), (RConfirm None). split; [done|]. split; [done|]. destruct Hru as (Hsr & Hne & Hu0 & Hu1).
  assert (Hun : forall t, t ∈ tokens_of u -> unheld (expire now (abs m)) (Some t)).
  { intros t Ht. unfold tokens_of in Ht. apply elem_of_app in Ht as [Ht|Ht]; [destruct (fst u)|destruct (snd u)]; cbn in Ht; try by apply elem_of_nil in Ht.
    - by apply list_elem_of_singleton in Ht as ->.
    - by apply list_elem_of_singleton in Ht as ->. }
  split; [by exists L'|by constructor; [|apply Hs']| |].
  - cbn [mbind list_bind]. apply NoDup_app. split_and!; [by apply tokens_nodup| |apply Hs]. intros t Ht Ht2.
    destruct (Hun t Ht) as (l & Hl & Hh), (held_expire now _ _ (sm_held _ _ _ Hs t Ht2)) as (l' & Hl' & Hh').
    pose proof (eq_trans (eq_sym Hl) Hl') as [= ->]. congruence.
  - cbn [mbind list_bind]. intros t [Ht|Ht]%elem_of_app; [|by apply (sm_held _ _ _ Hs')].
    assert (Hab : abs m' = s_hold true (snd u) (s_hold true (fst u) (expire now (abs m)))).
    { unfold s_confirm in Hsp. case_match; [done|]. by injection Hsp as <- <-. }
    rewrite Hab. unfold tokens_of in Ht. apply elem_of_app in Ht as [Ht|Ht].
    + destruct (fst u) as [w|]; cbn in Ht; [|by apply elem_of_nil in Ht]. apply list_elem_of_singleton in Ht as ->. by apply held_hold, hold_held.
    + destruct (snd u) as [w|]; cbn in Ht; [|by apply elem_of_nil in Ht]. apply list_elem_of_singleton in Ht as ->. apply hold_held.
      destruct Hu1 as (l & Hl & Hh). exists l. split; [|done]. destruct (fst u) as [v|]; [|done]. cbn.
      rewrite lookup_alter_ne; [done|]. destruct Hne; [congruence|done].
Qed.

(** The other tokens keep their marks when a lock is released. *)
Lemma release_step i m rs us : simulates m rs us ->
  exists m' rs' us' res, run1 (LRelease i) (m, rs) = Ok (res, (m', rs')) /\
    spec1 (LRelease i) (abs m, us) = (res, (abs m', us')) /\ simulates m' rs' us'.
Proof.
  intros Hs. destruct (sm_inv _ _ _ Hs) as [L Hi]. cbn [run1 spec1]. pose proof (sm_releases _ _ _ Hs) as Hrel.
  destruct (rs !! i) as [r|] eqn:Er.
  2: { rewrite lookup_ge_None in Er. rewrite (Forall2_length _ _ _ Hrel) in Er. apply lookup_ge_None in Er as ->. by exists m, rs, us, RRelease. }
  destruct (Forall2_lookup_l _ _ _ _ _ Hrel Er) as (u & Eu & [Hr0 Hr1]). rewrite Eu. unfold release, s_release.
  pose proof (delete_Permutation _ _ _ Eu) as Hperm. pose proof (sm_nodup _ _ _ Hs) as Hnd. rewrite Hperm in Hnd. cbn [mbind list_bind] in Hnd.
  apply NoDup_app in Hnd as (Hndu & Hdis & Hnd).
  pose proof (tokens_held _ _ _ _ _ Hs Eu) as Hheld.
  destruct (unhold_opt_ok m L (snd r) (snd u) Hi Hr1) as (m1 & -> & Hi1 & Ha1 & ET1).
  { destruct (snd u) as [t|] eqn:E; [|done]. by apply Hheld, in_tokens_snd. }
  assert (Hr01 : same_lock m1 (fst r) (fst u)) by (unfold same_lock in *; by rewrite ET1).
  cbn [mbind outcome_bind]. destruct (unhold_opt_ok m1 L (fst r) (fst u) Hi1 Hr01) as (m2 & -> & Hi2 & Ha2 & ET2).
  { destruct (fst u) as [t|] eqn:E; [|done]. rewrite Ha1. apply held_unhold; [by apply Hheld, in_tokens_fst|]. intros E2.
    unfold tokens_of in Hndu. rewrite E, <- E2 in Hndu. apply NoDup_app in Hndu as (_ & Hno & _). apply (Hno t); by left. }
  cbn [mbind outcome_bind]. exists m2, (delete i rs), (delete i us), RRelease. rewrite <- Ha1, <- Ha2. split; [done|]. split; [done|].
  assert (Hh : forall t, t ∈ delete i us ≫= tokens_of -> is_held (abs m2) t).
  { intros t Ht. rewrite Ha2, Ha1. assert (Htu : t ∉ tokens_of u) by (intros Htu; by eapply Hdis). apply held_unhold; [apply held_unhold|].
    - apply (sm_held _ _ _ Hs). rewrite Hperm. cbn [mbind list_bind]. apply elem_of_app. by right.
    - intros E. by apply Htu, in_tokens_snd.
    - intros E. by apply Htu, in_tokens_fst. }
  split; [by exists L| |exact Hnd|exact Hh].
  assert (Hst : forall r u, same_release m r u -> same_release m2 r u) by (unfold same_release, same_lock; by rewrite ET2, ET1).
  assert (Hdel : Forall2 (same_release m) (delete i rs) (delete i us)) by by apply Forall2_delete.
  eapply Forall2_impl; [exact Hdel|exact Hst].
Qed.

Definition step_ok (c : ls_call) (m : memLS) (rs : list release_of) (us : list (option bytes * option bytes)) : Prop :=
  exists m' rs' us' res, run1 c (m, rs) = Ok (res, (m', rs')) /\ spec1 c (abs m, us) = (res, (abs m', us')) /\ simulates m' rs' us'.

Lemma run1_ok c m rs us : simulates m rs us -> gen m + 1 < 2 ^ 64 -> step_ok c m rs us.
Proof.
  intros Hs Hg. destruct (sm_inv _ _ _ Hs) as [L Hi].
  destruct c as [now n0 n1 conds|now d|now tok d|now tok|i]; [by apply confirm_step| | | |by apply release_step]; unfold step_ok; cbn [run1 spec1].
  - destruct (Create_ok now d m L Hi Hg) as (m' & L' & r & -> & Hi' & Hsp & Hsub). rewrite Hsp.
    exists m', rs, us, (RCreate r). split; [done|]. split; [done|]. apply (simulates_step m rs us m' L'); [done|done| |].
    + intros t Ht. pose proof (held_create now d _ t (held_fresh _ _ _ Hi Hg Ht) Ht) as H. by rewrite Hsp in H.
    + intros t p Ht Hp. apply Hsub; [done|]. destruct (held_expire now _ _ Ht) as (l & Hl & _). by exists l.
  - destruct (Refresh_ok now tok d m L Hi) as (m' & L' & r & -> & Hi' & Hsp & Hsub). rewrite Hsp.
    exists m', rs, us, (RRefresh r). split; [done|]. split; [done|]. apply (simulates_step m rs us m' L'); [done|done| |by intros t p _; apply Hsub].
    intros t Ht. pose proof (held_refresh now tok d _ t Ht) as H. by rewrite Hsp in H.
  - destruct (Unlock_ok now tok m L Hi) as (m' & L' & r & -> & Hi' & Hsp & Hsub). rewrite Hsp.
    exists m', rs, us, (RUnlock r). split; [done|]. split; [done|]. apply (simulates_step m rs us m' L'); [done|done| |by intros t p _; apply Hsub].
    intros t Ht. pose proof (held_unlock now tok _ t Ht) as H. by rewrite Hsp in H.
Qed.

(** A call makes one token at most. *)
Lemma spec1_last c s us : 0 <= last_token s -> last_token s + 1 < 2 ^ 64 -> last_token (spec1 c (s, us)).2.1 <= last_token s + 1.
Proof.
  intros H0 H1. assert (Hh : forall b u s, last_token (s_hold b u s) = last_token s) by by intros b [u|] s'.
  destruct c; cbn [spec1].
  - unfold s_confirm. match goal with |- context [if ?b then (expire now s, _) else _] => destruct b end; cbn; [lia|]. rewrite !Hh. cbn. lia.
  - unfold s_create. match goal with |- context [if ?b then (expire now s, _) else _] => destruct b end; cbn; [lia|]. change (last_token (expire now s)) with (last_token s). unfold u64. rewrite (wrap_id 64) by (split; [lia|exact H1]). lia.
  - unfold s_refresh. repeat case_match; cbn in *; simplify_eq; cbn; lia.
  - unfold s_unlock. repeat case_match; cbn in *; simplify_eq; cbn; lia.
  - case_match; cbn; [|lia]. unfold s_release. rewrite !Hh. lia.
Qed.

Lemma simulates_new unix : 0 <= unix < 2 ^ 64 -> simulates (NewMemLS unix) [] [].
Proof.
  intros Hu. split; [exists ∅; by apply inv_NewMemLS|done|constructor|]. intros t Ht. by apply elem_of_nil in Ht.
Qed.

Lemma runs_ok l : forall m rs us, simulates m rs us -> gen m + len l < 2 ^ 64 ->
  exists res m' rs' us', run l (m, rs) = Ok (res, (m', rs')) /\ spec_run l (abs m, us) = (res, (abs m', us')) /\ simulates m' rs' us'.
Proof.
  induction l as [|c l IH]; intros m rs us Hs Hg; [by exists [], m, rs, us|]. rewrite len_cons in Hg. pose proof (len_nonneg l).
  destruct (sm_inv _ _ _ Hs) as [L Hi]. pose proof (v_gen _ _ Hi) as H0.
  destruct (run1_ok c m rs us Hs ltac:(lia)) as (m' & rs' & us' & r & Hr & Hsp & Hs'). cbn [run spec_run]. rewrite Hr, Hsp. cbn [mbind outcome_bind].
  pose proof (spec1_last c (abs m) us) as Hlast. rewrite Hsp in Hlast. cbn in Hlast.
  destruct (IH m' rs' us' Hs' ltac:(lia)) as (res & m2 & rs2 & us2 & -> & -> & Hs2). by exists (r :: res), m2, rs2, us2.
Qed.

(** * The properties *)

(** C11. Every run of calls of the lock system from [NewMemLS], with release
    functions called in any order, returns without a panic, and every call's
    result is the one of the table of locks: tokens, details and errors. The heap,
    the nodes by name with their reference counts, and the tokens never show. *)
Theorem memLS_refines (unix : Z) (calls : list ls_call) : 0 <= unix -> unix + len calls < 2 ^ 64 ->
  exists results m rs us, run calls (NewMemLS unix, []) = Ok (results, (m, rs)) /\
    spec_run calls (mkTable ∅ unix, []) = (results, (abs m, us)).
Proof.
  intros H0 H1. pose proof (len_nonneg calls). assert (Hu : 0 <= unix < 2 ^ 64) by lia. pose proof (wrap_id 64 unix Hu : u64 unix = unix) as Hw.
  destruct (runs_ok calls (NewMemLS unix) [] [] (simulates_new unix Hu)) as (res & m & rs & us & Hr & Hsp & _); [cbn; lia|].
  exists res, m, rs, us. split; [done|]. rewrite <- Hsp. unfold abs, NewMemLS. cbn. by rewrite Hw.
Qed.

(** C12. Locks exclude each other: after every run of calls, no name is covered
    by two locks, whatever their depths. *)
Theorem locks_exclusive (unix : Z) (calls : list ls_call) results m rs (t u : bytes) (a b : lock) (name : bytes) :
  0 <= unix -> unix + len calls < 2 ^ 64 -> run calls (NewMemLS unix, []) = Ok (results, (m, rs)) ->
  locks (abs m) !! t = Some a -> locks (abs m) !! u = Some b -> t <> u ->
  covers (l_details a) (slashClean name) = true -> covers (l_details b) (slashClean name) = false.
Proof.
  intros H0 H1 Hrun Ha Hb Hne Hca. pose proof (len_nonneg calls). assert (Hu : 0 <= unix < 2 ^ 64) by lia.
  pose proof (wrap_id 64 unix Hu : u64 unix = unix) as Hw.
  destruct (runs_ok calls (NewMemLS unix) [] [] (simulates_new unix Hu)) as (res' & m' & rs' & us & Hr & _ & Hs); [cbn; lia|].
  rewrite Hr in Hrun. injection Hrun as -> -> ->. destruct (sm_inv _ _ _ Hs) as [L Hi]. rewrite abs_lookup in Ha, Hb.
  apply bind_Some in Ha as (p & Hp & (x & Hx & ->)%fmap_Some), Hb as (q & Hq & (y & Hy & ->)%fmap_Some). cbn [abs_node l_details] in *.
  destruct (token_path _ _ _ _ Hi Hp) as (x' & r & Hx' & Hr1 & Er & _), (token_path _ _ _ _ Hi Hq) as (y' & k & Hy' & Hk & Ek & _).
  assert (x' = x) as -> by congruence. assert (y' = y) as -> by congruence.
  destruct (slashClean_canonical name) as (l & Hl & El). rewrite El in *.
  exact (no_conflict_covers (details x) (details y) r k l Hr1 Hk Hl Er Ek (v_compat _ _ Hi t u p q x y Hp Hq Hne Hx Hy) Hca).
Qed.

(** * Examples *)

Definition cond (tok : bytes) : Condition := mkCondition false tok [].

(** Two locks, one for 100ns and one for ever; a conflict; a request that claims
    both; a lock that does not expire because it is held; its release; its end. *)
Definition ex_calls : list ls_call :=
  [LCreate 0 (mkDetails (str "/a/b") 100 [] true);
   LCreate 0 (mkDetails (str "c/../d/") (-1) [] false);
   LCreate 0 (mkDetails (str "/d/e") (-1) [] true);
   LConfirm 50 (str "/a/b") (str "d/f/g") [cond (str "1002"); cond (str "1001")];
   LUnlock 60 (str "1002");
   LRefresh 200 (str "1001") 50;
   LRelease 0;
   LCreate 200 (mkDetails (str "/a") 100 [] true);
   LRefresh 200 (str "1001") 50;
   LUnlock 200 (str "1002")].

Definition ex_results : list ls_result :=
  [RCreate (inl (str "1001")); RCreate (inl (str "1002")); RCreate (inr ErrLocked); RConfirm None; RUnlock (Some ErrLocked);
   RRefresh (inr ErrLocked); RRelease; RCreate (inl (str "1003")); RRefresh (inr ErrNoSuchLock); RUnlock None].

Example ex_run : fst <$> run ex_calls (NewMemLS 1000, []) = Ok ex_results.
Proof. vm_compute. reflexivity. Qed.

Lemma memLS_refines_witness : 0 <= 1000 /\ 1000 + len ex_calls < 2 ^ 64 /\
  exists results m rs us, run ex_calls (NewMemLS 1000, []) = Ok (results, (m, rs)) /\
    spec_run ex_calls (mkTable ∅ 1000, []) = (results, (abs m, us)).
Proof. split; [lia|]. split; [reflexivity|]. apply (memLS_refines 1000 ex_calls); [lia|reflexivity]. Defined.

(** The locks of the first two calls. *)
Definition ex_first : memLS := match run (take 2 ex_calls) (NewMemLS 1000, []) with Ok (_, (m, _)) => m | _ => NewMemLS 0 end.
Definition ex_lock (t : bytes) : lock := default (mkLock (mkDetails [] 0 [] false) 0 false) (locks (abs ex_first) !! t).

Lemma locks_exclusive_witness : covers (l_details (ex_lock (str "1002"))) (slashClean (str "d/./f")) = true /\
  covers (l_details (ex_lock (str "1001"))) (slashClean (str "d/./f")) = false.
Proof.
  split; [vm_compute; reflexivity|].
  apply (locks_exclusive 1000 (take 2 ex_calls) (take 2 ex_results) ex_first [] (str "1002") (str "1001") (ex_lock (str "1002")));
    first [lia|vm_compute; reflexivity|vm_compute; discriminate].
Defined.
