(* ===== verification/WebdavIf.v ===== *)
(** The [If] header of WebDAV requests ([webdav/if.go]) and the [Timeout] header
    ([parseTimeout] of [webdav/lock.go]). *)
From S2P Require Import Prelude GoStrings WebdavPath WebdavLock WebdavLockSpec.

(** * Tokens *)

Definition errTokenType : Z := -1.
Definition eofTokenType : Z := -2.
Definition strTokenType : Z := -3.
Definition notTokenType : Z := -4.
Definition angleTokenType : Z := -5.
Definition squareTokenType : Z := -6.

Definition is_blank (b : Z) : bool := (b =? 9) || (b =? 32).
Fixpoint skip_blanks (s : bytes) : bytes :=
  match s with b :: s' => if is_blank b then skip_blanks s' else s | [] => [] end.

Definition is_delimiter (b : Z) : bool := existsb (Z.eqb b) [9; 32; chr "("; chr ")"; chr "<"; chr ">"; chr "["; chr "]"].

(** The index of the first delimiter, or the length. *)
Fixpoint word_end (s : bytes) : Z :=
  match s with [] => 0 | b :: s => if is_delimiter b then 0 else word_end s + 1 end.

(** The type, the text and what remains. *)
Definition lex (s : bytes) : Z * bytes * bytes :=
  let s := skip_blanks s in
  match s with
  | [] => (eofTokenType, [], [])
  | b :: rest =>
      let i := word_end s in
      if negb (i =? 0) then
        let tokenStr := upto i s in
        let remaining := from i s in
        if bool_decide (tokenStr = str "Not") then (notTokenType, [], remaining) else (strTokenType, tokenStr, remaining)
      else if (b =? chr "<") || (b =? chr "[") then
        let '(j, tokenType) :=
          if b =? chr "<" then (IndexByte s (chr ">"), angleTokenType) else (IndexByte s (chr "]"), squareTokenType) in
        if j <? 0 then (errTokenType, [], []) else (tokenType, from 1 (upto j s), from (j + 1) s)
      else (b, [], rest)
  end.

(** * The grammar *)

Record ifList := mkIfList { resourceTag : bytes; conditions : list Condition }.
Record ifHeader := mkIfHeader { lists : list ifList }.

(** [Fail] is [ok = false]; a loop without fuel panics. *)
Abbreviation parse A := (outcome unit A).

Definition parseCondition (s : bytes) : parse (Condition * bytes) :=
  let '(tokenType, tokenStr, s) := lex s in
  let '(not, (tokenType, tokenStr, s)) :=
    if tokenType =? notTokenType then (true, lex s) else (false, (tokenType, tokenStr, s)) in
  if (tokenType =? strTokenType) || (tokenType =? angleTokenType) then Ok (mkCondition not tokenStr [], s)
  else if tokenType =? squareTokenType then Ok (mkCondition not [] tokenStr, s)
  else Fail tt.

Fixpoint list_loop (fuel : nat) (conds : list Condition) (s : bytes) : parse (ifList * bytes) :=
  match fuel with
  | O => Panic
  | S fuel' =>
      let '(tokenType, _, remaining) := lex s in
      if tokenType =? chr ")" then
        if len conds =? 0 then Fail tt else Ok (mkIfList [] conds, remaining)
      else '(c, remaining) ← parseCondition s; list_loop fuel' (conds ++ [c]) remaining
  end.

(** Every condition takes a byte at least. *)
Definition parseList (s : bytes) : parse (ifList * bytes) :=
  let '(tokenType, _, s) := lex s in
  if negb (tokenType =? chr "(") then Fail tt else list_loop (S (length s)) [] s.

Fixpoint noTag_loop (fuel : nat) (ls : list ifList) (s : bytes) : parse ifHeader :=
  match fuel with
  | O => Panic
  | S fuel' =>
      '(l, remaining) ← parseList s;
      let ls := ls ++ [l] in
      if bool_decide (remaining = []) then Ok (mkIfHeader ls) else noTag_loop fuel' ls remaining
  end.
Definition parseNoTagLists (s : bytes) : parse ifHeader := noTag_loop (S (length s)) [] s.

Fixpoint tagged_loop (fuel : nat) (first : bool) (tag : bytes) (n : Z) (ls : list ifList) (s : bytes) : parse ifHeader :=
  match fuel with
  | O => Panic
  | S fuel' =>
      let '(tokenType, tokenStr, remaining) := lex s in
      if tokenType =? angleTokenType then
        if negb first && (n =? 0) then Fail tt else tagged_loop fuel' false tokenStr 0 ls remaining
      else if tokenType =? chr "(" then
        '(l, remaining) ← parseList s;
        let ls := ls ++ [mkIfList tag (conditions l)] in
        if bool_decide (remaining = []) then Ok (mkIfHeader ls) else tagged_loop fuel' false tag (n + 1) ls remaining
      else Fail tt
  end.
Definition parseTaggedLists (s : bytes) : parse ifHeader := tagged_loop (S (length s)) true [] 0 [] s.

Definition parseIfHeader (httpHeader : bytes) : parse ifHeader :=
  let s := TrimSpace httpHeader in
  let '(tokenType, _, _) := lex s in
  if tokenType =? chr "(" then parseNoTagLists s
  else if tokenType =? angleTokenType then parseTaggedLists s
  else Fail tt.

Example if_untagged : parseIfHeader (str " (<urn:a> Not [e 1]) (x) ") =
  Ok (mkIfHeader [mkIfList [] [mkCondition false (str "urn:a") []; mkCondition true [] (str "e 1")]; mkIfList [] [mkCondition false (str "x") []]]).
Proof. vm_compute. reflexivity. Qed.

Example if_tagged : parseIfHeader (str "</r> (<a>) (<b>) </s> (Not<c>)") =
  Ok (mkIfHeader [mkIfList (str "/r") [mkCondition false (str "a") []]; mkIfList (str "/r") [mkCondition false (str "b") []];
                  mkIfList (str "/s") [mkCondition true (str "c") []]]).
Proof. vm_compute. reflexivity. Qed.

Example if_tag_without_list : parseIfHeader (str "<a> <b> (<c>)") = Fail tt.
Proof. vm_compute. reflexivity. Qed.

(** * The tokens *)

Lemma skip_blanks_len s : len (skip_blanks s) <= len s.
Proof. induction s as [|b s IH]; [done|]. cbn [skip_blanks]. case_match; rewrite !len_cons in *; lia. Qed.

Lemma word_end_bound s : 0 <= word_end s <= len s.
Proof. induction s as [|b s IH]; [done|]. cbn [word_end]. rewrite len_cons. case_match; lia. Qed.

Lemma word_end_clean s : Forall (fun b => is_delimiter b = false) (upto (word_end s) s).
Proof.
  induction s as [|b s IH]; [constructor|]. cbn [word_end]. destruct (is_delimiter b) eqn:E; [constructor|]. pose proof (word_end_bound s).
  unfold upto in *. rewrite Z.add_1_r, Z2Nat.inj_succ by lia. cbn. by constructor.
Qed.

(** What [lex] can return on a string. *)
Inductive token_ok (s : bytes) : Z * bytes * bytes -> Prop :=
  | tok_eof : token_ok s (eofTokenType, [], [])
  | tok_err : token_ok s (errTokenType, [], [])
  | tok_not r : len r < len s -> token_ok s (notTokenType, [], r)
  | tok_str t r : Forall (fun b => is_delimiter b = false) t -> len r < len s -> token_ok s (strTokenType, t, r)
  | tok_angle t r : chr ">" ∉ t -> len r < len s -> token_ok s (angleTokenType, t, r)
  | tok_square t r : chr "]" ∉ t -> len r < len s -> token_ok s (squareTokenType, t, r)
  | tok_byte b r : is_delimiter b = true -> len r < len s -> token_ok s (b, [], r).

Lemma bracket_token s b rest j c : s = b :: rest -> c <> b -> j = IndexByte s c -> 0 <= j ->
  (c ∉ from 1 (upto j s)) /\ len (from (j + 1) s) < len s.
Proof.
  intros -> Hne -> Hj. destruct (IndexByte_bound (b :: rest) c) as [|Hb]; [lia|]. split.
  - intros H. apply (IndexByte_upto (b :: rest) c). exact (subseteq_drop 1 _ _ H).
  - rewrite len_from by lia. lia.
Qed.

Lemma lex_ok s : token_ok s (lex s).
Proof.
  unfold lex. pose proof (skip_blanks_len s) as Hl. destruct (skip_blanks s) as [|b rest] eqn:Es; [constructor|].
  pose proof (word_end_bound (b :: rest)) as Hw. destruct (Z.eqb_spec (word_end (b :: rest)) 0) as [E|E]; cbn [negb].
  - destruct (is_delimiter b) eqn:Hd; [|cbn [word_end] in E; rewrite Hd in E; pose proof (word_end_bound rest); lia].
    assert (Hrest : len rest < len s) by (rewrite len_cons in Hl; lia).
    destruct (Z.eqb_spec b (chr "<")) as [->|H1]; [|destruct (Z.eqb_spec b (chr "[")) as [->|H2]]; cbn [orb].
    + destruct (Z.ltb_spec (IndexByte (chr "<" :: rest) (chr ">")) 0) as [|Hj]; [constructor|].
      edestruct (bracket_token (chr "<" :: rest)) as [H2 H3]; [done| |reflexivity|exact Hj|]; [done|]. constructor; [done|lia].
    + destruct (Z.ltb_spec (IndexByte (chr "[" :: rest) (chr "]")) 0) as [|Hj]; [constructor|].
      edestruct (bracket_token (chr "[" :: rest)) as [H3 H4]; [done| |reflexivity|exact Hj|]; [done|]. constructor; [done|lia].
    + by constructor.
  - assert (Hf : len (from (word_end (b :: rest)) (b :: rest)) < len s) by (rewrite len_from by lia; lia).
    case_match; [by constructor|]. constructor; [apply word_end_clean|done].
Qed.

Lemma delimiter_pos b : is_delimiter b = true -> 0 < b.
Proof. unfold is_delimiter. rewrite existsb_exists. intros (c & Hc & ->%Z.eqb_eq). cbn in Hc. repeat destruct Hc as [<-|Hc]; done. Qed.

Lemma lex_props s ty t r : lex s = (ty, t, r) ->
  (ty = strTokenType \/ ty = angleTokenType -> chr ">" ∉ t) /\ (ty = squareTokenType -> chr "]" ∉ t) /\
  len r <= len s /\ (ty <> eofTokenType -> ty <> errTokenType -> len r < len s).
Proof.
  intros E. pose proof (lex_ok s) as H. rewrite E in H. pose proof (len_nonneg s) as Hs.
  inversion H as [| |r' Hr|t' r' Ht Hr|t' r' Ht Hr|t' r' Ht Hr|b r' Hb Hr]; subst; unfold eofTokenType, errTokenType, strTokenType, angleTokenType, squareTokenType, notTokenType in *;
    (split; [intros Hty|split; [intros Hty|split; [|intros Hty Hty']]]); rewrite ?len_nil in *; try lia; try done; try by destruct Hty.
  - intros Hin. rewrite Forall_forall in Ht. by specialize (Ht _ Hin).
  - apply delimiter_pos in Hb. lia.
  - apply delimiter_pos in Hb. lia.
Qed.

(** * What the parser accepts *)

Definition cond_ok (c : Condition) : Prop := (chr ">" ∉ Token c) /\ (chr "]" ∉ ETag c) /\ (Token c = [] \/ ETag c = []).
Definition list_ok (l : ifList) : Prop := conditions l <> [] /\ Forall cond_ok (conditions l) /\ (chr ">" ∉ resourceTag l).
Definition if_ok (h : ifHeader) : Prop := lists h <> [] /\ Forall list_ok (lists h).

(** A parser without panics, whose results satisfy [P]. *)
Definition parses {A} (P : A -> Prop) (r : parse A) : Prop := match r with Ok a => P a | Fail _ => True | Panic => False end.

Lemma parses_bind {A B} (P : A -> Prop) (Q : B -> Prop) (r : parse A) (f : A -> parse B) :
  parses P r -> (forall a, P a -> parses Q (f a)) -> parses Q (r ≫= f).
Proof. destruct r; cbn; auto. Qed.

Lemma parseCondition_ok s : parses (fun '(c, r) => cond_ok c /\ len r < len s) (parseCondition s).
Proof.
  unfold parseCondition. destruct (lex s) as [[ty t] r] eqn:E. destruct (lex_props _ _ _ _ E) as (H1 & H2 & H3 & H4).
  assert (Hdone : forall not s' ty' t' r', lex s' = (ty', t', r') -> len s' <= len s ->
    parses (fun '(c, r) => cond_ok c /\ len r < len s)
      (if (ty' =? strTokenType) || (ty' =? angleTokenType) then Ok (mkCondition not t' [], r')
       else if ty' =? squareTokenType then Ok (mkCondition not [] t', r') else Fail tt)).
  { intros not s' ty' t' r' E' Hs'. destruct (lex_props _ _ _ _ E') as (K1 & K2 & K3 & K4).
    unfold strTokenType, angleTokenType, squareTokenType, eofTokenType, errTokenType in *.
    assert (Hstr : ty' = -3 \/ ty' = -5 -> cond_ok (mkCondition not t' []) /\ len r' < len s).
    { intros Hty. split; [|apply Z.lt_le_trans with (len s'); [apply K4|]; lia]. split_and!; [by apply K1|apply not_elem_of_nil|by right]. }
    destruct (Z.eqb_spec ty' (-3)) as [->|]; [by apply Hstr; left|]. destruct (Z.eqb_spec ty' (-5)) as [->|]; [by apply Hstr; right|].
    destruct (Z.eqb_spec ty' (-6)) as [->|]; [|done]. cbn. split; [|lia]. unfold cond_ok. cbn. split_and!; [apply not_elem_of_nil|by apply K2|by left]. }
  destruct (ty =? notTokenType); [|by apply Hdone with s]. destruct (lex r) as [[ty' t'] r'] eqn:E'. by apply Hdone with r.
Qed.

Definition rest_shorter (s : bytes) : ifList * bytes -> Prop := fun '(l, r) => list_ok l /\ resourceTag l = [] /\ len r < len s.

Lemma list_loop_ok fuel : forall conds s, (length s < fuel)%nat -> Forall cond_ok conds ->
  parses (fun '(l, r) => list_ok l /\ resourceTag l = [] /\ len r < len s) (list_loop fuel conds s).
Proof.
  induction fuel as [|fuel IH]; intros conds s Hf Hc; [lia|]. cbn [list_loop]. destruct (lex s) as [[ty t] r] eqn:E.
  destruct (lex_props _ _ _ _ E) as (_ & _ & _ & H4). destruct (Z.eqb_spec ty (chr ")")) as [->|Hne].
  - destruct (Z.eqb_spec (len conds) 0) as [|Hn]; [done|]. cbn. unfold list_ok. cbn. split_and!; [by intros ->|done|apply not_elem_of_nil|done|by apply H4].
  - eapply parses_bind; [apply parseCondition_ok|]. intros [c r'] [Hc' Hr]. cbn beta iota. unfold len in Hr.
    pose proof (IH (conds ++ [c]) r' ltac:(lia) ltac:(apply Forall_app; split; [done|by apply Forall_singleton])) as H.
    destruct (list_loop fuel (conds ++ [c]) r') as [[l r2]| |]; [|done|done]. destruct H as (Hl & Ht & Hr2). cbn. split_and!; [done|done|unfold len in *; lia].
Qed.

Lemma parseList_ok s : parses (rest_shorter s) (parseList s).
Proof.
  unfold parseList. destruct (lex s) as [[ty t] r] eqn:E. destruct (lex_props _ _ _ _ E) as (_ & _ & _ & H4).
  destruct (Z.eqb_spec ty (chr "(")) as [->|]; [|done]. cbn [negb]. specialize (H4 ltac:(done) ltac:(done)).
  pose proof (list_loop_ok (S (length r)) [] r ltac:(lia) ltac:(constructor)) as H. destruct (list_loop (S (length r)) [] r) as [[l r2]| |]; [|done|done].
  destruct H as (? & ? & ?). cbn. split_and!; [done|done|lia].
Qed.

Lemma noTag_loop_ok fuel : forall ls s, (length s < fuel)%nat -> Forall list_ok ls -> parses if_ok (noTag_loop fuel ls s).
Proof.
  induction fuel as [|fuel IH]; intros ls s Hf Hl; [lia|]. cbn [noTag_loop]. eapply parses_bind; [apply parseList_ok|].
  intros [l r] (Hl' & _ & Hr). cbn beta iota zeta. assert (Hls : Forall list_ok (ls ++ [l])) by (apply Forall_app; split; [done|by apply Forall_singleton]).
  case_match; [|apply IH; [unfold len in Hr; lia|done]]. cbn. split; [by destruct ls|done].
Qed.

Lemma tagged_loop_ok fuel : forall first tag n ls s, (length s < fuel)%nat -> (chr ">" ∉ tag) -> Forall list_ok ls ->
  parses if_ok (tagged_loop fuel first tag n ls s).
Proof.
  induction fuel as [|fuel IH]; intros first tag n ls s Hf Ht Hl; [lia|]. cbn [tagged_loop]. destruct (lex s) as [[ty t] r] eqn:E.
  destruct (lex_props _ _ _ _ E) as (H1 & _ & _ & H4). destruct (Z.eqb_spec ty angleTokenType) as [->|].
  - specialize (H4 ltac:(done) ltac:(done)). case_match; [done|]. apply IH; [unfold len in H4; lia|by apply H1; right|done].
  - case_match; [|done]. eapply parses_bind; [apply parseList_ok|]. intros [l r2] (Hl' & _ & Hr). cbn beta iota zeta.
    assert (Hls : Forall list_ok (ls ++ [mkIfList tag (conditions l)])).
    { apply Forall_app. split; [done|]. apply Forall_singleton. destruct Hl' as (? & ? & _). by split_and!. }
    case_match; [|apply IH; [unfold len in Hr; lia|done|done]]. cbn. split; [by destruct ls|done].
Qed.

Lemma parseIfHeader_parses s : parses if_ok (parseIfHeader s).
Proof.
  unfold parseIfHeader. destruct (lex (TrimSpace s)) as [[ty t] r]. case_match; [by apply noTag_loop_ok; [lia|constructor]|].
  case_match; [|done]. apply tagged_loop_ok; [lia|apply not_elem_of_nil|constructor].
Qed.

(** * Printing *)

Definition print_cond (c : Condition) : bytes :=
  (if Not c then str "Not" else []) ++
  (if decide (ETag c = []) then chr "<" :: Token c ++ [chr ">"] else chr "[" :: ETag c ++ [chr "]"]).
Definition print_list (l : ifList) : bytes := chr "(" :: (conditions l ≫= print_cond) ++ [chr ")"].

(** Without a tag at all, or with a tag before each list. *)
Definition print_tagged (l : ifList) : bytes := chr "<" :: resourceTag l ++ chr ">" :: print_list l.
Definition print_if (h : ifHeader) : bytes :=
  if decide (Forall (fun l => resourceTag l = []) (lists h)) then lists h ≫= print_list else lists h ≫= print_tagged.

Lemma lex_enclosed a c ty t r : (a = chr "<" /\ c = chr ">" /\ ty = angleTokenType) \/ (a = chr "[" /\ c = chr "]" /\ ty = squareTokenType) ->
  c ∉ t -> lex (a :: t ++ c :: r) = (ty, t, r).
Proof.
  intros Hac Ht. assert (Hca : c ∉ a :: t) by (apply not_elem_of_cons; split; [destruct Hac as [(-> & -> & _)|(-> & -> & _)]; done|done]).
  pose proof (IndexByte_app (a :: t) c r Hca) as HI. rewrite len_cons in HI. pose proof (len_nonneg t).
  assert (Hfrom : from 1 (upto (len t + 1) (a :: t ++ c :: r)) = t).
  { unfold upto, from, len. rewrite Z.add_1_r, Z2Nat.inj_succ, Nat2Z.id by lia. cbn. by rewrite take_app_length. }
  assert (Hrest : from (len t + 1 + 1) (a :: t ++ c :: r) = r).
  { change (a :: t ++ c :: r) with (a :: t ++ [c] ++ r). rewrite app_assoc. change (a :: (t ++ [c]) ++ r) with ((a :: t ++ [c]) ++ r). apply from_app_len.
    rewrite len_cons, len_app. done. }
  assert (Hlex : forall s, lex (a :: s) = let j := IndexByte (a :: s) c in if j <? 0 then (errTokenType, [], []) else (ty, from 1 (upto j (a :: s)), from (j + 1) (a :: s))).
  { intros s. by destruct Hac as [(-> & -> & ->)|(-> & -> & ->)]. }
  cbn [app] in HI. rewrite Hlex, HI. cbv zeta. destruct (Z.ltb_spec (len t + 1) 0); [lia|]. by rewrite Hfrom, Hrest.
Qed.

Lemma parseCondition_print c r : cond_ok c -> parseCondition (print_cond c ++ r) = Ok (c, r).
Proof.
  intros (Ht & He & Hor). assert (Hbody : exists ty t, lex ((if decide (ETag c = []) then chr "<" :: Token c ++ [chr ">"] else chr "[" :: ETag c ++ [chr "]"]) ++ r) = (ty, t, r) /\
    forall n, (if (ty =? strTokenType) || (ty =? angleTokenType) then Ok (mkCondition n t [], r)
       else if ty =? squareTokenType then Ok (mkCondition n [] t, r) else Fail tt) = Ok (E := unit) (mkCondition n (Token c) (ETag c), r)
       /\ (ty =? notTokenType) = false).
  { destruct (decide (ETag c = [])) as [E|E].
    - exists angleTokenType, (Token c). split; [|intros n; by rewrite E]. cbn. rewrite <- app_assoc. apply lex_enclosed; [by left|done].
    - exists squareTokenType, (ETag c). destruct Hor as [->|?]; [|done]. split; [|done]. cbn. rewrite <- app_assoc. apply lex_enclosed; [by right|done]. }
  destruct Hbody as (ty & t & Hl & Hn). unfold print_cond, parseCondition. destruct c as [n tok et]. cbn [Not Token ETag] in *. destruct n.
  - rewrite <- app_assoc. assert (Hnot : forall b s, is_delimiter b = true -> lex (str "Not" ++ b :: s) = (notTokenType, [], b :: s)).
    { intros b s Hb. unfold lex. change (skip_blanks (str "Not" ++ b :: s)) with (78 :: 111 :: 116 :: b :: s).
      assert (Hw : word_end (78 :: 111 :: 116 :: b :: s) = 3) by (change (word_end (78 :: 111 :: 116 :: b :: s)) with (word_end (b :: s) + 1 + 1 + 1); cbn [word_end]; by rewrite Hb).
      by rewrite Hw. }
    destruct (decide (et = [])); cbn [app] in *; (rewrite Hnot by done; rewrite Z.eqb_refl, Hl; by apply Hn).
  - cbn [app]. rewrite Hl. destruct (Hn false) as [Hr ->]. exact Hr.
Qed.

Lemma print_cond_head c : exists b k, print_cond c = b :: k /\ forall s, (lex (print_cond c ++ s)).1.1 <> chr ")".
Proof.
  assert (H : exists b k, print_cond c = b :: k) by (unfold print_cond; destruct (Not c), (decide (ETag c = [])); cbn; eauto).
  destruct H as (b & k & E). exists b, k. split; [done|]. intros s. unfold print_cond in *. destruct (lex _) as [[ty t] r] eqn:El. cbn. intros ->.
  pose proof (lex_ok (((if Not c then str "Not" else []) ++ (if decide (ETag c = []) then chr "<" :: Token c ++ [chr ">"] else chr "[" :: ETag c ++ [chr "]"])) ++ s)) as Hok.
  rewrite El in Hok. unfold lex in El. destruct (Not c); destruct (decide (ETag c = [])); cbn -[word_end is_delimiter IndexByte] in El; repeat case_match; simplify_eq.
Qed.

Lemma list_loop_print fuel : forall cs acc r, (length cs < fuel)%nat -> acc ++ cs <> [] -> Forall cond_ok cs ->
  list_loop fuel acc ((cs ≫= print_cond) ++ chr ")" :: r) = Ok (mkIfList [] (acc ++ cs), r).
Proof.
  induction fuel as [|fuel IH]; intros cs acc r Hf Hne Hcs; [lia|]. cbn [list_loop]. destruct cs as [|c cs].
  - rewrite app_nil_r in *. change (lex (([] ≫= print_cond) ++ chr ")" :: r)) with (chr ")", @nil Z, r). cbv beta iota. rewrite Z.eqb_refl.
    destruct acc; [done|]. by destruct (Z.eqb_spec (len (c :: acc)) 0) as [E|].
  - apply Forall_cons in Hcs as [Hc Hcs]. rewrite bind_cons, <- app_assoc. set (s := (cs ≫= print_cond) ++ chr ")" :: r).
    destruct (print_cond_head c) as (b & k & _ & Hty). specialize (Hty s). destruct (lex (print_cond c ++ s)) as [[ty t] r'] eqn:El. cbn in Hty.
    destruct (Z.eqb_spec ty (chr ")")); [done|]. rewrite (parseCondition_print c s Hc). cbn [mbind outcome_bind]. unfold s.
    rewrite IH; [by rewrite <- app_assoc|cbn in Hf; lia|by destruct acc|done].
Qed.

Lemma print_conds_len cs : (length cs <= length (cs ≫= print_cond))%nat.
Proof.
  induction cs as [|c cs IH]; [done|]. rewrite bind_cons, length_app. destruct (print_cond_head c) as (b & k & -> & _). cbn. lia.
Qed.

Lemma parseList_print l r : list_ok l -> parseList (print_list l ++ r) = Ok (mkIfList [] (conditions l), r).
Proof.
  intros (Hne & Hc & _). unfold print_list, parseList. cbn [app]. rewrite <- app_assoc. cbn [app].
  change (lex (chr "(" :: ?s)) with (chr "(", @nil Z, s). cbv beta iota. rewrite Z.eqb_refl. cbn [negb].
  rewrite list_loop_print; [done| |done|done]. rewrite length_app. pose proof (print_conds_len (conditions l)). lia.
Qed.

Lemma noTag_loop_print fuel : forall l ls acc, (length ls < fuel)%nat -> Forall (fun l => resourceTag l = []) (l :: ls) -> Forall list_ok (l :: ls) ->
  noTag_loop fuel acc ((l :: ls) ≫= print_list) = Ok (mkIfHeader (acc ++ l :: ls)).
Proof.
  induction fuel as [|fuel IH]; intros l ls acc Hf [Ht Hts]%Forall_cons [Hl Hls]%Forall_cons; [lia|]. cbn [noTag_loop]. rewrite bind_cons.
  rewrite (parseList_print l _ Hl). cbn [mbind outcome_bind]. cbn beta iota zeta. assert (El : mkIfList [] (conditions l) = l) by (destruct l; cbn in *; by rewrite Ht).
  rewrite El. destruct ls as [|l2 ls]; [done|]. rewrite bool_decide_false by done. cbn in Hf. rewrite IH by (done || lia). by rewrite <- app_assoc.
Qed.

Lemma tagged_loop_print ls : forall l fuel first tag n acc, (2 * length (l :: ls) <= fuel)%nat -> first = true \/ 0 < n -> Forall list_ok (l :: ls) ->
  tagged_loop fuel first tag n acc ((l :: ls) ≫= print_tagged) = Ok (mkIfHeader (acc ++ l :: ls)).
Proof.
  induction ls as [|l2 ls IH]; intros l fuel first tag n acc Hf Hn [Hl Hls]%Forall_cons; destruct fuel as [|[|fuel]]; cbn in Hf; try lia;
    cbn [tagged_loop]; rewrite bind_cons; unfold print_tagged at 1; cbn [app]; rewrite <- app_assoc; cbn [app];
    rewrite (lex_enclosed _ _ angleTokenType) by first [by left|apply Hl]; cbv beta iota; rewrite Z.eqb_refl;
    (assert (Hfn : negb first && (n =? 0) = false) by (destruct Hn as [->|Hn]; [done|]; destruct (Z.eqb_spec n 0); [lia|by rewrite andb_false_r])); rewrite Hfn;
    (assert (El : mkIfList (resourceTag l) (conditions l) = l) by by destruct l).
  - change (lex (print_list l ++ ([] ≫= print_tagged))) with (chr "(", @nil Z, ((conditions l ≫= print_cond) ++ [chr ")"]) ++ []).
    cbv beta iota. change (chr "(" =? angleTokenType) with false. cbv iota. rewrite Z.eqb_refl, (parseList_print l _ Hl). cbn [mbind outcome_bind]. cbn beta iota zeta. cbn [conditions].
    by rewrite El.
  - set (s := (l2 :: ls) ≫= print_tagged). change (lex (print_list l ++ s)) with (chr "(", @nil Z, ((conditions l ≫= print_cond) ++ [chr ")"]) ++ s).
    cbv beta iota. change (chr "(" =? angleTokenType) with false. cbv iota. rewrite Z.eqb_refl, (parseList_print l _ Hl). cbn [mbind outcome_bind]. cbn beta iota zeta. cbn [conditions].
    rewrite El, bool_decide_false by done. unfold s. rewrite IH; [by rewrite <- app_assoc|cbn; lia|by right|done].
Qed.

(** * Ends *)

Lemma print_if_ends h : lists h <> [] -> exists a k, print_if h = a :: k ++ [chr ")"] /\ a = if decide (Forall (fun l => resourceTag l = []) (lists h)) then chr "(" else chr "<".
Proof.
  assert (Hends : forall (f : ifList -> bytes) a ls, (forall l, exists k, f l = a :: k ++ [chr ")"]) -> ls <> [] -> exists k, ls ≫= f = a :: k ++ [chr ")"]).
  { intros f a ls Hf. induction ls as [|l ls IH]; [done|]. intros _. rewrite bind_cons. destruct (Hf l) as [k ->]. destruct ls as [|l2 ls].
    - exists k. by rewrite app_nil_r.
    - destruct IH as [k' ->]; [done|]. exists ((k ++ [chr ")"]) ++ a :: k'). cbn [app]. by rewrite <- !app_assoc. }
  intros Hne. unfold print_if. case_decide.
  - destruct (Hends print_list (chr "(") (lists h)) as [k ->]; [|done|eauto]. intros l. unfold print_list. eauto.
  - destruct (Hends print_tagged (chr "<") (lists h)) as [k ->]; [|done|eauto]. intros l.
    exists (resourceTag l ++ chr ">" :: chr "(" :: (conditions l ≫= print_cond)). unfold print_tagged, print_list. by rewrite <- app_assoc.
Qed.

Lemma TrimSpace_print h : lists h <> [] -> TrimSpace (print_if h) = print_if h.
Proof.
  intros Hne. destruct (print_if_ends h Hne) as (a & k & -> & Ha). apply TrimSpace_id; intros s; [|reflexivity].
  by case_decide; subst.
Qed.

Lemma bind_len {A} (f : A -> bytes) n ls : (forall l, (n <= length (f l))%nat) -> (n * length ls <= length (ls ≫= f))%nat.
Proof. intros H. induction ls as [|l ls IH]; [cbn; lia|]. rewrite bind_cons, length_app. specialize (H l). cbn [length]. lia. Qed.

Lemma print_if_parses h : if_ok h -> parseIfHeader (print_if h) = Ok h.
Proof.
  intros [Hne Hok]. unfold parseIfHeader. rewrite (TrimSpace_print _ Hne). destruct h as [ls]. cbn [lists] in *. destruct ls as [|l ls]; [done|].
  unfold print_if. cbn [lists]. case_decide as Htag.
  - assert (Hlex : exists r, lex ((l :: ls) ≫= print_list) = (chr "(", [], r)) by (rewrite bind_cons; eexists; reflexivity).
    destruct Hlex as [r ->]. rewrite Z.eqb_refl. unfold parseNoTagLists. rewrite noTag_loop_print; [done| |done|done].
    pose proof (bind_len print_list 1 (l :: ls) ltac:(intros; unfold print_list; cbn; lia)) as Hlen. cbn [length] in Hlen. lia.
  - assert (Hlex : exists t r, lex ((l :: ls) ≫= print_tagged) = (angleTokenType, t, r)).
    { rewrite bind_cons. unfold print_tagged at 1. cbn [app]. rewrite <- app_assoc. cbn [app]. apply Forall_cons in Hok as [(_ & _ & Ht) _].
      eexists _, _. apply lex_enclosed; [by left|done]. }
    destruct Hlex as (t & r & ->). change (angleTokenType =? chr "(") with false. rewrite Z.eqb_refl. unfold parseTaggedLists.
    rewrite tagged_loop_print; [done| |by left|done]. pose proof (bind_len print_tagged 2 (l :: ls)) as Hlen.
    apply Nat.le_le_succ_r, Hlen. intros k. unfold print_tagged, print_list. cbn. rewrite length_app. cbn. lia.
Qed.


(** * The [Timeout] header *)

Definition infiniteTimeout : Z := -1.
Definition Second : Z := 1000000000.

(** A duration in nanoseconds, [None] is [errInvalidTimeout]. *)
Definition parseTimeout (s : bytes) : option Z :=
  if decide (s = []) then Some infiniteTimeout
  else
    let i := IndexByte s (chr ",") in
    let s := TrimSpace (if 0 <=? i then upto i s else s) in
    if decide (s = str "Infinite") then Some infiniteTimeout
    else if negb (HasPrefix s (str "Second-")) then None
    else
      let s := from 7 s in
      match s with
      | [] => None
      | b :: _ =>
          if (b <? 48) || (57 <? b) then None
          else
            let '(n, err) := ParseInt s in
            if (err : bool) || (2 ^ 32 - 1 <? n) then None else Some (i64 (i64 n * Second))
      end.

Lemma digits_ok fuel : forall z acc, 0 <= z -> forallb is_digit acc = true -> forallb is_digit (digits fuel z acc) = true.
Proof.
  induction fuel as [|fuel IH]; intros z acc Hz Ha; [done|]. cbn [digits]. destruct (Z.ltb_spec z 10).
  - cbn. rewrite Ha, andb_true_r. unfold is_digit. rewrite andb_true_iff, !Z.leb_le. lia.
  - apply IH; [apply Z.div_pos; lia|]. cbn. rewrite Ha, andb_true_r. unfold is_digit. rewrite andb_true_iff, !Z.leb_le.
    pose proof (Z.mod_pos_bound z 10 ltac:(lia)). lia.
Qed.

(** Seconds in nanoseconds do not overflow. *)
Lemma seconds_fit n : 0 <= n < 2 ^ 32 -> i64 (i64 n * Second) = n * Second.
Proof. intros Hn. unfold Second. rewrite (i64_id n) by lia. apply i64_id. lia. Qed.

Lemma parseTimeout_range s d : parseTimeout s = Some d -> d = infiniteTimeout \/ exists n, 0 <= n < 2 ^ 32 /\ d = n * Second.
Proof.
  unfold parseTimeout. case_decide; [intros [= <-]; by left|]. cbv zeta. set (t := TrimSpace _). case_decide; [intros [= <-]; by left|].
  case_match; [done|]. destruct (from 7 t) as [|b k] eqn:Et; [done|]. destruct (Z.ltb_spec b 48) as [|Hb]; [done|]. destruct (Z.ltb_spec 57 b) as [|Hb2]; [done|]. cbn [orb].
  destruct (ParseInt (b :: k)) as [n []] eqn:Ep; [done|]. cbn [orb]. destruct (Z.ltb_spec (2 ^ 32 - 1) n); [done|]. intros [= <-]. right. exists n.
  assert (0 <= n). { apply (ParseInt_digit _ _ Ep). unfold is_digit. rewrite andb_true_iff, !Z.leb_le. lia. }
  split; [lia|]. apply seconds_fit. lia.
Qed.

Lemma parseTimeout_second n rest : 0 <= n < 2 ^ 32 -> rest = [] \/ hd 0 rest = chr "," ->
  parseTimeout (str "Second-" ++ FormatUint n ++ rest) = Some (n * Second).
Proof.
  intros Hn Hrest. pose proof (digits_ok 20 n [] ltac:(lia) eq_refl) as Hd. fold (FormatUint n) in Hd. pose proof (FormatUint_nonempty n) as Hne.
  set (ds := FormatUint n) in *. assert (Hcomma : chr "," ∉ str "Second-" ++ ds).
  { rewrite elem_of_app. intros [H|H]; [by apply (bool_decide_unpack _) in H || (cbn in H; repeat (apply elem_of_cons in H as [H|H]; [done|]); by apply elem_of_nil in H)|].
    rewrite forallb_forall in Hd. apply list_elem_of_In in H. by specialize (Hd _ H). }
  assert (Hcut : (let i := IndexByte (str "Second-" ++ ds ++ rest) (chr ",") in if 0 <=? i then upto i (str "Second-" ++ ds ++ rest) else str "Second-" ++ ds ++ rest) = str "Second-" ++ ds).
  { cbv zeta. destruct Hrest as [->|Hr].
    - rewrite app_nil_r, IndexByte_absent by done. done.
    - destruct rest as [|c rest]; [by rewrite app_nil_r, IndexByte_absent|]. cbn in Hr. subst c. rewrite app_assoc, IndexByte_app by done.
      pose proof (len_nonneg (str "Second-" ++ ds)). destruct (Z.leb_spec 0 (len (str "Second-" ++ ds))); [|lia]. by apply upto_app_len. }
  assert (Htrim : TrimSpace (str "Second-" ++ ds) = str "Second-" ++ ds).
  { destruct ds as [|b0 ds0] eqn:Eds; [done|]. destruct (exists_last (l := b0 :: ds0)) as (k & b & E); [done|]. rewrite E in *.
    rewrite forallb_app in Hd. cbn in Hd. rewrite andb_true_r, andb_true_iff in Hd. destruct Hd as [_ Hb]. apply digit_cases in Hb.
    apply (TrimSpace_id 83 (str "econd-" ++ k) b); intros s; [reflexivity|]. change (b ∈ [48; 49; 50; 51; 52; 53; 54; 55; 56; 57]) in Hb. repeat (apply elem_of_cons in Hb as [Hb|Hb]; [rewrite Hb; reflexivity|]). all: try by apply elem_of_nil in Hb. }
  unfold parseTimeout. cbv zeta in Hcut |- *. rewrite decide_False by done. rewrite Hcut, Htrim. rewrite decide_False by done.
  unfold HasPrefix. rewrite bool_decide_true by by apply prefix_app_r. cbn [negb]. rewrite (from_app_len 7 (str "Second-") ds) by done.
  destruct ds as [|b k] eqn:Eds; [done|]. pose proof Hd as Hb. cbn in Hb. apply andb_true_iff in Hb as [Hb _]. unfold is_digit in Hb. rewrite andb_true_iff, !Z.leb_le in Hb.
  destruct (Z.ltb_spec b 48); [lia|]. destruct (Z.ltb_spec 57 b); [lia|]. cbn [orb].
  assert (Hu : undigits (b :: k) = n) by (rewrite <- Eds; apply undigits_digits; split; [lia|]; apply Z.lt_le_trans with (2 ^ 32); [lia|done]).
  assert (Hp : ParseInt (b :: k) = (n, false)).
  { unfold ParseInt. change (chr "+") with 43. change (chr "-") with 45. destruct (Z.eqb_spec b 43); [lia|]. destruct (Z.eqb_spec b 45); [lia|].
    rewrite Hd, Hu. cbn [negb]. rewrite bool_decide_false by done. cbn [orb]. destruct (Z.ltb_spec n (2 ^ 63)); [done|lia]. }
  rewrite Hp. cbn [orb]. destruct (Z.ltb_spec (2 ^ 32 - 1) n); [lia|]. by rewrite seconds_fit.
Qed.

(** A [Timeout] header gives an infinite timeout, an error or a whole number
    of seconds below 2^32, as nanoseconds without overflow, and every such number
    is read from its decimal digits, whatever alternatives follow. *)
Theorem parseTimeout_seconds (s : bytes) :
  match parseTimeout s with Some d => d = infiniteTimeout \/ exists n, 0 <= n < 2 ^ 32 /\ d = n * Second | None => True end /\
  forall n rest, 0 <= n < 2 ^ 32 -> parseTimeout (str "Second-" ++ FormatUint n) = Some (n * Second) /\
    parseTimeout (str "Second-" ++ FormatUint n ++ str "," ++ rest) = Some (n * Second).
Proof.
  split; [destruct (parseTimeout s) eqn:E; [by eapply parseTimeout_range|done]|]. intros n rest Hn. split.
  - rewrite <- (app_nil_r (FormatUint n)). apply parseTimeout_second; [done|by left].
  - apply parseTimeout_second; [done|by right].
Qed.
