(* ===== verification/IdnaPunycode.v ===== *)
(** The Punycode algorithm of RFC 3492: [idna/punycode.go]. *)
From S2P Require Import Prelude Utf8 GoStrings.

(** * Parameters *)

Definition base : Z := 36.
Definition damp : Z := 700.
Definition initialBias : Z := 72.
Definition initialN : Z := 128.
Definition skew : Z := 38.
Definition tmax : Z := 26.
Definition tmin : Z := 1.
Definition MaxInt32 : Z := 2 ^ 31 - 1.

Inductive labelError := LabelError (label code : bytes).
Definition punyError (s : bytes) : labelError := LabelError s (str "A3").

(** A call that returns an error or panics. *)
Abbreviation puny A := (outcome labelError A).

Definition decodeDigit (x : Z) : option Z :=
  if (chr "0" <=? x) && (x <=? chr "9") then Some (i32 (u8 (x - (chr "0" - 26))))
  else if (chr "A" <=? x) && (x <=? chr "Z") then Some (i32 (u8 (x - chr "A")))
  else if (chr "a" <=? x) && (x <=? chr "z") then Some (i32 (u8 (x - chr "a")))
  else None.

Definition encodeDigit (digit : Z) : puny Z :=
  if (0 <=? digit) && (digit <? 26) then Ok (u8 (digit + chr "a"))
  else if (26 <=? digit) && (digit <? 36) then Ok (u8 (digit + (chr "0" - 26)))
  else Panic.

(** The loop of [adapt] divides by 35; it takes at most five rounds. *)
Fixpoint adapt_loop (fuel : nat) (delta k : Z) : Z * Z :=
  if (base - tmin) * tmax ÷ 2 <? delta then
    match fuel with
    | O => (delta, k)
    | S fuel => adapt_loop fuel (delta ÷ (base - tmin)) (i32 (k + base))
    end
  else (delta, k).

Definition adapt (delta numPoints : Z) (firstTime : bool) : Z :=
  let delta := if firstTime then delta ÷ damp else delta ÷ 2 in
  let delta := i32 (delta + delta ÷ numPoints) in
  let '(delta, k) := adapt_loop 6 delta 0 in
  i32 (k + i32 ((base - tmin + 1) * delta) ÷ i32 (delta + skew)).

(** The threshold of a digit. *)
Definition threshold (k bias : Z) : Z :=
  let t := i32 (k - bias) in
  if t <? tmin then tmin else if tmax <? t then tmax else t.

(** * Decoding *)

(** The digits of one number, from the value [i] and the weight [w] on: the new
    value and the bytes that are left; [None] for an error. *)
Fixpoint decode_number (s : bytes) (i w k bias : Z) : option (Z * bytes) :=
  match s with
  | [] => None
  | x :: s =>
      match decodeDigit x with
      | None => None
      | Some digit =>
          let i := i32 (i + i32 (digit * w)) in
          if i <? 0 then None
          else
            let t := threshold k bias in
            if digit <? t then Some (i, s)
            else
              let w := i32 (w * (base - t)) in
              if MaxInt32 ÷ base <=? w then None else decode_number s i w (i32 (k + base)) bias
      end
  end.

Definition insert_rune (i n : Z) (output : list Z) : list Z := upto i output ++ [n] ++ from i output.

(** The outer loop; each round takes a byte at least. *)
Fixpoint decode_loop (fuel : nat) (encoded s : bytes) (i n bias : Z) (output : list Z) : puny (list Z) :=
  match s with
  | [] => Ok output
  | _ =>
      match fuel with
      | O => Panic
      | S fuel =>
          match decode_number s i 1 base bias with
          | None => Fail (punyError encoded)
          | Some (i', s) =>
              let x := i32 (len output + 1) in
              let bias := adapt (i32 (i' - i)) x (i =? 0) in
              let n := i32 (n + i' ÷ x) in
              let i := Z.rem i' x in
              if (MaxRune <? n) || (1024 <=? len output) then Fail (punyError encoded)
              else decode_loop fuel encoded s (i32 (i + 1)) n bias (insert_rune i n output)
          end
      end
  end.

Definition decode (encoded : bytes) : puny bytes :=
  if decide (encoded = []) then Ok []
  else
    let pos := 1 + last_index encoded (chr "-") in
    if pos =? 1 then Fail (punyError encoded)
    else if pos =? len encoded then Ok (upto (len encoded - 1) encoded)
    else
      let output := if negb (pos =? 0) then runes (upto (pos - 1) encoded) else [] in
      let rest := from pos encoded in
      output ← decode_loop (length rest) encoded rest 0 initialN initialBias output;
      Ok (string_of_runes output).

(** * Encoding *)

(** The digits of [q]; thirty-two bits need eleven at most. *)
Fixpoint encode_number (fuel : nat) (q k bias : Z) : puny bytes :=
  let t := threshold k bias in
  if q <? t then d ← encodeDigit q; Ok [d]
  else
    match fuel with
    | O => Panic
    | S fuel =>
        d ← encodeDigit (i32 (t + Z.rem (i32 (q - t)) (base - t)));
        ds ← encode_number fuel (i32 (q - t) ÷ (base - t)) (i32 (k + base)) bias;
        Ok (d :: ds)
    end.
Definition number_fuel : nat := 11.

(** The variables of [encode]. *)
Record state := mkState { delta : Z; bias : Z; h : Z; remaining : Z; output : bytes }.

(** The loop over the runes that encodes every [n]; [b] counts the basic code
    points. *)
Fixpoint encode_pass (s : bytes) (b n : Z) (rs : list Z) (st : state) : puny state :=
  match rs with
  | [] => Ok st
  | r :: rs =>
      if r <? n then
        let d := i32 (delta st + 1) in
        if d <? 0 then Fail (punyError s) else encode_pass s b n rs (mkState d (bias st) (h st) (remaining st) (output st))
      else if n <? r then encode_pass s b n rs st
      else
        ds ← encode_number number_fuel (delta st) base (bias st);
        encode_pass s b n rs
          (mkState 0 (adapt (delta st) (i32 (h st + 1)) (h st =? b)) (i32 (h st + 1)) (i32 (remaining st - 1)) (output st ++ ds))
  end.

(** The least rune that is not less than [n]. *)
Definition least (n : Z) (rs : list Z) : Z := foldl (fun m r => if (r <? m) && (n <=? r) then r else m) 0x7fffffff rs.

(** The outer loop; each round encodes a rune at least. *)
Fixpoint encode_loop (fuel : nat) (s : bytes) (b n : Z) (rs : list Z) (st : state) : puny bytes :=
  if remaining st =? 0 then Ok (output st)
  else
    match fuel with
    | O => Panic
    | S fuel =>
        let m := least n rs in
        let d := i32 (delta st + i32 (i32 (m - n) * i32 (h st + 1))) in
        if d <? 0 then Fail (punyError s)
        else
          st ← encode_pass s b m rs (mkState d (bias st) (h st) (remaining st) (output st));
          encode_loop fuel s b (i32 (m + 1)) rs (mkState (i32 (delta st + 1)) (bias st) (h st) (remaining st) (output st))
    end.

Definition encode (prefix s : bytes) : puny bytes :=
  let rs := runes s in
  let basic := filter (fun r => r < RuneSelf) rs in
  let b := i32 (len basic) in
  let remaining := i32 (len (filter (fun r => ~ r < RuneSelf) rs)) in
  let out := prefix ++ (u8 <$> basic) in
  let out := if 0 <? b then out ++ [chr "-"] else out in
  encode_loop (length rs) s b initialN rs (mkState 0 initialBias b remaining out).
