(* ===== verification/IdnaPunycodeRT.v ===== *)
(** Punycode is read back, never panics, and where it goes wrong: [decode] and
    [encode] of [idna/punycode.go]. *)

From S2P Require Import Prelude Utf8 GoStrings IdnaPunycode Http2Flow.

(** * Numbers *)

Lemma threshold_bound k bias : 1 <= threshold k bias <= 26.
Proof. unfold threshold, tmin, tmax. z_cases; lia. Qed.

Definition digit_char (d : Z) : Z := if d <? 26 then d + 97 else d + 22.

Lemma digit_table : Forall (fun d => encodeDigit d = Ok (digit_char d) /\ decodeDigit (digit_char d) = Some d /\ digit_char d <> chr "-") (seqZ 0 36).
Proof. repeat constructor; discriminate. Qed.

Lemma digit_ok d : 0 <= d < 36 -> encodeDigit d = Ok (digit_char d) /\ decodeDigit (digit_char d) = Some d /\ digit_char d <> chr "-".
Proof. intros H. apply (proj1 (Forall_forall _ _) digit_table). apply elem_of_seqZ. lia. Qed.

(** Weights the decoder accepts for numbers up to [D]. *)
Fixpoint weights_ok (fuel : nat) (D w k bias : Z) : bool :=
  let t := threshold k bias in
  if D <? t * w then true
  else
    let w := w * (base - t) in
    (w <? MaxInt32 ÷ base) && match fuel with O => false | S fuel => weights_ok fuel D w (i32 (k + base)) bias end.

(** One digit of the encoder: the rest of the number is shorter. *)
Lemma encode_digit fuel q k bias : threshold k bias <= q < 2 ^ 31 ->
  exists d a, encode_number (S fuel) q k bias = (ds ← encode_number fuel a (i32 (k + base)) bias; Ok (digit_char d :: ds)) /\
    threshold k bias <= d < base /\ 0 <= a /\ q = d + (base - threshold k bias) * a.
Proof.
  intros Hq. pose proof (threshold_bound k bias) as Ht. cbn [encode_number]. rewrite (proj2 (Z.ltb_ge _ _)) by lia. set (t := threshold k bias) in *.
  unfold base. rewrite (i32_id (q - t)) by (unfold window; lia). rewrite Z.quot_div_nonneg, Z.rem_mod_nonneg by lia.
  assert (0 <= (q - t) mod (36 - t) < 36 - t) by (apply Z.mod_pos_bound; lia).
  rewrite (i32_id (t + _)) by (unfold window; lia). destruct (digit_ok (t + (q - t) mod (36 - t)) ltac:(lia)) as (E & _). rewrite E. cbn [mbind outcome_bind].
  eexists _, _. split; [reflexivity|]. split; [lia|]. split; [apply Z.div_pos; lia|]. pose proof (Z_div_mod_eq_full (q - t) (36 - t)). lia.
Qed.

Lemma encode_last fuel q k bias : 0 <= q < threshold k bias -> encode_number fuel q k bias = Ok [digit_char q].
Proof.
  intros Hq. pose proof (threshold_bound k bias). destruct (digit_ok q ltac:(lia)) as (E & _).
  destruct fuel; cbn [encode_number]; rewrite (proj2 (Z.ltb_lt _ _)), E by lia; done.
Qed.

(** The decoder reads back the digits of [q] and goes on after them. *)
Lemma number_roundtrip D fuel wfuel q w k bias : 0 <= q < 10 ^ Z.of_nat fuel -> q < 2 ^ 31 -> 0 < w -> q * w <= D -> weights_ok wfuel D w k bias = true ->
  exists ds, encode_number fuel q k bias = Ok ds /\ ds <> [] /\ (chr "-" ∉ ds) /\
    forall i tl, 0 <= i -> i + q * w < 2 ^ 31 -> decode_number (ds ++ tl) i w k bias = Some (i + q * w, tl).
Proof.
  revert wfuel q w k. induction fuel as [|fuel IH]; intros wfuel q w k Hq Hq31 Hw HD Hok; pose proof (threshold_bound k bias) as Ht;
    (destruct (Z.lt_ge_cases q (threshold k bias)) as [Hlt|Hge]; [|try (change (10 ^ Z.of_nat 0) with 1 in Hq; lia)]).
  1,2: rewrite encode_last by lia; destruct (digit_ok q ltac:(lia)) as (_ & E2 & E3); eexists; split; [reflexivity|]; split; [done|]; split; [by rewrite list_elem_of_singleton|];
    intros i tl Hi Hb; cbn [app decode_number]; rewrite E2, (i32_id (q * w)), i32_id by (unfold window; nia);
    rewrite (proj2 (Z.ltb_ge _ _)), (proj2 (Z.ltb_lt _ _)) by nia; done.
  destruct (encode_digit fuel q k bias ltac:(lia)) as (d & a & E & Hd & Ha & Hqa). set (t := threshold k bias) in *. unfold base in *.
  destruct wfuel as [|wfuel]; cbn [weights_ok] in Hok; fold t in Hok; rewrite (proj2 (Z.ltb_ge _ _)) in Hok by nia; [by rewrite andb_false_r in Hok|].
  apply andb_true_iff in Hok as [Hlim Hok]. apply Z.ltb_lt in Hlim. unfold base in *. change (MaxInt32 ÷ 36) with 59652323 in *.
  assert (Ha10 : a < 10 ^ Z.of_nat fuel) by (rewrite Nat2Z.inj_succ, Z.pow_succ_r in Hq by lia; nia).
  destruct (IH wfuel a (w * (36 - t)) (i32 (k + 36)) ltac:(lia) ltac:(nia) ltac:(nia) ltac:(nia) Hok) as (ds & E' & Hne & Hdash & Hdec).
  destruct (digit_ok d ltac:(lia)) as (_ & E2 & E3). rewrite E, E'. eexists. split; [reflexivity|]. split; [done|]. split; [by rewrite not_elem_of_cons|].
  intros i tl Hi Hb. cbn [app decode_number]. unfold base. rewrite E2. fold t.
  assert (0 <= d * w) by nia. assert (d * w + a * (w * (36 - t)) = q * w) by nia. assert (0 <= a * (w * (36 - t))) by nia.
  rewrite (i32_id (d * w)), (i32_id (i + _)) by (unfold window; lia).
  rewrite (proj2 (Z.ltb_ge (i + d * w) 0)), (proj2 (Z.ltb_ge d t)) by lia. assert (0 < w * (36 - t)) by (apply Z.mul_pos_pos; lia). rewrite (i32_id (w * (36 - t))) by (unfold window; lia).
  change (MaxInt32 ÷ 36) with 59652323. rewrite (proj2 (Z.leb_gt _ _)) by lia. rewrite Hdec by lia. f_equal; f_equal; lia.
Qed.

(** * Bias *)

(** Deltas of at most a hundred and twenty-eight code points. *)
Definition delta_max : Z := (MaxRune - initialN) * 128 + 128.

Lemma weights_table : Forall (fun bias => weights_ok 12 delta_max 1 base bias = true) (seqZ 0 214).
Proof. apply Forall_forall, Forall_forall. apply (bool_decide_eq_true_1 _). vm_compute. reflexivity. Qed.

Lemma weights bias : 0 <= bias < 214 -> weights_ok 12 delta_max 1 base bias = true.
Proof. intros H. apply (proj1 (Forall_forall _ _) weights_table). apply elem_of_seqZ. lia. Qed.

Lemma adapt_loop_bound fuel j delta k : 0 <= delta < 35 ^ Z.of_nat j -> (j <= fuel + 1)%nat -> (j < 50)%nat -> 0 <= k -> k + 36 * Z.of_nat j < 2 ^ 30 ->
  exists delta' k', adapt_loop fuel delta k = (delta', k') /\ 0 <= delta' <= 455 /\ 0 <= k' /\ k' <= k + 36 * Z.of_nat (j - 1).
Proof.
  revert j delta k. induction fuel as [|fuel IH]; intros j delta k Hd Hj Hj50 Hk Hb; cbn [adapt_loop]; unfold base, tmin, tmax in *; change ((36 - 1) * 26 ÷ 2) with 455; destruct (Z.ltb_spec 455 delta) as [Hlt|Hge].
  - destruct j as [|[|j]]; cbn in Hd; lia.
  - eexists _, _. split; [reflexivity|]. lia.
  - change (36 - 1) with 35. rewrite Z.quot_div_nonneg by lia. rewrite i32_id by (unfold window; lia).
    destruct j as [|[|j]]; [cbn in Hd; lia|cbn in Hd; lia|]. rewrite Nat2Z.inj_succ, Z.pow_succ_r in Hd by lia.
    destruct (IH (S j) (delta / 35) (k + 36)) as (d' & k' & E & ? & ? & ?); [|lia..|].
    + split; [apply Z.div_pos; lia|]. apply Z.div_lt_upper_bound; lia.
    + exists d', k'. split; [done|]. lia.
  - eexists _, _. split; [reflexivity|]. lia.
Qed.

Lemma adapt_bound delta np first : 0 <= delta <= delta_max -> 1 <= np -> 0 <= adapt delta np first < 214.
Proof.
  intros Hd Hn. change delta_max with 142589952 in Hd. unfold adapt, damp, base, tmin, skew.
  set (d := if first then delta ÷ 700 else delta ÷ 2).
  assert (H0 : 0 <= d <= delta / 2).
  { unfold d. destruct first; rewrite Z.quot_div_nonneg by lia; [|split; [apply Z.div_pos|]; lia].
    split; [apply Z.div_pos; lia|]. apply Z.div_le_lower_bound; [lia|]. pose proof (Z.div_le_upper_bound delta 700 (delta / 2)). 
    pose proof (Z_div_mod_eq_full delta 700). pose proof (Z.mod_pos_bound delta 700 ltac:(lia)). pose proof (Z.div_pos delta 700). lia. }
  rewrite (Z.quot_div_nonneg d) by lia. assert (H1 : 0 <= d / np <= d).
  { split; [apply Z.div_pos; lia|]. apply Z.div_le_upper_bound; [lia|]. nia. }
  assert (H2 : 2 * (delta / 2) <= delta) by (apply Z.mul_div_le; lia).
  rewrite (i32_id (d + _)) by (unfold window; lia).
  destruct (adapt_loop_bound 6 6 (d + d / np) 0) as (d' & k' & E & Hd' & Hk1 & Hk2); [change (35 ^ Z.of_nat 6) with 1838265625; lia|lia|lia|lia|lia|].
  rewrite E. change (36 - 1 + 1) with 36. rewrite (i32_id (36 * d')), (i32_id (d' + 38)) by (unfold window; lia).
  rewrite Z.quot_div_nonneg by lia. assert (0 <= 36 * d' / (d' + 38) < 34).
  { split; [apply Z.div_pos; lia|]. apply Z.div_lt_upper_bound; lia. }
  rewrite i32_id by (unfold window; lia). cbn in Hk2. lia.
Qed.

(** * The decoder's rounds *)

Lemma decode_number_shorter s i w k bias i' s' : decode_number s i w k bias = Some (i', s') -> (length s' < length s)%nat.
Proof.
  revert i w k. induction s as [|x s IH]; intros i w k; cbn [decode_number]; [done|].
  destruct (decodeDigit x); [|done]. destruct (_ <? 0); [done|]. destruct (_ <? threshold _ _); [intros [= <- <-]; cbn; lia|].
  destruct (_ <=? _); [done|]. intros H%IH. cbn. lia.
Qed.

Lemma decode_loop_fuel fuel fuel' e s i n bias out : (length s <= fuel)%nat -> (length s <= fuel')%nat ->
  decode_loop fuel e s i n bias out = decode_loop fuel' e s i n bias out.
Proof.
  revert fuel' s i n bias out. induction fuel as [|fuel IH]; intros fuel' s i n bias out H H'; destruct s as [|x s]; [by destruct fuel'|cbn in H; lia|by destruct fuel'|].
  destruct fuel' as [|fuel']; [cbn in H'; lia|]. cbn [decode_loop]. destruct (decode_number _ _ _ _ _) as [[i' s']|] eqn:E; [|done].
  apply decode_number_shorter in E. destruct (_ || _); [done|]. cbn in *. apply IH; lia.
Qed.

(** The outer loop of [decode] from a state on. *)
Definition decode_from (e s : bytes) (i n bias : Z) (out : list Z) : puny (list Z) := decode_loop (length s) e s i n bias out.

Lemma decode_from_step e s s' i i' n bias out : s <> [] -> decode_number s i 1 base bias = Some (i', s') ->
  let x := i32 (len out + 1) in let n' := i32 (n + i' ÷ x) in
  n' <= MaxRune -> len out < 1024 ->
  decode_from e s i n bias out = decode_from e s' (i32 (Z.rem i' x + 1)) n' (adapt (i32 (i' - i)) x (i =? 0)) (insert_rune (Z.rem i' x) n' out).
Proof.
  intros Hs E x n' Hn Ho. unfold decode_from. destruct s as [|b s]; [done|]. pose proof (decode_number_shorter _ _ _ _ _ _ _ E).
  cbn [length decode_loop]. rewrite E. fold x. fold n'. rewrite (proj2 (Z.ltb_ge _ _)), (proj2 (Z.leb_gt _ _)) by lia. cbn [orb].
  apply decode_loop_fuel; cbn in *; lia.
Qed.

(** * Encoder and decoder in step *)

(** What the decoder knows of the string when the encoder, in the pass for [m],
    has scanned [pre] and not [rest]. *)
Definition known (pre rest : list Z) (m : Z) : list Z := filter (fun r => r <= m) pre ++ filter (fun r => r < m) rest.

Lemma len_filter (P : Z -> Prop) `{!forall x, Decision (P x)} l : len (filter P l) <= len l.
Proof. unfold len. pose proof (length_filter P l). lia. Qed.

Lemma known_len pre rest m : len (known pre (m :: rest) m) < len (pre ++ m :: rest).
Proof.
  unfold known. rewrite filter_cons_False by lia. rewrite !len_app, len_cons.
  pose proof (len_filter (fun r => r <= m) pre). pose proof (len_filter (fun r => r < m) rest). lia.
Qed.

Record sync (pre rest : list Z) (m b : Z) (st : state) (i n : Z) : Prop := mkSync {
  sync_at : n * (h st + 1) + i + delta st = m * (h st + 1) + len (filter (fun r => r <= m) pre);
  sync_h : h st = len (known pre rest m);
  sync_rem : remaining st + h st = len (pre ++ rest);
  sync_delta : 0 <= delta st;
  sync_in : 0 <= i /\ initialN <= n;
  sync_first : b <= h st /\ (h st =? b) = (i =? 0);
  sync_bias : 0 <= bias st < 214 }.

Lemma sync_h_le pre rest m b st i n : sync pre rest m b st i n -> 0 <= h st <= len (pre ++ rest).
Proof.
  intros [_ -> _ _ _ _ _]. split; [apply len_nonneg|]. unfold known. rewrite !len_app.
  pose proof (len_filter (fun r => r <= m) pre). pose proof (len_filter (fun r => r < m) rest). lia.
Qed.

Lemma sync_bound j pre rest m b st i n : sync pre rest m b st i n -> len (pre ++ rest) <= 128 -> m <= MaxRune -> h st < j ->
  i + delta st <= (MaxRune - initialN) * j + 128.
Proof.
  intros Hs Hl Hm Hh. pose proof (sync_h_le _ _ _ _ _ _ _ Hs) as Hh0. destruct Hs as [H1 H2 _ H4 [H5 H6] _ _]. unfold initialN, MaxRune in *. rewrite len_app in *. pose proof (len_nonneg rest).
  pose proof (len_filter (fun r => r <= m) pre). assert ((m - n) * (h st + 1) <= (0x10FFFF - 128) * j); [|lia].
  destruct (Z.le_gt_cases 0 (m - n)); nia.
Qed.

(** The rune of the pass: the encoder writes its digits, the decoder inserts it. *)
Lemma encode_rune_step e pre rest m b st i n : sync pre (m :: rest) m b st i n -> len (pre ++ m :: rest) <= 128 -> initialN <= m <= MaxRune ->
  exists ds, encode_number number_fuel (delta st) base (bias st) = Ok ds /\ (chr "-" ∉ ds) /\
    let bias' := adapt (delta st) (i32 (h st + 1)) (h st =? b) in
    sync (pre ++ [m]) rest m b (mkState 0 bias' (i32 (h st + 1)) (i32 (remaining st - 1)) (output st ++ ds)) (len (filter (fun r => r <= m) pre) + 1) m /\
    forall tl, decode_from e (ds ++ tl) i n (bias st) (known pre (m :: rest) m) =
      decode_from e tl (len (filter (fun r => r <= m) pre) + 1) m bias' (known (pre ++ [m]) rest m).
Proof.
  intros Hs Hl Hm. pose proof (known_len pre rest m) as Hk. pose proof (sync_h _ _ _ _ _ _ _ Hs) as Hh. rewrite <- Hh in Hk.
  pose proof (sync_bound 128 _ _ _ _ _ _ _ Hs Hl (proj2 Hm) ltac:(lia)) as Hb. destruct Hs as [Hat _ Hrem Hd [Hi Hn] [Hfb Hf] Hbias].
  unfold initialN, MaxRune in *.
  destruct (number_roundtrip delta_max number_fuel 12 (delta st) 1 base (bias st)) as (ds & E & Hne & Hdash & Hdec);
    [change (10 ^ Z.of_nat number_fuel) with (10 ^ 11); lia|lia|lia|change delta_max with 142589952; lia|by apply weights|].
  assert (Hc : 0 <= len (filter (fun r => r <= m) pre)) by apply len_nonneg. set (c := len (filter (fun r => r <= m) pre)) in *.
  assert (Hch : c < h st + 1). { rewrite Hh. unfold known. rewrite len_app. fold c. pose proof (len_nonneg (filter (fun r => r < m) (m :: rest))). lia. }
  assert (Hbias' : 0 <= adapt (delta st) (h st + 1) (h st =? b) < 214) by (apply adapt_bound; [change delta_max with 142589952|]; lia).
  assert (Hknown : insert_rune c m (known pre (m :: rest) m) = known (pre ++ [m]) rest m).
  { unfold insert_rune, known. rewrite upto_app_len, from_app_len by done. rewrite filter_app, filter_cons_False by lia.
    rewrite filter_cons_True, filter_nil by lia. by rewrite <- app_assoc. }
  exists ds. split; [done|]. split; [done|]. cbn zeta. rewrite !i32_id by (unfold window; rewrite ?len_app, ?len_cons in *; lia).
  assert (Hx : i + delta st = (m - n) * (h st + 1) + c) by lia. split.
  - constructor; cbn [delta bias h remaining output]; try done.
    + rewrite filter_app, filter_cons_True, filter_nil by lia. rewrite len_app. fold c. change (len [m]) with 1. lia.
    + rewrite <- Hknown, Hh. unfold insert_rune. rewrite <- (upto_from c (known pre (m :: rest) m)) at 1. rewrite !len_app. change (len [m]) with 1. lia.
    + rewrite <- app_assoc. cbn [app]. lia.
    + unfold initialN. lia.
    + split; [lia|]. rewrite (proj2 (Z.eqb_neq (c + 1) 0)) by lia. apply Z.eqb_neq. lia.
  - intros tl. pose proof (Hdec i tl ltac:(lia) ltac:(lia)) as Hnum. rewrite Z.mul_1_r in Hnum.
    assert (Hne' : ds ++ tl <> []) by (by destruct ds).
    pose proof (decode_from_step e (ds ++ tl) tl i (i + delta st) n (bias st) (known pre (m :: rest) m) Hne' Hnum) as Hstep. cbn zeta in Hstep.
    assert (Hq : (i + delta st) ÷ (h st + 1) = m - n) by (rewrite Z.quot_div_nonneg by lia; symmetry; apply (Z.div_unique_pos _ _ _ c); lia).
    assert (Hr : Z.rem (i + delta st) (h st + 1) = c) by (rewrite Z.rem_mod_nonneg by lia; symmetry; apply (Z.mod_unique_pos _ _ (m - n)); lia).
    rewrite <- Hh, (i32_id (h st + 1)), Hq, Hr, <- Hf in Hstep by (unfold window; lia). replace (n + (m - n)) with m in Hstep by lia.
    replace (i + delta st - i) with (delta st) in Hstep by lia. rewrite !i32_id, Hknown in Hstep by (unfold window; lia). unfold MaxRune in Hstep. apply Hstep; lia.
Qed.

(** A smaller rune, already known, is counted. *)
Lemma sync_skip pre r rest m b st i n : sync pre (r :: rest) m b st i n -> r < m ->
  sync (pre ++ [r]) rest m b (mkState (delta st + 1) (bias st) (h st) (remaining st) (output st)) i n /\
  known (pre ++ [r]) rest m = known pre (r :: rest) m.
Proof.
  intros [Hat Hh Hrem Hd Hin Hf Hb] Hr. assert (Hk : known (pre ++ [r]) rest m = known pre (r :: rest) m).
  { unfold known. rewrite filter_app, (filter_cons_True _ r []), (filter_cons_True _ r rest), filter_nil by lia. by rewrite <- app_assoc. }
  split; [|done]. constructor; cbn; rewrite ?Hk, <- ?app_assoc; try done; [|lia].
  rewrite filter_app, filter_cons_True, filter_nil, len_app by lia. change (len [r]) with 1. lia.
Qed.

(** A greater rune is for a later pass. *)
Lemma sync_pass pre r rest m b st i n : sync pre (r :: rest) m b st i n -> m < r ->
  sync (pre ++ [r]) rest m b st i n /\ known (pre ++ [r]) rest m = known pre (r :: rest) m.
Proof.
  intros [Hat Hh Hrem Hd Hin Hf Hb] Hr. assert (Hk : known (pre ++ [r]) rest m = known pre (r :: rest) m).
  { unfold known. by rewrite filter_app, !filter_cons_False, filter_nil, app_nil_r by lia. }
  split; [|done]. constructor; cbn; rewrite ?Hk, <- ?app_assoc; try done.
  by rewrite filter_app, filter_cons_False, filter_nil, app_nil_r by lia.
Qed.

Lemma encode_pass_ok s e m b rest : initialN <= m <= MaxRune -> forall pre st i n, sync pre rest m b st i n -> len (pre ++ rest) <= 128 ->
  exists st' ds i' n', encode_pass s b m rest st = Ok st' /\ output st' = output st ++ ds /\ (chr "-" ∉ ds) /\ sync (pre ++ rest) [] m b st' i' n' /\
    forall tl, decode_from e (ds ++ tl) i n (bias st) (known pre rest m) = decode_from e tl i' n' (bias st') (known (pre ++ rest) [] m).
Proof.
  intros Hm. induction rest as [|r rest IH]; intros pre st i n Hs Hl.
  { exists st, [], i, n. rewrite !app_nil_r in *. split; [done|]. split; [done|]. split; [by intros ?%elem_of_nil|]. by split. }
  assert (Happ : pre ++ r :: rest = (pre ++ [r]) ++ rest) by (by rewrite <- app_assoc). cbn [encode_pass].
  destruct (Z.ltb_spec r m) as [Hlt|Hge]; [|destruct (Z.ltb_spec m r) as [Hgt|Hle]].
  - destruct (sync_skip _ _ _ _ _ _ _ _ Hs Hlt) as [Hs' Hk]. pose proof (sync_h_le _ _ _ _ _ _ _ Hs).
    pose proof (sync_bound 129 _ _ _ _ _ _ _ Hs Hl (proj2 Hm) ltac:(lia)) as Hb. destruct (sync_in _ _ _ _ _ _ _ Hs). pose proof (sync_delta _ _ _ _ _ _ _ Hs).
    unfold initialN, MaxRune in Hb. rewrite i32_id, (proj2 (Z.ltb_ge _ _)) by (try unfold window; lia).
    rewrite Happ in *. rewrite <- Hk. apply (IH _ _ _ _ Hs' Hl).
  - destruct (sync_pass _ _ _ _ _ _ _ _ Hs Hgt) as [Hs' Hk]. rewrite Happ in *. rewrite <- Hk. apply (IH _ _ _ _ Hs' Hl).
  - assert (r = m) as -> by lia. destruct (encode_rune_step e _ _ _ _ _ _ _ Hs Hl Hm) as (ds & E & Hd & Hs' & Hdec). rewrite E. cbn [mbind outcome_bind].
    rewrite Happ in *. destruct (IH _ _ _ _ Hs' Hl) as (st' & ds' & i' & n' & Ep & Eo & Hd' & Hs2 & Hdec').
    exists st', (ds ++ ds'), i', n'. split; [exact Ep|]. split; [by rewrite Eo; cbn; rewrite app_assoc|]. split; [rewrite elem_of_app; tauto|]. split; [done|].
    intros tl. rewrite <- app_assoc, Hdec. apply Hdec'.
Qed.

(** * The passes *)

Lemma least_acc n rs m0 : let m := foldl (fun m r => if (r <? m) && (n <=? r) then r else m) m0 rs in
  m <= m0 /\ (m = m0 \/ (m ∈ rs) /\ n <= m) /\ forall r, r ∈ rs -> n <= r -> m <= r.
Proof.
  revert m0. induction rs as [|r rs IH]; intros m0; cbn; [split; [lia|]; split; [by left|]; by intros ? ?%elem_of_nil|].
  destruct (IH (if (r <? m0) && (n <=? r) then r else m0)) as (H1 & H2 & H3). set (m := foldl _ _ rs) in *.
  destruct (Z.ltb_spec r m0), (Z.leb_spec n r); cbn [andb] in *; (split; [lia|]); (split; [destruct H2 as [H2|[? ?]]; [|right; split; [by right|done]]|]).
  all: try (intros x [->|Hx]%elem_of_cons Hn; [lia|by apply H3]).
  all: try (by left). right. rewrite H2. split; [by left|done].
Qed.

Lemma filter_full (P : Z -> Prop) `{!forall x, Decision (P x)} l : len (filter P l) = len l -> filter P l = l.
Proof.
  induction l as [|x l IH]; [done|]. rewrite len_cons. destruct (decide (P x)) as [Hx|Hx].
  - rewrite filter_cons_True by done. rewrite len_cons. intros E. f_equal. apply IH. lia.
  - rewrite filter_cons_False by done. pose proof (len_filter P l). lia.
Qed.

Lemma filter_all (P : Z -> Prop) `{!forall x, Decision (P x)} l : Forall P l -> filter P l = l.
Proof. induction 1; [done|]. rewrite filter_cons_True by done. by f_equal. Qed.

Lemma filter_le_lt m (rs : list Z) : len (filter (fun r => r < m) rs) <= len (filter (fun r => r <= m) rs).
Proof.
  induction rs as [|r rs IH]; [done|]. rewrite !filter_cons. repeat case_decide; rewrite ?len_cons; lia.
Qed.

Lemma filter_below n m (rs : list Z) : n <= m -> (forall r, r ∈ rs -> n <= r -> m <= r) -> filter (fun r => r < m) rs = filter (fun r => r < n) rs.
Proof.
  intros Hn. induction rs as [|r rs IH]; intros H; [done|]. rewrite !filter_cons, IH by (intros; apply H; [by right|done]).
  pose proof (H r ltac:(by left)). repeat case_decide; [done|lia..|done].
Qed.

Lemma filter_upto m (rs : list Z) : filter (fun r => r < m + 1) rs = filter (fun r => r <= m) rs.
Proof. induction rs as [|r rs IH]; [done|]. rewrite !filter_cons, IH. repeat case_decide; [done|lia..|done]. Qed.

(** There is a rune for the next pass. *)
Lemma least_ok (rs : list Z) n : Forall scalar rs -> len (filter (fun r => r < n) rs) < len rs ->
  n <= least n rs <= MaxRune /\ (least n rs ∈ rs) /\ filter (fun r => r < least n rs) rs = filter (fun r => r < n) rs.
Proof.
  intros Hs Hl. assert (Hex : exists r, (r ∈ rs) /\ n <= r).
  { destruct (decide (Forall (fun r => r < n) rs)) as [Ha|Ha].
    - rewrite (filter_all _ _ Ha) in Hl. lia.
    - apply not_Forall_Exists, Exists_exists in Ha as (r & ? & Hr); [|intros x; apply _]. exists r. cbn in Hr. split; [done|lia]. }
  destruct Hex as (r & Hr & Hn). pose proof (least_acc n rs 0x7fffffff) as Hacc. cbn zeta in Hacc. fold (least n rs) in Hacc. destruct Hacc as (H1 & H2 & H3).
  assert (Hmax : forall x, x ∈ rs -> x <= MaxRune) by (intros x Hx; apply (proj1 (Forall_forall _ _) Hs x Hx)).
  pose proof (H3 r Hr Hn). pose proof (Hmax r Hr). destruct H2 as [H2|[H2 H4]]; [unfold MaxRune in *; lia|].
  split; [by split; [|apply Hmax]|]. split; [done|]. apply filter_below; [lia|done].
Qed.

Lemma next_pass rs m b st i n : sync rs [] m b st i n ->
  sync [] rs (m + 1) b (mkState (delta st + 1) (bias st) (h st) (remaining st) (output st)) i n /\ known [] rs (m + 1) = known rs [] m.
Proof.
  intros [Hat Hh Hrem Hd Hin Hf Hb]. assert (Hk : known [] rs (m + 1) = known rs [] m) by (unfold known; by rewrite filter_upto, filter_nil, app_nil_r).
  split; [|done]. rewrite app_nil_r in Hrem. constructor; cbn [delta bias h remaining output]; rewrite ?Hk; try done; [|lia].
  unfold known in Hh. rewrite filter_nil, app_nil_r in Hh. rewrite filter_nil, len_nil. lia.
Qed.

Lemma encode_loop_ok s e b rs : Forall scalar rs -> len rs <= 128 -> forall fuel n st i nd,
  remaining st <= Z.of_nat fuel -> initialN <= n -> sync [] rs n b st i nd ->
  exists ds, encode_loop fuel s b n rs st = Ok (output st ++ ds) /\ (chr "-" ∉ ds) /\
    decode_from e ds i nd (bias st) (known [] rs n) = Ok rs.
Proof.
  intros Hsc Hl. induction fuel as [|fuel IH]; intros n st i nd Hfuel Hn Hs; pose proof (sync_rem _ _ _ _ _ _ _ Hs) as Hrem; pose proof (sync_h_le _ _ _ _ _ _ _ Hs) as Hhl;
    pose proof (sync_h _ _ _ _ _ _ _ Hs) as Hh; cbn [app] in *; unfold known in Hh; rewrite filter_nil in Hh; cbn [app] in Hh; cbn [encode_loop]; destruct (Z.eqb_spec (remaining st) 0) as [Hz|Hz]; [|lia| |].
  1,2: exists []; rewrite app_nil_r; split; [done|]; split; [by intros ?%elem_of_nil|];
       unfold known; rewrite filter_nil; cbn [app]; rewrite (filter_full _ rs) by lia; done.
  destruct (least_ok rs n Hsc ltac:(lia)) as (Hm & Hin & Hbelow). set (m := least n rs) in *. clearbody m.
  assert (Hs1 : sync [] rs m b (mkState (delta st + (m - n) * (h st + 1)) (bias st) (h st) (remaining st) (output st)) i nd).
  { destruct Hs as [Hat _ _ Hd Hi Hf Hb]. constructor; cbn [delta bias h remaining output]; try done; [rewrite filter_nil in *; cbn in *; lia| |nia].
    unfold known. rewrite filter_nil. cbn [app]. by rewrite Hbelow. }
  pose proof (sync_bound 128 _ _ _ _ _ _ _ Hs1 Hl (proj2 Hm) ltac:(cbn; lia)) as Hb. pose proof (sync_delta _ _ _ _ _ _ _ Hs1) as Hd1. pose proof (sync_delta _ _ _ _ _ _ _ Hs) as Hd0.
  destruct (sync_in _ _ _ _ _ _ _ Hs1) as [Hi _]. cbn [delta] in Hb, Hd1. assert (0 <= (m - n) * (h st + 1)) by nia.
  unfold initialN, MaxRune in *. rewrite (i32_id (m - n)), (i32_id (h st + 1)) by (unfold window; lia). rewrite (i32_id ((m - n) * _)) by (unfold window; lia).
  rewrite (i32_id (delta st + _)), (proj2 (Z.ltb_ge _ _)) by (try unfold window; lia).
  destruct (encode_pass_ok s e m b rs ltac:(unfold initialN, MaxRune; lia) [] _ _ _ Hs1 Hl) as (st' & ds & i' & n' & Ep & Eo & Hdash & Hs2 & Hdec).
  cbn [app] in Hs2, Hdec. cbn [output] in Eo. rewrite Ep. cbn [mbind outcome_bind].
  pose proof (sync_rem _ _ _ _ _ _ _ Hs2) as Hrem2. rewrite app_nil_r in Hrem2. pose proof (sync_h _ _ _ _ _ _ _ Hs2) as Hh2. unfold known in Hh2. rewrite filter_nil, app_nil_r in Hh2.
  assert (Hlt : h st < h st').
  { rewrite Hh, Hh2, <- Hbelow. destruct (list_elem_of_split _ _ Hin) as (l1 & l2 & ->). rewrite !filter_app, !len_app, filter_cons_False, filter_cons_True, len_cons by lia.
    pose proof (filter_le_lt m l1). pose proof (filter_le_lt m l2). lia. }
  pose proof (sync_bound 129 _ _ _ _ _ _ _ Hs2) as Hb2. rewrite app_nil_r in Hb2. pose proof (sync_h_le _ _ _ _ _ _ _ Hs2) as Hhl2. rewrite app_nil_r in Hhl2. unfold initialN, MaxRune in Hb2.
  specialize (Hb2 Hl (proj2 Hm) ltac:(lia)). destruct (sync_in _ _ _ _ _ _ _ Hs2) as [Hi2 _]. pose proof (sync_delta _ _ _ _ _ _ _ Hs2).
  rewrite (i32_id (m + 1)), (i32_id (delta st' + 1)) by (unfold window; lia). destruct (next_pass _ _ _ _ _ _ Hs2) as [Hs3 Hk].
  assert (Hf : remaining st' <= Z.of_nat fuel) by lia. destruct (fun H => IH (m + 1) _ _ _ H ltac:(lia) Hs3) as (ds' & E & Hdash' & Hdec'); [exact Hf|]. cbn [output bias remaining] in *.
  exists (ds ++ ds'). rewrite E, Eo, <- app_assoc. split; [done|]. split; [rewrite elem_of_app; tauto|].
  rewrite Hk in Hdec'. rewrite <- Hdec', <- Hdec. unfold known. by rewrite filter_nil, Hbelow.
Qed.

(** * Strings *)

Lemma string_of_ascii l : Forall (fun r => 0 <= r < RuneSelf) l -> string_of_runes l = l.
Proof.
  unfold RuneSelf. induction 1 as [|r l H _ IH]; [done|]. unfold string_of_runes in *. cbn. rewrite IH. unfold encode_rune.
  by rewrite (proj2 (Z.leb_le 0 r)), (proj2 (Z.leb_le r _)) by lia.
Qed.

Lemma u8_ascii l : Forall (fun r => 0 <= r < RuneSelf) l -> u8 <$> l = l.
Proof. unfold RuneSelf, u8. induction 1 as [|r l H _ IH]; [done|]. cbn. rewrite IH. f_equal. apply Z.mod_small. lia. Qed.

Lemma filter_split (P : Z -> Prop) `{!forall x, Decision (P x)} l : len (filter P l) + len (filter (fun x => ~ P x) l) = len l.
Proof. induction l as [|x l IH]; [done|]. rewrite !filter_cons. repeat case_decide; rewrite ?len_cons; first [lia|done]. Qed.

Lemma basic_ok rs : Forall scalar rs -> Forall (fun r => 0 <= r < RuneSelf) (filter (fun r => r < RuneSelf) rs).
Proof.
  intros H. apply Forall_forall. intros r [Hr Hin]%list_elem_of_filter. destruct (proj1 (Forall_forall _ _) H r Hin). lia.
Qed.

(** What [decode] does once the last hyphen is found. *)
Lemma decode_basic basic ds : (chr "-" ∉ ds) -> basic <> [] -> Forall (fun r => 0 <= r < RuneSelf) basic ->
  forall rs, decode_from (basic ++ chr "-" :: ds) ds 0 initialN initialBias basic = Ok rs ->
  decode (basic ++ chr "-" :: ds) = Ok (string_of_runes rs).
Proof.
  intros Hd Hb Ha rs H. unfold decode. rewrite decide_False by (by destruct basic). rewrite last_index_last by done.
  assert (0 < len basic) by (destruct basic; [done|rewrite len_cons; pose proof (len_nonneg basic); lia]). pose proof (len_nonneg ds).
  rewrite (proj2 (Z.eqb_neq _ 1)) by lia. rewrite len_app, len_cons. replace (1 + len basic - 1) with (len basic) by lia.
  rewrite (upto_app_len (len basic)) by done. destruct (Z.eqb_spec (1 + len basic) (len basic + (len ds + 1))) as [E|_].
  - assert (ds = []) as -> by (destruct ds; [done|rewrite len_cons in *; pose proof (len_nonneg ds); lia]). injection H as <-.
    change (len (@nil Z)) with 0. rewrite upto_app_len by lia. by rewrite string_of_ascii.
  - rewrite (proj2 (Z.eqb_neq _ 0)) by lia. cbn [negb]. replace (runes basic) with basic.
    + rewrite (cons_middle _ basic ds). replace (from (1 + len basic) (basic ++ [chr "-"] ++ ds)) with ds.
      * cbn [app] in H |- *. unfold decode_from in H. by rewrite H.
      * rewrite app_assoc, from_app_len; [done|]. rewrite len_app. change (len [chr "-"]) with 1. lia.
    + rewrite <- (string_of_ascii basic Ha) at 2. symmetry. apply runes_string. eapply Forall_impl; [exact Ha|]. cbn. intros r Hr.
      unfold RuneSelf, scalar, MaxRune, surrogate, in_range in *. split; [lia|]. apply andb_false_iff. left. apply Z.leb_gt. lia.
Qed.

Lemma decode_digits ds rs : (chr "-" ∉ ds) -> decode_from ds ds 0 initialN initialBias [] = Ok rs -> decode ds = Ok (string_of_runes rs).
Proof.
  intros Hd H. unfold decode. destruct (decide (ds = [])) as [->|Hne]; [injection H as <-; done|]. rewrite last_index_none by done.
  cbn zeta. change (1 + -1 =? 1) with false. change (1 + -1 =? 0) with true. change (1 + -1) with 0. cbn [negb]. assert (0 < len ds) by (destruct ds; [done|rewrite len_cons; pose proof (len_nonneg ds); lia]).
  rewrite (proj2 (Z.eqb_neq 0 (len ds))) by lia. unfold decode_from in H. change (from 0 ds) with ds. by rewrite H.
Qed.

(** C38. The Punycode decoder inverts the encoder: for every string of at most
    128 Unicode scalar values (a DNS label holds 63 bytes) [encode] returns its
    prefix and an encoding, without an error or an overflow, and [decode] of
    that encoding gives the string back. *)
Theorem decode_encode prefix rs : Forall scalar rs -> len rs <= 128 ->
  exists e, encode prefix (string_of_runes rs) = Ok (prefix ++ e) /\ decode e = Ok (string_of_runes rs).
Proof.
  intros Hs Hl. pose proof (basic_ok rs Hs) as Hbasic. unfold encode. rewrite runes_string by done.
  set (basic := filter (fun r => r < RuneSelf) rs) in *. rewrite (u8_ascii basic) by done.
  pose proof (filter_split (fun r => r < RuneSelf) rs) as Hsplit. fold basic in Hsplit. set (rem := len (filter _ rs)) in *.
  pose proof (len_nonneg basic). assert (0 <= rem) by apply len_nonneg. rewrite !i32_id by (unfold window; lia).
  set (out := if 0 <? len basic then _ else _).
  assert (Hsync : sync [] rs initialN (len basic) (mkState 0 initialBias (len basic) rem out) 0 initialN).
  { constructor; cbn [delta bias h remaining output app]; unfold initialN, initialBias; rewrite ?filter_nil; try lia.
    - change (len (@nil Z)) with 0. lia.
    - unfold known. by rewrite filter_nil. }
  assert (Hloop : forall e, exists ds, encode_loop (length rs) (string_of_runes rs) (len basic) initialN rs (mkState 0 initialBias (len basic) rem out) = Ok (out ++ ds) /\
    (chr "-" ∉ ds) /\ decode_from e ds 0 initialN initialBias basic = Ok rs).
  { intros e. destruct (fun H => encode_loop_ok (string_of_runes rs) e (len basic) rs Hs Hl (length rs) initialN _ 0 initialN H ltac:(done) Hsync) as (ds & E & Hd & Hdec); [cbn; unfold len in *; lia|].
    exists ds. split; [exact E|]. split; [done|]. rewrite <- Hdec. unfold known. by rewrite filter_nil. }
  destruct (Hloop []) as (ds & E & Hdash & _). assert (Hdec : forall e, decode_from e ds 0 initialN initialBias basic = Ok rs).
  { intros e. destruct (Hloop e) as (ds' & E' & _ & Hd). rewrite E in E'. injection E' as ->%app_inv_head. done. }
  rewrite E. clear E Hloop Hsync. unfold out. destruct (Z.ltb_spec 0 (len basic)).
  - exists (basic ++ chr "-" :: ds). split; [by rewrite <- !app_assoc|]. apply decode_basic; [done|by intros ->|done|apply Hdec].
  - assert (Hnil : basic = []) by (destruct basic as [|x l]; [done|rewrite len_cons in *; pose proof (len_nonneg l); lia]). rewrite Hnil, app_nil_r in *. exists ds. split; [done|]. by apply decode_digits.
Qed.

Lemma decode_encode_witness : let rs := [98; 0xFC; 99; 104; 101; 114; 0x4E2D; 0x10FFFF] in
  Forall scalar rs /\ exists e, encode (str "xn--") (string_of_runes rs) = Ok (str "xn--" ++ e) /\ decode e = Ok (string_of_runes rs).
Proof.
  intros rs. assert (H : Forall scalar rs) by (repeat (apply Forall_cons; split; [by split; vm_compute|]); apply Forall_nil; done).
  split; [exact H|]. exact (decode_encode (str "xn--") rs H ltac:(vm_compute; discriminate)).
Defined.

(** * Decoding *)

Lemma decode_loop_total e fuel s i n bias out : (length s <= fuel)%nat -> decode_loop fuel e s i n bias out <> Panic.
Proof.
  revert s i n bias out. induction fuel as [|fuel IH]; intros s i n bias out Hf; destruct s as [|x s]; [done|cbn in Hf; lia|done|].
  cbn [decode_loop]. destruct (decode_number _ _ _ _ _) as [[i' s']|] eqn:E; [|done]. apply decode_number_shorter in E.
  destruct (_ || _); [done|]. apply IH. cbn in *. lia.
Qed.

Lemma decode_total e : decode e <> Panic.
Proof.
  unfold decode. destruct (decide _); [done|]. cbn zeta. z_cases; try done.
  all: destruct (decode_loop _ _ _ _ _ _ _) eqn:E; try done; by apply decode_loop_total in E.
Qed.

(** * Encoding *)

Lemma encode_number_total fuel q k bias : 0 <= q < 10 ^ Z.of_nat fuel -> q < 2 ^ 31 -> exists ds, encode_number fuel q k bias = Ok ds.
Proof.
  revert q k. induction fuel as [|fuel IH]; intros q k Hq Hq31; pose proof (threshold_bound k bias) as Ht;
    (destruct (Z.lt_ge_cases q (threshold k bias)) as [Hlt|Hge]; [rewrite encode_last by lia; by eexists|]).
  - change (10 ^ Z.of_nat 0) with 1 in Hq. lia.
  - destruct (encode_digit fuel q k bias ltac:(lia)) as (d & a & E & Hd & Ha & Hqa). unfold base in *.
    rewrite Nat2Z.inj_succ, Z.pow_succ_r in Hq by lia. destruct (IH a (i32 (k + 36))) as (ds & E'); [nia|nia|]. rewrite E, E'. by eexists.
Qed.

(** The runes that are still to be encoded before a pass. *)
Definition pending (n : Z) (rs : list Z) : Z := len (filter (fun r => n <= r) rs).
Definition equal_to (m : Z) (rs : list Z) : Z := len (filter (fun r => r = m) rs).

Lemma encode_pass_total s b m (all rest : list Z) st : 0 <= delta st < 2 ^ 31 -> len all < 2 ^ 31 -> equal_to m rest <= remaining st <= len all ->
  (exists e, encode_pass s b m rest st = Fail e) \/
  exists st', encode_pass s b m rest st = Ok st' /\ 0 <= delta st' < 2 ^ 31 /\ remaining st' = remaining st - equal_to m rest.
Proof.
  revert st. induction rest as [|r rest IH]; intros st Hd Hl Hr; cbn [encode_pass].
  { right. exists st. split; [done|]. split; [done|]. change (equal_to m []) with 0. lia. }
  unfold equal_to in *. rewrite filter_cons in Hr |- *. pose proof (len_nonneg (filter (fun r => r = m) rest)).
  destruct (Z.ltb_spec r m); [|destruct (Z.ltb_spec m r)].
  - rewrite decide_False in Hr |- * by lia. pose proof (i32_window (delta st + 1)) as Hw. unfold window in Hw.
    destruct (Z.ltb_spec (i32 (delta st + 1)) 0); [left; by eexists|]. apply (IH (mkState (i32 (delta st + 1)) (bias st) (h st) (remaining st) (output st))); cbn [delta remaining]; lia.
  - rewrite decide_False in Hr |- * by lia. by apply IH.
  - rewrite decide_True, len_cons in Hr |- * by lia. destruct (encode_number_total number_fuel (delta st) base (bias st)) as (ds & E); [change (10 ^ Z.of_nat number_fuel) with (10 ^ 11); lia|lia|].
    rewrite E. cbn [mbind outcome_bind]. rewrite (i32_id (remaining st - 1)) by (unfold window; lia).
    match goal with |- context [encode_pass s b m rest ?st1] => destruct (IH st1) as [?|(st' & E' & Hd' & Hr')] end; cbn [delta remaining] in *; [lia|done|lia|by left|].
    right. exists st'. split; [exact E'|]. split; [done|]. lia.
Qed.

(** The encoder's outer loop: each round encodes the runes that equal [least]. *)
Lemma pending_split n m (rs : list Z) : n <= m -> (forall r, r ∈ rs -> n <= r -> m <= r) -> pending n rs = equal_to m rs + pending (m + 1) rs.
Proof.
  intros Hn. unfold pending, equal_to. induction rs as [|r rs IH]; intros H; [done|]. rewrite !filter_cons.
  specialize (IH ltac:(intros; apply H; [by right|done])). pose proof (H r ltac:(by left)). repeat case_decide; rewrite ?len_cons; lia.
Qed.

Lemma least_pending n (rs : list Z) : Forall (fun r => r <= MaxRune) rs -> 0 < pending n rs ->
  n <= least n rs <= MaxRune /\ 0 < equal_to (least n rs) rs /\ pending n rs = equal_to (least n rs) rs + pending (least n rs + 1) rs.
Proof.
  intros Hs Hp. pose proof (least_acc n rs 0x7fffffff) as Hacc. cbn zeta in Hacc. fold (least n rs) in Hacc. destruct Hacc as (H1 & H2 & H3).
  unfold pending in Hp. destruct (filter (fun r => n <= r) rs) as [|r l] eqn:E; [by change (len (@nil Z)) with 0 in Hp|].
  assert (Hr : r ∈ filter (fun r => n <= r) rs) by (rewrite E; by left). apply list_elem_of_filter in Hr as [Hn Hr].
  pose proof (proj1 (Forall_forall _ _) Hs r Hr) as Hm. cbn in Hm, Hn. pose proof (H3 r Hr Hn). destruct H2 as [H2|[H2 H4]]; [unfold MaxRune in *; lia|].
  split; [lia|]. split; [|by apply pending_split]. unfold equal_to.
  assert (Hin : least n rs ∈ filter (fun r => r = least n rs) rs) by (by apply list_elem_of_filter).
  destruct (filter (fun r => r = least n rs) rs) as [|x l']; [by apply elem_of_nil in Hin|]. rewrite len_cons. pose proof (len_nonneg l'). lia.
Qed.

Lemma pending_le n (rs : list Z) : 0 <= pending n rs <= len rs.
Proof. split; [apply len_nonneg|apply len_filter]. Qed.

Lemma encode_loop_total s b rs : Forall (fun r => r <= MaxRune) rs -> len rs < 2 ^ 31 -> forall fuel n st,
  initialN <= n -> remaining st = pending n rs -> remaining st <= Z.of_nat fuel -> encode_loop fuel s b n rs st <> Panic.
Proof.
  intros Hs Hl. induction fuel as [|fuel IH]; intros n st Hn Hp Hf; cbn [encode_loop]; (destruct (Z.eqb_spec (remaining st) 0); [done|]); pose proof (pending_le n rs); [lia|].
  destruct (least_pending n rs Hs ltac:(lia)) as (Hm & Heq & Hsplit). set (m := least n rs) in *. clearbody m. pose proof (pending_le (m + 1) rs).
  pose proof (i32_window (delta st + i32 (i32 (m - n) * i32 (h st + 1)))) as Hw. set (d := i32 _) in *. unfold window in Hw. unfold initialN, MaxRune in *.
  destruct (Z.ltb_spec d 0); [done|].
  destruct (encode_pass_total s b m rs rs (mkState d (bias st) (h st) (remaining st) (output st))) as [(e & E)|(st' & E & Hd' & Hr')]; cbn [delta remaining] in *; [lia|done|lia|by rewrite E|].
  rewrite E. cbn [mbind outcome_bind]. rewrite (i32_id (m + 1)) by (unfold window; lia). apply IH; cbn [remaining]; lia.
Qed.

(** Punycode terminates without a panic on every string: [decode] returns a
    string or the label error, and so does [encode] for every string of fewer
    than 2^31 bytes, valid UTF-8 or not (whatever wraps around on the way). *)
Lemma punycode_total prefix s : bytes_ok s -> len s < 2 ^ 31 -> decode s <> Panic /\ encode prefix s <> Panic.
Proof.
  intros Hb Hl. split; [apply decode_total|]. unfold encode. pose proof (runes_length s). unfold len in Hl. assert (Hl' : len (runes s) < 2 ^ 31) by (unfold len; lia).
  assert (Hs : Forall (fun r => r <= MaxRune) (runes s)) by (eapply Forall_impl; [by apply runes_scalar|intros r [? ?]; cbn; lia]).
  pose proof (pending_le 128 (runes s)) as Hp.
  assert (E : len (filter (fun r => ~ r < RuneSelf) (runes s)) = pending initialN (runes s)).
  { unfold pending. f_equal. apply list_filter_iff. intros r. unfold RuneSelf, initialN. lia. }
  rewrite E, (i32_id (pending _ _)) by (unfold window, initialN; lia). apply encode_loop_total; try done. cbn [remaining]. unfold len, initialN in *. lia.
Qed.

Lemma punycode_total_witness : decode (str "bcher-kva") = Ok (string_of_runes [98; 0xFC; 99; 104; 101; 114]) /\ encode [] [0xE9; 45] <> Panic.
Proof.
  split; [vm_compute; reflexivity|]. assert (H : bytes_ok [0xE9; 45]) by (apply (bool_decide_eq_true_1 _); vm_compute; reflexivity).
  exact (proj2 (punycode_total [] [0xE9; 45] H ltac:(done))).
Defined.

(** * Wrap-around *)

(** [delta += (m - n) * (h + 1)] wraps around to a positive value that the test
    for overflow does not see: two strings are encoded alike. *)
Definition encoded (s : bytes) : bytes := match encode [] s with Ok e => e | _ => [] end.

Lemma encode_collides : let s1 := string_of_runes (replicate 4095 97 ++ [0x80]) in let s2 := string_of_runes (replicate 4095 97 ++ [0x100080]) in
  s1 <> s2 /\ encode [] s1 = Ok (encoded s1) /\ encode [] s2 = Ok (encoded s1).
Proof. cbv zeta. split; [intros E; apply (f_equal length) in E; by vm_compute in E|]. split; vm_compute; reflexivity. Qed.

(** The decoder refuses a weight that no digit of the number needs: it does not
    read back what the encoder writes for this string. *)
Lemma decode_refuses_encoded : let s := string_of_runes (replicate 350 97 ++ [0x10FFFF]) in
  encode [] s = Ok (encoded s) /\ decode (encoded s) = Fail (punyError (encoded s)).
Proof. split; vm_compute; reflexivity. Qed.
