(* ===== verification/WsHybi.v ===== *)
(** WebSocket frames: [websocket/hybi.go]. *)
From S2P Require Import Prelude GoStrings.

(** * Errors and connections *)

(** [io.EOF], [io.ErrUnexpectedEOF], the errors of the network connection and
    of [crypto/rand], and the errors of the package. *)
Inductive ws_error := EOF | ErrUnexpectedEOF | ErrRead | ErrWrite | ErrRand | ErrBadMaskingKey | ErrFrameTooLarge | ErrNotSupported.

#[global] Instance ws_error_eq_dec : EqDecision ws_error.
Proof. solve_decision. Defined.

(** The [bufio.Reader] of a connection: the pieces in which the bytes come and
    the error after them. A call reads from one piece: what is buffered, or what
    one call of the connection gives. *)
Record reader := mkReader { pieces : list bytes; fin : ws_error }.

Definition after (s : bytes) (ps : list bytes) : list bytes := match s with [] => ps | _ => s :: ps end.

(** What comes next: the connection gives a byte at least or an error. *)
Fixpoint next (ps : list bytes) : option (Z * bytes * list bytes) :=
  match ps with
  | [] => None
  | [] :: ps => next ps
  | (b :: p) :: ps => Some (b, p, ps)
  end.

(** [Read] of a [bufio.Reader] into [k] bytes. *)
Definition buf_Read (k : Z) (r : reader) : bytes * option ws_error * reader :=
  if k =? 0 then ([], None, r)
  else
    match next (pieces r) with
    | None => ([], Some (fin r), r)
    | Some (b, p, ps) => (upto k (b :: p), None, mkReader (after (from k (b :: p)) ps) (fin r))
    end.

(** The part of the code that reads and stops at the first error. *)
Definition parse (A : Type) : Type := reader -> (ws_error + A) * reader.
#[global] Instance parse_ret : MRet parse := fun A a r => (inr a, r).
#[global] Instance parse_bind : MBind parse := fun A B f m r =>
  let '(x, r) := m r in match x with inl e => (inl e, r) | inr a => f a r end.

Definition ReadByte : parse Z := fun r =>
  match next (pieces r) with
  | None => (inl (fin r), r)
  | Some (b, p, ps) => (inr b, mkReader (after p ps) (fin r))
  end.

(** The [bufio.Writer] of a connection: what is buffered, what was sent, and how
    many bytes the connection still takes before it fails ([None]: any number). *)
Record writer := mkWriter { wbuf : bytes; sent : bytes; room : option Z; werr : bool }.

Definition buf_Write (p : bytes) (w : writer) : writer :=
  if werr w then w else mkWriter (wbuf w ++ p) (sent w) (room w) (werr w).

Definition buf_Flush (w : writer) : option ws_error * writer :=
  if werr w then (Some ErrWrite, w)
  else
    match room w with
    | None => (None, mkWriter [] (sent w ++ wbuf w) None false)
    | Some n =>
        if len (wbuf w) <=? n then (None, mkWriter [] (sent w ++ wbuf w) (Some (n - len (wbuf w))) false)
        else (Some ErrWrite, mkWriter (from n (wbuf w)) (sent w ++ upto n (wbuf w)) (Some 0) true)
    end.

(** * Frame headers *)

Definition ContinuationFrame : Z := 0.
Definition TextFrame : Z := 1.
Definition BinaryFrame : Z := 2.
Definition CloseFrame : Z := 8.
Definition PingFrame : Z := 9.
Definition PongFrame : Z := 10.
Definition UnknownFrame : Z := 255.

Definition closeStatusNormal : Z := 1000.
Definition closeStatusProtocolError : Z := 1002.
Definition maxControlFramePayloadLength : Z := 125.

Record hybiFrameHeader := mkHeader {
  Fin : bool; Rsv : bool * bool * bool; OpCode : Z; Length : Z; MaskingKey : option bytes; data : bytes }.

(** [n] is what the [io.LimitReader] over the connection still lets through. *)
Record hybiFrameReader := mkFrame { header : hybiFrameHeader; limit : Z; pos : Z; length_ : Z }.

Definition set_OpCode (o : Z) (f : hybiFrameReader) : hybiFrameReader :=
  mkFrame (mkHeader (Fin (header f)) (Rsv (header f)) o (Length (header f)) (MaskingKey (header f)) (data (header f))) (limit f) (pos f) (length_ f).
Definition set_data (d : bytes) (f : hybiFrameReader) : hybiFrameReader :=
  mkFrame (mkHeader (Fin (header f)) (Rsv (header f)) (OpCode (header f)) (Length (header f)) (MaskingKey (header f)) d) (limit f) (pos f) (length_ f).

(** * Reading *)

(** Bit [j] of a byte. *)
Definition bit (b j : Z) : bool := negb (Z.land (Z.shiftr b j) 1 =? 0).

(** The loop over the bytes of an extended length: they are also kept in the
    header. *)
Fixpoint read_length (lengthFields i : Z) (fuel : nat) (hdr : bytes) (Length : Z) : parse (bytes * Z) :=
  match fuel with
  | O => mret (hdr, Length)
  | S fuel =>
      b ← ReadByte;
      let b := if (lengthFields =? 8) && (i =? 0) then Z.land b 0x7f else b in
      read_length lengthFields (i + 1) fuel (hdr ++ [b]) (i64 (i64 (Length * 256) + b))
  end.

Fixpoint read_key (fuel : nat) (hdr key : bytes) : parse (bytes * bytes) :=
  match fuel with
  | O => mret (hdr, key)
  | S fuel => b ← ReadByte; read_key fuel (hdr ++ [b]) (key ++ [b])
  end.

Definition NewFrameReader : parse hybiFrameReader :=
  b0 ← ReadByte;
  b1 ← ReadByte;
  let mask := negb (Z.land b1 0x80 =? 0) in
  let b := Z.land b1 0x7f in
  let '(Length, lengthFields) := if b <=? 125 then (b, 0) else if b =? 126 then (0, 2) else if b =? 127 then (0, 8) else (0, 0) in
  '(hdr, Length) ← read_length lengthFields 0 (Z.to_nat lengthFields) [b0; b1] Length;
  '(hdr, key) ← (if (mask : bool) then '(hdr, key) ← read_key 4 hdr []; mret (hdr, Some key) else mret (hdr, None));
  mret (mkFrame (mkHeader (bit b0 7) (bit b0 6, bit b0 5, bit b0 4) (Z.land b0 0x0f) Length key hdr) Length 0 (i64 (len hdr + Length))).

(** The bytes of a frame, unmasked from position [pos] on; [None] when the key
    is indexed out of range. *)
Fixpoint unmask (key : bytes) (pos : Z) (s : bytes) : option bytes :=
  match s with
  | [] => Some []
  | b :: s => k ← at_ key (Z.rem pos 4); s ← unmask key (i64 (pos + 1)) s; Some (Z.lxor b k :: s)
  end.

(** [io.LimitedReader]. *)
Definition limit_Read (k n : Z) (r : reader) : bytes * option ws_error * Z * reader :=
  if n <=? 0 then ([], Some EOF, n, r)
  else let '(d, e, r) := buf_Read (if n <? k then n else k) r in (d, e, n - len d, r).

(** [Read] of a [hybiFrameReader] into [k] bytes. *)
Definition frame_Read (k : Z) (f : hybiFrameReader) (r : reader) : option (bytes * option ws_error * hybiFrameReader * reader) :=
  let '(d, e, n, r) := limit_Read k (limit f) r in
  match MaskingKey (header f) with
  | Some key => d' ← unmask key (pos f) d; Some (d', e, mkFrame (header f) n (i64 (pos f + len d)) (length_ f), r)
  | None => Some (d, e, mkFrame (header f) n (pos f) (length_ f), r)
  end.

(** [HeaderReader] and the [io.Copy] that empties it. *)
Definition drop_header (f : hybiFrameReader) : hybiFrameReader := set_data [] f.

(** The loops of [io.Copy] to [ioutil.Discard] and of [ioutil.ReadAll]: calls of
    [Read] with [k] bytes up to the first error. A call that gives no byte is the
    last; the [fuel] is one more than the bytes that can come. *)
Fixpoint io_ReadAll (fuel : nat) (k : Z) (f : hybiFrameReader) (r : reader) (acc : bytes) :
    option (bytes * option ws_error * hybiFrameReader * reader) :=
  match fuel with
  | O => None
  | S fuel =>
      '(d, e, f, r) ← frame_Read k f r;
      match e with
      | Some EOF => Some (acc ++ d, None, f, r)
      | Some e => Some (acc ++ d, Some e, f, r)
      | None => io_ReadAll fuel k f r (acc ++ d)
      end
  end.

Definition all_fuel (r : reader) : nat := S (length (concat (pieces r))).

(** [io.ReadFull] into [k] bytes. *)
Fixpoint io_ReadFull (fuel : nat) (k : Z) (f : hybiFrameReader) (r : reader) (acc : bytes) :
    option (bytes * option ws_error * hybiFrameReader * reader) :=
  if k <=? len acc then Some (acc, None, f, r)
  else
    match fuel with
    | O => None
    | S fuel =>
        '(d, e, f, r) ← frame_Read (k - len acc) f r;
        let acc := acc ++ d in
        match e with
        | None => io_ReadFull fuel k f r acc
        | Some e =>
            if k <=? len acc then Some (acc, None, f, r)
            else Some (acc, Some (if (0 <? len acc) && bool_decide (e = EOF) then ErrUnexpectedEOF else e), f, r)
        end
    end.

(** * Writing *)

Definition generateMaskingKey (keys : list (option bytes)) : (ws_error + bytes) * list (option bytes) :=
  match keys with
  | Some k :: keys => (inr k, keys)
  | None :: keys => (inl ErrRand, keys)
  | [] => (inl ErrRand, [])
  end.

(** The payload under the key; [None] when the key is indexed out of range. *)
Fixpoint mask_bytes (key : bytes) (i : Z) (msg : bytes) : option bytes :=
  match msg with
  | [] => Some []
  | b :: msg => k ← at_ key (Z.rem i 4); d ← mask_bytes key (i + 1) msg; Some (Z.lxor b k :: d)
  end.

Definition first_header_byte (h : hybiFrameHeader) : Z :=
  let '(r0, r1, r2) := Rsv h in
  let b := 0 in
  let b := if Fin h then Z.lor b 0x80 else b in
  let b := if (r0 : bool) then Z.lor b (Z.shiftl 1 6) else b in
  let b := if (r1 : bool) then Z.lor b (Z.shiftl 1 5) else b in
  let b := if (r2 : bool) then Z.lor b (Z.shiftl 1 4) else b in
  Z.lor b (OpCode h).

Definition length_bytes (lengthFields length : Z) : bytes :=
  (fun i => u8 (Z.land (Z.shiftr length ((lengthFields - i - 1) * 8)) 0xff)) <$> seqZ 0 lengthFields.

(** [Write] of a [hybiFrameWriter]: the length and the error, and the writer. *)
Definition frame_Write (h : hybiFrameHeader) (msg : bytes) (w : writer) : option (Z * option ws_error * writer) :=
  let b := if MaskingKey h is Some _ then 0x80 else 0 in
  let length := len msg in
  let '(b, lengthFields) :=
    if length <=? 125 then (Z.lor b (u8 length), 0)
    else if length <? 65536 then (Z.lor b 126, 2)
    else (Z.lor b 127, 8) in
  let hdr := [first_header_byte h; b] ++ length_bytes lengthFields length in
  match MaskingKey h with
  | Some key =>
      if negb (len key =? 4) then Some (0, Some ErrBadMaskingKey, w)
      else
        let w := buf_Write (hdr ++ key) w in
        d ← mask_bytes key 0 msg;
        let w := buf_Write d w in
        let '(e, w) := buf_Flush w in
        Some (length, e, w)
  | None =>
      let w := buf_Write hdr w in
      let w := buf_Write msg w in
      let '(e, w) := buf_Flush w in
      Some (length, e, w)
  end.

(** [NewFrameWriter]: the header of the frame it writes. *)
Definition NewFrameWriter (needMaskingKey : bool) (payloadType : Z) (keys : list (option bytes)) :
    (ws_error + hybiFrameHeader) * list (option bytes) :=
  let frameHeader key := mkHeader true (false, false, false) payloadType 0 key [] in
  if needMaskingKey then
    let '(k, keys) := generateMaskingKey keys in
    match k with inl e => (inl e, keys) | inr k => (inr (frameHeader (Some k)), keys) end
  else (inr (frameHeader None), keys).

(** * Hosts *)

(** Removes the IPv6 zone identifier of a host. *)
Definition removeZone (host : bytes) : bytes :=
  match host with
  | b :: _ =>
      if b =? chr "[" then
        let i := last_index host (chr "]") in
        if i <? 0 then host
        else
          let j := last_index (upto i host) (chr "%") in
          if j <? 0 then host else upto j host ++ from i host
      else host
  | [] => host
  end.

Example removeZone_test : removeZone (str "[fe80::1%en0]:8080") = str "[fe80::1]:8080".
Proof. reflexivity. Qed.
