(* ===== verification/WsConn.v ===== *)
(** WebSocket connections: [websocket/websocket.go], and the frame handler of
    [websocket/hybi.go]. *)
From S2P Require Import Prelude GoStrings WsHybi.

Definition DefaultMaxPayloadBytes : Z := Z.shiftl 32 20.

(** The connection that [newHybiConn] makes. [is_server] says that there is a
    request; [handler_type] is the [payloadType] of its frame handler, [keys]
    what [crypto/rand] will give, and [close_err] what closing the network
    connection returns. *)
Record Conn := mkConn {
  is_server : bool;
  rd : reader;
  frameReader : option hybiFrameReader;
  wr : writer;
  keys : list (option bytes);
  handler_type : Z;
  PayloadType : Z;
  defaultCloseStatus : Z;
  MaxPayloadBytes : Z;
  closed : bool;
  close_err : option ws_error }.

Definition newHybiConn (server : bool) (r : reader) (w : writer) (ks : list (option bytes)) (ce : option ws_error) : Conn :=
  mkConn server r None w ks 0 TextFrame closeStatusNormal 0 false ce.

Definition set_rd (r : reader) (c : Conn) : Conn :=
  mkConn (is_server c) r (frameReader c) (wr c) (keys c) (handler_type c) (PayloadType c) (defaultCloseStatus c) (MaxPayloadBytes c) (closed c) (close_err c).
Definition set_frameReader (f : option hybiFrameReader) (c : Conn) : Conn :=
  mkConn (is_server c) (rd c) f (wr c) (keys c) (handler_type c) (PayloadType c) (defaultCloseStatus c) (MaxPayloadBytes c) (closed c) (close_err c).
Definition set_wr (w : writer) (ks : list (option bytes)) (c : Conn) : Conn :=
  mkConn (is_server c) (rd c) (frameReader c) w ks (handler_type c) (PayloadType c) (defaultCloseStatus c) (MaxPayloadBytes c) (closed c) (close_err c).
Definition set_handler_type (t : Z) (c : Conn) : Conn :=
  mkConn (is_server c) (rd c) (frameReader c) (wr c) (keys c) t (PayloadType c) (defaultCloseStatus c) (MaxPayloadBytes c) (closed c) (close_err c).
Definition set_PayloadType (t : Z) (c : Conn) : Conn :=
  mkConn (is_server c) (rd c) (frameReader c) (wr c) (keys c) (handler_type c) t (defaultCloseStatus c) (MaxPayloadBytes c) (closed c) (close_err c).
Definition set_MaxPayloadBytes (n : Z) (c : Conn) : Conn :=
  mkConn (is_server c) (rd c) (frameReader c) (wr c) (keys c) (handler_type c) (PayloadType c) (defaultCloseStatus c) n (closed c) (close_err c).
Definition set_closed (c : Conn) : Conn :=
  mkConn (is_server c) (rd c) (frameReader c) (wr c) (keys c) (handler_type c) (PayloadType c) (defaultCloseStatus c) (MaxPayloadBytes c) true (close_err c).

Definition IsServerConn (c : Conn) : bool := is_server c.
Definition IsClientConn (c : Conn) : bool := negb (is_server c).

(** * Writing *)

(** [NewFrameWriter] and [Write] on what it returns: a client masks. *)
Definition write_frame (payloadType : Z) (msg : bytes) (c : Conn) : option (Z * option ws_error * Conn) :=
  let '(h, ks) := NewFrameWriter (IsClientConn c) payloadType (keys c) in
  match h with
  | inl e => Some (0, Some e, set_wr (wr c) ks c)
  | inr h => '(n, e, w) ← frame_Write h msg (wr c); Some (n, e, set_wr w ks c)
  end.

(** [Write] of a [Conn]. *)
Definition Conn_Write (msg : bytes) (c : Conn) : option (Z * option ws_error * Conn) := write_frame (PayloadType c) msg c.

Definition WriteClose (status : Z) (c : Conn) : option (option ws_error * Conn) :=
  '(_, e, c) ← write_frame CloseFrame (be_put 2 (u16 status)) c; Some (e, c).

Definition WritePong (msg : bytes) (c : Conn) : option (Z * option ws_error * Conn) := write_frame PongFrame msg c.

(** [Close] of a [Conn]. *)
Definition Conn_Close (c : Conn) : option (option ws_error * Conn) :=
  '(e, c) ← WriteClose (defaultCloseStatus c) c;
  let c := set_closed c in
  Some (match e with Some e => Some e | None => close_err c end, c).

(** * The frame handler *)

(** The frame that is left to read, if there is one, and an error. *)
Definition HandleFrame (f : hybiFrameReader) (c : Conn) : option (option hybiFrameReader * option ws_error * Conn) :=
  let masked := if MaskingKey (header f) is Some _ then true else false in
  if negb (Bool.eqb masked (IsServerConn c)) then
    '(_, c) ← WriteClose closeStatusProtocolError c;
    Some (None, Some EOF, c)
  else
    let f := drop_header f in
    let t := OpCode (header f) in
    if t =? ContinuationFrame then Some (Some (set_OpCode (handler_type c) f), None, c)
    else if (t =? TextFrame) || (t =? BinaryFrame) then Some (Some f, None, set_handler_type t c)
    else if t =? CloseFrame then Some (None, Some EOF, c)
    else if (t =? PingFrame) || (t =? PongFrame) then
      '(b, e, f, r) ← io_ReadFull (Z.to_nat maxControlFramePayloadLength) maxControlFramePayloadLength f (rd c) [];
      if negb (bool_decide (e = None)) && negb (bool_decide (e = Some EOF)) && negb (bool_decide (e = Some ErrUnexpectedEOF)) then Some (None, e, set_rd r c)
      else
        '(_, _, _, r) ← io_ReadAll (all_fuel r) 8192 f r [];
        let c := set_rd r c in
        if t =? PingFrame then
          '(_, e, c) ← WritePong b c;
          Some (None, e, c)
        else Some (None, None, c)
    else Some (Some f, None, c).

(** * Reading *)

(** The loop at [again] of [Read] and of [Receive]: frames are read up to the
    first for the caller. A round that goes on has read a header. *)
Fixpoint next_frame (fuel : nat) (c : Conn) : option (ws_error + hybiFrameReader) * Conn :=
  match fuel with
  | O => (None, c)
  | S fuel =>
      let '(f, r) := NewFrameReader (rd c) in
      let c := set_rd r c in
      match f with
      | inl e => (Some (inl e), c)
      | inr f =>
          match HandleFrame f c with
          | None => (None, c)
          | Some (_, Some e, c) => (Some (inl e), c)
          | Some (Some f, None, c) => (Some (inr f), c)
          | Some (None, None, c) => next_frame fuel c
          end
      end
  end.

(** [Read] of a [Conn] into [k] bytes. *)
Fixpoint Conn_Read (fuel : nat) (k : Z) (c : Conn) : option (bytes * option ws_error * Conn) :=
  match fuel with
  | O => None
  | S fuel =>
      let '(f, c) := match frameReader c with Some f => (Some (inr f), c) | None => next_frame (all_fuel (rd c)) c end in
      match f with
      | None => None
      | Some (inl e) => Some ([], Some e, set_frameReader None c)
      | Some (inr f) =>
          '(d, e, f, r) ← frame_Read k f (rd c);
          let c := set_frameReader (Some f) (set_rd r c) in
          if bool_decide (e = Some EOF) then Conn_Read fuel k (set_frameReader None c)
          else Some (d, e, c)
      end
  end.
Definition read_fuel (c : Conn) : nat := S (all_fuel (rd c)).

(** * Codecs *)

(** A value, by its Go type, and the target of [Unmarshal]. *)
Inductive value := VString (s : bytes) | VBytes (b : bytes) | VOther.
Inductive target := TString | TBytes | TOther.

Record Codec := mkCodec {
  Marshal : value -> (ws_error + (bytes * Z));
  Unmarshal : bytes -> Z -> target -> (ws_error + value) }.

Definition marshal (v : value) : ws_error + (bytes * Z) :=
  match v with
  | VString s => inr (s, TextFrame)
  | VBytes b => inr (b, BinaryFrame)
  | VOther => inl ErrNotSupported
  end.

Definition unmarshal (msg : bytes) (payloadType : Z) (t : target) : ws_error + value :=
  match t with
  | TString => inr (VString msg)
  | TBytes => inr (VBytes msg)
  | TOther => inl ErrNotSupported
  end.

Definition Message : Codec := mkCodec marshal unmarshal.

Definition Send (cd : Codec) (v : value) (c : Conn) : option (option ws_error * Conn) :=
  match Marshal cd v with
  | inl e => Some (Some e, c)
  | inr (d, t) => '(_, e, c) ← write_frame t d c; Some (e, c)
  end.

(** What is left of the frame of an earlier call is read and dropped. *)
Definition discard_frame (c : Conn) : option (option ws_error * Conn) :=
  match frameReader c with
  | None => Some (None, c)
  | Some f =>
      '(_, e, f, r) ← io_ReadAll (all_fuel (rd c)) 8192 f (rd c) [];
      let c := set_rd r c in
      match e with
      | Some e => Some (Some e, set_frameReader (Some f) c)
      | None => Some (None, set_frameReader None c)
      end
  end.

Definition Receive (cd : Codec) (t : target) (c : Conn) : option ((ws_error + value) * Conn) :=
  '(e, c) ← discard_frame c;
  match e with
  | Some e => Some (inl e, c)
  | None =>
      let '(f, c) := next_frame (all_fuel (rd c)) c in
      match f with
      | None => None
      | Some (inl e) => Some (inl e, c)
      | Some (inr f) =>
          let maxPayloadBytes := if MaxPayloadBytes c =? 0 then DefaultMaxPayloadBytes else MaxPayloadBytes c in
          if maxPayloadBytes <? Length (header f) then Some (inl ErrFrameTooLarge, set_frameReader (Some f) c)
          else
            '(d, e, f, r) ← io_ReadAll (all_fuel (rd c)) 512 f (rd c) [];
            let c := set_rd r c in
            match e with
            | Some e => Some (inl e, c)
            | None => Some (Unmarshal cd d (OpCode (header f)) t, c)
            end
      end
  end.
