(* ===== verification/WsStream.v ===== *)
(** What a reader gives does not depend on the pieces in which the bytes come;
    frames are read back: [websocket/hybi.go]. *)
From S2P Require Import Prelude GoStrings WsHybi.

(** * Bytes to come *)

Definition stream (r : reader) : bytes := concat (pieces r).

Lemma concat_after s ps : concat (after s ps) = s ++ concat ps.
Proof. by destruct s. Qed.

Lemma next_stream ps : match next ps with None => concat ps = [] | Some (b, p, ps') => concat ps = b :: p ++ concat ps' end.
Proof. induction ps as [|[|b p] ps IH]; [done|exact IH|done]. Qed.

Lemma ReadByte_some r b s : stream r = b :: s -> exists r', ReadByte r = (inr b, r') /\ stream r' = s /\ fin r' = fin r.
Proof.
  intros H. unfold ReadByte, stream in *. pose proof (next_stream (pieces r)) as Hn. destruct (next (pieces r)) as [[[b' p] ps]|]; [|congruence].
  rewrite H in Hn. injection Hn as -> ->. eexists. split; [done|]. cbn. by rewrite concat_after.
Qed.

Lemma ReadByte_none r : stream r = [] -> ReadByte r = (inl (fin r), r).
Proof.
  intros H. unfold ReadByte, stream in *. pose proof (next_stream (pieces r)) as Hn. destruct (next (pieces r)) as [[[b' p] ps]|]; [congruence|done].
Qed.

Lemma upto_split {A} k (l : list A) : l = upto k l ++ from k l.
Proof. symmetry. apply upto_from. Qed.

(** A call of [Read] gives a part of what is to come, or the error at the end. *)
Lemma buf_Read_cases k r : 0 < k ->
  (stream r = [] /\ buf_Read k r = ([], Some (fin r), r)) \/
  exists d r', buf_Read k r = (d, None, r') /\ stream r = d ++ stream r' /\ fin r' = fin r /\ 0 < len d <= k.
Proof.
  intros Hk. unfold buf_Read, stream. rewrite (proj2 (Z.eqb_neq k 0)) by lia. pose proof (next_stream (pieces r)) as Hn. destruct (next (pieces r)) as [[[b p] ps]|]; [right|by left].
  eexists _, _. split; [reflexivity|]. cbn [pieces fin]. rewrite concat_after, app_assoc, upto_from. split; [done|]. split; [done|].
  unfold upto, len. rewrite length_take. cbn [length]. lia.
Qed.

(** * Masks *)

Definition key_at (key : bytes) (i : Z) : Z := default 0 (at_ key (i mod 4)).

(** The bytes of a payload under the key, from position [i] on. *)
Fixpoint xor_at (key : bytes) (i : Z) (s : bytes) : bytes :=
  match s with [] => [] | b :: s => Z.lxor b (key_at key i) :: xor_at key (i + 1) s end.

Lemma key_in_range key i : len key = 4 -> 0 <= i -> at_ key (Z.rem i 4) = Some (key_at key i).
Proof.
  intros Hk Hi. unfold key_at. rewrite Z.rem_mod_nonneg by lia. pose proof (Z.mod_pos_bound i 4 ltac:(lia)) as Hm.
  destruct (at_ key (i mod 4)) as [x|] eqn:E; [done|]. unfold at_ in E. rewrite decide_True in E by lia. apply lookup_ge_None in E. unfold len in Hk. lia.
Qed.

Lemma xor_at_twice key i s : xor_at key i (xor_at key i s) = s.
Proof. revert i. induction s as [|b s IH]; intros i; [done|]. cbn. by rewrite Z.lxor_assoc, Z.lxor_nilpotent, Z.lxor_0_r, IH. Qed.

Lemma xor_at_length key i s : length (xor_at key i s) = length s.
Proof. revert i. induction s as [|b s IH]; intros i; [done|]. cbn. by rewrite IH. Qed.

Lemma xor_at_len key i s : len (xor_at key i s) = len s.
Proof. unfold len. by rewrite xor_at_length. Qed.

Lemma xor_at_app key i s t : xor_at key i (s ++ t) = xor_at key i s ++ xor_at key (i + len s) t.
Proof.
  revert i. induction s as [|b s IH]; intros i; cbn [app xor_at]; [by change (len (@nil Z)) with 0; rewrite Z.add_0_r|].
  rewrite IH, len_cons. do 3 f_equal. lia.
Qed.

Lemma mask_bytes_xor key i s : len key = 4 -> 0 <= i -> mask_bytes key i s = Some (xor_at key i s).
Proof.
  intros Hk. revert i. induction s as [|b s IH]; intros i Hi; [done|]. cbn [mask_bytes]. rewrite key_in_range by done. cbn [mbind option_bind].
  rewrite IH by lia. done.
Qed.

Lemma unmask_xor key i s : len key = 4 -> 0 <= i -> i + len s < 2 ^ 63 -> unmask key i s = Some (xor_at key i s).
Proof.
  intros Hk. revert i. induction s as [|b s IH]; intros i Hi Hl; [done|]. rewrite len_cons in Hl. pose proof (len_nonneg s). cbn [unmask]. rewrite key_in_range by done. cbn [mbind option_bind].
  rewrite i64_id by lia. rewrite IH by lia. done.
Qed.

Lemma xor_at_take key i k s : xor_at key i (take k s) = take k (xor_at key i s).
Proof. revert i s. induction k as [|k IH]; intros i [|b s]; [done..|]. cbn. by rewrite IH. Qed.

(** A payload under the key of a frame, if it has one. *)
Definition masked (key : option bytes) (i : Z) (s : bytes) : bytes := match key with Some k => xor_at k i s | None => s end.
Definition key_ok (key : option bytes) : Prop := match key with Some k => len k = 4 | None => True end.

Lemma masked_twice key i s : masked key i (masked key i s) = s.
Proof. destruct key; [apply xor_at_twice|done]. Qed.
Lemma masked_len key i s : len (masked key i s) = len s.
Proof. destruct key; [apply xor_at_len|done]. Qed.
Lemma masked_app key i s t : masked key i (s ++ t) = masked key i s ++ masked key (i + len s) t.
Proof. destruct key; [apply xor_at_app|done]. Qed.

Lemma masked_upto key i n s : masked key i (upto n s) = upto n (masked key i s).
Proof. destruct key; [apply xor_at_take|done]. Qed.

(** * Frames in progress *)

(** What [NewFrameReader] and [Read] keep of a frame. *)
Record frame_ok (f : hybiFrameReader) : Prop := mkFrameOk {
  fo_key : key_ok (MaskingKey (header f));
  fo_pos : 0 <= pos f;
  fo_limit : 0 <= limit f;
  fo_sum : pos f + limit f < 2 ^ 63 }.

(** The frame after [n] more bytes of its payload. *)
Definition advance (n : Z) (f : hybiFrameReader) : hybiFrameReader :=
  mkFrame (header f) (limit f - n) (if MaskingKey (header f) is Some _ then pos f + n else pos f) (length_ f).

Lemma frame_Read_cases k f r : frame_ok f -> 0 < k ->
  (limit f = 0 /\ frame_Read k f r = Some ([], Some EOF, f, r)) \/
  (0 < limit f /\ stream r = [] /\ frame_Read k f r = Some ([], Some (fin r), f, r)) \/
  exists d r', frame_Read k f r = Some (masked (MaskingKey (header f)) (pos f) d, None, advance (len d) f, r') /\
    stream r = d ++ stream r' /\ fin r' = fin r /\ 0 < len d <= k /\ len d <= limit f.
Proof.
  intros [Hkey Hp Hl Hs] Hk. unfold frame_Read, limit_Read. destruct (Z.leb_spec (limit f) 0).
  { left. assert (limit f = 0) as E by lia. split; [done|]. change (len (@nil Z)) with 0. rewrite Z.add_0_r.
    destruct f as [[? ? ? ? key ?] n p l]; cbn [header limit pos length_ MaskingKey] in *. destruct key; cbn; rewrite ?i64_id by lia; done. }
  right. set (k' := if limit f <? k then limit f else k). assert (Hk' : 0 < k' <= k /\ k' <= limit f) by (unfold k'; z_cases; lia).
  destruct (buf_Read_cases k' r ltac:(lia)) as [[E1 E2]|(d & r' & E & Es & Ef & Hd)].
  - left. split; [done|]. split; [done|]. rewrite E2. change (len (@nil Z)) with 0. rewrite Z.add_0_r, Z.sub_0_r.
    destruct f as [[? ? ? ? key ?] n p l]; cbn [header limit pos length_ MaskingKey] in *. destruct key; cbn; rewrite ?i64_id by lia; done.
  - right. exists d, r'. rewrite E. unfold advance. destruct (MaskingKey (header f)) as [key|] eqn:Ek; cbn [masked].
    + rewrite (unmask_xor key (pos f) d) by (try done; lia). cbn [mbind option_bind]. rewrite i64_id by lia. repeat split; try done; lia.
    + repeat split; try done; lia.
Qed.

Lemma advance_ok n f : frame_ok f -> 0 <= n <= limit f -> frame_ok (advance n f).
Proof. intros [Hkey Hp Hl Hs] Hn. unfold advance. constructor; cbn [header limit pos]; [done|destruct (MaskingKey _); lia..]. Qed.

(** The error at the end of the bytes, as [io.Copy] and [ioutil.ReadAll] see it. *)
Definition short_error (f : hybiFrameReader) (r : reader) : option ws_error :=
  if limit f <=? len (stream r) then None else if bool_decide (fin r = EOF) then None else Some (fin r).

Lemma len_upto_min {A} n (l : list A) : 0 <= n -> len (upto n l) = Z.min n (len l).
Proof. intros H. unfold len, upto. rewrite length_take. lia. Qed.

Lemma from_from {A} m n (l : list A) : 0 <= m -> 0 <= n -> from n (from m l) = from (m + n) l.
Proof. intros. unfold from. rewrite drop_drop. f_equal. lia. Qed.

Lemma upto_0 {A} (l : list A) : upto 0 l = [].
Proof. done. Qed.
Lemma from_0 {A} (l : list A) : from 0 l = l.
Proof. done. Qed.

Lemma upto_app_ge {A} n (l k : list A) : len l <= n -> upto n (l ++ k) = l ++ upto (n - len l) k.
Proof. intros H. unfold upto, len in *. rewrite take_app_ge by lia. do 2 f_equal. lia. Qed.
Lemma from_app_ge {A} n (l k : list A) : len l <= n -> from n (l ++ k) = from (n - len l) k.
Proof. intros H. unfold from, len in *. rewrite drop_app_ge by lia. f_equal. lia. Qed.

Lemma advance_masked f d s : masked (MaskingKey (header f)) (pos f) d ++ masked (MaskingKey (header f)) (pos (advance (len d) f)) s =
  masked (MaskingKey (header f)) (pos f) (d ++ s).
Proof. rewrite masked_app. unfold advance. cbn [pos]. by destruct (MaskingKey (header f)). Qed.

Lemma advance_advance m n f : advance n (advance m f) = advance (m + n) f.
Proof. unfold advance. cbn [header limit pos length_]. f_equal; [lia|]. destruct (MaskingKey _); lia. Qed.

Lemma io_ReadAll_spec fuel k f r acc : frame_ok f -> 0 < k -> (length (stream r) < fuel)%nat ->
  exists f' r', io_ReadAll fuel k f r acc = Some (acc ++ masked (MaskingKey (header f)) (pos f) (upto (limit f) (stream r)), short_error f r, f', r') /\
    stream r' = from (limit f) (stream r) /\ fin r' = fin r /\ header f' = header f /\ frame_ok f'.
Proof.
  revert f r acc. induction fuel as [|fuel IH]; intros f r acc Hf Hk Hfuel; [lia|]. cbn [io_ReadAll].
  destruct (frame_Read_cases k f r Hf Hk) as [[E0 E]|[(Hl & Es & E)|(d & r1 & E & Es & Ef & Hd & Hdl)]]; rewrite E; cbn [mbind option_bind].
  - exists f, r. unfold short_error. rewrite E0, upto_0, from_0, (proj2 (Z.leb_le _ _)) by apply len_nonneg. destruct (MaskingKey (header f)); cbn; by rewrite ?app_nil_r.
  - exists f, r. unfold short_error. rewrite Es. unfold upto, from. rewrite take_nil, drop_nil. change (len (@nil Z)) with 0. rewrite (proj2 (Z.leb_gt _ _)) by lia.
    destruct (MaskingKey (header f)); cbn [masked xor_at]; rewrite ?app_nil_r; destruct (fin r); cbn [bool_decide]; try done.
  - assert (Hlen : (length (stream r1) < fuel)%nat) by (rewrite Es, length_app in Hfuel; unfold len in Hd; lia).
    destruct (IH (advance (len d) f) r1 (acc ++ masked (MaskingKey (header f)) (pos f) d) (advance_ok (len d) _ Hf ltac:(lia)) Hk Hlen) as (f' & r' & E' & Es' & Ef' & Eh & Hok).
    exists f', r'. rewrite E'. change (header (advance (len d) f)) with (header f) in *. change (limit (advance (len d) f)) with (limit f - len d) in *.
    rewrite <- app_assoc, advance_masked, Es, upto_app_ge, from_app_ge, <- Es' by lia. rewrite Ef', Ef, Eh. split; [|done]. do 4 f_equal.
    unfold short_error. rewrite Ef, Es, len_app. change (limit (advance (len d) f)) with (limit f - len d). z_cases; try lia; done.
Qed.

(** How [io.ReadFull] can end. *)
Definition full_error (f : hybiFrameReader) (r : reader) (e : option ws_error) : Prop :=
  e = None \/ e = Some EOF \/ e = Some ErrUnexpectedEOF \/ e = Some (fin r) /\ len (stream r) < limit f.

Lemma advance_0 f : advance 0 f = f.
Proof. destruct f as [h n p l]. unfold advance. cbn [header limit pos length_]. f_equal; [lia|]. destruct (MaskingKey h); lia. Qed.

Lemma masked_nil key i : masked key i [] = [].
Proof. by destruct key. Qed.

Lemma upto_nil {A} n : upto n (@nil A) = [].
Proof. apply take_nil. Qed.

(** [io.ReadFull] stops at [k] bytes or at the end of the frame or of the
    connection. *)
Lemma io_ReadFull_spec fuel k f r acc : frame_ok f -> len acc <= k -> k - len acc <= Z.of_nat fuel ->
  exists e f' r', io_ReadFull fuel k f r acc = Some (acc ++ masked (MaskingKey (header f)) (pos f) (upto (k - len acc) (upto (limit f) (stream r))), e, f', r') /\
    let n := len (upto (k - len acc) (upto (limit f) (stream r))) in
    stream r' = from n (stream r) /\ fin r' = fin r /\ f' = advance n f /\ full_error f r e.
Proof.
  assert (Hstop : forall e s, s = [] -> full_error f r e -> exists e' f' r', Some (acc, e, f, r) = Some (acc ++ masked (MaskingKey (header f)) (pos f) s, e', f', r') /\
    stream r' = from (len s) (stream r) /\ fin r' = fin r /\ f' = advance (len s) f /\ full_error f r e').
  { intros e s -> He. exists e, f, r. change (len (@nil Z)) with 0. by rewrite masked_nil, app_nil_r, from_0, advance_0. }
  revert f r acc Hstop. induction fuel as [|fuel IH]; intros f r acc Hstop Hf Ha Hfuel; cbn [io_ReadFull]; cbn zeta.
  - rewrite (proj2 (Z.leb_le _ _)) by lia. apply Hstop; [|by left]. by replace (k - len acc) with 0 by lia.
  - destruct (Z.leb_spec k (len acc)). { apply Hstop; [|by left]. by replace (k - len acc) with 0 by lia. }
    destruct (frame_Read_cases (k - len acc) f r Hf ltac:(lia)) as [[E0 E]|[(Hl & Es & E)|(d & r1 & E & Es & Ef & Hd & Hdl)]]; rewrite E; cbn [mbind option_bind]; rewrite ?app_nil_r.
    + rewrite (proj2 (Z.leb_gt _ _)) by lia. apply Hstop; [by rewrite E0, upto_0, upto_nil|]. unfold full_error. destruct (_ && _); tauto.
    + rewrite (proj2 (Z.leb_gt _ _)) by lia. apply Hstop; [by rewrite Es, !upto_nil|]. unfold full_error. rewrite Es. change (len (@nil Z)) with 0. destruct (_ && _); tauto.
    + destruct (IH (advance (len d) f) r1 (acc ++ masked (MaskingKey (header f)) (pos f) d)) as (e & f' & r' & E' & Es' & Ef' & Eadv & He).
      * intros e s -> He. exists e, (advance (len d) f), r1. change (len (@nil Z)) with 0. by rewrite masked_nil, app_nil_r, from_0, advance_0.
      * by apply advance_ok; [|lia].
      * rewrite len_app, masked_len. lia.
      * rewrite len_app, masked_len. lia.
      * exists e, f', r'. rewrite E'. change (header (advance (len d) f)) with (header f) in *. change (limit (advance (len d) f)) with (limit f - len d) in *.
        rewrite len_app, masked_len in *. replace (k - (len acc + len d)) with (k - len acc - len d) in * by lia.
        rewrite <- app_assoc, advance_masked, Es, !(upto_app_ge (limit f)), !(upto_app_ge (k - len acc)), len_app by lia. split; [done|].
        rewrite Es', Ef', Eadv, Ef, advance_advance, from_app_ge by (pose proof (len_nonneg (upto (k - len acc - len d) (upto (limit f - len d) (stream r1)))); lia).
        split; [f_equal; lia|]. split; [done|]. split; [done|]. destruct He as [?|[?|[?|[He ?]]]]; unfold full_error; rewrite ?Es, ?len_app; [tauto..|]. right; right; right. rewrite He, Ef. change (limit (advance (len d) f)) with (limit f - len d) in *. split; [done|lia].
Qed.

(** * Frames on the wire *)

(** The bytes of a frame with the whole of [msg] as its payload. *)
Definition frame_bytes (h : hybiFrameHeader) (msg : bytes) : bytes :=
  let length := len msg in
  let m := if MaskingKey h is Some _ then 0x80 else 0 in
  let l := if length <=? 125 then [m + length] else if length <? 65536 then (m + 126) :: be_put 2 length else (m + 127) :: be_put 8 length in
  first_header_byte h :: l ++ default [] (MaskingKey h) ++ masked (MaskingKey h) 0 msg.

Lemma u8_land x : u8 (Z.land x 0xff) = u8 x.
Proof. unfold u8, wrap. change 0xff with (Z.ones 8). by rewrite Z.land_ones, Z.mod_mod by lia. Qed.

Lemma length_bytes_put n : length_bytes 2 n = be_put 2 n /\ length_bytes 8 n = be_put 8 n.
Proof.
  unfold length_bytes. change (seqZ 0 2) with [0; 1]. change (seqZ 0 8) with [0; 1; 2; 3; 4; 5; 6; 7].
  cbn [fmap list_fmap]. rewrite !u8_land. done.
Qed.

(** The second byte of a frame. *)
Lemma second_byte (m : bool) n : 0 <= n < 128 -> let b := Z.lor (if m then 0x80 else 0) n in
  b = (if m then 0x80 else 0) + n /\ negb (Z.land b 0x80 =? 0) = m /\ Z.land b 0x7f = n.
Proof.
  intros Hn. assert (H : Forall (fun n => forall m : bool, let b := Z.lor (if m then 0x80 else 0) n in
    b = (if m then 0x80 else 0) + n /\ negb (Z.land b 0x80 =? 0) = m /\ Z.land b 0x7f = n) (seqZ 0 128)).
  { repeat (apply Forall_cons; split; [by intros []|]). by apply Forall_nil. }
  by apply (proj1 (Forall_forall _ _) H n ltac:(apply elem_of_seqZ; lia)).
Qed.

(** Writing a frame to a connection that takes everything. *)
Definition open_writer (w : writer) : Prop := room w = None /\ werr w = false /\ wbuf w = [].

Lemma frame_Write_spec h msg w : key_ok (MaskingKey h) -> open_writer w ->
  frame_Write h msg w = Some (len msg, None, mkWriter [] (sent w ++ frame_bytes h msg) None false).
Proof.
  intros Hkey (Hr & He & Hb). destruct w as [b s rm er]; cbn [room werr wbuf sent] in *; subst b rm er. unfold frame_Write, frame_bytes.
  pose proof (len_nonneg msg) as Hn. set (has := if MaskingKey h is Some _ then true else false).
  replace (if MaskingKey h is Some _ then 128 else 0) with (if has then 128 else 0) by (unfold has; by destruct (MaskingKey h)).
  set (hl := if len msg <=? 125 then (Z.lor _ (u8 _), 0) else _). set (l := if len msg <=? 125 then [_] else _).
  assert (E : (let '(b, f) := hl in [first_header_byte h; b] ++ length_bytes f (len msg)) = first_header_byte h :: l).
  { unfold hl, l. destruct (Z.leb_spec (len msg) 125); [|destruct (Z.ltb_spec (len msg) 65536)]; cbn [app].
    - unfold u8. rewrite wrap_id by (unfold in_width; lia). by rewrite (proj1 (second_byte has (len msg) ltac:(lia))).
    - rewrite (proj1 (second_byte has 126 ltac:(lia))). by rewrite (proj1 (length_bytes_put _)).
    - rewrite (proj1 (second_byte has 127 ltac:(lia))). by rewrite (proj2 (length_bytes_put _)). }
  destruct hl as [b f]. cbn zeta. unfold buf_Write, buf_Flush. cbn [werr wbuf sent room]. destruct (MaskingKey h) as [key|]; cbn [default from_option masked key_ok] in *.
  - rewrite (proj2 (Z.eqb_eq _ _) Hkey). cbn [negb]. rewrite mask_bytes_xor by (done || lia). cbn [mbind option_bind werr wbuf sent room]. rewrite E. cbn [app]. by rewrite <- !app_assoc.
  - cbn [werr wbuf sent room]. rewrite E. cbn [app]. done.
Qed.

Lemma parse_step {A B} (m : parse A) (f : A -> parse B) r a r' : m r = (inr a, r') -> (m ≫= f) r = f a r'.
Proof. intros H. unfold mbind, parse_bind. by rewrite H. Qed.

Lemma parse_stop {A B} (m : parse A) (f : A -> parse B) r e r' : m r = (inl e, r') -> (m ≫= f) r = (inl e, r').
Proof. intros H. unfold mbind, parse_bind. by rewrite H. Qed.

Lemma first_byte_bits h : 0 <= OpCode h < 16 ->
  let b := first_header_byte h in bit b 7 = Fin h /\ (bit b 6, bit b 5, bit b 4) = Rsv h /\ Z.land b 0x0f = OpCode h.
Proof.
  intros Ho. unfold first_header_byte. destruct (Rsv h) as [[r0 r1] r2]. assert (H : Forall (fun o => forall f r0 r1 r2 : bool,
    let b := Z.lor (if r2 then Z.lor (if r1 then Z.lor (if r0 then Z.lor (if f then Z.lor 0 0x80 else 0) (Z.shiftl 1 6) else if f then Z.lor 0 0x80 else 0) (Z.shiftl 1 5) else if r0 then Z.lor (if f then Z.lor 0 0x80 else 0) (Z.shiftl 1 6) else if f then Z.lor 0 0x80 else 0) (Z.shiftl 1 4) else if r1 then Z.lor (if r0 then Z.lor (if f then Z.lor 0 0x80 else 0) (Z.shiftl 1 6) else if f then Z.lor 0 0x80 else 0) (Z.shiftl 1 5) else if r0 then Z.lor (if f then Z.lor 0 0x80 else 0) (Z.shiftl 1 6) else if f then Z.lor 0 0x80 else 0) o in
    bit b 7 = f /\ (bit b 6, bit b 5, bit b 4) = (r0, r1, r2) /\ Z.land b 0x0f = o) (seqZ 0 16)).
  { repeat (apply Forall_cons; split; [by intros [] [] [] []|]). by apply Forall_nil. }
  exact (proj1 (Forall_forall _ _) H (OpCode h) ltac:(apply elem_of_seqZ; lia) (Fin h) r0 r1 r2).
Qed.

Lemma read_length_spec lf i bs hdr L r s : stream r = bs ++ s -> bytes_ok bs -> 0 <= i -> 0 <= L -> foldl (fun a b => a * 256 + b) L bs < 2 ^ 63 ->
  (lf = 8 -> i = 0 -> match bs with b :: _ => b < 128 | [] => True end) ->
  exists r', read_length lf i (length bs) hdr L r = (inr (hdr ++ bs, foldl (fun a b => a * 256 + b) L bs), r') /\ stream r' = s /\ fin r' = fin r.
Proof.
  revert i hdr L r. induction bs as [|b bs IH]; intros i hdr L r Hs Hok Hi HL Hbound Hmsb; cbn [length read_length foldl] in *.
  { exists r. by rewrite app_nil_r. }
  apply Forall_cons in Hok as [Hb Hok]. unfold byte_ok, in_width in Hb. change (2 ^ 8) with 256 in Hb. destruct (ReadByte_some r b (bs ++ s) Hs) as (r1 & E & Es & Ef).
  rewrite (parse_step _ _ _ _ _ E). pose proof (be_get_bound bs Hok) as Hg.
  assert (Hle : L * 256 + b <= foldl (fun a b => a * 256 + b) (L * 256 + b) bs).
  { rewrite be_get_foldl. assert (1 <= 256 ^ len bs) by (apply (Z.pow_le_mono_r 256 0); [lia|apply len_nonneg]). nia. }
  assert (Hmask : (if (lf =? 8) && (i =? 0) then Z.land b 0x7f else b) = b).
  { destruct (Z.eqb_spec lf 8), (Z.eqb_spec i 0); cbn [andb]; try done. change 0x7f with (Z.ones 7). rewrite Z.land_ones by lia. apply Z.mod_small. change (2 ^ 7) with 128. split; [lia|]. by apply Hmsb. }
  rewrite Hmask, (i64_id (L * 256)), i64_id by lia.
  destruct (IH (i + 1) (hdr ++ [b]) (L * 256 + b) r1 Es Hok ltac:(lia) ltac:(lia) Hbound) as (r' & E' & Es' & Ef'); [intros; lia|].
  exists r'. rewrite E', <- app_assoc, Ef', Ef. done.
Qed.

Lemma read_key_spec k key hdr acc r s : stream r = key ++ s -> length key = k ->
  exists r', read_key k hdr acc r = (inr (hdr ++ key, acc ++ key), r') /\ stream r' = s /\ fin r' = fin r.
Proof.
  revert k hdr acc r. induction key as [|b key IH]; intros k hdr acc r Hs <-; cbn [length read_key]; [exists r; by rewrite !app_nil_r|].
  destruct (ReadByte_some r b (key ++ s) Hs) as (r1 & E & Es & Ef). rewrite (parse_step _ _ _ _ _ E).
  destruct (IH _ (hdr ++ [b]) (acc ++ [b]) r1 Es eq_refl) as (r' & E' & Es' & Ef'). exists r'. by rewrite E', <- !app_assoc, Ef', Ef.
Qed.

(** The length of a frame, written and read. *)
Lemma read_length_put lf k hdr n r s : stream r = be_put k n ++ s -> 0 <= n < 2 ^ 63 -> n < 2 ^ (8 * Z.of_nat k) -> (k <= 8)%nat -> (lf = 8 -> k = 8%nat) ->
  exists r', read_length lf 0 k hdr 0 r = (inr (hdr ++ be_put k n, n), r') /\ stream r' = s /\ fin r' = fin r.
Proof.
  intros Hs Hn Hk Hk8 Hlf. assert (Hg : foldl (fun a b => a * 256 + b) 0 (be_put k n) = n).
  { change (be_get (be_put k n) = n). rewrite be_get_put. apply wrap_id. unfold in_width. lia. }
  pose proof (read_length_spec lf 0 (be_put k n) hdr 0 r s Hs (be_put_ok k n) ltac:(lia) ltac:(lia)) as H.
  rewrite Hg, length_be_put in H. apply H; [lia|]. intros ->%Hlf _. cbn [be_put]. unfold u8, wrap. rewrite Z.shiftr_div_pow2 by lia.
  change (8 * Z.of_nat 7) with 56. change (2 ^ 8) with 256. rewrite Z.mod_small; [apply Z.div_lt_upper_bound; lia|].
  split; [apply Z.div_pos; lia|apply Z.div_lt_upper_bound; lia].
Qed.

(** [NewFrameReader] reads back the header that was written, and leaves the
    payload. *)
Lemma NewFrameReader_spec h msg r s : stream r = frame_bytes h msg ++ s -> 0 <= OpCode h < 16 -> key_ok (MaskingKey h) -> len msg < 2 ^ 63 ->
  exists hdr r', NewFrameReader r = (inr (mkFrame (mkHeader (Fin h) (Rsv h) (OpCode h) (len msg) (MaskingKey h) hdr) (len msg) 0 (i64 (len hdr + len msg))), r') /\
    stream r' = masked (MaskingKey h) 0 msg ++ s /\ fin r' = fin r.
Proof.
  intros Hs Ho Hkey Hlen. destruct (first_byte_bits h Ho) as (B1 & B2 & B3). pose proof (len_nonneg msg) as Hn0. unfold frame_bytes in Hs.
  set (has := if MaskingKey h is Some _ then true else false). replace (if MaskingKey h is Some _ then 128 else 0) with (if has then 128 else 0) in Hs by (unfold has; by destruct (MaskingKey h)).
  set (n := if len msg <=? 125 then len msg else if len msg <? 65536 then 126 else 127). set (ext := if len msg <=? 125 then [] else if len msg <? 65536 then be_put 2 (len msg) else be_put 8 (len msg)).
  assert (Hl : stream r = first_header_byte h :: ((if has then 128 else 0) + n) :: ext ++ default [] (MaskingKey h) ++ masked (MaskingKey h) 0 msg ++ s).
  { rewrite Hs. unfold n, ext. z_cases; cbn [app]; by rewrite <- ?app_assoc. }
  assert (Hn : 0 <= n < 128) by (unfold n; z_cases; lia). destruct (second_byte has n Hn) as (E2 & Em & En).
  destruct (ReadByte_some _ _ _ Hl) as (r1 & R1 & S1 & F1). destruct (ReadByte_some _ _ _ S1) as (r2 & R2 & S2 & F2).
  unfold NewFrameReader. rewrite (parse_step _ _ _ _ _ R1), (parse_step _ _ _ _ _ R2), <- E2, Em, En. set (b1 := Z.lor _ n). cbn zeta.
  assert (Hlen3 : exists L0 lf, (if n <=? 125 then (n, 0) else if n =? 126 then (0, 2) else if n =? 127 then (0, 8) else (0, 0)) = (L0, lf) /\
    exists r3, read_length lf 0 (Z.to_nat lf) [first_header_byte h; b1] L0 r2 = (inr ([first_header_byte h; b1] ++ ext, len msg), r3) /\
      stream r3 = default [] (MaskingKey h) ++ masked (MaskingKey h) 0 msg ++ s /\ fin r3 = fin r2).
  { unfold n, ext in *. destruct (Z.leb_spec (len msg) 125); [|destruct (Z.ltb_spec (len msg) 65536)].
    - exists (len msg), 0. rewrite (proj2 (Z.leb_le _ _)) by lia. split; [done|]. exists r2. by rewrite app_nil_r.
    - exists 0, 2. split; [done|]. apply read_length_put; try done; lia.
    - exists 0, 8. split; [done|]. apply read_length_put; try done. change (2 ^ (8 * Z.of_nat 8)) with (2 ^ 64). lia. }
  destruct Hlen3 as (L0 & lf & E0 & r3 & R3 & S3 & F3). rewrite E0, (parse_step _ _ _ _ _ R3).
  unfold has. destruct (MaskingKey h) as [key|] eqn:Ek; cbn [default from_option masked key_ok] in *.
  - destruct (read_key_spec 4 key ([first_header_byte h; b1] ++ ext) [] r3 (xor_at key 0 msg ++ s) S3) as (r4 & R4 & S4 & F4); [unfold len in Hkey; lia|].
    eexists _, r4. rewrite (parse_step _ _ r3 (_, Some key) r4) by (rewrite (parse_step _ _ _ _ _ R4); reflexivity). cbn [app].
    split; [by rewrite B1, B2, B3|]. split; [done|congruence].
  - eexists _, r3. rewrite (parse_step _ _ r3 (_, None) r3) by reflexivity. split; [by rewrite B1, B2, B3|]. split; [done|congruence].
Qed.
