(* ===== verification/WsConnSpec.v ===== *)
(** What a WebSocket connection does with the frames of its peer:
    [websocket/websocket.go], [websocket/hybi.go]. *)
From S2P Require Import Prelude GoStrings WsHybi WsConn WsStream.

(** * Frames of a peer *)

(** A frame on the wire: its key, its opcode and its payload. *)
Record wire_frame := mkWire { w_key : option bytes; w_op : Z; w_data : bytes }.

Definition wire_header (key : option bytes) (op : Z) : hybiFrameHeader := mkHeader true (false, false, false) op 0 key [].
Definition wire_bytes (x : wire_frame) : bytes := frame_bytes (wire_header (w_key x) (w_op x)) (w_data x).
Definition wire (xs : list wire_frame) : bytes := xs ≫= wire_bytes.

(** A frame that a connection takes: masked when it is for a server. *)
Record wire_ok (server : bool) (x : wire_frame) : Prop := mkWireOk {
  wo_key : key_ok (w_key x);
  wo_masked : (if w_key x is Some _ then true else false) = server;
  wo_op : 0 <= w_op x < 16;
  wo_len : len (w_data x) < 2 ^ 63 }.

Definition is_data (x : wire_frame) : bool := (w_op x =? ContinuationFrame) || (w_op x =? TextFrame) || (w_op x =? BinaryFrame).
Definition is_control (x : wire_frame) : bool := (w_op x =? PingFrame) || (w_op x =? PongFrame).

(** * Writing frames *)

(** The frames that a connection writes for a list of opcodes and payloads: a
    client takes a key for each. *)
Fixpoint out_frames (server : bool) (ks : list (option bytes)) (l : list (Z * bytes)) : list wire_frame :=
  match l with
  | [] => []
  | (op, m) :: l => mkWire (if server then None else default None (head ks)) op m :: out_frames server (if server then ks else tail ks) l
  end.

Definition key4 (k : option bytes) : Prop := match k with Some k => len k = 4 | None => False end.

(** The connection takes everything, and there are keys for [n] frames. *)
Definition can_write (n : nat) (c : Conn) : Prop :=
  open_writer (wr c) /\ (is_server c = false -> (n <= length (keys c))%nat /\ Forall key4 (take n (keys c))).

(** The same connection but for what it wrote. *)
Definition wrote (l : list (Z * bytes)) (c : Conn) : Conn :=
  set_wr (mkWriter [] (sent (wr c) ++ wire (out_frames (is_server c) (keys c) l)) None false) (if is_server c then keys c else drop (length l) (keys c)) c.

Lemma write_frame_spec n op m c : can_write (S n) c -> write_frame op m c = Some (len m, None, wrote [(op, m)] c) /\ can_write n (wrote [(op, m)] c).
Proof.
  intros [Hw Hk]. unfold write_frame, IsClientConn, NewFrameWriter. assert (Hopen : forall c', wr c' = mkWriter [] (sent (wr c')) None false -> open_writer (wr c')).
  { intros c' ->. by split_and!. }
  unfold wrote, wire. cbn [out_frames mbind list_bind length drop]. rewrite app_nil_r. destruct (is_server c) eqn:Es; cbn [negb].
  - rewrite frame_Write_spec by done. cbn [mbind option_bind]. unfold wire_bytes. cbn [w_key w_op w_data]. split; [done|]. split; [by split_and!|]. cbn. congruence.
  - destruct (Hk eq_refl) as [Hl Hf]. destruct (keys c) as [|k ks] eqn:Ek; [cbn in Hl; lia|]. cbn [take] in Hf. apply Forall_cons in Hf as [Hk4 Hf]. destruct k as [k|]; [|done].
    cbn [generateMaskingKey head default from_option tail drop]. rewrite frame_Write_spec by done. cbn [mbind option_bind]. split; [done|].
    split; [by split_and!|]. cbn. intros _. rewrite drop_0. split; [cbn in Hl; lia|done].
Qed.

Lemma wrote_app l1 l2 c : (is_server c = false -> (length l1 <= length (keys c))%nat) -> wrote l2 (wrote l1 c) = wrote (l1 ++ l2) c.
Proof.
  intros Hk. unfold wrote. cbn [is_server wr keys set_wr sent]. rewrite length_app. set (s := sent (wr c)). clearbody s.
  assert (H : forall ks, (is_server c = false -> (length l1 <= length ks)%nat) -> wire (out_frames (is_server c) ks l1) ++ wire (out_frames (is_server c) (if is_server c then ks else drop (length l1) ks) l2) = wire (out_frames (is_server c) ks (l1 ++ l2))).
  { clear Hk. induction l1 as [|[op m] l1 IH]; intros ks Hk; cbn [app out_frames]; [by destruct (is_server c)|].
    unfold wire in *. cbn [mbind list_bind]. rewrite <- app_assoc. f_equal. rewrite <- IH by (intros E; specialize (Hk E); rewrite E; destruct ks; cbn in *; lia).
    f_equal. destruct (is_server c); [done|]. destruct ks; cbn [tail length drop]; by rewrite ?drop_nil. }
  rewrite <- H by done. rewrite <- app_assoc. unfold set_wr. cbn. f_equal. destruct (is_server c); [done|]. by rewrite drop_drop.
Qed.

(** * Reading frames *)

(** A frame of the peer on its way, its header read. *)
Definition frame_of (x : wire_frame) (hdr : bytes) : hybiFrameReader :=
  mkFrame (mkHeader true (false, false, false) (w_op x) (len (w_data x)) (w_key x) hdr) (len (w_data x)) 0 (i64 (len hdr + len (w_data x))).

Lemma read_header server x r s : wire_ok server x -> stream r = wire_bytes x ++ s ->
  exists hdr r', NewFrameReader r = (inr (frame_of x hdr), r') /\ stream r' = masked (w_key x) 0 (w_data x) ++ s /\ fin r' = fin r.
Proof. intros [Hk _ Ho Hl] Hs. exact (NewFrameReader_spec (wire_header (w_key x) (w_op x)) (w_data x) r s Hs Ho Hk Hl). Qed.

Lemma frame_of_ok server x hdr : wire_ok server x -> frame_ok (drop_header (frame_of x hdr)).
Proof. intros [Hk _ Ho Hl]. constructor; cbn; [done|lia|apply len_nonneg|lia]. Qed.

Definition pong_of (x : wire_frame) : list (Z * bytes) :=
  if w_op x =? PingFrame then [(PongFrame, upto maxControlFramePayloadLength (w_data x))] else [].
Definition pongs (xs : list wire_frame) : list (Z * bytes) := xs ≫= pong_of.

Lemma HandleFrame_control n x hdr c s : is_control x = true -> wire_ok (is_server c) x -> stream (rd c) = masked (w_key x) 0 (w_data x) ++ s ->
  can_write (length (pong_of x) + n) c ->
  exists r', HandleFrame (frame_of x hdr) c = Some (None, None, wrote (pong_of x) (set_rd r' c)) /\ stream r' = s /\ fin r' = fin (rd c) /\
    can_write n (wrote (pong_of x) (set_rd r' c)).
Proof.
  intros Hc Hok Hs Hw. pose proof (frame_of_ok _ x hdr Hok) as Hf. set (f := drop_header (frame_of x hdr)) in *. pose proof (len_nonneg (w_data x)) as Hn0.
  unfold HandleFrame. cbn [frame_of header MaskingKey]. rewrite (wo_masked _ _ Hok). unfold IsServerConn. rewrite Bool.eqb_reflx. cbn [negb]. fold f. cbn zeta.
  change (OpCode (header f)) with (w_op x). unfold is_control in Hc.
  assert (Hop : (w_op x =? ContinuationFrame) = false /\ (w_op x =? TextFrame) = false /\ (w_op x =? BinaryFrame) = false /\ (w_op x =? CloseFrame) = false).
  { unfold PingFrame, PongFrame, ContinuationFrame, TextFrame, BinaryFrame, CloseFrame in *. lia. }
  destruct Hop as (-> & -> & -> & ->). cbn [orb]. rewrite Hc.
  destruct (io_ReadFull_spec 125 maxControlFramePayloadLength f (rd c) [] Hf) as (e & f1 & r1 & E1 & S1 & F1 & Ef1 & He); [by change (len (@nil Z)) with 0|by change (len (@nil Z)) with 0|].
  change (Z.to_nat maxControlFramePayloadLength) with 125%nat. rewrite E1. cbn [mbind option_bind]. change (len (@nil Z)) with 0 in *. rewrite Z.sub_0_r in *.
  change (limit f) with (len (w_data x)) in *. change (MaskingKey (header f)) with (w_key x) in *. change (pos f) with 0 in *.
  assert (Hup : upto (len (w_data x)) (stream (rd c)) = masked (w_key x) 0 (w_data x)) by (rewrite Hs; apply upto_app_len; by rewrite masked_len).
  rewrite Hup, <- masked_upto, masked_twice in *. rewrite masked_len in S1, Ef1. set (k := len (upto maxControlFramePayloadLength (w_data x))) in *.
  assert (Hk : 0 <= k <= len (w_data x)) by (unfold k; rewrite len_upto_min by done; unfold maxControlFramePayloadLength; lia).
  assert (Hne : negb (bool_decide (e = None)) && negb (bool_decide (e = Some EOF)) && negb (bool_decide (e = Some ErrUnexpectedEOF)) = false).
  { destruct He as [->|[->|[->|[_ Hlt]]]]; [done..|]. rewrite Hs, len_app, masked_len in Hlt. pose proof (len_nonneg s). change (limit f) with (len (w_data x)) in Hlt. lia. }
  rewrite Hne. destruct (io_ReadAll_spec (all_fuel r1) 8192 f1 r1 []) as (f2 & r2 & E2 & S2 & F2 & _ & _).
  { rewrite Ef1. apply advance_ok; [done|exact Hk]. } { lia. } { unfold all_fuel, stream. lia. }
  rewrite E2. cbn [mbind option_bind app]. exists r2.
  assert (Ers : stream r2 = s).
  { rewrite S2, S1, Ef1. change (limit (advance k f)) with (len (w_data x) - k). rewrite from_from by lia. replace (k + (len (w_data x) - k)) with (len (w_data x)) by lia.
    rewrite Hs. apply from_app_len. by rewrite masked_len. }
  unfold pong_of in *. destruct (w_op x =? PingFrame).
  - unfold WritePong. destruct (write_frame_spec n PongFrame (upto maxControlFramePayloadLength (w_data x)) (set_rd r2 c)) as [E3 H3]; [exact Hw|].
    rewrite E3. cbn [mbind option_bind]. split; [done|]. split; [done|]. split; [congruence|exact H3].
  - assert (Hnil : wrote [] (set_rd r2 c) = set_rd r2 c).
    { destruct Hw as [(H1 & H2 & H3) _]. unfold wrote, set_rd, set_wr. cbn [is_server wr keys rd]. rewrite app_nil_r. destruct (wr c) as [wb st rm er]; cbn in *. subst. destruct c; cbn in *. by destruct is_server. }
    rewrite Hnil. split; [done|]. split; [done|]. split; [congruence|exact Hw].
Qed.

(** The type of the message that a data frame belongs to. *)
Definition data_type (x : wire_frame) (c : Conn) : Z := if w_op x =? ContinuationFrame then handler_type c else w_op x.

Lemma HandleFrame_data x hdr c : is_data x = true -> wire_ok (is_server c) x ->
  HandleFrame (frame_of x hdr) c = Some (Some (set_OpCode (data_type x c) (drop_header (frame_of x hdr))), None, set_handler_type (data_type x c) c).
Proof.
  intros Hd Hok. unfold HandleFrame. cbn [frame_of header MaskingKey]. rewrite (wo_masked _ _ Hok). unfold IsServerConn. rewrite Bool.eqb_reflx. cbn [negb]. cbn zeta.
  unfold data_type, is_data in *. change (OpCode _) with (w_op x). destruct (w_op x =? ContinuationFrame); [by destruct c|]. cbn [orb] in Hd. by rewrite Hd.
Qed.

Lemma wire_app xs ys : wire (xs ++ ys) = wire xs ++ wire ys.
Proof. unfold wire. by rewrite bind_app. Qed.

Lemma wire_length xs : (length xs <= length (wire xs))%nat.
Proof. induction xs as [|x xs IH]; [done|]. unfold wire in *. cbn [mbind list_bind length]. rewrite length_app. unfold wire_bytes at 1, frame_bytes. cbn [length]. lia. Qed.

Lemma wrote_nil c : open_writer (wr c) -> wrote [] c = c.
Proof.
  intros (H1 & H2 & H3). unfold wrote, set_wr. cbn [out_frames wire mbind list_bind length]. rewrite app_nil_r, drop_0.
  destruct c as [sv r f w ks h p d m cl ce]; cbn [is_server rd frameReader wr keys handler_type PayloadType defaultCloseStatus MaxPayloadBytes closed close_err] in *. destruct w; cbn in *. subst. by destruct sv.
Qed.

(** Control frames are read and answered. *)
Lemma next_frame_controls ctl : forall fuel n c s, Forall (fun x => is_control x = true /\ wire_ok (is_server c) x) ctl ->
  stream (rd c) = wire ctl ++ s -> can_write (length (pongs ctl) + n) c ->
  exists r', next_frame (length ctl + fuel) c = next_frame fuel (wrote (pongs ctl) (set_rd r' c)) /\ stream r' = s /\ fin r' = fin (rd c) /\
    can_write n (wrote (pongs ctl) (set_rd r' c)).
Proof.
  induction ctl as [|x ctl IH]; intros fuel n c s Hctl Hs Hw.
  { exists (rd c). cbn [pongs mbind list_bind]. assert (E : set_rd (rd c) c = c) by (by destruct c). rewrite E, wrote_nil by (by destruct Hw). done. }
  apply Forall_cons in Hctl as [[Hc Hok] Hctl]. unfold wire in Hs. cbn [mbind list_bind] in Hs. rewrite <- app_assoc in Hs.
  destruct (read_header _ _ _ _ Hok Hs) as (hdr & r1 & E1 & S1 & F1). unfold pongs in *. cbn [mbind list_bind] in *. rewrite length_app in Hw.
  cbn [length Nat.add next_frame]. rewrite E1. cbn zeta. rewrite <- Nat.add_assoc in Hw.
  destruct (HandleFrame_control (length (ctl ≫= pong_of) + n) x hdr (set_rd r1 c) (wire ctl ++ s) Hc Hok S1 Hw) as (r2 & E2 & S2 & F2 & W2). rewrite E2.
  change (set_rd r2 (set_rd r1 c)) with (set_rd r2 c) in *. set (c2 := wrote (pong_of x) (set_rd r2 c)) in *.
  destruct (IH fuel n c2 s) as (r3 & E3 & S3 & F3 & W3); [exact Hctl|exact S2|exact W2|]. exists r3. rewrite E3.
  assert (Happ : wrote (ctl ≫= pong_of) (set_rd r3 c2) = wrote (pong_of x ++ (ctl ≫= pong_of)) (set_rd r3 c)).
  { change (set_rd r3 c2) with (wrote (pong_of x) (set_rd r3 c)). apply wrote_app. intros Hcl. destruct Hw as [_ Hk]. destruct (Hk Hcl) as [Hk' _]. cbn [keys set_rd]. lia. }
  rewrite <- Happ. split; [done|]. split; [done|]. split; [|done]. change (rd c2) with r2 in F3. change (rd (set_rd r1 c)) with r1 in F2. congruence.
Qed.

Lemma next_frame_data ctl x n c s : Forall (fun x => is_control x = true /\ wire_ok (is_server c) x) ctl -> is_data x = true -> wire_ok (is_server c) x ->
  stream (rd c) = wire ctl ++ wire_bytes x ++ s -> can_write (length (pongs ctl) + n) c ->
  exists hdr r', let c' := set_handler_type (data_type x c) (wrote (pongs ctl) (set_rd r' c)) in
    next_frame (all_fuel (rd c)) c = (Some (inr (set_OpCode (data_type x c) (drop_header (frame_of x hdr)))), c') /\
    stream r' = masked (w_key x) 0 (w_data x) ++ s /\ fin r' = fin (rd c) /\ can_write n c'.
Proof.
  intros Hctl Hd Hok Hs Hw. pose proof (wire_length ctl) as Hl. unfold all_fuel. fold (stream (rd c)).
  assert (Hfuel : exists k, S (length (stream (rd c))) = (length ctl + S k)%nat) by (exists (length (stream (rd c)) - length ctl)%nat; rewrite Hs, length_app; lia).
  destruct Hfuel as (k & ->). destruct (next_frame_controls ctl (S k) n c _ Hctl Hs Hw) as (r1 & E1 & S1 & F1 & W1).
  destruct (read_header _ _ _ _ Hok S1) as (hdr & r2 & E2 & S2 & F2). exists hdr, r2. rewrite E1. cbn [next_frame]. change (rd (wrote (pongs ctl) (set_rd r1 c))) with r1. rewrite E2.
  change (set_rd r2 (wrote (pongs ctl) (set_rd r1 c))) with (wrote (pongs ctl) (set_rd r2 c)). cbn zeta. rewrite HandleFrame_data by done.
  split; [done|]. split; [done|]. split; [congruence|exact W1].
Qed.

(** At the end of the bytes the error of the connection is returned. *)
Lemma next_frame_end ctl n c : Forall (fun x => is_control x = true /\ wire_ok (is_server c) x) ctl -> stream (rd c) = wire ctl -> can_write (length (pongs ctl) + n) c ->
  exists r', next_frame (all_fuel (rd c)) c = (Some (inl (fin (rd c))), wrote (pongs ctl) (set_rd r' c)) /\ stream r' = [] /\ fin r' = fin (rd c).
Proof.
  intros Hctl Hs Hw. pose proof (wire_length ctl) as Hl. unfold all_fuel. fold (stream (rd c)). rewrite <- (app_nil_r (wire ctl)) in Hs.
  assert (Hfuel : exists k, S (length (stream (rd c))) = (length ctl + S k)%nat) by (exists (length (stream (rd c)) - length ctl)%nat; rewrite Hs, length_app; lia).
  destruct Hfuel as (k & ->). destruct (next_frame_controls ctl (S k) n c _ Hctl Hs Hw) as (r1 & E1 & S1 & F1 & W1). exists r1. rewrite E1. cbn [next_frame].
  change (rd (wrote (pongs ctl) (set_rd r1 c))) with r1. unfold NewFrameReader. rewrite (parse_stop _ _ _ _ _ (ReadByte_none _ S1)). rewrite F1. done.
Qed.
