(* ===== verification/WsMessages.v ===== *)
(** Messages arrive: [Send] and [Receive] of two WebSocket connections; and a
    connection as a stream of bytes, [Read]: [websocket/websocket.go]. *)

From S2P Require Import Prelude GoStrings WsHybi WsConn WsStream WsConnSpec.

(** The limit of a message that is received. *)
Definition max_payload (c : Conn) : Z := if MaxPayloadBytes c =? 0 then DefaultMaxPayloadBytes else MaxPayloadBytes c.

(** A frame that [Receive] takes or answers. *)
Record taken (c : Conn) (x : wire_frame) : Prop := mkTaken {
  tk_ok : wire_ok (is_server c) x;
  tk_kind : is_control x = true \/ is_data x = true;
  tk_len : is_data x = true -> len (w_data x) <= max_payload c }.

Lemma Receive_data cd t ctl x n c s : frameReader c = None -> Forall (fun x => is_control x = true /\ wire_ok (is_server c) x) ctl -> is_data x = true ->
  wire_ok (is_server c) x -> len (w_data x) <= max_payload c -> stream (rd c) = wire ctl ++ wire_bytes x ++ s -> can_write (length (pongs ctl) + n) c ->
  exists r', let c' := set_handler_type (data_type x c) (wrote (pongs ctl) (set_rd r' c)) in
    Receive cd t c = Some (Unmarshal cd (w_data x) (data_type x c) t, c') /\ stream r' = s /\ fin r' = fin (rd c) /\ can_write n c'.
Proof.
  intros Hn Hctl Hd Hok Hlen Hs Hw. unfold Receive, discard_frame. rewrite Hn. cbn [mbind option_bind].
  destruct (next_frame_data ctl x n c s Hctl Hd Hok Hs Hw) as (hdr & r1 & E1 & S1 & F1 & W1). rewrite E1.
  set (c1 := set_handler_type (data_type x c) (wrote (pongs ctl) (set_rd r1 c))) in *. set (f := set_OpCode (data_type x c) (drop_header (frame_of x hdr))).
  change (if MaxPayloadBytes c1 =? 0 then DefaultMaxPayloadBytes else MaxPayloadBytes c1) with (max_payload c).
  change (Length (header f)) with (len (w_data x)). rewrite (proj2 (Z.ltb_ge _ _)) by lia. cbn zeta. change (rd c1) with r1.
  destruct (io_ReadAll_spec (all_fuel r1) 512 f r1 []) as (f2 & r2 & E2 & S2 & F2 & Hh2 & _).
  { pose proof (frame_of_ok _ x hdr Hok) as [H1 H2 H3 H4]. by constructor. } { lia. } { unfold all_fuel, stream. lia. }
  rewrite E2. cbn [mbind option_bind app]. exists r2.
  assert (Hup : upto (limit f) (stream r1) = masked (w_key x) 0 (w_data x)) by (rewrite S1; apply upto_app_len; by rewrite masked_len).
  assert (Her : short_error f r1 = None).
  { unfold short_error. rewrite S1, len_app, masked_len. change (limit f) with (len (w_data x)). pose proof (len_nonneg s). by rewrite (proj2 (Z.leb_le _ _)) by lia. }
  rewrite Hup, Her. change (MaskingKey (header f)) with (w_key x). change (pos f) with 0. rewrite masked_twice.
  change (OpCode (header f2)) with (OpCode (header f2)). rewrite Hh2. change (OpCode (header f)) with (data_type x c).
  change (set_rd r2 c1) with (set_handler_type (data_type x c) (wrote (pongs ctl) (set_rd r2 c))).
  split; [done|]. split; [rewrite S2, S1; apply from_app_len; by rewrite masked_len|]. split; [congruence|exact W1].
Qed.

(** Calls of [Receive] for a list of targets. *)
Fixpoint receives (cd : Codec) (ts : list target) (c : Conn) : option (list (ws_error + value) * Conn) :=
  match ts with
  | [] => Some ([], c)
  | t :: ts => '(x, c) ← Receive cd t c; '(xs, c) ← receives cd ts c; Some (x :: xs, c)
  end.

Definition payloads (xs : list wire_frame) : list bytes := w_data <$> filter (fun x => is_data x = true) xs.

(** A frame of the kinds that [Read] and [Receive] go through. *)
Definition readable (server : bool) (x : wire_frame) : Prop := wire_ok server x /\ (is_control x = true \/ is_data x = true).

(** The control frames before the first data frame. *)
Lemma split_frames server xs : Forall (readable server) xs -> Forall (fun x => is_control x = true /\ wire_ok server x) xs \/
  exists ctl x ys, xs = ctl ++ x :: ys /\ Forall (fun x => is_control x = true /\ wire_ok server x) ctl /\ is_data x = true.
Proof.
  induction 1 as [|x xs [Hok Hx] Hxs IH]; [by left|]. destruct (is_data x) eqn:Hd; [right; exists [], x, xs; by split_and!|].
  destruct Hx as [Hc|]; [|congruence]. destruct IH as [IH|(ctl & y & ys & -> & Hctl & Hy)]; [left; by constructor|right].
  exists (x :: ctl), y, ys. split; [done|]. split; [by constructor|done].
Qed.

Lemma taken_readable c xs : Forall (taken c) xs -> Forall (readable (is_server c)) xs.
Proof. intros H. eapply Forall_impl; [exact H|]. by intros x [? ? _]. Qed.

Lemma control_not_data x : is_control x = true -> is_data x = false.
Proof. unfold is_control, is_data, PingFrame, PongFrame, ContinuationFrame, TextFrame, BinaryFrame. lia. Qed.

Lemma data_not_ping x : is_data x = true -> pong_of x = [].
Proof. unfold is_data, pong_of, PingFrame, ContinuationFrame, TextFrame, BinaryFrame. intros H. by replace (w_op x =? 9) with false by lia. Qed.

Lemma payloads_controls server xs : Forall (fun x => is_control x = true /\ wire_ok server x) xs -> payloads xs = [].
Proof.
  induction 1 as [|x xs [Hx _] _ IH]; [done|]. unfold payloads in *. rewrite filter_cons_False; [done|]. by rewrite control_not_data.
Qed.

Lemma first_data server ctl x ys : Forall (fun x => is_control x = true /\ wire_ok server x) ctl -> is_data x = true ->
  payloads (ctl ++ x :: ys) = w_data x :: payloads ys /\ pongs (ctl ++ x :: ys) = pongs ctl ++ pongs ys.
Proof.
  intros Hctl Hd. split.
  - unfold payloads. rewrite filter_app, fmap_app. fold (payloads ctl). rewrite (payloads_controls _ _ Hctl). by rewrite filter_cons_True.
  - unfold pongs. rewrite bind_app. cbn [mbind list_bind]. by rewrite (data_not_ping _ Hd).
Qed.

Lemma taken_same c c' x : is_server c' = is_server c -> MaxPayloadBytes c' = MaxPayloadBytes c -> taken c x -> taken c' x.
Proof. intros E1 E2 [H1 H2 H3]. constructor; unfold max_payload in *; by rewrite ?E1, ?E2. Qed.

Lemma receives_spec xs : forall ts c, Forall (taken c) xs -> length ts = S (length (payloads xs)) -> frameReader c = None ->
  stream (rd c) = wire xs -> can_write (length (pongs xs)) c ->
  exists r' h, receives Message ts c = Some (zip_with (fun t d => unmarshal d 0 t) ts (payloads xs) ++ [inl (fin (rd c))], set_handler_type h (wrote (pongs xs) (set_rd r' c))).
Proof.
  remember (length xs) as n eqn:En. revert xs En. induction (lt_wf n) as [n _ IH]. intros xs -> ts c Hxs Hts Hn Hs Hw.
  destruct (split_frames (is_server c) xs (taken_readable _ _ Hxs)) as [Hctl|(ctl & x & ys & -> & Hctl & Hd)].
  - pose proof (payloads_controls _ _ Hctl) as Hp. rewrite Hp in *. destruct ts as [|t [|]]; try done. cbn [receives]. unfold Receive, discard_frame. rewrite Hn. cbn [mbind option_bind].
    destruct (next_frame_end xs 0 c Hctl Hs) as (r1 & E1 & S1 & F1); [by rewrite Nat.add_0_r|]. rewrite E1. cbn [zip_with app]. exists r1, (handler_type c). by destruct c.
  - destruct ts as [|t ts]; [done|]. apply Forall_app in Hxs as [_ [Hx Hys]%Forall_cons]. destruct (first_data _ ctl x ys Hctl Hd) as [Hp Hpo]. rewrite Hp, Hpo in *. cbn [length zip_with app] in *. rewrite length_app in Hw. rewrite wire_app in Hs. change (wire (x :: ys)) with (wire_bytes x ++ wire ys) in Hs.
    destruct (Receive_data Message t ctl x (length (pongs ys)) c (wire ys) Hn Hctl Hd (tk_ok _ _ Hx) (tk_len _ _ Hx Hd) Hs Hw) as (r1 & E1 & S1 & F1 & W1).
    set (c1 := set_handler_type (data_type x c) (wrote (pongs ctl) (set_rd r1 c))) in *. cbn [receives]. rewrite E1. cbn [mbind option_bind].
    destruct (IH (length ys)) with (xs := ys) (ts := ts) (c := c1) as (r2 & h & E2); [rewrite length_app; cbn; lia|done| |lia|done|done|done|].
    { eapply Forall_impl; [exact Hys|]. intros y. by apply taken_same. }
    rewrite E2. cbn [mbind option_bind Unmarshal Message]. exists r2, h. rewrite <- wrote_app by (intros Hcl; destruct Hw as [_ Hk]; destruct (Hk Hcl) as [Hk' _]; cbn [keys set_rd]; lia).
    change (rd c1) with r1. rewrite F1. done.
Qed.

(** * Theorems *)

(** C34. A connection whose peer sends any frames - text, binary, continuation,
    ping or pong, masked as they should be, of any length up to the limit for
    data, cut into pieces by the network in any way - receives exactly the
    payloads of the data frames, in order; it answers every ping, in order, with
    a pong of the first 125 bytes of its payload, and writes nothing else; then
    it returns the error at the end of the bytes. *)
Theorem frames_received xs ts c : Forall (taken c) xs -> length ts = S (length (payloads xs)) -> frameReader c = None ->
  stream (rd c) = wire xs -> can_write (length (pongs xs)) c ->
  exists c', receives Message ts c = Some (zip_with (fun t d => unmarshal d 0 t) ts (payloads xs) ++ [inl (fin (rd c))], c') /\
    sent (wr c') = sent (wr c) ++ wire (out_frames (is_server c) (keys c) (pongs xs)).
Proof. intros. destruct (receives_spec xs ts c) as (r' & h & E); [done..|]. by eexists. Qed.

(** Calls of [Send]. *)
Fixpoint sends (cd : Codec) (vs : list value) (c : Conn) : option (list (option ws_error) * Conn) :=
  match vs with
  | [] => Some ([], c)
  | v :: vs => '(e, c) ← Send cd v c; '(es, c) ← sends cd vs c; Some (e :: es, c)
  end.

(** A message within the default limit. *)
Definition sendable (v : value) : Prop :=
  match v with VString s | VBytes s => len s <= DefaultMaxPayloadBytes | VOther => False end.
Definition target_of (v : value) : target := match v with VString _ => TString | VBytes _ => TBytes | VOther => TOther end.
Definition message_frame (v : value) : Z * bytes :=
  match v with VString s => (TextFrame, s) | VBytes s => (BinaryFrame, s) | VOther => (UnknownFrame, []) end.

Lemma sends_spec vs : forall c, Forall sendable vs -> can_write (length vs) c ->
  sends Message vs c = Some (replicate (length vs) None, wrote (message_frame <$> vs) c).
Proof.
  induction vs as [|v vs IH]; intros c Hv Hw; [by rewrite wrote_nil by (by destruct Hw)|]. apply Forall_cons in Hv as [Hv Hvs]. cbn [sends length replicate fmap list_fmap].
  assert (Hone : Send Message v c = Some (None, wrote [message_frame v] c) /\ can_write (length vs) (wrote [message_frame v] c)).
  { unfold Send, Marshal, Message, marshal, message_frame. destruct v as [s|s|]; [| |done];
    match goal with |- context [wrote [(?op, ?m)] c] => destruct (write_frame_spec (length vs) op m c Hw) as [E H] end; rewrite E; done. }
  destruct Hone as [E1 W1]. rewrite E1. cbn [mbind option_bind]. rewrite IH by done. cbn [mbind option_bind].
  rewrite (wrote_app [message_frame v] (message_frame <$> vs)); [done|]. intros Hc. destruct Hw as [_ Hk]. destruct (Hk Hc) as [Hk' _]. cbn in *. lia.
Qed.

Definition no_writer : writer := mkWriter [] [] None false.

Lemma out_frames_ok server ks l : (server = false -> (length l <= length ks)%nat /\ Forall key4 (take (length l) ks)) -> Forall (fun p => 0 <= p.1 < 16 /\ len p.2 < 2 ^ 63) l ->
  Forall (wire_ok (negb server)) (out_frames server ks l).
Proof.
  revert ks. induction l as [|[op m] l IH]; intros ks Hk Hl; cbn [out_frames]; [constructor|]. apply Forall_cons in Hl as [[Ho Hm] Hl]. cbn in Ho, Hm. destruct server.
  - constructor; [by constructor|]. by apply IH.
  - destruct (Hk eq_refl) as [Hlen Hf]. destruct ks as [|k ks]; [cbn in Hlen; lia|]. cbn [length take] in Hf. apply Forall_cons in Hf as [Hk4 Hf]. destruct k as [k|]; [|done].
    constructor; [by constructor|]. apply IH; [|done]. intros _. cbn in *. split; [lia|done].
Qed.

Lemma out_frames_data server ks vs : Forall sendable vs ->
  filter (fun x => is_data x = true) (out_frames server ks (message_frame <$> vs)) = out_frames server ks (message_frame <$> vs) /\
  w_data <$> out_frames server ks (message_frame <$> vs) = (fun v => (message_frame v).2) <$> vs /\ pongs (out_frames server ks (message_frame <$> vs)) = [].
Proof.
  intros Hv. revert ks. induction Hv as [|v vs Hv _ IH]; intros ks; [done|]. cbn [fmap list_fmap]. destruct (message_frame v) as [op m] eqn:Em. cbn [out_frames].
  destruct (IH (if server then ks else tail ks)) as (E1 & E2 & E3). assert (Hop : op = TextFrame \/ op = BinaryFrame) by (destruct v; [left|right|done]; cbn in Em; congruence).
  unfold pongs in *. cbn [fmap list_fmap mbind list_bind w_data]. rewrite filter_cons_True by (unfold is_data; cbn; destruct Hop as [-> | ->]; done).
  rewrite E1, E2, E3. unfold pong_of. cbn [w_op]. by destruct Hop as [-> | ->].
Qed.

(** C13. What one side sends with [Message.Send] the other receives with
    [Message.Receive]: for two connections, client and server either way, every
    list of texts and byte strings within the limit, every choice of masking keys
    and every way in which the network cuts the bytes into pieces, all calls of
    [Send] succeed, the calls of [Receive] return exactly the messages, in order,
    and a further call [io.EOF]. *)
Theorem messages_arrive server ks r ks' vs :
  (server = false -> (length vs <= length ks)%nat /\ Forall key4 (take (length vs) ks)) -> Forall sendable vs ->
  exists c', sends Message vs (newHybiConn server r no_writer ks None) = Some (replicate (length vs) None, c') /\
    forall ps, concat ps = sent (wr c') -> exists d', receives Message ((target_of <$> vs) ++ [TBytes]) (newHybiConn (negb server) (mkReader ps EOF) no_writer ks' None) =
      Some ((inr <$> vs) ++ [inl EOF], d').
Proof.
  intros Hk Hv. rewrite sends_spec by (first [done|split; [by split_and!|exact Hk]]). eexists. split; [reflexivity|]. cbn [sent wr wrote set_wr newHybiConn no_writer app is_server keys]. intros ps Hps.
  destruct (out_frames_data server ks vs Hv) as (E1 & E2 & E3). set (xs := out_frames server ks (message_frame <$> vs)) in *.
  assert (Hp : payloads xs = (fun v => (message_frame v).2) <$> vs) by (unfold payloads; by rewrite E1).
  assert (Hxs : Forall (wire_ok (negb server)) xs).
  { apply out_frames_ok; [by rewrite length_fmap|]. apply Forall_fmap. eapply Forall_impl; [exact Hv|]. intros [m|m|] Hm; [| |done]; cbn; change (len m <= 33554432) in Hm; split_and!; first [done|lia]. }
  destruct (receives_spec xs ((target_of <$> vs) ++ [TBytes]) (newHybiConn (negb server) (mkReader ps EOF) no_writer ks' None)) as (r' & h & E).
  - apply Forall_forall. intros x Hx. assert (Hd : is_data x = true) by (rewrite <- E1 in Hx; by apply list_elem_of_filter in Hx as [? _]).
    constructor; [exact (proj1 (Forall_forall _ _) Hxs x Hx)|by right|]. intros _. assert (Hin : w_data x ∈ ((fun v => (message_frame v).2) <$> vs)) by (rewrite <- E2; by apply list_elem_of_fmap_2).
    apply list_elem_of_fmap in Hin as (v & -> & Hin). pose proof (proj1 (Forall_forall _ _) Hv v Hin) as Hlen. unfold max_payload. cbn. by destruct v.
  - rewrite Hp, length_app, !length_fmap. cbn. lia.
  - done.
  - done.
  - rewrite E3. split; [by split_and!|]. intros _. split; [cbn; lia|constructor].
  - eexists. rewrite E, Hp. f_equal. f_equal. cbn [rd newHybiConn fin]. f_equal. clear -Hv. induction Hv as [|v vs Hv _ IH]; [done|]. cbn. rewrite IH. by destruct v.
Qed.

(** A connection that has just been made, and the frames of its peer. *)
Definition sample_frames : list wire_frame :=
  [mkWire (Some [1; 2; 3; 4]) TextFrame (str "he"); mkWire (Some [9; 8; 7; 6]) PingFrame (str "?");
   mkWire (Some [5; 6; 7; 8]) ContinuationFrame (str "llo"); mkWire (Some [0; 0; 0; 1]) BinaryFrame []].
Definition sample_conn : Conn := newHybiConn true (mkReader [upto 3 (wire sample_frames); from 3 (wire sample_frames)] EOF) no_writer [] None.

Lemma sample_readable : Forall (fun x => readable true x /\ len (w_data x) <= 100) sample_frames.
Proof. repeat (apply Forall_cons; split; [split; [split; [by constructor|first [by left|by right]]|done]|]). by apply Forall_nil. Qed.

Lemma sample_can_write n : can_write n sample_conn.
Proof. split; [by split_and!|done]. Qed.

Lemma frames_received_witness : exists c', receives Message [TString; TString; TBytes; TBytes] sample_conn =
    Some ([inr (VString (str "he")); inr (VString (str "llo")); inr (VBytes []); inl EOF], c') /\ sent (wr c') = wire [mkWire None PongFrame (str "?")].
Proof.
  assert (H : Forall (taken sample_conn) sample_frames).
  { eapply Forall_impl; [exact sample_readable|]. intros x [[Hok Hk] Hl]. constructor; [done|done|]. intros _. change (max_payload sample_conn) with 33554432. lia. }
  exact (frames_received sample_frames [TString; TString; TBytes; TBytes] sample_conn H eq_refl eq_refl eq_refl (sample_can_write _)).
Defined.

Lemma messages_arrive_witness : let vs := [VString (str "hi"); VBytes (replicate 200 7)] in let ks := [Some [1; 2; 3; 4]; Some [250; 0; 17; 5]] in
  Forall sendable vs /\ exists c', sends Message vs (newHybiConn false (mkReader [] EOF) no_writer ks None) = Some (replicate (length vs) None, c') /\
    exists d', receives Message ((target_of <$> vs) ++ [TBytes]) (newHybiConn true (mkReader [sent (wr c')] EOF) no_writer [] None) = Some ((inr <$> vs) ++ [inl EOF], d').
Proof.
  intros vs ks. assert (Hv : Forall sendable vs) by (repeat (apply Forall_cons; split; [by vm_compute|]); by apply Forall_nil). split; [exact Hv|].
  assert (Hk : false = false -> (length vs <= length ks)%nat /\ Forall key4 (take (length vs) ks)).
  { intros _. split; [done|]. repeat (apply Forall_cons; split; [done|]). by apply Forall_nil. }
  destruct (messages_arrive false ks (mkReader [] EOF) [] vs Hk Hv) as (c' & E & H).
  exists c'. split; [exact E|]. exact (H [sent (wr c')] (app_nil_r _)).
Defined.

(** What [Read] has still to give: the rest of the frame that is being read, and
    the payloads of the data frames after it. *)
Inductive incoming (c : Conn) : bytes -> Prop :=
| between_frames xs : frameReader c = None -> Forall (readable (is_server c)) xs -> stream (rd c) = wire xs -> can_write (length (pongs xs)) c ->
    incoming c (concat (payloads xs))
| within_frame f p xs : frameReader c = Some f -> frame_ok f -> len p = limit f -> Forall (readable (is_server c)) xs ->
    stream (rd c) = masked (MaskingKey (header f)) (pos f) p ++ wire xs -> can_write (length (pongs xs)) c -> incoming c (p ++ concat (payloads xs)).

(** How a call of [Read] ends when [P] is still to come. *)
Definition read_ends (k : Z) (c : Conn) (P : bytes) (o : option (bytes * option ws_error * Conn)) : Prop :=
  exists d e c', o = Some (d, e, c') /\
    ((e = None /\ 0 < len d <= k /\ exists P', P = d ++ P' /\ incoming c' P') \/ (e = Some (fin (rd c)) /\ d = [] /\ P = [])).

Lemma Conn_Read_enter fuel k c f c1 : frameReader c = None -> next_frame (all_fuel (rd c)) c = (Some (inr f), c1) ->
  Conn_Read (S fuel) k c = Conn_Read (S fuel) k (set_frameReader (Some f) c1).
Proof. intros Hn E. cbn [Conn_Read]. rewrite Hn, E. done. Qed.

(** A frame that is being read gives bytes, or is at its end. *)
Lemma Conn_Read_within fuel k c f p xs : 0 < k -> frameReader c = Some f -> frame_ok f -> len p = limit f -> Forall (readable (is_server c)) xs ->
  stream (rd c) = masked (MaskingKey (header f)) (pos f) p ++ wire xs -> can_write (length (pongs xs)) c ->
  (p = [] /\ Conn_Read (S fuel) k c = Conn_Read fuel k (set_frameReader None c)) \/ read_ends k c (p ++ concat (payloads xs)) (Conn_Read (S fuel) k c).
Proof.
  intros Hk Hn Hf Hp Hxs Hs Hw. cbn [Conn_Read]. rewrite Hn. destruct (frame_Read_cases k f (rd c) Hf Hk) as [[E0 E]|[(Hl & Es & _)|(d & r1 & E & Es & Ef & Hd & Hdl)]].
  - left. rewrite E. cbn [mbind option_bind]. rewrite bool_decide_true by done. destruct p; [|rewrite len_cons in Hp; pose proof (len_nonneg p); lia]. split; [done|]. by destruct c.
  - rewrite Es in Hs. symmetry in Hs. apply app_eq_nil in Hs as [Hs _]. apply (f_equal len) in Hs. rewrite masked_len in Hs. change (len (@nil Z)) with 0 in Hs. lia.
  - right. rewrite E. cbn [mbind option_bind]. rewrite bool_decide_false by done. eexists _, None, _. split; [reflexivity|]. left. split; [done|]. rewrite masked_len. split; [done|].
    set (key := MaskingKey (header f)) in *. assert (Hpre : upto (len d) (masked key (pos f) p) = d).
    { rewrite Es in Hs. apply (f_equal (upto (len d))) in Hs. rewrite (upto_app_len _ d) in Hs by done. rewrite Hs at 2. unfold upto. rewrite take_app_le; [done|].
      assert (Hml := masked_len key (pos f) p). unfold len in *. lia. }
    assert (Hpd : p = masked key (pos f) d ++ from (len d) p).
    { rewrite <- (upto_from (len d) p) at 1. f_equal. rewrite <- (masked_twice key (pos f) p) at 1. by rewrite <- masked_upto, Hpre. }
    exists (from (len d) p ++ concat (payloads xs)). split; [rewrite Hpd at 1; by rewrite <- app_assoc|].
    eapply (within_frame _ (advance (len d) f)); [done|apply advance_ok; [done|lia]|rewrite len_from by lia; cbn; lia|done| |done].
    cbn [rd set_frameReader set_rd]. rewrite Hpd in Hs. unfold key in Hs. rewrite <- advance_masked, masked_twice, masked_len, Es, <- app_assoc in Hs. apply app_inv_head in Hs. exact Hs.
Qed.

Lemma read_ends_incoming k c c' P o : fin (rd c') = fin (rd c) -> read_ends k c' P o -> read_ends k c P o.
Proof. intros E (d & e & c2 & -> & H). exists d, e, c2. split; [done|]. by rewrite <- E. Qed.

Lemma Conn_Read_between n : forall fuel k c xs, 0 < k -> (length xs <= n)%nat -> (n < fuel)%nat -> frameReader c = None -> Forall (readable (is_server c)) xs ->
  stream (rd c) = wire xs -> can_write (length (pongs xs)) c -> read_ends k c (concat (payloads xs)) (Conn_Read fuel k c).
Proof.
  induction n as [n IH] using lt_wf_ind. intros fuel k c xs Hk Hn Hfuel Hnone Hxs Hs Hw. destruct fuel as [|fuel]; [lia|].
  destruct (split_frames _ xs Hxs) as [Hctl|(ctl & x & ys & -> & Hctl & Hd)].
  - rewrite (payloads_controls _ _ Hctl). destruct (next_frame_end xs 0 c Hctl Hs) as (r1 & E1 & S1 & F1); [by rewrite Nat.add_0_r|].
    cbn [Conn_Read]. rewrite Hnone, E1. eexists _, _, _. split; [reflexivity|]. right. done.
  - apply Forall_app in Hxs as [_ [[Hok _] Hys]%Forall_cons]. destruct (first_data _ ctl x ys Hctl Hd) as [Hp Hpo]. rewrite Hp, Hpo, length_app in *.
    rewrite wire_app in Hs. change (wire (x :: ys)) with (wire_bytes x ++ wire ys) in Hs. cbn [length concat] in *.
    destruct (next_frame_data ctl x (length (pongs ys)) c (wire ys) Hctl Hd Hok Hs Hw) as (hdr & r1 & E1 & S1 & F1 & W1).
    rewrite (Conn_Read_enter fuel k c _ _ Hnone E1). set (f := set_OpCode _ _) in *. set (c1 := set_handler_type (data_type x c) (wrote (pongs ctl) (set_rd r1 c))) in *.
    assert (Hf : frame_ok f) by (pose proof (frame_of_ok _ x hdr Hok) as [H1 H2 H3 H4]; by constructor).
    apply (read_ends_incoming k c (set_frameReader (Some f) c1)); [exact F1|].
    destruct (Conn_Read_within fuel k (set_frameReader (Some f) c1) f (w_data x) ys Hk) as [[Ep E2]|He]; [done..| |exact He].
    rewrite E2, Ep. cbn [app]. apply (read_ends_incoming _ _ (set_frameReader None c1)); [done|].
    apply (IH (n - 1)%nat); try done; try lia. change (stream r1 = wire ys). by rewrite S1, Ep, masked_nil.
Qed.

(** C17. [Read] gives the payloads of the peer's text, binary and continuation
    frames as one stream of bytes: whatever the sizes of the buffers, the frames
    and the pieces of the network, a call with room for a byte returns at least
    one of the bytes that come next and leaves exactly the others for the calls
    that follow, or, when there is none, returns the error of the connection. *)
Theorem Read_streams c P k : incoming c P -> 0 < k ->
  exists d e c', Conn_Read (read_fuel c) k c = Some (d, e, c') /\
    ((e = None /\ 0 < len d <= k /\ exists P', P = d ++ P' /\ incoming c' P') \/ (e = Some (fin (rd c)) /\ d = [] /\ P = [])).
Proof.
  intros H Hk. change (read_ends k c P (Conn_Read (read_fuel c) k c)). unfold read_fuel, all_fuel. fold (stream (rd c)).
  destruct H as [xs Hn Hxs Hs Hw|f p xs Hn Hf Hp Hxs Hs Hw]; pose proof (wire_length xs) as Hl.
  - apply (Conn_Read_between (length xs)); try done. rewrite Hs. lia.
  - destruct (Conn_Read_within (S (length (stream (rd c)))) k c f p xs Hk) as [[Ep E2]|He]; [done..| |exact He].
    rewrite E2, Ep. cbn [app]. apply (read_ends_incoming _ _ (set_frameReader None c)); [done|].
    apply (Conn_Read_between (length xs)); try done; change (stream (rd (set_frameReader None c))) with (stream (rd c)); rewrite Hs, Ep, masked_nil; [cbn; lia|done].
Qed.

Lemma Read_streams_witness : incoming sample_conn (str "hello") /\ exists d e c', Conn_Read (read_fuel sample_conn) 1 sample_conn = Some (d, e, c') /\
    ((e = None /\ 0 < len d <= 1 /\ exists P', str "hello" = d ++ P' /\ incoming c' P') \/ (e = Some (fin (rd sample_conn)) /\ d = [] /\ str "hello" = [])).
Proof.
  assert (H : incoming sample_conn (str "hello")).
  { refine (between_frames sample_conn sample_frames eq_refl _ eq_refl (sample_can_write _)). eapply Forall_impl; [exact sample_readable|]. by intros x [? _]. }
  split; [exact H|]. exact (Read_streams sample_conn (str "hello") 1 H eq_refl).
Defined.
