(* ===== verification/WsSafe.v ===== *)
(** WebSocket connections on any input: every call returns; frames that are
    refused, and frames that are not: [websocket/hybi.go], [websocket/websocket.go]. *)
From S2P Require Import Prelude GoStrings WsHybi WsConn WsStream WsConnSpec WsMessages.

(** * Any bytes *)

(** What is left after reading [n] bytes at least. *)
Definition left_over (n : nat) (r r' : reader) : Prop :=
  fin r' = fin r /\ exists s, stream r = s ++ stream r' /\ (n <= length s)%nat.

Lemma left_over_refl r : left_over 0 r r.
Proof. split; [done|]. by exists []. Qed.

Lemma left_over_trans m n r1 r2 r3 : left_over m r1 r2 -> left_over n r2 r3 -> left_over (m + n) r1 r3.
Proof.
  intros (F1 & s1 & E1 & L1) (F2 & s2 & E2 & L2). split; [congruence|]. exists (s1 ++ s2). rewrite E1, E2, app_assoc, length_app. split; [done|lia].
Qed.

Lemma left_over_le n m r r' : (n <= m)%nat -> left_over m r r' -> left_over n r r'.
Proof. intros H (F & s & E & L). split; [done|]. exists s. split; [done|lia]. Qed.

Lemma left_over_from n r r' : fin r' = fin r -> stream r' = from n (stream r) -> left_over 0 r r'.
Proof. intros F E. split; [done|]. exists (upto n (stream r)). rewrite E, upto_from. split; [done|lia]. Qed.

Lemma left_over_bytes n r r' : left_over n r r' -> bytes_ok (stream r) -> bytes_ok (stream r').
Proof. intros (_ & s & E & _). rewrite E. intros H. by apply Forall_app in H as [_ H]. Qed.

Lemma left_over_length n r r' : left_over n r r' -> (length (stream r') + n <= length (stream r))%nat.
Proof. intros (_ & s & E & L). rewrite E, length_app. lia. Qed.

(** The two ways of reading a byte. *)
Lemma ReadByte_cases r : bytes_ok (stream r) ->
  (ReadByte r = (inl (fin r), r)) \/ exists b r', ReadByte r = (inr b, r') /\ byte_ok b /\ left_over 1 r r'.
Proof.
  intros Hr. destruct (stream r) as [|b s] eqn:E; [left; by apply ReadByte_none|right].
  apply Forall_cons in Hr as [Hb _]. destruct (ReadByte_some r b s E) as (r' & E' & Es & F). exists b, r'. split; [done|]. split; [done|]. split; [done|]. exists [b]. by rewrite E, Es.
Qed.

(** A parser that stops with the error of the connection or gives something that
    satisfies [P] after [n] bytes at least. *)
Definition parses {A} (n : nat) (P : A -> Prop) (m : parse A) : Prop := forall r, bytes_ok (stream r) ->
  exists x r', m r = (x, r') /\ left_over 0 r r' /\ match x with inl e => e = fin r | inr a => P a /\ left_over n r r' end.

Lemma parses_ret {A} (P : A -> Prop) a : P a -> parses 0 P (mret a).
Proof. intros H r Hr. exists (inr a), r. split; [done|]. split; [apply left_over_refl|]. split; [done|apply left_over_refl]. Qed.

Lemma parses_seq {A B} m n (P : A -> Prop) (Q : B -> Prop) (f : parse A) (g : A -> parse B) :
  parses m P f -> (forall a, P a -> parses n Q (g a)) -> parses (m + n) Q (f ≫= g).
Proof.
  intros Hf Hg r Hr. destruct (Hf r Hr) as (x & r1 & E1 & L1 & H1). destruct x as [e|a].
  - exists (inl e), r1. by rewrite (parse_stop _ _ _ _ _ E1).
  - destruct H1 as [Ha L1']. destruct (Hg a Ha r1 (left_over_bytes _ _ _ L1 Hr)) as (y & r2 & E2 & L2 & H2). exists y, r2. rewrite (parse_step _ _ _ _ _ E1).
    split; [done|]. split; [exact (left_over_trans 0 0 _ _ _ L1 L2)|]. destruct y as [e|b]; [destruct L1 as [F _]; congruence|].
    destruct H2 as [Hb L2']. split; [done|]. by apply (left_over_trans m n _ r1).
Qed.

Lemma parses_le {A} m n (P : A -> Prop) (f : parse A) : parses m P f -> (n <= m)%nat -> parses n P f.
Proof.
  intros H Hn r Hr. destruct (H r Hr) as (x & r' & E & L & Hx). exists x, r'. split; [done|]. split; [done|]. destruct x; [done|]. destruct Hx as [? L'].
  split; [done|]. by apply (left_over_le n m).
Qed.

Lemma parses_byte : parses 1 byte_ok ReadByte.
Proof.
  intros r Hr. destruct (ReadByte_cases r Hr) as [E|(b & r' & E & Hb & L)].
  - exists (inl (fin r)), r. split; [done|]. split; [apply left_over_refl|done].
  - exists (inr b), r'. split; [done|]. split; [by apply (left_over_le 0 1); [lia|]|done].
Qed.

Lemma read_length_parses lf k i hdr L : 0 <= i -> 0 <= L -> (lf = 8 /\ i = 0 /\ k = 8%nat /\ L = 0) \/ (L + 1) * 256 ^ Z.of_nat k <= 2 ^ 63 /\ (0 < i \/ lf <> 8) ->
  parses 0 (fun p => 0 <= snd p < 2 ^ 63) (read_length lf i k hdr L).
Proof.
  revert i hdr L. induction k as [|k IH]; intros i hdr L Hi HL Hb; cbn [read_length].
  { apply parses_ret. cbn [snd]. destruct Hb as [(_ & _ & ? & _)|[H _]]; [done|]. change (256 ^ Z.of_nat 0) with 1 in H. lia. }
  apply (parses_le 1); [|lia]. apply (parses_seq 1 0 _ _ _ _ parses_byte). intros b Hbyte. unfold byte_ok, in_width in Hbyte. change (2 ^ 8) with 256 in Hbyte.
  set (b' := if (lf =? 8) && (i =? 0) then Z.land b 0x7f else b). assert (H1 : 1 <= 256 ^ Z.of_nat k) by (apply (Z.pow_le_mono_r 256 0); lia).
  assert (Hstep : 0 <= b' < 256 /\ (L * 256 + b' + 1) * 256 ^ Z.of_nat k <= 2 ^ 63).
  { destruct Hb as [(-> & -> & [= ->] & ->)|[Hbound Hor]].
    - unfold b'. change ((8 =? 8) && (0 =? 0)) with true. cbv iota. change 0x7f with (Z.ones 7). rewrite Z.land_ones by lia. pose proof (Z.mod_pos_bound b (2 ^ 7) ltac:(lia)).
      change (256 ^ Z.of_nat 7) with (2 ^ 56). change (2 ^ 7) with 128 in *. split; [lia|]. change (2 ^ 63) with (128 * 2 ^ 56). apply Z.mul_le_mono_nonneg_r; lia.
    - assert (Eb : b' = b) by (unfold b'; destruct (Z.eqb_spec lf 8), (Z.eqb_spec i 0); cbn [andb]; try done; lia). rewrite Eb. split; [lia|].
      rewrite Nat2Z.inj_succ, Z.pow_succ_r in Hbound by lia. nia. }
  destruct Hstep as [Hb' Hle]. assert (L * 256 + b' + 1 <= 2 ^ 63) by nia. rewrite (i64_id (L * 256)), i64_id by lia. apply IH; [lia|lia|]. right. split; [done|lia].
Qed.

Lemma read_key_parses k hdr key : parses 0 (fun p => len (snd p) = len key + Z.of_nat k) (read_key k hdr key).
Proof.
  revert hdr key. induction k as [|k IH]; intros hdr key; cbn [read_key]; [apply parses_ret; cbn; lia|].
  apply (parses_le 1); [|lia]. apply (parses_seq 1 0 _ _ _ _ parses_byte). intros b _. intros r Hr. destruct (IH (hdr ++ [b]) (key ++ [b]) r Hr) as (x & r' & E & L & Hx).
  exists x, r'. split; [done|]. split; [done|]. destruct x; [done|]. destruct Hx as [Hx L']. split; [|done]. rewrite Hx, len_app. change (len [b]) with 1. lia.
Qed.

(** Any bytes give a frame or the error of the connection. *)
Lemma NewFrameReader_parses : parses 2 (fun f => frame_ok f) NewFrameReader.
Proof.
  unfold NewFrameReader. apply (parses_seq 1 1 _ _ _ _ parses_byte). intros b0 _. apply (parses_le (1 + 0)); [|lia]. apply (parses_seq 1 0 _ _ _ _ parses_byte). intros b1 _.
  cbn zeta. set (n := Z.land b1 0x7f). assert (Hn : 0 <= n < 128) by (unfold n; change 0x7f with (Z.ones 7); rewrite Z.land_ones by lia; apply Z.mod_pos_bound; lia).
  set (mask := negb _). set (lf := if n <=? 125 then (n, 0) else _).
  assert (Hlf : exists L k, lf = (L, k) /\ forall hdr, parses 0 (fun p => 0 <= snd p < 2 ^ 63) (read_length k 0 (Z.to_nat k) hdr L)).
  { unfold lf. repeat case_match; eexists _, _; (split; [reflexivity|]); intros hdr; apply read_length_parses; try lia.
    all: right; split; [change (256 ^ Z.of_nat (Z.to_nat 0)) with 1; change (256 ^ Z.of_nat (Z.to_nat 2)) with 65536; lia|by right]. }
  destruct Hlf as (L & k & -> & Hlen). apply (parses_seq 0 0 _ _ _ _ (Hlen _)). intros [hdr n2] Hn2. cbn [snd] in Hn2.
  apply (parses_seq 0 0 (fun p : bytes * option bytes => key_ok (snd p))).
  - destruct mask; [|by apply parses_ret]. apply (parses_seq 0 0 _ _ _ _ (read_key_parses 4 hdr [])). intros [h key] Hkey. by apply parses_ret.
  - intros [h key] Hkey. apply parses_ret. constructor; cbn [header MaskingKey limit pos]; [done|lia..].
Qed.

(** * Any connection *)

(** The invariant of a connection: the frame that is being read, the bytes to
    come and the keys of [crypto/rand]. *)
Record conn_ok (c : Conn) : Prop := mkConnOk {
  co_frame : forall f, frameReader c = Some f -> frame_ok f;
  co_bytes : bytes_ok (stream (rd c));
  co_keys : Forall key_ok (keys c) }.

(** What a call may change, besides the frame: it reads and it writes. *)
Record moved (n : nat) (c c' : Conn) : Prop := mkMoved {
  mv_left : left_over n (rd c) (rd c');
  mv_keys : Forall key_ok (keys c) -> Forall key_ok (keys c') }.

Lemma moved_refl c : moved 0 c c.
Proof. split; [apply left_over_refl|done]. Qed.

Lemma moved_trans m n c1 c2 c3 : moved m c1 c2 -> moved n c2 c3 -> moved (m + n) c1 c3.
Proof. intros [L1 K1] [L2 K2]. split; [by apply (left_over_trans m n _ (rd c2))|auto]. Qed.

Lemma moved_rd n c r : left_over n (rd c) r -> moved n c (set_rd r c).
Proof. by split. Qed.

Lemma moved_ok n c c' : moved n c c' -> conn_ok c -> (forall f, frameReader c' = Some f -> frame_ok f) -> conn_ok c'.
Proof. intros [L K] [Hf Hb Hk] Hf'. constructor; [done|by apply (left_over_bytes n (rd c))|auto]. Qed.

Lemma set_frameReader_ok c o : conn_ok c -> (forall f, o = Some f -> frame_ok f) -> conn_ok (set_frameReader o c).
Proof. by intros [_ Hb Hk] Ho; constructor. Qed.

Lemma frame_Write_total h msg w : key_ok (MaskingKey h) -> exists n e w', frame_Write h msg w = Some (n, e, w').
Proof.
  intros Hk. unfold frame_Write. destruct (if len msg <=? 125 then _ else _) as [b f]. destruct (MaskingKey h) as [key|]; cbn [key_ok] in *.
  - destruct (negb _); [by eexists _, _, _|]. rewrite mask_bytes_xor by (done || lia). cbn [mbind option_bind]. destruct (buf_Flush _). by eexists _, _, _.
  - destruct (buf_Flush _). by eexists _, _, _.
Qed.

Lemma write_frame_total op msg c : Forall key_ok (keys c) -> exists n e c', write_frame op msg c = Some (n, e, c') /\ moved 0 c c' /\ frameReader c' = frameReader c /\ rd c' = rd c.
Proof.
  intros Hk. unfold write_frame, NewFrameWriter. destruct (IsClientConn c).
  - unfold generateMaskingKey. destruct (keys c) as [|[k|] ks] eqn:Ek.
    + eexists _, _, _. split; [reflexivity|]. split; [|done]. split; [apply left_over_refl|]. by rewrite Ek.
    + apply Forall_cons in Hk as [Hk Hks]. destruct (frame_Write_total (mkHeader true (false, false, false) op 0 (Some k) []) msg (wr c) Hk) as (n & e & w & E).
      rewrite E. eexists _, _, _. split; [reflexivity|]. split; [|done]. split; [apply left_over_refl|]. by intros _.
    + apply Forall_cons in Hk as [_ Hks]. eexists _, _, _. split; [reflexivity|]. split; [|done]. split; [apply left_over_refl|]. by intros _.
  - destruct (frame_Write_total (mkHeader true (false, false, false) op 0 None []) msg (wr c) I) as (n & e & w & E). rewrite E. eexists _, _, _.
    split; [reflexivity|]. split; [|done]. split; [apply left_over_refl|done].
Qed.

Lemma frame_Read_total k f r : frame_ok f -> 0 <= k ->
  exists d e f' r', frame_Read k f r = Some (d, e, f', r') /\ frame_ok f' /\ left_over 0 r r' /\ len d <= k /\ (e = None -> 0 < k -> 0 < len d).
Proof.
  intros Hf Hk. destruct (Z.eq_dec k 0) as [->|Hne].
  - unfold frame_Read, limit_Read, buf_Read. assert (Hz : (if limit f <? 0 then limit f else 0) = 0) by (destruct Hf; rewrite (proj2 (Z.ltb_ge _ _)) by lia; done). rewrite Hz. cbn [Z.eqb].
    destruct f as [h n p l]. cbn [header limit pos length_] in *. assert (Hfo : frame_ok (mkFrame h n (i64 (p + 0)) l) /\ frame_ok (mkFrame h n p l)).
    { destruct Hf as [H1 H2 H3 H4]. cbn in *. rewrite i64_id by lia. rewrite Z.add_0_r. done. }
    destruct (n <=? 0), (MaskingKey h); cbn; rewrite ?Z.sub_0_r; eexists _, _, _, _; (split; [reflexivity|]); split_and!; try apply Hfo; try apply left_over_refl; try done.
  - destruct (frame_Read_cases k f r Hf ltac:(lia)) as [[_ E]|[(_ & _ & E)|(d & r' & E & Es & Ef & Hd & Hl)]]; rewrite E; eexists _, _, _, _; (split; [reflexivity|]).
    1, 2: split; [done|]; split; [apply left_over_refl|]; split; [unfold len; cbn; lia|done].
    split; [by apply advance_ok; [|lia]|]. split; [|rewrite masked_len; lia]. split; [done|]. exists d. split; [done|lia].
Qed.

Lemma HandleFrame_total f c : frame_ok f -> conn_ok c ->
  exists o e c', HandleFrame f c = Some (o, e, c') /\ moved 0 c c' /\ frameReader c' = frameReader c /\ (forall f', o = Some f' -> frame_ok f').
Proof.
  intros Hf Hc. pose proof (co_keys _ Hc) as Hk. assert (Hd : forall o, frame_ok (set_OpCode o (drop_header f)) /\ frame_ok (drop_header f)) by (intros o; destruct Hf; by split; constructor).
  unfold HandleFrame. destruct (negb _).
  { destruct (write_frame_total CloseFrame (be_put 2 (u16 closeStatusProtocolError)) c Hk) as (n & e & c' & E & M & F & _). unfold WriteClose. rewrite E. cbn [mbind option_bind].
    eexists _, _, _. split; [reflexivity|]. split; [done|]. split; [done|]. by intros ?. }
  cbn zeta. destruct (_ =? ContinuationFrame); [eexists _, _, _; split; [reflexivity|]; split; [apply moved_refl|]; split; [done|]; intros ? [= <-]; apply Hd|].
  destruct (_ || _); [eexists _, _, _; split; [reflexivity|]; split; [(split; [apply left_over_refl|done])|]; split; [done|]; intros ? [= <-]; by apply (Hd 0)|].
  destruct (_ =? CloseFrame); [eexists _, _, _; split; [reflexivity|]; split; [apply moved_refl|]; split; [done|]; by intros ?|].
  destruct (_ || _); [|eexists _, _, _; split; [reflexivity|]; split; [apply moved_refl|]; split; [done|]; intros ? [= <-]; by apply (Hd 0)].
  destruct (io_ReadFull_spec (Z.to_nat maxControlFramePayloadLength) maxControlFramePayloadLength (drop_header f) (rd c) []) as (e & f1 & r1 & E1 & S1 & F1 & Ef1 & _); [by apply (Hd 0)|done|done|].
  rewrite E1. cbn [mbind option_bind app]. assert (L1 : left_over 0 (rd c) r1) by (by eapply left_over_from).
  destruct (_ && _); [eexists _, _, _; split; [reflexivity|]; split; [by apply moved_rd|]; split; [done|]; by intros ?|].
  destruct (io_ReadAll_spec (all_fuel r1) 8192 f1 r1 []) as (f2 & r2 & E2 & S2 & F2 & _ & _); [|done|unfold all_fuel, stream; lia|].
  { rewrite Ef1. apply advance_ok; [by apply (Hd 0)|]. pose proof (len_nonneg (upto (maxControlFramePayloadLength - len (@nil Z)) (upto (limit (drop_header f)) (stream (rd c))))). split; [done|].
    assert (0 <= limit f) by (by destruct Hf). change (limit (drop_header f)) with (limit f). change (maxControlFramePayloadLength - len (@nil Z)) with 125.
    rewrite !len_upto_min by lia. lia. }
  rewrite E2. cbn [mbind option_bind app]. assert (L2 : left_over 0 r1 r2) by (by eapply left_over_from). pose proof (left_over_trans 0 0 _ _ _ L1 L2) as L.
  destruct (_ =? PingFrame); [|eexists _, _, _; split; [reflexivity|]; split; [by apply moved_rd|]; split; [done|]; by intros ?].
  unfold WritePong. match goal with |- context [write_frame PongFrame ?m _] => destruct (write_frame_total PongFrame m (set_rd r2 c) Hk) as (n & e3 & c3 & E3 & M3 & F3 & _) end.
  rewrite E3. cbn [mbind option_bind]. eexists _, _, _. split; [reflexivity|]. split; [exact (moved_trans 0 0 _ _ _ (moved_rd 0 c r2 L) M3)|]. split; [done|]. by intros ?.
Qed.

Lemma next_frame_total fuel : forall c, conn_ok c -> (length (stream (rd c)) < fuel)%nat ->
  exists x c', next_frame fuel c = (Some x, c') /\ moved 0 c c' /\ frameReader c' = frameReader c /\ match x with inl _ => True | inr f => frame_ok f /\ moved 2 c c' end.
Proof.
  induction fuel as [|fuel IH]; intros c Hc Hfuel; [lia|]. cbn [next_frame]. destruct (NewFrameReader_parses (rd c) (co_bytes _ Hc)) as (x & r1 & E1 & L1 & H1).
  rewrite E1. pose proof (moved_rd 0 c r1 L1) as M1. destruct x as [e|f].
  { eexists _, _. split; [reflexivity|]. split; [done|done]. }
  destruct H1 as [Hf L2]. pose proof (moved_rd 2 c r1 L2) as M2. assert (Hc1 : conn_ok (set_rd r1 c)) by (apply (moved_ok 0 c); [done|done|apply (co_frame _ Hc)]).
  destruct (HandleFrame_total f (set_rd r1 c) Hf Hc1) as (o & e & c2 & E2 & M & F & Ho). rewrite E2. pose proof (moved_trans 2 0 _ _ _ M2 M) as M3. pose proof (moved_trans 0 0 _ _ _ M1 M) as M4.
  destruct e as [e|]; [destruct o; by eexists _, _|]. destruct o as [f'|].
  - eexists _, _. split; [reflexivity|]. split; [done|]. split; [done|]. split; [by apply Ho|done].
  - assert (Hc2 : conn_ok c2) by (apply (moved_ok 0 c); [done|done|rewrite F; apply (co_frame _ Hc)]).
    pose proof (left_over_length _ _ _ (mv_left _ _ _ M3)). destruct (IH c2 Hc2 ltac:(lia)) as (x & c3 & E3 & M5 & F3 & Hx). exists x, c3. rewrite E3. split; [done|].
    split; [exact (moved_trans 0 0 _ _ _ M4 M5)|]. split; [by rewrite F3, F|]. destruct x as [|f']; [done|]. destruct Hx as [Hf' M6]. split; [done|].
    exact (moved_trans 0 2 _ _ _ M4 M6).
Qed.

(** The bytes to come, and one for a frame that may be at its end. *)
Definition measure (c : Conn) : nat := length (stream (rd c)) + if frameReader c is Some _ then 1 else 0.

Lemma Conn_Read_total fuel k : 0 <= k -> forall c, conn_ok c -> (measure c < fuel)%nat ->
  exists d e c', Conn_Read fuel k c = Some (d, e, c') /\ conn_ok c' /\ len d <= k /\ (e = None -> 0 < k -> 0 < len d).
Proof.
  intros Hk. induction fuel as [|fuel IH]; intros c Hc Hfuel; [lia|].
  assert (Hread : forall f c1 n, frame_ok f -> conn_ok c1 -> moved n c c1 -> (length (stream (rd c)) < n + fuel)%nat -> exists d e c',
    ('(d, e, f, r) ← frame_Read k f (rd c1); let c := set_frameReader (Some f) (set_rd r c1) in if bool_decide (e = Some EOF) then Conn_Read fuel k (set_frameReader None c) else Some (d, e, c)) = Some (d, e, c') /\
    conn_ok c' /\ len d <= k /\ (e = None -> 0 < k -> 0 < len d)).
  { intros f c1 n Hf Hc1 M1 Hn. destruct (frame_Read_total k f (rd c1) Hf Hk) as (d & e & f' & r' & E & Hf' & L & Hd & Hpos). rewrite E. cbn [mbind option_bind]. cbn zeta. pose proof (moved_rd 0 c1 r' L) as M2.
    case_bool_decide as He.
    - apply IH; [apply (moved_ok 0 c1 (set_frameReader None (set_rd r' c1))); [by destruct M2|done|done]|]. pose proof (left_over_length _ _ _ L). pose proof (left_over_length _ _ _ (mv_left _ _ _ M1)).
      unfold measure. cbn. lia.
    - eexists _, _, _. split; [reflexivity|]. split; [|done]. apply (moved_ok 0 c1); [by destruct M2|done|]. by intros ? [= <-]. }
  cbn [Conn_Read]. unfold measure in Hfuel. destruct (frameReader c) as [f|] eqn:Ef.
  - apply (Hread f c 0%nat); [by apply (co_frame _ Hc)|done|apply moved_refl|lia].
  - destruct (next_frame_total (all_fuel (rd c)) c Hc ltac:(unfold all_fuel, stream; lia)) as (x & c1 & E1 & M1 & F1 & Hx). rewrite E1.
    assert (Hc1 : conn_ok c1) by (apply (moved_ok 0 c); [done|done|rewrite F1; apply (co_frame _ Hc)]). destruct x as [e|f].
    + eexists _, _, _. split; [reflexivity|]. split; [by apply set_frameReader_ok|]. split; [done|]. by intros ?.
    + destruct Hx as [Hf M2]. apply (Hread f c1 2%nat); [done|done|done|lia].
Qed.

Lemma discard_total c : conn_ok c -> exists e c', discard_frame c = Some (e, c') /\ conn_ok c'.
Proof.
  intros Hc. unfold discard_frame. destruct (frameReader c) as [f|] eqn:Ef; [|by eexists _, _].
  destruct (io_ReadAll_spec (all_fuel (rd c)) 8192 f (rd c) []) as (f' & r' & E & S & F & _ & Hf'); [by apply (co_frame _ Hc)|done|unfold all_fuel, stream; lia|].
  rewrite E. cbn [mbind option_bind]. assert (M : moved 0 c (set_rd r' c)) by (apply moved_rd; by eapply left_over_from).
  assert (Hr : conn_ok (set_rd r' c)) by (apply (moved_ok 0 c); [done|done|apply (co_frame _ Hc)]).
  destruct (short_error f (rd c)); eexists _, _; (split; [reflexivity|]); (apply set_frameReader_ok; [done|]); [by intros ? [= <-]|done].
Qed.

Lemma Receive_total cd t c : conn_ok c -> exists x c', Receive cd t c = Some (x, c') /\ conn_ok c'.
Proof.
  intros Hc. unfold Receive. destruct (discard_total c Hc) as (e & c1 & -> & Hc1). cbn [mbind option_bind]. destruct e as [e|]; [by eexists _, _|].
  destruct (next_frame_total (all_fuel (rd c1)) c1 Hc1 ltac:(unfold all_fuel, stream; lia)) as (x & c2 & E2 & M2 & F2 & Hx). rewrite E2.
  assert (Hc2 : conn_ok c2) by (apply (moved_ok 0 c1); [done|done|rewrite F2; apply (co_frame _ Hc1)]). destruct x as [e|f]; [by eexists _, _|].
  cbn zeta. destruct (_ <? _).
  { eexists _, _. split; [reflexivity|]. apply set_frameReader_ok; [done|]. intros ? [= <-]. apply Hx. }
  destruct (io_ReadAll_spec (all_fuel (rd c2)) 512 f (rd c2) []) as (f' & r' & E & S & F & _ & Hf'); [apply Hx|done|unfold all_fuel, stream; lia|].
  rewrite E. cbn [mbind option_bind]. assert (Hc3 : conn_ok (set_rd r' c2)) by (apply (moved_ok 0 c2); [apply moved_rd; by eapply left_over_from|done|apply (co_frame _ Hc2)]).
  destruct (short_error f (rd c2)); by eexists _, _.
Qed.

Lemma write_total op msg c : conn_ok c -> exists n e c', write_frame op msg c = Some (n, e, c') /\ conn_ok c'.
Proof.
  intros Hc. destruct (write_frame_total op msg c (co_keys _ Hc)) as (n & e & c' & E & M & F & _). exists n, e, c'. split; [done|].
  apply (moved_ok 0 c); [done|done|]. rewrite F. apply (co_frame _ Hc).
Qed.

(** C20. No bytes of the peer make a WebSocket connection panic or loop, whatever
    the pieces they come in, the error after them and the failures of writing:
    from every state that satisfies the invariant (that of a new connection does)
    each call of [Read], [Write], [Close], [Receive] and [Send] returns and keeps
    the invariant, and [Read] returns at most what fits, and something unless it
    returns an error. *)
Theorem calls_return c : conn_ok c ->
  (forall k, 0 <= k -> exists d e c', Conn_Read (read_fuel c) k c = Some (d, e, c') /\ conn_ok c' /\ len d <= k /\ (e = None -> 0 < k -> 0 < len d)) /\
  (forall cd t, exists x c', Receive cd t c = Some (x, c') /\ conn_ok c') /\
  (forall cd v, exists e c', Send cd v c = Some (e, c') /\ conn_ok c') /\
  (forall msg, exists n e c', Conn_Write msg c = Some (n, e, c') /\ conn_ok c') /\
  (exists e c', Conn_Close c = Some (e, c') /\ conn_ok c').
Proof.
  intros Hc. split_and!.
  - intros k Hk. apply Conn_Read_total; [done|done|]. unfold measure, read_fuel, all_fuel, stream. destruct (frameReader c); lia.
  - intros cd t. by apply Receive_total.
  - intros cd v. unfold Send. destruct (Marshal cd v) as [e|[d t]]; [by eexists _, _|].
    destruct (write_total t d c Hc) as (n & e & c' & -> & Hc'). by eexists _, _.
  - intros msg. by apply write_total.
  - unfold Conn_Close, WriteClose. destruct (write_total CloseFrame (be_put 2 (u16 (defaultCloseStatus c))) c Hc) as (n & e & c' & -> & Hc'). cbn [mbind option_bind].
    eexists _, _. split; [reflexivity|]. by destruct Hc'.
Qed.

Lemma calls_return_witness : let c := newHybiConn true (mkReader [[0x81; 0xFF; 0x80]; [0; 0]] ErrRead) (mkWriter [] [] (Some 3) false) [] None in
  conn_ok c /\ exists x c', Receive Message TString c = Some (x, c') /\ conn_ok c'.
Proof.
  intros c. assert (H : conn_ok c).
  { constructor; [by intros ?|apply (bool_decide_eq_true_1 _); vm_compute; reflexivity|by apply Forall_nil]. }
  split; [exact H|]. exact (proj1 (proj2 (calls_return c H)) Message TString).
Defined.

(** * Frames that are refused *)

Lemma Receive_first cd t c x s : frameReader c = None -> (exists server, wire_ok server x) -> stream (rd c) = wire_bytes x ++ s ->
  exists hdr r', stream r' = masked (w_key x) 0 (w_data x) ++ s /\ fin r' = fin (rd c) /\
    forall e c', HandleFrame (frame_of x hdr) (set_rd r' c) = Some (None, Some e, c') -> Receive cd t c = Some (inl e, c').
Proof.
  intros Hn [server Hok] Hs. destruct (read_header _ _ _ _ Hok Hs) as (hdr & r' & E & S & F). exists hdr, r'. split; [done|]. split; [done|]. intros e c' H.
  unfold Receive, discard_frame. rewrite Hn. cbn [mbind option_bind]. unfold all_fuel at 1. cbn [next_frame]. by rewrite E, H.
Qed.

(** What [Receive] refuses: a frame that is masked for the wrong side ends
    the connection with [io.EOF] and a close frame of status 1002; so does a
    close frame, without an answer; data beyond the limit gives
    [ErrFrameTooLarge], and the call after it skips the data and receives the
    next message. *)
Lemma refused_frames cd t c x s : frameReader c = None -> stream (rd c) = wire_bytes x ++ s -> can_write 1 c ->
  (wire_ok (negb (is_server c)) x -> exists r', Receive cd t c = Some (inl EOF, wrote [(CloseFrame, [0x03; 0xEA])] (set_rd r' c))) /\
  (wire_ok (is_server c) x -> w_op x = CloseFrame -> exists r', Receive cd t c = Some (inl EOF, set_rd r' c)) /\
  (wire_ok (is_server c) x -> is_data x = true -> max_payload c < len (w_data x) -> exists c1, Receive cd t c = Some (inl ErrFrameTooLarge, c1) /\
    forall y s', s = wire_bytes y ++ s' -> wire_ok (is_server c) y -> is_data y = true -> len (w_data y) <= max_payload c ->
      exists c2, Receive cd t c1 = Some (Unmarshal cd (w_data y) (data_type y c1) t, c2) /\ stream (rd c2) = s').
Proof.
  intros Hn Hs Hw. split_and!.
  - intros Hok. destruct (Receive_first cd t c x s Hn (ex_intro _ _ Hok) Hs) as (hdr & r' & _ & _ & H). exists r'. apply H. unfold HandleFrame.
    cbn [frame_of header MaskingKey]. rewrite (wo_masked _ _ Hok). unfold IsServerConn. change (is_server (set_rd r' c)) with (is_server c). rewrite Bool.eqb_negb1. cbn [negb].
    unfold WriteClose. destruct (write_frame_spec 0 CloseFrame (be_put 2 (u16 closeStatusProtocolError)) (set_rd r' c) Hw) as [E _]. by rewrite E.
  - intros Hok Hop. destruct (Receive_first cd t c x s Hn (ex_intro _ _ Hok) Hs) as (hdr & r' & _ & _ & H). exists r'. apply H. unfold HandleFrame.
    cbn [frame_of header MaskingKey]. rewrite (wo_masked _ _ Hok). unfold IsServerConn. change (is_server (set_rd r' c)) with (is_server c). rewrite Bool.eqb_reflx. cbn [negb]. cbn zeta.
    change (OpCode _) with (w_op x). by rewrite Hop.
  - intros Hok Hd Hlen. destruct (next_frame_data [] x 1 c s) as (hdr & r1 & E1 & S1 & F1 & W1); [by constructor|done|done|done|done|]. cbn [pongs mbind list_bind] in *.
    set (c1 := set_handler_type (data_type x c) (wrote [] (set_rd r1 c))) in *. set (f := set_OpCode _ _) in *. exists (set_frameReader (Some f) c1).
    split. { unfold Receive, discard_frame. rewrite Hn. cbn [mbind option_bind]. rewrite E1. change (if MaxPayloadBytes c1 =? 0 then _ else _) with (max_payload c). change (Length (header f)) with (len (w_data x)). by rewrite (proj2 (Z.ltb_lt _ _)). }
    intros y s' -> Hy Hdy Hly. assert (Hf : frame_ok f) by (pose proof (frame_of_ok _ x hdr Hok) as [H1 H2 H3 H4]; by constructor).
    destruct (io_ReadAll_spec (all_fuel r1) 8192 f r1 [] Hf) as (f2 & r2 & E2 & S2 & F2 & _ & _); [done|unfold all_fuel, stream; lia|].
    assert (Her : short_error f r1 = None).
    { unfold short_error. rewrite S1, len_app, masked_len. change (limit f) with (len (w_data x)). pose proof (len_nonneg (wire_bytes y ++ s')). by rewrite (proj2 (Z.leb_le _ _)) by lia. }
    assert (Hs2 : stream r2 = wire_bytes y ++ s') by (rewrite S2, S1; apply from_app_len; by rewrite masked_len).
    destruct (Receive_data cd t [] y 1 (set_rd r2 c1) s') as (r3 & E3 & S3 & _); [done|by constructor|done|done|done|done|exact W1|].
    exists (set_handler_type (data_type y (set_rd r2 c1)) (wrote (pongs []) (set_rd r3 (set_rd r2 c1)))). split; [|exact S3].
    change (data_type y (set_frameReader (Some f) c1)) with (data_type y (set_rd r2 c1)). rewrite <- E3.
    assert (Enone : set_frameReader None (set_rd r2 (set_frameReader (Some f) c1)) = set_rd r2 c1) by (unfold c1; clear -Hn; destruct c; cbn in *; by subst).
    unfold Receive, discard_frame. cbn [frameReader set_frameReader]. change (rd (set_frameReader (Some f) c1)) with r1. rewrite E2, Her. cbn [mbind option_bind]. rewrite Enone.
    change (frameReader (set_rd r2 c1)) with (frameReader c). by rewrite Hn.
Qed.

Lemma refused_frames_witness : let x := mkWire None TextFrame (str "no") in let c := newHybiConn true (mkReader [wire_bytes x] EOF) no_writer [] None in
  wire_ok (negb (is_server c)) x /\ exists r', Receive Message TString c = Some (inl EOF, wrote [(CloseFrame, [0x03; 0xEA])] (set_rd r' c)).
Proof.
  intros x c. assert (Hx : wire_ok (negb (is_server c)) x) by (by constructor). split; [exact Hx|].
  assert (Hw : can_write 1 c) by (split; [by split_and!|done]).
  exact (proj1 (refused_frames Message TString c x [] eq_refl eq_refl Hw) Hx).
Defined.

(** * Frames that are not refused *)

Definition sample_server (ps : list bytes) : Conn := newHybiConn true (mkReader ps EOF) no_writer [] None.
Definition zero_key : option bytes := Some [0; 0; 0; 0].

(** The results of two calls of [Receive]. *)
Definition two_results (ps : list bytes) : option (list (ws_error + value)) := fst <$> receives Message [TString; TString] (sample_server ps).

(** The connection ends within a frame: what came is received as a message. *)
Lemma truncated_received : two_results [upto 9 (wire_bytes (mkWire zero_key TextFrame (str "shutdown")))] = Some [inr (VString (str "shu")); inl EOF].
Proof. vm_compute. reflexivity. Qed.

(** A frame with a reserved opcode, and one with reserved bits, are data. *)
Lemma reserved_received : two_results [wire_bytes (mkWire zero_key 3 (str "x")); frame_bytes (mkHeader true (true, true, true) TextFrame 0 zero_key []) (str "y")] =
  Some [inr (VString (str "x")); inr (VString (str "y"))].
Proof. vm_compute. reflexivity. Qed.

(** After [io.EOF] for a close frame its payload is read as a frame. *)
Lemma close_payload_received : two_results [wire_bytes (mkWire zero_key CloseFrame (wire_bytes (mkWire zero_key TextFrame (str "x"))))] = Some [inl EOF; inr (VString (str "x"))].
Proof. vm_compute. reflexivity. Qed.

(** A message in two fragments is received as two messages. *)
Lemma fragments_received : two_results [frame_bytes (mkHeader false (false, false, false) TextFrame 0 zero_key []) (str "one "); wire_bytes (mkWire zero_key ContinuationFrame (str "two"))] =
  Some [inr (VString (str "one ")); inr (VString (str "two"))].
Proof. vm_compute. reflexivity. Qed.
