(* ===== verification/HtmlEscapeRT.v ===== *)
(** Unescaping in place and the round trip of escaping: [html/escape.go]. *)
From S2P Require Import Prelude Utf8 GoStrings HtmlEscape.

(** * The tables *)

Lemma map_index_in {A} `{!EqDecision A} (zero : A) m name : map_index zero m name <> zero -> exists k, (k, map_index zero m name) ∈ m /\ str k = name.
Proof.
  unfold map_index. destruct (find _ m) as [[k x]|] eqn:E; [|done]. intros _. apply find_some in E as [Hin Hk]. apply bool_decide_eq_true in Hk.
  exists k. split; [by apply list_elem_of_In|done].
Qed.

(** No name is shorter than what it stands for. *)
Lemma entity_sizes : Forall (fun p => len (encode_rune p.2) <= 1 + len (str p.1)) entity /\
  Forall (fun p => len (encode_rune p.2.1) + len (encode_rune p.2.2) <= 1 + len (str p.1)) entity2.
Proof. split; apply (bool_decide_eq_true_1 _); vm_compute; reflexivity. Qed.

Lemma entity_size name : map_index 0 entity name <> 0 -> len (encode_rune (map_index 0 entity name)) <= 1 + len name.
Proof. intros (k & Hin & <-)%map_index_in. exact (proj1 (Forall_forall _ _) (proj1 entity_sizes) _ Hin). Qed.

Lemma entity2_size name x0 x1 : map_index (0, 0) entity2 name = (x0, x1) -> x0 <> 0 -> len (encode_rune x0) + len (encode_rune x1) <= 1 + len name.
Proof.
  intros E Hx. destruct (map_index_in (0, 0) entity2 name) as (k & Hin & <-); [congruence|]. rewrite E in Hin. exact (proj1 (Forall_forall _ _) (proj2 entity_sizes) _ Hin).
Qed.

(** * What an entity reads and writes *)

Lemma numeric_loop_bound hex s i x : i <= (numeric_loop hex s i x).2 <= i + len s.
Proof.
  revert i x. induction s as [|c s IH]; intros i x; cbn [numeric_loop]; [rewrite len_nil; cbn; lia|]. rewrite len_cons. pose proof (len_nonneg s).
  assert (Hstop : i <= (x, if c =? chr ";" then i + 1 else i).2 <= i + (len s + 1)) by (cbn; z_cases; lia).
  assert (Hgo : forall y, i <= (numeric_loop hex s (i + 1) y).2 <= i + (len s + 1)) by (intros y; specialize (IH (i + 1) y); lia).
  destruct hex; [destruct (is_num c); [apply Hgo|]; destruct (between (chr "a") _ c); [apply Hgo|]; destruct (between (chr "A") _ c); [apply Hgo|exact Hstop]|].
  destruct (is_num c); [apply Hgo|exact Hstop].
Qed.

Lemma name_loop_bound s i : i <= name_loop s i <= i + len s.
Proof.
  revert i. induction s as [|c s IH]; intros i; cbn [name_loop]; [rewrite len_nil; lia|]. rewrite len_cons. pose proof (len_nonneg s). specialize (IH (i + 1)).
  repeat case_match; lia.
Qed.

Lemma prefix_loop_some j name x k : prefix_loop j name = Some (x, k) -> 2 <= k <= Z.of_nat j /\ x = map_index 0 entity (upto k name) /\ x <> 0.
Proof.
  induction j as [|j IH]; [done|]. cbn [prefix_loop]. destruct j as [|j]; [done|]. destruct (negb _) eqn:E; [|intros H%IH; lia].
  intros [= <- <-]. split; [lia|]. split; [done|]. by apply negb_true_iff, Z.eqb_neq in E.
Qed.

Lemma encode_rune_len r : 1 <= len (encode_rune r) <= 4.
Proof. pose proof (encode_rune_length r). unfold len. lia. Qed.

Lemma len_upto_le {A} n (l : list A) : 0 <= n -> len (upto n l) <= n.
Proof. intros. unfold len, upto. rewrite length_take. lia. Qed.

(** An entity reads a byte at least and writes no more than it reads. *)
Lemma entity_at_size s attribute : s <> [] -> 1 <= (entity_at s attribute).2 <= len s /\ len (entity_at s attribute).1 <= (entity_at s attribute).2.
Proof.
  intros Hs. assert (Hpos : 1 <= len s) by (destruct s; [done|rewrite len_cons; pose proof (len_nonneg s); lia]).
  assert (Hlit : 1 <= (upto 1 s, 1).2 <= len s /\ len (upto 1 s, 1).1 <= (upto 1 s, 1).2) by (cbn [fst snd]; rewrite len_upto by lia; lia).
  unfold entity_at. destruct (len s <=? 1); [exact Hlit|]. destruct s as [|c0 [|c1 s2]]; [done|exact Hlit|]. rewrite !len_cons in *. pose proof (len_nonneg s2).
  destruct (c1 =? chr "#").
  - destruct (Z.leb_spec (len s2 + 1 + 1) 3); [exact Hlit|]. set (h := (_ =? _) || (_ =? _)).
    assert (Hb : forall x i, (if h then numeric_loop h (tail s2) 3 0 else numeric_loop h s2 2 0) = (x, i) -> i <= len s2 + 1 + 1).
    { intros x i E. destruct s2 as [|c s2]; [change (len (@nil Z)) with 0 in *; lia|]. rewrite len_cons in *. cbn [tail] in E.
      destruct h; [pose proof (numeric_loop_bound true s2 3 0) as Hb|pose proof (numeric_loop_bound false (c :: s2) 2 0) as Hb; rewrite len_cons in Hb]; rewrite E in Hb; cbn in Hb; lia. }
    destruct (if h then _ else _) as [x i]. specialize (Hb x i eq_refl). destruct (Z.leb_spec i 3); [exact Hlit|]. cbn [fst snd]. pose proof (encode_rune_len (numeric_rune x)). lia.
  - set (i := name_loop (c1 :: s2) 1). assert (Hi : 1 <= i <= len s2 + 1 + 1) by (pose proof (name_loop_bound (c1 :: s2) 1) as Hb; rewrite len_cons in Hb; fold i in Hb; lia).
    set (s := c0 :: c1 :: s2) in *. assert (Hls : len s = len s2 + 1 + 1) by (unfold s; by rewrite !len_cons).
    assert (Hcopy : 1 <= (upto i s, i).2 <= len s2 + 1 + 1 /\ len (upto i s, i).1 <= (upto i s, i).2) by (cbn [fst snd]; rewrite len_upto by lia; lia).
    assert (Hname : len (from 1 (upto i s)) = i - 1) by (rewrite len_from; rewrite len_upto by lia; lia).
    destruct (bool_decide _); [exact Hcopy|]. destruct (_ && _); [exact Hcopy|]. cbn zeta.
    destruct (map_index (0, 0) entity2 _) as [x0 x1] eqn:E2. destruct (negb (_ =? 0)) eqn:Ex.
    { apply negb_true_iff, Z.eqb_neq in Ex. pose proof (entity_size _ Ex). cbn [fst snd]. lia. }
    destruct (negb (x0 =? 0)) eqn:Ex0. { apply negb_true_iff, Z.eqb_neq in Ex0. pose proof (entity2_size _ _ _ E2 Ex0). cbn [fst snd]. rewrite len_app. lia. }
    destruct (negb attribute); [|exact Hcopy]. set (m := if _ <? _ then _ else _).
    assert (Hm : m <= i - 2) by (unfold m, longestEntityWithoutSemicolon; rewrite Hname; z_cases; lia).
    destruct (prefix_loop (Z.to_nat m) _) as [[x k]|] eqn:Ep; [|exact Hcopy]. apply prefix_loop_some in Ep as (Hk & -> & Hx). pose proof (entity_size _ Hx) as Hsz.
    pose proof (len_upto_le k (from 1 (upto i s)) ltac:(lia)). cbn [fst snd]. lia.
Qed.

(** * Unescaping in place *)

(** The reference: what the text says, read from left to right. *)
Fixpoint unescape_ref (fuel : nat) (attribute : bool) (s : bytes) : bytes :=
  match fuel, s with
  | S fuel, c :: s' =>
      if c =? chr "&" then let '(out, n) := entity_at s attribute in out ++ unescape_ref fuel attribute (from n s)
      else c :: unescape_ref fuel attribute s'
  | _, _ => []
  end.
Definition unescaped (attribute : bool) (s : bytes) : bytes := unescape_ref (length s) attribute s.

Lemma length_from {A} n (l : list A) : length (from n l) = (length l - Z.to_nat n)%nat.
Proof. apply length_drop. Qed.

Lemma unescape_ref_fuel attribute fuel : forall s, (length s <= fuel)%nat -> unescape_ref fuel attribute s = unescaped attribute s.
Proof.
  unfold unescaped. induction fuel as [fuel IH] using lt_wf_ind. intros [|c s] Hf; [by destruct fuel|]. destruct fuel as [|fuel]; [cbn in Hf; lia|]. cbn [unescape_ref length].
  cbn in Hf. destruct (c =? chr "&"); [|by rewrite !IH by lia]. destruct (entity_at_size (c :: s) attribute) as [Hn _]; [done|]. destruct (entity_at (c :: s) attribute) as [out n]. cbn [snd] in Hn.
  f_equal. assert ((length (from n (c :: s)) <= length s)%nat) by (rewrite length_from; cbn; lia). rewrite (IH fuel) by lia. rewrite (IH (length s)) by lia. done.
Qed.

Lemma unescaped_cons attribute c s : unescaped attribute (c :: s) =
  if c =? chr "&" then (entity_at (c :: s) attribute).1 ++ unescaped attribute (from (entity_at (c :: s) attribute).2 (c :: s)) else c :: unescaped attribute s.
Proof.
  unfold unescaped at 1. cbn [length unescape_ref]. destruct (c =? chr "&"); [|done]. destruct (entity_at_size (c :: s) attribute) as [Hn _]; [done|].
  destruct (entity_at (c :: s) attribute) as [out n]. cbn [fst snd] in *. f_equal. apply unescape_ref_fuel. rewrite length_from. cbn [length]. lia.
Qed.

(** What is written stays before what is still to be read. *)
Lemma write_at_ok dst out b src : 0 <= dst -> dst + len out <= src -> src <= len b ->
  exists b', write_at dst out b = Some b' /\ len b' = len b /\ upto (dst + len out) b' = upto dst b ++ out /\ from src b' = from src b.
Proof.
  intros Hd Hs Hb. pose proof (len_nonneg out). unfold write_at. rewrite (proj2 (Z.leb_le 0 dst)), (proj2 (Z.leb_le (dst + len out) _)) by lia. cbn [andb].
  eexists. split; [reflexivity|]. assert (Hu : len (upto dst b) = dst) by (apply len_upto; lia). rewrite !len_app, len_from, Hu by lia. split; [lia|]. split.
  - rewrite app_assoc. apply upto_app_len. rewrite len_app, Hu. done.
  - rewrite app_assoc. unfold from at 1. assert (Hl : length (upto dst b ++ out) = Z.to_nat (dst + len out)) by (rewrite length_app; unfold len in *; lia).
    rewrite drop_app_ge by lia. unfold from. rewrite drop_drop. f_equal. lia.
Qed.

Lemma from_cons_at {A} n (l : list A) x l' : 0 <= n -> from n l = x :: l' -> at_ l n = Some x /\ from (n + 1) l = l' /\ n < len l.
Proof.
  intros Hn E. destruct (from_cons _ _ _ _ Hn E) as [Ha Hf]. split; [done|]. split; [done|]. unfold at_ in Ha. rewrite decide_True in Ha by done. apply lookup_lt_Some in Ha. unfold len. lia.
Qed.

Lemma from_nil_at {A} n (l : list A) : 0 <= n <= len l -> from n l = [] -> n = len l.
Proof. intros Hn E. apply (f_equal len) in E. rewrite len_from, len_nil in E by lia. lia. Qed.

Lemma unescapeEntity_ok b dst src attribute c t : 0 <= dst <= src -> from src b = c :: t -> c = chr "&" ->
  let '(out, n) := entity_at (c :: t) attribute in exists b', unescapeEntity b dst src attribute = Some (b', dst + len out, src + n) /\ len b' = len b /\
    upto (dst + len out) b' = upto dst b ++ out /\ from (src + n) b' = from n (c :: t) /\ dst + len out <= src + n <= len b /\ 1 <= n.
Proof.
  intros Hd E ->. destruct (from_cons_at src b _ _ ltac:(lia) E) as (_ & _ & Hlt). pose proof (f_equal len E) as El. rewrite len_from in El by lia.
  destruct (entity_at_size (chr "&" :: t) attribute ltac:(done)) as [Hn Hout]. unfold unescapeEntity. rewrite E. destruct (entity_at (chr "&" :: t) attribute) as [out n]. cbn [fst snd] in *.
  destruct (write_at_ok dst out b (src + n)) as (b' & Ew & Hl & Hu & Hf); [lia|lia|lia|]. exists b'. rewrite Ew. cbn [mbind option_bind]. split; [done|]. split; [done|]. split; [done|].
  split; [|lia]. rewrite Hf. rewrite <- E. unfold from. rewrite drop_drop. f_equal. lia.
Qed.

Lemma unescape_loop_ok attribute fuel : forall b dst src t, 0 <= dst <= src -> src <= len b -> from src b = t -> (length t <= fuel)%nat ->
  exists b' n, unescape_loop fuel b dst src attribute = Some (b', n) /\ len b' = len b /\ dst <= n <= len b /\ upto n b' = upto dst b ++ unescaped attribute t.
Proof.
  induction fuel as [|fuel IH]; intros b dst src t Hd Hs E Hf; destruct t as [|c t]; cbn [unescape_loop length] in *; try lia.
  1, 2: rewrite (from_nil_at src b ltac:(lia) E), (proj2 (Z.ltb_ge _ _)) by lia; exists b, dst; rewrite app_nil_r; split_and!; try done; lia.
  destruct (from_cons_at src b _ _ ltac:(lia) E) as (Ea & En & Hlt). rewrite (proj2 (Z.ltb_lt _ _)) by lia. rewrite Ea. cbn [mbind option_bind]. rewrite unescaped_cons.
  destruct (Z.eqb_spec c (chr "&")) as [Hc|Hc].
  - pose proof (unescapeEntity_ok b dst src attribute c t Hd E Hc) as Hu. destruct (entity_at (c :: t) attribute) as [out n]. destruct Hu as (b1 & E1 & Hl & Hup & Hfr & Hle & Hn). rewrite E1. cbn [mbind option_bind fst snd].
    destruct (IH b1 (dst + len out) (src + n) (from n (c :: t))) as (b2 & m & E2 & Hl2 & Hm & Hup2); [pose proof (len_nonneg out); lia|lia|done|rewrite length_from; cbn [length]; lia|].
    exists b2, m. rewrite E2, Hup2, Hup, <- app_assoc. pose proof (len_nonneg out). split_and!; try done; lia.
  - destruct (write_at_ok dst [c] b (src + 1)) as (b1 & E1 & Hl & Hup & Hfr); [lia|change (len [c]) with 1; lia|lia|]. change (len [c]) with 1 in *. rewrite E1. cbn [mbind option_bind].
    destruct (IH b1 (dst + 1) (src + 1) t) as (b2 & m & E2 & Hl2 & Hm & Hup2); [lia|lia|by rewrite Hfr|lia|].
    exists b2, m. rewrite E2, Hup2, Hup, <- app_assoc. split_and!; try done; lia.
Qed.

Lemma unescaped_prefix attribute s t : chr "&" ∉ s -> unescaped attribute (s ++ t) = s ++ unescaped attribute t.
Proof.
  induction s as [|c s IH]; [done|]. intros [Hc Hs]%not_elem_of_cons. cbn [app]. rewrite unescaped_cons, (proj2 (Z.eqb_neq c _)) by congruence. by rewrite IH.
Qed.

Lemma IndexByte_neg s c : IndexByte s c < 0 -> c ∉ s.
Proof.
  induction s as [|b s IH]; [intros _; apply not_elem_of_nil|]. cbn [IndexByte]. destruct (Z.eqb_spec b c) as [|Hne]; [lia|]. cbv zeta. z_cases; [|lia].
  intros _. apply not_elem_of_cons. split; [congruence|]. by apply IH.
Qed.

Lemma IndexByte_at s c : 0 <= IndexByte s c -> at_ s (IndexByte s c) = Some c.
Proof.
  induction s as [|b s IH]; [cbn; lia|]. cbn [IndexByte]. destruct (Z.eqb_spec b c) as [->|Hne]; [done|]. cbv zeta. z_cases; [lia|]. intros _. specialize (IH ltac:(lia)).
  unfold at_ in *. destruct (decide (0 <= IndexByte s c)); [|done]. rewrite decide_True by lia. by rewrite Z.add_1_r, Z2Nat.inj_succ by lia.
Qed.

(** [unescape] works in the array of its argument: it never writes past what it
    has read, and what it returns is the text from left to right. *)
Lemma unescape_ok b attribute : exists b' n, unescape b attribute = Some (b', n) /\ len b' = len b /\ 0 <= n <= len b /\ upto n b' = unescaped attribute b.
Proof.
  unfold unescape. set (i := IndexByte b (chr "&")). pose proof (IndexByte_bound b (chr "&")) as Hb. pose proof (IndexByte_upto b (chr "&")) as Hu. fold i in Hb, Hu.
  destruct (Z.ltb_spec i 0) as [Hi|Hi].
  - exists b, (len b). pose proof (len_nonneg b). split_and!; try done; try lia. rewrite <- (app_nil_r b) at 3. rewrite unescaped_prefix by (apply IndexByte_neg; lia). change (unescaped attribute []) with (@nil Z). rewrite app_nil_r. rewrite <- (app_nil_r b) at 2. by apply upto_app_len.
  - destruct (from i b) as [|c t] eqn:E; [apply from_nil_at in E; lia|]. destruct (from_cons_at i b c t ltac:(lia) E) as (Ea & _ & Hlt).
    assert (Hc : c = chr "&") by (pose proof (IndexByte_at b (chr "&")) as H; fold i in H; rewrite Ea in H; specialize (H ltac:(lia)); congruence).
    assert (Eb : unescaped attribute b = upto i b ++ unescaped attribute (c :: t)) by (rewrite <- E, <- unescaped_prefix by done; by rewrite upto_from).
    pose proof (unescapeEntity_ok b i i attribute c t ltac:(lia) E Hc) as H. rewrite Eb, unescaped_cons, (proj2 (Z.eqb_eq c _)) by done.
    destruct (entity_at (c :: t) attribute) as [out n]. destruct H as (b1 & E1 & Hl & Hup & Hfr & Hle & Hn). rewrite E1. cbn [mbind option_bind fst snd].
    pose proof (len_nonneg out). destruct (unescape_loop_ok attribute (length b1) b1 (i + len out) (i + n) (from n (c :: t))) as (b2 & m & E2 & Hl2 & Hm & Hup2); [lia|lia|done| |].
    { rewrite <- E, !length_from. unfold len in Hl. lia. }
    exists b2, m. rewrite E2, Hup2, Hup, <- app_assoc. split_and!; try done; lia.
Qed.

(** * Finding the ampersand among the runes *)

Lemma in_range_above P lo hi b : (forall r, RuneSelf <= r -> P r = false) -> 0x80 <= lo -> in_range lo hi b = true -> P b = false.
Proof. intros HP Hlo H%in_range_true. apply HP. unfold RuneSelf. lia. Qed.

(** The bytes a rune takes after its first one are none of ASCII. *)
Lemma decode_rune_tail P b s : (forall r, RuneSelf <= r -> P r = false) -> existsb P s = existsb P (drop (decode_rune b s).2 (b :: s)).
Proof.
  intros HP. unfold decode_rune. destruct (b <? RuneSelf); [by cbn; rewrite ?drop_0|]. destruct (first_byte b) as [[[n lo] hi]|] eqn:Hf; [|by cbn; rewrite ?drop_0].
  pose proof (fun c => in_range_above P lo hi c HP) as Hin. pose proof (fun c => in_range_above P 0x80 0xBF c HP ltac:(lia)) as Hc. fold (cont) in Hc.
  apply first_byte_ok in Hf as [(-> & _ & ->)|[(-> & _ & Hlo & _)|(-> & _ & Hlo & _)]].
  - destruct s as [|b1 s]; [by cbn; rewrite ?drop_0|]. destruct (in_range _ hi b1) eqn:E; [|by cbn; rewrite ?drop_0]. cbn. by rewrite (Hin b1 ltac:(lia) E), drop_0.
  - destruct s as [|b1 [|b2 s]]; [by cbn; rewrite ?drop_0..|]. destruct (_ && _) eqn:E; [|by cbn; rewrite ?drop_0]. apply andb_true_iff in E as [E1 E2]. cbn. by rewrite (Hin b1 Hlo E1), (Hc b2 E2), drop_0.
  - destruct s as [|b1 [|b2 [|b3 s]]]; [by cbn; rewrite ?drop_0..|]. destruct (_ && _) eqn:E; [|by cbn; rewrite ?drop_0]. apply andb_true_iff in E as [[E1 E2]%andb_true_iff E3]. cbn.
    by rewrite (Hin b1 Hlo E1), (Hc b2 E2), (Hc b3 E3), drop_0.
Qed.

Lemma decode_rune_width b s : (1 <= (decode_rune b s).2)%nat.
Proof. unfold decode_rune. repeat (case_match; try (cbn; lia)). Qed.

(** A search for an ASCII character can be made on the bytes. *)
Lemma existsb_runes P s : (forall r, RuneSelf <= r -> P r = false) -> bytes_ok s -> existsb P (runes s) = existsb P s.
Proof.
  intros HP. unfold runes, range_runes. generalize 0. assert (Hg : forall fuel s i, (length s <= fuel)%nat -> bytes_ok s -> existsb P (snd <$> runes_from fuel i s) = existsb P s); [|intros; by apply Hg].
  clear s. induction fuel as [|fuel IH]; intros [|b s] i Hf Hs; cbn [length] in Hf; try done; [lia|]. cbn [runes_from]. apply Forall_cons in Hs as [Hb Hs].
  pose proof (decode_rune_tail P b s HP) as Ht. destruct (decode_rune b s) as [r w] eqn:Ed. cbn [snd] in Ht. cbn [fmap list_fmap snd existsb].
  assert (Hw : (1 <= w)%nat) by (pose proof (decode_rune_width b s) as H; by rewrite Ed in H).
  rewrite IH; [|rewrite length_drop; cbn; lia|apply Forall_drop; by constructor]. rewrite Ht. f_equal.
  destruct (Z.lt_ge_cases b RuneSelf) as [Hlo|Hhi]; [by rewrite decode_rune_ascii in Ed by done; simplify_eq|]. rewrite (HP b) by done. apply HP.
  pose proof (decode_rune_high b s Hb Hhi) as H. by rewrite Ed in H.
Qed.

(** * Escaping *)

(** What is written for a byte. *)
Definition escaped1 (c : Z) : bytes := default [c] (esc_of c).

Lemma esc_of_special c : c ∈ escapedChars -> exists e, esc_of c = Some e.
Proof. unfold escapedChars. intros H. repeat (apply elem_of_cons in H as [->|H]; [by eexists|]). by apply not_elem_of_nil in H. Qed.

Lemma esc_of_plain c : c ∉ escapedChars -> esc_of c = None.
Proof.
  unfold escapedChars. rewrite !not_elem_of_cons. intros (H1 & H2 & H3 & H4 & H5 & H6 & _). unfold esc_of.
  by rewrite !(proj2 (Z.eqb_neq _ _)) by done.
Qed.

Lemma IndexAny_spec s chars : (IndexAny s chars = -1 /\ Forall (fun c => c ∉ chars) s) \/
  (exists c, 0 <= IndexAny s chars /\ s = upto (IndexAny s chars) s ++ c :: from (IndexAny s chars + 1) s /\ at_ s (IndexAny s chars) = Some c /\
   c ∈ chars /\ Forall (fun c => c ∉ chars) (upto (IndexAny s chars) s)).
Proof.
  induction s as [|b s IH]; [by left|]. cbn [IndexAny]. case_bool_decide as Hb; [right; exists b; split_and!; try done; constructor|].
  destruct IH as [[-> HF]|(c & Hi & E & Ea & Hc & HF)]; [left; split; [done|by constructor]|]. right. exists c. cbv zeta. rewrite (proj2 (Z.ltb_ge _ _)) by done.
  set (i := IndexAny s chars) in *. assert (Hi1 : Z.to_nat (i + 1) = S (Z.to_nat i)) by lia. assert (Hi2 : Z.to_nat (i + 1 + 1) = S (Z.to_nat (i + 1))) by lia.
  split; [lia|]. unfold upto, from, at_ in *. rewrite Hi2, Hi1 in *. cbn [take drop app]. rewrite decide_True in Ea by lia. rewrite decide_True by lia. rewrite <- Hi1.
  split_and!; [rewrite Hi1; by f_equal|by rewrite Hi1|done|by constructor].
Qed.

Lemma escaped_plain s : Forall (fun c => c ∉ escapedChars) s -> s ≫= escaped1 = s.
Proof. induction 1 as [|c s Hc _ IH]; [done|]. cbn. rewrite IH. unfold escaped1. by rewrite esc_of_plain. Qed.

Lemma escape_loop_ok fuel : forall s, (length s <= fuel)%nat -> escape_loop fuel s = Some (s ≫= escaped1).
Proof.
  induction fuel as [|fuel IH]; intros s Hf; cbn [escape_loop]; cbv zeta; destruct (IndexAny_spec s escapedChars) as [[-> HF]|(c & Hi & E & Ea & Hc & HF)].
  1, 3: by rewrite escaped_plain.
  - apply (f_equal length) in E. rewrite length_app in E. cbn in E. lia.
  - rewrite (proj2 (Z.eqb_neq _ _)), Ea by lia. destruct (esc_of_special c Hc) as [e Ee]. cbn [mbind option_bind]. rewrite Ee. cbn [mbind option_bind].
    set (i := IndexAny s escapedChars) in *. assert ((length (from (i + 1) s) <= fuel)%nat) by (apply (f_equal length) in E; rewrite length_app in E; cbn in E; lia).
    rewrite IH by done. cbn [mbind option_bind]. f_equal. rewrite E at 3. rewrite bind_app, (escaped_plain (upto i s)) by done. cbn [mbind list_bind]. unfold escaped1 at 2. by rewrite Ee.
Qed.

Lemma EscapeString_ok s : EscapeString s = Some (s ≫= escaped1).
Proof.
  unfold EscapeString, escape. destruct (IndexAny_spec s escapedChars) as [[-> HF]|(c & Hi & _)]; [by rewrite escaped_plain|].
  rewrite (proj2 (Z.eqb_neq _ _)) by lia. by apply escape_loop_ok.
Qed.

(** * Round trip *)

(** A name with its semicolon stands for its rune, whatever follows. *)
Lemma entity_at_name name x tl attribute : forallb (fun c => is_lower c || is_upper c || is_num c) name = true -> head name <> Some (chr "#") ->
  map_index 0 entity (name ++ [chr ";"]) = x -> x <> 0 -> entity_at (chr "&" :: name ++ chr ";" :: tl) attribute = (encode_rune x, len name + 2).
Proof.
  intros Hn Hh Hx Hx0. pose proof (len_nonneg name). pose proof (len_nonneg tl).
  assert (Hloop : forall nm i, forallb (fun c => is_lower c || is_upper c || is_num c) nm = true -> name_loop (nm ++ chr ";" :: tl) i = i + len nm + 1).
  { induction nm as [|c nm IH]; intros i Hnm; [change (len (@nil Z)) with 0; change (name_loop _ i) with (i + 1); lia|]. cbn [forallb] in Hnm. apply andb_true_iff in Hnm as [Hc Hnm].
    cbn [app name_loop]. rewrite Hc, IH, len_cons by done. lia. }
  assert (El : (len (chr "&" :: name ++ chr ";" :: tl) <=? 1) = false) by (rewrite len_cons, len_app, len_cons; apply Z.leb_gt; lia).
  unfold entity_at. rewrite El.
  destruct (name ++ chr ";" :: tl) as [|c1 s2] eqn:E; [by destruct name|].
  assert (Hc1 : (c1 =? chr "#") = false). { destruct name as [|c nm]; injection E as <- <-; [done|]. apply Z.eqb_neq. intros ->. by apply Hh. }
  rewrite Hc1, <- E, Hloop by done. assert (Eu : from 1 (upto (1 + len name + 1) (chr "&" :: name ++ chr ";" :: tl)) = name ++ [chr ";"]).
  { change (chr "&" :: name ++ chr ";" :: tl) with ([chr "&"] ++ name ++ [chr ";"] ++ tl). rewrite !app_assoc. rewrite upto_app_len by (rewrite !len_app; change (len [_]) with 1; lia).
    rewrite <- app_assoc. by rewrite from_app_len. }
  rewrite Eu. rewrite bool_decide_false by (by destruct name). replace (last_byte (name ++ [chr ";"]) =? chr ";") with true by (unfold last_byte; by rewrite last_snoc).
  cbn [negb]. rewrite andb_false_r. cbn [andb]. rewrite Hx. destruct (map_index (0, 0) entity2 _) as [x0 x1]. rewrite (proj2 (Z.eqb_neq x 0)) by done. cbn [negb]. f_equal. lia.
Qed.

Lemma numeric_loop_end digits tl : forallb is_num digits = true -> forall i x, numeric_loop false (digits ++ chr ";" :: tl) i x = (foldl (fun x c => i32 (10 * x + c - chr "0")) x digits, i + len digits + 1).
Proof.
  induction digits as [|c ds IH]; intros H i x; [change (len (@nil Z)) with 0; change (numeric_loop _ _ i x) with (x, i + 1); cbn; f_equal; lia|]. cbn [forallb] in H. apply andb_true_iff in H as [Hc H].
  cbn [app numeric_loop foldl]. rewrite Hc, IH, len_cons by done. f_equal. lia.
Qed.

(** A decimal reference with its semicolon. *)
Lemma entity_at_decimal d ds tl attribute : forallb is_num (d :: ds) = true ->
  entity_at (str "&#" ++ (d :: ds) ++ chr ";" :: tl) attribute = (encode_rune (numeric_rune (foldl (fun x c => i32 (10 * x + c - chr "0")) 0 (d :: ds))), len (d :: ds) + 3).
Proof.
  intros H. change (str "&#" ++ (d :: ds) ++ chr ";" :: tl) with (chr "&" :: chr "#" :: (d :: ds) ++ chr ";" :: tl). set (s2 := (d :: ds) ++ chr ";" :: tl).
  assert (Hl : len s2 = len ds + len tl + 2) by (unfold s2; rewrite len_app, !len_cons; lia). pose proof (len_nonneg ds). pose proof (len_nonneg tl).
  unfold entity_at. rewrite !len_cons, Hl, !(proj2 (Z.leb_gt _ _)) by lia. rewrite Z.eqb_refl. cbv zeta.
  replace (default 0 (head s2)) with d by done. cbn [forallb] in H. pose proof (proj1 (proj1 (andb_true_iff _ _) H)) as Hd.
  assert (Hx : (d =? chr "x") || (d =? chr "X") = false) by (unfold is_num, between in Hd; apply andb_true_iff in Hd as [Hd1 Hd2]; apply orb_false_iff; split; apply Z.eqb_neq; intros ->; discriminate Hd2).
  rewrite Hx. unfold s2. rewrite numeric_loop_end by done. rewrite len_cons, (proj2 (Z.leb_gt _ _)) by lia. f_equal. lia.
Qed.

Lemma entity_at_escape c e tl attribute : esc_of c = Some e -> exists e', e = chr "&" :: e' /\ entity_at (e ++ tl) attribute = ([c], len e).
Proof.
  unfold esc_of. intros E.
  repeat match type of E with (if c =? ?v then _ else _) = _ => destruct (Z.eqb_spec c v) as [->|_]; [injection E as <-; eexists; split; [reflexivity|]|] end; [..|done].
  - apply (entity_at_name (str "amp") (chr "&")); by vm_compute.
  - by apply (entity_at_decimal (chr "3") (str "9")).
  - apply (entity_at_name (str "lt") (chr "<")); by vm_compute.
  - apply (entity_at_name (str "gt") (chr ">")); by vm_compute.
  - by apply (entity_at_decimal (chr "3") (str "4")).
  - by apply (entity_at_decimal (chr "1") (str "3")).
Qed.

(** Unescaping what [EscapeString] gives is the text again. *)
Lemma unescaped_escaped s attribute : unescaped attribute (s ≫= escaped1) = s.
Proof.
  induction s as [|c s IH]; [done|]. change ((c :: s) ≫= escaped1) with (escaped1 c ++ (s ≫= escaped1)).
  destruct (esc_of c) as [e|] eqn:E; [replace (escaped1 c) with e by (unfold escaped1; by rewrite E)|replace (escaped1 c) with [c] by (unfold escaped1; by rewrite E)].
  - destruct (entity_at_escape c e (s ≫= escaped1) attribute E) as (e' & -> & He). change ((chr "&" :: e') ++ (s ≫= escaped1)) with (chr "&" :: (e' ++ (s ≫= escaped1))) in *.
    rewrite unescaped_cons, Z.eqb_refl, He. cbn [fst snd]. change (chr "&" :: e' ++ (s ≫= escaped1)) with ((chr "&" :: e') ++ (s ≫= escaped1)). rewrite from_app_len by done. by rewrite IH.
  - cbn [app]. rewrite unescaped_cons. destruct (Z.eqb_spec c (chr "&")) as [->|]; [done|]. by f_equal.
Qed.

Lemma existsb_false_not_in x s : existsb (fun c => c =? x) s = false -> x ∉ s.
Proof. intros H Hin. apply not_true_iff_false in H. apply H, existsb_exists. exists x. split; [by apply list_elem_of_In|by apply Z.eqb_refl]. Qed.

Lemma escaped1_bytes c : byte_ok c -> bytes_ok (escaped1 c).
Proof.
  intros Hc. unfold escaped1, esc_of. repeat match goal with |- context [if ?b then _ else _] => destruct b; [apply (bool_decide_eq_true_1 _); vm_compute; reflexivity|] end. by constructor.
Qed.

Lemma escaped1_clean c : Forall (fun c => c = chr "&" \/ c ∉ escapedChars) (escaped1 c).
Proof.
  destruct (decide (c ∈ escapedChars)) as [Hc|Hc].
  - unfold escapedChars in Hc. repeat (apply elem_of_cons in Hc as [->|Hc]; [apply (bool_decide_eq_true_1 _); vm_compute; reflexivity|]). by apply not_elem_of_nil in Hc.
  - unfold escaped1. rewrite esc_of_plain by done. constructor; [by right|constructor].
Qed.

(** What the text says, whether or not there is anything to do. *)
Lemma UnescapeString_ok s : bytes_ok s -> UnescapeString s = Some (unescaped false s).
Proof.
  intros Hs. unfold UnescapeString. rewrite existsb_runes; [|intros r Hr; apply Z.eqb_neq; intros ->; exact (Hr eq_refl)|done].
  destruct (existsb _ s) eqn:E.
  - destruct (unescape_ok s false) as (b & n & -> & _ & _ & Hu). cbn. by rewrite Hu.
  - f_equal. rewrite <- (app_nil_r s) at 2. rewrite unescaped_prefix by (by apply existsb_false_not_in). change (unescaped false []) with (@nil Z). by rewrite app_nil_r.
Qed.

(** * Properties *)

(** C33. [unescape] decodes text in the array it was given, as the tokenizer calls
    it on its own buffer: for every array, in a text and in an attribute, it
    returns without an index out of range, never writing past what it has read,
    and the text it leaves at the start of the array is what the references say
    read from left to right, one after the other, the rest being copied. *)
Theorem unescape_in_place b attribute :
  exists b' n, unescape b attribute = Some (b', n) /\ len b' = len b /\ 0 <= n <= len b /\ upto n b' = unescaped attribute b.
Proof. exact (unescape_ok b attribute). Qed.

(** C32. [UnescapeString(EscapeString(s)) == s always holds], as the comment of
    both functions has it: for every string, valid UTF-8 or not. And escaping
    leaves no [<], [>], quote or carriage return behind. *)
Theorem escape_roundtrip s : bytes_ok s ->
  exists e, EscapeString s = Some e /\ UnescapeString e = Some s /\ Forall (fun c => c = chr "&" \/ c ∉ escapedChars) e.
Proof.
  intros Hs. exists (s ≫= escaped1). split; [apply EscapeString_ok|]. split.
  - rewrite UnescapeString_ok by (apply Forall_bind; eapply Forall_impl; [exact Hs|intros; by apply escaped1_bytes]). by rewrite unescaped_escaped.
  - apply Forall_bind, Forall_forall. intros c _. by apply escaped1_clean.
Qed.

Lemma escape_roundtrip_witness : let s := str "a <b> & 'c'" ++ [13; 10; 255] in bytes_ok s /\
  (exists e, EscapeString s = Some e /\ UnescapeString e = Some s /\ Forall (fun c => c = chr "&" \/ c ∉ escapedChars) e).
Proof. assert (H : bytes_ok (str "a <b> & 'c'" ++ [13; 10; 255])) by (apply (bool_decide_eq_true_1 _); vm_compute; reflexivity). split; [exact H|exact (escape_roundtrip _ H)]. Defined.

(** * What the decoder does beside its comments *)

(** A number that does not fit in an [int32] wraps around to another character. *)
Lemma numeric_reference_wraps : UnescapeString (str "&#x100000041;") = Some (str "A").
Proof. vm_compute. reflexivity. Qed.

(** Without a single digit, a hexadecimal reference still counts as matched when it has its semicolon. *)
Lemma empty_hex_reference : UnescapeString (str "&#x;") = Some (encode_rune 0xFFFD) /\ UnescapeString (str "&#x") = Some (str "&#x") /\ UnescapeString (str "&#;a") = Some (str "&#;a").
Proof. vm_compute. split_and!; reflexivity. Qed.

(** A decimal reference of one digit needs its semicolon, one of two does not. *)
Lemma short_decimal_reference : UnescapeString (str "&#9a") = Some (str "&#9a") /\ UnescapeString (str "&#65a") = Some (str "Aa") /\ UnescapeString (str "&#9;a") = Some (9 :: str "a").
Proof. vm_compute. split_and!; reflexivity. Qed.

(** [EscapeString] escapes a sixth character. *)
Lemma carriage_return_escaped : EscapeString [13] = Some (str "&#13;").
Proof. reflexivity. Qed.
