(* ===== verification/HtmlAtom.v ===== *)
(** HTML names as numbers: [html/atom/atom.go] and its table [html/atom/table.go]. *)
From S2P Require Import Prelude.

(** * The table *)

(** The constants of the package. *)
Definition atoms : list (string * Z) :=
  [("A", 0x1); ("Abbr", 0x4); ("Accept", 0x2106); ("AcceptCharset", 0x210e); ("Accesskey", 0x3309);
   ("Action", 0x1f606); ("Address", 0x4f307); ("Align", 0x1105); ("Alt", 0x4503); ("Annotation", 0x1670a);
   ("AnnotationXml", 0x1670e); ("Applet", 0x2b306); ("Area", 0x2fa04); ("Article", 0x38807); ("Aside", 0x8305);
   ("Async", 0x7b05); ("Audio", 0xa605); ("Autocomplete", 0x1fc0c); ("Autofocus", 0xb309); ("Autoplay", 0xce08);
   ("B", 0x101); ("Base", 0xd604); ("Basefont", 0xd608); ("Bdi", 0x1a03); ("Bdo", 0xe703); ("Bgsound", 0x11807);
   ("Big", 0x12403); ("Blink", 0x12705); ("Blockquote", 0x12c0a); ("Body", 0x2f04); ("Br", 0x202);
   ("Button", 0x13606); ("Canvas", 0x7f06); ("Caption", 0x1bb07); ("Center", 0x5b506); ("Challenge", 0x21f09);
   ("Charset", 0x2807); ("Checked", 0x32807); ("Cite", 0x3c804); ("Class", 0x4de05); ("Code", 0x14904);
   ("Col", 0x15003); ("Colgroup", 0x15008); ("Color", 0x15d05); ("Cols", 0x16204); ("Colspan", 0x16207);
   ("Command", 0x17507); ("Content", 0x42307); ("Contenteditable", 0x4230f); ("Contextmenu", 0x3310b);
   ("Controls", 0x18808); ("Coords", 0x19406); ("Crossorigin", 0x19f0b); ("Data", 0x44a04); ("Datalist", 0x44a08);
   ("Datetime", 0x23c08); ("Dd", 0x26702); ("Default", 0x8607); ("Defer", 0x14b05); ("Del", 0x3ef03);
   ("Desc", 0x4db04); ("Details", 0x4807); ("Dfn", 0x6103); ("Dialog", 0x1b06); ("Dir", 0x6903);
   ("Dirname", 0x6907); ("Disabled", 0x10c08); ("Div", 0x11303); ("Dl", 0x11e02); ("Download", 0x40008);
   ("Draggable", 0x17b09); ("Dropzone", 0x39108); ("Dt", 0x50902); ("Em", 0x6502); ("Embed", 0x6505);
   ("Enctype", 0x21107); ("Face", 0x5b304); ("Fieldset", 0x1b008); ("Figcaption", 0x1b80a); ("Figure", 0x1cc06);
   ("Font", 0xda04); ("Footer", 0x8d06); ("For", 0x1d803); ("ForeignObject", 0x1d80d); ("Foreignobject", 0x1e50d);
   ("Form", 0x1f204); ("Formaction", 0x1f20a); ("Formenctype", 0x20d0b); ("Formmethod", 0x2280a);
   ("Formnovalidate", 0x2320e); ("Formtarget", 0x2470a); ("Frame", 0x9a05); ("Frameset", 0x9a08); ("H1", 0x26e02);
   ("H2", 0x29402); ("H3", 0x2a702); ("H4", 0x2e902); ("H5", 0x2f302); ("H6", 0x50b02); ("Head", 0x2d504);
   ("Header", 0x2d506); ("Headers", 0x2d507); ("Height", 0x25106); ("Hgroup", 0x25906); ("Hidden", 0x26506);
   ("High", 0x26b04); ("Hr", 0x27002); ("Href", 0x27004); ("Hreflang", 0x27008); ("Html", 0x25504);
   ("HttpEquiv", 0x2780a); ("I", 0x601); ("Icon", 0x42204); ("Id", 0x8502); ("Iframe", 0x29606); ("Image", 0x29c05);
   ("Img", 0x2a103); ("Input", 0x3e805); ("Inputmode", 0x3e809); ("Ins", 0x1a803); ("Isindex", 0x2a907);
   ("Ismap", 0x2b005); ("Itemid", 0x33c06); ("Itemprop", 0x3c908); ("Itemref", 0x5ad07); ("Itemscope", 0x2b909);
   ("Itemtype", 0x2c308); ("Kbd", 0x1903); ("Keygen", 0x3906); ("Keytype", 0x53707); ("Kind", 0x10904);
   ("Label", 0xf005); ("Lang", 0x27404); ("Legend", 0x18206); ("Li", 0x1202); ("Link", 0x12804); ("List", 0x44e04);
   ("Listing", 0x44e07); ("Loop", 0xf404); ("Low", 0x11f03); ("Malignmark", 0x100a); ("Manifest", 0x5f108);
   ("Map", 0x2b203); ("Mark", 0x1604); ("Marquee", 0x2cb07); ("Math", 0x2d204); ("Max", 0x2e103);
   ("Maxlength", 0x2e109); ("Media", 0x6e05); ("Mediagroup", 0x6e0a); ("Menu", 0x33804); ("Menuitem", 0x33808);
   ("Meta", 0x45d04); ("Meter", 0x24205); ("Method", 0x22c06); ("Mglyph", 0x2a206); ("Mi", 0x2eb02);
   ("Min", 0x2eb03); ("Minlength", 0x2eb09); ("Mn", 0x23502); ("Mo", 0x3ed02); ("Ms", 0x2bc02); ("Mtext", 0x2f505);
   ("Multiple", 0x30308); ("Muted", 0x30b05); ("Name", 0x6c04); ("Nav", 0x3e03); ("Nobr", 0x5704);
   ("Noembed", 0x6307); ("Noframes", 0x9808); ("Noscript", 0x3d208); ("Novalidate", 0x2360a); ("Object", 0x1ec06);
   ("Ol", 0xc902); ("Onabort", 0x13a07); ("Onafterprint", 0x1c00c); ("Onautocomplete", 0x1fa0e);
   ("Onautocompleteerror", 0x1fa13); ("Onbeforeprint", 0x6040d); ("Onbeforeunload", 0x4e70e); ("Onblur", 0xaa06);
   ("Oncancel", 0xe908); ("Oncanplay", 0x28509); ("Oncanplaythrough", 0x28510); ("Onchange", 0x3a708);
   ("Onclick", 0x31007); ("Onclose", 0x31707); ("Oncontextmenu", 0x32f0d); ("Oncuechange", 0x3420b);
   ("Ondblclick", 0x34d0a); ("Ondrag", 0x35706); ("Ondragend", 0x35709); ("Ondragenter", 0x3600b);
   ("Ondragleave", 0x36b0b); ("Ondragover", 0x3760a); ("Ondragstart", 0x3800b); ("Ondrop", 0x38f06);
   ("Ondurationchange", 0x39f10); ("Onemptied", 0x39609); ("Onended", 0x3af07); ("Onerror", 0x3b607);
   ("Onfocus", 0x3bd07); ("Onhashchange", 0x3da0c); ("Oninput", 0x3e607); ("Oninvalid", 0x3f209);
   ("Onkeydown", 0x3fb09); ("Onkeypress", 0x4080a); ("Onkeyup", 0x41807); ("Onlanguagechange", 0x43210);
   ("Onload", 0x44206); ("Onloadeddata", 0x4420c); ("Onloadedmetadata", 0x45510); ("Onloadstart", 0x46b0b);
   ("Onmessage", 0x47609); ("Onmousedown", 0x47f0b); ("Onmousemove", 0x48a0b); ("Onmouseout", 0x4950a);
   ("Onmouseover", 0x4a20b); ("Onmouseup", 0x4ad09); ("Onmousewheel", 0x4b60c); ("Onoffline", 0x4c209);
   ("Ononline", 0x4cb08); ("Onpagehide", 0x4d30a); ("Onpageshow", 0x4fe0a); ("Onpause", 0x50d07);
   ("Onplay", 0x51706); ("Onplaying", 0x51709); ("Onpopstate", 0x5200a); ("Onprogress", 0x52a0a);
   ("Onratechange", 0x53e0c); ("Onreset", 0x54a07); ("Onresize", 0x55108); ("Onscroll", 0x55f08);
   ("Onseeked", 0x56708); ("Onseeking", 0x56f09); ("Onselect", 0x57808); ("Onshow", 0x58206); ("Onsort", 0x58b06);
   ("Onstalled", 0x59509); ("Onstorage", 0x59e09); ("Onsubmit", 0x5a708); ("Onsuspend", 0x5bb09);
   ("Ontimeupdate", 0xdb0c); ("Ontoggle", 0x5c408); ("Onunload", 0x5cc08); ("Onvolumechange", 0x5d40e);
   ("Onwaiting", 0x5e209); ("Open", 0x3cf04); ("Optgroup", 0xf608); ("Optimum", 0x5eb07); ("Option", 0x60006);
   ("Output", 0x49c06); ("P", 0xc01); ("Param", 0xc05); ("Pattern", 0x5107); ("Ping", 0x7704);
   ("Placeholder", 0xc30b); ("Plaintext", 0xfd09); ("Poster", 0x15706); ("Pre", 0x25e03); ("Preload", 0x25e07);
   ("Progress", 0x52c08); ("Prompt", 0x5fa06); ("Public", 0x41e06); ("Q", 0x13101); ("Radiogroup", 0x30a);
   ("Readonly", 0x2fb08); ("Rel", 0x25f03); ("Required", 0x1d008); ("Reversed", 0x5a08); ("Rows", 0x9204);
   ("Rowspan", 0x9207); ("Rp", 0x1c602); ("Rt", 0x13f02); ("Ruby", 0xaf04); ("S", 0x2c01); ("Samp", 0x4e04);
   ("Sandbox", 0xbb07); ("Scope", 0x2bd05); ("Scoped", 0x2bd06); ("Script", 0x3d406); ("Seamless", 0x31c08);
   ("Section", 0x4e207); ("Select", 0x57a06); ("Selected", 0x57a08); ("Shape", 0x4f905); ("Size", 0x55504);
   ("Sizes", 0x55505); ("Small", 0x18f05); ("Sortable", 0x58d08); ("Sorted", 0x19906); ("Source", 0x1aa06);
   ("Spacer", 0x2db06); ("Span", 0x9504); ("Spellcheck", 0x3230a); ("Src", 0x3c303); ("Srcdoc", 0x3c306);
   ("Srclang", 0x41107); ("Start", 0x38605); ("Step", 0x5f704); ("Strike", 0x53306); ("Strong", 0x55906);
   ("Style", 0x61105); ("Sub", 0x5a903); ("Summary", 0x61607); ("Sup", 0x61d03); ("Svg", 0x62003);
   ("System", 0x62306); ("Tabindex", 0x46308); ("Table", 0x42d05); ("Target", 0x24b06); ("Tbody", 0x2e05);
   ("Td", 0x4702); ("Template", 0x62608); ("Textarea", 0x2f608); ("Tfoot", 0x8c05); ("Th", 0x22e02);
   ("Thead", 0x2d405); ("Time", 0xdd04); ("Title", 0xa105); ("Tr", 0x10502); ("Track", 0x10505);
   ("Translate", 0x14009); ("Tt", 0x5302); ("Type", 0x21404); ("Typemustmatch", 0x2140d); ("U", 0xb01);
   ("Ul", 0x8a02); ("Usemap", 0x51106); ("Value", 0x4005); ("Var", 0x11503); ("Video", 0x28105); ("Wbr", 0x12103);
   ("Width", 0x50705); ("Wrap", 0x58704); ("Xmp", 0xc103)].

Definition hash0 : Z := 0xc17da63e.
Definition maxAtomLen : Z := 19.

(** The array of 512 entries, 0 where there is none. *)
Definition table : list Z :=
  [0; 0x48a0b; 0x5e209; 0x1fa13; 0x5fa06; 0; 0; 0x5eb07; 0x1604; 0; 0x5ad07; 0x4fe0a; 0x57a06; 0x17b09; 0x3e03;
   0x17507; 0; 0xb01; 0; 0; 0x2d507; 0x44a08; 0; 0x4e04; 0; 0; 0x3fb09; 0x55f08; 0x15003; 0; 0; 0; 0x3c908; 0x2780a;
   0x61d03; 0; 0x1d008; 0; 0; 0; 0; 0; 0; 0x25e07; 0x6040d; 0x3600b; 0x50902; 0x5a708; 0x27002; 0x32f0d; 0; 0x29c05;
   0x50d07; 0x25906; 0x7704; 0x57808; 0; 0; 0x11303; 0x1fa0e; 0; 0; 0; 0; 0x2eb02; 0x31c08; 0x2807; 0x8502; 0x5200a;
   0x3ef03; 0x2cb07; 0x3309; 0; 0x8d06; 0x44e04; 0x2b005; 0; 0; 0; 0; 0; 0x33804; 0x2f04; 0; 0; 0x9a08; 0x54a07;
   0x12705; 0xa105; 0x38807; 0; 0x22e02; 0; 0x13101; 0x3cf04; 0x2fa04; 0; 0x44206; 0xda04; 0xd604; 0x16207; 0x53707;
   0x11e02; 0; 0x1b008; 0; 0x2eb03; 0x11503; 0; 0; 0; 0x2d506; 0x13f02; 0x15008; 0x23502; 0; 0x13a07; 0x3906;
   0x4c209; 0x21f09; 0x2b203; 0; 0x2e902; 0x3b607; 0x2e109; 0x2f505; 0xbb07; 0x58b06; 0x100a; 0x45d04; 0x7b05;
   0x2a702; 0x26702; 0x27004; 0x6e0a; 0x19406; 0x41107; 0x34d0a; 0x4005; 0; 0xe908; 0; 0x3230a; 0x9a05; 0; 0x12403;
   0; 0; 0x1f606; 0x6903; 0; 0x2fb08; 0; 0x42d05; 0x61607; 0x12103; 0x30a; 0x6c04; 0; 0x62306; 0; 0x15d05; 0x7f06;
   0x25504; 0; 0x56f09; 0; 0; 0; 0; 0; 0; 0x4f905; 0x25f03; 0x28510; 0x3760a; 0x62608; 0x1d80d; 0; 0x9204; 0; 0;
   0x44e07; 0x49c06; 0; 0x3310b; 0; 0x11f03; 0x1c602; 0x5bb09; 0x13606; 0x4db04; 0; 0x4e207; 0x52a0a; 0x59e09;
   0x2d204; 0x4503; 0; 0x8a02; 0x5107; 0x4b60c; 0x35709; 0xaf04; 0xc01; 0x31707; 0x24205; 0x11807; 0; 0; 0x25106; 0;
   0x101; 0x2c308; 0; 0; 0x1bb07; 0x10c08; 0; 0x33808; 0x62003; 0x18f05; 0x44a04; 0; 0x4cb08; 0x2a206; 0; 0x6505;
   0x10502; 0x46b0b; 0; 0x3c306; 0; 0; 0; 0x5c408; 0; 0xe703; 0x4702; 0x8305; 0x29402; 0x52c08; 0x12c0a; 0; 0xf005;
   0x601; 0; 0x9207; 0; 0; 0; 0x51709; 0; 0x2a103; 0xf608; 0x42307; 0; 0x53e0c; 0; 0x3da0c; 0x4807; 0; 0x40008; 0;
   0; 0x14009; 0; 0x4230f; 0; 0x36b0b; 0x2106; 0x57a08; 0; 0; 0x1f20a; 0x5b506; 0; 0x45510; 0x12804; 0xdd04;
   0x19f0b; 0x3bd07; 0x58704; 0x42204; 0; 0x28105; 0x4de05; 0; 0; 0x5d40e; 0xaa06; 0x2b909; 0x61105; 0; 0; 0x41e06;
   0; 0x2320e; 0x58206; 0; 0x51706; 0x3c804; 0x2bc02; 0xdb0c; 0x10904; 0x2470a; 0; 0; 0; 0x3af07; 0x26506; 0x2c01;
   0; 0x2280a; 0x3e805; 0; 0x50b02; 0xc902; 0x3420b; 0x1e50d; 0; 0; 0; 0x4e70e; 0x2bd05; 0x39609; 0x14b05; 0xc103;
   0x39f10; 0x1903; 0; 0; 0x47609; 0x60006; 0x2eb09; 0x32807; 0xce08; 0; 0x202; 0x2360a; 0; 0; 0x6307; 0; 0;
   0x31007; 0x47f0b; 0x3a708; 0; 0; 0x3f209; 0x2bd06; 0x18808; 0x30b05; 0x58d08; 0x51106; 0x1b80a; 0x35706; 0x26b04;
   0; 0x3c303; 0x15706; 0; 0x1670e; 0x5f704; 0x4; 0x1b06; 0; 0x1202; 0; 0x3ed02; 0; 0; 0x1d803; 0x1a803; 0; 0x55504;
   0x43210; 0x8607; 0x1a03; 0x4d30a; 0x6907; 0x21404; 0x1f204; 0; 0x28509; 0x6103; 0x46308; 0; 0; 0x6502; 0x27404;
   0; 0x39108; 0x4080a; 0x23c08; 0x16204; 0x1; 0x4420c; 0; 0xa605; 0; 0x2e05; 0x22c06; 0; 0xf404; 0x29606; 0;
   0x2d504; 0; 0; 0; 0; 0; 0x5f108; 0xb309; 0x14904; 0x55906; 0x30308; 0xc05; 0; 0; 0x21107; 0x5b304; 0xfd09;
   0x26e02; 0x59509; 0; 0; 0x3d406; 0x2db06; 0x55108; 0x4a20b; 0x5cc08; 0x56708; 0; 0x2140d; 0x1cc06; 0x4950a;
   0x25e03; 0x50705; 0x19906; 0; 0x5704; 0; 0; 0x5302; 0x1105; 0x3e607; 0; 0; 0x41807; 0; 0; 0x1c00c; 0x210e;
   0x33c06; 0x3e809; 0; 0x53306; 0x5a903; 0x10505; 0x38605; 0; 0xd608; 0; 0; 0; 0; 0; 0x1aa06; 0x18206; 0x2d405; 0;
   0x8c05; 0; 0; 0x1ec06; 0x6e05; 0x1670a; 0x20d0b; 0; 0x3d208; 0; 0x55505; 0x1fc0c; 0x9504; 0x9808; 0x24b06;
   0x38f06; 0x2b306; 0; 0x5a08; 0; 0; 0; 0x2a907; 0; 0; 0x27008; 0; 0x2f302; 0x4f307; 0; 0; 0; 0x2e103; 0xc30b;
   0x2f608; 0; 0x4ad09; 0x3800b].

Definition atomText : bytes := str (
  "abbradiogrouparamalignmarkbdialogaccept-charsetbodyaccesskeygenavaluealtdetailsampatternobreversedfnoembedirna" ++
  "mediagroupingasyncanvasidefaultfooterowspanoframesetitleaudionblurubyautofocusandboxmplaceholderautoplaybasefo" ++
  "ntimeupdatebdoncancelabelooptgrouplaintextrackindisabledivarbgsoundlowbrbigblinkblockquotebuttonabortranslatec" ++
  "odefercolgroupostercolorcolspannotation-xmlcommandraggablegendcontrolsmallcoordsortedcrossoriginsourcefieldset" ++
  "figcaptionafterprintfigurequiredforeignObjectforeignobjectformactionautocompleteerrorformenctypemustmatchallen" ++
  "geformmethodformnovalidatetimeterformtargetheightmlhgroupreloadhiddenhigh1hreflanghttp-equivideoncanplaythroug" ++
  "h2iframeimageimglyph3isindexismappletitemscopeditemtypemarqueematheaderspacermaxlength4minlength5mtextareadonl" ++
  "ymultiplemutedonclickoncloseamlesspellcheckedoncontextmenuitemidoncuechangeondblclickondragendondragenterondra" ++
  "gleaveondragoverondragstarticleondropzonemptiedondurationchangeonendedonerroronfocusrcdocitempropenoscriptonha" ++
  "shchangeoninputmodeloninvalidonkeydownloadonkeypressrclangonkeyupublicontenteditableonlanguagechangeonloadedda" ++
  "talistingonloadedmetadatabindexonloadstartonmessageonmousedownonmousemoveonmouseoutputonmouseoveronmouseuponmo" ++
  "usewheelonofflineononlineonpagehidesclassectionbeforeunloaddresshapeonpageshowidth6onpausemaponplayingonpopsta" ++
  "teonprogresstrikeytypeonratechangeonresetonresizestrongonscrollonseekedonseekingonselectedonshowraponsortableo" ++
  "nstalledonstorageonsubmitemrefacenteronsuspendontoggleonunloadonvolumechangeonwaitingoptimumanifestepromptopti" ++
  "onbeforeprintstylesummarysupsvgsystemplate").

(** * Operations *)

(** [s[a:b]]; [None] is the panic. *)
Definition slice (s : bytes) (a b : Z) : option bytes :=
  if (0 <=? a) && (a <=? b) && (b <=? len s) then Some (from a (upto b s)) else None.

(** The method [String] of an atom. *)
Definition Atom_String (a : Z) : option bytes :=
  let start := shr a 8 in
  let n := Z.land a 0xff in
  if len atomText <? u32 (start + n) then Some [] else slice atomText start (u32 (start + n)).

(** The method [string], without the check. *)
Definition Atom_string (a : Z) : option bytes := slice atomText (shr a 8) (u32 (shr a 8 + Z.land a 0xff)).

Definition fnv (h : Z) (s : bytes) : Z := foldl (fun h c => u32 (Z.lxor h c * 16777619)) h s.

Fixpoint match_ (s t : bytes) : option bool :=
  match t with
  | [] => Some true
  | c :: t => match s with [] => None | b :: s => if b =? c then match_ s t else Some false end
  end.

(** Whether the entry for a hash value is the text that is looked up. *)
Definition is_atom (a : Z) (s : bytes) : option bool :=
  if Z.land a 0xff =? len s then t ← Atom_string a; match_ t s else Some false.

Definition Lookup (s : bytes) : option Z :=
  if (len s =? 0) || (maxAtomLen <? len s) then Some 0
  else
    let h := fnv hash0 s in
    a ← at_ table (Z.land h (len table - 1));
    found ← is_atom a s;
    if (found : bool) then Some a
    else
      a ← at_ table (Z.land (shr h 16) (len table - 1));
      found ← is_atom a s;
      Some (if (found : bool) then a else 0).

(** The function [String]. *)
Definition String_of (s : bytes) : option bytes :=
  a ← Lookup s;
  if negb (a =? 0) then Atom_String a else Some s.

Example Lookup_test : (a ← Lookup (str "textarea"); Atom_String a) = Some (str "textarea") /\ Lookup (str "textares") = Some 0.
Proof. vm_compute. split; reflexivity. Qed.

(** * Lemmas *)

Lemma slice_all (s : bytes) : slice s 0 (len s) = Some s.
Proof. unfold slice. pose proof (len_nonneg s). rewrite !(proj2 (Z.leb_le _ _)) by lia. cbn [andb]. f_equal. rewrite <- (app_nil_r s) at 2. by rewrite upto_app_len. Qed.

Lemma match_eq s : forall t, len s = len t -> match_ s t = Some (bool_decide (s = t)).
Proof.
  induction s as [|b s IH]; intros [|c t] H; rewrite ?len_cons, ?len_nil in H; [done|pose proof (len_nonneg t); lia|pose proof (len_nonneg s); lia|].
  cbn [match_]. destruct (Z.eqb_spec b c) as [->|Hne]; [|by rewrite bool_decide_false by congruence].
  rewrite IH by lia. f_equal. apply bool_decide_ext. split; congruence.
Qed.

(** Every entry is the name of a constant, found where its hash says. *)
Definition entry_ok (a : Z) : bool :=
  (a =? 0) || (match Atom_string a with Some s => (Z.land a 0xff =? len s) && (0 <? len s) && (len s <=? maxAtomLen) && bool_decide (Atom_String a = Some s) && bool_decide (Lookup s = Some a) | None => false end
   && existsb (fun p => p.2 =? a) atoms).

Lemma table_ok : forallb entry_ok table = true /\ forallb (fun p => negb (p.2 =? 0) && existsb (Z.eqb p.2) table) atoms = true /\ len table = 512.
Proof. vm_compute. split_and!; reflexivity. Qed.

(** What an entry other than zero is. *)
Lemma entry_spec a : a ∈ table -> a <> 0 -> exists s, Atom_string a = Some s /\ Atom_String a = Some s /\ Z.land a 0xff = len s /\ 0 < len s <= maxAtomLen /\ Lookup s = Some a /\ exists n, (n, a) ∈ atoms.
Proof.
  intros Hin Ha. pose proof (proj1 table_ok) as H. rewrite forallb_forall in H. specialize (H a (proj1 (list_elem_of_In _ _) Hin)). unfold entry_ok in H.
  rewrite (proj2 (Z.eqb_neq a 0)) in H by done. cbn [orb] in H. destruct (Atom_string a) as [s|]; [|done]. exists s.
  rewrite !andb_true_iff, !bool_decide_eq_true, Z.eqb_eq, Z.ltb_lt, Z.leb_le, existsb_exists in H. destruct H as [((((Hl & H0) & Hm) & HS) & HL) (p & Hp & Hpa)].
  split_and!; try done. apply Z.eqb_eq in Hpa as <-. exists p.1. apply list_elem_of_In. by destruct p.
Qed.

Lemma is_atom_table a s : a ∈ table -> 0 < len s -> is_atom a s = Some (bool_decide (a <> 0 /\ Atom_String a = Some s)).
Proof.
  intros Hin Hs. unfold is_atom. destruct (decide (a = 0)) as [->|Ha].
  - rewrite (proj2 (Z.eqb_neq _ _)) by (change (Z.land 0 255) with 0; lia). by rewrite bool_decide_false by (intros [Hn _]; done).
  - destruct (entry_spec a Hin Ha) as (t & Ht & HS & Hl & _). rewrite Hl, Ht, HS. destruct (Z.eqb_spec (len t) (len s)) as [E|E].
    + cbn [mbind option_bind]. rewrite match_eq by done. f_equal. apply bool_decide_ext. split; [intros ->; done|intros [_ H]; by injection H].
    + rewrite bool_decide_false; [done|]. intros [_ H]. injection H as ->. done.
Qed.

Lemma at_table i : 0 <= i < 512 -> exists a, at_ table i = Some a /\ a ∈ table.
Proof.
  intros Hi. unfold at_. rewrite decide_True by lia. destruct (lookup_lt_is_Some_2 table (Z.to_nat i)) as [a Ea].
  { pose proof (proj2 (proj2 table_ok)) as H. unfold len in H. lia. }
  exists a. split; [done|]. by eapply list_elem_of_lookup_2.
Qed.

Lemma land_511 h : 0 <= Z.land h (len table - 1) < 512.
Proof. rewrite (proj2 (proj2 table_ok)). change (512 - 1) with (Z.ones 9). rewrite Z.land_ones by lia. apply Z.mod_pos_bound. lia. Qed.

(** A constant is in the table, under its name. *)
Lemma atom_table n a : (n, a) ∈ atoms -> a ∈ table /\ a <> 0.
Proof.
  intros Hin. pose proof (proj1 (proj2 table_ok)) as H. rewrite forallb_forall in H. specialize (H (n, a) (proj1 (list_elem_of_In _ _) Hin)). cbn [snd] in H.
  rewrite andb_true_iff, negb_true_iff, Z.eqb_neq, existsb_exists in H. destruct H as [Ha (x & Hx & ->%Z.eqb_eq)]. split; [by apply list_elem_of_In|done].
Qed.

(** Without a limit on the length, what [Lookup] computes. *)
Lemma Lookup_probes s : 0 < len s <= maxAtomLen -> exists a, Lookup s = Some a /\ (a <> 0 -> a ∈ table /\ Atom_String a = Some s).
Proof.
  intros Hs. unfold Lookup. rewrite (proj2 (Z.eqb_neq _ _)), (proj2 (Z.ltb_ge _ _)) by lia. cbn [orb]. cbv zeta.
  destruct (at_table _ (land_511 (fnv hash0 s))) as (a & -> & Ha). cbn [mbind option_bind]. rewrite is_atom_table by (done || lia). cbn [mbind option_bind].
  case_bool_decide as H1; [exists a; split; [done|]; intros _; split; [done|apply H1]|]. destruct (at_table _ (land_511 (shr (fnv hash0 s) 16))) as (b & -> & Hb). cbn [mbind option_bind].
  rewrite is_atom_table by (done || lia). cbn [mbind option_bind]. case_bool_decide as H2; [exists b; split; [done|]; intros _; split; [done|apply H2]|by exists 0].
Qed.

Lemma Lookup_sound s : exists a, Lookup s = Some a /\ (a <> 0 -> a ∈ table /\ Atom_String a = Some s).
Proof.
  destruct (decide (0 < len s <= maxAtomLen)) as [Hs|Hs]; [by apply Lookup_probes|]. exists 0. split; [|done]. unfold Lookup.
  replace ((len s =? 0) || (maxAtomLen <? len s)) with true; [done|]. symmetry. apply orb_true_iff. rewrite Z.eqb_eq, Z.ltb_lt. pose proof (len_nonneg s). lia.
Qed.

Lemma String_of_ok s : String_of s = Some s.
Proof.
  destruct (Lookup_sound s) as (a & E & Ha). unfold String_of. rewrite E. cbn [mbind option_bind]. destruct (Z.eqb_spec a 0) as [->|Hne]; [done|]. apply Ha, Hne.
Qed.

(** * Properties *)

(** C37. [Lookup] is exact: on every string it returns without an index out of
    range; a number other than zero is a constant of the package whose [String]
    is that string, and the name of a constant gives that constant: the hash
    table, with its two probes, loses nothing. And [String] is the identity. *)
Theorem Lookup_exact s : exists a, Lookup s = Some a /\ String_of s = Some s /\
  (a <> 0 -> Atom_String a = Some s /\ exists n, (n, a) ∈ atoms) /\ (forall n a', (n, a') ∈ atoms -> Atom_String a' = Some s -> a' = a).
Proof.
  destruct (Lookup_sound s) as (a & E & Ha). exists a. split_and!; [done|apply String_of_ok| |].
  - intros Hne. destruct (Ha Hne) as [Hin HS]. split; [done|]. by destruct (entry_spec a Hin Hne) as (t & _ & _ & _ & _ & _ & n & Hn); exists n.
  - intros n a' [Hin Hne]%atom_table HS. destruct (entry_spec a' Hin Hne) as (t & _ & HS' & _ & _ & HL & _). congruence.
Qed.
