(* ===== verification/HtmlToken.v ===== *)
(** The HTML tokenizer: [html/token.go]. *)
From S2P Require Import Prelude Utf8 GoStrings HtmlEscape HtmlAtom.

(** * Data *)

Inductive TokenType := ErrorToken | TextToken | StartTagToken | EndTagToken | SelfClosingTagToken | CommentToken | DoctypeToken.
#[global] Instance TokenType_eq_dec : EqDecision TokenType.
Proof. solve_decision. Defined.

Record Attribute := mkAttribute { Namespace : bytes; Key : bytes; Val : bytes }.
Record Token := mkToken { Type_ : TokenType; DataAtom : Z; Data : bytes; Attr : list Attribute }.

(** The errors of this file, and those of the [io.Reader]. *)
Inductive error := EOF | ErrNoProgress | ErrBufferExceeded | ReadError (n : Z).
#[global] Instance error_eq_dec : EqDecision error.
Proof. solve_decision. Defined.

Record span := mkSpan { start : Z; end_ : Z }.
#[global] Instance span_eq_dec : EqDecision span.
Proof. solve_decision. Defined.

(** An [io.Reader]: what its calls of [Read] give, bytes and an error, until
    there is nothing but [EOF]. A piece longer than the space given is read in
    several calls. *)
Abbreviation reader := (list (bytes * option error)) (only parsing).

Definition Read (k : Z) (r : reader) : bytes * option error * reader :=
  match r with
  | [] => ([], Some EOF, [])
  | (p, e) :: r => if len p <=? k then (p, e, r) else (upto k p, None, (from k p, e) :: r)
  end.

(** A [Tokenizer]; [zcap] is the capacity of [buf]. *)
Record Tokenizer := mkTokenizer {
  zr : reader;
  ztt : TokenType;
  err : option error;
  readErr : option error;
  raw : span;
  zbuf : bytes;
  zcap : Z;
  maxBuf : Z;
  data : span;
  pendingAttr : span * span;
  attr : list (span * span);
  nAttrReturned : Z;
  rawTag : bytes;
  textIsRaw : bool;
  convertNUL : bool;
  allowCDATA : bool
}.

Definition set_zr (x : reader) (z : Tokenizer) : Tokenizer :=
  mkTokenizer x (ztt z) (err z) (readErr z) (raw z) (zbuf z) (zcap z) (maxBuf z) (data z) (pendingAttr z) (attr z) (nAttrReturned z) (rawTag z) (textIsRaw z) (convertNUL z) (allowCDATA z).
Definition set_ztt (x : TokenType) (z : Tokenizer) : Tokenizer :=
  mkTokenizer (zr z) x (err z) (readErr z) (raw z) (zbuf z) (zcap z) (maxBuf z) (data z) (pendingAttr z) (attr z) (nAttrReturned z) (rawTag z) (textIsRaw z) (convertNUL z) (allowCDATA z).
Definition set_err (x : option error) (z : Tokenizer) : Tokenizer :=
  mkTokenizer (zr z) (ztt z) x (readErr z) (raw z) (zbuf z) (zcap z) (maxBuf z) (data z) (pendingAttr z) (attr z) (nAttrReturned z) (rawTag z) (textIsRaw z) (convertNUL z) (allowCDATA z).
Definition set_readErr (x : option error) (z : Tokenizer) : Tokenizer :=
  mkTokenizer (zr z) (ztt z) (err z) x (raw z) (zbuf z) (zcap z) (maxBuf z) (data z) (pendingAttr z) (attr z) (nAttrReturned z) (rawTag z) (textIsRaw z) (convertNUL z) (allowCDATA z).
Definition set_raw (x : span) (z : Tokenizer) : Tokenizer :=
  mkTokenizer (zr z) (ztt z) (err z) (readErr z) x (zbuf z) (zcap z) (maxBuf z) (data z) (pendingAttr z) (attr z) (nAttrReturned z) (rawTag z) (textIsRaw z) (convertNUL z) (allowCDATA z).
Definition set_zbuf (x : bytes) (z : Tokenizer) : Tokenizer :=
  mkTokenizer (zr z) (ztt z) (err z) (readErr z) (raw z) x (zcap z) (maxBuf z) (data z) (pendingAttr z) (attr z) (nAttrReturned z) (rawTag z) (textIsRaw z) (convertNUL z) (allowCDATA z).
Definition set_zcap (x : Z) (z : Tokenizer) : Tokenizer :=
  mkTokenizer (zr z) (ztt z) (err z) (readErr z) (raw z) (zbuf z) x (maxBuf z) (data z) (pendingAttr z) (attr z) (nAttrReturned z) (rawTag z) (textIsRaw z) (convertNUL z) (allowCDATA z).
Definition set_maxBuf (x : Z) (z : Tokenizer) : Tokenizer :=
  mkTokenizer (zr z) (ztt z) (err z) (readErr z) (raw z) (zbuf z) (zcap z) x (data z) (pendingAttr z) (attr z) (nAttrReturned z) (rawTag z) (textIsRaw z) (convertNUL z) (allowCDATA z).
Definition set_data (x : span) (z : Tokenizer) : Tokenizer :=
  mkTokenizer (zr z) (ztt z) (err z) (readErr z) (raw z) (zbuf z) (zcap z) (maxBuf z) x (pendingAttr z) (attr z) (nAttrReturned z) (rawTag z) (textIsRaw z) (convertNUL z) (allowCDATA z).
Definition set_pendingAttr (x : span * span) (z : Tokenizer) : Tokenizer :=
  mkTokenizer (zr z) (ztt z) (err z) (readErr z) (raw z) (zbuf z) (zcap z) (maxBuf z) (data z) x (attr z) (nAttrReturned z) (rawTag z) (textIsRaw z) (convertNUL z) (allowCDATA z).
Definition set_attr (x : list (span * span)) (z : Tokenizer) : Tokenizer :=
  mkTokenizer (zr z) (ztt z) (err z) (readErr z) (raw z) (zbuf z) (zcap z) (maxBuf z) (data z) (pendingAttr z) x (nAttrReturned z) (rawTag z) (textIsRaw z) (convertNUL z) (allowCDATA z).
Definition set_nAttrReturned (x : Z) (z : Tokenizer) : Tokenizer :=
  mkTokenizer (zr z) (ztt z) (err z) (readErr z) (raw z) (zbuf z) (zcap z) (maxBuf z) (data z) (pendingAttr z) (attr z) x (rawTag z) (textIsRaw z) (convertNUL z) (allowCDATA z).
Definition set_rawTag (x : bytes) (z : Tokenizer) : Tokenizer :=
  mkTokenizer (zr z) (ztt z) (err z) (readErr z) (raw z) (zbuf z) (zcap z) (maxBuf z) (data z) (pendingAttr z) (attr z) (nAttrReturned z) x (textIsRaw z) (convertNUL z) (allowCDATA z).
Definition set_textIsRaw (x : bool) (z : Tokenizer) : Tokenizer :=
  mkTokenizer (zr z) (ztt z) (err z) (readErr z) (raw z) (zbuf z) (zcap z) (maxBuf z) (data z) (pendingAttr z) (attr z) (nAttrReturned z) (rawTag z) x (convertNUL z) (allowCDATA z).
Definition set_convertNUL (x : bool) (z : Tokenizer) : Tokenizer :=
  mkTokenizer (zr z) (ztt z) (err z) (readErr z) (raw z) (zbuf z) (zcap z) (maxBuf z) (data z) (pendingAttr z) (attr z) (nAttrReturned z) (rawTag z) (textIsRaw z) x (allowCDATA z).
Definition set_allowCDATA (x : bool) (z : Tokenizer) : Tokenizer :=
  mkTokenizer (zr z) (ztt z) (err z) (readErr z) (raw z) (zbuf z) (zcap z) (maxBuf z) (data z) (pendingAttr z) (attr z) (nAttrReturned z) (rawTag z) (textIsRaw z) (convertNUL z) x.

(** * Steps

    A method runs on a tokenizer and may panic, or run out of fuel: [None]. *)

Definition M (A : Type) : Type := Tokenizer -> option (A * Tokenizer).
#[global] Instance M_ret : MRet M := fun _ a z => Some (a, z).
#[global] Instance M_bind : MBind M := fun _ _ f m z => '(a, z) ← m z; f a z.

Definition gets {A} (f : Tokenizer -> A) : M A := fun z => Some (f z, z).
Definition modify (f : Tokenizer -> Tokenizer) : M unit := fun z => Some (tt, f z).
Definition lift {A} (o : option A) : M A := fun z => a ← o; Some (a, z).
Definition out_of_fuel {A} : M A := fun _ => None.

Definition is_err (z : Tokenizer) : bool := if err z is Some _ then true else false.
Definition errored : M bool := gets is_err.

Definition set_raw_start (x : Z) (z : Tokenizer) : Tokenizer := set_raw (mkSpan x (end_ (raw z))) z.
Definition set_raw_end (x : Z) (z : Tokenizer) : Tokenizer := set_raw (mkSpan (start (raw z)) x) z.
Definition set_data_start (x : Z) (z : Tokenizer) : Tokenizer := set_data (mkSpan x (end_ (data z))) z.
Definition set_data_end (x : Z) (z : Tokenizer) : Tokenizer := set_data (mkSpan (start (data z)) x) z.

(** [z.raw.end -= n]; the data's start and end set near [z.raw.end]. *)
Definition unread (n : Z) : M unit := modify (fun z => set_raw_end (end_ (raw z) - n) z).
Definition data_from (n : Z) : M unit := modify (fun z => set_data_start (end_ (raw z) - n) z).
Definition data_to (n : Z) : M unit := modify (fun z => set_data_end (end_ (raw z) - n) z).

(** * Reading bytes *)

Fixpoint read_tries (n : nat) (k : Z) (r : reader) : bytes * option error * reader :=
  match n with
  | O => ([], Some ErrNoProgress, r)
  | S n =>
      let '(p, e, r) := Read k r in
      if negb (len p =? 0) || (if e is Some _ then true else false) then (p, e, r) else read_tries n k r
  end.
Definition readAtLeastOneByte (k : Z) (r : reader) : bytes * option error * reader := read_tries 100 k r.

(** The spans after the live bytes have moved to the start of the buffer. *)
Definition shift (x : Z) (s : span) : span := mkSpan (start s - x) (end_ s - x).
Definition shift_spans (x : Z) (z : Tokenizer) : Tokenizer :=
  if x =? 0 then z
  else
    let z := set_data (shift x (data z)) z in
    let z := set_pendingAttr (prod_map (shift x) (shift x) (pendingAttr z)) z in
    set_attr (prod_map (shift x) (shift x) <$> attr z) z.

(** The byte at the end of what is read. *)
Definition next_byte : M Z := fun z =>
  x ← at_ (zbuf z) (end_ (raw z));
  let z := set_raw_end (end_ (raw z) + 1) z in
  if (0 <? maxBuf z) && (maxBuf z <=? end_ (raw z) - start (raw z)) then Some (0, set_err (Some ErrBufferExceeded) z) else Some (x, z).

(** The branch of [readByte] for a buffer that is exhausted. *)
Definition refill : M Z := fun z =>
  if readErr z is Some e then Some (0, set_err (Some e) z)
  else
    let d := end_ (raw z) - start (raw z) in
    let c := if zcap z <? 2 * d then 2 * zcap z else zcap z in
    live ← slice (zbuf z) (start (raw z)) (end_ (raw z));
    let z := shift_spans (start (raw z)) z in
    let z := set_raw (mkSpan 0 d) (set_zbuf live (set_zcap c z)) in
    let '(p, e, r) := readAtLeastOneByte (c - d) (zr z) in
    let z := set_readErr e (set_zr r z) in
    if len p =? 0 then Some (0, set_err e z) else next_byte (set_zbuf (live ++ p) z).

Definition readByte : M Z := fun z => if len (zbuf z) <=? end_ (raw z) then refill z else next_byte z.

Definition Buffered (z : Tokenizer) : option bytes := slice (zbuf z) (end_ (raw z)) (len (zbuf z)).

(** [c := z.readByte()] and the test of [z.err] after it. *)
Definition read {A} (failed : M A) (k : Z -> M A) : M A := c ← readByte; e ← errored; if (e : bool) then failed else k c.

(** What the reader still gives and the error after it. *)
Fixpoint stream (tries : nat) (r : reader) : bytes * error :=
  match r with
  | [] => ([], EOF)
  | ([], Some e) :: _ => ([], e)
  | ([], None) :: r => if bool_decide (tries = 1)%nat then ([], ErrNoProgress) else stream (pred tries) r
  | (p, Some e) :: _ => (p, e)
  | (p, None) :: r => let '(d, e) := stream 100 r in (p ++ d, e)
  end.

(** The bytes that are not part of a token yet. A round of each loop below takes
    one. *)
Definition pending (z : Tokenizer) : bytes := from (end_ (raw z)) (zbuf z) ++ (if readErr z is Some _ then [] else (stream 100 (zr z)).1).
Definition loop_fuel : M nat := gets (fun z => S (length (pending z))).

Definition is_space (c : Z) : bool := (c =? 32) || (c =? 10) || (c =? 13) || (c =? 9) || (c =? 12).
Definition is_letter (c : Z) : bool := is_lower c || is_upper c.

Fixpoint skip_loop (fuel : nat) : M unit :=
  match fuel with
  | O => out_of_fuel
  | S fuel => read (mret tt) (fun c => if is_space c then skip_loop fuel else unread 1)
  end.
Definition skipWhiteSpace : M unit := e ← errored; if (e : bool) then mret tt else fuel ← loop_fuel; skip_loop fuel.

(** * Raw text *)

(** The loop of [readRawEndTag] over what is left of [z.rawTag], of length [n] in all. *)
Fixpoint end_tag_loop (tag : bytes) (n : Z) : M bool :=
  match tag with
  | [] => read (mret false) (fun c =>
      if is_space c || (c =? chr "/") || (c =? chr ">") then unread (3 + n);; mret true else unread 1;; mret false)
  | t :: tag => read (mret false) (fun c => if negb (c =? t) && negb (c =? u8 (t - 32)) then unread 1;; mret false else end_tag_loop tag n)
  end.
Definition readRawEndTag : M bool := tag ← gets rawTag; end_tag_loop tag (len tag).

Fixpoint raw_loop (fuel : nat) : M unit :=
  match fuel with
  | O => out_of_fuel
  | S fuel =>
      read (mret tt) (fun c =>
        if negb (c =? chr "<") then raw_loop fuel
        else read (mret tt) (fun c =>
          if negb (c =? chr "/") then raw_loop fuel
          else found ← readRawEndTag; e ← errored; if (found : bool) || e then mret tt else raw_loop fuel))
  end.

(** The labels of [readScript]. *)
Inductive script_label :=
  scriptData | scriptDataLessThanSign | scriptDataEndTagOpen | scriptDataEscapeStart | scriptDataEscapeStartDash | scriptDataEscaped |
  scriptDataEscapedDash | scriptDataEscapedDashDash | scriptDataEscapedLessThanSign | scriptDataEscapedEndTagOpen | scriptDataDoubleEscapeStart |
  scriptDataDoubleEscaped | scriptDataDoubleEscapedDash | scriptDataDoubleEscapedDashDash | scriptDataDoubleEscapedLessThanSign | scriptDataDoubleEscapeEnd.

(** The loop at [scriptDataDoubleEscapeStart]: whether [script] was read. *)
Fixpoint script_name (lo up : bytes) : M (option bool) :=
  match lo, up with
  | l :: lo, u :: up => read (mret None) (fun c => if negb (c =? l) && negb (c =? u) then unread 1;; mret (Some false) else script_name lo up)
  | _, _ => mret (Some true)
  end.

(** The code at a label: where it goes, or [None] for the end. *)
Definition script_step (l : script_label) : M (option script_label) :=
  let goto l := mret (Some l) in
  let back l := unread 1;; mret (Some l) in
  let next k := read (mret None) k in
  match l with
  | scriptData => next (fun c => if c =? chr "<" then goto scriptDataLessThanSign else goto scriptData)
  | scriptDataLessThanSign => next (fun c =>
      if c =? chr "/" then goto scriptDataEndTagOpen else if c =? chr "!" then goto scriptDataEscapeStart else back scriptData)
  | scriptDataEndTagOpen => found ← readRawEndTag; e ← errored; if (found : bool) || e then mret None else goto scriptData
  | scriptDataEscapeStart => next (fun c => if c =? chr "-" then goto scriptDataEscapeStartDash else back scriptData)
  | scriptDataEscapeStartDash => next (fun c => if c =? chr "-" then goto scriptDataEscapedDashDash else back scriptData)
  | scriptDataEscaped => next (fun c =>
      if c =? chr "-" then goto scriptDataEscapedDash else if c =? chr "<" then goto scriptDataEscapedLessThanSign else goto scriptDataEscaped)
  | scriptDataEscapedDash => next (fun c =>
      if c =? chr "-" then goto scriptDataEscapedDashDash else if c =? chr "<" then goto scriptDataEscapedLessThanSign else goto scriptDataEscaped)
  | scriptDataEscapedDashDash => next (fun c =>
      if c =? chr "-" then goto scriptDataEscapedDashDash else if c =? chr "<" then goto scriptDataEscapedLessThanSign
      else if c =? chr ">" then goto scriptData else goto scriptDataEscaped)
  | scriptDataEscapedLessThanSign => next (fun c =>
      if c =? chr "/" then goto scriptDataEscapedEndTagOpen else if is_letter c then goto scriptDataDoubleEscapeStart else back scriptData)
  | scriptDataEscapedEndTagOpen => found ← readRawEndTag; e ← errored; if (found : bool) || e then mret None else goto scriptDataEscaped
  | scriptDataDoubleEscapeStart =>
      unread 1;;
      name ← script_name (str "script") (str "SCRIPT");
      match name with
      | None => mret None
      | Some false => goto scriptDataEscaped
      | Some true => next (fun c => if is_space c || (c =? chr "/") || (c =? chr ">") then goto scriptDataDoubleEscaped else back scriptDataEscaped)
      end
  | scriptDataDoubleEscaped => next (fun c =>
      if c =? chr "-" then goto scriptDataDoubleEscapedDash else if c =? chr "<" then goto scriptDataDoubleEscapedLessThanSign else goto scriptDataDoubleEscaped)
  | scriptDataDoubleEscapedDash => next (fun c =>
      if c =? chr "-" then goto scriptDataDoubleEscapedDashDash else if c =? chr "<" then goto scriptDataDoubleEscapedLessThanSign else goto scriptDataDoubleEscaped)
  | scriptDataDoubleEscapedDashDash => next (fun c =>
      if c =? chr "-" then goto scriptDataDoubleEscapedDashDash else if c =? chr "<" then goto scriptDataDoubleEscapedLessThanSign
      else if c =? chr ">" then goto scriptData else goto scriptDataDoubleEscaped)
  | scriptDataDoubleEscapedLessThanSign => next (fun c => if c =? chr "/" then goto scriptDataDoubleEscapeEnd else back scriptDataDoubleEscaped)
  | scriptDataDoubleEscapeEnd =>
      found ← readRawEndTag;
      if (found : bool) then unread (- len (str "</script>"));; goto scriptDataEscaped
      else e ← errored; if (e : bool) then mret None else goto scriptDataDoubleEscaped
  end.

(** A label that takes no byte leads to one that does; see [script_weight]. *)
Fixpoint script_loop (fuel : nat) (l : script_label) : M unit :=
  match fuel with
  | O => out_of_fuel
  | S fuel => next ← script_step l; match next with None => mret tt | Some l => script_loop fuel l end
  end.
Definition readScript : M unit := fuel ← loop_fuel; script_loop (4 * fuel) scriptData;; data_to 0.

Definition readRawOrRCDATA : M unit :=
  tag ← gets rawTag;
  if bool_decide (tag = str "script") then readScript;; modify (set_textIsRaw true);; modify (set_rawTag [])
  else
    fuel ← loop_fuel;
    raw_loop fuel;;
    data_to 0;;
    modify (set_textIsRaw (negb (bool_decide (tag = str "textarea")) && negb (bool_decide (tag = str "title"))));;
    modify (set_rawTag []).

(** * Comments and declarations *)

Fixpoint comment_loop (fuel : nat) (dashCount : Z) : M unit :=
  match fuel with
  | O => out_of_fuel
  | S fuel =>
      read (data_to (if 2 <? dashCount then 2 else dashCount)) (fun c =>
        if c =? chr "-" then comment_loop fuel (dashCount + 1)
        else if (c =? chr ">") && (2 <=? dashCount) then data_to (len (str "-->"))
        else if (c =? chr "!") && (2 <=? dashCount) then
          read (data_to 0) (fun c => if c =? chr ">" then data_to (len (str "--!>")) else comment_loop fuel 0)
        else comment_loop fuel 0)
  end.
Definition readComment : M unit :=
  data_from 0;;
  fuel ← loop_fuel;
  comment_loop fuel 2;;
  modify (fun z => if end_ (data z) <? start (data z) then set_data_end (start (data z)) z else z).

Fixpoint close_angle_loop (fuel : nat) : M unit :=
  match fuel with
  | O => out_of_fuel
  | S fuel => read (data_to 0) (fun c => if c =? chr ">" then data_to (len (str ">")) else close_angle_loop fuel)
  end.
Definition readUntilCloseAngle : M unit := data_from 0;; fuel ← loop_fuel; close_angle_loop fuel.

(** The loop of [readDoctype] and of [readCDATA] over the constant [s]: [ok c]
    for each byte; on another byte the input is read again from [z.data.start]. *)
Fixpoint expect_loop (ok : Z -> Z -> bool) (s : bytes) : M bool :=
  match s with
  | [] => mret true
  | x :: s => read (data_to 0;; mret false) (fun c => if negb (ok x c) then modify (fun z => set_raw_end (start (data z)) z);; mret false else expect_loop ok s)
  end.

Definition readDoctype : M bool :=
  found ← expect_loop (fun x c => (c =? x) || (c =? u8 (x + 32))) (str "DOCTYPE");
  if negb found then mret false
  else
    skipWhiteSpace;;
    e ← errored;
    if (e : bool) then data_from 0;; data_to 0;; mret true
    else readUntilCloseAngle;; mret true.

Fixpoint cdata_loop (fuel : nat) (brackets : Z) : M unit :=
  match fuel with
  | O => out_of_fuel
  | S fuel =>
      read (data_to 0) (fun c =>
        if c =? chr "]" then cdata_loop fuel (brackets + 1)
        else if (c =? chr ">") && (2 <=? brackets) then data_to (len (str "]]>"))
        else cdata_loop fuel 0)
  end.
Definition readCDATA : M bool :=
  found ← expect_loop (fun x c => c =? x) (str "[CDATA[");
  if negb found then mret false else data_from 0;; fuel ← loop_fuel; cdata_loop fuel 0;; mret true.

Definition readMarkupDeclaration : M TokenType :=
  data_from 0;;
  read (data_to 0;; mret CommentToken) (fun c0 =>
  read (data_to 0;; mret CommentToken) (fun c1 =>
    if (c0 =? chr "-") && (c1 =? chr "-") then readComment;; mret CommentToken
    else
      unread 2;;
      doctype ← readDoctype;
      if (doctype : bool) then mret DoctypeToken
      else
        allow ← gets allowCDATA;
        cdata ← (if (allow : bool) then readCDATA else mret false);
        if (cdata : bool) then modify (set_convertNUL true);; mret TextToken
        else readUntilCloseAngle;; mret CommentToken)).

(** * Tags *)

Fixpoint tag_name_loop (fuel : nat) : M unit :=
  match fuel with
  | O => out_of_fuel
  | S fuel =>
      read (data_to 0) (fun c =>
        if is_space c then data_to 1
        else if (c =? chr "/") || (c =? chr ">") then unread 1;; data_to 0
        else tag_name_loop fuel)
  end.
Definition readTagName : M unit := data_from 1;; fuel ← loop_fuel; tag_name_loop fuel.

(** The start and the end of the key and of the value of [z.pendingAttr]. *)
Definition set_key (s : span) (z : Tokenizer) : Tokenizer := set_pendingAttr (s, (pendingAttr z).2) z.
Definition set_val (s : span) (z : Tokenizer) : Tokenizer := set_pendingAttr ((pendingAttr z).1, s) z.
Definition key_from (n : Z) : M unit := modify (fun z => set_key (mkSpan (end_ (raw z) - n) (end_ (pendingAttr z).1)) z).
Definition key_to (n : Z) : M unit := modify (fun z => set_key (mkSpan (start (pendingAttr z).1) (end_ (raw z) - n)) z).
Definition val_from (n : Z) : M unit := modify (fun z => set_val (mkSpan (end_ (raw z) - n) (end_ (pendingAttr z).2)) z).
Definition val_to (n : Z) : M unit := modify (fun z => set_val (mkSpan (start (pendingAttr z).2) (end_ (raw z) - n)) z).

Fixpoint key_loop (fuel : nat) : M unit :=
  match fuel with
  | O => out_of_fuel
  | S fuel =>
      read (key_to 0) (fun c =>
        if is_space c || (c =? chr "/") then key_to 1
        else if (c =? chr "=") || (c =? chr ">") then unread 1;; key_to 0
        else key_loop fuel)
  end.
Definition readTagAttrKey : M unit := key_from 0;; fuel ← loop_fuel; key_loop fuel.

Fixpoint quoted_loop (fuel : nat) (quote : Z) : M unit :=
  match fuel with
  | O => out_of_fuel
  | S fuel => read (val_to 0) (fun c => if c =? quote then val_to 1 else quoted_loop fuel quote)
  end.
Fixpoint unquoted_loop (fuel : nat) : M unit :=
  match fuel with
  | O => out_of_fuel
  | S fuel =>
      read (val_to 0) (fun c =>
        if is_space c then val_to 1 else if c =? chr ">" then unread 1;; val_to 0 else unquoted_loop fuel)
  end.

Definition readTagAttrVal : M unit :=
  val_from 0;;
  val_to 0;;
  skipWhiteSpace;;
  e ← errored;
  if (e : bool) then mret tt
  else
    read (mret tt) (fun c =>
      if negb (c =? chr "=") then unread 1
      else
        skipWhiteSpace;;
        e ← errored;
        if (e : bool) then mret tt
        else
          read (mret tt) (fun quote =>
            if quote =? chr ">" then unread 1
            else if (quote =? 39) || (quote =? 34) then val_from 0;; fuel ← loop_fuel; quoted_loop fuel quote
            else val_from 1;; fuel ← loop_fuel; unquoted_loop fuel)).

Definition save_attr (saveAttr : bool) : M unit :=
  modify (fun z => if saveAttr && negb (start (pendingAttr z).1 =? end_ (pendingAttr z).1) then set_attr (attr z ++ [pendingAttr z]) z else z).

Fixpoint tag_loop (fuel : nat) (saveAttr : bool) : M unit :=
  match fuel with
  | O => out_of_fuel
  | S fuel =>
      read (mret tt) (fun c =>
        if c =? chr ">" then mret tt
        else
          unread 1;;
          readTagAttrKey;;
          readTagAttrVal;;
          save_attr saveAttr;;
          skipWhiteSpace;;
          e ← errored;
          if (e : bool) then mret tt else tag_loop fuel saveAttr)
  end.

Definition readTag (saveAttr : bool) : M unit :=
  modify (set_attr []);;
  modify (set_nAttrReturned 0);;
  readTagName;;
  skipWhiteSpace;;
  e ← errored;
  if (e : bool) then mret tt else fuel ← loop_fuel; tag_loop fuel saveAttr.

(** [z.buf[z.data.start+i]], [z.buf[z.raw.end-n]] and [z.buf[z.data.start:z.data.end]]. *)
Definition data_byte (i : Z) : M Z := fun z => c ← at_ (zbuf z) (start (data z) + i); Some (c, z).
Definition byte_back (n : Z) : M Z := fun z => c ← at_ (zbuf z) (end_ (raw z) - n); Some (c, z).
Definition data_bytes : M bytes := fun z => s ← slice (zbuf z) (start (data z)) (end_ (data z)); Some (s, z).

(** The loop of [startTagIn] over a string from its byte [i] on. *)
Fixpoint tag_matches (s : bytes) (i : Z) : M bool :=
  match s with
  | [] => mret true
  | x :: s => c ← data_byte i; if negb (lower_byte c =? x) then mret false else tag_matches s (i + 1)
  end.
Fixpoint startTagIn (ss : list bytes) : M bool :=
  match ss with
  | [] => mret false
  | s :: ss =>
      n ← gets (fun z => end_ (data z) - start (data z));
      if negb (n =? len s) then startTagIn ss
      else found ← tag_matches s 0; if (found : bool) then mret true else startTagIn ss
  end.

(** [z.rawTag] is set to a name that [startTagIn] has found, which is ASCII. *)
Definition readStartTag : M TokenType :=
  readTag true;;
  e ← errored;
  if (e : bool) then mret ErrorToken
  else
    c ← data_byte 0;
    let c := lower_byte c in
    is_raw ←
      (if c =? chr "i" then startTagIn [str "iframe"]
       else if c =? chr "n" then startTagIn [str "noembed"; str "noframes"; str "noscript"]
       else if c =? chr "p" then startTagIn [str "plaintext"]
       else if c =? chr "s" then startTagIn [str "script"; str "style"]
       else if c =? chr "t" then startTagIn [str "textarea"; str "title"]
       else if c =? chr "x" then startTagIn [str "xmp"]
       else mret false);
    (if (is_raw : bool) then name ← data_bytes; modify (set_rawTag (lower name)) else mret tt);;
    c ← byte_back 2;
    mret (if c =? chr "/" then SelfClosingTagToken else StartTagToken).

(** * The next token *)

Definition ret_token (t : TokenType) : M (option TokenType) := modify (set_ztt t);; mret (Some t).

(** [for z.err == nil] around [readByte]. *)
Fixpoint until_error (fuel : nat) : M unit :=
  match fuel with
  | O => out_of_fuel
  | S fuel => e ← errored; if (e : bool) then mret tt else readByte;; until_error fuel
  end.

(** What follows the [<] and the byte [c], when no text came before them: the
    token, or [None] where the loop of [Next] is left. *)
Definition markup (c : Z) : M (option TokenType) :=
  if is_letter c then t ← readStartTag; ret_token t
  else if c =? chr "/" then
    read (mret None) (fun c =>
      if c =? chr ">" then ret_token CommentToken
      else if is_letter c then readTag false;; e ← errored; ret_token (if (e : bool) then ErrorToken else EndTagToken)
      else unread 1;; readUntilCloseAngle;; ret_token CommentToken)
  else if c =? chr "!" then t ← readMarkupDeclaration; ret_token t
  else unread 1;; readUntilCloseAngle;; ret_token CommentToken.

(** The loop of [Next]: the token it returns, or [None] where it is left. *)
Fixpoint next_loop (fuel : nat) : M (option TokenType) :=
  match fuel with
  | O => out_of_fuel
  | S fuel =>
      read (mret None) (fun c =>
        if negb (c =? chr "<") then next_loop fuel
        else
          read (mret None) (fun c =>
            if negb (is_letter c || (c =? chr "/") || (c =? chr "!") || (c =? chr "?")) then unread 1;; next_loop fuel
            else
              text ← gets (fun z => start (raw z) <? end_ (raw z) - len (str "<a"));
              if (text : bool) then unread (len (str "<a"));; data_to 0;; ret_token TextToken
              else markup c))
  end.

(** The text of an element whose content is not parsed: whether there is any. *)
Definition raw_text : M bool :=
  tag ← gets rawTag;
  if bool_decide (tag = []) then mret false
  else
    (if bool_decide (tag = str "plaintext") then fuel ← loop_fuel; until_error (S fuel);; data_to 0;; modify (set_textIsRaw true) else readRawOrRCDATA);;
    gets (fun z => start (data z) <? end_ (data z)).

Definition Next : M TokenType :=
  modify (fun z => set_raw_start (end_ (raw z)) z);;
  data_from 0;;
  data_to 0;;
  e ← errored;
  if (e : bool) then modify (set_ztt ErrorToken);; mret ErrorToken
  else
    text ← raw_text;
    if (text : bool) then modify (set_ztt TextToken);; modify (set_convertNUL true);; mret TextToken
    else
      modify (set_textIsRaw false);;
      modify (set_convertNUL false);;
      fuel ← loop_fuel;
      t ← next_loop fuel;
      match t with
      | Some t => mret t
      | None =>
          text ← gets (fun z => start (raw z) <? end_ (raw z));
          if (text : bool) then data_to 0;; modify (set_ztt TextToken);; mret TextToken
          else modify (set_ztt ErrorToken);; mret ErrorToken
      end.

(** * The current token *)

Definition Err (z : Tokenizer) : option error := if bool_decide (ztt z = ErrorToken) then err z else None.
Definition AllowCDATA (b : bool) : M unit := modify (set_allowCDATA b).
Definition NextIsNotRawText : M unit := modify (set_rawTag []).
Definition SetMaxBuf (n : Z) : M unit := modify (set_maxBuf n).
Definition Raw (z : Tokenizer) : option bytes := slice (zbuf z) (start (raw z)) (end_ (raw z)).

(** The loop of [convertNewlines] from the first carriage return that a line feed
    follows: what it writes for [s[src:]]. *)
Fixpoint newlines_loop (s : bytes) : bytes :=
  match s with
  | [] => []
  | c :: s' => if c =? 13 then 10 :: match s' with 10 :: s'' => newlines_loop s'' | _ => newlines_loop s' end else c :: newlines_loop s'
  end.

(** The text that is returned; it is no longer than [s], whose array has it at
    its start. *)
Fixpoint convertNewlines (s : bytes) : bytes :=
  match s with
  | [] => []
  | c :: s' =>
      if negb (c =? 13) then c :: convertNewlines s'
      else match s' with 10 :: _ => newlines_loop s | _ => 10 :: convertNewlines s' end
  end.

(** [f] on the slice of the buffer between two indices: what it leaves in the
    array of the slice, which is the buffer's, and what it returns. *)
Definition on_slice {A} (sp : span) (f : bytes -> option (bytes * A)) : M A := fun z =>
  s ← slice (zbuf z) (start sp) (end_ sp);
  '(s, a) ← f s;
  b ← write_at (start sp) s (zbuf z);
  Some (a, set_zbuf b z).

(** [convertNewlines] in place. *)
Definition newlines (s : bytes) : bytes * Z := let t := convertNewlines s in (t ++ from (len t) s, len t).

(** [unescape] on [b[:n]]: the array and the text that is returned. *)
Definition unescape_upto (b : bytes) (n : Z) (attribute : bool) : option (bytes * bytes) :=
  '(c, m) ← unescape (upto n b) attribute;
  Some (c ++ from n b, upto m c).

Definition is_text (t : TokenType) : bool := bool_decide (t = TextToken \/ t = CommentToken \/ t = DoctypeToken).
Definition replace_nul (s : bytes) : bytes := s ≫= (fun c => if c =? 0 then encode_rune 0xFFFD else [c]).

(** What [Text] does with the slice; a text with NUL bytes replaced is a new one. *)
Definition text_of (replace is_raw : bool) (s : bytes) : option (bytes * bytes) :=
  let '(b, n) := newlines s in
  if replace && bool_decide (0 ∈ upto n b) then
    let t := replace_nul (upto n b) in
    if is_raw then Some (b, t) else '(c, m) ← unescape t false; Some (b, upto m c)
  else if is_raw then Some (b, upto n b)
  else unescape_upto b n false.

Definition Text : M bytes :=
  t ← gets ztt;
  if is_text t then
    conv ← gets convertNUL;
    is_raw ← gets textIsRaw;
    s ← (fun z => on_slice (data z) (text_of (conv || bool_decide (t = CommentToken)) is_raw) z);
    data_from 0;;
    data_to 0;;
    mret s
  else mret [].

Definition is_tag (t : TokenType) : bool := bool_decide (t = StartTagToken \/ t = SelfClosingTagToken).

Definition TagName : M (bytes * bool) :=
  some ← gets (fun z => start (data z) <? end_ (data z));
  t ← gets ztt;
  if some && (is_tag t || bool_decide (t = EndTagToken)) then
    name ← (fun z => on_slice (data z) (fun s => Some (lower s, lower s)) z);
    data_from 0;;
    data_to 0;;
    more ← gets (fun z => nAttrReturned z <? len (attr z));
    mret (name, more)
  else mret ([], false).

Definition on_attr {A} (n : Z) (f : span * span -> M A) : M A := fun z => x ← at_ (attr z) n; f x z.

Definition TagAttr : M (bytes * bytes * bool) :=
  more ← gets (fun z => nAttrReturned z <? len (attr z));
  t ← gets ztt;
  if more && is_tag t then
    n ← gets nAttrReturned;
    modify (set_nAttrReturned (n + 1));;
    key ← on_attr n (fun x => on_slice x.1 (fun s => Some (lower s, lower s)));
    val ← on_attr n (fun x => on_slice x.2 (fun s => let '(b, m) := newlines s in unescape_upto b m true));
    more ← gets (fun z => nAttrReturned z <? len (attr z));
    mret (key, val, more)
  else mret ([], [], false).

(** The attributes that [Token] collects. *)
Fixpoint attrs_loop (fuel : nat) (moreAttr : bool) : M (list Attribute) :=
  if moreAttr then
    match fuel with
    | O => out_of_fuel
    | S fuel =>
        '(key, val, moreAttr) ← TagAttr;
        key ← lift (String_of key);
        l ← attrs_loop fuel moreAttr;
        mret (mkAttribute [] key val :: l)
    end
  else mret [].

Definition Token_ : M Token :=
  t ← gets ztt;
  if is_text t then s ← Text; mret (mkToken t 0 s [])
  else if is_tag t || bool_decide (t = EndTagToken) then
    '(name, moreAttr) ← TagName;
    n ← gets (fun z => length (attr z));
    attrs ← attrs_loop n moreAttr;
    a ← lift (Lookup name);
    if negb (a =? 0) then s ← lift (Atom_String a); mret (mkToken t a s attrs) else mret (mkToken t 0 name attrs)
  else mret (mkToken t 0 [] []).

(** * New tokenizers, tokens as text *)

Section new.
Variable ToLower : bytes -> bytes.

Definition fragment_tags : list bytes :=
  str <$> ["iframe"; "noembed"; "noframes"; "noscript"; "plaintext"; "script"; "style"; "title"; "textarea"; "xmp"]%string.

Definition NewTokenizerFragment (r : reader) (contextTag : bytes) : Tokenizer :=
  mkTokenizer r ErrorToken None None (mkSpan 0 0) [] 4096 0 (mkSpan 0 0) (mkSpan 0 0, mkSpan 0 0) [] 0
    (if bool_decide (contextTag = []) then [] else let s := ToLower contextTag in if bool_decide (s ∈ fragment_tags) then s else [])
    false false false.
Definition NewTokenizer (r : reader) : Tokenizer := NewTokenizerFragment r [].
End new.

Definition quoted_attr (a : Attribute) : option bytes := v ← escape (Val a); Some (32 :: Key a ++ str "=" ++ 34 :: v ++ [34]).
Definition tagString (t : Token) : option bytes :=
  if bool_decide (Attr t = []) then Some (Data t) else l ← mapM quoted_attr (Attr t); Some (Data t ++ concat l).
Definition Token_String (t : Token) : option bytes :=
  match Type_ t with
  | ErrorToken => Some []
  | TextToken => EscapeString (Data t)
  | StartTagToken => s ← tagString t; Some (str "<" ++ s ++ str ">")
  | EndTagToken => s ← tagString t; Some (str "</" ++ s ++ str ">")
  | SelfClosingTagToken => s ← tagString t; Some (str "<" ++ s ++ str "/>")
  | CommentToken => Some (str "<!--" ++ Data t ++ str "-->")
  | DoctypeToken => Some (str "<!DOCTYPE " ++ Data t ++ str ">")
  end.

Definition TokenType_String (t : TokenType) : bytes :=
  match t with
  | ErrorToken => str "Error"
  | TextToken => str "Text"
  | StartTagToken => str "StartTag"
  | EndTagToken => str "EndTag"
  | SelfClosingTagToken => str "SelfClosingTag"
  | CommentToken => str "Comment"
  | DoctypeToken => str "Doctype"
  end.

(** The loop of the package's documentation: all tokens, and the error at the end. *)
Fixpoint tokens (fuel : nat) : M (list Token * option error) :=
  match fuel with
  | O => out_of_fuel
  | S fuel =>
      t ← Next;
      if bool_decide (t = ErrorToken) then e ← gets Err; mret ([], e)
      else tok ← Token_; '(l, e) ← tokens fuel; mret (tok :: l, e)
  end.

Example tokens_test :
  fst <$> tokens 20 (NewTokenizer (fun s => s) [(str "<P class='a&amp;b' x=1>H&ampi" ++ [13], None); ([], None); (10 :: str "<scr", None); (str "ipt>a<b</script>&lt;<br/></p><!--c-->", Some (ReadError 7)); (str "lost", None)]) =
  Some ([mkToken StartTagToken 0xc01 (str "p") [mkAttribute [] (str "class") (str "a&b"); mkAttribute [] (str "x") (str "1")];
    mkToken TextToken 0 (str "H&i" ++ [10]) []; mkToken StartTagToken 0x3d406 (str "script") []; mkToken TextToken 0 (str "a<b") [];
    mkToken EndTagToken 0x3d406 (str "script") []; mkToken TextToken 0 (str "<") []; mkToken SelfClosingTagToken 0x202 (str "br") []; mkToken EndTagToken 0xc01 (str "p") [];
    mkToken CommentToken 0 (str "c") []], Some (ReadError 7)).
Proof. vm_compute. reflexivity. Qed.
