(* ===== verification/HtmlTokenSpec.v ===== *)
(** What a tokenizer is apart from its buffer, a calculus of its steps, in which
    whatever the pieces are in which the input comes, what a method returns is a
    function of this view; and what each method does to the view: it ends without
    a panic and its spans lie in what has been read. *)

From S2P Require Import Prelude Utf8 GoStrings HtmlEscape HtmlEscapeRT HtmlAtom HtmlToken.

(** * Views *)

(** The input from the start of the token on, the position in it, and spans
    relative to it. *)
Record view := mkView {
  vtext : bytes;
  vpos : Z;
  vending : error;
  verr : option error;
  vtt : TokenType;
  vmax : Z;
  vdata : span;
  vpend : span * span;
  vattr : list (span * span);
  vret : Z;
  vtag : bytes;
  vraw : bool;
  vnul : bool;
  vcdata : bool
}.

Definition with_text (x : bytes) (v : view) : view := mkView x (vpos v) (vending v) (verr v) (vtt v) (vmax v) (vdata v) (vpend v) (vattr v) (vret v) (vtag v) (vraw v) (vnul v) (vcdata v).
Definition with_pos (x : Z) (v : view) : view := mkView (vtext v) x (vending v) (verr v) (vtt v) (vmax v) (vdata v) (vpend v) (vattr v) (vret v) (vtag v) (vraw v) (vnul v) (vcdata v).
Definition with_err (x : option error) (v : view) : view := mkView (vtext v) (vpos v) (vending v) x (vtt v) (vmax v) (vdata v) (vpend v) (vattr v) (vret v) (vtag v) (vraw v) (vnul v) (vcdata v).
Definition with_tt (x : TokenType) (v : view) : view := mkView (vtext v) (vpos v) (vending v) (verr v) x (vmax v) (vdata v) (vpend v) (vattr v) (vret v) (vtag v) (vraw v) (vnul v) (vcdata v).
Definition with_data (x : span) (v : view) : view := mkView (vtext v) (vpos v) (vending v) (verr v) (vtt v) (vmax v) x (vpend v) (vattr v) (vret v) (vtag v) (vraw v) (vnul v) (vcdata v).
Definition with_pend (x : span * span) (v : view) : view := mkView (vtext v) (vpos v) (vending v) (verr v) (vtt v) (vmax v) (vdata v) x (vattr v) (vret v) (vtag v) (vraw v) (vnul v) (vcdata v).
Definition with_attr (x : list (span * span)) (v : view) : view := mkView (vtext v) (vpos v) (vending v) (verr v) (vtt v) (vmax v) (vdata v) (vpend v) x (vret v) (vtag v) (vraw v) (vnul v) (vcdata v).
Definition with_ret (x : Z) (v : view) : view := mkView (vtext v) (vpos v) (vending v) (verr v) (vtt v) (vmax v) (vdata v) (vpend v) (vattr v) x (vtag v) (vraw v) (vnul v) (vcdata v).
Definition with_tag (x : bytes) (v : view) : view := mkView (vtext v) (vpos v) (vending v) (verr v) (vtt v) (vmax v) (vdata v) (vpend v) (vattr v) (vret v) x (vraw v) (vnul v) (vcdata v).
Definition with_raw (x : bool) (v : view) : view := mkView (vtext v) (vpos v) (vending v) (verr v) (vtt v) (vmax v) (vdata v) (vpend v) (vattr v) (vret v) (vtag v) x (vnul v) (vcdata v).
Definition with_nul (x : bool) (v : view) : view := mkView (vtext v) (vpos v) (vending v) (verr v) (vtt v) (vmax v) (vdata v) (vpend v) (vattr v) (vret v) (vtag v) (vraw v) x (vcdata v).
Definition with_cdata (x : bool) (v : view) : view := mkView (vtext v) (vpos v) (vending v) (verr v) (vtt v) (vmax v) (vdata v) (vpend v) (vattr v) (vret v) (vtag v) (vraw v) (vnul v) x.
Definition with_max (x : Z) (v : view) : view := mkView (vtext v) (vpos v) (vending v) (verr v) (vtt v) x (vdata v) (vpend v) (vattr v) (vret v) (vtag v) (vraw v) (vnul v) (vcdata v).

Definition rest (z : Tokenizer) : bytes * error := if readErr z is Some e then ([], e) else stream 100 (zr z).
Definition rel (z : Tokenizer) : span -> span := shift (start (raw z)).

Definition view_of (z : Tokenizer) : view :=
  mkView (from (start (raw z)) (zbuf z) ++ (rest z).1) (end_ (raw z) - start (raw z)) (rest z).2 (err z) (ztt z) (maxBuf z) (rel z (data z))
    (prod_map (rel z) (rel z) (pendingAttr z)) (prod_map (rel z) (rel z) <$> attr z) (nAttrReturned z) (rawTag z) (textIsRaw z) (convertNUL z) (allowCDATA z).

Definition wf (z : Tokenizer) : Prop := 0 <= start (raw z) <= end_ (raw z) /\ end_ (raw z) <= len (zbuf z) <= zcap z /\ 0 < zcap z.

(** Tokenizers at the same place of the same input, however it is buffered. *)
#[global] Instance tokenizer_equiv : Equiv Tokenizer := fun z z' => wf z /\ wf z' /\ view_of z = view_of z'.

(** Runs of [m] from the view [v] do not panic, and agree. *)
Definition wp {A} (m : M A) (Q : A -> view -> Prop) (v : view) : Prop :=
  forall z z', z ≡ z' -> view_of z = v -> exists a w w', m z = Some (a, w) /\ m z' = Some (a, w') /\ w ≡ w' /\ Q a (view_of w).

Lemma wf_pos z : wf z -> 0 <= vpos (view_of z) <= len (vtext (view_of z)).
Proof. intros (H1 & H2 & H3). cbn. rewrite len_app, len_from by lia. pose proof (len_nonneg (rest z).1). lia. Qed.

Lemma wp_mono {A} (m : M A) (Q R : A -> view -> Prop) v : wp m Q v -> (forall a w, Q a w -> R a w) -> wp m R v.
Proof. intros H HQ z z' Hz Hv. destruct (H z z' Hz Hv) as (a & w & w' & E & E' & Hw & Ha). exists a, w, w'. auto. Qed.

Lemma wp_bind {A B} (m : M A) (k : A -> M B) Q v : wp m (fun a w => wp (k a) Q w) v -> wp (m ≫= k) Q v.
Proof.
  intros H z z' Hz Hv. destruct (H z z' Hz Hv) as (a & w & w' & E & E' & Hw & Ha). destruct (Ha w w' Hw eq_refl) as (b & u & u' & E1 & E1' & Hu & Hb).
  exists b, u, u'. unfold mbind, M_bind. rewrite E, E'. by cbn.
Qed.

Lemma wp_ret {A} (a : A) (Q : A -> view -> Prop) v : Q a v -> wp (mret a) Q v.
Proof. intros HQ z z' Hz <-. by exists a, z, z'. Qed.

Lemma wp_gets {A} (f : Tokenizer -> A) (g : view -> A) Q v : (forall z, wf z -> f z = g (view_of z)) -> Q (g v) v -> wp (gets f) Q v.
Proof.
  intros Hf HQ z z' Hz <-. exists (g (view_of z)), z, z'. unfold gets. destruct Hz as (Hw & Hw' & Hv). rewrite (Hf z), (Hf z'), <- Hv by done. done.
Qed.

Lemma wp_modify (f : Tokenizer -> Tokenizer) (g : view -> view) Q v :
  (forall z, wf z -> view_of z = v -> wf (f z) /\ view_of (f z) = g v) -> Q tt (g v) -> wp (modify f) Q v.
Proof.
  intros Hf HQ z z' (Hw & Hw' & Hv) Hz. exists tt, (f z), (f z'). destruct (Hf z Hw Hz) as [H1 H2]. destruct (Hf z' Hw' ltac:(congruence)) as [H3 H4].
  split_and!; [done|done|split_and!; [done|done|congruence]|by rewrite H2].
Qed.

Lemma wp_lift {A} (o : option A) a (Q : A -> view -> Prop) v : o = Some a -> Q a v -> wp (lift o) Q v.
Proof. intros -> HQ z z' Hz <-. by exists a, z, z'. Qed.

(** What holds of the position in every tokenizer can be assumed. *)
Lemma wp_pos {A} (m : M A) Q v : (0 <= vpos v <= len (vtext v) -> wp m Q v) -> wp m Q v.
Proof. intros H z z' Hz Hv. apply H; [|done..]. rewrite <- Hv. by apply wf_pos, Hz. Qed.

(** * Reading *)

(** One successful read takes a non-empty piece of what the reader gives. *)
Lemma read_tries_stream n k r : (0 < n)%nat -> 0 < k -> let '(p, e, r') := read_tries n k r in let '(d, fin) := stream n r in
  len p <= k /\ if bool_decide (p = []) then d = [] /\ e = Some fin else exists d', d = p ++ d' /\ (d', fin) = (if e is Some x then ([], x) else stream 100 r').
Proof.
  intros Hn Hk. revert r. induction n as [|n IH]; intros r; [lia|]. cbn [read_tries]. destruct r as [|[q e] r]; [cbn; split; [rewrite (@len_nil Z); lia|done]|]. cbn [Read].
  destruct (Z.leb_spec (len q) k) as [Hq|Hq].
  - destruct q as [|x q].
    + destruct e as [e|]; [cbn; split; [rewrite (@len_nil Z); lia|done]|]. change (negb (len (@nil Z) =? 0) || false) with false. cbn iota. cbn [stream].
      destruct n as [|n]; [cbn; split; [rewrite (@len_nil Z); lia|done]|]. rewrite bool_decide_false by lia. apply IH. lia.
    + rewrite len_cons in *. rewrite (proj2 (Z.eqb_neq (len q + 1) 0)) by (pose proof (len_nonneg q); lia). cbn [negb orb]. cbn [stream]. destruct e as [e|].
      * rewrite bool_decide_false, len_cons by done. split; [lia|]. exists []. by rewrite app_nil_r.
      * destruct (stream 100 r) as [d fin] eqn:E. rewrite bool_decide_false, len_cons by done. split; [lia|]. exists d. done.
  - assert (Hu : len (upto k q) = k) by (apply len_upto; lia). rewrite Hu, (proj2 (Z.eqb_neq k 0)) by lia. cbn [negb orb].
    assert (Hn0 : upto k q <> []) by (intros E; rewrite E, len_nil in Hu; lia). assert (Hf : len (from k q) = len q - k) by (apply len_from; lia).
    destruct (from k q) as [|y f] eqn:Ef; [rewrite len_nil in Hf; lia|]. destruct q as [|x q]; [rewrite len_nil in Hq; lia|]. cbn [stream]. destruct e as [e|].
    + rewrite bool_decide_false by done. split; [lia|]. exists (y :: f). split; [|done]. by rewrite <- Ef, upto_from.
    + destruct (stream 100 r) as [d fin] eqn:E. rewrite bool_decide_false by done. split; [lia|]. exists ((y :: f) ++ d). split; [|done]. by rewrite app_assoc, <- Ef, upto_from.
Qed.

(** The view after a byte, and at the end of the input. *)
Definition adv (v : view) : view := with_pos (vpos v + 1) v.
Definition full (v : view) : bool := (0 <? vmax v) && (vmax v <=? vpos v + 1).

Lemma next_byte_view z : wf z -> end_ (raw z) < len (zbuf z) -> exists c w, at_ (vtext (view_of z)) (vpos (view_of z)) = Some c /\ wf w /\
  next_byte z = Some (if full (view_of z) then 0 else c, w) /\ view_of w = if full (view_of z) then with_err (Some ErrBufferExceeded) (adv (view_of z)) else adv (view_of z).
Proof.
  intros (H1 & H2 & H3) Hlt. unfold next_byte. destruct (lookup_lt_is_Some_2 (zbuf z) (Z.to_nat (end_ (raw z)))) as [c Ec]; [unfold len in *; lia|].
  assert (Ea : at_ (zbuf z) (end_ (raw z)) = Some c) by (unfold at_; by rewrite decide_True by lia). rewrite Ea. cbn [mbind option_bind].
  exists c, (if full (view_of z) then set_err (Some ErrBufferExceeded) (set_raw_end (end_ (raw z) + 1) z) else set_raw_end (end_ (raw z) + 1) z).
  split_and!.
  - cbn. unfold at_, from. rewrite decide_True by lia. rewrite lookup_app_l by (rewrite length_drop; unfold len in *; lia). rewrite lookup_drop. rewrite <- Ec. f_equal. lia.
  - destruct (full _); split_and!; cbn; lia.
  - unfold full. cbn. replace (end_ (raw z) - start (raw z) + 1) with (end_ (raw z) + 1 - start (raw z)) by lia. by destruct ((0 <? maxBuf z) && _).
  - destruct (full _); unfold view_of, adv, with_pos, with_err; cbn; f_equal; lia.
Qed.

Lemma view_shift_spans z live c : wf z -> live = from (start (raw z)) (upto (end_ (raw z)) (zbuf z)) -> len (zbuf z) = end_ (raw z) ->
  view_of (set_raw (mkSpan 0 (end_ (raw z) - start (raw z))) (set_zbuf live (set_zcap c (shift_spans (start (raw z)) z)))) = view_of z.
Proof.
  intros (H1 & H2 & H3) -> Hl. assert (Hs : forall s, rel (set_raw (mkSpan 0 (end_ (raw z) - start (raw z))) z) (shift (start (raw z)) s) = rel z s)
    by (intros [a b]; unfold rel, shift; cbn; f_equal; lia).
  assert (Eu : upto (end_ (raw z)) (zbuf z) = zbuf z) by (rewrite <- (app_nil_r (zbuf z)) at 1; by apply upto_app_len).
  assert (Ef : from 0 (from (start (raw z)) (zbuf z)) = from (start (raw z)) (zbuf z)) by done.
  unfold shift_spans. destruct (Z.eqb_spec (start (raw z)) 0) as [E0|E0].
  - unfold view_of. cbn. rewrite Eu, E0. unfold rest, rel. cbn. rewrite E0. f_equal; lia.
  - unfold view_of. cbn. rewrite Eu, Ef. unfold rest. cbn. unfold rel in *. cbn in *. f_equal; try lia; try apply Hs.
    + destruct (pendingAttr z) as [s1 s2]. cbn. by rewrite !Hs.
    + rewrite <- list_fmap_compose. apply list_fmap_ext. intros i [s1 s2] _. unfold compose. cbn. by rewrite !Hs.
Qed.

Definition read_view (v : view) : Z * view :=
  match at_ (vtext v) (vpos v) with
  | Some c => if full v then (0, with_err (Some ErrBufferExceeded) (adv v)) else (c, adv v)
  | None => (0, with_err (Some (vending v)) v)
  end.

Lemma at_end {A} (l : list A) i : len l <= i -> at_ l i = None.
Proof. intros H. unfold at_. destruct (decide (0 <= i)); [|done]. apply lookup_ge_None_2. unfold len in H. lia. Qed.

Lemma next_byte_ok z : wf z -> end_ (raw z) < len (zbuf z) -> exists w, next_byte z = Some ((read_view (view_of z)).1, w) /\ wf w /\ view_of w = (read_view (view_of z)).2.
Proof.
  intros Hz Hlt. destruct (next_byte_view z Hz Hlt) as (c & w & Ec & Hw & E & Hv). exists w. unfold read_view. rewrite Ec, E, Hv. by destruct (full (view_of z)).
Qed.

Lemma refill_ok z : wf z -> end_ (raw z) = len (zbuf z) -> exists w, refill z = Some ((read_view (view_of z)).1, w) /\ wf w /\ view_of w = (read_view (view_of z)).2.
Proof.
  intros Hz Hl. pose proof Hz as (H1 & H2 & H3). assert (Hend : (rest z).1 = [] -> read_view (view_of z) = (0, with_err (Some (rest z).2) (view_of z))).
  { intros Hr. unfold read_view. rewrite at_end; [done|]. cbn. rewrite Hr, app_nil_r, len_from by lia. lia. }
  unfold refill. destruct (readErr z) as [e|] eqn:Ee.
  { assert (Hr : rest z = ([], e)) by (unfold rest; by rewrite Ee). rewrite Hend by (by rewrite Hr). eexists. split; [reflexivity|]. split; [exact Hz|]. rewrite Hr. done. }
  set (d := end_ (raw z) - start (raw z)). set (c := if zcap z <? 2 * d then 2 * zcap z else zcap z). assert (Hc : d < c) by (unfold c; z_cases; lia).
  set (live := from (start (raw z)) (upto (end_ (raw z)) (zbuf z))).
  assert (Es : slice (zbuf z) (start (raw z)) (end_ (raw z)) = Some live) by (unfold slice; by rewrite !(proj2 (Z.leb_le _ _)) by lia). rewrite Es. cbn [mbind option_bind].
  set (z1 := set_raw (mkSpan 0 d) (set_zbuf live (set_zcap c (shift_spans (start (raw z)) z)))). assert (Hv1 : view_of z1 = view_of z) by (by apply view_shift_spans).
  assert (Hlive : len live = d) by (unfold live; rewrite len_from; rewrite len_upto by lia; lia).
  assert (Hsame : zr z1 = zr z /\ readErr z1 = None) by (unfold z1, shift_spans; by destruct (_ =? 0)).
  replace (zr (shift_spans (start (raw z)) z)) with (zr z1) by done. destruct Hsame as [Hzr Hre].
  pose proof (read_tries_stream 100 (c - d) (zr z1) ltac:(lia) ltac:(lia)) as Hread. unfold readAtLeastOneByte. destruct (read_tries 100 (c - d) (zr z1)) as [[p e] r].
  destruct (stream 100 (zr z1)) as [s fin] eqn:Est. destruct Hread as [Hp Hread]. assert (Hrest : rest z = (s, fin)) by (unfold rest; rewrite Ee, <- Hzr; done).
  case_bool_decide as Hnil.
  - subst p. destruct Hread as [-> ->]. rewrite Hend by (by rewrite Hrest). change (len [] =? 0) with true. cbn iota. eexists. split; [reflexivity|]. split; [split_and!; cbn; lia|].
    rewrite Hrest. cbn [snd]. rewrite <- Hv1. unfold view_of, with_err, rest. rewrite Hre, Est. done.
  - destruct Hread as (d' & -> & Hd'). rewrite (proj2 (Z.eqb_neq _ _)) by (destruct p; [done|rewrite len_cons; pose proof (len_nonneg p); lia]).
    set (z2 := set_zbuf (live ++ p) (set_readErr e (set_zr r z1))). assert (Hv2 : view_of z2 = view_of z).
    { rewrite <- Hv1. unfold view_of. assert (Hr2 : rest z2 = (d', fin)) by (unfold rest; cbn; by destruct e). assert (Hr1 : rest z1 = (p ++ d', fin)) by (unfold rest; by rewrite Hre).
      rewrite Hr1, Hr2. cbn. by rewrite app_assoc. }
    rewrite <- Hv2. apply next_byte_ok; [|cbn; rewrite len_app; destruct p; [done|rewrite len_cons; pose proof (len_nonneg p); lia]].
    split_and!; cbn; rewrite ?len_app; pose proof (len_nonneg p); lia.
Qed.

Lemma readByte_ok z : wf z -> exists w, readByte z = Some ((read_view (view_of z)).1, w) /\ wf w /\ view_of w = (read_view (view_of z)).2.
Proof.
  intros Hz. unfold readByte. destruct (Z.leb_spec (len (zbuf z)) (end_ (raw z))) as [Hl|Hl]; [|by apply next_byte_ok].
  apply refill_ok; [done|]. destruct Hz as (H1 & H2 & H3). lia.
Qed.

Lemma wp_readByte Q v : Q (read_view v).1 (read_view v).2 -> wp readByte Q v.
Proof.
  intros HQ z z' (Hw & Hw' & Hv) <-. destruct (readByte_ok z Hw) as (w & E & Hww & Hvw). destruct (readByte_ok z' Hw') as (w' & E' & Hww' & Hvw').
  exists (read_view (view_of z)).1, w, w'. rewrite E, E', Hv, Hvw. split_and!; try done; [|by rewrite <- Hv]. split_and!; [done|done|]. by rewrite Hvw, Hvw', Hv.
Qed.

(** Without a limit, an error is the one at the end of the input. *)
Definition err_ok (v : view) : Prop := vmax v = 0 -> verr v <> None -> vpos v = len (vtext v) /\ verr v = Some (vending v).

(** Bytes have gone by, and perhaps an error has come. *)
Definition moved (v w : view) : Prop :=
  exists e p, w = with_err e (with_pos p v) /\ vpos v <= p <= len (vtext v) /\ (verr v <> None -> e <> None) /\ (err_ok v -> err_ok w).
Definition failing (v w : view) : Prop := moved v w /\ verr w <> None.

Lemma full_max v : full v = true -> vmax v <> 0.
Proof. unfold full. intros H%andb_true_iff. lia. Qed.

Lemma wp_read {A} (failed : M A) (k : Z -> M A) Q v :
  (forall w, failing v w -> wp failed Q w) ->
  (forall c, verr v = None -> 0 <= vpos v < len (vtext v) -> at_ (vtext v) (vpos v) = Some c -> full v = false -> wp (k c) Q (adv v)) ->
  wp (read failed k) Q v.
Proof.
  intros Hf Hk. apply wp_pos. intros Hp. apply wp_bind, wp_readByte. unfold read_view. apply wp_bind.
  assert (Hgets : forall R w, R (if verr w is Some _ then true else false) w -> wp errored R w) by (intros R w HR; by eapply (wp_gets _ (fun v => if verr v is Some _ then true else false))).
  assert (Hfail : forall e p, vpos v <= p <= len (vtext v) -> (err_ok v -> err_ok (with_err (Some e) (with_pos p v))) -> wp failed Q (with_err (Some e) (with_pos p v))).
  { intros e p Hle He. apply Hf. split; [|done]. exists (Some e), p. done. }
  destruct (at_ (vtext v) (vpos v)) as [c|] eqn:Ec.
  - assert (Hlt : vpos v < len (vtext v)) by (destruct (Z.lt_ge_cases (vpos v) (len (vtext v))); [done|]; rewrite at_end in Ec by done; done).
    destruct (full v) eqn:Ef; apply Hgets; [apply (Hfail _ (vpos v + 1)); [lia|]; intros _ Hm; by apply full_max in Ef|].
    cbn. destruct (verr v) as [e|] eqn:Ee; [|apply Hk; done || lia]. replace (adv v) with (with_err (Some e) (with_pos (vpos v + 1) v)) by (unfold with_err, with_pos, adv, with_pos; cbn; by rewrite Ee).
    apply Hfail; [lia|]. intros H Hm _. destruct (H Hm) as [? _]; [by rewrite Ee|lia].
  - apply Hgets. replace (with_err (Some (vending v)) v) with (with_err (Some (vending v)) (with_pos (vpos v) v)) by (by destruct v). apply Hfail; [lia|].
    intros _ _ _. cbn. split; [|done]. destruct (Z.lt_ge_cases (vpos v) (len (vtext v))) as [Hlt|]; [|lia].
    unfold at_ in Ec. rewrite decide_True in Ec by lia. apply lookup_ge_None_1 in Ec. unfold len in *. lia.
Qed.

(** * The other steps *)

Lemma wp_errored Q v : Q (if verr v is Some _ then true else false) v -> wp errored Q v.
Proof. intros HQ. by eapply (wp_gets _ (fun v => if verr v is Some _ then true else false)). Qed.

Lemma wp_unread n Q v : 0 <= n <= vpos v -> Q tt (with_pos (vpos v - n) v) -> wp (unread n) Q v.
Proof.
  intros Hn HQ. apply wp_modify with (g := fun v => with_pos (vpos v - n) v); [|done]. intros z (H1 & H2 & H3) Hv.
  assert (Hp : vpos v = end_ (raw z) - start (raw z)) by (by rewrite <- Hv). split; [split_and!; cbn; lia|].
  rewrite <- Hv. unfold view_of, with_pos. cbn. f_equal. lia.
Qed.

Lemma wp_data_from n Q v : Q tt (with_data (mkSpan (vpos v - n) (end_ (vdata v))) v) -> wp (data_from n) Q v.
Proof.
  intros HQ. apply wp_modify with (g := fun v => with_data (mkSpan (vpos v - n) (end_ (vdata v))) v); [|done]. intros z Hz <-. split; [exact Hz|].
  unfold view_of, with_data, rel, shift. cbn. f_equal. f_equal. lia.
Qed.

Lemma wp_data_to n Q v : Q tt (with_data (mkSpan (start (vdata v)) (vpos v - n)) v) -> wp (data_to n) Q v.
Proof.
  intros HQ. apply wp_modify with (g := fun v => with_data (mkSpan (start (vdata v)) (vpos v - n)) v); [|done]. intros z Hz <-. split; [exact Hz|].
  unfold view_of, with_data, rel, shift. cbn. f_equal. f_equal. lia.
Qed.

Definition with_key (s : span) (v : view) : view := with_pend (s, (vpend v).2) v.
Definition with_val (s : span) (v : view) : view := with_pend ((vpend v).1, s) v.

Lemma wp_key_from n Q v : Q tt (with_key (mkSpan (vpos v - n) (end_ (vpend v).1)) v) -> wp (key_from n) Q v.
Proof.
  intros HQ. apply wp_modify with (g := fun v => with_key (mkSpan (vpos v - n) (end_ (vpend v).1)) v); [|done]. intros z Hz <-. split; [exact Hz|].
  unfold view_of, with_key, with_pend, rel, shift. cbn. do 3 f_equal; lia.
Qed.

Lemma wp_key_to n Q v : Q tt (with_key (mkSpan (start (vpend v).1) (vpos v - n)) v) -> wp (key_to n) Q v.
Proof.
  intros HQ. apply wp_modify with (g := fun v => with_key (mkSpan (start (vpend v).1) (vpos v - n)) v); [|done]. intros z Hz <-. split; [exact Hz|].
  unfold view_of, with_key, with_pend, rel, shift. cbn. do 3 f_equal; lia.
Qed.

Lemma wp_val_from n Q v : Q tt (with_val (mkSpan (vpos v - n) (end_ (vpend v).2)) v) -> wp (val_from n) Q v.
Proof.
  intros HQ. apply wp_modify with (g := fun v => with_val (mkSpan (vpos v - n) (end_ (vpend v).2)) v); [|done]. intros z Hz <-. split; [exact Hz|].
  unfold view_of, with_val, with_pend, rel, shift. cbn. do 3 f_equal; lia.
Qed.

Lemma wp_val_to n Q v : Q tt (with_val (mkSpan (start (vpend v).2) (vpos v - n)) v) -> wp (val_to n) Q v.
Proof.
  intros HQ. apply wp_modify with (g := fun v => with_val (mkSpan (start (vpend v).2) (vpos v - n)) v); [|done]. intros z Hz <-. split; [exact Hz|].
  unfold view_of, with_val, with_pend, rel, shift. cbn. do 3 f_equal; lia.
Qed.

(** Fields that are the same in the view. *)
Lemma wp_set_tt x Q v : Q tt (with_tt x v) -> wp (modify (set_ztt x)) Q v.
Proof. intros HQ. apply wp_modify with (g := with_tt x); [|done]. by intros z Hz <-. Qed.
Lemma wp_set_tag x Q v : Q tt (with_tag x v) -> wp (modify (set_rawTag x)) Q v.
Proof. intros HQ. apply wp_modify with (g := with_tag x); [|done]. by intros z Hz <-. Qed.
Lemma wp_set_textIsRaw x Q v : Q tt (with_raw x v) -> wp (modify (set_textIsRaw x)) Q v.
Proof. intros HQ. apply wp_modify with (g := with_raw x); [|done]. by intros z Hz <-. Qed.
Lemma wp_set_nul x Q v : Q tt (with_nul x v) -> wp (modify (set_convertNUL x)) Q v.
Proof. intros HQ. apply wp_modify with (g := with_nul x); [|done]. by intros z Hz <-. Qed.
Lemma wp_set_cdata x Q v : Q tt (with_cdata x v) -> wp (modify (set_allowCDATA x)) Q v.
Proof. intros HQ. apply wp_modify with (g := with_cdata x); [|done]. by intros z Hz <-. Qed.
Lemma wp_set_ret x Q v : Q tt (with_ret x v) -> wp (modify (set_nAttrReturned x)) Q v.
Proof. intros HQ. apply wp_modify with (g := with_ret x); [|done]. by intros z Hz <-. Qed.
Lemma wp_set_max x Q v : Q tt (with_max x v) -> wp (SetMaxBuf x) Q v.
Proof. intros HQ. apply wp_modify with (g := with_max x); [|done]. by intros z Hz <-. Qed.
Lemma wp_set_no_attr Q v : Q tt (with_attr [] v) -> wp (modify (set_attr [])) Q v.
Proof. intros HQ. apply wp_modify with (g := with_attr []); [|done]. by intros z Hz <-. Qed.

Lemma eqb_shift a b x : (a - x =? b - x) = (a =? b).
Proof. destruct (Z.eqb_spec a b) as [->|]; [apply Z.eqb_refl|]. apply Z.eqb_neq. lia. Qed.

Lemma wp_save_attr b Q v :
  Q tt (if b && negb (start (vpend v).1 =? end_ (vpend v).1) then with_attr (vattr v ++ [vpend v]) v else v) -> wp (save_attr b) Q v.
Proof.
  intros HQ. apply wp_modify with (g := fun v => if b && negb (start (vpend v).1 =? end_ (vpend v).1) then with_attr (vattr v ++ [vpend v]) v else v); [|done].
  intros z Hz <-. assert (E : (start (vpend (view_of z)).1 =? end_ (vpend (view_of z)).1) = (start (pendingAttr z).1 =? end_ (pendingAttr z).1)) by apply eqb_shift.
  rewrite E. destruct (b && negb (start (pendingAttr z).1 =? end_ (pendingAttr z).1)); [|split; [exact Hz|done]].
  split; [exact Hz|]. unfold view_of, with_attr. cbn. by rewrite fmap_app.
Qed.

Lemma pending_view z : wf z -> pending z = from (vpos (view_of z)) (vtext (view_of z)).
Proof.
  intros (H1 & H2 & H3). unfold pending. cbn. assert (Hr : (if readErr z is Some _ then [] else (stream 100 (zr z)).1) = (rest z).1) by (unfold rest; by destruct (readErr z)).
  rewrite Hr. unfold from. rewrite drop_app_le by (rewrite length_drop; unfold len in *; lia). rewrite drop_drop. do 2 f_equal. lia.
Qed.

Lemma wp_loop_fuel Q v : Q (S (length (from (vpos v) (vtext v)))) v -> wp loop_fuel Q v.
Proof. intros HQ. apply (wp_gets _ (fun v => S (length (from (vpos v) (vtext v))))); [|done]. intros z Hz. by rewrite pending_view. Qed.

(** The next token starts where this one ends. *)
Definition next_start (v : view) : view :=
  with_text (from (vpos v) (vtext v)) (with_pos 0 (with_data (shift (vpos v) (vdata v)) (with_pend (prod_map (shift (vpos v)) (shift (vpos v)) (vpend v))
    (with_attr (prod_map (shift (vpos v)) (shift (vpos v)) <$> vattr v) v)))).

Lemma shift_shift a b s : shift b (shift a s) = shift (a + b) s.
Proof. unfold shift. destruct s as [x y]. cbn. f_equal; lia. Qed.

Lemma wp_next_start Q v : Q tt (next_start v) -> wp (modify (fun z => set_raw_start (end_ (raw z)) z)) Q v.
Proof.
  intros HQ. apply wp_modify with (g := next_start); [|done]. intros z (H1 & H2 & H3) <-. split; [split_and!; cbn; lia|].
  assert (Hs : forall s, shift (end_ (raw z) - start (raw z)) (rel z s) = shift (end_ (raw z)) s) by (intros s; unfold rel; rewrite shift_shift; f_equal; lia).
  unfold view_of, next_start, with_text, with_pos, with_data, with_pend, with_attr. cbn. f_equal.
  - unfold from. rewrite drop_app_le by (rewrite length_drop; unfold len in *; lia). rewrite drop_drop. do 2 f_equal. lia.
  - lia.
  - by rewrite Hs.
  - destruct (pendingAttr z) as [s1 s2]. cbn. by rewrite !Hs.
  - rewrite <- list_fmap_compose. apply list_fmap_ext. intros i [s1 s2] _. unfold compose. cbn. by rewrite !Hs.
Qed.

(** Accesses to bytes of the token that have been read. *)
Lemma text_split z : wf z -> zbuf z = upto (start (raw z)) (zbuf z) ++ from (start (raw z)) (zbuf z) /\ len (upto (start (raw z)) (zbuf z)) = start (raw z).
Proof. intros (H1 & H2 & H3). split; [by rewrite upto_from|apply len_upto; lia]. Qed.

Lemma at_text z i : wf z -> 0 <= i < vpos (view_of z) -> at_ (zbuf z) (start (raw z) + i) = at_ (vtext (view_of z)) i.
Proof.
  intros (H1 & H2 & H3) Hi. cbn in *. unfold at_. rewrite !decide_True by lia. unfold from. rewrite lookup_app_l by (rewrite length_drop; unfold len in *; lia).
  rewrite lookup_drop. f_equal. lia.
Qed.

Lemma slice_text z a b : wf z -> 0 <= a <= b -> b <= vpos (view_of z) ->
  slice (zbuf z) (start (raw z) + a) (start (raw z) + b) = Some (from a (upto b (vtext (view_of z)))).
Proof.
  intros (H1 & H2 & H3) Ha Hb. cbn in *. unfold slice. rewrite !(proj2 (Z.leb_le _ _)) by lia. cbn [andb]. f_equal. unfold from, upto.
  rewrite take_app_le by (rewrite length_drop; unfold len in *; lia). rewrite !skipn_firstn_comm, !drop_drop. f_equal; [lia|]. f_equal. lia.
Qed.

Lemma write_text z a s : wf z -> 0 <= a -> a + len s <= vpos (view_of z) -> exists b, write_at (start (raw z) + a) s (zbuf z) = Some b /\ wf (set_zbuf b z) /\
  view_of (set_zbuf b z) = with_text (upto a (vtext (view_of z)) ++ s ++ from (a + len s) (vtext (view_of z))) (view_of z).
Proof.
  intros (H1 & H2 & H3) Ha Hs. pose proof (len_nonneg s). unfold write_at. cbn in Hs. rewrite !(proj2 (Z.leb_le _ _)) by lia. cbn [andb]. eexists. split; [reflexivity|].
  set (b := _ ++ _ ++ _). assert (Hlen : len b = len (zbuf z)) by (unfold b; rewrite !len_app, len_upto, len_from by lia; lia).
  split; [split_and!; cbn; lia|]. unfold view_of at 1, with_text. cbn. unfold rest. cbn. f_equal. fold (rest z). unfold b.
  assert (E1 : from (start (raw z)) (upto (start (raw z) + a) (zbuf z) ++ s ++ from (start (raw z) + a + len s) (zbuf z)) =
    upto a (from (start (raw z)) (zbuf z)) ++ s ++ from (start (raw z) + a + len s) (zbuf z)).
  { unfold from at 1. rewrite drop_app_le by (unfold upto; rewrite length_take; unfold len in *; lia). f_equal. unfold upto, from. rewrite skipn_firstn_comm. f_equal. lia. }
  rewrite E1. unfold upto, from. rewrite take_app_le by (rewrite length_drop; unfold len in *; lia). rewrite (drop_app_le (drop _ _)) by (rewrite length_drop; unfold len in *; lia).
  rewrite drop_drop, <- !app_assoc. do 4 f_equal. lia.
Qed.

Lemma wp_data_byte i c (Q : Z -> view -> Prop) v : 0 <= start (vdata v) + i < vpos v -> at_ (vtext v) (start (vdata v) + i) = Some c -> Q c v -> wp (data_byte i) Q v.
Proof.
  intros Hi Hc HQ z z' Hz <-. assert (H : forall z, wf z -> 0 <= start (vdata (view_of z)) + i < vpos (view_of z) -> at_ (vtext (view_of z)) (start (vdata (view_of z)) + i) = Some c -> data_byte i z = Some (c, z)).
  { clear. intros z Hw Hi Hc. unfold data_byte. pose proof (at_text z _ Hw Hi) as Ha. cbn in Ha, Hc. replace (start (data z) + i) with (start (raw z) + (start (data z) - start (raw z) + i)) by lia. by rewrite Ha, Hc. }
  destruct Hz as (Hw & Hw' & Hv). exists c, z, z'. split_and!; try done; apply H; try done; by rewrite <- Hv.
Qed.

Lemma wp_byte_back n c (Q : Z -> view -> Prop) v : 0 < n <= vpos v -> at_ (vtext v) (vpos v - n) = Some c -> Q c v -> wp (byte_back n) Q v.
Proof.
  intros Hi Hc HQ z z' Hz <-. assert (H : forall z, wf z -> 0 < n <= vpos (view_of z) -> at_ (vtext (view_of z)) (vpos (view_of z) - n) = Some c -> byte_back n z = Some (c, z)).
  { clear. intros z Hw Hi Hc. unfold byte_back. pose proof (at_text z (vpos (view_of z) - n) Hw ltac:(lia)) as Ha. rewrite Hc in Ha. cbn in Ha.
    replace (start (raw z) + (end_ (raw z) - start (raw z) - n)) with (end_ (raw z) - n) in Ha by lia. by rewrite Ha. }
  destruct Hz as (Hw & Hw' & Hv). exists c, z, z'. split_and!; try done; apply H; try done; by rewrite <- Hv.
Qed.

(** A span of what has been read. *)
Definition span_ok (v : view) (s : span) : Prop := 0 <= start s <= end_ s /\ end_ s <= vpos v.
Definition sub (s : span) (t : bytes) : bytes := from (start s) (upto (end_ s) t).
Definition put (a : Z) (s t : bytes) : bytes := upto a t ++ s ++ from (a + len s) t.

Lemma slice_rel z s : wf z -> span_ok (view_of z) (rel z s) -> slice (zbuf z) (start s) (end_ s) = Some (sub (rel z s) (vtext (view_of z))).
Proof.
  intros Hw [H1 H2]. cbn [rel shift start end_] in *. pose proof (slice_text z _ _ Hw H1 H2) as H. unfold rel, shift in *. cbn [start end_] in *.
  replace (start (raw z) + (start s - start (raw z))) with (start s) in H by lia. by replace (start (raw z) + (end_ s - start (raw z))) with (end_ s) in H by lia.
Qed.

Lemma wp_data_bytes (Q : bytes -> view -> Prop) v : span_ok v (vdata v) -> Q (sub (vdata v) (vtext v)) v -> wp data_bytes Q v.
Proof.
  intros Hs HQ z z' (Hw & Hw' & Hv) <-. exists (sub (vdata (view_of z)) (vtext (view_of z))), z, z'. unfold data_bytes.
  rewrite (slice_rel z (data z) Hw Hs). rewrite Hv in Hs. rewrite (slice_rel z' (data z') Hw' Hs). split_and!; try done. cbn [mbind option_bind]. do 2 f_equal. by rewrite Hv.
Qed.

Lemma on_slice_ok {A} z s (f : bytes -> option (bytes * A)) s' a : wf z -> span_ok (view_of z) (rel z s) -> f (sub (rel z s) (vtext (view_of z))) = Some (s', a) ->
  len s' = end_ s - start s -> exists w, on_slice s f z = Some (a, w) /\ wf w /\ view_of w = with_text (put (start (rel z s)) s' (vtext (view_of z))) (view_of z).
Proof.
  intros Hw Hs Hf Hl. unfold on_slice. rewrite (slice_rel z s Hw Hs). cbn [mbind option_bind]. rewrite Hf. cbn [mbind option_bind]. destruct Hs as [H1 H2]. unfold rel, shift in *. cbn [start end_] in *.
  destruct (write_text z (start s - start (raw z)) s' Hw ltac:(lia) ltac:(lia)) as (b & Eb & Hwb & Hvb). replace (start (raw z) + (start s - start (raw z))) with (start s) in Eb by lia.
  rewrite Eb. cbn [mbind option_bind]. exists (set_zbuf b z). done.
Qed.

Lemma wp_on_data {A} (f : bytes -> option (bytes * A)) s' a (Q : A -> view -> Prop) v : span_ok v (vdata v) -> f (sub (vdata v) (vtext v)) = Some (s', a) ->
  len s' = end_ (vdata v) - start (vdata v) -> Q a (with_text (put (start (vdata v)) s' (vtext v)) v) -> wp (fun z => on_slice (data z) f z) Q v.
Proof.
  intros Hs Hf Hl HQ z z' (Hw & Hw' & Hv) <-.
  destruct (on_slice_ok z (data z) f s' a Hw Hs Hf) as (w & E & Hww & Hvw); [cbn in Hl; lia|]. rewrite Hv in Hs, Hf, Hl.
  destruct (on_slice_ok z' (data z') f s' a Hw' Hs Hf) as (w' & E' & Hww' & Hvw'); [cbn in Hl; lia|].
  exists a, w, w'. split_and!; [done|done|split_and!; [done|done|]|by rewrite Hvw]. rewrite Hvw, Hvw'. change (rel z (data z)) with (vdata (view_of z)). change (rel z' (data z')) with (vdata (view_of z')). by rewrite Hv.
Qed.

Lemma wp_on_attr {A} n (p : bool) x (f : bytes -> option (bytes * A)) s' a (Q : A -> view -> Prop) v : at_ (vattr v) n = Some x -> let s := if p then x.1 else x.2 in
  span_ok v s -> f (sub s (vtext v)) = Some (s', a) -> len s' = end_ s - start s -> Q a (with_text (put (start s) s' (vtext v)) v) ->
  wp (on_attr n (fun x => on_slice (if p then x.1 else x.2) f)) Q v.
Proof.
  intros Hx s Hs Hf Hl HQ. assert (H : forall z, wf z -> view_of z = v -> exists w, on_attr n (fun x => on_slice (if p then x.1 else x.2) f) z = Some (a, w) /\ wf w /\ view_of w = with_text (put (start s) s' (vtext v)) v).
  { intros z Hw <-. cbn in Hx. unfold at_ in Hx. destruct (decide (0 <= n)) as [Hn|]; [|done]. rewrite list_lookup_fmap in Hx. destruct (attr z !! Z.to_nat n) as [y|] eqn:Ey; [|done]. injection Hx as <-.
    assert (Es : s = rel z (if p then y.1 else y.2)) by (unfold s; destruct y, p; done). rewrite Es in *. unfold on_attr, at_. rewrite decide_True, Ey by done. cbn [mbind option_bind].
    apply on_slice_ok; try done. rewrite Hl. unfold rel, shift. cbn. lia. }
  intros z z' (Hw & Hw' & Hv) Hz. destruct (H z Hw Hz) as (w & E & Hww & Hvw). destruct (H z' Hw' ltac:(congruence)) as (w' & E' & Hww' & Hvw').
  exists a, w, w'. split_and!; [done|done|split_and!; [done|done|congruence]|by rewrite Hvw].
Qed.

Lemma wp_back_to_data Q v : 0 <= start (vdata v) <= vpos v -> Q tt (with_pos (start (vdata v)) v) -> wp (modify (fun z => set_raw_end (start (data z)) z)) Q v.
Proof.
  intros Hn HQ. apply wp_modify with (g := fun v => with_pos (start (vdata v)) v); [|done]. intros z (H1 & H2 & H3) <-. cbn in Hn. split; [split_and!; cbn; lia|done].
Qed.

(** * Positions *)

(** How many bytes are left. *)
Definition left (v : view) : nat := length (from (vpos v) (vtext v)).

Lemma left_adv v : 0 <= vpos v < len (vtext v) -> S (left (adv v)) = left v.
Proof. intros H. unfold left, adv, with_pos. cbn. rewrite !length_from. unfold len in H. lia. Qed.

Lemma left_back v p : 0 <= p <= vpos v -> vpos v <= len (vtext v) -> Z.of_nat (left (with_pos p v)) = len (vtext v) - p.
Proof. intros H H'. unfold left, with_pos. cbn. rewrite length_from. unfold len in *. lia. Qed.

Lemma left_len v : 0 <= vpos v <= len (vtext v) -> Z.of_nat (left v) = len (vtext v) - vpos v.
Proof. intros H. unfold left. rewrite length_from. unfold len in *. lia. Qed.

Lemma err_ok_none v : verr v = None -> err_ok v.
Proof. intros H _ Hn. done. Qed.

Lemma moved_same v : vpos v <= len (vtext v) -> moved v v.
Proof. intros H. exists (verr v), (vpos v). assert (E : with_err (verr v) (with_pos (vpos v) v) = v) by (by destruct v). rewrite E. split; [done|]. split; [lia|done]. Qed.

Lemma moved_more u v w : moved u v -> moved v w -> moved u w.
Proof.
  intros (e & p & -> & Hp & He & Ho) (e' & p' & -> & Hp' & He' & Ho'). exists e', p'. cbn in *. split_and!; [done|lia|lia| |].
  - intros H. by apply He', He.
  - intros H. apply Ho', Ho, H.
Qed.

Lemma moved_adv v : vpos v < len (vtext v) -> verr v = None -> moved v (adv v).
Proof. intros H E. exists None, (vpos v + 1). split_and!; [by destruct v; cbn in *; subst|lia|lia|done|]. intros _. by apply err_ok_none. Qed.

Lemma moved_step v w : vpos v < len (vtext v) -> verr v = None -> moved (adv v) w -> moved v w.
Proof. intros H E Hw. eapply moved_more; [by apply moved_adv|done]. Qed.

Lemma moved_back v : vpos v <= len (vtext v) -> with_pos (vpos (adv v) - 1) (adv v) = v.
Proof. intros H. destruct v. unfold adv, with_pos. cbn. f_equal. lia. Qed.

Ltac unread := apply wp_unread; [cbn; lia|].

(** * White space *)

Lemma skip_loop_ok fuel v : (left v < fuel)%nat -> wp (skip_loop fuel) (fun _ w => moved v w) v.
Proof.
  revert v. induction fuel as [|fuel IH]; intros v Hf; [lia|]. cbn [skip_loop]. apply wp_read; [intros w [Hw _]; by apply wp_ret|].
  intros c E Hp Ec _. destruct (is_space c).
  - pose proof (left_adv v Hp). eapply wp_mono; [apply IH; lia|]. cbn. intros _ w Hw. apply moved_step; (lia || done).
  - unread. rewrite moved_back by lia. apply moved_same. lia.
Qed.

Lemma skipWhiteSpace_ok v : wp skipWhiteSpace (fun _ w => moved v w) v.
Proof.
  apply wp_pos. intros Hp. apply wp_bind, wp_errored. destruct (verr v); [apply wp_ret, moved_same; lia|]. apply wp_bind, wp_loop_fuel, skip_loop_ok. unfold left. lia.
Qed.

(** * Raw text *)

Lemma wp_ext {A} (m m' : M A) Q v : (forall z, m z = m' z) -> wp m' Q v -> wp m Q v.
Proof. intros H Hm z z' Hz Hv. rewrite !H. by apply Hm. Qed.

Lemma with_pos_pos p q v : with_pos p (with_pos q v) = with_pos p v.
Proof. done. Qed.

Lemma with_pos_adv p v : with_pos p (adv v) = with_pos p v.
Proof. done. Qed.

Lemma failing_moved v w : failing v w -> moved v w.
Proof. by intros [? _]. Qed.

Lemma failing_adv v w : vpos v < len (vtext v) -> verr v = None -> failing (adv v) w -> failing v w.
Proof. intros H E [Hw Hn]. split; [by apply moved_step|done]. Qed.

Lemma moved_pos v p : verr v = None -> vpos v <= p <= len (vtext v) -> moved v (with_pos p v).
Proof. intros E H. exists None, p. split; [by destruct v; cbn in *; subst|]. split; [done|]. split; [done|]. intros _. by apply err_ok_none. Qed.

(** The search for an end tag: it fails at an error, or where a byte differs, or
    goes back by [3 + n] bytes from behind the byte that follows the name. *)
Lemma end_tag_loop_ok tag n (R : bool -> view -> Prop) v : 0 <= 3 + n <= vpos v + len tag + 1 ->
  (forall w, failing v w -> R false w) -> (forall p, vpos v <= p <= len (vtext v) -> verr v = None -> R false (with_pos p v)) ->
  (verr v = None -> vpos v + len tag + 1 <= len (vtext v) -> R true (with_pos (vpos v + len tag + 1 - (3 + n)) v)) ->
  wp (end_tag_loop tag n) R v.
Proof.
  revert v. induction tag as [|t tag IH]; intros v Hn Hf Hm Hs; cbn [end_tag_loop]; apply wp_read; try (by intros w Hw; apply wp_ret, Hf).
  - intros c E Hp Ec _. rewrite len_nil in *. destruct (_ || _).
    + apply wp_bind. unread. apply wp_ret. cbn. rewrite with_pos_adv. specialize (Hs E ltac:(lia)). by rewrite Z.add_0_r in Hs.
    + apply wp_bind. unread. apply wp_ret. rewrite moved_back by lia. specialize (Hm (vpos v) ltac:(lia) E). by destruct v.
  - intros c E Hp Ec _. rewrite len_cons in *. pose proof (len_nonneg tag). destruct (negb _ && _).
    + apply wp_bind. unread. apply wp_ret. rewrite moved_back by lia. specialize (Hm (vpos v) ltac:(lia) E). by destruct v.
    + apply IH; cbn.
      * lia.
      * intros w Hw. apply Hf, failing_adv; (lia || done).
      * intros p Hle _. rewrite with_pos_adv. apply Hm; (lia || done).
      * intros _ Hle. rewrite with_pos_adv. replace (vpos v + 1 + len tag + 1) with (vpos v + (len tag + 1) + 1) by lia. apply Hs; (lia || done).
Qed.

Lemma readRawEndTag_ok v : 2 <= vpos v -> wp readRawEndTag (fun found w => if found : bool then w = with_pos (vpos v - 2) v /\ verr v = None else moved v w) v.
Proof.
  intros Hp. apply wp_bind. apply (wp_gets _ vtag); [done|]. pose proof (len_nonneg (vtag v)). apply end_tag_loop_ok; [lia|by intros w []| |].
  - intros p Hle E. by apply moved_pos.
  - intros E Hle. split; [|done]. f_equal. lia.
Qed.

(** The position may go back to the start of the end tag. *)
Lemma raw_loop_ok fuel v : 0 <= vpos v -> (left v < fuel)%nat -> wp (raw_loop fuel) (fun _ w => moved v w) v.
Proof.
  revert v. induction fuel as [|fuel IH]; intros v H0 Hf; [lia|]. cbn [raw_loop]. apply wp_read; [intros w [Hw _]; by apply wp_ret|].
  intros c E Hp Ec _. pose proof (left_adv v Hp). destruct (negb _).
  { eapply wp_mono; [apply IH; cbn; lia|]. cbn. intros _ w Hw. apply moved_step; (lia || done). }
  apply wp_read; [intros w Hw; apply wp_ret, failing_moved, failing_adv; (lia || done)|]. intros c2 _ Hp2 _ _. cbn in Hp2. pose proof (left_adv (adv v) Hp2).
  assert (Hm2 : moved v (adv (adv v))) by (apply moved_step, moved_adv; (cbn; lia || done)). destruct (negb _).
  { eapply wp_mono; [apply IH; cbn; lia|]. cbn. intros _ w Hw. by eapply moved_more. }
  apply wp_bind. eapply wp_mono; [apply readRawEndTag_ok; cbn; lia|]. cbn. intros found w Hw. apply wp_bind, wp_errored. destruct found.
  - apply wp_ret. destruct Hw as [-> _]. rewrite !with_pos_adv. apply moved_pos; (lia || done).
  - cbn [orb]. assert (Hmw : moved v w) by (by eapply moved_more). destruct (verr w) eqn:Ew; [by apply wp_ret|].
    destruct Hw as (e & p & -> & Hp3 & _ & _). cbn in Hp3. eapply wp_mono; [apply IH; [cbn; lia|]|cbn; intros _ u Hu; by eapply moved_more].
    unfold left in *. cbn in *. rewrite !length_from in *. unfold len in *. lia.
Qed.

(** * Scripts *)

(** The position has changed, perhaps backwards, and perhaps an error has come. *)
Definition near (v w : view) : Prop :=
  exists e p, w = with_err e (with_pos p v) /\ 0 <= p <= len (vtext v) /\ (verr v <> None -> e <> None) /\ (err_ok v -> err_ok w).

Lemma moved_near v w : 0 <= vpos v -> moved v w -> near v w.
Proof. intros H (e & p & -> & Hp & He). exists e, p. split; [done|]. split; [lia|done]. Qed.

Lemma near_pos v p : verr v = None -> 0 <= p <= len (vtext v) -> near v (with_pos p v).
Proof. intros E H. exists None, p. split; [by destruct v; cbn in *; subst|]. split; [done|]. split; [done|]. intros _. by apply err_ok_none. Qed.

Lemma near_trans u v w : near u v -> near v w -> near u w.
Proof.
  intros (e & p & -> & Hp & He & Ho) (e' & p' & -> & Hp' & He' & Ho'). exists e', p'. cbn in *. split; [done|]. split; [done|]. split.
  - intros H. by apply He', He.
  - intros H. apply Ho', Ho, H.
Qed.

(** The labels that take no byte, or give one back, weigh more than where they lead. *)
Definition script_weight (l : script_label) : Z :=
  match l with
  | scriptDataLessThanSign | scriptDataEndTagOpen | scriptDataEscapeStart | scriptDataEscapeStartDash | scriptDataEscapedEndTagOpen
  | scriptDataDoubleEscapedLessThanSign | scriptDataDoubleEscapeEnd => 1
  | scriptDataEscapedLessThanSign => 2
  | scriptDataDoubleEscapeStart => 5
  | _ => 0
  end.
(** The bytes that have been read at a label. *)
Definition script_min (l : script_label) : Z :=
  match l with
  | scriptDataEndTagOpen | scriptDataEscapedEndTagOpen | scriptDataDoubleEscapeStart | scriptDataDoubleEscapeEnd => 2
  | scriptDataLessThanSign | scriptDataEscapedLessThanSign | scriptDataDoubleEscapedLessThanSign => 1
  | _ => 0
  end.

(** What a label's code does when it goes on. *)
Definition script_post (l : script_label) (v : view) (o : option script_label) (w : view) : Prop :=
  near v w /\ if o is Some l' then verr w = None /\ script_min l' <= vpos w /\ 4 * (len (vtext w) - vpos w) + script_weight l' < 4 * (len (vtext v) - vpos v) + script_weight l else True.

Lemma script_name_ok lo up v : length lo = length up -> verr v = None ->
  wp (script_name lo up) (fun o w => match o with None => failing v w | Some b => exists p, w = with_pos p v /\ vpos v <= p <= len (vtext v) /\ ((b : bool) -> p = vpos v + len lo) end) v.
Proof.
  intros Hl E0. apply wp_pos. revert up v Hl E0. induction lo as [|l lo IH]; intros [|u up] v Hl E0 H0; try done; cbn [script_name].
  { apply wp_ret. exists (vpos v). split; [by destruct v|]. split; [lia|]. rewrite (@len_nil Z). lia. }
  apply wp_read; [intros w Hw; by apply wp_ret|]. intros c E Hp Ec _. destruct (_ && _).
  - apply wp_bind. unread. apply wp_ret. rewrite moved_back by lia. exists (vpos v). split; [by destruct v|]. split; [lia|done].
  - eapply wp_mono; [apply IH; [by injection Hl|done|cbn; lia]|]. cbn. intros [b|] w.
    + intros (p & -> & Hle & Hb). exists p. split; [done|]. split; [lia|]. intros Ht. specialize (Hb Ht). rewrite len_cons. lia.
    + intros Hw. apply failing_adv; (lia || done).
Qed.

Lemma read_bind {A B} (failed : M A) (k : Z -> M A) (K : A -> M B) z : (read failed k ≫= K) z = read (failed ≫= K) (fun c => k c ≫= K) z.
Proof.
  unfold read, errored, gets, mbind, M_bind. destruct (readByte z) as [[c w]|]; [|done]. cbn. by destruct (is_err w).
Qed.

Lemma read_ext {A} (f f' : M A) (k k' : Z -> M A) z : (forall w, f w = f' w) -> (forall c w, k c w = k' c w) -> read f k z = read f' k' z.
Proof.
  intros Hf Hk. unfold read, errored, gets, mbind, M_bind. destruct (readByte z) as [[c w]|]; [|done]. cbn. by destruct (is_err w).
Qed.

(** Going back and forth from the end of an end tag. *)
Lemma end_tag_loop_unread {A} tag n m (k1 k2 : M A) z :
  (end_tag_loop tag n ≫= fun found : bool => if found then unread m;; k1 else k2) z = (end_tag_loop tag (n + m) ≫= fun found : bool => if found then k1 else k2) z.
Proof.
  revert z. induction tag as [|t tag IH]; intros z; cbn [end_tag_loop]; rewrite !read_bind; apply read_ext; try done; intros c w.
  - destruct (_ || _); [|done]. unfold mbind, M_bind, unread, modify, set_raw_end, set_raw. cbn. by replace (end_ (raw w) - (3 + n) - m) with (end_ (raw w) - (3 + (n + m))) by lia.
  - by destruct (_ && _).
Qed.

Lemma script_end_at l v p w : verr v = None -> 0 <= p <= len (vtext v) -> failing (with_pos p v) w -> script_post l v None w.
Proof. intros E Hp [Hm _]. split; [|done]. eapply near_trans; [by apply near_pos|apply moved_near; [cbn; lia|done]]. Qed.

Lemma script_goto l l' v p (Hp : 0 <= p <= len (vtext v)) : verr v = None -> script_min l' <= p -> 4 * (len (vtext v) - p) + script_weight l' < 4 * (len (vtext v) - vpos v) + script_weight l ->
  script_post l v (Some l') (with_pos p v).
Proof. intros E Hm Hw. split; [by apply near_pos|]. cbn. split; [done|lia]. Qed.

Lemma script_end l v w : 0 <= vpos v -> moved v w -> script_post l v None w.
Proof. intros H Hm. split; [by apply moved_near|done]. Qed.

(** An end tag is looked for, and the label [l'] comes where there is none. *)
Lemma script_end_tag l l' v : 2 <= vpos v -> script_min l' = 0 -> script_weight l' < script_weight l ->
  wp (found ← readRawEndTag; e ← errored; if (found : bool) || e then mret None else mret (Some l')) (script_post l v) v.
Proof.
  intros Hp Hm Hw. apply wp_pos. intros Hv. apply wp_bind. eapply wp_mono; [by apply readRawEndTag_ok|]. cbn. intros found w Hf. apply wp_bind, wp_errored. destruct found.
  - destruct Hf as [-> E]. apply wp_ret. split; [apply near_pos; (lia || done)|done].
  - cbn [orb]. destruct (verr w) eqn:E; apply wp_ret; [apply script_end; (lia || done)|]. split; [by apply moved_near; [lia|]|]. split; [done|]. destruct Hf as (e & p & -> & Hle & _). cbn. lia.
Qed.

Lemma script_step_ok l v : vtag v = str "script" -> verr v = None -> script_min l <= vpos v -> wp (script_step l) (script_post l v) v.
Proof.
  intros Htag E Hm. apply wp_pos. intros Hv. destruct l; cbn [script_step]; cbv zeta; cbn in Hm.
  3, 10: apply script_end_tag; (done || lia).
  1-8, 10-13: apply wp_read; [intros w [Hw _]; apply wp_ret, script_end; (lia || done)|]; intros c _ Hp _ _;
    repeat match goal with |- wp (if ?b then _ else _) _ _ => destruct b end; first [apply wp_ret|apply wp_bind; unread; apply wp_ret; rewrite with_pos_adv];
    apply script_goto; cbn; (lia || done).
  - apply wp_bind. unread. apply wp_bind. eapply wp_mono; [by apply script_name_ok|]. cbn. intros [[]|] w.
    + intros (p & -> & Hle & Hp). specialize (Hp I). change (len (str "script")) with 6 in Hp. rewrite with_pos_pos. apply wp_read; [intros w Hw; apply wp_ret; eapply script_end_at; try exact Hw; (lia || done)|].
      intros c _ Hlt _ _. cbn in Hlt. destruct (_ || _); [apply wp_ret|apply wp_bind; unread; apply wp_ret]; rewrite ?with_pos_adv; unfold adv; rewrite ?with_pos_pos; apply script_goto; cbn; (lia || done).
    + intros (p & -> & Hle & _). apply wp_ret. rewrite with_pos_pos. apply script_goto; cbn; (lia || done).
    + intros Hw. apply wp_ret. eapply script_end_at; try exact Hw; (lia || done).
  - apply (wp_ext _ (tag ← gets rawTag; found ← end_tag_loop tag (len tag + - len (str "</script>"));
      if (found : bool) then mret (Some scriptDataEscaped) else e ← errored; if (e : bool) then mret None else mret (Some scriptDataDoubleEscaped))).
    { intros z. apply (end_tag_loop_unread (rawTag z) (len (rawTag z))). }
    apply wp_bind, (wp_gets _ vtag); [done|]. rewrite Htag. change (len (str "script") + - len (str "</script>")) with (-3). apply wp_bind, end_tag_loop_ok; cbn iota beta; change (len (str "script")) with 6.
    + lia.
    + intros w [Hw Hn]. apply wp_bind, wp_errored. destruct (verr w); [|done]. apply wp_ret, script_end; (lia || done).
    + intros p Hle _. apply wp_bind, wp_errored. cbn. rewrite E. apply wp_ret, script_goto; cbn; (lia || done).
    + intros _ Hle. apply wp_ret, script_goto; cbn in *; (lia || done).
Qed.

Lemma script_loop_ok fuel l v : vtag v = str "script" -> verr v = None -> script_min l <= vpos v -> 4 * (len (vtext v) - vpos v) + script_weight l < Z.of_nat fuel ->
  wp (script_loop fuel l) (fun _ w => near v w) v.
Proof.
  revert l v. induction fuel as [|fuel IH]; intros l v Htag E Hm Hf; apply wp_pos; intros Hv; [destruct l; cbn in Hf; lia|]. cbn [script_loop].
  apply wp_bind. eapply wp_mono; [by apply script_step_ok|]. cbn. intros [l'|] w [Hn Hl]; [|by apply wp_ret]. destruct Hl as (Ew & Hm' & Hw).
  eapply wp_mono; [apply IH; [by destruct Hn as (e & p & -> & _)|done|done|lia]|]. cbn. intros _ u Hu. by eapply near_trans.
Qed.

(** What every method keeps: the text and its end, and an error once it is set. *)
Record kept (v w : view) : Prop := {
  kept_text : vtext w = vtext v;
  kept_ending : vending w = vending v;
  kept_max : vmax w = vmax v;
  kept_pos : 0 <= vpos w <= len (vtext v);
  kept_err : verr v <> None -> verr w <> None;
  kept_ok : err_ok v -> err_ok w }.

Lemma kept_refl v : 0 <= vpos v <= len (vtext v) -> kept v v.
Proof. by split. Qed.

Lemma kept_trans u v w : kept u v -> kept v w -> kept u w.
Proof. intros [H1 H2 H3 H4 H5 H6] [H1' H2' H3' H4' H5' H6']. split; try congruence; try tauto. Qed.

Lemma near_kept v w : near v w -> kept v w.
Proof. intros (e & p & -> & Hp & He & Ho). by split. Qed.

Lemma moved_kept v w : 0 <= vpos v -> moved v w -> kept v w.
Proof. intros H Hm. by apply near_kept, moved_near. Qed.

Lemma readScript_ok v : vtag v = str "script" -> verr v = None ->
  wp readScript (fun _ w => kept v w /\ vdata w = mkSpan (start (vdata v)) (vpos w)) v.
Proof.
  intros Htag E. apply wp_pos. intros Hv. apply wp_bind, wp_loop_fuel, wp_bind. eapply wp_mono.
  - apply script_loop_ok; [done|done|cbn; lia|]. fold (left v). pose proof (left_len v Hv). cbn [script_weight]. lia.
  - cbn. intros _ w Hn. apply wp_data_to. destruct (near_kept _ _ Hn) as [H1 H2 H3 H4 H5 H6]. split; [by split|]. cbn. destruct Hn as (e & p & -> & _). cbn. f_equal; lia.
Qed.

Lemma readRawOrRCDATA_ok v : verr v = None -> wp readRawOrRCDATA (fun _ w => kept v w /\ vdata w = mkSpan (start (vdata v)) (vpos w)) v.
Proof.
  intros E. apply wp_pos. intros Hv. apply wp_bind, (wp_gets _ vtag); [done|]. case_bool_decide as Htag.
  - apply wp_bind. eapply wp_mono; [by apply readScript_ok|]. cbn. intros _ w [[H1 H2 H3 H4 H5 H6] Hd]. apply wp_bind, wp_set_textIsRaw, wp_set_tag. by split.
  - apply wp_bind, wp_loop_fuel, wp_bind. eapply wp_mono; [apply raw_loop_ok; [lia|unfold left; lia]|]. cbn. intros _ w Hm.
    destruct (moved_kept v w ltac:(lia) Hm) as [H1 H2 H3 H4 H5 H6]. apply wp_bind, wp_data_to, wp_bind, wp_set_textIsRaw, wp_set_tag. split; [by split|].
    cbn. destruct Hm as (e & p & -> & _). cbn. f_equal; lia.
Qed.

Lemma until_error_ok fuel v : (left v < fuel)%nat -> wp (until_error (S fuel)) (fun _ w => moved v w) v.
Proof.
  revert v. induction fuel as [|fuel IH]; intros v Hf; [lia|]. apply wp_pos. intros Hv.
  change (until_error (S (S fuel))) with (e ← errored; if (e : bool) then mret tt else readByte;; until_error (S fuel)). apply wp_bind, wp_errored.
  destruct (verr v) as [e|] eqn:E; [apply wp_ret, moved_same; lia|].
  assert (Hr : wp (read (mret tt) (fun _ => until_error (S fuel))) (fun _ w => moved v w) v).
  { apply wp_read; [intros w [Hw _]; by apply wp_ret|]. intros c _ Hp _ _. pose proof (left_adv v Hp). eapply wp_mono; [apply IH; lia|]. cbn. intros _ w Hw. apply moved_step; (lia || done). }
  eapply wp_ext; [|exact Hr]. intros z. unfold read, mbind, M_bind. destruct (readByte z) as [[c w]|]; [|done].
  cbn [option_bind]. change (until_error (S fuel) w) with ((e ← errored; if (e : bool) then mret tt else readByte;; until_error fuel) w).
  unfold errored, gets, mbind, M_bind. cbn [mbind option_bind]. cbn. destruct (is_err w) eqn:Ew; [|done]. unfold errored, gets, mbind, M_bind. cbn. by rewrite Ew.
Qed.

Lemma raw_text_ok v : verr v = None -> vdata v = mkSpan 0 (vpos v) ->
  wp raw_text (fun b w => kept v w /\ vdata w = mkSpan 0 (vpos w) /\ ((b : bool) -> 0 < vpos w) /\ (b = false -> vpos v = 0 -> vpos w = 0)) v.
Proof.
  intros E Hd. apply wp_pos. intros Hv. apply wp_bind, (wp_gets _ vtag); [done|]. case_bool_decide as Htag.
  { apply wp_ret. split; [by apply kept_refl|done]. }
  apply wp_bind. eapply (wp_mono _ (fun _ w => kept v w /\ vdata w = mkSpan 0 (vpos w))).
  - case_bool_decide.
    + apply wp_bind, wp_loop_fuel, wp_bind. eapply wp_mono; [apply until_error_ok; unfold left; lia|]. cbn. intros _ w Hm.
      destruct (moved_kept v w ltac:(lia) Hm) as [H1 H2 H3 H4 H5 H6]. apply wp_bind, wp_data_to, wp_set_textIsRaw. split; [by split|].
      cbn. destruct Hm as (e & p & -> & _). cbn. rewrite Hd. cbn. f_equal; lia.
    + eapply wp_mono; [by apply readRawOrRCDATA_ok|]. cbn. intros _ w. by rewrite Hd.
  - cbn. intros _ w [Hk Hw]. apply (wp_gets _ (fun v => start (vdata v) <? end_ (vdata v))); [intros z _; cbn; z_cases; lia|]. rewrite Hw. cbn [start end_].
    split; [exact Hk|]. split; [done|]. split.
    + intros H. destruct (Z.ltb_spec 0 (vpos w)); [done|]. by destruct H.
    + intros H H0. pose proof (kept_pos _ _ Hk). destruct (Z.ltb_spec 0 (vpos w)); [done|lia].
Qed.

(** * Comments and declarations *)

(** The data of the token has been found, not before the start it had. *)
Definition told (v w : view) : Prop := kept v w /\ start (vdata v) <= start (vdata w) /\ span_ok w (vdata w).

(** The start of the data lies in what has been read. *)
Definition data_in (v : view) : Prop := 0 <= start (vdata v) <= vpos v.

Lemma kept_with_data d v w : kept v w -> kept v (with_data d w).
Proof. intros [H1 H2 H3 H4 H5 H6]. by split. Qed.

Lemma kept_adv v : 0 <= vpos v < len (vtext v) -> verr v = None -> kept v (adv v).
Proof. intros H E. apply moved_kept; [lia|]. apply moved_adv; (lia || done). Qed.

Lemma kept_adv_trans v w : 0 <= vpos v < len (vtext v) -> verr v = None -> kept (adv v) w -> kept v w.
Proof. intros H E. apply kept_trans. by apply kept_adv. Qed.

Lemma told_data_to n v w : moved v w -> data_in v -> 0 <= n -> start (vdata v) <= vpos w - n -> told v (with_data (mkSpan (start (vdata w)) (vpos w - n)) w).
Proof.
  intros Hm Hd Hn Hs. unfold data_in in Hd. assert (Hk : kept v w) by (apply moved_kept; [lia|done]). split; [by apply kept_with_data|]. destruct Hm as (e & p & -> & Hp & _). cbn in *.
  unfold span_ok. cbn. lia.
Qed.

Lemma told_adv v w : 0 <= vpos v < len (vtext v) -> verr v = None -> told (adv v) w -> told v w.
Proof. intros H E (Hk & Hw). split; [by apply (kept_adv_trans v)|done]. Qed.

Lemma close_angle_loop_ok fuel v : (left v < fuel)%nat -> data_in v -> wp (close_angle_loop fuel) (fun _ w => told v w) v.
Proof.
  revert v. induction fuel as [|fuel IH]; intros v Hf Hd; [lia|]. cbn [close_angle_loop]. apply wp_read.
  - intros w [Hm _]. apply wp_data_to, told_data_to; try done. unfold data_in in Hd. destruct Hm as (e & p & -> & Hp & _). cbn. lia.
  - intros c E Hp Ec _. pose proof (left_adv v Hp). unfold data_in in Hd. destruct (_ =? _).
    + change (len (str ">")) with 1. apply wp_data_to, (told_data_to 1); [apply moved_adv; (lia || done)|done|lia|cbn; lia].
    + eapply wp_mono; [apply IH; [lia|unfold data_in; cbn; lia]|]. cbn. intros _ w. by apply told_adv.
Qed.

Lemma told_data_from n v w : 0 <= n -> data_in v -> start (vdata v) <= vpos v - n -> told (with_data (mkSpan (vpos v - n) (end_ (vdata v))) v) w -> told v w.
Proof.
  intros Hn Hd Hs ([H1 H2 H3 H4 H5 H6] & Hw & Ho). split; [by split|]. cbn in Hw. split; [lia|done].
Qed.

Lemma readUntilCloseAngle_from v : 0 <= vpos v -> wp readUntilCloseAngle (fun _ w => kept v w /\ vpos v <= start (vdata w) /\ span_ok w (vdata w)) v.
Proof.
  intros Hp. apply wp_bind, wp_data_from, wp_bind, wp_loop_fuel. eapply wp_mono; [apply close_angle_loop_ok; [unfold left; cbn; lia|unfold data_in; cbn; lia]|].
  cbn. intros _ w ([H1 H2 H3 H4 H5 H6] & Hw & Ho). cbn in Hw. split; [by split|]. split; [lia|done].
Qed.

Lemma readUntilCloseAngle_ok v : data_in v -> wp readUntilCloseAngle (fun _ w => told v w) v.
Proof.
  unfold data_in. intros Hd. eapply wp_mono; [apply readUntilCloseAngle_from; lia|]. cbn. intros _ w (Hk & Hw & Ho). split; [done|]. split; [lia|done].
Qed.

(** The data of a comment may end before it starts, as with [<!-->]. *)
Definition commented (v w : view) : Prop := kept v w /\ start (vdata w) = start (vdata v) /\ start (vdata w) <= vpos w /\ end_ (vdata w) <= vpos w.

Lemma commented_data_to n v w : moved v w -> data_in v -> 0 <= n -> commented v (with_data (mkSpan (start (vdata w)) (vpos w - n)) w).
Proof.
  intros Hm Hd Hn. unfold data_in in Hd. assert (Hk : kept v w) by (apply moved_kept; [lia|done]). split; [by apply kept_with_data|]. destruct Hm as (e & p & -> & Hp & _). cbn in *. lia.
Qed.

Lemma commented_adv v w : 0 <= vpos v < len (vtext v) -> verr v = None -> commented (adv v) w -> commented v w.
Proof. intros H E (Hk & Hw). split; [by apply (kept_adv_trans v)|done]. Qed.

Lemma comment_loop_ok fuel v dashCount : (left v < fuel)%nat -> data_in v -> 0 <= dashCount -> wp (comment_loop fuel dashCount) (fun _ w => commented v w) v.
Proof.
  revert v dashCount. induction fuel as [|fuel IH]; intros v dashCount Hf Hd H0; [lia|]. cbn [comment_loop]. apply wp_read.
  - intros w [Hm _]. apply wp_data_to, commented_data_to; try done. z_cases; lia.
  - intros c E Hp Ec _. pose proof (left_adv v Hp). unfold data_in in Hd.
    assert (Hrec : forall d, 0 <= d -> wp (comment_loop fuel d) (fun _ w => commented v w) (adv v)).
    { intros d Hd0. eapply wp_mono; [apply IH; [lia|unfold data_in; cbn; lia|done]|]. cbn. intros _ w. by apply commented_adv. }
    assert (Hend : forall n, 0 <= n -> wp (data_to n) (fun _ w => commented v w) (adv v)).
    { intros n Hn. apply wp_data_to, (commented_data_to n); [apply moved_adv; (lia || done)|done|done]. }
    destruct (_ =? _); [apply Hrec; lia|]. destruct (_ && _); [by apply Hend|]. destruct (_ && _); [|apply Hrec; lia]. apply wp_read.
    + intros w [Hm _]. apply wp_data_to, (commented_data_to 0); [|done|lia]. apply moved_step; (lia || done).
    + intros c2 _ Hp2 _ _. destruct (_ =? _).
      * apply wp_data_to, (commented_data_to (len (str "--!>"))); [|done|done]. cbn in Hp2. apply moved_step; [lia|done|]. apply moved_adv; [cbn; lia|done].
      * pose proof (left_adv (adv v) Hp2). eapply wp_mono; [apply IH; [lia|unfold data_in; cbn; lia|lia]|]. cbn. intros _ w Hw. apply commented_adv; [done|done|]. by apply commented_adv.
Qed.

Lemma readComment_ok v : data_in v -> wp readComment (fun _ w => told v w) v.
Proof.
  intros Hd. apply wp_bind, wp_data_from, wp_bind, wp_loop_fuel, wp_bind. unfold data_in in Hd.
  eapply wp_mono; [apply comment_loop_ok; [unfold left; cbn; lia|unfold data_in; cbn; lia|lia]|]. cbn. intros _ w (Hk & Hs & Hp & He). cbn in *.
  apply (wp_modify _ (fun w => if end_ (vdata w) <? start (vdata w) then with_data (mkSpan (start (vdata w)) (start (vdata w))) w else w)).
  { intros z Hz <-. cbn. replace (end_ (data z) - start (raw z) <? start (data z) - start (raw z)) with (end_ (data z) <? start (data z)) by (z_cases; lia).
    destruct (_ <? _); [|by split]. split; [exact Hz|]. done. }
  assert (Hk' : kept v w) by (destruct Hk as [H1 H2 H3 H4 H5 H6]; by split). split; [destruct (_ <? _); [by apply kept_with_data|done]|].
  unfold span_ok. destruct (Z.ltb_spec (end_ (vdata w)) (start (vdata w))); cbn; lia.
Qed.

(** Where the constant is not found, the position is at the data again or there
    is an error. *)
Definition expected (v : view) (b : bool) (w : view) : Prop :=
  kept v w /\ start (vdata w) = start (vdata v) /\ start (vdata v) <= vpos w /\ (b = true -> verr w = None).

Lemma expect_loop_ok ok s v : data_in v -> verr v = None -> wp (expect_loop ok s) (expected v) v.
Proof.
  intros Hd E. apply wp_pos. intros Hv. revert v Hd E Hv. induction s as [|x s IH]; intros v Hd E Hv; cbn [expect_loop].
  { apply wp_ret. unfold data_in in Hd. split; [by apply kept_refl|]. split; [done|]. split; [lia|done]. }
  unfold data_in in Hd. apply wp_read.
  - intros w [Hm Hn]. apply wp_bind, wp_data_to, wp_ret. split; [apply kept_with_data, moved_kept; (lia || done)|]. destruct Hm as (e & p & -> & Hp & _). cbn. split; [done|]. split; [lia|done].
  - intros c _ Hp _ _. destruct (negb _).
    + apply wp_bind, wp_back_to_data; [cbn; lia|]. apply wp_ret. rewrite with_pos_adv. split; [|split; [done|split; [cbn; lia|done]]].
      apply near_kept, near_pos; [done|]. cbn. lia.
    + eapply wp_mono; [apply IH; [unfold data_in; cbn; lia|done|cbn; lia]|]. intros b w (Hk & H). split; [by apply (kept_adv_trans v)|done].
Qed.

Lemma told_trans u v w : kept u v -> start (vdata u) <= start (vdata v) -> told v w -> told u w.
Proof. intros Hk Hs (Hk' & Hs' & Ho). split; [by eapply kept_trans|]. split; [lia|done]. Qed.

Lemma readDoctype_ok v : data_in v -> verr v = None -> wp readDoctype (fun b w => if b : bool then told v w else expected v false w) v.
Proof.
  intros Hd E. apply wp_bind. eapply wp_mono; [by apply expect_loop_ok|]. intros [] w (Hk & Hs & Hp & Hn); cbn [negb]; [|apply wp_ret; split_and!; done].
  unfold data_in in Hd. specialize (Hn eq_refl). apply wp_bind. eapply wp_mono; [apply skipWhiteSpace_ok|]. cbn. intros _ u Hm. apply wp_bind, wp_errored.
  assert (Hku : kept v u) by (eapply kept_trans; [exact Hk|apply moved_kept; (lia || done)]).
  assert (Hu : start (vdata u) = start (vdata v) /\ start (vdata v) <= vpos u) by (destruct Hm as (e & p & -> & Hle & _); cbn; lia).
  destruct (verr u).
  - apply wp_bind, wp_data_from, wp_bind, wp_data_to, wp_ret. split; [by repeat apply kept_with_data|]. cbn. unfold span_ok. cbn. lia.
  - apply wp_bind. eapply wp_mono; [apply readUntilCloseAngle_ok; unfold data_in; lia|]. cbn. intros _ x Hx. apply wp_ret. eapply told_trans; [exact Hku|lia|exact Hx].
Qed.

(** Brackets are counted among the bytes of the data. *)
Lemma cdata_loop_ok fuel v brackets : (left v < fuel)%nat -> data_in v -> 0 <= brackets <= vpos v - start (vdata v) -> wp (cdata_loop fuel brackets) (fun _ w => told v w) v.
Proof.
  revert v brackets. induction fuel as [|fuel IH]; intros v brackets Hf Hd Hb; [lia|]. cbn [cdata_loop]. unfold data_in in Hd. apply wp_read.
  - intros w [Hm _]. apply wp_data_to, told_data_to; try done. destruct Hm as (e & p & -> & Hp & _). cbn. lia.
  - intros c E Hp Ec _. pose proof (left_adv v Hp).
    assert (Hrec : forall d, 0 <= d <= vpos v + 1 - start (vdata v) -> wp (cdata_loop fuel d) (fun _ w => told v w) (adv v)).
    { intros d Hd0. eapply wp_mono; [apply IH; [lia|unfold data_in; cbn; lia|cbn; lia]|]. cbn. intros _ w. by apply told_adv. }
    destruct (_ =? _); [apply Hrec; lia|]. destruct ((c =? _) && (2 <=? brackets)) eqn:Ecl; [|apply Hrec; lia].
    apply andb_true_iff in Ecl as [_ H2]. change (len (str "]]>")) with 3. apply wp_data_to, (told_data_to 3); [apply moved_adv; (lia || done)|done|lia|cbn; lia].
Qed.

(** The data moves on within what has been read. *)
Definition forth (v w : view) : Prop := kept v w /\ start (vdata v) <= start (vdata w) <= vpos w.

Lemma expect_loop_forth ok s v : data_in v -> wp (expect_loop ok s) (fun _ w => forth v w) v.
Proof.
  intros Hd. destruct (verr v) as [e|] eqn:E; [|eapply wp_mono; [by apply expect_loop_ok|]; cbn; intros b w (Hk & Hs & Hw & _); split; [done|lia]].
  apply wp_pos. intros Hv. unfold data_in in Hd. destruct s as [|x s]; cbn [expect_loop]; [apply wp_ret; split; [by apply kept_refl|lia]|].
  apply wp_read; [|intros c E2; congruence]. intros w [Hm _]. apply wp_bind, wp_data_to, wp_ret. split; [apply kept_with_data, moved_kept; (lia || done)|].
  destruct Hm as (e' & p & -> & Hp & _). cbn. lia.
Qed.

Lemma told_forth v w x : 0 <= start (vdata v) -> forth v w -> told w x -> told v x.
Proof. intros H (Hk & Hs) Hx. eapply told_trans; [done|lia|done]. Qed.

Lemma readCDATA_ok v : data_in v -> wp readCDATA (fun b w => if b : bool then told v w else forth v w) v.
Proof.
  intros Hd. apply wp_bind. eapply wp_mono; [by apply expect_loop_forth|]. intros [] w Hw; cbn [negb]; [|by apply wp_ret]. unfold data_in in Hd. destruct Hw as (Hk & Hs).
  apply wp_bind, wp_data_from, wp_bind, wp_loop_fuel, wp_bind. eapply wp_mono; [apply cdata_loop_ok; [unfold left; cbn; lia|unfold data_in; cbn; lia|cbn; lia]|].
  cbn. intros _ x Hx. apply wp_ret. eapply told_trans; [exact Hk| |eapply told_data_from; [| | |exact Hx]; unfold data_in; lia]. lia.
Qed.

Lemma readMarkupDeclaration_ok v : 0 <= vpos v -> wp readMarkupDeclaration (fun t w => is_text t = true /\ kept v w /\ vpos v <= start (vdata w) /\ span_ok w (vdata w)) v.
Proof.
  intros H0. apply wp_pos. intros Hv. apply wp_bind, wp_data_from. set (v0 := with_data _ v). assert (Hs0 : start (vdata v0) = vpos v) by (cbn; lia).
  eapply (wp_mono _ (fun t w => is_text t = true /\ told v0 w)); [|intros t w (Ht & [H1 H2 H3 H4 H5 H6] & Hs & Ho); split; [done|split; [by split|split; [lia|done]]]].
  assert (Hd0 : data_in v0) by (unfold data_in; rewrite Hs0; cbn; lia).
  assert (Hret : forall t w, is_text t = true -> told v0 w -> wp (mret t) (fun t w => is_text t = true /\ told v0 w) w) by (intros t w Ht Hw; by apply wp_ret).
  apply wp_read; [intros w [Hm _]; apply wp_bind, wp_data_to, Hret, (told_data_to 0); [done|done|done|lia|destruct Hm as (e & p & -> & Hp & _); cbn in *; lia]|].
  intros c0 E Hp _ _. apply wp_read.
  { intros w [Hm _]. apply wp_bind, wp_data_to, Hret, told_adv; [done|done|done|]. apply (told_data_to 0); [done|unfold data_in; cbn; lia|lia|destruct Hm as (e & p & -> & Hq & _); cbn in *; lia]. }
  intros c1 _ Hp1 _ _. destruct (_ && _).
  - apply wp_bind. eapply wp_mono; [apply readComment_ok; unfold data_in; cbn; lia|]. cbn. intros _ w Hw. apply Hret, told_adv; [done|done|done|]. by apply told_adv.
  - apply wp_bind. unread. replace (with_pos _ _) with v0 by (unfold adv, v0, with_pos, with_data; cbn; f_equal; lia).
    apply wp_bind. eapply wp_mono; [by apply readDoctype_ok|]. intros [] w; [intros Hw; by apply Hret|]. intros (Hk & Hs & Hpw & _). assert (Hf : forth v0 w) by (split; [done|lia]).
    apply wp_bind, (wp_gets _ vcdata); [done|]. apply wp_bind.
    eapply (wp_mono _ (fun b x => if b : bool then told w x else forth w x)).
    + destruct (vcdata w); [apply readCDATA_ok; unfold data_in in *; lia|]. apply wp_ret. split; [apply kept_refl|lia]. split; [unfold data_in in *; lia|]. rewrite (kept_text _ _ Hk). apply Hk.
    + intros [] x Hx.
      * apply wp_bind, wp_set_nul, Hret; [done|]. eapply (told_forth v0); [unfold data_in in *; lia|exact Hf|]. destruct Hx as ([H1 H2 H3 H4 H5 H6] & Hx). split; [by split|done].
      * destruct Hx as (Hkx & Hsx). apply wp_bind. eapply wp_mono; [apply readUntilCloseAngle_ok; unfold data_in in *; lia|]. cbn. intros _ y Hy. apply Hret; [done|].
        eapply told_trans; [eapply kept_trans; [exact Hk|exact Hkx]|lia|exact Hy].
Qed.

(** * Tags *)

Lemma skipWhiteSpace_stays v : wp skipWhiteSpace (fun _ w => moved v w /\ (verr w = None -> forall c, at_ (vtext v) (vpos v) = Some c -> is_space c = false -> vpos w = vpos v)) v.
Proof.
  apply wp_pos. intros Hv. apply wp_bind, wp_errored. destruct (verr v) eqn:E; [apply wp_ret; split; [apply moved_same; lia|done]|]. apply wp_bind, wp_loop_fuel. fold (left v).
  cbn [skip_loop]. apply wp_read; [intros w [Hm Hn]; apply wp_ret; by split|]. intros c _ Hp Ec _. destruct (is_space c) eqn:Es.
  - pose proof (left_adv v Hp). eapply wp_mono; [apply skip_loop_ok; lia|]. cbn. intros _ w Hw. split; [apply moved_step; (lia || done)|]. intros _ c' Ec'. congruence.
  - unread. rewrite moved_back by lia. split; [apply moved_same; lia|done].
Qed.

(** What a part of a tag leaves alone. *)
Record onward (v w : view) : Prop := {
  onward_kept : kept v w;
  onward_pos : vpos v <= vpos w;
  onward_attr : vattr w = vattr v;
  onward_ret : vret w = vret v }.

Lemma onward_refl v : 0 <= vpos v <= len (vtext v) -> onward v v.
Proof. intros H. split; [by apply kept_refl|lia|done|done]. Qed.

Lemma onward_trans u v w : onward u v -> onward v w -> onward u w.
Proof. intros [H1 H2 H3 H4] [H1' H2' H3' H4']. split; [by eapply kept_trans|lia|congruence|congruence]. Qed.

Lemma moved_onward v w : 0 <= vpos v -> moved v w -> onward v w.
Proof. intros H Hm. split; [by apply moved_kept|..]; destruct Hm as (e & p & -> & Hp & _); cbn; (lia || done). Qed.

Lemma onward_adv v : 0 <= vpos v < len (vtext v) -> verr v = None -> onward v (adv v).
Proof. intros H E. apply moved_onward; [lia|]. apply moved_adv; (lia || done). Qed.

Lemma onward_with_data d v w : onward v w -> onward v (with_data d w).
Proof. intros [H1 H2 H3 H4]. split; [by apply kept_with_data|done..]. Qed.

Lemma onward_with_pend x v w : onward v w -> onward v (with_pend x w).
Proof. intros [[H1 H2 H3 H4 H5 H6] H7 H8 H9]. split; [by split|done..]. Qed.

Lemma onward_from_data d v w : onward (with_data d v) w -> onward v w.
Proof. intros [[H1 H2 H3 H4 H5 H6] H7 H8 H9]. split; [by split|done..]. Qed.

Lemma onward_from_pend x v w : onward (with_pend x v) w -> onward v w.
Proof. intros [[H1 H2 H3 H4 H5 H6] H7 H8 H9]. split; [by split|done..]. Qed.

(** The name of the tag. *)
Definition named (v w : view) : Prop := onward v w /\ start (vdata w) = start (vdata v) /\ start (vdata w) < vpos w /\ span_ok w (vdata w).

Lemma tag_name_loop_ok fuel v : (left v < fuel)%nat -> 0 <= start (vdata v) < vpos v -> wp (tag_name_loop fuel) (fun _ w => named v w) v.
Proof.
  revert v. induction fuel as [|fuel IH]; intros v Hf Hd; [lia|]. cbn [tag_name_loop]. apply wp_read.
  - intros w [Hm _]. apply wp_data_to. split; [apply onward_with_data, moved_onward; (lia || done)|]. destruct Hm as (e & p & -> & Hp & _). unfold span_ok. cbn. lia.
  - intros c E Hp Ec _. pose proof (left_adv v Hp). destruct (is_space c); [|destruct (_ || _)].
    + apply wp_data_to. split; [by apply onward_with_data, onward_adv|]. unfold span_ok. cbn. lia.
    + apply wp_bind. unread. rewrite moved_back by lia. apply wp_data_to. split; [apply onward_with_data, onward_refl; lia|]. unfold span_ok. cbn. lia.
    + eapply wp_mono; [apply IH; cbn; lia|]. cbn. intros _ w (Ho & Hw). split; [|done]. eapply onward_trans; [by apply onward_adv|done].
Qed.

Lemma readTagName_ok v : 0 < vpos v -> wp readTagName (fun _ w => onward v w /\ start (vdata w) = vpos v - 1 /\ span_ok w (vdata w)) v.
Proof.
  intros Hp. apply wp_bind, wp_data_from, wp_bind, wp_loop_fuel. eapply wp_mono; [apply tag_name_loop_ok; [unfold left; cbn; lia|cbn; lia]|].
  cbn. intros _ w (Ho & Hs & _ & Hd). cbn in Hs. split; [by eapply onward_from_data|done].
Qed.

(** A key, read from [a] on; without progress the byte that comes next ends it. *)
Definition keyed (v w : view) : Prop := onward v w /\ vdata w = vdata v /\ start (vpend w).1 = start (vpend v).1 /\ span_ok w (vpend w).1 /\
  (verr w = None -> vpos v < vpos w \/ vpos w = vpos v /\ (at_ (vtext v) (vpos v) = Some (chr "=") \/ at_ (vtext v) (vpos v) = Some (chr ">"))).

Lemma key_loop_ok fuel v : (left v < fuel)%nat -> 0 <= start (vpend v).1 <= vpos v -> wp (key_loop fuel) (fun _ w => keyed v w) v.
Proof.
  revert v. induction fuel as [|fuel IH]; intros v Hf Hd; [lia|]. cbn [key_loop]. apply wp_read.
  - intros w [Hm Hn]. apply wp_key_to. split; [apply onward_with_pend, moved_onward; (lia || done)|]. destruct Hm as (e & p & -> & Hp & _). unfold span_ok. cbn. split; [done|].
    split; [lia|]. split; [lia|]. intros H. by destruct Hn.
  - intros c E Hp Ec _. pose proof (left_adv v Hp). destruct (_ || _); [|destruct ((c =? _) || _) eqn:Eq].
    + apply wp_key_to. split; [by apply onward_with_pend, onward_adv|]. unfold span_ok. cbn. split; [done|]. split; [lia|]. split; [lia|]. lia.
    + apply wp_bind. unread. rewrite moved_back by lia. apply wp_key_to. split; [apply onward_with_pend, onward_refl; lia|]. unfold span_ok. cbn. split; [done|].
      split; [lia|]. split; [lia|]. intros _. right. split; [done|]. rewrite Ec. apply orb_true_iff in Eq as [->%Z.eqb_eq| ->%Z.eqb_eq]; [by left|by right].
    + eapply wp_mono; [apply IH; cbn; lia|]. cbn. intros _ w (Ho & Hw & Hs & Hok & Hpr). split; [eapply onward_trans; [by apply onward_adv|done]|].
      split; [done|]. split; [done|]. split; [done|]. intros _. pose proof (onward_pos _ _ Ho) as H'. cbn in H'. lia.
Qed.

Lemma readTagAttrKey_ok v : 0 <= vpos v ->
  wp readTagAttrKey (fun _ w => onward v w /\ vdata w = vdata v /\ span_ok w (vpend w).1 /\
    (verr w = None -> vpos v < vpos w \/ vpos w = vpos v /\ (at_ (vtext v) (vpos v) = Some (chr "=") \/ at_ (vtext v) (vpos v) = Some (chr ">")))) v.
Proof.
  intros Hp. apply wp_bind, wp_key_from, wp_bind, wp_loop_fuel. eapply wp_mono; [apply key_loop_ok; [unfold left; cbn; lia|cbn; lia]|].
  cbn. intros _ w (Ho & Hd & _ & Hk & Hpr). split; [by eapply onward_from_pend|done].
Qed.

(** A value is read from the position on; the key stays. *)
Definition valued (v w : view) : Prop := onward v w /\ vdata w = vdata v /\ (vpend w).1 = (vpend v).1 /\ span_ok w (vpend w).2.

Lemma valued_adv v w : 0 <= vpos v < len (vtext v) -> verr v = None -> valued (adv v) w -> valued v w.
Proof. intros H E (Ho & Hw). split; [eapply onward_trans; [by apply onward_adv|done]|done]. Qed.

Lemma valued_val_to n v w : moved v w -> 0 <= vpos v -> 0 <= n -> 0 <= start (vpend v).2 <= vpos w - n -> valued v (with_val (mkSpan (start (vpend w).2) (vpos w - n)) w).
Proof.
  intros Hm H0 Hn Hs. split; [apply onward_with_pend, moved_onward; (lia || done)|]. destruct Hm as (e & p & -> & Hp & _). unfold span_ok. cbn in *. split; [done|]. split; [done|lia].
Qed.

Lemma quoted_loop_ok fuel quote v : (left v < fuel)%nat -> 0 <= start (vpend v).2 <= vpos v -> wp (quoted_loop fuel quote) (fun _ w => valued v w) v.
Proof.
  revert v. induction fuel as [|fuel IH]; intros v Hf Hd; [lia|]. cbn [quoted_loop]. apply wp_read.
  - intros w [Hm Hn]. apply wp_val_to, valued_val_to; try done; [lia|]. destruct Hm as (e & p & -> & Hp & _). cbn. lia.
  - intros c E Hp Ec _. pose proof (left_adv v Hp). destruct (_ =? _).
    + apply wp_val_to, (valued_val_to 1); [apply moved_adv; (lia || done)|lia|lia|cbn; lia].
    + eapply wp_mono; [apply IH; cbn; lia|]. cbn. intros _ w. by apply valued_adv.
Qed.

Lemma unquoted_loop_ok fuel v : (left v < fuel)%nat -> 0 <= start (vpend v).2 <= vpos v -> wp (unquoted_loop fuel) (fun _ w => valued v w) v.
Proof.
  revert v. induction fuel as [|fuel IH]; intros v Hf Hd; [lia|]. cbn [unquoted_loop]. apply wp_read.
  - intros w [Hm Hn]. apply wp_val_to, valued_val_to; try done; [lia|]. destruct Hm as (e & p & -> & Hp & _). cbn. lia.
  - intros c E Hp Ec _. pose proof (left_adv v Hp). destruct (is_space c); [|destruct (_ =? _)].
    + apply wp_val_to, (valued_val_to 1); [apply moved_adv; (lia || done)|lia|lia|cbn; lia].
    + apply wp_bind. unread. rewrite moved_back by lia. apply wp_val_to, (valued_val_to 0); [apply moved_same; lia|lia|lia|lia].
    + eapply wp_mono; [apply IH; cbn; lia|]. cbn. intros _ w. by apply valued_adv.
Qed.

Lemma valued_trans u v w : valued u v -> valued v w -> valued u w.
Proof. intros (Ho & Hd & Hk & Hs) (Ho' & Hd' & Hk' & Hs'). split; [by eapply onward_trans|]. split; [congruence|]. split; [congruence|done]. Qed.

Lemma valued_moved v w x : valued v w -> 0 <= vpos w -> moved w x -> valued v x.
Proof.
  intros Hv Hw Hm. eapply valued_trans; [exact Hv|]. split; [by apply moved_onward|]. destruct Hv as (_ & _ & _ & Hs). destruct Hm as (e & p & -> & Hp & _). unfold span_ok in *. cbn.
  split; [done|]. split; [done|lia].
Qed.

Lemma valued_val n v w : valued v w -> 0 <= n <= vpos w -> valued v (with_val (mkSpan (vpos w - n) (vpos w)) w).
Proof. intros (Ho & Hd & Hk & _) Hn. split; [by apply onward_with_pend|]. unfold span_ok. cbn. split; [done|]. split; [done|lia]. Qed.

Lemma onward_bounds v w : onward v w -> vpos v <= vpos w <= len (vtext w).
Proof. intros [Hk Hp _ _]. rewrite (kept_text _ _ Hk). pose proof (kept_pos _ _ Hk). lia. Qed.

Lemma readTagAttrVal_ok v : 0 <= vpos v -> wp readTagAttrVal (fun _ w => valued v w /\ (verr w = None -> at_ (vtext v) (vpos v) = Some (chr "=") -> vpos v < vpos w)) v.
Proof.
  intros H0. apply wp_pos. intros Hv. apply wp_bind, wp_val_from, wp_bind, wp_val_to. rewrite !Z.sub_0_r. set (v0 := with_val _ _).
  assert (Hv0 : valued v v0) by (split; [by apply onward_with_pend, onward_with_pend, onward_refl|]; unfold span_ok; cbn; split; [done|split; [done|lia]]).
  apply wp_bind. eapply wp_mono; [apply skipWhiteSpace_stays|]. cbv beta. intros _ w [Hm Hstay']. assert (Hstay : verr w = None -> forall c, at_ (vtext v) (vpos v) = Some c -> is_space c = false -> vpos w = vpos v) by exact Hstay'. clear Hstay'. assert (Hw : valued v w) by (eapply valued_moved; [exact Hv0|exact H0|exact Hm]).
  pose proof (onward_bounds _ _ (proj1 Hw)) as Hbw. assert (Htw : vtext w = vtext v) by (apply Hw). apply wp_bind, wp_errored. destruct (verr w) eqn:Ew; [apply wp_ret; split; [done|congruence]|].
  apply wp_read; [intros x [Hx Hn]; apply wp_ret; split; [eapply valued_moved; [exact Hw|lia|exact Hx]|done]|].
  intros c _ Hp Ec _. assert (Hw1 : valued v (adv w)) by (eapply valued_moved; [exact Hw|lia|apply moved_adv; (lia || done)]). destruct (Z.eqb_spec c (chr "=")) as [->|Hne]; cbn [negb].
  2:{ unread. rewrite moved_back by lia. split; [exact Hw|]. intros _ Heq. exfalso. rewrite (Hstay eq_refl (chr "=") Heq eq_refl), Htw in Ec. congruence. }
  eapply (wp_mono _ (fun _ x => valued v x /\ (verr x = None -> vpos v < vpos x))); [|cbv beta; intros _ x [Hx Hpx]; split; [done|auto]].
  apply wp_bind. eapply wp_mono; [apply skipWhiteSpace_ok|]. cbv beta. intros _ w2 Hm2. assert (Hw2 : valued v w2) by (eapply valued_moved; [exact Hw1|cbn; lia|exact Hm2]).
  assert (Hb2 : vpos v < vpos w2 <= len (vtext w2)) by (pose proof (onward_bounds _ _ (proj1 Hw2)); destruct Hm2 as (e & p & -> & Hle & _); cbn in *; lia).
  apply wp_bind, wp_errored. destruct (verr w2) eqn:Ew2; [apply wp_ret; split; [done|congruence]|].
  apply wp_read; [intros x [Hx Hn]; apply wp_ret; split; [eapply valued_moved; [exact Hw2|lia|exact Hx]|done]|].
  intros q _ Hp2 _ _. assert (Hw3 : valued v (adv w2)) by (eapply valued_moved; [exact Hw2|lia|apply moved_adv; (lia || done)]).
  destruct (_ =? _); [unread; rewrite moved_back by lia; split; [done|lia]|].
  assert (Hloop : forall n (m : nat -> M unit), 0 <= n <= 1 -> (forall u, (left u < S (left u))%nat -> 0 <= start (vpend u).2 <= vpos u -> wp (m (S (left u))) (fun _ x => valued u x) u) ->
    wp (val_from n;; fuel ← loop_fuel; m fuel) (fun _ x => valued v x /\ (verr x = None -> vpos v < vpos x)) (adv w2)).
  { intros n m Hn Hl. apply wp_bind, wp_val_from, wp_bind, wp_loop_fuel. set (u := with_val _ _). eapply wp_mono; [apply (Hl u); [lia|cbn; lia]|]. cbv beta. intros _ x Hx.
    pose proof (onward_pos _ _ (proj1 Hx)) as Hpx. cbn in Hpx. split; [|lia]. destruct Hx as (Hox & Hdx & Hkx & Hsx). destruct Hw3 as (Ho3 & Hd3 & Hk3 & _).
    split; [eapply onward_trans; [exact Ho3|]; by eapply onward_from_pend|]. split; [by rewrite Hdx|]. split; [by rewrite Hkx|done]. }
  destruct (_ || _); [apply (Hloop 0 (fun f => quoted_loop f q)); [lia|intros; by apply quoted_loop_ok]|apply (Hloop 1 unquoted_loop); [lia|intros; by apply unquoted_loop_ok]].
Qed.

Definition attr_ok (v : view) : Prop := Forall (fun x => span_ok v x.1 /\ span_ok v x.2) (vattr v).

Lemma span_ok_more v w s : span_ok v s -> vpos v <= vpos w -> span_ok w s.
Proof. unfold span_ok. lia. Qed.

Lemma attr_ok_more v w : attr_ok v -> vattr w = vattr v -> vpos v <= vpos w -> attr_ok w.
Proof. unfold attr_ok. intros H -> Hp. eapply Forall_impl; [exact H|]. intros x [H1 H2]. split; by eapply span_ok_more. Qed.

(** After the name: the attributes collected, the data as it was. *)
Record tagged (v w : view) : Prop := {
  tagged_kept : kept v w;
  tagged_pos : vpos v <= vpos w;
  tagged_data : vdata w = vdata v;
  tagged_ret : vret w = vret v;
  tagged_attr : attr_ok w }.

Lemma tagged_trans u v w : tagged u v -> tagged v w -> tagged u w.
Proof. intros [H1 H2 H3 H4 H5] [H1' H2' H3' H4' H5']. split; [by eapply kept_trans|lia|congruence|congruence|done]. Qed.

Lemma onward_tagged v w : onward v w -> vdata w = vdata v -> attr_ok v -> tagged v w.
Proof. intros [H1 H2 H3 H4] Hd Ha. split; try done. by eapply attr_ok_more. Qed.

Lemma moved_tagged v w : 0 <= vpos v -> moved v w -> attr_ok v -> tagged v w.
Proof. intros H Hm Ha. apply onward_tagged; [by apply moved_onward| |done]. by destruct Hm as (e & p & -> & _). Qed.

Lemma tagged_bounds v w : tagged v w -> vpos v <= vpos w <= len (vtext w) /\ vtext w = vtext v.
Proof. intros [Hk Hp _ _ _]. rewrite (kept_text _ _ Hk). pose proof (kept_pos _ _ Hk). split; [lia|done]. Qed.

Lemma no_err v w : (verr v <> None -> verr w <> None) -> verr w = None -> verr v = None.
Proof. intros H E. destruct (verr v); [|done]. by destruct (H ltac:(done)). Qed.

Lemma tag_loop_ok fuel b v : (left v < fuel)%nat -> 0 <= vpos v -> attr_ok v -> wp (tag_loop fuel b) (fun _ w => tagged v w) v.
Proof.
  revert v. induction fuel as [|fuel IH]; intros v Hf H0 Ha; [lia|]. cbn [tag_loop]. apply wp_read; [intros w [Hm _]; apply wp_ret; by apply moved_tagged|].
  intros c E Hp Ec _. destruct (Z.eqb_spec c (chr ">")) as [->|Hne]; [apply wp_ret, moved_tagged; [done|apply moved_adv; (lia || done)|done]|].
  apply wp_bind. unread. rewrite moved_back by lia. apply wp_bind. eapply wp_mono; [by apply readTagAttrKey_ok|]. cbv beta. intros _ w1 (Ho1 & Hd1 & Hk1 & Hpr1).
  assert (Ht1 : tagged v w1) by (by apply onward_tagged). destruct (tagged_bounds _ _ Ht1) as [Hb1 Htx1].
  apply wp_bind. eapply wp_mono; [apply readTagAttrVal_ok; lia|]. cbv beta. intros _ w2 [(Ho2 & Hd2 & Hk2 & Hv2) Hpr2].
  assert (Ht2 : tagged v w2) by (eapply tagged_trans; [exact Ht1|]; apply onward_tagged; try done; apply Ht1). destruct (tagged_bounds _ _ Ht2) as [Hb2 Htx2].
  pose proof (onward_pos _ _ Ho2) as Hp12. apply wp_bind, wp_save_attr. set (w3 := if b && negb (start (vpend w2).1 =? end_ (vpend w2).1) then with_attr (vattr w2 ++ [vpend w2]) w2 else w2).
  assert (Ht3 : tagged v w3 /\ vpos w3 = vpos w2 /\ verr w3 = verr w2).
  { unfold w3. destruct (b && _); [|done]. split; [|done]. destruct Ht2 as [[H1 H2 H3 H4 H5 H6] H7 H8 H9 H10]. split; [by split|done|done|done|].
    unfold attr_ok. cbn. apply Forall_app. split; [exact H10|]. constructor; [|constructor]. split; [|exact Hv2]. rewrite Hk2. eapply span_ok_more; [exact Hk1|]. cbn. lia. }
  destruct Ht3 as (Ht3 & Hp3 & He3). destruct (tagged_bounds _ _ Ht3) as [Hb3 Htx3].
  apply wp_bind. eapply wp_mono; [apply skipWhiteSpace_ok|]. cbv beta. intros _ w4 Hm4. assert (Ht34 : tagged w3 w4) by (apply moved_tagged; [lia|done|apply Ht3]).
  destruct (tagged_bounds _ _ Ht34) as [Hb4 Htx4]. assert (Ht4 : tagged v w4) by (by eapply tagged_trans).
  apply wp_bind, wp_errored. destruct (verr w4) eqn:E4; [by apply wp_ret|].
  assert (E3 : verr w3 = None) by (eapply no_err; [|exact E4]; apply (kept_err _ _ (tagged_kept _ _ Ht34))). assert (E2 : verr w2 = None) by congruence.
  assert (E1 : verr w1 = None) by (eapply no_err; [|exact E2]; apply (kept_err _ _ (onward_kept _ _ Ho2))).
  assert (Hprog : vpos v < vpos w4).
  { destruct (Hpr1 E1) as [|[Hsame [Heq|Heq]]]; [lia| |congruence]. rewrite <- Hsame, <- Htx1 in Heq. specialize (Hpr2 E2 Heq). lia. }
  eapply wp_mono; [apply IH; [|lia|apply Ht4]|cbv beta; intros _ u Hu; by eapply tagged_trans].
  assert (Hl1 : Z.of_nat (left v) = len (vtext v) - vpos v) by (apply left_len; lia). assert (Hl4 : Z.of_nat (left w4) = len (vtext w4) - vpos w4) by (apply left_len; lia).
  rewrite Htx4, Htx3 in Hl4. lia.
Qed.

Lemma readTag_ok b v : 0 < vpos v -> wp (readTag b) (fun _ w => kept v w /\ vpos v <= vpos w /\ start (vdata w) = vpos v - 1 /\ span_ok w (vdata w) /\ attr_ok w /\ vret w = 0) v.
Proof.
  intros Hp. apply wp_pos. intros Hv. apply wp_bind, wp_set_no_attr, wp_bind, wp_set_ret, wp_bind. set (v0 := with_ret 0 (with_attr [] v)).
  eapply wp_mono; [by apply (readTagName_ok v0)|]. cbv beta. intros _ w (Ho & Hs & Hd). assert (Hk0 : kept v v0) by (split; done || lia).
  assert (Ha : attr_ok w) by (unfold attr_ok; rewrite (onward_attr _ _ Ho); constructor). pose proof (onward_bounds _ _ Ho) as Hb. change (vpos v0) with (vpos v) in *.
  assert (Hfin : forall u, tagged w u -> kept v u /\ vpos v <= vpos u /\ start (vdata u) = vpos v - 1 /\ span_ok u (vdata u) /\ attr_ok u /\ vret u = 0).
  { intros u [H1 H2 H3 H4 H5]. split; [eapply kept_trans; [exact Hk0|]; eapply kept_trans; [apply Ho|exact H1]|]. split; [lia|]. split; [by rewrite H3|].
    split; [rewrite H3; by eapply span_ok_more|]. split; [done|]. rewrite H4. apply (onward_ret _ _ Ho). }
  apply wp_bind. eapply wp_mono; [apply skipWhiteSpace_ok|]. cbv beta. intros _ w2 Hm. assert (Ht : tagged w w2) by (apply moved_tagged; (lia || done)).
  apply wp_bind, wp_errored. destruct (verr w2); [apply wp_ret; by apply Hfin|]. destruct (tagged_bounds _ _ Ht) as [Hb2 _].
  apply wp_bind, wp_loop_fuel. eapply wp_mono; [apply tag_loop_ok; [unfold left; lia|lia|apply Ht]|]. cbv beta. intros _ u Hu. apply Hfin. by eapply tagged_trans.
Qed.

Lemma tag_matches_ok s i v : 0 <= start (vdata v) -> 0 <= i -> start (vdata v) + i + len s <= vpos v -> wp (tag_matches s i) (fun _ w => w = v) v.
Proof.
  intros Hd Hi Hle. apply wp_pos. intros Hv. revert i Hi Hle. induction s as [|x s IH]; intros i Hi Hle; cbn [tag_matches]; [by apply wp_ret|]. rewrite len_cons in Hle. pose proof (len_nonneg s).
  destruct (at_Some (vtext v) (start (vdata v) + i) ltac:(lia)) as [c Ec]. apply wp_bind. eapply wp_data_byte; [lia|exact Ec|]. destruct (negb _); [by apply wp_ret|]. apply IH; lia.
Qed.

Lemma startTagIn_ok ss v : span_ok v (vdata v) -> wp (startTagIn ss) (fun _ w => w = v) v.
Proof.
  intros [H1 H2]. induction ss as [|s ss IH]; cbn [startTagIn]; [by apply wp_ret|]. apply wp_bind, (wp_gets _ (fun v => end_ (vdata v) - start (vdata v))); [intros z _; cbn; lia|].
  destruct (Z.eqb_spec (end_ (vdata v) - start (vdata v)) (len s)) as [E|_]; cbn [negb]; [|exact IH].
  apply wp_bind. eapply wp_mono; [apply tag_matches_ok; lia|]. cbv beta. intros [] w ->; [by apply wp_ret|exact IH].
Qed.

(** The view of a start tag or, at an error, of nothing. *)
Definition start_tag (v : view) (t : TokenType) (w : view) : Prop :=
  kept v w /\ vpos v <= vpos w /\ (t = ErrorToken /\ verr w <> None \/ is_tag t = true /\ verr w = None /\ span_ok w (vdata w) /\ attr_ok w /\ vret w = 0).

Lemma readStartTag_ok v : 2 <= vpos v -> wp readStartTag (start_tag v) v.
Proof.
  intros Hp. apply wp_bind. eapply wp_mono; [apply readTag_ok; lia|]. cbv beta. intros _ w (Hk & Hpw & Hs & Hd & Ha & Hr). apply wp_bind, wp_errored.
  destruct (verr w) eqn:E; [apply wp_ret; split; [done|split; [done|left; by rewrite E]]|]. pose proof (kept_pos _ _ Hk) as Hle. rewrite <- (kept_text _ _ Hk) in Hle. destruct Hd as [Hd1 Hd2].
  destruct (at_Some (vtext w) (start (vdata w) + 0) ltac:(lia)) as [c Ec]. apply wp_bind. eapply wp_data_byte; [lia|exact Ec|].
  apply wp_bind. eapply (wp_mono _ (fun _ u => u = w)); [repeat match goal with |- wp (if ?b then _ else _) _ _ => destruct b; [by apply startTagIn_ok|] end; by apply wp_ret|].
  cbv beta. intros is_raw u ->. apply wp_bind. eapply (wp_mono _ (fun _ u => exists tag, u = with_tag tag w)).
  { destruct is_raw; [|apply wp_ret; exists (vtag w); by destruct w]. apply wp_bind, wp_data_bytes; [done|]. apply wp_set_tag. by eexists. }
  cbv beta. intros _ u [tag ->]. destruct (at_Some (vtext w) (vpos w - 2) ltac:(lia)) as [c2 Ec2]. apply wp_bind. eapply wp_byte_back; [cbn; lia|exact Ec2|]. apply wp_ret.
  destruct Hk as [H1 H2 H3 H4 H5 H6]. split; [by split|]. split; [done|]. right. split; [by destruct (_ =? _)|]. done.
Qed.

(** * The next token *)

(** What [Next] leaves for the methods that read the token. *)
Definition token_ok (t : TokenType) (w : view) : Prop :=
  vtt w = t /\ (t = ErrorToken -> verr w <> None) /\ (t <> ErrorToken -> 0 < vpos w /\ span_ok w (vdata w)) /\ (is_tag t = true -> attr_ok w) /\ (is_tag t = true \/ t = EndTagToken -> vret w = 0).

Lemma kept_with_tt t v w : kept v w -> kept v (with_tt t w).
Proof. intros [H1 H2 H3 H4 H5 H6]. by split. Qed.

(** A token is found, or the loop of [Next] is left at an error. *)
Definition scanned (v : view) (o : option TokenType) (w : view) : Prop :=
  kept v w /\ match o with Some t => token_ok t w | None => start (vdata w) = start (vdata v) /\ verr w <> None end.

Lemma ret_token_ok t (Q : option TokenType -> view -> Prop) v : Q (Some t) (with_tt t v) -> wp (ret_token t) Q v.
Proof. intros H. apply wp_bind, wp_set_tt. by apply wp_ret. Qed.

Lemma token_ok_error w : vtt w = ErrorToken -> verr w <> None -> token_ok ErrorToken w.
Proof. intros Ht He. split; [done|]. split; [done|]. split; [done|]. split; [done|]. by intros [H|H]. Qed.

Lemma token_ok_text t w : is_text t = true -> vtt w = t -> 0 < vpos w -> span_ok w (vdata w) -> token_ok t w.
Proof. intros Ht E Hp Hs. split; [done|]. split; [by intros ->|]. split; [done|]. split; [by destruct t|]. intros [H|H]; by destruct t. Qed.

Lemma token_ok_tag t w : is_tag t = true \/ t = EndTagToken -> vtt w = t -> 0 < vpos w -> span_ok w (vdata w) -> attr_ok w -> vret w = 0 -> token_ok t w.
Proof. intros Ht E Hp Hs Ha Hr. split; [done|]. split; [intros ->; by destruct Ht|]. split; [done|]. done. Qed.

(** A token that is no tag. *)
Lemma text_token_ok t v w : is_text t = true -> kept v w -> 0 < vpos w -> span_ok w (vdata w) -> scanned v (Some t) (with_tt t w).
Proof. intros Ht Hk Hp Hs. split; [by apply kept_with_tt|]. by apply token_ok_text. Qed.

Lemma markup_ok c v : verr v = None -> vpos v = 2 -> vdata v = mkSpan 0 0 -> wp (markup c) (scanned v) v.
Proof.
  intros E Hp Hd. apply wp_pos. intros Hv.
  assert (Hcomment : forall u, kept v u -> verr u = None -> 2 <= vpos u -> wp (unread 1;; readUntilCloseAngle;; ret_token CommentToken) (scanned v) u).
  { intros u Hku Eu Hpu. apply wp_pos. intros Hu. apply wp_bind. unread. assert (Hk1 : kept u (with_pos (vpos u - 1) u)) by (apply near_kept, near_pos; (lia || done)).
    apply wp_bind. eapply wp_mono; [apply readUntilCloseAngle_from; cbn; lia|]. cbv beta. intros _ w (Hk & Hs & Ho). cbn in Hs.
    apply ret_token_ok, text_token_ok; [done|by eapply kept_trans; [|eapply kept_trans]|unfold span_ok in Ho; lia|done]. }
  unfold markup. destruct (is_letter c).
  { apply wp_bind. eapply wp_mono; [apply readStartTag_ok; lia|]. intros t w (Hk & Hpw & Ht). apply ret_token_ok. split; [by apply kept_with_tt|].
    destruct Ht as [[-> He]|(Ht & He & Hs & Ha & Hr)]; [by apply token_ok_error|]. apply token_ok_tag; try done; [by left|cbn; lia]. }
  destruct (_ =? _); [|destruct (_ =? _)].
  - apply wp_read; [intros w [Hm Hn]; apply wp_ret; split; [apply moved_kept; (lia || done)|]; split; [|done]; by destruct Hm as (e & p & -> & _)|].
    intros c2 _ Hp2 _ _. assert (Hka : kept v (adv v)) by (apply kept_adv; done). destruct (_ =? _); [|destruct (is_letter c2); [|by apply Hcomment; [| |cbn; lia]]].
    + apply ret_token_ok, text_token_ok; [done|done|cbn; lia|]. unfold span_ok. cbn. rewrite Hd. cbn. lia.
    + apply wp_bind. eapply wp_mono; [apply readTag_ok; cbn; lia|]. cbv beta. intros _ w (Hk & Hpw & Hs & Ho & Ha & Hr). cbn in Hpw. apply wp_bind, wp_errored, ret_token_ok.
      split; [apply kept_with_tt; by eapply kept_trans|].
      destruct (verr w) eqn:Ew; [apply token_ok_error; [done|cbn; by rewrite Ew]|]. apply token_ok_tag; try done; [by right|cbn; lia].
  - apply wp_bind. eapply wp_mono; [apply readMarkupDeclaration_ok; lia|]. intros t w (Ht & Hk & Hs & Ho). apply ret_token_ok, text_token_ok; [done|done|unfold span_ok in Ho; lia|done].
  - apply Hcomment; [by apply kept_refl|done|lia].
Qed.

Lemma scanned_from v u o w : kept v u -> start (vdata u) = start (vdata v) -> scanned u o w -> scanned v o w.
Proof. intros Hk Hs (Hk' & H). split; [by eapply kept_trans|]. destruct o; [done|]. by rewrite <- Hs. Qed.

Lemma next_loop_ok fuel v : (left v < fuel)%nat -> vdata v = mkSpan 0 0 -> wp (next_loop fuel) (scanned v) v.
Proof.
  revert v. induction fuel as [|fuel IH]; intros v Hf Hd; [lia|]. apply wp_pos. intros Hv. cbn [next_loop].
  assert (Hfail : forall u w, kept v u -> vdata u = vdata v -> 0 <= vpos u -> failing u w -> wp (mret None) (scanned v) w).
  { intros u w Hk Hdu Hpu [Hm Hn]. apply wp_ret. split; [eapply kept_trans; [exact Hk|by apply moved_kept]|]. split; [|done]. destruct Hm as (e & p & -> & _). cbn. by rewrite Hdu. }
  apply wp_read; [intros w Hw; apply (Hfail v); [by apply kept_refl|done|lia|done]|].
  intros c E Hp _ _. pose proof (left_adv v Hp). assert (Hk1 : kept v (adv v)) by (by apply kept_adv).
  assert (Hrec : forall u, kept v u -> vdata u = vdata v -> (left u < fuel)%nat -> wp (next_loop fuel) (scanned v) u).
  { intros u Hk Hdu Hlu. eapply wp_mono; [apply IH; [done|by rewrite Hdu]|]. intros o w. apply scanned_from; [done|by rewrite Hdu]. }
  destruct (negb _); [apply Hrec; (lia || done)|]. apply wp_read; [intros w Hw; apply (Hfail (adv v)); [done|done|cbn; lia|done]|].
  intros c2 E2 Hp2 _ _. assert (Hk2 : kept v (adv (adv v))) by (eapply kept_trans; [exact Hk1|by apply kept_adv]). destruct (negb _).
  { apply wp_bind. unread. rewrite moved_back by lia. apply Hrec; (lia || done). }
  apply wp_bind, (wp_gets _ (fun v => 0 <? vpos v - len (str "<a"))); [intros z _; cbn [vpos view_of]; z_cases; lia|]. change (len (str "<a")) with 2. cbn [vpos adv with_pos].
  destruct (Z.ltb_spec 0 (vpos v + 1 + 1 - 2)) as [Ht|Ht].
  - apply wp_bind. unread. apply wp_bind, wp_data_to. apply ret_token_ok, text_token_ok; [done| |cbn; lia|unfold span_ok; cbn; rewrite Hd; cbn; lia].
    apply kept_with_data. rewrite !with_pos_adv. apply near_kept, near_pos; [done|cbn; lia].
  - eapply wp_mono; [apply markup_ok; [done|cbn; lia|done]|]. intros o w. by apply scanned_from.
Qed.

Lemma kept_next_start v : 0 <= vpos v <= len (vtext v) -> err_ok v -> err_ok (next_start v).
Proof. intros Hp H Hm He. destruct (H Hm He) as [H1 H2]. split; [|exact H2]. cbn. rewrite len_from by lia. lia. Qed.

Lemma Next_ok v : wp Next (fun t w => kept (next_start v) w /\ token_ok t w /\ (verr v <> None -> t = ErrorToken /\ vpos w = 0)) v.
Proof.
  apply wp_pos. intros Hv. apply wp_bind, wp_next_start, wp_bind, wp_data_from, wp_bind, wp_data_to. set (v0 := with_data _ _).
  assert (Hd0 : vdata v0 = mkSpan 0 0) by done. assert (Hk0 : kept (next_start v) v0) by (split; try done; cbn; rewrite len_from; lia).
  apply wp_bind, wp_errored. destruct (verr v0) as [e|] eqn:E.
  { apply wp_bind, wp_set_tt, wp_ret. split; [by apply kept_with_tt|]. split; [|done]. apply token_ok_error; [done|]. change (verr v0 <> None). by rewrite E. }
  assert (Ev : verr v = None) by exact E. apply wp_bind. eapply wp_mono; [by apply raw_text_ok|]. cbv beta. intros [] w (Hk & Hd & Hpos & Hzero).
  - apply wp_bind, wp_set_tt, wp_bind, wp_set_nul, wp_ret. specialize (Hpos I). split; [destruct (kept_trans _ _ _ Hk0 Hk) as [H1 H2 H3 H4 H5 H6]; by split|]. split; [|by rewrite Ev].
    apply token_ok_text; [done|done|done|]. unfold span_ok. cbn. rewrite Hd. cbn. lia.
  - specialize (Hzero eq_refl eq_refl). apply wp_bind, wp_set_textIsRaw, wp_bind, wp_set_nul, wp_bind, wp_loop_fuel. set (w0 := with_nul _ _).
    assert (Hkw : kept (next_start v) w0) by (destruct (kept_trans _ _ _ Hk0 Hk) as [H1 H2 H3 H4 H5 H6]; by split).
    apply wp_bind. eapply wp_mono; [apply next_loop_ok; [unfold left; lia|unfold w0; cbn; rewrite Hd, Hzero; done]|].
    intros [t|] u [Hku Hu].
    + apply wp_ret. split; [by eapply kept_trans|]. split; [exact Hu|by rewrite Ev].
    + destruct Hu as [Hs Hn]. assert (Hs0 : start (vdata u) = 0) by (rewrite Hs; unfold w0; cbn; by rewrite Hd).
      apply wp_bind, (wp_gets _ (fun v => 0 <? vpos v)); [intros z _; cbn; z_cases; lia|]. assert (Hkf : kept (next_start v) u) by (by eapply kept_trans). destruct (Z.ltb_spec 0 (vpos u)).
      * apply wp_bind, wp_data_to, wp_bind, wp_set_tt, wp_ret. split; [by apply kept_with_tt, kept_with_data|]. split; [|by rewrite Ev]. apply token_ok_text; [done|done|done|].
        unfold span_ok. cbn. rewrite Hs0. lia.
      * apply wp_bind, wp_set_tt, wp_ret. split; [by apply kept_with_tt|]. split; [|by rewrite Ev]. by apply token_ok_error.
Qed.
