(* ===== verification/HtmlTokenRuns.v ===== *)
(** Runs of a tokenizer: whatever a caller does, no call panics, the answers do
    not depend on how the reader cuts its input, the raw texts of the tokens are
    the input, and the last token comes. *)
From S2P Require Import Prelude Utf8 GoStrings HtmlEscape HtmlEscapeRT HtmlAtom HtmlToken HtmlTokenSpec.

(** * The current token *)

Lemma newlines_loop_len n : forall s, (length s <= n)%nat -> len (newlines_loop s) <= len s.
Proof.
  induction n as [|n IH]; intros [|c s] Hl; cbn [length] in Hl; try lia; [cbn; lia..|]. cbn [newlines_loop].
  destruct (c =? 13); [|rewrite !len_cons; specialize (IH s ltac:(lia)); lia].
  assert (H : len (newlines_loop s) <= len s) by (apply IH; lia). destruct s as [|x s]; [rewrite !len_cons; cbn; lia|].
  assert (H2 : len (newlines_loop s) <= len s) by (apply IH; cbn in Hl; lia). pose proof (len_nonneg s).
  destruct (Z.eq_dec x 10) as [->|Hne]; [rewrite !len_cons; lia|].
  assert (E : (match x :: s with 10 :: s'' => newlines_loop s'' | _ => newlines_loop (x :: s) end) = newlines_loop (x :: s)) by (destruct x as [|p|p]; try done; repeat (destruct p as [p|p|]; try done)).
  rewrite E, len_cons, (len_cons c). lia.
Qed.

Lemma convertNewlines_len s : len (convertNewlines s) <= len s.
Proof.
  induction s as [|c s IH]; [cbn; lia|]. cbn [convertNewlines]. destruct (negb _); [rewrite !len_cons; lia|]. destruct s as [|x s]; [rewrite !len_cons; cbn; lia|].
  destruct (Z.eq_dec x 10) as [->|Hne]; [apply (newlines_loop_len _ _ (Nat.le_refl _))|].
  assert (E : (match x :: s with 10 :: _ => newlines_loop (c :: x :: s) | _ => 10 :: convertNewlines (x :: s) end) = 10 :: convertNewlines (x :: s)) by (destruct x as [|p|p]; try done; repeat (destruct p as [p|p|]; try done)).
  rewrite E, len_cons, (len_cons c). lia.
Qed.

Lemma newlines_len s : len (newlines s).1 = len s /\ 0 <= (newlines s).2 <= len s.
Proof.
  unfold newlines. cbn. pose proof (convertNewlines_len s). pose proof (len_nonneg (convertNewlines s)). rewrite len_app, len_from by lia. lia.
Qed.

Lemma unescape_upto_ok b n attribute : 0 <= n <= len b -> exists c, unescape_upto b n attribute = Some (c, unescaped attribute (upto n b)) /\ len c = len b.
Proof.
  intros Hn. unfold unescape_upto. destruct (unescape_ok (upto n b) attribute) as (c & m & -> & Hl & _ & Hu). cbn [mbind option_bind]. rewrite Hu. eexists. split; [reflexivity|].
  rewrite len_app, Hl, len_upto, len_from by lia. lia.
Qed.

(** The text that [Text] returns. *)
Definition text_value (replace is_raw : bool) (s : bytes) : bytes :=
  let t := convertNewlines s in
  let t := if replace && bool_decide (0 ∈ t) then replace_nul t else t in
  if is_raw then t else unescaped false t.

Lemma upto_newlines s : upto (newlines s).2 (newlines s).1 = convertNewlines s.
Proof. unfold newlines. cbn. by apply upto_app_len. Qed.

Lemma text_of_ok replace is_raw s : exists b, text_of replace is_raw s = Some (b, text_value replace is_raw s) /\ len b = len s.
Proof.
  unfold text_of, text_value. destruct (newlines_len s) as [Hl Hn]. pose proof (upto_newlines s) as Hu. destruct (newlines s) as [b n]. cbn [fst snd] in *. rewrite Hu.
  destruct (replace && _).
  - destruct is_raw; [by exists b|]. destruct (unescape_ok (replace_nul (convertNewlines s)) false) as (c & m & -> & _ & _ & Hc). exists b. cbn. by rewrite Hc.
  - destruct is_raw; [by exists b|]. rewrite <- Hl in Hn. destruct (unescape_upto_ok b n false Hn) as (c & -> & Hc). exists c. rewrite Hu. split; [done|lia].
Qed.

Lemma lower_len s : len (lower s) = len s.
Proof. unfold lower, len. by rewrite length_fmap. Qed.

(** The bytes of the token may change; nothing after them does. *)
Record edited (v w : view) : Prop := {
  edited_rest : from (vpos v) (vtext w) = from (vpos v) (vtext v);
  edited_len : len (vtext w) = len (vtext v);
  edited_pos : vpos w = vpos v;
  edited_ending : vending w = vending v;
  edited_err : verr w = verr v;
  edited_max : vmax w = vmax v;
  edited_tt : vtt w = vtt v;
  edited_tag : vtag w = vtag v }.

Lemma edited_refl v : edited v v.
Proof. by split. Qed.

Lemma edited_trans u v w : edited u v -> edited v w -> edited u w.
Proof. intros [H1 H2 H3 H4 H5 H6 H7 H8] [H1' H2' H3' H4' H5' H6' H7' H8']. split; congruence. Qed.

Lemma put_len a s t : 0 <= a -> a + len s <= len t -> len (put a s t) = len t.
Proof. intros H1 H2. pose proof (len_nonneg s). unfold put. rewrite !len_app, len_upto, len_from by lia. lia. Qed.

Lemma put_from a s t p : 0 <= a -> a + len s <= p <= len t -> from p (put a s t) = from p t.
Proof.
  intros Ha Hp. pose proof (len_nonneg s). unfold put. rewrite app_assoc. assert (Hl : len (upto a t ++ s) = a + len s) by (rewrite len_app, len_upto by lia; lia).
  unfold from at 1. rewrite drop_app_ge by (unfold len in *; lia). unfold from. rewrite drop_drop. f_equal. unfold len in *. lia.
Qed.

Lemma edited_put s t v : span_ok v s -> len t = end_ s - start s -> vpos v <= len (vtext v) -> edited v (with_text (put (start s) t (vtext v)) v).
Proof. intros [H1 H2] Hl Hp. split; try done; cbn; [apply put_from; lia|apply put_len; lia]. Qed.

(** What the methods for the current token rely on. *)
Definition current (v : view) : Prop := (vtt v <> ErrorToken -> span_ok v (vdata v)) /\ (is_tag (vtt v) = true -> attr_ok v) /\ (is_tag (vtt v) = true \/ vtt v = EndTagToken -> 0 <= vret v).

Lemma token_ok_current t v : token_ok t v -> current v.
Proof. intros (<- & _ & Hd & Ha & Hr). split; [intros H; by apply Hd|]. split; [done|]. intros H. rewrite (Hr H). lia. Qed.

Lemma Text_ok v : current v -> is_text (vtt v) = true ->
  wp Text (fun s w => s = text_value (vnul v || bool_decide (vtt v = CommentToken)) (vraw v) (sub (vdata v) (vtext v)) /\ edited v w /\ current w /\ vattr w = vattr v /\ vret w = vret v) v.
Proof.
  intros (Hd & Ha & Hr) Ht. apply wp_pos. intros Hv. apply wp_bind, (wp_gets _ vtt); [done|]. rewrite Ht. apply wp_bind, (wp_gets _ vnul); [done|]. apply wp_bind, (wp_gets _ vraw); [done|].
  assert (Hs : span_ok v (vdata v)) by (apply Hd; intros E; by rewrite E in Ht). destruct (text_of_ok (vnul v || bool_decide (vtt v = CommentToken)) (vraw v) (sub (vdata v) (vtext v))) as (b & Eb & Hlb).
  assert (Hsub : len (sub (vdata v) (vtext v)) = end_ (vdata v) - start (vdata v)) by (destruct Hs; unfold sub; rewrite len_from; rewrite len_upto by lia; lia).
  assert (He : edited v (with_text (put (start (vdata v)) b (vtext v)) v)) by (apply edited_put; [done|lia|lia]).
  apply wp_bind. eapply wp_on_data; [done|exact Eb|lia|]. apply wp_bind, wp_data_from, wp_bind, wp_data_to, wp_ret. split; [done|]. split; [by destruct He|]. split; [|done].
  split; [intros _; unfold span_ok; cbn; lia|]. by split.
Qed.

Lemma TagName_ok v : current v ->
  wp TagName (fun r w => edited v w /\ current w /\ vattr w = vattr v /\ vret w = vret v /\
    if (start (vdata v) <? end_ (vdata v)) && (is_tag (vtt v) || bool_decide (vtt v = EndTagToken))
    then r = (lower (sub (vdata v) (vtext v)), vret v <? len (vattr v)) /\ vtext w = put (start (vdata v)) (lower (sub (vdata v) (vtext v))) (vtext v) else r = ([], false) /\ w = v) v.
Proof.
  intros (Hd & Ha & Hr). apply wp_pos. intros Hv. apply wp_bind, (wp_gets _ (fun v => start (vdata v) <? end_ (vdata v))); [intros z _; cbn; z_cases; lia|].
  apply wp_bind, (wp_gets _ vtt); [done|]. destruct (_ && _) eqn:Ec; [|apply wp_ret; split; [apply edited_refl|split; [by split|done]]].
  apply andb_true_iff in Ec as [_ Et]. assert (Hs : span_ok v (vdata v)) by (apply Hd; intros E; by rewrite E in Et).
  set (name := lower (sub (vdata v) (vtext v))). assert (Hl : len name = end_ (vdata v) - start (vdata v)).
  { unfold name, sub. destruct Hs. rewrite lower_len, len_from; rewrite len_upto by lia; lia. }
  assert (He : edited v (with_text (put (start (vdata v)) name (vtext v)) v)) by (apply edited_put; [done|lia|lia]).
  apply wp_bind. eapply wp_on_data; [done|reflexivity|exact Hl|]. apply wp_bind, wp_data_from, wp_bind, wp_data_to, wp_bind.
  apply (wp_gets _ (fun v => vret v <? len (vattr v))); [intros z _; cbn; unfold len; by rewrite length_fmap|]. apply wp_ret. split; [by destruct He|]. split; [|done].
  split; [intros _; unfold span_ok; cbn; lia|]. by split.
Qed.

(** The bytes of the buffer after the key and the value have been decoded. *)
Definition attr_value (x : span * span) (t : bytes) : bytes * bytes * bytes :=
  let key := lower (sub x.1 t) in
  let t1 := put (start x.1) key t in
  let val := sub x.2 t1 in
  match (let '(b, m) := newlines val in unescape_upto b m true) with
  | Some (b, s) => (key, s, put (start x.2) b t1)
  | None => (key, [], t1)
  end.

Lemma newlines_unescape s : exists b, (let '(b, m) := newlines s in unescape_upto b m true) = Some (b, unescaped true (convertNewlines s)) /\ len b = len s.
Proof.
  destruct (newlines_len s) as [Hl Hn]. pose proof (upto_newlines s) as Hu. destruct (newlines s) as [b n]. cbn [fst snd] in *. rewrite <- Hl in Hn.
  destruct (unescape_upto_ok b n true Hn) as (c & -> & Hc). exists c. rewrite Hu. split; [done|lia].
Qed.

Lemma sub_len s v t : span_ok v s -> vpos v <= len t -> len (sub s t) = end_ s - start s.
Proof. intros [H1 H2] H. unfold sub. rewrite len_from; rewrite len_upto by lia; lia. Qed.

Lemma TagAttr_ok v : current v ->
  wp TagAttr (fun r w => edited v w /\ current w /\ vattr w = vattr v /\ vdata w = vdata v /\
    if (vret v <? len (vattr v)) && is_tag (vtt v)
    then exists x, at_ (vattr v) (vret v) = Some x /\ let '(key, val, t) := attr_value x (vtext v) in r = (key, val, vret v + 1 <? len (vattr v)) /\ vtext w = t /\ vret w = vret v + 1
    else r = ([], [], false) /\ w = v) v.
Proof.
  intros (Hd & Ha & Hr). apply wp_pos. intros Hv.
  assert (Hmore : forall z, wf z -> (nAttrReturned z <? len (attr z)) = (vret (view_of z) <? len (vattr (view_of z)))) by (intros z _; cbn; unfold len; by rewrite length_fmap).
  apply wp_bind, (wp_gets _ (fun v => vret v <? len (vattr v))); [done|]. apply wp_bind, (wp_gets _ vtt); [done|].
  destruct (_ && _) eqn:Ec; [|apply wp_ret; split; [apply edited_refl|split; [by split|done]]]. apply andb_true_iff in Ec as [Hn%Z.ltb_lt Et]. pose proof (Ha Et) as Hok. specialize (Hr (or_introl Et)).
  apply wp_bind, (wp_gets _ vret); [done|]. apply wp_bind, wp_set_ret. set (v0 := with_ret _ v). destruct (at_Some (vattr v) (vret v) ltac:(lia)) as [x Ex].
  assert (Hx : span_ok v x.1 /\ span_ok v x.2). { unfold attr_ok in Hok. rewrite Forall_forall in Hok. apply Hok. unfold at_ in Ex. destruct (decide _); [|done]. by eapply list_elem_of_lookup_2. }
  destruct Hx as [Hx1 Hx2]. set (key := lower (sub x.1 (vtext v))). assert (Hkl : len key = end_ x.1 - start x.1) by (unfold key; rewrite lower_len; eapply sub_len; [done|lia]).
  assert (He1 : edited v0 (with_text (put (start x.1) key (vtext v)) v0)) by (apply (edited_put x.1 key v0); [done|lia|cbn; lia]).
  apply wp_bind. change (fun x : span * span => on_slice x.1 (fun s => Some (lower s, lower s))) with (fun x : span * span => on_slice (if true then x.1 else x.2) (fun s => Some (lower s, lower s))).
  eapply wp_on_attr; [exact Ex|exact Hx1|reflexivity|exact Hkl|]. set (v1 := with_text _ v0). assert (Hl1 : len (vtext v1) = len (vtext v)) by exact (edited_len _ _ He1). set (val := sub x.2 (vtext v1)).
  assert (Hvl : len val = end_ x.2 - start x.2) by (apply (sub_len x.2 v); [done|]; lia).
  destruct (newlines_unescape val) as (b & Eb & Hb). assert (He2 : edited v1 (with_text (put (start x.2) b (vtext v1)) v1)) by (apply (edited_put x.2 b v1); [done|lia|rewrite Hl1; cbn; lia]).
  apply wp_bind. change (fun x : span * span => on_slice x.2 (fun s => let '(b, m) := newlines s in unescape_upto b m true)) with (fun x : span * span => on_slice (if false then x.1 else x.2) (fun s => let '(b, m) := newlines s in unescape_upto b m true)).
  eapply (wp_on_attr _ false x); [exact Ex|exact Hx2|exact Eb|cbn iota; lia|]. apply wp_bind, (wp_gets _ (fun v => vret v <? len (vattr v))); [done|]. apply wp_ret.
  assert (He : edited v (with_text (put (start x.2) b (vtext v1)) v1)) by (destruct (edited_trans _ _ _ He1 He2) as [H1 H2 H3 H4 H5 H6 H7 H8]; by split).
  split; [exact He|]. split; [split; [exact Hd|split; [done|intros _; cbn; lia]]|]. split; [done|]. split; [done|]. exists x. split; [done|].
  unfold attr_value. fold key. change (put (start x.1) key (vtext v)) with (vtext v1). fold val. rewrite Eb. done.
Qed.

Fixpoint attr_list (l : list (span * span)) (t : bytes) : list Attribute * bytes :=
  match l with
  | [] => ([], t)
  | x :: l => let '(key, val, t) := attr_value x t in let '(r, t) := attr_list l t in (mkAttribute [] key val :: r, t)
  end.

Lemma from_at {A} (l : list A) n x : at_ l n = Some x -> from n l = x :: from (n + 1) l /\ 0 <= n < len l.
Proof.
  unfold at_. destruct (decide (0 <= n)) as [H|]; [|done]. intros E. pose proof (lookup_lt_Some _ _ _ E). split; [|unfold len; lia].
  unfold from. rewrite (drop_S l x (Z.to_nat n) E). f_equal. f_equal. lia.
Qed.

Lemma from_all {A} (l : list A) n : len l <= n -> from n l = [].
Proof. intros H. unfold from. apply drop_ge. unfold len in H. lia. Qed.

Lemma attrs_loop_ok fuel v : current v -> (Z.of_nat fuel >= len (vattr v) - vret v) ->
  wp (attrs_loop fuel (vret v <? len (vattr v)))
    (fun l w => edited v w /\ current w /\ (is_tag (vtt v) = true \/ len (vattr v) <= vret v -> l = (attr_list (from (vret v) (vattr v)) (vtext v)).1)) v.
Proof.
  revert v. induction fuel as [|fuel IH]; intros v Hc Hf; cbn [attrs_loop]; destruct (Z.ltb_spec (vret v) (len (vattr v))) as [Hlt|Hge]; try lia.
  1, 3: apply wp_ret; split; [apply edited_refl|split; [done|]]; intros _; by rewrite from_all.
  apply wp_bind. eapply wp_mono; [by apply TagAttr_ok|]. cbv beta. intros [[key val] more] w (He & Hcw & Ha & Hd & Hr). rewrite (proj2 (Z.ltb_lt _ _)) in Hr by done. cbn [andb] in Hr. destruct (is_tag (vtt v)) eqn:Et.
  - destruct Hr as (x & Ex & Hr). cbn [attr_list] in *. destruct (from_at _ _ _ Ex) as [Ef _]. rewrite Ef. cbn [attr_list]. destruct (attr_value x (vtext v)) as [[k s] t]. destruct Hr as (Heq & Htw & Hrw). injection Heq as -> -> ->.
    apply wp_bind, (wp_lift _ _ _ _ (String_of_ok k)), wp_bind. assert (Hm : (vret v + 1 <? len (vattr v)) = (vret w <? len (vattr w))) by (by rewrite Ha, Hrw). rewrite Hm.
    eapply wp_mono; [apply IH; [done|rewrite Ha, Hrw; lia]|]. cbv beta. intros l u (He2 & Hc2 & Hl). apply wp_ret. split; [by eapply edited_trans|]. split; [done|]. intros _.
    rewrite Hl by (left; by rewrite (edited_tt _ _ He)). rewrite Ha, Hrw, Htw. by destruct (attr_list _ t).
  - destruct Hr as [Heq ->]. injection Heq as -> -> ->. apply wp_bind, (wp_lift _ _ _ _ (String_of_ok [])), wp_bind. destruct fuel as [|fuel]; cbn [attrs_loop].
    all: apply wp_ret, wp_ret; split; [done|]; split; [done|]; intros [H|H]; [done|lia].
Qed.

(** The token of a tag whose name is not empty. *)
Definition tag_token (v : view) (tok : Token) : Prop :=
  let name := lower (sub (vdata v) (vtext v)) in
  Type_ tok = vtt v /\ Data tok = name /\ Lookup name = Some (DataAtom tok) /\ Attr tok = (attr_list (from (vret v) (vattr v)) (put (start (vdata v)) name (vtext v))).1.

Lemma Token_ok v : current v ->
  wp Token_ (fun tok w => edited v w /\ current w /\ (is_text (vtt v) = true -> tok = mkToken (vtt v) 0 (text_value (vnul v || bool_decide (vtt v = CommentToken)) (vraw v) (sub (vdata v) (vtext v))) []) /\
    (start (vdata v) < end_ (vdata v) -> is_tag (vtt v) = true \/ vtt v = EndTagToken /\ len (vattr v) <= vret v -> tag_token v tok)) v.
Proof.
  intros Hc. apply wp_bind, (wp_gets _ vtt); [done|]. destruct (is_text (vtt v)) eqn:Et.
  { apply wp_bind. eapply wp_mono; [by apply Text_ok|]. cbv beta. intros s w (-> & He & Hcw & _). apply wp_ret. split; [done|]. split; [done|]. split; [done|]. intros _ [H|[H _]]; by destruct (vtt v). }
  destruct (_ || _) eqn:Etag; [|apply wp_ret; split; [apply edited_refl|]; split; [done|]; split; [done|]; intros _ [H|[H _]]; by rewrite H in Etag].
  apply wp_bind. eapply wp_mono; [by apply TagName_ok|]. cbv beta. intros [name more] w (He & Hcw & Ha & Hr & Hname). rewrite Etag, andb_true_r in Hname.
  apply wp_bind, (wp_gets _ (fun v => length (vattr v))); [intros z _; cbn; by rewrite length_fmap|].
  assert (Htok : forall P l u, edited w u -> current u -> (forall a, Lookup name = Some a -> P (mkToken (vtt v) a name l)) ->
    wp (a ← lift (Lookup name); if negb (a =? 0) then s ← lift (Atom_String a); mret (mkToken (vtt v) a s l) else mret (mkToken (vtt v) 0 name l)) (fun tok w => edited v w /\ current w /\ P tok) u).
  { intros P l u He2 Hc2 HP. destruct (Lookup_sound name) as (a & Ea & Hsound). apply wp_bind, (wp_lift _ _ _ _ Ea). specialize (HP a Ea). assert (edited v u) by (by eapply edited_trans).
    destruct (Z.eqb_spec a 0) as [->|Hne]; cbn [negb]; [by apply wp_ret|]. apply wp_bind, (wp_lift _ _ _ _ (proj2 (Hsound Hne))). by apply wp_ret. }
  apply orb_true_iff in Etag. rewrite bool_decide_eq_true in Etag.
  destruct (start (vdata v) <? end_ (vdata v)) eqn:El; destruct Hname as [Hn Hw]; injection Hn as -> ->.
  - assert (H0 : 0 <= vret w) by (apply Hcw; by rewrite (edited_tt _ _ He)). rewrite <- Ha, <- Hr. apply wp_bind. eapply wp_mono; [apply attrs_loop_ok; [done|unfold len; lia]|].
    cbv beta. intros l u (He2 & Hc2 & Hl). eapply wp_mono; [apply (Htok (fun tok => is_tag (vtt v) = true \/ vtt v = EndTagToken /\ len (vattr v) <= vret v -> tag_token v tok)); [done|done|]|].
    + intros a Ea Hcase. rewrite Hl by (rewrite (edited_tt _ _ He), Ha, Hr; destruct Hcase as [|[_ ?]]; auto). by rewrite Ha, Hr, Hw.
    + cbv beta. intros tok x (Hex & Hcx & Hp). split; [done|]. split; [done|]. split; [done|]. intros _. by rewrite Ha, Hr.
  - subst w. apply wp_bind. destruct (length (vattr v)); cbn [attrs_loop]; apply wp_ret; (eapply wp_mono; [apply (Htok (fun tok => True)); [apply edited_refl|done|done]|]);
      cbv beta; intros tok x (Hex & Hcx & _); split_and!; try done; intros; apply Z.ltb_ge in El; lia.
Qed.

(** * Calls *)

Inductive call :=
  CNext | CRaw | CText | CTagName | CTagAttr | CToken | CErr | CAllowCDATA (b : bool) | CNextIsNotRawText | CSetMaxBuf (n : Z).

(** What a call returns; with [Next], the raw text of the token. *)
Inductive answer :=
  ANext (t : TokenType) (raw : bytes) | ABytes (s : bytes) | ATagName (name : bytes) (more : bool) | ATagAttr (key val : bytes) (more : bool) | AToken (t : Token)
  | AErr (e : option error) | ADone.

Definition raw_bytes : M bytes := fun z => s ← Raw z; Some (s, z).

Definition run_call (c : call) : M answer :=
  match c with
  | CNext => t ← Next; s ← raw_bytes; mret (ANext t s)
  | CRaw => s ← raw_bytes; mret (ABytes s)
  | CText => s ← Text; mret (ABytes s)
  | CTagName => '(name, more) ← TagName; mret (ATagName name more)
  | CTagAttr => '(key, val, more) ← TagAttr; mret (ATagAttr key val more)
  | CToken => t ← Token_; mret (AToken t)
  | CErr => e ← gets Err; mret (AErr e)
  | CAllowCDATA b => AllowCDATA b;; mret ADone
  | CNextIsNotRawText => NextIsNotRawText;; mret ADone
  | CSetMaxBuf n => SetMaxBuf n;; mret ADone
  end.

Fixpoint run (cs : list call) : M (list answer) :=
  match cs with
  | [] => mret []
  | c :: cs => a ← run_call c; l ← run cs; mret (a :: l)
  end.

(** The raw texts of the tokens. *)
Definition raws (l : list answer) : bytes := l ≫= (fun a => if a is ANext _ s then s else []).

Lemma wp_raw_bytes (Q : bytes -> view -> Prop) v : Q (upto (vpos v) (vtext v)) v -> wp raw_bytes Q v.
Proof.
  intros HQ z z' (Hw & Hw' & Hv) <-. assert (H : forall z, wf z -> raw_bytes z = Some (upto (vpos (view_of z)) (vtext (view_of z)), z)).
  { clear. intros z Hw. pose proof (wf_pos z Hw) as Hp. unfold raw_bytes, Raw. pose proof (slice_text z 0 (vpos (view_of z)) Hw ltac:(lia) ltac:(lia)) as Hs. cbn in Hs.
    rewrite Z.add_0_r in Hs. replace (start (raw z) + (end_ (raw z) - start (raw z))) with (end_ (raw z)) in Hs by lia. by rewrite Hs. }
  exists (upto (vpos (view_of z)) (vtext (view_of z))), z, z'. rewrite (H z Hw), (H z' Hw'). split; [done|]. split; [by rewrite Hv|]. split; [by split_and!|done].
Qed.

Lemma edited_answer v w : edited v w -> from (vpos w) (vtext w) = from (vpos v) (vtext v).
Proof. intros He. by rewrite (edited_pos _ _ He), (edited_rest _ _ He). Qed.

Lemma run_call_ok c v : current v ->
  wp (run_call c) (fun a w => current w /\ from (vpos v) (vtext v) = (if a is ANext _ s then s else []) ++ from (vpos w) (vtext w)) v.
Proof.
  intros Hc. destruct c; cbn [run_call].
  - apply wp_bind. eapply wp_mono; [apply Next_ok|]. cbv beta. intros t w (Hk & Ht & _). apply wp_bind, wp_raw_bytes, wp_ret. split; [by eapply token_ok_current|].
    rewrite upto_from. pose proof (kept_text _ _ Hk) as E. by rewrite E.
  - apply wp_bind, wp_raw_bytes, wp_ret. done.
  - apply wp_bind. destruct (is_text (vtt v)) eqn:Et.
    + eapply wp_mono; [by apply Text_ok|]. cbv beta. intros s w (_ & He & Hw & _). apply wp_ret. split; [done|]. by rewrite (edited_answer v w).
    + apply wp_bind, (wp_gets _ vtt); [done|]. rewrite Et. by apply wp_ret, wp_ret.
  - apply wp_bind. eapply wp_mono; [by apply TagName_ok|]. cbv beta. intros [name more] w (He & Hw & _). apply wp_ret. split; [done|]. by rewrite (edited_answer v w).
  - apply wp_bind. eapply wp_mono; [by apply TagAttr_ok|]. cbv beta. intros [[key val] more] w (He & Hw & _). apply wp_ret. split; [done|]. by rewrite (edited_answer v w).
  - apply wp_bind. eapply wp_mono; [by apply Token_ok|]. cbv beta. intros t w (He & Hw & _). apply wp_ret. split; [done|]. by rewrite (edited_answer v w).
  - apply wp_bind, (wp_gets _ (fun v => if bool_decide (vtt v = ErrorToken) then verr v else None)); [done|]. by apply wp_ret.
  - apply wp_bind, wp_set_cdata. by apply wp_ret.
  - apply wp_bind, wp_set_tag. by apply wp_ret.
  - apply wp_bind, wp_set_max. by apply wp_ret.
Qed.

Lemma run_calls_ok cs v : current v -> wp (run cs) (fun l w => current w /\ from (vpos v) (vtext v) = raws l ++ from (vpos w) (vtext w)) v.
Proof.
  revert v. induction cs as [|c cs IH]; intros v Hc; cbn [run]; [by apply wp_ret|]. apply wp_bind. eapply wp_mono; [by apply run_call_ok|]. cbv beta. intros a w [Hw Ha].
  apply wp_bind. eapply wp_mono; [by apply IH|]. cbv beta. intros l u [Hu Hl]. apply wp_ret. split; [done|]. unfold raws in *. cbn [mbind list_bind]. by rewrite Ha, Hl, app_assoc.
Qed.

(** * New tokenizers *)

Section runs.
Context (ToLower : bytes -> bytes).

Definition new_view (contextTag d : bytes) (e : error) : view :=
  mkView d 0 e None ErrorToken 0 (mkSpan 0 0) (mkSpan 0 0, mkSpan 0 0) [] 0 (rawTag (NewTokenizerFragment ToLower [] contextTag)) false false false.

Lemma new_ok r contextTag : wf (NewTokenizerFragment ToLower r contextTag) /\
  view_of (NewTokenizerFragment ToLower r contextTag) = new_view contextTag (stream 100 r).1 (stream 100 r).2.
Proof. split; [split_and!; cbn; rewrite ?(@len_nil Z); lia|done]. Qed.

Lemma new_equiv r r' contextTag : stream 100 r = stream 100 r' -> NewTokenizerFragment ToLower r contextTag ≡ NewTokenizerFragment ToLower r' contextTag.
Proof. intros E. destruct (new_ok r contextTag) as [H1 H2], (new_ok r' contextTag) as [H1' H2']. split_and!; [done|done|]. by rewrite H2, H2', E. Qed.

Lemma new_current contextTag d e : current (new_view contextTag d e).
Proof. split; [by intros H|]. split; [done|]. by intros [H|H]. Qed.

(** C18. The tokenizer's buffering does not show: for every sequence of calls, in
    any order and with any limits and modes set in between, the answers (token
    types, raw texts, unescaped texts, names, attributes, errors) depend only on
    the bytes the reader gives and the error after them, not on the pieces in
    which they come, empty reads among them. *)
Theorem pieces_do_not_show r r' contextTag cs : stream 100 r = stream 100 r' ->
  fst <$> run cs (NewTokenizerFragment ToLower r contextTag) = fst <$> run cs (NewTokenizerFragment ToLower r' contextTag).
Proof.
  intros E. pose proof (proj2 (new_ok r contextTag)) as Hv. destruct (run_calls_ok cs _ (new_current contextTag (stream 100 r).1 (stream 100 r).2) _ _ (new_equiv r r' contextTag E) Hv) as (l & w & w' & -> & -> & _). done.
Qed.

(** C19. The tokenizer never panics and loses no byte: every sequence of calls on a
    new tokenizer returns, no index is out of range, and the raw texts of the
    tokens, one after the other, with what is still to be read, are the input. *)
Theorem raw_texts_partition r contextTag cs : exists l z, run cs (NewTokenizerFragment ToLower r contextTag) = Some (l, z) /\ raws l ++ HtmlToken.pending z = (stream 100 r).1.
Proof.
  pose proof (proj2 (new_ok r contextTag)) as Hv. destruct (run_calls_ok cs _ (new_current contextTag (stream 100 r).1 (stream 100 r).2) _ _ (new_equiv r r contextTag eq_refl) Hv) as (l & w & w' & E & _ & (Hw & _) & _ & Hl).
  exists l, w. split; [done|]. rewrite pending_view by done. by rewrite <- Hl.
Qed.

Lemma edited_left v w : edited v w -> left w = left v.
Proof. intros He. unfold left. by rewrite (edited_answer v w He). Qed.

Lemma tokens_ok fuel v : current v -> err_ok v -> vmax v = 0 -> (left v < fuel)%nat ->
  wp (tokens fuel) (fun r w => r.2 = Some (vending v) /\ (length r.1 <= left v)%nat /\ left w = 0%nat) v.
Proof.
  revert v. induction fuel as [|fuel IH]; intros v Hc He Hm Hf; [lia|]. apply wp_pos. intros Hv. cbn [tokens]. apply wp_bind. eapply wp_mono; [apply Next_ok|]. cbv beta. intros t w (Hk & Ht & _).
  assert (Hmw : vmax w = 0) by (by rewrite (kept_max _ _ Hk)). assert (Hew : err_ok w) by (apply (kept_ok _ _ Hk), kept_next_start; done).
  assert (Htw : vtext w = from (vpos v) (vtext v)) by (apply (kept_text _ _ Hk)). pose proof (kept_pos _ _ Hk) as Hpw. change (vtext (next_start v)) with (from (vpos v) (vtext v)) in Hpw. rewrite <- Htw in Hpw.
  case_bool_decide as Et.
  - subst t. destruct Ht as (Htt & Hn & _). destruct (Hew Hmw (Hn eq_refl)) as [Hend Herr]. apply wp_bind, (wp_gets _ (fun v => if bool_decide (vtt v = ErrorToken) then verr v else None)); [done|]. apply wp_ret.
    rewrite bool_decide_true by done. cbn [fst snd]. split; [rewrite Herr; f_equal; apply (kept_ending _ _ Hk)|]. split; [cbn; lia|]. unfold left. rewrite from_all by lia. done.
  - pose proof Ht as (Htt & _ & Hd & _). destruct (Hd Et) as [Hpos _]. assert (Hlw : (left w < left v)%nat) by (unfold left at 2; rewrite <- Htw; unfold left; rewrite length_from; unfold len in *; lia).
    apply wp_bind. eapply wp_mono; [by eapply Token_ok, token_ok_current|]. cbv beta. intros tok u (Hed & Hcu & _). assert (Hlu : left u = left w) by (by apply edited_left).
    apply wp_bind. eapply wp_mono; [apply IH; [done| | |lia]|].
    + intros _ Hne. rewrite (edited_err _ _ Hed), (edited_pos _ _ Hed), (edited_len _ _ Hed), (edited_ending _ _ Hed) in *. by apply Hew.
    + by rewrite (edited_max _ _ Hed).
    + cbv beta. intros [l e] x (H1 & H2 & H3). cbn [fst snd] in *. apply wp_ret. cbn [fst snd length]. split; [rewrite H1; f_equal; rewrite (edited_ending _ _ Hed); apply (kept_ending _ _ Hk)|]. split; [lia|done].
Qed.

(** C31. The loop of the package's documentation ends: on every input it collects
    at most one token per byte, each token that is no error taking one, and ends
    with the error the reader has at its end, when all of the input is read. *)
Theorem tokens_end r contextTag d e : stream 100 r = (d, e) ->
  exists l z, tokens (S (length d)) (NewTokenizerFragment ToLower r contextTag) = Some ((l, Some e), z) /\ (length l <= length d)%nat /\ HtmlToken.pending z = [].
Proof.
  intros E. pose proof (proj2 (new_ok r contextTag)) as Hv. rewrite E in Hv. cbn [fst snd] in Hv.
  destruct (tokens_ok (S (length d)) (new_view contextTag d e) (new_current contextTag d e) (fun _ H => False_ind _ (H eq_refl)) eq_refl (Nat.lt_succ_diag_r (length d)) _ _ (new_equiv r r contextTag eq_refl) Hv) as ([l e'] & w & w' & Et & _ & (Hw & _) & He & Hl & H0).
  cbn [fst snd] in *. subst e'. exists l, w. split; [done|]. split; [exact Hl|]. rewrite pending_view by done. by apply length_zero_iff_nil.
Qed.
End runs.

(** * Examples *)

Definition whole_input : list (bytes * option error) := [(str "<p a=1>x&amp", Some EOF)].
Definition cut_input : list (bytes * option error) := [(str "<p ", None); ([], None); (str "a=1>x&", None); (str "amp", None); ([], Some EOF)].
Definition sample_calls : list call := [CNext; CTagName; CTagAttr; CSetMaxBuf 100; CNext; CRaw; CText; CNext; CErr].

Lemma pieces_do_not_show_witness : stream 100 cut_input = stream 100 whole_input /\
  fst <$> run sample_calls (NewTokenizerFragment (fun s => s) cut_input []) = fst <$> run sample_calls (NewTokenizerFragment (fun s => s) whole_input []).
Proof. split; [reflexivity|]. apply (pieces_do_not_show (fun s => s) cut_input whole_input [] sample_calls). reflexivity. Defined.

Lemma tokens_end_witness : stream 100 cut_input = (str "<p a=1>x&amp", EOF) /\
  exists l z, tokens 13 (NewTokenizerFragment (fun s => s) cut_input []) = Some ((l, Some EOF), z) /\ (length l <= 12)%nat /\ HtmlToken.pending z = [].
Proof. split; [reflexivity|]. apply (tokens_end (fun s => s) cut_input [] (str "<p a=1>x&amp") EOF). reflexivity. Defined.

Definition tokens_of (s : bytes) : option (list Token * option error) := fst <$> tokens (S (length s)) (NewTokenizer (fun s => s) [(s, None)]).

(** At the end of the input [readDoctype] fails with [z.err] set, and
    [readUntilCloseAngle] starts the data of the comment after what was read: the
    text [DOC] is in no token, where [<!DOX] gives it. *)
Lemma cut_doctype_loses_text : tokens_of (str "<!DOC") = Some ([mkToken CommentToken 0 [] []], Some EOF) /\
  tokens_of (str "<!DOX") = Some ([mkToken CommentToken 0 (str "DOX") []], Some EOF).
Proof. vm_compute. split; reflexivity. Qed.

(** After [--!] the dashes are counted from zero again, and the byte behind the
    [!] is not one of them: this comment, which HTML ends, goes on to the end of
    the input. *)
Lemma comment_bang_not_closed : tokens_of (str "<!--a--!-->b") = Some ([mkToken CommentToken 0 (str "a--!-->b") []], Some EOF).
Proof. vm_compute. reflexivity. Qed.

(** The text of comments and document types is unescaped, and [String] does not
    escape it: the token that is read again from its own text is another one. *)
Lemma comments_unescaped : tokens_of (str "<!--a&gt;-->") = Some ([mkToken CommentToken 0 (str "a>") []], Some EOF) /\
  Token_String (mkToken CommentToken 0 (str "--&gt;&lt;b>") []) = Some (str "<!----&gt;&lt;b>-->") /\
  tokens_of (str "<!----&gt;&lt;b>-->") = Some ([mkToken CommentToken 0 (str "--><b>") []], Some EOF) /\
  tokens_of (str "<!----><b>-->") = Some ([mkToken CommentToken 0 [] []; mkToken StartTagToken 0x101 (str "b") []; mkToken TextToken 0 (str "-->") []], Some EOF).
Proof. vm_compute. split_and!; reflexivity. Qed.
