(* ===== verification/HtmlTokenRT.v ===== *)
(** How the tokenizer reads text that is known, and the round trip of tokens
    that [Token.String] prints. *)

From S2P Require Import Prelude Utf8 GoStrings HtmlEscape HtmlEscapeRT HtmlAtom HtmlToken HtmlTokenSpec HtmlTokenRuns.

(** * Reading known bytes *)

(** Without an error or a limit, [s] is what comes next. *)
Record reads (v : view) (s : bytes) : Prop := {
  reads_err : verr v = None;
  reads_max : vmax v = 0;
  reads_pos : 0 <= vpos v;
  reads_from : from (vpos v) (vtext v) = s }.

Lemma reads_cons v c s : reads v (c :: s) -> at_ (vtext v) (vpos v) = Some c /\ reads (adv v) s.
Proof.
  intros [He Hm Hp Hf]. destruct (from_cons_at _ _ _ _ Hp Hf) as (Ha & Hf' & _). split; [done|]. split; [done|done|cbn; lia|done].
Qed.

Lemma wp_read_cons {A} (failed : M A) (k : Z -> M A) Q v c s : reads v (c :: s) -> wp (k c) Q (adv v) -> wp (read failed k) Q v.
Proof.
  intros Hr Hk. destruct (reads_cons _ _ _ Hr) as [Hc _]. destruct Hr as [He Hm Hp Hf]. apply wp_bind, wp_readByte. unfold read_view. rewrite Hc. unfold full. rewrite Hm. cbn [andb Z.ltb Z.compare].
  apply wp_bind, wp_errored. cbn [fst snd adv with_pos verr]. by rewrite He.
Qed.

Lemma wp_read_end {A} (failed : M A) (k : Z -> M A) Q v : reads v [] -> wp failed Q (with_err (Some (vending v)) v) -> wp (read failed k) Q v.
Proof.
  intros [He Hm Hp Hf] Hk. apply wp_pos. intros Hv. assert (Hl : vpos v = len (vtext v)) by (apply from_nil_at; done). apply wp_bind, wp_readByte. unfold read_view. rewrite at_end by lia.
  apply wp_bind, wp_errored. done.
Qed.

Lemma reads_pos_to v s t p : reads v (s ++ t) -> p = vpos v + len s -> reads (with_pos p v) t.
Proof. intros [He Hm Hp Hf] ->. pose proof (len_nonneg s). split; [done|done|cbn; lia|]. cbn. by apply (from_behind _ _ s). Qed.

Lemma reads_same v w s : verr w = verr v -> vmax w = vmax v -> vpos w = vpos v -> vtext w = vtext v -> reads v s -> reads w s.
Proof. intros E1 E2 E3 E4 [H1 H2 H3 H4]. split; congruence. Qed.

Lemma reads_left v s : reads v s -> left v = length s.
Proof. intros [_ _ _ Hf]. unfold left. by rewrite Hf. Qed.

Lemma reads_with_data d v s : reads v s -> reads (with_data d v) s.
Proof. intros [H1 H2 H3 H4]. by split. Qed.

(** * White space, names, keys and values *)

Lemma skip_none v c s : reads v (c :: s) -> is_space c = false -> forall (Q : unit -> view -> Prop), Q tt v -> wp skipWhiteSpace Q v.
Proof.
  intros Hr Hc Q HQ. apply wp_pos. intros Hv. apply wp_bind, wp_errored. rewrite (reads_err _ _ Hr). apply wp_bind, wp_loop_fuel. cbn [skip_loop]. apply (wp_read_cons _ _ _ _ c s Hr); cbv beta.
  rewrite Hc. pose proof (reads_pos _ _ Hr). unread. by rewrite moved_back by lia.
Qed.

Lemma skip_one v c s : reads v (32 :: c :: s) -> is_space c = false -> forall (Q : unit -> view -> Prop), Q tt (adv v) -> wp skipWhiteSpace Q v.
Proof.
  intros Hr Hc Q HQ. apply wp_pos. intros Hv. apply wp_bind, wp_errored. rewrite (reads_err _ _ Hr). apply wp_bind, wp_loop_fuel. rewrite (reads_from _ _ Hr). cbn [length skip_loop].
  apply (wp_read_cons _ _ _ _ _ _ Hr); cbv beta. change (is_space 32) with true. cbn iota. destruct (reads_cons _ _ _ Hr) as [_ Hr1]. cbn [skip_loop]. apply (wp_read_cons _ _ _ _ c s Hr1); cbv beta.
  rewrite Hc. pose proof (reads_pos _ _ Hr1). apply wp_pos. intros Hv1. unread. rewrite moved_back by (cbn in *; lia). done.
Qed.

Definition name_byte (c : Z) : bool := negb (is_space c || (c =? chr "/") || (c =? chr ">")).
Definition key_byte (c : Z) : bool := name_byte c && negb (c =? chr "=").

Lemma name_loop_reads fuel name c rest v (Q : unit -> view -> Prop) : forallb name_byte name = true -> reads v (name ++ c :: rest) -> (length name < fuel)%nat ->
  let p := vpos v + len name in
  (is_space c = true -> Q tt (with_data (mkSpan (start (vdata v)) p) (with_pos (p + 1) v))) ->
  (is_space c = false -> name_byte c = false -> Q tt (with_data (mkSpan (start (vdata v)) p) (with_pos p v))) ->
  name_byte c = false -> wp (tag_name_loop fuel) Q v.
Proof.
  cbv zeta. revert v fuel. induction name as [|b name IH]; intros v [|fuel] Hn Hr Hf Hs Hb Hc; cbn [length] in Hf; try lia; cbn [tag_name_loop app] in *.
  - apply (wp_read_cons _ _ _ _ _ _ Hr); cbv beta. rewrite (@len_nil Z), Z.add_0_r in *. pose proof (reads_pos _ _ Hr). destruct (is_space c) eqn:Es.
    + apply wp_data_to. specialize (Hs eq_refl). cbn. by replace (vpos v + 1 - 1) with (vpos v) by lia.
    + specialize (Hb eq_refl Hc). unfold name_byte in Hc. rewrite Es in Hc. cbn [orb] in Hc. apply negb_false_iff in Hc. rewrite Hc. apply wp_pos. intros Hv. apply wp_bind. unread. apply wp_data_to. cbn in Hv.
      cbn. replace (vpos v + 1 - 1 - 0) with (vpos v) by lia. by replace (vpos v + 1 - 1) with (vpos v) by lia.
  - cbn [forallb] in Hn. apply andb_true_iff in Hn as [Hb1 Hn]. apply (wp_read_cons _ _ _ _ _ _ Hr); cbv beta. destruct (reads_cons _ _ _ Hr) as [_ Hr1].
    unfold name_byte in Hb1. apply negb_true_iff in Hb1. destruct (is_space b); [done|]. cbn [orb] in Hb1. rewrite Hb1. rewrite len_cons in *.
    apply IH; try done; [lia|..]; cbn; rewrite with_pos_adv; replace (vpos v + 1 + len name) with (vpos v + (len name + 1)) by lia; done.
Qed.

Lemma key_loop_reads fuel key rest v (Q : unit -> view -> Prop) : forallb key_byte key = true -> reads v (key ++ chr "=" :: rest) -> (length key < fuel)%nat ->
  Q tt (with_key (mkSpan (start (vpend v).1) (vpos v + len key)) (with_pos (vpos v + len key) v)) -> wp (key_loop fuel) Q v.
Proof.
  revert v fuel. induction key as [|b key IH]; intros v [|fuel] Hn Hr Hf HQ; cbn [length] in Hf; try lia; cbn [key_loop app] in *; apply (wp_read_cons _ _ _ _ _ _ Hr); cbv beta.
  - rewrite (@len_nil Z), Z.add_0_r in *. pose proof (reads_pos _ _ Hr). change (is_space (chr "=") || (chr "=" =? chr "/")) with false. change ((chr "=" =? chr "=") || (chr "=" =? chr ">")) with true. cbn iota.
    apply wp_pos. intros Hv. cbn in Hv. apply wp_bind. unread. apply wp_key_to. cbn. replace (vpos v + 1 - 1 - 0) with (vpos v) by lia. by replace (vpos v + 1 - 1) with (vpos v) by lia.
  - cbn [forallb] in Hn. apply andb_true_iff in Hn as [Hb1 Hn]. destruct (reads_cons _ _ _ Hr) as [_ Hr1]. unfold key_byte, name_byte in Hb1. apply andb_true_iff in Hb1 as [Hb1 Hb2].
    apply negb_true_iff in Hb1, Hb2. rewrite orb_false_iff in Hb1. destruct Hb1 as [Hb1 Hb3]. rewrite Hb1, Hb2, Hb3. cbn [orb]. rewrite len_cons in *.
    apply IH; try done; [lia|]. cbn. unfold adv. rewrite with_pos_pos. by replace (vpos v + 1 + len key) with (vpos v + (len key + 1)) by lia.
Qed.

Lemma readTagAttrKey_reads key rest v (Q : unit -> view -> Prop) : forallb key_byte key = true -> reads v (key ++ chr "=" :: rest) ->
  Q tt (with_key (mkSpan (vpos v) (vpos v + len key)) (with_pos (vpos v + len key) v)) -> wp readTagAttrKey Q v.
Proof.
  intros Hk Hr HQ. apply wp_bind, wp_key_from, wp_bind, wp_loop_fuel. rewrite Z.sub_0_r. set (v1 := with_key _ v). assert (Hr1 : reads v1 (key ++ chr "=" :: rest)) by (destruct Hr; by split).
  apply (key_loop_reads _ key rest); [done|done| |exact HQ]. fold (left v1). rewrite (reads_left _ _ Hr1), length_app. cbn. lia.
Qed.

(** The key of the slash that ends a tag is empty. *)
Lemma readTagAttrKey_slash rest v (Q : unit -> view -> Prop) : reads v (chr "/" :: rest) -> Q tt (with_key (mkSpan (vpos v) (vpos v)) (adv v)) -> wp readTagAttrKey Q v.
Proof.
  intros Hr HQ. apply wp_bind, wp_key_from, wp_bind, wp_loop_fuel. rewrite Z.sub_0_r. set (v1 := with_key _ v). assert (Hr1 : reads v1 (chr "/" :: rest)) by (destruct Hr; by split).
  cbn [key_loop]. apply (wp_read_cons _ _ _ _ _ _ Hr1); cbv beta. change (is_space (chr "/") || (chr "/" =? chr "/")) with true. cbn iota. apply wp_key_to. cbn.
  by replace (vpos v + 1 - 1) with (vpos v) by lia.
Qed.

Lemma quoted_loop_reads fuel val rest v (Q : unit -> view -> Prop) : 34 ∉ val -> reads v (val ++ 34 :: rest) -> (length val < fuel)%nat ->
  Q tt (with_val (mkSpan (start (vpend v).2) (vpos v + len val)) (with_pos (vpos v + len val + 1) v)) -> wp (quoted_loop fuel 34) Q v.
Proof.
  revert v fuel. induction val as [|b val IH]; intros v [|fuel] Hn Hr Hf HQ; cbn [length] in Hf; try lia; cbn [quoted_loop app] in *; apply (wp_read_cons _ _ _ _ _ _ Hr); cbv beta.
  - rewrite (@len_nil Z), Z.add_0_r in *. cbn [Z.eqb Pos.eqb]. apply wp_val_to. cbn. by replace (vpos v + 1 - 1) with (vpos v) by lia.
  - apply not_elem_of_cons in Hn as [Hb Hn]. destruct (reads_cons _ _ _ Hr) as [_ Hr1]. rewrite (proj2 (Z.eqb_neq b 34)) by congruence. rewrite len_cons in *.
    apply IH; try done; [lia|]. cbn. unfold adv. rewrite with_pos_pos. by replace (vpos v + 1 + len val) with (vpos v + (len val + 1)) by lia.
Qed.

Lemma readTagAttrVal_reads val rest v (Q : unit -> view -> Prop) : 34 ∉ val -> reads v (chr "=" :: 34 :: val ++ 34 :: rest) ->
  Q tt (with_val (mkSpan (vpos v + 2) (vpos v + 2 + len val)) (with_pos (vpos v + 3 + len val) v)) -> wp readTagAttrVal Q v.
Proof.
  intros Hv Hr HQ. apply wp_bind, wp_val_from, wp_bind, wp_val_to. rewrite !Z.sub_0_r. set (v1 := with_val _ _). assert (Hr1 : reads v1 (chr "=" :: 34 :: val ++ 34 :: rest)) by (destruct Hr; by split).
  apply wp_bind. eapply skip_none; [exact Hr1|done|]. apply wp_bind, wp_errored. rewrite (reads_err _ _ Hr1). apply (wp_read_cons _ _ _ _ _ _ Hr1); cbv beta. destruct (reads_cons _ _ _ Hr1) as [_ Hr2].
  rewrite Z.eqb_refl. cbn [negb]. apply wp_bind. eapply skip_none; [exact Hr2|done|]. apply wp_bind, wp_errored. rewrite (reads_err _ _ Hr2). apply (wp_read_cons _ _ _ _ _ _ Hr2); cbv beta. destruct (reads_cons _ _ _ Hr2) as [_ Hr3].
  change (34 =? chr ">") with false. change ((34 =? 39) || (34 =? 34)) with true. cbn iota. apply wp_bind, wp_val_from, wp_bind, wp_loop_fuel. rewrite Z.sub_0_r. set (v4 := with_val _ _).
  assert (Hr4 : reads v4 (val ++ 34 :: rest)) by (destruct Hr3; by split). apply (quoted_loop_reads _ val rest); [done|done| |].
  - fold (left v4). rewrite (reads_left _ _ Hr4), length_app. cbn. lia.
  - replace (with_val _ _) with (with_val (mkSpan (vpos v + 2) (vpos v + 2 + len val)) (with_pos (vpos v + 3 + len val) v)); [exact HQ|].
    assert (Hp : vpos v4 = vpos v + 1 + 1) by done. assert (Hs : start (vpend v4).2 = vpos v + 1 + 1) by done. rewrite Hp, Hs.
    replace (vpos v + 1 + 1) with (vpos v + 2) by lia. replace (vpos v + 2 + len val + 1) with (vpos v + 3 + len val) by lia. done.
Qed.

(** Without a value. *)
Lemma readTagAttrVal_none c rest v (Q : unit -> view -> Prop) : reads v (c :: rest) -> is_space c = false -> c <> chr "=" -> Q tt (with_val (mkSpan (vpos v) (vpos v)) v) -> wp readTagAttrVal Q v.
Proof.
  intros Hr Hs Hc HQ. apply wp_bind, wp_val_from, wp_bind, wp_val_to. rewrite !Z.sub_0_r. set (v1 := with_val _ _). assert (Hr1 : reads v1 (c :: rest)) by (destruct Hr; by split).
  apply wp_bind. eapply skip_none; [exact Hr1|done|]. apply wp_bind, wp_errored. rewrite (reads_err _ _ Hr1). apply wp_pos. intros Hv. apply (wp_read_cons _ _ _ _ _ _ Hr1); cbv beta.
  rewrite (proj2 (Z.eqb_neq _ _)) by done. cbn [negb]. apply wp_pos. intros Hv1. pose proof (reads_pos _ _ Hr). unread. rewrite moved_back by lia. exact HQ.
Qed.

(** * Attributes *)

(** The attributes from the first key on, and the end of the tag. *)
Fixpoint attrs_text (l : list Attribute) (e : bytes) : bytes :=
  match l with
  | [] => e
  | a :: l => Key a ++ chr "=" :: 34 :: (Val a ≫= escaped1) ++ 34 :: (match l with [] => e | _ => 32 :: attrs_text l e end)
  end.

Definition attr_wf (a : Attribute) : Prop := Namespace a = [] /\ Key a <> [] /\ forallb key_byte (Key a) = true /\ lower (Key a) = Key a.

(** The spans [l], in order from [p] on, hold the attributes as they are printed. *)
Fixpoint spelled (p : Z) (t : bytes) (l : list (span * span)) (attrs : list Attribute) : Prop :=
  match l, attrs with
  | [], [] => True
  | x :: l, a :: attrs =>
      p <= start x.1 <= end_ x.1 /\ end_ x.1 <= start x.2 <= end_ x.2 /\ end_ x.2 <= len t /\ sub x.1 t = Key a /\ sub x.2 t = Val a ≫= escaped1 /\ spelled (end_ x.2) t l attrs
  | _, _ => False
  end.

Lemma spelled_mono p q t l attrs : p <= q -> spelled q t l attrs -> spelled p t l attrs.
Proof. intros Hpq. destruct l, attrs; cbn; try done. intros (H1 & H2). split; [lia|done]. Qed.

Lemma sub_from p t s r : 0 <= p -> from p t = s ++ r -> sub (mkSpan p (p + len s)) t = s.
Proof.
  intros Hp Hf. unfold sub. cbn [start end_]. unfold from, upto in *. pose proof (len_nonneg s). rewrite skipn_firstn_comm, Hf. unfold len in *.
  replace (Z.to_nat (p + Z.of_nat (length s)) - Z.to_nat p)%nat with (length s) by lia. apply take_app_length.
Qed.

Definition tag_end (e : bytes) : Prop := e = str ">" \/ e = str "/>".

Lemma wp_save_attr_some v (Q : unit -> view -> Prop) : start (vpend v).1 <> end_ (vpend v).1 -> Q tt (with_attr (vattr v ++ [vpend v]) v) -> wp (save_attr true) Q v.
Proof. intros Hne HQ. apply wp_save_attr. rewrite (proj2 (Z.eqb_neq _ _)) by done. done. Qed.

Lemma wp_save_attr_none v (Q : unit -> view -> Prop) : start (vpend v).1 = end_ (vpend v).1 -> Q tt v -> wp (save_attr true) Q v.
Proof. intros E HQ. apply wp_save_attr. rewrite (proj2 (Z.eqb_eq _ _)) by done. done. Qed.

Lemma with_pos_self v : with_pos (vpos v) v = v.
Proof. by destruct v. Qed.

(** The end of a tag. *)
Lemma tag_loop_end e rest v fuel (Q : unit -> view -> Prop) : tag_end e -> reads v (e ++ rest) -> (length e < S fuel)%nat ->
  (forall pend, Q tt (with_pend pend (with_pos (vpos v + len e) v))) -> wp (tag_loop fuel true) Q v.
Proof.
  intros [-> | ->] Hr Hf HQ.
  - destruct fuel as [|fuel]; [cbn in Hf; lia|]. cbn [tag_loop]. apply (wp_read_cons _ _ _ _ _ _ Hr); cbv beta. rewrite Z.eqb_refl. apply wp_ret. exact (HQ (vpend v)).
  - destruct fuel as [|[|fuel]]; [cbn in Hf; lia..|]. cbn [tag_loop]. apply (wp_read_cons _ _ _ _ _ _ Hr); cbv beta. change (chr "/" =? chr ">") with false. cbn iota. apply wp_pos. intros Hv.
    pose proof (reads_pos _ _ Hr). apply wp_bind. unread. cbn in Hv. rewrite moved_back by lia. apply wp_bind. eapply readTagAttrKey_slash; [exact Hr|].
    destruct (reads_cons _ _ _ Hr) as [_ Hr1]. set (v1 := with_key _ _). assert (Hr2 : reads v1 (chr ">" :: rest)) by (destruct Hr1; by split).
    apply wp_bind. eapply readTagAttrVal_none; [exact Hr2|done|done|]. set (v2 := with_val _ v1). assert (Hr3 : reads v2 (chr ">" :: rest)) by (destruct Hr2; by split).
    apply wp_bind, wp_save_attr_none; [done|]. apply wp_bind. eapply skip_none; [exact Hr3|done|]. apply wp_bind, wp_errored. rewrite (reads_err _ _ Hr3).
    apply (wp_read_cons _ _ _ _ _ _ Hr3); cbv beta. rewrite Z.eqb_refl. apply wp_ret. specialize (HQ (vpend v2)). change (len (str "/>")) with 2 in HQ.
    replace (adv v2) with (with_pend (vpend v2) (with_pos (vpos v + 2) v)); [done|]. unfold adv, v2, v1. unfold adv, with_val, with_key, with_pend, with_pos. cbn. f_equal. lia.
Qed.

Lemma key_head a : attr_wf a -> exists c k, Key a = c :: k /\ is_space c = false /\ c <> chr ">" /\ c <> chr "/".
Proof.
  intros (_ & Hne & Hk & _). destruct (Key a) as [|c k]; [done|]. exists c, k. cbn [forallb] in Hk. apply andb_true_iff in Hk as [Hc _]. unfold key_byte, name_byte in Hc.
  apply andb_true_iff in Hc as [Hc _]. apply negb_true_iff, orb_false_iff in Hc as [Hc H3]. apply orb_false_iff in Hc as [H1 H2]. split; [done|]. split; [done|]. split; by apply Z.eqb_neq.
Qed.

Lemma escaped_no_quote s : 34 ∉ s ≫= escaped1.
Proof.
  rewrite list_elem_of_bind. intros (c & Hc & _). pose proof (escaped1_clean c) as H. rewrite Forall_forall in H. destruct (H 34 Hc) as [H'|H']; [done|]. apply H'. apply (bool_decide_eq_true_1 _). reflexivity.
Qed.

Lemma reads_skip v s t : reads v (s ++ t) -> reads (with_pos (vpos v + len s) v) t.
Proof. intros H. by apply (reads_pos_to v s). Qed.

Lemma attrs_text_head a l e : attr_wf a -> exists c k, attrs_text (a :: l) e = c :: k /\ is_space c = false /\ c <> chr ">" /\ c <> chr "/".
Proof. intros Ha. destruct (key_head a Ha) as (c & k & E & H). cbn [attrs_text]. rewrite E. cbn [app]. by eexists c, _. Qed.

Lemma tag_end_head e : tag_end e -> exists c k, e = c :: k /\ is_space c = false.
Proof. by intros [-> | ->]; eexists _, _. Qed.

Lemma reads_with_pend x v s : reads v s -> reads (with_pend x v) s.
Proof. intros [H1 H2 H3 H4]. by split. Qed.

Lemma reads_with_attr x v s : reads v s -> reads (with_attr x v) s.
Proof. intros [H1 H2 H3 H4]. by split. Qed.

(** What separates an attribute from the next one, or from the end, is skipped. *)
Lemma skip_more l e rest v : tag_end e -> Forall attr_wf l -> reads v ((match l with [] => e | _ => 32 :: attrs_text l e end) ++ rest) ->
  let p := vpos v + (match l with [] => 0 | _ => 1 end) in
  reads (with_pos p v) (attrs_text l e ++ rest) /\ forall Q : unit -> view -> Prop, Q tt (with_pos p v) -> wp skipWhiteSpace Q v.
Proof.
  intros He Hl Hr. cbv zeta. destruct l as [|a l].
  - rewrite Z.add_0_r, with_pos_self. split; [exact Hr|]. destruct (tag_end_head e He) as (c & k & -> & Hc). intros Q HQ. eapply (skip_none v c (k ++ rest)); [exact Hr|exact Hc|exact HQ].
  - split; [by destruct (reads_cons _ _ _ Hr)|]. apply Forall_cons in Hl as [Ha _]. destruct (attrs_text_head a l e Ha) as (c & k & E & Hc & _). rewrite E in Hr. intros Q HQ. eapply (skip_one v c (k ++ rest)); [exact Hr|exact Hc|exact HQ].
Qed.

Lemma tag_loop_reads l e rest : tag_end e -> Forall attr_wf l -> forall v fuel (Q : unit -> view -> Prop), reads v (attrs_text l e ++ rest) -> (length (attrs_text l e) < S fuel)%nat ->
  (forall new pend, spelled (vpos v) (vtext v) new l -> Q tt (with_attr (vattr v ++ new) (with_pend pend (with_pos (vpos v + len (attrs_text l e)) v)))) -> wp (tag_loop fuel true) Q v.
Proof.
  intros He. induction 1 as [|a l Ha Hl IH]; intros v fuel Q Hr Hf HQ.
  { eapply tag_loop_end; [exact He|exact Hr|exact Hf|]. intros pend. specialize (HQ [] pend I). by rewrite app_nil_r in HQ. }
  set (val := Val a ≫= escaped1). set (more := match l with [] => e | _ => 32 :: attrs_text l e end).
  assert (Et : attrs_text (a :: l) e = Key a ++ chr "=" :: 34 :: val ++ 34 :: more) by done. rewrite Et in *. rewrite <- !app_assoc in Hr. cbn [app] in Hr. rewrite <- !app_assoc in Hr. cbn [app] in Hr.
  apply wp_pos. intros Hv. destruct (key_head a Ha) as (c & k & Ek & Hc1 & Hc2 & _). destruct fuel as [|fuel]; [rewrite length_app in Hf; cbn in Hf; lia|]. cbn [tag_loop].
  assert (Hr0 : reads v (c :: k ++ chr "=" :: 34 :: val ++ 34 :: more ++ rest)) by (by rewrite Ek in Hr). apply (wp_read_cons _ _ _ _ _ _ Hr0); cbv beta. rewrite (proj2 (Z.eqb_neq c (chr ">"))) by done.
  apply wp_bind. unread. rewrite moved_back by lia. destruct Ha as (_ & Hne & Hkey & _). apply wp_bind. eapply readTagAttrKey_reads; [exact Hkey|exact Hr|]. pose proof (reads_skip v _ _ Hr) as Hr1.
  set (p := vpos v + len (Key a)) in *. set (v1 := with_key _ _). assert (Hr1' : reads v1 (chr "=" :: 34 :: val ++ 34 :: more ++ rest)) by (destruct Hr1; by split).
  apply wp_bind. eapply readTagAttrVal_reads; [apply escaped_no_quote|exact Hr1'|]. set (v2 := with_val _ _).
  assert (Hr2 : reads v2 (more ++ rest)).
  { apply (reads_with_pend _ (with_pos (vpos v1 + 3 + len val) v1)), (reads_pos_to v1 (chr "=" :: 34 :: val ++ [34])); [cbn [app]; by rewrite <- app_assoc|].
    rewrite !len_cons, len_app. change (len [34]) with 1. lia. }
  assert (Hlk : 0 < len (Key a)) by (rewrite Ek, len_cons; pose proof (len_nonneg k); lia). apply wp_bind, wp_save_attr_some; [change (vpos v <> p); lia|].
  set (v3 := with_attr _ v2). assert (Hr3 : reads v3 (more ++ rest)) by (by apply reads_with_attr). destruct (skip_more l e rest v3 He Hl Hr3) as [Hr4 Hskip]. set (q := vpos v3 + _) in *.
  apply wp_bind, Hskip, wp_bind, wp_errored. rewrite (reads_err _ _ Hr4). apply (IH _ _ _ Hr4).
  - assert (Hmore : (length (attrs_text l e) <= length more)%nat) by (unfold more; destruct l as [|b l']; [apply Nat.le_refl|apply Nat.le_succ_diag_r]). clear -Hf Hmore. rewrite length_app in Hf. cbn [length] in Hf. rewrite length_app in Hf. cbn [length] in Hf. lia.
  - intros new pend Hsp. specialize (HQ ((mkSpan (vpos v) p, mkSpan (p + 2) (p + 2 + len val)) :: new) pend).
    assert (Hq : q = p + 3 + len val + match l with [] => 0 | _ => 1 end) by done.
    assert (Hlen : len more = len (attrs_text l e) + match l with [] => 0 | _ => 1 end) by (unfold more; destruct l as [|b l']; [symmetry; apply Z.add_0_r|apply len_cons]).
    assert (Hp3 : q + len (attrs_text l e) = vpos v + len (Key a ++ chr "=" :: 34 :: val ++ 34 :: more)) by (rewrite Hq, len_app, !len_cons, len_app, len_cons, Hlen; unfold p; lia).
    assert (Hw : with_attr (vattr (with_pos q v3) ++ new) (with_pend pend (with_pos (vpos (with_pos q v3) + len (attrs_text l e)) (with_pos q v3))) =
      with_attr (vattr v ++ (mkSpan (vpos v) p, mkSpan (p + 2) (p + 2 + len val)) :: new) (with_pend pend (with_pos (vpos v + len (Key a ++ chr "=" :: 34 :: val ++ 34 :: more)) v))).
    { rewrite <- Hp3. change (vattr (with_pos q v3)) with (vattr v ++ [(mkSpan (vpos v) p, mkSpan (p + 2) (p + 2 + len val))]). rewrite <- app_assoc. done. }
    rewrite Hw. apply HQ. pose proof (reads_from _ _ Hr) as Hfr. pose proof (f_equal len Hfr) as Hlf. rewrite len_from, !len_app, !len_cons, len_app, !len_cons, len_app in Hlf by lia.
    pose proof (len_nonneg val). pose proof (len_nonneg more). pose proof (len_nonneg rest). assert (Hp0 : 0 <= vpos v) by lia.
    pose proof (from_behind _ _ (Key a) _ Hp0 Hfr) as Hf1. assert (Hf2 : from (p + 2) (vtext v) = val ++ 34 :: more ++ rest) by (apply (from_behind p (vtext v) [chr "="; 34]); [unfold p; lia|exact Hf1]).
    cbn [spelled start end_ fst snd]. split; [unfold p; lia|]. split; [lia|]. split; [unfold p; lia|]. split; [by apply (sub_from _ _ _ _ Hp0 Hfr)|].
        split; [apply (sub_from (p + 2) (vtext v) val (34 :: more ++ rest)); [unfold p; lia|exact Hf2]|]. eapply spelled_mono; [|exact Hsp]. change (vpos (with_pos q v3)) with q. destruct l; lia.
Qed.

(** Decoding the attributes where they are. *)
Lemma sub_eq s t : 0 <= start s <= end_ s -> sub s t = upto (end_ s - start s) (from (start s) t).
Proof. intros H. unfold sub, from, upto. rewrite skipn_firstn_comm. f_equal. lia. Qed.

Lemma from_more {A} p q (t t' : list A) : 0 <= p <= q -> from p t' = from p t -> from q t' = from q t.
Proof.
  intros H E. unfold from in *. replace (Z.to_nat q) with (Z.to_nat p + (Z.to_nat q - Z.to_nat p))%nat by lia. rewrite <- !drop_drop. by rewrite E.
Qed.

Lemma spelled_ext t t' l : forall p attrs, 0 <= p -> from p t' = from p t -> len t' = len t -> spelled p t l attrs -> spelled p t' l attrs.
Proof.
  induction l as [|x l IH]; intros p [|a attrs] Hp E Hl; cbn [spelled]; try done. intros (H1 & H2 & H3 & H4 & H5 & H6). rewrite Hl.
  rewrite !sub_eq in * by lia. rewrite !(from_more p _ t t') by (done || lia). split_and!; try done; try lia. apply IH; [lia| |done|done]. apply (from_more p); [lia|done].
Qed.

Lemma put_sub s t : 0 <= start s <= end_ s -> end_ s <= len t -> put (start s) (sub s t) t = t.
Proof.
  intros H H'. assert (Hl : len (sub s t) = end_ s - start s) by (unfold sub; rewrite len_from; rewrite len_upto by lia; lia). unfold put. rewrite Hl. replace (start s + (end_ s - start s)) with (end_ s) by lia.
  unfold sub. assert (E : upto (start s) t = upto (start s) (upto (end_ s) t)) by (unfold upto; rewrite take_take; f_equal; lia). rewrite E, app_assoc, upto_from. apply upto_from.
Qed.

Lemma convertNewlines_id s : 13 ∉ s -> convertNewlines s = s.
Proof.
  induction s as [|c s IH]; [done|]. intros [Hc Hs]%not_elem_of_cons. cbn [convertNewlines]. rewrite (proj2 (Z.eqb_neq c 13)) by congruence. cbn [negb]. by rewrite IH.
Qed.

Lemma escaped_no c s : c ∈ escapedChars -> c <> chr "&" -> c ∉ s ≫= escaped1.
Proof.
  intros Hc Hne. rewrite list_elem_of_bind. intros (b & Hb & _). pose proof (escaped1_clean b) as H. rewrite Forall_forall in H. by destruct (H c Hb).
Qed.

Lemma convert_escaped s : convertNewlines (s ≫= escaped1) = s ≫= escaped1.
Proof. apply convertNewlines_id, escaped_no; [apply (bool_decide_eq_true_1 _); reflexivity|done]. Qed.

Lemma attr_list_spelled l : forall p t attrs, 0 <= p -> Forall attr_wf attrs -> spelled p t l attrs -> (attr_list l t).1 = attrs.
Proof.
  induction l as [|x l IH]; intros p t [|a attrs] Hp Hw; try done. intros (H1 & H2 & H3 & H4 & H5 & H6). apply Forall_cons in Hw as [(Hns & _ & _ & Hlow) Hw]. cbn [attr_list]. unfold attr_value.
  assert (Ep : put (start x.1) (Key a) t = t) by (rewrite <- H4; apply put_sub; lia). rewrite H4, Hlow, Ep, H5. destruct (newlines_unescape (Val a ≫= escaped1)) as (b & -> & Hb). rewrite convert_escaped, unescaped_escaped.
  assert (Hlb : len b = end_ x.2 - start x.2) by (rewrite Hb, <- H5; unfold sub; rewrite len_from; rewrite len_upto by lia; lia).
  destruct (attr_list l _) as [r t'] eqn:E. cbn [fst]. assert (Hr : r = attrs).
  { change r with ((r, t').1). rewrite <- E. apply (IH (end_ x.2)); [lia|done|]. apply (spelled_ext t); [lia|apply put_from; lia|apply put_len; lia|exact H6]. }
  rewrite Hr. f_equal. destruct a. cbn in *. by subst.
Qed.

(** * Start tags *)

(** Two facts on the same run. *)
Lemma wp_and {A} (m : M A) (P Q : A -> view -> Prop) v : wp m P v -> wp m Q v -> wp m (fun a w => P a w /\ Q a w) v.
Proof.
  intros HP HQ z z' Hz Hv. destruct (HP z z' Hz Hv) as (a & w & w' & E & E' & Hw & Ha). destruct (HQ z z' Hz Hv) as (b & u & u' & F & F' & Hu & Hb).
  exists a, w, w'. rewrite E in F. injection F as <- <-. done.
Qed.

Lemma sub_cons i n t c : at_ t i = Some c -> 0 <= n -> sub (mkSpan i (i + (n + 1))) t = c :: sub (mkSpan (i + 1) (i + 1 + n)) t.
Proof.
  intros Hc Hn. pose proof (at_lt _ _ _ Hc) as Hi. rewrite !sub_eq by (cbn; lia). cbn [start end_]. destruct (from_at _ _ _ Hc) as [-> _]. unfold upto.
  replace (Z.to_nat (i + (n + 1) - i)) with (S (Z.to_nat (i + 1 + n - (i + 1)))) by lia. done.
Qed.

Lemma tag_matches_value s i v : 0 <= start (vdata v) -> 0 <= i -> start (vdata v) + i + len s <= vpos v ->
  wp (tag_matches s i) (fun b w => w = v /\ ((b : bool) -> lower (sub (mkSpan (start (vdata v) + i) (start (vdata v) + i + len s)) (vtext v)) = s)) v.
Proof.
  intros Hd Hi Hle. apply wp_pos. intros Hv. revert i Hi Hle. induction s as [|x s IH]; intros i Hi Hle; cbn [tag_matches].
  { apply wp_ret. split; [done|]. intros _. rewrite (@len_nil Z), Z.add_0_r. rewrite sub_eq by (cbn; lia). cbn [start end_]. by rewrite Z.sub_diag. }
  rewrite len_cons in *. pose proof (len_nonneg s). destruct (at_Some (vtext v) (start (vdata v) + i) ltac:(lia)) as [c Ec]. apply wp_bind. eapply wp_data_byte; [lia|exact Ec|].
  destruct (Z.eqb_spec (lower_byte c) x) as [<-|]; cbn [negb]; [|by apply wp_ret]. eapply wp_mono; [apply IH; lia|]. cbv beta. intros b w [-> Hb]. split; [done|]. intros Ht. specialize (Hb Ht).
  rewrite (sub_cons _ _ _ _ Ec) by lia. unfold lower in *. cbn [fmap list_fmap]. f_equal. rewrite <- Hb at 2. do 3 f_equal; lia.
Qed.

Lemma startTagIn_value ss v : span_ok v (vdata v) -> wp (startTagIn ss) (fun b w => w = v /\ ((b : bool) -> lower (sub (vdata v) (vtext v)) ∈ ss)) v.
Proof.
  intros [H1 H2]. induction ss as [|s ss IH]; cbn [startTagIn]; [by apply wp_ret|]. apply wp_bind, (wp_gets _ (fun v => end_ (vdata v) - start (vdata v))); [intros z _; cbn; lia|].
  assert (Hrec : wp (startTagIn ss) (fun b w => w = v /\ ((b : bool) -> lower (sub (vdata v) (vtext v)) ∈ s :: ss)) v).
  { eapply wp_mono; [exact IH|]. cbv beta. intros b w [-> Hb]. split; [done|]. intros Ht. right. by apply Hb. }
  destruct (Z.eqb_spec (end_ (vdata v) - start (vdata v)) (len s)) as [E|_]; cbn [negb]; [|exact Hrec].
  apply wp_bind. eapply wp_mono; [apply tag_matches_value; lia|]. cbv beta. intros [] w [-> Hb]; [|exact Hrec]. apply wp_ret. split; [done|]. intros _. specialize (Hb I).
  rewrite Z.add_0_r in Hb. replace (mkSpan _ _) with (vdata v) in Hb by (destruct (vdata v); cbn in *; f_equal; lia). rewrite Hb. by left.
Qed.

(** The tag as it is printed, after the first letter of its name [c]. *)
Definition tag_text (k : bytes) (l : list Attribute) (e : bytes) : bytes := k ++ match l with [] => e | _ => 32 :: attrs_text l e end.

Definition tag_name_wf (n : bytes) : Prop := (exists c k, n = c :: k /\ is_letter c = true) /\ forallb name_byte n = true /\ lower n = n.

Lemma tag_name_head k l e : tag_end e -> forallb name_byte k = true -> exists c r, tag_text k l e = k ++ c :: r /\ name_byte c = false /\
  (l = [] -> is_space c = false /\ c :: r = e) /\ (l <> [] -> c = 32 /\ r = attrs_text l e).
Proof.
  intros He Hk. unfold tag_text. destruct l as [|a l]; [|exists 32, (attrs_text (a :: l) e); split_and!; done]. destruct He as [-> | ->].
  - exists (chr ">"), []. split; [done|]. split; [done|]. split; [by split|done].
  - exists (chr "/"), (str ">"). split; [done|]. split; [done|]. split; [by split|done].
Qed.

(** The view when the name of a tag has been read, and the space behind it. *)
Definition tag_named (k : bytes) (l : list Attribute) (v : view) : view :=
  with_data (mkSpan (vpos v - 1) (vpos v + len k)) (with_pos (vpos v + len k + (if l is [] then 0 else 1)) (with_ret 0 (with_attr [] v))).

Lemma readTag_named b k l e rest v (Q : unit -> view -> Prop) : forallb name_byte k = true -> tag_end e -> Forall attr_wf l -> 1 <= vpos v ->
  reads v (tag_text k l e ++ rest) ->
  (reads (tag_named k l v) (attrs_text l e ++ rest) -> wp (tag_loop (S (length (attrs_text l e ++ rest))) b) Q (tag_named k l v)) ->
  wp (readTag b) Q v.
Proof.
  intros Hk He Hl Hp Hr HQ. apply wp_bind, wp_set_no_attr, wp_bind, wp_set_ret, wp_bind. set (v0 := with_ret 0 (with_attr [] v)).
  destruct (tag_name_head k l e He Hk) as (x & r & Ex & Hx & Hnil & Hcons). rewrite Ex in Hr. rewrite <- app_assoc in Hr. cbn [app] in Hr. pose proof (len_nonneg k).
  apply wp_bind, wp_data_from, wp_bind, wp_loop_fuel. set (v1 := with_data _ v0). assert (Hr1 : reads v1 (k ++ x :: r ++ rest)) by (destruct Hr; by split).
  set (q := vpos v + len k + (if l is [] then 0 else 1)). set (v2 := tag_named k l v) in *.
  assert (Hr2 : reads v2 (attrs_text l e ++ rest)).
  { apply (reads_same (with_pos q v)); [done..|]. destruct l as [|a l].
    - destruct (Hnil eq_refl) as [_ Hxe]. apply (reads_pos_to v k); [|unfold q; lia]. cbn [attrs_text]. by rewrite <- Hxe.
    - destruct (Hcons ltac:(done)) as [-> Hre]. apply (reads_pos_to v (k ++ [32])); [|unfold q; rewrite len_app; change (len [32]) with 1; lia].
      rewrite <- app_assoc. cbn [app]. by rewrite <- Hre. }
  assert (Hskip : forall Q' : unit -> view -> Prop, Q' tt v2 -> wp skipWhiteSpace Q' v2).
  { intros Q' HQ'. destruct l as [|a l].
    - destruct (tag_end_head e He) as (y & u & -> & Hy). eapply (skip_none v2 y (u ++ rest)); done.
    - apply Forall_cons in Hl as [Ha _]. destruct (attrs_text_head a l e Ha) as (y & u & E & Hy & _). rewrite E in Hr2. eapply (skip_none v2 y (u ++ rest)); done. }
  assert (Hv2 : forall Q' : unit -> view -> Prop, Q' tt v2 -> wp (tag_name_loop (S (length (from (vpos v1) (vtext v1))))) Q' v1).
  { intros Q' HQ'. apply (name_loop_reads _ k x (r ++ rest)); [done|done| | | |done].
    - rewrite (reads_from _ _ Hr1), length_app. lia.
    - intros Hs. destruct l as [|a l]; [destruct (Hnil eq_refl) as [Hs' _]; congruence|]. exact HQ'.
    - intros Hs _. destruct l as [|a l]; [|destruct (Hcons ltac:(done)) as [-> _]; done]. unfold v2, tag_named in HQ'. rewrite Z.add_0_r in HQ'. exact HQ'. }
  apply Hv2, wp_bind, Hskip, wp_bind, wp_errored. rewrite (reads_err _ _ Hr2). apply wp_bind, wp_loop_fuel. rewrite (reads_from _ _ Hr2). by apply HQ.
Qed.

Lemma tag_named_end k l e v : tag_end e -> vpos (tag_named k l v) + len (attrs_text l e) = vpos v + len (tag_text k l e).
Proof. intros He. unfold tag_text, tag_named. cbn [vpos with_data with_pos]. rewrite len_app. destruct l; [cbn [attrs_text]; lia|rewrite len_cons; lia]. Qed.

Lemma readTag_reads k l e rest v (Q : unit -> view -> Prop) : forallb name_byte k = true -> tag_end e -> Forall attr_wf l -> 1 <= vpos v -> reads v (tag_text k l e ++ rest) ->
  (forall new pend, spelled (vpos v + len k) (vtext v) new l ->
    Q tt (with_attr new (with_pend pend (with_data (mkSpan (vpos v - 1) (vpos v + len k)) (with_pos (vpos v + len (tag_text k l e)) (with_ret 0 v)))))) ->
  wp (readTag true) Q v.
Proof.
  intros Hk He Hl Hp Hr HQ. eapply readTag_named; [exact Hk|exact He|exact Hl|exact Hp|exact Hr|]. intros Hr2.
  eapply (tag_loop_reads l e rest); [exact He|exact Hl|exact Hr2|rewrite length_app; lia|]. intros new pend Hsp. rewrite (tag_named_end k l e v He). apply HQ.
  eapply spelled_mono; [|exact Hsp]. unfold tag_named. cbn. destruct l; lia.
Qed.

Lemma readTag_end_reads k rest v (Q : unit -> view -> Prop) : forallb name_byte k = true -> 1 <= vpos v -> reads v (k ++ chr ">" :: rest) ->
  Q tt (with_attr [] (with_data (mkSpan (vpos v - 1) (vpos v + len k)) (with_pos (vpos v + len k + 1) (with_ret 0 v)))) -> wp (readTag false) Q v.
Proof.
  intros Hk Hp Hr HQ. eapply (readTag_named false k [] (str ">") rest); [exact Hk|by left|constructor|exact Hp|unfold tag_text; rewrite <- app_assoc; exact Hr|]. intros Hr2.
  cbn [tag_loop]. apply (wp_read_cons _ _ _ _ _ _ Hr2); cbv beta. rewrite Z.eqb_refl. apply wp_ret. unfold tag_named, adv. cbn [vpos with_data with_pos]. rewrite Z.add_0_r. exact HQ.
Qed.

(** * Tokens *)

(** The view where [Next] starts on a token. *)
Definition token_start (v : view) : view := with_nul false (with_raw false (with_data (mkSpan 0 0) (next_start v))).

Lemma token_start_reads v s : reads v s -> reads (token_start v) s /\ vtext (token_start v) = s.
Proof. intros [H1 H2 H3 H4]. split; [|exact H4]. split; try done. Qed.

(** [Next] on a text that is known: what its loop does decides. *)
Lemma Next_reads v s (Q : TokenType -> view -> Prop) : reads v s -> vtag v = [] ->
  wp (next_loop (S (length s))) (fun o w => match o with Some t => Q t w | None =>
    if 0 <? vpos w then Q TextToken (with_tt TextToken (with_data (mkSpan (start (vdata w)) (vpos w)) w)) else Q ErrorToken (with_tt ErrorToken w) end) (token_start v) -> wp Next Q v.
Proof.
  intros Hr Htag HQ. destruct (token_start_reads v s Hr) as [Hr0 Ht0]. apply wp_bind, wp_next_start, wp_bind, wp_data_from, wp_bind, wp_data_to.
  set (v1 := with_data _ _). assert (E1 : v1 = with_data (mkSpan 0 0) (next_start v)) by done.
  apply wp_bind, wp_errored. assert (Ee : verr v1 = None) by apply (reads_err _ _ Hr). rewrite Ee. apply wp_bind, wp_bind, (wp_gets _ vtag); [done|].
  assert (Et : vtag v1 = []) by exact Htag. rewrite Et, bool_decide_true by done. apply wp_ret, wp_bind, wp_set_textIsRaw, wp_bind, wp_set_nul, wp_bind, wp_loop_fuel.
  change (with_nul false (with_raw false v1)) with (token_start v). rewrite (reads_from _ _ Hr0). apply wp_bind. eapply wp_mono; [exact HQ|]. cbv beta. intros [t|] w Hw; [by apply wp_ret|].
  apply wp_bind, (wp_gets _ (fun v => 0 <? vpos v)); [intros z _; cbn; z_cases; lia|]. destruct (0 <? vpos w).
  - apply wp_bind, wp_data_to, wp_bind, wp_set_tt, wp_ret. rewrite Z.sub_0_r. exact Hw.
  - by apply wp_bind, wp_set_tt, wp_ret.
Qed.

(** A tag, comment or declaration at the start of the token. *)
Lemma next_loop_markup fuel c s v (Q : option TokenType -> view -> Prop) : reads v (chr "<" :: c :: s) -> vpos v = 0 -> is_letter c || (c =? chr "/") || (c =? chr "!") || (c =? chr "?") = true ->
  wp (markup c) Q (adv (adv v)) -> wp (next_loop (S fuel)) Q v.
Proof.
  intros Hr Hp Hc HQ. cbn [next_loop]. apply (wp_read_cons _ _ _ _ _ _ Hr); cbv beta. destruct (reads_cons _ _ _ Hr) as [_ Hr1]. rewrite Z.eqb_refl. cbn [negb].
  apply (wp_read_cons _ _ _ _ _ _ Hr1); cbv beta. rewrite Hc. cbn [negb]. apply wp_bind, (wp_gets _ (fun v => 0 <? vpos v - len (str "<a"))); [intros z _; cbn [vpos view_of]; z_cases; lia|].
  change (len (str "<a")) with 2. unfold adv at 1 2. cbn [vpos with_pos]. rewrite Hp. exact HQ.
Qed.

(** What [Next] leaves of a token that was printed in front of [rest]. *)
Record gives (t : Token) (v : view) (rest : bytes) (w : view) : Prop := {
  gives_tt : vtt w = Type_ t;
  gives_max : vmax w = 0;
  gives_tag : vtag w = [];
  gives_ending : vending w = vending v;
  gives_rest : from (vpos w) (vtext w) = rest;
  gives_err : verr w = None \/ verr w = Some (vending w) /\ rest = [];
  gives_nul : vnul w = false;
  gives_raw : vraw w = false;
  gives_data : is_text (Type_ t) = true -> text_value (bool_decide (Type_ t = CommentToken)) false (sub (vdata w) (vtext w)) = Data t;
  gives_name : is_text (Type_ t) = false -> 0 <= start (vdata w) < end_ (vdata w) /\ end_ (vdata w) <= len (vtext w) /\ sub (vdata w) (vtext w) = Data t /\
    vret w = 0 /\ spelled (end_ (vdata w)) (vtext w) (vattr w) (Attr t) }.

Lemma attrs_text_end l e : l <> [] -> exists p, attrs_text l e = p ++ 34 :: e.
Proof.
  induction l as [|a l IH]; [done|]. intros _. cbn [attrs_text]. destruct l as [|a' l].
  - exists (Key a ++ chr "=" :: 34 :: (Val a ≫= escaped1)). by rewrite <- app_assoc.
  - destruct IH as [p ->]; [done|]. exists (Key a ++ chr "=" :: 34 :: (Val a ≫= escaped1) ++ 34 :: 32 :: p). rewrite <- !app_assoc. cbn [app]. by rewrite <- !app_assoc.
Qed.

(** The byte before the last one tells the kind of the tag. *)
Lemma tag_text_last c k l e : forallb name_byte (c :: k) = true -> tag_end e ->
  exists p x, c :: tag_text k l e = p ++ [x; chr ">"] /\ (x =? chr "/") = bool_decide (e = str "/>").
Proof.
  intros Hk [-> | ->].
  - destruct l as [|a l].
    + destruct (@exists_last _ (c :: k) ltac:(done)) as (p & x & E). exists p, x. split; [unfold tag_text; change (c :: k ++ str ">") with ((c :: k) ++ str ">"); rewrite E; by rewrite <- app_assoc|].
      rewrite forallb_forall in Hk. specialize (Hk x). rewrite E in Hk. specialize (Hk ltac:(apply in_or_app; right; by left)). unfold name_byte in Hk.
      destruct (x =? chr "/"); [rewrite orb_true_r in Hk; done|]. by rewrite bool_decide_false.
    + destruct (attrs_text_end (a :: l) (str ">") ltac:(done)) as [p E]. exists (c :: k ++ 32 :: p), 34. split; [unfold tag_text; rewrite E; cbn [app]; by rewrite <- app_assoc|]. by rewrite bool_decide_false.
  - assert (H : exists p, tag_text k l (str "/>") = p ++ str "/>").
    { destruct l as [|a l]; [by exists k|]. destruct (attrs_text_end (a :: l) (str "/>") ltac:(done)) as [p E]. exists (k ++ 32 :: p ++ [34]). unfold tag_text. rewrite E. rewrite <- !app_assoc. cbn [app]. by rewrite <- !app_assoc. }
    destruct H as [p ->]. exists (c :: p), (chr "/"). split; [done|]. by rewrite bool_decide_true.
Qed.

Lemma at_app_last (p : bytes) x y r : at_ (p ++ [x; y] ++ r) (len p + 2 - 2) = Some x.
Proof. pose proof (len_nonneg p). unfold at_. rewrite decide_True by lia. rewrite lookup_app_r by (unfold len in *; lia). unfold len. by replace (Z.to_nat (Z.of_nat (length p) + 2 - 2) - length p)%nat with 0%nat by lia. Qed.

Definition is_start (t : TokenType) (e : bytes) : Prop := t = StartTagToken /\ e = str ">" \/ t = SelfClosingTagToken /\ e = str "/>".

Lemma is_start_end t e : is_start t e -> tag_end e /\ t = (if bool_decide (e = str "/>") then SelfClosingTagToken else StartTagToken) /\ is_text t = false.
Proof. intros [[-> ->]|[-> ->]]; [split; [by left|]; by rewrite bool_decide_false|split; [by right|]; by rewrite bool_decide_true]. Qed.

(** * Start tags and end tags *)

(** The view [w] after a tag that was read from [v] on: its name is [n] bytes
    long, the first one behind [v]. *)
Record tag_read (n size : Z) (l : list Attribute) (v w : view) : Prop := {
  tr_text : vtext w = vtext v;
  tr_ending : vending w = vending v;
  tr_err : verr w = None;
  tr_max : vmax w = 0;
  tr_tag : vtag w = vtag v;
  tr_raw : vraw w = vraw v;
  tr_nul : vnul w = vnul v;
  tr_pos : vpos w = vpos v + size;
  tr_data : vdata w = mkSpan (vpos v - 1) (vpos v - 1 + n);
  tr_ret : vret w = 0;
  tr_attr : spelled (vpos v - 1 + n) (vtext w) (vattr w) l }.

Lemma readTag_start k l e rest v : forallb name_byte k = true -> tag_end e -> Forall attr_wf l -> 1 <= vpos v -> reads v (tag_text k l e ++ rest) ->
  wp (readTag true) (fun _ w => tag_read (len k + 1) (len (tag_text k l e)) l v w) v.
Proof.
  intros Hk He Hl Hp Hr. eapply readTag_reads; [exact Hk|exact He|exact Hl|exact Hp|exact Hr|]. intros new pend Hsp. replace (vpos v + len k) with (vpos v - 1 + (len k + 1)) in * by lia.
  split; cbn [vtext vending verr vmax vtag vraw vnul vpos vdata vret vattr with_attr with_pend with_data with_pos with_ret]; try reflexivity; [apply Hr|apply Hr|exact Hsp].
Qed.

Lemma readTag_close k rest v : forallb name_byte k = true -> 1 <= vpos v -> reads v (k ++ chr ">" :: rest) -> wp (readTag false) (fun _ w => tag_read (len k + 1) (len k + 1) [] v w) v.
Proof.
  intros Hk Hp Hr. eapply readTag_end_reads; [exact Hk|exact Hp|exact Hr|]. replace (vpos v + len k) with (vpos v - 1 + (len k + 1)) by lia.
  split; cbn [vtext vending verr vmax vtag vraw vnul vpos vdata vret vattr with_attr with_data with_pos with_ret]; try reflexivity; [apply Hr|apply Hr|lia].
Qed.

(** No element whose content is raw text starts. *)
Lemma raw_start_tag c v : span_ok v (vdata v) -> lower (sub (vdata v) (vtext v)) ∉ fragment_tags ->
  wp (if c =? chr "i" then startTagIn [str "iframe"]
      else if c =? chr "n" then startTagIn [str "noembed"; str "noframes"; str "noscript"]
      else if c =? chr "p" then startTagIn [str "plaintext"]
      else if c =? chr "s" then startTagIn [str "script"; str "style"]
      else if c =? chr "t" then startTagIn [str "textarea"; str "title"]
      else if c =? chr "x" then startTagIn [str "xmp"]
      else mret false) (fun b w => w = v /\ b = false) v.
Proof.
  intros Hs Hraw.
  assert (Hin : forall ss, forallb (fun s => bool_decide (s ∈ fragment_tags)) ss = true -> wp (startTagIn ss) (fun b u => u = v /\ b = false) v).
  { intros ss Hss. eapply wp_mono; [by apply startTagIn_value|]. cbv beta. intros b u [-> Hb]. split; [done|]. destruct b; [|done]. specialize (Hb I). rewrite forallb_forall in Hss.
    apply list_elem_of_In, Hss, bool_decide_eq_true_1 in Hb. by destruct Hraw. }
  repeat match goal with |- wp (if ?b then _ else _) _ _ => destruct b; [apply Hin; reflexivity|] end. by apply wp_ret.
Qed.

Lemma readStartTag_value c k l e rest v : tag_name_wf (c :: k) -> c :: k ∉ fragment_tags -> tag_end e -> Forall attr_wf l -> vpos v = 2 -> vtext v = chr "<" :: c :: tag_text k l e ++ rest ->
  reads v (tag_text k l e ++ rest) ->
  wp readStartTag (fun ty w => ty = (if bool_decide (e = str "/>") then SelfClosingTagToken else StartTagToken) /\ tag_read (len k + 1) (len (tag_text k l e)) l v w) v.
Proof.
  intros (_ & Hn & Hlow) Hraw He Hl Hp Ht Hr. pose proof (len_nonneg k). pose proof (len_nonneg (tag_text k l e)). pose proof (len_nonneg rest).
  assert (Hk : forallb name_byte k = true) by (cbn [forallb] in Hn; by apply andb_true_iff in Hn as [_ ?]).
  apply wp_bind. eapply wp_mono; [eapply (readTag_start k l e rest); [exact Hk|exact He|exact Hl|lia|exact Hr]|]. cbv beta. intros _ w Hw. apply wp_bind, wp_errored. rewrite (tr_err _ _ _ _ _ Hw).
  assert (Hlk : len k <= len (tag_text k l e)) by (unfold tag_text; rewrite len_app; pose proof (len_nonneg (match l with [] => e | _ => 32 :: attrs_text l e end)); lia).
  assert (Htw : vtext w = chr "<" :: (c :: k) ++ match l with [] => e | _ => 32 :: attrs_text l e end ++ rest) by (rewrite (tr_text _ _ _ _ _ Hw), Ht; unfold tag_text; cbn [app]; by rewrite <- app_assoc).
  assert (Hlw : len (vtext w) = 2 + len (tag_text k l e) + len rest) by (rewrite (tr_text _ _ _ _ _ Hw), Ht, !len_cons, len_app; lia).
  assert (Hd : vdata w = mkSpan 1 (1 + len (c :: k))) by (rewrite (tr_data _ _ _ _ _ Hw), Hp, len_cons; f_equal; lia).
  assert (Hsub : sub (vdata w) (vtext w) = c :: k) by (rewrite Hd, Htw; apply (sub_from 1 _ (c :: k) (match l with [] => e | _ => 32 :: attrs_text l e end ++ rest)); [lia|reflexivity]).
  assert (Hpw : vpos w = 2 + len (tag_text k l e)) by (rewrite (tr_pos _ _ _ _ _ Hw), Hp; lia). rewrite len_cons in Hd.
  destruct (at_Some (vtext w) (start (vdata w) + 0)) as [c0 Ec0]; [rewrite Hd; cbn [start]; lia|]. apply wp_bind. eapply wp_data_byte; [rewrite Hd; cbn [start]; lia|exact Ec0|].
  apply wp_bind. eapply wp_mono; [apply raw_start_tag; [rewrite Hd; unfold span_ok; cbn [start end_]; lia|by rewrite Hsub, Hlow]|]. cbv beta. intros b u [-> ->]. apply wp_bind, wp_ret.
  destruct (tag_text_last c k l e Hn He) as (p & x & Ep & Hx). assert (Hlp : len (tag_text k l e) = len p + 1) by (apply (f_equal len) in Ep; rewrite len_cons, len_app in Ep; change (len [x; chr ">"]) with 2 in Ep; lia).
  apply wp_bind. eapply (wp_byte_back 2 x); [lia| |by apply wp_ret; rewrite Hx].
  rewrite Hpw, Hlp, (tr_text _ _ _ _ _ Hw), Ht. change (c :: tag_text k l e ++ rest) with ((c :: tag_text k l e) ++ rest). rewrite Ep, <- app_assoc. change (chr "<" :: p ++ [x; chr ">"] ++ rest) with ((chr "<" :: p) ++ [x; chr ">"] ++ rest).
  replace (2 + (len p + 1) - 2) with (len (chr "<" :: p) + 2 - 2) by (rewrite len_cons; lia). apply at_app_last.
Qed.

(** A tag is what was printed. *)
Lemma gives_read_tag t n s rest v v2 w size : is_text (Type_ t) = false -> Data t <> [] -> len (Data t) = n -> vtext v2 = s ++ rest -> vpos v2 + size = len s -> 1 <= vpos v2 -> vtag v2 = [] -> vending v2 = vending v ->
  vnul v2 = false -> vraw v2 = false -> n <= size + 1 -> from (vpos v2 - 1) (vtext v2) = Data t ++ from (vpos v2 - 1 + n) (vtext v2) ->
  tag_read n size (Attr t) v2 w -> gives t v rest (with_tt (Type_ t) w).
Proof.
  intros Htext Hne Hn Ht Hs Hp Htag Hend Hnul Hraw Hns Hname [H1 H2 H3 H4 H5 H6 H7 H8 H9 H10 H11]. pose proof (len_nonneg rest). assert (Hn0 : 0 < n) by (destruct (Data t) as [|b d]; [done|]; subst n; rewrite len_cons; pose proof (len_nonneg d); lia).
  split; cbn [vtt vmax vtag vending vpos vtext verr vnul vraw vdata vret vattr with_tt]; try congruence; [|by left|].
  - rewrite H8, H1, Ht, Hs. by apply from_app_len.
  - intros _. rewrite H9. cbn [start end_]. split; [lia|]. split; [rewrite H1, Ht, len_app; lia|]. split; [|split; [done|exact H11]]. subst n. rewrite H1. by apply (sub_from _ _ _ (from (vpos v2 - 1 + len (Data t)) (vtext v2))); [lia|].
Qed.

Lemma from_name (x name r : bytes) : from (len x) (x ++ name ++ r) = name ++ from (len x + len name) (x ++ name ++ r).
Proof. rewrite (from_app_len _ x _ eq_refl). f_equal. rewrite app_assoc. symmetry. apply from_app_len. by rewrite len_app. Qed.

(** At byte [p] of a token [s] in plain text, with the reader's error [e]. *)
Definition inside (p : Z) (s : bytes) (e : error) (v : view) : Prop :=
  vtag v = [] /\ vending v = e /\ vnul v = false /\ vraw v = false /\ vpos v = p /\ vtext v = s /\ vdata v = mkSpan 0 0.

Lemma inside_start v s : reads v s -> vtag v = [] -> inside 0 s (vending v) (token_start v).
Proof. intros Hr Htag. destruct (token_start_reads _ _ Hr) as [_ Ht]. split; [exact Htag|]. by split_and!. Qed.

Lemma inside_adv p s e v : inside p s e v -> inside (p + 1) s e (adv v).
Proof. intros (H1 & H2 & H3 & H4 & H5 & H6 & H7). split; [exact H1|]. split; [exact H2|]. split; [exact H3|]. split; [exact H4|]. split; [cbn; by rewrite H5|]. by split. Qed.

Lemma Next_start_tag t e c k rest v : is_start (Type_ t) e -> Data t = c :: k -> tag_name_wf (Data t) -> is_letter c = true -> Data t ∉ fragment_tags -> Forall attr_wf (Attr t) ->
  reads v (chr "<" :: c :: tag_text k (Attr t) e ++ rest) -> vtag v = [] -> wp Next (fun ty w => ty = Type_ t /\ gives t v rest w) v.
Proof.
  intros Hst En Hn Hc Hraw Hl Hr Htag. destruct (is_start_end _ _ Hst) as (He & Ety & Htext). eapply Next_reads; [exact Hr|exact Htag|]. destruct (token_start_reads _ _ Hr) as [Hr0 Ht0].
  eapply next_loop_markup; [exact Hr0|reflexivity|by rewrite Hc|]. destruct (reads_cons _ _ _ Hr0) as [_ Hr1]. destruct (reads_cons _ _ _ Hr1) as [_ Hr2].
  pose proof (inside_adv _ _ _ _ (inside_adv _ _ _ _ (inside_start v _ Hr Htag))) as Hv2. set (v2 := adv (adv (token_start v))) in *. clearbody v2. clear Hr0 Hr1 Ht0. destruct Hv2 as (H1 & H2 & H3 & H4 & H5 & H6 & _).
  unfold markup. rewrite Hc. apply wp_bind. rewrite En in Hn, Hraw. eapply wp_mono; [exact (readStartTag_value c k (Attr t) e rest v2 Hn Hraw He Hl H5 H6 Hr2)|]. cbv beta. intros ty w [-> Hw]. rewrite <- Ety.
  apply ret_token_ok. split; [reflexivity|]. pose proof (len_nonneg k). apply (gives_read_tag t (len k + 1) (chr "<" :: c :: tag_text k (Attr t) e) rest v v2 w (len (tag_text k (Attr t) e))); try done; try lia.
  - by rewrite En.
  - by rewrite En, len_cons.
  - rewrite H5, !len_cons. lia.
  - unfold tag_text. rewrite len_app. pose proof (len_nonneg (match Attr t with [] => e | _ => 32 :: attrs_text (Attr t) e end)). lia.
  - rewrite En, H5, H6. unfold tag_text. rewrite <- app_assoc. replace (len k + 1) with (len (c :: k)) by apply len_cons. apply (from_name [chr "<"] (c :: k)).
Qed.

Lemma Next_end_tag t c k rest v : Type_ t = EndTagToken -> Data t = c :: k -> tag_name_wf (Data t) -> is_letter c = true -> Attr t = [] ->
  reads v (chr "<" :: chr "/" :: c :: k ++ chr ">" :: rest) -> vtag v = [] -> wp Next (fun ty w => ty = Type_ t /\ gives t v rest w) v.
Proof.
  intros Hty En (_ & Hn & _) Hc Hl Hr Htag. eapply Next_reads; [exact Hr|exact Htag|]. destruct (token_start_reads _ _ Hr) as [Hr0 Ht0].
  eapply next_loop_markup; [exact Hr0|reflexivity|reflexivity|]. destruct (reads_cons _ _ _ Hr0) as [_ Hr1]. destruct (reads_cons _ _ _ Hr1) as [_ Hr2]. unfold markup. change (is_letter (chr "/")) with false. cbn iota.
  rewrite Z.eqb_refl. apply (wp_read_cons _ _ _ _ _ _ Hr2); cbv beta. destruct (reads_cons _ _ _ Hr2) as [_ Hr3].
  pose proof (inside_adv _ _ _ _ (inside_adv _ _ _ _ (inside_adv _ _ _ _ (inside_start v _ Hr Htag)))) as Hv3. set (v3 := adv (adv (adv (token_start v)))) in *. clearbody v3. clear Hr0 Hr1 Hr2 Ht0. destruct Hv3 as (H1 & H2 & H3 & H4 & H5 & H6 & _). rewrite En in Hn.
  assert (Hk : forallb name_byte (c :: k) = true -> (c =? chr ">") = false /\ forallb name_byte k = true).
  { cbn [forallb]. intros [Hb Hk]%andb_true_iff. split; [|done]. unfold name_byte in Hb. apply negb_true_iff, orb_false_iff in Hb as [_ Hb]. exact Hb. }
  destruct (Hk Hn) as [-> Hk']. rewrite Hc. apply wp_bind. eapply wp_mono; [exact (readTag_close k rest v3 Hk' ltac:(lia) Hr3)|]. cbv beta. intros _ w Hw. apply wp_bind, wp_errored. rewrite (tr_err _ _ _ _ _ Hw).
  rewrite <- Hty. apply ret_token_ok. split; [reflexivity|]. pose proof (len_nonneg k). rewrite <- Hl in Hw. apply (gives_read_tag t (len k + 1) (chr "<" :: chr "/" :: c :: k ++ [chr ">"]) rest v v3 w (len k + 1)); try done; try lia.
  - by rewrite Hty.
  - by rewrite En.
  - by rewrite En, len_cons.
  - rewrite H6. cbn [app]. by rewrite <- app_assoc.
  - rewrite H5, !len_cons, len_app. change (len [chr ">"]) with 1. lia.
  - rewrite En, H5, H6. replace (len k + 1) with (len (c :: k)) by apply len_cons. apply (from_name [chr "<"; chr "/"] (c :: k)).
Qed.

(** * Comments, document types and text *)

Definition comment_wf (s : bytes) : Prop := Forall (fun c => c <> 0 /\ c <> 13 /\ c <> chr "&" /\ c <> chr ">" /\ c <> chr "!") s.

Lemma comment_loop_reads s rest : comment_wf s -> forall v fuel n (Q : unit -> view -> Prop), reads v (s ++ str "-->" ++ rest) -> 0 <= n -> (length s + 3 <= fuel)%nat ->
  Q tt (with_data (mkSpan (start (vdata v)) (vpos v + len s)) (with_pos (vpos v + len s + 3) v)) -> wp (comment_loop fuel n) Q v.
Proof.
  induction 1 as [|c s (_ & _ & _ & Hgt & Hex) Hs IH]; intros v fuel n Q Hr Hn Hf HQ.
  - rewrite (@len_nil Z), Z.add_0_r in HQ. destruct fuel as [|[|[|fuel]]]; cbn [length] in Hf; try lia. change ([] ++ str "-->" ++ rest) with (chr "-" :: chr "-" :: chr ">" :: rest) in Hr.
    destruct (reads_cons _ _ _ Hr) as [_ Hr1]. destruct (reads_cons _ _ _ Hr1) as [_ Hr2]. cbn [comment_loop].
    apply (wp_read_cons _ _ _ _ _ _ Hr); cbv beta. rewrite Z.eqb_refl. apply (wp_read_cons _ _ _ _ _ _ Hr1); cbv beta. rewrite Z.eqb_refl. apply (wp_read_cons _ _ _ _ _ _ Hr2); cbv beta.
    change (chr ">" =? chr "-") with false. rewrite Z.eqb_refl, (proj2 (Z.leb_le _ _)) by lia. cbn [andb]. apply wp_data_to. change (len (str "-->")) with 3. cbn [vpos vdata adv with_pos].
    replace (vpos v + 1 + 1 + 1 - 3) with (vpos v) by lia.
    change (adv (adv (adv v))) with (with_pos (vpos v + 1 + 1 + 1) v). replace (vpos v + 1 + 1 + 1) with (vpos v + 3) by lia. exact HQ.
  - destruct fuel as [|fuel]; cbn [length] in Hf; [lia|]. cbn [app] in Hr. destruct (reads_cons _ _ _ Hr) as [_ Hr1]. cbn [comment_loop]. apply (wp_read_cons _ _ _ _ _ _ Hr); cbv beta.
    rewrite (proj2 (Z.eqb_neq c (chr ">"))), (proj2 (Z.eqb_neq c (chr "!"))) by done. cbn [andb]. rewrite len_cons in HQ.
    assert (Hrec : forall m, 0 <= m -> wp (comment_loop fuel m) Q (adv v)).
    { intros m Hm. apply IH; [exact Hr1|done|lia|]. cbn [vpos vdata adv with_pos start]. replace (vpos v + 1 + len s) with (vpos v + (len s + 1)) by lia. exact HQ. }
    destruct (c =? chr "-"); apply Hrec; lia.
Qed.

Lemma close_angle_reads s rest : Forall (fun c => c <> chr ">") s -> forall v fuel (Q : unit -> view -> Prop), reads v (s ++ chr ">" :: rest) -> (length s < fuel)%nat ->
  Q tt (with_data (mkSpan (start (vdata v)) (vpos v + len s)) (with_pos (vpos v + len s + 1) v)) -> wp (close_angle_loop fuel) Q v.
Proof.
  induction 1 as [|c s Hgt Hs IH]; intros v [|fuel] Q Hr Hf HQ; cbn [length] in Hf; try lia; cbn [close_angle_loop app] in *; apply (wp_read_cons _ _ _ _ _ _ Hr); cbv beta.
  - rewrite (@len_nil Z), Z.add_0_r in HQ. rewrite Z.eqb_refl. apply wp_data_to. change (len (str ">")) with 1. cbn [vpos vdata adv with_pos]. replace (vpos v + 1 - 1) with (vpos v) by lia. exact HQ.
  - destruct (reads_cons _ _ _ Hr) as [_ Hr1]. rewrite (proj2 (Z.eqb_neq c (chr ">"))) by done. rewrite len_cons in HQ. apply IH; [exact Hr1|lia|].
    cbn [vpos vdata adv with_pos start]. replace (vpos v + 1 + len s) with (vpos v + (len s + 1)) by lia. exact HQ.
Qed.

Lemma readUntilCloseAngle_reads s rest v (Q : unit -> view -> Prop) : Forall (fun c => c <> chr ">") s -> reads v (s ++ chr ">" :: rest) ->
  Q tt (with_data (mkSpan (vpos v) (vpos v + len s)) (with_pos (vpos v + len s + 1) v)) -> wp readUntilCloseAngle Q v.
Proof.
  intros Hs Hr HQ. apply wp_bind, wp_data_from, wp_bind, wp_loop_fuel. rewrite Z.sub_0_r. set (v1 := with_data _ v). assert (Hr1 : reads v1 (s ++ chr ">" :: rest)) by (by apply reads_with_data).
  rewrite (reads_from _ _ Hr1). apply (close_angle_reads s rest Hs); [exact Hr1|rewrite length_app; cbn; lia|exact HQ].
Qed.

Lemma expect_loop_reads ok s rest : forall v (Q : bool -> view -> Prop), forallb (fun x => ok x x) s = true -> reads v (s ++ rest) -> Q true (with_pos (vpos v + len s) v) -> wp (expect_loop ok s) Q v.
Proof.
  induction s as [|x s IH]; intros v Q Hok Hr HQ; cbn [expect_loop forallb app] in *.
  - apply wp_ret. by rewrite (@len_nil Z), Z.add_0_r, with_pos_self in HQ.
  - apply andb_true_iff in Hok as [Hx Hok]. apply (wp_read_cons _ _ _ _ _ _ Hr); cbv beta. destruct (reads_cons _ _ _ Hr) as [_ Hr1]. rewrite Hx. cbn [negb]. apply IH; [done|done|].
    cbn [vpos adv with_pos]. rewrite len_cons in HQ. replace (vpos v + 1 + len s) with (vpos v + (len s + 1)) by lia. exact HQ.
Qed.

(** [v] is at the byte [p] of the text [s], and what the loops set is set. *)
Lemma inside_reads p s e v t : inside p s e v -> verr v = None -> vmax v = 0 -> 0 <= p -> from p s = t -> reads v t.
Proof. intros (_ & _ & _ & _ & Hp & Ht & _) He Hm Hp0 Hf. split; [done|done|lia|by rewrite Hp, Ht]. Qed.

(** A token with text [d], between [x] and [y], is what was printed. *)
Lemma gives_read_text t v x d y rest u p : is_text (Type_ t) = true -> text_value (bool_decide (Type_ t = CommentToken)) false d = Data t ->
  inside p (x ++ d ++ y ++ rest) (vending v) u -> vmax u = 0 -> verr u = None \/ verr u = Some (vending v) /\ rest = [] ->
  gives t v rest (with_tt (Type_ t) (with_data (mkSpan (len x) (len x + len d)) (with_pos (len x + len d + len y) u))).
Proof.
  intros Htext Hd (H1 & H2 & H3 & H4 & H5 & H6 & _) Hm He.
  split; cbn [vtt vmax vtag vending vpos vtext verr vnul vraw vdata vret vattr with_tt with_data with_pos]; try congruence.
  - rewrite H6, !app_assoc. apply from_app_len. by rewrite !len_app.
  - intros _. rewrite H6. rewrite (sub_from (len x) _ d (y ++ rest)); [exact Hd|apply len_nonneg|by apply from_app_len].
Qed.

Lemma text_value_plain (replace : bool) d : (replace = true -> 0 ∉ d) -> 13 ∉ d -> chr "&" ∉ d -> text_value replace false d = d.
Proof.
  intros H0 H13 Ha. unfold text_value. rewrite convertNewlines_id by done. assert (E : replace && bool_decide (0 ∈ d) = false) by (destruct replace; [cbn [andb]; apply bool_decide_eq_false_2, H0; reflexivity|done]).
  rewrite E. rewrite <- (app_nil_r d) at 1. rewrite unescaped_prefix by done. change (unescaped false []) with (@nil Z). apply app_nil_r.
Qed.

Lemma not_in_Forall (P : Z -> Prop) c s : Forall P s -> ~ P c -> c ∉ s.
Proof. rewrite Forall_forall. intros H Hc Hin. by apply Hc, H. Qed.

Lemma wp_data_order (Q : unit -> view -> Prop) v : start (vdata v) <= end_ (vdata v) -> Q tt v -> wp (modify (fun z => if end_ (data z) <? start (data z) then set_data_end (start (data z)) z else z)) Q v.
Proof.
  intros Ho HQ. apply (wp_modify _ (fun w => w)); [|exact HQ]. intros z Hz <-. cbn in Ho. rewrite (proj2 (Z.ltb_ge _ _)) by lia. by split.
Qed.

Lemma readComment_reads s rest v (Q : unit -> view -> Prop) : comment_wf s -> reads v (s ++ str "-->" ++ rest) ->
  Q tt (with_data (mkSpan (vpos v) (vpos v + len s)) (with_pos (vpos v + len s + 3) v)) -> wp readComment Q v.
Proof.
  intros Hwf Hr HQ. apply wp_bind, wp_data_from, wp_bind, wp_loop_fuel, wp_bind. rewrite Z.sub_0_r. set (v1 := with_data _ v). assert (Hr1 : reads v1 (s ++ str "-->" ++ rest)) by (by apply reads_with_data).
  rewrite (reads_from _ _ Hr1). apply (comment_loop_reads _ rest Hwf _ _ _ _ Hr1); [lia|rewrite !length_app; change (length (str "-->")) with 3%nat; lia|].
  pose proof (len_nonneg s). apply wp_data_order; [cbn; lia|exact HQ].
Qed.

Lemma readMarkup_comment s rest v (Q : TokenType -> view -> Prop) : comment_wf s -> reads v (str "--" ++ s ++ str "-->" ++ rest) ->
  Q CommentToken (with_data (mkSpan (vpos v + 2) (vpos v + 2 + len s)) (with_pos (vpos v + 2 + len s + 3) v)) -> wp readMarkupDeclaration Q v.
Proof.
  intros Hwf Hr HQ. apply wp_bind, wp_data_from. set (v1 := with_data _ v). assert (Hr1 : reads v1 (chr "-" :: chr "-" :: s ++ str "-->" ++ rest)) by (apply reads_with_data; exact Hr).
  destruct (reads_cons _ _ _ Hr1) as [_ Hr2]. destruct (reads_cons _ _ _ Hr2) as [_ Hr3]. apply (wp_read_cons _ _ _ _ _ _ Hr1); cbv beta. apply (wp_read_cons _ _ _ _ _ _ Hr2); cbv beta.
  rewrite Z.eqb_refl. cbn [andb]. apply wp_bind. apply (readComment_reads s rest); [exact Hwf|exact Hr3|]. apply wp_ret. change (vpos (adv (adv v1))) with (vpos v + 1 + 1). replace (vpos v + 1 + 1) with (vpos v + 2) by lia. exact HQ.
Qed.

Lemma Next_comment t rest v : Type_ t = CommentToken -> comment_wf (Data t) -> reads v (str "<!--" ++ Data t ++ str "-->" ++ rest) -> vtag v = [] ->
  wp Next (fun ty w => ty = Type_ t /\ gives t v rest w) v.
Proof.
  intros Hty Hwf Hr Htag. eapply Next_reads; [exact Hr|exact Htag|]. destruct (token_start_reads _ _ Hr) as [Hr0 _]. pose proof (inside_start v _ Hr Htag) as Hi0.
  eapply next_loop_markup; [exact Hr0|reflexivity|reflexivity|]. destruct (reads_cons _ _ _ Hr0) as [_ Hr1]. destruct (reads_cons _ _ _ Hr1) as [_ Hr2].
  pose proof (inside_adv _ _ _ _ (inside_adv _ _ _ _ Hi0)) as Hi2. set (v2 := adv (adv (token_start v))) in *. clearbody v2. clear Hr0 Hr1 Hi0. change (0 + 1 + 1) with 2 in Hi2.
  unfold markup. change (is_letter (chr "!")) with false. change (chr "!" =? chr "/") with false. rewrite Z.eqb_refl. cbn iota. apply wp_bind. apply (readMarkup_comment (Data t) rest); [exact Hwf|exact Hr2|].
  rewrite <- Hty. apply ret_token_ok. split; [reflexivity|]. assert (Hp : vpos v2 = 2) by apply Hi2. rewrite Hp.
  apply (gives_read_text t v (str "<!--") (Data t) (str "-->") rest v2 2).
  - by rewrite Hty.
  - apply text_value_plain; [intros _| |]; (eapply not_in_Forall; [exact Hwf|]; cbv beta; tauto).
  - exact Hi2.
  - exact (reads_max _ _ Hr2).
  - left. exact (reads_err _ _ Hr2).
Qed.

Definition doctype_wf (s : bytes) : Prop := Forall (fun c => c <> 13 /\ c <> chr "&" /\ c <> chr ">") s /\ (if s is c :: _ then is_space c = false else True).

Lemma readMarkup_doctype s rest v (Q : TokenType -> view -> Prop) : doctype_wf s -> reads v (str "DOCTYPE " ++ s ++ chr ">" :: rest) ->
  Q DoctypeToken (with_data (mkSpan (vpos v + 8) (vpos v + 8 + len s)) (with_pos (vpos v + 8 + len s + 1) v)) -> wp readMarkupDeclaration Q v.
Proof.
  intros [Hwf Hhead] Hr HQ. apply wp_bind, wp_data_from. set (v1 := with_data _ v). assert (Hr1 : reads v1 (chr "D" :: chr "O" :: str "CTYPE " ++ s ++ chr ">" :: rest)) by (apply reads_with_data; exact Hr).
  destruct (reads_cons _ _ _ Hr1) as [_ Hr2]. apply (wp_read_cons _ _ _ _ _ _ Hr1); cbv beta. apply (wp_read_cons _ _ _ _ _ _ Hr2); cbv beta. change ((chr "D" =? chr "-") && (chr "O" =? chr "-")) with false. cbn iota.
  pose proof (reads_pos _ _ Hr). apply wp_bind, wp_unread; [cbn [vpos adv with_pos v1 with_data]; lia|]. replace (with_pos _ (adv (adv v1))) with v1 by (unfold adv; rewrite !with_pos_pos; cbn [vpos with_pos]; replace (vpos v1 + 1 + 1 - 2) with (vpos v1) by lia; by rewrite with_pos_self).
  apply wp_bind, wp_bind, (expect_loop_reads _ (str "DOCTYPE") (32 :: s ++ chr ">" :: rest)); [reflexivity|exact Hr1|]. change (len (str "DOCTYPE")) with 7. pose proof (reads_pos_to _ (str "DOCTYPE") _ (vpos v1 + 7) Hr1 eq_refl) as Hr3.
  cbn [negb]. set (v3 := with_pos (vpos v1 + 7) v1) in *. destruct (reads_cons _ _ _ Hr3) as [_ Hr4]. apply wp_bind.
  assert (Hskip : forall Q' : unit -> view -> Prop, Q' tt (adv v3) -> wp skipWhiteSpace Q' v3).
  { intros Q' HQ'. destruct s as [|c s]; [eapply (skip_one v3 (chr ">") rest)|eapply (skip_one v3 c (s ++ chr ">" :: rest))]; (done || exact Hr3). }
  apply Hskip, wp_bind, wp_errored. rewrite (reads_err _ _ Hr4). apply wp_bind, (readUntilCloseAngle_reads s rest); [eapply Forall_impl; [exact Hwf|]; cbv beta; tauto|exact Hr4|].
  apply wp_ret. cbn iota. apply wp_ret. change (vpos (adv v3)) with (vpos v + 7 + 1). replace (vpos v + 7 + 1) with (vpos v + 8) by lia. exact HQ.
Qed.

Lemma Next_doctype t rest v : Type_ t = DoctypeToken -> doctype_wf (Data t) -> reads v (str "<!DOCTYPE " ++ Data t ++ chr ">" :: rest) -> vtag v = [] ->
  wp Next (fun ty w => ty = Type_ t /\ gives t v rest w) v.
Proof.
  intros Hty Hwf Hr Htag. eapply Next_reads; [exact Hr|exact Htag|]. destruct (token_start_reads _ _ Hr) as [Hr0 _]. pose proof (inside_start v _ Hr Htag) as Hi0.
  eapply next_loop_markup; [exact Hr0|reflexivity|reflexivity|]. destruct (reads_cons _ _ _ Hr0) as [_ Hr1]. destruct (reads_cons _ _ _ Hr1) as [_ Hr2].
  pose proof (inside_adv _ _ _ _ (inside_adv _ _ _ _ Hi0)) as Hi2. set (v2 := adv (adv (token_start v))) in *. clearbody v2. clear Hr0 Hr1 Hi0. change (0 + 1 + 1) with 2 in Hi2.
  unfold markup. change (is_letter (chr "!")) with false. change (chr "!" =? chr "/") with false. rewrite Z.eqb_refl. cbn iota. apply wp_bind. apply (readMarkup_doctype (Data t) rest); [exact Hwf|exact Hr2|].
  rewrite <- Hty. apply ret_token_ok. split; [reflexivity|]. assert (Hp : vpos v2 = 2) by apply Hi2. rewrite Hp. destruct Hwf as [Hwf _].
  apply (gives_read_text t v (str "<!DOCTYPE ") (Data t) (str ">") rest v2 2).
  - by rewrite Hty.
  - apply text_value_plain; [by rewrite Hty| |]; (eapply not_in_Forall; [exact Hwf|]; cbv beta; tauto).
  - exact Hi2.
  - exact (reads_max _ _ Hr2).
  - left. exact (reads_err _ _ Hr2).
Qed.

(** What follows a text: nothing, or a token that is no text. *)
Definition text_ends (rest : bytes) : Prop :=
  rest = [] \/ exists c r, rest = chr "<" :: c :: r /\ is_letter c || (c =? chr "/") || (c =? chr "!") || (c =? chr "?") = true.

Lemma next_loop_text d rest : chr "<" ∉ d -> forall v fuel (Q : option TokenType -> view -> Prop), reads v (d ++ rest) -> 0 < vpos v + len d -> text_ends rest -> (length d < fuel)%nat ->
  (rest = [] -> Q None (with_err (Some (vending v)) (with_pos (vpos v + len d) v))) ->
  Q (Some TextToken) (with_tt TextToken (with_data (mkSpan (start (vdata v)) (vpos v + len d)) (with_pos (vpos v + len d) v))) -> wp (next_loop fuel) Q v.
Proof.
  induction d as [|b d IH]; intros Hd v [|fuel] Q Hr Hp Hends Hf HN HS; cbn [length] in Hf; try lia; cbn [next_loop app] in *.
  - rewrite (@len_nil Z), Z.add_0_r, with_pos_self in *. destruct Hends as [->|(c & r & -> & Hc)].
    + apply (wp_read_end _ _ _ _ Hr), wp_ret, HN. reflexivity.
    + destruct (reads_cons _ _ _ Hr) as [_ Hr1]. apply (wp_read_cons _ _ _ _ _ _ Hr); cbv beta. rewrite Z.eqb_refl. cbn [negb]. apply (wp_read_cons _ _ _ _ _ _ Hr1); cbv beta. rewrite Hc. cbn [negb].
      apply wp_bind, (wp_gets _ (fun v => 0 <? vpos v - len (str "<a"))); [intros z _; cbn [vpos view_of]; z_cases; lia|]. change (len (str "<a")) with 2. cbn [vpos adv with_pos].
      rewrite (proj2 (Z.ltb_lt _ _)) by lia. apply wp_bind, wp_unread; [cbn [vpos adv with_pos]; lia|]. cbn [vpos adv with_pos]. replace (vpos v + 1 + 1 - 2) with (vpos v) by lia.
      replace (with_pos _ (adv (adv v))) with v by (unfold adv; by rewrite !with_pos_pos, with_pos_self). apply wp_bind, wp_data_to, ret_token_ok. rewrite Z.sub_0_r. exact HS.
  - apply not_elem_of_cons in Hd as [Hb Hd]. destruct (reads_cons _ _ _ Hr) as [_ Hr1]. apply (wp_read_cons _ _ _ _ _ _ Hr); cbv beta. rewrite (proj2 (Z.eqb_neq b (chr "<"))) by congruence. cbn [negb].
    rewrite len_cons in *. assert (Hs : vpos v + (len d + 1) = vpos (adv v) + len d) by (cbn [vpos adv with_pos]; lia). rewrite Hs in *. apply (IH Hd (adv v)); [exact Hr1|exact Hp|exact Hends|lia|exact HN|exact HS].
Qed.

Lemma Next_text t rest v : Type_ t = TextToken -> Data t <> [] -> reads v ((Data t ≫= escaped1) ++ rest) -> text_ends rest -> vtag v = [] ->
  wp Next (fun ty w => ty = Type_ t /\ gives t v rest w) v.
Proof.
  intros Hty Hne Hr Hends Htag. eapply Next_reads; [exact Hr|exact Htag|]. destruct (token_start_reads _ _ Hr) as [Hr0 _]. pose proof (inside_start v _ Hr Htag) as Hi0.
  set (v0 := token_start v) in *. clearbody v0. set (d := Data t ≫= escaped1) in *. assert (Hv : text_value (bool_decide (Type_ t = CommentToken)) false d = Data t).
  { rewrite Hty. unfold text_value, d. cbn [andb bool_decide]. rewrite convert_escaped. apply unescaped_escaped. }
  assert (Hld : 0 < len d).
  { destruct d as [|x d0] eqn:E; [|rewrite len_cons; pose proof (len_nonneg d0); lia]. destruct Hne. by rewrite <- Hv, Hty. }
  assert (Hp : vpos v0 = 0) by apply Hi0. assert (Hs : start (vdata v0) = 0) by (destruct Hi0 as (_ & _ & _ & _ & _ & _ & ->); reflexivity).
  assert (Hgive : forall u, inside 0 (d ++ rest) (vending v) u -> vmax u = 0 -> verr u = None \/ verr u = Some (vending v) /\ rest = [] ->
    gives t v rest (with_tt TextToken (with_data (mkSpan 0 (len d)) (with_pos (len d) u)))).
  { intros u Hu Hm He. pose proof (gives_read_text t v [] d [] rest u 0) as H. rewrite Hty in H at 4. change (len (@nil Z)) with 0 in H. rewrite !Z.add_0_r in H. apply H; [by rewrite Hty|exact Hv|exact Hu|exact Hm|exact He]. }
  apply (next_loop_text d rest); [apply escaped_no; [apply (bool_decide_eq_true_1 _); reflexivity|done]|exact Hr0|lia|exact Hends|rewrite length_app; lia| |].
  - intros ->. rewrite Hp, Z.add_0_l. cbn [vpos with_err with_pos]. rewrite (proj2 (Z.ltb_lt _ _)) by exact Hld. cbn [vdata with_err with_pos]. rewrite Hs. split; [by rewrite Hty|].
    apply (Hgive (with_err (Some (vending v0)) v0)); [exact Hi0|exact (reads_max _ _ Hr0)|right; split; [|done]]. cbn [verr with_err]. f_equal. apply Hi0.
  - rewrite Hp, Hs, Z.add_0_l. split; [by rewrite Hty|]. apply Hgive; [exact Hi0|exact (reads_max _ _ Hr0)|left; exact (reads_err _ _ Hr0)].
Qed.

(** * Printing *)

Definition token_wf (t : Token) : Prop :=
  match Type_ t with
  | ErrorToken => False
  | TextToken => Data t <> [] /\ DataAtom t = 0 /\ Attr t = []
  | CommentToken => comment_wf (Data t) /\ DataAtom t = 0 /\ Attr t = []
  | DoctypeToken => doctype_wf (Data t) /\ DataAtom t = 0 /\ Attr t = []
  | StartTagToken | SelfClosingTagToken => tag_name_wf (Data t) /\ Lookup (Data t) = Some (DataAtom t) /\ (Data t ∉ fragment_tags) /\ Forall attr_wf (Attr t)
  | EndTagToken => tag_name_wf (Data t) /\ Lookup (Data t) = Some (DataAtom t) /\ Attr t = []
  end.

(** No text follows a text; it would be read as one. *)
Fixpoint separated (l : list Token) : Prop :=
  match l with
  | [] => True
  | t :: l => (Type_ t = TextToken -> if l is t' :: _ then Type_ t' <> TextToken else True) /\ separated l
  end.

Definition quoted (a : Attribute) : bytes := 32 :: Key a ++ str "=" ++ 34 :: (Val a ≫= escaped1) ++ [34].

Lemma escape_ok s : escape s = Some (s ≫= escaped1).
Proof. apply escape_loop_ok. lia. Qed.

Lemma quoted_attrs l : mapM quoted_attr l = Some (quoted <$> l).
Proof. apply mapM_Some. induction l as [|a l IH]; constructor; [|exact IH]. unfold quoted_attr. by rewrite escape_ok. Qed.

Lemma quoted_text l e : concat (quoted <$> l) ++ e = match l with [] => e | _ => 32 :: attrs_text l e end.
Proof.
  induction l as [|a l IH]; [done|]. cbn [fmap list_fmap concat attrs_text]. rewrite <- app_assoc, IH. unfold quoted. cbn [app]. f_equal. rewrite <- !app_assoc. cbn [app]. by rewrite <- !app_assoc.
Qed.

Lemma tagString_ok t : tagString t = Some (Data t ++ concat (quoted <$> Attr t)).
Proof. unfold tagString. case_bool_decide as E; [rewrite E; cbn; by rewrite app_nil_r|]. by rewrite quoted_attrs. Qed.

Lemma printed_tag t c k e : Data t = c :: k -> (Data t ++ concat (quoted <$> Attr t)) ++ e = c :: tag_text k (Attr t) e.
Proof. intros E. rewrite <- app_assoc, quoted_text, E. done. Qed.

Definition printed (t : Token) : bytes := default [] (Token_String t).

Lemma Token_String_ok t : Token_String t = Some (printed t).
Proof. unfold printed, Token_String. destruct (Type_ t); rewrite ?tagString_ok, ?EscapeString_ok; done. Qed.

Lemma printed_all l : mapM Token_String l = Some (printed <$> l).
Proof. apply mapM_Some. induction l as [|t l IH]; constructor; [apply Token_String_ok|exact IH]. Qed.

(** Every token but a text starts a new one. *)
Lemma printed_head t rest : token_wf t -> Type_ t <> TextToken -> text_ends (printed t ++ rest).
Proof.
  intros Hwf Hty. unfold printed, Token_String. unfold token_wf in Hwf. right. destruct (Type_ t) eqn:E; try done.
  1, 3: destruct Hwf as (((c & k & En & Hc) & _) & _); rewrite tagString_ok; cbn [mbind option_bind default]; rewrite (printed_tag t c k) by done; exists c; eexists; split; [reflexivity|by rewrite Hc].
  - rewrite tagString_ok. cbn [mbind option_bind default]. exists (chr "/"). by eexists.
  - exists (chr "!"). by eexists.
  - exists (chr "!"). by eexists.
Qed.

Lemma printed_nonempty t : token_wf t -> printed t <> [].
Proof.
  intros Hwf. unfold printed, Token_String. unfold token_wf in Hwf. destruct (Type_ t); try done; rewrite ?tagString_ok; try done.
  rewrite EscapeString_ok. cbn [default]. destruct Hwf as (Hne & _). intros H. destruct Hne. change (Data t ≫= escaped1 = []) in H. by rewrite <- (unescaped_escaped (Data t) false), H.
Qed.

(** [Next] on a printed token. *)
Lemma Next_printed t rest v : token_wf t -> reads v (printed t ++ rest) -> vtag v = [] -> (Type_ t = TextToken -> text_ends rest) -> wp Next (fun ty w => ty = Type_ t /\ gives t v rest w) v.
Proof.
  intros Hwf Hr Htag Hends. unfold printed, Token_String in Hr. unfold token_wf in Hwf. destruct (Type_ t) eqn:E; try done; rewrite <- E; rewrite ?tagString_ok, ?EscapeString_ok in Hr; cbn [mbind option_bind default] in Hr.
  - apply Next_text; [done|by destruct Hwf|exact Hr|by apply Hends|exact Htag].
  - destruct Hwf as (Hn & _ & Hraw & Hl). pose proof Hn as ((c & k & En & Hc) & _). rewrite (printed_tag t c k) in Hr by done. apply (Next_start_tag t (str ">") c k rest); try done. by left.
  - destruct Hwf as (Hn & _ & Hl). pose proof Hn as ((c & k & En & Hc) & _). rewrite (printed_tag t c k), Hl in Hr by done. apply (Next_end_tag t c k rest); try done.
    change (reads v (chr "<" :: chr "/" :: c :: (k ++ str ">") ++ rest)) in Hr. rewrite <- app_assoc in Hr. exact Hr.
  - destruct Hwf as (Hn & _ & Hraw & Hl). pose proof Hn as ((c & k & En & Hc) & _). rewrite (printed_tag t c k) in Hr by done. apply (Next_start_tag t (str "/>") c k rest); try done. by right.
  - destruct Hwf as (Hc & _). change (reads v ((str "<!--" ++ Data t ++ str "-->") ++ rest)) in Hr. rewrite <- !app_assoc in Hr. by apply Next_comment.
  - destruct Hwf as (Hc & _). change (reads v ((str "<!DOCTYPE " ++ Data t ++ str ">") ++ rest)) in Hr. rewrite <- !app_assoc in Hr. by apply Next_doctype.
Qed.

(** [Token] then gives the token. *)
Lemma Token_printed t v rest w : token_wf t -> gives t v rest w -> current w -> wp Token_ (fun tok u => tok = t /\ edited w u /\ current u) w.
Proof.
  intros Hwf [H1 H2 H3 H4 H5 H6 H7 H8 H9 H10] Hc. eapply wp_mono; [by apply Token_ok|]. cbv beta. intros tok u (He & Hu & Htext & Htag). split; [|by split]. clear He Hu. destruct (is_text (Type_ t)) eqn:Et.
  - rewrite H1, H7, H8 in Htext. rewrite Htext by done. cbn [orb]. rewrite H9 by done. unfold token_wf in Hwf. destruct t as [ty a d l]; cbn in *. destruct ty; try done; destruct Hwf as (_ & -> & ->); reflexivity.
  - destruct (H10 eq_refl) as (Hs & Hle & Hsub & Hret & Hsp). destruct Htag as (Hty & Hd & Ha & Hl).
    + lia.
    + rewrite H1. unfold token_wf in Hwf. destruct (Type_ t) eqn:E; try done; [by left| |by left]. right. split; [done|]. destruct Hwf as (_ & _ & Hnil). rewrite Hnil in Hsp.
      destruct (vattr w); [|done]. rewrite Hret. done.
    + rewrite Hsub in Hd, Ha, Hl. assert (Hlow : lower (Data t) = Data t) by (unfold token_wf in Hwf; destruct (Type_ t); try done; apply Hwf). rewrite Hlow in Hd, Ha, Hl.
      assert (Hput : put (start (vdata w)) (Data t) (vtext w) = vtext w) by (rewrite <- Hsub; apply put_sub; lia). rewrite Hput, Hret in Hl.
      assert (Hlk : Lookup (Data t) = Some (DataAtom t) /\ Forall attr_wf (Attr t)).
      { unfold token_wf in Hwf. destruct (Type_ t); try done; destruct Hwf as (_ & ? & Hx); [by destruct Hx| |by destruct Hx]. rewrite Hx. by split. }
      destruct Hlk as [Hlk Hal]. rewrite Hlk in Ha. injection Ha as Ha. change (from 0 (vattr w)) with (vattr w) in Hl. rewrite (attr_list_spelled (vattr w) (end_ (vdata w)) _ (Attr t)) in Hl by (done || lia).
      destruct tok, t; cbn in *; congruence.
Qed.

Lemma tokens_printed l : Forall token_wf l -> separated l -> forall v fuel, current v -> err_ok v -> vmax v = 0 -> vtag v = [] -> from (vpos v) (vtext v) = concat (printed <$> l) -> (l <> [] -> verr v = None) ->
  (length l < fuel)%nat -> wp (tokens fuel) (fun r _ => r = (l, Some (vending v))) v.
Proof.
  induction 1 as [|t l Ht Hl IH]; intros Hsep v fuel Hc He Hm Htag Hf Herr Hfuel.
  - eapply wp_mono; [apply tokens_ok; [done|done|done|unfold left; rewrite Hf; cbn in *; lia]|]. cbv beta. intros [l e] w (Hend & Hlen & _). cbn [fst snd] in *. unfold left in Hlen. rewrite Hf in Hlen. destruct l; [by rewrite Hend|cbn in Hlen; lia].
  - destruct fuel as [|fuel]; cbn [length] in Hfuel; [lia|]. cbn [separated] in Hsep. destruct Hsep as [Hnext Hsep]. apply wp_pos. intros Hv. cbn [fmap list_fmap concat] in Hf. set (rest := concat (printed <$> l)) in *.
    assert (Hr : reads v (printed t ++ rest)) by (split; [by apply Herr|done|lia|done]).
    assert (Hends : Type_ t = TextToken -> text_ends rest) by (intros Hty; specialize (Hnext Hty); destruct Hl as [|t' l' Ht' Hl']; [by left|by apply printed_head]).
    cbn [tokens]. apply wp_bind. eapply wp_mono; [apply wp_and; [by apply (Next_printed t rest)|apply Next_ok]|]. cbv beta. intros ty w [[-> Hg] (Hk & Hok & _)].
    assert (Hne : Type_ t <> ErrorToken) by (intros E; unfold token_wf in Ht; by rewrite E in Ht). rewrite bool_decide_false by done.
    assert (Hew : err_ok w) by (apply (kept_ok _ _ Hk), kept_next_start; done).
    apply wp_bind. eapply wp_mono; [eapply Token_printed; [exact Ht|exact Hg|by eapply token_ok_current]|]. cbv beta. intros tok u (-> & Hed & Hcu).
    assert (Hendu : vending u = vending v) by (by rewrite (edited_ending _ _ Hed), (gives_ending _ _ _ _ Hg)).
    assert (Hfu : from (vpos u) (vtext u) = rest) by (rewrite (edited_pos _ _ Hed), (edited_rest _ _ Hed); exact (gives_rest _ _ _ _ Hg)).
    apply wp_bind. eapply wp_mono; [apply (IH Hsep u fuel); [done| | | |exact Hfu| |lia]|].
    + intros Hmu Hne'. rewrite (edited_err _ _ Hed), (edited_pos _ _ Hed), (edited_len _ _ Hed), (edited_ending _ _ Hed) in *. apply Hew; [|done]. by rewrite <- (edited_max _ _ Hed).
    + by rewrite (edited_max _ _ Hed), (gives_max _ _ _ _ Hg).
    + by rewrite (edited_tag _ _ Hed), (gives_tag _ _ _ _ Hg).
    + intros Hnil. rewrite (edited_err _ _ Hed). destruct (gives_err _ _ _ _ Hg) as [|[_ Hrest]]; [done|]. destruct l as [|t' l']; [done|]. apply Forall_cons in Hl as [Ht' _].
      unfold rest in Hrest. cbn [fmap list_fmap concat] in Hrest. apply app_eq_nil in Hrest as [Hrest _]. by destruct (printed_nonempty t' Ht').
    + cbv beta. intros r x ->. apply wp_ret. by rewrite Hendu.
Qed.


